(* ===== verification/_CoqProject ===== *)
-Q . S2P
Prelude.v
Decimal.v
Money.v
Exact.v
ExactGrid.v
ExactProps.v
Allocate.v
Iso.v
BTree.v
Table.v
Retry.v
Handler.v
Prioritizer.v
Sql.v
OutboxModel.v
OutboxWorkers.v
OutboxRun.v
OutboxDelivery.v
OutboxTransactional.v
OutboxSchedule.v
Sdk.v
Lease.v
DomainErrors.v
MoneyText.v
Posting.v
Settlement.v
Precedence.v
PaymentAllocation.v
Dispute.v
Chargeback.v
Credit.v
Reversal.v
FxTranslate.v
FxClosing.v
Period.v
InvoicePolicy.v
Aging.v
DualControl.v
Recognition.v
ExactText.v
Reconciliation.v
Splitter.v
Notes.v
Invoice.v
Adjustment.v
Json.v
Intent.v
StoredIntent.v
DualApproval.v
DualApprovalInv.v
DualApprovalRun.v
DualApprovalReplay.v
Canonical.v
Chain.v
Journal.v
ChainVerify.v
ChainRun.v
Projector.v
ProjectorProps.v
Idempotency.v
PostingEngine.v
PostingRun.v
PostingLaws.v
TieOut.v
TieOutProps.v
TieOutRun.v
TieOutReport.v
TieOutIncremental.v
PeriodClose.v
PostingSamples.v
ApprovalModel.v
ApprovalEngine.v
