(* ===== verification/Prelude.v ===== *)
(** * The billing core of the Gears repository

    A model of the money, posting, payment, approval and tamper-evidence code of the
    billing gears ([gears/bss] under [src/]), and of the libraries they rely on for
    delivery and coordination ([libs/toolkit-db], [gears/bss/libs/coord]), with the
    theorems that make it correct.
    Definitions keep the names of the Rust items they translate; the field of a record
    carries a prefix where two structs share a field name.

    ** The program and its parts

    Money is a decimal with a currency ([libs/money]).  Sums, products and quotients
    are taken in bounded exact fractions and narrowed back to a posting only when the
    result is representable; [allocate] splits an amount without losing a unit.  The
    ledger ([ledger/ledger/src]) turns business events into journal entries: pure
    builders under [domain/] compute the lines, and the posting engine
    ([infra/posting]) commits them in one serializable transaction: it claims the
    idempotency key of the request, runs the gates, writes the journal, projects the
    lines into six balance caches and seals the entry into a per-tenant hash chain,
    which a daily job walks.  The tie-out job recomputes the caches from the journal,
    and a period closes only on a clean tie-out.  Changes that need
    a second pair of eyes pass through the approval library ([libs/approval]) or, in the
    ledger, through its dual-control service ([infra/approval]): a policy says which,
    the mutation is captured as an intent and stored, and a second person's approval
    replays it.  Transactions that lose a race are
    repeated by the retry loop of [libs/toolkit-db].  Jobs that must run once take a
    database lease ([libs/coord]).  Events leave the ledger through the transactional
    outbox of [libs/toolkit-db]: a message is written with the business transaction,
    numbered per partition by a sequencer that a prioritizer schedules, handed to a
    handler by a processor, and swept once it is behind the partition's cursor.

    ** The files

    - [Prelude]: the [result] monad, machine integers, sums over lists, byte strings,
      the interface [Sha256], and the tactics and hint databases of the development.
    - [Decimal], [Money], [Exact], [ExactGrid], [ExactProps], [Allocate], [Iso],
      [MoneyText]: [libs/money/src] and the storage codec
      [infra/storage/money_text.rs].  [RustDecimal] and [DecimalText] are the
      interfaces of the decimal crate, with an executable instance.  [ExactGrid] reads
      decimal amounts as whole numbers of 10^-28 units, which is how every file above
      it reasons about money.
    - [Table]: the interface of a database table with a conditional update; [Sql]: the
      statements of hand-written SQL on tables as lists of rows; [BTree]: ordered maps.
    - [Retry]: [libs/toolkit-db/src/contention.rs] and the retrying transaction of
      [secure/db.rs].
    - [Handler]: request handlers as trees of atomic steps, their concurrent runs, and a
      rely-guarantee logic for them.
    - [Lease]: [libs/coord/src/lease].
    - [Prioritizer], [OutboxModel], [OutboxWorkers]: [libs/toolkit-db/src/outbox], that
      is the scheduler of the sequencers, the tables and the enqueue, and the code of
      the sequencer, the processors and the vacuum.  [OutboxRun] and [OutboxDelivery]
      hold the runs of an outbox under leases, [OutboxTransactional] the runs with
      transactional handlers, [OutboxSchedule] the runs of any number of instances with
      their prioritizers and sequencers.
    - [Sdk], [DomainErrors]: the enums and posting DTOs of [ledger-sdk] and the error
      types of the ledger.
    - [Posting]: [domain/posting.rs], the gate, and the interface [Balanced] through
      which the builders show that their entries pass it.
    - [Settlement], [Precedence], [PaymentAllocation], [Dispute], [Chargeback],
      [Credit]: [domain/payment] and [infra/storage/repo/dispute_repo.rs].
    - [Invoice], [InvoicePolicy], [Aging], [Reversal]: [domain/invoice].
    - [Reconciliation]: [domain/reconciliation.rs].
    - [DualControl]: [domain/approval.rs] and [domain/approval/policy.rs].
    - [Intent], [StoredIntent]: [domain/approval/intent.rs] and
      [infra/approval/stored_intent.rs].  An intent is one type over its money, so the
      domain and the stored form are two instances of it.
    - [DualApproval]: [infra/approval/service.rs], [executor.rs],
      [infra/storage/repo/approval_repo.rs], [infra/posting/retry.rs] and the
      maintenance tick of [module.rs].  [DualApprovalInv] holds the invariant of the
      tables, [DualApprovalRun] the runs of the service, [DualApprovalReplay] what a
      replaying executor adds.
    - [FxTranslate], [FxClosing]: [domain/fx].
    - [Period], [Recognition]: [domain/period.rs] and [domain/recognition].
    - [ExactText]: the text of exact amounts ([libs/money/src/exact.rs]).
    - [Splitter], [Notes], [Adjustment]: [domain/adjustment], that is the split of a
      note, credit and debit notes, refunds and governed manual adjustments.
    - [Json], [Canonical], [Chain], [Journal], [ChainVerify], [ChainRun]:
      [domain/canonical.rs], [domain/chain.rs], [domain/audit_chain.rs], the journal
      rows and repositories, [infra/posting/chain.rs] and [infra/jobs/verifier.rs].
    - [Projector], [Idempotency], [PostingEngine]: [infra/posting/projector.rs],
      [idempotency.rs], and [service.rs] with the gates of [period.rs], [freeze.rs] and
      [infra/policy_version.rs].  [ProjectorProps] shows that projecting keeps every
      cache equal to the sum of its deltas, [PostingRun] holds the runs of the engine
      and their invariant [books], [PostingLaws] what follows for the ledger.
    - [TieOut], [TieOutIncremental]: [infra/jobs/tieout.rs] and
      [infra/storage/repo/verified_balance_repo.rs]; [TieOutProps], [TieOutRun] and
      [TieOutReport] compose the report with the runs of the engine.
    - [PeriodClose]: the transactions of [infra/period_close.rs].  [PostingSamples]
      applies the properties of the posting files to concrete ledgers.
    - [ApprovalModel], [ApprovalEngine]: [libs/approval/src].

    ** How code is rendered

    Fallible functions return [result E A], and [?] is the bind of that monad.  Error
    values keep their variant and drop the diagnostic text.  Integers are [Z]; where
    the code checks a width the check is written out ([checked_i32] and its kin), and
    where it relies on a width the bound is a hypothesis or an invariant.  Database
    state is passed explicitly.  Operations of one serializable transaction are
    one step; the dispute repository and the approval store, which rely on
    compare-and-swap, are modelled as interleavings of reads and writes.  Concurrent
    components are runs: a list of operations executed from an initial state, one step
    per transaction or critical section, whose parameters are what the environment
    decides (clocks, snapshots, fresh identifiers, answers of handlers, crashes); a
    theorem on runs holds for every list.  The requests of the dual-control service are
    programs in the monad of [Handler], which other requests interleave at every
    transaction, and which a run may kill between any two steps.  Where a statement speaks of the past the
    state carries what was enqueued, numbered or handled, which no operation reads.
    Code outside the repository is a class with its documented laws: [RustDecimal],
    [DecimalText], [DecimalMul], [Sha256], [Json], [Serde], [JsonText], [Table],
    [JournalDb], [Store], [DateText], [UuidSource].  The port [ApprovalExecutor] is a class too, which the ledger's
    executor is shown to satisfy.  Each
    theorem over such a class with hypotheses has a witness on a concrete instance.

    ** What the theorems show

    - Money: the exact operations refine the rationals under the digit budget;
      rounding is to the nearest, ties to even; narrowing succeeds exactly on
      representable values; shares of an allocation add up to the total, each is the
      rounded proportion, and the call succeeds on every admissible input; parsing
      accepts exactly plain decimals, and stored money reads back.
    - Postings: the gate admits exactly the balanced entries.  Settlement, return,
      allocation, chargeback and credit builders return exactly their documented legs
      and reject everything else with the documented error; a reversal nets its
      original on every grain; a dispute cycle releases what it parked.
    - The ledger in operation: in every run of posts, reversals, queue intakes and
      changes of the reference tables, a business key has at most one entry, also under
      retries and lost acknowledgements; a repeated request is answered with the first
      entry or refused as a conflict; the payload hash binds the financial content; the
      trial balance of every tenant is zero; guarded balances are not negative; cache
      rows are locked in one order.
    - Tie-out and close: the full tie-out of such a ledger finds nothing in the books,
      and finds any altered account balance; a period is closed only through its gate
      and then takes no more entries.  The incremental tie-out is shown to count lines
      twice in two situations.
    - Invoices: an invoice entry is built exactly for admissible invoices, with every
      group total on its line; the ageing report puts every balance into its bucket.
    - Reconciliation: totals tie out exactly when the postings behind them agree, and
      the close decision keeps every budget.
    - Payments: the fill of a precedence policy is the greedy one; the dispute machine
      accepts exactly the legal transitions, also under interleaved writers.
    - Exchange: a translated entry balances in the functional currency through its
      anchor; relief never exceeds what is carried; realized and unrealized results
      balance.
    - Recognition: period arithmetic is month arithmetic, and a derived schedule
      passes the checks every stored schedule is held to.
    - Adjustments: a note is split exactly when its placement is forced; its plan books
      every part to its account and reduces no schedule beyond what it can release; the
      stages of a refund book what the single step books, and a claw-back the opposite;
      the governor admits exactly the sound manual adjustments.
    - Chains: a digest determines the content it covers, up to a collision that the
      statement exhibits; verification terminates, is clean on every honest run, and
      two journals that verify clean with equal tips agree on their sealed history.
    - Approvals: a unit is approved only by a quorum of distinct eligible reviewers on
      the content it stores; decided units are final; a version identifies content.
      A dual-control policy is well formed by construction, and the gate asks for a
      second person exactly when the rule of the operation says so.
    - Dual control at work: in every concurrent run of the service a mutation is
      executed only by somebody other than its preparer, for a latched revision, with
      the intent stored there; decisions are audited and final; a resubmission edits
      the amount at most, and the captured request is replayed field for field.  An
      executed mutation is not disowned if the executor replays and approvals of one
      request do not overlap, and can be without either.
    - Retry and leases: a retried transaction keeps its writes at most once; a live
      lease is exclusive, its commits are fenced, and a heartbeat keeps it.
    - Outbox: a partition is held by one sequencer at a time and no dirty mark is lost;
      nothing enqueued is lost or numbered twice, and a row that waits to be numbered
      always has an instance that sees to it; processors read the next messages in
      order; everything behind a cursor was handled or is a dead letter; a handler that
      completes its batches drains its partition; transactional handlers get every
      message in exactly one call that was not retried.  Two theorems also bound the
      guarantees: a counter of attempts that is full stops its partition, and a retried
      transactional call keeps its writes.

    ** Fuel and bounds

    Recursion on a non-structural measure carries fuel.  The Euclidean algorithm of
    [Exact] takes one step more than the size of its arguments, the binary search of
    [Iso] the length of the table, and the walk of [ChainVerify] one step more than
    the sealed rows, the retry loops their budget of attempts, the page loops of the
    tie-out one step more than the rows, and the loop of a leased handler one step more
    than its batch; in each case a lemma shows that the fuel is enough, so no theorem
    is conditional on it.  The digit budget of [Exact] (256 digits) and the posting
    range (below 10^28 in absolute value at scale 28) are the code's own; [small]
    states the slack that lets sums of postings be computed without overflow.

    ** What the ledger's runs assume

    A run of [PostingRun] starts with empty tables.  The scope of a request covers its
    own tenant, and the tie-out theorems take it to cover no other ([tenant_scoped]).
    The chart of accounts only grows, and an account keeps its owner and normal side.
    A sidecar keeps the journal, the caches, the reference tables and existing dedup
    rows ([sidecar_keeps]); the composite refund with a credit note, whose sidecar
    writes a second entry itself, is outside of this.  The tie-out theorems take line
    and entry identifiers to be distinct within a tenant, as random UUIDs are; the
    tables' own keys include the period.

    ** Not modelled

    - The civil calendar ([period_id_for] and its inverses), balance and query DTOs:
      the time crate, or plain data.
    - The ledger's exception queue, schedule changes and provisioning plans: pure code
      of the same kind as what is modelled, not translated yet.
    - Around the outbox: the registration of queues, the worker loops with their
      timers, the administration of dead letters, in-memory subscriptions and
      statistics; the delay between retries.  The text of SQL statements is read as the
      statement it is, one row version at a time.
    - Around the posting engine: the event of a posted entry (its publisher only logs),
      the texts of alarms and errors, and the sidecars of the payment and adjustment
      services.  Of the tie-out job: the enumeration of tenants and the alarms of a tick.
      Of the period close: the composition of its transactions with the lease.
    - The REST layer, the services other than posting and dual control, jobs other than
      the chain walk and the tie-out, and the other repositories: wiring of HTTP, sessions and events around the
      domain.  What dual control asks of them (rates, currencies, the reversed entry, the
      answers of the mutation surfaces) is decided by the environment of a run.
    - The pricing and products gears, the platform gears, the rest of the toolkit
      libraries and the applications: separate products or infrastructure. *)

From stdpp Require Export base tactics list numbers option strings pretty gmap.
From Stdlib Require Export ZArith Lia Sorted.
From stdpp Require Import sorting.
From Stdlib Require Import Znumtheory.

#[global] Open Scope Z_scope.

(** ** Results

    Rust's [Result<A, E>].  The error type comes first, so that [result E] is
    a monad and stdpp's [x ← m; k] reads like the source's [?]. *)

Inductive result (E A : Type) : Type :=
| Ok (a : A)
| Err (e : E).
Arguments Ok {E A} a.
Arguments Err {E A} e.

#[global] Instance result_ret {E} : MRet (result E) := fun A a => Ok a.
#[global] Instance result_bind {E} : MBind (result E) := fun A B f m =>
  match m with
  | Ok a => f a
  | Err e => Err e
  end.
#[global] Instance result_fmap {E} : FMap (result E) := fun A B f m =>
  match m with
  | Ok a => Ok (f a)
  | Err e => Err e
  end.

#[global] Instance result_eq_dec {E A} `{EqDecision E, EqDecision A} :
  EqDecision (result E A).
Proof. solve_decision. Defined.

(** [Result::map_err], and the conversion that [?] applies through [From]. *)
Definition map_err {E F A} (f : E -> F) (m : result E A) : result F A :=
  match m with
  | Ok a => Ok a
  | Err e => Err (f e)
  end.

(** [if !cond { return Err(e) }]. *)
Definition ensure {E} (b : bool) (e : E) : result E unit :=
  if b then Ok tt else Err e.

(** [Option::ok_or]. *)
Definition ok_or {E A} (o : option A) (e : E) : result E A :=
  match o with
  | Some a => Ok a
  | None => Err e
  end.

(** [Result::is_ok]. *)
Definition is_ok {E A} (m : result E A) : bool :=
  match m with
  | Ok _ => true
  | Err _ => false
  end.

(** A [for] loop over a slice whose body uses [?]. *)
Fixpoint fold_res {E A B} (f : A -> B -> result E A) (acc : A) (l : list B) :
    result E A :=
  match l with
  | [] => Ok acc
  | x :: l => acc' ← f acc x; fold_res f acc' l
  end.

(** [iter().map(f).collect::<Result<Vec<_>, _>>()]. *)
Fixpoint map_res {E A B} (f : A -> result E B) (l : list A) : result E (list B) :=
  match l with
  | [] => Ok []
  | x :: l => y ← f x; ys ← map_res f l; Ok (y :: ys)
  end.

Lemma bind_ok {E A B} (m : result E A) (f : A -> result E B) b :
  (m ≫= f) = Ok b <-> exists a, m = Ok a /\ f a = Ok b.
Proof. destruct m; cbn; naive_solver. Qed.

Lemma bind_err {E A B} (m : result E A) (f : A -> result E B) e :
  (m ≫= f) = Err e <-> m = Err e \/ exists a, m = Ok a /\ f a = Err e.
Proof. destruct m; cbn; naive_solver. Qed.

Lemma fmap_ok {E A B} (m : result E A) (f : A -> B) b :
  (f <$> m) = Ok b <-> exists a, m = Ok a /\ b = f a.
Proof. destruct m; cbn; naive_solver. Qed.

Lemma map_err_ok {E F A} (f : E -> F) (m : result E A) a :
  map_err f m = Ok a <-> m = Ok a.
Proof. destruct m; cbn; naive_solver. Qed.

Lemma ensure_ok {E} (b : bool) (e : E) u : ensure b e = Ok u <-> b = true.
Proof. destruct b, u; cbn; naive_solver. Qed.

Lemma ok_or_ok {E A} (o : option A) (e : E) a : ok_or o e = Ok a <-> o = Some a.
Proof. destruct o; cbn; naive_solver. Qed.

Lemma is_ok_exists {E A} (m : result E A) : is_ok m = true -> exists a, m = Ok a.
Proof. destruct m; [by eexists|done]. Qed.

Lemma fold_res_app {E A B} (f : A -> B -> result E A) acc l1 l2 :
  fold_res f acc (l1 ++ l2) = (acc' ← fold_res f acc l1; fold_res f acc' l2).
Proof.
  revert acc; induction l1 as [|x l1 IH]; intros acc; cbn; [done|].
  destruct (f acc x); cbn; auto.
Qed.

(** The loop rule: an invariant indexed by the elements still to visit. *)
Lemma fold_res_ind {E A B} (P : A -> list B -> Prop) (f : A -> B -> result E A) :
  (forall acc x l acc', P acc (x :: l) -> f acc x = Ok acc' -> P acc' l) ->
  forall l acc acc', P acc l -> fold_res f acc l = Ok acc' -> P acc' [].
Proof.
  intros Hstep l; induction l as [|x l IH]; intros acc acc' HP; cbn.
  - by intros [= <-].
  - intros (acc1 & Hf & Hrest)%bind_ok. eauto.
Qed.

(** A loop of checks passes when every check does. *)
Lemma unit_loop {A E} (f : A -> result E unit) (P : A -> Prop) l :
  (forall x, f x = Ok tt <-> P x) ->
  fold_res (fun _ x => f x) tt l = Ok tt <-> Forall P l.
Proof.
  intros Hf. induction l as [|x l IH]; cbn [fold_res]; [by split|].
  rewrite Forall_cons, <- IH, <- Hf, bind_ok. split.
  - by intros ([] & ? & ?).
  - intros [? ?]. by exists tt.
Qed.

Lemma map_res_ok {E A B} (f : A -> result E B) l ys :
  map_res f l = Ok ys <-> Forall2 (fun x y => f x = Ok y) l ys.
Proof.
  revert ys; induction l as [|x l IH]; intros ys; cbn.
  - split; [by intros [= <-]; constructor | by inversion 1].
  - split.
    + intros (y & Hy & (zs & Hzs & [= <-])%bind_ok)%bind_ok.
      constructor; [done | by apply IH].
    + inversion 1 as [|? y ? zs Hy Hrest]; subst. rewrite Hy; cbn.
      by apply IH in Hrest as ->.
Qed.

(** A loop over fallible steps, each exact for [P], is exact for [Forall P]. *)
Lemma map_res_exact {E A B} (f : A -> result E B) (P : A -> Prop) (Q : A -> B -> Prop) l :
  (forall x, x ∈ l -> match f x with Ok y => P x /\ Q x y | Err _ => ~ P x end) ->
  match map_res f l with Ok ys => Forall P l /\ Forall2 Q l ys | Err _ => ~ Forall P l end.
Proof.
  induction l as [|x l IH]; intros Hf; cbn [map_res]; [by split; constructor|].
  specialize (IH ltac:(intros; apply Hf; by right)). specialize (Hf x ltac:(by left)).
  destruct (f x); cbn; [|by intros ?%Forall_inv]. destruct (map_res f l); cbn; [|by intros ?%Forall_inv_tail].
  destruct Hf, IH. split; by constructor.
Qed.

(** Permuted inputs decode to permuted outputs. *)
Lemma map_res_perm {E A B} (f : A -> result E B) l1 l2 ys : l1 ≡ₚ l2 -> map_res f l1 = Ok ys ->
  exists ys', map_res f l2 = Ok ys' /\ ys ≡ₚ ys'.
Proof.
  setoid_rewrite map_res_ok. intros Hp. revert ys. induction Hp as [|x l1 l2 _ IH|x y l|l1 l2 l3 _ IH1 _ IH2]; intros ys Hl.
  - exists ys. done.
  - apply Forall2_cons_inv_l in Hl as (z & zs & Hz & Hzs & ->). destruct (IH zs Hzs) as (ws & Hws & Hpw).
    exists (z :: ws). split; [by constructor|by constructor].
  - apply Forall2_cons_inv_l in Hl as (z & zs & Hz & (w & ws & Hw & Hws & ->)%Forall2_cons_inv_l & ->).
    exists (w :: z :: ws). split; [by repeat constructor|constructor].
  - destruct (IH1 ys Hl) as (zs & Hzs & Hpz). destruct (IH2 zs Hzs) as (ws & Hws & Hpw).
    exists ws. split; [done|]. by rewrite Hpz.
Qed.

Lemma map_res_length {E A B} (f : A -> result E B) l ys :
  map_res f l = Ok ys -> length ys = length l.
Proof. intros H%map_res_ok. symmetry. by eapply Forall2_length. Qed.

(** ** Tactics *)

(** [res_inv] takes apart a hypothesis that says a computation returned [Ok]. *)
Ltac res_step :=
  match goal with
  | H : Ok _ = Ok _ |- _ => injection H as H; subst
  | H : Err _ = Ok _ |- _ => discriminate H
  | H : Ok _ = Err _ |- _ => discriminate H
  | H : Err _ = Err _ |- _ => injection H as H; subst
  | H : (_ ≫= _) = Ok _ |- _ =>
      let a := fresh "r" in let E := fresh "E" in
      apply bind_ok in H as (a & E & H)
  | H : map_err _ _ = Ok _ |- _ => apply map_err_ok in H
  | H : ensure _ _ = Ok _ |- _ => apply ensure_ok in H
  | H : ok_or _ _ = Ok _ |- _ => apply ok_or_ok in H
  | H : (_ <$> _) = Ok _ |- _ =>
      let a := fresh "r" in let E := fresh "E" in
      apply fmap_ok in H as (a & E & H); subst
  | H : (if ?b then Err _ else _) = Ok _ |- _ =>
      let E := fresh "E" in destruct b eqn:E; [discriminate H|]
  | H : (if ?b then _ else Err _) = Ok _ |- _ =>
      let E := fresh "E" in destruct b eqn:E; [|discriminate H]
  end.
Ltac res_inv := repeat (res_step; cbn beta iota in * ).

(** Turn boolean comparisons of the code into propositions for [lia]. *)
Ltac bool_to_prop :=
  repeat match goal with
  | H : andb _ _ = true |- _ => apply andb_true_iff in H as [? ?]
  | H : andb _ _ = false |- _ => apply andb_false_iff in H
  | H : orb _ _ = false |- _ => apply orb_false_iff in H as [? ?]
  | H : orb _ _ = true |- _ => apply orb_true_iff in H
  | H : negb _ = true |- _ => apply negb_true_iff in H
  | H : negb _ = false |- _ => apply negb_false_iff in H
  | H : (_ =? _) = true |- _ => apply Z.eqb_eq in H
  | H : (_ =? _) = false |- _ => apply Z.eqb_neq in H
  | H : (_ <? _) = true |- _ => apply Z.ltb_lt in H
  | H : (_ <? _) = false |- _ => apply Z.ltb_ge in H
  | H : (_ <=? _) = true |- _ => apply Z.leb_le in H
  | H : (_ <=? _) = false |- _ => apply Z.leb_gt in H
  | H : bool_decide _ = true |- _ => apply bool_decide_eq_true in H
  | H : bool_decide _ = false |- _ => apply bool_decide_eq_false in H
  end.

(** Decide a closed goal by computation. *)
Ltac ground := clear; by vm_compute.

(** ** Integers *)

Definition i128_min : Z := - 2 ^ 127.
Definition i128_max : Z := 2 ^ 127 - 1.
Definition i64_min : Z := - 2 ^ 63.
Definition i64_max : Z := 2 ^ 63 - 1.
Definition i32_min : Z := - 2 ^ 31.
Definition i32_max : Z := 2 ^ 31 - 1.

Definition in_i128 (x : Z) : bool := (i128_min <=? x) && (x <=? i128_max).
Definition in_i64 (x : Z) : bool := (i64_min <=? x) && (x <=? i64_max).
Definition in_i32 (x : Z) : bool := (i32_min <=? x) && (x <=? i32_max).

(** The checked operations of the [i128] type: [None] on overflow. *)
Definition checked_i128 (x : Z) : option Z := if in_i128 x then Some x else None.

(** The checked and the saturating operations of the [i32] type. *)
Definition checked_i32 (x : Z) : option Z := if in_i32 x then Some x else None.
Definition saturating_i32 (x : Z) : Z := Z.max i32_min (Z.min i32_max x).

Lemma pow10_pos k : 0 <= k -> 0 < 10 ^ k.
Proof. intros; apply Z.pow_pos_nonneg; lia. Qed.

Lemma pow10_split a b : 0 <= a <= b -> 10 ^ b = 10 ^ a * 10 ^ (b - a).
Proof. intros; rewrite <- Z.pow_add_r by lia; f_equal; lia. Qed.

Lemma pow10_le a b : 0 <= a <= b -> 10 ^ a <= 10 ^ b.
Proof. intros; apply Z.pow_le_mono_r; lia. Qed.

(** ** Bytes of a string *)

Definition byte_code (c : Ascii.ascii) : Z := Z.of_nat (Ascii.nat_of_ascii c).
Definition bytes (s : string) : list Ascii.ascii := String.list_ascii_of_string s.
Definition byte_len (s : string) : Z := Z.of_nat (String.length s).

(** [str::trim().is_empty()]: every character has the White_Space property.  The
    codes are those of its UTF-8 encodings. *)
Fixpoint all_white (l : list Z) : bool :=
  match l with
  | [] => true
  | c :: l1 =>
      if ((9 <=? c) && (c <=? 13)) || (c =? 32) then all_white l1
      else match l1 with
      | [] => false
      | d :: l2 =>
          if (c =? 194) && ((d =? 133) || (d =? 160)) then all_white l2
          else match l2 with
          | [] => false
          | e :: l3 =>
              (((c =? 225) && (d =? 154) && (e =? 128))
               || ((c =? 226) && (d =? 128)
                   && (((128 <=? e) && (e <=? 138)) || (e =? 168) || (e =? 169) || (e =? 175)))
               || ((c =? 226) && (d =? 129) && (e =? 159))
               || ((c =? 227) && (d =? 128) && (e =? 128))) && all_white l3
          end
      end
  end.
Definition trim_is_empty (s : string) : bool := all_white (byte_code <$> bytes s).

(** [u8::is_ascii_uppercase], [u8::is_ascii_digit]. *)
Definition is_ascii_uppercase (c : Ascii.ascii) : bool :=
  (65 <=? byte_code c) && (byte_code c <=? 90).
Definition is_ascii_digit (c : Ascii.ascii) : bool :=
  (48 <=? byte_code c) && (byte_code c <=? 57).

(** [str::to_ascii_uppercase], [str::to_ascii_lowercase]. *)
Definition ascii_upper (c : Ascii.ascii) : Ascii.ascii :=
  if (97 <=? byte_code c) && (byte_code c <=? 122)
  then Ascii.ascii_of_nat (Z.to_nat (byte_code c - 32)) else c.
Definition ascii_lower (c : Ascii.ascii) : Ascii.ascii :=
  if is_ascii_uppercase c then Ascii.ascii_of_nat (Z.to_nat (byte_code c + 32)) else c.
Definition to_ascii_uppercase (s : string) : string :=
  String.string_of_list_ascii (map ascii_upper (bytes s)).
Definition to_ascii_lowercase (s : string) : string :=
  String.string_of_list_ascii (map ascii_lower (bytes s)).

(** ** Digests and hexadecimal *)

(** The SHA-256 of [aws_lc_rs]: 32 bytes from any bytes. *)
Class Sha256 := {
  sha256 : list Ascii.ascii -> list Ascii.ascii;
  sha256_length b : length (sha256 b) = 32%nat;
}.

(** A stand-in for the witnesses: the last 32 bytes, padded in front. *)
Definition last_bytes (b : list Ascii.ascii) : list Ascii.ascii :=
  drop (length b) (repeat Ascii.zero 32 ++ b).

Definition sample_digest : Sha256.
Proof.
  refine {| sha256 := last_bytes |}. intros b. unfold last_bytes.
  rewrite length_drop, length_app, repeat_length. lia.
Defined.

(** Two lowercase hexadecimal digits per byte. *)
Definition hex_digit (n : Z) : Ascii.ascii :=
  Ascii.ascii_of_nat (Z.to_nat (if n <? 10 then 48 + n else 87 + n)).
Definition hex_byte (c : Ascii.ascii) : list Ascii.ascii :=
  [hex_digit (byte_code c / 16); hex_digit (byte_code c mod 16)].

(** ** Splitting at the last separator *)

Lemma split_first_unique {A} (x : A) r1 : forall r2 l1 l2, x ∉ r1 -> x ∉ r2 ->
  r1 ++ x :: l1 = r2 ++ x :: l2 -> r1 = r2 /\ l1 = l2.
Proof.
  induction r1 as [|y r1 IH]; intros [|z r2] l1 l2 H1 H2 Heq; cbn in Heq.
  - by injection Heq.
  - injection Heq as -> _. destruct H2. left.
  - injection Heq as <- _. destruct H1. left.
  - injection Heq as -> Heq. apply not_elem_of_cons in H1 as [_ H1], H2 as [_ H2].
    by destruct (IH r2 l1 l2 H1 H2 Heq) as [-> ->].
Qed.

Lemma split_last_unique {A} (x : A) l1 l2 r1 r2 : x ∉ r1 -> x ∉ r2 ->
  l1 ++ x :: r1 = l2 ++ x :: r2 -> l1 = l2 /\ r1 = r2.
Proof.
  intros H1 H2 Heq. apply (f_equal reverse) in Heq. rewrite !reverse_app, !reverse_cons, <- !app_assoc in Heq.
  apply split_first_unique in Heq as [Hr Hl]; [|by rewrite elem_of_reverse..].
  split; [by apply (inj reverse) in Hl|by apply (inj reverse) in Hr].
Qed.

(** Elements with equal keys are equal, in a list without duplicate keys. *)
Lemma NoDup_fmap_inj_elem {A B} {f : A -> B} {l : list A} : NoDup (f <$> l) ->
  forall a b, a ∈ l -> b ∈ l -> f a = f b -> a = b.
Proof.
  intros Hnd a b (i & Ha)%list_elem_of_lookup_1 (j & Hb)%list_elem_of_lookup_1 Hf.
  assert (i = j) as ->; [|congruence].
  apply (NoDup_lookup (f <$> l) i j (f a) Hnd); rewrite list_lookup_fmap; [by rewrite Ha|].
  by rewrite Hb, Hf.
Qed.

(** [filter] with a boolean predicate. *)
Lemma elem_of_filter_bool {A} (f : A -> bool) l x : x ∈ List.filter f l <-> f x = true /\ x ∈ l.
Proof. rewrite !list_elem_of_In, filter_In. tauto. Qed.

#[global] Instance filter_bool_perm {A} (f : A -> bool) :
  Proper (Permutation ==> Permutation) (List.filter f).
Proof.
  intros l l' Hp. induction Hp as [|x l l' _ IH|x y l|l1 l2 l3 _ IH1 _ IH2]; cbn; [done| | |].
  - destruct (f x); by rewrite IH.
  - destruct (f x), (f y); try done. apply Permutation_swap.
  - by rewrite IH1.
Qed.

(** ** Stable sorting

    [slice::sort_by] is a stable sort; for a comparator that is a total preorder
    its result is determined, and insertion sort computes it. *)

Section sorting.
Context {A : Type} (cmp : A -> A -> comparison).

Fixpoint sort_insert (x : A) (sorted : list A) : list A :=
  match sorted with
  | y :: rest =>
      match cmp x y with
      | Gt => y :: sort_insert x rest
      | Lt | Eq => x :: sorted
      end
  | [] => [x]
  end.

Definition sort_by (l : list A) : list A := foldr sort_insert [] l.
End sorting.

Lemma sort_insert_perm {A} (cmp : A -> A -> comparison) x l :
  sort_insert cmp x l ≡ₚ x :: l.
Proof.
  induction l as [|y l IH]; cbn; [done|].
  destruct (cmp x y); try done. rewrite IH. apply Permutation_swap.
Qed.

Lemma sort_by_perm {A} (cmp : A -> A -> comparison) l : sort_by cmp l ≡ₚ l.
Proof.
  induction l as [|x l IH]; cbn; [done|]. by rewrite sort_insert_perm, IH.
Qed.

(** [a] may stand before [b]. *)
Definition cmp_le {A} (cmp : A -> A -> comparison) (a b : A) : Prop := cmp a b <> Gt.

(** What [Ord] promises: the comparator is a total preorder. *)
Class TotalCmp {A} (cmp : A -> A -> comparison) : Prop := {
  cmp_antisym a b : cmp b a = CompOpp (cmp a b);
  cmp_le_trans a b c : cmp_le cmp a b -> cmp_le cmp b c -> cmp_le cmp a c;
}.

(** [Ordering::then_with]. *)
Definition then_with (c d : comparison) : comparison :=
  match c with Eq => d | _ => c end.

#[global] Instance Z_total_cmp : TotalCmp Z.compare.
Proof.
  split; [intros; apply Z.compare_antisym|]. unfold cmp_le.
  intros a b c. rewrite !Z.compare_gt_iff. lia.
Qed.

#[global] Instance N_total_cmp : TotalCmp N.compare.
Proof.
  split; [intros a b; apply N.compare_antisym|].
  intros a b c. unfold cmp_le. rewrite !N.compare_le_iff. apply N.le_trans.
Qed.

#[global] Instance string_total_cmp : TotalCmp String.compare.
Proof.
  split; [intros; apply String.compare_antisym|].
  assert (Hle : forall a b, cmp_le String.compare a b <-> String.le a b).
  { intros a b. unfold cmp_le, String.le, String.leb.
    destruct (String.compare a b); naive_solver. }
  intros a b c. rewrite !Hle. apply transitivity.
Qed.

Lemma total_cmp_on {A B} (f : A -> B) cmp `{!TotalCmp cmp} :
  TotalCmp (fun a b => cmp (f a) (f b)).
Proof.
  split; [intros; apply cmp_antisym|].
  intros a b c. apply (cmp_le_trans (cmp := cmp) (f a) (f b) (f c)).
Qed.

Lemma total_cmp_flip {A} (cmp : A -> A -> comparison) `{!TotalCmp cmp} :
  TotalCmp (fun a b => cmp b a).
Proof.
  split; [intros; apply cmp_antisym|].
  intros a b c H1 H2. exact (cmp_le_trans (cmp := cmp) c b a H2 H1).
Qed.

Lemma cmp_lt_le_trans {A} (cmp : A -> A -> comparison) `{!TotalCmp cmp} a b c :
  cmp a b = Lt -> cmp_le cmp b c -> cmp a c = Lt.
Proof.
  intros Hab Hbc. assert (Hac : cmp_le cmp a c)
    by (apply (cmp_le_trans a b c); [unfold cmp_le; congruence|done]).
  destruct (cmp a c) eqn:E; [exfalso|done|done].
  apply (cmp_le_trans b c a Hbc); [unfold cmp_le; by rewrite cmp_antisym, E|].
  by rewrite cmp_antisym, Hab.
Qed.

Lemma cmp_le_lt_trans {A} (cmp : A -> A -> comparison) `{!TotalCmp cmp} a b c :
  cmp_le cmp a b -> cmp b c = Lt -> cmp a c = Lt.
Proof.
  intros Hab Hbc. assert (Hac : cmp_le cmp a c)
    by (apply (cmp_le_trans a b c); [done|unfold cmp_le; congruence]).
  destruct (cmp a c) eqn:E; [exfalso|done|done].
  apply (cmp_le_trans c a b); [unfold cmp_le; by rewrite cmp_antisym, E|done|].
  by rewrite cmp_antisym, Hbc.
Qed.

Lemma total_cmp_then {A} (c1 c2 : A -> A -> comparison) `{!TotalCmp c1, !TotalCmp c2} :
  TotalCmp (fun a b => then_with (c1 a b) (c2 a b)).
Proof.
  split.
  - intros a b. rewrite (cmp_antisym (cmp := c1) a b), (cmp_antisym (cmp := c2) a b).
    by destruct (c1 a b), (c2 a b).
  - intros a b c. unfold cmp_le, then_with.
    destruct (c1 a b) eqn:E1; [| |done]; (destruct (c1 b c) eqn:E2; [| |done]).
    + assert (c1 a c = Eq) as ->; [|by apply cmp_le_trans].
      assert (Hle1 : cmp_le c1 a c) by (apply (cmp_le_trans a b c); unfold cmp_le; congruence).
      assert (Hle2 : cmp_le c1 c a) by (apply (cmp_le_trans c b a); unfold cmp_le;
        rewrite cmp_antisym, ?E1, ?E2; done).
      unfold cmp_le in *. rewrite cmp_antisym in Hle2. by destruct (c1 a c).
    + intros. by rewrite (cmp_le_lt_trans c1 a b c) by (unfold cmp_le; congruence).
    + intros. by rewrite (cmp_lt_le_trans c1 a b c) by (unfold cmp_le; congruence).
    + intros. by rewrite (cmp_lt_le_trans c1 a b c) by (unfold cmp_le; congruence).
Qed.

Lemma sort_by_sorted {A} (cmp : A -> A -> comparison) `{!TotalCmp cmp} l :
  StronglySorted (cmp_le cmp) (sort_by cmp l).
Proof.
  induction l as [|x l IH]; cbn; [constructor|].
  fold (sort_by cmp l). generalize dependent (sort_by cmp l). clear l.
  induction 1 as [|y l Hs IH Hall]; cbn; [repeat constructor|].
  destruct (cmp x y) eqn:Hxy.
  1, 2: constructor; [by constructor|]; constructor; [unfold cmp_le; congruence|];
    eapply Forall_impl; [exact Hall|]; intros z Hz; apply (cmp_le_trans x y z); [|exact Hz];
    unfold cmp_le; congruence.
  constructor; [done|]. rewrite sort_insert_perm. constructor; [|done].
  unfold cmp_le. by rewrite cmp_antisym, Hxy.
Qed.

(** The result of a sort depends only on the elements, when no two of them tie. *)
Lemma sort_by_unique {A} (cmp : A -> A -> comparison) `{!TotalCmp cmp} l1 l2 :
  l1 ≡ₚ l2 -> (forall a b, a ∈ l1 -> b ∈ l1 -> cmp a b = Eq -> a = b) ->
  sort_by cmp l1 = sort_by cmp l2.
Proof.
  intros Hp Htie. apply (StronglySorted_unique_strong (cmp_le cmp)).
  - intros a b Ha Hb Hab Hba. rewrite sort_by_perm in Ha, Hb. rewrite <- Hp in Hb.
    apply Htie; [done..|]. unfold cmp_le in *. rewrite cmp_antisym in Hba. by destruct (cmp a b).
  - apply sort_by_sorted; apply _.
  - apply sort_by_sorted; apply _.
  - by rewrite !sort_by_perm.
Qed.

(** The sum of an integer measure over a list. *)
Definition sum_Z {A} (f : A -> Z) (l : list A) : Z := foldr (fun x s => f x + s) 0 l.
Arguments sum_Z : simpl never.

Lemma sum_Z_nil {A} (f : A -> Z) : sum_Z f [] = 0.
Proof. done. Qed.

Lemma sum_Z_cons {A} (f : A -> Z) x l : sum_Z f (x :: l) = f x + sum_Z f l.
Proof. done. Qed.

Lemma sum_Z_app {A} (f : A -> Z) l1 l2 : sum_Z f (l1 ++ l2) = sum_Z f l1 + sum_Z f l2.
Proof.
  induction l1 as [|x l1 IH]; [done|]. rewrite <- app_comm_cons, !sum_Z_cons. lia.
Qed.

Lemma sum_Z_ext {A} (f g : A -> Z) l :
  (forall x, x ∈ l -> f x = g x) -> sum_Z f l = sum_Z g l.
Proof.
  induction l as [|x l IH]; intros Hfg; [done|].
  rewrite !sum_Z_cons, IH, (Hfg x) by set_solver. done.
Qed.

Lemma sum_Z_map {A B} (f : B -> Z) (g : A -> B) l :
  sum_Z f (g <$> l) = sum_Z (fun x => f (g x)) l.
Proof. induction l as [|x l IH]; [done|]. rewrite fmap_cons, !sum_Z_cons; lia. Qed.

Lemma sum_Z_perm {A} (f : A -> Z) l1 l2 : l1 ≡ₚ l2 -> sum_Z f l1 = sum_Z f l2.
Proof. induction 1; rewrite ?sum_Z_cons; lia. Qed.

Lemma sum_Z_insert {A} (f : A -> Z) l i x y :
  l !! i = Some x -> sum_Z f (<[i := y]> l) = sum_Z f l - f x + f y.
Proof.
  revert i; induction l as [|z l IH]; intros [|i] Hx; cbn in Hx; simplify_eq.
  - change (<[0%nat := y]> (x :: l)) with (y :: l). rewrite !sum_Z_cons. lia.
  - change (<[S i := y]> (z :: l)) with (z :: <[i := y]> l).
    rewrite !sum_Z_cons, (IH i) by done. lia.
Qed.

Lemma sum_Z_bound {A} (f : A -> Z) B l :
  (forall x, x ∈ l -> Z.abs (f x) <= B) ->
  Z.abs (sum_Z f l) <= B * Z.of_nat (length l).
Proof.
  induction l as [|x l IH]; intros Hb; [rewrite sum_Z_nil; cbn; lia|].
  rewrite sum_Z_cons; cbn [length]; rewrite Nat2Z.inj_succ, Z.mul_succ_r.
  specialize (Hb x ltac:(set_solver)) as Hx.
  specialize (IH ltac:(intros y ?; apply Hb; set_solver)). lia.
Qed.

Lemma sum_Z_nonneg {A} (f : A -> Z) l :
  (forall x, x ∈ l -> 0 <= f x) -> 0 <= sum_Z f l.
Proof.
  induction l as [|x l IH]; intros Hb; [done|]. rewrite sum_Z_cons.
  specialize (Hb x ltac:(set_solver)) as Hx.
  specialize (IH ltac:(intros y ?; apply Hb; set_solver)). lia.
Qed.

Lemma sum_Z_member_le {A} (f : A -> Z) l x :
  (forall y, y ∈ l -> 0 <= f y) -> x ∈ l -> f x <= sum_Z f l.
Proof.
  induction l as [|y l IH]; intros Hb Hx; [by apply not_elem_of_nil in Hx|].
  rewrite sum_Z_cons. pose proof (Hb y ltac:(set_solver)).
  pose proof (sum_Z_nonneg f l ltac:(intros z ?; apply Hb; set_solver)).
  apply elem_of_cons in Hx as [->|Hx]; [lia|].
  specialize (IH ltac:(intros z ?; apply Hb; set_solver) Hx). lia.
Qed.

Lemma sum_Z_divide {A} (f : A -> Z) l k :
  (forall x, x ∈ l -> (k | f x)) -> (k | sum_Z f l).
Proof.
  induction l as [|y l IH]; intros Hb; [apply Z.divide_0_r|].
  rewrite sum_Z_cons. apply Z.divide_add_r; [apply Hb|apply IH; intros z ?; apply Hb]; set_solver.
Qed.

Lemma sum_Z_snoc {A} (f : A -> Z) ys y : sum_Z f (ys ++ [y]) = sum_Z f ys + f y.
Proof. rewrite sum_Z_app, sum_Z_cons, sum_Z_nil. lia. Qed.

Lemma sum_Z_bind {A B} (f : B -> Z) (g : A -> list B) (xs : list A) : sum_Z f (xs ≫= g) = sum_Z (fun x => sum_Z f (g x)) xs.
Proof. induction xs as [|x xs IH]; [done|]. by rewrite bind_cons, sum_Z_app, sum_Z_cons, IH. Qed.

Lemma sum_Z_zero {A} (f : A -> Z) xs : (forall x, x ∈ xs -> f x = 0) -> sum_Z f xs = 0.
Proof. intros Hf. induction xs as [|x xs IH]; [done|]. rewrite sum_Z_cons, IH, Hf by set_solver. done. Qed.

(** ** Filters by a boolean *)

Lemma filter_bool_nil {A} (f : A -> bool) xs : (forall x, x ∈ xs -> f x = false) -> List.filter f xs = [].
Proof. intros Hf. induction xs as [|x xs IH]; [done|]. cbn. rewrite Hf by left. apply IH. intros y Hy. apply Hf. by right. Qed.

Lemma filter_bool_map {A B} (f : B -> bool) (g : A -> B) xs :
  List.filter f (g <$> xs) = g <$> List.filter (fun x => f (g x)) xs.
Proof. induction xs as [|x xs IH]; [done|]. cbn. destruct (f (g x)); cbn; by rewrite <- IH. Qed.

Lemma filter_bool_ext {A} (f g : A -> bool) xs : (forall x, x ∈ xs -> f x = g x) -> List.filter f xs = List.filter g xs.
Proof.
  intros Hf. induction xs as [|x xs IH]; [done|]. cbn. rewrite (Hf x) by left.
  rewrite IH by (intros y Hy; apply Hf; by right). done.
Qed.

(** A key without duplicates selects one element. *)
Lemma filter_bool_unique {A K} `{EqDecision K} (f : A -> K) (xs : list A) x : NoDup (f <$> xs) -> x ∈ xs ->
  List.filter (fun y => bool_decide (f y = f x)) xs = [x].
Proof.
  induction xs as [|y xs IH]; [by intros _ Hx%not_elem_of_nil|]. rewrite fmap_cons, NoDup_cons.
  intros [Hy Hnd] [->|Hx]%elem_of_cons; cbn [List.filter].
  - rewrite bool_decide_true by done. f_equal. apply filter_bool_nil. intros z Hz. apply bool_decide_eq_false. intros Heq.
    apply Hy. rewrite <- Heq. by apply list_elem_of_fmap_2.
  - rewrite bool_decide_false; [by apply IH|]. intros Heq. apply Hy. rewrite Heq. by apply list_elem_of_fmap_2.
Qed.

(** Summing by key sums everything. *)
Lemma sum_Z_by_key {A K} `{EqDecision K} (w : A -> Z) (p : A -> bool) (key : A -> K) ks xs : NoDup ks ->
  (forall x, x ∈ xs -> p x = true -> key x ∈ ks) ->
  sum_Z (fun k => sum_Z w (List.filter (fun x => p x && bool_decide (key x = k)) xs)) ks = sum_Z w (List.filter p xs).
Proof.
  intros Hnd. induction xs as [|x xs IH]; intros Hk; cbn [List.filter]; [by apply sum_Z_zero|].
  specialize (IH ltac:(intros y Hy; apply Hk; by right)).
  destruct (p x) eqn:Hp; cbn [andb]; [|done]. specialize (Hk x ltac:(left) Hp). rewrite sum_Z_cons, <- IH. clear IH.
  revert Hk. induction Hnd as [|k ks Hkn Hnd IHk]; [by intros Hx%not_elem_of_nil|]. rewrite !sum_Z_cons.
  intros [<-|Hin]%elem_of_cons.
  - rewrite bool_decide_true by done. rewrite sum_Z_cons.
    rewrite (sum_Z_ext _ (fun k => sum_Z w (List.filter (fun y => p y && bool_decide (key y = k)) xs)) ks); [lia|].
    intros k' Hk'. rewrite bool_decide_false; [done|]. intros <-. done.
  - rewrite bool_decide_false by (intros <-; done). rewrite (IHk Hin). lia.
Qed.

Create HintDb ledger.
#[export] Hint Resolve pow10_pos pow10_le : ledger.
Create Rewrite HintDb sums.
#[export] Hint Rewrite @sum_Z_nil @sum_Z_cons @sum_Z_app @sum_Z_map : sums.
