(* ===== verification/Decimal.v ===== *)
(** * [rust_decimal::Decimal]

    The decimal carrier of every monetary amount is a third-party type.  What
    the billing code relies on is stated here as the class [RustDecimal]: the
    operations the code calls and their documented behaviour.  A decimal is a
    96-bit coefficient with a sign and a scale between 0 and 28; its value is
    [mantissa / 10^scale].  [ConcreteDecimal] at the end of the file is an
    executable instance, which the witnesses of the development compute with. *)

From S2P Require Import Prelude.

Definition decimal_limit : Z := 2 ^ 96.
Definition max_scale : Z := 28.

Class RustDecimal := {
  Decimal : Type;
  mantissa : Decimal -> Z;
  scale : Decimal -> Z;
  is_sign_negative : Decimal -> bool;
  is_zero : Decimal -> bool;
  ZERO : Decimal;
  ONE : Decimal;
  normalize : Decimal -> Decimal;
  dec_cmp : Decimal -> Decimal -> comparison;
  dec_neg : Decimal -> Decimal;
  dec_abs : Decimal -> Decimal;
  (** Panics out of range: no law covers that case. *)
  from_i128_with_scale : Z -> Z -> Decimal;
  try_from_i128_with_scale : Z -> Z -> option Decimal;

  mantissa_bound d : Z.abs (mantissa d) < decimal_limit;
  scale_bound d : 0 <= scale d <= max_scale;
  sign_negative d : mantissa d < 0 -> is_sign_negative d = true;
  sign_positive d : 0 < mantissa d -> is_sign_negative d = false;
  is_zero_spec d : is_zero d = (mantissa d =? 0);
  (** A decimal is its unpacked sign, coefficient and scale. *)
  decimal_ext d e :
    mantissa d = mantissa e -> scale d = scale e ->
    is_sign_negative d = is_sign_negative e -> d = e;
  ZERO_spec : mantissa ZERO = 0 /\ scale ZERO = 0 /\ is_sign_negative ZERO = false;
  ONE_spec : mantissa ONE = 1 /\ scale ONE = 0;
  (** "Strips any trailing zeros and converts -0 to 0." *)
  normalize_value d :
    mantissa (normalize d) * 10 ^ scale d = mantissa d * 10 ^ scale (normalize d);
  normalize_stripped d :
    scale (normalize d) = 0 \/ Z.rem (mantissa (normalize d)) 10 <> 0;
  normalize_scale_le d : scale (normalize d) <= scale d;
  normalize_no_negative_zero d :
    mantissa d = 0 -> is_sign_negative (normalize d) = false;
  (** Order and equality are by value. *)
  dec_cmp_spec d e :
    dec_cmp d e = (mantissa d * 10 ^ scale e ?= mantissa e * 10 ^ scale d);
  dec_neg_spec d : mantissa (dec_neg d) = - mantissa d /\ scale (dec_neg d) = scale d;
  dec_abs_spec d : mantissa (dec_abs d) = Z.abs (mantissa d) /\ scale (dec_abs d) = scale d;
  from_i128_with_scale_spec c s :
    Z.abs c < decimal_limit -> 0 <= s <= max_scale ->
    mantissa (from_i128_with_scale c s) = c /\ scale (from_i128_with_scale c s) = s;
  try_from_i128_with_scale_some c s d :
    try_from_i128_with_scale c s = Some d -> mantissa d = c /\ scale d = s;
  try_from_i128_with_scale_total c s :
    Z.abs c < decimal_limit -> 0 <= s <= max_scale ->
    is_Some (try_from_i128_with_scale c s);
}.

(** Comparison operators derived from [Ord]. *)
Definition dec_eqb `{RustDecimal} (d e : Decimal) : bool :=
  match dec_cmp d e with Eq => true | _ => false end.
Definition dec_ltb `{RustDecimal} (d e : Decimal) : bool :=
  match dec_cmp d e with Lt => true | _ => false end.
Definition dec_leb `{RustDecimal} (d e : Decimal) : bool :=
  match dec_cmp d e with Gt => false | _ => true end.

(** The value of a decimal, counted in units of 10^-28: every decimal has a
    whole number of them. *)
Definition units `{RustDecimal} (d : Decimal) : Z :=
  mantissa d * 10 ^ (max_scale - scale d).

Section decimal_facts.
Context `{RustDecimal}.

Lemma units_scaled d : units d * 10 ^ scale d = mantissa d * 10 ^ max_scale.
Proof.
  pose proof (scale_bound d). unfold units.
  rewrite <- Z.mul_assoc, <- Z.pow_add_r by lia. do 2 f_equal. lia.
Qed.

(** Two coefficients compared over a common scale are their units compared. *)
Lemma cross_units d e :
  mantissa d * 10 ^ scale e * 10 ^ (max_scale - scale d - scale e + max_scale)
    = units d * 10 ^ max_scale.
Proof.
  pose proof (scale_bound d). pose proof (scale_bound e). unfold units.
  rewrite <- !Z.mul_assoc, <- !Z.pow_add_r by lia. do 2 f_equal. lia.
Qed.

Lemma units_cross d e :
  mantissa d * 10 ^ scale e = units d * 10 ^ (scale d + scale e - max_scale) \/
  mantissa d * 10 ^ scale e * 10 ^ (max_scale - scale d - scale e) = units d.
Proof.
  pose proof (scale_bound d). pose proof (scale_bound e). unfold units.
  destruct (Z.le_ge_cases max_scale (scale d + scale e)); [left|right];
    rewrite <- Z.mul_assoc, <- Z.pow_add_r by lia; do 2 f_equal; lia.
Qed.

Lemma dec_cmp_units d e : dec_cmp d e = (units d ?= units e).
Proof.
  rewrite dec_cmp_spec.
  pose proof (scale_bound d); pose proof (scale_bound e).
  set (K := 10 ^ (max_scale - scale d - scale e + max_scale)).
  assert (HK : 0 < K) by (apply pow10_pos; lia).
  assert (H10 : 0 < 10 ^ max_scale) by (apply pow10_pos; unfold max_scale; lia).
  rewrite (Zmult_compare_compat_r _ _ K) by lia.
  replace (mantissa d * 10 ^ scale e * K) with (units d * 10 ^ max_scale)
    by apply eq_sym, cross_units.
  replace (mantissa e * 10 ^ scale d * K) with (units e * 10 ^ max_scale).
  2:{ rewrite <- (cross_units e d). unfold K. do 2 f_equal. lia. }
  by rewrite <- Zmult_compare_compat_r by lia.
Qed.

Lemma dec_ltb_units d e : dec_ltb d e = (units d <? units e).
Proof. unfold dec_ltb; rewrite dec_cmp_units; by unfold Z.ltb. Qed.

Lemma dec_leb_units d e : dec_leb d e = (units d <=? units e).
Proof. unfold dec_leb; rewrite dec_cmp_units; by unfold Z.leb. Qed.

Lemma dec_eqb_units d e : dec_eqb d e = (units d =? units e).
Proof.
  unfold dec_eqb; rewrite dec_cmp_units.
  by destruct (Z.compare_spec (units d) (units e)) as [->|?|?];
    rewrite ?Z.eqb_refl; [done|symmetry; apply Z.eqb_neq; lia..].
Qed.

Lemma units_normalize d : units (normalize d) = units d.
Proof.
  pose proof (scale_bound d); pose proof (scale_bound (normalize d)).
  apply (Z.mul_cancel_r _ _ (10 ^ scale d * 10 ^ scale (normalize d))).
  { apply Z.neq_mul_0; split; apply Z.pow_nonzero; lia. }
  pose proof (units_scaled d). pose proof (units_scaled (normalize d)).
  pose proof (normalize_value d). nia.
Qed.

Lemma units_ZERO : units ZERO = 0.
Proof. unfold units. by rewrite (proj1 ZERO_spec). Qed.

Lemma units_ONE : units ONE = 10 ^ max_scale.
Proof. unfold units. destruct ONE_spec as [-> ->]. by rewrite Z.sub_0_r, Z.mul_1_l. Qed.

Lemma units_neg d : units (dec_neg d) = - units d.
Proof. unfold units. destruct (dec_neg_spec d) as [-> ->]. lia. Qed.

Lemma units_abs d : units (dec_abs d) = Z.abs (units d).
Proof.
  unfold units. destruct (dec_abs_spec d) as [-> ->]. pose proof (scale_bound d).
  rewrite Z.abs_mul, (Z.abs_eq (10 ^ _)); [done|].
  apply Z.pow_nonneg; lia.
Qed.

Lemma is_zero_units d : is_zero d = (units d =? 0).
Proof.
  rewrite is_zero_spec. unfold units. pose proof (scale_bound d).
  assert (0 < 10 ^ (max_scale - scale d)) by (apply pow10_pos; lia).
  destruct (Z.eqb_spec (mantissa d) 0) as [->|]; symmetry;
    [by apply Z.eqb_eq | apply Z.eqb_neq; nia].
Qed.

(** A coefficient is divisible by the power of ten its scale leaves free. *)
Lemma units_grid d s : scale d <= s <= max_scale -> (10 ^ (max_scale - s) | units d).
Proof.
  intros Hs. pose proof (scale_bound d). unfold units.
  exists (mantissa d * 10 ^ (s - scale d)).
  rewrite <- Z.mul_assoc, <- Z.pow_add_r by lia. do 2 f_equal. lia.
Qed.
End decimal_facts.

(** ** An executable instance *)
Module ConcreteDecimal.

Definition parts_ok (mag sc : Z) : bool :=
  (0 <=? mag) && (mag <? decimal_limit) && (0 <=? sc) && (sc <=? max_scale).

Record dec := Dec {
  dec_sign : bool;
  dec_mag : Z;
  dec_scale : Z;
  dec_ok : parts_ok dec_mag dec_scale = true;
}.

Definition zero : dec := Dec false 0 0 eq_refl.
Definition one : dec := Dec false 1 0 eq_refl.

Definition make (sign : bool) (mag sc : Z) : dec :=
  match Bool.bool_dec (parts_ok mag sc) true with
  | left ok => Dec sign mag sc ok
  | right _ => zero
  end.

Definition coefficient (d : dec) : Z := if dec_sign d then - dec_mag d else dec_mag d.

Fixpoint strip (fuel : nat) (mag sc : Z) : Z * Z :=
  match fuel with
  | O => (mag, sc)
  | S fuel =>
      if (0 <? sc) && (Z.rem mag 10 =? 0) then strip fuel (mag / 10) (sc - 1)
      else (mag, sc)
  end.

Definition normalized (d : dec) : dec :=
  let '(mag, sc) := strip (Z.to_nat (dec_scale d)) (dec_mag d) (dec_scale d) in
  make (dec_sign d && negb (mag =? 0)) mag sc.

Lemma make_parts sign mag sc : parts_ok mag sc = true ->
  dec_sign (make sign mag sc) = sign /\ dec_mag (make sign mag sc) = mag /\
  dec_scale (make sign mag sc) = sc.
Proof. intros Hok. unfold make. destruct (Bool.bool_dec _ _); naive_solver. Qed.

Lemma parts_ok_spec mag sc :
  parts_ok mag sc = true <-> 0 <= mag < decimal_limit /\ 0 <= sc <= max_scale.
Proof. unfold parts_ok. rewrite !andb_true_iff, !Z.leb_le, Z.ltb_lt. tauto. Qed.

Lemma dec_range d : 0 <= dec_mag d < decimal_limit /\ 0 <= dec_scale d <= max_scale.
Proof. apply parts_ok_spec, dec_ok. Qed.

Lemma strip_spec fuel mag sc mag' sc' :
  0 <= mag -> 0 <= sc <= Z.of_nat fuel -> strip fuel mag sc = (mag', sc') ->
  0 <= mag' <= mag /\ 0 <= sc' <= sc /\ mag' * 10 ^ sc = mag * 10 ^ sc' /\
  (sc' = 0 \/ Z.rem mag' 10 <> 0).
Proof.
  revert mag sc; induction fuel as [|fuel IH]; intros mag sc Hm Hs; cbn [strip].
  { intros [= <- <-]. split_and!; try lia. }
  destruct (Z.ltb_spec 0 sc), (Z.eqb_spec (Z.rem mag 10) 0); cbn [andb];
    try (intros [= <- <-]; split_and!; lia).
  rewrite Z.rem_mod_nonneg in * by lia.
  assert (Hmag : mag = 10 * (mag / 10)) by (apply Z_div_exact_full_2; lia).
  intros (? & ? & Hval & ?)%IH; [|lia..].
  split_and!; try lia.
  rewrite Hmag. replace sc with (Z.succ (sc - 1)) at 1 by lia.
  rewrite Z.pow_succ_r by lia. lia.
Qed.

Lemma normalized_parts d :
  exists mag sc, strip (Z.to_nat (dec_scale d)) (dec_mag d) (dec_scale d) = (mag, sc) /\
    dec_sign (normalized d) = dec_sign d && negb (mag =? 0) /\
    dec_mag (normalized d) = mag /\ dec_scale (normalized d) = sc /\
    0 <= mag <= dec_mag d /\ 0 <= sc <= dec_scale d /\
    mag * 10 ^ dec_scale d = dec_mag d * 10 ^ sc /\ (sc = 0 \/ Z.rem mag 10 <> 0).
Proof.
  destruct (strip (Z.to_nat (dec_scale d)) (dec_mag d) (dec_scale d)) as [mag sc] eqn:Hstrip.
  pose proof (dec_range d) as [? ?]. exists mag, sc. split; [done|].
  eapply strip_spec in Hstrip as Hs; [|lia|lia].
  unfold normalized. rewrite Hstrip.
  destruct (make_parts (dec_sign d && negb (mag =? 0)) mag sc) as (-> & -> & ->).
  - apply parts_ok_spec. unfold max_scale in *. lia.
  - tauto.
Qed.

Lemma dec_ext d e :
  dec_sign d = dec_sign e -> dec_mag d = dec_mag e -> dec_scale d = dec_scale e -> d = e.
Proof.
  destruct d, e; cbn; intros; subst. f_equal. apply proof_irrel.
Qed.

Definition of_i128 (c s : Z) : dec := make (c <? 0) (Z.abs c) s.

Lemma of_i128_parts c s : Z.abs c < decimal_limit -> 0 <= s <= max_scale ->
  coefficient (of_i128 c s) = c /\ dec_scale (of_i128 c s) = s.
Proof.
  intros Hc Hs. unfold coefficient, of_i128.
  destruct (make_parts (c <? 0) (Z.abs c) s) as (-> & -> & ->).
  - apply parts_ok_spec. lia.
  - destruct (Z.ltb_spec c 0); lia.
Qed.

#[export] Program Instance concrete : RustDecimal := {|
  Decimal := dec;
  mantissa := coefficient;
  scale := dec_scale;
  is_sign_negative := dec_sign;
  is_zero d := dec_mag d =? 0;
  ZERO := zero;
  ONE := one;
  normalize := normalized;
  dec_cmp d e := coefficient d * 10 ^ dec_scale e ?= coefficient e * 10 ^ dec_scale d;
  dec_neg d := Dec (negb (dec_sign d)) (dec_mag d) (dec_scale d) (dec_ok d);
  dec_abs d := Dec false (dec_mag d) (dec_scale d) (dec_ok d);
  from_i128_with_scale := of_i128;
  try_from_i128_with_scale c s :=
    if parts_ok (Z.abs c) s then Some (of_i128 c s) else None;
|}.
Next Obligation. intros d. pose proof (dec_range d). unfold coefficient. case_match; lia. Qed.
Next Obligation. intros d. apply dec_range. Qed.
Next Obligation. intros d. pose proof (dec_range d). unfold coefficient. case_match; [done|lia]. Qed.
Next Obligation. intros d. pose proof (dec_range d). unfold coefficient. case_match; [lia|done]. Qed.
Next Obligation. intros d. unfold coefficient. case_match; cbn; lia. Qed.
Next Obligation.
  intros d e Hm Hs Hn. apply dec_ext; [done| |done].
  unfold coefficient in Hm. rewrite Hn in Hm. case_match; lia.
Qed.
Next Obligation. done. Qed.
Next Obligation. done. Qed.
Next Obligation.
  intros d. destruct (normalized_parts d) as (mag & sc & _ & Hn & Hm & Hs & ? & ? & ? & _).
  unfold coefficient. rewrite Hn, Hm, Hs.
  destruct (dec_sign d); cbn [andb]; [|lia].
  destruct (Z.eqb_spec mag 0); cbn [negb]; lia.
Qed.
Next Obligation.
  intros d. destruct (normalized_parts d) as (mag & sc & _ & Hn & Hm & Hs & ? & ? & ? & Hr).
  unfold coefficient. rewrite Hm, Hs. destruct Hr; [by left|right].
  case_match; [rewrite Z.rem_opp_l by lia|]; lia.
Qed.
Next Obligation. intros d. destruct (normalized_parts d) as (?&?&?&?&?&?&?&?&?&?). cbn. lia. Qed.
Next Obligation.
  intros d Hz. destruct (normalized_parts d) as (mag & sc & _ & Hn & _ & _ & ? & _).
  rewrite Hn. pose proof (dec_range d). unfold coefficient in Hz.
  destruct (Z.eqb_spec mag 0); [by rewrite andb_false_r|].
  case_match; lia.
Qed.
Next Obligation. done. Qed.
Next Obligation. intros d. unfold coefficient; cbn. destruct (dec_sign d); cbn; split; lia. Qed.
Next Obligation.
  intros d. pose proof (dec_range d). unfold coefficient; cbn.
  destruct (dec_sign d); split; lia.
Qed.
Next Obligation. exact of_i128_parts. Qed.
Next Obligation.
  cbn beta. intros c s d Hsome.
  destruct (parts_ok (Z.abs c) s) eqn:Hp; [injection Hsome as <-|done].
  apply parts_ok_spec in Hp. apply of_i128_parts; lia.
Qed.
Next Obligation.
  cbn beta. intros c s Hc Hs. rewrite (proj2 (parts_ok_spec _ _)); [done|lia].
Qed.

(** A literal: [lit 1234 2] is 12.34. *)
Definition lit (c s : Z) : Decimal := of_i128 c s.

End ConcreteDecimal.
