(* ===== verification/Money.v ===== *)
(** * Validated decimal money: [libs/money/src/money.rs]

    [CurrencySpec], [PostedMoney] and their constructors.  The fields are
    private in the source, so every value was built by a constructor; the
    invariant they establish is [posted_ok], and the amounts of a development
    above this file are read through [posted_units]. *)

From S2P Require Import Prelude Decimal.
From Stdlib Require Import Znumtheory.

Definition COEFFICIENT_LIMIT : Z := 10 ^ 28.
Definition MAX_DECIMAL_BYTES : Z := 64.

Module MoneyError.
Inductive money_error :=
| InvalidDecimal
| InvalidCurrency
| ScaleOutOfRange
| AmountOutOfRange
| InvalidPostingIncrement
| CurrencyMismatch
| ScaleMismatch.
End MoneyError.
Abbreviation MoneyError := MoneyError.money_error.

#[global] Instance money_error_eq_dec : EqDecision MoneyError.
Proof. solve_decision. Defined.

(** [scale] is a [u8]. *)
Record CurrencySpec := mkCurrencySpec {
  code : string;
  currency_scale : Z;
}.

#[global] Instance currency_spec_eq_dec : EqDecision CurrencySpec.
Proof. solve_decision. Defined.

Definition currency_spec_try_new (code : string) (scale : Z) :
    result MoneyError CurrencySpec :=
  if (byte_len code =? 0) || (16 <? byte_len code)
     || negb (forallb (fun byte => is_ascii_uppercase byte || is_ascii_digit byte)
                      (bytes code))
  then Err MoneyError.InvalidCurrency
  else if 28 <? scale then Err MoneyError.ScaleOutOfRange
  else Ok (mkCurrencySpec code scale).

Definition ensure_same (self other : CurrencySpec) : result MoneyError unit :=
  if negb (bool_decide (code self = code other)) then Err MoneyError.CurrencyMismatch
  else if negb (currency_scale self =? currency_scale other)
  then Err MoneyError.ScaleMismatch
  else Ok tt.

Section money.
Context `{RustDecimal}.

Record PostedMoney := mkPostedMoney {
  amount : Decimal;
  currency : CurrencySpec;
}.

Definition validate_amount (value : Decimal) : result MoneyError Decimal :=
  let amount := normalize value in
  if COEFFICIENT_LIMIT <=? Z.abs (mantissa amount)
  then Err MoneyError.AmountOutOfRange
  else Ok amount.

Definition posted_try_new (amount : Decimal) (currency : CurrencySpec) :
    result MoneyError PostedMoney :=
  amount ← validate_amount amount;
  if currency_scale currency <? scale amount
  then Err MoneyError.InvalidPostingIncrement
  else Ok (mkPostedMoney amount currency).

(** Derived [PartialEq]: the amounts compare by value. *)
Definition posted_eqb (a b : PostedMoney) : bool :=
  dec_eqb (amount a) (amount b) && bool_decide (currency a = currency b).

(** ** The representation invariant *)

Definition currency_ok (c : CurrencySpec) : Prop := 0 <= currency_scale c <= 28.

(** A decimal in the form [normalize] leaves it in. *)
Definition canonical (d : Decimal) : Prop :=
  (scale d = 0 \/ Z.rem (mantissa d) 10 <> 0) /\
  (mantissa d = 0 -> is_sign_negative d = false).

Definition posted_ok (p : PostedMoney) : Prop :=
  currency_ok (currency p) /\
  canonical (amount p) /\
  Z.abs (mantissa (amount p)) < COEFFICIENT_LIMIT /\
  scale (amount p) <= currency_scale (currency p).

(** The value of a posting in units of 10^-28. *)
Definition posted_units (p : PostedMoney) : Z := units (amount p).

(** The values that a posting at [scale] can hold: a multiple of the increment
    10^-s for some s within the scale, with at most 28 digits there. *)
Definition fits (scale z : Z) : Prop :=
  exists s, 0 <= s <= scale /\ (10 ^ (28 - s) | z) /\ Z.abs z < 10 ^ (56 - s).

Lemma canonical_normalize d : canonical (normalize d).
Proof.
  split; [apply normalize_stripped|]. intros Hz.
  destruct (Z.eq_dec (mantissa d) 0) as [Hm|Hm].
  - by apply normalize_no_negative_zero.
  - exfalso. pose proof (normalize_value d) as Hv. rewrite Hz in Hv.
    pose proof (scale_bound (normalize d)).
    pose proof (pow10_pos (scale (normalize d)) ltac:(lia)). nia.
Qed.

(** [validate_amount] normalizes and bounds. *)
Lemma validate_amount_ok d e :
  validate_amount d = Ok e <-> Z.abs (mantissa (normalize d)) < 10 ^ 28 /\ e = normalize d.
Proof.
  unfold validate_amount. destruct (Z.leb_spec COEFFICIENT_LIMIT (Z.abs (mantissa (normalize d))));
    unfold COEFFICIENT_LIMIT in *; split; [done|lia|intros [= <-]; auto|intros [_ ->]; done].
Qed.

(** Stripped coefficients determine the scale: of two equal values in stripped
    form, neither can have the smaller scale. *)
Lemma stripped_scale_le d e :
  scale d = 0 \/ Z.rem (mantissa d) 10 <> 0 -> units d = units e -> scale d <= scale e.
Proof.
  intros [->|Hrem] Hu; [apply scale_bound|].
  pose proof (scale_bound d) as Hd; pose proof (scale_bound e) as He.
  destruct (Z.le_gt_cases (scale d) (scale e)) as [|Hlt]; [done|exfalso].
  apply Hrem. apply Z.rem_divide; [lia|].
  assert (Hm : mantissa d = mantissa e * 10 ^ (scale d - scale e)).
  { apply (Z.mul_cancel_r _ _ (10 ^ (max_scale - scale d)));
      [apply Z.pow_nonzero; lia|].
    unfold units in Hu. rewrite Hu, <- Z.mul_assoc, <- Z.pow_add_r by lia.
    do 2 f_equal. lia. }
  rewrite Hm. replace (scale d - scale e) with (Z.succ (scale d - scale e - 1)) by lia.
  rewrite Z.pow_succ_r by lia. exists (mantissa e * 10 ^ (scale d - scale e - 1)). ring.
Qed.

Lemma units_mantissa_eq d e : scale d = scale e -> units d = units e -> mantissa d = mantissa e.
Proof.
  unfold units. intros -> Hu. pose proof (scale_bound e).
  eapply Z.mul_cancel_r; [|exact Hu]. apply Z.pow_nonzero; lia.
Qed.

(** Canonical decimals of the same value are the same decimal. *)
Lemma canonical_unique d e : canonical d -> canonical e -> units d = units e -> d = e.
Proof.
  intros [Hd Hdz] [He Hez] Hu.
  pose proof (stripped_scale_le d e Hd Hu). pose proof (stripped_scale_le e d He (eq_sym Hu)).
  assert (Hs : scale d = scale e) by lia.
  pose proof (units_mantissa_eq d e Hs Hu) as Hm.
  apply decimal_ext; [done..|].
  destruct (Z.lt_trichotomy (mantissa d) 0) as [?|[?|?]].
  - rewrite !sign_negative; [done|lia..].
  - rewrite Hdz, Hez; [done|lia..].
  - rewrite !sign_positive; [done|lia..].
Qed.

Lemma canonical_normalize_id d : canonical d -> normalize d = d.
Proof.
  intros Hc. apply canonical_unique; [apply canonical_normalize|done|apply units_normalize].
Qed.

Lemma posted_unique p q :
  posted_ok p -> posted_ok q -> currency p = currency q ->
  posted_units p = posted_units q -> p = q.
Proof.
  destruct p as [a c], q as [b c']; cbn. intros (_ & Ha & _) (_ & Hb & _) -> Hu.
  cbn in *. f_equal. by apply canonical_unique.
Qed.

Lemma posted_eqb_ok p q : posted_ok p -> posted_ok q -> posted_eqb p q = true <-> p = q.
Proof.
  intros Hp Hq. unfold posted_eqb. rewrite andb_true_iff, dec_eqb_units, Z.eqb_eq, bool_decide_eq_true. split.
  - intros [Hu Hc]. by apply posted_unique.
  - by intros ->.
Qed.

Lemma posted_units_fits p : posted_ok p -> fits (currency_scale (currency p)) (posted_units p).
Proof.
  intros (Hc & _ & Hm & Hs). pose proof (scale_bound (amount p)) as Hb.
  exists (scale (amount p)). unfold posted_units. split_and!; [lia..| |].
  - exists (mantissa (amount p)). done.
  - unfold units. rewrite Z.abs_mul, (Z.abs_eq (10 ^ _)) by (apply Z.pow_nonneg; lia).
    replace (56 - scale (amount p)) with (28 + (max_scale - scale (amount p)))
      by (unfold max_scale; lia).
    rewrite Z.pow_add_r by (unfold max_scale in *; lia).
    apply Z.mul_lt_mono_pos_r; [apply pow10_pos; lia|done].
Qed.

Lemma posted_units_grid p : posted_ok p ->
  (10 ^ (28 - currency_scale (currency p)) | posted_units p).
Proof. intros (Hc & _ & _ & Hs). apply units_grid. split; [done|apply Hc]. Qed.

(** ** Comparisons of amounts are comparisons of units *)

Lemma dec_leb_posted a b : dec_leb (amount a) (amount b) = (posted_units a <=? posted_units b).
Proof. apply dec_leb_units. Qed.
Lemma dec_ltb_posted a b : dec_ltb (amount a) (amount b) = (posted_units a <? posted_units b).
Proof. apply dec_ltb_units. Qed.
Lemma posted_leb_zero a : dec_leb (amount a) ZERO = (posted_units a <=? 0).
Proof. rewrite dec_leb_units, units_ZERO. done. Qed.
Lemma posted_ltb_zero a : dec_ltb (amount a) ZERO = (posted_units a <? 0).
Proof. rewrite dec_ltb_units, units_ZERO. done. Qed.
Lemma posted_gtb_zero a : dec_ltb ZERO (amount a) = (0 <? posted_units a).
Proof. rewrite dec_ltb_units, units_ZERO. done. Qed.

End money.

(** Turn the sign and order guards of the code into integer comparisons. *)
Ltac posted_guards :=
  rewrite ?dec_leb_posted, ?dec_ltb_posted, ?posted_leb_zero, ?posted_ltb_zero, ?posted_gtb_zero in *.

(** ** Concrete postings for the witnesses *)
Module MoneySamples.
Import ConcreteDecimal.

Definition EUR : CurrencySpec := mkCurrencySpec "EUR" 2.
Definition USD : CurrencySpec := mkCurrencySpec "USD" 2.
Definition JPY : CurrencySpec := mkCurrencySpec "JPY" 0.

(** [eur c] is [c] cents, [usd c] is [c] cents, in the form a constructor leaves. *)
Definition eur (c : Z) : PostedMoney := mkPostedMoney (normalize (lit c 2)) EUR.
Definition usd (c : Z) : PostedMoney := mkPostedMoney (normalize (lit c 2)) USD.

Lemma posted_sample c cur : 0 <= currency_scale cur <= 28 -> Z.abs c < 10 ^ 28 ->
  2 <= currency_scale cur -> posted_ok (mkPostedMoney (normalize (lit c 2)) cur).
Proof.
  intros Hcur Hc H2.
  destruct (of_i128_parts c 2) as [Hm Hs]; [assert (10 ^ 28 < decimal_limit) by done; lia|done|].
  pose proof (normalize_scale_le (lit c 2)) as Hle. pose proof (normalize_value (lit c 2)) as Hv.
  pose proof (scale_bound (normalize (lit c 2))) as Hb.
  change (scale (lit c 2)) with (dec_scale (of_i128 c 2)) in *.
  change (mantissa (lit c 2)) with (coefficient (of_i128 c 2)) in *.
  rewrite Hm, Hs in *.
  split_and!; [done|apply canonical_normalize| |cbn [amount currency]; lia].
  cbn [amount]. unfold COEFFICIENT_LIMIT.
  pose proof (pow10_pos (scale (normalize (lit c 2))) ltac:(lia)).
  pose proof (pow10_le (scale (normalize (lit c 2))) 2 ltac:(lia)). nia.
Qed.

Lemma eur_ok c : Z.abs c < 10 ^ 28 -> posted_ok (eur c).
Proof. intros. by apply posted_sample. Qed.

Lemma usd_ok c : Z.abs c < 10 ^ 28 -> posted_ok (usd c).
Proof. intros. by apply posted_sample. Qed.
End MoneySamples.
