(* ===== verification/Exact.v ===== *)
(** * Bounded exact fractions: [libs/money/src/exact.rs]

    [ExactAmount] is a fraction with a positive, reduced denominator and at most
    256 digits in each part.  The reference it refines is the field of rational
    numbers: [to_Q] reads a fraction, [of_Q] is the reduced fraction of a
    rational, and [fit] is [of_Q] under the digit budget.  Amounts that come
    from decimals live on the grid of 10^-28 units, where [of_units] turns the
    operations into integer arithmetic; the ledger files use that view. *)

From S2P Require Import Prelude Decimal Money.
From Stdlib Require Import QArith Qreduction Qcanon Znumtheory.
Local Open Scope Z_scope.

Definition FINAL_DIGITS : Z := 256.
Definition PRODUCT_DIGITS : Z := 512.
Definition SUM_DIGITS : Z := 513.

Definition digit_bound (digits : Z) : Z := 10 ^ digits.
Definition FINAL_BOUND : Z := digit_bound FINAL_DIGITS.
Definition PRODUCT_BOUND : Z := digit_bound PRODUCT_DIGITS.
Definition SUM_BOUND : Z := digit_bound SUM_DIGITS.

Record ExactAmount := mkExact {
  numerator : Z;
  denominator : Z;
}.

Module ExactError.
Inductive exact_error :=
| Money (e : MoneyError)
| ArithmeticLimit
| DivisionByZero
| EmptyWeights
| NegativeWeight
| TooManyTerms.
End ExactError.
Abbreviation ExactError := ExactError.exact_error.

#[global] Instance exact_error_eq_dec : EqDecision ExactError.
Proof. solve_decision. Defined.

Definition ten_pow (scale : Z) : Z := 10 ^ scale.

Definition check_digits (value bound : Z) : result ExactError unit :=
  if bound <=? Z.abs value then Err ExactError.ArithmeticLimit else Ok tt.

Definition product (left right : Z) : result ExactError Z :=
  let value := left * right in
  _ ← check_digits value PRODUCT_BOUND;
  Ok value.

(** The [while] loop of [normalize], with fuel. *)
Fixpoint euclid (fuel : nat) (divisor remainder : Z) : Z :=
  match fuel with
  | O => divisor
  | S fuel =>
      if remainder =? 0 then divisor
      else euclid fuel remainder (Z.rem divisor remainder)
  end.

(** The remainders halve every two rounds, so twice the number of bits is enough. *)
Definition euclid_fuel (divisor remainder : Z) : nat :=
  Z.to_nat (Z.log2 divisor + 2 * Z.log2 remainder + 4).

Definition exact_normalize (numerator denominator : Z) : ExactAmount :=
  if numerator =? 0 then mkExact 0 1
  else
    let '(numerator, denominator) :=
      if denominator <? 0 then (- numerator, - denominator)
      else (numerator, denominator) in
    let divisor := euclid (euclid_fuel (Z.abs numerator) denominator)
                          (Z.abs numerator) denominator in
    mkExact (Z.quot numerator divisor) (Z.quot denominator divisor).

Definition check_budget (self : ExactAmount) : result ExactError unit :=
  _ ← check_digits (numerator self) FINAL_BOUND;
  check_digits (denominator self) FINAL_BOUND.

Definition check_operands (self rhs : ExactAmount) : result ExactError unit :=
  _ ← check_budget self;
  check_budget rhs.

Definition reduce (numerator denominator : Z) : result ExactError ExactAmount :=
  if denominator =? 0 then Err ExactError.DivisionByZero
  else
    _ ← check_digits numerator SUM_BOUND;
    _ ← check_digits denominator PRODUCT_BOUND;
    let result := exact_normalize numerator denominator in
    _ ← check_budget result;
    Ok result.

Definition combine (self rhs : ExactAmount) (subtract : bool) :
    result ExactError ExactAmount :=
  _ ← check_operands self rhs;
  left ← product (numerator self) (denominator rhs);
  right ← product (numerator rhs) (denominator self);
  let numerator := if subtract then left - right else left + right in
  _ ← check_digits numerator SUM_BOUND;
  denominator ← product (denominator self) (denominator rhs);
  reduce numerator denominator.

Definition checked_add (self rhs : ExactAmount) := combine self rhs false.
Definition checked_sub (self rhs : ExactAmount) := combine self rhs true.

Definition checked_mul (self rhs : ExactAmount) : result ExactError ExactAmount :=
  _ ← check_operands self rhs;
  num ← product (numerator self) (numerator rhs);
  den ← product (denominator self) (denominator rhs);
  reduce num den.

Definition checked_div (self rhs : ExactAmount) : result ExactError ExactAmount :=
  if numerator rhs =? 0 then Err ExactError.DivisionByZero
  else
    _ ← check_operands self rhs;
    num ← product (numerator self) (denominator rhs);
    den ← product (denominator self) (numerator rhs);
    reduce num den.

Definition is_negative (self : ExactAmount) : bool := numerator self <? 0.

Definition ceil (self : ExactAmount) : result ExactError ExactAmount :=
  _ ← check_budget self;
  let whole := Z.quot (numerator self) (denominator self) in
  let whole :=
    if (0 <? numerator self) && negb (Z.rem (numerator self) (denominator self) =? 0)
    then whole + 1 else whole in
  reduce whole 1.

Definition round_half_even_exact (self : ExactAmount) (scale : Z) :
    result ExactError ExactAmount :=
  if 28 <? scale then Err (ExactError.Money MoneyError.ScaleOutOfRange)
  else
    _ ← check_budget self;
    scaled ← product (Z.abs (numerator self)) (ten_pow scale);
    let quotient := Z.quot scaled (denominator self) in
    let remainder := Z.rem scaled (denominator self) in
    twice_remainder ← product remainder 2;
    let quotient :=
      if (denominator self <? twice_remainder)
         || ((twice_remainder =? denominator self) && negb (Z.rem quotient 2 =? 0))
      then quotient + 1 else quotient in
    let quotient := if numerator self <? 0 then - quotient else quotient in
    reduce quotient (ten_pow scale).

(** [Ord::cmp], and the operators derived from it. *)
Definition exact_cmp (self other : ExactAmount) : comparison :=
  numerator self * denominator other ?= numerator other * denominator self.
Definition exact_eqb (a b : ExactAmount) : bool :=
  match exact_cmp a b with Eq => true | _ => false end.
Definition exact_ltb (a b : ExactAmount) : bool :=
  match exact_cmp a b with Lt => true | _ => false end.
Definition exact_leb (a b : ExactAmount) : bool :=
  match exact_cmp a b with Gt => false | _ => true end.

Section exact_decimal.
Context `{RustDecimal}.

Definition from_decimal (value : Decimal) : ExactAmount :=
  exact_normalize (mantissa value) (ten_pow (scale value)).

Definition from_coefficient (coefficient scale : Z) : ExactAmount :=
  exact_normalize coefficient (ten_pow scale).

(** The [while] loop of [posted]; the scale counts it down. *)
Fixpoint strip_tens (fuel : nat) (coefficient scale : Z) : Z * Z :=
  match fuel with
  | O => (coefficient, scale)
  | S fuel =>
      if (0 <? scale) && (Z.rem coefficient 10 =? 0)
      then strip_tens fuel (Z.quot coefficient 10) (scale - 1)
      else (coefficient, scale)
  end.

Definition posted (coefficient : Z) (currency : CurrencySpec) :
    result ExactError PostedMoney :=
  let '(coefficient, scale) :=
    strip_tens (Z.to_nat (currency_scale currency)) coefficient
               (currency_scale currency) in
  if ten_pow 28 <=? Z.abs coefficient
  then Err (ExactError.Money MoneyError.AmountOutOfRange)
  else
    coefficient ← ok_or (checked_i128 coefficient)
                        (ExactError.Money MoneyError.AmountOutOfRange);
    map_err ExactError.Money
      (posted_try_new (from_i128_with_scale coefficient scale) currency).

Definition into_posted_exact (self : ExactAmount) (currency : CurrencySpec) :
    result ExactError PostedMoney :=
  _ ← check_budget self;
  scaled ← product (numerator self) (ten_pow (currency_scale currency));
  if negb (Z.rem scaled (denominator self) =? 0)
  then Err (ExactError.Money MoneyError.InvalidPostingIncrement)
  else posted (Z.quot scaled (denominator self)) currency.

Definition round_half_even (self : ExactAmount) (currency : CurrencySpec) :
    result ExactError PostedMoney :=
  rounded ← round_half_even_exact self (currency_scale currency);
  into_posted_exact rounded currency.

Definition coefficient_at_scale (amount : Decimal) (at_scale : Z) : option Z :=
  let amount := normalize amount in
  if at_scale <? scale amount then None
  else
    let shift := at_scale - scale amount in
    factor ← checked_i128 (10 ^ shift);
    checked_i128 (mantissa amount * factor).

(** ** [ScaledSum] *)

Inductive SumForm :=
| Coefficient (coefficient : Z)
| Fraction (value : ExactAmount).

Record ScaledSum := mkScaledSum {
  sum_scale : Z;
  form : SumForm;
}.

Definition sum_zero (scale : Z) : ScaledSum := mkScaledSum scale (Coefficient 0).
Definition sum_from_exact (value : ExactAmount) (scale : Z) : ScaledSum :=
  mkScaledSum scale (Fraction value).

Definition to_exact (self : ScaledSum) : ExactAmount :=
  match form self with
  | Coefficient coefficient => from_coefficient coefficient (sum_scale self)
  | Fraction value => value
  end.

Definition add_decimal (self : ScaledSum) (amount : Decimal) :
    result ExactError ScaledSum :=
  let fast :=
    match form self with
    | Coefficient total =>
        term ← coefficient_at_scale amount (sum_scale self);
        checked_i128 (total + term)
    | Fraction _ => None
    end in
  match fast with
  | Some next => Ok (mkScaledSum (sum_scale self) (Coefficient next))
  | None =>
      next ← checked_add (to_exact self) (from_decimal amount);
      Ok (mkScaledSum (sum_scale self) (Fraction next))
  end.

Definition add_sum (self other : ScaledSum) : result ExactError ScaledSum :=
  let fast :=
    match form self, form other with
    | Coefficient total, Coefficient term =>
        if sum_scale self =? sum_scale other then checked_i128 (total + term) else None
    | _, _ => None
    end in
  match fast with
  | Some next => Ok (mkScaledSum (sum_scale self) (Coefficient next))
  | None =>
      next ← checked_add (to_exact self) (to_exact other);
      Ok (mkScaledSum (sum_scale self) (Fraction next))
  end.

Definition sum_is_zero (self : ScaledSum) : bool :=
  match form self with
  | Coefficient coefficient => coefficient =? 0
  | Fraction value => numerator value =? 0
  end.

Definition sum_to_posted (self : ScaledSum) (currency : CurrencySpec) :
    result ExactError PostedMoney :=
  let direct :=
    match form self with
    | Coefficient coefficient => try_from_i128_with_scale coefficient (sum_scale self)
    | Fraction _ => None
    end in
  match direct with
  | Some amount => map_err ExactError.Money (posted_try_new amount currency)
  | None => into_posted_exact (to_exact self) currency
  end.

Definition sum_eqb (self other : ScaledSum) : bool :=
  match form self, form other with
  | Coefficient c1, Coefficient c2 =>
      if sum_scale self =? sum_scale other then c1 =? c2
      else exact_eqb (to_exact self) (to_exact other)
  | _, _ => exact_eqb (to_exact self) (to_exact other)
  end.

Definition sum_posted (values : list PostedMoney) (cur : CurrencySpec) :
    result ExactError PostedMoney :=
  _ ← fold_res (fun _ value => map_err ExactError.Money (ensure_same (currency value) cur))
               tt values;
  sum ← fold_res (fun sum value => checked_add sum (from_decimal (amount value)))
                 (from_decimal ZERO) values;
  into_posted_exact sum cur.
End exact_decimal.

(** ** The Euclid loop *)

Lemma euclid_ordered fuel d r :
  0 <= d -> r = 0 \/ (0 < r <= d /\ Z.log2 d + Z.log2 r < Z.of_nat fuel) ->
  euclid fuel d r = Z.gcd d r.
Proof.
  revert d r; induction fuel as [|fuel IH]; intros d r Hd Hr; cbn [euclid].
  { destruct Hr as [->|[_ Hr]]; [by rewrite Z.gcd_0_r_nonneg|].
    pose proof (Z.log2_nonneg d). pose proof (Z.log2_nonneg r). lia. }
  destruct (Z.eqb_spec r 0) as [->|Hr0]; [by rewrite Z.gcd_0_r_nonneg|].
  destruct Hr as [?|[Hr Hfuel]]; [lia|].
  rewrite Z.rem_mod_nonneg by lia.
  pose proof (Z.mod_pos_bound d r ltac:(lia)) as Hmod.
  rewrite IH; [rewrite Z.gcd_comm, Z.gcd_mod by lia; apply Z.gcd_comm|lia|].
  destruct (Z.eq_dec (d mod r) 0) as [->|Hnz]; [by left|right].
  split; [lia|].
  assert (2 * (d mod r) <= d).
  { pose proof (Z.div_mod d r ltac:(lia)). pose proof (Z.div_le_lower_bound d r 1). nia. }
  pose proof (Z.log2_le_mono (2 * (d mod r)) d ltac:(lia)) as Hlog.
  rewrite Z.log2_double in Hlog by lia. lia.
Qed.

Lemma euclid_gcd d r : 0 <= d -> 0 < r -> euclid (euclid_fuel d r) d r = Z.gcd d r.
Proof.
  intros Hd Hr. unfold euclid_fuel.
  pose proof (Z.log2_nonneg d). pose proof (Z.log2_nonneg r).
  destruct (Z.le_gt_cases r d).
  - apply euclid_ordered; [lia|right]. lia.
  - replace (Z.to_nat _) with (S (Z.to_nat (Z.log2 d + 2 * Z.log2 r + 3))) by lia.
    cbn [euclid]. rewrite (proj2 (Z.eqb_neq r 0)) by lia.
    rewrite Z.rem_small by lia. rewrite euclid_ordered; [apply Z.gcd_comm|lia|].
    destruct (Z.eq_dec d 0); [by left|right]. lia.
Qed.

(** ** The rational reference *)

Definition to_Q (a : ExactAmount) : Q := Qmake (numerator a) (Z.to_pos (denominator a)).

Definition of_Q (q : Q) : ExactAmount :=
  let r := Qred q in mkExact (Qnum r) (Zpos (Qden r)).

Definition in_budget (a : ExactAmount) : bool :=
  (Z.abs (numerator a) <? FINAL_BOUND) && (Z.abs (denominator a) <? FINAL_BOUND).

Definition fit (q : Q) : result ExactError ExactAmount :=
  if in_budget (of_Q q) then Ok (of_Q q) else Err ExactError.ArithmeticLimit.

(** Positive denominator, reduced, within budget: what every operation returns. *)
Definition exact_inv (a : ExactAmount) : Prop :=
  0 < denominator a /\ Z.gcd (numerator a) (denominator a) = 1 /\ in_budget a = true.

#[global] Instance of_Q_proper : Proper (Qeq ==> eq) of_Q.
Proof. intros p q Hpq. unfold of_Q. by rewrite (Qred_complete p q Hpq). Qed.

#[global] Instance fit_proper : Proper (Qeq ==> eq) fit.
Proof. intros p q Hpq. unfold fit. by rewrite (of_Q_proper p q Hpq). Qed.

Lemma to_of_Q q : (to_Q (of_Q q) == q)%Q.
Proof.
  unfold to_Q, of_Q; cbn.
  destruct (Qred q) as [n d] eqn:E; cbn. rewrite <- E. apply Qred_correct.
Qed.

Lemma of_Q_reduced q :
  0 < denominator (of_Q q) /\ Z.gcd (numerator (of_Q q)) (denominator (of_Q q)) = 1.
Proof.
  unfold of_Q; cbn. split; [lia|]. apply (Qred_iff (Qred q)), Qred_complete, Qred_correct.
Qed.

Lemma of_to_Q a : 0 < denominator a -> Z.gcd (numerator a) (denominator a) = 1 ->
  of_Q (to_Q a) = a.
Proof.
  destruct a as [n d]; cbn; intros Hd Hg. unfold of_Q, to_Q; cbn [numerator denominator].
  rewrite (proj2 (Qred_iff _)); cbn [Qnum Qden]; rewrite ?Z2Pos.id by lia; done.
Qed.

(** [normalize] computes the reduced fraction. *)
Lemma exact_normalize_pos n d : 0 < d ->
  exact_normalize n d = of_Q (Qmake n (Z.to_pos d)).
Proof.
  intros Hd. unfold exact_normalize, of_Q, Qred.
  pose proof (Z.ggcd_gcd n (Zpos (Z.to_pos d))) as Hg.
  pose proof (Z.ggcd_correct_divisors n (Zpos (Z.to_pos d))) as Hdiv.
  destruct (Z.ggcd n (Zpos (Z.to_pos d))) as [g [n' d']]; cbn [fst snd] in *.
  rewrite Z2Pos.id in * by lia. destruct Hdiv as [Hn Hd'].
  assert (0 < g) by (subst g; pose proof (Z.gcd_nonneg n d);
    assert (Z.gcd n d <> 0) by (intros [? ?]%Z.gcd_eq_0; lia); lia).
  assert (0 < d') by nia.
  destruct (Z.eqb_spec n 0) as [->|Hn0].
  { rewrite Z.gcd_0_l, Z.abs_eq in Hg by lia. assert (n' = 0) by nia. assert (d' = 1) by nia.
    by subst. }
  rewrite (proj2 (Z.ltb_ge d 0)) by lia. rewrite euclid_gcd by lia.
  rewrite Z.gcd_abs_l, <- Hg. cbn [Qnum Qden]. rewrite Z2Pos.id by lia.
  rewrite Hn, Hd' at 1. f_equal; rewrite Z.mul_comm; apply Z.quot_mul; lia.
Qed.

Lemma exact_normalize_neg n d : d < 0 ->
  exact_normalize n d = of_Q (Qmake (- n) (Z.to_pos (- d))).
Proof.
  intros Hd. rewrite <- exact_normalize_pos by lia. unfold exact_normalize.
  destruct (Z.eqb_spec n 0), (Z.eqb_spec (- n) 0); [done|lia|lia|].
  rewrite (proj2 (Z.ltb_lt d 0)), (proj2 (Z.ltb_ge (- d) 0)) by lia. done.
Qed.

(** ** The scratch bounds never reject in-budget operands *)

Lemma bound_product : FINAL_BOUND * FINAL_BOUND = PRODUCT_BOUND.
Proof. by vm_compute. Qed.

Lemma bound_sum : 2 * PRODUCT_BOUND < SUM_BOUND.
Proof. by vm_compute. Qed.

Lemma bound_final : 10 ^ 28 * 10 ^ 200 < FINAL_BOUND.
Proof. by vm_compute. Qed.

Lemma bound_order : 10 < FINAL_BOUND < PRODUCT_BOUND.
Proof. by vm_compute. Qed.

Lemma check_digits_ok v b : Z.abs v < b -> check_digits v b = Ok tt.
Proof. intros. unfold check_digits. by rewrite (proj2 (Z.leb_gt _ _)). Qed.

Lemma check_budget_spec a :
  check_budget a = if in_budget a then Ok tt else Err ExactError.ArithmeticLimit.
Proof.
  unfold check_budget, check_digits, in_budget. rewrite !Z.ltb_antisym.
  by destruct (FINAL_BOUND <=? Z.abs (numerator a)),
    (FINAL_BOUND <=? Z.abs (denominator a)).
Qed.

Lemma product_ok l r : Z.abs (l * r) < PRODUCT_BOUND -> product l r = Ok (l * r).
Proof. intros. unfold product. by rewrite check_digits_ok. Qed.

Lemma product_in_budget l r :
  Z.abs l < FINAL_BOUND -> Z.abs r < FINAL_BOUND -> product l r = Ok (l * r).
Proof.
  intros. apply product_ok. rewrite Z.abs_mul, <- bound_product.
  apply Z.mul_lt_mono_nonneg; lia.
Qed.

Lemma in_budget_iff a :
  in_budget a = true <->
  Z.abs (numerator a) < FINAL_BOUND /\ Z.abs (denominator a) < FINAL_BOUND.
Proof. unfold in_budget. by rewrite andb_true_iff, !Z.ltb_lt. Qed.

Lemma reduce_pos n d : 0 < d -> Z.abs n < SUM_BOUND -> d < PRODUCT_BOUND ->
  reduce n d = fit (Qmake n (Z.to_pos d)).
Proof.
  intros Hd Hn Hb. unfold reduce. rewrite (proj2 (Z.eqb_neq d 0)) by lia.
  rewrite !check_digits_ok by lia. cbn [mbind result_bind].
  rewrite exact_normalize_pos, check_budget_spec by done. unfold fit.
  by case_match.
Qed.

Lemma reduce_neg n d : d < 0 -> Z.abs n < SUM_BOUND -> - d < PRODUCT_BOUND ->
  reduce n d = fit (Qmake (- n) (Z.to_pos (- d))).
Proof.
  intros Hd Hn Hb. unfold reduce. rewrite (proj2 (Z.eqb_neq d 0)) by lia.
  rewrite !check_digits_ok by lia. cbn [mbind result_bind].
  rewrite exact_normalize_neg, check_budget_spec by done. unfold fit.
  by case_match.
Qed.

Lemma abs_product_lt a b : Z.abs a < FINAL_BOUND -> Z.abs b < FINAL_BOUND ->
  Z.abs (a * b) < PRODUCT_BOUND.
Proof.
  intros. rewrite Z.abs_mul, <- bound_product. apply Z.mul_lt_mono_nonneg; lia.
Qed.

(** Run the guards of an operation whose operands satisfy the invariant. *)
Ltac run_guards :=
  rewrite ?check_budget_spec;
  repeat match goal with
  | H : in_budget _ = true |- _ => rewrite ?H; cbn [mbind result_bind];
      apply in_budget_iff in H as [? ?]
  end;
  rewrite ?product_in_budget by lia; cbn [mbind result_bind].

Lemma combine_fit a b subtract : exact_inv a -> exact_inv b ->
  combine a b subtract =
  fit (if subtract then to_Q a - to_Q b else to_Q a + to_Q b)%Q.
Proof.
  intros (Hda & _ & Ha) (Hdb & _ & Hb). unfold combine, check_operands. run_guards.
  pose proof (abs_product_lt (numerator a) (denominator b)).
  pose proof (abs_product_lt (numerator b) (denominator a)).
  pose proof (abs_product_lt (denominator a) (denominator b)).
  pose proof bound_sum.
  rewrite check_digits_ok by (destruct subtract; lia).
  cbn [mbind result_bind]. rewrite reduce_pos; [|nia|destruct subtract; lia|lia].
  apply fit_proper. destruct subtract; unfold Qminus, Qplus, Qopp, Qeq, to_Q;
    cbn [Qnum Qden]; rewrite ?Pos2Z.inj_mul, !Z2Pos.id by nia; ring.
Qed.

Lemma checked_mul_fit a b : exact_inv a -> exact_inv b ->
  checked_mul a b = fit (to_Q a * to_Q b)%Q.
Proof.
  intros (Hda & _ & Ha) (Hdb & _ & Hb). unfold checked_mul, check_operands. run_guards.
  pose proof (abs_product_lt (numerator a) (numerator b)).
  pose proof (abs_product_lt (denominator a) (denominator b)).
  pose proof bound_sum.
  rewrite reduce_pos; [|nia|lia|lia].
  apply fit_proper. unfold Qmult, Qeq, to_Q; cbn [Qnum Qden].
  rewrite ?Pos2Z.inj_mul, !Z2Pos.id by nia. ring.
Qed.

Lemma checked_div_fit a b : exact_inv a -> exact_inv b -> numerator b <> 0 ->
  checked_div a b = fit (to_Q a / to_Q b)%Q.
Proof.
  intros (Hda & _ & Ha) (Hdb & _ & Hb) Hnz. unfold checked_div, check_operands.
  rewrite (proj2 (Z.eqb_neq _ _)) by done. run_guards.
  pose proof (abs_product_lt (numerator a) (denominator b)).
  pose proof (abs_product_lt (denominator a) (numerator b)).
  pose proof bound_sum.
  destruct (Z.lt_trichotomy (numerator b) 0) as [Hneg|[?|Hpos]]; [|lia|].
  - rewrite reduce_neg; [|nia|lia|lia]. apply fit_proper.
    unfold Qdiv, Qinv, Qmult, Qeq, to_Q; cbn [Qnum Qden].
    destruct (numerator b) eqn:E; [lia|lia|]. cbn [Qnum Qden].
    rewrite ?Pos2Z.inj_mul, !Z2Pos.id by nia.
    rewrite <- !Pos2Z.opp_pos, Z2Pos.id by lia. ring.
  - rewrite reduce_pos; [|nia|lia|lia]. apply fit_proper.
    unfold Qdiv, Qinv, Qmult, Qeq, to_Q; cbn [Qnum Qden].
    destruct (numerator b) eqn:E; [lia| |lia]. cbn [Qnum Qden].
    rewrite ?Pos2Z.inj_mul, !Z2Pos.id by nia. ring.
Qed.

Lemma fit_inv q a : fit q = Ok a -> exact_inv a /\ (to_Q a == q)%Q.
Proof.
  unfold fit. destruct (in_budget (of_Q q)) eqn:Hb; intros [= <-].
  split; [|apply to_of_Q]. destruct (of_Q_reduced q). done.
Qed.

(** ** Rounding *)

(** [k] is the integer nearest to [n / d], a tie going to the even one. *)
Definition half_even (n d k : Z) : Prop :=
  2 * Z.abs (n - k * d) <= d /\ (2 * Z.abs (n - k * d) = d -> Z.even k = true).

Lemma half_even_unique n d k k' : 0 < d -> half_even n d k -> half_even n d k' -> k = k'.
Proof.
  intros Hd [Hk He] [Hk' He'].
  assert (Hclose : -1 <= k - k' <= 1) by nia.
  destruct (Z.eq_dec k k') as [|Hne]; [done|exfalso].
  assert (k = k' + 1 \/ k' = k + 1) as [-> | ->] by lia.
  - rewrite Z.even_add in He. specialize (He ltac:(nia)). specialize (He' ltac:(nia)).
    by rewrite He' in He.
  - rewrite Z.even_add in He'. specialize (He ltac:(nia)). specialize (He' ltac:(nia)).
    by rewrite He in He'.
Qed.

Lemma half_even_opp n d k : half_even n d k -> half_even (- n) d (- k).
Proof.
  unfold half_even. rewrite Z.even_opp.
  replace (- n - - k * d) with (- (n - k * d)) by ring. by rewrite Z.abs_opp.
Qed.

(** The quotient adjusted by the code's comparison of twice the remainder. *)
Lemma half_even_quotient n d : 0 <= n -> 0 < d ->
  half_even n d
    (if (d <? Z.rem n d * 2) || ((Z.rem n d * 2 =? d) && negb (Z.rem (Z.quot n d) 2 =? 0))
     then Z.quot n d + 1 else Z.quot n d).
Proof.
  intros Hn Hd. pose proof (Z.quot_rem' n d). pose proof (Z.rem_bound_pos n d ltac:(lia) Hd).
  assert (Hev : Z.even (Z.quot n d) = (Z.rem (Z.quot n d) 2 =? 0)).
  { rewrite Zeven_mod. pose proof (Z.quot_pos n d ltac:(lia) Hd).
    rewrite Z.rem_mod_nonneg by lia. done. }
  set (q := Z.quot n d) in *. set (r := Z.rem n d) in *.
  unfold half_even.
  destruct (Z.ltb_spec d (r * 2)); cbn [orb]; [split; nia|].
  destruct (Z.eqb_spec (r * 2) d); cbn [andb]; [|split; nia].
  destruct (Z.rem q 2 =? 0); cbn [negb]; (split; [nia|intros _]).
  - done.
  - by rewrite Z.even_add, Hev.
Qed.

Lemma ten_pow_final s : 0 <= s <= 28 -> 0 < ten_pow s < FINAL_BOUND.
Proof.
  intros. unfold ten_pow. split; [apply pow10_pos; lia|].
  apply Z.le_lt_trans with (10 ^ 28); [apply pow10_le; lia|by vm_compute].
Qed.

Lemma round_half_even_exact_fit a s : exact_inv a -> 0 <= s <= 28 ->
  exists k, half_even (numerator a * 10 ^ s) (denominator a) k /\
    round_half_even_exact a s = fit (Qmake k (Z.to_pos (10 ^ s))).
Proof.
  intros (Hd & _ & Hb) Hs. pose proof (ten_pow_final s Hs) as Hp.
  unfold round_half_even_exact. rewrite (proj2 (Z.ltb_ge 28 s)) by lia. run_guards.
  set (n := Z.abs (numerator a) * ten_pow s).
  assert (0 <= n) by (unfold n; nia).
  pose proof (abs_product_lt (Z.abs (numerator a)) (ten_pow s) ltac:(lia) ltac:(lia)) as Hn.
  pose proof (half_even_quotient n (denominator a) ltac:(lia) Hd) as Hq.
  pose proof (Z.rem_bound_pos n (denominator a) ltac:(lia) Hd).
  rewrite product_in_budget by (pose proof bound_order; lia).
  cbn [mbind result_bind].
  set (q := if _ || _ then _ else _) in *. pose proof bound_sum.
  assert (Hqn : 0 <= q <= n + 1).
  { unfold q. pose proof (Z.quot_pos n (denominator a) ltac:(lia) Hd).
    pose proof (Z.quot_le_upper_bound n (denominator a) n Hd ltac:(nia)).
    case_match; lia. }
  destruct (Z.ltb_spec (numerator a) 0); rewrite reduce_pos;
    try (fold n in Hn; pose proof bound_product; nia).
  - exists (- q). split; [|done].
    replace (numerator a * 10 ^ s) with (- n) by (unfold n, ten_pow; nia).
    by apply half_even_opp.
  - exists q. split; [|done].
    replace (numerator a * 10 ^ s) with n by (unfold n, ten_pow; nia). done.
Qed.

Lemma of_Q_integer k : of_Q (Qmake k 1) = mkExact k 1.
Proof. apply (of_to_Q (mkExact k 1)); [done|]. apply Z.gcd_1_r. Qed.

Lemma ceil_spec a : exact_inv a ->
  exists k, (k - 1) * denominator a < numerator a <= k * denominator a /\
    ceil a = Ok (mkExact k 1).
Proof.
  intros (Hd & _ & Hb). unfold ceil. run_guards.
  pose proof (Z.quot_rem' (numerator a) (denominator a)) as Hqr.
  pose proof (Z.rem_bound_abs (numerator a) (denominator a) ltac:(lia)).
  pose proof (Z.rem_sign_nz (numerator a) (denominator a) ltac:(lia)) as Hsgn.
  set (q := Z.quot _ _) in *. set (r := Z.rem _ _) in *.
  set (k := if _ && _ then _ else _).
  exists k.
  assert (Hk : (k - 1) * denominator a < numerator a <= k * denominator a).
  { unfold k. destruct (Z.ltb_spec 0 (numerator a)), (Z.eqb_spec r 0); cbn [andb negb];
      try nia; specialize (Hsgn ltac:(lia)); nia. }
  split; [done|].
  pose proof bound_sum; pose proof bound_order.
  assert (Habs : Z.abs k <= Z.abs (numerator a)) by nia.
  rewrite reduce_pos; [|lia..].
  unfold fit. change (Z.to_pos 1) with 1%positive. rewrite of_Q_integer.
  rewrite (proj2 (in_budget_iff (mkExact k 1))); [done|].
  cbn [numerator denominator]. lia.
Qed.

(** ** Narrowing to a posting *)

Lemma strip_tens_spec fuel c s c' s' :
  0 <= s <= Z.of_nat fuel -> strip_tens fuel c s = (c', s') ->
  0 <= s' <= s /\ c = c' * 10 ^ (s - s') /\ (s' = 0 \/ Z.rem c' 10 <> 0).
Proof.
  revert c s; induction fuel as [|fuel IH]; intros c s Hs; cbn [strip_tens].
  { intros [= <- <-]. rewrite Z.sub_diag, Z.pow_0_r. lia. }
  destruct (Z.ltb_spec 0 s), (Z.eqb_spec (Z.rem c 10) 0); cbn [andb];
    try (intros [= <- <-]; rewrite Z.sub_diag, Z.pow_0_r; lia).
  intros (? & Hc & ?)%IH; [|lia]. split_and!; [lia..| |done].
  pose proof (Z.quot_rem' c 10). replace (s - s') with (Z.succ (s - 1 - s')) by lia.
  rewrite Z.pow_succ_r by lia. lia.
Qed.

Lemma fits_stripped sc c s : 0 <= s <= sc -> sc <= 28 ->
  s = 0 \/ Z.rem c 10 <> 0 ->
  fits sc (c * 10 ^ (28 - s)) <-> Z.abs c < 10 ^ 28.
Proof.
  intros Hs Hsc Hstrip. pose proof (pow10_pos (28 - s) ltac:(lia)) as Hp.
  assert (Habs : Z.abs (c * 10 ^ (28 - s)) = Z.abs c * 10 ^ (28 - s))
    by (rewrite Z.abs_mul, (Z.abs_eq (10 ^ _)); lia).
  assert (H56 : 10 ^ (56 - s) = 10 ^ 28 * 10 ^ (28 - s))
    by (rewrite <- Z.pow_add_r by lia; f_equal; lia).
  split.
  - intros (s0 & Hs0 & Hdiv & Hlt). rewrite Habs in Hlt.
    destruct (Z.le_gt_cases s s0) as [Hle|Hgt].
    + pose proof (pow10_le (56 - s0) (56 - s) ltac:(lia)). nia.
    + exfalso. destruct Hstrip as [->|Hr]; [lia|]. apply Hr, Z.rem_divide; [lia|].
      apply Z.divide_trans with (10 ^ (s - s0)).
      { exists (10 ^ (s - s0 - 1)). rewrite Z.mul_comm, <- Z.pow_succ_r by lia.
        f_equal. lia. }
      apply (Z.mul_divide_cancel_r _ _ (10 ^ (28 - s))); [lia|].
      rewrite <- Z.pow_add_r by lia. by replace (s - s0 + (28 - s)) with (28 - s0) by lia.
  - intros Hlt. exists s. split_and!; [lia..|by exists c|].
    rewrite Habs, H56. by apply Z.mul_lt_mono_pos_r.
Qed.

Section posting.
Context `{RustDecimal}.

Lemma units_canonical d c s :
  mantissa d = c -> scale d = s -> units d = c * 10 ^ (28 - s).
Proof. intros <- <-. done. Qed.

Lemma posted_try_new_spec d cur : currency_ok cur ->
  match posted_try_new d cur with
  | Ok p => posted_ok p /\ currency p = cur /\ posted_units p = units d
  | Err MoneyError.AmountOutOfRange => ~ (Z.abs (mantissa (normalize d)) < 10 ^ 28)
  | Err MoneyError.InvalidPostingIncrement => ~ (10 ^ (28 - currency_scale cur) | units d)
  | Err _ => False
  end.
Proof.
  intros Hcur. unfold posted_try_new, validate_amount.
  pose proof (scale_bound (normalize d)) as Hsc. unfold currency_ok in Hcur.
  destruct (Z.leb_spec COEFFICIENT_LIMIT (Z.abs (mantissa (normalize d))));
    cbn [mbind result_bind].
  { unfold COEFFICIENT_LIMIT in *; lia. }
  destruct (Z.ltb_spec (currency_scale cur) (scale (normalize d))).
  - intros [k Hk]. destruct (normalize_stripped d) as [?|Hrem]; [lia|].
    apply Hrem, Z.rem_divide; [lia|]. rewrite <- units_normalize in Hk. unfold units in Hk.
    set (s := scale (normalize d)) in *. set (m := mantissa (normalize d)) in *.
    exists (k * 10 ^ (s - currency_scale cur - 1)).
    apply (Z.mul_cancel_r _ _ (10 ^ (max_scale - s))).
    { apply Z.pow_nonzero; lia. }
    rewrite Hk, (Z.mul_comm _ 10), <- !Z.mul_assoc.
    replace (28 - currency_scale cur)
      with (Z.succ (s - currency_scale cur - 1) + (max_scale - s)) by (unfold max_scale; lia).
    rewrite Z.pow_add_r, Z.pow_succ_r by lia. ring.
  - unfold posted_ok, posted_units; cbn [amount currency].
    rewrite units_normalize. split_and!; try done; apply canonical_normalize.
Qed.

Lemma posted_spec c cur : currency_ok cur ->
  match posted c cur with
  | Ok p => posted_ok p /\ currency p = cur /\
            posted_units p = c * 10 ^ (28 - currency_scale cur)
  | Err e => e = ExactError.Money MoneyError.AmountOutOfRange /\
             ~ fits (currency_scale cur) (c * 10 ^ (28 - currency_scale cur))
  end.
Proof.
  intros Hcur. unfold posted. pose proof Hcur as Hcur'. unfold currency_ok in Hcur'.
  set (sc := currency_scale cur) in *.
  destruct (strip_tens (Z.to_nat sc) c sc) as [c' s'] eqn:Hst.
  apply strip_tens_spec in Hst as (Hs' & Hc & Hstrip); [|lia].
  assert (Hz : c * 10 ^ (28 - sc) = c' * 10 ^ (28 - s')).
  { rewrite Hc, <- Z.mul_assoc, <- Z.pow_add_r by lia. do 2 f_equal. lia. }
  rewrite Hz. pose proof (fits_stripped sc c' s' Hs' ltac:(lia) Hstrip) as Hfit.
  unfold ten_pow. destruct (Z.leb_spec (10 ^ 28) (Z.abs c')).
  { split; [done|]. rewrite Hfit. lia. }
  assert (Hlim : 10 ^ 28 < decimal_limit) by done.
  assert (Hi : checked_i128 c' = Some c').
  { unfold checked_i128, in_i128, i128_min, i128_max. unfold decimal_limit in Hlim.
    rewrite !(proj2 (Z.leb_le _ _)) by lia. done. }
  rewrite Hi. cbn [ok_or mbind result_bind].
  destruct (from_i128_with_scale_spec c' s') as [Hm Hsc]; [lia|unfold max_scale; lia|].
  set (d := from_i128_with_scale c' s') in *.
  assert (Hcan : normalize d = d \/ c' = 0).
  { destruct (Z.eq_dec c' 0); [by right|left]. apply canonical_normalize_id.
    split; [by rewrite Hm, Hsc|lia]. }
  pose proof (posted_try_new_spec d cur Hcur) as Hspec.
  rewrite (units_canonical d c' s' Hm Hsc) in Hspec.
  destruct (posted_try_new d cur) as [p|[]]; cbn [map_err];
    [exact Hspec|destruct Hspec|destruct Hspec|destruct Hspec| | |destruct Hspec|destruct Hspec].
  - exfalso. apply Hspec. destruct Hcan as [->|Hc0]; [lia|].
    pose proof (normalize_value d) as Hv. rewrite Hm, Hc0 in Hv.
    pose proof (scale_bound d). pose proof (pow10_pos (scale d) ltac:(lia)). nia.
  - exfalso. apply Hspec. exists (c' * 10 ^ (sc - s')).
    rewrite <- Z.mul_assoc, <- Z.pow_add_r by lia. fold sc. do 2 f_equal. lia.
Qed.
End posting.
