(* ===== verification/ExactGrid.v ===== *)
(** * Exact amounts on the decimal grid

    A decimal has at most 28 fractional digits, so its value is a whole number
    of 10^-28 units.  [of_units z] is the exact amount of [z] units.  This file
    shows that the operations of [exact.rs] on such amounts are the integer
    operations on units, that narrowing to a posting is exact and complete, and
    that a [ScaledSum] holds the same value in either of its forms. *)

From S2P Require Import Prelude Decimal Money Exact.
From Stdlib Require Import QArith Znumtheory.
Local Open Scope Z_scope.

Definition grid : Z := 10 ^ 28.

Definition of_units (z : Z) : ExactAmount := of_Q (Qmake z (Z.to_pos grid)).

(** Magnitudes that no realistic ledger reaches and the digit budget allows. *)
Definition small (z : Z) : Prop := Z.abs z < 10 ^ 200.

Lemma grid_pos : 0 < grid.
Proof. done. Qed.

Lemma of_Q_parts q :
  exists g, 0 < g /\ Qnum q = g * numerator (of_Q q) /\ QDen q = g * denominator (of_Q q).
Proof.
  destruct q as [n d]. unfold of_Q, Qred.
  pose proof (Z.ggcd_gcd n (Zpos d)) as Hg.
  pose proof (Z.ggcd_correct_divisors n (Zpos d)) as Hdiv.
  destruct (Z.ggcd n (Zpos d)) as [g [n' d']]; cbn in *.
  destruct Hdiv as [Hn Hd].
  assert (0 < g) by (pose proof (Z.gcd_nonneg n (Zpos d));
    assert (Z.gcd n (Zpos d) <> 0) by (intros [? ?]%Z.gcd_eq_0; lia); lia).
  assert (0 < d') by nia.
  exists g. rewrite Z2Pos.id by lia. done.
Qed.

Lemma of_units_parts z :
  exists g, 0 < g /\ z = g * numerator (of_units z) /\ grid = g * denominator (of_units z).
Proof.
  destruct (of_Q_parts (Qmake z (Z.to_pos grid))) as (g & Hg & Hn & Hd).
  exists g. cbn [Qnum Qden] in *. rewrite Z2Pos.id in Hd by done. done.
Qed.

Lemma abs_factor_le g n : 0 < g -> Z.abs n <= Z.abs (g * n).
Proof. intros. rewrite Z.abs_mul, (Z.abs_eq g); nia. Qed.

Lemma of_units_inv z : small z -> exact_inv (of_units z).
Proof.
  intros Hz. destruct (of_units_parts z) as (g & Hg & Hn & Hd).
  pose proof grid_pos. pose proof bound_final as Hb.
  destruct (of_Q_reduced (Qmake z (Z.to_pos grid))) as [Hpos Hgcd].
  split_and!; [exact Hpos|exact Hgcd|]. apply in_budget_iff. fold (of_units z) in *.
  unfold small in Hz. pose proof (abs_factor_le g (numerator (of_units z)) Hg) as H1.
  pose proof (abs_factor_le g (denominator (of_units z)) Hg) as H2.
  rewrite <- Hn in H1. rewrite <- Hd in H2. fold grid in Hb.
  generalize dependent FINAL_BOUND. intros F HF. clear -H H1 H2 Hz HF.
  remember (10 ^ 200) as B. nia.
Qed.

Lemma to_Q_of_units z : (to_Q (of_units z) == Qmake z (Z.to_pos grid))%Q.
Proof. apply to_of_Q. Qed.

Lemma of_units_of_Q n d z : 0 < d -> n * grid = z * d ->
  of_Q (Qmake n (Z.to_pos d)) = of_units z.
Proof.
  intros Hd Heq. apply of_Q_proper. unfold Qeq; cbn [Qnum Qden].
  rewrite !Z2Pos.id by done. lia.
Qed.

Lemma fit_units z : small z -> fit (Qmake z (Z.to_pos grid)) = Ok (of_units z).
Proof. intros Hz. unfold fit. fold (of_units z). by destruct (of_units_inv z Hz) as (_ & _ & ->). Qed.

Lemma checked_add_units a b : small a -> small b -> small (a + b) ->
  checked_add (of_units a) (of_units b) = Ok (of_units (a + b)).
Proof.
  intros Ha Hb Hab. unfold checked_add. rewrite combine_fit by by apply of_units_inv.
  rewrite <- (fit_units (a + b)) by done. apply fit_proper.
  rewrite !to_Q_of_units. unfold Qplus, Qeq; cbn [Qnum Qden].
  rewrite Pos2Z.inj_mul, Z2Pos.id by done. ring.
Qed.

Lemma checked_sub_units a b : small a -> small b -> small (a - b) ->
  checked_sub (of_units a) (of_units b) = Ok (of_units (a - b)).
Proof.
  intros Ha Hb Hab. unfold checked_sub. rewrite combine_fit by by apply of_units_inv.
  rewrite <- (fit_units (a - b)) by done. apply fit_proper.
  rewrite !to_Q_of_units. unfold Qminus, Qopp, Qplus, Qeq; cbn [Qnum Qden].
  rewrite Pos2Z.inj_mul, Z2Pos.id by done. ring.
Qed.

Lemma exact_cmp_units a b : exact_cmp (of_units a) (of_units b) = (a ?= b).
Proof.
  destruct (of_units_parts a) as (g & Hg & Ha & Hga), (of_units_parts b) as (h & Hh & Hb & Hgb).
  unfold exact_cmp. set (n := numerator (of_units a)) in *. set (d := denominator (of_units a)) in *.
  set (n' := numerator (of_units b)) in *. set (d' := denominator (of_units b)) in *.
  rewrite (Zmult_compare_compat_r (n * d') (n' * d) (g * h)) by nia.
  rewrite (Zmult_compare_compat_r a b grid) by (pose proof grid_pos; lia).
  f_equal; [rewrite Ha at 1; rewrite Hgb at 1 | rewrite Hb at 1; rewrite Hga at 1]; ring.
Qed.

Lemma exact_ltb_units a b : exact_ltb (of_units a) (of_units b) = (a <? b).
Proof. unfold exact_ltb. by rewrite exact_cmp_units. Qed.

Lemma exact_leb_units a b : exact_leb (of_units a) (of_units b) = (a <=? b).
Proof. unfold exact_leb. by rewrite exact_cmp_units. Qed.

Lemma exact_eqb_units a b : exact_eqb (of_units a) (of_units b) = (a =? b).
Proof.
  unfold exact_eqb. rewrite exact_cmp_units.
  destruct (Z.compare_spec a b) as [->|?|?]; [by rewrite Z.eqb_refl|..];
    symmetry; apply Z.eqb_neq; lia.
Qed.

Lemma numerator_units_zero z : (numerator (of_units z) =? 0) = (z =? 0).
Proof.
  destruct (of_units_parts z) as (g & Hg & Hn & _).
  destruct (Z.eqb_spec z 0), (Z.eqb_spec (numerator (of_units z)) 0); try done; nia.
Qed.

Lemma is_negative_units z : is_negative (of_units z) = (z <? 0).
Proof.
  destruct (of_units_parts z) as (g & Hg & Hn & _). unfold is_negative.
  destruct (Z.ltb_spec z 0), (Z.ltb_spec (numerator (of_units z)) 0); try done; nia.
Qed.

Lemma of_units_inj a b : of_units a = of_units b -> a = b.
Proof.
  intros Heq. apply Z.compare_eq. rewrite <- exact_cmp_units, Heq, exact_cmp_units.
  apply Z.compare_refl.
Qed.

Section decimals.
Context `{RustDecimal}.

Lemma from_coefficient_units c s : 0 <= s <= 28 ->
  from_coefficient c s = of_units (c * 10 ^ (28 - s)).
Proof.
  intros Hs. unfold from_coefficient, ten_pow.
  pose proof (pow10_pos s ltac:(lia)).
  rewrite exact_normalize_pos by done. apply of_units_of_Q; [done|].
  unfold grid. rewrite <- Z.mul_assoc, <- Z.pow_add_r by lia. do 2 f_equal. lia.
Qed.

Lemma from_decimal_units d : from_decimal d = of_units (units d).
Proof.
  pose proof (scale_bound d) as Hs. unfold max_scale in Hs.
  exact (from_coefficient_units (mantissa d) (scale d) Hs).
Qed.

Lemma units_small d : Z.abs (units d) < 10 ^ 57.
Proof.
  pose proof (scale_bound d) as Hs. pose proof (mantissa_bound d) as Hm.
  unfold units. rewrite Z.abs_mul, (Z.abs_eq (10 ^ _)) by (apply Z.pow_nonneg; lia).
  assert (10 ^ (max_scale - scale d) <= 10 ^ 28)
    by (apply pow10_le; unfold max_scale in *; lia).
  assert (0 < 10 ^ (max_scale - scale d)) by (apply pow10_pos; lia).
  assert (decimal_limit * 10 ^ 28 < 10 ^ 57) by by vm_compute. nia.
Qed.

Lemma posted_units_small p : Z.abs (posted_units p) < 10 ^ 57.
Proof. apply units_small. Qed.
End decimals.

(** ** Narrowing *)

Section narrowing.
Context `{RustDecimal}.

Lemma into_posted_exact_spec a cur : exact_inv a -> currency_ok cur ->
  match into_posted_exact a cur with
  | Ok p => posted_ok p /\ currency p = cur /\ a = of_units (posted_units p)
  | Err (ExactError.Money MoneyError.InvalidPostingIncrement) =>
      forall z, (10 ^ (28 - currency_scale cur) | z) -> a <> of_units z
  | Err (ExactError.Money MoneyError.AmountOutOfRange) =>
      exists z, a = of_units z /\ (10 ^ (28 - currency_scale cur) | z) /\
                ~ fits (currency_scale cur) z
  | Err _ => False
  end.
Proof.
  intros (Hd & Hg & Hb) Hcur. pose proof Hcur as Hsc. unfold currency_ok in Hsc.
  set (sc := currency_scale cur) in *.
  pose proof (ten_pow_final sc Hsc) as Hten.
  unfold into_posted_exact. rewrite check_budget_spec, Hb. cbn [mbind result_bind].
  apply in_budget_iff in Hb as [Hbn Hbd]. fold sc.
  rewrite product_in_budget by lia. cbn [mbind result_bind].
  set (scaled := numerator a * ten_pow sc).
  pose proof (Z.quot_rem' scaled (denominator a)) as Hqr.
  assert (Hgrid : grid = 10 ^ sc * 10 ^ (28 - sc)) by (apply pow10_split; lia).
  destruct (Z.eqb_spec (Z.rem scaled (denominator a)) 0) as [Hrem|Hrem]; cbn [negb].
  - set (k := Z.quot scaled (denominator a)) in *.
    assert (Ha : a = of_units (k * 10 ^ (28 - sc))).
    { rewrite <- (of_to_Q a Hd Hg). apply of_units_of_Q; [done|].
      unfold scaled, ten_pow in *. rewrite Hgrid. nia. }
    pose proof (posted_spec k cur Hcur) as Hspec. fold sc in Hspec.
    destruct (posted k cur) as [p|e].
    + destruct Hspec as (Hp & Hc & Hu). by rewrite Hu.
    + destruct Hspec as [-> Hnf]. exists (k * 10 ^ (28 - sc)).
      split_and!; [done|by exists k|done].
  - intros z [k ->] ->. apply Hrem.
    destruct (of_units_parts (k * 10 ^ (28 - sc))) as (g & Hgpos & Hn & Hdn).
    apply Z.rem_divide; [lia|]. exists k. unfold scaled, ten_pow.
    set (n := numerator _) in *. set (d := denominator _) in *.
    pose proof (pow10_pos (28 - sc) ltac:(lia)).
    assert (n * 10 ^ sc * (g * 10 ^ (28 - sc)) = k * d * (g * 10 ^ (28 - sc))) as Heq.
    { transitivity (g * n * (10 ^ sc * 10 ^ (28 - sc))); [ring|].
      rewrite <- Hn, <- Hgrid, Hdn. ring. }
    apply Z.mul_cancel_r in Heq; [done|nia].
Qed.

(** An amount on the grid narrows to the one posting that has its value, and to
    nothing when no posting has it. *)
Lemma into_posted_units z cur p : small z -> currency_ok cur ->
  into_posted_exact (of_units z) cur = Ok p <->
  posted_ok p /\ currency p = cur /\ posted_units p = z.
Proof.
  intros Hz Hcur.
  pose proof (into_posted_exact_spec _ cur (of_units_inv z Hz) Hcur) as Hspec.
  split.
  - intros Heq. rewrite Heq in Hspec. destruct Hspec as (? & ? & Hu).
    apply of_units_inj in Hu. done.
  - intros (Hp & Hc & Hu). pose proof (posted_units_fits p Hp) as Hf. rewrite Hc, Hu in Hf.
    assert (Hdiv : (10 ^ (28 - currency_scale cur) | z)).
    { destruct Hp as (_ & _ & _ & Hs). rewrite <- Hu. rewrite <- Hc.
      apply units_grid. split; [done|]. rewrite Hc. apply Hcur. }
    destruct (into_posted_exact (of_units z) cur) as [p'|[[]| | | | |]]; try done.
    + destruct Hspec as (Hp' & Hc' & Hu'). apply of_units_inj in Hu'.
      f_equal. apply posted_unique; congruence.
    + destruct Hspec as (z' & Heq & _ & Hnf). apply of_units_inj in Heq. by subst.
    + by destruct (Hspec z Hdiv).
Qed.

Lemma into_posted_units_total z cur : small z -> currency_ok cur ->
  (10 ^ (28 - currency_scale cur) | z) -> fits (currency_scale cur) z ->
  exists p, into_posted_exact (of_units z) cur = Ok p.
Proof.
  intros Hz Hcur Hdiv Hfit.
  pose proof (into_posted_exact_spec _ cur (of_units_inv z Hz) Hcur) as Hspec.
  destruct (into_posted_exact (of_units z) cur) as [p'|[[]| | | | |]]; try done; [by eexists|..].
  - destruct Hspec as (z' & Heq & _ & Hnf). apply of_units_inj in Heq. by subst.
  - by destruct (Hspec z Hdiv).
Qed.

(** ** Scaled sums *)

Definition sum_holds (s : ScaledSum) (z : Z) : Prop :=
  0 <= sum_scale s <= 28 /\
  match form s with
  | Coefficient c => c * 10 ^ (28 - sum_scale s) = z
  | Fraction v => v = of_units z
  end.

Lemma sum_zero_holds s : 0 <= s <= 28 -> sum_holds (sum_zero s) 0.
Proof. by split. Qed.

Lemma to_exact_holds s z : sum_holds s z -> to_exact s = of_units z.
Proof.
  unfold sum_holds, to_exact. destruct (form s); intros [Hs Hz]; [|done].
  by rewrite from_coefficient_units, Hz.
Qed.

Lemma sum_is_zero_holds s z : sum_holds s z -> sum_is_zero s = (z =? 0).
Proof.
  unfold sum_holds, sum_is_zero. destruct (form s); intros [Hs Hz].
  - pose proof (pow10_pos (28 - sum_scale s) ltac:(lia)).
    destruct (Z.eqb_spec coefficient 0), (Z.eqb_spec z 0); try done; nia.
  - subst. apply numerator_units_zero.
Qed.

Lemma coefficient_at_scale_units d s c : s <= 28 ->
  coefficient_at_scale d s = Some c -> c * 10 ^ (28 - s) = units d.
Proof.
  intros Hs. unfold coefficient_at_scale, checked_i128.
  pose proof (scale_bound (normalize d)) as Hn.
  destruct (Z.ltb_spec s (scale (normalize d))); [done|].
  destruct (in_i128 (10 ^ _)); cbn [mbind option_bind]; [|done].
  destruct (in_i128 _); [|done]. intros [= <-].
  rewrite <- (units_normalize d). unfold units, max_scale.
  rewrite <- Z.mul_assoc, <- Z.pow_add_r by lia. do 2 f_equal. lia.
Qed.

Lemma add_decimal_holds s z d :
  sum_holds s z -> small z -> small (z + units d) ->
  exists s', add_decimal s d = Ok s' /\ sum_holds s' (z + units d) /\
             sum_scale s' = sum_scale s.
Proof.
  intros Hh Hz Hzd. pose proof (units_small d) as Hd. unfold add_decimal.
  set (fast := match form s with Coefficient _ => _ | Fraction _ => _ end).
  destruct fast as [next|] eqn:Hfast.
  - eexists; split_and!; [done| |done]. destruct Hh as [Hs Hform]. split; [done|].
    cbn [form sum_scale]. unfold fast in Hfast. destruct (form s) as [total|]; [|done].
    apply bind_Some in Hfast as (term & Hterm & Hnext).
    apply coefficient_at_scale_units in Hterm; [|lia].
    unfold checked_i128 in Hnext. case_match; [|done]. injection Hnext as <-. lia.
  - rewrite (to_exact_holds s z Hh), from_decimal_units, checked_add_units;
      [|done|unfold small in *; lia|done].
    eexists; split_and!; [done|by split; [apply Hh|]|done].
Qed.

Lemma add_sum_holds s z t y :
  sum_holds s z -> sum_holds t y -> small z -> small y -> small (z + y) ->
  exists s', add_sum s t = Ok s' /\ sum_holds s' (z + y) /\ sum_scale s' = sum_scale s.
Proof.
  intros Hs Ht Hz Hy Hzy. unfold add_sum.
  set (fast := match form s, form t with Coefficient _, Coefficient _ => _ | _, _ => _ end).
  destruct fast as [next|] eqn:Hfast.
  - eexists; split_and!; [done| |done]. destruct Hs as [Hss Hs], Ht as [Hts Ht].
    split; [done|]. cbn [form sum_scale]. unfold fast in Hfast.
    destruct (form s), (form t); try done.
    destruct (Z.eqb_spec (sum_scale s) (sum_scale t)) as [Heq|]; [|done].
    unfold checked_i128 in Hfast. case_match; [|done]. injection Hfast as <-.
    rewrite <- Heq in Ht. lia.
  - rewrite (to_exact_holds s z Hs), (to_exact_holds t y Ht), checked_add_units by done.
    eexists; split_and!; [done|by split; [apply Hs|]|done].
Qed.

Lemma sum_to_posted_holds s z cur p :
  sum_holds s z -> small z -> currency_ok cur ->
  sum_to_posted s cur = Ok p <-> posted_ok p /\ currency p = cur /\ posted_units p = z.
Proof.
  intros Hh Hz Hcur. unfold sum_to_posted.
  set (direct := match form s with Coefficient _ => _ | Fraction _ => _ end).
  destruct direct as [d|] eqn:Hdir; cycle 1.
  { rewrite (to_exact_holds s z Hh). by apply into_posted_units. }
  assert (Hu : units d = z).
  { destruct Hh as [Hs Hform]. unfold direct in Hdir. destruct (form s); [|done].
    apply try_from_i128_with_scale_some in Hdir as [Hm Hsc].
    rewrite <- Hform. by apply units_canonical. }
  pose proof (posted_try_new_spec d cur Hcur) as Hspec. rewrite Hu in Hspec.
  rewrite map_err_ok. split.
  - intros Heq. rewrite Heq in Hspec. done.
  - intros (Hp & Hc & Hpu).
    destruct (posted_try_new d cur) as [p'|[]]; try done.
    + destruct Hspec as (Hp' & Hc' & Hu'). f_equal. apply posted_unique; congruence.
    + exfalso. apply Hspec.
      assert (Heq : normalize d = amount p).
      { destruct Hp as (_ & Hcan & _). apply canonical_unique; [apply canonical_normalize|done|].
        rewrite units_normalize, Hu. done. }
      rewrite Heq. apply Hp.
    + exfalso. apply Hspec. destruct Hp as (_ & _ & _ & Hs). rewrite <- Hpu, <- Hc.
      apply units_grid. split; [done|]. rewrite Hc. apply Hcur.
Qed.
End narrowing.

(** ** Sums over a list *)

(** The length of a list that a 64-bit machine can hold. *)
Definition vec_ok {A} (l : list A) : Prop := Z.of_nat (length l) < 2 ^ 64.

Lemma vec_ok_tail {A} (x : A) l : vec_ok (x :: l) -> vec_ok l.
Proof. unfold vec_ok. cbn [length]. lia. Qed.

Lemma small_bound z k : Z.abs z <= 10 ^ 57 * k -> k < 2 ^ 100 -> small z.
Proof.
  intros Hz Hk. unfold small. assert (10 ^ 57 * 2 ^ 100 < 10 ^ 200) by by vm_compute. nia.
Qed.

Section sums.
Context `{RustDecimal}.

Lemma sum_units_bound {A} (f : A -> Decimal) l :
  Z.abs (sum_Z (fun x => units (f x)) l) <= 10 ^ 57 * Z.of_nat (length l).
Proof. apply sum_Z_bound. intros x _. pose proof (units_small (f x)). lia. Qed.

Lemma sum_units_small {A} (f : A -> Decimal) l :
  vec_ok l -> small (sum_Z (fun x => units (f x)) l).
Proof.
  unfold vec_ok. intros Hl. eapply small_bound; [apply sum_units_bound|].
  assert (2 ^ 64 < 2 ^ 100) by by vm_compute. lia.
Qed.

(** A loop that adds decimals to an exact accumulator computes the exact sum. *)
Lemma fold_add_units {A} (f : A -> Decimal) l z k :
  Z.abs z <= 10 ^ 57 * k -> k + Z.of_nat (length l) < 2 ^ 100 ->
  fold_res (fun sum x => checked_add sum (from_decimal (f x))) (of_units z) l
    = Ok (of_units (z + sum_Z (fun x => units (f x)) l)).
Proof.
  revert z k; induction l as [|x l IH]; intros z k Hz Hk; cbn [fold_res].
  { by rewrite sum_Z_nil, Z.add_0_r. }
  cbn [length] in Hk. pose proof (units_small (f x)) as Hx.
  rewrite from_decimal_units, checked_add_units;
    [|apply (small_bound _ k); lia|apply (small_bound _ 1); lia|apply (small_bound _ (k + 1)); lia].
  cbn [mbind result_bind]. rewrite (IH _ (k + 1)) by lia.
  rewrite sum_Z_cons. do 2 f_equal. lia.
Qed.

Lemma fold_add_from_zero {A} (f : A -> Decimal) l : vec_ok l ->
  fold_res (fun sum x => checked_add sum (from_decimal (f x))) (from_decimal ZERO) l
    = Ok (of_units (sum_Z (fun x => units (f x)) l)).
Proof.
  intros Hl. rewrite from_decimal_units, units_ZERO, (fold_add_units f l 0 0); [done|lia|].
  unfold vec_ok in Hl. assert (2 ^ 64 < 2 ^ 100) by by vm_compute. lia.
Qed.

Lemma ensure_same_ok a b : ensure_same a b = Ok tt <-> a = b.
Proof.
  unfold ensure_same. destruct a as [c s], b as [c' s']; cbn.
  case_bool_decide; cbn [negb].
  - destruct (Z.eqb_spec s s'); cbn; naive_solver.
  - split; [done|]. intros [= ? ?]. done.
Qed.

Lemma ensure_same_loop values cur :
  fold_res (fun _ value => map_err ExactError.Money (ensure_same (currency value) cur))
           tt values = Ok tt <->
  Forall (fun value => currency value = cur) values.
Proof.
  induction values as [|v vs IH]; cbn [fold_res]; [by split|].
  rewrite Forall_cons, <- IH. rewrite bind_ok. split.
  - intros ([] & Hv%map_err_ok%ensure_same_ok & Hrest). done.
  - intros [Hv Hrest]. exists tt. split; [|done]. by rewrite map_err_ok, ensure_same_ok.
Qed.

(** [sum_posted] returns exactly the posting whose value is the sum. *)
Lemma sum_posted_ok values cur p : vec_ok values -> currency_ok cur ->
  sum_posted values cur = Ok p <->
  Forall (fun value => currency value = cur) values /\
  posted_ok p /\ currency p = cur /\ posted_units p = sum_Z posted_units values.
Proof.
  intros Hl Hcur. unfold sum_posted. rewrite bind_ok.
  rewrite (fold_add_from_zero amount values Hl).
  rewrite <- (into_posted_units (sum_Z posted_units values) cur p);
    [|by apply (sum_units_small amount)|done].
  split.
  - intros ([] & Hsame%ensure_same_loop & Hp). done.
  - intros [Hsame Hp]. exists tt. by rewrite ensure_same_loop.
Qed.

(** A sum that fits is returned. *)
Lemma sum_posted_fits values cur : vec_ok values -> currency_ok cur ->
  Forall posted_ok values -> Forall (fun value => currency value = cur) values ->
  fits (currency_scale cur) (sum_Z posted_units values) ->
  exists p, sum_posted values cur = Ok p.
Proof.
  intros Hl Hcur Hok Hsame Hfit.
  destruct (into_posted_units_total (sum_Z posted_units values) cur) as [p Hp]; try done.
  - by apply (sum_units_small amount).
  - apply sum_Z_divide. intros v Hv. rewrite Forall_forall in Hok, Hsame.
    rewrite <- (Hsame v Hv). by apply posted_units_grid, Hok.
  - exists p. apply sum_posted_ok; [done..|]. split; [done|].
    apply into_posted_units in Hp; [done| |done]. by apply (sum_units_small amount).
Qed.
End sums.
