(* ===== verification/ExactProps.v ===== *)
(** * What [exact.rs] guarantees

    The properties of the exact-amount library, stated over its public
    operations, with their witnesses. *)

From S2P Require Import Prelude Decimal Money Exact ExactGrid.
From Stdlib Require Import QArith.
Local Open Scope Z_scope.

Lemma euclid_enough d r extra : 0 <= d -> 0 < r ->
  euclid (euclid_fuel d r + extra) d r = Z.gcd d r.
Proof.
  intros Hd Hr. pose proof (Z.log2_nonneg d). pose proof (Z.log2_nonneg r).
  destruct (euclid_fuel d r + extra)%nat as [|fuel] eqn:Hfuel; unfold euclid_fuel in Hfuel; [lia|].
  destruct (Z.le_gt_cases r d); [apply euclid_ordered; [lia|right; lia]|].
  cbn [euclid]. rewrite (proj2 (Z.eqb_neq r 0)), Z.rem_small by lia.
  rewrite euclid_ordered; [apply Z.gcd_comm|lia|].
  destruct (Z.eq_dec d 0); [by left|right; lia].
Qed.

(** The Euclid loop of [normalize] terminates within the fuel the model gives
    it, for every pair of operands the code passes, with the greatest common
    divisor; more fuel changes nothing. *)
Theorem euclid_terminates numerator denominator extra :
  denominator <> 0 ->
  euclid (euclid_fuel (Z.abs numerator) (Z.abs denominator) + extra)
         (Z.abs numerator) (Z.abs denominator) = Z.gcd numerator denominator.
Proof.
  intros Hd. rewrite euclid_enough by lia. by rewrite Z.gcd_abs_l, Z.gcd_abs_r.
Qed.

Lemma euclid_terminates_witness :
  euclid (euclid_fuel (Z.abs (-84)) (Z.abs 36) + 5) (Z.abs (-84)) (Z.abs 36) = Z.gcd (-84) 36.
Proof. apply (euclid_terminates (-84) 36 5). discriminate. Defined.

(** C15: exact arithmetic is rational arithmetic under a digit budget.  On amounts
    that satisfy the invariant, [checked_add], [checked_sub], [checked_mul] and
    [checked_div] return the reduced fraction of the rational result, or
    [ArithmeticLimit] when that fraction needs more than 256 digits, and nothing
    else; only a zero divisor is reported as such; results keep the invariant. *)
Theorem exact_arithmetic_refines_rationals a b :
  exact_inv a -> exact_inv b ->
  checked_add a b = fit (to_Q a + to_Q b)%Q /\
  checked_sub a b = fit (to_Q a - to_Q b)%Q /\
  checked_mul a b = fit (to_Q a * to_Q b)%Q /\
  checked_div a b =
    (if numerator b =? 0 then Err ExactError.DivisionByZero else fit (to_Q a / to_Q b)%Q) /\
  exact_cmp a b = Qcompare (to_Q a) (to_Q b) /\
  (forall q c, fit q = Ok c -> exact_inv c /\ (to_Q c == q)%Q).
Proof.
  intros Ha Hb. split_and!.
  - by apply (combine_fit a b false).
  - by apply (combine_fit a b true).
  - by apply checked_mul_fit.
  - destruct (Z.eqb_spec (numerator b) 0) as [Hz|Hnz].
    + unfold checked_div. by rewrite Hz.
    + by apply checked_div_fit.
  - destruct Ha as [Ha _], Hb as [Hb _]. unfold exact_cmp, Qcompare, to_Q; cbn [Qnum Qden].
    by rewrite !Z2Pos.id.
  - apply fit_inv.
Qed.

Lemma exact_arithmetic_refines_rationals_witness :
  checked_add (mkExact 1 3) (mkExact 1 6) = Ok (mkExact 1 2) /\
  checked_div (mkExact 1 3) (mkExact (-2) 5) = Ok (mkExact (-5) 6).
Proof.
  destruct (exact_arithmetic_refines_rationals (mkExact 1 3) (mkExact 1 6)) as [Hadd _];
    [by vm_compute..|].
  destruct (exact_arithmetic_refines_rationals (mkExact 1 3) (mkExact (-2) 5))
    as (_ & _ & _ & Hdiv & _); [by vm_compute..|].
  rewrite Hadd, Hdiv. split; vm_compute; reflexivity.
Defined.

(** [round_half_even_exact] rounds to the nearest multiple of 10^-scale, a tie
    going to the even coefficient; that coefficient is unique, and the only other
    outcome is the digit budget of the rounded fraction. *)
Theorem round_half_even_exact_nearest a scale :
  exact_inv a -> 0 <= scale <= 28 ->
  exists k,
    half_even (numerator a * 10 ^ scale) (denominator a) k /\
    (forall k', half_even (numerator a * 10 ^ scale) (denominator a) k' -> k' = k) /\
    round_half_even_exact a scale = fit (Qmake k (Z.to_pos (10 ^ scale))).
Proof.
  intros Ha Hs. destruct (round_half_even_exact_fit a scale Ha Hs) as (k & Hk & Hr).
  exists k. split_and!; [done| |done]. intros k' Hk'.
  eapply half_even_unique; [apply Ha|done|done].
Qed.

Lemma round_half_even_exact_nearest_witness :
  exists k,
    half_even (numerator (mkExact 1 8) * 10 ^ 2) (denominator (mkExact 1 8)) k /\
    (forall k', half_even (numerator (mkExact 1 8) * 10 ^ 2) (denominator (mkExact 1 8)) k' ->
       k' = k) /\
    round_half_even_exact (mkExact 1 8) 2 = fit (Qmake k (Z.to_pos (10 ^ 2))).
Proof. apply round_half_even_exact_nearest; [by vm_compute|done]. Defined.

(** [ceil] returns the smallest integer that is not below the value, and never
    fails on an amount that satisfies the invariant. *)
Theorem ceil_is_ceiling a :
  exact_inv a ->
  exists k, ceil a = Ok (mkExact k 1) /\
    (k - 1) * denominator a < numerator a <= k * denominator a.
Proof. intros Ha. destruct (ceil_spec a Ha) as (k & ? & ?). by exists k. Qed.

Lemma ceil_is_ceiling_witness :
  exists k, ceil (mkExact (-7) 3) = Ok (mkExact k 1) /\
    (k - 1) * denominator (mkExact (-7) 3) < numerator (mkExact (-7) 3)
      <= k * denominator (mkExact (-7) 3).
Proof. apply ceil_is_ceiling. by vm_compute. Defined.

Section postings.
Context `{RustDecimal}.

(** Narrowing is exact and complete.  [into_posted_exact] returns a posting
    exactly when one with that value exists in the currency; it reports
    [InvalidPostingIncrement] only for a value that is not a multiple of the
    currency's increment, and [AmountOutOfRange] only for a multiple that needs
    more than 28 digits. *)
Theorem into_posted_exact_complete a cur :
  exact_inv a -> currency_ok cur ->
  (forall p, into_posted_exact a cur = Ok p <->
     posted_ok p /\ currency p = cur /\ a = of_units (posted_units p)) /\
  match into_posted_exact a cur with
  | Ok _ => True
  | Err (ExactError.Money MoneyError.InvalidPostingIncrement) =>
      forall z, (10 ^ (28 - currency_scale cur) | z) -> a <> of_units z
  | Err (ExactError.Money MoneyError.AmountOutOfRange) =>
      exists z, a = of_units z /\ (10 ^ (28 - currency_scale cur) | z) /\
                ~ fits (currency_scale cur) z
  | Err _ => False
  end.
Proof.
  intros Ha Hcur. pose proof (into_posted_exact_spec a cur Ha Hcur) as Hspec. split.
  - intros p. split; [intros Heq; by rewrite Heq in Hspec|].
    intros (Hp & Hc & ->). apply into_posted_units; [|done..].
    apply (small_bound _ 1); [pose proof (posted_units_small p)|]; lia.
  - by destruct (into_posted_exact a cur).
Qed.

(** A [ScaledSum] is exact whatever form holds it.  Adding any machine-sized
    list of decimals to a zero sum never fails; the sum then compares as zero
    exactly when the total is zero, [to_exact] is the total, and [to_posted]
    returns exactly the posting that has the total as its value. *)
Theorem scaled_sum_exact scale terms :
  0 <= scale <= 28 -> vec_ok terms ->
  exists s, fold_res add_decimal (sum_zero scale) terms = Ok s /\
    to_exact s = of_units (sum_Z units terms) /\
    sum_is_zero s = (sum_Z units terms =? 0) /\
    forall cur p, currency_ok cur ->
      sum_to_posted s cur = Ok p <->
      posted_ok p /\ currency p = cur /\ posted_units p = sum_Z units terms.
Proof.
  intros Hs Hl.
  assert (Hgen : forall acc z k, sum_holds acc z -> Z.abs z <= 10 ^ 57 * k ->
    k + Z.of_nat (length terms) < 2 ^ 100 ->
    exists s, fold_res add_decimal acc terms = Ok s /\ sum_holds s (z + sum_Z units terms)).
  { clear Hl. induction terms as [|d terms IH]; intros acc z k Hh Hz Hk; cbn [fold_res].
    { exists acc. by rewrite sum_Z_nil, Z.add_0_r. }
    cbn [length] in Hk. pose proof (units_small d).
    destruct (add_decimal_holds acc z d Hh) as (acc' & -> & Hh' & _);
      [apply (small_bound _ k); lia|apply (small_bound _ (k + 1)); lia|].
    cbn [mbind result_bind]. rewrite sum_Z_cons, Z.add_assoc. apply (IH _ _ (k + 1)); [done|lia..]. }
  destruct (Hgen _ 0 0 (sum_zero_holds scale Hs)) as (s & Hfold & Hh); [lia| |].
  { unfold vec_ok in Hl. assert (2 ^ 64 < 2 ^ 100) by by vm_compute. lia. }
  rewrite Z.add_0_l in Hh. exists s. split_and!; [done|by apply to_exact_holds|by apply sum_is_zero_holds|].
  intros cur p Hcur. apply sum_to_posted_holds; [done| |done].
  by apply (sum_units_small (fun d => d)).
Qed.

(** [sum_posted] succeeds exactly when every term has the given currency and
    the exact sum is a posting of it, and then returns that posting. *)
Theorem sum_posted_exact values cur p :
  vec_ok values -> currency_ok cur ->
  sum_posted values cur = Ok p <->
  Forall (fun value => currency value = cur) values /\
  posted_ok p /\ currency p = cur /\ posted_units p = sum_Z posted_units values.
Proof. apply sum_posted_ok. Qed.
End postings.

Section witnesses.
Import ConcreteDecimal MoneySamples.

Lemma into_posted_exact_complete_witness :
  exists p, into_posted_exact (mkExact 5 2) EUR = Ok p /\ mkExact 5 2 = of_units (posted_units p).
Proof.
  destruct (is_ok_exists (into_posted_exact (mkExact 5 2) EUR)) as [p Hp];
    [vm_compute; reflexivity|].
  exists p. split; [exact Hp|].
  apply (into_posted_exact_complete (mkExact 5 2) EUR) in Hp as (_ & _ & Heq); [exact Heq|ground..].
Defined.

(** 8 at scale 28 overflows the coefficient form's carrier and still narrows. *)
Lemma scaled_sum_exact_witness :
  exists s, fold_res add_decimal (sum_zero 28) [lit 5 0; lit 3 0] = Ok s /\
    to_exact s = of_units (sum_Z units [lit 5 0; lit 3 0]).
Proof.
  destruct (scaled_sum_exact 28 [lit 5 0; lit 3 0]) as (s & Hf & He & _); [done|by vm_compute|].
  exists s. exact (conj Hf He).
Defined.

Lemma sum_posted_exact_witness :
  exists p, sum_posted [eur 1050; eur (-50)] EUR = Ok p /\
    posted_units p = sum_Z posted_units [eur 1050; eur (-50)].
Proof.
  destruct (is_ok_exists (sum_posted [eur 1050; eur (-50)] EUR)) as [p Hp];
    [vm_compute; reflexivity|].
  exists p. split; [exact Hp|].
  assert (Hvec : vec_ok [eur 1050; eur (-50)]) by reflexivity.
  assert (Hcur : currency_ok EUR) by ground.
  exact (proj2 (proj2 (proj2 (proj1 (sum_posted_exact _ _ p Hvec Hcur) Hp)))).
Defined.
End witnesses.
