(* ===== verification/Allocate.v ===== *)
(** * Proportional allocation: [libs/money/src/allocate.rs]

    [allocate] splits a total over weights: each share is the exact proportion
    rounded half-even at the currency scale, and the exact residual goes to the
    last or the largest slot.  The theorems show that the shares always add up
    to the total, that every other slot holds the rounded proportion, and that
    the call succeeds whenever the arguments are admissible and the total
    leaves room for the residual. *)

From S2P Require Import Prelude Decimal Money Exact ExactGrid.
From Stdlib Require Import QArith.
Local Open Scope Z_scope.

Inductive Residual :=
| Last
| Largest.

Definition validate_count (count : Z) : result ExactError unit :=
  if count =? 0 then Err ExactError.EmptyWeights
  else if negb (count <=? i32_max) then Err ExactError.TooManyTerms
  else Ok tt.

Section allocate.
Context `{RustDecimal}.

(** [enumerate().max_by(cmp)]: the earlier element stays only when it compares
    greater. *)
Fixpoint max_by_loop (best : nat * Decimal) (next : nat) (l : list Decimal) : nat :=
  match l with
  | [] => fst best
  | b :: l =>
      let ordering :=
        match dec_cmp (snd best) b with
        | Eq => Nat.compare next (fst best)
        | c => c
        end in
      max_by_loop (match ordering with Gt => best | _ => (next, b) end) (S next) l
  end.

Definition largest_index (weights : list Decimal) : option nat :=
  match weights with
  | [] => None
  | a :: l => Some (max_by_loop (0%nat, a) 1 l)
  end.

Definition weight_step (sum : ExactAmount) (weight : Decimal) :
    result ExactError ExactAmount :=
  if dec_ltb weight ZERO then Err ExactError.NegativeWeight
  else
    _ ← map_err ExactError.Money (validate_amount weight);
    checked_add sum (from_decimal weight).

Definition weight_loop (weights : list Decimal) : result ExactError ExactAmount :=
  fold_res weight_step (from_decimal ZERO) weights.

Definition share_of (total : PostedMoney) (sum : ExactAmount) (weight : Decimal) :
    result ExactError PostedMoney :=
  product ← checked_mul (from_decimal (amount total)) (from_decimal weight);
  quotient ← checked_div product sum;
  round_half_even quotient (currency total).

Definition share_step (total : PostedMoney) (sum : ExactAmount)
    (acc : ExactAmount * list PostedMoney) (weight : Decimal) :
    result ExactError (ExactAmount * list PostedMoney) :=
  let '(placed, shares) := acc in
  share ← share_of total sum weight;
  placed ← checked_add placed (from_decimal (amount share));
  Ok (placed, shares ++ [share]).

Definition share_loop (total : PostedMoney) (sum : ExactAmount) (weights : list Decimal) :
    result ExactError (ExactAmount * list PostedMoney) :=
  fold_res (share_step total sum) (from_decimal ZERO, []) weights.

Definition allocate (total : PostedMoney) (weights : list Decimal)
    (disposition : Residual) : result ExactError (list PostedMoney) :=
  _ ← validate_count (Z.of_nat (length weights));
  sum ← weight_loop weights;
  '(placed, shares) ← share_loop total sum weights;
  residual ← checked_sub (from_decimal (amount total)) placed;
  let index :=
    match disposition with
    | Last => match length shares with O => None | S n => Some n end
    | Largest => largest_index weights
    end in
  index ← ok_or index ExactError.EmptyWeights;
  slot ← ok_or (shares !! index) ExactError.EmptyWeights;
  adjusted ← checked_add (from_decimal (amount slot)) residual;
  adjusted ← into_posted_exact adjusted (currency total);
  Ok (<[index := adjusted]> shares).

(** ** The weights *)

Definition weight_ok (w : Decimal) : Prop :=
  0 <= units w /\ Z.abs (mantissa (normalize w)) < 10 ^ 28.

Lemma weight_step_ok k z w acc : Z.abs z <= 10 ^ 57 * k -> k + 1 < 2 ^ 100 -> 0 <= k ->
  weight_step (of_units z) w = Ok acc <-> weight_ok w /\ acc = of_units (z + units w).
Proof.
  intros Hz Hk Hk0. pose proof (units_small w). unfold weight_step, weight_ok.
  rewrite dec_ltb_units, units_ZERO.
  destruct (Z.ltb_spec (units w) 0); [split; [done|]; intros [[? _] _]; lia|].
  rewrite bind_ok. setoid_rewrite map_err_ok. setoid_rewrite validate_amount_ok.
  rewrite from_decimal_units, checked_add_units;
    [|apply (small_bound _ k); lia|apply (small_bound _ 1); lia
     |apply (small_bound _ (k + 1)); lia].
  split; [|naive_solver]. intros (d & [Hv ->] & [= <-]). done.
Qed.

Lemma weight_loop_ok weights sum : vec_ok weights ->
  weight_loop weights = Ok sum <->
  Forall weight_ok weights /\ sum = of_units (sum_Z units weights).
Proof.
  intros Hl. unfold weight_loop. rewrite from_decimal_units, units_ZERO.
  assert (Hgen : forall k z, 0 <= k -> Z.abs z <= 10 ^ 57 * k ->
    k + Z.of_nat (length weights) < 2 ^ 100 ->
    fold_res weight_step (of_units z) weights = Ok sum <->
    Forall weight_ok weights /\ sum = of_units (z + sum_Z units weights)); cycle 1.
  { apply (Hgen 0 0); [lia..|]. unfold vec_ok in Hl.
    assert (2 ^ 64 < 2 ^ 100) by by vm_compute. lia. }
  clear Hl. induction weights as [|w ws IH]; intros k z Hk0 Hz Hk; cbn [fold_res].
  { rewrite sum_Z_nil, Z.add_0_r. split; [intros [= <-]; by split; [constructor|]|].
    by intros [_ ->]. }
  cbn [length] in Hk. pose proof (units_small w).
  rewrite bind_ok, Forall_cons, sum_Z_cons, Z.add_assoc.
  setoid_rewrite (weight_step_ok k); [|lia..].
  specialize (IH (k + 1) (z + units w) ltac:(lia) ltac:(lia) ltac:(lia)).
  split.
  - intros (acc & [Hw ->] & Hrest%IH). tauto.
  - intros [[Hw Hws] Hsum]. exists (of_units (z + units w)). split; [done|]. by apply IH.
Qed.

(** ** The shares *)

(** A fraction within the digit budget fits, however it is written. *)
Lemma fit_total n d : 0 < d < FINAL_BOUND -> Z.abs n < FINAL_BOUND ->
  fit (Qmake n (Z.to_pos d)) = Ok (of_Q (Qmake n (Z.to_pos d))).
Proof.
  intros Hd Hn. unfold fit.
  destruct (of_Q_parts (Qmake n (Z.to_pos d))) as (g & Hg & Hnum & Hden).
  destruct (of_Q_reduced (Qmake n (Z.to_pos d))) as [Hpos _].
  cbn [Qnum Qden] in *. rewrite Z2Pos.id in Hden by lia.
  rewrite (proj2 (in_budget_iff _)); [done|]. split; nia.
Qed.

Lemma of_Q_total_inv n d : 0 < d < FINAL_BOUND -> Z.abs n < FINAL_BOUND ->
  exact_inv (of_Q (Qmake n (Z.to_pos d))).
Proof. intros Hd Hn. by apply (fit_inv (Qmake n (Z.to_pos d))), fit_total. Qed.

Lemma half_even_scale g n d k : 0 < g -> half_even (g * n) (g * d) k <-> half_even n d k.
Proof.
  intros Hg. unfold half_even.
  replace (g * n - k * (g * d)) with (g * (n - k * d)) by ring.
  rewrite Z.abs_mul, (Z.abs_eq g) by lia.
  split; intros [H1 H2]; (split; [nia|]); intros; apply H2; nia.
Qed.

(** The reduced form of a fraction rounds like the fraction. *)
Lemma half_even_of_Q n d s k : 0 < d -> 0 <= s ->
  half_even (numerator (of_Q (Qmake n (Z.to_pos d))) * 10 ^ s)
            (denominator (of_Q (Qmake n (Z.to_pos d)))) k <->
  half_even (n * 10 ^ s) d k.
Proof.
  intros Hd Hs. destruct (of_Q_parts (Qmake n (Z.to_pos d))) as (g & Hg & Hnum & Hden).
  cbn [Qnum Qden] in *. rewrite Z2Pos.id in Hden by lia.
  set (a := of_Q _) in *. clearbody a.
  rewrite Hnum, Hden, <- Z.mul_assoc. by rewrite half_even_scale.
Qed.

Definition increment (total : PostedMoney) : Z := 10 ^ (28 - currency_scale (currency total)).

Lemma abs_mul_lt a b A B : Z.abs a < A -> Z.abs b < B -> Z.abs (a * b) < A * B.
Proof. intros. rewrite Z.abs_mul. apply Z.mul_lt_mono_nonneg; lia. Qed.

Lemma budget_constants :
  10 ^ 57 * 10 ^ 57 * grid < FINAL_BOUND /\ grid * grid * 10 ^ 70 < FINAL_BOUND /\ 1 < grid.
Proof. by vm_compute. Qed.

Lemma share_budget T W S : Z.abs T < 10 ^ 57 -> Z.abs W < 10 ^ 57 -> 0 < S < 10 ^ 70 ->
  Z.abs (T * W) < FINAL_BOUND /\ Z.abs (T * W) + 1 < FINAL_BOUND /\
  Z.abs (T * W * grid) < FINAL_BOUND /\
  grid * grid < FINAL_BOUND /\ 0 < grid * grid * S < FINAL_BOUND.
Proof.
  intros HT HW HS. pose proof (abs_mul_lt _ _ _ _ HT HW) as HTW.
  destruct budget_constants as (H1 & H2 & H3).
  rewrite (Z.abs_mul (T * W)), (Z.abs_eq grid) by lia.
  generalize dependent (10 ^ 57 * 10 ^ 57). intros P HP H1.
  generalize dependent (10 ^ 70). intros R HR H2. generalize dependent FINAL_BOUND.
  intros F H1 H2. clear HT HW. set (X := Z.abs (T * W)) in *.
  assert (0 <= X) by lia. generalize dependent grid. intros g H1 H2 Hg. clearbody X.
  split_and!; nia.
Qed.

Lemma quotient_units T W S : Z.abs T < 10 ^ 57 -> Z.abs W < 10 ^ 57 -> 0 < S < 10 ^ 70 ->
  (product ← checked_mul (of_units T) (of_units W); checked_div product (of_units S))
    = Ok (of_Q (Qmake (T * W * grid) (Z.to_pos (grid * grid * S)))).
Proof.
  intros HT HW HS. destruct (share_budget T W S HT HW HS) as (Hb1 & Hb1' & Hb2 & Hb3 & Hb4).
  pose proof grid_pos.
  assert (HsT : small T) by (apply (small_bound _ 1); lia).
  assert (HsW : small W) by (apply (small_bound _ 1); lia).
  assert (HsS : small S).
  { unfold small. assert (10 ^ 70 < 10 ^ 200) by by vm_compute. lia. }
  rewrite checked_mul_fit by by apply of_units_inv.
  assert (Hq : (to_Q (of_units T) * to_Q (of_units W)
                == Qmake (T * W) (Z.to_pos (grid * grid)))%Q).
  { rewrite !to_Q_of_units. unfold Qmult, Qeq; cbn [Qnum Qden].
    rewrite Pos2Z.inj_mul, !Z2Pos.id by lia. ring. }
  rewrite Hq, fit_total by nia. cbn [mbind result_bind].
  rewrite checked_div_fit; [|apply of_Q_total_inv; nia|by apply of_units_inv|].
  2:{ apply Z.eqb_neq. rewrite numerator_units_zero. apply Z.eqb_neq. lia. }
  rewrite <- fit_total by lia. apply fit_proper.
  rewrite to_of_Q, to_Q_of_units. unfold Qdiv, Qinv, Qmult, Qeq; cbn [Qnum Qden].
  destruct S as [|S|S]; [lia| |lia]. cbn [Qnum Qden].
  rewrite !Pos2Z.inj_mul, !Z2Pos.id by nia. ring.
Qed.

Lemma share_of_units total S w :
  currency_ok (currency total) -> 0 < S < 10 ^ 70 ->
  exists k,
    half_even (posted_units total * units w) (S * increment total) k /\
    share_of total (of_units S) w
      = into_posted_exact (of_units (k * increment total)) (currency total).
Proof.
  intros Hcur HS. unfold share_of. rewrite !from_decimal_units.
  fold (posted_units total).
  pose proof (posted_units_small total) as HT. pose proof (units_small w) as HW.
  set (T := posted_units total) in *. set (W := units w) in *.
  destruct (share_budget T W S HT HW HS) as (Hb1 & Hb1' & Hb2 & Hb3 & Hb4).
  pose proof (quotient_units T W S HT HW HS) as Hq.
  apply bind_ok in Hq as (prod & Hprod & Hquot).
  rewrite Hprod. cbn [mbind result_bind]. rewrite Hquot. cbn [mbind result_bind].
  unfold round_half_even. unfold currency_ok in Hcur. unfold increment.
  set (sc := currency_scale (currency total)) in *.
  assert (Hg : grid = 10 ^ sc * 10 ^ (28 - sc)) by (apply pow10_split; lia).
  pose proof (pow10_pos sc ltac:(lia)). pose proof (pow10_pos (28 - sc) ltac:(lia)).
  destruct (round_half_even_exact_fit (of_Q (Qmake (T * W * grid) (Z.to_pos (grid * grid * S)))) sc)
    as (k & Hk & Hround); [apply of_Q_total_inv; lia|lia|].
  rewrite half_even_of_Q in Hk by lia.
  replace (T * W * grid * 10 ^ sc) with (grid * 10 ^ sc * (T * W)) in Hk by ring.
  replace (grid * grid * S) with (grid * 10 ^ sc * (S * 10 ^ (28 - sc))) in Hk
    by (rewrite Hg; ring).
  rewrite half_even_scale in Hk by nia.
  exists k. split; [done|]. rewrite Hround.
  pose proof (ten_pow_final sc Hcur) as Hten. unfold ten_pow in Hten.
  assert (Hkb : Z.abs k <= Z.abs (T * W) + 1).
  { destruct Hk as [Hk _]. nia. }
  rewrite fit_total by lia.
  cbn [mbind result_bind]. f_equal. apply of_units_of_Q; [lia|]. rewrite Hg. ring.
Qed.

(** ** The loop over the weights *)

Lemma share_loop_ok total sum weights placed shares : vec_ok weights ->
  share_loop total sum weights = Ok (placed, shares) <->
  Forall2 (fun w s => share_of total sum w = Ok s) weights shares /\
  placed = of_units (sum_Z posted_units shares).
Proof.
  intros Hl. unfold share_loop. rewrite from_decimal_units, units_ZERO.
  set (step := share_step total sum).
  assert (Hgen : forall pre k, Z.abs (sum_Z posted_units pre) <= 10 ^ 57 * k -> 0 <= k ->
    k + Z.of_nat (length weights) < 2 ^ 100 ->
    fold_res step (of_units (sum_Z posted_units pre), pre) weights = Ok (placed, shares) <->
    exists post, shares = pre ++ post /\
      Forall2 (fun w s => share_of total sum w = Ok s) weights post /\
      placed = of_units (sum_Z posted_units shares)); cycle 1.
  { pose proof (Hgen [] 0) as Hnil. rewrite sum_Z_nil in Hnil. rewrite Hnil.
    - split; [by intros (post & -> & ? & ->)|]. intros [? ->]. by exists shares.
    - lia.
    - lia.
    - unfold vec_ok in Hl. assert (2 ^ 64 < 2 ^ 100) by by vm_compute. lia. }
  clear Hl. induction weights as [|w ws IH]; intros pre k Hz Hk0 Hk; cbn [fold_res].
  { split.
    - intros [= <- <-]. exists []. by rewrite app_nil_r.
    - intros (post & -> & Hpost & ->). inversion Hpost. by rewrite app_nil_r. }
  cbn [length] in Hk. rewrite bind_ok.
  assert (Hstep : forall acc, step (of_units (sum_Z posted_units pre), pre) w = Ok acc <->
    exists s, share_of total sum w = Ok s /\
      acc = (of_units (sum_Z posted_units (pre ++ [s])), pre ++ [s])).
  { intros acc. unfold step, share_step. rewrite bind_ok. f_equiv; intros s.
    pose proof (posted_units_small s) as Hsm. unfold posted_units in Hsm.
    rewrite from_decimal_units, checked_add_units;
      [|apply (small_bound _ k); lia|apply (small_bound _ 1); lia
       |apply (small_bound _ (k + 1)); unfold posted_units in *; lia].
    cbn [mbind result_bind]. rewrite sum_Z_app, sum_Z_cons, sum_Z_nil, Z.add_0_r.
    fold (posted_units s). naive_solver. }
  setoid_rewrite Hstep. clear Hstep.
  assert (Hnext : forall s, Z.abs (sum_Z posted_units (pre ++ [s])) <= 10 ^ 57 * (k + 1)).
  { intros s. rewrite sum_Z_app, sum_Z_cons, sum_Z_nil. pose proof (posted_units_small s). lia. }
  split.
  - intros (acc & (s & Hs & ->) & (post & -> & Hpost & ->)%(IH (pre ++ [s]) (k + 1))); [|auto; lia..].
    exists (s :: post). rewrite <- app_assoc. split_and!; [done|by constructor|done].
  - intros (post & -> & Hpost & ->). inversion Hpost as [|? s ? post' Hs Hrest]; subst.
    eexists. split; [by exists s|]. apply (IH (pre ++ [s]) (k + 1)); [auto; lia..|].
    exists post'. by rewrite <- app_assoc.
Qed.

(** The slot that takes the residual. *)
Definition residual_slot (weights : list Decimal) (disposition : Residual) (r : nat) : Prop :=
  match disposition with
  | Last => length weights = S r
  | Largest => exists w, weights !! r = Some w /\
      forall j v, weights !! j = Some v ->
        units v <= units w /\ ((j < r)%nat -> units v < units w)
  end.

Lemma max_by_loop_spec pre best l w :
  (best < length pre)%nat -> pre !! best = Some w ->
  (forall j v, pre !! j = Some v -> units v <= units w /\ ((j < best)%nat -> units v < units w)) ->
  residual_slot (pre ++ l) Largest (max_by_loop (best, w) (length pre) l).
Proof.
  revert pre best w; induction l as [|b l IH]; intros pre best w Hlt Hbest Hmax; cbn [max_by_loop].
  { rewrite app_nil_r. cbn [fst]. by exists w. }
  cbn [fst snd]. rewrite dec_cmp_units.
  replace (S (length pre)) with (length (pre ++ [b])) by (rewrite length_app; cbn; lia).
  replace (pre ++ b :: l) with ((pre ++ [b]) ++ l) by by rewrite <- app_assoc.
  assert (Hkeep : units b <= units w ->
    residual_slot ((pre ++ [b]) ++ l) Largest (max_by_loop (best, w) (length (pre ++ [b])) l)).
  { intros Hb. apply IH; [rewrite length_app; lia|by apply lookup_app_l_Some|].
    intros j v Hj. apply lookup_app_Some in Hj as [Hj|[Hj Hv]]; [by apply Hmax|].
    apply list_lookup_singleton_Some in Hv as [? <-]. split; [done|lia]. }
  destruct (Z.compare_spec (units w) (units b)).
  - rewrite (proj2 (Nat.compare_gt_iff _ _)) by done. apply Hkeep; lia.
  - apply IH; [rewrite length_app; cbn; lia|by rewrite lookup_app_r, Nat.sub_diag by lia|].
    intros j v Hj. apply lookup_app_Some in Hj as [Hj|[Hj Hv]].
    + destruct (Hmax j v Hj). lia.
    + apply list_lookup_singleton_Some in Hv as [? <-]. split; [done|lia].
  - apply Hkeep; lia.
Qed.

Lemma largest_index_spec weights r :
  largest_index weights = Some r -> residual_slot weights Largest r.
Proof.
  destruct weights as [|a l]; [done|]. intros [= <-].
  apply (max_by_loop_spec [a] 0 l a); [cbn; lia|done|].
  intros j v Hj. apply list_lookup_singleton_Some in Hj as [-> <-]. lia.
Qed.

(** ** The whole call *)

(** A share is the posting nearest to its exact proportion. *)
Definition rounded_share (total : PostedMoney) (S : Z) (w : Decimal) (s : PostedMoney) : Prop :=
  posted_ok s /\ currency s = currency total /\
  exists k, half_even (posted_units total * units w) (S * increment total) k /\
            posted_units s = k * increment total.

Lemma validate_count_ok n u :
  0 <= n -> validate_count n = Ok u <-> 0 < n <= i32_max.
Proof.
  intros Hn. unfold validate_count. destruct u.
  destruct (Z.eqb_spec n 0); [split; [done|lia]|].
  destruct (Z.leb_spec n i32_max); cbn; split; try done; lia.
Qed.

Lemma count_vec_ok {A} (l : list A) : Z.of_nat (length l) <= i32_max -> vec_ok l.
Proof. unfold vec_ok, i32_max. lia. Qed.

Lemma weights_sum_bound weights : Forall weight_ok weights ->
  Z.of_nat (length weights) <= i32_max -> 0 <= sum_Z units weights < 10 ^ 70.
Proof.
  intros Hw Hn. split.
  - apply sum_Z_nonneg. intros w Hin. eapply Forall_forall in Hw as [? _]; done.
  - assert (Hb : Z.abs (sum_Z units weights) <= 10 ^ 57 * Z.of_nat (length weights))
      by exact (sum_units_bound (fun d : Decimal => d) weights).
    unfold i32_max in Hn. assert (10 ^ 57 * 2 ^ 31 < 10 ^ 70) by by vm_compute. lia.
Qed.

Lemma share_of_zero total w s : share_of total (of_units 0) w = Ok s -> False.
Proof. unfold share_of. intros Hs. res_inv. by unfold checked_div in E0. Qed.

Lemma round_close n d k : 0 < d -> half_even n d k -> Z.abs (k * d) <= Z.abs n + d.
Proof. intros Hd [Hk _]. lia. Qed.

Lemma share_small total S w k : currency_ok (currency total) -> 0 < S -> 
  half_even (posted_units total * units w) (S * increment total) k ->
  small (k * increment total).
Proof.
  intros Hcur HS Hk. unfold currency_ok in Hcur.
  assert (Hinc : 0 < increment total <= 10 ^ 28).
  { unfold increment. split; [apply pow10_pos; lia|apply pow10_le; lia]. }
  apply round_close in Hk; [|nia].
  pose proof (posted_units_small total) as HT. pose proof (units_small w) as HW.
  pose proof (abs_mul_lt _ _ _ _ HT HW) as HTW. clear HT HW.
  unfold small. assert (Hc : 10 ^ 57 * 10 ^ 57 + 10 ^ 28 < 10 ^ 200) by by vm_compute.
  replace (k * (S * increment total)) with (k * increment total * S) in Hk by ring.
  rewrite Z.abs_mul, (Z.abs_eq S) in Hk by lia.
  set (X := Z.abs (k * increment total)) in *.
  generalize dependent (10 ^ 200). intros R Hc. generalize dependent (10 ^ 57 * 10 ^ 57).
  intros P HTW Hc. generalize dependent (10 ^ 28). intros Q Hinc Hc. nia.
Qed.

Lemma share_of_rounded total S w s :
  posted_ok total -> 0 < S < 10 ^ 70 ->
  share_of total (of_units S) w = Ok s -> rounded_share total S w s.
Proof.
  intros (Hcur & _) HS Hs. destruct (share_of_units total S w Hcur HS) as (k & Hk & Heq).
  rewrite Heq in Hs. apply into_posted_units in Hs as (? & ? & ?);
    [|eapply share_small; [done| |exact Hk]; lia|done].
  split_and!; [done..|]. by exists k.
Qed.

Lemma index_residual_slot weights (shares : list PostedMoney) disposition r :
  length shares = length weights ->
  match disposition with
  | Last => match length shares with O => None | S n => Some n end
  | Largest => largest_index weights
  end = Some r -> residual_slot weights disposition r.
Proof.
  intros Hlen. destruct disposition; [|apply largest_index_spec].
  destruct (length shares) eqn:E; [done|]. intros [= <-]. cbn. lia.
Qed.

Lemma allocate_inv total weights disposition out : posted_ok total ->
  allocate total weights disposition = Ok out ->
  exists shares r slot adjusted,
    0 < sum_Z units weights /\ Z.of_nat (length weights) <= i32_max /\
    Forall2 (rounded_share total (sum_Z units weights)) weights shares /\
    residual_slot weights disposition r /\ shares !! r = Some slot /\
    posted_ok adjusted /\ currency adjusted = currency total /\
    posted_units adjusted =
      posted_units slot + (posted_units total - sum_Z posted_units shares) /\
    out = <[r := adjusted]> shares.
Proof.
  intros Htot Hal. unfold allocate in Hal.
  apply bind_ok in Hal as ([] & Hcount%validate_count_ok & Hal); [|lia].
  pose proof (count_vec_ok weights ltac:(lia)) as Hvec.
  apply bind_ok in Hal as (sum & [Hw ->]%weight_loop_ok & Hal); [|done].
  apply bind_ok in Hal as ([placed shares] & [Hshares ->]%share_loop_ok & Hal); [|done].
  apply bind_ok in Hal as (residual & Hres & Hal).
  apply bind_ok in Hal as (r & Hidx%ok_or_ok & Hal).
  apply bind_ok in Hal as (slot & Hslot%ok_or_ok & Hal).
  apply bind_ok in Hal as (exact & Hadd & Hal).
  apply bind_ok in Hal as (adjusted & Hadj & [= <-]).
  pose proof (weights_sum_bound weights Hw ltac:(lia)) as HS.
  pose proof (Forall2_length _ _ _ Hshares) as Hlen.
  assert (Hpos : 0 < sum_Z units weights).
  { destruct (Z.eq_dec (sum_Z units weights) 0) as [Hz|]; [|lia].
    rewrite Hz in Hshares. destruct weights as [|w ws]; [cbn in Hcount; lia|].
    apply Forall2_cons_inv_l in Hshares as (s & ss & Hs & _). by apply share_of_zero in Hs. }
  assert (Hsv : vec_ok shares) by (unfold vec_ok in *; by rewrite <- Hlen).
  pose proof (posted_units_small total) as HT. pose proof (posted_units_small slot) as Hsl.
  assert (Hsum : Z.abs (sum_Z posted_units shares) <= 10 ^ 57 * Z.of_nat (length shares))
    by apply (sum_units_bound amount).
  unfold vec_ok in Hsv.
  assert (2 ^ 64 + 2 < 2 ^ 100) by by vm_compute.
  rewrite from_decimal_units in Hres, Hadd. fold (posted_units total) in Hres.
  fold (posted_units slot) in Hadd.
  rewrite checked_sub_units in Hres;
    [injection Hres as <-|apply (small_bound _ 1); lia
     |apply (small_bound _ (2 ^ 64)); lia|apply (small_bound _ (2 ^ 64 + 1)); lia].
  rewrite checked_add_units in Hadd;
    [injection Hadd as <-|apply (small_bound _ 1); lia
     |apply (small_bound _ (2 ^ 64 + 1)); lia|apply (small_bound _ (2 ^ 64 + 2)); lia].
  apply into_posted_units in Hadj as (? & ? & ?);
    [|apply (small_bound _ (2 ^ 64 + 2)); lia|apply Htot].
  exists shares, r, slot, adjusted. split_and!; try done; [lia| |].
  - eapply Forall2_impl; [exact Hshares|]. intros w s Hs. apply share_of_rounded; [done|lia|done].
  - by eapply index_residual_slot.
Qed.

(** ** Success *)

Lemma share_of_total total weights w :
  posted_ok total -> Forall weight_ok weights -> w ∈ weights ->
  0 < sum_Z units weights < 10 ^ 70 ->
  Z.abs (posted_units total) + increment total < 10 ^ (56 - currency_scale (currency total)) ->
  exists s, share_of total (of_units (sum_Z units weights)) w = Ok s /\
    Z.abs (posted_units s) <= Z.abs (posted_units total) + increment total.
Proof.
  intros Htot Hw Hin HS Hroom. pose proof (proj1 Htot) as Hcur. unfold currency_ok in Hcur.
  destruct (share_of_units total _ w Hcur HS) as (k & Hk & Heq).
  assert (Hinc : 0 < increment total) by (apply pow10_pos; lia).
  assert (HW : 0 <= units w <= sum_Z units weights).
  { split; [by eapply Forall_forall in Hw as [? _]|]. apply sum_Z_member_le; [|done].
    intros y Hy. by eapply Forall_forall in Hw as [? _]. }
  assert (Hbound : Z.abs (k * increment total) <= Z.abs (posted_units total) + increment total).
  { apply round_close in Hk; [|nia].
    replace (k * (sum_Z units weights * increment total))
      with (k * increment total * sum_Z units weights) in Hk by ring.
    rewrite !Z.abs_mul, (Z.abs_eq (sum_Z units weights)), (Z.abs_eq (units w)) in Hk by lia.
    rewrite Z.abs_mul. nia. }
  destruct (into_posted_units_total (k * increment total) (currency total)) as [s Hs].
  - eapply share_small; [done| |exact Hk]; lia.
  - done.
  - by exists k.
  - exists (currency_scale (currency total)). split_and!; [lia..|by exists k|lia].
  - exists s. split; [by rewrite Heq|].
    apply into_posted_units in Hs as (_ & _ & ->); [done|eapply share_small; [done| |exact Hk]; lia|done].
Qed.

(** The rounding errors of [n] shares add up to at most [n] half increments. *)
Lemma residual_bound total S weights shares : 0 < S -> 0 < increment total ->
  Forall2 (rounded_share total S) weights shares ->
  2 * Z.abs (sum_Z posted_units shares * S - posted_units total * sum_Z units weights)
    <= Z.of_nat (length weights) * (S * increment total).
Proof.
  intros HS Hinc. induction 1 as [|w s ws ss (_ & _ & k & [Hk _] & Hu) _ IH].
  { rewrite !sum_Z_nil. cbn. lia. }
  rewrite !sum_Z_cons, Hu. cbn [length]. rewrite Nat2Z.inj_succ, Z.mul_succ_l.
  set (A := sum_Z posted_units ss) in *. set (B := sum_Z units ws) in *.
  replace ((k * increment total + A) * S - posted_units total * (units w + B))
    with ((A * S - posted_units total * B)
          - (posted_units total * units w - k * (S * increment total))) by ring.
  set (x := A * S - posted_units total * B) in *.
  set (y := posted_units total * units w - k * (S * increment total)) in *. lia.
Qed.

Lemma residual_index_some weights disposition (shares : list PostedMoney) :
  length shares = length weights -> weights <> [] ->
  exists r slot,
    match disposition with
    | Last => match length shares with O => None | S n => Some n end
    | Largest => largest_index weights
    end = Some r /\ shares !! r = Some slot.
Proof.
  intros Hlen Hne. destruct disposition.
  - destruct (length shares) as [|n] eqn:E; [by destruct weights|].
    destruct (lookup_lt_is_Some_2 shares n) as [slot Hslot]; [lia|]. by exists n, slot.
  - destruct (largest_index weights) as [r|] eqn:E; [|by destruct weights].
    apply largest_index_spec in E as (w & Hr & _). apply lookup_lt_Some in Hr.
    destruct (lookup_lt_is_Some_2 shares r) as [slot Hslot]; [lia|]. by exists r, slot.
Qed.

Lemma Forall2_choice {A B} (P : A -> B -> Prop) l :
  (forall x, x ∈ l -> exists y, P x y) -> exists k, Forall2 P l k.
Proof.
  induction l as [|x l IH]; intros Hx; [by exists []|].
  destruct (Hx x) as [y Hy]; [set_solver|].
  destruct IH as [k Hk]; [intros; apply Hx; set_solver|]. exists (y :: k). by constructor.
Qed.

Lemma raw_shares_total total weights :
  posted_ok total -> Z.of_nat (length weights) <= i32_max ->
  Forall weight_ok weights -> 0 < sum_Z units weights ->
  Z.abs (posted_units total) + increment total < 10 ^ (56 - currency_scale (currency total)) ->
  exists raw,
    Forall2 (fun w s => share_of total (of_units (sum_Z units weights)) w = Ok s) weights raw /\
    Forall (fun s => (increment total | posted_units s) /\
      Z.abs (posted_units s) <= Z.abs (posted_units total) + increment total) raw /\
    2 * Z.abs (sum_Z posted_units raw - posted_units total)
      <= Z.of_nat (length weights) * increment total.
Proof.
  intros Htot Hn Hw Hpos Hroom. pose proof (proj1 Htot) as Hcur. unfold currency_ok in Hcur.
  assert (Hinc : 0 < increment total) by (apply pow10_pos; lia).
  pose proof (weights_sum_bound weights Hw Hn) as HS.
  destruct (Forall2_choice (fun w s => share_of total (of_units (sum_Z units weights)) w = Ok s /\
    Z.abs (posted_units s) <= Z.abs (posted_units total) + increment total) weights)
    as [raw Hraw].
  { intros w Hin. apply share_of_total; [done..|lia|lia]. }
  assert (Hround : Forall2 (rounded_share total (sum_Z units weights)) weights raw).
  { eapply Forall2_impl; [exact Hraw|]. intros w s [Hs _]. apply share_of_rounded; [done|lia|done]. }
  exists raw. split_and!.
  - eapply Forall2_impl; [exact Hraw|]. by intros w s [? _].
  - apply Forall_lookup. intros i s Hs.
    destruct (Forall2_lookup_r _ _ _ _ _ Hraw Hs) as (w & _ & _ & ?). split; [|done].
    destruct (Forall2_lookup_r _ _ _ _ _ Hround Hs) as (w' & _ & _ & _ & k & _ & ->). by exists k.
  - pose proof (residual_bound total _ weights raw Hpos Hinc Hround) as Hres.
    rewrite <- Z.mul_sub_distr_r, Z.abs_mul, (Z.abs_eq (sum_Z units weights)) in Hres by lia. nia.
Qed.

Lemma allocate_intro total weights disposition raw r slot adjusted :
  posted_ok total -> 0 < Z.of_nat (length weights) <= i32_max -> Forall weight_ok weights ->
  Forall2 (fun w s => share_of total (of_units (sum_Z units weights)) w = Ok s) weights raw ->
  match disposition with
  | Last => match length raw with O => None | S n => Some n end
  | Largest => largest_index weights
  end = Some r ->
  raw !! r = Some slot ->
  into_posted_exact
    (of_units (posted_units slot + (posted_units total - sum_Z posted_units raw)))
    (currency total) = Ok adjusted ->
  allocate total weights disposition = Ok (<[r := adjusted]> raw).
Proof.
  intros Htot Hn Hw Hshares Hidx Hslot Hadj. unfold allocate.
  pose proof (count_vec_ok weights ltac:(lia)) as Hvec.
  rewrite (proj2 (validate_count_ok (Z.of_nat (length weights)) tt ltac:(lia)) Hn). cbn [mbind result_bind].
  rewrite (proj2 (weight_loop_ok weights _ Hvec) (conj Hw eq_refl)). cbn [mbind result_bind].
  rewrite (proj2 (share_loop_ok total _ weights _ raw Hvec) (conj Hshares eq_refl)).
  cbn [mbind result_bind].
  pose proof (posted_units_small total) as HT. pose proof (posted_units_small slot) as Hsl.
  assert (Hsum : Z.abs (sum_Z posted_units raw) <= 10 ^ 57 * Z.of_nat (length raw))
    by apply (sum_units_bound amount).
  pose proof (Forall2_length _ _ _ Hshares) as Hlen. unfold vec_ok in Hvec.
  assert (2 ^ 64 + 2 < 2 ^ 100) by by vm_compute.
  rewrite !from_decimal_units. fold (posted_units total).
  rewrite checked_sub_units;
    [|apply (small_bound _ 1); lia|apply (small_bound _ (2 ^ 64)); lia
     |apply (small_bound _ (2 ^ 64 + 1)); lia].
  cbn [mbind result_bind]. rewrite Hidx. cbn [ok_or mbind result_bind].
  rewrite Hslot. cbn [ok_or mbind result_bind].
  rewrite from_decimal_units. fold (posted_units slot).
  rewrite checked_add_units;
    [|apply (small_bound _ 1); lia|apply (small_bound _ (2 ^ 64 + 1)); lia
     |apply (small_bound _ (2 ^ 64 + 2)); lia].
  cbn [mbind result_bind]. by rewrite Hadj.
Qed.
End allocate.

(** ** Properties *)

Section properties.
Context `{RustDecimal}.

(** The shares are postings of the total's currency and add up to it. *)
Lemma allocate_total_kept total weights disposition shares :
  posted_ok total ->
  allocate total weights disposition = Ok shares ->
  length shares = length weights /\
  Forall (fun s => posted_ok s /\ currency s = currency total) shares /\
  sum_Z posted_units shares = posted_units total.
Proof.
  intros Htot (raw & r & slot & adj & HS & _ & Hraw & _ & Hslot & Hadj & Hcur & Hu & ->)
    %allocate_inv; [|done].
  split_and!.
  - rewrite length_insert. symmetry. by eapply Forall2_length.
  - apply Forall_insert; [|done].
    clear Hslot Hu. induction Hraw as [|? ? ? ? (? & ? & _)]; by constructor.
  - rewrite (sum_Z_insert _ _ _ slot) by done. lia.
Qed.

(** C14: [allocate] conserves money: whenever it returns, there is one share per
    weight, every share is a valid posting in the total's currency, and the
    shares add up to the total exactly. *)
Theorem allocate_conserves total weights disposition shares :
  posted_ok total ->
  allocate total weights disposition = Ok shares ->
  length shares = length weights /\
  Forall (fun s => posted_ok s /\ currency s = currency total) shares /\
  sum_Z posted_units shares = posted_units total.
Proof.
  apply allocate_total_kept.
Qed.

(** [allocate] is proportional: every slot but the one that takes the
    residual holds the exact proportion of the total rounded half-even at the
    currency scale, and the residual slot is the last one, or the first of the
    largest weights, as requested. *)
Theorem allocate_proportional total weights disposition shares :
  posted_ok total ->
  allocate total weights disposition = Ok shares ->
  exists r, residual_slot weights disposition r /\
    forall i w s, i <> r -> weights !! i = Some w -> shares !! i = Some s ->
      exists k, half_even (posted_units total * units w)
                          (sum_Z units weights * increment total) k /\
                posted_units s = k * increment total.
Proof.
  intros Htot (raw & r & slot & adj & HS & _ & Hraw & Hslotr & Hslot & _ & _ & _ & ->)
    %allocate_inv; [|done].
  exists r. split; [done|]. intros i w s Hne Hw Hs.
  rewrite list_lookup_insert_ne in Hs by done.
  by destruct (Forall2_lookup_lr _ _ _ _ _ _ Hraw Hw Hs) as (_ & _ & Hk).
Qed.

(** [allocate] succeeds on every admissible call: a non-empty list of at most
    i32::MAX non-negative bounded weights with a positive sum, and a total that
    leaves room for one increment per slot below 28 digits at its scale. *)
Theorem allocate_total total weights disposition :
  posted_ok total -> weights <> [] -> Z.of_nat (length weights) <= i32_max ->
  Forall weight_ok weights -> 0 < sum_Z units weights ->
  Z.abs (posted_units total) + (Z.of_nat (length weights) + 1) * increment total
    < 10 ^ (56 - currency_scale (currency total)) ->
  exists shares, allocate total weights disposition = Ok shares.
Proof.
  intros Htot Hne Hn Hw Hpos Hroom. pose proof (proj1 Htot) as Hcur. unfold currency_ok in Hcur.
  assert (Hinc : 0 < increment total) by (apply pow10_pos; lia).
  assert (Hlen0 : 0 < Z.of_nat (length weights)) by (destruct weights; [done|cbn; lia]).
  destruct (raw_shares_total total weights Htot Hn Hw Hpos ltac:(nia))
    as (raw & Hshares & Hraw & Hres).
  pose proof (Forall2_length _ _ _ Hshares) as Hlen.
  destruct (residual_index_some weights disposition raw) as (r & slot & Hidx & Hslot);
    [done..|].
  destruct (proj1 (Forall_lookup _ _) Hraw r slot Hslot) as [Hslotd Hslotb].
  set (target := posted_units slot + (posted_units total - sum_Z posted_units raw)).
  assert (Htb : Z.abs target < 10 ^ (56 - currency_scale (currency total)))
    by (unfold target; nia).
  pose proof (pow10_le (56 - currency_scale (currency total)) 56 ltac:(lia)).
  assert (Hdiv : (increment total | target)).
  { unfold target. apply Z.divide_add_r; [done|].
    apply Z.divide_sub_r; [by apply posted_units_grid|].
    apply sum_Z_divide. intros s Hs. by eapply Forall_forall in Hraw as [? _]. }
  destruct (into_posted_units_total target (currency total)) as [adj Hadj].
  - apply (small_bound _ 1); lia.
  - done.
  - done.
  - exists (currency_scale (currency total)). split_and!; [lia..|done|lia].
  - exists (<[r := adj]> raw). eapply allocate_intro; eauto; lia.
Qed.
End properties.

(** ** Witnesses: 100.00 EUR over three equal weights *)
Section witnesses.
Import ConcreteDecimal MoneySamples.

Definition sample_weights : list Decimal := [lit 1 0; lit 1 0; lit 1 0].

Lemma allocate_conserves_witness :
  exists shares, allocate (eur 10000) sample_weights Last = Ok shares /\
    length shares = 3%nat /\ sum_Z posted_units shares = posted_units (eur 10000).
Proof.
  destruct (is_ok_exists (allocate (eur 10000) sample_weights Last)) as [shares Hal];
    [vm_compute; reflexivity|].
  exists shares.
  destruct (allocate_conserves _ _ _ _ (eur_ok 10000 eq_refl) Hal) as (Hlen & _ & Hsum).
  exact (conj Hal (conj Hlen Hsum)).
Defined.

Lemma allocate_proportional_witness :
  exists shares, allocate (eur 10000) sample_weights Last = Ok shares /\
  exists r, residual_slot sample_weights Last r /\
    forall i w s, i <> r -> sample_weights !! i = Some w -> shares !! i = Some s ->
      exists k, half_even (posted_units (eur 10000) * units w)
                          (sum_Z units sample_weights * increment (eur 10000)) k /\
                posted_units s = k * increment (eur 10000).
Proof.
  destruct (is_ok_exists (allocate (eur 10000) sample_weights Last)) as [shares Hal];
    [vm_compute; reflexivity|].
  exists shares. split; [exact Hal|].
  exact (allocate_proportional _ _ _ _ (eur_ok 10000 eq_refl) Hal).
Defined.

(** The computed shares: 33.33, 33.33 and 33.34. *)
Lemma allocate_sample :
  map posted_units <$> allocate (eur 10000) sample_weights Last
    = Ok (map posted_units [eur 3333; eur 3333; eur 3334]).
Proof. vm_compute; reflexivity. Qed.

Lemma allocate_total_witness :
  exists shares, allocate (eur 10000) sample_weights Largest = Ok shares.
Proof.
  apply allocate_total.
  - by apply eur_ok.
  - done.
  - by vm_compute.
  - repeat constructor; by vm_compute.
  - by vm_compute.
  - by vm_compute.
Defined.
End witnesses.
