(* ===== verification/Iso.v ===== *)
(** * ISO 4217 scales: [libs/money/src/iso.rs]

    The table of active codes and its lookup by binary search.  The search is the
    standard library's; the file shows it equal to membership in the table, for any
    sorted table, and that every listed code is one the currency constructor takes. *)

From S2P Require Import Prelude Money.

(** ** [slice::binary_search_by] *)

(** The loop halves [size] while it exceeds one and keeps [base] at or before the
    match; [f] compares the element at an index with the target. *)
Fixpoint search_loop (fuel : nat) (f : nat -> comparison) (base size : nat) : nat :=
  match fuel with
  | O => base
  | S fuel =>
      if Nat.leb size 1 then base
      else
        let half := Nat.div2 size in
        let mid := (base + half)%nat in
        let base := match f mid with Gt => base | _ => mid end in
        search_loop fuel f base (size - half)
  end.

Definition binary_search_by {A} (l : list A) (cmp : A -> comparison) : result nat nat :=
  let f i := match l !! i with Some x => cmp x | None => Gt end in
  match length l with
  | O => Err 0%nat
  | size =>
      let base := search_loop size f 0 size in
      match f base with
      | Eq => Ok base
      | Lt => Err (S base)
      | Gt => Err base
      end
  end.

(** A comparison that goes from [Lt] through [Eq] to [Gt]. *)
Definition monotone (f : nat -> comparison) : Prop :=
  forall i j, (i < j)%nat -> (f i = Gt -> f j = Gt) /\ (f j = Lt -> f i = Lt).

Lemma search_loop_ok f : monotone f -> forall fuel base size k,
  (size <= fuel)%nat -> (0 < size)%nat -> (base <= k < base + size)%nat -> f k = Eq ->
  f (search_loop fuel f base size) = Eq.
Proof.
  intros Hm. induction fuel as [|fuel IH]; intros base size k Hf Hs Hk Heq; cbn [search_loop]; [lia|].
  destruct (Nat.leb_spec size 1).
  { by replace base with k by lia. }
  pose proof (Nat.div2_div size) as Hd. pose proof (Nat.div_mod_eq size 2) as Hdm.
  pose proof (Nat.mod_upper_bound size 2 ltac:(lia)). set (mid := (base + Nat.div2 size)%nat).
  destruct (f mid) eqn:E.
  - apply (IH mid _ mid); try done; unfold mid; lia.
  - apply (IH mid _ k); try done; try (unfold mid; lia).
    destruct (Nat.le_gt_cases k mid) as [Hle|]; [|unfold mid in *; lia].
    destruct (decide (k = mid)) as [->|Hne]; [congruence|].
    destruct (Hm k mid) as [_ Hlt]; [lia|]. rewrite Hlt in Heq by done. done.
  - apply (IH base _ k); try done; try lia.
    destruct (Nat.le_gt_cases mid k) as [Hle|]; [|unfold mid in *; lia].
    destruct (decide (k = mid)) as [->|Hne]; [congruence|].
    destruct (Hm mid k) as [Hgt _]; [lia|]. rewrite Hgt in Heq by done. done.
Qed.

Lemma binary_search_found {A} (l : list A) cmp i : binary_search_by l cmp = Ok i ->
  exists x, l !! i = Some x /\ cmp x = Eq.
Proof.
  unfold binary_search_by. destruct (length l); [done|].
  destruct (l !! _) as [x|] eqn:E; [|done]. destruct (cmp x) eqn:Ec; intros [= <-]. by exists x.
Qed.

Lemma binary_search_complete {A} (l : list A) cmp k x :
  monotone (fun i => match l !! i with Some x => cmp x | None => Gt end) ->
  l !! k = Some x -> cmp x = Eq -> exists i, binary_search_by l cmp = Ok i.
Proof.
  intros Hm Hk Hx. pose proof (lookup_lt_Some _ _ _ Hk) as Hlt. unfold binary_search_by.
  destruct (length l) as [|n] eqn:El; [lia|].
  rewrite (search_loop_ok _ Hm (S n) 0 (S n) k) by (rewrite ?Hk; try done; lia). by eexists.
Qed.

(** ** The table *)

Definition ISO_4217 : list (string * Z) :=
  [("AED", 2); ("AFN", 2); ("ALL", 2); ("AMD", 2); ("AOA", 2); ("ARS", 2);
   ("AUD", 2); ("AWG", 2); ("AZN", 2); ("BAM", 2); ("BBD", 2); ("BDT", 2);
   ("BHD", 3); ("BIF", 0); ("BMD", 2); ("BND", 2); ("BOB", 2); ("BOV", 2);
   ("BRL", 2); ("BSD", 2); ("BTN", 2); ("BWP", 2); ("BYN", 2); ("BZD", 2);
   ("CAD", 2); ("CDF", 2); ("CHE", 2); ("CHF", 2); ("CHW", 2); ("CLF", 4);
   ("CLP", 0); ("CNY", 2); ("COP", 2); ("COU", 2); ("CRC", 2); ("CUP", 2);
   ("CVE", 2); ("CZK", 2); ("DJF", 0); ("DKK", 2); ("DOP", 2); ("DZD", 2);
   ("EGP", 2); ("ERN", 2); ("ETB", 2); ("EUR", 2); ("FJD", 2); ("FKP", 2);
   ("GBP", 2); ("GEL", 2); ("GHS", 2); ("GIP", 2); ("GMD", 2); ("GNF", 0);
   ("GTQ", 2); ("GYD", 2); ("HKD", 2); ("HNL", 2); ("HTG", 2); ("HUF", 2);
   ("IDR", 2); ("ILS", 2); ("INR", 2); ("IQD", 3); ("IRR", 2); ("ISK", 0);
   ("JMD", 2); ("JOD", 3); ("JPY", 0); ("KES", 2); ("KGS", 2); ("KHR", 2);
   ("KMF", 0); ("KPW", 2); ("KRW", 0); ("KWD", 3); ("KYD", 2); ("KZT", 2);
   ("LAK", 2); ("LBP", 2); ("LKR", 2); ("LRD", 2); ("LSL", 2); ("LYD", 3);
   ("MAD", 2); ("MDL", 2); ("MGA", 2); ("MKD", 2); ("MMK", 2); ("MNT", 2);
   ("MOP", 2); ("MRU", 2); ("MUR", 2); ("MVR", 2); ("MWK", 2); ("MXN", 2);
   ("MXV", 2); ("MYR", 2); ("MZN", 2); ("NAD", 2); ("NGN", 2); ("NIO", 2);
   ("NOK", 2); ("NPR", 2); ("NZD", 2); ("OMR", 3); ("PAB", 2); ("PEN", 2);
   ("PGK", 2); ("PHP", 2); ("PKR", 2); ("PLN", 2); ("PYG", 0); ("QAR", 2);
   ("RON", 2); ("RSD", 2); ("RUB", 2); ("RWF", 0); ("SAR", 2); ("SBD", 2);
   ("SCR", 2); ("SDG", 2); ("SEK", 2); ("SGD", 2); ("SHP", 2); ("SLE", 2);
   ("SOS", 2); ("SRD", 2); ("SSP", 2); ("STN", 2); ("SVC", 2); ("SYP", 2);
   ("SZL", 2); ("THB", 2); ("TJS", 2); ("TMT", 2); ("TND", 3); ("TOP", 2);
   ("TRY", 2); ("TTD", 2); ("TWD", 2); ("TZS", 2); ("UAH", 2); ("UGX", 0);
   ("USD", 2); ("USN", 2); ("UYI", 0); ("UYU", 2); ("UYW", 4); ("UZS", 2);
   ("VED", 2); ("VES", 2); ("VND", 0); ("VUV", 0); ("WST", 2); ("XAD", 2);
   ("XAF", 0); ("XCD", 2); ("XCG", 2); ("XOF", 0); ("XPF", 0); ("YER", 2);
   ("ZAR", 2); ("ZMW", 2); ("ZWG", 2)].

Definition iso_scale (code : string) : option Z :=
  match binary_search_by ISO_4217 (fun '(listed, _) => String.compare listed code) with
  | Ok i => snd <$> ISO_4217 !! i
  | Err _ => None
  end.

Definition iso_codes : list (string * Z) := ISO_4217.

(** ** The lookup is membership *)

Fixpoint codes_increasing (l : list (string * Z)) : bool :=
  match l with
  | [] => true
  | x :: l =>
      forallb (fun y => match String.compare (fst x) (fst y) with Lt => true | _ => false end) l
      && codes_increasing l
  end.

Lemma codes_increasing_lookup l : codes_increasing l = true -> forall i j x y,
  (i < j)%nat -> l !! i = Some x -> l !! j = Some y -> String.compare (fst x) (fst y) = Lt.
Proof.
  induction l as [|z l IH]; intros Hinc i j x y Hij Hi Hj; [done|].
  apply andb_true_iff in Hinc as [Hz Hinc]. destruct j as [|j]; [lia|]. cbn in Hj.
  destruct i as [|i]; cbn in Hi.
  - injection Hi as <-. apply list_elem_of_lookup_2, list_elem_of_In in Hj.
    rewrite forallb_forall in Hz. specialize (Hz y Hj). by destruct (String.compare (fst z) (fst y)).
  - by apply (IH Hinc i j); [lia|..].
Qed.

Lemma table_increasing : codes_increasing ISO_4217 = true.
Proof. by vm_compute. Qed.

Lemma increasing_monotone l code : codes_increasing l = true ->
  monotone (fun i => match l !! i with
                     | Some x => (fun '(listed, _) => String.compare listed code) x
                     | None => Gt
                     end).
Proof.
  intros Hinc i j Hij. destruct (l !! i) as [[a s]|] eqn:Hi.
  - destruct (l !! j) as [[b t]|] eqn:Hj; [|done].
    pose proof (codes_increasing_lookup l Hinc i j _ _ Hij Hi Hj) as Hlt. cbn in Hlt.
    assert (Hab : cmp_le String.compare a b) by (unfold cmp_le; congruence).
    split.
    + intros Hgt. destruct (String.compare b code) eqn:E; [..|done];
        assert (Hbc : cmp_le String.compare b code) by (unfold cmp_le; congruence);
        pose proof (cmp_le_trans _ _ _ Hab Hbc); by unfold cmp_le in *.
    + intros Hbl. assert (Hbc : cmp_le String.compare b code) by (unfold cmp_le; congruence).
      pose proof (cmp_le_trans _ _ _ Hab Hbc) as Hac. unfold cmp_le in Hac.
      destruct (String.compare a code) eqn:E; [|done|done].
      apply String.compare_eq_iff in E as ->. rewrite String.compare_antisym, Hlt in Hbl. done.
  - apply lookup_ge_None in Hi. assert (l !! j = None) as -> by (apply lookup_ge_None; lia). done.
Qed.

Lemma compare_refl s : String.compare s s = Eq.
Proof. pose proof (String.compare_antisym s s) as Hs. by destruct (String.compare s s). Qed.

(** [iso_scale] is membership in the ISO 4217 table: it returns the scale listed
    for a code, and [None] exactly for the codes that are not listed.  Every listed
    code has one scale and makes a valid currency. *)
Theorem iso_scale_exact code s :
  (iso_scale code = Some s <-> (code, s) ∈ ISO_4217) /\
  (iso_scale code = Some s -> currency_spec_try_new code s = Ok (mkCurrencySpec code s)).
Proof.
  assert (Hmem : iso_scale code = Some s <-> (code, s) ∈ ISO_4217).
  { unfold iso_scale. split.
    - destruct (binary_search_by _ _) as [i|] eqn:E; [|done].
      apply binary_search_found in E as ([listed t] & Hi & Hc).
      apply String.compare_eq_iff in Hc as ->. rewrite Hi. intros [= <-].
      by eapply list_elem_of_lookup_2.
    - intros [k Hk]%list_elem_of_lookup.
      destruct (binary_search_complete ISO_4217 (fun '(listed, _) => String.compare listed code) k (code, s))
        as [i Hi]; [by apply increasing_monotone, table_increasing|done|apply compare_refl|].
      rewrite Hi. apply binary_search_found in Hi as ([listed t] & Hl & Hc).
      apply String.compare_eq_iff in Hc as ->. rewrite Hl. cbn. f_equal.
      destruct (Nat.lt_trichotomy i k) as [Hlt|[->|Hlt]].
      + pose proof (codes_increasing_lookup _ table_increasing i k _ _ Hlt Hl Hk) as Hx. cbn in Hx.
        by rewrite compare_refl in Hx.
      + congruence.
      + pose proof (codes_increasing_lookup _ table_increasing k i _ _ Hlt Hk Hl) as Hx. cbn in Hx.
        by rewrite compare_refl in Hx. }
  split; [done|]. intros Hin%Hmem.
  assert (Hall : forallb (fun '(c, t) => bool_decide (currency_spec_try_new c t = Ok (mkCurrencySpec c t)))
                         ISO_4217 = true) by by vm_compute.
  rewrite forallb_forall in Hall. apply list_elem_of_In in Hin. specialize (Hall _ Hin). cbn in Hall.
  by apply bool_decide_eq_true in Hall.
Qed.

Lemma iso_scale_exact_witness :
  iso_scale "KWD" = Some 3 /\ iso_scale "BTC" = None.
Proof.
  split.
  - apply (proj1 (iso_scale_exact "KWD" 3)). apply (bool_decide_unpack _). vm_compute. exact I.
  - vm_compute. reflexivity.
Defined.
