(* ===== verification/BTree.v ===== *)
(** * Ordered maps

    [std::collections::BTreeMap], as the code uses it: [get], [insert], the entry
    API, and iteration in key order.  A map is the list of its bindings, strictly
    increasing in the key's [Ord].  The loops of the code that build such a map
    visit a list and fold every element into the binding of its key; [group_fold]
    says what they leave there, and [sum_groups] that nothing is lost on the way. *)

From stdpp Require Import sorting.
From S2P Require Import Prelude.

(** [Ord] in agreement with [Eq]. *)
Class LinearCmp {K} (cmp : K -> K -> comparison) : Prop := {
  linear_total :: TotalCmp cmp;
  cmp_eq a b : cmp a b = Eq -> a = b;
}.

#[global] Instance Z_linear : LinearCmp Z.compare.
Proof. split; [apply _|]. apply Z.compare_eq. Qed.

#[global] Instance N_linear : LinearCmp N.compare.
Proof. split; [apply _|]. apply N.compare_eq. Qed.

#[global] Instance nat_total_cmp : TotalCmp Nat.compare.
Proof.
  split; [intros; apply Nat.compare_antisym|]. unfold cmp_le.
  intros a b c. rewrite !Nat.compare_gt_iff. lia.
Qed.

#[global] Instance nat_linear : LinearCmp Nat.compare.
Proof. split; [apply _|]. apply Nat.compare_eq. Qed.

#[global] Instance string_linear : LinearCmp String.compare.
Proof. split; [apply _|]. apply String.compare_eq_iff. Qed.

(** [Ord] of a pair. *)
Definition pair_cmp {A B} (c1 : A -> A -> comparison) (c2 : B -> B -> comparison)
    (a b : A * B) : comparison :=
  then_with (c1 (fst a) (fst b)) (c2 (snd a) (snd b)).

#[global] Instance pair_linear {A B} (c1 : A -> A -> comparison) (c2 : B -> B -> comparison)
    `{!LinearCmp c1, !LinearCmp c2} : LinearCmp (pair_cmp c1 c2).
Proof.
  split.
  - pose proof (total_cmp_on (@fst A B) c1). pose proof (total_cmp_on (@snd A B) c2).
    apply (total_cmp_then (fun a b : A * B => c1 (fst a) (fst b)) (fun a b => c2 (snd a) (snd b))).
  - intros [a1 b1] [a2 b2]. unfold pair_cmp, then_with. cbn [fst snd].
    destruct (c1 a1 a2) eqn:E1; [|done|done]. intros E2.
    by rewrite (cmp_eq a1 a2 E1), (cmp_eq b1 b2 E2).
Qed.

(** One pass that fills two accumulators. *)
Lemma fold_res_pair {E A B X} (f : A -> X -> result E A) (g : B -> X -> result E B)
    (step : A * B -> X -> result E (A * B)) xs :
  (forall a b x, step (a, b) x = (a' ← f a x; b' ← g b x; Ok (a', b'))) ->
  forall a b a' b', fold_res f a xs = Ok a' -> fold_res g b xs = Ok b' ->
    fold_res step (a, b) xs = Ok (a', b').
Proof.
  intros Hstep. induction xs as [|x xs IH]; intros a b a' b'; cbn [fold_res]; [by intros [= ->] [= ->]|].
  intros (a1 & Ha & Ha')%bind_ok (b1 & Hb & Hb')%bind_ok. rewrite Hstep, Ha. cbn [mbind result_bind].
  rewrite Hb. cbn [mbind result_bind]. by apply IH.
Qed.

Section operations.
Context {K V : Type} (cmp : K -> K -> comparison).

Fixpoint bt_get (k : K) (m : list (K * V)) : option V :=
  match m with
  | [] => None
  | (k', v) :: rest =>
      match cmp k k' with
      | Lt => None
      | Eq => Some v
      | Gt => bt_get k rest
      end
  end.

(** The key that is present stays. *)
Fixpoint bt_insert (k : K) (v : V) (m : list (K * V)) : list (K * V) :=
  match m with
  | [] => [(k, v)]
  | (k', v') :: rest =>
      match cmp k k' with
      | Lt => (k, v) :: m
      | Eq => (k', v) :: rest
      | Gt => (k', v') :: bt_insert k v rest
      end
  end.

(** [entry(k)]: the binding is computed from what is there. *)
Definition bt_entry {E} (k : K) (f : option V -> result E V) (m : list (K * V)) :
    result E (list (K * V)) :=
  v ← f (bt_get k m); Ok (bt_insert k v m).

Definition bt_sorted : list (K * V) -> Prop :=
  StronglySorted (fun a b => cmp (fst a) (fst b) = Lt).
End operations.

Section theory.
Context {K V : Type} (cmp : K -> K -> comparison) `{!LinearCmp cmp} `{!EqDecision K}.
Implicit Types (m : list (K * V)).

Lemma cmp_refl k : cmp k k = Eq.
Proof. pose proof (cmp_antisym (cmp := cmp) k k) as Ha. by destruct (cmp k k). Qed.

Lemma cmp_flip a b : cmp a b = Gt <-> cmp b a = Lt.
Proof. rewrite (cmp_antisym (cmp := cmp) a b). by destruct (cmp a b). Qed.

Lemma cmp_lt_trans a b c : cmp a b = Lt -> cmp b c = Lt -> cmp a c = Lt.
Proof. intros H1 H2. apply (cmp_lt_le_trans cmp a b c H1). unfold cmp_le. congruence. Qed.

Lemma cmp_lt_ne a b : cmp a b = Lt -> a <> b.
Proof. intros Hlt ->. by rewrite cmp_refl in Hlt. Qed.

Lemma bt_get_below k m : Forall (fun b => cmp k (fst b) = Lt) m -> bt_get cmp k m = None.
Proof. destruct 1 as [|[k' v] m Hk _]; [done|]. cbn in *. by rewrite Hk. Qed.

Lemma bt_below k k' m : cmp k k' = Lt -> Forall (fun b => cmp k' (fst b) = Lt) m ->
  Forall (fun b => cmp k (fst b) = Lt) m.
Proof. intros Hk Hm. eapply Forall_impl; [exact Hm|]. intros b Hb. by eapply cmp_lt_trans. Qed.

Lemma bt_get_elem k v m : bt_sorted cmp m -> bt_get cmp k m = Some v <-> (k, v) ∈ m.
Proof.
  induction 1 as [|[k' v'] m Hs IH Hall]; cbn [bt_get].
  { rewrite elem_of_nil. done. }
  rewrite elem_of_cons. destruct (cmp k k') eqn:E.
  - apply cmp_eq in E as ->. split; [intros [= ->]; by left|]. intros [[= ->]|Hin]; [done|].
    rewrite Forall_forall in Hall. apply Hall in Hin. cbn in Hin. by rewrite cmp_refl in Hin.
  - split; [done|]. intros [[= -> ->]|Hin]; [by rewrite cmp_refl in E|].
    rewrite Forall_forall in Hall. apply Hall in Hin. cbn in Hin.
    apply (cmp_lt_trans _ _ _ E), cmp_lt_ne in Hin. done.
  - rewrite IH. split; [by right|]. intros [[= -> ->]|Hin]; [by rewrite cmp_refl in E|done].
Qed.

Lemma bt_insert_above k k' v m : cmp k k' = Lt -> Forall (fun b => cmp k (fst b) = Lt) m ->
  Forall (fun b => cmp k (fst b) = Lt) (bt_insert cmp k' v m).
Proof.
  intros Hk. induction 1 as [|[k1 v1] m H1 Hm IH]; cbn [bt_insert]; [by constructor|].
  destruct (cmp k' k1); repeat constructor; done.
Qed.

Lemma bt_insert_sorted k v m : bt_sorted cmp m -> bt_sorted cmp (bt_insert cmp k v m).
Proof.
  induction 1 as [|[k' v'] m Hs IH Hall]; cbn [bt_insert]; [repeat constructor|].
  destruct (cmp k k') eqn:E.
  - by constructor.
  - constructor; [by constructor|]. constructor; [done|]. by eapply bt_below.
  - constructor; [done|]. apply bt_insert_above; [by apply cmp_flip|done].
Qed.

Lemma bt_get_insert k v k1 m : bt_sorted cmp m ->
  bt_get cmp k1 (bt_insert cmp k v m) = if decide (k1 = k) then Some v else bt_get cmp k1 m.
Proof.
  induction 1 as [|[k' v'] m Hs IH Hall]; cbn [bt_insert bt_get].
  { case_decide as Hk; [by rewrite Hk, cmp_refl|]. destruct (cmp k1 k) eqn:E; try done. by apply cmp_eq in E. }
  destruct (cmp k k') eqn:E; cbn [bt_get].
  - apply cmp_eq in E as ->. case_decide as Hk; [by rewrite Hk, cmp_refl|].
    destruct (cmp k1 k') eqn:E1; try done. by apply cmp_eq in E1.
  - case_decide as Hk; [by rewrite Hk, cmp_refl|]. destruct (cmp k1 k) eqn:E1; try done; [by apply cmp_eq in E1|].
    by rewrite (cmp_lt_trans k1 k k').
  - rewrite IH. case_decide as Hk; [by rewrite Hk, E|done].
Qed.

Lemma bt_keys_nodup m : bt_sorted cmp m -> NoDup (fst <$> m).
Proof.
  induction 1 as [|[k v] m Hs IH Hall]; [constructor|]. rewrite fmap_cons. constructor; [|done].
  intros ([k' v'] & Hk & Hin)%list_elem_of_fmap. cbn in Hk. subst. rewrite Forall_forall in Hall.
  apply Hall in Hin. cbn in Hin. by rewrite cmp_refl in Hin.
Qed.

(** A sorted map is determined by its lookups. *)
Lemma bt_ext m1 m2 : bt_sorted cmp m1 -> bt_sorted cmp m2 ->
  (forall k, bt_get cmp k m1 = bt_get cmp k m2) -> m1 = m2.
Proof.
  intros H1 H2 Hget. apply (StronglySorted_unique_strong (fun a b => cmp (fst a) (fst b) = Lt)); [|done|done|].
  - intros a b _ _ Hab Hba. apply cmp_flip in Hab. congruence.
  - apply NoDup_Permutation; [by eapply NoDup_fmap_1, bt_keys_nodup..|].
    intros [k v]. by rewrite <- !bt_get_elem, Hget.
Qed.

(** ** Loops that group *)

Context {A E : Type} (key : A -> option K) (step : option V -> A -> result E V).

(** The elements of one group, in order. *)
Definition group (k : K) (xs : list A) : list A :=
  List.filter (fun x => bool_decide (key x = Some k)) xs.

(** One pass of the loop; an element without a key is skipped. *)
Definition bt_step (m : list (K * V)) (x : A) : result E (list (K * V)) :=
  match key x with
  | None => Ok m
  | Some k => bt_entry cmp k (fun o => step o x) m
  end.

Lemma group_app k xs ys : group k (xs ++ ys) = group k xs ++ group k ys.
Proof. apply List.filter_app. Qed.

Lemma elem_of_group k xs x : x ∈ group k xs <-> key x = Some k /\ x ∈ xs.
Proof. unfold group. rewrite elem_of_filter_bool, bool_decide_eq_true. done. Qed.

Lemma group_length k xs : (length (group k xs) <= length xs)%nat.
Proof. induction xs as [|x xs IH]; [done|]. unfold group in *. cbn [List.filter length]. case_bool_decide; cbn; lia. Qed.

(** The bindings after [xs], where [holds ys o] relates a binding to its group. *)
Definition grouped (holds : list A -> option V -> Prop) (xs : list A) (m : list (K * V)) : Prop :=
  bt_sorted cmp m /\ forall k, holds (group k xs) (bt_get cmp k m).

Lemma bt_step_holds holds xs m x : grouped holds xs m ->
  (forall k, key x = Some k ->
     exists v, step (bt_get cmp k m) x = Ok v /\ holds (group k xs ++ [x]) (Some v)) ->
  exists m', bt_step m x = Ok m' /\ grouped holds (xs ++ [x]) m'.
Proof.
  intros [Hs Hm] Hstep. unfold bt_step. destruct (key x) as [k|] eqn:Ek.
  - destruct (Hstep k eq_refl) as (v & Hv & Hh).
    exists (bt_insert cmp k v m). unfold bt_entry. rewrite Hv. split; [done|].
    split; [by apply bt_insert_sorted|]. intros k1. rewrite bt_get_insert, group_app by done.
    unfold group at 2. cbn [List.filter]. rewrite Ek. case_decide as Hk; [subst; by rewrite bool_decide_true|].
    rewrite bool_decide_false by congruence. rewrite app_nil_r. apply Hm.
  - exists m. split; [done|]. split; [done|]. intros k. rewrite group_app. unfold group at 2. cbn [List.filter].
    rewrite Ek, bool_decide_false, app_nil_r by done. apply Hm.
Qed.

(** The loop leaves in every binding the fold of its group. *)
Lemma group_fold holds xs :
  holds [] None ->
  (forall pre x suf k o, xs = pre ++ x :: suf -> key x = Some k -> holds (group k pre) o ->
     exists v, step o x = Ok v /\ holds (group k pre ++ [x]) (Some v)) ->
  exists m, fold_res bt_step [] xs = Ok m /\ grouped holds xs m.
Proof.
  intros Hnil Hstep.
  assert (Hgen : forall suf pre m, xs = pre ++ suf -> grouped holds pre m ->
    exists m', fold_res bt_step m suf = Ok m' /\ grouped holds xs m').
  { induction suf as [|x suf IH]; intros pre m Hxs Hm; cbn [fold_res].
    - exists m. rewrite app_nil_r in Hxs. by subst.
    - destruct (bt_step_holds holds pre m x Hm) as (m1 & Hm1 & Hg); [intros k Hk; eapply Hstep; [done|done|apply Hm]|].
      rewrite Hm1. apply (IH (pre ++ [x])); [by rewrite <- app_assoc|done]. }
  apply (Hgen xs [] []); [done|]. split; [constructor|]. intros k. apply Hnil.
Qed.

(** The same, for a loop that is known to have run to its end. *)
Lemma group_fold_inv holds xs m :
  holds [] None ->
  (forall pre x suf k o v, xs = pre ++ x :: suf -> key x = Some k -> holds (group k pre) o ->
     step o x = Ok v -> holds (group k pre ++ [x]) (Some v)) ->
  fold_res bt_step [] xs = Ok m -> grouped holds xs m.
Proof.
  intros Hnil Hstep.
  assert (Hgen : forall suf pre m0, xs = pre ++ suf -> grouped holds pre m0 ->
    fold_res bt_step m0 suf = Ok m -> grouped holds xs m).
  { induction suf as [|x suf IH]; intros pre m0 Hxs Hm; cbn [fold_res].
    - intros [= <-]. rewrite app_nil_r in Hxs. by subst.
    - intros (m1 & Hm1 & Hrest)%bind_ok. apply (IH (pre ++ [x]) m1); [by rewrite <- app_assoc| |done].
      destruct (bt_step_holds holds pre m0 x Hm) as (m2 & Hm2 & Hg); [|congruence].
      intros k Hk. unfold bt_step in Hm1. rewrite Hk in Hm1. apply bind_ok in Hm1 as (v & Hv & _).
      exists v. split; [done|]. eapply Hstep; [done|done|apply Hm|done]. }
  apply (Hgen xs [] []); [done|]. split; [constructor|]. intros k. apply Hnil.
Qed.

Lemma sum_group_split (f : A -> Z) k xs :
  sum_Z f xs = sum_Z f (group k xs) + sum_Z f (List.filter (fun x => negb (bool_decide (key x = Some k))) xs).
Proof.
  unfold group. induction xs as [|x xs IH]; [done|]. cbn [List.filter]. rewrite sum_Z_cons, IH.
  case_bool_decide; cbn [negb]; rewrite !sum_Z_cons; lia.
Qed.

Lemma group_other k k1 xs : k1 <> k ->
  group k1 (List.filter (fun x => negb (bool_decide (key x = Some k))) xs) = group k1 xs.
Proof.
  intros Hk. unfold group. induction xs as [|x xs IH]; [done|]. cbn [List.filter].
  destruct (bool_decide_reflect (key x = Some k)) as [E1|E1]; cbn [negb List.filter]; rewrite IH; [|done].
  rewrite bool_decide_false; [done|congruence].
Qed.

(** The totals of the groups add up to the total, when the keys reach every element
    that counts. *)
Lemma sum_groups (f : A -> Z) ks : NoDup ks -> forall xs,
  (forall x, x ∈ xs -> f x <> 0 -> exists k, key x = Some k /\ k ∈ ks) ->
  sum_Z (fun k => sum_Z f (group k xs)) ks = sum_Z f xs.
Proof.
  induction 1 as [|k ks Hk Hnd IH]; intros xs Hin.
  - rewrite sum_Z_nil. induction xs as [|x xs IH]; [done|]. rewrite sum_Z_cons, <- IH by set_solver.
    destruct (Z.eq_dec (f x) 0); [lia|]. destruct (Hin x) as (k & _ & Hk); [by left|done|]. by apply not_elem_of_nil in Hk.
  - rewrite sum_Z_cons, (sum_group_split f k xs). f_equal. rewrite <- IH.
    + apply sum_Z_ext. intros k1 Hk1. rewrite group_other; [done|]. by intros ->.
    + intros x [Hx1 Hx2]%elem_of_filter_bool Hf. destruct (Hin x Hx2 Hf) as (k1 & Hk1 & Hks). exists k1. split; [done|].
      apply elem_of_cons in Hks as [->|]; [|done]. by rewrite bool_decide_true in Hx1.
Qed.

Lemma sorted_keys_nodup ks : StronglySorted (fun a b => cmp a b = Lt) ks -> NoDup ks.
Proof.
  induction 1 as [|k ks _ IH Hall]; constructor; [|done]. intros Hk. rewrite Forall_forall in Hall.
  apply Hall in Hk. by rewrite cmp_refl in Hk.
Qed.
End theory.

Arguments group {K _ A} key k xs.
