(* ===== verification/Table.v ===== *)
(** * Database tables

    The repositories run SQL through SeaORM.  What they rely on is stated here
    as the class [Table]: a point read, an insert that fails on a key already
    present, and a conditional update ([UPDATE .. WHERE key AND condition]) that
    reports the rows it affected.  Keyed finite maps are an instance, for the
    witnesses.  Connection and scope failures abort the surrounding transaction
    and change nothing; they are outside the model. *)

From S2P Require Import Prelude.

Class Table (K R T : Type) `{!EqDecision K} := {
  t_find : T -> K -> option R;
  t_insert : T -> K -> R -> option T;
  t_update : T -> K -> (R -> bool) -> (R -> R) -> T * Z;

  t_insert_duplicate t k r old : t_find t k = Some old -> t_insert t k r = None;
  t_insert_fresh t k r : t_find t k = None ->
    exists t', t_insert t k r = Some t' /\
      forall k', t_find t' k' = if decide (k' = k) then Some r else t_find t k';
  t_update_hit t k cond f r : t_find t k = Some r -> cond r = true ->
    exists t', t_update t k cond f = (t', 1) /\
      forall k', t_find t' k' = if decide (k' = k) then Some (f r) else t_find t k';
  t_update_miss t k cond f :
    (forall r, t_find t k = Some r -> cond r = false) ->
    exists t', t_update t k cond f = (t', 0) /\ forall k', t_find t' k' = t_find t k';
}.

Section map_table.
Context {K R : Type} `{Countable K}.

Definition map_insert (t : gmap K R) (k : K) (r : R) : option (gmap K R) :=
  match t !! k with Some _ => None | None => Some (<[k := r]> t) end.

Definition map_update (t : gmap K R) (k : K) (cond : R -> bool) (f : R -> R) : gmap K R * Z :=
  match t !! k with
  | Some r => if cond r then (<[k := f r]> t, 1) else (t, 0)
  | None => (t, 0)
  end.

Lemma insert_lookup (t : gmap K R) k r k' :
  (<[k := r]> t) !! k' = if decide (k' = k) then Some r else t !! k'.
Proof. case_decide; [subst; by rewrite lookup_insert_eq|by rewrite lookup_insert_ne]. Qed.

#[global] Instance map_table : Table K R (gmap K R).
Proof.
  refine {| t_find t k := t !! k; t_insert := map_insert; t_update := map_update |}.
  - intros t k r old Hk. unfold map_insert. by rewrite Hk.
  - intros t k r Hk. unfold map_insert. rewrite Hk. eexists. split; [done|]. apply insert_lookup.
  - intros t k cond f r Hk Hc. unfold map_update. rewrite Hk, Hc. eexists. split; [done|].
    apply insert_lookup.
  - intros t k cond f Hm. unfold map_update. destruct (t !! k) as [r|] eqn:E; [|by eexists].
    rewrite (Hm r eq_refl). by eexists.
Defined.
End map_table.
