(* ===== verification/Retry.v ===== *)
(** * Transactions with retry: [libs/toolkit-db/src/contention.rs],
      [libs/toolkit-db/src/secure/db.rs]

    A transaction body runs between BEGIN and COMMIT; a failure rolls it back.  The
    retry loop runs it again while the failure is recognised as lock contention of
    the backend and the budget lasts.  The file shows that the loop is the first
    attempt that is not retried, and that only that attempt can leave a trace in the
    database. *)

From S2P Require Import Prelude.

(** ** Errors of the database layer *)

(** [sea_orm::DbErr], as far as the code tells its variants apart; a runtime error
    is known by the text it displays. *)
Module DbErr.
Inductive db_err :=
| Exec (display : string)
| Query (display : string)
| Custom (msg : string)
| Other.
End DbErr.
Abbreviation DbErr := DbErr.db_err.

(** [toolkit_db::DbError]: the wrapped [DbErr], or one of the configuration, lock and
    connection errors, which no caller tells apart. *)
Module DbError.
Inductive db_error :=
| Sea (e : DbErr)
| NotSea.
End DbError.
Abbreviation DbError := DbError.db_error.

Module DbBackend.
Inductive db_backend := MySql | Postgres | Sqlite | Unknown.
End DbBackend.
Abbreviation DbBackend := DbBackend.db_backend.

(** ** Recognising contention *)

(** [str::contains]. *)
Fixpoint str_contains (needle hay : string) : bool :=
  String.prefix needle hay ||
  match hay with String _ rest => str_contains needle rest | EmptyString => false end.

Definition MYSQL_DEADLOCK_SQLSTATE : string := "40001".
Definition MYSQL_DEADLOCK_MSG : string := "deadlock".
Definition MYSQL_WSREP_DEADLOCK_MSG : string := "wsrep detected deadlock/conflict".
Definition MYSQL_WSREP_CERTIFICATION_ERROR_MSG : string := "transaction failed due to certification error".
Definition MYSQL_WSREP_CANNOT_CERTIFY_MSG : string := "transaction cannot be certified".
Definition MYSQL_WSREP_WRITE_SET_CONFLICT_MSG : string := "write-set conflict".
Definition MYSQL_WSREP_CERTIFICATION_FAILURE_MSG : string := "transaction rolled back due to certification failure".
Definition MYSQL_RESTART_MSG : string := "try restarting transaction".
Definition PG_SERIALIZATION_FAILURE : string := "40001".
Definition PG_DEADLOCK_DETECTED : string := "40P01".
Definition PG_SERIALIZATION_MSG : string := "could not serialize access".
Definition PG_DEADLOCK_MSG : string := "deadlock detected".
Definition SQLITE_BUSY_CODE : string := "(code: 5)".
Definition SQLITE_BUSY_SNAPSHOT_CODE : string := "(code: 517)".
Definition SQLITE_LOCKED_MSG : string := "database is locked".

Definition is_mysql_deadlock (msg : string) : bool :=
  let msg := to_ascii_lowercase msg in
  str_contains MYSQL_DEADLOCK_SQLSTATE msg || str_contains MYSQL_DEADLOCK_MSG msg ||
  str_contains MYSQL_WSREP_DEADLOCK_MSG msg || str_contains MYSQL_WSREP_CERTIFICATION_ERROR_MSG msg ||
  str_contains MYSQL_WSREP_CANNOT_CERTIFY_MSG msg || str_contains MYSQL_WSREP_WRITE_SET_CONFLICT_MSG msg ||
  str_contains MYSQL_WSREP_CERTIFICATION_FAILURE_MSG msg || str_contains MYSQL_RESTART_MSG msg.

Definition contains_sqlstate (msg sqlstate : string) : bool :=
  str_contains ("SQLSTATE " +:+ sqlstate) msg || str_contains ("(" +:+ sqlstate +:+ ")") msg.

Definition is_pg_contention (msg : string) : bool :=
  contains_sqlstate msg PG_SERIALIZATION_FAILURE || contains_sqlstate msg PG_DEADLOCK_DETECTED ||
  str_contains PG_SERIALIZATION_MSG msg || str_contains PG_DEADLOCK_MSG msg.

Definition is_sqlite_busy (msg : string) : bool :=
  (str_contains SQLITE_BUSY_CODE msg || str_contains SQLITE_BUSY_SNAPSHOT_CODE msg) &&
  str_contains SQLITE_LOCKED_MSG msg.

Definition is_contention_message (backend : DbBackend) (msg : string) : bool :=
  match backend with
  | DbBackend.MySql => is_mysql_deadlock msg
  | DbBackend.Postgres => is_pg_contention msg
  | DbBackend.Sqlite => is_sqlite_busy msg
  | DbBackend.Unknown => false
  end.

Definition is_retryable_contention (backend : DbBackend) (err : DbErr) : bool :=
  match err with
  | DbErr.Exec display | DbErr.Query display => is_contention_message backend display
  | DbErr.Custom msg => is_contention_message backend msg
  | DbErr.Other => false
  end.

(** ** Transactions *)

Inductive TxPhase := TxBegin | TxBody | TxCommit.

(** What the database does to one attempt: whether BEGIN and COMMIT fail, and what
    other transactions do to the database before it starts. *)
Record TxAttempt (D : Type) := mkTxAttempt {
  ta_begin : option DbErr;
  ta_commit : option DbErr;
  ta_others : D -> D;
}.
Arguments mkTxAttempt {D}.
Arguments ta_begin {D}.
Arguments ta_commit {D}.
Arguments ta_others {D}.

Definition DEFAULT_TX_RETRY_ATTEMPTS : Z := 3.

Section transactions.
Context {D T E : Type} (from_db : DbError -> E).

Definition transaction_ref_mapped_with_config_tagged (a : TxAttempt D) (f : D -> result E (T * D)) (db : D) :
    D * result (E * TxPhase) T :=
  match ta_begin a with
  | Some e => (db, Err (from_db (DbError.Sea e), TxBegin))
  | None =>
      match f db with
      | Ok (v, db') =>
          match ta_commit a with
          | None => (db', Ok v)
          | Some e => (db, Err (from_db (DbError.Sea e), TxCommit))
          end
      | Err e => (db, Err (e, TxBody))
      end
  end.

Definition transaction_ref_mapped_with_config (a : TxAttempt D) (f : D -> result E (T * D)) (db : D) : D * result E T :=
  let '(db', r) := transaction_ref_mapped_with_config_tagged a f db in (db', map_err fst r).

Context (backend : DbBackend) (extract_db_err : E -> option DbErr).

Definition retryable (e : E) : bool := from_option (is_retryable_contention backend) false (extract_db_err e).

(** The retry loop; [fuel] bounds the retries that are left. *)
Fixpoint retry_loop (fuel : nat) (max attempt : Z) (env : Z -> TxAttempt D) (body : Z -> D -> result E (T * D)) (db : D) :
    D * result E T :=
  let '(db', r) :=
    transaction_ref_mapped_with_config_tagged (env attempt) (body attempt) (ta_others (env attempt) db) in
  match r with
  | Ok value => (db', Ok value)
  | Err (e, _) =>
      if retryable e && (attempt <? max)
      then match fuel with
           | S fuel => retry_loop fuel max (attempt + 1) env body db'
           | O => (db', Err e)
           end
      else (db', Err e)
  end.

Definition transaction_with_retry_max (max_attempts : Z) (env : Z -> TxAttempt D) (body : Z -> D -> result E (T * D))
    (db : D) : D * result E T :=
  let max := Z.max max_attempts 1 in retry_loop (Z.to_nat max) max 1 env body db.

Definition transaction_with_retry : (Z -> TxAttempt D) -> (Z -> D -> result E (T * D)) -> D -> D * result E T :=
  transaction_with_retry_max DEFAULT_TX_RETRY_ATTEMPTS.

(** ** What the loop does *)

(** The database before attempt [n], when every earlier one left no trace: only the
    other transactions have run. *)
Fixpoint others_before (env : Z -> TxAttempt D) (first : Z) (n : nat) (db : D) : D :=
  match n with
  | O => ta_others (env first) db
  | S n => others_before env (first + 1) n (ta_others (env first) db)
  end.

(** A failed attempt leaves the database as it found it. *)
Lemma tagged_err a f (db : D) db' e : transaction_ref_mapped_with_config_tagged a f db = (db', Err e) -> db' = db.
Proof.
  unfold transaction_ref_mapped_with_config_tagged.
  destruct (ta_begin a); [by intros [= <- _]|]. destruct (f db) as [[v d]|e']; [|by intros [= <- _]].
  destruct (ta_commit a); [by intros [= <- _]|done].
Qed.

(** The loop started at attempt [attempt] returns what the [k]-th further attempt
    returns, all earlier ones having failed for contention. *)
Lemma retry_loop_spec max env body fuel attempt db : (Z.to_nat (max - attempt) <= fuel)%nat -> attempt <= max ->
  exists k : nat, attempt + Z.of_nat k <= max /\
    (forall j : nat, (j < k)%nat -> exists e ph,
       snd (transaction_ref_mapped_with_config_tagged (env (attempt + Z.of_nat j)) (body (attempt + Z.of_nat j))
              (others_before env attempt j db)) = Err (e, ph) /\ retryable e = true) /\
    let '(db', r) := transaction_ref_mapped_with_config_tagged (env (attempt + Z.of_nat k)) (body (attempt + Z.of_nat k))
                       (others_before env attempt k db) in
    retry_loop fuel max attempt env body db = (db', map_err fst r) /\
    (forall e ph, r = Err (e, ph) -> retryable e = false \/ attempt + Z.of_nat k = max).
Proof.
  revert attempt db. induction fuel as [|fuel IH]; intros attempt db Hf Hle; cbn [retry_loop];
    destruct (transaction_ref_mapped_with_config_tagged (env attempt) (body attempt) (ta_others (env attempt) db))
      as [db' [v|[e ph]]] eqn:Ht.
  1,3: exists 0%nat; rewrite Z.add_0_r; cbn [others_before]; rewrite Ht; split_and!; [lia|lia|done|done].
  all: destruct (retryable e && (attempt <? max)) eqn:Hr.
  2,4: exists 0%nat; rewrite Z.add_0_r; cbn [others_before]; rewrite Ht; split_and!; [lia|lia|done|];
    intros e0 ph0 [= <- <-]; apply andb_false_iff in Hr as [Hr|Hr]; [by left|right; apply Z.ltb_ge in Hr; lia].
  { apply andb_prop in Hr as [_ Hr%Z.ltb_lt]. lia. }
  apply andb_prop in Hr as [Hr Hlt%Z.ltb_lt]. pose proof (tagged_err _ _ _ _ _ Ht) as ->.
  destruct (IH (attempt + 1) (ta_others (env attempt) db)) as (k & Hk & Hj & Hres); [lia|lia|].
  exists (S k). replace (attempt + Z.of_nat (S k)) with (attempt + 1 + Z.of_nat k) by lia. cbn [others_before].
  split_and!; [lia| |exact Hres].
  intros [|j] Hjk; [rewrite Z.add_0_r; cbn [others_before]; rewrite Ht; by exists e, ph|].
  replace (attempt + Z.of_nat (S j)) with (attempt + 1 + Z.of_nat j) by lia. apply Hj. lia.
Qed.

(** The loop is its last attempt. *)
Lemma retry_max_spec max_attempts env body db :
  exists k : nat, Z.of_nat k < Z.max max_attempts 1 /\
    (forall j : nat, (j < k)%nat -> exists e ph,
       snd (transaction_ref_mapped_with_config_tagged (env (1 + Z.of_nat j)) (body (1 + Z.of_nat j))
              (others_before env 1 j db)) = Err (e, ph) /\ retryable e = true) /\
    match transaction_with_retry_max max_attempts env body db with
    | (db', Ok v) => ta_commit (env (1 + Z.of_nat k)) = None /\
        body (1 + Z.of_nat k) (others_before env 1 k db) = Ok (v, db')
    | (db', Err e) => db' = others_before env 1 k db /\
        (retryable e = false \/ 1 + Z.of_nat k = Z.max max_attempts 1)
    end.
Proof.
  destruct (retry_loop_spec (Z.max max_attempts 1) env body (Z.to_nat (Z.max max_attempts 1)) 1 db)
    as (k & Hk & Hj & Hres); [lia|lia|].
  exists k. split_and!; [lia|exact Hj|]. unfold transaction_with_retry_max.
  destruct (transaction_ref_mapped_with_config_tagged (env (1 + Z.of_nat k)) _ _) as [db' r] eqn:Ht.
  destruct Hres as [-> Hlast]. destruct r as [v|[e ph]]; cbn [map_err fst].
  - unfold transaction_ref_mapped_with_config_tagged in Ht. destruct (ta_begin _); [done|].
    destruct (body _ _) as [[v' d]|]; [|done]. destruct (ta_commit _); [done|]. by injection Ht as -> ->.
  - split; [by eapply tagged_err|by eapply Hlast].
Qed.
(** [transaction_with_retry_max] is the first attempt that is not retried.  For
    some number [k] of retries within the budget, the attempts before the last one
    failed with an error recognised as contention and left the database to the other
    transactions; the answer and the database are those of the last attempt; and when
    that one failed, its error is no contention or the budget is exhausted.  So the
    body's writes are kept at most once, and exactly when it reports success. *)
Theorem retry_exact max_attempts env body db :
  exists k : nat, Z.of_nat k < Z.max max_attempts 1 /\
    (forall j : nat, (j < k)%nat -> exists e ph,
       snd (transaction_ref_mapped_with_config_tagged (env (1 + Z.of_nat j)) (body (1 + Z.of_nat j))
              (others_before env 1 j db)) = Err (e, ph) /\ retryable e = true) /\
    match transaction_with_retry_max max_attempts env body db with
    | (db', Ok v) => ta_commit (env (1 + Z.of_nat k)) = None /\
        body (1 + Z.of_nat k) (others_before env 1 k db) = Ok (v, db')
    | (db', Err e) => db' = others_before env 1 k db /\
        (retryable e = false \/ 1 + Z.of_nat k = Z.max max_attempts 1)
    end.
Proof. apply retry_max_spec. Qed.
End transactions.

Arguments transaction_with_retry_max {D T E}.
Arguments transaction_with_retry {D T E}.
