(* ===== verification/Handler.v ===== *)
(** * Request handlers as trees of atomic steps

    A service handles a request in several database transactions and calls, between
    which other requests run.  [Prog] is the tree of those atomic steps: each takes what
    the environment decides ([Env]: clock, faults, answers, fresh identifiers) and the
    shared state, and returns the new state and the rest of the work; [x ← p; q] is
    sequencing with [?].  A [Machine] holds the shared state and the handlers in
    progress; a run starts, advances and kills them in any order.

    The second half is a rely-guarantee logic for handlers: [safe] says that a handler
    keeps a state invariant and its guarantee whatever the others do, given that they
    keep to its rely; [run_sound] turns the safety of every handler into an invariant of
    every run. *)

From S2P Require Import Prelude.

Section prog.
Context {Env W E : Type}.

Inductive Prog (A : Type) : Type :=
| Ret (a : A)
| Throw (e : E)
| Act (step : Env -> W -> W) (k : Env -> W -> Prog A).
Arguments Ret {A}.
Arguments Throw {A}.
Arguments Act {A}.

Fixpoint prog_bind {A B} (f : A -> Prog B) (p : Prog A) : Prog B :=
  match p with
  | Ret a => f a
  | Throw e => Throw e
  | Act step k => Act step (fun env w => prog_bind f (k env w))
  end.

#[global] Instance Prog_ret : MRet Prog := fun A a => Ret a.
#[global] Instance Prog_bind : MBind Prog := fun A B f p => prog_bind f p.

(** [match p.await { Ok(..) => .., Err(..) => .. }]. *)
Fixpoint attempt {A} (p : Prog A) : Prog (result E A) :=
  match p with
  | Ret a => Ret (Ok a)
  | Throw e => Ret (Err e)
  | Act step k => Act step (fun env w => attempt (k env w))
  end.

Definition lift {A} (r : result E A) : Prog A :=
  match r with Ok a => Ret a | Err e => Throw e end.

(** One atomic step that returns [f]'s result. *)
Definition atomic {A} (f : Env -> W -> W * result E A) : Prog A :=
  Act (fun env w => (f env w).1) (fun env w => lift (f env w).2).

(** A handler run alone, on what the environment answers at each step. *)
Fixpoint run_alone {A} (p : Prog A) (envs : list Env) (w : W) : W * option (result E A) :=
  match p with
  | Ret a => (w, Some (Ok a))
  | Throw e => (w, Some (Err e))
  | Act step k =>
      match envs with
      | [] => (w, None)
      | env :: envs => run_alone (k env w) envs (step env w)
      end
  end.

(** ** Runs *)

Section machine.
Context {Req : Type} (handler : Req -> Prog unit).

Record Machine := mkMachine {
  m_world : W;
  m_threads : gmap nat (Req * Prog unit);
}.

Inductive MachineOp :=
| Start (t : nat) (r : Req)
| Advance (t : nat) (env : Env)
| Kill (t : nat).

Definition mexec (m : Machine) (op : MachineOp) : Machine :=
  match op with
  | Start t r =>
      match m_threads m !! t with
      | None => mkMachine (m_world m) (<[t := (r, handler r)]> (m_threads m))
      | Some _ => m
      end
  | Advance t env =>
      match m_threads m !! t with
      | Some (r, Act step k) =>
          mkMachine (step env (m_world m)) (<[t := (r, k env (m_world m))]> (m_threads m))
      | _ => m
      end
  | Kill t => mkMachine (m_world m) (delete t (m_threads m))
  end.

Definition mrun (m : Machine) (ops : list MachineOp) : Machine := fold_left mexec ops m.

(** No request starts beside one in progress that it conflicts with. *)
Section compatible.
Context (compat : Req -> Req -> bool).

Definition start_ok (m : Machine) (op : MachineOp) : Prop :=
  match op with
  | Start t r => m_threads m !! t = None -> forall t' x, m_threads m !! t' = Some x -> compat r x.1 = true
  | _ => True
  end.

Fixpoint compatible (m : Machine) (ops : list MachineOp) : Prop :=
  match ops with
  | [] => True
  | op :: ops => start_ok m op /\ compatible (mexec m op) ops
  end.

(** The same by computation. *)
Fixpoint compatibleb (m : Machine) (ops : list MachineOp) : bool :=
  match ops with
  | [] => true
  | op :: ops =>
      match op with
      | Start t r => forallb (fun x => compat r x.2.1) (map_to_list (m_threads m))
      | _ => true
      end && compatibleb (mexec m op) ops
  end.

Lemma compatibleb_ok m ops : compatibleb m ops = true -> compatible m ops.
Proof.
  revert m. induction ops as [|op ops IH]; intros m; [done|]. cbn [compatibleb compatible]. intros [Hs Hc]%andb_true_iff.
  split; [|by apply IH]. destruct op as [t r|t env|t]; cbn; [|done|done]. intros _ t' x Hx.
  rewrite forallb_forall in Hs. apply (Hs (t', x)), list_elem_of_In. by apply elem_of_map_to_list.
Qed.
End compatible.
End machine.

(** ** Rely and guarantee *)

Section safety.
Context (Inv : W -> Prop).

Definition stable (Rely : W -> W -> Prop) (L : W -> Prop) : Prop :=
  forall w w', Inv w -> Inv w' -> Rely w w' -> L w -> L w'.

Section handler.
Context (Rely Guar : W -> W -> Prop).

(** From states where the handler knows [L], each step keeps the invariant and the
    guarantee and leaves the handler knowing something stable; [Q] holds at the end. *)
Fixpoint safe {A} (L : W -> Prop) (p : Prog A) (Q : result E A -> W -> Prop) : Prop :=
  match p with
  | Ret a => forall w, Inv w -> L w -> Q (Ok a) w
  | Throw e => forall w, Inv w -> L w -> Q (Err e) w
  | Act step k => forall env w, Inv w -> L w ->
      Inv (step env w) /\ Guar w (step env w) /\
      exists L', stable Rely L' /\ L' (step env w) /\ safe L' (k env w) Q
  end.

Lemma safe_conseq {A} (L L' : W -> Prop) (p : Prog A) Q Q' :
  (forall w, Inv w -> L w -> L' w) -> (forall r w, Inv w -> Q' r w -> Q r w) ->
  safe L' p Q' -> safe L p Q.
Proof.
  intros HL HQ. revert L L' HL. induction p as [a|e|step k IH]; intros L L' HL Hs; cbn in *; [eauto..|].
  intros env w Hi Hl. specialize (Hs env w Hi (HL w Hi Hl)). specialize (IH env w).
  destruct Hs as (? & ? & L1 & ? & ? & Hs). split_and!; [done..|]. exists L1. split_and!; [done..|]. by apply (IH L1 L1).
Qed.

Lemma safe_pre {A} (L L' : W -> Prop) (p : Prog A) Q : (forall w, Inv w -> L w -> L' w) -> safe L' p Q -> safe L p Q.
Proof. intros HL. by apply safe_conseq. Qed.

Lemma safe_extract {A} (phi : Prop) (L : W -> Prop) (p : Prog A) Q : (phi -> safe L p Q) -> safe (fun w => phi /\ L w) p Q.
Proof. intros Hp. destruct p; cbn in *; [naive_solver..|]. intros env w Hi [Hphi Hl]. by apply (Hp Hphi). Qed.

Lemma safe_bind {A B} (L : W -> Prop) (p : Prog A) (f : A -> Prog B) Q1 Q :
  safe L p Q1 -> (forall a, safe (Q1 (Ok a)) (f a) Q) -> (forall e w, Inv w -> Q1 (Err e) w -> Q (Err e) w) ->
  safe L (p ≫= f) Q.
Proof.
  intros Hp Hf He. revert L Hp. induction p as [a|e|step k IH]; intros L Hp; cbn in *.
  - eapply safe_pre; [|apply Hf]. done.
  - eauto.
  - intros env w Hi Hl. specialize (Hp env w Hi Hl). specialize (IH env w).
    destruct Hp as (? & ? & L1 & ? & ? & Hp). split_and!; [done..|]. exists L1. split_and!; [done..|]. by apply IH.
Qed.

Lemma safe_attempt {A} (L : W -> Prop) (p : Prog A) Q :
  safe L p Q -> safe L (attempt p) (fun r w => exists r', r = Ok r' /\ Q r' w).
Proof.
  revert L. induction p as [a|e|step k IH]; intros L Hp; cbn in *; [eauto..|].
  intros env w Hi Hl. specialize (Hp env w Hi Hl). specialize (IH env w).
  destruct Hp as (? & ? & L1 & ? & ? & Hp). split_and!; [done..|]. exists L1. split_and!; [done..|]. by apply IH.
Qed.

Lemma safe_lift {A} (L : W -> Prop) (r : result E A) Q : (forall w, Inv w -> L w -> Q r w) -> safe L (lift r) Q.
Proof. intros Hq. destruct r; exact Hq. Qed.

(** One step: [Q] must be stable, since other handlers run before the next. *)
Lemma safe_atomic {A} (L : W -> Prop) (f : Env -> W -> W * result E A) (Q : result E A -> W -> Prop) :
  (forall r, stable Rely (Q r)) ->
  (forall env w, Inv w -> L w -> Inv (f env w).1 /\ Guar w (f env w).1 /\ Q (f env w).2 (f env w).1) ->
  safe L (atomic f) Q.
Proof.
  intros Hst Hf env w Hi Hl. destruct (Hf env w Hi Hl) as (? & ? & Hq). cbn in *.
  split_and!; [done..|]. exists (Q (f env w).2). split_and!; [done..|]. by apply safe_lift.
Qed.
End handler.

Lemma stable_true Rely : stable Rely (fun _ => True).
Proof. done. Qed.

Lemma stable_pure Rely (P : Prop) : stable Rely (fun _ => P).
Proof. by intros w w' _ _ _ HP. Qed.

Lemma stable_and Rely (L L' : W -> Prop) : stable Rely L -> stable Rely L' -> stable Rely (fun w => L w /\ L' w).
Proof. intros H1 H2 w w' ? ? ? [? ?]. split; [by apply (H1 w w')|by apply (H2 w w')]. Qed.

Lemma stable_exists {X} Rely (L : X -> W -> Prop) : (forall x, stable Rely (L x)) -> stable Rely (fun w => exists x, L x w).
Proof. intros HL w w' ? ? ? [x Hx]. exists x. by apply (HL x w w'). Qed.

(** ** Runs of safe handlers *)

Section run.
Context {Req : Type} (handler : Req -> Prog unit) (compat : Req -> Req -> bool).
Context (Rely Guar : Req -> W -> W -> Prop).
Hypothesis compat_sym : forall r r', compat r r' = compat r' r.
Hypothesis guar_rely : forall r r' w w', compat r r' = true -> Guar r w w' -> Rely r' w w'.
Hypothesis handlers_safe : forall r, safe (Rely r) (Guar r) (fun _ => True) (handler r) (fun _ _ => True).

Record machine_ok (m : Machine) : Prop := mkMachineOk {
  mo_inv : Inv (m_world m);
  mo_threads t r p : m_threads m !! t = Some (r, p) ->
    exists L, stable (Rely r) L /\ L (m_world m) /\ safe (Rely r) (Guar r) L p (fun _ _ => True);
  mo_compat t t' x x' : t <> t' -> m_threads m !! t = Some x -> m_threads m !! t' = Some x' -> compat x.1 x'.1 = true;
}.

Lemma mexec_ok m op : start_ok compat m op -> machine_ok m -> machine_ok (mexec handler m op).
Proof.
  intros Hs [Hi Ht Hc]. destruct op as [t r|t env|t]; cbn [mexec start_ok] in *.
  - destruct (m_threads m !! t) as [x|] eqn:Et; [by split|]. specialize (Hs eq_refl). split; cbn; [done|..].
    + intros t' r' p' [[-> [= <- <-]]|[Hne Hp]]%lookup_insert_Some; [|by apply (Ht t')].
      exists (fun _ => True). split_and!; [apply stable_true|done|apply handlers_safe].
    + intros t1 t2 x1 x2 Hne [[<- <-]|[Hn1 H1]]%lookup_insert_Some [[<- <-]|[Hn2 H2]]%lookup_insert_Some; try done.
      * by apply (Hs t2).
      * rewrite compat_sym. by apply (Hs t1).
      * by apply (Hc t1 t2).
  - destruct (m_threads m !! t) as [[r [a|e|step k]]|] eqn:Et; try by split.
    destruct (Ht t r _ Et) as (L & HL & Hl & Hsafe). specialize (Hsafe env (m_world m) Hi Hl).
    destruct Hsafe as (Hi' & Hg & L' & HL' & Hl' & Hsafe).
    split; cbn; [done|..].
    + intros t' r' q [[-> [= <- <-]]|[Hne Hq]]%lookup_insert_Some; [by exists L'|].
      destruct (Ht t' r' q Hq) as (L1 & HL1 & Hl1 & Hs1). exists L1. split_and!; [done| |done].
      apply (HL1 (m_world m)); [done|done| |done]. apply (guar_rely r); [|done]. by apply (Hc t t' _ _ Hne Et Hq).
    + intros t1 t2 x1 x2 Hne [[<- <-]|[Hn1 H1]]%lookup_insert_Some [[<- <-]|[Hn2 H2]]%lookup_insert_Some; try done.
      * by apply (Hc t t2 _ _ Hne Et H2).
      * by apply (Hc t1 t _ _ Hne H1 Et).
      * by apply (Hc t1 t2).
  - split; cbn; [done|..].
    + intros t' r p [_ Hp]%lookup_delete_Some. by apply (Ht t').
    + intros t1 t2 x1 x2 Hne [_ H1]%lookup_delete_Some [_ H2]%lookup_delete_Some. by apply (Hc t1 t2).
Qed.

Lemma run_sound m ops : machine_ok m -> compatible handler compat m ops -> machine_ok (mrun handler m ops).
Proof.
  revert m. induction ops as [|op ops IH]; intros m Hm Hc; [done|]. destruct Hc as [Hs Hc].
  apply IH; [by apply mexec_ok|done].
Qed.

(** What a preorder that holds every guarantee says of a run. *)
Lemma run_relates (R : W -> W -> Prop) `{!PreOrder R} m ops : (forall r w w', Guar r w w' -> R w w') ->
  machine_ok m -> compatible handler compat m ops -> R (m_world m) (m_world (mrun handler m ops)).
Proof.
  intros HR. revert m. induction ops as [|op ops IH]; intros m Hm Hc; [done|]. destruct Hc as [Hs Hc].
  transitivity (m_world (mexec handler m op)); [|apply IH; [by apply mexec_ok|done]].
  destruct op as [t r|t env|t]; cbn [mexec]; [by destruct (m_threads m !! t)| |done].
  destruct (m_threads m !! t) as [[r [a|e|step k]]|] eqn:Et; try done.
  destruct (mo_threads m Hm t r _ Et) as (L & _ & Hl & Hsafe). apply (HR r). by apply (Hsafe env (m_world m) (mo_inv m Hm) Hl).
Qed.

Lemma fresh_ok w : Inv w -> machine_ok (mkMachine w ∅).
Proof. intros Hi. split; [done|..]; intros *; by rewrite ?lookup_empty. Qed.
End run.

(** Requests that never conflict. *)
Lemma compatible_always {Req} (handler : Req -> Prog unit) m ops : compatible handler (fun _ _ => true) m ops.
Proof. revert m. induction ops as [|op ops IH]; intros m; [done|]. split; [by destruct op|apply IH]. Qed.
End safety.
End prog.
Arguments Prog : clear implicits.
Arguments Ret {Env W E A}.
Arguments Throw {Env W E A}.
Arguments Act {Env W E A}.
Arguments Machine : clear implicits.
Arguments MachineOp : clear implicits.
