(* ===== verification/Prioritizer.v ===== *)
(** * The partition scheduler of the outbox: [libs/toolkit-db/src/outbox/prioritizer.rs]

    Producers mark partitions dirty, sequencer workers claim the oldest dirty one.
    [Inbox] coalesces the marks, [PartitionScheduler] keeps the queue, the claims and
    the error cooldowns, [SharedPrioritizer] puts each behind a mutex and
    [PartitionGuard] returns a claim.  A run interleaves the critical sections of any
    number of threads.  Shown: no two workers ever hold the same partition; a
    partition is in one state; the oldest due partition is served first; and no dirty
    mark is lost, whatever is coalesced, redirtied, skipped or failed in between. *)

From S2P Require Import Prelude.

(** Instants and durations are nanoseconds. *)
Abbreviation Instant := Z (only parsing).
Definition MILLI : Z := 1000000.

(** ** Backoff *)

Record BackoffPolicy := mkBackoffPolicy { bo_base : Z; bo_max : Z }.

Definition u64_saturating_mul (a b : Z) : Z := Z.min (a * b) (2 ^ 64 - 1).

(** [as_millis() as u64], then [Duration::from_millis] of the saturated product. *)
Definition delay_for (p : BackoffPolicy) (error_count : Z) : Z :=
  let ms := (bo_base p / MILLI) mod 2 ^ 64 in
  Z.min (u64_saturating_mul ms (Z.shiftl 1 (Z.min error_count 31)) * MILLI) (bo_max p).

Definition DEFAULT_BACKOFF : BackoffPolicy := mkBackoffPolicy (100 * MILLI) (30000 * MILLI).
Definition SWEEP_INTERVAL : Z := 60000 * MILLI.
Definition ERROR_STATE_TTL : Z := 300000 * MILLI.

(** [Instant::duration_since], which saturates at zero. *)
Definition duration_since (later earlier : Instant) : Z := Z.max (later - earlier) 0.

(** ** The scheduler *)

Inductive AckResult := Consumed | Redirtied.

Record ErrorEntry := mkErrorEntry { error_count : Z; last_update : Instant }.

Record PartitionScheduler := mkScheduler {
  pending : gset (Instant * Z);
  pending_ids : gset Z;
  claimed : gset Z;
  redirtied : gset Z;
  error_state : gmap Z ErrorEntry;
  last_sweep : Instant;
  backoff : BackoffPolicy;
}.

Definition scheduler_new (now : Instant) : PartitionScheduler :=
  mkScheduler ∅ ∅ ∅ ∅ ∅ now DEFAULT_BACKOFF.

(** The order of the [BTreeSet]: by instant, then by partition. *)
Definition entry_leb (a b : Instant * Z) : bool :=
  (a.1 <? b.1) || ((a.1 =? b.1) && (a.2 <=? b.2)).

Definition least (a : Instant * Z) (m : option (Instant * Z)) : option (Instant * Z) :=
  match m with
  | None => Some a
  | Some b => Some (if entry_leb a b then a else b)
  end.

(** [BTreeSet::first]. *)
Definition first_entry (s : gset (Instant * Z)) : option (Instant * Z) := foldr least None (elements s).

Definition reinsert (pid : Z) (dirty_since : Instant) (s : PartitionScheduler) : PartitionScheduler :=
  mkScheduler ({[(dirty_since, pid)]} ∪ pending s) ({[pid]} ∪ pending_ids s) (claimed s) (redirtied s)
    (error_state s) (last_sweep s) (backoff s).

Definition absorb_one (s : PartitionScheduler) (entry : Z * Instant) : PartitionScheduler :=
  let '(pid, dirty_since) := entry in
  if bool_decide (pid ∈ pending_ids s) then s
  else if bool_decide (pid ∈ claimed s)
  then mkScheduler (pending s) (pending_ids s) (claimed s) ({[pid]} ∪ redirtied s)
         (error_state s) (last_sweep s) (backoff s)
  else reinsert pid dirty_since s.

Definition absorb (s : PartitionScheduler) (entries : list (Z * Instant)) : PartitionScheduler :=
  fold_left absorb_one entries s.

Definition maybe_sweep_errors (now : Instant) (s : PartitionScheduler) : PartitionScheduler :=
  if SWEEP_INTERVAL <=? duration_since now (last_sweep s)
  then mkScheduler (pending s) (pending_ids s) (claimed s) (redirtied s)
         (filter (fun kv => duration_since now (last_update kv.2) < ERROR_STATE_TTL) (error_state s)) now (backoff s)
  else s.

Definition pop (now : Instant) (s : PartitionScheduler) : PartitionScheduler * option (Z * Instant) :=
  match first_entry (pending s) with
  | None => (s, None)
  | Some (dirty_since, pid) =>
      if now <? dirty_since then (s, None)
      else (mkScheduler (pending s ∖ {[(dirty_since, pid)]}) (pending_ids s ∖ {[pid]}) ({[pid]} ∪ claimed s)
              (redirtied s) (error_state s) (last_sweep s) (backoff s), Some (pid, dirty_since))
  end.

Definition is_claimed (pid : Z) (s : PartitionScheduler) : bool := bool_decide (pid ∈ claimed s).

Definition has_ready_work (now : Instant) (s : PartitionScheduler) : bool :=
  from_option (fun e : Instant * Z => e.1 <=? now) false (first_entry (pending s)).

Definition ack_processed (pid : Z) (now : Instant) (s : PartitionScheduler) : PartitionScheduler * AckResult :=
  let s1 := mkScheduler (pending s) (pending_ids s) (claimed s ∖ {[pid]}) (redirtied s ∖ {[pid]})
              (delete pid (error_state s)) (last_sweep s) (backoff s) in
  if bool_decide (pid ∈ redirtied s) then (reinsert pid now s1, Redirtied) else (s1, Consumed).

Definition ack_requeue (pid : Z) (dirty_since : Instant) (s : PartitionScheduler) : PartitionScheduler :=
  reinsert pid dirty_since
    (mkScheduler (pending s) (pending_ids s) (claimed s ∖ {[pid]}) (redirtied s ∖ {[pid]})
       (error_state s) (last_sweep s) (backoff s)).

(** The error count is a [u32]; a partition would have to fail for millennia to reach
    its end, each failure being followed by a cooldown. *)
Definition ack_error (pid : Z) (now : Instant) (s : PartitionScheduler) : PartitionScheduler :=
  let count := from_option error_count 0 (error_state s !! pid) + 1 in
  reinsert pid (now + delay_for (backoff s) count)
    (mkScheduler (pending s) (pending_ids s) (claimed s ∖ {[pid]}) (redirtied s ∖ {[pid]})
       (<[pid := mkErrorEntry count now]> (error_state s)) (last_sweep s) (backoff s)).

(** ** The inbox *)

Definition INBOX_COALESCE : Z := 10 * MILLI.

Record Inbox := mkInbox { queue : list (Z * Instant); last_push : gmap Z Instant }.

Definition inbox_new : Inbox := mkInbox [] ∅.

Definition force_push (pid : Z) (now : Instant) (i : Inbox) : Inbox :=
  mkInbox (queue i ++ [(pid, now)]) (<[pid := now]> (last_push i)).

Definition try_push (pid : Z) (now : Instant) (i : Inbox) : Inbox * bool :=
  if from_option (fun last => duration_since now last <? INBOX_COALESCE) false (last_push i !! pid)
  then (i, false) else (force_push pid now i, true).

Definition drain (i : Inbox) : Inbox * list (Z * Instant) := (mkInbox [] ∅, queue i).

(** ** The shared prioritizer *)

Record SharedPrioritizer := mkShared { inbox : Inbox; scheduler : PartitionScheduler }.

(** [push_dirty], and whether it wakes a sequencer.  The inbox lock is held throughout
    and the scheduler is read once, so the call is one step. *)
Definition push_dirty_impl (pid : Z) (dirty_since : Instant) (s : SharedPrioritizer) : SharedPrioritizer * bool :=
  let '(i, accepted) := try_push pid dirty_since (inbox s) in
  if accepted then (mkShared i (scheduler s), true)
  else if is_claimed pid (scheduler s) then (mkShared (force_push pid dirty_since i) (scheduler s), true)
  else (mkShared i (scheduler s), false).

(** [take]: the two critical sections, between which other threads may run. *)
Definition take_drain (s : SharedPrioritizer) : SharedPrioritizer * list (Z * Instant) :=
  let '(i, drained) := drain (inbox s) in (mkShared i (scheduler s), drained).

Definition take_pop (drained : list (Z * Instant)) (now : Instant) (s : SharedPrioritizer) :
    SharedPrioritizer * option (Z * Instant) * bool :=
  let sched := maybe_sweep_errors now (absorb (scheduler s) drained) in
  let '(sched', popped) := pop now sched in
  (mkShared (inbox s) sched', popped, match popped with Some _ => has_ready_work now sched' | None => false end).

(** ** The guard *)

Definition processed (pid : Z) (now now' : Instant) (s : SharedPrioritizer) : SharedPrioritizer * bool :=
  let '(sched, r) := ack_processed pid now (scheduler s) in
  (mkShared (inbox s) sched, match r with Redirtied => true | Consumed => has_ready_work now' sched end).

(** [skipped], and dropping a guard that was not acknowledged. *)
Definition requeue (pid : Z) (dirty_since : Instant) (s : SharedPrioritizer) : SharedPrioritizer :=
  mkShared (inbox s) (ack_requeue pid dirty_since (scheduler s)).

Definition guard_error (pid : Z) (now : Instant) (s : SharedPrioritizer) : SharedPrioritizer :=
  mkShared (inbox s) (ack_error pid now (scheduler s)).

(** ** Runs *)

(** The shared state, the batches drained by workers that have not reached the second
    section of [take], and the guards that are out. *)
Record System := mkSystem {
  sys_shared : SharedPrioritizer;
  sys_drained : list (list (Z * Instant));
  sys_guards : list (Z * Instant);
}.

Definition sys_init (now : Instant) : System := mkSystem (mkShared inbox_new (scheduler_new now)) [] [].

(** One critical section of some thread; drained batches and guards are named by
    their position. *)
Inductive SysOp :=
| OpPush (pid : Z) (now : Instant)
| OpDrain
| OpPop (batch : nat) (now : Instant)
| OpProcessed (guard : nat) (now now' : Instant)
| OpRequeue (guard : nat)
| OpError (guard : nat) (now : Instant).

Definition remove_at {A} (n : nat) (l : list A) : list A := take n l ++ drop (S n) l.

(** The step, and the partition it hands to a worker. *)
Definition sys_exec (s : System) (op : SysOp) : System * option (Z * Instant) :=
  match op with
  | OpPush pid now => (mkSystem (push_dirty_impl pid now (sys_shared s)).1 (sys_drained s) (sys_guards s), None)
  | OpDrain => let '(sh, drained) := take_drain (sys_shared s) in (mkSystem sh (sys_drained s ++ [drained]) (sys_guards s), None)
  | OpPop n now =>
      match sys_drained s !! n with
      | None => (s, None)
      | Some drained =>
          let '(sh, popped, _) := take_pop drained now (sys_shared s) in
          (mkSystem sh (remove_at n (sys_drained s)) (sys_guards s ++ option_list popped), popped)
      end
  | OpProcessed g now now' =>
      match sys_guards s !! g with
      | None => (s, None)
      | Some (pid, _) => (mkSystem (processed pid now now' (sys_shared s)).1 (sys_drained s) (remove_at g (sys_guards s)), None)
      end
  | OpRequeue g =>
      match sys_guards s !! g with
      | None => (s, None)
      | Some (pid, dirty_since) => (mkSystem (requeue pid dirty_since (sys_shared s)) (sys_drained s) (remove_at g (sys_guards s)), None)
      end
  | OpError g now =>
      match sys_guards s !! g with
      | None => (s, None)
      | Some (pid, _) => (mkSystem (guard_error pid now (sys_shared s)) (sys_drained s) (remove_at g (sys_guards s)), None)
      end
  end.

Definition sys_run (s : System) (ops : list SysOp) : System := fold_left (fun s op => (sys_exec s op).1) ops s.

(** ** The queue *)

Definition entry_le (a b : Instant * Z) : Prop := entry_leb a b = true.

Lemma entry_leb_spec a b : entry_leb a b = true <-> a.1 < b.1 \/ (a.1 = b.1 /\ a.2 <= b.2).
Proof.
  unfold entry_leb. destruct (Z.ltb_spec a.1 b.1), (Z.eqb_spec a.1 b.1), (Z.leb_spec a.2 b.2); cbn; split; intros; try done; lia.
Qed.

(** [first_entry] is the least element. *)
Lemma first_entry_spec s :
  match first_entry s with
  | None => s = ∅
  | Some e => e ∈ s /\ forall e', e' ∈ s -> entry_le e e'
  end.
Proof.
  unfold first_entry, entry_le. assert (Hl : match foldr least None (elements s) with
    | None => elements s = [] | Some e => e ∈ elements s /\ forall e', e' ∈ elements s -> entry_leb e e' = true end).
  { induction (elements s) as [|a l IH]; [done|]. cbn [foldr]. destruct (foldr least None l) as [b|]; cbn [least].
    - destruct IH as [Hb Hmin]. destruct (entry_leb a b) eqn:Hab.
      + split; [set_solver|]. intros e' [->|He']%elem_of_cons; [apply entry_leb_spec; lia|].
        specialize (Hmin e' He'). apply entry_leb_spec in Hab, Hmin. apply entry_leb_spec. lia.
      + split; [set_solver|]. intros e' [->|He']%elem_of_cons; [|by apply Hmin].
        apply entry_leb_spec. apply not_true_iff_false in Hab. rewrite entry_leb_spec in Hab. lia.
    - subst l. split; [set_solver|]. intros e' ->%list_elem_of_singleton. apply entry_leb_spec. lia. }
  destruct (foldr least None (elements s)) as [e|].
  - destruct Hl as [He Hmin]. split; [by apply elem_of_elements|]. intros e' He'. by apply Hmin, elem_of_elements.
  - apply elements_empty_inv, leibniz_equiv in Hl. done.
Qed.

(** ** The invariant *)

Record sched_ok (s : PartitionScheduler) : Prop := {
  so_mirror pid : pid ∈ pending_ids s <-> exists t, (t, pid) ∈ pending s;
  so_unique t t' pid : (t, pid) ∈ pending s -> (t', pid) ∈ pending s -> t = t';
  so_disjoint : pending_ids s ## claimed s;
  so_redirtied : redirtied s ⊆ claimed s;
}.

Definition pids (l : list (Z * Instant)) : gset Z := list_to_set l.*1.

Record sys_ok (s : System) : Prop := {
  sk_sched : sched_ok (scheduler (sys_shared s));
  sk_inbox : dom (last_push (inbox (sys_shared s))) ⊆ pids (queue (inbox (sys_shared s)));
  sk_claimed : claimed (scheduler (sys_shared s)) = pids (sys_guards s);
  sk_guards : NoDup (sys_guards s).*1;
}.

(** There is work to be done for the partition: a mark in the inbox, in a drained
    batch or in the queue, or a claim that will be repeated. *)
Definition marked (s : PartitionScheduler) (pid : Z) : Prop := pid ∈ pending_ids s \/ pid ∈ redirtied s.

Definition scheduled (s : System) (pid : Z) : Prop :=
  pid ∈ pids (queue (inbox (sys_shared s))) \/ (exists b, b ∈ sys_drained s /\ pid ∈ pids b) \/
  marked (scheduler (sys_shared s)) pid.

Lemma pids_app l1 l2 : pids (l1 ++ l2) = pids l1 ∪ pids l2.
Proof. unfold pids. by rewrite fmap_app, list_to_set_app_L. Qed.

Lemma pids_cons e l : pids (e :: l) = {[e.1]} ∪ pids l.
Proof. done. Qed.

Lemma reinsert_ok s pid t : sched_ok s -> pid ∉ pending_ids s -> pid ∉ claimed s -> sched_ok (reinsert pid t s).
Proof.
  intros [Hm Hu Hd Hr] Hp Hc. split; cbn.
  - intros q. rewrite elem_of_union, elem_of_singleton, Hm. split.
    + intros [->|[t' Ht']]; [exists t|exists t']; set_solver.
    + intros [t' [[= -> ->]%elem_of_singleton|Ht']%elem_of_union]; [by left|right; by exists t'].
  - assert (Hno : forall t', (t', pid) ∉ pending s) by (intros t' Ht'; apply Hp, Hm; by exists t').
    intros t1 t2 q. rewrite !elem_of_union, !elem_of_singleton. intros [H1|H1] [H2|H2]; simplify_eq.
    + done.
    + by apply Hno in H2.
    + by apply Hno in H1.
    + by eapply Hu.
  - set_solver.
  - done.
Qed.

Lemma absorb_one_ok s e : sched_ok s -> sched_ok (absorb_one s e).
Proof.
  intros Hs. destruct e as [pid t]. unfold absorb_one. case_bool_decide as Hp; [done|]. case_bool_decide as Hc.
  - destruct Hs as [Hm Hu Hd Hr]. split; cbn; [exact Hm|exact Hu|exact Hd|set_solver].
  - by apply reinsert_ok.
Qed.

Lemma absorb_spec s l : sched_ok s ->
  sched_ok (absorb s l) /\ claimed (absorb s l) = claimed s /\
  (forall pid, marked s pid \/ pid ∈ pids l -> marked (absorb s l) pid).
Proof.
  revert s. induction l as [|[pid t] l IH]; intros s Hs; cbn [absorb fold_left].
  - split_and!; [done|done|]. intros q [?|Hq]; [done|]. unfold pids in Hq. set_solver.
  - fold (absorb (absorb_one s (pid, t)) l). destruct (IH _ (absorb_one_ok s (pid, t) Hs)) as (Hok & Hc & Hm).
    split_and!; [done|rewrite Hc; unfold absorb_one; by repeat case_bool_decide|].
    intros q Hq. apply Hm. rewrite pids_cons in Hq. cbn [fst] in Hq. unfold marked, absorb_one in *.
    repeat case_bool_decide; cbn; set_solver.
Qed.

Lemma sweep_spec now s : sched_ok s ->
  sched_ok (maybe_sweep_errors now s) /\ pending (maybe_sweep_errors now s) = pending s /\
  claimed (maybe_sweep_errors now s) = claimed s /\ (forall pid, marked s pid -> marked (maybe_sweep_errors now s) pid).
Proof. intros Hs. unfold maybe_sweep_errors. destruct (_ <=? _); [|done]. split_and!; try done. by destruct Hs as [Hm Hu Hd Hr]; split. Qed.

(** [pop] serves the oldest entry that is due, if any. *)
Lemma pop_spec now s : sched_ok s ->
  match pop now s with
  | (s', None) => s' = s /\ forall e, e ∈ pending s -> now < e.1
  | (s', Some (pid, t)) =>
      sched_ok s' /\ (t, pid) ∈ pending s /\ t <= now /\ (forall e, e ∈ pending s -> entry_le (t, pid) e) /\
      (pid ∉ claimed s) /\ claimed s' = {[pid]} ∪ claimed s /\ (forall q, q <> pid -> marked s q -> marked s' q)
  end.
Proof.
  intros Hs. unfold pop. pose proof (first_entry_spec (pending s)) as Hf.
  destruct (first_entry (pending s)) as [[t pid]|]; [|split; [done|]; intros e He; rewrite Hf in He; set_solver].
  destruct Hf as [Hin Hmin]. destruct (Z.ltb_spec now t) as [Hlt|Hle].
  { split; [done|]. intros e He. specialize (Hmin e He). apply entry_leb_spec in Hmin. cbn in Hmin. lia. }
  destruct Hs as [Hm Hu Hd Hr]. assert (Hp : pid ∈ pending_ids s) by (apply Hm; by exists t).
  split_and!; [|done|done|done|set_solver|done|].
  - split; cbn.
    + intros q. rewrite elem_of_difference, elem_of_singleton, Hm. split.
      * intros [[t' Ht'] Hne]. exists t'. set_solver.
      * intros [t' Ht']. apply elem_of_difference in Ht' as [Ht' Hne]. split; [by exists t'|].
        intros ->. apply Hne. rewrite (Hu t' t pid) by done. set_solver.
    + intros t1 t2 q. rewrite !elem_of_difference. intros [? _] [? _]. by eapply Hu.
    + set_solver.
    + set_solver.
  - unfold marked. cbn. set_solver.
Qed.

(** Giving up a claim, whatever is recorded about errors. *)
Lemma unclaim_ok s pid errs sw : sched_ok s -> pid ∈ claimed s ->
  let s1 := mkScheduler (pending s) (pending_ids s) (claimed s ∖ {[pid]}) (redirtied s ∖ {[pid]}) errs sw (backoff s) in
  sched_ok s1 /\ (pid ∉ pending_ids s1) /\ (pid ∉ claimed s1).
Proof. intros [Hm Hu Hd Hr] Hc. split_and!; [|cbn; set_solver|cbn; set_solver]. by split; cbn; [| |set_solver|set_solver]. Qed.

Lemma ack_processed_spec pid now s : sched_ok s -> pid ∈ claimed s ->
  let s' := (ack_processed pid now s).1 in
  sched_ok s' /\ claimed s' = claimed s ∖ {[pid]} /\ (forall q, marked s q -> marked s' q).
Proof.
  intros Hs Hc. destruct (unclaim_ok s pid (delete pid (error_state s)) (last_sweep s) Hs Hc) as (Hok & Hp & Hc').
  unfold ack_processed. case_bool_decide as Hr; cbn [fst].
  - split_and!; [by apply reinsert_ok|done|]. intros q. unfold marked. cbn. destruct (decide (q = pid)); set_solver.
  - split_and!; [done|done|]. intros q. unfold marked. cbn. set_solver.
Qed.

Lemma ack_requeue_spec pid t s : sched_ok s -> pid ∈ claimed s ->
  let s' := ack_requeue pid t s in
  sched_ok s' /\ claimed s' = claimed s ∖ {[pid]} /\ (forall q, marked s q \/ q = pid -> marked s' q).
Proof.
  intros Hs Hc. destruct (unclaim_ok s pid (error_state s) (last_sweep s) Hs Hc) as (Hok & Hp & Hc').
  split_and!; [by apply reinsert_ok|done|]. intros q. unfold marked. cbn. destruct (decide (q = pid)); set_solver.
Qed.

Lemma ack_error_spec pid now s : sched_ok s -> pid ∈ claimed s ->
  let s' := ack_error pid now s in
  sched_ok s' /\ claimed s' = claimed s ∖ {[pid]} /\ (forall q, marked s q \/ q = pid -> marked s' q).
Proof.
  intros Hs Hc. unfold ack_error.
  match goal with |- context [<[pid := ?e]> (error_state s)] =>
    destruct (unclaim_ok s pid (<[pid := e]> (error_state s)) (last_sweep s) Hs Hc) as (Hok & Hp & Hc') end.
  split_and!; [by apply reinsert_ok|done|]. intros q. unfold marked. cbn. destruct (decide (q = pid)); set_solver.
Qed.

(** ** The inbox *)

(** A push leaves a mark for its partition in the inbox, also when it is coalesced. *)
Lemma push_spec pid now s : dom (last_push (inbox s)) ⊆ pids (queue (inbox s)) ->
  let s' := (push_dirty_impl pid now s).1 in
  scheduler s' = scheduler s /\ dom (last_push (inbox s')) ⊆ pids (queue (inbox s')) /\
  pids (queue (inbox s')) = {[pid]} ∪ pids (queue (inbox s)).
Proof.
  intros Hin. unfold push_dirty_impl, try_push.
  assert (Hforce : dom (last_push (force_push pid now (inbox s))) ⊆ pids (queue (force_push pid now (inbox s))) /\
    pids (queue (force_push pid now (inbox s))) = {[pid]} ∪ pids (queue (inbox s))).
  { cbn [force_push queue last_push]. rewrite pids_app, pids_cons, dom_insert_L. cbn [fst]. split; set_solver. }
  destruct (last_push (inbox s) !! pid) as [last|] eqn:Hl; cbn [from_option]; [|done].
  destruct (_ <? _); [|done]. destruct (is_claimed _ _); [done|]. cbn. split_and!; [done|done|].
  apply elem_of_dom_2 in Hl. set_solver.
Qed.

(** ** Guards *)

Lemma remove_at_middle {A} n (l : list A) x : l !! n = Some x -> exists l1 l2, l = l1 ++ x :: l2 /\ remove_at n l = l1 ++ l2.
Proof. intros Hx. exists (take n l), (drop (S n) l). split; [symmetry; by apply take_drop_middle|done]. Qed.

Lemma remove_guard g guards pid t : NoDup guards.*1 -> guards !! g = Some (pid, t) ->
  pid ∈ pids guards /\ pids (remove_at g guards) = pids guards ∖ {[pid]} /\ NoDup (remove_at g guards).*1.
Proof.
  intros Hnd (l1 & l2 & -> & ->)%remove_at_middle. rewrite fmap_app, fmap_cons in *. cbn [fst] in *.
  apply NoDup_app in Hnd as (H1 & Hd & [Hn H2]%NoDup_cons).
  rewrite !pids_app, pids_cons. cbn [fst]. unfold pids. split_and!.
  - set_solver.
  - apply set_eq. intros q. rewrite !elem_of_difference, !elem_of_union, elem_of_singleton, !elem_of_list_to_set.
    specialize (Hd pid). set_solver.
  - apply NoDup_app. split_and!; [done| |done]. intros x Hx. specialize (Hd x Hx). set_solver.
Qed.

(** ** One step *)

(** What every step keeps: the invariant, and the marks of all partitions but the one
    it hands out. *)
Definition keeps (s s' : System) (popped : option (Z * Instant)) : Prop :=
  sys_ok s' /\ forall q, scheduled s q -> (exists t, popped = Some (q, t)) \/ scheduled s' q.

Lemma keeps_refl s : sys_ok s -> keeps s s None.
Proof. split; [done|]. by right. Qed.

Lemma push_step s pid now : sys_ok s ->
  keeps s (sys_exec s (OpPush pid now)).1 None /\ scheduled (sys_exec s (OpPush pid now)).1 pid.
Proof.
  intros [Hs Hi Hc Hg]. destruct (push_spec pid now (sys_shared s) Hi) as (Hsc & Hi' & Hq).
  unfold keeps, scheduled. cbn [sys_exec fst sys_shared sys_drained]. rewrite Hsc, Hq.
  split; [split; [split; cbn [sys_shared sys_guards]; by rewrite ?Hsc|]|left; set_solver].
  intros q [?|[?|?]]; right; [left; set_solver|by right; left|by right; right].
Qed.

Lemma drain_step s : sys_ok s -> keeps s (sys_exec s OpDrain).1 None.
Proof.
  intros [Hs Hi Hc Hg]. split; [split; cbn; [done|rewrite dom_empty_L; set_solver|done|done]|].
  unfold scheduled. cbn [sys_exec take_drain drain fst sys_shared sys_drained inbox queue scheduler].
  intros q [?|[(b & Hb & Hq)|?]]; right; right.
  - left. exists (queue (inbox (sys_shared s))). split; [set_solver|done].
  - left. exists b. split; [set_solver|done].
  - by right.
Qed.

Lemma pop_step s n now : sys_ok s ->
  let '(s', popped) := sys_exec s (OpPop n now) in keeps s s' popped.
Proof.
  intros [Hs Hi Hc Hg]. cbn [sys_exec]. destruct (sys_drained s !! n) as [drained|] eqn:Hn; [|by apply keeps_refl].
  destruct (remove_at_middle _ _ _ Hn) as (l1 & l2 & Hl & ->). unfold take_pop.
  destruct (absorb_spec (scheduler (sys_shared s)) drained Hs) as (Ha & Hac & Ham).
  destruct (sweep_spec now _ Ha) as (Hw & _ & Hwc & Hwm).
  set (sched := maybe_sweep_errors now (absorb (scheduler (sys_shared s)) drained)) in *.
  assert (Hkept : forall q, scheduled s q -> q ∈ pids (queue (inbox (sys_shared s))) \/
    (exists b, b ∈ l1 ++ l2 /\ q ∈ pids b) \/ marked sched q).
  { intros q [?|[(b & Hb & Hq)|Hq]]; [by left| |right; right; apply Hwm, Ham; by left]. rewrite Hl in Hb.
    apply elem_of_app in Hb as [Hb|[->|Hb]%elem_of_cons];
      [right; left; exists b; set_solver|right; right; apply Hwm, Ham; by right|right; left; exists b; set_solver]. }
  pose proof (pop_spec now sched Hw) as Hp. destruct (pop now sched) as [sched' [[pid t]|]].
  - change (option_list (Some (pid, t))) with [(pid, t)]. destruct Hp as (Hok & _ & _ & _ & Hnc & Hc' & Hm). rewrite Hwc, Hac, Hc in Hnc. split; [split; cbn [sys_shared sys_guards scheduler inbox]|].
    + done.
    + done.
    + rewrite Hc', Hwc, Hac, Hc, pids_app, pids_cons. cbn [fst]. unfold pids. set_solver.
    + rewrite fmap_app. apply NoDup_app. split_and!; [done| |apply NoDup_singleton].
      intros q Hq ->%list_elem_of_singleton. apply Hnc. unfold pids. set_solver.
    + intros q Hq. destruct (decide (q = pid)) as [->|Hne]; [left; by exists t|right].
      destruct (Hkept q Hq) as [?|[?|Hq']]; [by left|by right; left|right; right; by apply Hm].
  - change (option_list (None : option (Z * Instant))) with (@nil (Z * Instant)). destruct Hp as [-> _]. rewrite app_nil_r. split; [split; cbn [sys_shared sys_guards scheduler inbox]; by rewrite ?Hwc, ?Hac|].
    intros q Hq. right. by apply Hkept.
Qed.

(** A guard returns its claim. *)
Lemma guard_step s g pid t sched : sys_ok s -> sys_guards s !! g = Some (pid, t) -> sched_ok sched ->
  claimed sched = claimed (scheduler (sys_shared s)) ∖ {[pid]} ->
  (forall q, marked (scheduler (sys_shared s)) q -> marked sched q) ->
  keeps s (mkSystem (mkShared (inbox (sys_shared s)) sched) (sys_drained s) (remove_at g (sys_guards s))) None.
Proof.
  intros [Hs Hi Hc Hg] Hgd Hok Hcl Hm. destruct (remove_guard g _ pid t Hg Hgd) as (_ & Hrm & Hnd).
  split; [split; cbn [sys_shared sys_guards scheduler inbox]; [done|done|by rewrite Hcl, Hrm, Hc|done]|].
  intros q [?|[?|?]]; right; [by left|by right; left|right; right; by apply Hm].
Qed.

Lemma guard_claimed s g pid t : sys_ok s -> sys_guards s !! g = Some (pid, t) -> pid ∈ claimed (scheduler (sys_shared s)).
Proof. intros [Hs Hi Hc Hg] Hgd. rewrite Hc. by eapply remove_guard. Qed.

Lemma sys_step s op : sys_ok s -> let '(s', popped) := sys_exec s op in keeps s s' popped.
Proof.
  intros Hok. pose proof (sk_sched s Hok) as Hs. destruct op as [pid now| |n now|g now now'|g|g now].
  - by apply push_step.
  - by apply drain_step.
  - by apply pop_step.
  - cbn [sys_exec]. destruct (sys_guards s !! g) as [[pid t]|] eqn:Hgd; [|by apply keeps_refl].
    destruct (ack_processed_spec pid now _ Hs (guard_claimed s g pid t Hok Hgd)) as (Ha & Hcl & Hm).
    unfold processed. destruct (ack_processed pid now (scheduler (sys_shared s))). by eapply guard_step.
  - cbn [sys_exec]. destruct (sys_guards s !! g) as [[pid t]|] eqn:Hgd; [|by apply keeps_refl].
    destruct (ack_requeue_spec pid t _ Hs (guard_claimed s g pid t Hok Hgd)) as (Ha & Hcl & Hm).
    eapply guard_step; eauto.
  - cbn [sys_exec]. destruct (sys_guards s !! g) as [[pid t]|] eqn:Hgd; [|by apply keeps_refl].
    destruct (ack_error_spec pid now _ Hs (guard_claimed s g pid t Hok Hgd)) as (Ha & Hcl & Hm).
    eapply guard_step; eauto.
Qed.

Lemma sys_init_ok now : sys_ok (sys_init now).
Proof. split; cbn; [split; cbn; set_solver|rewrite dom_empty_L; set_solver|done|constructor]. Qed.

Lemma sys_run_ok s ops : sys_ok s -> sys_ok (sys_run s ops).
Proof.
  revert s. induction ops as [|op ops IH]; intros s Hs; [done|]. cbn [sys_run fold_left]. apply IH.
  pose proof (sys_step s op Hs) as Hk. destruct (sys_exec s op). apply Hk.
Qed.

(** The scheduler keeps its invariant.  In every interleaving of producers and
    sequencer workers, a partition is held by at most one worker, is never queued
    while it is held, is queued at most once, the identifiers mirror the queue, and
    only held partitions are flagged for another round. *)
Theorem claims_exclusive now ops :
  let s := sys_run (sys_init now) ops in let sched := scheduler (sys_shared s) in
  NoDup (sys_guards s).*1 /\ claimed sched = list_to_set (sys_guards s).*1 /\
  pending_ids sched ## claimed sched /\ redirtied sched ⊆ claimed sched /\
  (forall pid, pid ∈ pending_ids sched <-> exists! t, (t, pid) ∈ pending sched).
Proof.
  pose proof (sys_run_ok _ ops (sys_init_ok now)) as [[Hm Hu Hd Hr] Hi Hc Hg]. cbn zeta. split_and!; [done..|].
  intros pid. rewrite Hm. split.
  - intros [t Ht]. exists t. split; [done|]. intros t' Ht'. by eapply Hu.
  - intros [t [Ht _]]. by exists t.
Qed.

Lemma marks_run pid more s : sys_ok s -> scheduled s pid ->
  scheduled (sys_run s more) pid \/
  exists pre op post t, more = pre ++ op :: post /\ (sys_exec (sys_run s pre) op).2 = Some (pid, t).
Proof.
  revert s. induction more as [|op more IH]; intros s Hok Hsch; [by left|].
  pose proof (sys_step s op Hok) as Hk. cbn [sys_run fold_left]. destruct (sys_exec s op) as [s' popped] eqn:He. cbn [fst].
  destruct Hk as [Hok' Hk]. destruct (Hk pid Hsch) as [[t ->]|Hsch'].
  - right. exists [], op, more, t. split; [done|]. cbn. by rewrite He.
  - destruct (IH s' Hok' Hsch') as [?|(pre & op' & post & t & -> & Hp)]; [by left|right].
    exists (op :: pre), op', post, t. split; [done|]. cbn [sys_run fold_left]. by rewrite He.
Qed.

(** C25: no dirty mark is lost.  After [push_dirty] of a partition, coalesced or not,
    in any reachable state and along any further interleaving, the partition is handed
    to a worker or still scheduled: its mark is in the inbox, in a drained batch or in
    the queue, or the partition is held and flagged to be processed again. *)
Theorem no_lost_mark now ops pid t more :
  let s := (sys_exec (sys_run (sys_init now) ops) (OpPush pid t)).1 in
  scheduled (sys_run s more) pid \/
  exists pre op post t', more = pre ++ op :: post /\ (sys_exec (sys_run s pre) op).2 = Some (pid, t').
Proof.
  destruct (push_step _ pid t (sys_run_ok _ ops (sys_init_ok now))) as [[Hok _] Hsch]. by apply marks_run.
Qed.

(** [take] serves the oldest partition that is due, counting the marks it has just
    drained, and reports no work only when none is due. *)
Theorem take_oldest now0 ops drained now :
  let sh := sys_shared (sys_run (sys_init now0) ops) in
  let entries := pending (absorb (scheduler sh) drained) in
  match (take_pop drained now sh).1.2 with
  | Some (pid, t) => (t, pid) ∈ entries /\ t <= now /\ forall e, e ∈ entries -> entry_le (t, pid) e
  | None => forall e, e ∈ entries -> now < e.1
  end.
Proof.
  pose proof (sys_run_ok _ ops (sys_init_ok now0)) as [Hs _ _ _]. cbn zeta. unfold take_pop.
  destruct (absorb_spec _ drained Hs) as (Ha & _). destruct (sweep_spec now _ Ha) as (Hw & Hp & _).
  rewrite <- Hp. pose proof (pop_spec now _ Hw) as Hpop. destruct (pop now _) as [s' [[pid t]|]]; cbn.
  - destruct Hpop as (_ & ? & ? & ? & _). done.
  - by apply Hpop.
Qed.

(** The default cooldown doubles from 200ms and stops at 30s. *)
Lemma default_delay n : 0 <= n -> delay_for DEFAULT_BACKOFF n = Z.min (100 * MILLI * 2 ^ n) (30000 * MILLI).
Proof.
  intros Hn. unfold delay_for, u64_saturating_mul. rewrite Z.shiftl_mul_pow2 by lia. cbn [bo_base bo_max DEFAULT_BACKOFF].
  replace ((100 * MILLI / MILLI) mod 2 ^ 64) with 100 by done. unfold MILLI.
  destruct (Z.le_gt_cases n 31) as [Hle|Hgt].
  - rewrite (Z.min_l n 31) by lia. assert (0 < 2 ^ n <= 2 ^ 31) by (split; [apply Z.pow_pos_nonneg; lia|apply Z.pow_le_mono_r; lia]).
    rewrite Z.mul_1_l, (Z.min_l (100 * 2 ^ n)) by (assert (100 * 2 ^ 31 < 2 ^ 64 - 1) by done; lia). f_equal. ring.
  - rewrite (Z.min_r n 31) by lia. assert (2 ^ 31 <= 2 ^ n) by (apply Z.pow_le_mono_r; lia).
    rewrite !Z.min_r; [done|change (2 ^ 31) with 2147483648 in *; lia|done].
Qed.
