(* ===== verification/Sql.v ===== *)
(** * Statements on tables

    The outbox writes SQL by hand.  A table is the list of its rows; the file gives the
    statements the code uses: UPDATE and DELETE with a condition, and SELECT with a
    condition, an integer sort key and a limit.  Each statement acts on committed rows,
    as it does inside the transactions that run it. *)

From S2P Require Import Prelude.

Section sql.
Context {R : Type}.
Implicit Types (t : list R) (cond : R -> bool) (key : R -> Z).

(** [UPDATE .. SET .. WHERE ..] and the rows it affects. *)
Definition sql_update cond (f : R -> R) t : list R * Z :=
  ((fun r => if cond r then f r else r) <$> t, Z.of_nat (length (List.filter cond t))).

(** [DELETE .. WHERE ..]. *)
Definition sql_delete cond t : list R := List.filter (fun r => negb (cond r)) t.

Fixpoint insert_by key (x : R) t : list R :=
  match t with
  | [] => [x]
  | y :: t => if key x <=? key y then x :: y :: t else y :: insert_by key x t
  end.

Definition order_by key t : list R := foldr (insert_by key) [] t.

(** [SELECT .. WHERE .. ORDER BY key LIMIT n]. *)
Definition sql_select key cond (limit : Z) t : list R :=
  take (Z.to_nat limit) (order_by key (List.filter cond t)).

(** ** Lemmas *)

Lemma sql_update_rows cond f t : (sql_update cond f t).1 = (fun r => if cond r then f r else r) <$> t.
Proof. done. Qed.

Lemma filter_none cond t : (forall r, r ∈ t -> cond r = false) -> List.filter cond t = [].
Proof.
  induction t as [|r t IH]; intros Hc; [done|]. cbn. rewrite Hc by set_solver. apply IH. intros; apply Hc; set_solver.
Qed.

Lemma filter_all cond t : (forall r, r ∈ t -> cond r = true) -> List.filter cond t = t.
Proof.
  induction t as [|r t IH]; intros Hc; [done|]. cbn. rewrite Hc by set_solver. rewrite IH; [done|]. intros; apply Hc; set_solver.
Qed.

(** An update whose condition no row satisfies. *)
Lemma sql_update_none cond f t : (forall r, r ∈ t -> cond r = false) -> sql_update cond f t = (t, 0).
Proof.
  intros Hc. unfold sql_update. rewrite filter_none by done. f_equal.
  transitivity (id <$> t); [|apply list_fmap_id]. apply list_fmap_ext. intros i r Hr.
  by rewrite Hc by (by eapply list_elem_of_lookup_2).
Qed.

Lemma insert_by_perm key x t : insert_by key x t ≡ₚ x :: t.
Proof.
  induction t as [|y t IH]; [done|]. cbn. destruct (_ <=? _); [done|]. rewrite IH. by constructor.
Qed.

Lemma order_by_perm key t : order_by key t ≡ₚ t.
Proof.
  induction t as [|x t IH]; [done|]. change (order_by key (x :: t)) with (insert_by key x (order_by key t)).
  rewrite insert_by_perm. by constructor.
Qed.

(** A list already in order stays as it is. *)
Lemma order_by_id key t : StronglySorted (fun a b => key a <= key b) t -> order_by key t = t.
Proof.
  induction 1 as [|x t Hs IH Hx]; [done|]. change (order_by key (x :: t)) with (insert_by key x (order_by key t)). rewrite IH. destruct t as [|y t]; [done|].
  cbn. inversion Hx; subst. by destruct (Z.leb_spec (key x) (key y)); [|lia].
Qed.

Lemma elem_of_select key cond limit t r : r ∈ sql_select key cond limit t -> r ∈ t /\ cond r = true.
Proof.
  unfold sql_select. intros Hr. apply elem_of_take in Hr as (i & Hr & _). apply list_elem_of_lookup_2 in Hr.
  rewrite order_by_perm in Hr. rewrite elem_of_filter_bool in Hr. tauto.
Qed.
End sql.
