(* ===== verification/OutboxModel.v ===== *)
(** * The transactional outbox: tables, records and enqueue
      [libs/toolkit-db/src/outbox]: [types.rs], [validation.rs], [record.rs], [core.rs],
      [statements.rs], [dialect.rs], [store.rs]

    A message is a body row and an incoming row written in the caller's transaction.
    The sequencer turns incoming rows into outgoing rows numbered per partition; the
    processor row of a partition holds the cursor; handled rows are collected by the
    vacuum.  The file holds the tables, the checks on what a caller submits, and
    [enqueue_batch]. *)

From S2P Require Import Prelude Sql Retry.

Abbreviation Payload := (list Ascii.ascii).

Module OutboxError.
Inductive outbox_error :=
| QueueNotRegistered (queue : string)
| PartitionOutOfRange (queue : string) (partition max : Z)
| PayloadTooLarge (size max : Z)
| PartitionCountMismatch (queue : string) (expected found : Z)
| EmptyTracedBatch
| TracedBatchTooLarge (entities : Z)
| InvalidQueueName (reason : string)
| InvalidPayloadType (reason : string)
| InvalidTrace (reason : string)
| TraceTooLong (size max : Z)
| InvalidTablePrefix (reason : string)
| Database (e : DbErr).
End OutboxError.
Abbreviation OutboxError := OutboxError.outbox_error.

(** ** Tables *)

Record BodyRow := mkBodyRow {
  bd_id : Z;
  bd_payload : Payload;
  bd_payload_type : string;
  bd_created_at : Z;
  bd_trace : option string;
}.

Record IncomingRow := mkIncomingRow { in_id : Z; in_partition_id : Z; in_body_id : Z }.

Record OutgoingRow := mkOutgoingRow { og_id : Z; og_partition_id : Z; og_body_id : Z; og_seq : Z }.

Record PartitionRow := mkPartitionRow { pt_id : Z; pt_queue : string; pt_sequence : Z }.

Record ProcessorRow := mkProcessorRow {
  pr_partition_id : Z;
  pr_processed_seq : Z;
  pr_attempts : Z;
  pr_last_error : option string;
  pr_locked_by : option string;
  pr_locked_until : option Z;
}.

Record VacuumRow := mkVacuumRow { vc_partition_id : Z; vc_counter : Z }.

Record DeadLetterRow := mkDeadLetterRow {
  dl_partition_id : Z;
  dl_seq : Z;
  dl_payload : Payload;
  dl_payload_type : string;
  dl_created_at : Z;
  dl_last_error : string;
  dl_attempts : Z;
  dl_trace : option string;
}.

Record TraceRow := mkTraceRow {
  tr_trace : string;
  tr_owner_instance : string;
  tr_queue : string;
  tr_entities : Z;
  tr_pending : Z;
  tr_failures : Z;
  tr_attempts : Z;
  tr_last_error : option string;
  tr_retrying_since : option Z;
  tr_completed_at : option Z;
  tr_notified_at : option Z;
}.

Record OutboxDb := mkOutboxDb {
  db_body : list BodyRow;
  db_incoming : list IncomingRow;
  db_outgoing : list OutgoingRow;
  db_partitions : list PartitionRow;
  db_processor : list ProcessorRow;
  db_vacuum : list VacuumRow;
  db_dead : list DeadLetterRow;
  db_trace : list TraceRow;
}.

Definition with_body (f : list BodyRow -> list BodyRow) (db : OutboxDb) : OutboxDb :=
  mkOutboxDb (f (db_body db)) (db_incoming db) (db_outgoing db) (db_partitions db) (db_processor db) (db_vacuum db)
    (db_dead db) (db_trace db).
Definition with_incoming (f : list IncomingRow -> list IncomingRow) (db : OutboxDb) : OutboxDb :=
  mkOutboxDb (db_body db) (f (db_incoming db)) (db_outgoing db) (db_partitions db) (db_processor db) (db_vacuum db)
    (db_dead db) (db_trace db).
Definition with_outgoing (f : list OutgoingRow -> list OutgoingRow) (db : OutboxDb) : OutboxDb :=
  mkOutboxDb (db_body db) (db_incoming db) (f (db_outgoing db)) (db_partitions db) (db_processor db) (db_vacuum db)
    (db_dead db) (db_trace db).
Definition with_partitions (f : list PartitionRow -> list PartitionRow) (db : OutboxDb) : OutboxDb :=
  mkOutboxDb (db_body db) (db_incoming db) (db_outgoing db) (f (db_partitions db)) (db_processor db) (db_vacuum db)
    (db_dead db) (db_trace db).
Definition with_processor (f : list ProcessorRow -> list ProcessorRow) (db : OutboxDb) : OutboxDb :=
  mkOutboxDb (db_body db) (db_incoming db) (db_outgoing db) (db_partitions db) (f (db_processor db)) (db_vacuum db)
    (db_dead db) (db_trace db).
Definition with_vacuum (f : list VacuumRow -> list VacuumRow) (db : OutboxDb) : OutboxDb :=
  mkOutboxDb (db_body db) (db_incoming db) (db_outgoing db) (db_partitions db) (db_processor db) (f (db_vacuum db))
    (db_dead db) (db_trace db).
Definition with_dead (f : list DeadLetterRow -> list DeadLetterRow) (db : OutboxDb) : OutboxDb :=
  mkOutboxDb (db_body db) (db_incoming db) (db_outgoing db) (db_partitions db) (db_processor db) (db_vacuum db)
    (f (db_dead db)) (db_trace db).
Definition with_trace (f : list TraceRow -> list TraceRow) (db : OutboxDb) : OutboxDb :=
  mkOutboxDb (db_body db) (db_incoming db) (db_outgoing db) (db_partitions db) (db_processor db) (db_vacuum db)
    (db_dead db) (f (db_trace db)).

(** ** Checks on what a caller submits *)

Definition MAX_QUEUE_NAME_LEN : Z := 1024.
Definition MAX_PAYLOAD_TYPE_LEN : Z := 1024.
Definition MAX_TRACE_LEN : Z := 256.
Definition MAX_PAYLOAD_SIZE : Z := 64 * 1024.

(** [u8::is_ascii_alphanumeric] and [(0x20..=0x7E).contains]. *)
Definition is_alphanumeric (c : Ascii.ascii) : bool :=
  let b := byte_code c in
  ((48 <=? b) && (b <=? 57)) || ((65 <=? b) && (b <=? 90)) || ((97 <=? b) && (b <=? 122)).
Definition is_printable (c : Ascii.ascii) : bool := (32 <=? byte_code c) && (byte_code c <=? 126).

Definition queue_char (c : Ascii.ascii) : bool :=
  is_alphanumeric c || (byte_code c =? 46) || (byte_code c =? 95) || (byte_code c =? 45).

Definition validate_queue_name (name : string) : result OutboxError unit :=
  if (byte_len name =? 0) || (MAX_QUEUE_NAME_LEN <? byte_len name)
  then Err (OutboxError.InvalidQueueName "must be 1-1024 bytes")
  else if negb (from_option is_alphanumeric false (head (bytes name))) || negb (from_option is_alphanumeric false (last (bytes name)))
  then Err (OutboxError.InvalidQueueName "must start and end with an ASCII alphanumeric")
  else if forallb queue_char (bytes name) then Ok tt
  else Err (OutboxError.InvalidQueueName "must contain only ASCII alphanumerics, '.', '_' and '-'").

Definition validate_payload_type (payload_type : string) : result OutboxError unit :=
  if (byte_len payload_type =? 0) || (MAX_PAYLOAD_TYPE_LEN <? byte_len payload_type)
  then Err (OutboxError.InvalidPayloadType "must be 1-1024 bytes")
  else if forallb is_printable (bytes payload_type) then Ok tt
  else Err (OutboxError.InvalidPayloadType "must contain only printable ASCII (0x20-0x7E)").

Definition validate_trace (trace : string) : result OutboxError unit :=
  if byte_len trace =? 0 then Err (OutboxError.InvalidTrace "must not be empty")
  else if MAX_TRACE_LEN <? byte_len trace then Err (OutboxError.TraceTooLong (byte_len trace) MAX_TRACE_LEN)
  else if forallb is_printable (bytes trace) then Ok tt
  else Err (OutboxError.InvalidTrace "must contain only printable ASCII (0x20-0x7E)").

Definition validate_payload (payload : Payload) : result OutboxError unit :=
  if MAX_PAYLOAD_SIZE <? Z.of_nat (length payload)
  then Err (OutboxError.PayloadTooLarge (Z.of_nat (length payload)) MAX_PAYLOAD_SIZE) else Ok tt.

Record RecordItem := mkRecordItem { ri_partition : Z; ri_payload : Payload; ri_payload_type : string }.

(** A built batch ([Records]). *)
Record Records := mkRecords { rs_queue : string; rs_items : list RecordItem; rs_trace : option string }.

Definition validate_item (item : RecordItem) : result OutboxError unit :=
  _ ← validate_payload_type (ri_payload_type item);
  validate_payload (ri_payload item).

(** [RecordsBuilder::build]. *)
Definition records_build (queue : string) (items : list RecordItem) (trace : option string) : result OutboxError Records :=
  _ ← validate_queue_name queue;
  _ ← match trace with
      | None => Ok tt
      | Some t => _ ← validate_trace t; if (length items =? 0)%nat then Err OutboxError.EmptyTracedBatch else Ok tt
      end;
  _ ← map_res validate_item items;
  Ok (mkRecords queue items trace).

(** [RecordBuilder::build]: the batch of one record. *)
Definition record_build (queue : string) (item : RecordItem) (trace : option string) : result OutboxError Records :=
  _ ← validate_queue_name queue;
  _ ← validate_payload_type (ri_payload_type item);
  _ ← validate_payload (ri_payload item);
  _ ← match trace with None => Ok tt | Some t => validate_trace t end;
  Ok (mkRecords queue [item] trace).

(** ** Enqueue *)

(** The partition cache: the identifiers of the partitions of each queue. *)
Abbreviation Partitions := (gmap string (list Z)).

Definition resolve_partition (cache : Partitions) (queue : string) (partition : Z) : result OutboxError Z :=
  match cache !! queue with
  | None => Err (OutboxError.QueueNotRegistered queue)
  | Some ids =>
      match ids !! Z.to_nat partition with
      | None => Err (OutboxError.PartitionOutOfRange queue partition (Z.of_nat (length ids)))
      | Some id => Ok id
      end
  end.

Definition BATCH_CHUNK_SIZE : nat := 100.

(** [slice::chunks]; the fuel is the length of the list. *)
Fixpoint chunks_of {A} (fuel n : nat) (l : list A) : list (list A) :=
  match fuel, l with
  | S fuel, _ :: _ => take n l :: chunks_of fuel n (drop n l)
  | _, _ => []
  end.

Definition insert_trace_row (trace instance queue : string) (entities : Z) (db : OutboxDb) : OutboxDb :=
  with_trace (fun t => t ++ [mkTraceRow trace instance queue entities entities 0 0 None None None None]) db.

(** One multi-row INSERT. *)
Definition insert_rows {R} (rows : list R) (t : list R) : list R := t ++ rows.

(** [insert_batch_on_conn]: the bodies, then the incoming rows, in chunks.  The
    database assigns the identifiers [body_ids] and [incoming_ids]. *)
Definition insert_batch_on_conn (body_ids incoming_ids partition_ids : list Z) (created_at : Z) (items : list RecordItem)
    (trace : option string) (db : OutboxDb) : OutboxDb :=
  let bodies := zip_with (fun id item => mkBodyRow id (ri_payload item) (ri_payload_type item) created_at trace) body_ids items in
  let incoming := zip_with (fun id pb => mkIncomingRow id pb.1 pb.2) incoming_ids (zip partition_ids body_ids) in
  let db1 := fold_left (fun db chunk => with_body (insert_rows chunk) db) (chunks_of (length bodies) BATCH_CHUNK_SIZE bodies) db in
  fold_left (fun db chunk => with_incoming (insert_rows chunk) db) (chunks_of (length incoming) BATCH_CHUNK_SIZE incoming) db1.

(** The partitions a batch touches, sorted and without duplicates. *)
Definition sort_dedup (l : list Z) : list Z := order_by id (elements (list_to_set l : gset Z)).

(** [enqueue_batch]: the database it leaves, the identifiers of the messages and the
    partitions to be marked dirty once the transaction has committed. *)
Definition enqueue_batch (cache : Partitions) (instance : string) (body_ids incoming_ids : list Z) (created_at : Z)
    (batch : Records) (db : OutboxDb) : result OutboxError (OutboxDb * list Z * list Z) :=
  resolved ← map_res (fun item => resolve_partition cache (rs_queue batch) (ri_partition item)) (rs_items batch);
  db1 ← match rs_trace batch with
        | None => Ok db
        | Some trace =>
            let entities := Z.of_nat (length (rs_items batch)) in
            if 2 ^ 63 - 1 <? entities then Err (OutboxError.TracedBatchTooLarge entities)
            else Ok (insert_trace_row trace instance (rs_queue batch) entities db)
        end;
  Ok (insert_batch_on_conn body_ids incoming_ids resolved created_at (rs_items batch) (rs_trace batch) db1,
      incoming_ids, sort_dedup resolved).

(** ** Lemmas *)

Lemma chunks_of_concat {A} fuel n (l : list A) : (0 < n)%nat -> (length l <= fuel)%nat -> mjoin (chunks_of fuel n l) = l.
Proof.
  intros Hn. revert l. induction fuel as [|fuel IH]; intros [|x l] Hl; try done; [cbn in Hl; lia|].
  change (mjoin (chunks_of (S fuel) n (x :: l))) with (take n (x :: l) ++ mjoin (chunks_of fuel n (drop n (x :: l)))).
  rewrite IH; [apply take_drop|]. rewrite length_drop. cbn in Hl |- *. lia.
Qed.

Lemma insert_body_chunks chunks db :
  fold_left (fun db chunk => with_body (insert_rows chunk) db) chunks db = with_body (insert_rows (mjoin chunks)) db.
Proof.
  revert db. induction chunks as [|c chunks IH]; intros db; cbn [fold_left].
  - unfold with_body, insert_rows. rewrite app_nil_r. by destruct db.
  - rewrite IH. unfold with_body, insert_rows. cbn. by rewrite app_assoc.
Qed.

Lemma insert_incoming_chunks chunks db :
  fold_left (fun db chunk => with_incoming (insert_rows chunk) db) chunks db = with_incoming (insert_rows (mjoin chunks)) db.
Proof.
  revert db. induction chunks as [|c chunks IH]; intros db; cbn [fold_left].
  - unfold with_incoming, insert_rows. rewrite app_nil_r. by destruct db.
  - rewrite IH. unfold with_incoming, insert_rows. cbn. by rewrite app_assoc.
Qed.

(** Writing in chunks is writing all rows. *)
Lemma insert_batch_rows body_ids incoming_ids partition_ids created_at items trace db :
  insert_batch_on_conn body_ids incoming_ids partition_ids created_at items trace db =
  with_incoming (insert_rows (zip_with (fun id pb => mkIncomingRow id pb.1 pb.2) incoming_ids (zip partition_ids body_ids)))
    (with_body (insert_rows (zip_with (fun id item =>
       mkBodyRow id (ri_payload item) (ri_payload_type item) created_at trace) body_ids items)) db).
Proof.
  unfold insert_batch_on_conn. rewrite insert_body_chunks, insert_incoming_chunks.
  by rewrite !chunks_of_concat by (done || unfold BATCH_CHUNK_SIZE; lia).
Qed.
