(* ===== verification/OutboxWorkers.v ===== *)
(** * The workers of the outbox: [libs/toolkit-db/src/outbox]:
      [workers/sequencer.rs], [workers/processor.rs], [workers/vacuum.rs],
      [strategy.rs], [batch.rs], [handler.rs], [trace.rs], [store.rs], [statements.rs]

    The sequencer numbers the incoming rows of a partition.  A processor hands the next
    messages of its partition to a handler, either under a time-limited lease or inside
    its transaction, and moves the cursor by what was handled; rejected messages become
    dead letters.  Traced batches are counted down, and the vacuum deletes what is
    behind the cursor.  This file is the code of the workers; their guarantees are in
    the files on delivery. *)

From S2P Require Import Prelude BTree Sql Retry OutboxModel.

(** ** The sequencer *)

Module PartitionError.
Inductive partition_error :=
| Skipped
| Db (e : OutboxError).
End PartitionError.
Abbreviation PartitionError := PartitionError.partition_error.

Definition in_list (ids : list Z) (id : Z) : bool := bool_decide (id ∈ ids).

(** SELECT then DELETE, in the order of the identifiers. *)
Definition claim_incoming_for_partition (batch_size partition_id : Z) (db : OutboxDb) : list IncomingRow * OutboxDb :=
  let rows := sql_select in_id (fun r => in_partition_id r =? partition_id) batch_size (db_incoming db) in
  (rows, with_incoming (sql_delete (fun r => in_list (in_id <$> rows) (in_id r))) db).

(** [UPDATE .. SET sequence = sequence + n RETURNING sequence - n]. *)
Definition allocate_sequences (partition_id count : Z) (db : OutboxDb) : result OutboxError (Z * OutboxDb) :=
  match List.filter (fun r => pt_id r =? partition_id) (db_partitions db) with
  | [] => Err (OutboxError.Database (DbErr.Custom "UPDATE RETURNING returned no row for sequence allocation"))
  | r :: _ => Ok (pt_sequence r, with_partitions (fun t => (sql_update (fun r => pt_id r =? partition_id)
      (fun r => mkPartitionRow (pt_id r) (pt_queue r) (pt_sequence r + count)) t).1) db)
  end.

(** The outgoing rows of a claim, numbered from [start_seq + 1]; the database assigns
    their identifiers [ids]. *)
Definition outgoing_rows (partition_id start_seq : Z) (ids : list Z) (claimed : list IncomingRow) : list OutgoingRow :=
  zip_with (fun id ir => mkOutgoingRow id partition_id (in_body_id ir.2) (start_seq + 1 + Z.of_nat ir.1))
    ids (imap (fun i r => (i, r)) claimed).

(** One transaction of the drain loop: the claimed rows and the committed database.
    [locked] says whether the partition row could be locked. *)
Definition sequence_tx (batch_size partition_id : Z) (locked : bool) (ids : list Z) (db : OutboxDb) :
    result PartitionError (list IncomingRow * OutboxDb) :=
  if negb locked then Err PartitionError.Skipped
  else
    let '(claimed, db1) := claim_incoming_for_partition batch_size partition_id db in
    match claimed with
    | [] => Ok ([], db)
    | _ =>
        '(start_seq, db2) ← map_err PartitionError.Db (allocate_sequences partition_id (Z.of_nat (length claimed)) db1);
        Ok (claimed, with_outgoing (insert_rows (outgoing_rows partition_id start_seq ids claimed)) db2)
    end.

(** What surrounds one iteration of the loop: the shutdown flag, the lock, the
    identifiers and what other transactions did to the database since the last one. *)
Record SeqEnv := mkSeqEnv {
  se_cancelled : bool;
  se_locked : bool;
  se_ids : list Z;
  se_others : OutboxDb -> OutboxDb;
}.

Record PartitionProcessResult := mkPartitionProcessResult { pp_drained : bool; pp_rows_claimed : Z }.

(** [process_partition]: the loop over [max_inner_iterations] environments. *)
Fixpoint sequence_loop (batch_size partition_id : Z) (envs : list SeqEnv) (drained : bool) (total : Z) (db : OutboxDb) :
    OutboxDb * result PartitionError PartitionProcessResult :=
  match envs with
  | [] => (db, Ok (mkPartitionProcessResult drained total))
  | env :: envs =>
      if se_cancelled env then (db, Ok (mkPartitionProcessResult false total))
      else
        let db := se_others env db in
        match sequence_tx batch_size partition_id (se_locked env) (se_ids env) db with
        | Err e => (db, Err e)
        | Ok ([], _) => (db, Ok (mkPartitionProcessResult true total))
        | Ok (claimed, db') =>
            let total := total + Z.of_nat (length claimed) in
            if Z.of_nat (length claimed) <? batch_size then (db', Ok (mkPartitionProcessResult true total))
            else sequence_loop batch_size partition_id envs false total db'
        end
  end.

Definition process_partition (batch_size partition_id : Z) (envs : list SeqEnv) (db : OutboxDb) :
    OutboxDb * result PartitionError PartitionProcessResult :=
  sequence_loop batch_size partition_id envs true 0 db.

(** ** Messages *)

Record OutboxMessage := mkOutboxMessage {
  om_partition_id : Z;
  om_seq : Z;
  om_payload : Payload;
  om_payload_type : string;
  om_created_at : Z;
  om_attempts : Z;
}.

(** The trace of each traced message, by its number. *)
Abbreviation TraceIds := (gmap Z string).

Definition find_body (id : Z) (t : list BodyRow) : option BodyRow := List.find (fun b => bd_id b =? id) t.

Definition body_missing (row : OutgoingRow) : DbErr :=
  DbErr.Custom ("body row " +:+ pretty (og_body_id row) +:+ " not found for outgoing " +:+ pretty (og_id row)).

Definition read_message (partition_id attempts : Z) (db : OutboxDb) (row : OutgoingRow) : result OutboxError (OutboxMessage * option string) :=
  body ← ok_or (find_body (og_body_id row) (db_body db)) (OutboxError.Database (body_missing row));
  Ok (mkOutboxMessage partition_id (og_seq row) (bd_payload body) (bd_payload_type body) (bd_created_at body) attempts, bd_trace body).

Definition collect_traces (msgs : list (OutboxMessage * option string)) : TraceIds :=
  foldr (fun m acc => match m.2 with Some t => <[om_seq m.1 := t]> acc | None => acc end) ∅ msgs.

(** [read_messages]: the next messages after the cursor. *)
Definition read_messages (partition_id processed_seq attempts msg_batch_size : Z) (db : OutboxDb) :
    result OutboxError (list OutboxMessage * TraceIds) :=
  let rows := sql_select og_seq (fun r => (og_partition_id r =? partition_id) && (processed_seq <? og_seq r))
                msg_batch_size (db_outgoing db) in
  msgs ← map_res (read_message partition_id attempts db) rows;
  Ok (msgs.*1, collect_traces msgs).

(** ** Handlers *)

Module HandlerResult.
Inductive handler_result := Success | Retry (reason : string) | Reject (reason : string).
End HandlerResult.
Abbreviation HandlerResult := HandlerResult.handler_result.

Module MessageResult.
Inductive message_result := Ok | Retry | Reject (reason : string).
End MessageResult.
Abbreviation MessageResult := MessageResult.message_result.

Record Rejection := mkRejection { rj_index : nat; rj_reason : string }.

Record Batch := mkBatch {
  b_msgs : list OutboxMessage;
  b_cursor : nat;
  b_processed : Z;
  b_rejections : list Rejection;
}.

Definition batch_new (msgs : list OutboxMessage) : Batch := mkBatch msgs 0 0 [].

Definition next_msg (b : Batch) : Batch * option OutboxMessage :=
  match b_msgs b !! b_cursor b with
  | Some msg => (mkBatch (b_msgs b) (S (b_cursor b)) (b_processed b) (b_rejections b), Some msg)
  | None => (b, None)
  end.

Definition next_chunk (n : nat) (b : Batch) : Batch * list OutboxMessage :=
  let stop := Nat.min (b_cursor b + n) (length (b_msgs b)) in
  (mkBatch (b_msgs b) stop (b_processed b) (b_rejections b), take (stop - b_cursor b) (drop (b_cursor b) (b_msgs b))).

Definition batch_ack (b : Batch) : Batch := mkBatch (b_msgs b) (b_cursor b) (b_processed b + 1) (b_rejections b).

Definition ack_chunk (count : Z) (b : Batch) : Batch := mkBatch (b_msgs b) (b_cursor b) (b_processed b + count) (b_rejections b).

Definition batch_reject (reason : string) (b : Batch) : Batch :=
  mkBatch (b_msgs b) (b_cursor b) (b_processed b + 1) (b_rejections b ++ [mkRejection (b_cursor b - 1) reason]).

(** The blanket handler of a [LeasedMessageHandler].  [should_stop n] is the answer of
    [should_stop] after [n] messages; the future is dropped after [cut] completed calls,
    if it is dropped at all.  The list returned is the messages whose handler answered
    that it processed them. *)
Fixpoint handle_each (handle : OutboxMessage -> MessageResult) (should_stop : nat -> bool) (cut : option nat)
    (fuel n : nat) (b : Batch) : Batch * option HandlerResult * list OutboxMessage :=
  match fuel with
  | O => (b, Some HandlerResult.Success, [])
  | S fuel =>
      match next_msg b with
      | (b', None) => (b', Some HandlerResult.Success, [])
      | (b', Some msg) =>
          if bool_decide (cut = Some n) then (b', None, [])
          else
            match handle msg with
            | MessageResult.Retry => (b', Some (HandlerResult.Retry "message handler returned Retry"), [])
            | MessageResult.Ok =>
                let b'' := batch_ack b' in
                if should_stop (S n) then (b'', Some HandlerResult.Success, [msg])
                else let '(b3, r, log) := handle_each handle should_stop cut fuel (S n) b'' in (b3, r, msg :: log)
            | MessageResult.Reject reason =>
                let b'' := batch_reject reason b' in
                if should_stop (S n) then (b'', Some HandlerResult.Success, [])
                else handle_each handle should_stop cut fuel (S n) b''
            end
      end
  end.

(** What a handler made of a batch: its result, how many messages it processed, which
    it rejected, and (for the statements only) which it processed successfully. *)
Record Outcome := mkOutcome {
  oc_result : HandlerResult;
  oc_processed : Z;
  oc_rejections : list Rejection;
  oc_log : list OutboxMessage;
}.

(** The call of the handler in [LeasedStrategy::process]: a dropped future is a retry
    for the reason given by what dropped it. *)
Definition run_leased (handle : OutboxMessage -> MessageResult) (should_stop : nat -> bool) (cut : option nat)
    (dropped_for : string) (msgs : list OutboxMessage) : Outcome :=
  let '(b, r, log) := handle_each handle should_stop cut (S (length msgs)) 0 (batch_new msgs) in
  mkOutcome (default (HandlerResult.Retry dropped_for) r) (b_processed b) (b_rejections b) log.

(** ** Traces *)

Record TraceCountdown := mkTraceCountdown { tc_trace : string; tc_terminal : Z; tc_failures : Z }.

Record TraceOutcome := mkTraceOutcome {
  to_trace : string;
  to_entities : Z;
  to_failures : Z;
  to_attempts : Z;
  to_completed_at : option Z;
}.

Module TraceAdvance.
Inductive trace_advance := Completed | StillPending | NotAffected | Unknown.
End TraceAdvance.
Abbreviation TraceAdvance := TraceAdvance.trace_advance.

(** The hash map is sorted by trace before it is used: a sorted association list. *)
Definition trace_progress (msgs : list OutboxMessage) (trace_ids : TraceIds) (upto_seq : Z) (failed : gset Z) : list TraceCountdown :=
  let per_trace := fold_left (fun m msg =>
    match trace_ids !! om_seq msg with
    | None => m
    | Some trace =>
        let '(terminal, failures) := default (0, 0) (bt_get String.compare trace m) in
        bt_insert String.compare trace (terminal + 1, if bool_decide (om_seq msg ∈ failed) then failures + 1 else failures) m
    end) (List.filter (fun m => om_seq m <=? upto_seq) msgs) [] in
  (fun e => mkTraceCountdown e.1 e.2.1 e.2.2) <$> per_trace.

(** [UPDATE trace SET pending = pending - n, .. WHERE trace = .. AND pending > 0]; the
    two dialects write the same new values. *)
Definition trace_advance_row (now terminal failures : Z) (r : TraceRow) : TraceRow :=
  let pending := tr_pending r - terminal in
  mkTraceRow (tr_trace r) (tr_owner_instance r) (tr_queue r) (tr_entities r) pending (tr_failures r + failures)
    (if pending <=? 0 then tr_attempts r else 0) None None
    (if pending <=? 0 then Some now else tr_completed_at r) (tr_notified_at r).

Definition advances (trace : string) (r : TraceRow) : bool := bool_decide (tr_trace r = trace) && (0 <? tr_pending r).

Definition exec_trace_advance (returning : bool) (now : Z) (c : TraceCountdown) (db : OutboxDb) : OutboxDb * TraceAdvance :=
  let cond := advances (tc_trace c) in
  let db' := with_trace (fun t => (sql_update cond (trace_advance_row now (tc_terminal c) (tc_failures c)) t).1) db in
  (db', match List.filter cond (db_trace db) with
        | [] => TraceAdvance.NotAffected
        | r :: _ => if negb returning then TraceAdvance.Unknown
                    else if tr_pending r - tc_terminal c <=? 0 then TraceAdvance.Completed else TraceAdvance.StillPending
        end).

Definition deliverable (trace instance : string) (r : TraceRow) : bool :=
  bool_decide (tr_trace r = trace) && (tr_pending r <=? 0) && negb (bool_decide (is_Some (tr_notified_at r))) &&
  bool_decide (tr_owner_instance r = instance).

(** The stamp of [notified_at], and the outcome read from the stamped row. *)
Definition exec_claim_trace_mail (now : Z) (trace instance : string) (db : OutboxDb) : OutboxDb * option TraceOutcome :=
  (with_trace (fun t => (sql_update (deliverable trace instance)
     (fun r => mkTraceRow (tr_trace r) (tr_owner_instance r) (tr_queue r) (tr_entities r) (tr_pending r) (tr_failures r)
        (tr_attempts r) (tr_last_error r) (tr_retrying_since r) (tr_completed_at r) (Some now)) t).1) db,
   match List.filter (deliverable trace instance) (db_trace db) with
   | [] => None
   | r :: _ => Some (mkTraceOutcome (tr_trace r) (tr_entities r) (tr_failures r) (tr_attempts r) (tr_completed_at r))
   end).

Definition advance_and_claim (returning : bool) (now : Z) (instance : string) (acc : OutboxDb * list TraceOutcome) (c : TraceCountdown) :
    OutboxDb * list TraceOutcome :=
  let '(db1, advanced) := exec_trace_advance returning now c acc.1 in
  match advanced with
  | TraceAdvance.StillPending | TraceAdvance.NotAffected => (db1, acc.2)
  | TraceAdvance.Completed | TraceAdvance.Unknown =>
      let '(db2, outcome) := exec_claim_trace_mail now (tc_trace c) instance db1 in
      (db2, acc.2 ++ option_list outcome)
  end.

Definition apply_trace_progress (returning : bool) (now : Z) (instance : string) (progress : list TraceCountdown) (db : OutboxDb) :
    OutboxDb * list TraceOutcome :=
  fold_left (advance_and_claim returning now instance) progress (db, []).

Definition traces_beyond (msgs : list OutboxMessage) (trace_ids : TraceIds) (upto_seq : Z) : TraceIds :=
  filter (fun kv => upto_seq < kv.1 /\ kv.1 ∈ om_seq <$> msgs) trace_ids.

(** One UPDATE per distinct trace, in the order of the traces. *)
Definition record_trace_retry (now : Z) (trace_ids : TraceIds) (reason : string) (db : OutboxDb) : OutboxDb :=
  fold_left (fun db trace => with_trace (fun t => (sql_update
    (fun r => bool_decide (tr_trace r = trace) && negb (bool_decide (is_Some (tr_completed_at r))))
    (fun r => mkTraceRow (tr_trace r) (tr_owner_instance r) (tr_queue r) (tr_entities r) (tr_pending r) (tr_failures r)
       (tr_attempts r + 1) (Some reason) (Some (default now (tr_retrying_since r))) (tr_completed_at r) (tr_notified_at r)) t).1) db)
    (fst <$> fold_left (fun m kv => bt_insert String.compare kv.2 tt m) (map_to_list trace_ids) []) db.

Definition rejected_seqs (msgs : list OutboxMessage) (rejections : list Rejection) : gset Z :=
  list_to_set (omap (fun rej => om_seq <$> msgs !! rj_index rej) rejections).

(** ** Statements on the processor row *)

Definition of_partition (partition_id : Z) (r : ProcessorRow) : bool := pr_partition_id r =? partition_id.

Definition leased_to (partition_id : Z) (lease_id : string) (r : ProcessorRow) : bool :=
  of_partition partition_id r && bool_decide (pr_locked_by r = Some lease_id).

Definition bump_vacuum_counter (partition_id : Z) (db : OutboxDb) : OutboxDb :=
  with_vacuum (fun t => (sql_update (fun r => vc_partition_id r =? partition_id)
    (fun r => mkVacuumRow (vc_partition_id r) (vc_counter r + 1)) t).1) db.

(** [UPDATE .. SET processed_seq, attempts = 0, last_error = NULL]. *)
Definition advance_processed_seq (partition_id seq : Z) (db : OutboxDb) : OutboxDb :=
  with_processor (fun t => (sql_update (of_partition partition_id)
    (fun r => mkProcessorRow (pr_partition_id r) seq 0 None (pr_locked_by r) (pr_locked_until r)) t).1) db.

(** [attempts = attempts + 1] on the SMALLINT column: the statement fails when the value
    leaves the column's range, and the transaction is rolled back.  (SQLite stores the
    value; there it is the read of the column that fails.) *)
Definition I16_MAX : Z := 2 ^ 15 - 1.

Definition bump_attempts (cond : ProcessorRow -> bool) (db : OutboxDb) : result OutboxError unit :=
  if existsb (fun r => cond r && (I16_MAX <? pr_attempts r + 1)) (db_processor db)
  then Err (OutboxError.Database (DbErr.Custom "attempts column: out of range")) else Ok tt.

Definition record_retry_tx (partition_id : Z) (reason : string) (db : OutboxDb) : result OutboxError OutboxDb :=
  _ ← bump_attempts (of_partition partition_id) db;
  Ok (with_processor (fun t => (sql_update (of_partition partition_id)
    (fun r => mkProcessorRow (pr_partition_id r) (pr_processed_seq r) (pr_attempts r + 1) (Some reason) (pr_locked_by r)
       (pr_locked_until r)) t).1) db).

Definition insert_dead_letter (partition_id : Z) (reason : string) (trace_ids : TraceIds) (msg : OutboxMessage) (db : OutboxDb) : OutboxDb :=
  with_dead (insert_rows [mkDeadLetterRow partition_id (om_seq msg) (om_payload msg) (om_payload_type msg) (om_created_at msg)
    reason (om_attempts msg) (trace_ids !! om_seq msg)]) db.

Definition insert_dead_letters (partition_id : Z) (reason : string) (trace_ids : TraceIds) (msgs : list OutboxMessage) (db : OutboxDb) : OutboxDb :=
  fold_left (fun db msg => insert_dead_letter partition_id reason trace_ids msg db) msgs db.

(** The lease is taken when it is free or expired on the database clock. *)
Definition lease_free (now : Z) (r : ProcessorRow) : bool :=
  negb (bool_decide (is_Some (pr_locked_by r))) || from_option (fun until => until <? now) false (pr_locked_until r).

Definition exec_lease_acquire (partition_id : Z) (lease_id : string) (lease_secs now : Z) (db : OutboxDb) :
    result OutboxError (OutboxDb * option (Z * Z)) :=
  let cond := fun r => of_partition partition_id r && lease_free now r in
  _ ← bump_attempts cond db;
  Ok (with_processor (fun t => (sql_update cond (fun r => mkProcessorRow (pr_partition_id r) (pr_processed_seq r) (pr_attempts r + 1)
        (pr_last_error r) (Some lease_id) (Some (now + lease_secs * 1000000))) t).1) db,
      match List.filter cond (db_processor db) with
      | [] => None
      | r :: _ => Some (pr_processed_seq r, pr_attempts r + 1)
      end).

Definition lease_release (partition_id : Z) (lease_id : string) (db : OutboxDb) : OutboxDb :=
  with_processor (fun t => (sql_update (leased_to partition_id lease_id)
    (fun r => mkProcessorRow (pr_partition_id r) (pr_processed_seq r) 0 (pr_last_error r) None None) t).1) db.

Definition lease_ack_advance (partition_id seq : Z) (lease_id : string) (db : OutboxDb) : OutboxDb * Z :=
  let '(t, n) := sql_update (leased_to partition_id lease_id)
    (fun r => mkProcessorRow (pr_partition_id r) seq 0 None None None) (db_processor db) in
  (with_processor (fun _ => t) db, n).

Definition lease_record_retry (partition_id : Z) (reason lease_id : string) (db : OutboxDb) : OutboxDb * Z :=
  let '(t, n) := sql_update (leased_to partition_id lease_id)
    (fun r => mkProcessorRow (pr_partition_id r) (pr_processed_seq r) (pr_attempts r) (Some reason) None None) (db_processor db) in
  (with_processor (fun _ => t) db, n).

(** ** The leased strategy *)

(** The first transaction: take the lease and read.  The counter of attempts was
    incremented by the statement; the handler sees the value before. *)
Definition acquire_and_read (partition_id : Z) (lease_id : string) (lease_secs now msg_batch_size : Z) (db : OutboxDb) :
    result OutboxError (OutboxDb * option (list OutboxMessage * TraceIds)) :=
  '(db1, leased) ← exec_lease_acquire partition_id lease_id lease_secs now db;
  match leased with
  | None => Ok (db1, None)
  | Some (processed_seq, attempts) =>
      msgs ← read_messages partition_id processed_seq (Z.max (attempts - 1) (- 2 ^ 15)) msg_batch_size db1;
      Ok (db1, Some msgs)
  end.

(** With nothing to do the lease is given back by a second statement. *)
Definition acquire_lease_and_read (partition_id : Z) (lease_id : string) (lease_secs now msg_batch_size : Z) (db : OutboxDb) :
    result OutboxError (OutboxDb * option (list OutboxMessage * TraceIds)) :=
  '(db1, r) ← acquire_and_read partition_id lease_id lease_secs now msg_batch_size db;
  match r with
  | None => Ok (db1, None)
  | Some ([], _) => Ok (lease_release partition_id lease_id db1, None)
  | Some _ => Ok (db1, r)
  end.

(** [msgs[rej.index]] panics when the index is out of range. *)
Definition persist_rejections (partition_id : Z) (msgs : list OutboxMessage) (rejections : list Rejection) (trace_ids : TraceIds)
    (db : OutboxDb) : option OutboxDb :=
  fold_left (fun acc rej => db ← acc; msg ← msgs !! rj_index rej;
    Some (insert_dead_letter partition_id (rj_reason rej) trace_ids msg db)) rejections (Some db).

Definition advance_cursor (partition_id seq : Z) (lease_id : string) (db : OutboxDb) : OutboxDb * bool :=
  if seq =? 0 then (lease_release partition_id lease_id db, true)
  else
    let '(db1, n) := lease_ack_advance partition_id seq lease_id db in
    if n =? 0 then (db1, false) else (bump_vacuum_counter partition_id db1, true).

Definition processed_advance_seq (msgs : list OutboxMessage) (processed : Z) : Z :=
  if (0 <? processed) && (processed <=? Z.of_nat (length msgs))
  then from_option om_seq 0 (msgs !! Z.to_nat (processed - 1)) else 0.

Record ProcessResult := mkProcessResult { ps_count : Z; ps_handler_result : HandlerResult; ps_processed_count : option Z }.

(** The cursor part of the ack: the database, whether the lease was still held, and
    the completions to deliver. *)
Definition ack_leased (returning : bool) (now : Z) (instance : string) (partition_id : Z) (msgs : list OutboxMessage) (trace_ids : TraceIds)
    (lease_id : string) (result : HandlerResult) (processed : Z) (rejected : gset Z) (db : OutboxDb) :
    OutboxDb * bool * list TraceOutcome :=
  match result with
  | HandlerResult.Success =>
      let seq := processed_advance_seq msgs processed in
      let '(db1, ok) := advance_cursor partition_id seq lease_id db in
      if ok then
        let '(db2, claimed) := apply_trace_progress returning now instance (trace_progress msgs trace_ids seq rejected) db1 in
        (db2, true, claimed)
      else (db1, false, [])
  | HandlerResult.Retry reason =>
      let seq := processed_advance_seq msgs processed in
      if 0 <? seq then
        let '(db1, ok) := advance_cursor partition_id seq lease_id db in
        if ok then
          let '(db2, claimed) := apply_trace_progress returning now instance (trace_progress msgs trace_ids seq rejected) db1 in
          (record_trace_retry now (traces_beyond msgs trace_ids seq) reason db2, true, claimed)
        else (db1, false, [])
      else
        let '(db1, n) := lease_record_retry partition_id reason lease_id (record_trace_retry now trace_ids reason db) in
        (db1, 0 <? n, [])
  | HandlerResult.Reject reason =>
      let tail := drop (Nat.min (Z.to_nat processed) (length msgs)) msgs in
      let db0 := insert_dead_letters partition_id reason trace_ids tail db in
      let failed := rejected ∪ list_to_set (om_seq <$> tail) in
      let last_seq := from_option om_seq 0 (last msgs) in
      let '(db1, ok) := advance_cursor partition_id last_seq lease_id db0 in
      if ok then
        let '(db2, claimed) := apply_trace_progress returning now instance (trace_progress msgs trace_ids last_seq failed) db1 in
        (db2, true, claimed)
      else (db1, false, [])
  end.

(** [lease_guarded_ack]: one transaction, rolled back when the lease was lost (or when
    a rejection has no message, where the code panics). *)
Definition lease_guarded_ack (returning : bool) (now : Z) (instance : string) (partition_id : Z) (msgs : list OutboxMessage)
    (trace_ids : TraceIds) (lease_id : string) (oc : Outcome) (db : OutboxDb) : OutboxDb * option ProcessResult * list TraceOutcome :=
  match persist_rejections partition_id msgs (oc_rejections oc) trace_ids db with
  | None => (db, None, [])
  | Some db0 =>
      match ack_leased returning now instance partition_id msgs trace_ids lease_id (oc_result oc) (oc_processed oc)
              (rejected_seqs msgs (oc_rejections oc)) db0 with
      | (_, false, _) => (db, None, [])
      | (db', true, claimed) =>
          (db', Some (mkProcessResult (Z.of_nat (length msgs)) (oc_result oc) (Some (oc_processed oc))), claimed)
      end
  end.

(** ** The transactional strategy *)

(** The handler works on its own tables [D] inside the transaction. *)
Fixpoint per_message {D} (handle : OutboxMessage -> D -> HandlerResult * D) (msgs : list OutboxMessage) (processed : nat) (d : D) :
    HandlerResult * nat * D :=
  match msgs with
  | [] => (HandlerResult.Success, processed, d)
  | msg :: msgs =>
      match handle msg d with
      | (HandlerResult.Success, d') => per_message handle msgs (S processed) d'
      | (r, d') => (r, processed, d')
      end
  end.

(** [ack] of the transactional strategy. *)
Definition ack_transactional (returning : bool) (now : Z) (instance : string) (partition_id : Z) (msgs : list OutboxMessage)
    (trace_ids : TraceIds) (answer : HandlerResult) (db : OutboxDb) : result OutboxError (OutboxDb * list TraceOutcome) :=
  let last_seq := from_option om_seq 0 (last msgs) in
  match answer with
  | HandlerResult.Success =>
      let db1 := bump_vacuum_counter partition_id (advance_processed_seq partition_id last_seq db) in
      Ok (apply_trace_progress returning now instance (trace_progress msgs trace_ids last_seq ∅) db1)
  | HandlerResult.Retry reason =>
      db1 ← record_retry_tx partition_id reason db;
      Ok (record_trace_retry now trace_ids reason db1, [])
  | HandlerResult.Reject reason =>
      let db0 := insert_dead_letters partition_id reason trace_ids msgs db in
      let db1 := bump_vacuum_counter partition_id (advance_processed_seq partition_id last_seq db0) in
      Ok (apply_trace_progress returning now instance (trace_progress msgs trace_ids last_seq (list_to_set (om_seq <$> msgs))) db1)
  end.

(** [TransactionalStrategy::process], one transaction: [locked] says whether the
    processor row could be locked, [stopped] whether shutdown dropped the handler. *)
Definition process_transactional {D} (returning : bool) (now : Z) (instance : string) (partition_id msg_batch_size : Z) (locked stopped : bool)
    (handle : list OutboxMessage -> D -> HandlerResult * option Z * D) (db : OutboxDb) (d : D) :
    result OutboxError (OutboxDb * D * option ProcessResult * list TraceOutcome) :=
  match (if locked then List.find (of_partition partition_id) (db_processor db) else None) with
  | None => Ok (db, d, None, [])
  | Some row =>
      '(msgs, trace_ids) ← read_messages partition_id (pr_processed_seq row) (pr_attempts row) msg_batch_size db;
      match msgs with
      | [] => Ok (db, d, None, [])
      | _ =>
          if stopped then Ok (db, d, None, [])
          else
            let '(result, pc, d') := handle msgs d in
            '(db', claimed) ← ack_transactional returning now instance partition_id msgs trace_ids result db;
            Ok (db', d', Some (mkProcessResult (Z.of_nat (length msgs)) result pc), claimed)
      end
  end.

(** ** The vacuum *)

(** [vacuum_partition] reads the cursor once, then deletes chunk after chunk. *)
Definition read_processed_seq (partition_id : Z) (db : OutboxDb) : option Z :=
  pr_processed_seq <$> List.find (of_partition partition_id) (db_processor db).

Definition delete_chunk (partition_id processed_seq limit : Z) (db : OutboxDb) : OutboxDb * Z :=
  let rows := sql_select og_seq (fun r => (og_partition_id r =? partition_id) && (og_seq r <=? processed_seq)) limit (db_outgoing db) in
  (with_body (sql_delete (fun b => in_list (og_body_id <$> rows) (bd_id b)))
     (with_outgoing (sql_delete (fun r => in_list (og_id <$> rows) (og_id r))) db), Z.of_nat (length rows)).

Definition decrement_vacuum_counter (partition_id snapshot_counter : Z) (db : OutboxDb) : OutboxDb :=
  with_vacuum (fun t => (sql_update (fun r => vc_partition_id r =? partition_id)
    (fun r => mkVacuumRow (vc_partition_id r) (Z.max (vc_counter r - snapshot_counter) 0)) t).1) db.

(** ** The batch size of a processor *)

Module PartitionModeState.
Inductive partition_mode_state := Normal | Degraded (effective_size consecutive_successes : Z).
End PartitionModeState.
Abbreviation PartitionModeState := PartitionModeState.partition_mode_state.

Record PartitionMode := mkPartitionMode { pm_state : PartitionModeState; pm_consecutive_failures : Z }.

Definition partition_mode_new : PartitionMode := mkPartitionMode PartitionModeState.Normal 0.

Definition effective_batch_size (m : PartitionMode) (configured : Z) : Z :=
  match pm_state m with PartitionModeState.Normal => configured | PartitionModeState.Degraded size _ => size end.

Definition u32_saturating_mul (a b : Z) : Z := Z.min (a * b) (2 ^ 32 - 1).

Definition degrade_to (processed_count : option Z) : PartitionModeState :=
  PartitionModeState.Degraded (from_option (fun pc => Z.max pc 1) 1 processed_count) 0.

Definition transition (m : PartitionMode) (result : HandlerResult) (configured : Z) (processed_count : option Z) (threshold : Z) : PartitionMode :=
  match result with
  | HandlerResult.Success =>
      match pm_state m with
      | PartitionModeState.Normal => mkPartitionMode PartitionModeState.Normal 0
      | PartitionModeState.Degraded size successes =>
          let next := Z.min (u32_saturating_mul size 2) configured in
          mkPartitionMode (if configured <=? next then PartitionModeState.Normal
                           else PartitionModeState.Degraded next (successes + 1)) 0
      end
  | HandlerResult.Retry _ =>
      let failures := pm_consecutive_failures m + 1 in
      mkPartitionMode (if threshold <=? failures then degrade_to processed_count else pm_state m) failures
  | HandlerResult.Reject _ => mkPartitionMode (degrade_to processed_count) 0
  end.
