(* ===== verification/OutboxRun.v ===== *)
(** * Runs of the outbox: [libs/toolkit-db/src/outbox]

    Runs of the outbox under leases: callers enqueue, sequencers number, processors
    take leases (which may expire and be taken over), call their handlers and
    acknowledge, crash, and the vacuum sweeps, in any order.  The state carries what
    was enqueued, the order in which it was numbered and what handlers reported done,
    for the statements only.  The file holds the runs, their invariant, and that
    taking, losing and acknowledging leases preserves it. *)

From S2P Require Import Prelude BTree Sql Retry OutboxModel OutboxWorkers.

(** ** Runs *)

(** A processor's pass: the messages it read under its lease. *)
Record Pass := mkPass { pass_partition : Z; pass_msgs : list OutboxMessage; pass_traces : TraceIds }.

Record World := mkWorld {
  ow_db : OutboxDb;
  ow_passes : gmap string Pass;
  ow_sweeps : list (Z * Z);
  ow_enqueued : list (Z * BodyRow);
  ow_history : list (Z * Z);
  ow_log : list OutboxMessage;
}.

Inductive OutboxOp :=
| OEnqueue (cache : Partitions) (instance : string) (body_ids incoming_ids : list Z) (created_at : Z) (batch : Records)
| OSequence (partition_id batch_size : Z) (locked : bool) (ids : list Z)
| OAcquire (worker : string) (partition_id lease_secs now msg_batch_size : Z)
| ORelease (worker : string)
| OFinish (worker : string) (returning : bool) (now : Z) (instance : string) (handler : list OutboxMessage -> Outcome)
| OCrash (worker : string)
| OSweepRead (partition_id : Z)
| OSweep (n : nat) (limit : Z)
| ODecrement (partition_id snapshot_counter : Z).

(** The identifiers the database hands out: distinct and never used before. *)
Definition fresh (used new : list Z) (n : nat) : bool :=
  bool_decide (NoDup new) && bool_decide (length new = n) && forallb (fun id => negb (bool_decide (id ∈ used))) new.

Definition with_db (f : OutboxDb -> OutboxDb) (w : World) : World :=
  mkWorld (f (ow_db w)) (ow_passes w) (ow_sweeps w) (ow_enqueued w) (ow_history w) (ow_log w).

Definition with_passes (f : gmap string Pass -> gmap string Pass) (w : World) : World :=
  mkWorld (ow_db w) (f (ow_passes w)) (ow_sweeps w) (ow_enqueued w) (ow_history w) (ow_log w).

Definition oexec (w : World) (op : OutboxOp) : World :=
  match op with
  | OEnqueue cache instance body_ids incoming_ids created_at batch =>
      let n := length (rs_items batch) in
      match enqueue_batch cache instance body_ids incoming_ids created_at batch (ow_db w),
            map_res (fun item => resolve_partition cache (rs_queue batch) (ri_partition item)) (rs_items batch) with
      | Ok (db', _, _), Ok resolved =>
          if fresh ((fun e => bd_id e.2) <$> ow_enqueued w) body_ids n && fresh (in_id <$> db_incoming (ow_db w)) incoming_ids n
          then mkWorld db' (ow_passes w) (ow_sweeps w)
                 (ow_enqueued w ++ zip resolved (zip_with (fun id item =>
                    mkBodyRow id (ri_payload item) (ri_payload_type item) created_at (rs_trace batch)) body_ids (rs_items batch)))
                 (ow_history w) (ow_log w)
          else w
      | _, _ => w
      end
  | OSequence partition_id batch_size locked ids =>
      match sequence_tx batch_size partition_id locked ids (ow_db w) with
      | Ok (claimed, db') =>
          if fresh (og_id <$> db_outgoing (ow_db w)) ids (length claimed)
          then mkWorld db' (ow_passes w) (ow_sweeps w) (ow_enqueued w)
                 (ow_history w ++ ((fun r => (partition_id, in_body_id r)) <$> claimed)) (ow_log w)
          else w
      | Err _ => w
      end
  | OAcquire worker partition_id lease_secs now msg_batch_size =>
      match ow_passes w !! worker, acquire_and_read partition_id worker lease_secs now msg_batch_size (ow_db w) with
      | None, Ok (db', Some (msgs, trace_ids)) =>
          with_passes (<[worker := mkPass partition_id msgs trace_ids]>) (with_db (fun _ => db') w)
      | None, Ok (db', None) => with_db (fun _ => db') w
      | _, _ => w
      end
  | ORelease worker =>
      match ow_passes w !! worker with
      | Some (mkPass partition_id [] _) => with_passes (delete worker) (with_db (lease_release partition_id worker) w)
      | _ => w
      end
  | OFinish worker returning now instance handler =>
      match ow_passes w !! worker with
      | Some (mkPass partition_id (m :: msgs) trace_ids) =>
          let oc := handler (m :: msgs) in
          let '(db', _, _) := lease_guarded_ack returning now instance partition_id (m :: msgs) trace_ids worker oc (ow_db w) in
          mkWorld db' (delete worker (ow_passes w)) (ow_sweeps w) (ow_enqueued w) (ow_history w) (ow_log w ++ oc_log oc)
      | _ => w
      end
  | OCrash worker => with_passes (delete worker) w
  | OSweepRead partition_id =>
      mkWorld (ow_db w) (ow_passes w) (ow_sweeps w ++ option_list (pair partition_id <$> read_processed_seq partition_id (ow_db w)))
        (ow_enqueued w) (ow_history w) (ow_log w)
  | OSweep n limit =>
      match ow_sweeps w !! n with
      | Some (partition_id, processed_seq) => with_db (fun db => (delete_chunk partition_id processed_seq limit db).1) w
      | None => w
      end
  | ODecrement partition_id snapshot_counter => with_db (decrement_vacuum_counter partition_id snapshot_counter) w
  end.

Definition orun (w : World) (ops : list OutboxOp) : World := fold_left oexec ops w.

(** A database in which the partitions [parts] of a queue are registered. *)
Definition registered (queue : string) (parts : list Z) : OutboxDb :=
  mkOutboxDb [] [] [] ((fun p => mkPartitionRow p queue 0) <$> parts)
    ((fun p => mkProcessorRow p 0 0 None None None) <$> parts) ((fun p => mkVacuumRow p 0) <$> parts) [] [].

Definition oinit (queue : string) (parts : list Z) : World := mkWorld (registered queue parts) ∅ [] [] [] [].

(** ** What a handler promises *)

(** It processed a prefix of the messages, each successfully or by a rejection, and
    rejected only messages of the batch. *)
Definition outcome_ok (msgs : list OutboxMessage) (oc : Outcome) : Prop :=
  0 <= oc_processed oc <= Z.of_nat (length msgs) /\
  (forall i m, (i < Z.to_nat (oc_processed oc))%nat -> msgs !! i = Some m ->
     m ∈ oc_log oc \/ exists rej, rej ∈ oc_rejections oc /\ rj_index rej = i) /\
  (forall rej, rej ∈ oc_rejections oc -> (rj_index rej < length msgs)%nat).

Definition op_ok (op : OutboxOp) : Prop :=
  match op with
  | OFinish _ _ _ _ handler => forall msgs, outcome_ok msgs (handler msgs)
  | _ => True
  end.

(** ** Views *)

Definition outs (db : OutboxDb) (p : Z) : list OutgoingRow := List.filter (fun r => og_partition_id r =? p) (db_outgoing db).
Definition ins (db : OutboxDb) (p : Z) : list IncomingRow := List.filter (fun r => in_partition_id r =? p) (db_incoming db).
Definition hist (h : list (Z * Z)) (p : Z) : list Z := snd <$> List.filter (fun e => e.1 =? p) h.
Definition enq (e : list (Z * BodyRow)) (p : Z) : list BodyRow := snd <$> List.filter (fun e => e.1 =? p) e.

(** The elements of a history with their numbers, after the first [k]. *)
Fixpoint number_from (k : Z) (l : list Z) : list (Z * Z) :=
  match l with [] => [] | b :: l => (k + 1, b) :: number_from (k + 1) l end.

Definition out_view (r : OutgoingRow) : Z * Z := (og_seq r, og_body_id r).

Definition cursor (db : OutboxDb) (p : Z) : Z := from_option pr_processed_seq 0 (List.find (of_partition p) (db_processor db)).
Definition holder (db : OutboxDb) (p : Z) : option string := List.find (of_partition p) (db_processor db) ≫= pr_locked_by.

(** The message numbered [s] of the partition [p] is [body]. *)
Definition numbered (w : World) (p s : Z) (body : BodyRow) : Prop :=
  1 <= s /\ hist (ow_history w) p !! Z.to_nat (s - 1) = Some (bd_id body) /\ body ∈ enq (ow_enqueued w) p.

Definition carries (m : OutboxMessage) (body : BodyRow) : Prop :=
  om_payload m = bd_payload body /\ om_payload_type m = bd_payload_type body /\ om_created_at m = bd_created_at body.

Definition dead_of (d : DeadLetterRow) (p s : Z) (body : BodyRow) : Prop :=
  dl_partition_id d = p /\ dl_seq d = s /\ dl_payload d = bd_payload body /\ dl_payload_type d = bd_payload_type body.

(** The message was handled, or is a dead letter. *)
Definition settled (w : World) (p s : Z) : Prop :=
  exists body, numbered w p s body /\
    ((exists m, m ∈ ow_log w /\ om_partition_id m = p /\ om_seq m = s /\ carries m body) \/
     (exists d, d ∈ db_dead (ow_db w) /\ dead_of d p s body)).

(** The [i]-th message of a batch read at cursor [c]. *)
Definition reads (w : World) (p c : Z) (msgs : list OutboxMessage) : Prop :=
  forall i m, msgs !! i = Some m -> om_partition_id m = p /\ om_seq m = c + 1 + Z.of_nat i /\
    exists body, numbered w p (om_seq m) body /\ carries m body.

(** ** The invariant *)

Record oinv (w : World) : Prop := {
  oi_parts : NoDup (pt_id <$> db_partitions (ow_db w));
  oi_procs : NoDup (pr_partition_id <$> db_processor (ow_db w));
  (** every partition's outgoing rows are the tail of its numbered history, and the
      part that was swept is behind the cursor *)
  oi_outs p : exists v : nat, out_view <$> outs (ow_db w) p = number_from (Z.of_nat v) (drop v (hist (ow_history w) p)) /\
     Z.of_nat v <= cursor (ow_db w) p;
  oi_cursor p : 0 <= cursor (ow_db w) p <= Z.of_nat (length (hist (ow_history w) p));
  oi_sequence r : r ∈ db_partitions (ow_db w) -> pt_sequence r = Z.of_nat (length (hist (ow_history w) (pt_id r)));
  oi_sweeps p s : (p, s) ∈ ow_sweeps w -> s <= cursor (ow_db w) p;
  (** nothing enqueued is lost or doubled *)
  oi_enqueued : NoDup ((fun e => bd_id e.2) <$> ow_enqueued w);
  oi_perm p : bd_id <$> enq (ow_enqueued w) p ≡ₚ hist (ow_history w) p ++ (in_body_id <$> ins (ow_db w) p);
  oi_in_ids : NoDup (in_id <$> db_incoming (ow_db w));
  oi_out_ids : NoDup (og_id <$> db_outgoing (ow_db w));
  (** the body of a message is there until the message is swept *)
  oi_bodies p b : b ∈ enq (ow_enqueued w) p ->
    (bd_id b ∈ in_body_id <$> ins (ow_db w) p) \/ (bd_id b ∈ og_body_id <$> outs (ow_db w) p) -> b ∈ db_body (ow_db w);
  oi_body_ids : NoDup (bd_id <$> db_body (ow_db w));
  oi_body_src b : b ∈ db_body (ow_db w) -> exists p, b ∈ enq (ow_enqueued w) p;
  (** the holder of a lease has read what follows the cursor *)
  oi_passes k pass : ow_passes w !! k = Some pass -> holder (ow_db w) (pass_partition pass) = Some k ->
    reads w (pass_partition pass) (cursor (ow_db w) (pass_partition pass)) (pass_msgs pass);
  oi_settled p s : 1 <= s <= cursor (ow_db w) p -> settled w p s;
}.

(** ** Lists *)

Lemma filter_andb {A} (f g : A -> bool) l : List.filter (fun x => f x && g x) l = List.filter g (List.filter f l).
Proof. induction l as [|x l IH]; [done|]. cbn. destruct (f x); cbn; [destruct (g x)|]; by rewrite IH. Qed.

Lemma filter_app_bool {A} (f : A -> bool) l l' : List.filter f (l ++ l') = List.filter f l ++ List.filter f l'.
Proof. induction l as [|x l IH]; [done|]. cbn. destruct (f x); by rewrite IH. Qed.

Lemma filter_fmap {A B} (f : B -> bool) (g : A -> B) l : List.filter f (g <$> l) = g <$> List.filter (fun x => f (g x)) l.
Proof. induction l as [|x l IH]; [done|]. rewrite fmap_cons. cbn [List.filter]. rewrite IH. by destruct (f (g x)). Qed.

Lemma filter_ext_in {A} (f g : A -> bool) l : (forall x, x ∈ l -> f x = g x) -> List.filter f l = List.filter g l.
Proof.
  induction l as [|x l IH]; intros Hfg; [done|]. cbn. rewrite <- Hfg by set_solver. rewrite IH; [done|].
  intros; apply Hfg; set_solver.
Qed.

(** Selecting the rows whose key is small from a sorted list takes a prefix. *)
Lemma filter_le_prefix {A} (key : A -> Z) s l : StronglySorted (fun a b => key a <= key b) l ->
  exists k, List.filter (fun x => key x <=? s) l = take k l.
Proof.
  induction 1 as [|x l Hs IH Hx]; [by exists 0%nat|]. cbn. destruct (Z.leb_spec (key x) s) as [Hle|Hgt].
  - destruct IH as [k Hk]. exists (S k). cbn. by rewrite Hk.
  - exists 0%nat. apply filter_none. intros y Hy. rewrite Forall_forall in Hx. specialize (Hx y Hy). lia.
Qed.

Lemma fmap_sorted {A B} (g : A -> B) (R : B -> B -> Prop) l :
  StronglySorted R (g <$> l) -> StronglySorted (fun a b => R (g a) (g b)) l.
Proof.
  induction l as [|x l IH]; intros Hs; [constructor|]. rewrite fmap_cons in Hs.
  inversion Hs as [|? ? Hs' Hx]; subst. constructor; [by apply IH|]. revert Hx. by rewrite Forall_fmap.
Qed.

(** Deleting the rows of a prefix by their identifiers leaves the rest. *)
Lemma delete_app {A} (key : A -> Z) l1 l2 : NoDup (key <$> l1 ++ l2) ->
  List.filter (fun x => negb (in_list (key <$> l1) (key x))) (l1 ++ l2) = l2.
Proof.
  intros Hnd. rewrite filter_app_bool. rewrite fmap_app in Hnd. apply NoDup_app in Hnd as (_ & Hd & _).
  rewrite filter_none, filter_all; [done| |].
  - intros x Hx. unfold in_list. rewrite bool_decide_false; [done|]. intros Hin. apply (Hd (key x) Hin).
    apply list_elem_of_fmap. by exists x.
  - intros x Hx. unfold in_list. rewrite bool_decide_true; [done|]. apply list_elem_of_fmap. by exists x.
Qed.

(** Rows are determined by their identifiers. *)
Lemma fmap_inj_NoDup {A} (key : A -> Z) l x y : NoDup (key <$> l) -> x ∈ l -> y ∈ l -> key x = key y -> x = y.
Proof.
  intros Hnd (i & Hi)%list_elem_of_lookup (j & Hj)%list_elem_of_lookup Hk.
  assert (i = j) as ->; [|congruence].
  apply (NoDup_lookup (key <$> l) i j (key x)); [done| |]; rewrite list_lookup_fmap, ?Hi, ?Hj; cbn; congruence.
Qed.

Lemma find_fmap {A} (f : A -> bool) (g : A -> A) l : (forall x, f (g x) = f x) -> List.find f (g <$> l) = g <$> List.find f l.
Proof. intros Hfg. induction l as [|x l IH]; [done|]. cbn. rewrite Hfg. by destruct (f x). Qed.

Lemma find_unique {A} (f : A -> bool) (key : A -> Z) k l x : (forall y, f y = (key y =? k)) -> NoDup (key <$> l) ->
  x ∈ l -> key x = k -> List.find f l = Some x.
Proof.
  intros Hf Hnd Hx Hk. destruct (List.find f l) as [y|] eqn:Hy.
  - apply List.find_some in Hy as [Hy Hfy]. rewrite Hf in Hfy. apply Z.eqb_eq in Hfy. f_equal.
    apply (fmap_inj_NoDup key l); [done|by apply list_elem_of_In|done|congruence].
  - apply List.find_none with (x := x) in Hy; [|by apply list_elem_of_In]. rewrite Hf, Hk, Z.eqb_refl in Hy. done.
Qed.

(** ** Numbered histories *)

Lemma number_length k l : length (number_from k l) = length l.
Proof. revert k. induction l as [|b l IH]; intros k; [done|]. cbn. by rewrite IH. Qed.

Lemma number_lookup k l i : number_from k l !! i = (fun b => (k + 1 + Z.of_nat i, b)) <$> l !! i.
Proof.
  revert k i. induction l as [|b l IH]; intros k [|i]; [done|done|cbn; do 2 f_equal; lia|].
  cbn [number_from lookup list_lookup]. rewrite IH. destruct (l !! i); [|done]. cbn. do 2 f_equal. lia.
Qed.

Lemma number_app k l l' : number_from k (l ++ l') = number_from k l ++ number_from (k + Z.of_nat (length l)) l'.
Proof.
  revert k. induction l as [|b l IH]; intros k; cbn; [by rewrite Z.add_0_r|]. rewrite IH. do 3 f_equal. lia.
Qed.

Lemma number_drop k l n : drop n (number_from k l) = number_from (k + Z.of_nat (Nat.min n (length l))) (drop n l).
Proof.
  revert k n. induction l as [|b l IH]; intros k [|n]; cbn; [done|done|by rewrite Z.add_0_r|]. rewrite IH. f_equal. lia.
Qed.

Lemma number_sorted k l : StronglySorted (fun a b => a.1 <= b.1) (number_from k l) /\ Forall (fun e => k < e.1) (number_from k l).
Proof.
  revert k. induction l as [|b l IH]; intros k; cbn; [split; constructor|]. destruct (IH (k + 1)) as [Hs Hf].
  split; constructor; cbn; [done| |lia|]; eapply Forall_impl; try exact Hf; cbn; lia.
Qed.

Lemma number_filter_gt k l c : k <= c -> List.filter (fun e => c <? e.1) (number_from k l) =
  number_from c (drop (Z.to_nat (c - k)) l).
Proof.
  revert k. induction l as [|b l IH]; intros k Hk; [cbn; by rewrite drop_nil|]. cbn [number_from List.filter fst].
  destruct (Z.ltb_spec c (k + 1)) as [Hlt|Hge].
  - replace c with k by lia. rewrite Z.sub_diag. change (Z.to_nat 0) with 0%nat. rewrite drop_0. cbn [number_from]. f_equal.
    apply filter_all. intros e He.
    pose proof (proj2 (number_sorted (k + 1) l)) as Hf. rewrite Forall_forall in Hf. specialize (Hf e He). lia.
  - rewrite IH by lia. replace (Z.to_nat (c - k)) with (S (Z.to_nat (c - (k + 1)))) by lia. done.
Qed.

(** ** Growth *)

Lemma hist_app h h' p : hist (h ++ h') p = hist h p ++ hist h' p.
Proof. unfold hist. by rewrite filter_app_bool, fmap_app. Qed.

Lemma enq_app e e' p : enq (e ++ e') p = enq e p ++ enq e' p.
Proof. unfold enq. by rewrite filter_app_bool, fmap_app. Qed.

Lemma elem_of_enq e p b : b ∈ enq e p <-> (p, b) ∈ e.
Proof.
  unfold enq. rewrite list_elem_of_fmap. split.
  - intros ([q c] & -> & [Hq Hin]%elem_of_filter_bool). apply Z.eqb_eq in Hq. cbn in *. by subst.
  - intros Hin. exists (p, b). split; [done|]. apply elem_of_filter_bool. cbn. by rewrite Z.eqb_refl.
Qed.

(** The records of a world only grow. *)
Definition grows (w w' : World) : Prop :=
  (exists h, ow_history w' = ow_history w ++ h) /\ (exists e, ow_enqueued w' = ow_enqueued w ++ e) /\
  (forall m, m ∈ ow_log w -> m ∈ ow_log w') /\ (forall d, d ∈ db_dead (ow_db w) -> d ∈ db_dead (ow_db w')).

Lemma numbered_grows w w' p s body : grows w w' -> numbered w p s body -> numbered w' p s body.
Proof.
  intros ([h Hh] & [e He] & _) (Hs & Hl & Hb). unfold numbered. rewrite Hh, He, hist_app, enq_app.
  split_and!; [done|by apply lookup_app_l_Some|set_solver].
Qed.

Lemma settled_grows w w' p s : grows w w' -> settled w p s -> settled w' p s.
Proof.
  intros Hg (body & Hn & Hd). pose proof Hg as (_ & _ & Hlog & Hdead). exists body. split; [by eapply numbered_grows|].
  destruct Hd as [(m & Hm & Hrest)|(d & Hd & Hrest)]; [left; exists m|right; exists d]; auto.
Qed.

Lemma reads_grows w w' p c msgs : grows w w' -> reads w p c msgs -> reads w' p c msgs.
Proof.
  intros Hg Hr i m Hm. destruct (Hr i m Hm) as (Hp & Hs & body & Hn & Hc). split_and!; [done|done|].
  exists body. split; [by eapply numbered_grows|done].
Qed.

(** ** The processor row *)

Lemma find_update p cond f (t : list ProcessorRow) : (forall r, pr_partition_id (f r) = pr_partition_id r) ->
  List.find (of_partition p) (sql_update cond f t).1 = (fun r => if cond r then f r else r) <$> List.find (of_partition p) t.
Proof. intros Hf. apply find_fmap. intros r. unfold of_partition. by destruct (cond r); rewrite ?Hf. Qed.

Lemma procs_update cond f (t : list ProcessorRow) : (forall r, pr_partition_id (f r) = pr_partition_id r) ->
  pr_partition_id <$> (sql_update cond f t).1 = pr_partition_id <$> t.
Proof.
  intros Hf. rewrite sql_update_rows, <- list_fmap_compose. apply list_fmap_ext. intros i r _. cbn. by destruct (cond r).
Qed.

(** A condition on one partition selects its row, if at all. *)
Lemma filter_row p cond (t : list ProcessorRow) : NoDup (pr_partition_id <$> t) ->
  (forall r, cond r = true -> pr_partition_id r = p) ->
  List.filter cond t = match List.find (of_partition p) t with Some r => if cond r then [r] else [] | None => [] end.
Proof.
  intros Hnd Hcond. induction t as [|r t IH]; [done|]. rewrite fmap_cons in Hnd. apply NoDup_cons in Hnd as [Hni Hnd].
  cbn [List.filter List.find]. unfold of_partition at 1. destruct (Z.eqb_spec (pr_partition_id r) p) as [Hp|Hp].
  - rewrite (filter_none cond t); [done|]. intros x Hx. destruct (cond x) eqn:Hc; [|done]. exfalso. apply Hni.
    rewrite Hp, <- (Hcond x Hc). apply list_elem_of_fmap. by exists x.
  - destruct (cond r) eqn:Hc; [by apply Hcond in Hc|]. by apply IH.
Qed.

Lemma cursor_update p cond f db : (forall r, pr_partition_id (f r) = pr_partition_id r) ->
  (forall r, pr_processed_seq (f r) = pr_processed_seq r) ->
  cursor (with_processor (fun t => (sql_update cond f t).1) db) p = cursor db p.
Proof.
  intros Hf Hc. unfold cursor. cbn [with_processor db_processor]. rewrite find_update by done.
  destruct (List.find _ _) as [r|]; [|done]. cbn. destruct (cond r); [by rewrite Hc|done].
Qed.

(** The statement fails exactly when the counter of the row it would change is full. *)
Lemma bump_attempts_spec p cond db : NoDup (pr_partition_id <$> db_processor db) ->
  (forall r, cond r = true -> pr_partition_id r = p) ->
  bump_attempts cond db = match List.find (of_partition p) (db_processor db) with
    | Some r => if cond r && (I16_MAX <? pr_attempts r + 1)
                then Err (OutboxError.Database (DbErr.Custom "attempts column: out of range")) else Ok tt
    | None => Ok tt
    end.
Proof.
  intros Hnd Hcond. unfold bump_attempts. set (c := fun r => cond r && _).
  assert (Hc : forall r, c r = true -> pr_partition_id r = p) by (intros r [Hr _]%andb_prop; by apply Hcond).
  replace (existsb c (db_processor db)) with (match List.filter c (db_processor db) with [] => false | _ => true end).
  - rewrite (filter_row p c) by done. destruct (List.find _ _) as [r|]; [|done]. fold (c r). by destruct (c r).
  - generalize (db_processor db). intros l. clear. induction l as [|r l IH]; [done|]. cbn. destruct (c r); [done|]. exact IH.
Qed.

(** The lease statement: it takes the row of the partition, changes nothing, or fails. *)
Lemma acquire_spec p k secs now db : NoDup (pr_partition_id <$> db_processor db) ->
  match exec_lease_acquire p k secs now db with
  | Err _ => exists row, List.find (of_partition p) (db_processor db) = Some row /\ lease_free now row = true /\ I16_MAX < pr_attempts row + 1
  | Ok (db', r) =>
      db' = with_processor (fun _ => db_processor db') db /\
      pr_partition_id <$> db_processor db' = pr_partition_id <$> db_processor db /\
      (forall q, cursor db' q = cursor db q) /\
      match r with
      | None => forall q, holder db' q = holder db q
      | Some (c, _) => c = cursor db p /\ forall q, holder db' q = if decide (q = p) then Some k else holder db q
      end
  end.
Proof.
  intros Hnd. unfold exec_lease_acquire. set (cond := fun r => of_partition p r && lease_free now r).
  set (f := fun r => mkProcessorRow (pr_partition_id r) (pr_processed_seq r) (pr_attempts r + 1) (pr_last_error r) (Some k)
    (Some (now + secs * 1000000))).
  assert (Hcond : forall r, cond r = true -> pr_partition_id r = p).
  { intros r [Hr _]%andb_prop. by apply Z.eqb_eq in Hr. }
  rewrite (filter_row p cond), (bump_attempts_spec p cond) by done.
  assert (Hh : forall q, holder (with_processor (fun t => (sql_update cond f t).1) db) q =
    List.find (of_partition q) (db_processor db) ≫= fun r => if cond r then Some k else pr_locked_by r).
  { intros q. unfold holder. cbn [with_processor db_processor]. rewrite find_update by done.
    destruct (List.find _ _) as [r|]; [|done]. cbn. by destruct (cond r). }
  assert (Hother : forall q, q <> p -> holder (with_processor (fun t => (sql_update cond f t).1) db) q = holder db q).
  { intros q Hq. rewrite Hh. unfold holder. destruct (List.find (of_partition q) (db_processor db)) as [r|] eqn:Hr; [|done].
    apply List.find_some in Hr as [_ Hr%Z.eqb_eq]. cbn. destruct (cond r) eqn:Hc; [|done]. apply Hcond in Hc. congruence. }
  destruct (List.find (of_partition p) (db_processor db)) as [r|] eqn:Hr;
    [destruct (cond r) eqn:Hc; [destruct (Z.ltb_spec I16_MAX (pr_attempts r + 1)) as [Hlt|]|]|]; cbn [andb mbind result_bind];
    try (split; [done|split; [by apply procs_update|split; [intros q; by apply cursor_update|]]]).
  - apply andb_prop in Hc as [_ Hfree]. by exists r.
  - split; [unfold cursor; by rewrite Hr|]. intros q. destruct (decide (q = p)) as [->|Hq]; [|by apply Hother].
    rewrite Hh, Hr. cbn. by rewrite Hc.
  - intros q. destruct (decide (q = p)) as [->|Hq]; [|by apply Hother]. rewrite Hh. unfold holder. rewrite Hr. cbn. by rewrite Hc.
  - intros q. destruct (decide (q = p)) as [->|Hq]; [|by apply Hother]. rewrite Hh. unfold holder. by rewrite Hr.
Qed.

(** A statement on the row a worker holds the lease of: it is done exactly when the
    worker still holds it. *)
Lemma leased_spec p k f db : NoDup (pr_partition_id <$> db_processor db) ->
  (forall r, pr_partition_id (f r) = pr_partition_id r) -> (forall r, pr_locked_by (f r) = None) ->
  let db' := with_processor (fun t => (sql_update (leased_to p k) f t).1) db in
  pr_partition_id <$> db_processor db' = pr_partition_id <$> db_processor db /\
  (forall q, q <> p -> cursor db' q = cursor db q) /\
  (forall q k', holder db' q = Some k' -> holder db q = Some k' /\ (q = p -> k' <> k)) /\
  ((sql_update (leased_to p k) f (db_processor db)).2 = if decide (holder db p = Some k) then 1 else 0) /\
  (if decide (holder db p = Some k)
   then exists r, List.find (of_partition p) (db_processor db) = Some r /\ cursor db' p = pr_processed_seq (f r)
   else cursor db' p = cursor db p).
Proof.
  intros Hnd Hf Hl. cbn zeta.
  assert (Hcond : forall r, leased_to p k r = true -> pr_partition_id r = p).
  { intros r [Hr _]%andb_prop. by apply Z.eqb_eq in Hr. }
  assert (Hother : forall q r, q <> p -> List.find (of_partition q) (db_processor db) = Some r -> leased_to p k r = false).
  { intros q r Hq Hr. apply List.find_some in Hr as [_ Hr%Z.eqb_eq]. destruct (leased_to p k r) eqn:Hc; [|done].
    apply Hcond in Hc. congruence. }
  assert (Hrow : forall r, List.find (of_partition p) (db_processor db) = Some r ->
    leased_to p k r = bool_decide (pr_locked_by r = Some k)).
  { intros r Hr. apply List.find_some in Hr as [_ Hr]. unfold leased_to. by rewrite Hr. }
  split_and!; [by apply procs_update|..].
  - intros q Hq. unfold cursor. cbn [with_processor db_processor]. rewrite find_update by done.
    destruct (List.find (of_partition q) _) as [r|] eqn:Hr; [|done]. cbn. by rewrite (Hother q r).
  - intros q k'. unfold holder. cbn [with_processor db_processor]. rewrite find_update by done.
    destruct (List.find (of_partition q) (db_processor db)) as [r|] eqn:Hr; [|done]. cbn.
    destruct (decide (q = p)) as [->|Hq]; [|by rewrite (Hother q r)].
    rewrite (Hrow r Hr). case_bool_decide as Hk; [by rewrite Hl|]. intros Hk'. split; [done|congruence].
  - unfold sql_update. cbn [snd]. rewrite (filter_row p) by done. unfold holder.
    destruct (List.find (of_partition p) (db_processor db)) as [r|] eqn:Hr; cbn; [|by rewrite decide_False].
    rewrite (Hrow r eq_refl). case_bool_decide; by case_decide.
  - unfold holder, cursor. cbn [with_processor db_processor]. rewrite find_update by done.
    destruct (List.find (of_partition p) (db_processor db)) as [r|] eqn:Hr; cbn; [|by rewrite decide_False].
    rewrite (Hrow r eq_refl). case_bool_decide; case_decide; try done. by exists r.
Qed.

(** ** Reading *)

(** The rows after a position, in order. *)
Lemma outs_after w p c : oinv w -> cursor (ow_db w) p <= c ->
  out_view <$> List.filter (fun r => c <? og_seq r) (outs (ow_db w) p) =
    number_from c (drop (Z.to_nat c) (hist (ow_history w) p)) /\
  StronglySorted (fun a b => og_seq a <= og_seq b) (List.filter (fun r => c <? og_seq r) (outs (ow_db w) p)).
Proof.
  intros Hi Hc. destruct (oi_outs w Hi p) as (v & Hv & Hle).
  assert (Hview : out_view <$> List.filter (fun r => c <? og_seq r) (outs (ow_db w) p) =
    number_from c (drop (Z.to_nat c) (hist (ow_history w) p))).
  { rewrite <- (filter_fmap (fun e : Z * Z => c <? e.1) out_view), Hv, number_filter_gt, drop_drop by lia. do 2 f_equal. lia. }
  split; [done|]. apply (fmap_sorted out_view (fun a b => a.1 <= b.1)). rewrite Hview. apply number_sorted.
Qed.

(** The body of a numbered message that was not swept. *)
Lemma body_found w p s b : oinv w -> (s, b) ∈ out_view <$> outs (ow_db w) p -> b ∈ hist (ow_history w) p ->
  exists body, bd_id body = b /\ body ∈ enq (ow_enqueued w) p /\ find_body b (db_body (ow_db w)) = Some body.
Proof.
  intros Hi (r & Hr & Hin)%list_elem_of_fmap Hb.
  assert (Hids : b ∈ bd_id <$> enq (ow_enqueued w) p) by (rewrite (oi_perm w Hi p); set_solver).
  apply list_elem_of_fmap in Hids as (body & -> & Hbody). exists body. split_and!; [done|done|].
  apply (find_unique _ bd_id (bd_id body)); [done|apply (oi_body_ids w Hi)| |done].
  apply (oi_bodies w Hi p); [done|]. right. apply list_elem_of_fmap. exists r. unfold out_view in Hr. split; [congruence|done].
Qed.

(** Reading at the cursor never fails and gives the next messages with their content. *)
Lemma read_spec w p attempts n : oinv w ->
  exists msgs trace_ids, read_messages p (cursor (ow_db w) p) attempts n (ow_db w) = Ok (msgs, trace_ids) /\
    reads w p (cursor (ow_db w) p) msgs /\
    length msgs = Nat.min (Z.to_nat n) (length (hist (ow_history w) p) - Z.to_nat (cursor (ow_db w) p)).
Proof.
  intros Hi. set (c := cursor (ow_db w) p). pose proof (oi_cursor w Hi p) as Hcur. fold c in Hcur.
  destruct (outs_after w p c Hi ltac:(done)) as [Hview Hsort]. unfold read_messages, sql_select.
  rewrite filter_andb. fold (outs (ow_db w) p). rewrite order_by_id by done.
  set (rows := take (Z.to_nat n) (List.filter (fun r => c <? og_seq r) (outs (ow_db w) p))).
  assert (Hrows : out_view <$> rows = take (Z.to_nat n) (number_from c (drop (Z.to_nat c) (hist (ow_history w) p)))).
  { unfold rows. by rewrite <- Hview, fmap_take. }
  assert (Hmsg : forall i r, rows !! i = Some r -> exists body, numbered w p (c + 1 + Z.of_nat i) body /\ og_seq r = c + 1 + Z.of_nat i /\
    read_message p attempts (ow_db w) r = Ok (mkOutboxMessage p (og_seq r) (bd_payload body) (bd_payload_type body)
      (bd_created_at body) attempts, bd_trace body)).
  { intros i r Hr. assert (Hv : (out_view <$> rows) !! i = Some (out_view r)) by (by rewrite list_lookup_fmap, Hr).
    rewrite Hrows in Hv. apply lookup_take_Some in Hv as [Hv _]. rewrite number_lookup, lookup_drop in Hv.
    destruct (hist (ow_history w) p !! (Z.to_nat c + i)%nat) as [b|] eqn:Hb; [|done]. cbn in Hv. injection Hv as Hseq Hbody.
    destruct (body_found w p (og_seq r) b Hi) as (body & Hid & Henq & Hfind).
    { apply list_elem_of_fmap. exists r. split; [unfold out_view; congruence|]. apply list_elem_of_lookup_2 in Hr.
      unfold rows in Hr. apply elem_of_take in Hr as (j & Hr & _). apply list_elem_of_lookup_2, elem_of_filter_bool in Hr. tauto. }
    { by eapply list_elem_of_lookup_2. }
    exists body. split_and!; [|lia|unfold read_message; by rewrite <- Hbody, Hfind].
    split_and!; [lia| |done]. rewrite Hid, <- Hb. f_equal. lia. }
  pose proof (map_res_exact (read_message p attempts (ow_db w)) (fun _ => True)
    (fun r y => read_message p attempts (ow_db w) r = Ok y) rows) as Hm.
  destruct (map_res (read_message p attempts (ow_db w)) rows) as [ys|e]; cbn [mbind result_bind].
  - destruct Hm as [_ Hall]. { intros r (i & Hr)%list_elem_of_lookup. destruct (Hmsg i r Hr) as (body & _ & _ & ->). done. }
    exists ys.*1, (collect_traces ys). split_and!; [done| |].
    + intros i m Hy. rewrite list_lookup_fmap in Hy. destruct (ys !! i) as [y|] eqn:Hyi; [|done]. cbn in Hy. injection Hy as <-.
      destruct (Forall2_lookup_r _ _ _ _ _ Hall Hyi) as (r & Hr & Hry). destruct (Hmsg i r Hr) as (body & Hn & Hs & Hrm).
      rewrite Hry in Hrm. injection Hrm as ->. cbn. split_and!; [done|done|]. exists body. rewrite Hs. done.
    + rewrite length_fmap, <- (Forall2_length _ _ _ Hall), <- (length_fmap out_view), Hrows, length_take, number_length, length_drop. done.
  - exfalso. apply Hm; [|by apply Forall_forall]. intros r (i & Hr)%list_elem_of_lookup. destruct (Hmsg i r Hr) as (body & _ & _ & ->). done.
Qed.

(** ** Steps that do not touch the messages *)

Lemma inv_progress w w' : oinv w ->
  ow_history w' = ow_history w -> ow_enqueued w' = ow_enqueued w ->
  db_body (ow_db w') = db_body (ow_db w) -> db_incoming (ow_db w') = db_incoming (ow_db w) ->
  db_outgoing (ow_db w') = db_outgoing (ow_db w) -> db_partitions (ow_db w') = db_partitions (ow_db w) ->
  pr_partition_id <$> db_processor (ow_db w') = pr_partition_id <$> db_processor (ow_db w) ->
  (forall m, m ∈ ow_log w -> m ∈ ow_log w') -> (forall d, d ∈ db_dead (ow_db w) -> d ∈ db_dead (ow_db w')) ->
  (forall p, cursor (ow_db w) p <= cursor (ow_db w') p <= Z.of_nat (length (hist (ow_history w) p))) ->
  (forall p s, (p, s) ∈ ow_sweeps w' -> s <= cursor (ow_db w') p) ->
  (forall k pass, ow_passes w' !! k = Some pass -> holder (ow_db w') (pass_partition pass) = Some k ->
     reads w (pass_partition pass) (cursor (ow_db w') (pass_partition pass)) (pass_msgs pass)) ->
  (forall p s, cursor (ow_db w) p < s <= cursor (ow_db w') p -> settled w' p s) ->
  oinv w'.
Proof.
  intros Hi Hh He Hb Hin Hout Hpt Hpr Hlog Hdead Hcur Hsw Hpass Hset.
  assert (Hg : grows w w').
  { split_and!; [exists []|exists []|done|done]; by rewrite app_nil_r. }
  split.
  - rewrite Hpt. apply Hi.
  - rewrite Hpr. apply Hi.
  - intros p. destruct (oi_outs w Hi p) as (v & Hv & Hle). exists v. unfold outs in *. rewrite Hh, Hout. split; [done|].
    specialize (Hcur p). lia.
  - intros p. rewrite Hh. pose proof (oi_cursor w Hi p). specialize (Hcur p). lia.
  - intros r. rewrite Hpt, Hh. apply Hi.
  - done.
  - rewrite He. apply Hi.
  - intros p. unfold ins. rewrite He, Hh, Hin. apply Hi.
  - rewrite Hin. apply Hi.
  - rewrite Hout. apply Hi.
  - intros p b. unfold ins, outs. rewrite He, Hb, Hin, Hout. apply Hi.
  - rewrite Hb. apply Hi.
  - intros b. rewrite Hb, He. apply Hi.
  - intros k pass Hk Hold. eapply reads_grows; [exact Hg|]. by eapply Hpass.
  - intros p s Hs. destruct (Z.le_gt_cases s (cursor (ow_db w) p)); [|apply Hset; lia].
    eapply settled_grows; [exact Hg|]. apply Hi. lia.
Qed.

(** Reading does not look at the processor rows. *)
Lemma read_messages_processor p c a n f db : read_messages p c a n (with_processor f db) = read_messages p c a n db.
Proof. done. Qed.

Lemma acquire_step w k p secs now n : oinv w -> oinv (oexec w (OAcquire k p secs now n)).
Proof.
  intros Hi. cbn [oexec]. destruct (ow_passes w !! k) as [|] eqn:Hk; [done|]. unfold acquire_and_read.
  pose proof (acquire_spec p k secs now (ow_db w) (oi_procs w Hi)) as Ha.
  destruct (exec_lease_acquire p k secs now (ow_db w)) as [[db1 [[c a]|]]|]; cbn [mbind result_bind]; [..|done];
    destruct Ha as (Hdb & Hpr & Hcur & Hr);
    assert (exists t, db1 = with_processor (fun _ => t) (ow_db w)) as [t ->] by (eexists; exact Hdb); clear Hdb.
  - destruct Hr as [-> Hhold]. rewrite read_messages_processor.
    destruct (read_spec w p (Z.max (a - 1) (- 2 ^ 15)) n Hi) as (msgs & tr & -> & Hreads & _). cbn [mbind result_bind].
    apply (inv_progress w); try done; cbn [ow_db ow_passes ow_sweeps with_passes with_db].
    + intros q. rewrite Hcur. pose proof (oi_cursor w Hi q). lia.
    + intros q s Hs. rewrite Hcur. by apply Hi.
    + intros k' pass Hp' Hold. rewrite Hcur. rewrite Hhold in Hold.
      destruct (decide (k' = k)) as [->|Hne]; [rewrite lookup_insert_eq in Hp'; by injection Hp' as <-|].
      rewrite lookup_insert_ne in Hp' by done. destruct (decide (pass_partition pass = p)); [congruence|]. by apply (oi_passes w Hi k').
    + intros q s Hs. rewrite Hcur in Hs. lia.
  - apply (inv_progress w); try done; cbn [ow_db ow_passes ow_sweeps with_db].
    + intros q. rewrite Hcur. pose proof (oi_cursor w Hi q). lia.
    + intros q s Hs. rewrite Hcur. by apply Hi.
    + intros k' pass Hp' Hold. rewrite Hcur. rewrite Hr in Hold. by apply (oi_passes w Hi k').
    + intros q s Hs. rewrite Hcur in Hs. lia.
Qed.

Lemma release_facts p k db : NoDup (pr_partition_id <$> db_processor db) ->
  let db' := lease_release p k db in
  pr_partition_id <$> db_processor db' = pr_partition_id <$> db_processor db /\
  (forall q, cursor db' q = cursor db q) /\ (forall q k', holder db' q = Some k' -> holder db q = Some k').
Proof.
  intros Hnd. destruct (leased_spec p k (fun r => mkProcessorRow (pr_partition_id r) (pr_processed_seq r) 0 (pr_last_error r) None None)
    db Hnd) as (Hpr & _ & Hold & _); [done|done|]. cbn zeta. split_and!; [exact Hpr| |intros q k' Hq; by apply Hold].
  intros q. by apply cursor_update.
Qed.

Lemma release_step w k : oinv w -> oinv (oexec w (ORelease k)).
Proof.
  intros Hi. cbn [oexec]. destruct (ow_passes w !! k) as [[p [|] tr]|] eqn:Hk; [|done|done].
  destruct (release_facts p k (ow_db w) (oi_procs w Hi)) as (Hpr & Hcur & Hold).
  apply (inv_progress w); try done; cbn [ow_db ow_passes ow_sweeps with_passes with_db].
  - intros q. rewrite Hcur. pose proof (oi_cursor w Hi q). lia.
  - intros q s Hs. rewrite Hcur. by apply Hi.
  - intros k' pass Hp' Hh. rewrite Hcur. apply lookup_delete_Some in Hp' as [_ Hp']. apply (oi_passes w Hi k'); auto.
  - intros q s Hs. rewrite Hcur in Hs. lia.
Qed.

Lemma crash_step w k : oinv w -> oinv (oexec w (OCrash k)).
Proof.
  intros Hi. apply (inv_progress w); try done; cbn [oexec ow_db ow_passes ow_sweeps with_passes].
  - intros q. pose proof (oi_cursor w Hi q). lia.
  - apply Hi.
  - intros k' pass Hp' Hh. apply lookup_delete_Some in Hp' as [_ Hp']. by apply (oi_passes w Hi k').
  - lia.
Qed.

Lemma sweep_read_step w p : oinv w -> oinv (oexec w (OSweepRead p)).
Proof.
  intros Hi. apply (inv_progress w); try done; cbn [oexec ow_db ow_passes ow_sweeps].
  - intros q. pose proof (oi_cursor w Hi q). lia.
  - intros q s [Hs|Hs]%elem_of_app; [by apply Hi|]. unfold read_processed_seq, cursor in *.
    destruct (List.find (of_partition p) (db_processor (ow_db w))) as [r|] eqn:Hr; cbn in Hs; [|by apply not_elem_of_nil in Hs].
    apply list_elem_of_singleton in Hs as [= -> ->]. rewrite Hr. done.
  - apply Hi.
  - lia.
Qed.

Lemma decrement_step w p n : oinv w -> oinv (oexec w (ODecrement p n)).
Proof.
  intros Hi. apply (inv_progress w); try done; cbn [oexec ow_db ow_passes ow_sweeps with_db].
  - intros q. change (cursor (decrement_vacuum_counter p n (ow_db w)) q) with (cursor (ow_db w) q). pose proof (oi_cursor w Hi q). lia.
  - apply Hi.
  - apply Hi.
  - intros q s. change (cursor (decrement_vacuum_counter p n (ow_db w)) q) with (cursor (ow_db w) q). lia.
Qed.

(** ** Acknowledging *)

(** Statements that leave the message tables and the processor rows alone. *)
Definition same_tables (db db' : OutboxDb) : Prop :=
  db_body db' = db_body db /\ db_incoming db' = db_incoming db /\ db_outgoing db' = db_outgoing db /\
  db_partitions db' = db_partitions db.

Definition same_core (db db' : OutboxDb) : Prop :=
  same_tables db db' /\ db_processor db' = db_processor db /\ db_dead db' = db_dead db.

Lemma same_core_refl db : same_core db db.
Proof. done. Qed.

Lemma same_core_trans db1 db2 db3 : same_core db1 db2 -> same_core db2 db3 -> same_core db1 db3.
Proof. intros ((? & ? & ? & ?) & ? & ?) ((? & ? & ? & ?) & ? & ?). repeat split; congruence. Qed.

Lemma advance_and_claim_core returning now instance acc c : same_core acc.1 (advance_and_claim returning now instance acc c).1.
Proof.
  unfold advance_and_claim, exec_trace_advance, exec_claim_trace_mail. destruct (List.filter _ _) as [|r ?]; [done|].
  destruct (negb returning); [done|]. by destruct (_ <=? _).
Qed.

Lemma apply_trace_core returning now instance progress db :
  same_core db (apply_trace_progress returning now instance progress db).1.
Proof.
  unfold apply_trace_progress. change db with (db, [] : list TraceOutcome).1 at 1. generalize (db, [] : list TraceOutcome).
  induction progress as [|c progress IH]; intros acc; [done|]. cbn [fold_left].
  eapply same_core_trans; [apply advance_and_claim_core|apply IH].
Qed.

Lemma record_trace_retry_core now trace_ids reason db : same_core db (record_trace_retry now trace_ids reason db).
Proof.
  unfold record_trace_retry. generalize (fst <$> fold_left (fun m kv => bt_insert String.compare kv.2 tt m) (map_to_list trace_ids) []).
  intros l. revert db. induction l as [|t l IH]; intros db; [done|]. cbn [fold_left].
  eapply same_core_trans; [|apply IH]. done.
Qed.

Lemma same_core_cursor db db' p : same_core db db' -> cursor db' p = cursor db p.
Proof. intros (_ & Hp & _). unfold cursor. by rewrite Hp. Qed.

Lemma same_core_holder db db' p : same_core db db' -> holder db' p = holder db p.
Proof. intros (_ & Hp & _). unfold holder. by rewrite Hp. Qed.

(** What an acknowledgement may do to the processor rows: only the holder's row, and
    the worker gives up its lease. *)
Record acked (p : Z) (k : string) (db db' : OutboxDb) : Prop := {
  ak_tables : same_tables db db';
  ak_ids : pr_partition_id <$> db_processor db' = pr_partition_id <$> db_processor db;
  ak_other q : q <> p -> cursor db' q = cursor db q;
  ak_holder q k' : holder db' q = Some k' -> holder db q = Some k' /\ (q = p -> k' <> k);
  ak_dead d : d ∈ db_dead db -> d ∈ db_dead db';
}.

Lemma acked_core p k db db1 db2 : acked p k db db1 -> same_core db1 db2 -> acked p k db db2.
Proof.
  intros [Ht Hi Ho Hh Hd] Hc. pose proof Hc as ((H1 & H2 & H3 & H4) & Hp & Hdd). destruct Ht as (T1 & T2 & T3 & T4). split.
  - repeat split; congruence.
  - by rewrite Hp.
  - intros q Hq. rewrite (same_core_cursor _ _ q Hc). by apply Ho.
  - intros q k'. rewrite (same_core_holder _ _ q Hc). apply Hh.
  - intros d. rewrite Hdd. apply Hd.
Qed.

Lemma acked_update p k f db : NoDup (pr_partition_id <$> db_processor db) ->
  (forall r, pr_partition_id (f r) = pr_partition_id r) -> (forall r, pr_locked_by (f r) = None) ->
  acked p k db (with_processor (fun t => (sql_update (leased_to p k) f t).1) db).
Proof.
  intros Hnd Hf Hl. destruct (leased_spec p k f db Hnd Hf Hl) as (Hpr & Ho & Hh & _).
  split; [done|exact Hpr|exact Ho|exact Hh|done].
Qed.

(** Moving the cursor: to [seq] when the worker still holds the lease, or not at all. *)
Lemma advance_cursor_spec p seq k db db' : NoDup (pr_partition_id <$> db_processor db) ->
  advance_cursor p seq k db = (db', true) ->
  acked p k db db' /\ (cursor db' p = cursor db p \/ (seq <> 0 /\ holder db p = Some k /\ cursor db' p = seq)).
Proof.
  intros Hnd. unfold advance_cursor. destruct (Z.eqb_spec seq 0) as [->|Hs].
  - intros [= <-]. split; [by apply acked_update|left; by apply cursor_update].
  - unfold lease_ack_advance. pose proof (leased_spec p k (fun r => mkProcessorRow (pr_partition_id r) seq 0 None None None) db Hnd
      ltac:(done) ltac:(done)) as (_ & _ & _ & Hn & Hc).
    destruct (sql_update _ _ _) as [t n] eqn:Hu. cbn [snd] in Hn. subst n.
    case_decide as Hh; [|done]. cbn [Z.eqb]. intros [= <-]. split.
    + eapply acked_core; [apply (acked_update p k (fun r => mkProcessorRow (pr_partition_id r) seq 0 None None None)); done|].
      unfold with_processor. by rewrite Hu.
    + right. split_and!; [done|done|]. destruct Hc as (r & _ & Hc). unfold cursor in *. cbn [with_processor db_processor] in Hc.
      rewrite Hu in Hc. exact Hc.
Qed.

(** ** Dead letters *)

Definition letter_of (p : Z) (m : OutboxMessage) (d : DeadLetterRow) : Prop :=
  dl_partition_id d = p /\ dl_seq d = om_seq m /\ dl_payload d = om_payload m /\ dl_payload_type d = om_payload_type m.

Lemma insert_dead_letters_spec p reason tr msgs db :
  exists extra, insert_dead_letters p reason tr msgs db = with_dead (fun t => t ++ extra) db /\
    forall m, m ∈ msgs -> exists d, d ∈ extra /\ letter_of p m d.
Proof.
  unfold insert_dead_letters. revert db. induction msgs as [|m msgs IH]; intros db; cbn [fold_left].
  - exists []. split; [unfold with_dead; rewrite app_nil_r; by destruct db|]. intros m Hm. by apply not_elem_of_nil in Hm.
  - destruct (IH (insert_dead_letter p reason tr m db)) as (extra & -> & Hex).
    eexists (_ :: extra). split; [unfold insert_dead_letter, with_dead, insert_rows; cbn; by rewrite <- app_assoc|].
    intros m' [->|Hm]%elem_of_cons; [eexists; split; [by left|done]|]. destruct (Hex m' Hm) as (d & Hd & Hl). exists d. split; [by right|done].
Qed.

Lemma persist_spec p msgs rejections tr db db' : persist_rejections p msgs rejections tr db = Some db' ->
  exists extra, db' = with_dead (fun t => t ++ extra) db /\
    forall rej m, rej ∈ rejections -> msgs !! rj_index rej = Some m -> exists d, d ∈ extra /\ letter_of p m d.
Proof.
  unfold persist_rejections. revert db. induction rejections as [|rej rejections IH]; intros db; cbn [fold_left].
  - intros [= <-]. exists []. split; [unfold with_dead; rewrite app_nil_r; by destruct db|]. intros rej m Hm. by apply not_elem_of_nil in Hm.
  - cbn [mbind option_bind]. destruct (msgs !! rj_index rej) as [m|] eqn:Hm.
    + intros (extra & -> & Hex)%IH. eexists (_ :: extra).
      split; [unfold insert_dead_letter, with_dead, insert_rows; cbn; by rewrite <- app_assoc|].
      intros rej' m' [->|Hr]%elem_of_cons Hm'; [rewrite Hm in Hm'; injection Hm' as <-; eexists; split; [by left|done]|].
      destruct (Hex rej' m' Hr Hm') as (d & Hd & Hl). exists d. split; [by right|done].
    + intros Hf. exfalso. clear -Hf. induction rejections as [|r l IH]; [done|]. cbn [fold_left mbind option_bind] in Hf. by apply IH.
Qed.

Lemma acked_dead p k extra db db' : acked p k (with_dead (fun t => t ++ extra) db) db' -> acked p k db db'.
Proof. intros [Ht Hi Ho Hh Hd]. split; try done. intros d Hin. apply Hd. cbn. set_solver. Qed.

(** The cursor an acknowledgement moves to, and what it makes a dead letter. *)
Definition moved (p : Z) (k : string) (msgs : list OutboxMessage) (oc : Outcome) (db db' : OutboxDb) : Prop :=
  cursor db' p = cursor db p \/
  (holder db p = Some k /\
   ((cursor db' p = processed_advance_seq msgs (oc_processed oc) /\ processed_advance_seq msgs (oc_processed oc) <> 0) \/
    (cursor db' p = from_option om_seq 0 (last msgs) /\
     forall m, m ∈ drop (Nat.min (Z.to_nat (oc_processed oc)) (length msgs)) msgs -> exists d, d ∈ db_dead db' /\ letter_of p m d))).

(** The cursor is moved first and the traces are counted down after it. *)
Lemma advance_then_core p seq k db db1 db2 : NoDup (pr_partition_id <$> db_processor db) ->
  advance_cursor p seq k db = (db1, true) -> same_core db1 db2 ->
  acked p k db db2 /\ (cursor db2 p = cursor db p \/ (seq <> 0 /\ holder db p = Some k /\ cursor db2 p = seq)).
Proof.
  intros Hnd Ha Hc. destruct (advance_cursor_spec p seq k db db1 Hnd Ha) as [Hk Hm]. split; [by eapply acked_core|].
  by rewrite (same_core_cursor db1 db2).
Qed.

(** A retry with nothing processed releases the lease and leaves the cursor. *)
Lemma record_retry_spec p reason k db0 db : NoDup (pr_partition_id <$> db_processor db) -> same_core db db0 ->
  let db' := (lease_record_retry p reason k db0).1 in acked p k db db' /\ cursor db' p = cursor db p.
Proof.
  intros Hnd Hc. set (f := fun r => mkProcessorRow (pr_partition_id r) (pr_processed_seq r) (pr_attempts r) (Some reason) None None).
  assert (Hk : acked p k db0 (lease_record_retry p reason k db0).1).
  { apply (acked_update p k f); [|done|done]. by destruct Hc as (_ & -> & _). }
  pose proof (cursor_update p (leased_to p k) f db0 ltac:(done) ltac:(done) : cursor (lease_record_retry p reason k db0).1 p = _) as Hcur.
  cbn zeta. split; [|by rewrite Hcur, (same_core_cursor db db0)]. destruct Hk as [Ht Hi Ho Hh Hd]. pose proof Hc as (Hct & Hcp & Hcd). split.
  - destruct Ht as (? & ? & ? & ?), Hct as (? & ? & ? & ?). repeat split; congruence.
  - by rewrite Hi, Hcp.
  - intros q Hq. by rewrite Ho, (same_core_cursor db db0).
  - intros q k'. rewrite <- (same_core_holder db db0) by done. apply Hh.
  - intros d Hin. apply Hd. by rewrite Hcd.
Qed.

Lemma ack_leased_spec returning now instance p msgs tr k oc rejected db db' claimed :
  NoDup (pr_partition_id <$> db_processor db) ->
  ack_leased returning now instance p msgs tr k (oc_result oc) (oc_processed oc) rejected db = (db', true, claimed) ->
  acked p k db db' /\ moved p k msgs oc db db'.
Proof.
  intros Hnd. unfold ack_leased, moved. set (seq := processed_advance_seq msgs (oc_processed oc)).
  destruct (oc_result oc) as [|reason|reason].
  - destruct (advance_cursor p seq k db) as [db1 ok] eqn:Ha. destruct ok; [|done].
    pose proof (apply_trace_core returning now instance (trace_progress msgs tr seq rejected) db1) as Hc.
    destruct (apply_trace_progress _ _ _ _ _) as [db2 cl]. intros [= <- _].
    destruct (advance_then_core p seq k db db1 db2 Hnd Ha Hc) as [Hk Hm]. split; [done|]. naive_solver.
  - destruct (Z.ltb_spec 0 seq).
    + destruct (advance_cursor p seq k db) as [db1 ok] eqn:Ha. destruct ok; [|done].
      pose proof (apply_trace_core returning now instance (trace_progress msgs tr seq rejected) db1) as Hc.
      destruct (apply_trace_progress _ _ _ _ _) as [db2 cl]. intros [= <- _].
      pose proof (same_core_trans _ _ _ Hc (record_trace_retry_core now (traces_beyond msgs tr seq) reason db2)) as Hc'.
      destruct (advance_then_core p seq k db db1 _ Hnd Ha Hc') as [Hk Hm]. split; [done|]. naive_solver.
    + pose proof (record_retry_spec p reason k _ db Hnd (record_trace_retry_core now tr reason db)) as [Hk Hm].
      destruct (lease_record_retry _ _ _ _) as [db1 n]. intros [= <- _ _]. split; [done|by left].
  - destruct (insert_dead_letters_spec p reason tr (drop (Nat.min (Z.to_nat (oc_processed oc)) (length msgs)) msgs) db) as (extra & -> & Hex).
    destruct (advance_cursor p _ k _) as [db1 ok] eqn:Ha. destruct ok; [|done].
    match goal with |- context [apply_trace_progress _ _ _ ?pr db1] => pose proof (apply_trace_core returning now instance pr db1) as Hc end.
    destruct (apply_trace_progress _ _ _ _ _) as [db2 cl]. intros [= <- _].
    destruct (advance_then_core p _ k (with_dead (fun t => t ++ extra) db) db1 db2 Hnd Ha Hc) as [Hk Hm]. split; [by eapply acked_dead|].
    destruct Hm as [Hm|(_ & Hh & Hm)]; [by left|]. right. split; [done|]. right. split; [done|].
    intros m Hin. destruct (Hex m Hin) as (d & Hd & Hl). exists d. split; [|done]. apply (ak_dead _ _ _ _ Hk). cbn. set_solver.
Qed.

(** The cursor moves over the processed messages, or over the whole batch when the rest
    became dead letters. *)
Lemma moved_over w p c k msgs oc db db' : reads w p c msgs -> msgs <> [] -> cursor db p = c -> moved p k msgs oc db db' ->
  cursor db' p = c \/
  (cursor db' p = c + oc_processed oc /\ oc_processed oc <= Z.of_nat (length msgs)) \/
  (cursor db' p = c + Z.of_nat (length msgs) /\
   forall i m, msgs !! i = Some m -> (Z.to_nat (oc_processed oc) <= i)%nat -> exists d, d ∈ db_dead db' /\ letter_of p m d).
Proof.
  intros Hreads Hn Hc [?|[_ [[Heq Hne]|[Heq Hdead]]]]; [left; lia|right; left|right; right].
  - revert Heq Hne. unfold processed_advance_seq.
    destruct (Z.ltb_spec 0 (oc_processed oc)), (Z.leb_spec (oc_processed oc) (Z.of_nat (length msgs))); cbn [andb]; try done.
    destruct (msgs !! Z.to_nat (oc_processed oc - 1)) as [m|] eqn:Hm; [|done]. destruct (Hreads _ m Hm) as (_ & Hseq & _).
    cbn [from_option]. lia.
  - destruct (last msgs) as [m|] eqn:Hl; cbn [from_option] in Heq; [|by apply last_None in Hl]. rewrite last_lookup in Hl.
    destruct (Hreads _ m Hl) as (_ & Hseq & _). apply lookup_lt_Some in Hl. split; [lia|].
    intros i m' Hi Hle. apply Hdead. apply list_elem_of_lookup. exists (i - Nat.min (Z.to_nat (oc_processed oc)) (length msgs))%nat.
    rewrite lookup_drop, <- Hi. f_equal. apply lookup_lt_Some in Hi. lia.
Qed.

(** A message that was read is settled once it is handled or a dead letter. *)
Lemma read_settled w w' p c msgs i m : reads w p c msgs -> grows w w' -> msgs !! i = Some m ->
  m ∈ ow_log w' \/ (exists d, d ∈ db_dead (ow_db w') /\ letter_of p m d) -> settled w' p (c + 1 + Z.of_nat i).
Proof.
  intros Hreads Hg Hm Hor. destruct (Hreads i m Hm) as (Hp & Hseq & body & Hn & Hcar). rewrite <- Hseq. exists body.
  split; [by eapply numbered_grows|]. destruct Hor as [Hl|(d & Hd & Hl)]; [left; by exists m|right; exists d; split; [done|]].
  destruct Hl as (? & ? & ? & ?), Hcar as (? & ? & ?). repeat split; congruence.
Qed.

(** What the acknowledgement moves the cursor over is settled. *)
Lemma finish_settled w w' p c k msgs oc s : outcome_ok msgs oc -> reads w p c msgs -> grows w w' ->
  (forall m, m ∈ oc_log oc -> m ∈ ow_log w') ->
  (forall rej m, rej ∈ oc_rejections oc -> msgs !! rj_index rej = Some m -> exists d, d ∈ db_dead (ow_db w') /\ letter_of p m d) ->
  msgs <> [] -> cursor (ow_db w) p = c -> moved p k msgs oc (ow_db w) (ow_db w') ->
  c < s <= cursor (ow_db w') p -> settled w' p s.
Proof.
  intros (Hlen & Hdone & _) Hreads Hg Hlog Hrej H0 Hc Hmoved Hs.
  destruct (moved_over w p c k msgs oc _ _ Hreads H0 Hc Hmoved) as [?|Hm]; [lia|].
  destruct (lookup_lt_is_Some_2 msgs (Z.to_nat (s - c - 1))) as [m Hi]; [destruct Hm as [[]|[]]; lia|].
  replace s with (c + 1 + Z.of_nat (Z.to_nat (s - c - 1))) by lia. apply (read_settled w w' p c msgs _ m); try done.
  destruct (decide (Z.to_nat (s - c - 1) < Z.to_nat (oc_processed oc))%nat) as [Hlt|Hge].
  - destruct (Hdone _ m Hlt Hi) as [?|(rej & Hr & Hri)]; [left; auto|]. right. apply (Hrej rej); [done|by rewrite Hri].
  - right. destruct Hm as [[]|[_ Hdead]]; [lia|]. apply (Hdead _ m Hi). lia.
Qed.

(** A batch read at the cursor does not reach beyond the history. *)
Lemma reads_bound w p c msgs : reads w p c msgs -> 0 <= c <= Z.of_nat (length (hist (ow_history w) p)) ->
  c + Z.of_nat (length msgs) <= Z.of_nat (length (hist (ow_history w) p)).
Proof.
  intros Hreads Hc. destruct (decide (length msgs = 0%nat)) as [->|Hne]; [lia|].
  destruct (lookup_lt_is_Some_2 msgs (length msgs - 1)) as [m Hm]; [lia|].
  destruct (Hreads _ m Hm) as (_ & Hseq & body & (_ & Hl & _) & _). apply lookup_lt_Some in Hl. lia.
Qed.

(** The acknowledgement of a worker that lost its lease leaves the cursor. *)
Lemma moved_not_held p k msgs oc db db' : holder db p <> Some k -> moved p k msgs oc db db' -> cursor db' p = cursor db p.
Proof. intros Hh [?|[? _]]; done. Qed.

Lemma moved_bound w p k msgs oc db' : oinv w -> outcome_ok msgs oc -> msgs <> [] ->
  (holder (ow_db w) p = Some k -> reads w p (cursor (ow_db w) p) msgs) -> moved p k msgs oc (ow_db w) db' ->
  cursor (ow_db w) p <= cursor db' p <= Z.of_nat (length (hist (ow_history w) p)).
Proof.
  intros Hi [Hlen _] Hne Hreads Hmv. pose proof (oi_cursor w Hi p) as Hc.
  destruct (decide (holder (ow_db w) p = Some k)) as [Hh|Hh]; [|rewrite (moved_not_held _ _ _ _ _ _ Hh Hmv); lia].
  pose proof (reads_bound _ _ _ _ (Hreads Hh) Hc).
  destruct (moved_over w p _ k msgs oc _ _ (Hreads Hh) Hne eq_refl Hmv) as [?|[[]|[]]]; lia.
Qed.

(** The transaction of the acknowledgement is rolled back or does all of it. *)
Lemma guarded_ack_spec returning now instance p msgs tr k oc db : NoDup (pr_partition_id <$> db_processor db) ->
  let db' := (lease_guarded_ack returning now instance p msgs tr k oc db).1.1 in
  db' = db \/
  (acked p k db db' /\ moved p k msgs oc db db' /\
   forall rej m, rej ∈ oc_rejections oc -> msgs !! rj_index rej = Some m -> exists d, d ∈ db_dead db' /\ letter_of p m d).
Proof.
  intros Hnd. cbn zeta. unfold lease_guarded_ack. destruct (persist_rejections _ _ _ _ _) as [db0|] eqn:Hper; [|by left].
  destruct (ack_leased _ _ _ _ _ _ _ _ _ _ db0) as [[db' ok] claimed] eqn:Hack. destruct ok; [right|by left].
  apply persist_spec in Hper as (extra & -> & Hex).
  destruct (ack_leased_spec _ _ _ _ _ _ _ oc _ (with_dead (fun t => t ++ extra) db) _ _ Hnd Hack) as [Hak Hmv].
  cbn [fst]. split_and!; [by eapply acked_dead|exact Hmv|]. intros rej m Hr Hm. destruct (Hex rej m Hr Hm) as (d & Hd & Hl).
  exists d. split; [|done]. apply (ak_dead _ _ _ _ Hak). cbn. set_solver.
Qed.

Lemma finish_step w k returning now instance handler : oinv w -> op_ok (OFinish k returning now instance handler) ->
  oinv (oexec w (OFinish k returning now instance handler)).
Proof.
  intros Hi Hok. cbn [oexec]. destruct (ow_passes w !! k) as [[p [|m0 msgs0] tr]|] eqn:Hk; [done| |done].
  set (msgs := m0 :: msgs0) in *. specialize (Hok msgs). set (oc := handler msgs) in *.
  pose proof (guarded_ack_spec returning now instance p msgs tr k oc (ow_db w) (oi_procs w Hi)) as Hack. cbn zeta in Hack.
  destruct (lease_guarded_ack _ _ _ _ _ _ _ _ _) as [[db' r] cl]. cbn [fst] in Hack.
  pose proof (oi_cursor w Hi p) as Hcp. pose proof (oi_passes w Hi k _ Hk) as Hreads. cbn [pass_partition pass_msgs] in Hreads.
  destruct Hack as [->|([(Hb & Hin & Hout & Hpt) Hids Hother Hhold Hdead] & Hmv & Hrej)];
    (apply (inv_progress w); try done; cbn [ow_db ow_passes ow_sweeps ow_log]; [set_solver|..]).
  - intros q. pose proof (oi_cursor w Hi q). lia.
  - apply Hi.
  - intros k' pass Hp' Hh. apply lookup_delete_Some in Hp' as [_ Hp']. by apply (oi_passes w Hi k').
  - lia.
  - intros q. pose proof (oi_cursor w Hi q). destruct (decide (q = p)) as [->|Hne]; [|rewrite Hother by done; lia].
    by apply (moved_bound w p k msgs oc).
  - intros q s Hs. pose proof (oi_sweeps w Hi q s Hs). destruct (decide (q = p)) as [->|Hne]; [|by rewrite Hother].
    pose proof (moved_bound w p k msgs oc db' Hi Hok ltac:(done) Hreads Hmv). lia.
  - intros k' pass Hp' Hh. apply lookup_delete_Some in Hp' as [Hne Hp']. destruct (Hhold _ _ Hh) as [Hh' Hk'].
    destruct (decide (pass_partition pass = p)) as [Hp|Hp]; [|rewrite Hother by done; by apply (oi_passes w Hi k')].
    rewrite Hp in *. assert (holder (ow_db w) p <> Some k) as Hno by congruence.
    rewrite (moved_not_held _ _ _ _ _ _ Hno Hmv). rewrite <- Hp. apply (oi_passes w Hi k'); [done|by rewrite Hp].
  - intros q s Hs. destruct (decide (q = p)) as [->|Hne]; [|rewrite Hother in Hs by done; lia].
    destruct (decide (holder (ow_db w) p = Some k)) as [Hh|Hh]; [|rewrite (moved_not_held _ _ _ _ _ _ Hh Hmv) in Hs; lia].
    eapply (finish_settled w _ p _ k msgs oc); try done; [by apply Hreads| |cbn [ow_log]; set_solver].
    split_and!; [exists []|exists []|cbn [ow_log]; set_solver|done]; by rewrite app_nil_r.
Qed.
