(* ===== verification/OutboxDelivery.v ===== *)
(** * Delivery of the outbox: [libs/toolkit-db/src/outbox]

    What the runs of the outbox guarantee.  Nothing that was enqueued is lost and
    nothing is numbered twice; a processor always gets the next messages of its
    partition, in order and with the content that was enqueued; everything behind the
    cursor of a partition was handled or is a dead letter with its content. *)

From stdpp Require Import sorting.
From S2P Require Import Prelude BTree Sql Retry OutboxModel OutboxWorkers OutboxRun.

(** ** Steps that change the messages *)

(** Steps on the message tables leave the cursors, the passes and the sweeps alone. *)
Lemma inv_messages w w' : oinv w -> grows w w' ->
  ow_passes w' = ow_passes w -> ow_sweeps w' = ow_sweeps w -> db_processor (ow_db w') = db_processor (ow_db w) ->
  NoDup (pt_id <$> db_partitions (ow_db w')) ->
  (forall p, exists v : nat, out_view <$> outs (ow_db w') p = number_from (Z.of_nat v) (drop v (hist (ow_history w') p)) /\
     Z.of_nat v <= cursor (ow_db w) p) ->
  (forall r, r ∈ db_partitions (ow_db w') -> pt_sequence r = Z.of_nat (length (hist (ow_history w') (pt_id r)))) ->
  NoDup ((fun e => bd_id e.2) <$> ow_enqueued w') ->
  (forall p, bd_id <$> enq (ow_enqueued w') p ≡ₚ hist (ow_history w') p ++ (in_body_id <$> ins (ow_db w') p)) ->
  NoDup (in_id <$> db_incoming (ow_db w')) -> NoDup (og_id <$> db_outgoing (ow_db w')) ->
  (forall p b, b ∈ enq (ow_enqueued w') p -> (bd_id b ∈ in_body_id <$> ins (ow_db w') p) \/
     (bd_id b ∈ og_body_id <$> outs (ow_db w') p) -> b ∈ db_body (ow_db w')) ->
  NoDup (bd_id <$> db_body (ow_db w')) -> (forall b, b ∈ db_body (ow_db w') -> exists p, b ∈ enq (ow_enqueued w') p) ->
  oinv w'.
Proof.
  intros Hi Hg Hps Hsw Hpr Hpt Hout Hseq Henq Hperm Hin Hog Hbod Hbid Hsrc.
  assert (Hcur : forall p, cursor (ow_db w') p = cursor (ow_db w) p) by (intros p; unfold cursor; by rewrite Hpr).
  assert (Hhold : forall p, holder (ow_db w') p = holder (ow_db w) p) by (intros p; unfold holder; by rewrite Hpr).
  split; try done.
  - rewrite Hpr. apply Hi.
  - intros p. rewrite Hcur. apply Hout.
  - intros p. rewrite Hcur. pose proof (oi_cursor w Hi p). destruct Hg as ([h ->] & _). rewrite hist_app, length_app. lia.
  - intros p s. rewrite Hsw, Hcur. apply Hi.
  - intros k pass. rewrite Hps, Hcur, Hhold. intros Hk Hh. eapply reads_grows; [exact Hg|]. by apply (oi_passes w Hi k).
  - intros p s. rewrite Hcur. intros Hs. eapply settled_grows; [exact Hg|]. by apply Hi.
Qed.

(** ** Enqueue *)

Lemma fresh_spec used new n : fresh used new n = true -> NoDup new /\ length new = n /\ forall id, id ∈ new -> id ∉ used.
Proof.
  unfold fresh. rewrite !andb_true_iff, !bool_decide_eq_true, forallb_forall. intros [[Hnd Hl] Hf]. split_and!; [done|done|].
  intros id Hid. specialize (Hf id). rewrite negb_true_iff, bool_decide_eq_false in Hf. by apply Hf, list_elem_of_In.
Qed.

Lemma fresh_app {A} (key : A -> Z) l l' n : NoDup (key <$> l) -> fresh (key <$> l) (key <$> l') n = true -> NoDup (key <$> l ++ l').
Proof.
  intros Hl (Hl' & _ & Hf)%fresh_spec. rewrite fmap_app. apply NoDup_app. split_and!; [done| |done]. intros id Hid Hid'. by apply (Hf id).
Qed.

(** The rows an enqueue writes: an incoming row per body, for the same partition. *)
Definition new_bodies (created_at : Z) (trace : option string) (body_ids : list Z) (items : list RecordItem) : list BodyRow :=
  zip_with (fun id item => mkBodyRow id (ri_payload item) (ri_payload_type item) created_at trace) body_ids items.
Definition new_incoming (incoming_ids resolved body_ids : list Z) : list IncomingRow :=
  zip_with (fun id pb => mkIncomingRow id pb.1 pb.2) incoming_ids (zip resolved body_ids).

Lemma new_rows created_at trace body_ids incoming_ids resolved items :
  length body_ids = length items -> length incoming_ids = length items -> length resolved = length items ->
  let bodies := new_bodies created_at trace body_ids items in
  let incoming := new_incoming incoming_ids resolved body_ids in
  bd_id <$> bodies = body_ids /\ (fun e => bd_id e.2) <$> zip resolved bodies = body_ids /\ in_id <$> incoming = incoming_ids /\
  (forall p, bd_id <$> enq (zip resolved bodies) p = in_body_id <$> List.filter (fun r => in_partition_id r =? p) incoming) /\
  (forall p b, b ∈ enq (zip resolved bodies) p -> b ∈ bodies) /\ (forall b, b ∈ bodies -> exists p, b ∈ enq (zip resolved bodies) p).
Proof.
  cbn zeta. unfold new_bodies, new_incoming. revert body_ids incoming_ids resolved. induction items as [|item items IH].
  - intros [|] [|] [|]; try done. intros _ _ _. split_and!; try done. intros b Hb. by apply not_elem_of_nil in Hb.
  - intros [|b body_ids] [|i incoming_ids] [|r resolved]; try done. cbn [length]. intros [= H1] [= H2] [= H3].
    destruct (IH body_ids incoming_ids resolved H1 H2 H3) as (E1 & E2 & E3 & E4 & E5 & E6).
    cbn [zip_with fmap list_fmap fst snd bd_id in_id]. split_and!; [by f_equal|by f_equal|by f_equal|..].
    + intros p. unfold enq. cbn [List.filter fst in_partition_id]. destruct (r =? p); [|apply E4].
      cbn [fmap list_fmap snd bd_id in_body_id]. f_equal. apply E4.
    + intros p bd. unfold enq. cbn [List.filter fst]. destruct (r =? p); cbn [fmap list_fmap snd]; [|right; by apply (E5 p)].
      intros [->|Hb]%elem_of_cons; [by left|right; by apply (E5 p)].
    + intros bd [->|Hb]%elem_of_cons; [exists r|destruct (E6 bd Hb) as [p Hp]; exists p]; rewrite elem_of_enq in *; set_solver.
Qed.

Lemma enqueue_step w cache instance body_ids incoming_ids created_at batch : oinv w ->
  oinv (oexec w (OEnqueue cache instance body_ids incoming_ids created_at batch)).
Proof.
  intros Hi. cbn [oexec]. unfold enqueue_batch. set (n := length (rs_items batch)).
  destruct (map_res _ (rs_items batch)) as [resolved|e] eqn:Hres; cbn [mbind result_bind]; [|done].
  assert (Hlen : length resolved = n) by (by eapply map_res_length).
  set (trace_ok := match rs_trace batch with Some _ => _ | None => _ end).
  assert (Htrace : match trace_ok with Ok db1 => same_core (ow_db w) db1 | Err _ => True end).
  { unfold trace_ok. destruct (rs_trace batch); [|done]. by destruct (_ <? _). }
  destruct trace_ok as [db1|e]; cbn [mbind result_bind]; [|done]. destruct Htrace as ((Hb & Hin & Hout & Hpt) & Hpr & Hdl).
  rewrite insert_batch_rows. fold (new_bodies created_at (rs_trace batch) body_ids (rs_items batch)).
  fold (new_incoming incoming_ids resolved body_ids).
  destruct (fresh _ body_ids n && fresh _ incoming_ids n) eqn:Hf; [|done]. apply andb_prop in Hf as [Hfb Hfi].
  pose proof (fresh_spec _ _ _ Hfb) as (_ & Hlb & Hnew). pose proof (fresh_spec _ _ _ Hfi) as (_ & Hli & _).
  destruct (new_rows created_at (rs_trace batch) body_ids incoming_ids resolved (rs_items batch) Hlb Hli Hlen)
    as (E1 & E2 & E3 & E4 & E5 & E6).
  set (bodies := new_bodies _ _ _ _) in *. set (incoming := new_incoming _ _ _) in *.
  assert (Hold : forall p b, b ∈ enq (ow_enqueued w) p -> bd_id b ∉ body_ids).
  { intros p b Hbe Hid. apply (Hnew _ Hid). apply list_elem_of_fmap. exists (p, b). by rewrite elem_of_enq in Hbe. }
  apply (inv_messages w); try done; unfold with_incoming, with_body, insert_rows;
    cbn [ow_db ow_enqueued ow_history db_body db_incoming db_outgoing db_partitions]; rewrite ?Hb, ?Hin, ?Hout, ?Hpt, ?Hdl; try apply Hi.
  - split_and!; [exists []; by rewrite app_nil_r|by eexists|done|done].
  - eapply fresh_app; [apply Hi|by rewrite E2].
  - intros p. unfold ins. cbn [db_incoming]. rewrite enq_app, filter_app_bool, !fmap_app, E4, app_assoc. f_equiv. apply (oi_perm w Hi).
  - eapply fresh_app; [apply Hi|by rewrite E3].
  - intros p b. rewrite enq_app, elem_of_app. intros [Hbe|Hbe]; [|intros _; apply E5 in Hbe; set_solver].
    unfold ins, outs. cbn [db_incoming db_outgoing]. rewrite filter_app_bool, fmap_app, elem_of_app, <- E4.
    pose proof (oi_bodies w Hi p b Hbe) as Hbod. intros [[?|Hid]|?]; [set_solver| |set_solver].
    exfalso. apply (Hold p b Hbe). rewrite <- E1. apply list_elem_of_fmap in Hid as (b' & Hid & Hb'). apply list_elem_of_fmap.
    exists b'. split; [done|by apply (E5 p)].
  - rewrite fmap_app, E1. apply NoDup_app. split_and!; [apply Hi| |by apply fresh_spec in Hfb as [? _]].
    intros id (b & -> & Hbb)%list_elem_of_fmap. destruct (oi_body_src w Hi b Hbb) as [p Hp]. by apply (Hold p).
  - intros b [Hbb|Hbb]%elem_of_app; [destruct (oi_body_src w Hi b Hbb) as [p Hp]|destruct (E6 b Hbb) as [p Hp]];
      exists p; rewrite enq_app; set_solver.
Qed.

(** ** Numbering *)

Lemma filter_perm {A} (f : A -> bool) l l' : l ≡ₚ l' -> List.filter f l ≡ₚ List.filter f l'.
Proof.
  induction 1 as [|x l l' _ IH|x y l|l1 l2 l3 _ IH1 _ IH2]; cbn; [done|destruct (f x); by rewrite ?IH| |by rewrite IH1].
  destruct (f x), (f y); try done. by constructor.
Qed.

Lemma filter_comm {A} (f g : A -> bool) l : List.filter f (List.filter g l) = List.filter g (List.filter f l).
Proof. rewrite <- !filter_andb. apply filter_ext_in. intros x _. apply andb_comm. Qed.

Lemma filter_NoDup {A} (key : A -> Z) (f : A -> bool) l : NoDup (key <$> l) -> NoDup (key <$> List.filter f l).
Proof.
  induction l as [|x l IH]; [done|]. rewrite fmap_cons. intros [Hx Hnd]%NoDup_cons. cbn. destruct (f x); [|by apply IH].
  rewrite fmap_cons. apply NoDup_cons. split; [|by apply IH]. intros (y & Hk & [_ Hy]%elem_of_filter_bool)%list_elem_of_fmap.
  apply Hx. rewrite Hk. by apply list_elem_of_fmap_2.
Qed.

(** The claimed rows and the rows that remain. *)
Lemma claim_spec w p n : oinv w ->
  let '(claimed, db1) := claim_incoming_for_partition n p (ow_db w) in
  claimed ++ ins db1 p ≡ₚ ins (ow_db w) p /\ (forall q, q <> p -> ins db1 q = ins (ow_db w) q) /\
  db1 = with_incoming (fun _ => db_incoming db1) (ow_db w) /\ NoDup (in_id <$> db_incoming db1).
Proof.
  intros Hi. unfold claim_incoming_for_partition, sql_select, sql_delete. fold (ins (ow_db w) p).
  set (ordered := order_by in_id (ins (ow_db w) p)). set (claimed := take (Z.to_nat n) ordered).
  assert (Hperm : ins (ow_db w) p ≡ₚ claimed ++ drop (Z.to_nat n) ordered) by (unfold claimed; rewrite take_drop; symmetry; apply order_by_perm).
  split_and!; [| |done|by apply filter_NoDup, Hi].
  - symmetry. etrans; [exact Hperm|]. f_equiv. unfold ins. cbn [with_incoming db_incoming]. rewrite filter_comm.
    fold (ins (ow_db w) p). symmetry. etrans; [apply filter_perm, Hperm|]. rewrite delete_app; [done|].
    rewrite <- Hperm. by apply filter_NoDup, Hi.
  - intros q Hq. unfold ins. cbn [with_incoming db_incoming]. rewrite filter_comm. apply filter_all.
    intros r [Hr Hin]%elem_of_filter_bool. unfold in_list. rewrite bool_decide_false; [done|].
    intros (r' & Hk & Hr')%list_elem_of_fmap. apply Hq. assert (Hp' : r' ∈ ins (ow_db w) p) by (rewrite Hperm; set_solver).
    apply elem_of_filter_bool in Hp' as [Hp' Hin']. rewrite (fmap_inj_NoDup in_id _ r r' (oi_in_ids w Hi) Hin Hin' Hk) in *. lia.
Qed.

(** The rows of a claim are numbered one after the other. *)
Lemma outgoing_rows_spec p start ids claimed : length ids = length claimed ->
  out_view <$> outgoing_rows p start ids claimed = number_from start (in_body_id <$> claimed) /\
  og_id <$> outgoing_rows p start ids claimed = ids /\
  (forall r, r ∈ outgoing_rows p start ids claimed -> og_partition_id r = p).
Proof.
  intros Hlen. unfold outgoing_rows. split_and!.
  - apply list_eq. intros i. rewrite list_lookup_fmap, lookup_zip_with, list_lookup_imap, number_lookup, list_lookup_fmap.
    destruct (ids !! i) as [id|] eqn:Hid; [destruct (claimed !! i) eqn:Hr; cbn; [done|done]|]. cbn.
    destruct (claimed !! i) eqn:Hr; [|done]. apply lookup_ge_None in Hid. apply lookup_lt_Some in Hr. lia.
  - apply list_eq. intros i. rewrite list_lookup_fmap, lookup_zip_with, list_lookup_imap.
    destruct (ids !! i) as [id|] eqn:Hid; [|done]. apply lookup_lt_Some in Hid. rewrite Hlen in Hid.
    apply lookup_lt_is_Some_2 in Hid as [r ->]. done.
  - intros r (i & Hr)%list_elem_of_lookup. apply lookup_zip_with_Some in Hr as (? & ? & -> & _). done.
Qed.

(** The rows after the swept part, with new rows behind them. *)
Lemma number_grows (v : nat) h c : (v <= length h)%nat ->
  number_from (Z.of_nat v) (drop v (h ++ c)) = number_from (Z.of_nat v) (drop v h) ++ number_from (Z.of_nat (length h)) c.
Proof.
  intros Hv. rewrite drop_app_le, number_app by done. f_equal. f_equal. rewrite length_drop. lia.
Qed.

Lemma hist_of p (claimed : list IncomingRow) q : hist ((fun r => (p, in_body_id r)) <$> claimed) q =
  if q =? p then in_body_id <$> claimed else [].
Proof.
  unfold hist. rewrite filter_fmap, <- list_fmap_compose. cbn [fst]. destruct (Z.eqb_spec q p) as [->|Hne].
  - rewrite filter_all; [by apply list_fmap_ext|]. intros. apply Z.eqb_refl.
  - rewrite filter_none; [done|]. intros. lia.
Qed.

Definition bump_sequence (p count : Z) (t : list PartitionRow) : list PartitionRow :=
  (sql_update (fun r => pt_id r =? p) (fun r => mkPartitionRow (pt_id r) (pt_queue r) (pt_sequence r + count)) t).1.

Lemma bump_sequence_ids p count t : pt_id <$> bump_sequence p count t = pt_id <$> t.
Proof.
  unfold bump_sequence. rewrite sql_update_rows, <- list_fmap_compose. apply list_fmap_ext. intros i r _. cbn. by destruct (_ =? _).
Qed.

(** The state after the rows [claimed] have been numbered; [t] is what remains. *)
Definition sequenced (w : World) (p : Z) (t claimed : list IncomingRow) (new : list OutgoingRow) : World :=
  mkWorld (with_outgoing (insert_rows new) (with_partitions (bump_sequence p (Z.of_nat (length claimed)))
             (with_incoming (fun _ => t) (ow_db w))))
    (ow_passes w) (ow_sweeps w) (ow_enqueued w) (ow_history w ++ ((fun r => (p, in_body_id r)) <$> claimed)) (ow_log w).

Lemma sequenced_inv w p t claimed start ids : oinv w -> let db1 := with_incoming (fun _ => t) (ow_db w) in
  claimed ++ ins db1 p ≡ₚ ins (ow_db w) p -> (forall q, q <> p -> ins db1 q = ins (ow_db w) q) -> NoDup (in_id <$> t) ->
  start = Z.of_nat (length (hist (ow_history w) p)) -> fresh (og_id <$> db_outgoing (ow_db w)) ids (length claimed) = true ->
  oinv (sequenced w p t claimed (outgoing_rows p start ids claimed)).
Proof.
  intros Hi db1 Hperm Hother Hnd Hstart Hf. pose proof (fresh_spec _ _ _ Hf) as (_ & Hlen & _).
  destruct (outgoing_rows_spec p start ids claimed Hlen) as (Hview & Hids & Hparts). set (new := outgoing_rows p start ids claimed) in *.
  assert (Houts : forall q, outs (ow_db (sequenced w p t claimed new)) q = outs (ow_db w) q ++ if q =? p then new else []).
  { intros q. unfold outs. cbn. unfold insert_rows. rewrite filter_app_bool. f_equal.
    destruct (Z.eqb_spec q p) as [->|Hne]; [apply filter_all|apply filter_none]; intros r Hr; rewrite (Hparts r Hr); lia. }
  assert (Hhist : forall q, hist (ow_history (sequenced w p t claimed new)) q =
    hist (ow_history w) q ++ if q =? p then in_body_id <$> claimed else []).
  { intros q. cbn [sequenced ow_history]. by rewrite hist_app, hist_of. }
  assert (Hins : forall q, ins (ow_db (sequenced w p t claimed new)) q = ins db1 q) by done.
  apply (inv_messages w); try done; try apply Hi.
  - split_and!; [by eexists|exists []; by rewrite app_nil_r|done|done].
  - cbn [sequenced ow_db with_outgoing with_partitions db_partitions]. rewrite bump_sequence_ids. apply Hi.
  - intros q. destruct (oi_outs w Hi q) as (v & Hv & Hle). exists v. split; [|done]. rewrite Houts, Hhist.
    pose proof (oi_cursor w Hi q). rewrite number_grows, fmap_app, Hv by lia. f_equal. destruct (Z.eqb_spec q p) as [->|]; [|done].
    by rewrite Hview, Hstart.
  - intros r. cbn [sequenced ow_db with_outgoing with_partitions db_partitions]. unfold bump_sequence. rewrite sql_update_rows.
    intros (r' & -> & Hr')%list_elem_of_fmap. pose proof (oi_sequence w Hi r' Hr') as Hs. rewrite Hhist, length_app.
    destruct (Z.eqb_spec (pt_id r') p) as [Hp|Hp]; cbn [pt_id pt_sequence].
    + rewrite Hp, Z.eqb_refl, length_fmap, Hs, Hp. lia.
    + rewrite (proj2 (Z.eqb_neq _ _) Hp). cbn. lia.
  - intros q. rewrite Hhist, Hins. change (ow_enqueued (sequenced w p t claimed new)) with (ow_enqueued w). rewrite (oi_perm w Hi q).
    destruct (Z.eqb_spec q p) as [->|Hne]; [|by rewrite app_nil_r, Hother]. by rewrite <- Hperm, fmap_app, app_assoc.
  - cbn. unfold insert_rows. eapply fresh_app; [apply Hi|by rewrite Hids].
  - intros q b Hb Hor. apply (oi_bodies w Hi q); [done|]. rewrite Hins, Houts, fmap_app, elem_of_app in Hor.
    destruct (Z.eqb_spec q p) as [->|Hne]; [|rewrite Hother in Hor by done; set_solver].
    rewrite <- Hperm, fmap_app. destruct Hor as [?|[?|Hid]]; [set_solver|set_solver|]. left. apply elem_of_app. left.
    apply list_elem_of_fmap in Hid as (r & -> & Hr). apply (list_elem_of_fmap_2 out_view) in Hr. rewrite Hview in Hr.
    apply list_elem_of_lookup in Hr as (i & Hr). rewrite number_lookup in Hr. destruct (_ !! i) eqn:Hc; [|done].
    cbn in Hr. injection Hr as _ <-. by eapply list_elem_of_lookup_2.
Qed.

Lemma sequence_step w p n locked ids : oinv w -> oinv (oexec w (OSequence p n locked ids)).
Proof.
  intros Hi. cbn [oexec]. unfold sequence_tx. destruct locked; cbn [negb]; [|done].
  pose proof (claim_spec w p n Hi) as Hclaim. destruct (claim_incoming_for_partition n p (ow_db w)) as [claimed db1].
  destruct Hclaim as (Hperm & Hother & Hdb1 & Hnd).
  assert (exists t, db1 = with_incoming (fun _ => t) (ow_db w)) as [t ->] by (by eexists). clear Hdb1.
  destruct claimed as [|r0 claimed0].
  { destruct (fresh _ _ _); [|done]. cbn [fmap list_fmap]. rewrite app_nil_r. by destruct w. }
  set (claimed := r0 :: claimed0) in *. unfold allocate_sequences. cbn [with_incoming db_partitions].
  destruct (List.filter _ (db_partitions (ow_db w))) as [|row rows] eqn:Hrow; cbn [map_err mbind result_bind]; [done|].
  destruct (fresh _ ids _) eqn:Hf; [|done].
  apply (sequenced_inv w p t claimed (pt_sequence row) ids); try done.
  assert (Hin : row ∈ List.filter (fun r => pt_id r =? p) (db_partitions (ow_db w))) by (rewrite Hrow; by left).
  apply elem_of_filter_bool in Hin as [Hp%Z.eqb_eq Hin]. rewrite <- Hp. by apply Hi.
Qed.

(** ** The vacuum *)

(** A message belongs to one partition. *)
Lemma enq_unique w p q b b' : oinv w -> b ∈ enq (ow_enqueued w) p -> b' ∈ enq (ow_enqueued w) q -> bd_id b = bd_id b' -> p = q.
Proof.
  intros Hi Hb%elem_of_enq Hb'%elem_of_enq Hid.
  by injection (fmap_inj_NoDup (fun e => bd_id e.2) _ _ _ (oi_enqueued w Hi) Hb Hb' Hid).
Qed.

(** No message is numbered twice, or both numbered and waiting. *)
Lemma hist_unique w p : oinv w -> NoDup (hist (ow_history w) p ++ (in_body_id <$> ins (ow_db w) p)).
Proof.
  intros Hi. rewrite <- (oi_perm w Hi p). unfold enq. rewrite <- list_fmap_compose. apply (filter_NoDup (fun e => bd_id e.2)), Hi.
Qed.

Lemma take_drop_length {A} n (l : list A) : l = take n l ++ drop (length (take n l)) l.
Proof.
  rewrite length_take. destruct (Nat.le_ge_cases n (length l)); [by rewrite Nat.min_l, take_drop|].
  by rewrite Nat.min_r, take_ge, drop_all, app_nil_r.
Qed.

(** A chunk of the vacuum is a prefix of the partition's outgoing rows, behind the cursor. *)
Lemma swept_rows w p s limit : oinv w ->
  let rows := sql_select og_seq (fun r => (og_partition_id r =? p) && (og_seq r <=? s)) limit (db_outgoing (ow_db w)) in
  outs (ow_db w) p = rows ++ drop (length rows) (outs (ow_db w) p) /\ forall r, r ∈ rows -> og_seq r <= s.
Proof.
  intros Hi. cbn zeta. split; [|intros r [_ Hr]%elem_of_select; lia]. unfold sql_select. rewrite filter_andb. fold (outs (ow_db w) p).
  assert (Hsort : StronglySorted (fun a b => og_seq a <= og_seq b) (outs (ow_db w) p)).
  { destruct (oi_outs w Hi p) as (v & Hv & _). apply (fmap_sorted out_view (fun a b => a.1 <= b.1)). rewrite Hv. apply number_sorted. }
  destruct (filter_le_prefix og_seq s _ Hsort) as [k ->].
  rewrite order_by_id by (rewrite <- (take_drop k) in Hsort; by eapply StronglySorted_app_1_l).
  rewrite take_take. apply take_drop_length.
Qed.

(** The bodies of the rows swept belong to no message that remains. *)
Lemma swept_bodies w p q rows rest b : oinv w -> outs (ow_db w) p = rows ++ rest -> b ∈ enq (ow_enqueued w) q ->
  (bd_id b ∈ in_body_id <$> ins (ow_db w) q) \/ (bd_id b ∈ og_body_id <$> if q =? p then rest else outs (ow_db w) q) ->
  bd_id b ∉ og_body_id <$> rows.
Proof.
  intros Hi Hout Hb Hor Hrow. destruct (oi_outs w Hi p) as (v & Hv & _).
  assert (Hhist : og_body_id <$> (rows ++ rest) = drop v (hist (ow_history w) p)).
  { rewrite <- Hout. transitivity (snd <$> (out_view <$> outs (ow_db w) p)); [by rewrite <- list_fmap_compose|]. rewrite Hv.
    apply list_eq. intros i. rewrite list_lookup_fmap, number_lookup. by destruct (_ !! i). }
  pose proof (hist_unique w p Hi) as Hnd. rewrite <- (take_drop v (hist _ _)), <- Hhist, fmap_app in Hnd.
  assert (Hin : bd_id b ∈ bd_id <$> enq (ow_enqueued w) p).
  { rewrite (oi_perm w Hi p), <- (take_drop v (hist _ _)), <- Hhist, fmap_app. set_solver. }
  apply list_elem_of_fmap in Hin as (b' & Hid & Hb'). rewrite (enq_unique w q p b b' Hi Hb Hb' Hid), Z.eqb_refl in Hor.
  rewrite !NoDup_app in Hnd. destruct Hnd as ((_ & _ & _ & Hd & _) & Hd' & _).
  destruct Hor as [Hor|Hor]; [apply (Hd' (bd_id b)); set_solver|by apply (Hd (bd_id b))].
Qed.

Lemma sweep_inv w p s limit : oinv w -> s <= cursor (ow_db w) p -> oinv (with_db (fun db => (delete_chunk p s limit db).1) w).
Proof.
  intros Hi Hs. destruct (swept_rows w p s limit Hi) as [Hout Hrows]. unfold delete_chunk.
  set (rows := sql_select _ _ _ _) in *. set (rest := drop (length rows) (outs (ow_db w) p)) in *. cbn [fst].
  set (w' := with_db _ w).
  assert (Hogs : NoDup (og_id <$> rows ++ rest)) by (rewrite <- Hout; apply filter_NoDup, Hi).
  assert (Houts : forall q, outs (ow_db w') q = if q =? p then rest else outs (ow_db w) q).
  { intros q. unfold outs. cbn. unfold sql_delete. rewrite filter_comm. fold (outs (ow_db w) q).
    destruct (Z.eqb_spec q p) as [->|Hne]; [rewrite Hout; by apply delete_app|].
    apply filter_all. intros r [Hr Hin]%elem_of_filter_bool. unfold in_list. rewrite bool_decide_false; [done|].
    intros (r' & Hk & Hr')%list_elem_of_fmap. assert (Hp' : r' ∈ outs (ow_db w) p) by (rewrite Hout; set_solver).
    apply elem_of_filter_bool in Hp' as [Hp' Hin']. rewrite (fmap_inj_NoDup og_id _ r r' (oi_out_ids w Hi) Hin Hin' Hk) in *. lia. }
  apply (inv_messages w); try done; try apply Hi.
  - split_and!; [exists []|exists []|done|done]; by rewrite app_nil_r.
  - intros q. destruct (oi_outs w Hi q) as (v & Hv & Hle). rewrite Houts. destruct (Z.eqb_spec q p) as [->|]; [|by exists v].
    assert (Hlen : (length rows <= length (drop v (hist (ow_history w) p)))%nat).
    { rewrite <- (number_length (Z.of_nat v)), <- Hv, length_fmap, Hout, length_app. lia. }
    exists (v + length rows)%nat. split.
    + unfold rest. rewrite fmap_drop, Hv, number_drop, drop_drop, Nat.min_l by done. by rewrite Nat2Z.inj_add.
    + destruct (last rows) as [r|] eqn:Hl; [|apply last_None in Hl; rewrite Hl; cbn; lia].
      assert (Hr : r ∈ rows) by (by apply last_Some_elem_of). rewrite last_lookup in Hl.
      assert (Hr' : (out_view <$> outs (ow_db w) p) !! Nat.pred (length rows) = Some (out_view r)).
      { rewrite list_lookup_fmap, Hout, lookup_app_l by (apply lookup_lt_Some in Hl; lia). by rewrite Hl. }
      rewrite Hv, number_lookup in Hr'. destruct (_ !! _) in Hr'; [|done]. cbn in Hr'. injection Hr' as Hseq _.
      specialize (Hrows r Hr). apply lookup_lt_Some in Hl. lia.
  - by apply filter_NoDup, Hi.
  - intros q b Hb Hor. rewrite Houts in Hor. apply elem_of_filter_bool. split.
    + unfold in_list. by rewrite bool_decide_false by (by eapply swept_bodies).
    + apply (oi_bodies w Hi q); [done|]. destruct Hor as [?|Hor]; [by left|right].
      destruct (Z.eqb_spec q p) as [->|]; [rewrite Hout; set_solver|done].
  - by apply filter_NoDup, Hi.
  - intros b [_ Hb]%elem_of_filter_bool. by apply Hi.
Qed.

Lemma sweep_step w n limit : oinv w -> oinv (oexec w (OSweep n limit)).
Proof.
  intros Hi. cbn [oexec]. destruct (ow_sweeps w !! n) as [[p s]|] eqn:Hn; [|done]. apply sweep_inv; [done|].
  apply (oi_sweeps w Hi). by eapply list_elem_of_lookup_2.
Qed.

(** ** Runs *)

Lemma oinv_step w op : oinv w -> op_ok op -> oinv (oexec w op).
Proof.
  intros Hi Hok. destruct op; [apply enqueue_step|apply sequence_step|apply acquire_step|apply release_step|apply finish_step
    |apply crash_step|apply sweep_read_step|apply sweep_step|apply decrement_step]; done.
Qed.

Lemma oinv_run w ops : oinv w -> Forall op_ok ops -> oinv (orun w ops).
Proof.
  intros Hi Hops. revert w Hi. induction Hops as [|op ops Hop _ IH]; intros w Hi; [done|]. cbn. apply IH. by apply oinv_step.
Qed.

Lemma oinv_init queue parts : NoDup parts -> oinv (oinit queue parts).
Proof.
  intros Hnd. assert (Hcur : forall p, cursor (registered queue parts) p = 0).
  { intros p. unfold cursor. cbn [registered db_processor]. clear Hnd.
    induction parts as [|q parts IH]; [done|]. cbn. unfold of_partition at 1. cbn. by destruct (q =? p). }
  split; cbn [oinit ow_db]; try done; try (by constructor).
  - cbn [registered db_partitions]. rewrite <- list_fmap_compose. by rewrite list_fmap_id.
  - cbn [registered db_processor]. rewrite <- list_fmap_compose. by rewrite list_fmap_id.
  - intros p. exists 0%nat. by rewrite Hcur.
  - intros p. by rewrite Hcur.
  - intros r (q & -> & _)%list_elem_of_fmap. done.
  - intros p s Hs. by apply not_elem_of_nil in Hs.
  - intros b Hb. by apply not_elem_of_nil in Hb.
  - intros p s. rewrite Hcur. lia.
Qed.

(** ** The blanket handler *)

(** What a batch holds after the handler took some of its messages: all it took were
    counted, and each was handled or rejected. *)
Definition batch_ok (msgs : list OutboxMessage) (b : Batch) (log : list OutboxMessage) : Prop :=
  b_msgs b = msgs /\ 0 <= b_processed b <= Z.of_nat (b_cursor b) /\ (b_cursor b <= length msgs)%nat /\
  (forall i m, (i < Z.to_nat (b_processed b))%nat -> msgs !! i = Some m ->
     m ∈ log \/ exists rej, rej ∈ b_rejections b /\ rj_index rej = i) /\
  (forall rej, rej ∈ b_rejections b -> (rj_index rej < length msgs)%nat).

Lemma handle_each_ok handle should_stop cut fuel n msgs b log0 : batch_ok msgs b log0 -> b_processed b = Z.of_nat (b_cursor b) ->
  let '(b', _, log) := handle_each handle should_stop cut fuel n b in batch_ok msgs b' (log0 ++ log).
Proof.
  revert n b log0. induction fuel as [|fuel IH]; intros n b log0 Hok Hc; cbn [handle_each]; [by rewrite app_nil_r|].
  unfold next_msg. destruct Hok as (Hm & Hp & Hcur & Hdone & Hrej). rewrite Hm.
  destruct (msgs !! b_cursor b) as [msg|] eqn:Hmsg; [|by rewrite app_nil_r].
  pose proof (lookup_lt_Some _ _ _ Hmsg) as Hlt.
  assert (Htaken : batch_ok msgs (mkBatch msgs (S (b_cursor b)) (b_processed b) (b_rejections b)) log0).
  { split_and!; cbn [b_msgs b_processed b_cursor b_rejections]; try done; lia. }
  case_bool_decide; [by rewrite app_nil_r|].
  destruct (handle msg) as [| |reason]; [|by rewrite app_nil_r|].
  - assert (Hack : batch_ok msgs (batch_ack (mkBatch msgs (S (b_cursor b)) (b_processed b) (b_rejections b))) (log0 ++ [msg])).
    { split_and!; cbn [batch_ack b_msgs b_processed b_cursor b_rejections]; try done; try lia. intros i m Hi Him.
      destruct (decide (i = b_cursor b)) as [->|Hne]; [left; set_solver|].
      destruct (Hdone i m ltac:(lia) Him) as [?|?]; [left; set_solver|by right]. }
    destruct (should_stop (S n)); [done|]. specialize (IH (S n) _ _ Hack). cbn in IH. specialize (IH ltac:(lia)).
    destruct (handle_each _ _ _ _ _ _) as [[b3 r] log]. by rewrite <- app_assoc in IH.
  - assert (Hrj : batch_ok msgs (batch_reject reason (mkBatch msgs (S (b_cursor b)) (b_processed b) (b_rejections b))) log0).
    { split_and!; cbn [batch_reject b_msgs b_processed b_cursor b_rejections]; try done; try lia.
      - intros i m Hi Him. destruct (decide (i = b_cursor b)) as [->|Hne].
        + right. eexists. split; [apply elem_of_app; right; by left|]. cbn. lia.
        + destruct (Hdone i m ltac:(lia) Him) as [?|(rej & ? & ?)]; [by left|right; exists rej; set_solver].
      - intros rej [Hr|Hr]%elem_of_app; [by apply Hrej|]. apply list_elem_of_singleton in Hr as ->. cbn. lia. }
    destruct (should_stop (S n)); [by rewrite app_nil_r|]. specialize (IH (S n) _ _ Hrj). cbn in IH. by apply IH; lia.
Qed.

(** One step more than the messages left is enough fuel. *)
Lemma handle_each_fuel handle should_stop cut fuel fuel' n b :
  (length (b_msgs b) < fuel + b_cursor b)%nat -> (length (b_msgs b) < fuel' + b_cursor b)%nat ->
  handle_each handle should_stop cut fuel n b = handle_each handle should_stop cut fuel' n b.
Proof.
  revert fuel' n b. induction fuel as [|fuel IH]; intros [|fuel'] n b Hf Hf'; [done|..]; cbn [handle_each]; unfold next_msg.
  - by rewrite lookup_ge_None_2 by (cbn in Hf; lia).
  - by rewrite lookup_ge_None_2 by (cbn in Hf'; lia).
  - destruct (b_msgs b !! b_cursor b) as [m|] eqn:Hm; [|done].
    case_bool_decide; [done|]. destruct (handle m); [|done|]; (destruct (should_stop (S n)); [done|]);
      by rewrite (IH fuel') by (cbn; lia).
Qed.

(** The blanket handler keeps the promise, whatever the message handler answers and
    wherever it is stopped or dropped. *)
Lemma run_leased_ok handle should_stop cut dropped_for msgs : outcome_ok msgs (run_leased handle should_stop cut dropped_for msgs).
Proof.
  unfold run_leased. pose proof (handle_each_ok handle should_stop cut (S (length msgs)) 0 msgs (batch_new msgs) []) as Hok.
  destruct (handle_each _ _ _ _ _ _) as [[b r] log]. destruct Hok as (Hm & Hp & Hcur & Hdone & Hrej); [|done|].
  - split_and!; cbn; try done; try lia. intros rej Hr. by apply not_elem_of_nil in Hr.
  - split_and!; cbn [oc_processed oc_log oc_rejections]; try done; lia.
Qed.

(** ** Progress *)

(** A handler that processes the whole batch. *)
Definition completes (handler : list OutboxMessage -> Outcome) : Prop :=
  forall msgs, oc_result (handler msgs) = HandlerResult.Success /\ oc_processed (handler msgs) = Z.of_nat (length msgs).

Definition idle (w : World) (k : string) (p now : Z) : Prop :=
  ow_passes w !! k = None /\ exists row, List.find (of_partition p) (db_processor (ow_db w)) = Some row /\ lease_free now row = true /\
    pr_attempts row < I16_MAX.

Lemma persist_some p msgs rejections tr db : (forall rej, rej ∈ rejections -> (rj_index rej < length msgs)%nat) ->
  is_Some (persist_rejections p msgs rejections tr db).
Proof.
  unfold persist_rejections. revert db. induction rejections as [|rej rejections IH]; intros db Hr; [by eexists|].
  cbn [fold_left mbind option_bind]. destruct (lookup_lt_is_Some_2 msgs (rj_index rej)) as [m ->]; [apply Hr; by left|].
  apply IH. intros; apply Hr; by right.
Qed.

(** A free row, as seen by the next worker. *)
Definition free_at (db : OutboxDb) (p : Z) : Prop :=
  exists row, List.find (of_partition p) (db_processor db) = Some row /\ pr_locked_by row = None /\ pr_attempts row = 0.

Lemma free_update p k f db row : List.find (of_partition p) (db_processor db) = Some row -> holder db p = Some k ->
  (forall r, pr_partition_id (f r) = pr_partition_id r) -> (forall r, pr_locked_by (f r) = None) -> (forall r, pr_attempts (f r) = 0) ->
  free_at (with_processor (fun t => (sql_update (leased_to p k) f t).1) db) p.
Proof.
  intros Hrow Hh Hf Hl Ha. exists (f row). cbn [with_processor db_processor]. rewrite find_update, Hrow by done.
  unfold holder in Hh. rewrite Hrow in Hh. cbn in Hh |- *. apply List.find_some in Hrow as [_ Hp].
  assert (leased_to p k row = true) as -> by (unfold leased_to; by rewrite Hp, bool_decide_true). done.
Qed.

(** The holder's acknowledgement of a processed batch goes through. *)
Lemma ack_success returning now instance p msgs m tr k oc db row : NoDup (pr_partition_id <$> db_processor db) ->
  outcome_ok msgs oc -> oc_result oc = HandlerResult.Success -> oc_processed oc = Z.of_nat (length msgs) ->
  last msgs = Some m -> 0 < om_seq m -> List.find (of_partition p) (db_processor db) = Some row -> holder db p = Some k ->
  let db' := (lease_guarded_ack returning now instance p msgs tr k oc db).1.1 in cursor db' p = om_seq m /\ free_at db' p.
Proof.
  intros Hnd (_ & _ & Hrej) Hres Hproc Hlast Hpos Hrow Hh. cbn zeta. unfold lease_guarded_ack, ack_leased.
  destruct (persist_some p msgs (oc_rejections oc) tr db Hrej) as [db0 Hper]. rewrite Hper, Hres.
  apply persist_spec in Hper as (extra & -> & _). set (db0 := with_dead _ db).
  assert (Hseq : processed_advance_seq msgs (oc_processed oc) = om_seq m).
  { unfold processed_advance_seq. rewrite Hproc. rewrite last_lookup in Hlast. pose proof (lookup_lt_Some _ _ _ Hlast).
    replace (Z.to_nat (Z.of_nat (length msgs) - 1)) with (Nat.pred (length msgs)) by lia. rewrite Hlast.
    rewrite (proj2 (Z.ltb_lt _ _)), Z.leb_refl by lia. done. }
  rewrite Hseq. unfold advance_cursor. rewrite (proj2 (Z.eqb_neq _ _)) by lia. unfold lease_ack_advance.
  set (f := fun r => mkProcessorRow (pr_partition_id r) (om_seq m) 0 None None None).
  pose proof (leased_spec p k f db0 Hnd ltac:(done) ltac:(done)) as (_ & _ & _ & Hn & Hc).
  pose proof (free_update p k f db0 row Hrow Hh ltac:(done) ltac:(done) ltac:(done)) as Hfree.
  change (holder db0 p) with (holder db p) in *. destruct (decide (holder db p = Some k)); [|done].
  destruct (sql_update (leased_to p k) f (db_processor db0)) as [t n] eqn:Hu. cbn [snd] in Hn. subst n. cbn [Z.eqb].
  pose proof (apply_trace_core returning now instance (trace_progress msgs tr (om_seq m) (rejected_seqs msgs (oc_rejections oc)))
    (bump_vacuum_counter p (with_processor (fun _ => t) db0))) as Hcore.
  destruct (apply_trace_progress _ _ _ _ _) as [db2 cl]. cbn [fst] in Hcore |- *. destruct Hcore as (_ & Hpr & _).
  unfold cursor, free_at in *. rewrite Hpr. cbn [bump_vacuum_counter with_vacuum with_processor db_processor] in *. rewrite Hu in *.
  destruct Hc as (r & _ & Hc). done.
Qed.

(** A pass: take the lease, call the handler, or give the lease back when there is
    nothing to do. *)
Definition pass_ops (k : string) (p secs now n : Z) (returning : bool) (instance : string) (handler : list OutboxMessage -> Outcome) :
    list OutboxOp := [OAcquire k p secs now n; OFinish k returning now instance handler; ORelease k].

Lemma acquire_pass w k p secs now n : oinv w -> idle w k p now ->
  let w1 := oexec w (OAcquire k p secs now n) in
  ow_history w1 = ow_history w /\ cursor (ow_db w1) p = cursor (ow_db w) p /\ holder (ow_db w1) p = Some k /\
  exists msgs tr, ow_passes w1 !! k = Some (mkPass p msgs tr) /\ reads w p (cursor (ow_db w) p) msgs /\
    length msgs = Nat.min (Z.to_nat n) (length (hist (ow_history w) p) - Z.to_nat (cursor (ow_db w) p)).
Proof.
  intros Hi (Hk & row & Hrow & Hfree & Hatt). cbn zeta. cbn [oexec]. rewrite Hk. unfold acquire_and_read.
  pose proof (acquire_spec p k secs now (ow_db w) (oi_procs w Hi)) as Ha.
  destruct (exec_lease_acquire p k secs now (ow_db w)) as [[db1 [[c a]|]]|] eqn:He; cbn [mbind result_bind].
  2: { exfalso. unfold exec_lease_acquire in He. destruct (bump_attempts _ _); [|done]. cbn [mbind result_bind] in He.
       rewrite (filter_row p), Hrow in He; [|apply Hi|].
       - apply List.find_some in Hrow as [_ Hp]. by rewrite Hp, Hfree in He.
       - intros r [Hr _]%andb_prop. by apply Z.eqb_eq in Hr. }
  2: { destruct Ha as (row' & Hrow' & _ & Hfull). rewrite Hrow in Hrow'. injection Hrow' as <-. lia. }
  destruct Ha as (Hdb & _ & Hcur & -> & Hhold).
  assert (exists t, db1 = with_processor (fun _ => t) (ow_db w)) as [t ->] by (eexists; exact Hdb).
  rewrite read_messages_processor.
  destruct (read_spec w p (Z.max (a - 1) (- 2 ^ 15)) n Hi) as (msgs & tr & -> & Hreads & Hlen). cbn [mbind result_bind].
  split_and!; [done|apply Hcur|cbn [ow_db with_passes with_db]; rewrite Hhold; by rewrite decide_True|].
  exists msgs, tr. split_and!; [apply lookup_insert_eq|done|done].
Qed.

Lemma idle_free w k p now : ow_passes w !! k = None -> free_at (ow_db w) p -> idle w k p now.
Proof.
  intros Hk (row & Hrow & Hl & Ha). split; [done|]. exists row. split_and!; [done|unfold lease_free; by rewrite Hl|by rewrite Ha].
Qed.

Lemma holder_row db p k : holder db p = Some k -> is_Some (List.find (of_partition p) (db_processor db)).
Proof. unfold holder. by destruct (List.find _ _). Qed.

(** A pass of a handler that completes moves the cursor over the next messages. *)
Lemma pass_cursor w k p secs now n returning instance handler : oinv w -> idle w k p now -> completes handler ->
  (forall msgs, outcome_ok msgs (handler msgs)) -> 0 <= n ->
  let w' := orun w (pass_ops k p secs now n returning instance handler) in
  cursor (ow_db w') p = Z.min (cursor (ow_db w) p + n) (Z.of_nat (length (hist (ow_history w) p))) /\
  idle w' k p now /\ ow_history w' = ow_history w.
Proof.
  intros Hi Hidle Hcomp Hok Hn. cbn zeta. unfold orun, pass_ops. cbn [fold_left]. pose proof (oi_cursor w Hi p) as Hc.
  pose proof (acquire_step w k p secs now n Hi) as Hi1.
  destruct (acquire_pass w k p secs now n Hi Hidle) as (Hhist & Hcur & Hh & msgs & tr & Hpass & Hreads & Hlen).
  set (w1 := oexec w (OAcquire k p secs now n)) in *. destruct (holder_row _ _ _ Hh) as [row Hrow]. rewrite <- Hhist.
  destruct msgs as [|m0 msgs0].
  - cbn [oexec]. rewrite Hpass. cbn [oexec]. rewrite Hpass. split_and!; [|apply idle_free|done].
    + cbn [ow_db with_passes with_db]. destruct (release_facts p k (ow_db w1) (oi_procs w1 Hi1)) as (_ & -> & _).
      rewrite Hhist, Hcur. cbn in Hlen. lia.
    + apply lookup_delete_eq.
    + by eapply free_update.
  - set (msgs := m0 :: msgs0) in *. destruct (last msgs) as [m|] eqn:Hlast; [|by apply last_None in Hlast].
    pose proof Hlast as Hm. rewrite last_lookup in Hm. destruct (Hreads _ m Hm) as (_ & Hseq & _).
    destruct (Hcomp msgs) as [Hres Hproc].
    pose proof (ack_success returning now instance p msgs m tr k (handler msgs) (ow_db w1) row (oi_procs w1 Hi1) (Hok msgs) Hres Hproc
      Hlast ltac:(lia) Hrow Hh) as [Hcur' Hfree].
    unfold msgs in Hcur', Hfree, Hpass. cbn [oexec]. rewrite Hpass.
    destruct (lease_guarded_ack _ _ _ _ _ _ _ _ _) as [[db' r] cl]. cbn [fst ow_passes oexec] in *. rewrite lookup_delete_eq.
    split_and!; [|apply idle_free; [apply lookup_delete_eq|done]|done]. cbn [ow_db]. rewrite Hcur', Hseq, Hhist.
    apply lookup_lt_Some in Hm. cbn [length] in *. lia.
Qed.

Lemma passes_cursor k p secs now n returning instance handler m : completes handler -> (forall msgs, outcome_ok msgs (handler msgs)) ->
  0 <= n -> forall w, oinv w -> idle w k p now ->
  let w' := orun w (mjoin (replicate m (pass_ops k p secs now n returning instance handler))) in
  oinv w' /\ ow_history w' = ow_history w /\
  cursor (ow_db w') p = Z.min (cursor (ow_db w) p + Z.of_nat m * n) (Z.of_nat (length (hist (ow_history w) p))).
Proof.
  intros Hcomp Hok Hn. set (ops := pass_ops k p secs now n returning instance handler).
  induction m as [|m IH]; intros w Hi Hidle; cbn zeta.
  - cbn. split_and!; [done|done|]. pose proof (oi_cursor w Hi p). lia.
  - change (mjoin (replicate (S m) ops)) with (ops ++ mjoin (replicate m ops)). unfold orun. rewrite fold_left_app. fold (orun w ops).
    assert (Hi' : oinv (orun w ops)). { apply oinv_run; [done|]. apply Forall_cons; split; [done|]. apply Forall_cons. split; [exact Hok|by apply Forall_singleton]. }
    destruct (pass_cursor w k p secs now n returning instance handler Hi Hidle Hcomp Hok Hn) as (Hc & Hidle' & Hh). fold ops in Hc, Hidle', Hh.
    destruct (IH _ Hi' Hidle') as (Hi2 & Hh2 & Hc2). unfold orun in *. split_and!; [done|by rewrite Hh2|].
    rewrite Hc2, Hh, Hc. lia.
Qed.

(** ** A full counter of attempts *)

(** The steps of the other workers: no leases are taken. *)
Definition leaseless (op : OutboxOp) : bool :=
  match op with OAcquire _ _ _ _ _ | ORelease _ | OFinish _ _ _ _ _ | OCrash _ => false | _ => true end.

(** They touch no processor row and forget nothing. *)
Lemma leaseless_step w op : leaseless op = true -> let w' := oexec w op in
  ow_passes w' = ow_passes w /\ ow_log w' = ow_log w /\ db_processor (ow_db w') = db_processor (ow_db w) /\ grows w w'.
Proof.
  intros Hop. cbn zeta.
  assert (Hsame : forall w', ow_passes w' = ow_passes w -> ow_log w' = ow_log w -> db_processor (ow_db w') = db_processor (ow_db w) ->
    db_dead (ow_db w') = db_dead (ow_db w) -> (exists h, ow_history w' = ow_history w ++ h) -> (exists e, ow_enqueued w' = ow_enqueued w ++ e) ->
    ow_passes w' = ow_passes w /\ ow_log w' = ow_log w /\ db_processor (ow_db w') = db_processor (ow_db w) /\ grows w w').
  { intros w' H1 H2 H3 H4 H5 H6. split_and!; [done|done|done|]. split_and!; [done|done|by rewrite H2|by rewrite H4]. }
  assert (Hid : exists l : list (Z * Z), ow_history w = ow_history w ++ l) by (exists []; by rewrite app_nil_r).
  assert (Hie : exists l, ow_enqueued w = ow_enqueued w ++ l) by (exists []; by rewrite app_nil_r).
  destruct op as [cache instance bids iids at_ batch|p n locked ids| | | | |p|n limit|p n]; try done; cbn [oexec].
  - unfold enqueue_batch. destruct (map_res _ _) as [resolved|]; cbn [mbind result_bind]; [|by apply Hsame].
    destruct (rs_trace batch) as [t|]; [destruct (2 ^ 63 - 1 <? _)|]; cbn [mbind result_bind]; [by apply Hsame| |];
      rewrite insert_batch_rows; (destruct (_ && _); [|by apply Hsame]); apply Hsame; try done; by eexists.
  - unfold sequence_tx, claim_incoming_for_partition. destruct locked; cbn [negb]; [|by apply Hsame].
    destruct (sql_select _ _ _ _) as [|r rows].
    { destruct (fresh _ _ _); [|by apply Hsame]. apply Hsame; try done. by eexists. }
    unfold allocate_sequences. cbn [with_incoming db_partitions]. destruct (List.filter _ _); cbn [map_err mbind result_bind]; [by apply Hsame|].
    destruct (fresh _ _ _); [|by apply Hsame]. apply Hsame; try done. by eexists.
  - destruct (ow_sweeps w !! n) as [[p s]|]; [|by apply Hsame].
    exact (Hsame (with_db (fun db => (delete_chunk p s limit db).1) w) eq_refl eq_refl eq_refl eq_refl Hid Hie).
Qed.

(** An acknowledgement leaves the rows that the worker holds no lease of as they are. *)
Definition keeps_others (p : Z) (k : string) (db db' : OutboxDb) : Prop :=
  forall q row, List.find (of_partition q) (db_processor db) = Some row -> leased_to p k row = false ->
    List.find (of_partition q) (db_processor db') = Some row.

Lemma keeps_others_update p k f db : (forall r, pr_partition_id (f r) = pr_partition_id r) ->
  keeps_others p k db (with_processor (fun t => (sql_update (leased_to p k) f t).1) db).
Proof. intros Hf q row Hrow Hl. cbn [with_processor db_processor]. rewrite find_update, Hrow by done. cbn. by rewrite Hl. Qed.

Lemma keeps_others_core p k db db1 db2 : keeps_others p k db db1 -> db_processor db2 = db_processor db1 -> keeps_others p k db db2.
Proof. intros Hk Hp q row Hrow Hl. rewrite Hp. by apply Hk. Qed.

Lemma advance_keeps_others p seq k db : keeps_others p k db (advance_cursor p seq k db).1.
Proof.
  unfold advance_cursor, lease_ack_advance. destruct (seq =? 0); [by apply keeps_others_update|].
  set (f := fun r => mkProcessorRow _ _ _ _ _ _). pose proof (keeps_others_update p k f db ltac:(done)) as Hk.
  destruct (sql_update _ f _) as [t n] eqn:Hu.
  assert (keeps_others p k db (with_processor (fun _ => t) db)).
  { eapply keeps_others_core; [exact Hk|]. cbn [with_processor db_processor]. by rewrite Hu. }
  destruct (n =? 0); done.
Qed.

Lemma ack_keeps_others returning now instance p msgs tr k oc db :
  keeps_others p k db (lease_guarded_ack returning now instance p msgs tr k oc db).1.1.
Proof.
  unfold lease_guarded_ack. destruct (persist_rejections _ _ _ _ _) as [db0|] eqn:Hper; [|by intros q row].
  apply persist_spec in Hper as (extra & -> & _). set (db0 := with_dead _ db).
  assert (Hk : keeps_others p k db0 (ack_leased returning now instance p msgs tr k (oc_result oc) (oc_processed oc)
    (rejected_seqs msgs (oc_rejections oc)) db0).1.1); [|destruct (ack_leased _ _ _ _ _ _ _ _ _ _ _) as [[db' [|]] cl]; [exact Hk|by intros q row]].
  unfold ack_leased. destruct (oc_result oc) as [|reason|reason].
  - set (seq := processed_advance_seq _ _). pose proof (advance_keeps_others p seq k db0) as Hk. destruct (advance_cursor _ _ _ _) as [db1 [|]]; [|exact Hk].
    pose proof (apply_trace_core returning now instance (trace_progress msgs tr seq (rejected_seqs msgs (oc_rejections oc))) db1) as (_ & Hp & _).
    destruct (apply_trace_progress _ _ _ _ _). by eapply keeps_others_core.
  - set (seq := processed_advance_seq _ _). destruct (0 <? seq).
    + pose proof (advance_keeps_others p seq k db0) as Hk. destruct (advance_cursor _ _ _ _) as [db1 [|]]; [|exact Hk].
      pose proof (apply_trace_core returning now instance (trace_progress msgs tr seq (rejected_seqs msgs (oc_rejections oc))) db1) as (_ & Hp & _).
      destruct (apply_trace_progress _ _ _ _ _) as [db2 cl]. eapply keeps_others_core; [exact Hk|]. cbn [fst].
      destruct (record_trace_retry_core now (traces_beyond msgs tr seq) reason db2) as (_ & -> & _). done.
    + destruct (record_trace_retry_core now tr reason db0) as (_ & Hp & _).
      unfold lease_record_retry. set (f := fun r => mkProcessorRow _ _ _ _ _ _). rewrite Hp.
      pose proof (keeps_others_update p k f db0 ltac:(done)) as Hk. destruct (sql_update _ f _) as [t n] eqn:Hu.
      eapply keeps_others_core; [exact Hk|]. cbn [with_processor db_processor fst]. by rewrite Hu.
  - destruct (insert_dead_letters_spec p reason tr (drop (Nat.min (Z.to_nat (oc_processed oc)) (length msgs)) msgs) db0) as (extra' & -> & _).
    pose proof (advance_keeps_others p (from_option om_seq 0 (last msgs)) k (with_dead (fun t => t ++ extra') db0)) as Hk.
    destruct (advance_cursor _ _ _ _) as [db1 [|]]; [|exact Hk].
    match goal with |- context [apply_trace_progress _ _ _ ?pr db1] => pose proof (apply_trace_core returning now instance pr db1) as (_ & Hp & _) end.
    destruct (apply_trace_progress _ _ _ _ _). by eapply keeps_others_core.
Qed.

(** A row whose counter is full and that nobody holds. *)
Definition exhausted (db : OutboxDb) (p : Z) (row : ProcessorRow) : Prop :=
  List.find (of_partition p) (db_processor db) = Some row /\ pr_attempts row = I16_MAX /\ pr_locked_by row = None.

Lemma exhausted_step w op p row : oinv w -> exhausted (ow_db w) p row -> exhausted (ow_db (oexec w op)) p row.
Proof.
  intros Hi (Hrow & Ha & Hl). split; [|done].
  assert (Hnl : forall q k, leased_to q k row = false) by (intros q k; unfold leased_to; rewrite Hl; by rewrite andb_false_r).
  destruct (leaseless op) eqn:Hop; [destruct (leaseless_step w op Hop) as (_ & _ & -> & _); done|].
  destruct op as [| |k q secs now n|k|k returning now instance handler|k| | |]; try done; cbn [oexec].
  - destruct (ow_passes w !! k); [done|]. unfold acquire_and_read, exec_lease_acquire. set (cond := fun r => of_partition q r && lease_free now r).
    rewrite (bump_attempts_spec q cond (ow_db w)); [|apply Hi|intros r [Hr _]%andb_prop; by apply Z.eqb_eq in Hr].
    destruct (decide (q = p)) as [->|Hne].
    + pose proof Hrow as Hrow'. apply List.find_some in Hrow' as [_ Hp]. rewrite Hrow. unfold cond, lease_free. by rewrite Hp, Hl, Ha.
    + assert (Hcond : cond row = false).
      { unfold cond. apply List.find_some in Hrow as [_ Hp]. unfold of_partition in *. apply Z.eqb_eq in Hp.
        by rewrite (proj2 (Z.eqb_neq _ _)) by lia. }
      destruct (match List.find _ _ with Some _ => _ | None => _ end); cbn [mbind result_bind]; [|done].
      set (f := fun r => mkProcessorRow _ _ _ _ _ _).
      assert (Hfind : List.find (of_partition p) (sql_update cond f (db_processor (ow_db w))).1 = Some row)
        by (rewrite find_update, Hrow by done; cbn; by rewrite Hcond).
      destruct (List.filter _ _) as [|r ?]; [exact Hfind|]. destruct (read_messages _ _ _ _ _) as [[msgs tr]|]; [exact Hfind|done].
  - destruct (ow_passes w !! k) as [[q [|] tr]|]; [|done|done]. by apply (keeps_others_update q k).
  - destruct (ow_passes w !! k) as [[q [|m msgs] tr]|]; [done| |done].
    pose proof (ack_keeps_others returning now instance q (m :: msgs) tr k (handler (m :: msgs)) (ow_db w) p row Hrow (Hnl _ _)) as Hk.
    by destruct (lease_guarded_ack _ _ _ _ _ _ _ _ _) as [[db' r] cl].
Qed.

(** ** Properties *)

(** C17: in every run of an outbox, however its callers, sequencers, processors and
    vacuum interleave, leases expire and workers crash, every message behind the cursor
    of its partition was handled by a handler that got its content, or is a dead letter
    with its content. *)
Theorem settled_behind_cursor queue parts ops : NoDup parts -> Forall op_ok ops ->
  let w := orun (oinit queue parts) ops in forall p s, 1 <= s <= cursor (ow_db w) p -> settled w p s.
Proof. intros Hnd Hops w. apply oi_settled, oinv_run; [by apply oinv_init|done]. Qed.

(** C18: in every such run nothing that was enqueued is lost or doubled: a partition's
    messages are its numbered history and the rows that wait; and reading a partition
    never fails and gives the next messages after the cursor, in order, consecutive
    and with the content that was enqueued. *)
Theorem reads_next_in_order queue parts ops : NoDup parts -> Forall op_ok ops ->
  let w := orun (oinit queue parts) ops in
  (forall p, NoDup (hist (ow_history w) p ++ (in_body_id <$> ins (ow_db w) p)) /\
     bd_id <$> enq (ow_enqueued w) p ≡ₚ hist (ow_history w) p ++ (in_body_id <$> ins (ow_db w) p)) /\
  forall p attempts n, exists msgs trace_ids,
    read_messages p (cursor (ow_db w) p) attempts n (ow_db w) = Ok (msgs, trace_ids) /\
    reads w p (cursor (ow_db w) p) msgs /\
    length msgs = Nat.min (Z.to_nat n) (length (hist (ow_history w) p) - Z.to_nat (cursor (ow_db w) p)).
Proof.
  intros Hnd Hops w. assert (Hi : oinv w) by (apply oinv_run; [by apply oinv_init|done]).
  split; [intros p; split; [by apply hist_unique|by apply Hi]|]. intros p attempts n. by apply read_spec.
Qed.

(** C22: from any state of a run, a worker that finds the lease free (and its counter
    of attempts not full) and whose handler completes its batches settles, in passes over [n] messages, every numbered message
    of the partition: after [m] passes the cursor is [m * n] further, or at the end. *)
Theorem passes_drain queue parts ops k p secs now n returning instance handler m :
  NoDup parts -> Forall op_ok ops -> completes handler -> (forall msgs, outcome_ok msgs (handler msgs)) ->
  let w := orun (oinit queue parts) ops in
  idle w k p now -> 0 < n -> Z.of_nat (length (hist (ow_history w) p)) <= Z.of_nat m * n ->
  let w' := orun w (mjoin (replicate m (pass_ops k p secs now n returning instance handler))) in
  forall s, 1 <= s <= Z.of_nat (length (hist (ow_history w) p)) -> settled w' p s.
Proof.
  intros Hnd Hops Hcomp Hok w Hidle Hn Hm w' s Hs. assert (Hi : oinv w) by (apply oinv_run; [by apply oinv_init|done]).
  destruct (passes_cursor k p secs now n returning instance handler m Hcomp Hok ltac:(lia) w Hi Hidle) as (Hi' & _ & Hc).
  pose proof (oi_cursor w Hi p). apply (oi_settled _ Hi'). rewrite Hc. lia.
Qed.

(** C29: the counter of attempts of a partition is a SMALLINT that every lease adds one
    to: once a partition was retried until the counter is full, no sequence of further
    steps, whatever its handlers answer, delivers another message of the partition. *)
Theorem attempts_exhausted queue parts ops ops' p row : NoDup parts -> Forall op_ok ops -> Forall op_ok ops' ->
  let w := orun (oinit queue parts) ops in exhausted (ow_db w) p row ->
  exhausted (ow_db (orun w ops')) p row /\ cursor (ow_db (orun w ops')) p = cursor (ow_db w) p.
Proof.
  intros Hnd Hops Hops' w Hex. assert (Hi : oinv w) by (apply oinv_run; [by apply oinv_init|done]).
  assert (Hex' : exhausted (ow_db (orun w ops')) p row).
  { clearbody w. revert w Hi Hex. induction Hops' as [|op ops' Hop _ IH]; intros w Hi Hex; [done|].
    cbn. apply IH; [by apply oinv_step|by apply exhausted_step]. }
  split; [done|]. destruct Hex as [Hrow _], Hex' as [Hrow' _]. unfold cursor. by rewrite Hrow, Hrow'.
Qed.

(** ** A run *)

(** Three messages of partition 7; the second is rejected.  The first worker crashes
    with its lease, which a second takes over once it has expired; the vacuum sweeps
    two of the three rows, and one more message is enqueued. *)
Definition sample_handler : list OutboxMessage -> Outcome :=
  run_leased (fun m => if om_seq m =? 2 then MessageResult.Reject "bad" else MessageResult.Ok) (fun _ => false) None "stopped".

Definition sample_batch (n : nat) (trace : option string) : Records :=
  mkRecords "q" (replicate n (mkRecordItem 0 (bytes "x") "t")) trace.

Definition sample_ops : list OutboxOp :=
  [OEnqueue {[ "q" := [7] ]} "me" [10; 11; 12] [20; 21; 22] 0 (sample_batch 3 (Some "tr"));
   OSequence 7 100 true [30; 31; 32];
   OAcquire "a" 7 30 0 10; OCrash "a"; OAcquire "b" 7 30 1000000 10;
   OAcquire "c" 7 30 40000000 10; OFinish "c" true 40000001 "me" sample_handler;
   OSweepRead 7; OSweep 0 2;
   OEnqueue {[ "q" := [7] ]} "me" [13] [23] 0 (sample_batch 1 None); OSequence 7 100 true [33]].

Lemma sample_ops_ok : Forall op_ok sample_ops.
Proof. repeat (apply Forall_cons; split); try exact I; [|by constructor]. intros msgs. apply run_leased_ok. Qed.

Lemma settled_behind_cursor_witness : cursor (ow_db (orun (oinit "q" [7]) sample_ops)) 7 = 3 /\ settled (orun (oinit "q" [7]) sample_ops) 7 2.
Proof.
  split; [vm_compute; reflexivity|]. apply (settled_behind_cursor "q" [7] sample_ops); [by apply NoDup_singleton|exact sample_ops_ok|].
  vm_compute. split; discriminate.
Defined.

Lemma reads_next_in_order_witness :
  length (db_outgoing (ow_db (orun (oinit "q" [7]) sample_ops))) = 2%nat /\
  exists msgs trace_ids, read_messages 7 (cursor (ow_db (orun (oinit "q" [7]) sample_ops)) 7) 0 10 (ow_db (orun (oinit "q" [7]) sample_ops))
    = Ok (msgs, trace_ids) /\ length msgs = 1%nat.
Proof.
  split; [vm_compute; reflexivity|].
  destruct (reads_next_in_order "q" [7] sample_ops (NoDup_singleton 7) sample_ops_ok) as [_ Hr].
  destruct (Hr 7 0 10) as (msgs & tr & Hm & _ & Hlen). exists msgs, tr. split; [exact Hm|]. rewrite Hlen. vm_compute. reflexivity.
Defined.

Definition accept_all : list OutboxMessage -> Outcome := fun msgs => mkOutcome HandlerResult.Success (Z.of_nat (length msgs)) [] msgs.

Lemma accept_all_ok msgs : outcome_ok msgs (accept_all msgs).
Proof.
  split_and!; cbn; [lia|lia| |]; [intros i m _ Hm; left; by eapply list_elem_of_lookup_2|]. intros rej Hr. by apply not_elem_of_nil in Hr.
Qed.

Lemma passes_drain_witness : settled (orun (orun (oinit "q" [7]) sample_ops)
  (mjoin (replicate 4 (pass_ops "d" 7 30 50000000 1 true "me" accept_all)))) 7 4.
Proof.
  apply (passes_drain "q" [7] sample_ops "d" 7 30 50000000 1 true "me" accept_all 4).
  - by apply NoDup_singleton.
  - exact sample_ops_ok.
  - by intros msgs.
  - exact accept_all_ok.
  - split; [vm_compute; reflexivity|]. eexists. split; [vm_compute; reflexivity|split; reflexivity].
  - lia.
  - vm_compute. discriminate.
  - vm_compute. split; discriminate.
Defined.

(** A handler that is down for the first 32767 passes over a message. *)
Definition busy : list OutboxMessage -> Outcome := fun _ => mkOutcome (HandlerResult.Retry "busy") 0 [] [].

Definition busy_ops : list OutboxOp :=
  [OEnqueue {[ "q" := [7] ]} "me" [10] [20] 0 (sample_batch 1 None); OSequence 7 100 true [30]] ++
  mjoin (replicate (Z.to_nat I16_MAX) [OAcquire "a" 7 30 0 10; OFinish "a" true 0 "me" busy]).

Lemma busy_ops_ok : Forall op_ok busy_ops.
Proof.
  apply Forall_app_2; [by repeat (apply Forall_cons; split)|]. generalize (Z.to_nat I16_MAX). intros n.
  induction n as [|n IH]; [by constructor|]. apply Forall_cons. split; [done|]. apply Forall_cons. split; [|exact IH].
  intros msgs. split_and!; cbn; [lia|lia|lia|]. intros rej Hr. by apply not_elem_of_nil in Hr.
Qed.

Lemma attempts_exhausted_witness : cursor (ow_db (orun (orun (oinit "q" [7]) busy_ops) (pass_ops "b" 7 30 50000000 10 true "me" accept_all))) 7 = 0.
Proof.
  refine (eq_trans (proj2 (attempts_exhausted "q" [7] busy_ops (pass_ops "b" 7 30 50000000 10 true "me" accept_all) 7
    (mkProcessorRow 7 0 I16_MAX (Some "busy") None None) _ busy_ops_ok _ _)) _).
  - by apply NoDup_singleton.
  - apply Forall_cons. split; [done|]. apply Forall_cons. split; [exact accept_all_ok|by apply Forall_singleton].
  - split; [vm_compute; reflexivity|split; reflexivity].
  - vm_compute. reflexivity.
Defined.
