(* ===== verification/OutboxTransactional.v ===== *)
(** * Transactional delivery: [libs/toolkit-db/src/outbox/strategy.rs], [handler.rs]

    A transactional handler writes its own tables [D] inside the transaction that moves
    the cursor.  A run is any sequence of enqueues, numberings, sweeps and transactional
    passes; the calls that were committed are kept for the statements.  Shown: the
    handler's tables are the result of the committed calls, and the calls that were not
    answered by a retry hand over every message behind the cursor exactly once, in
    order.  A call answered by a retry is committed as well, with the writes it made. *)

From S2P Require Import Prelude BTree Sql Retry OutboxModel OutboxWorkers OutboxRun OutboxDelivery.

Record Call := mkCall { call_partition : Z; call_msgs : list OutboxMessage; call_result : HandlerResult }.

Definition is_retry (r : HandlerResult) : bool := match r with HandlerResult.Retry _ => true | _ => false end.

Definition handled (calls : list Call) : list OutboxMessage :=
  calls ≫= fun c => match call_result c with HandlerResult.Success => call_msgs c | _ => [] end.

(** The messages handed over in the calls of a partition that were not retried. *)
Definition delivered (calls : list Call) (p : Z) : list OutboxMessage :=
  List.filter (fun c => (call_partition c =? p) && negb (is_retry (call_result c))) calls ≫= call_msgs.

Section transactional.
Context {D : Type} (handle : list OutboxMessage -> D -> HandlerResult * option Z * D).

(** The handler with its calls recorded. *)
Definition logging (p : Z) (msgs : list OutboxMessage) (dc : D * list Call) : HandlerResult * option Z * (D * list Call) :=
  let '(r, pc, d') := handle msgs dc.1 in (r, pc, (d', dc.2 ++ [mkCall p msgs r])).

(** The calls made one after the other. *)
Definition replay (batches : list (Z * list OutboxMessage)) (d : D) : D * list Call :=
  fold_left (fun dc b => (logging b.1 b.2 dc).2) batches (d, []).

Record TxWorld := mkTxWorld { tw_world : World; tw_data : D; tw_calls : list Call }.

Inductive TxOp :=
| TxOther (op : OutboxOp)
| TxPass (returning : bool) (now : Z) (instance : string) (partition_id msg_batch_size : Z) (locked stopped : bool).

Definition texec (tw : TxWorld) (op : TxOp) : TxWorld :=
  let w := tw_world tw in
  match op with
  | TxOther op => if leaseless op then mkTxWorld (oexec w op) (tw_data tw) (tw_calls tw) else tw
  | TxPass returning now instance p n locked stopped =>
      match process_transactional returning now instance p n locked stopped (logging p) (ow_db w) (tw_data tw, tw_calls tw) with
      | Ok (db', (d', calls'), _, _) =>
          mkTxWorld (mkWorld db' (ow_passes w) (ow_sweeps w) (ow_enqueued w) (ow_history w) (handled calls')) d' calls'
      | Err _ => tw
      end
  end.

Definition trun (tw : TxWorld) (ops : list TxOp) : TxWorld := fold_left texec ops tw.

Definition tinit (queue : string) (parts : list Z) (d : D) : TxWorld := mkTxWorld (oinit queue parts) d [].

(** ** The acknowledgement *)

Lemma advance_processed_spec p seq db row : List.find (of_partition p) (db_processor db) = Some row ->
  let db' := advance_processed_seq p seq db in
  pr_partition_id <$> db_processor db' = pr_partition_id <$> db_processor db /\
  (forall q, cursor db' q = if decide (q = p) then seq else cursor db q).
Proof.
  intros Hrow. cbn zeta. split; [by apply procs_update|]. intros q. unfold cursor, advance_processed_seq.
  cbn [with_processor db_processor]. rewrite find_update by done. destruct (decide (q = p)) as [->|Hne].
  - rewrite Hrow. apply List.find_some in Hrow as [_ Hp]. cbn. by rewrite Hp.
  - destruct (List.find (of_partition q) _) as [r|] eqn:Hr; [|done]. apply List.find_some in Hr as [_ Hr%Z.eqb_eq]. cbn.
    unfold of_partition. by rewrite (proj2 (Z.eqb_neq (pr_partition_id r) p)) by lia.
Qed.

(** What the acknowledgement of a batch does, by the handler's answer. *)
Lemma ack_transactional_spec returning now instance p msgs tr r db row m :
  List.find (of_partition p) (db_processor db) = Some row -> last msgs = Some m -> forall db' cl,
  ack_transactional returning now instance p msgs tr r db = Ok (db', cl) ->
  same_tables db db' /\ pr_partition_id <$> db_processor db' = pr_partition_id <$> db_processor db /\
  (forall q, cursor db' q = if decide (q = p) then (if is_retry r then cursor db p else om_seq m) else cursor db q) /\
  (forall d, d ∈ db_dead db -> d ∈ db_dead db') /\
  (forall reason, r = HandlerResult.Reject reason -> forall m', m' ∈ msgs -> exists d, d ∈ db_dead db' /\ letter_of p m' d).
Proof.
  intros Hrow Hlast db' cl. unfold ack_transactional. rewrite Hlast. cbn [from_option].
  destruct r as [|reason|reason]; cbn [is_retry].
  - match goal with |- context [apply_trace_progress ?a ?b ?c ?d ?e] => pose proof (apply_trace_core a b c d e) as Hc end.
    destruct (apply_trace_progress _ _ _ _ _) as [db2 cl2]. cbn [fst] in Hc. intros [= -> _].
    destruct (advance_processed_spec p (om_seq m) db row Hrow) as [Hids Hcur].
    split_and!; [apply Hc|by destruct Hc as (_ & -> & _)|intros q; rewrite (same_core_cursor _ _ q Hc); apply Hcur| |done].
    destruct Hc as (_ & _ & ->). done.
  - unfold record_retry_tx. destruct (bump_attempts _ _); [|done]. cbn [mbind result_bind]. set (db1 := with_processor _ db). intros [= <- _].
    pose proof (record_trace_retry_core now tr reason db1) as Hc.
    split_and!; [apply Hc|destruct Hc as (_ & -> & _); by apply procs_update| | |done].
    + intros q. rewrite (same_core_cursor _ _ q Hc). unfold db1. rewrite cursor_update by done. by destruct (decide (q = p)) as [->|].
    + destruct Hc as (_ & _ & ->). done.
  - destruct (insert_dead_letters_spec p reason tr msgs db) as (extra & -> & Hex).
    match goal with |- context [apply_trace_progress ?a ?b ?c ?d ?e] => pose proof (apply_trace_core a b c d e) as Hc end.
    destruct (apply_trace_progress _ _ _ _ _) as [db2 cl2]. cbn [fst] in Hc. intros [= -> _].
    destruct (advance_processed_spec p (om_seq m) (with_dead (fun t => t ++ extra) db) row Hrow) as [Hids Hcur].
    pose proof Hc as (_ & Hpr & Hd).
    split_and!; [apply Hc|by rewrite Hpr|intros q; rewrite (same_core_cursor _ _ q Hc); apply Hcur|rewrite Hd; cbn; set_solver|].
    intros _ _ m' Hm'. destruct (Hex m' Hm') as (d & Hd' & Hl). exists d. split; [rewrite Hd; cbn; set_solver|done].
Qed.

(** ** The invariant *)

Record tinv (d0 : D) (tw : TxWorld) : Prop := {
  ti_world : oinv (tw_world tw);
  ti_passes : ow_passes (tw_world tw) = ∅;
  ti_log : ow_log (tw_world tw) = handled (tw_calls tw);
  ti_replay : exists batches, replay batches d0 = (tw_data tw, tw_calls tw);
  ti_delivered p : reads (tw_world tw) p 0 (delivered (tw_calls tw) p) /\
    Z.of_nat (length (delivered (tw_calls tw) p)) = cursor (ow_db (tw_world tw)) p;
}.

Lemma delivered_app calls c q : delivered (calls ++ [c]) q =
  delivered calls q ++ if (call_partition c =? q) && negb (is_retry (call_result c)) then call_msgs c else [].
Proof.
  unfold delivered. rewrite filter_app_bool, bind_app. f_equal. cbn. destruct (_ && _); [|done]. cbn. by rewrite app_nil_r.
Qed.

(** A batch read behind what was read before. *)
Lemma reads_app w p c msgs msgs' : reads w p c msgs -> reads w p (c + Z.of_nat (length msgs)) msgs' -> reads w p c (msgs ++ msgs').
Proof.
  intros Hr Hr' i m. rewrite lookup_app_Some. intros [Hm|[Hle Hm]]; [by apply Hr|].
  destruct (Hr' _ m Hm) as (? & ? & ?). split_and!; [done|lia|done].
Qed.

Lemma other_step d0 tw op : tinv d0 tw -> tinv d0 (texec tw (TxOther op)).
Proof.
  intros [Hw Hp Hl Hr Hd]. cbn [texec]. destruct (leaseless op) eqn:Hop; [|done].
  destruct (leaseless_step (tw_world tw) op Hop) as (Hp' & Hl' & Hpr & Hg).
  assert (Hc : forall p, cursor (ow_db (oexec (tw_world tw) op)) p = cursor (ow_db (tw_world tw)) p) by (intros p; unfold cursor; by rewrite Hpr).
  split; cbn [tw_world tw_calls tw_data].
  - apply oinv_step; [done|]. by destruct op.
  - by rewrite Hp'.
  - by rewrite Hl'.
  - done.
  - intros p. destruct (Hd p) as [Hreads Hlen]. rewrite Hc. split; [by eapply reads_grows|done].
Qed.

(** What a pass does: nothing, or one call and its acknowledgement. *)
Lemma pass_spec w dc returning now instance p n locked stopped : oinv w ->
  match process_transactional returning now instance p n locked stopped (logging p) (ow_db w) dc with
  | Ok (db', dc', _, _) =>
      (db' = ow_db w /\ dc' = dc) \/
      exists row msgs m tr r pc, List.find (of_partition p) (db_processor (ow_db w)) = Some row /\
        reads w p (cursor (ow_db w) p) msgs /\ last msgs = Some m /\ logging p msgs dc = (r, pc, dc') /\
        exists cl, ack_transactional returning now instance p msgs tr r (ow_db w) = Ok (db', cl)
  | Err _ => True
  end.
Proof.
  intros Hi. unfold process_transactional.
  destruct locked; [|by left]. destruct (List.find _ _) as [row|] eqn:Hrow; [|by left].
  assert (Hcur : pr_processed_seq row = cursor (ow_db w) p) by (unfold cursor; by rewrite Hrow). rewrite Hcur.
  destruct (read_spec w p (pr_attempts row) n Hi) as (msgs & tr & -> & Hreads & _). cbn [mbind result_bind].
  destruct msgs as [|m0 msgs0]; [by left|]. destruct stopped; [by left|]. set (msgs := m0 :: msgs0) in *.
  destruct (logging p msgs dc) as [[r pc] dc'] eqn:Hlog.
  destruct (ack_transactional _ _ _ _ _ _ _ _) as [[db' cl]|] eqn:Hack; cbn [mbind result_bind]; [right|done].
  destruct (last msgs) as [m|] eqn:Hlast; [|by apply last_None in Hlast].
  exists row, msgs, m, tr, r, pc. split_and!; try done. by exists cl.
Qed.

Lemma last_seq w p msgs m : reads w p (cursor (ow_db w) p) msgs -> last msgs = Some m ->
  om_seq m = cursor (ow_db w) p + Z.of_nat (length msgs).
Proof.
  intros Hreads Hlast. rewrite last_lookup in Hlast. destruct (Hreads _ m Hlast) as (_ & -> & _). apply lookup_lt_Some in Hlast. lia.
Qed.

(** The state after a call and its acknowledgement. *)
Lemma call_inv w returning now instance p msgs m tr r row log : oinv w -> ow_passes w = ∅ ->
  List.find (of_partition p) (db_processor (ow_db w)) = Some row ->
  reads w p (cursor (ow_db w) p) msgs -> last msgs = Some m -> (forall x, x ∈ ow_log w -> x ∈ log) ->
  (r = HandlerResult.Success -> forall x, x ∈ msgs -> x ∈ log) ->
  forall db' cl, ack_transactional returning now instance p msgs tr r (ow_db w) = Ok (db', cl) ->
  let w' := mkWorld db' (ow_passes w) (ow_sweeps w) (ow_enqueued w) (ow_history w) log in oinv w' /\ grows w w'.
Proof.
  intros Hw Hp Hrow Hreads Hlast Hlog Hdone db' cl Hack w'. pose proof (last_seq w p msgs m Hreads Hlast) as Hseq.
  destruct (ack_transactional_spec returning now instance p msgs tr r (ow_db w) row m Hrow Hlast db' cl Hack) as ((Hb & Hin & Hout & Hpt) & Hids & Hcur & Hdead & Hrej).
  pose proof (oi_cursor w Hw p) as Hcp. pose proof (reads_bound w p _ msgs Hreads Hcp) as Hbound.
  assert (Hg : grows w w') by (split_and!; [exists []; by rewrite app_nil_r|exists []; by rewrite app_nil_r|done|done]).
  split; [|done]. apply (inv_progress w); try done; cbn [ow_db w'].
  - intros q. rewrite Hcur. pose proof (oi_cursor w Hw q). destruct (decide (q = p)) as [->|]; [|lia]. destruct (is_retry r); lia.
  - intros q s Hs. pose proof (oi_sweeps w Hw q s Hs). rewrite Hcur. destruct (decide (q = p)) as [->|]; [|done]. destruct (is_retry r); lia.
  - intros k pass. cbn [ow_passes w']. by rewrite Hp, lookup_empty.
  - intros q s. rewrite Hcur. destruct (decide (q = p)) as [->|]; [|lia]. intros Hs.
    destruct (lookup_lt_is_Some_2 msgs (Z.to_nat (s - cursor (ow_db w) p - 1))) as [x Hx]; [destruct (is_retry r); lia|].
    replace s with (cursor (ow_db w) p + 1 + Z.of_nat (Z.to_nat (s - cursor (ow_db w) p - 1))) by lia.
    apply (read_settled w w' p _ msgs _ x); try done. pose proof (list_elem_of_lookup_2 _ _ _ Hx) as Hx'.
    destruct r as [|reason|reason]; cbn [is_retry] in Hs; [left; by apply Hdone|lia|right; by apply (Hrej reason)].
Qed.

Lemma handled_app calls c : handled (calls ++ [c]) =
  handled calls ++ match call_result c with HandlerResult.Success => call_msgs c | _ => [] end.
Proof. unfold handled. rewrite bind_app. cbn. by rewrite app_nil_r. Qed.

Lemma pass_step d0 tw returning now instance p n locked stopped : tinv d0 tw ->
  tinv d0 (texec tw (TxPass returning now instance p n locked stopped)).
Proof.
  intros [Hw Hp Hl [batches Hr] Hd]. cbn [texec]. set (w := tw_world tw) in *.
  pose proof (pass_spec w (tw_data tw, tw_calls tw) returning now instance p n locked stopped Hw) as Hspec.
  destruct (process_transactional _ _ _ _ _ _ _ _ _ _) as [[[[db' [d' calls']] r0] cl0]|]; [|split; try done; by exists batches].
  destruct Hspec as [[-> [= -> ->]]|(row & msgs & m & tr & r & pc & Hrow & Hreads & Hlast & Hlog & cl & Hack)].
  { replace (mkTxWorld _ _ _) with tw; [split; try done; by exists batches|]. rewrite <- Hl. unfold w. by destruct tw as [[]]. }
  assert (Hcalls : calls' = tw_calls tw ++ [mkCall p msgs r]).
  { unfold logging in Hlog. cbn [fst snd] in Hlog. destruct (handle _ _) as [[? ?] ?]. congruence. }
  destruct (call_inv w returning now instance p msgs m tr r row (handled calls') Hw Hp Hrow Hreads Hlast) with (db' := db') (cl := cl) as [Hw' Hg].
  { intros x. rewrite Hl, Hcalls, handled_app. set_solver. }
  { intros -> x. rewrite Hcalls, handled_app. cbn. set_solver. }
  { exact Hack. }
  split; [done|done|done| |]; cbn [tw_world tw_data tw_calls].
  - exists (batches ++ [(p, msgs)]). unfold replay in *. rewrite fold_left_app, Hr. cbn [fold_left fst snd]. by rewrite Hlog.
  - intros q. destruct (Hd q) as [Hrd Hlen]. rewrite Hcalls, delivered_app. cbn [call_partition call_result call_msgs].
    destruct (ack_transactional_spec returning now instance p msgs tr r (ow_db w) row m Hrow Hlast db' cl Hack) as (_ & _ & Hcur & _).
    rewrite <- Hcalls. cbn [ow_db]. rewrite Hcur, (last_seq w p msgs m) by done. destruct (Z.eqb_spec p q) as [<-|Hne].
    + rewrite decide_True by done. destruct (is_retry r); cbn [andb negb]; [rewrite app_nil_r|rewrite length_app].
      * split; [by eapply reads_grows|done].
      * split; [|lia]. apply (reads_grows w); [done|]. apply reads_app; [done|]. by rewrite Z.add_0_l, Hlen.
    + rewrite decide_False, app_nil_r by done. split; [by eapply reads_grows|done].
Qed.

Lemma tinv_run d0 tw ops : tinv d0 tw -> tinv d0 (trun tw ops).
Proof.
  revert tw. induction ops as [|op ops IH]; intros tw Hi; [done|]. cbn. apply IH. destruct op; [by apply other_step|by apply pass_step].
Qed.

(** C21: in every run of a transactional queue, the handler's tables are what the
    committed calls made of them, one after the other, and the messages handed over in
    the calls that were not answered by a retry are, for every partition, exactly the
    messages up to the cursor, each once, in order and with its content. *)
Theorem transactional_calls queue parts ops d0 : NoDup parts -> let tw := trun (tinit queue parts d0) ops in
  (exists batches, replay batches d0 = (tw_data tw, tw_calls tw)) /\
  forall p, reads (tw_world tw) p 0 (delivered (tw_calls tw) p) /\
    Z.of_nat (length (delivered (tw_calls tw) p)) = cursor (ow_db (tw_world tw)) p.
Proof.
  intros Hnd tw. assert (Hi : tinv d0 tw); [|split; apply Hi]. apply tinv_run. pose proof (oinv_init queue parts Hnd) as Hw. split; try done.
  - by exists [].
  - intros p. split; [by intros i m|]. pose proof (oi_cursor _ Hw p) as Hc. cbn in *. lia.
Qed.
End transactional.

(** A per-message handler that notes the numbers it handled and asks for a retry at the
    third message on its first attempt. *)
Definition sample_handle (m : OutboxMessage) (d : list Z) : HandlerResult * list Z :=
  if (om_seq m =? 3) && (om_attempts m =? 0) then (HandlerResult.Retry "busy", d) else (HandlerResult.Success, d ++ [om_seq m]).

Definition sample_adapter (msgs : list OutboxMessage) (d : list Z) : HandlerResult * option Z * list Z :=
  let '(r, processed, d') := per_message sample_handle msgs 0 d in (r, Some (Z.of_nat processed), d').

Definition sample_tx_ops : list TxOp :=
  [TxOther (OEnqueue {[ "q" := [7] ]} "me" [10; 11; 12] [20; 21; 22] 0 (sample_batch 3 None)); TxOther (OSequence 7 100 true [30; 31; 32]);
   TxPass true 0 "me" 7 10 true false; TxPass true 1 "me" 7 10 true false].

(** The first two messages are handled in the retried call and again in the next. *)
Lemma transactional_calls_witness : let tw := trun sample_adapter (tinit "q" [7] []) sample_tx_ops in
  tw_data tw = [1; 2; 1; 2; 3] /\ cursor (ow_db (tw_world tw)) 7 = 3 /\ length (delivered (tw_calls tw) 7) = 3%nat.
Proof.
  pose proof (transactional_calls sample_adapter "q" [7] sample_tx_ops [] (NoDup_singleton 7)) as [_ Hd]. destruct (Hd 7) as [_ Hlen].
  cbn zeta. split; [vm_compute; reflexivity|]. split; [vm_compute; reflexivity|].
  apply Nat2Z.inj. rewrite Hlen. vm_compute. reflexivity.
Defined.
