(* ===== verification/OutboxSchedule.v ===== *)
(** * Scheduling and numbering together: [libs/toolkit-db/src/outbox]:
      [workers/sequencer.rs], [wake.rs], [prioritizer.rs]

    Any number of instances share the tables.  Each has its prioritizer, its enqueuers,
    which mark the partitions of a batch after its transaction has committed ([Wake]),
    and its sequencers, which take a partition, number its waiting rows in a bounded
    loop of transactions, and give the partition back ([Sequencer::execute]).  A run
    interleaves the transactions and critical sections of all of them with all other
    work on the tables.  Shown: a row that waits to be numbered is never forgotten. *)

From S2P Require Import Prelude BTree Sql Retry Prioritizer OutboxModel OutboxWorkers OutboxRun OutboxDelivery.

(** ** A sequencer at work *)

(** [process_partition] between two transactions: the iterations left and whether the
    last one drained the partition; or its result. *)
Module Job.
Inductive job := Running (remaining : nat) (drained : bool) | Finished (r : result PartitionError bool).
End Job.
Abbreviation Job := Job.job.

(** One iteration.  [fault] is an error of the database, which rolls back; a committed
    transaction returns the claimed rows. *)
Definition iterate (batch_size p : Z) (fault : option DbErr) (cancelled locked : bool) (ids : list Z) (remaining : nat) (drained : bool)
    (db : OutboxDb) : Job * option (list IncomingRow) :=
  match remaining with
  | O => (Job.Finished (Ok drained), None)
  | S remaining =>
      if cancelled then (Job.Finished (Ok false), None)
      else
        match fault with
        | Some e => (Job.Finished (Err (PartitionError.Db (OutboxError.Database e))), None)
        | None =>
            match sequence_tx batch_size p locked ids db with
            | Err e => (Job.Finished (Err e), None)
            | Ok ([], _) => (Job.Finished (Ok true), None)
            | Ok (claimed, _) =>
                (if Z.of_nat (length claimed) <? batch_size then Job.Finished (Ok true) else Job.Running remaining false, Some claimed)
            end
        end
  end.

(** The iterations are those of [process_partition]. *)
Lemma iterate_is_loop_body n p env envs drained total db :
  match iterate n p None (se_cancelled env) (se_locked env) (se_ids env) (S (length envs)) drained (se_others env db) with
  | (Job.Running remaining drained', claimed) => remaining = length envs /\ exists rows db',
      claimed = Some rows /\ sequence_tx n p (se_locked env) (se_ids env) (se_others env db) = Ok (rows, db') /\
      sequence_loop n p (env :: envs) drained total db = sequence_loop n p envs drained' (total + Z.of_nat (length rows)) db'
  | (Job.Finished r, _) => r = match (sequence_loop n p (env :: envs) drained total db).2 with Ok res => Ok (pp_drained res) | Err e => Err e end
  end.
Proof.
  cbn [iterate sequence_loop]. destruct (se_cancelled env); [done|].
  destruct (sequence_tx _ _ _ _ _) as [[rows db']|e] eqn:Hs; [|done]. destruct rows as [|r rows]; [done|].
  destruct (_ <? _); [done|]. split; [done|]. by exists (r :: rows), db'.
Qed.

(** ** Instances *)

(** The prioritizer of an instance, the partitions its enqueuers and sequencers are
    about to mark, and the jobs of the partitions its sequencers hold. *)
Record Instance := mkInstance { i_sys : System; i_owed : list Z; i_jobs : gmap Z Job }.

Record Cluster := mkCluster { c_world : World; c_inst : nat -> Instance }.

Inductive ClusterOp :=
| CEnqueue (i : nat) (cache : Partitions) (instance : string) (body_ids incoming_ids : list Z) (created_at : Z) (batch : Records)
| CFire (i n : nat) (now : Z)
| CDrain (i : nat)
| CPop (i batch : nat) (now : Z)
| CIterate (i g : nat) (fault : option DbErr) (cancelled locked : bool) (ids : list Z)
| CFinish (i g : nat) (now now' : Z) (backend : DbBackend)
| CDrop (i g : nat)
| CWorld (op : OutboxOp).

Definition set_inst (i : nat) (x : Instance) (c : Cluster) : Cluster :=
  mkCluster (c_world c) (fun j => if decide (j = i) then x else c_inst c j).

Definition set_world (w : World) (c : Cluster) : Cluster := mkCluster w (c_inst c).

Definition is_enqueue (op : OutboxOp) : bool := match op with OEnqueue _ _ _ _ _ _ => true | _ => false end.

(** What [Sequencer::execute] does with the result: how the guard is given back, and
    whether the partition is marked again afterwards. *)
Definition finish_op (r : result PartitionError bool) (backend : DbBackend) (g : nat) (now now' : Z) : SysOp * bool :=
  match r with
  | Ok drained => (OpProcessed g now now', negb drained)
  | Err PartitionError.Skipped => (OpRequeue g, false)
  | Err (PartitionError.Db e) =>
      if match e with OutboxError.Database db_err => is_retryable_contention backend db_err | _ => false end
      then (OpRequeue g, true) else (OpError g now, false)
  end.

Section cluster.
Context (batch_size : Z) (max_inner_iterations : nat).

Definition cexec (c : Cluster) (op : ClusterOp) : Cluster :=
  match op with
  | CEnqueue i cache instance body_ids incoming_ids created_at batch =>
      let x := c_inst c i in
      match enqueue_batch cache instance body_ids incoming_ids created_at batch (ow_db (c_world c)) with
      | Ok (_, _, parts) =>
          set_world (oexec (c_world c) (OEnqueue cache instance body_ids incoming_ids created_at batch))
            (set_inst i (mkInstance (i_sys x) (i_owed x ++ parts) (i_jobs x)) c)
      | Err _ => c
      end
  | CFire i n now =>
      let x := c_inst c i in
      match i_owed x !! n with
      | Some p => set_inst i (mkInstance (sys_exec (i_sys x) (OpPush p now)).1 (remove_at n (i_owed x)) (i_jobs x)) c
      | None => c
      end
  | CDrain i => let x := c_inst c i in set_inst i (mkInstance (sys_exec (i_sys x) OpDrain).1 (i_owed x) (i_jobs x)) c
  | CPop i b now =>
      let x := c_inst c i in
      let '(s, popped) := sys_exec (i_sys x) (OpPop b now) in
      set_inst i (mkInstance s (i_owed x) (match popped with
        | Some (p, _) => <[p := Job.Running max_inner_iterations true]> (i_jobs x)
        | None => i_jobs x end)) c
  | CIterate i g fault cancelled locked ids =>
      let x := c_inst c i in
      match sys_guards (i_sys x) !! g with
      | Some (p, _) =>
          match i_jobs x !! p with
          | Some (Job.Running remaining drained) =>
              let '(job, claimed) := iterate batch_size p fault cancelled locked ids remaining drained (ow_db (c_world c)) in
              let c' := set_inst i (mkInstance (i_sys x) (i_owed x) (<[p := job]> (i_jobs x))) c in
              match claimed with
              | None => c'
              | Some rows => if fresh (og_id <$> db_outgoing (ow_db (c_world c))) ids (length rows)
                             then set_world (oexec (c_world c) (OSequence p batch_size locked ids)) c' else c
              end
          | _ => c
          end
      | None => c
      end
  | CFinish i g now now' backend =>
      let x := c_inst c i in
      match sys_guards (i_sys x) !! g with
      | Some (p, _) =>
          match i_jobs x !! p with
          | Some (Job.Finished r) =>
              let '(op, again) := finish_op r backend g now now' in
              set_inst i (mkInstance (sys_exec (i_sys x) op).1 (i_owed x ++ if again then [p] else []) (delete p (i_jobs x))) c
          | _ => c
          end
      | None => c
      end
  | CDrop i g =>
      let x := c_inst c i in
      match sys_guards (i_sys x) !! g with
      | Some (p, _) => set_inst i (mkInstance (sys_exec (i_sys x) (OpRequeue g)).1 (i_owed x) (delete p (i_jobs x))) c
      | None => c
      end
  | CWorld op => if is_enqueue op then c else set_world (oexec (c_world c) op) c
  end.

Definition crun (c : Cluster) (ops : list ClusterOp) : Cluster := fold_left cexec ops c.
End cluster.

Definition cinit (queue : string) (parts : list Z) (now : nat -> Z) : Cluster :=
  mkCluster (oinit queue parts) (fun i => mkInstance (sys_init (now i)) [] ∅).

Definition cop_ok (op : ClusterOp) : Prop := match op with CWorld op => op_ok op | _ => True end.

(** ** Who sees to a partition *)

(** An instance sees to a partition: it is scheduled there, about to be marked, or held
    by a sequencer that has not found it empty. *)
Definition responsible (x : Instance) (p : Z) : Prop :=
  scheduled (i_sys x) p \/ (p ∈ i_owed x) \/
  exists job, i_jobs x !! p = Some job /\ job <> Job.Finished (Ok true).

Record cinv (c : Cluster) : Prop := {
  ci_world : oinv (c_world c);
  ci_sys i : sys_ok (i_sys (c_inst c i));
  ci_jobs i p : is_Some (i_jobs (c_inst c i) !! p) <-> p ∈ (sys_guards (i_sys (c_inst c i))).*1;
  ci_left i p remaining : i_jobs (c_inst c i) !! p = Some (Job.Running remaining true) -> (0 < remaining)%nat;
  ci_rows p : ins (ow_db (c_world c)) p <> [] -> exists i, responsible (c_inst c i) p;
}.

(** ** The waiting rows *)

(** An enqueue adds rows to the partitions it names only. *)
Lemma enqueue_ins w cache instance bids iids at_ batch db ids parts p :
  enqueue_batch cache instance bids iids at_ batch (ow_db w) = Ok (db, ids, parts) ->
  ins (ow_db (oexec w (OEnqueue cache instance bids iids at_ batch))) p <> [] -> ins (ow_db w) p <> [] \/ p ∈ parts.
Proof.
  intros He. cbn [oexec]. rewrite He. revert He. unfold enqueue_batch.
  destruct (map_res _ _) as [resolved|]; cbn [mbind result_bind]; [|done].
  set (trace_ok := match rs_trace batch with Some _ => _ | None => _ end).
  assert (Htrace : match trace_ok with Ok db1 => db_incoming db1 = db_incoming (ow_db w) | Err _ => True end).
  { unfold trace_ok. destruct (rs_trace batch); [|done]. by destruct (2 ^ 63 - 1 <? _). }
  destruct trace_ok as [db1|]; cbn [mbind result_bind]; [|done]. rewrite insert_batch_rows. intros [= <- <- <-].
  destruct (_ && _); [|by left]. unfold ins. cbn [ow_db with_incoming with_body db_incoming]. unfold insert_rows.
  rewrite Htrace, filter_app_bool. destruct (List.filter _ (db_incoming (ow_db w))) as [|r l]; [|by left]. cbn [app]. intros Hne. right.
  destruct (List.filter _ _) as [|r l] eqn:Hf; [done|].
  assert (Hr : r ∈ List.filter (fun r => in_partition_id r =? p) (zip_with (fun id pb => mkIncomingRow id pb.1 pb.2) iids (zip resolved bids)))
    by (rewrite Hf; by left).
  apply elem_of_filter_bool in Hr as [Hp%Z.eqb_eq (j & Hj)%list_elem_of_lookup].
  apply lookup_zip_with_Some in Hj as (id & pb & -> & _ & Hz). apply lookup_zip_with_Some in Hz as (q & b & -> & Hq & _). cbn in Hp. subst q.
  unfold sort_dedup. rewrite order_by_perm, elem_of_elements, elem_of_list_to_set. by eapply list_elem_of_lookup_2.
Qed.

(** A claim takes as many rows as there are, up to the batch size. *)
Lemma claim_length n p db : length (claim_incoming_for_partition n p db).1 = Nat.min (Z.to_nat n) (length (ins db p)).
Proof.
  unfold claim_incoming_for_partition, sql_select. cbn [fst]. rewrite length_take. f_equal. apply Permutation_length, order_by_perm.
Qed.

Lemma sequence_tx_ins w n p ids claimed db' : oinv w -> sequence_tx n p true ids (ow_db w) = Ok (claimed, db') ->
  (claimed ++ ins db' p ≡ₚ ins (ow_db w) p) /\ (forall q, q <> p -> ins db' q = ins (ow_db w) q) /\
  length claimed = Nat.min (Z.to_nat n) (length (ins (ow_db w) p)).
Proof.
  intros Hi. unfold sequence_tx. cbn [negb]. pose proof (claim_spec w p n Hi) as Hc. pose proof (claim_length n p (ow_db w)) as Hl.
  destruct (claim_incoming_for_partition n p (ow_db w)) as [rows db1]. destruct Hc as (Hperm & Hother & _ & _). cbn [fst] in Hl.
  destruct rows as [|r rows]; [intros [= <- <-]; by split_and!|].
  unfold allocate_sequences. destruct (List.filter _ _) as [|row ?]; cbn [map_err mbind result_bind]; [done|]. intros [= <- <-]. by split_and!.
Qed.

(** The transaction in a run. *)
Lemma sequence_exec w n p locked ids claimed db' : sequence_tx n p locked ids (ow_db w) = Ok (claimed, db') ->
  fresh (og_id <$> db_outgoing (ow_db w)) ids (length claimed) = true -> ow_db (oexec w (OSequence p n locked ids)) = db'.
Proof. intros Hs Hf. cbn [oexec]. by rewrite Hs, Hf. Qed.

(** All other work takes rows away, or leaves them. *)
Lemma ins_shrinks w op q : oinv w -> op_ok op -> is_enqueue op = false -> ins (ow_db (oexec w op)) q <> [] -> ins (ow_db w) q <> [].
Proof.
  intros Hi Hok Hop.
  destruct op as [|p n locked ids|k p secs now n|k|k returning now instance handler|k|p|n limit|p n]; try done; cbn [oexec].
  - destruct locked; [|done]. destruct (sequence_tx n p true ids (ow_db w)) as [[claimed db']|] eqn:Hs; [|done].
    destruct (fresh _ _ _); [|done]. cbn [ow_db]. destruct (sequence_tx_ins w n p ids claimed db' Hi Hs) as (Hperm & Hother & _).
    destruct (decide (q = p)) as [->|Hne]; [|by rewrite Hother]. intros Hne Hn. rewrite Hn in Hperm.
    apply Permutation_nil_r, app_nil in Hperm as [_ ?]. done.
  - destruct (ow_passes w !! k); [done|]. unfold acquire_and_read, exec_lease_acquire. destruct (bump_attempts _ _); cbn [mbind result_bind]; [|done].
    destruct (List.filter _ _); [done|]. by destruct (read_messages _ _ _ _ _) as [[]|].
  - by destruct (ow_passes w !! k) as [[? [|] ?]|].
  - destruct (ow_passes w !! k) as [[p [|m msgs] tr]|]; [done| |done].
    pose proof (guarded_ack_spec returning now instance p (m :: msgs) tr k (handler (m :: msgs)) (ow_db w) (oi_procs w Hi)) as Hack.
    cbn zeta in Hack. destruct (lease_guarded_ack _ _ _ _ _ _ _ _ _) as [[db' r] cl]. cbn [fst ow_db] in *. unfold ins.
    destruct Hack as [->|([(_ & -> & _) _ _ _ _] & _)]; done.
  - by destruct (ow_sweeps w !! n) as [[p s]|].
Qed.

(** ** Steps *)

(** A step of one instance: the rows that wait after it waited before and are still
    seen to, or the instance sees to them now. *)
Lemma inst_step c i x w : cinv c -> oinv w -> sys_ok (i_sys x) ->
  (forall p, is_Some (i_jobs x !! p) <-> p ∈ (sys_guards (i_sys x)).*1) ->
  (forall p remaining, i_jobs x !! p = Some (Job.Running remaining true) -> (0 < remaining)%nat) ->
  (forall p, ins (ow_db w) p <> [] -> responsible x p \/ (ins (ow_db (c_world c)) p <> [] /\ (responsible (c_inst c i) p -> responsible x p))) ->
  cinv (set_world w (set_inst i x c)).
Proof.
  intros Hc Hw Hs Hj Hl Hrows. split; cbn [set_world set_inst c_world c_inst]; [done|..].
  - intros j. destruct (decide (j = i)); [done|apply Hc].
  - intros j p. destruct (decide (j = i)); [apply Hj|apply Hc].
  - intros j p r. destruct (decide (j = i)); [apply Hl|apply Hc].
  - intros p Hp. destruct (Hrows p Hp) as [Hx|[Hold Hx]]; [exists i; by rewrite decide_True|].
    destruct (ci_rows c Hc p Hold) as [j Hr]. exists j. destruct (decide (j = i)) as [->|]; auto.
Qed.

Lemma set_world_same c i x : set_inst i x c = set_world (c_world c) (set_inst i x c).
Proof. done. Qed.

(** Operations of the prioritizer that hand out no partition keep the marks. *)
Lemma sys_keeps s op : sys_ok s -> (sys_exec s op).2 = None ->
  sys_ok (sys_exec s op).1 /\ forall q, scheduled s q -> scheduled (sys_exec s op).1 q.
Proof.
  intros Hs Hn. pose proof (sys_step s op Hs) as Hk. destruct (sys_exec s op) as [s' popped]. cbn in *. subst popped.
  destruct Hk as [Hok Hk]. split; [done|]. intros q Hq. by destruct (Hk q Hq) as [[t ?]|].
Qed.

Lemma responsible_sys x s q : (forall q, scheduled (i_sys x) q -> scheduled s q) ->
  responsible x q -> responsible (mkInstance s (i_owed x) (i_jobs x)) q.
Proof. intros Hk [Hq|Hq]; [left; by apply Hk|by right]. Qed.

Lemma elem_of_pids (l : list (Z * Z)) q : q ∈ l.*1 <-> q ∈ pids l.
Proof. unfold pids. by rewrite elem_of_list_to_set. Qed.

(** Giving a guard back, with its job. *)
Lemma give_back s g p t op jobs : sys_ok s -> sys_guards s !! g = Some (p, t) ->
  (forall q, is_Some (jobs !! q) <-> q ∈ (sys_guards s).*1) ->
  ((exists now now', op = OpProcessed g now now') \/ op = OpRequeue g \/ exists now, op = OpError g now) ->
  let s' := (sys_exec s op).1 in
  sys_ok s' /\ (forall q, scheduled s q -> scheduled s' q) /\
  (forall q, is_Some ((delete p jobs : gmap Z Job) !! q) <-> q ∈ (sys_guards s').*1) /\
  ((forall now now', op <> OpProcessed g now now') -> scheduled s' p).
Proof.
  intros Hs Hg Hj Hop. cbn zeta. pose proof (guard_claimed s g p t Hs Hg) as Hcl.
  assert (Hn : (sys_exec s op).2 = None /\ sys_guards (sys_exec s op).1 = remove_at g (sys_guards s)).
  { destruct Hop as [(now & now' & ->)|[->|[now ->]]]; cbn [sys_exec]; by rewrite Hg. }
  destruct Hn as [Hn Hgs]. destruct (sys_keeps s op Hs Hn) as [Hok Hk]. split_and!; [done|done| |].
  - intros q. destruct (remove_guard g (sys_guards s) p t (sk_guards s Hs) Hg) as (_ & Hrm & _).
    rewrite Hgs, elem_of_pids, Hrm, elem_of_difference, elem_of_singleton, <- elem_of_pids, <- Hj, lookup_delete_is_Some. naive_solver.
  - intros Hnp. right; right. destruct Hop as [(now & now' & ->)|[->|[now ->]]]; [by destruct (Hnp now now')|..]; cbn [sys_exec]; rewrite Hg; cbn.
    + destruct (ack_requeue_spec p t _ (sk_sched s Hs) Hcl) as (_ & _ & Hm). apply Hm. by right.
    + destruct (ack_error_spec p now _ (sk_sched s Hs) Hcl) as (_ & _ & Hm). apply Hm. by right.
Qed.

Lemma enqueue_cstep c i cache instance bids iids at_ batch n m : cinv c -> cinv (cexec n m c (CEnqueue i cache instance bids iids at_ batch)).
Proof.
  intros Hc. cbn [cexec]. destruct (enqueue_batch _ _ _ _ _ _ _) as [[[db ids] parts]|] eqn:He; [|done].
  apply inst_step; [done|apply enqueue_step, Hc|apply Hc|apply Hc|apply Hc|]. intros p Hp.
  destruct (enqueue_ins _ _ _ _ _ _ _ _ _ _ p He Hp) as [Hold|Hin]; [right; split; [done|]|left; right; left; cbn; set_solver].
  intros [?|[?|?]]; [by left|right; left; cbn; set_solver|by right; right].
Qed.

Lemma fire_cstep c i k now n m : cinv c -> cinv (cexec n m c (CFire i k now)).
Proof.
  intros Hc. cbn [cexec]. destruct (i_owed (c_inst c i) !! k) as [p|] eqn:Hk; [|done]. rewrite set_world_same.
  destruct (push_step (i_sys (c_inst c i)) p now (ci_sys c Hc i)) as [[Hok Hkeep] Hp].
  apply inst_step; [done|apply Hc|done|apply Hc|apply Hc|]. intros q Hq. right. split; [done|].
  destruct (remove_at_middle _ _ _ Hk) as (l1 & l2 & Hl & Hrm). rewrite Hrm. intros [Hs|[Ho|Hj]]; [|rewrite Hl in Ho|by right; right].
  - left. by destruct (Hkeep q Hs) as [[t ?]|].
  - destruct (decide (q = p)) as [->|Hne]; [by left|]. right; left. cbn. set_solver.
Qed.

Lemma drain_cstep c i n m : cinv c -> cinv (cexec n m c (CDrain i)).
Proof.
  intros Hc. cbn [cexec]. rewrite set_world_same. destruct (sys_keeps (i_sys (c_inst c i)) OpDrain (ci_sys c Hc i) eq_refl) as [Hok Hk].
  apply inst_step; [done|apply Hc|done|apply Hc|apply Hc|]. intros q Hq. right. split; [done|]. by apply responsible_sys.
Qed.

Lemma pop_guards s b now : sys_guards (sys_exec s (OpPop b now)).1 = sys_guards s ++ option_list (sys_exec s (OpPop b now)).2.
Proof.
  cbn [sys_exec]. destruct (sys_drained s !! b) as [drained|]; [|by rewrite app_nil_r]. by destruct (take_pop _ _ _) as [[sh popped] ?].
Qed.

Lemma pop_cstep c i b now n m : (0 < m)%nat -> cinv c -> cinv (cexec n m c (CPop i b now)).
Proof.
  intros Hm Hc. cbn [cexec]. set (x := c_inst c i). pose proof (pop_step (i_sys x) b now (ci_sys c Hc i)) as Hk.
  pose proof (pop_guards (i_sys x) b now) as Hg. destruct (sys_exec (i_sys x) (OpPop b now)) as [s popped]. cbn [fst snd] in Hg. destruct Hk as [Hok Hk].
  rewrite set_world_same. destruct popped as [[p t]|]; (apply inst_step; [done|apply Hc|done|..]; cbn [i_sys i_jobs i_owed]).
  - intros q. pose proof (ci_jobs c Hc i q) as Hjq. fold x in Hjq. rewrite Hg, fmap_app, elem_of_app, <- Hjq, lookup_insert_is_Some.
    change (option_list (Some (p, t))).*1 with [p]. rewrite list_elem_of_singleton. destruct (decide (p = q)); naive_solver.
  - intros q r. destruct (decide (p = q)) as [->|Hne]; [rewrite lookup_insert_eq; by intros [= <-]|].
    rewrite lookup_insert_ne by done. apply (ci_left c Hc i).
  - intros q Hq. right. split; [done|]. intros Hr. destruct (decide (p = q)) as [->|Hne].
    + right; right. cbn. rewrite lookup_insert_eq. by eexists.
    + destruct Hr as [Hs|[Ho|(job & Hj & Hne')]]; [destruct (Hk q Hs) as [[t' [= ]]|]; [congruence|by left]|by right; left|].
      right; right. exists job. cbn. by rewrite lookup_insert_ne.
  - change (option_list (None : option (Z * Z))) with (@nil (Z * Z)) in Hg. rewrite app_nil_r in Hg. rewrite Hg. apply (ci_jobs c Hc i).
  - apply (ci_left c Hc i).
  - intros q Hq. right. split; [done|]. apply responsible_sys. intros q' Hq'. by destruct (Hk q' Hq') as [[? ?]|].
Qed.

(** The job of a partition that a sequencer holds goes on. *)
Lemma job_cstep c i p w job old : cinv c -> oinv w -> i_jobs (c_inst c i) !! p = Some old ->
  (forall r, job = Job.Running r true -> (0 < r)%nat) ->
  (forall q, ins (ow_db w) q <> [] -> ins (ow_db (c_world c)) q <> []) ->
  (job = Job.Finished (Ok true) -> ins (ow_db w) p = []) ->
  cinv (set_world w (set_inst i (mkInstance (i_sys (c_inst c i)) (i_owed (c_inst c i)) (<[p := job]> (i_jobs (c_inst c i)))) c)).
Proof.
  intros Hc Hw Hold Hleft Hshrink Hempty. apply inst_step; [done|done|apply Hc|..]; cbn [i_sys i_jobs i_owed].
  - intros q. rewrite <- (ci_jobs c Hc i q), lookup_insert_is_Some. destruct (decide (p = q)) as [->|]; [|naive_solver].
    rewrite Hold. naive_solver.
  - intros q r. destruct (decide (p = q)) as [->|Hne]; [rewrite lookup_insert_eq; intros [= ->]; by apply Hleft|].
    rewrite lookup_insert_ne by done. apply (ci_left c Hc i).
  - intros q Hq. destruct (decide (p = q)) as [->|Hne].
    + left. right; right. exists job. cbn. rewrite lookup_insert_eq. split; [done|]. intros Hj. by apply Hq, Hempty.
    + right. split; [by apply Hshrink|]. intros [Hs|[Ho|(job' & Hj & Hne')]]; [by left|by right; left|].
      right; right. exists job'. cbn. by rewrite lookup_insert_ne.
Qed.

Lemma iterate_cstep c i g fault cancelled locked ids n m : 0 < n -> cinv c -> cinv (cexec n m c (CIterate i g fault cancelled locked ids)).
Proof.
  intros Hn Hc. cbn [cexec]. destruct (sys_guards _ !! g) as [[p t]|]; [|done].
  destruct (i_jobs (c_inst c i) !! p) as [[remaining drained|]|] eqn:Hj; [|done|done].
  assert (Hsame : forall job, (forall r, job = Job.Running r true -> (0 < r)%nat) -> (job = Job.Finished (Ok true) -> ins (ow_db (c_world c)) p = []) ->
    cinv (set_inst i (mkInstance (i_sys (c_inst c i)) (i_owed (c_inst c i)) (<[p := job]> (i_jobs (c_inst c i)))) c)).
  { intros job Hl He. rewrite set_world_same. eapply job_cstep; try done. apply Hc. }
  unfold iterate. destruct remaining as [|remaining].
  { apply Hsame; [done|]. intros [= ->]. pose proof (ci_left c Hc i p 0%nat Hj). lia. }
  destruct cancelled; [by apply Hsame|]. destruct fault as [e|]; [by apply Hsame|].
  destruct (sequence_tx n p locked ids (ow_db (c_world c))) as [[claimed db']|e] eqn:Hs; [|by apply Hsame].
  assert (locked = true) as -> by (destruct locked; [done|by cbn in Hs]).
  destruct (sequence_tx_ins (c_world c) n p ids claimed db' (ci_world c Hc) Hs) as (Hperm & Hother & Hlen).
  destruct claimed as [|r0 rows].
  { apply Hsame; [done|]. intros _. apply length_zero_iff_nil. cbn in Hlen. lia. }
  set (claimed := r0 :: rows) in *. destruct (fresh _ ids (length claimed)) eqn:Hf; [|done].
  pose proof (sequence_exec (c_world c) n p true ids claimed db' Hs Hf) as Hdb.
  set (w' := oexec (c_world c) (OSequence p n true ids)) in *.
  assert (Hshrink : forall q, ins (ow_db w') q <> [] -> ins (ow_db (c_world c)) q <> []).
  { intros q. apply (ins_shrinks (c_world c) (OSequence p n true ids)); [apply Hc|done|done]. }
  destruct (Z.ltb_spec (Z.of_nat (length claimed)) n) as [Hlt|Hge]; (eapply job_cstep; [done|by apply sequence_step, Hc|exact Hj|done|done|]); [|done].
  intros _. rewrite Hdb. apply Permutation_length in Hperm. rewrite length_app in Hperm. apply length_zero_iff_nil. lia.
Qed.

Lemma finish_cstep c i g now now' backend n m : cinv c -> cinv (cexec n m c (CFinish i g now now' backend)).
Proof.
  intros Hc. cbn [cexec]. destruct (sys_guards _ !! g) as [[p t]|] eqn:Hg; [|done].
  destruct (i_jobs (c_inst c i) !! p) as [[|r]|] eqn:Hj; [done| |done].
  destruct (finish_op r backend g now now') as [op again] eqn:Hop.
  assert (Hkind : (exists now now', op = OpProcessed g now now') \/ op = OpRequeue g \/ exists now, op = OpError g now).
  { unfold finish_op in Hop. destruct r as [|[|e]]; [|..|destruct (match e with OutboxError.Database _ => _ | _ => _ end)]; injection Hop as <- <-; eauto. }
  destruct (give_back (i_sys (c_inst c i)) g p t op _ (ci_sys c Hc i) Hg (ci_jobs c Hc i) Hkind) as (Hok & Hk & Hjobs & Hsched).
  rewrite set_world_same. apply inst_step; [done|apply Hc|done|done|..]; cbn [i_sys i_jobs i_owed].
  - intros q k [_ Hq]%lookup_delete_Some. by apply (ci_left c Hc i q).
  - intros q Hq. right. split; [done|]. intros [Hs|[Ho|(job & Hjq & Hne)]]; [left; by apply Hk|right; left; cbn; set_solver|].
    destruct (decide (q = p)) as [->|Hqp]; [|right; right; exists job; cbn; by rewrite lookup_delete_ne].
    rewrite Hj in Hjq. injection Hjq as <-. unfold finish_op in Hop.
    destruct r as [[|]|[|e]]; [done|..|destruct (match e with OutboxError.Database _ => _ | _ => _ end)]; injection Hop as <- <-;
      [right; left; cbn; set_solver|left; by apply Hsched|left; by apply Hsched|left; by apply Hsched].
Qed.

Lemma drop_cstep c i g n m : cinv c -> cinv (cexec n m c (CDrop i g)).
Proof.
  intros Hc. cbn [cexec]. destruct (sys_guards _ !! g) as [[p t]|] eqn:Hg; [|done].
  destruct (give_back (i_sys (c_inst c i)) g p t (OpRequeue g) _ (ci_sys c Hc i) Hg (ci_jobs c Hc i)) as (Hok & Hk & Hjobs & Hsched); [by right; left|].
  rewrite set_world_same. apply inst_step; [done|apply Hc|done|done|..]; cbn [i_sys i_jobs i_owed].
  - intros q k [_ Hq]%lookup_delete_Some. by apply (ci_left c Hc i q).
  - intros q Hq. right. split; [done|]. intros [Hs|[Ho|(job & Hjq & Hne)]]; [left; by apply Hk|by right; left|].
    destruct (decide (q = p)) as [->|Hqp]; [left; by apply Hsched|right; right; exists job; cbn; by rewrite lookup_delete_ne].
Qed.

Lemma world_cstep c op n m : cinv c -> op_ok op -> cinv (cexec n m c (CWorld op)).
Proof.
  intros Hc Hok. cbn [cexec]. destruct (is_enqueue op) eqn:He; [done|]. destruct Hc as [Hw Hs Hj Hl Hr]. split; try done.
  - by apply oinv_step.
  - intros p Hp. apply Hr. by eapply ins_shrinks.
Qed.


(** ** A run *)

(** Two messages are numbered; a third is enqueued while the sequencer holds the
    partition, and its enqueuer has not marked the partition yet when it is given back. *)
Definition sample_cluster_ops : list ClusterOp :=
  [CEnqueue 0 {[ "q" := [7] ]} "me" [10; 11] [20; 21] 0 (sample_batch 2 None); CFire 0 0 5; CDrain 0; CPop 0 0 6;
   CIterate 0 0 None false true [30; 31]; CEnqueue 0 {[ "q" := [7] ]} "me" [12] [22] 0 (sample_batch 1 None);
   CFinish 0 0 7 7 DbBackend.Postgres].

