(* ===== verification/Sdk.v ===== *)
(** * The ledger SDK: enums and posting DTOs ([ledger-sdk/src/enums.rs],
    [ledger-sdk/src/posting.rs])

    The [str_enum!] macro gives every enum its stored literals ([as_str]) and a
    parser ([FromStr]); the class [StrEnum] is the macro,
    its instances the enums.  Identifiers
    ([Uuid], 128 bits), calendar dates ([NaiveDate], a day number with
    1970-01-01 as 0) and instants ([OffsetDateTime], UTC nanoseconds since the
    epoch) are numbers.  [Uuid::now_v7()] is nondeterministic: an operation that
    draws identifiers takes the source of identifiers as an argument and the
    [k]-th identifier it draws is [now_v7 k]. *)

From S2P Require Import Prelude Decimal Money.

Definition Uuid := N.
Definition uuid_nil : Uuid := 0%N.
Definition NaiveDate := Z.
Definition OffsetDateTime := Z.
Definition epoch_date : NaiveDate := 0.

(** The [uuid] crate: fresh identifiers and their text. *)
Class UuidSource := {
  now_v7 : nat -> Uuid;
  uuid_to_string : Uuid -> string;
}.

(** [to_naive_date]: the civil UTC date of an instant. *)
Definition to_naive_date (at_ : OffsetDateTime) : NaiveDate := at_ / (86400 * 10 ^ 9).

Inductive Side := Debit | Credit.
Inductive MappingStatus := Resolved | Pending.

Inductive AccountClass :=
| Ar
| CashClearing
| Unallocated
| ReusableCredit
| ContractLiability
| Revenue
| TaxPayable
| Suspense
| DisputeHold
| RefundClearing
| ContraRevenue
| Goodwill
| DisputeLossExpense
| PspFeeExpense
| FxGainLoss
| FxUnrealized.

Inductive SourceDocType :=
| InvoicePost
| Reversal
| MappingCorrection
| PaymentSettle
| PaymentAllocate
| Chargeback
| CreditApply
| SettlementReturn
| ManualAdjustment
| ScheduleBuild
| Recognition
| CreditNote
| DebitNote
| Refund
| FxRevaluation
| FxRevalReversal.

#[global] Instance side_eq_dec : EqDecision Side.
Proof. solve_decision. Defined.
#[global] Instance mapping_status_eq_dec : EqDecision MappingStatus.
Proof. solve_decision. Defined.
#[global] Instance account_class_eq_dec : EqDecision AccountClass.
Proof. solve_decision. Defined.
#[global] Instance source_doc_type_eq_dec : EqDecision SourceDocType.
Proof. solve_decision. Defined.

(** ** Literals *)

(** The error of [FromStr]. *)
Record UnknownLiteral := mkUnknownLiteral { kind : string; value : string }.

(** [str_enum!]: the variants in declaration order, their literals, and the name
    of the enum.  The laws are what the macro's expansion relies on: every
    variant is listed, and no literal twice (a repeated one would make a match arm
    unreachable). *)
Class StrEnum (A : Type) := {
  enum_kind : string;
  variants : list A;
  as_str : A -> string;
  variants_all v : v ∈ variants;
  literals_distinct : NoDup (as_str <$> variants);
}.

(** [ALL] and [from_str], whose arms are tried in declaration order. *)
Definition ALL (A : Type) `{!StrEnum A} : list string := as_str <$> variants.

Definition from_str {A : Type} `{!StrEnum A} (s : string) : result UnknownLiteral A :=
  ok_or (List.find (fun v => bool_decide (as_str v = s)) variants)
        (mkUnknownLiteral enum_kind s).

Definition side_as_str (s : Side) : string :=
  match s with Debit => "DR" | Credit => "CR" end.

Definition mapping_status_as_str (s : MappingStatus) : string :=
  match s with Resolved => "RESOLVED" | Pending => "PENDING" end.

Definition account_class_as_str (c : AccountClass) : string :=
  match c with
  | Ar => "AR"
  | CashClearing => "CASH_CLEARING"
  | Unallocated => "UNALLOCATED"
  | ReusableCredit => "REUSABLE_CREDIT"
  | ContractLiability => "CONTRACT_LIABILITY"
  | Revenue => "REVENUE"
  | TaxPayable => "TAX_PAYABLE"
  | Suspense => "SUSPENSE"
  | DisputeHold => "DISPUTE_HOLD"
  | RefundClearing => "REFUND_CLEARING"
  | ContraRevenue => "CONTRA_REVENUE"
  | Goodwill => "GOODWILL"
  | DisputeLossExpense => "DISPUTE_LOSS_EXPENSE"
  | PspFeeExpense => "PSP_FEE_EXPENSE"
  | FxGainLoss => "FX_GAIN_LOSS"
  | FxUnrealized => "FX_UNREALIZED"
  end.

Definition source_doc_type_as_str (t : SourceDocType) : string :=
  match t with
  | InvoicePost => "INVOICE_POST"
  | Reversal => "REVERSAL"
  | MappingCorrection => "MAPPING_CORRECTION"
  | PaymentSettle => "PAYMENT_SETTLE"
  | PaymentAllocate => "PAYMENT_ALLOCATE"
  | Chargeback => "CHARGEBACK"
  | CreditApply => "CREDIT_APPLY"
  | SettlementReturn => "SETTLEMENT_RETURN"
  | ManualAdjustment => "MANUAL_ADJUSTMENT"
  | ScheduleBuild => "SCHEDULE_BUILD"
  | Recognition => "RECOGNITION"
  | CreditNote => "CREDIT_NOTE"
  | DebitNote => "DEBIT_NOTE"
  | Refund => "REFUND"
  | FxRevaluation => "FX_REVALUATION"
  | FxRevalReversal => "FX_REVAL_REVERSAL"
  end.

(** A finite enumeration is checked by evaluation. *)
Ltac solve_str_enum :=
  first [intros []; apply (bool_decide_unpack _); vm_compute; exact I
        |apply (bool_decide_unpack _); vm_compute; exact I].

#[global] Program Instance side_enum : StrEnum Side :=
  {| enum_kind := "side"; variants := [Debit; Credit]; as_str := side_as_str |}.
Next Obligation. solve_str_enum. Qed.
Next Obligation. solve_str_enum. Qed.

#[global] Program Instance mapping_status_enum : StrEnum MappingStatus :=
  {| enum_kind := "mapping_status"; variants := [Resolved; Pending];
     as_str := mapping_status_as_str |}.
Next Obligation. solve_str_enum. Qed.
Next Obligation. solve_str_enum. Qed.

#[global] Program Instance account_class_enum : StrEnum AccountClass :=
  {| enum_kind := "account_class";
     variants := [Ar; CashClearing; Unallocated; ReusableCredit; ContractLiability; Revenue;
                  TaxPayable; Suspense; DisputeHold; RefundClearing; ContraRevenue; Goodwill;
                  DisputeLossExpense; PspFeeExpense; FxGainLoss; FxUnrealized];
     as_str := account_class_as_str |}.
Next Obligation. solve_str_enum. Qed.
Next Obligation. solve_str_enum. Qed.

#[global] Program Instance source_doc_type_enum : StrEnum SourceDocType :=
  {| enum_kind := "source_doc_type";
     variants := [InvoicePost; Reversal; MappingCorrection; PaymentSettle; PaymentAllocate;
                  Chargeback; CreditApply; SettlementReturn; ManualAdjustment; ScheduleBuild;
                  Recognition; CreditNote; DebitNote; Refund; FxRevaluation; FxRevalReversal];
     as_str := source_doc_type_as_str |}.
Next Obligation. solve_str_enum. Qed.
Next Obligation. solve_str_enum. Qed.

Section str_enum.
Context {A : Type} `{!StrEnum A}.

Lemma find_variant (l : list A) v : NoDup (as_str <$> l) -> v ∈ l ->
  List.find (fun w => bool_decide (as_str w = as_str v)) l = Some v.
Proof.
  induction l as [|w l IH]; intros Hnd Hin; [by apply not_elem_of_nil in Hin|].
  rewrite fmap_cons in Hnd. apply NoDup_cons in Hnd as [Hw Hnd]. cbn [List.find].
  apply elem_of_cons in Hin as [->|Hin]; [by rewrite bool_decide_true|].
  rewrite bool_decide_false; [by apply IH|]. intros Heq. apply Hw. rewrite Heq.
  by apply list_elem_of_fmap_2.
Qed.

Lemma from_str_ok (s : string) (v : A) : from_str s = Ok v <-> s = as_str v.
Proof.
  unfold from_str. split.
  - intros Hs%ok_or_ok%find_some. destruct Hs as [_ Hs%bool_decide_eq_true]. done.
  - intros ->. rewrite find_variant; [done|apply literals_distinct|apply variants_all].
Qed.

Lemma as_str_inj (v w : A) : as_str v = as_str w -> v = w.
Proof.
  intros Heq. pose proof (proj2 (from_str_ok (as_str w) v) (eq_sym Heq)) as Hv.
  rewrite (proj2 (from_str_ok (as_str w) w) eq_refl) in Hv. by injection Hv.
Qed.

(** The stored literal of every SDK enum determines its variant: [from_str]
    reads back every literal [as_str] writes, accepts no other text, and answers
    every other text with the enum's kind and the offending literal. *)
Theorem str_enum_roundtrip (s : string) (v : A) :
  from_str (as_str v) = Ok v /\
  (from_str s = Ok v -> s = as_str v) /\
  ((s ∉ ALL A) -> from_str (A := A) s = Err (mkUnknownLiteral enum_kind s)).
Proof.
  rewrite !from_str_ok. split_and!; [done|done|].
  - intros Hs. unfold from_str. destruct (List.find _ _) as [w|] eqn:E; [|done].
    apply find_some in E as [_ E%bool_decide_eq_true]. destruct Hs. rewrite <- E.
    apply list_elem_of_fmap_2, variants_all.
Qed.
End str_enum.

(** [AccountClass::GUARDED] and [AccountClass::PER_STREAM]. *)
Definition GUARDED : list AccountClass :=
  [Ar; CashClearing; Unallocated; ContractLiability; DisputeHold; RefundClearing].
Definition is_guarded (c : AccountClass) : bool := bool_decide (c ∈ GUARDED).
Definition PER_STREAM : list AccountClass := [Revenue; ContractLiability].
Definition is_per_stream (c : AccountClass) : bool := bool_decide (c ∈ PER_STREAM).

(** ** Posting DTOs *)

Section dtos.
Context `{RustDecimal}.

Record PostLine := mkPostLine {
  line_id : Uuid;
  payer_tenant_id : Uuid;
  seller_tenant_id : option Uuid;
  resource_tenant_id : option Uuid;
  account_id : Uuid;
  account_class : AccountClass;
  gl_code : option string;
  side : Side;
  money : PostedMoney;
  invoice_id : option string;
  due_date : option NaiveDate;
  revenue_stream : option string;
  mapping_status : MappingStatus;
  functional_money : option PostedMoney;
  tax_jurisdiction : option string;
  tax_filing_period : option string;
  tax_rate_ref : option string;
  invoice_item_ref : option string;
  sku_or_plan_ref : option string;
  price_id : option string;
  pricing_snapshot_ref : option string;
  po_allocation_group : option string;
  credit_grant_event_type : option string;
  ar_status : option string;
}.

Record PostEntry := mkPostEntry {
  entry_id : Uuid;
  tenant_id : Uuid;
  period_id : string;
  entry_currency : string;
  source_doc_type : SourceDocType;
  source_business_id : string;
  effective_at : NaiveDate;
  posted_by_actor_id : Uuid;
  correlation_id : Uuid;
  reverses_entry_id : option Uuid;
  reverses_period_id : option string;
  lines : list PostLine;
}.

(** A line whose identifier is drawn last: the closures that build lines in the
    source draw one identifier per line, in order, and the entry draws its own
    after them. *)
Definition draw_ids `{!UuidSource} (ls : list (Uuid -> PostLine)) : list PostLine :=
  imap (fun i mk => mk (now_v7 i)) ls.

Lemma draw_ids_lookup `{!UuidSource} ls i l :
  draw_ids ls !! i = Some l <-> exists mk, ls !! i = Some mk /\ l = mk (now_v7 i).
Proof.
  unfold draw_ids. rewrite list_lookup_imap.
  destruct (ls !! i); cbn; naive_solver.
Qed.

Lemma draw_ids_length `{!UuidSource} ls : length (draw_ids ls) = length ls.
Proof. apply length_imap. Qed.

(** A view of the lines that ignores identifiers. *)
Lemma draw_ids_view `{!UuidSource} {A} (f : PostLine -> A) ls :
  (forall mk id, mk ∈ ls -> f (mk id) = f (mk uuid_nil)) ->
  f <$> draw_ids ls = (fun mk => f (mk uuid_nil)) <$> ls.
Proof.
  intros Hf. unfold draw_ids. apply list_eq. intros i.
  rewrite list_lookup_fmap, list_lookup_imap, list_lookup_fmap.
  destruct (ls !! i) as [mk|] eqn:E; cbn; [|done]. f_equal. apply Hf.
  by eapply list_elem_of_lookup_2.
Qed.

Lemma draw_ids_Forall `{!UuidSource} (P : PostLine -> Prop) ls :
  (forall mk id, mk ∈ ls -> P (mk id)) -> Forall P (draw_ids ls).
Proof.
  intros HP. apply Forall_lookup. intros i l (mk & Hmk & ->)%draw_ids_lookup.
  apply HP. by eapply list_elem_of_lookup_2.
Qed.
End dtos.

(** Identifiers for the witnesses. *)
Definition sample_uuids : UuidSource :=
  {| now_v7 k := N.of_nat (S k); uuid_to_string u := pretty u |}.

Lemma str_enum_roundtrip_witness :
  from_str "REVENUE" = Ok Revenue /\
  from_str (A := SourceDocType) "VOID" = Err (mkUnknownLiteral "source_doc_type" "VOID").
Proof.
  split.
  - exact (proj1 (str_enum_roundtrip "REVENUE" Revenue)).
  - refine (proj2 (proj2 (str_enum_roundtrip "VOID" Reversal)) _).
    apply (bool_decide_unpack _). vm_compute. exact I.
Defined.
