(* ===== verification/Lease.v ===== *)
(** * The distributed lease: [libs/coord/src/lease]

    One row per coordination domain says who holds it and until when, on the clock of
    the database.  [LeaseManager::acquire] takes a free or expired slot,
    [LeaseGuard::renew] extends a live one, [release] frees it and
    [LeaseGuard::with_ack_in_tx] commits the holder's work only under a fence on its
    own row.  The operations run over the class [Table]; a run interleaves the calls
    of any number of workers with the passing of time.  Shown: a live lease is never
    taken, renewed or released by another worker, however far the workers' clocks and
    snapshots are off; work is committed only by the live holder, and never by a
    worker whose lease was taken over; a heartbeat within the time to live keeps the
    lease. *)

From S2P Require Import Prelude Sdk Table Retry.

(** ** Errors *)

Module CoordError.
Inductive coord_error :=
| LeaseHeld
| LeaseLost
| Db (e : DbError).
End CoordError.
Abbreviation CoordError := CoordError.coord_error.

Definition coord_db_err (e : CoordError) : option DbErr :=
  match e with CoordError.Db (DbError.Sea e) => Some e | _ => None end.

Module AckError.
Inductive ack_error (E : Type) :=
| LeaseLost
| Work (e : E)
| Db (e : DbError).
Arguments LeaseLost {E}.
Arguments Work {E}.
Arguments Db {E}.
End AckError.
Abbreviation AckError := AckError.ack_error.

Definition ack_db_err {E} (extract_work_db_err : E -> option DbErr) (e : AckError E) : option DbErr :=
  match e with
  | AckError.Db (DbError.Sea e) => Some e
  | AckError.Db DbError.NotSea | AckError.LeaseLost => None
  | AckError.Work w => extract_work_db_err w
  end.

(** ** Dialects *)

(** Instants are microseconds since the epoch. *)
Definition SECOND : Z := 1000000.

(** [datetime(x)] of SQLite: whole seconds. *)
Definition whole_seconds (t : Z) : Z := t / SECOND * SECOND.

Module Dialect.
Inductive dialect := Postgres | Sqlite.
End Dialect.
Abbreviation Dialect := Dialect.dialect.

(** [{other:?}] of an engine name, which has nothing to escape. *)
Definition quoted (s : string) : string :=
  let q := String (Ascii.ascii_of_nat 34) EmptyString in q +:+ s +:+ q.

Definition from_engine (engine : string) : result CoordError Dialect :=
  if bool_decide (engine = "postgres"%string) then Ok Dialect.Postgres
  else if bool_decide (engine = "sqlite"%string) then Ok Dialect.Sqlite
  else Err (CoordError.Db (DbError.Sea (DbErr.Custom
    ("coord.lease: unsupported db_engine " +:+ quoted engine +:+ " (only postgres/sqlite)")))).

(** One row of [coord_leases] without its key. *)
Record LeaseRow := mkLeaseRow {
  locked_by : option Uuid;
  locked_until : Z;
  lease_attempts : Z;
}.

Definition now_expr (d : Dialect) (now : Z) : Z :=
  match d with Dialect.Postgres => now | Dialect.Sqlite => whole_seconds now end.

Definition expired_filter (d : Dialect) (now : Z) (r : LeaseRow) : bool :=
  match d with
  | Dialect.Postgres => locked_until r <? now_expr d now
  | Dialect.Sqlite => whole_seconds (locked_until r) <? whole_seconds now
  end.

Definition live_filter (d : Dialect) (now : Z) (r : LeaseRow) : bool :=
  match d with
  | Dialect.Postgres => now_expr d now <? locked_until r
  | Dialect.Sqlite => whole_seconds now <? whole_seconds (locked_until r)
  end.

Definition live_filter_clock (d : Dialect) (clock_timestamp : Z) (r : LeaseRow) : bool :=
  match d with
  | Dialect.Postgres => clock_timestamp <? locked_until r
  | Dialect.Sqlite => whole_seconds clock_timestamp <? whole_seconds (locked_until r)
  end.

Definition ttl_expr (d : Dialect) (now ttl_secs : Z) : Z := now_expr d now + ttl_secs * SECOND.

Definition epoch_expr : Z := 0.

(** [Duration] is nanoseconds; [as_secs] truncates, and the conversion saturates. *)
Definition ttl_secs_i64 (ttl : Z) : Z := Z.min (ttl / 1000000000) (2 ^ 63 - 1).

(** [coord_leases.locked_by = $1]; a NULL is not equal to anything. *)
Definition locked_by_is (u : Uuid) (r : LeaseRow) : bool := bool_decide (locked_by r = Some u).

Record LeaseGuard := mkLeaseGuard {
  lg_key : string;
  lg_locked_by : Uuid;
  lg_ttl : Z;
}.

(** ** Operations *)

Section operations.
Context {T : Type} `{!Table string LeaseRow T}.

Definition claim_expired_slot (d : Dialect) (now : Z) (key : string) (my_uuid : Uuid) (ttl_secs : Z) (t : T) : T * Z :=
  t_update t key (expired_filter d now)
    (fun r => mkLeaseRow (Some my_uuid) (ttl_expr d now ttl_secs) (lease_attempts r + 1)).

Definition claim_or_held (d : Dialect) (now : Z) (key : string) (my_uuid : Uuid) (ttl_secs : Z) (t : T) :
    result CoordError (unit * T) :=
  let '(t', rows) := claim_expired_slot d now key my_uuid ttl_secs t in
  if rows =? 0 then Err CoordError.LeaseHeld else Ok (tt, t').

(** The body of the acquire transaction.  [snapshot] is what its SELECT sees, [now] the
    [NOW()] of the transaction, [worker_now] the worker's own clock. *)
Definition acquire_tx (d : Dialect) (key : string) (my_uuid : Uuid) (ttl_secs now worker_now : Z) (snapshot t : T) :
    result CoordError (unit * T) :=
  match t_find snapshot key with
  | None =>
      match t_insert t key (mkLeaseRow None epoch_expr 0) with
      | None => Err CoordError.LeaseHeld
      | Some t1 => claim_or_held d now key my_uuid ttl_secs t1
      end
  | Some row =>
      if locked_until row <=? worker_now then claim_or_held d now key my_uuid ttl_secs t
      else Err CoordError.LeaseHeld
  end.

(** What one attempt of a transaction observes besides the tables. *)
Record TxView := mkTxView {
  tv_snapshot : T;
  tv_now : Z;
  tv_worker_now : Z;
}.

Definition acquire (backend : DbBackend) (engine : string) (key : string) (my_uuid : Uuid) (ttl : Z)
    (env : Z -> TxAttempt T) (view : Z -> TxView) (t : T) : T * result CoordError LeaseGuard :=
  let ttl_secs := ttl_secs_i64 ttl in
  match from_engine engine with
  | Err e => (t, Err e)
  | Ok dialect =>
      let '(t', r) := transaction_with_retry CoordError.Db backend coord_db_err env
        (fun n t => acquire_tx dialect key my_uuid ttl_secs (tv_now (view n)) (tv_worker_now (view n)) (tv_snapshot (view n)) t) t in
      (t', match r with Ok _ => Ok (mkLeaseGuard key my_uuid ttl) | Err e => Err e end)
  end.

(** One autocommitted UPDATE. *)
Definition renew_once (engine : string) (key : string) (u : Uuid) (ttl now : Z) (t : T) : T * result CoordError unit :=
  match from_engine engine with
  | Err e => (t, Err e)
  | Ok dialect =>
      let ttl_secs := ttl_secs_i64 ttl in
      let '(t', rows) := t_update t key (fun r => locked_by_is u r && live_filter dialect now r)
        (fun r => mkLeaseRow (locked_by r) (ttl_expr dialect now ttl_secs) (lease_attempts r)) in
      (t', if rows =? 0 then Err CoordError.LeaseLost else Ok tt)
  end.

Definition renew (engine : string) (g : LeaseGuard) (ttl now : Z) (t : T) : T * result CoordError unit :=
  renew_once engine (lg_key g) (lg_locked_by g) ttl now t.

Definition release_impl (engine : string) (g : LeaseGuard) (reset_attempts : bool) (t : T) : T * result CoordError unit :=
  match from_engine engine with
  | Err e => (t, Err e)
  | Ok _ =>
      let '(t', _) := t_update t (lg_key g) (locked_by_is (lg_locked_by g))
        (fun r => mkLeaseRow None epoch_expr (if reset_attempts then 0 else lease_attempts r)) in
      (t', Ok tt)
  end.

Definition release (engine : string) (g : LeaseGuard) : T -> T * result CoordError unit := release_impl engine g true.
Definition release_with_retry (engine : string) (g : LeaseGuard) : T -> T * result CoordError unit := release_impl engine g false.

(** The body of the fenced transaction: the caller's work on its own tables, then the
    fence on the holder's row.  [clock] is the time at which the fence runs. *)
Definition ack_tx {D A E} (d : Dialect) (key : string) (u : Uuid) (clock : Z) (f : D -> result E (A * D)) (db : T * D) :
    result (AckError E) (A * (T * D)) :=
  '(work_result, d') ← map_err AckError.Work (f (snd db));
  let '(t', rows) := t_update (fst db) key (fun r => locked_by_is u r && live_filter_clock d clock r) (fun r => r) in
  if rows =? 0 then Err AckError.LeaseLost else Ok (work_result, (t', d')).

Definition with_ack_in_tx {D A E} (backend : DbBackend) (engine : string) (g : LeaseGuard)
    (extract_work_db_err : E -> option DbErr) (env : Z -> TxAttempt (T * D)) (clock : Z -> Z)
    (f : Z -> D -> result E (A * D)) (db : T * D) : (T * D) * result (AckError E) A :=
  match from_engine engine with
  | Err (CoordError.Db e) => (db, Err (AckError.Db e))
  | Err _ => (db, Err (AckError.Db (DbError.Sea (DbErr.Custom "coord.lease: unexpected acquire error during fence setup"))))
  | Ok dialect =>
      transaction_with_retry AckError.Db backend (ack_db_err extract_work_db_err) env
        (fun n db => ack_tx dialect (lg_key g) (lg_locked_by g) (clock n) (f n) db) db
  end.
End operations.

(** ** The heartbeat *)

Module RenewalState.
Inductive renewal_state := Healthy | Lost | ShuttingDown.
End RenewalState.
Abbreviation RenewalState := RenewalState.renewal_state.

(** What wakes the task: the cancel token, or a tick, whose renewal reaches the
    database at some instant or fails on the way. *)
Inductive Wake :=
| Cancelled
| Tick (now : Z)
| TickFails (e : DbError).

(** The task, with the state it last sent and the table. *)
Fixpoint spawn_renewal {T : Type} `{!Table string LeaseRow T} (engine : string) (g : LeaseGuard) (wakes : list Wake) (t : T) :
    T * RenewalState :=
  match wakes with
  | [] => (t, RenewalState.Healthy)
  | Cancelled :: _ => (t, RenewalState.ShuttingDown)
  | TickFails _ :: rest => spawn_renewal engine g rest t
  | Tick now :: rest =>
      match renew_once engine (lg_key g) (lg_locked_by g) (lg_ttl g) now t with
      | (t', Err CoordError.LeaseLost) => (t', RenewalState.Lost)
      | (t', _) => spawn_renewal engine g rest t'
      end
  end.

(** ** Runs *)

Definition engine_name (d : Dialect) : string :=
  match d with Dialect.Postgres => "postgres" | Dialect.Sqlite => "sqlite" end.

(** The lease table, the tables the holders' work is about, and the database clock. *)
Record World (T D : Type) := mkWorld {
  w_lease : T;
  w_data : D;
  w_clock : Z;
}.
Arguments mkWorld {T D}.
Arguments w_lease {T D}.
Arguments w_data {T D}.
Arguments w_clock {T D}.

(** A call of some worker, or time passing.  An acquire transaction began [lag] before
    it takes effect, reads [snapshot], and its worker's clock shows [worker_now]. *)
Inductive LeaseOp (T D E : Type) :=
| Pass (dt : N)
| Acquire (key : string) (u : Uuid) (ttl : Z) (lag : N) (worker_now : Z) (snapshot : T)
| Renew (key : string) (u : Uuid) (ttl : Z)
| Release (key : string) (u : Uuid) (reset_attempts : bool)
| Ack (key : string) (u : Uuid) (f : D -> result E (unit * D)).
Arguments Pass {T D E}.
Arguments Acquire {T D E}.
Arguments Renew {T D E}.
Arguments Release {T D E}.
Arguments Ack {T D E}.

Section runs.
Context {T D E : Type} `{!Table string LeaseRow T} (d : Dialect).
Implicit Types (w : World T D) (op : LeaseOp T D E) (ops : list (LeaseOp T D E)) (key : string) (u v : Uuid) (r : LeaseRow).

(** The effect of one call and whether it succeeds. *)
Definition exec w op : World T D * bool :=
  match op with
  | Pass dt => (mkWorld (w_lease w) (w_data w) (w_clock w + Z.of_N dt), true)
  | Acquire key u ttl lag worker_now snapshot =>
      match acquire_tx d key u (ttl_secs_i64 ttl) (w_clock w - Z.of_N lag) worker_now snapshot (w_lease w) with
      | Ok (_, t') => (mkWorld t' (w_data w) (w_clock w), true)
      | Err _ => (w, false)
      end
  | Renew key u ttl =>
      let '(t', r) := renew_once (engine_name d) key u ttl (w_clock w) (w_lease w) in
      (mkWorld t' (w_data w) (w_clock w), is_ok r)
  | Release key u reset_attempts =>
      let '(t', r) := release_impl (engine_name d) (mkLeaseGuard key u 0) reset_attempts (w_lease w) in
      (mkWorld t' (w_data w) (w_clock w), is_ok r)
  | Ack key u f =>
      match ack_tx d key u (w_clock w) f (w_lease w, w_data w) with
      | Ok (_, (t', d')) => (mkWorld t' d' (w_clock w), true)
      | Err _ => (w, false)
      end
  end.

Fixpoint run w ops : World T D * list bool :=
  match ops with
  | [] => (w, [])
  | op :: ops =>
      let '(w', ok) := exec w op in
      let '(w'', oks) := run w' ops in (w'', ok :: oks)
  end.

Definition row w key : option LeaseRow := t_find (w_lease w) key.

(** The worker [u] holds the lease [key] and it is live. *)
Definition holds w key u : Prop :=
  exists r, row w key = Some r /\ locked_by r = Some u /\ live_filter_clock d (w_clock w) r = true.

(** A call made under the name of the holder [u] on its own lease. *)
Definition by_holder key u op : bool :=
  match op with
  | Pass _ | Acquire _ _ _ _ _ _ => false
  | Renew k v _ | Release k v _ | Ack k v _ => bool_decide (k = key) && bool_decide (v = u)
  end.

(** A call that asks for, extends or relies on the lease [key]. *)
Definition claims key op : bool :=
  match op with
  | Pass _ | Release _ _ _ => false
  | Acquire k _ _ _ _ _ | Renew k _ _ | Ack k _ _ => bool_decide (k = key)
  end.

(** ** One call *)

Lemma from_engine_name : from_engine (engine_name d) = Ok d.
Proof. by destruct d. Qed.

Lemma whole_seconds_mono a b : a <= b -> whole_seconds a <= whole_seconds b.
Proof. intros. unfold whole_seconds, SECOND. apply Z.mul_le_mono_nonneg_r; [lia|]. apply Z.div_le_mono; lia. Qed.

Lemma live_same now r : live_filter d now r = live_filter_clock d now r.
Proof. by destruct d. Qed.

Lemma live_not_expired clock now r :
  live_filter_clock d clock r = true -> now <= clock -> expired_filter d now r = false.
Proof.
  destruct d; cbn; rewrite Z.ltb_lt, Z.ltb_ge; intros Hl Hn; [lia|].
  pose proof (whole_seconds_mono now clock Hn). lia.
Qed.

(** A conditional update of one row, seen from any key. *)
Lemma update_row (t : T) k cond f key :
  let '(t', n) := t_update t k cond f in
  (exists r, t_find t k = Some r /\ cond r = true /\ n = 1 /\
     t_find t' key = if decide (key = k) then Some (f r) else t_find t key) \/
  ((forall r, t_find t k = Some r -> cond r = false) /\ n = 0 /\ t_find t' key = t_find t key).
Proof.
  destruct (t_find t k) as [r|] eqn:Hk; [destruct (cond r) eqn:Hc|].
  - destruct (t_update_hit t k cond f r Hk Hc) as (t' & -> & Ht). left. exists r. by rewrite Ht.
  - destruct (t_update_miss t k cond f) as (t' & -> & Ht); [intros r' Hr; congruence|]. right. rewrite Ht. split_and!; [|done..]. congruence.
  - destruct (t_update_miss t k cond f) as (t' & -> & Ht); [congruence|]. right. rewrite Ht. split_and!; [|done..]. congruence.
Qed.

(** A successful acquire took a slot that was absent or expired. *)
Lemma acquire_row k u secs now worker_now snapshot (t t' : T) key :
  acquire_tx d k u secs now worker_now snapshot t = Ok (tt, t') ->
  (forall r, t_find t k = Some r -> expired_filter d now r = true) /\
  exists n, t_find t' key = if decide (key = k) then Some (mkLeaseRow (Some u) (ttl_expr d now secs) n) else t_find t key.
Proof.
  assert (Hclaim : forall t0, claim_or_held d now k u secs t0 = Ok (tt, t') ->
    exists r, t_find t0 k = Some r /\ expired_filter d now r = true /\
      t_find t' key = if decide (key = k) then Some (mkLeaseRow (Some u) (ttl_expr d now secs) (lease_attempts r + 1)) else t_find t0 key).
  { intros t0. unfold claim_or_held, claim_expired_slot.
    pose proof (update_row t0 k (expired_filter d now)
      (fun r => mkLeaseRow (Some u) (ttl_expr d now secs) (lease_attempts r + 1)) key) as Hu.
    destruct (t_update _ _ _ _) as [t1 n]. destruct Hu as [(r & Hr & Hx & -> & Hf)|(_ & -> & _)]; cbn [Z.eqb]; [|done].
    intros [= <-]. by exists r. }
  unfold acquire_tx. destruct (t_find snapshot k) as [row0|].
  - destruct (_ <=? _); [|done]. intros Hc. destruct (Hclaim t Hc) as (r & Hr & Hx & Hf). split; [congruence|eauto].
  - destruct (t_find t k) as [r0|] eqn:Hk; [by rewrite (t_insert_duplicate t k _ r0 Hk)|].
    destruct (t_insert_fresh t k (mkLeaseRow None epoch_expr 0) Hk) as (t1 & -> & Ht1).
    intros Hc. destruct (Hclaim t1 Hc) as (r & Hr & Hx & Hf). split; [done|]. eexists. rewrite Hf, Ht1. by destruct (decide (key = k)).
Qed.

(** A successful ack: the work succeeded and its worker holds the lease, which stays
    as it is. *)
Lemma ack_row w key u f w' : exec w (Ack key u f) = (w', true) ->
  f (w_data w) = Ok (tt, w_data w') /\ holds w key u /\ w_clock w' = w_clock w /\ (forall k, row w' k = row w k).
Proof.
  cbn [exec]. unfold ack_tx. cbn [fst snd]. destruct (f (w_data w)) as [[[] d']|e]; cbn [map_err mbind result_bind]; [|done].
  pose proof (update_row (w_lease w) key (fun r => locked_by_is u r && live_filter_clock d (w_clock w) r) (fun r => r)) as Hu.
  destruct (t_update _ _ _ _) as [t' n]. destruct (n =? 0) eqn:Hn; [done|]. intros [= <-]. cbn.
  split_and!; [done| |done|].
  - destruct (Hu key) as [(r & Hr & [Hb Hl]%andb_prop & _)|(_ & -> & _)]; [|done]. exists r. split_and!; [done| |done].
    by apply bool_decide_eq_true in Hb.
  - intros k. unfold row. cbn. destruct (Hu k) as [(r & Hr & _ & _ & ->)|(_ & _ & ->)]; [|done].
    by destruct (decide (k = key)) as [->|].
Qed.

(** A renewal succeeds exactly on the live row of its worker. *)
Lemma renew_row w key u ttl :
  let '(w', ok) := exec w (Renew key u ttl) in
  w_clock w' = w_clock w /\ (ok = true <-> holds w key u) /\ (forall k, k <> key -> row w' k = row w k) /\
  match ok with
  | true => exists n, row w' key = Some (mkLeaseRow (Some u) (ttl_expr d (w_clock w) (ttl_secs_i64 ttl)) n)
  | false => row w' key = row w key
  end.
Proof.
  cbn [exec]. unfold renew_once. rewrite from_engine_name.
  pose proof (update_row (w_lease w) key (fun r => locked_by_is u r && live_filter d (w_clock w) r)
    (fun r => mkLeaseRow (locked_by r) (ttl_expr d (w_clock w) (ttl_secs_i64 ttl)) (lease_attempts r))) as Hu.
  destruct (t_update _ _ _ _) as [t' n].
  assert (Hother : forall k, k <> key -> t_find t' k = t_find (w_lease w) k).
  { intros k Hk. destruct (Hu k) as [(? & _ & _ & _ & ->)|(_ & _ & ->)]; [by rewrite decide_False|done]. }
  unfold row. cbn [w_lease w_clock]. split; [done|].
  destruct (Hu key) as [(r & Hr & [Hb Hl]%andb_prop & -> & Hf)|(Hno & -> & Hf)]; cbn [Z.eqb is_ok].
  - apply bool_decide_eq_true in Hb. split_and!; [|done|exists (lease_attempts r); by rewrite Hf, decide_True, Hb].
    split; [intros _; exists r; by rewrite <- live_same|done].
  - split_and!; [|done|done]. split; [done|]. intros (r & Hr & Hb & Hl). specialize (Hno r Hr).
    rewrite live_same, Hl, andb_true_r in Hno. unfold locked_by_is in Hno. by rewrite bool_decide_true in Hno.
Qed.

(** A release touches the row of its own worker only. *)
Lemma release_row w key u reset k r : row w k = Some r -> (k <> key \/ locked_by r <> Some u) ->
  row (fst (exec w (Release key u reset))) k = Some r.
Proof.
  intros Hr Hne. cbn [exec]. unfold release_impl. rewrite from_engine_name. cbn [lg_key lg_locked_by].
  pose proof (update_row (w_lease w) key (locked_by_is u)
    (fun r => mkLeaseRow None epoch_expr (if reset then 0 else lease_attempts r)) k) as Hu.
  destruct (t_update _ _ _ _) as [t' n]. unfold row in *. cbn [fst w_lease].
  destruct Hu as [(r' & Hr' & Hb & _ & ->)|(_ & _ & ->)]; [|done]. destruct (decide (k = key)) as [->|]; [|done].
  apply bool_decide_eq_true in Hb. destruct Hne as [?|Hne]; [done|]. rewrite Hr in Hr'. injection Hr' as <-. done.
Qed.

Lemma release_clock w key u reset : w_clock (fst (exec w (Release key u reset))) = w_clock w.
Proof. cbn [exec]. by destruct (release_impl _ _ _ _). Qed.

(** A failed call changes nothing. *)
Lemma exec_fails w op w' : exec w op = (w', false) -> forall key, row w' key = row w key.
Proof.
  destruct op as [dt|k v ttl lag wn snap|k v ttl|k v reset|k v f]; cbn [exec]; [done| | | |].
  - destruct (acquire_tx _ _ _ _ _ _ _ _) as [[[] t']|]; [done|]. by intros [= <-].
  - intros Hw key. pose proof (renew_row w k v ttl) as Hrr. cbn [exec] in Hrr. rewrite Hw in Hrr.
    destruct Hrr as (_ & _ & Ho & Hk). destruct (decide (key = k)) as [->|]; auto.
  - unfold release_impl. rewrite from_engine_name. by destruct (t_update _ _ _ _).
  - destruct (ack_tx _ _ _ _ _ _) as [[[] [t' d']]|]; [done|]. by intros [= <-].
Qed.

Lemma live_exclusive_spec w key u op : holds w key u -> by_holder key u op = false ->
  let '(w', ok) := exec w op in row w' key = row w key /\ (claims key op = true -> ok = false).
Proof.
  intros Hh Hby. destruct Hh as (r & Hr & Hb & Hl).
  destruct op as [dt|k v ttl lag wn snap|k v ttl|k v reset|k v f]; cbn [by_holder claims] in *.
  - done.
  - cbn [exec]. destruct (acquire_tx _ _ _ _ _ _ _ _) as [[[] t']|e] eqn:Ha; [|done].
    destruct (acquire_row _ _ _ _ _ _ _ _ key Ha) as [Hx [n Hf]]. unfold row in *. cbn.
    rewrite Hf. destruct (decide (key = k)) as [->|Hne]; [|split; [done|]; rewrite bool_decide_eq_true; congruence].
    pose proof (Hx r Hr) as Hx'. rewrite (live_not_expired (w_clock w)) in Hx' by (done || lia). done.
  - pose proof (renew_row w k v ttl) as Hrr. destruct (exec w (Renew k v ttl)) as [w' ok] eqn:He.
    destruct Hrr as (_ & Hok & Ho & Hk). destruct (decide (k = key)) as [->|Hne];
      [|split; [auto|by rewrite bool_decide_false]].
    rewrite bool_decide_true in Hby by done. cbn in Hby. apply bool_decide_eq_false in Hby.
    destruct ok; [|by split]. destruct (proj1 Hok eq_refl) as (r' & Hr' & Hb' & _). congruence.
  - pose proof (release_row w k v reset key r Hr) as Hrr. destruct (exec w (Release k v reset)) as [w' ok].
    cbn [fst] in Hrr. split; [|done]. rewrite Hr. apply Hrr. apply andb_false_iff in Hby as [Hk%bool_decide_eq_false|Hv%bool_decide_eq_false].
    + left. congruence.
    + right. congruence.
  - destruct (exec w (Ack k v f)) as [w' ok] eqn:He. destruct ok.
    + destruct (ack_row w k v f w' He) as (_ & (r' & Hr' & Hb' & _) & _ & Hrow). split; [done|].
      intros ->%bool_decide_eq_true. rewrite bool_decide_true in Hby by done. cbn in Hby.
      apply bool_decide_eq_false in Hby. congruence.
    + split; [|done]. by eapply exec_fails.
Qed.

(** C19: a live lease is exclusive.  While a worker holds a live lease, every call of
    another worker leaves its row as it is, and every attempt to acquire the lease (by
    anyone), to renew it or to commit work under it fails, whatever snapshot the
    caller read, however long ago its transaction began and whatever its own clock
    shows. *)
Theorem live_lease_exclusive w key u op : holds w key u -> by_holder key u op = false ->
  let '(w', ok) := exec w op in row w' key = row w key /\ (claims key op = true -> ok = false).
Proof. apply live_exclusive_spec. Qed.

(** ** Fencing *)

(** Without a successful acquire of its own, a worker does not become a holder. *)
Lemma not_holder_stays w key v op :
  (forall r, row w key = Some r -> locked_by r <> Some v) ->
  let '(w', ok) := exec w op in
  (forall r, row w' key = Some r -> locked_by r <> Some v) \/
  exists ttl lag wn snap, op = Acquire key v ttl lag wn snap /\ ok = true.
Proof.
  intros Hno. destruct op as [dt|k u ttl lag wn snap|k u ttl|k u reset|k u f].
  - by left.
  - cbn [exec]. destruct (acquire_tx _ _ _ _ _ _ _ _) as [[[] t']|e] eqn:Ha; [|by left].
    destruct (acquire_row _ _ _ _ _ _ _ _ key Ha) as [_ [n Hf]]. unfold row in *. cbn. rewrite Hf.
    destruct (decide (key = k)) as [->|]; [|by left]. destruct (decide (u = v)) as [->|Huv]; [right; by repeat eexists|].
    left. intros r [= <-]. cbn. congruence.
  - pose proof (renew_row w k u ttl) as Hrr. destruct (exec w (Renew k u ttl)) as [w' ok].
    destruct Hrr as (_ & Hok & Ho & Hk). left. destruct (decide (k = key)) as [->|Hne]; [|rewrite Ho by congruence; done].
    destruct ok; [|by rewrite Hk]. destruct Hk as [n ->]. destruct (proj1 Hok eq_refl) as (r' & Hr' & Hb' & _).
    intros r [= <-]. cbn. specialize (Hno r' Hr'). congruence.
  - cbn [exec]. unfold release_impl. rewrite from_engine_name. cbn [lg_key lg_locked_by].
    pose proof (update_row (w_lease w) k (locked_by_is u)
      (fun r => mkLeaseRow None epoch_expr (if reset then 0 else lease_attempts r)) key) as Hu.
    destruct (t_update _ _ _ _) as [t' n]. unfold row in *. cbn [w_lease]. left.
    destruct Hu as [(r' & Hr' & Hb & _ & ->)|(_ & _ & ->)]; [|done]. destruct (decide (key = k)) as [->|]; [|done]. by intros r [= <-].
  - destruct (exec w (Ack k u f)) as [w' ok] eqn:He. destruct ok.
    + left. destruct (ack_row w k u f w' He) as (_ & _ & _ & Hrow). by rewrite Hrow.
    + left. by rewrite (exec_fails _ _ _ He).
Qed.

Lemma run_app w ops1 ops2 :
  run w (ops1 ++ ops2) =
  (fst (run (fst (run w ops1)) ops2), snd (run w ops1) ++ snd (run (fst (run w ops1)) ops2)).
Proof.
  revert w. induction ops1 as [|op ops1 IH]; intros w; cbn [run app fst snd]; [by destruct (run w ops2)|].
  destruct (exec w op) as [w' ok]. rewrite IH. by destruct (run w' ops1).
Qed.

Lemma not_holder_runs key v ops w :
  (forall r, row w key = Some r -> locked_by r <> Some v) ->
  (exists pre ttl lag wn snap post, ops = pre ++ Acquire key v ttl lag wn snap :: post /\
     snd (exec (fst (run w pre)) (Acquire key v ttl lag wn snap)) = true) \/
  (forall r, row (fst (run w ops)) key = Some r -> locked_by r <> Some v).
Proof.
  revert w. induction ops as [|op ops IH]; intros w Hno; [by right|].
  pose proof (not_holder_stays w key v op Hno) as Hs. destruct (exec w op) as [w' ok] eqn:He.
  destruct Hs as [Hs|(ttl & lag & wn & snap & -> & ->)].
  - destruct (IH w' Hs) as [(pre & ttl & lag & wn & snap & post & -> & Hx)|Hr].
    + left. exists (op :: pre), ttl, lag, wn, snap, post. split; [done|]. cbn [run]. rewrite He.
      by destruct (run w' pre).
    + right. cbn [run]. rewrite He. by destruct (run w' ops).
  - left. exists [], ttl, lag, wn, snap, ops. split; [done|]. cbn [run fst]. by rewrite He.
Qed.

(** C20: the fence.  The holders' tables change only in a successful
    [with_ack_in_tx], by the work passed to it, while its worker holds a live lease;
    and once a worker has acquired a lease, no other worker commits work under that
    lease before it has acquired the lease itself, so a holder that was taken over
    while it was stalled cannot write any more. *)
Theorem fenced_commits w key :
  (forall op w' ok, exec w op = (w', ok) -> w_data w' <> w_data w ->
     exists k u f, op = Ack k u f /\ ok = true /\ holds w k u /\ f (w_data w) = Ok (tt, w_data w')) /\
  (forall u ttl lag wn snap w1 mid v f,
     exec w (Acquire key u ttl lag wn snap) = (w1, true) -> v <> u ->
     snd (exec (fst (run w1 mid)) (Ack key v f)) = true ->
     exists pre ttl' lag' wn' snap' post, mid = pre ++ Acquire key v ttl' lag' wn' snap' :: post /\
       snd (exec (fst (run w1 pre)) (Acquire key v ttl' lag' wn' snap')) = true).
Proof.
  split.
  - intros op w' ok He Hd. destruct op as [dt|k v ttl lag wn snap|k v ttl|k v reset|k v f].
    + injection He as <- <-. done.
    + cbn [exec] in He. destruct (acquire_tx _ _ _ _ _ _ _ _) as [[[] t']|]; by injection He as <- <-.
    + cbn [exec] in He. destruct (renew_once _ _ _ _ _ _). by injection He as <- <-.
    + cbn [exec] in He. destruct (release_impl _ _ _ _). by injection He as <- <-.
    + destruct ok; [|cbn [exec] in He; destruct (ack_tx _ _ _ _ _ _) as [[[] [t' d']]|]; [done|by injection He as <-]].
      destruct (ack_row w k v f w' He) as (Hf & Hh & _). by exists k, v, f.
  - intros u ttl lag wn snap w1 mid v f Ha Hvu Hack. destruct (not_holder_runs key v mid w1) as [?|Hno]; [|done|].
    + cbn [exec] in Ha. destruct (acquire_tx _ _ _ _ _ _ _ _) as [[[] t']|] eqn:Ht; [|done]. injection Ha as <-.
      destruct (acquire_row _ _ _ _ _ _ _ _ key Ht) as [_ [n Hf]]. unfold row. cbn. rewrite Hf, decide_True by done.
      intros r [= <-]. cbn. congruence.
    + destruct (exec (fst (run w1 mid)) (Ack key v f)) as [w' ok] eqn:He. cbn in Hack. subst ok.
      destruct (ack_row _ key v f w' He) as (_ & (r & Hr & Hb & _) & _). by destruct (Hno r Hr).
Qed.

(** ** The heartbeat keeps the lease *)

Definition elapsed op : Z := match op with Pass dt => Z.of_N dt | _ => 0 end.
Definition total ops : Z := sum_Z elapsed ops.

(** The time since the last renewal is within the time to live: less than it, and with
    SQLite's whole seconds a second less. *)
Definition within (ttl dt : Z) : Prop :=
  match d with
  | Dialect.Postgres => dt < ttl_secs_i64 ttl * SECOND
  | Dialect.Sqlite => dt + SECOND <= ttl_secs_i64 ttl * SECOND
  end.

(** The lease was taken or renewed by [u] at [since]. *)
Definition taken_at w key u (ttl since : Z) : Prop :=
  exists n, row w key = Some (mkLeaseRow (Some u) (ttl_expr d since (ttl_secs_i64 ttl)) n).

(** The schedule of a heartbeat: between two renewals other workers do what they want,
    and the time since the last one stays within the time to live.  The first interval
    counts from [age] before. *)
Fixpoint kept key u (ttl age : Z) (beats : list (list (LeaseOp T D E))) : Prop :=
  match beats with
  | [] => True
  | b :: beats => Forall (fun op => by_holder key u op = false) b /\ within ttl (age + total b) /\ kept key u ttl 0 beats
  end.

Definition beat_ops key u ttl (beats : list (list (LeaseOp T D E))) : list (LeaseOp T D E) :=
  b ← beats; b ++ [Renew key u ttl].

Lemma exec_clock w op : w_clock (fst (exec w op)) = w_clock w + elapsed op.
Proof.
  destruct op as [dt|k v ttl lag wn snap|k v ttl|k v reset|k v f]; cbn [exec elapsed]; rewrite ?Z.add_0_r; [done| | | |].
  - by destruct (acquire_tx _ _ _ _ _ _ _ _) as [[[] t']|].
  - by destruct (renew_once _ _ _ _ _ _).
  - by destruct (release_impl _ _ _ _).
  - by destruct (ack_tx _ _ _ _ _ _) as [[[] [t' d']]|].
Qed.

Lemma total_nonneg ops : 0 <= total ops.
Proof. unfold total. induction ops as [|op ops IH]; [done|]. rewrite sum_Z_cons. destruct op; cbn [elapsed]; lia. Qed.

Lemma whole_seconds_shift t n : whole_seconds (t + n * SECOND) = whole_seconds t + n * SECOND.
Proof. unfold whole_seconds. rewrite Z.div_add by done. lia. Qed.

Lemma taken_holds w key u ttl since : taken_at w key u ttl since -> within ttl (w_clock w - since) -> holds w key u.
Proof.
  intros [n Hr] Hw. eexists. split_and!; [exact Hr|done|]. unfold within in Hw. destruct d; cbn.
  - apply Z.ltb_lt. unfold ttl_expr. cbn [now_expr]. lia.
  - unfold ttl_expr. cbn [now_expr]. rewrite whole_seconds_shift, Z.ltb_lt.
    assert (Hidem : whole_seconds (whole_seconds since) = whole_seconds since).
    { unfold whole_seconds at 1 2. by rewrite Z.div_mul. }
    rewrite Hidem. pose proof (whole_seconds_mono (w_clock w) (since + (ttl_secs_i64 ttl - 1) * SECOND)) as Hm.
    rewrite whole_seconds_shift in Hm. unfold SECOND in *. lia.
Qed.

Lemma within_le ttl a b : a <= b -> within ttl b -> within ttl a.
Proof. unfold within. destruct d; lia. Qed.

(** Calls of other workers while the lease is live: they all fail and change nothing. *)
Lemma quiet_run key u ttl since ops w :
  Forall (fun op => by_holder key u op = false) ops -> taken_at w key u ttl since ->
  within ttl (w_clock w - since + total ops) ->
  let '(w', oks) := run w ops in
  taken_at w' key u ttl since /\ w_clock w' = w_clock w + total ops /\
  Forall2 (fun op ok => claims key op = true -> ok = false) ops oks.
Proof.
  intros Hby. revert w. induction Hby as [|op ops Hop Hby IH]; intros w Ht Hw; cbn [run].
  - split_and!; [done|unfold total; rewrite sum_Z_nil; lia|constructor].
  - unfold total in *. rewrite sum_Z_cons in *. pose proof (total_nonneg ops) as Hnn. unfold total in Hnn.
    assert (He0 : 0 <= elapsed op) by (destruct op; cbn; lia).
    assert (Hh : holds w key u) by (eapply taken_holds; [done|eapply within_le; [|done]; lia]).
    pose proof (live_exclusive_spec w key u op Hh Hop) as Hx. pose proof (exec_clock w op) as Hc.
    destruct (exec w op) as [w' ok]. cbn [fst] in Hc. destruct Hx as [Hrow Hok].
    specialize (IH w'). destruct (run w' ops) as [w'' oks]. destruct IH as (Ht' & Hc' & Hall).
    + destruct Ht as [n Hn]. exists n. by rewrite Hrow.
    + eapply within_le; [|exact Hw]. lia.
    + split_and!; [done|lia|by constructor].
Qed.

Lemma beats_run key u ttl beats w since : taken_at w key u ttl since ->
  kept key u ttl (w_clock w - since) beats ->
  Forall2 (fun op ok => claims key op = true -> ok = by_holder key u op)
    (beat_ops key u ttl beats) (snd (run w (beat_ops key u ttl beats))).
Proof.
  revert w since. induction beats as [|b beats IH]; intros w since Ht Hk; [constructor|].
  destruct Hk as (Hby & Hw & Hk). cbn [beat_ops mbind list_bind].
  fold (beat_ops key u ttl beats). rewrite <- app_assoc, run_app. cbn [snd]. pose proof (quiet_run key u ttl since b w Hby Ht Hw) as Hq.
  destruct (run w b) as [w1 oks]. destruct Hq as (Ht1 & Hc1 & Hall). cbn [fst snd app]. apply Forall2_app.
  { clear -Hall Hby. induction Hall as [|op ok ops oks Hok Hall IH]; [constructor|]. inversion Hby; subst.
    constructor; [|by apply IH]. intros Hcl. rewrite Hok by done. done. }
  cbn [run]. pose proof (renew_row w1 key u ttl) as Hrr. destruct (exec w1 (Renew key u ttl)) as [w2 ok].
  destruct Hrr as (Hc2 & Hok & _ & Hr). assert (Hh : holds w1 key u).
  { eapply taken_holds; [done|]. eapply within_le; [|exact Hw]. lia. }
  apply Hok in Hh as ->. destruct Hr as [n Hr]. specialize (IH w2 (w_clock w1)).
  rewrite Hc2, Z.sub_diag in IH. destruct (run w2 _) as [w3 oks']. cbn [snd]. constructor.
  - intros _. cbn. by rewrite !bool_decide_true.
  - apply IH; [|done]. by exists n.
Qed.

(** A heartbeat within the time to live keeps the lease.  After a successful
    acquire, as long as the holder renews within the time to live of the last renewal
    (counted from the start of the acquire transaction; for SQLite a second less),
    every renewal succeeds and every attempt of another worker to acquire, renew or
    commit under the lease fails. *)
Theorem heartbeat_keeps_lease w key u ttl lag wn snap w1 beats :
  exec w (Acquire key u ttl lag wn snap) = (w1, true) -> kept key u ttl (Z.of_N lag) beats ->
  Forall2 (fun op ok => claims key op = true -> ok = by_holder key u op)
    (beat_ops key u ttl beats) (snd (run w1 (beat_ops key u ttl beats))).
Proof.
  intros Ha Hk. cbn [exec] in Ha. destruct (acquire_tx _ _ _ _ _ _ _ _) as [[[] t']|] eqn:Ht; [|done]. injection Ha as <-.
  destruct (acquire_row _ _ _ _ _ _ _ _ key Ht) as [_ [n Hf]]. rewrite decide_True in Hf by done.
  apply (beats_run key u ttl beats _ (w_clock w - Z.of_N lag)); [by exists n|]. cbn [w_clock].
  by replace (w_clock w - (w_clock w - Z.of_N lag)) with (Z.of_N lag) by lia.
Qed.
End runs.

(** ** The retried transactions are such calls *)

Section retried.
Context {T D E : Type} `{!Table string LeaseRow T} (d : Dialect).

(** With a snapshot of the current table, a slot is acquired exactly when it is absent
    (and the epoch is past) or expired on the worker's clock and on the database's. *)
Lemma acquire_exact key u secs now worker_now (t : T) :
  match acquire_tx d key u secs now worker_now t t with
  | Ok _ => from_option (fun r => locked_until r <= worker_now /\ expired_filter d now r = true)
              (expired_filter d now (mkLeaseRow None epoch_expr 0) = true) (t_find t key)
  | Err e => e = CoordError.LeaseHeld /\
      ~ from_option (fun r => locked_until r <= worker_now /\ expired_filter d now r = true)
          (expired_filter d now (mkLeaseRow None epoch_expr 0) = true) (t_find t key)
  end.
Proof.
  unfold acquire_tx, claim_or_held, claim_expired_slot. destruct (t_find t key) as [r|] eqn:Hr; cbn [from_option].
  - destruct (Z.leb_spec (locked_until r) worker_now); [|split; [done|intros [? _]; lia]].
    destruct (expired_filter d now r) eqn:Hx.
    + by destruct (t_update_hit t key (expired_filter d now)
        (fun r => mkLeaseRow (Some u) (ttl_expr d now secs) (lease_attempts r + 1)) r Hr Hx) as (t' & -> & _).
    + destruct (t_update_miss t key (expired_filter d now)
        (fun r => mkLeaseRow (Some u) (ttl_expr d now secs) (lease_attempts r + 1))) as (t' & -> & _); [congruence|].
      by split; [|intros [_ ?]].
  - destruct (t_insert_fresh t key (mkLeaseRow None epoch_expr 0) Hr) as (t1 & -> & Ht1).
    pose proof (Ht1 key) as Hk. rewrite decide_True in Hk by done.
    destruct (expired_filter d now (mkLeaseRow None epoch_expr 0)) eqn:Hx.
    + by destruct (t_update_hit t1 key (expired_filter d now)
        (fun r => mkLeaseRow (Some u) (ttl_expr d now secs) (lease_attempts r + 1)) _ Hk Hx) as (t' & -> & _).
    + destruct (t_update_miss t1 key (expired_filter d now)
        (fun r => mkLeaseRow (Some u) (ttl_expr d now secs) (lease_attempts r + 1))) as (t' & -> & _); [congruence|done].
Qed.

(** A successful [acquire] is the call [Acquire] of one attempt of its transaction, on
    the table the other transactions have left. *)
Lemma acquire_commits backend key u ttl env view (t t' : T) g (data : D) clock :
  acquire backend (engine_name d) key u ttl env view t = (t', Ok g) ->
  (forall n, tv_now (view n) <= clock) ->
  exists k : nat, Z.of_nat k < DEFAULT_TX_RETRY_ATTEMPTS /\ g = mkLeaseGuard key u ttl /\
    let v := view (1 + Z.of_nat k) in
    exec (E := E) d (mkWorld (others_before env 1 k t) data clock)
      (Acquire key u ttl (Z.to_N (clock - tv_now v)) (tv_worker_now v) (tv_snapshot v)) = (mkWorld t' data clock, true).
Proof.
  unfold acquire. rewrite from_engine_name. intros Ha Hnow.
  match type of Ha with context [transaction_with_retry ?f ?b ?x ?e ?body ?db] =>
    destruct (retry_max_spec f b x DEFAULT_TX_RETRY_ATTEMPTS e body db) as (k & Hk & _ & Hres) end.
  exists k. unfold transaction_with_retry in Ha. destruct (transaction_with_retry_max _ _ _ _ _ _ _) as [t0 [[]|e]]; [|done].
  injection Ha as -> <-. destruct Hres as [_ Hbody]. split_and!; [exact Hk|done|]. cbn [exec w_clock w_lease w_data].
  rewrite Z2N.id by (specialize (Hnow (1 + Z.of_nat k)); lia).
  replace (clock - (clock - tv_now (view (1 + Z.of_nat k)))) with (tv_now (view (1 + Z.of_nat k))) by lia. by rewrite Hbody.
Qed.

(** Likewise a successful [with_ack_in_tx]. *)
Lemma ack_commits backend g extract env clock f (db : T * D) db' :
  with_ack_in_tx (E := E) backend (engine_name d) g extract env clock f db = (db', Ok tt) ->
  exists k : nat, Z.of_nat k < DEFAULT_TX_RETRY_ATTEMPTS /\
    let n := 1 + Z.of_nat k in
    exec d (mkWorld (fst (others_before env 1 k db)) (snd (others_before env 1 k db)) (clock n))
      (Ack (lg_key g) (lg_locked_by g) (f n)) = (mkWorld (fst db') (snd db') (clock n), true).
Proof.
  unfold with_ack_in_tx. rewrite from_engine_name. intros Ha.
  match type of Ha with transaction_with_retry ?ff ?b ?x ?e ?body ?db = _ =>
    destruct (retry_max_spec ff b x DEFAULT_TX_RETRY_ATTEMPTS e body db) as (k & Hk & _ & Hres) end.
  exists k. unfold transaction_with_retry in Ha. rewrite Ha in Hres. destruct Hres as [_ Hbody]. split; [exact Hk|].
  cbn [exec w_clock w_lease w_data]. rewrite <- surjective_pairing, Hbody. by destruct db'.
Qed.

(** The heartbeat reports the loss of a lease only when a tick found it lost. *)
Lemma renewal_lost_sound g wakes (t t' : T) (data : D) : spawn_renewal (engine_name d) g wakes t = (t', RenewalState.Lost) ->
  exists now t0, Tick now ∈ wakes /\ ~ holds d (mkWorld t0 data now) (lg_key g) (lg_locked_by g) /\
    (forall key, t_find t' key = t_find t0 key).
Proof.
  revert t. induction wakes as [|[|now|e] wakes IH]; intros t; cbn [spawn_renewal]; [done|done| |].
  - pose proof (renew_row (E := E) d (mkWorld t data now) (lg_key g) (lg_locked_by g) (lg_ttl g)) as Hr. cbn [exec w_clock w_lease] in Hr.
    destruct (renew_once _ _ _ _ _ _) as [t1 [[]|[]]] eqn:Hro; intros Hs.
    1,2,4: destruct (IH t1 Hs) as (n & t0 & Hin & Hrest); exists n, t0; split; [set_solver|done].
    injection Hs as ->. destruct Hr as (_ & Hok & Ho & Hk). exists now, t. split_and!; [set_solver| |].
    + intros Hh%Hok. done.
    + intros key. destruct (decide (key = lg_key g)) as [->|Hne]; [exact Hk|by apply Ho].
  - intros Hs. destruct (IH t Hs) as (n & t0 & Hin & Hrest). exists n, t0. split; [set_solver|done].
Qed.
End retried.

(** ** Witnesses *)

Section witnesses.
Local Abbreviation Leases := (gmap string LeaseRow).

(** Worker 1 takes the free lease [run] for a minute at the 1000th second. *)
Definition sample_start : World Leases Z := mkWorld ∅ 0 1000000000.
Definition sample_acquire (u : Uuid) : LeaseOp Leases Z unit := Acquire "run" u 60000000000 0 1000000000 ∅.
Definition sample_held : World Leases Z := fst (exec Dialect.Postgres sample_start (sample_acquire 1%N)).

Lemma sample_holds : holds Dialect.Postgres sample_held "run" 1%N.
Proof. eexists. split_and!; [vm_compute; reflexivity|done|done]. Qed.

Lemma live_lease_exclusive_witness :
  let '(w', ok) := exec Dialect.Postgres sample_held (sample_acquire 2%N) in
  row w' "run" = row sample_held "run" /\ ok = false.
Proof.
  pose proof (live_lease_exclusive Dialect.Postgres sample_held "run" 1%N (sample_acquire 2%N) sample_holds eq_refl) as Ht.
  destruct (exec _ _ _) as [w' ok]. destruct Ht as [Hr Hok]. split; [exact Hr|by apply Hok].
Defined.

(** The work of the sample adds one to a counter. *)
Definition sample_ack (u : Uuid) : LeaseOp Leases Z unit := Ack "run" u (fun n => Ok (tt, n + 1)).

(** Worker 1 commits; its lease expires; worker 2 takes over and worker 1 is fenced off. *)
Lemma stale_holder_fenced :
  let '(w, oks) := run Dialect.Postgres sample_held
    [sample_ack 1%N; Pass 61000000%N; Acquire "run" 2%N 60000000000 0 1061000000 (w_lease sample_held); sample_ack 1%N; sample_ack 2%N] in
  w_data w = 2 /\ oks = [true; true; true; false; true].
Proof. vm_compute. done. Qed.

(** Two beats, with an attempt to take over and an attempt to commit in between. *)
Lemma heartbeat_keeps_lease_witness :
  let beats := [[Pass 50000000%N; sample_acquire 2%N]; [Pass 59000000%N; sample_ack 2%N]] in
  snd (run Dialect.Postgres sample_held (beat_ops "run" 1%N 60000000000 beats)) = [true; false; true; true; false; true] /\
  Forall2 (fun op ok => claims "run" op = true -> ok = by_holder "run" 1%N op)
    (beat_ops "run" 1%N 60000000000 beats) (snd (run Dialect.Postgres sample_held (beat_ops "run" 1%N 60000000000 beats))).
Proof.
  split; [vm_compute; reflexivity|].
  apply (heartbeat_keeps_lease Dialect.Postgres sample_start "run" 1%N 60000000000 0%N 1000000000 ∅ sample_held).
  - vm_compute. reflexivity.
  - cbn [kept]. split_and!; [repeat constructor|done|repeat constructor|done|done].
Defined.
End witnesses.
