(* ===== verification/DomainErrors.v ===== *)
(** * The ledger's domain errors ([domain/error.rs]) and the mapping of money
    errors onto them ([domain/exact_money.rs]); the repositories' errors
    ([domain/model.rs])

    Every variant carries a diagnostic text in the source; the text is dropped
    here, so two errors are equal when their variants are. *)

From S2P Require Import Prelude Decimal Money Exact ExactGrid.

Module DomainError.
Inductive domain_error :=
| ConcurrentModification
| InvalidPostingIncrement
| Unbalanced
| Empty
| MixedPayer
| MissingPayer
| MixedLegalEntity
| InconsistentScale
| AmountOutOfRange
| EntryTooLarge
| InvalidRequest
| ScaleOutOfRange
| CreditResidualUndisposed
| MoneyOutCapExceeded
| AllocationTooLarge
| AllocationCurrencyMismatch
| CurrencyMismatch
| FxRateUnavailable
| FxRateStaleNotAllowed
| AllocationSplitInvalid
| GrantExceedsUnallocated
| CreditExceedsOpenAr
| CreditExceedsWallet
| ScheduleTooLong
| SspSnapshotRequired
| MissingPoAllocationGroup
| RecognitionPolicyConflict
| CreditNoteSplitAmbiguous
| CreditNoteExceedsHeadroom
| RefundExceedsSettled
| RefundExceedsAllocated
| ModificationTreatmentReview
| RecognitionWithoutInvoiceLink
| ManualAdjustmentNotAllowed
| PiiInMetadataValue
| MissingInvestigationReason
| CrossTenantAccessDenied
| PeriodClosed
| AccountClosed
| PayerClosed
| AccountMappingMissing
| NegativeBalance
| SettlementReturnOverAllocated
| InvalidDisputeTransition
| ChargebackExceedsSettled
| ChargebackOnRefunded
| ClockSkewQuarantine
| PeriodNotOpen
| PeriodCloseBlocked
| PeriodCloseInProgress
| IdempotencyConflict
| CurrencyScaleLocked
| OverRecognition
| RefundClawbackDeferred
| FxOperationUnsupported
| RefundDisputeHeld
| DualControlRequired
| SelfApprovalForbidden
| ApprovalNotActionable
| DualControlPolicyOutOfRange
| TamperVerificationFailed
| PolicyVersionViolation
| TenantPostingLocked
| PeriodNotFound
| ApprovalNotFound
| PayerPiiNotFound
| NoteInvoiceNotFound
| RefundOriginNotFound
| Internal.
End DomainError.
Abbreviation DomainError := DomainError.domain_error.

#[global] Instance domain_error_eq_dec : EqDecision DomainError.
Proof. solve_decision. Defined.

(** [RepoError] ([domain/model.rs]). *)
Module RepoError.
Inductive repo_error :=
| InvalidRequest
| Conflict
| Db
| Money (error : MoneyError)
| InvalidStoredMoney
| ApprovalPolicyOutOfRange
| RowVanished
| ScaleOutOfRange
| CurrencyScaleLocked
| MoneyOutCapExceeded
| DisputeNotOpen
| RecognitionPolicyConflict.
End RepoError.
Abbreviation RepoError := RepoError.repo_error.

Definition map_money_error (error : MoneyError) : DomainError :=
  match error with
  | MoneyError.InvalidDecimal | MoneyError.InvalidCurrency => DomainError.InvalidRequest
  | MoneyError.ScaleOutOfRange => DomainError.ScaleOutOfRange
  | MoneyError.AmountOutOfRange => DomainError.AmountOutOfRange
  | MoneyError.InvalidPostingIncrement => DomainError.InvalidPostingIncrement
  | MoneyError.CurrencyMismatch => DomainError.CurrencyMismatch
  | MoneyError.ScaleMismatch => DomainError.InconsistentScale
  end.

Definition map_exact_error (error : ExactError) : DomainError :=
  match error with
  | ExactError.Money error => map_money_error error
  | ExactError.ArithmeticLimit => DomainError.AmountOutOfRange
  | ExactError.TooManyTerms => DomainError.ScheduleTooLong
  | ExactError.DivisionByZero | ExactError.EmptyWeights | ExactError.NegativeWeight =>
      DomainError.Internal
  end.

Definition matching_currency (left right : CurrencySpec) : result DomainError unit :=
  map_err map_money_error (ensure_same left right).

Section exact_money.
Context `{RustDecimal}.

Definition matching_spec (left right : PostedMoney) : result DomainError unit :=
  matching_currency (currency left) (currency right).

Definition subtract_posted (left right : PostedMoney) : result DomainError PostedMoney :=
  _ ← matching_spec left right;
  map_err map_exact_error
    (value ← checked_sub (from_decimal (amount left)) (from_decimal (amount right));
     into_posted_exact value (currency left)).

Definition zero_posted (basis : PostedMoney) : result DomainError PostedMoney :=
  map_err map_money_error (posted_try_new ZERO (currency basis)).

Lemma matching_currency_ok a b u : matching_currency a b = Ok u <-> a = b.
Proof. destruct u. unfold matching_currency. rewrite map_err_ok. apply ensure_same_ok. Qed.

Lemma matching_spec_ok a b u : matching_spec a b = Ok u <-> currency a = currency b.
Proof. apply matching_currency_ok. Qed.

(** The difference of two postings is the posting of the exact difference. *)
Lemma subtract_posted_ok a b p : currency_ok (currency a) ->
  subtract_posted a b = Ok p <->
  currency a = currency b /\ posted_ok p /\ currency p = currency a /\
  posted_units p = posted_units a - posted_units b.
Proof.
  intros Hcur. unfold subtract_posted. rewrite bind_ok.
  pose proof (posted_units_small a). pose proof (posted_units_small b).
  rewrite !from_decimal_units. fold (posted_units a) (posted_units b).
  rewrite checked_sub_units;
    [|apply (small_bound _ 1); lia|apply (small_bound _ 1); lia|apply (small_bound _ 2); lia].
  cbn [mbind result_bind]. setoid_rewrite map_err_ok. setoid_rewrite into_posted_units;
    [|apply (small_bound _ 2); lia|done].
  split.
  - intros ([] & Hs%ensure_same_ok & Hp). done.
  - intros [Hs Hp]. exists tt. split; [by apply ensure_same_ok|done].
Qed.

(** The difference of two postings of one currency exists when it fits. *)
Lemma subtract_posted_fits a b : posted_ok a -> posted_ok b -> currency a = currency b ->
  fits (currency_scale (currency a)) (posted_units a - posted_units b) ->
  exists p, subtract_posted a b = Ok p.
Proof.
  intros Ha Hb Hc Hfit. pose proof (posted_units_small a). pose proof (posted_units_small b).
  destruct (into_posted_units_total (posted_units a - posted_units b) (currency a)) as [p Hp].
  - apply (small_bound _ 2); lia.
  - apply Ha.
  - apply Z.divide_sub_r; [by apply posted_units_grid|]. rewrite Hc. by apply posted_units_grid.
  - done.
  - apply into_posted_units in Hp; [|apply (small_bound _ 2); lia|apply Ha].
    exists p. apply subtract_posted_ok; [apply Ha|]. tauto.
Qed.

Lemma zero_posted_ok basis p : currency_ok (currency basis) ->
  zero_posted basis = Ok p -> posted_ok p /\ currency p = currency basis /\ posted_units p = 0.
Proof.
  intros Hcur Hz. unfold zero_posted in Hz. apply map_err_ok in Hz.
  pose proof (posted_try_new_spec ZERO (currency basis) Hcur) as Hspec.
  rewrite Hz, units_ZERO in Hspec. done.
Qed.

(** A zero of any valid currency always exists. *)
Lemma zero_posted_total basis : currency_ok (currency basis) ->
  exists p, zero_posted basis = Ok p.
Proof.
  intros Hcur. unfold zero_posted.
  pose proof (posted_try_new_spec ZERO (currency basis) Hcur) as Hspec.
  rewrite units_ZERO in Hspec.
  destruct (posted_try_new ZERO (currency basis)) as [p|[]]; cbn; try done; [by eexists|..].
  - exfalso. apply Hspec. rewrite canonical_normalize_id.
    + destruct ZERO_spec as (-> & _). done.
    + destruct ZERO_spec as (Hm & Hs & Hn). split; [by left|done].
  - exfalso. apply Hspec. apply Z.divide_0_r.
Qed.
End exact_money.
