(* ===== verification/MoneyText.v ===== *)
(** * Money as text: [libs/money/src/money.rs] ([parse_decimal],
    [canonical_decimal], [Display]), [libs/money/src/serde_text.rs] and
    [ledger/src/infra/storage/money_text.rs]

    Amounts are stored and exchanged as plain decimal text.  The file models the
    parser, the canonical spelling and the storage codec, and shows that parsing
    accepts exactly the plain decimals of at most 64 bytes, that every canonical
    spelling parses back to its value, and that storage admits one spelling per
    value.

    [Decimal::to_string] and [Decimal::from_str_exact] belong to rust_decimal;
    the class [DecimalText] states what they do on plain decimal text. *)

From Stdlib Require Import Ascii.
From S2P Require Import Prelude Decimal Money DomainErrors.

#[local] Open Scope list_scope.

(** ** Decimal digits *)

Definition digit (n : Z) : ascii := ascii_of_N (Z.to_N (48 + n)).
Definition digit_val (c : ascii) : Z := Z.of_N (N_of_ascii c) - 48.

(** The value of a digit string, most significant first. *)
Definition digits_value (l : list ascii) : Z :=
  fold_left (fun acc c => 10 * acc + digit_val c) l 0.

(** [k] digits of [n], zero padded. *)
Fixpoint fixed_digits (k : nat) (n : Z) : list ascii :=
  match k with
  | O => []
  | S k => fixed_digits k (n / 10) ++ [digit (n mod 10)]
  end.

(** The shortest digit string of [n], given as much fuel as it has digits. *)
Fixpoint int_digits (fuel : nat) (n : Z) : list ascii :=
  match fuel with
  | O => []
  | S fuel => if n <? 10 then [digit n] else int_digits fuel (n / 10) ++ [digit (n mod 10)]
  end.

(** Plain decimal text: sign, integer part and fraction. *)
Definition decimal_text (neg : bool) (integer : list ascii) (fraction : option (list ascii)) :
    list ascii :=
  (if neg then ["-"%char] else []) ++ integer ++
  match fraction with Some f => "."%char :: f | None => [] end.

Definition frac_digits (fraction : option (list ascii)) : list ascii := default [] fraction.

(** The plain text of a coefficient at a scale. *)
Definition render (neg : bool) (mag sc : Z) : list ascii :=
  decimal_text neg (int_digits 30 (mag / 10 ^ sc))
    (if sc =? 0 then None else Some (fixed_digits (Z.to_nat sc) (mag mod 10 ^ sc))).

Definition signed_value (neg : bool) (v : Z) : Z := if neg then - v else v.

(** [Display] for the machine integers. *)
Definition display_int (z : Z) : string :=
  String.string_of_list_ascii (decimal_text (z <? 0) (int_digits 20 (Z.abs z)) None).

(** The text operations of [rust_decimal]: [Display] writes all of the scale's
    digits, [from_str_exact] keeps every digit and fails only beyond 96 bits or 28
    fractional digits. *)
Class DecimalText `{RustDecimal} := {
  dec_to_string : Decimal -> string;
  from_str_exact : string -> option Decimal;
  dec_to_string_spec d :
    bytes (dec_to_string d) = render (is_sign_negative d) (Z.abs (mantissa d)) (scale d);
  from_str_exact_spec text neg integer fraction :
    bytes text = decimal_text neg integer fraction ->
    integer <> [] -> fraction <> Some [] ->
    forallb is_ascii_digit (integer ++ frac_digits fraction) = true ->
    let m := signed_value neg (digits_value (integer ++ frac_digits fraction)) in
    let s := Z.of_nat (length (frac_digits fraction)) in
    match from_str_exact text with
    | Some d => mantissa d = m /\ scale d = s
    | None => ~ (Z.abs m < decimal_limit /\ s <= max_scale)
    end;
}.

(** ** Text operations of the standard library *)

(** [str::strip_prefix], [str::split_once], [str::trim_end_matches] on one
    character, and [str::starts_with]. *)
Definition strip_prefix (c : ascii) (l : list ascii) : option (list ascii) :=
  match l with x :: l => if Ascii.eqb x c then Some l else None | [] => None end.

Fixpoint split_once (c : ascii) (l : list ascii) : option (list ascii * list ascii) :=
  match l with
  | [] => None
  | x :: l =>
      if Ascii.eqb x c then Some ([], l)
      else match split_once c l with Some (a, b) => Some (x :: a, b) | None => None end
  end.

Fixpoint trim_end_matches (c : ascii) (l : list ascii) : list ascii :=
  match l with
  | [] => []
  | x :: l =>
      match trim_end_matches c l with
      | [] => if Ascii.eqb x c then [] else [x]
      | l' => x :: l'
      end
  end.

Definition starts_with (c : ascii) (l : list ascii) : bool :=
  match l with x :: _ => Ascii.eqb x c | [] => false end.

Definition is_empty {A} (l : list A) : bool := match l with [] => true | _ => false end.

(** ** Digit strings *)

Definition all_digits (l : list ascii) : Prop := Forall (fun c => is_ascii_digit c = true) l.

Lemma all_digits_forallb l : forallb is_ascii_digit l = true <-> all_digits l.
Proof. unfold all_digits. rewrite forallb_forall, Forall_forall. by setoid_rewrite list_elem_of_In. Qed.

Lemma digit_spec n : 0 <= n < 10 -> is_ascii_digit (digit n) = true /\ digit_val (digit n) = n.
Proof.
  intros Hn. rewrite <- (Z2Nat.id n) by lia. assert (Hk : (Z.to_nat n < 10)%nat) by lia.
  revert Hk. generalize (Z.to_nat n) as k. intros k Hk.
  do 10 (destruct k as [|k]; [by vm_compute|]). lia.
Qed.

Lemma digit_val_range c : is_ascii_digit c = true -> 0 <= digit_val c < 10.
Proof.
  unfold is_ascii_digit, digit_val, byte_code, nat_of_ascii.
  rewrite N_nat_Z, andb_true_iff, !Z.leb_le. lia.
Qed.

Lemma digit_not c x : is_ascii_digit c = true -> is_ascii_digit x = false -> Ascii.eqb c x = false.
Proof. intros Hc Hx. destruct (Ascii.eqb_spec c x); congruence. Qed.

Lemma digit_val_zero c : is_ascii_digit c = true -> digit_val c = 0 -> c = "0"%char.
Proof.
  intros _ Hv. unfold digit_val in Hv. rewrite <- (ascii_N_embedding c).
  by replace (N_of_ascii c) with 48%N by lia.
Qed.

Lemma digits_value_snoc l c : digits_value (l ++ [c]) = 10 * digits_value l + digit_val c.
Proof. unfold digits_value. by rewrite fold_left_app. Qed.

Lemma digits_value_app l1 l2 :
  digits_value (l1 ++ l2) = digits_value l1 * 10 ^ Z.of_nat (length l2) + digits_value l2.
Proof.
  induction l2 as [|c l2 IH] using rev_ind.
  { rewrite app_nil_r. cbn. lia. }
  rewrite app_assoc, !digits_value_snoc, IH, length_app, Nat2Z.inj_add.
  rewrite Z.pow_add_r by lia. change (10 ^ Z.of_nat (length [c])) with 10. lia.
Qed.

Lemma digits_value_range l : all_digits l -> 0 <= digits_value l < 10 ^ Z.of_nat (length l).
Proof.
  induction l as [|c l IH] using rev_ind; intros Hd; [by cbn|].
  apply Forall_app in Hd as [Hd [Hc _]%Forall_cons]. specialize (IH Hd).
  pose proof (digit_val_range c Hc).
  rewrite digits_value_snoc, length_app, Nat2Z.inj_add, Z.pow_add_r by lia.
  change (10 ^ Z.of_nat (length [c])) with 10. lia.
Qed.

Lemma fixed_digits_spec k : forall n, 0 <= n < 10 ^ Z.of_nat k ->
  all_digits (fixed_digits k n) /\ length (fixed_digits k n) = k /\
  digits_value (fixed_digits k n) = n.
Proof.
  induction k as [|k IH]; intros n Hn; cbn [fixed_digits].
  { change (10 ^ Z.of_nat 0) with 1 in Hn. split_and!; [constructor|done|]. cbn. lia. }
  rewrite Nat2Z.inj_succ, Z.pow_succ_r in Hn by lia.
  destruct (IH (n / 10)) as (Hd & Hl & Hv).
  { split; [apply Z.div_pos; lia|apply Z.div_lt_upper_bound; lia]. }
  destruct (digit_spec (n mod 10)) as [Hc Hcv]; [apply Z.mod_pos_bound; lia|].
  split_and!.
  - apply Forall_app. by repeat constructor.
  - rewrite length_app, Hl. cbn. lia.
  - rewrite digits_value_snoc, Hv, Hcv. pose proof (Z.div_mod n 10). lia.
Qed.

Lemma int_digits_spec fuel : forall n, (0 < fuel)%nat -> 0 <= n < 10 ^ Z.of_nat fuel ->
  all_digits (int_digits fuel n) /\ (0 < length (int_digits fuel n) <= fuel)%nat /\
  digits_value (int_digits fuel n) = n /\
  (0 < n -> starts_with "0"%char (int_digits fuel n) = false) /\
  (n < 10 -> length (int_digits fuel n) = 1%nat).
Proof.
  induction fuel as [|fuel IH]; intros n Hf Hn; [lia|]. cbn [int_digits].
  rewrite Nat2Z.inj_succ, Z.pow_succ_r in Hn by lia.
  destruct (Z.ltb_spec n 10).
  { destruct (digit_spec n) as [Hc Hcv]; [lia|]. split_and!; cbn; try lia.
    - by repeat constructor.
    - intros Hp. destruct (Ascii.eqb_spec (digit n) "0"%char) as [E|]; [|done].
      rewrite E in Hcv. change (digit_val "0"%char) with 0 in Hcv. lia. }
  destruct (IH (n / 10)) as (Hd & Hl & Hv & Hz & _).
  { destruct fuel; [|lia]. change (10 ^ Z.of_nat 0) with 1 in Hn. lia. }
  { split; [apply Z.div_pos; lia|apply Z.div_lt_upper_bound; lia]. }
  destruct (digit_spec (n mod 10)) as [Hc Hcv]; [apply Z.mod_pos_bound; lia|].
  split_and!.
  - apply Forall_app. by repeat constructor.
  - rewrite length_app. cbn. lia.
  - rewrite length_app. cbn. lia.
  - rewrite digits_value_snoc, Hv, Hcv. pose proof (Z.div_mod n 10). lia.
  - intros _. assert (0 < n / 10) by (apply Z.div_str_pos; lia).
    destruct (int_digits fuel (n / 10)) as [|c l] eqn:E; [cbn in Hl; lia|]. by apply Hz.
  - lia.
Qed.

(** ** Splitting and trimming *)

Lemma strip_prefix_some c l l' : strip_prefix c l = Some l' -> l = c :: l'.
Proof. destruct l as [|x l]; [done|]. cbn. destruct (Ascii.eqb_spec x c); naive_solver. Qed.

Lemma split_once_some c : forall l a b, split_once c l = Some (a, b) -> l = a ++ c :: b.
Proof.
  induction l as [|x l IH]; intros a b; cbn; [done|]. destruct (Ascii.eqb_spec x c); [naive_solver|].
  destruct (split_once c l) as [[a' b']|]; [|done]. intros [= <- <-]. cbn. f_equal. by apply IH.
Qed.

Lemma split_once_digits l : all_digits l ->
  split_once "."%char l = None /\ forall r, split_once "."%char (l ++ "."%char :: r) = Some (l, r).
Proof.
  induction 1 as [|x l Hx _ [IH1 IH2]]; cbn [split_once app]; [done|].
  rewrite (digit_not x) by done. split; [by rewrite IH1|]. intros r. by rewrite IH2.
Qed.

Lemma trim_app c x : forall l r, Ascii.eqb x c = false ->
  trim_end_matches c (l ++ x :: r) = l ++ x :: trim_end_matches c r.
Proof.
  induction l as [|y l IH]; intros r Hx; cbn [app trim_end_matches].
  - rewrite Hx. by destruct (trim_end_matches c r).
  - rewrite IH by done. by destruct l.
Qed.

Lemma trim_snoc c l : trim_end_matches c (l ++ [c]) = trim_end_matches c l.
Proof.
  induction l as [|y l IH]; cbn [app trim_end_matches]; [by rewrite Ascii.eqb_refl|]. by rewrite IH.
Qed.

(** Trimming removes a run of [c] and leaves no [c] at the end. *)
Lemma trim_split c l : exists k,
  l = trim_end_matches c l ++ repeat c k /\
  (trim_end_matches c l = [] \/
   exists l' x, trim_end_matches c l = l' ++ [x] /\ x <> c).
Proof.
  induction l as [|x l IH] using rev_ind; [exists 0%nat; by split; [|left]|].
  destruct (Ascii.eqb_spec x c) as [->|Hx].
  - destruct IH as (k & Hl & Ht). rewrite trim_snoc. exists (S k). split; [|done].
    rewrite Hl at 1. rewrite <- app_assoc. f_equal. symmetry. apply repeat_cons.
  - exists 0%nat. rewrite trim_app by by apply Ascii.eqb_neq. split; [by rewrite app_nil_r|].
    right. by exists l, x.
Qed.

Lemma repeat_zero_value k : digits_value (repeat "0"%char k) = 0.
Proof.
  induction k as [|k IH]; [done|]. cbn [repeat]. rewrite repeat_cons, digits_value_snoc, IH. done.
Qed.

Lemma byte_len_bytes s : byte_len s = Z.of_nat (length (bytes s)).
Proof.
  unfold byte_len, bytes. f_equal. induction s as [|c s IH]; [done|]. cbn. by rewrite IH.
Qed.

(** ** Plain decimal text *)

Record wf_text (integer : list ascii) (fraction : option (list ascii)) : Prop := mkWfText {
  wf_integer : integer <> [];
  wf_integer_digits : all_digits integer;
  wf_leading : (1 < length integer)%nat -> starts_with "0"%char integer = false;
  wf_fraction : fraction <> Some [];
  wf_fraction_digits : all_digits (frac_digits fraction);
}.

(** The fraction without its trailing zeros. *)
Definition trim_fraction (fraction : option (list ascii)) : option (list ascii) :=
  match fraction with
  | None => None
  | Some f => match trim_end_matches "0"%char f with [] => None | f' => Some f' end
  end.

Lemma digits_no_dot l : all_digits l -> trim_end_matches "."%char l = l.
Proof.
  intros Hd. destruct l as [|x l] using rev_ind; [done|].
  apply Forall_app in Hd as [_ [Hx _]%Forall_cons]. by rewrite trim_app by by apply digit_not.
Qed.

Lemma trim_fraction_wf integer fraction : wf_text integer fraction ->
  wf_text integer (trim_fraction fraction) /\
  exists k, frac_digits fraction = frac_digits (trim_fraction fraction) ++ repeat "0"%char k.
Proof.
  intros [Hi Hid Hl Hf Hfd]. destruct fraction as [f|]; cbn [trim_fraction]; [|by split; [|exists 0%nat]].
  destruct (trim_split "0"%char f) as (k & Hk & _).
  assert (Hd' : all_digits (trim_end_matches "0"%char f)).
  { cbn in Hfd. rewrite Hk in Hfd. by apply Forall_app in Hfd as [? _]. }
  destruct (trim_end_matches "0"%char f) as [|x l]; (split; [|by exists k]); by split.
Qed.

(** What the parser hands to the carrier. *)
Lemma exact_text_trim neg integer f : wf_text integer (Some f) ->
  trim_end_matches "."%char (trim_end_matches "0"%char (decimal_text neg integer (Some f)))
    = decimal_text neg integer (trim_fraction (Some f)).
Proof.
  intros Hwf. pose proof (trim_fraction_wf _ _ Hwf) as [[_ _ _ _ Hfd] _]. revert Hfd.
  destruct Hwf as [Hi Hid _ _ _]. unfold decimal_text. rewrite app_assoc, trim_app by done.
  cbn [trim_fraction]. destruct (trim_end_matches "0"%char f) as [|x l] using rev_ind; intros Hfd.
  - rewrite trim_snoc, app_nil_r. destruct integer as [|y m] using rev_ind; [done|].
    apply Forall_app in Hid as [_ [Hy _]%Forall_cons].
    rewrite app_assoc, trim_app by by apply digit_not. done.
  - clear IHl. destruct (l ++ [x]) as [|y m] eqn:E; [by destruct l|]. rewrite <- E in *.
    apply Forall_app in Hfd as [_ [Hx _]%Forall_cons].
    change ("."%char :: l ++ [x]) with (("."%char :: l) ++ [x]).
    rewrite app_assoc, trim_app by by apply digit_not. by rewrite <- !app_assoc.
Qed.

Lemma sign_split neg integer fraction : integer <> [] -> all_digits integer ->
  let chars := decimal_text neg integer fraction in
  default chars (strip_prefix "-"%char chars) = decimal_text false integer fraction /\
  starts_with "-"%char chars = neg /\ is_empty chars = false.
Proof.
  intros Hi Hd. destruct integer as [|x i]; [done|]. apply Forall_cons in Hd as [Hx _].
  destruct neg; cbn; [done|]. by rewrite (digit_not x "-"%char).
Qed.

Lemma point_split integer fraction : all_digits integer ->
  match split_once "."%char (decimal_text false integer fraction) with
  | Some (i, f) => (i, Some f)
  | None => (decimal_text false integer fraction, None)
  end = (integer, fraction).
Proof.
  intros Hd. destruct (split_once_digits integer Hd) as [Hn Hs].
  destruct fraction as [f|]; cbn [decimal_text app]; [by rewrite Hs|]. by rewrite app_nil_r, Hn.
Qed.

(** ** Machine integers as text *)

Lemma bytes_app a b : bytes (a +:+ b) = bytes a ++ bytes b.
Proof. induction a as [|c a IH]; [done|]. change (c :: bytes (a +:+ b) = c :: (bytes a ++ bytes b)). by rewrite IH. Qed.

Lemma bytes_inj a b : bytes a = bytes b -> a = b.
Proof.
  intros Hb. rewrite <- (String.string_of_list_ascii_of_string a),
    <- (String.string_of_list_ascii_of_string b). unfold bytes in Hb. by rewrite Hb.
Qed.

Lemma display_int_bytes z : Z.abs z < 10 ^ 20 ->
  bytes (display_int z) = (if z <? 0 then ["-"%char] else []) ++ int_digits 20 (Z.abs z) /\
  all_digits (int_digits 20 (Z.abs z)) /\ digits_value (int_digits 20 (Z.abs z)) = Z.abs z.
Proof.
  intros Hz. destruct (int_digits_spec 20 (Z.abs z)) as (Hd & Hl & Hv & _); [lia|split; [lia|exact Hz]|].
  unfold bytes, display_int. rewrite String.list_ascii_of_string_of_list_ascii. unfold decimal_text.
  by rewrite app_nil_r.
Qed.

Lemma display_int_no z c : Z.abs z < 10 ^ 20 -> is_ascii_digit c = false -> c <> "-"%char ->
  ~ (c ∈ bytes (display_int z)).
Proof.
  intros Hz Hc Hm. destruct (display_int_bytes z Hz) as (-> & Hd & _).
  rewrite elem_of_app. intros [Hin|Hin].
  - destruct (z <? 0); [by apply list_elem_of_singleton in Hin|by apply not_elem_of_nil in Hin].
  - eapply Forall_forall in Hd; [|exact Hin]. cbn in Hd. congruence.
Qed.

Lemma display_int_inj a b : Z.abs a < 10 ^ 20 -> Z.abs b < 10 ^ 20 ->
  display_int a = display_int b -> a = b.
Proof.
  intros Ha Hb Heq. apply (f_equal bytes) in Heq.
  destruct (display_int_bytes a Ha) as (Ea & Hda & Hva), (display_int_bytes b Hb) as (Eb & Hdb & Hvb).
  rewrite Ea, Eb in Heq. clear Ea Eb.
  generalize dependent (int_digits 20 (Z.abs a)). generalize dependent (int_digits 20 (Z.abs b)).
  intros db Hdb Hvb da Heq Hda Hva.
  assert (Hnot : forall l, all_digits ("-"%char :: l) -> False)
    by (intros l Hl; apply Forall_cons in Hl as [Hl _]; done).
  destruct (Z.ltb_spec a 0), (Z.ltb_spec b 0); cbn [app] in Heq.
  - injection Heq as Heq. rewrite Heq in Hva. lia.
  - rewrite <- Heq in Hdb. by apply Hnot in Hdb.
  - rewrite Heq in Hda. by apply Hnot in Hda.
  - rewrite Heq in Hva. lia.
Qed.

Section text.
Context `{DecimalText}.

(** ** The code *)

Definition parse_decimal (text : string) : result MoneyError Decimal :=
  let chars := bytes text in
  if is_empty chars || (MAX_DECIMAL_BYTES <? byte_len text)
  then Err MoneyError.InvalidDecimal
  else
    let unsigned := default chars (strip_prefix "-"%char chars) in
    let '(integer, fraction) :=
      match split_once "."%char unsigned with
      | Some (i, f) => (i, Some f)
      | None => (unsigned, None)
      end in
    if is_empty integer || negb (forallb is_ascii_digit integer)
       || ((1 <? Z.of_nat (length integer)) && starts_with "0"%char integer)
       || match fraction with
          | Some f => is_empty f || negb (forallb is_ascii_digit f)
          | None => false
          end
    then Err MoneyError.InvalidDecimal
    else
      let exact_text :=
        match fraction with
        | Some _ => trim_end_matches "."%char (trim_end_matches "0"%char chars)
        | None => chars
        end in
      amount ←
        match from_str_exact (String.string_of_list_ascii exact_text) with
        | Some amount => Ok amount
        | None =>
            let fraction_digits :=
              match split_once "."%char exact_text with
              | Some (_, f) => Z.of_nat (length f)
              | None => 0
              end in
            if 28 <? fraction_digits then Err MoneyError.InvalidDecimal
            else Err MoneyError.AmountOutOfRange
        end;
      if starts_with "-"%char chars && is_zero amount then Err MoneyError.InvalidDecimal
      else validate_amount amount.

Definition canonical_decimal (value : Decimal) : string := dec_to_string (normalize value).

(** [Display for PostedMoney]. *)
Definition posted_to_string (p : PostedMoney) : string :=
  canonical_decimal (amount p) +:+ " " +:+ code (currency p).

(** ** Parsing *)

(** [parse_decimal] past its syntax checks. *)
Definition parse_exact (neg : bool) (exact : list ascii) : result MoneyError Decimal :=
  amount ←
    match from_str_exact (String.string_of_list_ascii exact) with
    | Some amount => Ok amount
    | None =>
        if 28 <? match split_once "."%char exact with
                 | Some (_, f) => Z.of_nat (length f)
                 | None => 0
                 end
        then Err MoneyError.InvalidDecimal else Err MoneyError.AmountOutOfRange
    end;
  if neg && is_zero amount then Err MoneyError.InvalidDecimal else validate_amount amount.

Lemma wf_text_check integer fraction :
  is_empty integer || negb (forallb is_ascii_digit integer)
    || ((1 <? Z.of_nat (length integer)) && starts_with "0"%char integer)
    || match fraction with
       | Some f => is_empty f || negb (forallb is_ascii_digit f)
       | None => false
       end = false <-> wf_text integer fraction.
Proof.
  rewrite !orb_false_iff, andb_false_iff, Z.ltb_ge, negb_false_iff, all_digits_forallb. split.
  - intros [[[Hi Hd] Hl] Hf]. split; [by destruct integer|done| | |].
    + intros Hlen. destruct Hl; [lia|done].
    + destruct fraction as [[|]|]; [done..].
    + destruct fraction as [f|]; [|constructor].
      by apply orb_false_iff in Hf as [_ Hf%negb_false_iff%all_digits_forallb].
  - intros [Hi Hd Hl Hf Hfd]. split_and!; [by destruct integer|done| |].
    + destruct (decide (1 < length integer)%nat); [right; by apply Hl|left; lia].
    + destruct fraction as [[|x f]|]; [done| |done].
      by rewrite (proj2 (all_digits_forallb (x :: f)) Hfd).
Qed.

Lemma parse_run text neg integer fraction :
  bytes text = decimal_text neg integer fraction -> wf_text integer fraction ->
  byte_len text <= MAX_DECIMAL_BYTES ->
  parse_decimal text = parse_exact neg (decimal_text neg integer (trim_fraction fraction)).
Proof.
  intros Hb Hwf Hlen. unfold parse_decimal. rewrite Hb.
  destruct (sign_split neg integer fraction) as (-> & -> & ->); [apply Hwf..|].
  rewrite point_split by apply Hwf. rewrite (proj2 (Z.ltb_ge _ _)) by done. cbn [orb].
  rewrite (proj2 (wf_text_check integer fraction)) by done.
  destruct fraction as [f|]; [|done]. by rewrite exact_text_trim.
Qed.

Lemma parse_syntax text d : parse_decimal text = Ok d ->
  exists neg integer fraction, bytes text = decimal_text neg integer fraction /\
    wf_text integer fraction /\ byte_len text <= MAX_DECIMAL_BYTES.
Proof.
  unfold parse_decimal. destruct (is_empty (bytes text)); [done|].
  destruct (Z.ltb_spec MAX_DECIMAL_BYTES (byte_len text)); [done|]. cbn [orb].
  set (chars := bytes text). set (unsigned := default chars (strip_prefix "-"%char chars)).
  assert (Hu : exists neg, chars = (if neg : bool then ["-"%char] else []) ++ unsigned).
  { unfold unsigned. destruct (strip_prefix "-"%char chars) as [l|] eqn:E.
    - exists true. by apply strip_prefix_some.
    - by exists false. }
  destruct Hu as [neg Hu].
  destruct (split_once "."%char unsigned) as [[i f]|] eqn:E;
    match goal with |- (if ?b then _ else _) = _ -> _ => destruct b eqn:Hchk; [done|] end;
    intros _.
  - exists neg, i, (Some f). split_and!; [|by apply wf_text_check|done].
    rewrite Hu. unfold decimal_text. f_equal. by apply split_once_some.
  - exists neg, unsigned, None. split_and!; [|by apply wf_text_check|done].
    unfold decimal_text. by rewrite app_nil_r.
Qed.

(** A decimal denotes the value a text spells. *)
Definition denotes (d : Decimal) (neg : bool) (integer : list ascii)
    (fraction : option (list ascii)) : Prop :=
  mantissa d * 10 ^ Z.of_nat (length (frac_digits fraction))
    = signed_value neg (digits_value (integer ++ frac_digits fraction)) * 10 ^ scale d.

Lemma denotes_trim d neg integer fraction : wf_text integer fraction ->
  denotes d neg integer (trim_fraction fraction) <-> denotes d neg integer fraction.
Proof.
  intros Hwf. destruct (trim_fraction_wf _ _ Hwf) as (_ & k & Hk). unfold denotes. rewrite Hk.
  set (f := frac_digits (trim_fraction fraction)).
  rewrite app_assoc, (digits_value_app (integer ++ f)), repeat_zero_value, length_app, repeat_length.
  rewrite Nat2Z.inj_add, Z.pow_add_r by lia.
  pose proof (pow10_pos (Z.of_nat k) ltac:(lia)).
  unfold signed_value. destruct neg; split; nia.
Qed.

(** Stripped coefficients of one value are one coefficient. *)
Lemma stripped_unique a s b t : 0 <= s -> 0 <= t -> a * 10 ^ t = b * 10 ^ s ->
  (s = 0 \/ Z.rem a 10 <> 0) -> (t = 0 \/ Z.rem b 10 <> 0) -> s = t /\ a = b.
Proof.
  assert (Hle : forall a s b t, 0 <= s -> 0 <= t -> a * 10 ^ t = b * 10 ^ s ->
    (s = 0 \/ Z.rem a 10 <> 0) -> s <= t).
  { clear. intros a s b t Hs Ht Heq [->|Hr]; [done|].
    destruct (Z.le_gt_cases s t) as [|Hlt]; [done|]. destruct Hr. apply Z.rem_divide; [lia|].
    assert (a = b * 10 ^ (s - t)) as ->.
    { apply (Z.mul_cancel_r _ _ (10 ^ t)); [apply Z.pow_nonzero; lia|].
      rewrite Heq, <- Z.mul_assoc, <- Z.pow_add_r by lia. do 2 f_equal. lia. }
    replace (s - t) with (Z.succ (s - t - 1)) by lia. rewrite Z.pow_succ_r by lia.
    exists (b * 10 ^ (s - t - 1)). ring. }
  intros Hs Ht Heq Ha Hb. assert (s = t) as ->.
  { apply Z.le_antisymm; [by apply (Hle a s b t)|by apply (Hle b t a s)]. }
  split; [done|]. eapply Z.mul_cancel_r; [|exact Heq]. apply Z.pow_nonzero; lia.
Qed.

Lemma trimmed_stripped neg integer fraction : wf_text integer fraction ->
  let f := frac_digits (trim_fraction fraction) in
  Z.of_nat (length f) = 0 \/ Z.rem (signed_value neg (digits_value (integer ++ f))) 10 <> 0.
Proof.
  intros Hwf. pose proof (trim_fraction_wf _ _ Hwf) as [[_ Hid _ _ Hfd] _].
  destruct fraction as [f|]; cbn [trim_fraction frac_digits default]; [|by left].
  destruct (trim_split "0"%char f) as (_ & _ & [Ht|(l & x & Ht & Hx)]); [rewrite Ht; by left|].
  cbn [trim_fraction] in Hfd.
  destruct (trim_end_matches "0"%char f) as [|y m]; [by left|]. right. cbn in Hfd |- *. rewrite Ht in *.
  apply Forall_app in Hfd as [Hl [Hxd _]%Forall_cons].
  rewrite app_assoc, digits_value_snoc.
  pose proof (digit_val_range x Hxd). pose proof (digit_val_zero x Hxd).
  pose proof (digits_value_range (integer ++ l) (Forall_app_2 _ _ _ Hid Hl)) as [Hv _].
  assert (digit_val x <> 0) by tauto.
  assert (Z.rem (10 * digits_value (integer ++ l) + digit_val x) 10 <> 0).
  { rewrite Z.rem_mod_nonneg by lia. rewrite Z.add_comm, Z.mul_comm, Z.mod_add by lia.
    rewrite Z.mod_small by lia. done. }
  unfold signed_value. destruct neg; [|done]. rewrite Z.rem_opp_l by lia. lia.
Qed.

Lemma parse_exact_ok neg integer fraction d : wf_text integer fraction ->
  parse_exact neg (decimal_text neg integer (trim_fraction fraction)) = Ok d <->
  canonical d /\ Z.abs (mantissa d) < COEFFICIENT_LIMIT /\
  denotes d neg integer fraction /\ (neg = true -> mantissa d <> 0).
Proof.
  intros Hwf. rewrite <- denotes_trim by done.
  pose proof (trimmed_stripped neg integer fraction Hwf) as Hs. cbn zeta in Hs.
  pose proof (trim_fraction_wf _ _ Hwf) as [[Hi Hid _ Hf Hfd] _].
  set (fr := trim_fraction fraction) in *. unfold parse_exact.
  set (text := String.string_of_list_ascii _).
  pose proof (from_str_exact_spec text neg integer fr) as Hlaw.
  specialize (Hlaw (String.list_ascii_of_string_of_list_ascii _) Hi Hf).
  specialize (Hlaw (proj2 (all_digits_forallb _) (Forall_app_2 _ _ _ Hid Hfd))). cbn zeta in Hlaw.
  unfold denotes. set (m := signed_value neg _) in *. set (s := Z.of_nat _) in *.
  destruct (from_str_exact text) as [a|]; cbn [mbind result_bind].
  - destruct Hlaw as [Hm Hsc]. rewrite is_zero_spec, Hm.
    pose proof (normalize_value a) as Hv. rewrite Hm, Hsc in Hv.
    pose proof (pow10_pos s ltac:(lia)). split.
    + destruct (neg && (m =? 0)) eqn:Hz; [done|]. rewrite validate_amount_ok. intros [Hlim ->].
      split_and!; [apply canonical_normalize|done|done|]. intros ->.
      apply andb_false_iff in Hz as [Hz|Hz%Z.eqb_neq]; [done|]. intros Hzero. rewrite Hzero in Hv.
      pose proof (scale_bound (normalize a)). pose proof (pow10_pos (scale (normalize a)) ltac:(lia)). nia.
    + intros (Hc & Hlim & Hden & Hnz).
      assert (normalize a = d) as <-.
      { apply canonical_unique; [apply canonical_normalize|done|]. rewrite units_normalize.
        symmetry. apply Z.compare_eq. rewrite <- dec_cmp_units, dec_cmp_spec, Hm, Hsc, Hden.
        apply Z.compare_refl. }
      destruct (neg && (m =? 0)) eqn:Hz; [|by apply validate_amount_ok].
      apply andb_true_iff in Hz as [-> Hz%Z.eqb_eq]. destruct (Hnz eq_refl). nia.
  - split.
    + by destruct (28 <? _).
    + intros ([Hc _] & Hlim & Hden & _). destruct Hlaw.
      destruct (stripped_unique (mantissa d) (scale d) m s) as [<- <-]; [apply scale_bound|lia|done..|].
      split; [|apply scale_bound]. unfold COEFFICIENT_LIMIT, decimal_limit in *. lia.
Qed.

Lemma parse_decimal_ok text d :
  parse_decimal text = Ok d <->
  canonical d /\ Z.abs (mantissa d) < COEFFICIENT_LIMIT /\ byte_len text <= MAX_DECIMAL_BYTES /\
  exists neg integer fraction, bytes text = decimal_text neg integer fraction /\
    wf_text integer fraction /\ denotes d neg integer fraction /\
    (neg = true -> mantissa d <> 0).
Proof.
  split.
  - intros Hp. destruct (parse_syntax text d Hp) as (neg & i & f & Hb & Hwf & Hlen).
    rewrite (parse_run text neg i f Hb Hwf Hlen), parse_exact_ok in Hp by done.
    destruct Hp as (? & ? & ? & ?). split_and!; [done..|]. by exists neg, i, f.
  - intros (Hc & Hl & Hlen & neg & i & f & Hb & Hwf & Hd & Hn).
    by rewrite (parse_run text neg i f Hb Hwf Hlen), parse_exact_ok.
Qed.

(** [parse_decimal] accepts exactly the plain decimal texts of at most 64 bytes
    (no leading zeros, no empty parts, no negative zero) whose value has a canonical
    decimal of at most 28 digits, and returns that decimal. *)
Theorem parse_decimal_exact text d :
  parse_decimal text = Ok d <->
  canonical d /\ Z.abs (mantissa d) < COEFFICIENT_LIMIT /\ byte_len text <= MAX_DECIMAL_BYTES /\
  exists neg integer fraction, bytes text = decimal_text neg integer fraction /\
    wf_text integer fraction /\ denotes d neg integer fraction /\
    (neg = true -> mantissa d <> 0).
Proof. apply parse_decimal_ok. Qed.

(** ** The canonical spelling *)

Lemma render_wf neg mag sc : 0 <= mag < 10 ^ 30 -> 0 <= sc <= 28 ->
  exists integer fraction, render neg mag sc = decimal_text neg integer fraction /\
    wf_text integer fraction /\ Z.of_nat (length (frac_digits fraction)) = sc /\
    digits_value (integer ++ frac_digits fraction) = mag /\
    Z.of_nat (length (render neg mag sc)) <= MAX_DECIMAL_BYTES.
Proof.
  intros Hm Hs. pose proof (pow10_pos sc ltac:(lia)) as Hp. unfold render.
  assert (Hq : 0 <= mag / 10 ^ sc < 10 ^ 30).
  { split; [apply Z.div_pos; lia|]. apply Z.div_lt_upper_bound; [done|]. nia. }
  destruct (int_digits_spec 30 (mag / 10 ^ sc)) as (Hd & Hl & Hv & Hz & H1); [lia|exact Hq|].
  destruct (fixed_digits_spec (Z.to_nat sc) (mag mod 10 ^ sc)) as (Hfd & Hfl & Hfv).
  { rewrite Z2Nat.id by lia. by apply Z.mod_pos_bound. }
  do 2 eexists. split; [reflexivity|].
  set (f := if sc =? 0 then None else _).
  assert (Hf : all_digits (frac_digits f) /\ Z.of_nat (length (frac_digits f)) = sc /\ f <> Some [] /\
               digits_value (frac_digits f) = mag mod 10 ^ sc).
  { unfold f. destruct (Z.eqb_spec sc 0) as [->|]; cbn.
    - split_and!; [constructor|done|done|]. by rewrite Z.mod_1_r.
    - split_and!; [done|lia| |done]. intros [= E]. rewrite E in Hfl. cbn in Hfl. lia. }
  destruct Hf as (Hf1 & Hf2 & Hf3 & Hf4). clearbody f. split_and!; [|done| |].
  - split; [by intros E; rewrite E in Hl; cbn in Hl; lia|done| |done|done].
    intros Hlen. apply Hz. destruct (Z.eq_dec (mag / 10 ^ sc) 0) as [E|]; [|lia].
    rewrite H1 in Hlen; lia.
  - rewrite digits_value_app, Hv, Hf4, Hf2. pose proof (Z.div_mod mag (10 ^ sc)). lia.
  - unfold decimal_text, MAX_DECIMAL_BYTES. rewrite !length_app, !Nat2Z.inj_add.
    destruct f as [g|]; cbn [length frac_digits default id] in *; destruct neg; cbn [length]; lia.
Qed.

Lemma canonical_sign d : canonical d ->
  signed_value (is_sign_negative d) (Z.abs (mantissa d)) = mantissa d.
Proof.
  intros [_ Hz]. unfold signed_value. destruct (Z.lt_trichotomy (mantissa d) 0) as [?|[E|?]].
  - rewrite sign_negative by lia. lia.
  - rewrite (Hz E). lia.
  - rewrite sign_positive by lia. lia.
Qed.

Lemma parse_canonical value : Z.abs (mantissa (normalize value)) < COEFFICIENT_LIMIT ->
  parse_decimal (canonical_decimal value) = Ok (normalize value).
Proof.
  intros Hlim. pose proof (canonical_normalize value) as Hc. set (d := normalize value) in *.
  unfold canonical_decimal. fold d. pose proof (scale_bound d) as Hs.
  pose proof (dec_to_string_spec d) as Hb.
  destruct (render_wf (is_sign_negative d) (Z.abs (mantissa d)) (scale d))
    as (i & f & Hr & Hwf & Hl & Hv & Hlen); [unfold COEFFICIENT_LIMIT in Hlim; lia|done|].
  apply parse_decimal_ok. split_and!; [done|done| |].
  - by rewrite byte_len_bytes, Hb.
  - exists (is_sign_negative d), i, f. split_and!; [congruence|done| |].
    + unfold denotes. by rewrite Hl, Hv, canonical_sign.
    + intros Hneg Hz. destruct Hc as [_ Hc]. rewrite (Hc Hz) in Hneg. done.
Qed.

(** ** Storage: [infra/storage/money_text.rs] and [serde_text.rs] *)

Definition encode_amount (value : PostedMoney) : string := canonical_decimal (amount value).

Definition decode_amount (text : string) (currency : CurrencySpec) : result RepoError PostedMoney :=
  amount ← map_err (fun _ => RepoError.InvalidStoredMoney) (parse_decimal text);
  if bool_decide (canonical_decimal amount <> text) then Err RepoError.InvalidStoredMoney
  else map_err (fun _ => RepoError.InvalidStoredMoney) (posted_try_new amount currency).

(** [u8::try_from] of a stored [i16]. *)
Definition u8_try_from (scale : Z) : option Z :=
  if (0 <=? scale) && (scale <=? 255) then Some scale else None.

Definition decode_currency (code : string) (scale : Z) : result RepoError CurrencySpec :=
  scale ← ok_or (u8_try_from scale) RepoError.InvalidStoredMoney;
  map_err (fun _ => RepoError.InvalidStoredMoney) (currency_spec_try_new code scale).

Definition decode_money (text code : string) (scale : Z) : result RepoError PostedMoney :=
  currency ← decode_currency code scale;
  decode_amount text currency.

Definition decode_optional_money (amount code : option string) (scale : option Z) :
    result RepoError (option PostedMoney) :=
  match amount, code, scale with
  | None, None, None => Ok None
  | Some amount, Some code, Some scale => Some <$> decode_money amount code scale
  | _, _, _ => Err RepoError.InvalidStoredMoney
  end.

Definition decode_rate (text : string) : result RepoError Decimal :=
  amount ← map_err (fun _ => RepoError.InvalidStoredMoney) (parse_decimal text);
  if bool_decide (canonical_decimal amount <> text) || dec_leb amount ZERO
  then Err RepoError.InvalidStoredMoney
  else Ok amount.

Record StoredMoney := mkStoredMoney {
  stored_amount : string;
  stored_currency : string;
  stored_currency_scale : Z;
}.

Definition stored_from_posted (value : PostedMoney) : StoredMoney :=
  {| stored_amount := canonical_decimal (amount value);
     stored_currency := code (currency value);
     stored_currency_scale := currency_scale (currency value) |}.

Definition stored_try_into_posted (value : StoredMoney) : result MoneyError PostedMoney :=
  currency ← currency_spec_try_new (stored_currency value) (stored_currency_scale value);
  amount ← parse_decimal (stored_amount value);
  posted_try_new amount currency.

(** The serde adapters, with the text the serializer writes and the reader reads. *)
Definition serde_serialize (value : Decimal) : result MoneyError string :=
  _ ← validate_amount value;
  Ok (canonical_decimal value).

Definition serde_deserialize (text : string) : result unit Decimal :=
  value ← map_err (fun _ => tt) (parse_decimal text);
  if bool_decide (canonical_decimal value <> text) then Err tt else Ok value.

(** A currency the constructor accepts. *)
Definition spec_valid (cur : CurrencySpec) : Prop :=
  currency_spec_try_new (code cur) (currency_scale cur) = Ok cur.

Lemma normalize_idem d : normalize (normalize d) = normalize d.
Proof. apply canonical_normalize_id, canonical_normalize. Qed.

Lemma posted_try_new_ok d cur p : canonical d -> posted_try_new d cur = Ok p <->
  Z.abs (mantissa d) < COEFFICIENT_LIMIT /\ scale d <= currency_scale cur /\
  p = mkPostedMoney d cur.
Proof.
  intros Hc. unfold posted_try_new. rewrite bind_ok. setoid_rewrite validate_amount_ok.
  rewrite canonical_normalize_id by done. unfold COEFFICIENT_LIMIT. split.
  - intros (a & [Hl ->] & Hp). destruct (Z.ltb_spec (currency_scale cur) (scale d)); [done|].
    by injection Hp as <-.
  - intros (Hl & Hs & ->). exists d. split; [done|].
    by rewrite (proj2 (Z.ltb_ge _ _)).
Qed.

Lemma decode_amount_ok text cur p : currency_ok cur ->
  decode_amount text cur = Ok p <-> posted_ok p /\ currency p = cur /\ encode_amount p = text.
Proof.
  intros Hcur. unfold decode_amount. rewrite bind_ok. setoid_rewrite map_err_ok. split.
  - intros (a & Ha & Hp). case_bool_decide as Hne; [done|]. apply map_err_ok in Hp.
    apply parse_decimal_ok in Ha as (Hc & Hlim & _). apply posted_try_new_ok in Hp as (_ & Hs & ->); [|done].
    split_and!; [by split_and!|done|]. done.
  - intros (Hok & <- & <-). destruct p as [d cur]; cbn in *.
    pose proof Hok as (_ & Hc & Hlim & Hs). cbn in *.
    exists d. unfold encode_amount; cbn [amount]. split.
    + rewrite parse_canonical by by rewrite canonical_normalize_id. by rewrite canonical_normalize_id.
    + rewrite bool_decide_false by tauto. apply map_err_ok. by apply posted_try_new_ok.
Qed.

Lemma currency_spec_ok cd sc cur : 0 <= sc -> currency_spec_try_new cd sc = Ok cur ->
  cur = mkCurrencySpec cd sc /\ currency_ok cur /\ spec_valid cur.
Proof.
  intros Hsc Hc. pose proof Hc as Hv. unfold currency_spec_try_new in Hc.
  destruct (_ || _); [done|]. destruct (Z.ltb_spec 28 sc); [done|]. injection Hc as <-.
  split_and!; [done| |exact Hv]. unfold currency_ok. cbn. lia.
Qed.

Lemma decode_currency_ok cd sc cur :
  decode_currency cd sc = Ok cur <->
  cur = mkCurrencySpec cd sc /\ currency_ok cur /\ spec_valid cur.
Proof.
  unfold decode_currency, u8_try_from. split.
  - intros (u & Hu%ok_or_ok & Hc%map_err_ok)%bind_ok.
    destruct (Z.leb_spec 0 sc), (Z.leb_spec sc 255); cbn in Hu; try done. injection Hu as <-.
    by apply currency_spec_ok.
  - intros (-> & Hcur & Hv). unfold currency_ok in Hcur. cbn in Hcur.
    rewrite (proj2 (Z.leb_le 0 sc)), (proj2 (Z.leb_le sc 255)) by lia. cbn [andb ok_or mbind result_bind].
    by rewrite Hv.
Qed.

Lemma decode_money_ok text cd sc p :
  decode_money text cd sc = Ok p <->
  posted_ok p /\ spec_valid (currency p) /\ encode_amount p = text /\
  code (currency p) = cd /\ currency_scale (currency p) = sc.
Proof.
  unfold decode_money. rewrite bind_ok. setoid_rewrite decode_currency_ok. split.
  - intros (cur & (-> & Hcur & Hv) & Hd). apply decode_amount_ok in Hd as (? & -> & ?); done.
  - intros (Hp & Hv & He & <- & <-). exists (currency p). destruct (currency p) as [cd sc] eqn:E.
    assert (currency_ok (mkCurrencySpec cd sc)) by (rewrite <- E; apply Hp).
    split; [done|]. by apply decode_amount_ok.
Qed.

(** Stored money has one spelling and it reads back: decoding the text of a
    valid posting under its currency returns that posting, and text that decodes to a
    posting is that posting's encoding, so corrupt or noncanonical text never
    decodes. *)
Theorem stored_money_roundtrip text cd sc p :
  (posted_ok p -> spec_valid (currency p) ->
   decode_money (encode_amount p) (code (currency p)) (currency_scale (currency p)) = Ok p) /\
  (decode_money text cd sc = Ok p ->
   posted_ok p /\ encode_amount p = text /\ code (currency p) = cd /\ currency_scale (currency p) = sc).
Proof. rewrite !decode_money_ok. tauto. Qed.

(** The serde adapters write only what they read back, as the normalized value,
    and read only what they would write. *)
Theorem serde_text_roundtrip value text :
  (forall written, serde_serialize value = Ok written ->
     serde_deserialize written = Ok (normalize value)) /\
  (serde_deserialize text = Ok value -> serde_serialize value = Ok text).
Proof.
  unfold serde_serialize, serde_deserialize. split.
  - intros written Hs. apply bind_ok in Hs as (a & [Hlim ->]%validate_amount_ok & [= <-]).
    rewrite parse_canonical by done. cbn [map_err mbind result_bind].
    unfold canonical_decimal. rewrite normalize_idem. by rewrite bool_decide_false by tauto.
  - intros Hd. apply bind_ok in Hd as (a & Ha%map_err_ok & Hd). case_bool_decide as Hne; [done|].
    injection Hd as ->. apply parse_decimal_ok in Ha as (Hc & Hlim & _).
    unfold validate_amount. rewrite canonical_normalize_id by done.
    rewrite (proj2 (Z.leb_gt _ _)) by done. cbn. by rewrite Hne.
Qed.
End text.

(** ** A concrete instance, and the witnesses *)

Module ConcreteText.
Import ConcreteDecimal.

Definition parse_str (text : string) : option dec :=
  let chars := bytes text in
  let unsigned := default chars (strip_prefix "-"%char chars) in
  let '(integer, fraction) :=
    match split_once "."%char unsigned with
    | Some (i, f) => (i, Some f)
    | None => (unsigned, None)
    end in
  let m := digits_value (integer ++ frac_digits fraction) in
  let s := Z.of_nat (length (frac_digits fraction)) in
  if parts_ok m s then Some (make (starts_with "-"%char chars) m s) else None.

#[global] Program Instance concrete_text : DecimalText (H := concrete) :=
  {| dec_to_string d := String.string_of_list_ascii
       (render (is_sign_negative d) (Z.abs (mantissa d)) (scale d));
     from_str_exact := parse_str |}.
Next Obligation. intros d. apply String.list_ascii_of_string_of_list_ascii. Qed.
Next Obligation.
  intros text neg integer fraction Hb Hi Hf Hd. cbn zeta. unfold parse_str. rewrite Hb.
  apply all_digits_forallb in Hd. pose proof (digits_value_range _ Hd) as [Hv _].
  pose proof Hd as [Hid Hfd]%Forall_app.
  destruct (sign_split neg integer fraction Hi Hid) as (-> & -> & _).
  rewrite point_split by done. set (m := digits_value _) in *. set (s := Z.of_nat _).
  destruct (parts_ok m s) eqn:Hok.
  - destruct (make_parts neg m s Hok) as (Hs & Hm & Hsc). cbn. unfold coefficient.
    by rewrite Hs, Hm, Hsc.
  - intros [Hlim Hs]. apply not_true_iff_false in Hok. apply Hok, parts_ok_spec.
    unfold signed_value in Hlim. destruct neg; lia.
Qed.
End ConcreteText.

Section witnesses.
Import ConcreteDecimal ConcreteText MoneySamples.

Lemma parse_decimal_exact_witness :
  exists d, parse_decimal "-12.500" = Ok d /\ canonical d /\ parse_decimal "012.5" <> Ok d.
Proof.
  destruct (is_ok_exists (parse_decimal "-12.500")) as [d Hd]; [vm_compute; reflexivity|].
  exists d. split; [exact Hd|]. split; [exact (proj1 (proj1 (parse_decimal_exact _ d) Hd))|].
  assert (Hf : is_ok (parse_decimal "012.5") = false) by (vm_compute; reflexivity).
  intros He. rewrite He in Hf. discriminate.
Defined.

Lemma stored_money_roundtrip_witness :
  decode_money (encode_amount (eur 1250)) "EUR" 2 = Ok (eur 1250) /\
  is_ok (decode_money "12.50" "EUR" 2) = false.
Proof.
  split; [|vm_compute; reflexivity].
  apply (proj1 (stored_money_roundtrip "12.5" "EUR" 2 (eur 1250)));
    [exact (eur_ok 1250 eq_refl)|reflexivity].
Defined.

Lemma serde_text_roundtrip_witness :
  exists text, serde_serialize (lit 12500 3) = Ok text /\
               serde_deserialize text = Ok (normalize (lit 12500 3)).
Proof.
  destruct (is_ok_exists (serde_serialize (lit 12500 3))) as [text Ht]; [vm_compute; reflexivity|].
  exists text. split; [exact Ht|].
  exact (proj1 (serde_text_roundtrip (lit 12500 3) text) text Ht).
Defined.
End witnesses.
