(* ===== verification/Posting.v ===== *)
(** * Posting invariants: [domain/posting.rs]

    [validate_balanced_entry] is the engine's structural gate: every journal
    entry passes it before it is stored.  [balanced_entry] says declaratively
    what it admits, and [validate_balanced_entry_spec] that it admits exactly
    that.  The builders of the other files prove [balanced_entry] of what they
    return, through the interface [Balanced] at the end. *)

From S2P Require Import Prelude Decimal Money Exact ExactGrid DomainErrors Sdk.

Module PostingViolation.
Inductive posting_violation :=
| Empty
| Unbalanced
| MixedPayer
| CurrencyMismatch
| InconsistentScale
| AmountOutOfRange
| FunctionalPartial
| FunctionalUnbalanced.
End PostingViolation.
Abbreviation PostingViolation := PostingViolation.posting_violation.

Definition violation_to_domain (v : PostingViolation) : DomainError :=
  match v with
  | PostingViolation.Empty => DomainError.Empty
  | PostingViolation.MixedPayer => DomainError.MixedPayer
  | PostingViolation.InconsistentScale => DomainError.InconsistentScale
  | PostingViolation.Unbalanced => DomainError.Unbalanced
  | PostingViolation.CurrencyMismatch => DomainError.CurrencyMismatch
  | PostingViolation.AmountOutOfRange => DomainError.AmountOutOfRange
  | PostingViolation.FunctionalPartial => DomainError.Unbalanced
  | PostingViolation.FunctionalUnbalanced => DomainError.Unbalanced
  end.

Section posting.
Context `{RustDecimal}.

Record LineFacts := mkLineFacts {
  fact_side : Side;
  fact_money : PostedMoney;
  fact_payer : Uuid;
  fact_functional : option PostedMoney;
}.

Definition is_functional_only (money : PostedMoney) (functional : option PostedMoney) : bool :=
  is_zero (amount money) && bool_decide (is_Some functional).

Definition line_functional_only (line : LineFacts) : bool :=
  is_functional_only (fact_money line) (fact_functional line).

Definition add_signed (net : ExactAmount) (money : PostedMoney) (side : Side) :
    result PostingViolation ExactAmount :=
  let value := from_decimal (amount money) in
  map_err (fun _ => PostingViolation.AmountOutOfRange)
    match side with
    | Debit => checked_add net value
    | Credit => checked_sub net value
    end.

(** The amount guard of one line. *)
Definition amount_rejected (line : LineFacts) : bool :=
  dec_ltb (amount (fact_money line)) ZERO
  || (is_zero (amount (fact_money line))
      && match fact_functional line with
         | None => true
         | Some f => dec_leb (amount f) ZERO
         end).

(** One turn of the loop that nets the lines per currency code. *)
Definition group_step (groups : gmap string (Z * ExactAmount)) (line : LineFacts) :
    result PostingViolation (gmap string (Z * ExactAmount)) :=
  let spec := currency (fact_money line) in
  let '(scale, net) :=
    default (currency_scale spec, from_decimal ZERO) (groups !! code spec) in
  if negb (scale =? currency_scale spec) then Err PostingViolation.InconsistentScale
  else
    net ← add_signed net (fact_money line) (fact_side line);
    Ok (<[code spec := (scale, net)]> groups).

(** One turn of the loop that nets the functional column. *)
Definition functional_step (first : PostedMoney) (net : ExactAmount) (line : LineFacts) :
    result PostingViolation ExactAmount :=
  match fact_functional line with
  | None => Err PostingViolation.FunctionalPartial
  | Some money =>
      if negb (bool_decide (code (currency money) = code (currency first)))
      then Err PostingViolation.CurrencyMismatch
      else if negb (currency_scale (currency money) =? currency_scale (currency first))
      then Err PostingViolation.InconsistentScale
      else add_signed net money (fact_side line)
  end.

Definition validate_balanced_entry (entry_currency : string) (lines : list LineFacts) :
    result PostingViolation unit :=
  match lines with
  | [] => Err PostingViolation.Empty
  | first_line :: _ =>
      if existsb amount_rejected lines then Err PostingViolation.AmountOutOfRange
      else if existsb (fun line => negb (bool_decide (fact_payer line = fact_payer first_line)))
                      lines
      then Err PostingViolation.MixedPayer
      else if existsb (fun line =>
                negb (bool_decide (code (currency (fact_money line)) = entry_currency))
                && negb (line_functional_only line)) lines
      then Err PostingViolation.CurrencyMismatch
      else
        groups ← fold_res group_step ∅ lines;
        let zero := from_decimal ZERO in
        if existsb (fun g => negb (exact_eqb (snd (snd g)) zero)) (map_to_list groups)
        then Err PostingViolation.Unbalanced
        else
          let func_count := length (filter (fun line => is_Some (fact_functional line)) lines) in
          if (0 <? Z.of_nat func_count)
             && (Z.of_nat func_count <? Z.of_nat (length lines))
          then Err PostingViolation.FunctionalPartial
          else
            match fact_functional first_line with
            | None => Ok tt
            | Some first =>
                net ← fold_res (functional_step first) zero lines;
                if negb (exact_eqb net zero) then Err PostingViolation.FunctionalUnbalanced
                else Ok tt
            end
  end.

(** ** What it admits *)

Definition signed (side : Side) (z : Z) : Z :=
  match side with Debit => z | Credit => - z end.

Definition line_code (line : LineFacts) : string := code (currency (fact_money line)).

(** Debits minus credits of one currency code, in units. *)
Definition net_of (c : string) (lines : list LineFacts) : Z :=
  sum_Z (fun line => if bool_decide (line_code line = c)
                     then signed (fact_side line) (posted_units (fact_money line)) else 0) lines.

Definition functional_units (line : LineFacts) : Z :=
  match fact_functional line with
  | Some f => signed (fact_side line) (posted_units f)
  | None => 0
  end.

Definition amount_admitted (line : LineFacts) : Prop :=
  0 < posted_units (fact_money line) \/
  (posted_units (fact_money line) = 0 /\
   exists f, fact_functional line = Some f /\ 0 < posted_units f).

Record balanced_entry (entry_currency : string) (lines : list LineFacts) : Prop := {
  be_nonempty : lines <> [];
  be_amounts : Forall amount_admitted lines;
  be_payer : exists payer, Forall (fun line => fact_payer line = payer) lines;
  be_currency : Forall (fun line =>
    line_code line = entry_currency \/ line_functional_only line = true) lines;
  be_scale : forall l1 l2, l1 ∈ lines -> l2 ∈ lines -> line_code l1 = line_code l2 ->
    currency_scale (currency (fact_money l1)) = currency_scale (currency (fact_money l2));
  be_net : forall c, net_of c lines = 0;
  be_functional :
    Forall (fun line => fact_functional line = None) lines \/
    exists spec,
      Forall (fun line => exists f, fact_functional line = Some f /\ currency f = spec) lines /\
      sum_Z functional_units lines = 0;
}.

(** ** The guards *)

Lemma amount_rejected_spec line : amount_rejected line = false <-> amount_admitted line.
Proof.
  unfold amount_rejected, amount_admitted, posted_units.
  rewrite dec_ltb_units, is_zero_units, units_ZERO.
  destruct (Z.ltb_spec (units (amount (fact_money line))) 0),
    (Z.eqb_spec (units (amount (fact_money line))) 0); cbn [orb andb]; [lia| | |].
  - split; [done|]. intros [?|[? _]]; lia.
  - destruct (fact_functional line) as [f|].
    + rewrite dec_leb_units, units_ZERO. split.
      * intros Hf%Z.leb_gt. right. split; [done|]. by exists f.
      * intros [?|(_ & f' & [= <-] & Hf)]; [lia|]. by apply Z.leb_gt.
    + split; [done|]. intros [?|(_ & f' & [=] & _)]. lia.
  - split; [|done]. left. lia.
Qed.

Lemma existsb_false {A} (p : A -> bool) l :
  existsb p l = false <-> Forall (fun x => p x = false) l.
Proof.
  induction l as [|x l IH]; cbn; [by split|].
  rewrite orb_false_iff, Forall_cons, IH. done.
Qed.

Lemma is_functional_only_spec m f :
  is_functional_only m f = true <-> posted_units m = 0 /\ is_Some f.
Proof.
  unfold is_functional_only, posted_units.
  rewrite andb_true_iff, is_zero_units, Z.eqb_eq, bool_decide_eq_true. done.
Qed.

(** ** Netting per currency *)

Lemma add_signed_units z m sd : small z -> small (z + signed sd (posted_units m)) ->
  add_signed (of_units z) m sd = Ok (of_units (z + signed sd (posted_units m))).
Proof.
  intros Hz Hs. pose proof (posted_units_small m). unfold add_signed.
  rewrite from_decimal_units. fold (posted_units m).
  destruct sd; cbn [signed] in *.
  - rewrite checked_add_units; [done|done|apply (small_bound _ 1); lia|done].
  - rewrite checked_sub_units; [done|done|apply (small_bound _ 1); lia|done].
Qed.

Lemma signed_abs sd z : Z.abs (signed sd z) = Z.abs z.
Proof. destruct sd; cbn; lia. Qed.

Lemma net_of_nil c : net_of c [] = 0.
Proof. done. Qed.

Lemma net_of_app c l1 l2 : net_of c (l1 ++ l2) = net_of c l1 + net_of c l2.
Proof. apply sum_Z_app. Qed.

Lemma net_of_cons c l ls :
  net_of c (l :: ls) =
  (if bool_decide (line_code l = c) then signed (fact_side l) (posted_units (fact_money l)) else 0)
  + net_of c ls.
Proof. apply sum_Z_cons. Qed.

Lemma net_of_small c ls : vec_ok ls -> small (net_of c ls).
Proof.
  intros Hl. unfold vec_ok in Hl. apply (small_bound _ (Z.of_nat (length ls))).
  - apply sum_Z_bound. intros l _. pose proof (posted_units_small (fact_money l)).
    case_bool_decide; [rewrite signed_abs|]; lia.
  - assert (2 ^ 64 < 2 ^ 100) by by vm_compute. lia.
Qed.

Lemma net_of_absent c ls : (forall l, l ∈ ls -> line_code l <> c) -> net_of c ls = 0.
Proof.
  induction ls as [|l ls IH]; intros Hc; [done|].
  rewrite net_of_cons, bool_decide_eq_false_2, IH by set_solver. done.
Qed.

Definition groups_inv (pre : list LineFacts) (g : gmap string (Z * ExactAmount)) : Prop :=
  forall c,
    match g !! c with
    | Some (s, v) =>
        (exists l, l ∈ pre /\ line_code l = c) /\
        (forall l, l ∈ pre -> line_code l = c -> currency_scale (currency (fact_money l)) = s) /\
        v = of_units (net_of c pre)
    | None => forall l, l ∈ pre -> line_code l <> c
    end.

Definition scale_agrees (pre : list LineFacts) (line : LineFacts) : Prop :=
  forall l, l ∈ pre -> line_code l = line_code line ->
    currency_scale (currency (fact_money l)) = currency_scale (currency (fact_money line)).

(** The entry [or_insert_with] leaves for the line's code before the update. *)
Lemma group_entry pre g line : groups_inv pre g ->
  exists s,
    default (currency_scale (currency (fact_money line)), from_decimal ZERO)
            (g !! line_code line) = (s, of_units (net_of (line_code line) pre)) /\
    (s = currency_scale (currency (fact_money line)) <-> scale_agrees pre line).
Proof.
  intros Hinv. specialize (Hinv (line_code line)).
  destruct (g !! line_code line) as [[s v]|]; cbn [default].
  - destruct Hinv as ((l & Hl & Hlc) & Hs & ->). exists s. split; [done|].
    split; [intros -> l' ? ?; by apply Hs|]. intros Ha. rewrite <- (Hs l Hl Hlc). by apply Ha.
  - exists (currency_scale (currency (fact_money line))).
    rewrite net_of_absent, from_decimal_units, units_ZERO by done. split; [done|].
    split; [|done]. intros _ l Hl Hc. by destruct (Hinv l Hl).
Qed.

Lemma group_step_ok pre g line : groups_inv pre g -> vec_ok (pre ++ [line]) ->
  scale_agrees pre line ->
  exists g', group_step g line = Ok g' /\ groups_inv (pre ++ [line]) g'.
Proof.
  intros Hinv Hl Hagree. unfold group_step. fold (line_code line).
  destruct (group_entry pre g line Hinv) as (s & -> & Hs).
  apply Hs in Hagree as Hsc. rewrite <- Hsc, Z.eqb_refl. cbn [negb].
  pose proof (net_of_small (line_code line) _ Hl) as Hsm.
  rewrite net_of_app, net_of_cons, bool_decide_eq_true_2, Z.add_0_r in Hsm by done.
  rewrite add_signed_units; [|apply net_of_small|done].
  2:{ unfold vec_ok in *. rewrite length_app in Hl. lia. }
  cbn [mbind result_bind]. eexists; split; [done|].
  intros c. destruct (decide (line_code line = c)) as [<-|Hne].
  - rewrite lookup_insert_eq. split_and!.
    + exists line. split; [set_solver|done].
    + intros l [Hin| ->%list_elem_of_singleton]%elem_of_app Hc; [by rewrite Hsc; apply Hagree|done].
    + f_equal. rewrite net_of_app, net_of_cons, bool_decide_eq_true_2 by done.
      rewrite net_of_nil. lia.
  - rewrite lookup_insert_ne by done. specialize (Hinv c).
    destruct (g !! c) as [[s' v]|].
    + destruct Hinv as ((l & Hl1 & Hl2) & Hs' & ->). split_and!.
      * exists l. split; [set_solver|done].
      * intros l' [Hin| ->%list_elem_of_singleton]%elem_of_app Hc; [by apply Hs'|done].
      * f_equal. rewrite net_of_app, net_of_cons, bool_decide_eq_false_2 by done.
        rewrite net_of_nil. lia.
    + intros l [Hin| ->%list_elem_of_singleton]%elem_of_app; [by apply Hinv|done].
Qed.

Definition all_agree (ls : list LineFacts) : Prop :=
  forall l1 l2, l1 ∈ ls -> l2 ∈ ls -> line_code l1 = line_code l2 ->
    currency_scale (currency (fact_money l1)) = currency_scale (currency (fact_money l2)).

Lemma group_step_agrees pre g line g' : groups_inv pre g ->
  group_step g line = Ok g' -> scale_agrees pre line.
Proof.
  intros Hinv. unfold group_step. fold (line_code line).
  destruct (group_entry pre g line Hinv) as (s & -> & Hs).
  destruct (Z.eqb_spec s (currency_scale (currency (fact_money line)))); cbn [negb]; [|done].
  intros _. by apply Hs.
Qed.

Lemma all_agree_snoc pre line : all_agree pre -> scale_agrees pre line ->
  all_agree (pre ++ [line]).
Proof.
  intros Hpre Hl l1 l2 H1 H2 Hc.
  apply elem_of_app in H1 as [H1| ->%list_elem_of_singleton];
  apply elem_of_app in H2 as [H2| ->%list_elem_of_singleton]; auto.
  symmetry. by apply Hl.
Qed.

Lemma group_loop_ok lines : forall pre g, groups_inv pre g -> vec_ok (pre ++ lines) ->
  all_agree (pre ++ lines) ->
  exists g', fold_res group_step g lines = Ok g' /\ groups_inv (pre ++ lines) g'.
Proof.
  induction lines as [|l ls IH]; intros pre g Hinv Hl Hagree; cbn [fold_res].
  { exists g. by rewrite app_nil_r. }
  replace (pre ++ l :: ls) with ((pre ++ [l]) ++ ls) in * by by rewrite <- app_assoc.
  destruct (group_step_ok pre g l) as (g' & -> & Hinv'); [done| | |].
  - unfold vec_ok in *. rewrite length_app in Hl. lia.
  - intros l' Hl' Hc. apply Hagree; [set_solver..|done].
  - cbn [mbind result_bind]. by apply IH.
Qed.

Lemma group_loop_inv lines : forall pre g g', groups_inv pre g -> vec_ok (pre ++ lines) ->
  all_agree pre -> fold_res group_step g lines = Ok g' ->
  all_agree (pre ++ lines) /\ groups_inv (pre ++ lines) g'.
Proof.
  induction lines as [|l ls IH]; intros pre g g' Hinv Hl Hagree; cbn [fold_res].
  { intros [= <-]. by rewrite app_nil_r. }
  intros (g1 & Hstep & Hrest)%bind_ok.
  replace (pre ++ l :: ls) with ((pre ++ [l]) ++ ls) in * by by rewrite <- app_assoc.
  apply group_step_agrees with (pre := pre) in Hstep as Hl'; [|done].
  destruct (group_step_ok pre g l) as (g2 & Heq & Hinv'); [done| |done|].
  - unfold vec_ok in *. rewrite length_app in Hl. lia.
  - rewrite Heq in Hstep. injection Hstep as ->. eapply IH; [done|done| |done].
    by apply all_agree_snoc.
Qed.

Lemma groups_balanced lines g : groups_inv lines g ->
  existsb (fun p => negb (exact_eqb (snd (snd p)) (from_decimal ZERO))) (map_to_list g) = false
  <-> forall c, net_of c lines = 0.
Proof.
  intros Hinv. rewrite existsb_false, Forall_forall, from_decimal_units, units_ZERO. split.
  - intros Hz c. specialize (Hinv c). destruct (g !! c) as [[s v]|] eqn:Hc.
    + destruct Hinv as (_ & _ & ->). apply elem_of_map_to_list in Hc.
      apply Hz in Hc. cbn [snd] in Hc. rewrite exact_eqb_units in Hc.
      by apply negb_false_iff, Z.eqb_eq in Hc.
    + by apply net_of_absent.
  - intros Hz [c [s v]] Hc%elem_of_map_to_list. specialize (Hinv c). rewrite Hc in Hinv.
    destruct Hinv as (_ & _ & ->). cbn [snd]. by rewrite exact_eqb_units, Hz.
Qed.

(** ** Netting the functional column *)

Lemma functional_units_bound line : Z.abs (functional_units line) < 10 ^ 57.
Proof.
  unfold functional_units. destruct (fact_functional line) as [f|]; [|done].
  rewrite signed_abs. apply posted_units_small.
Qed.

Lemma functional_loop_ok first lines net : vec_ok lines ->
  fold_res (functional_step first) (of_units 0) lines = Ok net <->
  Forall (fun line => exists f, fact_functional line = Some f /\ currency f = currency first) lines /\
  net = of_units (sum_Z functional_units lines).
Proof.
  intros Hl.
  assert (Hgen : forall z k, 0 <= k -> Z.abs z <= 10 ^ 57 * k ->
    k + Z.of_nat (length lines) < 2 ^ 100 ->
    fold_res (functional_step first) (of_units z) lines = Ok net <->
    Forall (fun line => exists f, fact_functional line = Some f /\ currency f = currency first) lines /\
    net = of_units (z + sum_Z functional_units lines)); cycle 1.
  { apply (Hgen 0 0); [lia..|]. unfold vec_ok in Hl.
    assert (2 ^ 64 < 2 ^ 100) by by vm_compute. lia. }
  clear Hl. induction lines as [|l ls IH]; intros z k Hk0 Hz Hk; cbn [fold_res].
  { rewrite sum_Z_nil, Z.add_0_r. split; [intros [= <-]; by split; [constructor|]|].
    by intros [_ ->]. }
  cbn [length] in Hk. pose proof (functional_units_bound l) as Hb.
  rewrite bind_ok, Forall_cons, sum_Z_cons, Z.add_assoc.
  assert (Hstep : forall acc, functional_step first (of_units z) l = Ok acc <->
    (exists f, fact_functional l = Some f /\ currency f = currency first) /\
    acc = of_units (z + functional_units l)).
  { intros acc. unfold functional_step, functional_units in *.
    destruct (fact_functional l) as [f|]; [|split; [done|by intros [(f & [=] & _) _]]].
    case_bool_decide as Hc; cbn [negb];
      [|split; [done|intros [(f' & [= <-] & Heq) _]; by rewrite Heq in Hc]].
    destruct (Z.eqb_spec (currency_scale (currency f)) (currency_scale (currency first))) as [Hs|Hs];
      cbn [negb]; [|split; [done|intros [(f' & [= <-] & Heq) _]; by rewrite Heq in Hs]].
    rewrite add_signed_units; [|apply (small_bound _ k); lia|apply (small_bound _ (k + 1)); lia].
    assert (currency f = currency first) by (destruct (currency f), (currency first); cbn in *; congruence).
    split; [intros [= <-]; split; [by exists f|done]|by intros [_ ->]]. }
  setoid_rewrite Hstep.
  specialize (IH (z + functional_units l) (k + 1) ltac:(lia) ltac:(lia) ltac:(lia)).
  split.
  - intros (acc & [Hf ->] & Hrest%IH). tauto.
  - intros [[Hf Hfs] Hsum]. eexists. split; [by split|]. by apply IH.
Qed.

Lemma filter_count_zero {A} (P : A -> Prop) `{!forall x, Decision (P x)} l :
  length (filter P l) = 0%nat <-> Forall (fun x => ~ P x) l.
Proof.
  induction l as [|x l IH]; [by split|]. rewrite filter_cons, Forall_cons.
  case_decide; cbn [length]; [split; [lia|tauto]|tauto].
Qed.

Lemma filter_count_all {A} (P : A -> Prop) `{!forall x, Decision (P x)} l :
  (length (filter P l) <= length l)%nat /\
  (length (filter P l) = length l <-> Forall P l).
Proof.
  induction l as [|x l [Hle IH]]; [by split|]. rewrite filter_cons, Forall_cons.
  case_decide; cbn [length]; (split; [lia|]).
  - rewrite <- IH. split; [intros; split; [done|lia]|intros [_ ?]; lia].
  - split; [lia|tauto].
Qed.

Lemma functional_count_ok first_line ls :
  let lines := first_line :: ls in
  let n := Z.of_nat (length (filter (fun line => is_Some (fact_functional line)) lines)) in
  ((0 <? n) && (n <? Z.of_nat (length lines))) = false <->
  Forall (fun line => fact_functional line = None) lines \/
  Forall (fun line => is_Some (fact_functional line)) lines.
Proof.
  intros lines n.
  destruct (filter_count_all (fun line => is_Some (fact_functional line)) lines) as [Hle Hall].
  pose proof (filter_count_zero (fun line => is_Some (fact_functional line)) lines) as Hnone.
  fold n in Hle. rewrite andb_false_iff, Z.ltb_ge, Z.ltb_ge. rewrite <- Hall.
  setoid_rewrite <- eq_None_not_Some in Hnone. rewrite <- Hnone. unfold n. lia.
Qed.

(** ** The gate *)

Lemma payer_guard first_line ls :
  existsb (fun line => negb (bool_decide (fact_payer line = fact_payer first_line)))
          (first_line :: ls) = false <->
  exists payer, Forall (fun line => fact_payer line = payer) (first_line :: ls).
Proof.
  rewrite existsb_false. split.
  - intros Hp. exists (fact_payer first_line). eapply Forall_impl; [exact Hp|]. cbn.
    intros l Hl. by apply negb_false_iff, bool_decide_eq_true in Hl.
  - intros [payer Hp]. pose proof Hp as [<- _]%Forall_cons.
    eapply Forall_impl; [exact Hp|]. cbn. intros l ->. by rewrite bool_decide_eq_true_2.
Qed.

Lemma currency_guard c lines :
  existsb (fun line => negb (bool_decide (code (currency (fact_money line)) = c))
                       && negb (line_functional_only line)) lines = false <->
  Forall (fun line => line_code line = c \/ line_functional_only line = true) lines.
Proof.
  rewrite existsb_false. apply Forall_iff. intros l. unfold line_code.
  case_bool_decide; destruct (line_functional_only l); cbn; naive_solver.
Qed.

Lemma functional_gate first_line ls :
  let lines := first_line :: ls in vec_ok lines ->
  Forall (fun line => fact_functional line = None) lines \/
  Forall (fun line => is_Some (fact_functional line)) lines ->
  (match fact_functional first_line with
   | None => Ok tt
   | Some first =>
       net ← fold_res (functional_step first) (from_decimal ZERO) lines;
       if negb (exact_eqb net (from_decimal ZERO)) then Err PostingViolation.FunctionalUnbalanced
       else Ok tt
   end) = Ok tt <->
  Forall (fun line => fact_functional line = None) lines \/
  exists spec,
    Forall (fun line => exists f, fact_functional line = Some f /\ currency f = spec) lines /\
    sum_Z functional_units lines = 0.
Proof.
  intros lines Hl Hcount. destruct (fact_functional first_line) as [first|] eqn:Hfirst.
  - rewrite from_decimal_units, units_ZERO, bind_ok.
    setoid_rewrite functional_loop_ok; [|done]. split.
    + intros (net & [Hall ->] & Hz). right. exists (currency first). split; [done|].
      rewrite exact_eqb_units in Hz. by destruct (Z.eqb_spec (sum_Z functional_units lines) 0).
    + intros [[Hn _]%Forall_cons|(spec & Hall & Hz)]; [congruence|].
      eexists. split; [split; [|done]|].
      * pose proof Hall as [(f & Hf & <-) _]%Forall_cons. rewrite Hfirst in Hf.
        by injection Hf as ->.
      * by rewrite Hz, exact_eqb_units.
  - split; [intros _; left|done].
    destruct Hcount as [?|[[? ?] _]%Forall_cons]; [done|congruence].
Qed.

Lemma groups_inv_empty : groups_inv [] ∅.
Proof. intros c. rewrite lookup_empty. intros l Hl. by apply not_elem_of_nil in Hl. Qed.

Lemma validate_sound entry_currency lines : vec_ok lines ->
  validate_balanced_entry entry_currency lines = Ok tt -> balanced_entry entry_currency lines.
Proof.
  intros Hl Hv. destruct lines as [|first_line ls]; [done|].
  unfold validate_balanced_entry in Hv. set (lines := first_line :: ls) in *.
  destruct (existsb amount_rejected lines) eqn:Ham; [done|].
  destruct (existsb _ lines) eqn:Hpay in Hv; [done|].
  destruct (existsb _ lines) eqn:Hcur in Hv; [done|].
  apply bind_ok in Hv as (g & Hg & Hv).
  destruct (group_loop_inv lines [] ∅ g) as [Hagree Hinv]; [apply groups_inv_empty|done| |done|].
  { intros ? ? Hin. by apply not_elem_of_nil in Hin. }
  destruct (existsb _ (map_to_list g)) eqn:Hnet in Hv; [done|].
  destruct (_ && _) eqn:Hcount in Hv; [done|].
  apply functional_count_ok in Hcount. apply functional_gate in Hv; [|done..].
  split; try done.
  - apply existsb_false in Ham. eapply Forall_impl; [exact Ham|].
    intros. by apply amount_rejected_spec.
  - by apply payer_guard.
  - by apply currency_guard.
  - by apply (groups_balanced lines g).
Qed.

Lemma validate_complete entry_currency lines : vec_ok lines ->
  balanced_entry entry_currency lines -> validate_balanced_entry entry_currency lines = Ok tt.
Proof.
  intros Hl [Hne Ham Hpay Hcur Hagree Hnet Hfun]. destruct lines as [|first_line ls]; [done|].
  unfold validate_balanced_entry.
  rewrite (proj2 (existsb_false amount_rejected _)).
  2:{ eapply Forall_impl; [exact Ham|]. intros. by apply amount_rejected_spec. }
  rewrite (proj2 (payer_guard first_line ls) Hpay), (proj2 (currency_guard _ _) Hcur).
  destruct (group_loop_ok (first_line :: ls) [] ∅) as (g & Hg & Hinv);
    [apply groups_inv_empty|done|done|].
  rewrite Hg. cbn [mbind result_bind]. rewrite (proj2 (groups_balanced _ g Hinv) Hnet).
  assert (Hsplit : Forall (fun line => fact_functional line = None) (first_line :: ls) \/
                   Forall (fun line => is_Some (fact_functional line)) (first_line :: ls)).
  { destruct Hfun as [?|(spec & Hall & _)]; [by left|right].
    eapply Forall_impl; [exact Hall|]. intros l (f & -> & _). by eexists. }
  pose proof (proj2 (functional_count_ok first_line ls) Hsplit) as Hcount.
  cbn zeta in Hcount. rewrite Hcount. by apply functional_gate.
Qed.

(** C1: the posting gate is sound and complete.  [validate_balanced_entry] accepts
    a machine-sized entry exactly when it is non-empty, every line has a positive
    amount (or a zero one with a positive functional amount), one payer, one
    transaction currency (functional-only lines apart) with one scale per
    currency, debits equal to credits in every currency, and a functional column
    that is absent or complete, in one currency, and balanced. *)
Theorem validate_balanced_entry_exact entry_currency lines :
  vec_ok lines ->
  validate_balanced_entry entry_currency lines = Ok tt <-> balanced_entry entry_currency lines.
Proof. intros Hl. split; [by apply validate_sound|by apply validate_complete]. Qed.

(** ** Entries in one currency without a functional column *)

Definition signed_line (line : LineFacts) : Z :=
  signed (fact_side line) (posted_units (fact_money line)).

Record plain_line (spec : CurrencySpec) (payer : Uuid) (line : LineFacts) : Prop := {
  pl_ok : posted_ok (fact_money line);
  pl_spec : currency (fact_money line) = spec;
  pl_positive : 0 < posted_units (fact_money line);
  pl_payer : fact_payer line = payer;
  pl_functional : fact_functional line = None;
}.

Lemma plain_net spec payer ls c : Forall (plain_line spec payer) ls ->
  net_of c ls = if bool_decide (code spec = c) then sum_Z signed_line ls else 0.
Proof.
  induction 1 as [|l ls [_ Hs _ _ _] _ IH].
  { rewrite net_of_nil, sum_Z_nil. by case_bool_decide. }
  rewrite net_of_cons, sum_Z_cons, IH. unfold line_code. rewrite Hs.
  case_bool_decide; unfold signed_line; lia.
Qed.

Lemma plain_balanced spec payer ls :
  ls <> [] -> Forall (plain_line spec payer) ls -> sum_Z signed_line ls = 0 ->
  balanced_entry (code spec) ls.
Proof.
  intros Hne Hall Hsum.
  assert (Hin : forall l, l ∈ ls -> plain_line spec payer l) by by apply Forall_forall.
  split; try done.
  - eapply Forall_impl; [exact Hall|]. intros l Hl. left. apply Hl.
  - exists payer. eapply Forall_impl; [exact Hall|]. intros l Hl. apply Hl.
  - eapply Forall_impl; [exact Hall|]. intros l Hl. left. unfold line_code.
    by rewrite (pl_spec _ _ _ Hl).
  - intros l1 l2 H1%Hin H2%Hin _. by rewrite (pl_spec _ _ _ H1), (pl_spec _ _ _ H2).
  - intros c. rewrite (plain_net spec payer) by done. by case_bool_decide.
  - left. eapply Forall_impl; [exact Hall|]. intros l Hl. apply Hl.
Qed.

(** The facts the engine takes from a line it is asked to post. *)
Definition line_facts (l : PostLine) : LineFacts :=
  mkLineFacts (side l) (money l) (payer_tenant_id l) (functional_money l).

Definition entry_facts (e : PostEntry) : list LineFacts := line_facts <$> lines e.
End posting.

(** Prove [Forall (plain_line _ _)] of an explicit list of lines. *)
Ltac plain_lines :=
  cbn; repeat first [apply Forall_nil_2 | apply Forall_cons_2];
  (split; cbn; first [done | congruence | lia]).

(** ** The interface between the builders and the engine

    A builder promises that the entries it returns are balanced; the engine
    admits every entry of a builder that keeps the promise. *)

Class BalancedBuilder `{RustDecimal} {I : Type} (pre : I -> Prop)
    (build : I -> result DomainError PostEntry) : Prop :=
  builder_balanced i e :
    pre i -> build i = Ok e -> balanced_entry (entry_currency e) (entry_facts e).

Lemma builder_admitted `{RustDecimal} {I : Type} (pre : I -> Prop)
    (build : I -> result DomainError PostEntry) `{!BalancedBuilder pre build} i e :
  pre i -> vec_ok (lines e) -> build i = Ok e ->
  validate_balanced_entry (entry_currency e) (entry_facts e) = Ok tt.
Proof.
  intros Hpre Hl Hb. apply validate_complete; [|by eapply builder_balanced].
  unfold vec_ok, entry_facts in *. by rewrite length_fmap.
Qed.

Section witnesses.
Import ConcreteDecimal MoneySamples.

Definition sample_entry : list LineFacts :=
  [mkLineFacts Debit (eur 1050) 7%N None; mkLineFacts Credit (eur 1050) 7%N None].

Lemma validate_balanced_entry_exact_witness : balanced_entry "EUR" sample_entry.
Proof.
  assert (Hl : vec_ok sample_entry) by ground.
  apply (validate_balanced_entry_exact "EUR" sample_entry Hl). vm_compute; reflexivity.
Defined.
End witnesses.
