(* ===== verification/Settlement.v ===== *)
(** * Settlement and settlement return: [domain/payment/settlement.rs],
    [domain/payment/settlement_return.rs]

    A settled payment parks its gross in the unallocated pool, split into net
    cash and processor fee; a return is the mirror image.  Both builders are
    shown to return exactly their documented legs, balanced, on every input
    their guards admit, and to reject everything else. *)

From S2P Require Import Prelude Decimal Money Exact ExactGrid DomainErrors Sdk Posting.
From S2P Require Import Allocate.

Section settlement.
Context `{RustDecimal} `{!UuidSource}.

Record SettlementInput := mkSettlementInput {
  si_tenant_id : Uuid;
  si_payer_tenant_id : Uuid;
  si_payment_id : string;
  si_gross : PostedMoney;
  si_fee : PostedMoney;
  si_effective_at : option OffsetDateTime;
}.

Record SettlementReturnInput := mkSettlementReturnInput {
  sr_tenant_id : Uuid;
  sr_payer_tenant_id : Uuid;
  sr_payment_id : string;
  sr_psp_return_id : string;
  sr_amount : PostedMoney;
  sr_effective_at : option OffsetDateTime;
}.

(** The [line] closure both builders declare. *)
Definition receipt_line (tenant payer : Uuid) (cls : AccountClass) (sd : Side)
    (amt : PostedMoney) (id : Uuid) : PostLine :=
  {| line_id := id;
     payer_tenant_id := payer;
     seller_tenant_id := Some tenant;
     resource_tenant_id := None;
     account_id := uuid_nil;
     account_class := cls;
     gl_code := None;
     side := sd;
     money := amt;
     invoice_id := None;
     due_date := None;
     revenue_stream := None;
     mapping_status := Resolved;
     functional_money := None;
     tax_jurisdiction := None;
     tax_filing_period := None;
     tax_rate_ref := None;
     invoice_item_ref := None;
     sku_or_plan_ref := None;
     price_id := None;
     pricing_snapshot_ref := None;
     po_allocation_group := None;
     credit_grant_event_type := None;
     ar_status := None |}.

(** The entry header with the placeholders that the orchestrator overwrites. *)
Definition placeholder_entry (tenant : Uuid) (cur : string) (doc : SourceDocType)
    (business_id : string) (eff : option OffsetDateTime) (ls : list (Uuid -> PostLine)) :
    PostEntry :=
  {| entry_id := now_v7 (length ls);
     tenant_id := tenant;
     period_id := "";
     entry_currency := cur;
     source_doc_type := doc;
     source_business_id := business_id;
     effective_at := match eff with Some at_ => to_naive_date at_ | None => epoch_date end;
     posted_by_actor_id := uuid_nil;
     correlation_id := uuid_nil;
     reverses_entry_id := None;
     reverses_period_id := None;
     lines := draw_ids ls |}.

Definition build_settlement_entry (input : SettlementInput) : result DomainError PostEntry :=
  _ ← matching_spec (si_gross input) (si_fee input);
  if dec_leb (amount (si_gross input)) ZERO then Err DomainError.InvalidRequest
  else if dec_ltb (amount (si_fee input)) ZERO then Err DomainError.InvalidRequest
  else if dec_leb (amount (si_gross input)) (amount (si_fee input))
  then Err DomainError.InvalidRequest
  else
    net ← subtract_posted (si_gross input) (si_fee input);
    let line := receipt_line (si_tenant_id input) (si_payer_tenant_id input) in
    let ls :=
      [line CashClearing Debit net]
      ++ (if dec_ltb ZERO (amount (si_fee input))
          then [line PspFeeExpense Debit (si_fee input)] else [])
      ++ [line Unallocated Credit (si_gross input)] in
    Ok (placeholder_entry (si_tenant_id input) (code (currency (si_gross input)))
          PaymentSettle (si_payment_id input) (si_effective_at input) ls).

Definition build_settlement_return_entry (input : SettlementReturnInput)
    (fee_share : PostedMoney) : result DomainError PostEntry :=
  _ ← matching_spec (sr_amount input) fee_share;
  if dec_leb (amount (sr_amount input)) ZERO then Err DomainError.InvalidRequest
  else if dec_ltb (amount fee_share) ZERO || dec_ltb (amount (sr_amount input)) (amount fee_share)
  then Err DomainError.InvalidRequest
  else
    net ← subtract_posted (sr_amount input) fee_share;
    let line := receipt_line (sr_tenant_id input) (sr_payer_tenant_id input) in
    let ls :=
      [line Unallocated Debit (sr_amount input); line CashClearing Credit net]
      ++ (if dec_ltb ZERO (amount fee_share)
          then [line PspFeeExpense Credit fee_share] else []) in
    Ok (placeholder_entry (sr_tenant_id input) (code (currency (sr_amount input)))
          SettlementReturn (sr_psp_return_id input) (sr_effective_at input) ls).

(** ** What an entry says: class, side and units of each leg *)

(** The fee share of a return, [infra/payment/settlement_return.rs]. *)
Definition pro_rata_fee_share (fee amt settled : PostedMoney) : result DomainError PostedMoney :=
  map_err map_exact_error
    (v ← checked_mul (from_decimal (amount fee)) (from_decimal (amount amt));
     v ← checked_div v (from_decimal (amount settled));
     round_half_even v (currency settled)).

Definition leg (l : PostLine) : AccountClass * Side * Z :=
  (account_class l, side l, posted_units (money l)).

(** ** Settlement *)

Definition settlement_legs (gross fee : Z) : list (AccountClass * Side * Z) :=
  [(CashClearing, Debit, gross - fee)]
  ++ (if 0 <? fee then [(PspFeeExpense, Debit, fee)] else [])
  ++ [(Unallocated, Credit, gross)].

Lemma build_settlement_inv input e :
  posted_ok (si_gross input) -> posted_ok (si_fee input) ->
  build_settlement_entry input = Ok e ->
  let spec := currency (si_gross input) in
  spec = currency (si_fee input) /\
  0 <= posted_units (si_fee input) < posted_units (si_gross input) /\
  fits (currency_scale spec) (posted_units (si_gross input) - posted_units (si_fee input)) /\
  leg <$> lines e = settlement_legs (posted_units (si_gross input)) (posted_units (si_fee input)) /\
  entry_currency e = code spec /\
  Forall (plain_line spec (si_payer_tenant_id input)) (entry_facts e).
Proof.
  intros Hg Hf Hb. unfold build_settlement_entry in Hb.
  apply bind_ok in Hb as ([] & Hs%matching_spec_ok & Hb). posted_guards.
  destruct (Z.leb_spec (posted_units (si_gross input)) 0); [done|].
  destruct (Z.ltb_spec (posted_units (si_fee input)) 0); [done|].
  destruct (Z.leb_spec (posted_units (si_gross input)) (posted_units (si_fee input))); [done|].
  apply bind_ok in Hb as (net & Hnet & [= <-]).
  apply subtract_posted_ok in Hnet as (_ & Hnok & Hnc & Hnu); [|apply Hg].
  split_and!; [done|lia|lia| | |done|].
  - rewrite <- Hnu, <- Hnc. by apply posted_units_fits.
  - unfold settlement_legs, placeholder_entry, leg; cbn [lines].
    rewrite <- Hnu. by destruct (Z.ltb_spec 0 (posted_units (si_fee input))).
  - unfold entry_facts, placeholder_entry; cbn [lines].
    destruct (Z.ltb_spec 0 (posted_units (si_fee input))); plain_lines.
Qed.

Lemma settlement_legs_balance gross fee : 0 <= fee ->
  sum_Z (fun '(_, sd, z) => signed sd z) (settlement_legs gross fee) = 0.
Proof.
  intros. unfold settlement_legs. rewrite !sum_Z_app, !sum_Z_cons, !sum_Z_nil.
  destruct (Z.ltb_spec 0 fee); rewrite ?sum_Z_cons, ?sum_Z_nil; cbn [signed]; lia.
Qed.

(** An entry's signed lines are the signed legs. *)
Lemma signed_lines_legs (ls : list PostLine) :
  sum_Z signed_line (line_facts <$> ls) = sum_Z (fun '(_, sd, z) => signed sd z) (leg <$> ls).
Proof. by rewrite !sum_Z_map. Qed.

Lemma build_settlement_total input :
  posted_ok (si_gross input) -> posted_ok (si_fee input) ->
  currency (si_gross input) = currency (si_fee input) ->
  0 <= posted_units (si_fee input) < posted_units (si_gross input) ->
  fits (currency_scale (currency (si_gross input)))
       (posted_units (si_gross input) - posted_units (si_fee input)) ->
  is_ok (build_settlement_entry input) = true.
Proof.
  intros Hg Hf Hc Hr Hfit. destruct (subtract_posted_fits _ _ Hg Hf Hc Hfit) as [net Hnet].
  unfold build_settlement_entry. rewrite (proj2 (matching_spec_ok _ _ tt) Hc).
  cbn [mbind result_bind]. posted_guards.
  rewrite (proj2 (Z.leb_gt _ 0)), (proj2 (Z.ltb_ge _ 0)), (proj2 (Z.leb_gt _ _)) by lia.
  by rewrite Hnet.
Qed.

#[global] Instance settlement_balanced :
  BalancedBuilder (fun input => posted_ok (si_gross input) /\ posted_ok (si_fee input))
                  build_settlement_entry.
Proof.
  intros input e [Hg Hf] Hb.
  destruct (build_settlement_inv input e Hg Hf Hb) as (_ & Hr & _ & Hlegs & -> & Hplain).
  eapply plain_balanced; [|exact Hplain|].
  - intros Hnil%fmap_nil_inv. rewrite Hnil in Hlegs. unfold settlement_legs in Hlegs.
    by destruct (0 <? _).
  - unfold entry_facts. rewrite signed_lines_legs, Hlegs.
    apply settlement_legs_balance. lia.
Qed.

(** Settlement is complete and balanced.  [build_settlement_entry] succeeds
    exactly when gross and fee share a currency, [0 <= fee < gross] and the net is
    a representable posting; the entry then has the documented legs (net cash and
    fee debited, gross credited to the pool, no fee line for a zero fee) and
    passes the posting gate. *)
Theorem settlement_entry_correct input :
  posted_ok (si_gross input) -> posted_ok (si_fee input) ->
  (is_ok (build_settlement_entry input) = true <->
     currency (si_gross input) = currency (si_fee input) /\
     0 <= posted_units (si_fee input) < posted_units (si_gross input) /\
     fits (currency_scale (currency (si_gross input)))
          (posted_units (si_gross input) - posted_units (si_fee input))) /\
  forall e, build_settlement_entry input = Ok e ->
    leg <$> lines e
      = settlement_legs (posted_units (si_gross input)) (posted_units (si_fee input)) /\
    validate_balanced_entry (entry_currency e) (entry_facts e) = Ok tt.
Proof.
  intros Hg Hf. split; [split|].
  - intros [e He]%is_ok_exists. destruct (build_settlement_inv input e Hg Hf He). tauto.
  - intros (? & ? & ?). by apply build_settlement_total.
  - intros e He. destruct (build_settlement_inv input e Hg Hf He) as (_ & _ & _ & Hlegs & _).
    split; [done|]. eapply builder_admitted; [apply settlement_balanced|done| |exact He].
    unfold vec_ok. rewrite <- (length_fmap leg), Hlegs. unfold settlement_legs.
    by destruct (0 <? _).
Qed.

(** ** Settlement return *)

Definition return_legs (amt fee_share : Z) : list (AccountClass * Side * Z) :=
  [(Unallocated, Debit, amt); (CashClearing, Credit, amt - fee_share)]
  ++ (if 0 <? fee_share then [(PspFeeExpense, Credit, fee_share)] else []).

Lemma build_return_inv input fee_share e :
  posted_ok (sr_amount input) -> posted_ok fee_share ->
  build_settlement_return_entry input fee_share = Ok e ->
  let spec := currency (sr_amount input) in
  0 <= posted_units fee_share <= posted_units (sr_amount input) /\
  0 < posted_units (sr_amount input) /\
  leg <$> lines e = return_legs (posted_units (sr_amount input)) (posted_units fee_share) /\
  entry_currency e = code spec /\
  (posted_units fee_share < posted_units (sr_amount input) ->
   Forall (plain_line spec (sr_payer_tenant_id input)) (entry_facts e)) /\
  (posted_units fee_share = posted_units (sr_amount input) ->
   Exists (fun l => amount_rejected l = true) (entry_facts e)).
Proof.
  intros Ha Hf Hb. unfold build_settlement_return_entry in Hb.
  apply bind_ok in Hb as ([] & Hs%matching_spec_ok & Hb). posted_guards.
  destruct (Z.leb_spec (posted_units (sr_amount input)) 0); [done|].
  destruct (Z.ltb_spec (posted_units fee_share) 0); [done|].
  destruct (Z.ltb_spec (posted_units (sr_amount input)) (posted_units fee_share)); [done|].
  cbn [orb] in Hb. apply bind_ok in Hb as (net & Hnet & [= <-]).
  apply subtract_posted_ok in Hnet as (_ & Hnok & Hnc & Hnu); [|apply Ha].
  split_and!; [lia|lia|lia| |done| |].
  - unfold return_legs, placeholder_entry, leg; cbn [lines].
    rewrite <- Hnu. by destruct (Z.ltb_spec 0 (posted_units fee_share)).
  - intros ?. unfold entry_facts, placeholder_entry; cbn [lines].
    destruct (Z.ltb_spec 0 (posted_units fee_share)); plain_lines.
  - intros Heq. unfold entry_facts, placeholder_entry; cbn. right. left.
    apply not_false_iff_true. rewrite amount_rejected_spec.
    intros [Hp|(_ & f & [=] & _)]. cbn in Hp. lia.
Qed.

Definition flip_leg (l : AccountClass * Side * Z) : AccountClass * Side * Z :=
  let '(c, sd, z) := l in (c, match sd with Debit => Credit | Credit => Debit end, z).

(** C39: a settlement return is the mirror of the settlement, and passes the
    posting gate unless the fee share is the whole amount.  Then the builder,
    whose guard admits [fee_share = amount], still returns an entry, but one with
    a zero cash line that the gate rejects as out of range. *)
Theorem settlement_return_mirrors input fee_share e :
  posted_ok (sr_amount input) -> posted_ok fee_share ->
  build_settlement_return_entry input fee_share = Ok e ->
  leg <$> lines e
    ≡ₚ flip_leg <$> settlement_legs (posted_units (sr_amount input)) (posted_units fee_share) /\
  validate_balanced_entry (entry_currency e) (entry_facts e) =
    (if posted_units fee_share =? posted_units (sr_amount input)
     then Err PostingViolation.AmountOutOfRange else Ok tt).
Proof.
  intros Ha Hf Hb.
  destruct (build_return_inv input fee_share e Ha Hf Hb) as (Hr & Hpos & Hlegs & Hcur & Hplain & Hrej).
  split.
  - rewrite Hlegs. unfold return_legs, settlement_legs.
    destruct (0 <? posted_units fee_share); cbn; [|apply Permutation_swap].
    rewrite Permutation_swap. apply Permutation_skip, Permutation_swap.
  - destruct (Z.eqb_spec (posted_units fee_share) (posted_units (sr_amount input))) as [Heq|Hne].
    + specialize (Hrej Heq). unfold validate_balanced_entry.
      destruct (entry_facts e) as [|l ls] eqn:He; [inversion Hrej|].
      assert (existsb amount_rejected (l :: ls) = true) as ->; [|done].
      apply existsb_exists. apply Exists_exists in Hrej as (x & Hx & ?). exists x.
      by rewrite <- list_elem_of_In.
    + assert (Hlen : (length (entry_facts e) <= 3)%nat).
      { unfold entry_facts. rewrite length_fmap, <- (length_fmap leg), Hlegs. unfold return_legs.
        destruct (0 <? _); cbn; lia. }
      rewrite Hcur. apply validate_complete; [unfold vec_ok; lia|].
      eapply plain_balanced; [|apply Hplain; lia|].
      * unfold entry_facts. intros Hnil%fmap_nil_inv. by rewrite Hnil in Hlegs.
      * unfold entry_facts. rewrite signed_lines_legs, Hlegs. unfold return_legs.
        rewrite !sum_Z_app, !sum_Z_cons, !sum_Z_nil.
        destruct (Z.ltb_spec 0 (posted_units fee_share)); rewrite ?sum_Z_cons, ?sum_Z_nil;
          cbn [signed]; lia.
Qed.

(** A rounded share of a total stays within the total. *)
Lemma half_even_between F A S inc k a : 0 < S -> 0 < inc -> 0 <= F <= S -> 0 <= A ->
  A = a * inc -> half_even (F * A) (S * inc) k -> 0 <= k * inc <= A.
Proof.
  intros HS Hinc HF HA -> [Hk _]. assert (0 <= a) by nia.
  assert (0 <= F * (a * inc) <= a * (S * inc)) by nia.
  assert (0 < S * inc) by nia. set (D := S * inc) in *. set (N := F * (a * inc)) in *.
  clearbody D N. assert (0 <= k) by nia. assert (k <= a) by nia. nia.
Qed.

(** The fee share of a return is the exact pro-rata [fee * amount / settled]
    rounded half-even to the currency's increment; it exists for every return within
    the settlement and lies between zero and the returned amount, both included. *)
Theorem fee_share_within_amount fee amt settled :
  posted_ok fee -> posted_ok amt -> posted_ok settled ->
  currency fee = currency settled -> currency amt = currency settled ->
  0 <= posted_units fee <= posted_units settled -> 0 < posted_units settled ->
  0 <= posted_units amt < 10 ^ (56 - currency_scale (currency settled)) ->
  exists p k, pro_rata_fee_share fee amt settled = Ok p /\
    posted_ok p /\ currency p = currency settled /\
    0 <= posted_units p <= posted_units amt /\
    posted_units p = k * increment settled /\
    half_even (posted_units fee * posted_units amt)
              (posted_units settled * increment settled) k.
Proof.
  intros Hf Ha Hs Hfc Hac HF HS HA. pose proof (posted_units_small settled) as Hsm.
  assert (Hinc : increment fee = increment settled) by (unfold increment; by rewrite Hfc).
  destruct (share_of_units fee (posted_units settled) (amount amt)) as (k & Hk & Heq);
    [apply Hf|lia|].
  rewrite Hinc in Hk, Heq. fold (posted_units amt) in Hk.
  assert (Hip : 0 < increment settled).
  { destruct Hs as [Hcur _]. unfold increment, currency_ok in *. apply pow10_pos. lia. }
  destruct (posted_units_grid amt Ha) as [a Haa]. rewrite Hac in Haa. fold (increment settled) in Haa.
  pose proof (half_even_between _ _ _ _ _ _ HS Hip HF (proj1 HA) Haa Hk) as Hr.
  pose proof (posted_units_small amt).
  assert (Hsmall : small (k * increment settled)) by (apply (small_bound _ 1); lia).
  destruct (into_posted_units_total (k * increment settled) (currency fee)) as [p Hp]; [done|apply Hf| | |].
  { rewrite Hfc. by exists k. }
  { rewrite Hfc. exists (currency_scale (currency settled)). split_and!; [apply Hs|done|by exists k|lia]. }
  exists p, k. rewrite Hp in Heq. apply into_posted_units in Hp as (? & ? & Hu); [|done|apply Hf].
  split_and!; [|done|congruence|lia|lia|done|done].
  unfold pro_rata_fee_share, share_of in *. rewrite (from_decimal_units (amount settled)).
  fold (posted_units settled). by rewrite <- Hfc, Heq.
Qed.
End settlement.

Section witnesses.
Import ConcreteDecimal MoneySamples.
#[local] Instance ids : UuidSource := sample_uuids.

Definition sample_settlement : SettlementInput :=
  mkSettlementInput 1%N 2%N "pay-1" (eur 10000) (eur 250) None.

Lemma settlement_entry_correct_witness :
  exists e, build_settlement_entry sample_settlement = Ok e /\
    validate_balanced_entry (entry_currency e) (entry_facts e) = Ok tt.
Proof.
  destruct (is_ok_exists (build_settlement_entry sample_settlement)) as [e He];
    [vm_compute; reflexivity|].
  exists e. split; [exact He|].
  exact (proj2 (proj2 (settlement_entry_correct sample_settlement
    (eur_ok 10000 eq_refl) (eur_ok 250 eq_refl)) e He)).
Defined.

(** A return of 0.01 EUR whose rounded fee share is the whole cent. *)
Definition sample_return : SettlementReturnInput :=
  mkSettlementReturnInput 1%N 2%N "pay-1" "ret-1" (eur 1) None.

Lemma settlement_return_mirrors_witness :
  exists e, build_settlement_return_entry sample_return (eur 1) = Ok e /\
    validate_balanced_entry (entry_currency e) (entry_facts e)
      = Err PostingViolation.AmountOutOfRange.
Proof.
  destruct (is_ok_exists (build_settlement_return_entry sample_return (eur 1))) as [e He];
    [vm_compute; reflexivity|].
  exists e. split; [exact He|].
  pose proof (settlement_return_mirrors sample_return (eur 1) e
    (eur_ok 1 eq_refl) (eur_ok 1 eq_refl) He) as [_ Hv].
  rewrite Z.eqb_refl in Hv. exact Hv.
Defined.

(** A cent returned of a settlement of 1.00 with a fee of 0.60 carries a fee share of
    a whole cent: the case above is reached. *)
Lemma fee_share_within_amount_witness :
  exists p, pro_rata_fee_share (eur 60) (eur 1) (eur 100) = Ok p /\
            posted_units p = posted_units (eur 1).
Proof.
  destruct (fee_share_within_amount (eur 60) (eur 1) (eur 100)
              (eur_ok 60 eq_refl) (eur_ok 1 eq_refl) (eur_ok 100 eq_refl) eq_refl eq_refl)
    as (p & k & Hp & _ & _ & _ & Hu & Hk).
  - split; apply Z.leb_le; ground.
  - apply Z.ltb_lt; ground.
  - split; [apply Z.leb_le|apply Z.ltb_lt]; ground.
  - exists p. split; [exact Hp|]. rewrite Hu. destruct Hk as [Hk _].
    assert (E1 : posted_units (eur 60) = 60 * 10 ^ 26) by ground.
    assert (E2 : posted_units (eur 1) = 10 ^ 26) by ground.
    assert (E3 : posted_units (eur 100) = 100 * 10 ^ 26) by ground.
    assert (E4 : increment (eur 100) = 10 ^ 26) by ground.
    rewrite E1, E2, E3, E4 in Hk. rewrite E2, E4. lia.
Defined.
End witnesses.
