(* ===== verification/Precedence.v ===== *)
(** * Allocation precedence: [domain/payment/precedence.rs]

    A policy orders the open invoices and fills them one after the other.  The
    integer function [fill_spec] is the reference; [select_split] is shown to
    compute it on the policy's order, to hand out the largest possible total and
    to pay nobody before everyone ahead of them is paid in full. *)

From S2P Require Import Prelude Decimal Money Exact ExactGrid DomainErrors Sdk Posting.

Definition DEFAULT_PRECEDENCE_POLICY : string := "oldest-first.v1".

Inductive PrecedenceStrategy :=
| OldestFirst
| HighestAmountFirst.

Definition policy_ref (self : PrecedenceStrategy) : string :=
  match self with
  | OldestFirst => "oldest-first.v1"
  | HighestAmountFirst => "highest-amount-first.v1"
  end.

Definition strategy_parse (s : string) : option PrecedenceStrategy :=
  if bool_decide (s = "oldest-first.v1") then Some OldestFirst
  else if bool_decide (s = "highest-amount-first.v1") then Some HighestAmountFirst
  else None.

Section precedence.
Context `{RustDecimal}.

Record Candidate := mkCandidate {
  cand_invoice_id : string;
  cand_open : PostedMoney;
  original_posted_at : option OffsetDateTime;
}.

Record Allocated := mkAllocated {
  alloc_invoice_id : string;
  alloc_amount : PostedMoney;
}.

Definition cmp_bool (a b : bool) : comparison :=
  match a, b with
  | false, true => Lt
  | true, false => Gt
  | _, _ => Eq
  end.

(** [Option<OffsetDateTime>]'s derived order: [None] first. *)
Definition cmp_opt (a b : option OffsetDateTime) : comparison :=
  match a, b with
  | None, None => Eq
  | None, Some _ => Lt
  | Some _, None => Gt
  | Some x, Some y => x ?= y
  end.

Definition is_none {A} (o : option A) : bool :=
  match o with None => true | Some _ => false end.

Definition oldest_order (a b : Candidate) : comparison :=
  then_with
    (then_with (cmp_bool (is_none (original_posted_at a)) (is_none (original_posted_at b)))
               (cmp_opt (original_posted_at a) (original_posted_at b)))
    (String.compare (cand_invoice_id a) (cand_invoice_id b)).

Definition highest_order (a b : Candidate) : comparison :=
  then_with (dec_cmp (amount (cand_open b)) (amount (cand_open a)))
            (String.compare (cand_invoice_id a) (cand_invoice_id b)).

(** The [hint] step: the first candidate it names moves to the front. *)
Fixpoint take_hint (hint_id : string) (l : list Candidate) : option (Candidate * list Candidate) :=
  match l with
  | [] => None
  | c :: l =>
      if bool_decide (cand_invoice_id c = hint_id) then Some (c, l)
      else '(h, rest) ← take_hint hint_id l; Some (h, c :: rest)
  end.

Definition apply_hint (hint : option string) (ordered : list Candidate) : list Candidate :=
  match hint with
  | None => ordered
  | Some hint_id =>
      match take_hint hint_id ordered with
      | None => ordered
      | Some (hinted, rest) => hinted :: rest
      end
  end.

(** The fill loop over the ordered candidates. *)
Fixpoint fill_loop (cur : CurrencySpec) (remaining : ExactAmount) (ordered : list Candidate) :
    result DomainError (list Allocated) :=
  match ordered with
  | [] => Ok []
  | cand :: rest =>
      if exact_eqb remaining (from_decimal ZERO) || is_negative remaining then Ok []
      else if dec_leb (amount (cand_open cand)) ZERO then fill_loop cur remaining rest
      else
        let open := from_decimal (amount (cand_open cand)) in
        difference ← map_err map_exact_error (checked_sub remaining open);
        let give := if is_negative difference then remaining else open in
        remaining ← map_err map_exact_error (checked_sub remaining give);
        share ← map_err map_exact_error (into_posted_exact give cur);
        out ← fill_loop cur remaining rest;
        Ok (mkAllocated (cand_invoice_id cand) share :: out)
  end.

Definition fill (candidates : list Candidate) (lump : PostedMoney) (hint : option string)
    (order : Candidate -> Candidate -> comparison) : result DomainError (list Allocated) :=
  _ ← fold_res (fun _ candidate => matching_spec lump (cand_open candidate)) tt candidates;
  fill_loop (currency lump) (from_decimal (amount lump))
            (apply_hint hint (sort_by order candidates)).

Definition oldest_first (candidates : list Candidate) (lump : PostedMoney)
    (hint : option string) : result DomainError (list Allocated) :=
  fill candidates lump hint oldest_order.

Definition highest_amount_first (candidates : list Candidate) (lump : PostedMoney)
    (hint : option string) : result DomainError (list Allocated) :=
  fill candidates lump hint highest_order.

Definition select_split (candidates : list Candidate) (lump : PostedMoney)
    (hint : option string) (strategy : PrecedenceStrategy) :
    result DomainError (list Allocated) :=
  match strategy with
  | OldestFirst => oldest_first candidates lump hint
  | HighestAmountFirst => highest_amount_first candidates lump hint
  end.

(** ** The reference *)

Definition order_of (strategy : PrecedenceStrategy) : Candidate -> Candidate -> comparison :=
  match strategy with
  | OldestFirst => oldest_order
  | HighestAmountFirst => highest_order
  end.

Definition cand_units (c : Candidate) : Z := posted_units (cand_open c).
Definition alloc_units (a : Allocated) : Z := posted_units (alloc_amount a).

Fixpoint fill_spec (remaining : Z) (ordered : list Candidate) : list (string * Z) :=
  match ordered with
  | [] => []
  | c :: rest =>
      if remaining <=? 0 then []
      else if cand_units c <=? 0 then fill_spec remaining rest
      else
        let give := Z.min remaining (cand_units c) in
        (cand_invoice_id c, give) :: fill_spec (remaining - give) rest
  end.

Definition split_view (a : Allocated) : string * Z := (alloc_invoice_id a, alloc_units a).

(** The reference hands out all it can. *)
Lemma fill_spec_total remaining ordered :
  sum_Z snd (fill_spec remaining ordered)
    = Z.min (Z.max 0 remaining) (sum_Z (fun c => Z.max 0 (cand_units c)) ordered).
Proof.
  revert remaining; induction ordered as [|c rest IH]; intros remaining; cbn [fill_spec].
  { rewrite !sum_Z_nil. lia. }
  rewrite sum_Z_cons.
  pose proof (sum_Z_nonneg (fun c => Z.max 0 (cand_units c)) rest ltac:(intros; lia)).
  destruct (Z.leb_spec remaining 0); [rewrite sum_Z_nil; lia|].
  destruct (Z.leb_spec (cand_units c) 0); [rewrite IH; lia|].
  rewrite sum_Z_cons, IH. cbn [snd]. lia.
Qed.

(** ** The orders *)

#[local] Instance bool_total_cmp : TotalCmp cmp_bool.
Proof. split; [by intros [] []|]. by intros [] [] []. Qed.

#[local] Instance opt_total_cmp : TotalCmp cmp_opt.
Proof.
  split.
  - intros [x|] [y|]; cbn; try done. apply Z.compare_antisym.
  - intros [x|] [y|] [z|]; unfold cmp_le; cbn; try done.
    rewrite !Z.compare_gt_iff. lia.
Qed.

#[local] Instance dec_total_cmp : TotalCmp dec_cmp.
Proof.
  split.
  - intros a b. rewrite !dec_cmp_units. apply Z.compare_antisym.
  - intros a b c. unfold cmp_le. rewrite !dec_cmp_units, !Z.compare_gt_iff. lia.
Qed.

#[global] Instance order_total_cmp strategy : TotalCmp (order_of strategy).
Proof.
  destruct strategy; cbn.
  - apply (@total_cmp_then Candidate
      (fun a b => then_with (cmp_bool (is_none (original_posted_at a)) (is_none (original_posted_at b)))
                            (cmp_opt (original_posted_at a) (original_posted_at b)))
      (fun a b => String.compare (cand_invoice_id a) (cand_invoice_id b))).
    + apply (@total_cmp_then Candidate
        (fun a b => cmp_bool (is_none (original_posted_at a)) (is_none (original_posted_at b)))
        (fun a b => cmp_opt (original_posted_at a) (original_posted_at b))).
      * apply (total_cmp_on (fun a => is_none (original_posted_at a)) cmp_bool).
      * apply (total_cmp_on original_posted_at cmp_opt).
    + apply (total_cmp_on cand_invoice_id String.compare).
  - apply (@total_cmp_then Candidate
      (fun a b => dec_cmp (amount (cand_open b)) (amount (cand_open a)))
      (fun a b => String.compare (cand_invoice_id a) (cand_invoice_id b))).
    + apply (@total_cmp_flip Candidate
        (fun a b => dec_cmp (amount (cand_open a)) (amount (cand_open b)))).
      apply (total_cmp_on (fun c => amount (cand_open c)) dec_cmp).
    + apply (total_cmp_on cand_invoice_id String.compare).
Qed.

Lemma take_hint_perm hint_id l h rest :
  take_hint hint_id l = Some (h, rest) -> h :: rest ≡ₚ l /\ cand_invoice_id h = hint_id.
Proof.
  revert h rest; induction l as [|c l IH]; intros h rest; cbn; [done|].
  case_bool_decide; [by intros [= <- <-]|].
  destruct (take_hint hint_id l) as [[h' rest']|]; cbn; [|done]. intros [= <- <-].
  destruct (IH h' rest') as [Hp ?]; [done|]. split; [|done].
  by rewrite Permutation_swap, Hp.
Qed.

Lemma apply_hint_perm hint l : apply_hint hint l ≡ₚ l.
Proof.
  destruct hint as [hint_id|]; cbn; [|done].
  destruct (take_hint hint_id l) as [[h rest]|] eqn:E; [|done].
  by apply take_hint_perm in E as [? _].
Qed.

(** ** Refinement *)

Definition cand_ok (cur : CurrencySpec) (c : Candidate) : Prop :=
  posted_ok (cand_open c) /\ currency (cand_open c) = cur.

Definition alloc_ok (cur : CurrencySpec) (a : Allocated) : Prop :=
  posted_ok (alloc_amount a) /\ currency (alloc_amount a) = cur.

(** The greedy share of a turn, in units. *)
Lemma greedy_give {A} z a (k : ExactAmount -> ExactAmount -> result DomainError A) :
  0 < z < 10 ^ 57 -> 0 < a < 10 ^ 57 ->
  (difference ← map_err map_exact_error (checked_sub (of_units z) (of_units a));
   let give := if is_negative difference then of_units z else of_units a in
   remaining ← map_err map_exact_error (checked_sub (of_units z) give);
   k give remaining) = k (of_units (Z.min z a)) (of_units (z - Z.min z a)).
Proof.
  intros Hz Ha. rewrite checked_sub_units;
    [|apply (small_bound _ 1); lia|apply (small_bound _ 1); lia|apply (small_bound _ 2); lia].
  cbn [map_err mbind result_bind]. rewrite is_negative_units.
  replace (if z - a <? 0 then of_units z else of_units a) with (of_units (Z.min z a))
    by (destruct (Z.ltb_spec (z - a) 0); f_equal; lia).
  rewrite checked_sub_units;
    [|apply (small_bound _ 1); lia|apply (small_bound _ 1); lia|apply (small_bound _ 2); lia].
  done.
Qed.

(** One turn of the loop, in units. *)
Lemma fill_turn cur z c rest : 0 < z < 10 ^ 57 -> 0 < cand_units c ->
  fill_loop cur (of_units z) (c :: rest) =
  (share ← map_err map_exact_error (into_posted_exact (of_units (Z.min z (cand_units c))) cur);
   out ← fill_loop cur (of_units (z - Z.min z (cand_units c))) rest;
   Ok (mkAllocated (cand_invoice_id c) share :: out)).
Proof.
  intros Hz Hc. cbn [fill_loop].
  rewrite from_decimal_units, units_ZERO, exact_eqb_units, is_negative_units.
  rewrite (proj2 (Z.eqb_neq z 0)), (proj2 (Z.ltb_ge z 0)) by lia. cbn [orb].
  rewrite posted_leb_zero. fold (cand_units c). rewrite (proj2 (Z.leb_gt _ 0)) by done.
  rewrite from_decimal_units. change (units (amount (cand_open c))) with (cand_units c).
  pose proof (posted_units_small (cand_open c)) as Hb. fold (cand_units c) in Hb.
  refine (greedy_give z (cand_units c) (fun give remaining =>
    share ← map_err map_exact_error (into_posted_exact give cur);
    out ← fill_loop cur remaining rest;
    Ok (mkAllocated (cand_invoice_id c) share :: out)) Hz _). lia.
Qed.

Lemma fill_stop cur z c rest : z <= 0 -> fill_loop cur (of_units z) (c :: rest) = Ok [].
Proof.
  intros Hz. cbn [fill_loop].
  rewrite from_decimal_units, units_ZERO, exact_eqb_units, is_negative_units.
  destruct (Z.eqb_spec z 0), (Z.ltb_spec z 0); try done. lia.
Qed.

Lemma fill_skip cur z c rest : 0 < z -> cand_units c <= 0 ->
  fill_loop cur (of_units z) (c :: rest) = fill_loop cur (of_units z) rest.
Proof.
  intros Hz Hc. cbn [fill_loop].
  rewrite from_decimal_units, units_ZERO, exact_eqb_units, is_negative_units.
  rewrite (proj2 (Z.eqb_neq z 0)), (proj2 (Z.ltb_ge z 0)) by lia. cbn [orb].
  rewrite posted_leb_zero. fold (cand_units c). by rewrite (proj2 (Z.leb_le _ 0)).
Qed.

Lemma fill_loop_refines cur ordered : currency_ok cur -> forall z out,
  z < 10 ^ 57 -> fill_loop cur (of_units z) ordered = Ok out ->
  split_view <$> out = fill_spec z ordered /\ Forall (alloc_ok cur) out.
Proof.
  intros Hcur. induction ordered as [|c rest IH]; intros z out Hz Hf.
  { injection Hf as <-. by split. }
  cbn [fill_spec]. destruct (Z.leb_spec z 0).
  { rewrite fill_stop in Hf by done. injection Hf as <-. by split. }
  destruct (Z.leb_spec (cand_units c) 0).
  { rewrite fill_skip in Hf by done. by apply IH. }
  rewrite fill_turn in Hf by lia.
  apply bind_ok in Hf as (share & Hs%map_err_ok & Hf).
  apply bind_ok in Hf as (out' & Hout & [= <-]).
  apply into_posted_units in Hs as (Hok & Hc & Hu); [|apply (small_bound _ 1); lia|done].
  apply IH in Hout as [Hview Hall]; [|lia].
  split; [|by constructor]. cbn. rewrite Hview. unfold split_view, alloc_units; cbn.
  by rewrite Hu.
Qed.

(** With room for the lump at the currency scale the loop always succeeds. *)
Lemma fill_loop_total cur ordered : currency_ok cur -> Forall (cand_ok cur) ordered -> forall z,
  (10 ^ (28 - currency_scale cur) | z) -> z < 10 ^ (56 - currency_scale cur) ->
  exists out, fill_loop cur (of_units z) ordered = Ok out.
Proof.
  intros Hcur Hall. pose proof Hcur as Hsc. unfold currency_ok in Hsc.
  assert (H56 : 10 ^ (56 - currency_scale cur) <= 10 ^ 56) by (apply pow10_le; lia).
  induction Hall as [|c rest [Hok Hc] Hall IH]; intros z Hdiv Hz; [by eexists|].
  destruct (Z.le_gt_cases z 0); [rewrite fill_stop by done; by eexists|].
  destruct (Z.le_gt_cases (cand_units c) 0); [rewrite fill_skip by done; by apply IH|].
  rewrite fill_turn by lia. set (give := Z.min z (cand_units c)).
  assert (Hgd : (10 ^ (28 - currency_scale cur) | give)).
  { unfold give. destruct (Z.min_spec z (cand_units c)) as [[_ ->]|[_ ->]]; [done|].
    rewrite <- Hc. by apply posted_units_grid. }
  destruct (into_posted_units_total give cur) as [p Hp]; [|done|done| |].
  - apply (small_bound _ 1); lia.
  - exists (currency_scale cur). split_and!; [lia|lia|done|lia].
  - destruct (IH (z - give)) as [out Hout]; [by apply Z.divide_sub_r|lia|].
    rewrite Hp. cbn [map_err mbind result_bind]. rewrite Hout. by eexists.
Qed.

Lemma matching_loop lump candidates :
  fold_res (fun _ candidate => matching_spec lump (cand_open candidate)) tt candidates = Ok tt <->
  Forall (fun c => currency lump = currency (cand_open c)) candidates.
Proof.
  induction candidates as [|c cs IH]; cbn [fold_res]; [by split|].
  rewrite Forall_cons, <- IH, bind_ok. split.
  - intros ([] & Hc%matching_spec_ok & ?). done.
  - intros [Hc ?]. exists tt. by rewrite matching_spec_ok.
Qed.

(** ** Properties *)

Lemma select_split_inv candidates lump hint strategy out : posted_ok lump ->
  select_split candidates lump hint strategy = Ok out ->
  Forall (fun c => currency lump = currency (cand_open c)) candidates /\
  split_view <$> out
    = fill_spec (posted_units lump) (apply_hint hint (sort_by (order_of strategy) candidates)) /\
  Forall (alloc_ok (currency lump)) out.
Proof.
  intros Hl Hs.
  assert (Hfill : fill candidates lump hint (order_of strategy) = Ok out) by by destruct strategy.
  unfold fill in Hfill. apply bind_ok in Hfill as ([] & Hm%matching_loop & Hfill).
  rewrite from_decimal_units in Hfill. split; [done|].
  pose proof (posted_units_small lump) as Hb. apply fill_loop_refines in Hfill; [done|apply Hl|].
  unfold posted_units in Hb. lia.
Qed.

(** The precedence policies are greedy and maximal.  A split walks a
    permutation of the candidates that is sorted by the strategy (with the hinted
    invoice moved to the front), gives each open invoice the smaller of its open
    amount and what remains, and so hands out exactly the smaller of the lump and
    the total open receivable. *)
Theorem select_split_greedy candidates lump hint strategy out :
  posted_ok lump ->
  select_split candidates lump hint strategy = Ok out ->
  exists base,
    base ≡ₚ candidates /\ StronglySorted (cmp_le (order_of strategy)) base /\
    split_view <$> out = fill_spec (posted_units lump) (apply_hint hint base) /\
    sum_Z alloc_units out
      = Z.min (Z.max 0 (posted_units lump)) (sum_Z (fun c => Z.max 0 (cand_units c)) candidates) /\
    Forall (alloc_ok (currency lump)) out.
Proof.
  intros Hl Hs. destruct (select_split_inv _ _ _ _ _ Hl Hs) as (_ & Hview & Hall).
  exists (sort_by (order_of strategy) candidates).
  split_and!; [apply sort_by_perm|apply sort_by_sorted; apply _|done| |done].
  rewrite <- (sum_Z_perm _ (apply_hint hint (sort_by (order_of strategy) candidates)) candidates)
    by by rewrite apply_hint_perm, sort_by_perm.
  rewrite <- fill_spec_total, <- Hview, sum_Z_map. done.
Qed.

(** A split exists whenever the candidates share the lump's currency and the
    lump has at most 28 digits at its scale. *)
Theorem select_split_total candidates lump hint strategy :
  posted_ok lump ->
  Forall (cand_ok (currency lump)) candidates ->
  posted_units lump < 10 ^ (56 - currency_scale (currency lump)) ->
  exists out, select_split candidates lump hint strategy = Ok out.
Proof.
  intros Hl Hc Hroom.
  assert (Hfill : exists out, fill candidates lump hint (order_of strategy) = Ok out);
    [|by destruct strategy].
  unfold fill. rewrite (proj2 (matching_loop lump candidates)).
  2:{ eapply Forall_impl; [exact Hc|]. by intros c [_ ->]. }
  cbn [mbind result_bind]. rewrite from_decimal_units.
  apply fill_loop_total; [apply Hl| |by apply posted_units_grid|done].
  by rewrite apply_hint_perm, sort_by_perm.
Qed.
End precedence.

Section witnesses.
Import ConcreteDecimal MoneySamples.

Definition sample_candidates : list Candidate :=
  [mkCandidate "inv-2" (eur 5000) (Some 20); mkCandidate "inv-1" (eur 3000) (Some 10);
   mkCandidate "inv-3" (eur 9000) None].

Lemma select_split_greedy_witness :
  exists out, select_split sample_candidates (eur 10000) (Some "inv-3") OldestFirst = Ok out /\
    sum_Z alloc_units out
      = Z.min (Z.max 0 (posted_units (eur 10000)))
              (sum_Z (fun c => Z.max 0 (cand_units c)) sample_candidates).
Proof.
  destruct (is_ok_exists (select_split sample_candidates (eur 10000) (Some "inv-3") OldestFirst))
    as [out Hout]; [vm_compute; reflexivity|].
  exists out. split; [exact Hout|].
  destruct (select_split_greedy _ _ _ _ _ (eur_ok 10000 eq_refl) Hout)
    as (base & _ & _ & _ & Hsum & _).
  exact Hsum.
Defined.

Lemma select_split_total_witness :
  exists out, select_split sample_candidates (eur 10000) None HighestAmountFirst = Ok out.
Proof.
  apply select_split_total.
  - apply eur_ok; reflexivity.
  - repeat (apply Forall_cons_2; [split; [by apply eur_ok|reflexivity]|]). apply Forall_nil_2.
  - vm_compute; reflexivity.
Defined.
End witnesses.
