(* ===== verification/PaymentAllocation.v ===== *)
(** * Payment allocation: [domain/payment/allocation.rs]

    [build_allocation_entry] posts a decided split; [validate_caller_split]
    admits a split the caller computed.  The file characterises both and shows
    that the two ways to obtain a split post under the same guarantees: what a
    precedence policy decides is a valid caller split, and either builds an entry
    that passes the posting gate. *)

From S2P Require Import Prelude Decimal Money Exact ExactGrid DomainErrors Sdk Posting.
From S2P Require Import Settlement Precedence.

Section allocation.
Context `{RustDecimal} `{!UuidSource}.

Record AllocationInput := mkAllocationInput {
  ai_tenant_id : Uuid;
  ai_payer_tenant_id : Uuid;
  ai_payment_id : string;
  ai_allocation_id : Uuid;
  ai_currency : CurrencySpec;
  ai_splits : list Allocated;
  ai_effective_at : option OffsetDateTime;
}.

(** The [line] closure: a receipt line with its invoice. *)
Definition allocation_line (tenant payer : Uuid) (cls : AccountClass) (sd : Side)
    (amt : PostedMoney) (invoice : option string) (id : Uuid) : PostLine :=
  {| line_id := id;
     payer_tenant_id := payer;
     seller_tenant_id := Some tenant;
     resource_tenant_id := None;
     account_id := uuid_nil;
     account_class := cls;
     gl_code := None;
     side := sd;
     money := amt;
     invoice_id := invoice;
     due_date := None;
     revenue_stream := None;
     mapping_status := Resolved;
     functional_money := None;
     tax_jurisdiction := None;
     tax_filing_period := None;
     tax_rate_ref := None;
     invoice_item_ref := None;
     sku_or_plan_ref := None;
     price_id := None;
     pricing_snapshot_ref := None;
     po_allocation_group := None;
     credit_grant_event_type := None;
     ar_status := None |}.

Definition build_allocation_entry (input : AllocationInput) : result DomainError PostEntry :=
  if bool_decide (ai_splits input = []) then Err DomainError.InvalidRequest
  else
    _ ← fold_res (fun _ split => matching_currency (ai_currency input)
                                   (currency (alloc_amount split))) tt (ai_splits input);
    _ ← fold_res (fun _ split =>
           if dec_leb (amount (alloc_amount split)) ZERO
           then Err DomainError.InvalidRequest else Ok tt) tt (ai_splits input);
    total ← map_err map_exact_error
              (sum_posted (alloc_amount <$> ai_splits input) (ai_currency input));
    let line := allocation_line (ai_tenant_id input) (ai_payer_tenant_id input) in
    let ls :=
      line Unallocated Debit total None
      :: ((fun split => line Ar Credit (alloc_amount split) (Some (alloc_invoice_id split)))
          <$> ai_splits input) in
    Ok (placeholder_entry (ai_tenant_id input) (code (ai_currency input)) PaymentAllocate
          (uuid_to_string (ai_allocation_id input)) (ai_effective_at input) ls).

(** One turn of the validation loop over the caller's splits: the identifiers
    seen so far and the exact running sum. *)
Definition caller_step (candidates : list Candidate)
    (acc : list string * ExactAmount) (split : Allocated) :
    result DomainError (list string * ExactAmount) :=
  let '(seen, sum) := acc in
  if bool_decide (alloc_invoice_id split ∈ seen) then Err DomainError.AllocationSplitInvalid
  else
    let seen := seen ++ [alloc_invoice_id split] in
    if dec_leb (amount (alloc_amount split)) ZERO then Err DomainError.AllocationSplitInvalid
    else
      candidate ← ok_or
        (List.find (fun c => bool_decide (cand_invoice_id c = alloc_invoice_id split)) candidates)
        DomainError.AllocationSplitInvalid;
      if dec_leb (amount (cand_open candidate)) ZERO
      then Err DomainError.AllocationSplitInvalid
      else if dec_ltb (amount (cand_open candidate)) (amount (alloc_amount split))
      then Err DomainError.AllocationSplitInvalid
      else
        sum ← map_err map_exact_error
                (checked_add sum (from_decimal (amount (alloc_amount split))));
        Ok (seen, sum).

Definition validate_caller_split (candidates : list Candidate) (caller : list Allocated)
    (lump : PostedMoney) : result DomainError (list Allocated) :=
  _ ← fold_res (fun _ candidate => matching_spec lump (cand_open candidate)) tt candidates;
  _ ← fold_res (fun _ split => matching_spec lump (alloc_amount split)) tt caller;
  '(_, sum) ← fold_res (caller_step candidates) ([], from_decimal ZERO) caller;
  left ← map_err map_exact_error (checked_sub (from_decimal (amount lump)) sum);
  if is_negative left then Err DomainError.AllocationSplitInvalid
  else Ok caller.

(** ** The builder *)

Lemma positive_split_loop splits :
  fold_res (fun _ split => if dec_leb (amount (alloc_amount split)) ZERO
                           then Err DomainError.InvalidRequest else Ok tt) tt splits = Ok tt <->
  Forall (fun s => 0 < alloc_units s) splits.
Proof.
  apply unit_loop. intros s. rewrite posted_leb_zero. fold (alloc_units s).
  destruct (Z.leb_spec (alloc_units s) 0); split; done || lia.
Qed.

Lemma matching_split_loop cur splits :
  fold_res (fun _ split => matching_currency cur (currency (alloc_amount split))) tt splits = Ok tt <->
  Forall (fun s => cur = currency (alloc_amount s)) splits.
Proof. apply unit_loop. intros s. apply matching_currency_ok. Qed.

Definition allocation_legs (splits : list Allocated) : list (AccountClass * Side * Z) :=
  (Unallocated, Debit, sum_Z alloc_units splits)
  :: ((fun s => (Ar, Credit, alloc_units s)) <$> splits).

Lemma build_allocation_inv input e : vec_ok (ai_splits input) ->
  currency_ok (ai_currency input) ->
  Forall (fun s => posted_ok (alloc_amount s)) (ai_splits input) ->
  build_allocation_entry input = Ok e ->
  leg <$> lines e = allocation_legs (ai_splits input) /\
  invoice_id <$> lines e = None :: (Some ∘ alloc_invoice_id <$> ai_splits input) /\
  entry_currency e = code (ai_currency input) /\
  Forall (plain_line (ai_currency input) (ai_payer_tenant_id input)) (entry_facts e).
Proof.
  intros Hl Hcur Hok Hb. unfold build_allocation_entry in Hb.
  case_bool_decide as Hne; [done|].
  apply bind_ok in Hb as ([] & Hc%matching_split_loop & Hb).
  apply bind_ok in Hb as ([] & Hpos%positive_split_loop & Hb).
  apply bind_ok in Hb as (total & Ht%map_err_ok & [= <-]).
  apply sum_posted_ok in Ht as (_ & Htok & Htc & Htu); [|unfold vec_ok in *; by rewrite length_fmap|done].
  rewrite sum_Z_map in Htu. change (fun x => posted_units (alloc_amount x)) with alloc_units in Htu.
  set (mks := _ :: (_ <$> _)).
  assert (Hmk : forall mk, mk ∈ mks ->
    exists cls sd amt inv, mk = allocation_line (ai_tenant_id input) (ai_payer_tenant_id input) cls sd amt inv
      /\ posted_ok amt /\ currency amt = ai_currency input /\ 0 < posted_units amt).
  { intros mk [->|(s & -> & Hs)%list_elem_of_fmap]%elem_of_cons.
    - do 4 eexists. split_and!; [done|done|done|]. rewrite Htu.
      destruct (ai_splits input) as [|s ss]; [done|]. rewrite sum_Z_cons.
      apply Forall_cons in Hpos as [? Hpos].
      pose proof (sum_Z_nonneg alloc_units ss) as Hn.
      assert (0 <= sum_Z alloc_units ss); [|lia]. apply Hn. intros x Hx.
      eapply Forall_forall in Hpos; [|exact Hx]. cbn in Hpos. lia.
    - rewrite Forall_forall in Hok, Hc, Hpos. do 4 eexists. split_and!; [done|by apply Hok| |].
      + symmetry. by apply Hc.
      + by apply Hpos. }
  cbn [lines placeholder_entry entry_currency]. split_and!; [| |done|].
  - rewrite draw_ids_view by (intros mk id (cls & sd & amt & inv & -> & _)%Hmk; done).
    unfold mks, allocation_legs. rewrite <- Htu, fmap_cons, <- list_fmap_compose. done.
  - rewrite draw_ids_view by (intros mk id (cls & sd & amt & inv & -> & _)%Hmk; done).
    unfold mks. rewrite fmap_cons, <- list_fmap_compose. done.
  - unfold entry_facts. cbn [lines placeholder_entry]. apply Forall_fmap, draw_ids_Forall.
    intros mk id (cls & sd & amt & inv & -> & ? & ? & ?)%Hmk. by split.
Qed.

Lemma allocation_legs_balance splits :
  sum_Z (fun '(_, sd, z) => signed sd z) (allocation_legs splits) = 0.
Proof.
  unfold allocation_legs. rewrite sum_Z_cons, sum_Z_map. cbn [signed].
  assert (sum_Z (fun x => - alloc_units x) splits = - sum_Z alloc_units splits); [|lia].
  induction splits as [|x l IH]; [done|]. rewrite !sum_Z_cons, IH. lia.
Qed.

Definition allocation_wf (input : AllocationInput) : Prop :=
  vec_ok (ai_splits input) /\ currency_ok (ai_currency input) /\
  Forall (fun s => posted_ok (alloc_amount s)) (ai_splits input).

#[global] Instance allocation_balanced : BalancedBuilder allocation_wf build_allocation_entry.
Proof.
  intros input e (Hl & Hcur & Hok) Hb.
  destruct (build_allocation_inv _ _ Hl Hcur Hok Hb) as (Hlegs & _ & -> & Hplain).
  eapply plain_balanced; [|exact Hplain|].
  - intros Hnil%fmap_nil_inv. by rewrite Hnil in Hlegs.
  - unfold entry_facts. rewrite signed_lines_legs, Hlegs. apply allocation_legs_balance.
Qed.

Lemma build_allocation_ok input : allocation_wf input ->
  is_ok (build_allocation_entry input) = true <->
  ai_splits input ≠ [] /\
  Forall (fun s => ai_currency input = currency (alloc_amount s)) (ai_splits input) /\
  Forall (fun s => 0 < alloc_units s) (ai_splits input) /\
  fits (currency_scale (ai_currency input)) (sum_Z alloc_units (ai_splits input)).
Proof.
  intros (Hl & Hcur & Hok).
  assert (Hlf : vec_ok (alloc_amount <$> ai_splits input))
    by (unfold vec_ok in *; by rewrite length_fmap).
  split.
  - intros [e Hb]%is_ok_exists. unfold build_allocation_entry in Hb.
    case_bool_decide as Hne; [done|].
    apply bind_ok in Hb as ([] & Hc%matching_split_loop & Hb).
    apply bind_ok in Hb as ([] & Hpos%positive_split_loop & Hb).
    apply bind_ok in Hb as (total & Ht%map_err_ok & _).
    apply sum_posted_ok in Ht as (_ & Htok & Htc & Htu); [|done..].
    rewrite sum_Z_map in Htu. split_and!; [done..|].
    change (sum_Z alloc_units (ai_splits input))
      with (sum_Z (fun x => posted_units (alloc_amount x)) (ai_splits input)).
    rewrite <- Htu, <- Htc. by apply posted_units_fits.
  - intros (Hne & Hc & Hpos & Hfit). unfold build_allocation_entry.
    rewrite bool_decide_false by done.
    rewrite (proj2 (matching_split_loop _ _) Hc), (proj2 (positive_split_loop _) Hpos).
    cbn [mbind result_bind].
    destruct (sum_posted_fits (alloc_amount <$> ai_splits input) (ai_currency input))
      as [total ->]; [done..| | | |done].
    + by apply Forall_fmap.
    + apply Forall_fmap. eapply Forall_impl; [exact Hc|]. by intros s ->.
    + by rewrite sum_Z_map.
Qed.

(** An allocation entry is built exactly for a non-empty list of positive
    splits in the allocation's currency whose total is a representable posting; it
    debits the total from the pool, credits each named invoice its share in the
    order of the splits, and passes the posting gate. *)
Theorem allocation_entry_correct input :
  allocation_wf input -> Z.of_nat (S (length (ai_splits input))) < 2 ^ 64 ->
  (is_ok (build_allocation_entry input) = true <->
     ai_splits input ≠ [] /\
     Forall (fun s => ai_currency input = currency (alloc_amount s)) (ai_splits input) /\
     Forall (fun s => 0 < alloc_units s) (ai_splits input) /\
     fits (currency_scale (ai_currency input)) (sum_Z alloc_units (ai_splits input))) /\
  (forall e, build_allocation_entry input = Ok e ->
     leg <$> lines e = allocation_legs (ai_splits input) /\
     invoice_id <$> lines e = None :: (Some ∘ alloc_invoice_id <$> ai_splits input) /\
     validate_balanced_entry (entry_currency e) (entry_facts e) = Ok tt).
Proof.
  intros Hwf Hlen. split; [by apply build_allocation_ok|]. intros e Hb.
  destruct Hwf as (Hl & Hcur & Hok).
  destruct (build_allocation_inv _ _ Hl Hcur Hok Hb) as (Hlegs & Hinv & _).
  split_and!; [done..|]. eapply builder_admitted; [apply allocation_balanced|done| |exact Hb].
  unfold vec_ok. rewrite <- (length_fmap leg), Hlegs. unfold allocation_legs.
  cbn [length]. by rewrite length_fmap.
Qed.

(** ** The caller's split *)

Definition split_admissible (candidates : list Candidate) (s : Allocated) : Prop :=
  0 < alloc_units s /\
  (exists c, List.find (fun c => bool_decide (cand_invoice_id c = alloc_invoice_id s)) candidates
               = Some c /\ alloc_units s <= cand_units c).

Lemma caller_step_ok candidates seen z split acc : small z -> small (z + alloc_units split) ->
  caller_step candidates (seen, of_units z) split = Ok acc <->
  (alloc_invoice_id split ∉ seen) /\ split_admissible candidates split /\
  acc = (seen ++ [alloc_invoice_id split], of_units (z + alloc_units split)).
Proof.
  intros Hz Hz'. unfold caller_step, split_admissible. case_bool_decide as Hin; [naive_solver|].
  rewrite posted_leb_zero. fold (alloc_units split).
  destruct (Z.leb_spec (alloc_units split) 0); [split; [done|lia]|].
  destruct (List.find _ candidates) as [c|]; cbn [ok_or mbind result_bind]; [|naive_solver].
  rewrite posted_leb_zero, dec_ltb_posted. fold (cand_units c) (alloc_units split).
  destruct (Z.leb_spec (cand_units c) 0).
  { split; [done|]. intros (_ & (_ & c' & [= <-] & ?) & _). lia. }
  destruct (Z.ltb_spec (cand_units c) (alloc_units split)).
  { split; [done|]. intros (_ & (_ & c' & [= <-] & ?) & _). lia. }
  rewrite from_decimal_units. change (units (amount (alloc_amount split))) with (alloc_units split).
  rewrite checked_add_units; [|done| |done].
  2:{ pose proof (posted_units_small (alloc_amount split)).
      apply (small_bound _ 1); [unfold alloc_units; lia|lia]. }
  cbn [map_err mbind result_bind]. split; [|by intros (_ & _ & ->)].
  intros [= <-]. split_and!; [done|done| |done]. by exists c.
Qed.

Lemma caller_loop_ok candidates caller : forall seen z n acc,
  0 <= z <= 10 ^ 57 * n -> n + Z.of_nat (length caller) < 2 ^ 100 -> NoDup seen ->
  fold_res (caller_step candidates) (seen, of_units z) caller = Ok acc <->
  NoDup (seen ++ (alloc_invoice_id <$> caller)) /\
  Forall (split_admissible candidates) caller /\
  acc = (seen ++ (alloc_invoice_id <$> caller), of_units (z + sum_Z alloc_units caller)).
Proof.
  induction caller as [|s ss IH]; intros seen z n acc Hz Hn Hnd; cbn [fold_res].
  { rewrite app_nil_r, sum_Z_nil, Z.add_0_r. split; [by intros [= <-]|by intros (_ & _ & ->)]. }
  cbn [length] in Hn. pose proof (posted_units_small (alloc_amount s)) as Hs.
  fold (alloc_units s) in Hs. rewrite bind_ok, Forall_cons, fmap_cons, cons_middle, app_assoc.
  setoid_rewrite caller_step_ok; [|apply (small_bound _ n); lia|apply (small_bound _ (n + 1)); lia].
  rewrite sum_Z_cons, Z.add_assoc. split.
  - intros (? & (Hin & Had & ->) & Hrest). apply (IH _ _ (n + 1)) in Hrest as (Hnd' & Hall & ->);
      [done| |lia|].
    + unfold split_admissible in Had. lia.
    + apply NoDup_app. split_and!; [done|set_solver|apply NoDup_singleton].
  - intros (Hnd' & [Had Hall] & ->). eexists. split_and!; [|done|reflexivity|].
    + apply NoDup_app in Hnd' as [(_ & Hin & _)%NoDup_app _]. set_solver.
    + apply (IH _ _ (n + 1)); [unfold split_admissible in Had; lia|lia| |done].
      by apply NoDup_app in Hnd' as [? _].
Qed.

(** What a valid split is. *)
Record valid_split (candidates : list Candidate) (lump : PostedMoney) (split : list Allocated) :
    Prop := mkValidSplit {
  vs_candidates : Forall (fun c => currency lump = currency (cand_open c)) candidates;
  vs_currency : Forall (fun s => currency lump = currency (alloc_amount s)) split;
  vs_once : NoDup (alloc_invoice_id <$> split);
  vs_open : Forall (split_admissible candidates) split;
  vs_lump : sum_Z alloc_units split <= posted_units lump;
}.

Lemma validate_caller_split_ok candidates caller lump out : vec_ok caller ->
  validate_caller_split candidates caller lump = Ok out <->
  out = caller /\ valid_split candidates lump caller.
Proof.
  intros Hl. unfold vec_ok in Hl. unfold validate_caller_split. rewrite (from_decimal_units ZERO), units_ZERO.
  assert (Hloop := fun acc => caller_loop_ok candidates caller [] 0 0 acc ltac:(lia) ltac:(lia)
                                (NoDup_nil_2)).
  assert (Hsmall : Z.abs (sum_Z alloc_units caller) <= 10 ^ 57 * Z.of_nat (length caller)).
  { apply sum_Z_bound. intros x _. pose proof (posted_units_small (alloc_amount x)).
    unfold alloc_units. lia. }
  pose proof (posted_units_small lump) as Hlump.
  rewrite bind_ok. setoid_rewrite bind_ok. setoid_rewrite bind_ok. cbn [app] in Hloop.
  assert (Hsub : checked_sub (from_decimal (amount lump)) (of_units (0 + sum_Z alloc_units caller))
                 = Ok (of_units (posted_units lump - sum_Z alloc_units caller))).
  { rewrite from_decimal_units, Z.add_0_l. fold (posted_units lump). apply checked_sub_units.
    - apply (small_bound _ 1); lia.
    - apply (small_bound _ (Z.of_nat (length caller))); lia.
    - apply (small_bound _ (1 + Z.of_nat (length caller))); lia. }
  split.
  - intros ([] & Hm & [] & Hc & [ids sum] & (Hnd & Had & [= -> ->])%Hloop & Hfin).
    rewrite Hsub in Hfin. cbn [map_err mbind result_bind] in Hfin. rewrite is_negative_units in Hfin.
    destruct (Z.ltb_spec (posted_units lump - sum_Z alloc_units caller) 0); [done|].
    injection Hfin as <-. split; [done|]. split; [| |done|done|lia].
    + by apply matching_loop.
    + apply (unit_loop _ (fun s => currency lump = currency (alloc_amount s))) in Hc; [done|].
      intros s0. apply matching_spec_ok.
  - intros [-> [Hm Hc Hnd Had Hle]]. exists tt. split; [by apply matching_loop|]. exists tt. split.
    { apply (unit_loop _ (fun s => currency lump = currency (alloc_amount s))); [|done].
      intros s0. apply matching_spec_ok. }
    eexists. split; [by apply Hloop|]. cbn. rewrite Hsub. cbn [map_err mbind result_bind].
    rewrite is_negative_units.
    by destruct (Z.ltb_spec (posted_units lump - sum_Z alloc_units caller) 0); [lia|].
Qed.

(** [validate_caller_split] returns the caller's split, untouched, exactly when
    it is valid: one currency throughout, no invoice twice, every share positive
    and at most the open balance of the candidate it names, and the shares together
    at most the lump. *)
Theorem caller_split_exact candidates caller lump out :
  vec_ok caller ->
  validate_caller_split candidates caller lump = Ok out <->
  out = caller /\ valid_split candidates lump caller.
Proof. apply validate_caller_split_ok. Qed.

(** ** The policies decide valid splits *)

Lemma fill_spec_ids ordered : forall z,
  sublist (fill_spec z ordered).*1 (cand_invoice_id <$> ordered).
Proof.
  induction ordered as [|c rest IH]; intros z; cbn [fill_spec]; [done|].
  destruct (Z.leb_spec z 0); [apply sublist_nil_l|].
  destruct (Z.leb_spec (cand_units c) 0); rewrite ?fmap_cons; by constructor.
Qed.

Lemma fill_spec_member ordered : forall z id give, (id, give) ∈ fill_spec z ordered ->
  exists c, c ∈ ordered /\ cand_invoice_id c = id /\ 0 < give <= cand_units c.
Proof.
  induction ordered as [|c rest IH]; intros z id give; cbn [fill_spec]; [by intros []%not_elem_of_nil|].
  destruct (Z.leb_spec z 0); [by intros []%not_elem_of_nil|].
  destruct (Z.leb_spec (cand_units c) 0).
  - intros (c' & ? & ?)%IH. exists c'. by split; [right|].
  - intros [[= -> ->]|(c' & ? & ?)%IH]%elem_of_cons.
    + exists c. split_and!; [left|done|lia|lia].
    + exists c'. by split; [right|].
Qed.

Lemma find_by_id candidates c : NoDup (cand_invoice_id <$> candidates) -> c ∈ candidates ->
  List.find (fun x => bool_decide (cand_invoice_id x = cand_invoice_id c)) candidates = Some c.
Proof.
  induction candidates as [|x l IH]; intros Hnd Hin; [by apply not_elem_of_nil in Hin|].
  rewrite fmap_cons in Hnd. apply NoDup_cons in Hnd as [Hx Hnd]. cbn [List.find].
  apply elem_of_cons in Hin as [->|Hin]; [by rewrite bool_decide_true|].
  rewrite bool_decide_false; [by apply IH|]. intros Heq. apply Hx. rewrite Heq.
  by apply list_elem_of_fmap_2.
Qed.

(** The two ways to obtain a split give the same guarantees: whatever a
    precedence policy decides for a non-negative lump over distinct invoices,
    hinted or not, [validate_caller_split] would accept from a caller. *)
Theorem policy_split_valid candidates lump hint strategy out :
  posted_ok lump -> 0 <= posted_units lump -> vec_ok candidates ->
  NoDup (cand_invoice_id <$> candidates) ->
  select_split candidates lump hint strategy = Ok out ->
  validate_caller_split candidates out lump = Ok out.
Proof.
  intros Hl Hlump Hv Hnd Hs.
  destruct (select_split_inv _ _ _ _ _ Hl Hs) as (Hcur & Hview & Hall).
  set (ordered := apply_hint hint (sort_by (order_of strategy) candidates)) in *.
  assert (Hperm : ordered ≡ₚ candidates) by (unfold ordered; by rewrite apply_hint_perm, sort_by_perm).
  assert (Hids : alloc_invoice_id <$> out = (fill_spec (posted_units lump) ordered).*1)
    by (rewrite <- Hview, <- list_fmap_compose; done).
  pose proof (fill_spec_ids ordered (posted_units lump)) as Hsub. rewrite <- Hids in Hsub.
  apply validate_caller_split_ok; [|split; [done|]].
  - apply sublist_length in Hsub. rewrite !length_fmap, Hperm in Hsub. unfold vec_ok in *. lia.
  - split; [done| | | |].
    + eapply Forall_impl; [exact Hall|]. by intros s [_ ->].
    + eapply sublist_NoDup; [|exact Hsub]. by rewrite Hperm.
    + apply Forall_forall. intros s Hs'.
      assert (Hm : split_view s ∈ fill_spec (posted_units lump) ordered)
        by (rewrite <- Hview; by apply list_elem_of_fmap_2).
      apply fill_spec_member in Hm as (c & Hc & Hid & ? & ?). split; [done|]. exists c.
      rewrite <- Hid. split; [|done]. apply find_by_id; [done|]. by rewrite <- Hperm.
    + change (sum_Z alloc_units out) with (sum_Z (fun s => snd (split_view s)) out).
      rewrite <- sum_Z_map, Hview, fill_spec_total. lia.
Qed.
End allocation.

Section witnesses.
Import ConcreteDecimal MoneySamples.
#[local] Instance ids : UuidSource := sample_uuids.

Definition sample_allocation : AllocationInput :=
  mkAllocationInput 1%N 2%N "pay-1" 3%N EUR
    [mkAllocated "inv-1" (eur 3000); mkAllocated "inv-2" (eur 1500)] None.

Lemma sample_allocation_wf : allocation_wf sample_allocation.
Proof.
  split_and!; [unfold vec_ok; cbn; lia|by apply (eur_ok 0)|].
  repeat (apply Forall_cons_2; [apply eur_ok; cbn; lia|]). apply Forall_nil_2.
Qed.

Lemma allocation_entry_correct_witness :
  exists e, build_allocation_entry sample_allocation = Ok e /\
            leg <$> lines e = [(Unallocated, Debit, 45 * 10 ^ 28);
                               (Ar, Credit, 30 * 10 ^ 28); (Ar, Credit, 15 * 10 ^ 28)].
Proof.
  destruct (is_ok_exists (build_allocation_entry sample_allocation)) as [e He];
    [vm_compute; reflexivity|].
  exists e. split; [exact He|].
  destruct (allocation_entry_correct sample_allocation sample_allocation_wf ltac:(cbn; lia))
    as [_ Hlegs].
  destruct (Hlegs e He) as [-> _]. ground.
Defined.

Lemma caller_split_exact_witness :
  exists out, validate_caller_split sample_candidates [mkAllocated "inv-1" (eur 3000)] (eur 4000) = Ok out
              /\ valid_split sample_candidates (eur 4000) [mkAllocated "inv-1" (eur 3000)].
Proof.
  destruct (is_ok_exists (validate_caller_split sample_candidates
              [mkAllocated "inv-1" (eur 3000)] (eur 4000))) as [out Hout]; [vm_compute; reflexivity|].
  exists out. split; [exact Hout|].
  refine (proj2 (proj1 (caller_split_exact _ _ _ out _) Hout)). unfold vec_ok; cbn; lia.
Defined.

Lemma policy_split_valid_witness :
  exists out, select_split sample_candidates (eur 7000) (Some "inv-3") OldestFirst = Ok out /\
              validate_caller_split sample_candidates out (eur 7000) = Ok out.
Proof.
  destruct (is_ok_exists (select_split sample_candidates (eur 7000) (Some "inv-3") OldestFirst))
    as [out Hout]; [vm_compute; reflexivity|].
  exists out. split; [exact Hout|].
  refine (policy_split_valid _ _ _ _ _ (eur_ok 7000 ltac:(lia)) _ _ _ Hout).
  - ground.
  - unfold vec_ok; cbn; lia.
  - apply (bool_decide_unpack _). ground.
Defined.
End witnesses.
