(* ===== verification/Dispute.v ===== *)
(** * Disputes: [domain/payment/dispute_state.rs] and
    [infra/storage/repo/dispute_repo.rs]

    The dispute state machine judges a requested phase against the stored state;
    the repository reads the row, judges, and writes with a compare-and-swap on the
    observed phase, cycle and version.  The machine is modelled as code; the
    repository runs over any [Table].  The file shows that the machine accepts
    exactly the legal transitions, and that concurrent writers whose reads and
    writes interleave in any way only ever drive a stored dispute along legal
    transitions. *)

From S2P Require Import Prelude Decimal Money ExactGrid DomainErrors MoneyText Sdk Table.

(** ** Phases and variants *)

Inductive DisputePhase := Opened | Won | Lost | Partial.
Inductive DisputeVariant := CashHold | ArReclass.

#[global] Instance dispute_phase_eq_dec : EqDecision DisputePhase.
Proof. solve_decision. Defined.
#[global] Instance dispute_variant_eq_dec : EqDecision DisputeVariant.
Proof. solve_decision. Defined.

Definition phase_as_str (p : DisputePhase) : string :=
  match p with Opened => "OPENED" | Won => "WON" | Lost => "LOST" | Partial => "PARTIAL" end.

Definition phase_parse (s : string) : option DisputePhase :=
  let u := to_ascii_uppercase s in
  if bool_decide (u = "OPENED") then Some Opened
  else if bool_decide (u = "WON") then Some Won
  else if bool_decide (u = "LOST") then Some Lost
  else if bool_decide (u = "PARTIAL") then Some Partial
  else None.

Definition variant_as_str (v : DisputeVariant) : string :=
  match v with CashHold => "CASH_HOLD" | ArReclass => "AR_RECLASS" end.

Definition variant_parse (s : string) : option DisputeVariant :=
  let u := to_ascii_uppercase s in
  if bool_decide (u = "CASH_HOLD") then Some CashHold
  else if bool_decide (u = "AR_RECLASS") then Some ArReclass
  else None.

Lemma phase_parse_as_str p : phase_parse (phase_as_str p) = Some p.
Proof. by destruct p. Qed.
Lemma variant_parse_as_str v : variant_parse (variant_as_str v) = Some v.
Proof. by destruct v. Qed.

(** ** The state machine *)

Record ObservedDispute := mkObserved {
  obs_payment_id : string;
  obs_last_phase : DisputePhase;
  obs_cycle : Z;
}.

Module DisputeTransitionError.
Inductive dispute_transition_error :=
| FirstCycle (dispute_id : string) (cycle : Z)
| ForeignPayment (dispute_id observed requested : string)
| Reopen (dispute_id : string) (cycle cycle_before : Z)
         (observed_phase : DisputePhase) (observed_cycle : Z)
| NoOpenedCycle (dispute_id : string)
| NotAnOutcome (dispute_id : string) (phase : DisputePhase)
| OutcomeNotOpen (dispute_id : string) (phase : DisputePhase) (cycle : Z)
                 (observed_phase : DisputePhase) (observed_cycle : Z).
End DisputeTransitionError.
Abbreviation DisputeTransitionError := DisputeTransitionError.dispute_transition_error.

Definition check_open (dispute_id : string) (observed : option ObservedDispute)
    (payment_id : string) (cycle : Z) : result DisputeTransitionError unit :=
  match observed with
  | None =>
      if cycle =? 1 then Ok tt else Err (DisputeTransitionError.FirstCycle dispute_id cycle)
  | Some observed =>
      if bool_decide (obs_payment_id observed <> payment_id)
      then Err (DisputeTransitionError.ForeignPayment dispute_id (obs_payment_id observed) payment_id)
      else if (match obs_last_phase observed with Won | Lost => true | _ => false end)
              && bool_decide (checked_i32 (obs_cycle observed + 1) = Some cycle)
      then Ok tt
      else Err (DisputeTransitionError.Reopen dispute_id cycle (saturating_i32 (cycle - 1))
                  (obs_last_phase observed) (obs_cycle observed))
  end.

Definition check_outcome (dispute_id : string) (observed : option ObservedDispute)
    (phase : DisputePhase) (cycle : Z) : result DisputeTransitionError unit :=
  if bool_decide (phase = Opened) then Err (DisputeTransitionError.NotAnOutcome dispute_id phase)
  else match observed with
  | None => Err (DisputeTransitionError.NoOpenedCycle dispute_id)
  | Some observed =>
      if bool_decide (obs_last_phase observed = Opened) && (obs_cycle observed =? cycle)
      then Ok tt
      else Err (DisputeTransitionError.OutcomeNotOpen dispute_id phase cycle
                  (obs_last_phase observed) (obs_cycle observed))
  end.

Definition check_transition (dispute_id : string) (observed : option ObservedDispute)
    (payment_id : string) (phase : DisputePhase) (cycle : Z) :
    result DisputeTransitionError unit :=
  match phase with
  | Opened => check_open dispute_id observed payment_id cycle
  | outcome => check_outcome dispute_id observed outcome cycle
  end.

(** The legal transitions, as the design draws them. *)
Inductive legal : option ObservedDispute -> ObservedDispute -> Prop :=
| legal_first payment_id : legal None (mkObserved payment_id Opened 1)
| legal_reopen payment_id phase cycle : phase = Won \/ phase = Lost -> cycle < i32_max ->
    legal (Some (mkObserved payment_id phase cycle)) (mkObserved payment_id Opened (cycle + 1))
| legal_outcome payment_id phase cycle : phase <> Opened ->
    legal (Some (mkObserved payment_id Opened cycle)) (mkObserved payment_id phase cycle).

Lemma check_open_ok dispute_id observed payment_id cycle :
  (forall o, observed = Some o -> 1 <= obs_cycle o) ->
  check_open dispute_id observed payment_id cycle = Ok tt <->
  legal observed (mkObserved payment_id Opened cycle).
Proof.
  intros Hpos. unfold check_open. destruct observed as [[p ph c]|]; cbn.
  - specialize (Hpos _ eq_refl). cbn in Hpos. case_bool_decide as Hp.
    { split; [done|]. inversion 1; by subst. }
    assert (p = payment_id) as -> by (destruct (decide (p = payment_id)); [done|by destruct Hp]).
    unfold checked_i32, in_i32, i32_min, i32_max in *.
    split.
    + destruct (_ && _) eqn:E; [intros _|done]. apply andb_true_iff in E as [Hph Hc].
      apply bool_decide_eq_true in Hc. destruct (_ && _) eqn:Hr; [|done]. injection Hc as <-.
      apply andb_true_iff in Hr as [_ Hr%Z.leb_le].
      constructor; [destruct ph; naive_solver|unfold i32_max; lia].
    + inversion 1 as [|? ? ? Hph Hlt|? ? ? Hne]; subst; [|done].
      rewrite bool_decide_true.
      * by destruct Hph; subst.
      * unfold i32_max in Hlt. rewrite (proj2 (Z.leb_le _ _)), (proj2 (Z.leb_le _ _)) by lia. done.
  - destruct (Z.eqb_spec cycle 1) as [->|Hne]; split; try done.
    + intros _. constructor.
    + inversion 1; by subst.
Qed.

Lemma check_outcome_ok dispute_id observed phase cycle o :
  observed = Some o ->
  check_outcome dispute_id observed phase cycle = Ok tt <->
  phase <> Opened /\ legal observed (mkObserved (obs_payment_id o) phase cycle).
Proof.
  intros ->. unfold check_outcome. case_bool_decide as Hph; [naive_solver|]. destruct o as [p ph c]; cbn.
  case_bool_decide as Ho; cbn [andb].
  - subst ph. destruct (Z.eqb_spec c cycle) as [->|Hne]; split; try done.
    + intros _. split; [done|]. by constructor.
    + intros [_ Hl]. inversion Hl; by subst.
  - split; [done|]. intros [_ Hl]. inversion Hl; by subst.
Qed.

Lemma legal_cycle observed next :
  (forall o, observed = Some o -> 1 <= obs_cycle o) -> legal observed next -> 1 <= obs_cycle next.
Proof. intros Hpos Hl. destruct Hl; cbn; [done|..]; specialize (Hpos _ eq_refl); cbn in Hpos; lia. Qed.

(** The state machine accepts an opening exactly when it is legal (cycle 1 of a
    new dispute, or the next cycle of a won or lost dispute of the same payment), and
    an outcome exactly when the dispute is open at the cycle it names.  An outcome is
    accepted whatever payment the request names: only openings compare payments. *)
Theorem check_transition_exact dispute_id observed payment_id phase cycle :
  (forall o, observed = Some o -> 1 <= obs_cycle o) ->
  check_transition dispute_id observed payment_id phase cycle = Ok tt <->
  (phase = Opened /\ legal observed (mkObserved payment_id Opened cycle)) \/
  (phase <> Opened /\ exists stored_payment,
     legal observed (mkObserved stored_payment phase cycle)).
Proof.
  intros Hpos. destruct (decide (phase = Opened)) as [->|Hne]; cbn [check_transition].
  { rewrite check_open_ok by done. naive_solver. }
  assert (check_transition dispute_id observed payment_id phase cycle
          = check_outcome dispute_id observed phase cycle) as -> by by destruct phase.
  destruct observed as [o|].
  - rewrite check_outcome_ok by done. split; [naive_solver|].
    intros [[? _]|(_ & p & Hl)]; [done|]. split; [done|].
    assert (p = obs_payment_id o) as <- by (inversion Hl; by subst). done.
  - unfold check_outcome. rewrite bool_decide_false by done. split; [done|].
    intros [[? _]|(_ & p & Hl)]; [done|]. inversion Hl; by subst.
Qed.

(** ** The repository *)

Section repo.
Context `{DecimalText}.

Record DisputeState := mkDisputeState {
  ds_tenant_id : Uuid;
  ds_dispute_id : string;
  ds_payment_id : string;
  ds_variant : DisputeVariant;
  ds_last_phase : DisputePhase;
  ds_cycle : Z;
  ds_disputed_amount : PostedMoney;
  ds_cash_hold : PostedMoney;
  ds_version : Z;
}.

Definition ds_observed (s : DisputeState) : ObservedDispute :=
  mkObserved (ds_payment_id s) (ds_last_phase s) (ds_cycle s).

(** The stored columns. *)
Record DisputeRow := mkDisputeRow {
  row_tenant_id : Uuid;
  row_dispute_id : string;
  row_payment_id : string;
  row_currency : string;
  row_currency_scale : Z;
  row_variant : string;
  row_last_phase : string;
  row_cycle : Z;
  row_disputed_amount : string;
  row_cash_hold : string;
  row_version : Z;
}.

Definition matching (left_ right_ : PostedMoney) : result RepoError unit :=
  map_err RepoError.Money (ensure_same (currency left_) (currency right_)).

Definition validate_amounts (amt hold : PostedMoney) : result RepoError unit :=
  if dec_ltb (amount amt) ZERO || dec_ltb (amount hold) ZERO || dec_ltb (amount amt) (amount hold)
  then Err RepoError.MoneyOutCapExceeded
  else Ok tt.

Definition decode (row : DisputeRow) : result RepoError DisputeState :=
  disputed_amount ← decode_money (row_disputed_amount row) (row_currency row) (row_currency_scale row);
  cash_hold ← decode_money (row_cash_hold row) (row_currency row) (row_currency_scale row);
  _ ← map_err (fun _ => RepoError.InvalidStoredMoney) (validate_amounts disputed_amount cash_hold);
  variant ← ok_or (variant_parse (row_variant row)) RepoError.InvalidStoredMoney;
  last_phase ← ok_or (phase_parse (row_last_phase row)) RepoError.InvalidStoredMoney;
  if (row_cycle row <? 1) || (row_version row <? 0) then Err RepoError.InvalidStoredMoney
  else Ok (mkDisputeState (row_tenant_id row) (row_dispute_id row) (row_payment_id row)
             variant last_phase (row_cycle row) disputed_amount cash_hold (row_version row)).

(** The columns [insert_open] writes. *)
Definition row_of (s : DisputeState) : DisputeRow :=
  {| row_tenant_id := ds_tenant_id s;
     row_dispute_id := ds_dispute_id s;
     row_payment_id := ds_payment_id s;
     row_currency := code (currency (ds_disputed_amount s));
     row_currency_scale := currency_scale (currency (ds_disputed_amount s));
     row_variant := variant_as_str (ds_variant s);
     row_last_phase := phase_as_str (ds_last_phase s);
     row_cycle := ds_cycle s;
     row_disputed_amount := encode_amount (ds_disputed_amount s);
     row_cash_hold := encode_amount (ds_cash_hold s);
     row_version := ds_version s |}.

(** The columns [replace_observed] sets, at the next version. *)
Definition replace_columns (next : DisputeState) (version : Z) (row : DisputeRow) : DisputeRow :=
  {| row_tenant_id := row_tenant_id row;
     row_dispute_id := row_dispute_id row;
     row_payment_id := row_payment_id row;
     row_currency := row_currency row;
     row_currency_scale := row_currency_scale row;
     row_variant := variant_as_str (ds_variant next);
     row_last_phase := phase_as_str (ds_last_phase next);
     row_cycle := ds_cycle next;
     row_disputed_amount := encode_amount (ds_disputed_amount next);
     row_cash_hold := encode_amount (ds_cash_hold next);
     row_version := version |}.

Definition DisputeKey : Type := Uuid * string.

Definition key_of (s : DisputeState) : DisputeKey := (ds_tenant_id s, ds_dispute_id s).

Context {T : Type} `{!Table DisputeKey DisputeRow T}.

Definition read_dispute_in (db : T) (tenant : Uuid) (dispute_id : string) :
    result RepoError (option DisputeState) :=
  match t_find db ((tenant, dispute_id) : DisputeKey) with
  | None => Ok None
  | Some row => Some <$> decode row
  end.

Definition insert_open (db : T) (row : DisputeState) : result RepoError T :=
  ok_or (t_insert db (key_of row)
           (row_of (mkDisputeState (ds_tenant_id row) (ds_dispute_id row) (ds_payment_id row)
                      (ds_variant row) (ds_last_phase row) (ds_cycle row)
                      (ds_disputed_amount row) (ds_cash_hold row) 0)))
        RepoError.Conflict.

(** The condition of the update: the observed version, phase and cycle. *)
Definition unchanged_since (previous : DisputeState) (row : DisputeRow) : bool :=
  (row_version row =? ds_version previous)
  && bool_decide (row_last_phase row = phase_as_str (ds_last_phase previous))
  && (row_cycle row =? ds_cycle previous).

Definition replace_observed (db : T) (previous next : DisputeState) : result RepoError T :=
  version ← ok_or (if in_i64 (ds_version previous + 1) then Some (ds_version previous + 1) else None)
              RepoError.Db;
  let '(db, rows_affected) :=
    t_update db (key_of previous)
      (unchanged_since previous)
      (replace_columns next version) in
  if negb (rows_affected =? 1) then Err RepoError.Conflict else Ok db.

(** What [dispute_upsert] writes, given the row it read. *)
Definition upsert_next (previous : option DisputeState) (tenant : Uuid)
    (dispute_id payment_id : string) (variant : DisputeVariant) (cycle : Z)
    (disputed_amount cash_hold : PostedMoney) : result RepoError DisputeState :=
  _ ← map_err (fun _ => RepoError.DisputeNotOpen)
        (check_open dispute_id (ds_observed <$> previous) payment_id cycle);
  let next := mkDisputeState tenant dispute_id payment_id variant Opened cycle
                disputed_amount cash_hold 0 in
  _ ← match previous with
      | Some previous => matching (ds_disputed_amount previous) disputed_amount
      | None => Ok tt
      end;
  _ ← matching disputed_amount cash_hold;
  _ ← validate_amounts disputed_amount cash_hold;
  Ok next.

(** The write half: insert a first opening, replace an observed row. *)
Definition write_next (db : T) (previous : option DisputeState) (next : DisputeState) :
    result RepoError T :=
  match previous with
  | Some previous => replace_observed db previous next
  | None => insert_open db next
  end.

Definition dispute_upsert (db : T) (tenant : Uuid) (dispute_id payment_id : string)
    (variant : DisputeVariant) (cycle : Z) (disputed_amount cash_hold : PostedMoney) :
    result RepoError T :=
  previous ← read_dispute_in db tenant dispute_id;
  next ← upsert_next previous tenant dispute_id payment_id variant cycle disputed_amount cash_hold;
  write_next db previous next.

(** What [dispute_advance] writes, given the row it read. *)
Definition advance_next (previous : option DisputeState) (dispute_id : string)
    (last_phase : DisputePhase) (cycle : Z) (disputed_amount : PostedMoney) :
    result RepoError DisputeState :=
  _ ← map_err (fun _ => RepoError.DisputeNotOpen)
        (check_outcome dispute_id (ds_observed <$> previous) last_phase cycle);
  previous ← ok_or previous RepoError.DisputeNotOpen;
  _ ← matching (ds_disputed_amount previous) disputed_amount;
  _ ← validate_amounts disputed_amount (ds_cash_hold previous);
  Ok (mkDisputeState (ds_tenant_id previous) (ds_dispute_id previous) (ds_payment_id previous)
        (ds_variant previous) last_phase (ds_cycle previous) disputed_amount
        (ds_cash_hold previous) (ds_version previous)).

Definition dispute_advance (db : T) (tenant : Uuid) (dispute_id : string)
    (last_phase : DisputePhase) (cycle : Z) (disputed_amount : PostedMoney) :
    result RepoError T :=
  previous ← read_dispute_in db tenant dispute_id;
  next ← advance_next previous dispute_id last_phase cycle disputed_amount;
  write_next db previous next.

(** ** Requests, and their interleavings *)

Inductive request :=
| OpenRequest (tenant : Uuid) (dispute_id payment_id : string) (variant : DisputeVariant)
              (cycle : Z) (disputed_amount cash_hold : PostedMoney)
| AdvanceRequest (tenant : Uuid) (dispute_id : string) (last_phase : DisputePhase)
                 (cycle : Z) (disputed_amount : PostedMoney).

Definition request_key (req : request) : DisputeKey :=
  match req with
  | OpenRequest tenant dispute_id _ _ _ _ _ => (tenant, dispute_id)
  | AdvanceRequest tenant dispute_id _ _ _ => (tenant, dispute_id)
  end.

Definition request_next (previous : option DisputeState) (req : request) :
    result RepoError DisputeState :=
  match req with
  | OpenRequest tenant dispute_id payment_id variant cycle amt hold =>
      upsert_next previous tenant dispute_id payment_id variant cycle amt hold
  | AdvanceRequest _ dispute_id last_phase cycle amt =>
      advance_next previous dispute_id last_phase cycle amt
  end.

Definition run_request (db : T) (req : request) : result RepoError T :=
  match req with
  | OpenRequest tenant dispute_id payment_id variant cycle amt hold =>
      dispute_upsert db tenant dispute_id payment_id variant cycle amt hold
  | AdvanceRequest tenant dispute_id last_phase cycle amt =>
      dispute_advance db tenant dispute_id last_phase cycle amt
  end.

(** A writer has not read yet, holds the snapshot it read, or is finished. *)
Inductive session :=
| Start (req : request)
| Judged (req : request) (snapshot : option DisputeState)
| Finished (outcome : result RepoError unit).

Definition config : Type := T * list session.

(** Reads and writes of different writers interleave; each statement is atomic. *)
Inductive step : config -> config -> Prop :=
| step_read db ss i req snapshot :
    ss !! i = Some (Start req) ->
    read_dispute_in db (fst (request_key req)) (snd (request_key req)) = Ok snapshot ->
    step (db, ss) (db, <[i := Judged req snapshot]> ss)
| step_read_error db ss i req e :
    ss !! i = Some (Start req) ->
    read_dispute_in db (fst (request_key req)) (snd (request_key req)) = Err e ->
    step (db, ss) (db, <[i := Finished (Err e)]> ss)
| step_write db ss i req snapshot db' :
    ss !! i = Some (Judged req snapshot) ->
    (next ← request_next snapshot req; write_next db snapshot next) = Ok db' ->
    step (db, ss) (db', <[i := Finished (Ok tt)]> ss)
| step_write_error db ss i req snapshot e :
    ss !! i = Some (Judged req snapshot) ->
    (next ← request_next snapshot req; write_next db snapshot next) = Err e ->
    step (db, ss) (db, <[i := Finished (Err e)]> ss).

(** A request alone is its read followed by its write. *)
Lemma run_request_split db req :
  run_request db req =
  (snapshot ← read_dispute_in db (fst (request_key req)) (snd (request_key req));
   next ← request_next snapshot req; write_next db snapshot next).
Proof. by destruct req. Qed.

(** ** Stored states *)

Record state_ok (s : DisputeState) : Prop := mkStateOk {
  so_amount : posted_ok (ds_disputed_amount s);
  so_hold : posted_ok (ds_cash_hold s);
  so_spec : spec_valid (currency (ds_disputed_amount s));
  so_currency : currency (ds_disputed_amount s) = currency (ds_cash_hold s);
  so_range : 0 <= posted_units (ds_cash_hold s) <= posted_units (ds_disputed_amount s);
  so_cycle : 1 <= ds_cycle s;
  so_version : 0 <= ds_version s;
}.

Lemma validate_amounts_ok amt hold :
  validate_amounts amt hold = Ok tt <-> 0 <= posted_units hold <= posted_units amt.
Proof.
  unfold validate_amounts. posted_guards.
  destruct (Z.ltb_spec (posted_units amt) 0), (Z.ltb_spec (posted_units hold) 0),
    (Z.ltb_spec (posted_units amt) (posted_units hold)); cbn; split; try done; lia.
Qed.

Lemma matching_ok a b : matching a b = Ok tt <-> currency a = currency b.
Proof. unfold matching. by rewrite map_err_ok, ensure_same_ok. Qed.

Lemma decode_row_of s : state_ok s -> decode (row_of s) = Ok s.
Proof.
  intros [Ha Hh Hs Hc Hr Hcy Hv].
  assert (E1 : decode_money (row_disputed_amount (row_of s)) (row_currency (row_of s))
                 (row_currency_scale (row_of s)) = Ok (ds_disputed_amount s))
    by (apply decode_money_ok; by split_and!).
  assert (E2 : decode_money (row_cash_hold (row_of s)) (row_currency (row_of s))
                 (row_currency_scale (row_of s)) = Ok (ds_cash_hold s)).
  { apply decode_money_ok. unfold row_of. cbn [row_cash_hold row_currency row_currency_scale].
    rewrite Hc. rewrite Hc in Hs. by split_and!. }
  unfold decode. rewrite E1, E2. cbn [mbind result_bind].
  rewrite (proj2 (validate_amounts_ok _ _)) by done. cbn [map_err mbind result_bind row_of row_variant row_last_phase row_cycle row_version].
  rewrite variant_parse_as_str, phase_parse_as_str. cbn [ok_or mbind result_bind].
  rewrite (proj2 (Z.ltb_ge _ _)), (proj2 (Z.ltb_ge _ _)) by lia. by destruct s.
Qed.

Definition table_ok (db : T) : Prop :=
  forall k r, t_find db k = Some r -> exists s, r = row_of s /\ state_ok s /\ k = key_of s.

Definition set_version (s : DisputeState) (v : Z) : DisputeState :=
  mkDisputeState (ds_tenant_id s) (ds_dispute_id s) (ds_payment_id s) (ds_variant s)
    (ds_last_phase s) (ds_cycle s) (ds_disputed_amount s) (ds_cash_hold s) v.

Definition request_ok (req : request) : Prop :=
  match req with
  | OpenRequest _ _ _ _ _ amt hold => posted_ok amt /\ posted_ok hold /\ spec_valid (currency amt)
  | AdvanceRequest _ _ _ _ amt => posted_ok amt /\ spec_valid (currency amt)
  end.

(** What a judged request writes is a valid state a legal transition away from the
    state it read, under the same key, payment and currency. *)
Lemma request_next_ok previous req next : request_ok req ->
  (forall p, previous = Some p -> state_ok p /\ key_of p = request_key req) ->
  request_next previous req = Ok next ->
  (forall v, 0 <= v -> state_ok (set_version next v)) /\ key_of next = request_key req /\
  legal (ds_observed <$> previous) (ds_observed next) /\
  (forall p, previous = Some p ->
     ds_payment_id p = ds_payment_id next /\
     currency (ds_disputed_amount p) = currency (ds_disputed_amount next)).
Proof.
  intros Hreq Hprev Hn.
  assert (Hcy : forall o, ds_observed <$> previous = Some o -> 1 <= obs_cycle o).
  { intros o Ho. destruct previous as [q|]; [|done]. injection Ho as <-.
    destruct (Hprev q eq_refl) as [[] _]. done. }
  destruct req as [tenant did pay var cyc amt hold|tenant did ph cyc amt]; cbn in *.
  - destruct Hreq as (Ha & Hh & Hs). unfold upsert_next in Hn.
    apply bind_ok in Hn as ([] & Ho%map_err_ok & Hn). apply check_open_ok in Ho; [|done].
    apply bind_ok in Hn as ([] & Hm & Hn).
    apply bind_ok in Hn as ([] & Hc%matching_ok & Hn).
    apply bind_ok in Hn as ([] & Hv%validate_amounts_ok & [= <-]).
    pose proof (legal_cycle _ _ Hcy Ho) as Hcyc. cbn in Hcyc.
    split_and!; [by intros v Hv0; split|done|done|].
    intros q ->. apply matching_ok in Hm. cbn in Ho |- *. split; [by inversion Ho|done].
  - destruct Hreq as [Ha Hs]. unfold advance_next in Hn.
    apply bind_ok in Hn as ([] & Ho%map_err_ok & Hn).
    apply bind_ok in Hn as (q & Hq%ok_or_ok & Hn). subst previous.
    apply bind_ok in Hn as ([] & Hm%matching_ok & Hn).
    apply bind_ok in Hn as ([] & Hv%validate_amounts_ok & [= <-]).
    destruct (Hprev q eq_refl) as [[] Hk].
    apply (check_outcome_ok _ _ _ _ (ds_observed q)) in Ho as [Hph Ho]; [|done].
    assert (cyc = ds_cycle q) as -> by (inversion Ho; congruence).
    split_and!; [|done|done|by intros ? [= <-]].
    intros v Hv0. split; cbn; try done. congruence.
Qed.

(** A snapshot is sound: its row is still stored, at that version or a later one,
    and unchanged if the version is. *)
Definition snapshot_sound (db : T) (req : request) (snapshot : option DisputeState) : Prop :=
  forall p, snapshot = Some p ->
    state_ok p /\ key_of p = request_key req /\
    exists s, t_find db (request_key req) = Some (row_of s) /\
      ds_version p <= ds_version s /\ (ds_version s = ds_version p -> s = p).

Definition config_ok (c : config) : Prop :=
  table_ok (fst c) /\
  forall i sess, snd c !! i = Some sess ->
    match sess with
    | Start req => request_ok req
    | Judged req snapshot => request_ok req /\ snapshot_sound (fst c) req snapshot
    | Finished _ => True
    end.

Lemma replace_columns_row p next v :
  key_of p = key_of next -> ds_payment_id p = ds_payment_id next ->
  currency (ds_disputed_amount p) = currency (ds_disputed_amount next) ->
  replace_columns next v (row_of p) = row_of (set_version next v).
Proof.
  intros Hk Hp Hc. destruct next. unfold key_of in Hk. cbn in *. injection Hk as E1 E2. subst.
  unfold replace_columns, row_of. cbn. by rewrite Hc.
Qed.

(** The effect of a successful write: the row the writer judged is the current
    one, and it becomes the judged state at a new version. *)
Lemma write_effect db req snapshot next db' :
  table_ok db -> request_ok req -> snapshot_sound db req snapshot ->
  request_next snapshot req = Ok next -> write_next db snapshot next = Ok db' ->
  exists v, 0 <= v /\ (forall p, snapshot = Some p -> v = ds_version p + 1) /\
    t_find db (request_key req) = row_of <$> snapshot /\
    (forall k, t_find db' k = if decide (k = request_key req)
                             then Some (row_of (set_version next v)) else t_find db k).
Proof.
  intros Hdb Hreq Hsnap Hn Hw.
  destruct (request_next_ok snapshot req next Hreq) as (_ & Hkey & _ & Hsame); [|done|].
  { intros p Hp. destruct (Hsnap p Hp) as (? & ? & _). done. }
  destruct snapshot as [p|]; cbn [write_next] in Hw.
  - destruct (Hsnap p eq_refl) as (Hpok & Hpk & s & Hs & Hver & Heq).
    destruct (Hsame p eq_refl) as [Hpay Hcur]. unfold replace_observed in Hw.
    apply bind_ok in Hw as (v & Hv%ok_or_ok & Hw). destruct (in_i64 _); [|done]. injection Hv as <-.
    rewrite Hpk in Hw.
    set (cond := unchanged_since p) in Hw.
    destruct (cond (row_of s)) eqn:Hc.
    + assert (s = p) as ->.
      { apply Heq. unfold cond, unchanged_since in Hc. by apply andb_true_iff in Hc as [[Hc%Z.eqb_eq _]%andb_true_iff _]. }
      destruct (t_update_hit db (request_key req) cond (replace_columns next (ds_version p + 1)) (row_of p) Hs Hc)
        as (t' & Et & Hf). rewrite Et in Hw. cbn in Hw. injection Hw as <-.
      exists (ds_version p + 1). split_and!; [destruct Hpok; lia|by intros ? [= <-]|done|].
      intros k. rewrite Hf. case_decide; [|done]. by rewrite replace_columns_row by congruence.
    + destruct (t_update_miss db (request_key req) cond (replace_columns next (ds_version p + 1)))
        as (t' & Et & _); [|by rewrite Et in Hw].
      intros r Hr. congruence.
  - unfold insert_open in Hw. apply ok_or_ok in Hw.
    rewrite Hkey in Hw.
    destruct (t_find db (request_key req)) as [r|] eqn:Hr;
      [by rewrite (t_insert_duplicate _ _ _ _ Hr) in Hw|].
    match type of Hw with t_insert _ _ ?x = _ =>
      destruct (t_insert_fresh db (request_key req) x Hr) as (t' & Et & Hf) end.
    rewrite Et in Hw. injection Hw as <-. exists 0. by split_and!.
Qed.

Definition observed_at (db : T) (k : DisputeKey) : option ObservedDispute :=
  match t_find db k with
  | Some row => match decode row with Ok s => Some (ds_observed s) | Err _ => None end
  | None => None
  end.

Lemma observed_row db k s : state_ok s -> t_find db k = Some (row_of s) ->
  observed_at db k = Some (ds_observed s).
Proof. intros Hs Hf. unfold observed_at. by rewrite Hf, decode_row_of. Qed.

Lemma sound_after_write db db' req snapshot k new v :
  snapshot_sound db req snapshot ->
  (forall s, t_find db k = Some (row_of s) -> ds_version s < v) ->
  ds_version new = v -> 
  (forall k', t_find db' k' = if decide (k' = k) then Some (row_of new) else t_find db k') ->
  snapshot_sound db' req snapshot.
Proof.
  intros Hs Hlt Hv Hf p Hp. destruct (Hs p Hp) as (Hok & Hk & s & Hrow & Hle & Heq).
  split_and!; [done..|]. rewrite Hf. case_decide as E.
  - exists new. rewrite E in Hrow. specialize (Hlt s Hrow). split_and!; [done|lia|lia].
  - by exists s.
Qed.

(** A read takes a sound snapshot. *)
Lemma read_sound db req snapshot : table_ok db ->
  read_dispute_in db (fst (request_key req)) (snd (request_key req)) = Ok snapshot ->
  snapshot_sound db req snapshot.
Proof.
  intros Hdb Hr p ->. unfold read_dispute_in in Hr. rewrite <- surjective_pairing in Hr.
  destruct (t_find db (request_key req)) as [r|] eqn:Hf; [|done].
  destruct (Hdb _ _ Hf) as (s & -> & Hok & Hk). rewrite decode_row_of in Hr by done.
  injection Hr as <-. split_and!; [done|congruence|]. exists s. split_and!; [congruence|lia|done].
Qed.

(** What a write does to the table: everything else is untouched, and the written
    dispute moves along a legal transition. *)
Lemma write_step_ok db ss i req snapshot db' :
  config_ok (db, ss) -> ss !! i = Some (Judged req snapshot) ->
  (next ← request_next snapshot req; write_next db snapshot next) = Ok db' ->
  config_ok (db', <[i := Finished (Ok tt)]> ss) /\
  forall k, observed_at db' k = observed_at db k \/
            exists o, observed_at db' k = Some o /\ legal (observed_at db k) o.
Proof.
  intros [Hdb Hss] Hi Hw. cbn [fst snd] in *. destruct (Hss _ _ Hi) as [Hreq Hsound].
  apply bind_ok in Hw as (next & Hn & Hw).
  destruct (write_effect db req snapshot next db' Hdb Hreq Hsound Hn Hw) as (v & Hv & Hvp & Hcur & Hf).
  destruct (request_next_ok snapshot req next Hreq) as (Hnok & Hnk & Hlegal & _); [|done|].
  { intros p Hp. destruct (Hsound p Hp) as (? & ? & _). done. }
  set (new := set_version next v) in *. specialize (Hnok v Hv). fold new in Hnok.
  split; [split; cbn [fst snd]|].
  - intros k r. rewrite Hf. case_decide as E; [|by apply Hdb]. intros [= <-].
    exists new. split_and!; [done..|]. by rewrite E, <- Hnk.
  - intros j sess Hj. apply list_lookup_insert_Some in Hj as [(_ & <- & _)|[_ Hj]]; [done|].
    specialize (Hss _ _ Hj). destruct sess as [|req' snap'|]; [done| |done].
    destruct Hss as [Hreq' Hs']. split; [done|].
    eapply (sound_after_write db db' req' snap' (request_key req) new v); [done| |done|done].
    intros s Hs. destruct snapshot as [p|]; [|by rewrite Hcur in Hs].
    rewrite (Hvp p eq_refl). rewrite Hcur in Hs. cbn in Hs.
    assert (ds_version p = ds_version s) by (by injection Hs). lia.
  - intros k. destruct (decide (k = request_key req)) as [->|Hne].
    + right. exists (ds_observed next).
      assert (observed_at db (request_key req) = ds_observed <$> snapshot) as ->.
      { destruct snapshot as [p|]; cbn in Hcur |- *.
        - destruct (Hsound p eq_refl) as (Hpok & _). by apply observed_row.
        - unfold observed_at. by rewrite Hcur. }
      split; [|done]. apply (observed_row db' (request_key req) new Hnok).
      rewrite Hf. by case_decide.
    + left. unfold observed_at. rewrite Hf. by case_decide.
Qed.

Lemma step_ok c c' : config_ok c -> step c c' ->
  config_ok c' /\
  forall k, observed_at (fst c') k = observed_at (fst c) k \/
            exists o, observed_at (fst c') k = Some o /\ legal (observed_at (fst c) k) o.
Proof.
  intros Hc Hstep. destruct Hstep as [db ss i req snapshot Hi Hr|db ss i req e Hi Hr
            |db ss i req snapshot db' Hi Hw|db ss i req snapshot e Hi Hw].
  3:{ exact (write_step_ok db ss i req snapshot db' Hc Hi Hw). }
  all: destruct Hc as [Hdb Hss]; (split; [|by intros; left]); (split; [done|]); cbn [fst snd] in *;
    intros j sess Hj; apply list_lookup_insert_Some in Hj as [(_ & <- & _)|[_ Hj]]; try done;
    try by apply (Hss j).
  split; [exact (Hss i _ Hi)|]. by apply read_sound.
Qed.

(** C13: concurrent writers cannot corrupt a dispute.  Start any writers on a valid
    table and interleave their reads and writes in any order: the table stays valid
    (decodable rows, [0 <= hold <= amount], cycles from 1), and every change to the
    stored state of a dispute is a legal transition from its current state, even
    when the writer judged an older one. *)
Theorem dispute_interleaving_legal (db : T) (reqs : list request) c c' :
  table_ok db -> Forall request_ok reqs ->
  rtc step (db, Start <$> reqs) c -> step c c' ->
  table_ok (fst c') /\
  forall k, observed_at (fst c') k = observed_at (fst c) k \/
            exists o, observed_at (fst c') k = Some o /\ legal (observed_at (fst c) k) o.
Proof.
  intros Hdb Hreqs Hrtc Hstep.
  assert (Hc : config_ok c).
  { revert Hrtc. apply (rtc_ind_r (fun x => config_ok x)).
    - split; [done|]. cbn [fst snd]. intros i sess Hi. rewrite list_lookup_fmap in Hi.
      destruct (reqs !! i) as [req|] eqn:E; [|done]. injection Hi as <-.
      by eapply Forall_lookup in Hreqs.
    - intros y z _ Hyz Hy. by apply (step_ok y z). }
  destruct (step_ok c c' Hc Hstep) as [[? _] ?]. done.
Qed.
End repo.

Section witnesses.
Import ConcreteDecimal ConcreteText MoneySamples.

Lemma check_transition_exact_witness :
  check_transition "d" (Some (mkObserved "pay-1" Opened 2)) "pay-2" Lost 2 = Ok tt.
Proof.
  apply (check_transition_exact "d" (Some (mkObserved "pay-1" Opened 2)) "pay-2" Lost 2).
  - intros o [= <-]. cbn. lia.
  - right. split; [discriminate|]. exists "pay-1". by constructor.
Defined.

Definition sample_open : request := OpenRequest 1%N "d" "pay-1" CashHold 1 (eur 500) (eur 480).
Definition empty_disputes : gmap DisputeKey DisputeRow := ∅.

Lemma sample_open_ok : Forall request_ok [sample_open].
Proof.
  apply Forall_cons_2; [|apply Forall_nil_2].
  split; [exact (eur_ok 500 eq_refl)|split; [exact (eur_ok 480 eq_refl)|reflexivity]].
Qed.

(** A first opening, read and then written. *)
Lemma dispute_interleaving_legal_witness :
  exists db, step (empty_disputes, [Judged sample_open None]) (db, [Finished (Ok tt)]) /\
             table_ok db.
Proof.
  destruct (is_ok_exists (next ← request_next None sample_open;
                          write_next empty_disputes None next)) as [db Hdb];
    [vm_compute; reflexivity|].
  exists db.
  assert (Hstep : step (empty_disputes, [Judged sample_open None]) (db, [Finished (Ok tt)])).
  { exact (step_write empty_disputes [Judged sample_open None] 0 sample_open None db eq_refl Hdb). }
  split; [exact Hstep|].
  refine (proj1 (dispute_interleaving_legal empty_disputes [sample_open] _ _ _ sample_open_ok _ Hstep)).
  - intros k r Hk. exfalso. revert Hk. unfold empty_disputes. cbn. by rewrite lookup_empty.
  - apply rtc_once.
    exact (step_read empty_disputes [Start sample_open] 0 sample_open None eq_refl eq_refl).
Defined.
End witnesses.
