(* ===== verification/Chargeback.v ===== *)
(** * Chargebacks: [domain/payment/chargeback.rs]

    The entry of one dispute phase: cash moved into a hold and out of it, or a
    receivable reclassified and back.  The file pins the legs of every phase and
    variant, shows that every entry passes the posting gate, and that a dispute
    cycle conserves: whatever an opening parks, its outcome releases in full. *)

From S2P Require Import Prelude Decimal Money Exact ExactGrid DomainErrors MoneyText Sdk Posting.
From S2P Require Import Settlement Table Dispute.

Inductive FundsAtOpen := Withheld | NotMoved.

Definition funds_variant (f : FundsAtOpen) : DisputeVariant :=
  match f with Withheld => CashHold | NotMoved => ArReclass end.

Definition funds_as_str (f : FundsAtOpen) : string :=
  match f with Withheld => "withheld" | NotMoved => "not_moved" end.

Definition funds_parse (s : string) : option FundsAtOpen :=
  let l := to_ascii_lowercase s in
  if bool_decide (l = "withheld") then Some Withheld
  else if bool_decide (l = "not_moved") then Some NotMoved
  else None.

(** [domain/status.rs]. *)
Definition AR_STATUS_DISPUTED : string := "DISPUTED".
Definition AR_STATUS_ACTIVE : string := "ACTIVE".

Section chargeback.
Context `{RustDecimal} `{!UuidSource}.

Record ChargebackInput := mkChargebackInput {
  cb_tenant_id : Uuid;
  cb_payer_tenant_id : Uuid;
  cb_payment_id : string;
  cb_dispute_id : string;
  cb_cycle : Z;
  cb_phase : DisputePhase;
  cb_variant : DisputeVariant;
  cb_disputed_amount : PostedMoney;
  cb_invoice_id : option string;
  cb_effective_at : option OffsetDateTime;
}.

Definition business_id (input : ChargebackInput) : string :=
  cb_dispute_id input +:+ ":" +:+ display_int (cb_cycle input) +:+ ":"
    +:+ phase_as_str (cb_phase input).

Definition held_cash (input : ChargebackInput) (supplied_cash : PostedMoney) : PostedMoney :=
  if dec_ltb (amount supplied_cash) (amount (cb_disputed_amount input))
  then supplied_cash else cb_disputed_amount input.

Definition cash_line (input : ChargebackInput) (cls : AccountClass) (sd : Side)
    (amt : PostedMoney) (id : Uuid) : PostLine :=
  {| line_id := id;
     payer_tenant_id := cb_payer_tenant_id input;
     seller_tenant_id := Some (cb_tenant_id input);
     resource_tenant_id := None;
     account_id := uuid_nil;
     account_class := cls;
     gl_code := None;
     side := sd;
     money := amt;
     invoice_id := None;
     due_date := None;
     revenue_stream := None;
     mapping_status := Resolved;
     functional_money := None;
     tax_jurisdiction := None;
     tax_filing_period := None;
     tax_rate_ref := None;
     invoice_item_ref := None;
     sku_or_plan_ref := None;
     price_id := None;
     pricing_snapshot_ref := None;
     po_allocation_group := None;
     credit_grant_event_type := None;
     ar_status := None |}.

Definition ar_line (input : ChargebackInput) (invoice : string) (sd : Side) (status : string)
    (id : Uuid) : PostLine :=
  {| line_id := id;
     payer_tenant_id := cb_payer_tenant_id input;
     seller_tenant_id := Some (cb_tenant_id input);
     resource_tenant_id := None;
     account_id := uuid_nil;
     account_class := Ar;
     gl_code := None;
     side := sd;
     money := cb_disputed_amount input;
     invoice_id := Some invoice;
     due_date := None;
     revenue_stream := None;
     mapping_status := Resolved;
     functional_money := None;
     tax_jurisdiction := None;
     tax_filing_period := None;
     tax_rate_ref := None;
     invoice_item_ref := None;
     sku_or_plan_ref := None;
     price_id := None;
     pricing_snapshot_ref := None;
     po_allocation_group := None;
     credit_grant_event_type := None;
     ar_status := Some status |}.

Definition require_invoice_id (input : ChargebackInput) : result DomainError string :=
  ok_or (cb_invoice_id input) DomainError.InvalidRequest.

Definition ar_reclass_lines (input : ChargebackInput) (dr_status cr_status : string) :
    result DomainError (list (Uuid -> PostLine)) :=
  invoice ← require_invoice_id input;
  Ok [ar_line input invoice Debit dr_status; ar_line input invoice Credit cr_status].

Definition opened_cash_hold_lines (input : ChargebackInput) (held : PostedMoney) :
    list (Uuid -> PostLine) :=
  [cash_line input DisputeHold Debit held; cash_line input CashClearing Credit held].

Definition won_cash_hold_lines (input : ChargebackInput) (held : PostedMoney) :
    list (Uuid -> PostLine) :=
  [cash_line input CashClearing Debit held; cash_line input DisputeHold Credit held].

Definition lost_cash_hold_lines (input : ChargebackInput) (held : PostedMoney) :
    list (Uuid -> PostLine) :=
  [cash_line input DisputeLossExpense Debit held; cash_line input DisputeHold Credit held].

Definition opened_ar_reclass_lines (input : ChargebackInput) :
    result DomainError (list (Uuid -> PostLine)) :=
  ar_reclass_lines input AR_STATUS_DISPUTED AR_STATUS_ACTIVE.

Definition won_ar_reclass_lines (input : ChargebackInput) :
    result DomainError (list (Uuid -> PostLine)) :=
  ar_reclass_lines input AR_STATUS_ACTIVE AR_STATUS_DISPUTED.

Definition lost_ar_reclass_lines (input : ChargebackInput) :
    result DomainError (list (Uuid -> PostLine)) :=
  invoice ← require_invoice_id input;
  Ok [cash_line input DisputeLossExpense Debit (cb_disputed_amount input);
      ar_line input invoice Credit AR_STATUS_DISPUTED].

Definition build_chargeback_entry (input : ChargebackInput) (supplied_cash : PostedMoney) :
    result DomainError PostEntry :=
  _ ← matching_spec (cb_disputed_amount input) supplied_cash;
  if dec_leb (amount (cb_disputed_amount input)) ZERO then Err DomainError.InvalidRequest
  else
    let cash_hold := held_cash input supplied_cash in
    if bool_decide (cb_variant input = CashHold) && dec_leb (amount cash_hold) ZERO
    then Err DomainError.InvalidRequest
    else
      ls ← match cb_phase input, cb_variant input with
           | Opened, CashHold => Ok (opened_cash_hold_lines input cash_hold)
           | Opened, ArReclass => opened_ar_reclass_lines input
           | Won, CashHold => Ok (won_cash_hold_lines input cash_hold)
           | Won, ArReclass => won_ar_reclass_lines input
           | Lost, CashHold => Ok (lost_cash_hold_lines input cash_hold)
           | Lost, ArReclass => lost_ar_reclass_lines input
           | Partial, _ => Err DomainError.InvalidDisputeTransition
           end;
      Ok (placeholder_entry (cb_tenant_id input) (code (currency (cb_disputed_amount input)))
            Chargeback (business_id input) (cb_effective_at input) ls).

Definition clawed_back_on_post (input : ChargebackInput) (supplied_cash : PostedMoney) :
    result DomainError PostedMoney :=
  _ ← matching_spec (cb_disputed_amount input) supplied_cash;
  match cb_phase input, cb_variant input with
  | Lost, CashHold =>
      let held := held_cash input supplied_cash in
      if dec_leb (amount held) ZERO then Err DomainError.InvalidRequest else Ok held
  | _, _ => zero_posted (cb_disputed_amount input)
  end.

(** ** The entry of a phase *)

Lemma held_cash_spec input supplied_cash :
  posted_ok (cb_disputed_amount input) -> posted_ok supplied_cash ->
  currency (cb_disputed_amount input) = currency supplied_cash ->
  let held := held_cash input supplied_cash in
  posted_ok held /\ currency held = currency (cb_disputed_amount input) /\
  posted_units held = Z.min (posted_units supplied_cash) (posted_units (cb_disputed_amount input)).
Proof.
  intros Hd Hs Hc. unfold held_cash. posted_guards.
  destruct (Z.ltb_spec (posted_units supplied_cash) (posted_units (cb_disputed_amount input)));
    split_and!; [done|done|lia|done|done|lia].
Qed.

(** A line by account class, AR status, side and amount. *)
Definition cb_leg (l : PostLine) : AccountClass * option string * Side * Z :=
  (account_class l, ar_status l, side l, posted_units (money l)).

Definition chargeback_legs (phase : DisputePhase) (variant : DisputeVariant) (held disputed : Z) :
    list (AccountClass * option string * Side * Z) :=
  match phase, variant with
  | Opened, CashHold => [(DisputeHold, None, Debit, held); (CashClearing, None, Credit, held)]
  | Won, CashHold => [(CashClearing, None, Debit, held); (DisputeHold, None, Credit, held)]
  | Lost, CashHold => [(DisputeLossExpense, None, Debit, held); (DisputeHold, None, Credit, held)]
  | Opened, ArReclass =>
      [(Ar, Some "DISPUTED", Debit, disputed); (Ar, Some "ACTIVE", Credit, disputed)]
  | Won, ArReclass =>
      [(Ar, Some "ACTIVE", Debit, disputed); (Ar, Some "DISPUTED", Credit, disputed)]
  | Lost, ArReclass =>
      [(DisputeLossExpense, None, Debit, disputed); (Ar, Some "DISPUTED", Credit, disputed)]
  | Partial, _ => []
  end.

Definition chargeback_admissible (input : ChargebackInput) (supplied_cash : PostedMoney) : Prop :=
  currency (cb_disputed_amount input) = currency supplied_cash /\
  0 < posted_units (cb_disputed_amount input) /\ cb_phase input <> Partial /\
  match cb_variant input with
  | CashHold => 0 < posted_units supplied_cash
  | ArReclass => is_Some (cb_invoice_id input)
  end.

Lemma build_chargeback_ok input supplied_cash :
  posted_ok (cb_disputed_amount input) -> posted_ok supplied_cash ->
  is_ok (build_chargeback_entry input supplied_cash) = true <->
  chargeback_admissible input supplied_cash.
Proof.
  intros Hd Hs. unfold build_chargeback_entry, chargeback_admissible.
  destruct (matching_spec (cb_disputed_amount input) supplied_cash) as [[]|e] eqn:Hm.
  2:{ split; [done|]. intros [Hc _]. apply (matching_spec_ok _ _ tt) in Hc. congruence. }
  apply matching_spec_ok in Hm. destruct (held_cash_spec input supplied_cash Hd Hs Hm) as (_ & _ & Hh).
  cbn [mbind result_bind]. posted_guards. rewrite Hh.
  unfold opened_ar_reclass_lines, won_ar_reclass_lines, lost_ar_reclass_lines, ar_reclass_lines,
    require_invoice_id.
  destruct (Z.leb_spec (posted_units (cb_disputed_amount input)) 0); [split; [done|]; lia|].
  destruct (cb_variant input), (cb_phase input), (cb_invoice_id input) as [inv|];
    (rewrite ?bool_decide_true, ?bool_decide_false by done); cbn [andb is_ok mbind result_bind ok_or];
    try (destruct (Z.leb_spec (Z.min (posted_units supplied_cash)
                                 (posted_units (cb_disputed_amount input))) 0));
    cbn [andb is_ok mbind result_bind ok_or];
    (split; [intros; split_and!; first [done|lia|by eexists]|]);
    intros (_ & _ & ? & Hx); first [done|lia|by destruct Hx].
Qed.

Lemma build_chargeback_inv input supplied_cash e :
  posted_ok (cb_disputed_amount input) -> posted_ok supplied_cash ->
  build_chargeback_entry input supplied_cash = Ok e ->
  chargeback_admissible input supplied_cash /\
  cb_leg <$> lines e
    = chargeback_legs (cb_phase input) (cb_variant input)
        (posted_units (held_cash input supplied_cash)) (posted_units (cb_disputed_amount input)) /\
  entry_currency e = code (currency (cb_disputed_amount input)) /\
  Forall (plain_line (currency (cb_disputed_amount input)) (cb_payer_tenant_id input)) (entry_facts e).
Proof.
  intros Hd Hs Hb.
  assert (Hadm : chargeback_admissible input supplied_cash)
    by (apply build_chargeback_ok; [done..|]; by rewrite Hb).
  split; [done|]. destruct Hadm as (Hc & Hpos & Hph & Hvar).
  destruct (held_cash_spec input supplied_cash Hd Hs Hc) as (Hhok & Hhc & Hh).
  unfold build_chargeback_entry in Hb. apply bind_ok in Hb as ([] & _ & Hb).
  destruct (dec_leb _ _); [done|]. destruct (_ && _); [done|].
  apply bind_ok in Hb as (ls & Hls & [= <-]).
  unfold opened_ar_reclass_lines, won_ar_reclass_lines, lost_ar_reclass_lines, ar_reclass_lines,
    require_invoice_id in Hls.
  destruct (cb_variant input), (cb_phase input), (cb_invoice_id input) as [inv|]; try done;
    cbn [ok_or mbind result_bind] in Hls; try done; injection Hls as <-;
    (split; [done|]; split; [done|]); unfold entry_facts, placeholder_entry; cbn [lines]; plain_lines.
Qed.

Lemma chargeback_balance phase variant held disputed :
  sum_Z (fun '(_, _, sd, z) => signed sd z) (chargeback_legs phase variant held disputed) = 0.
Proof. destruct phase, variant; cbn [chargeback_legs]; rewrite ?sum_Z_cons, ?sum_Z_nil; cbn; lia. Qed.

#[global] Instance chargeback_balanced : BalancedBuilder
  (fun '(input, supplied_cash) => posted_ok (cb_disputed_amount input) /\ posted_ok supplied_cash)
  (fun '(input, supplied_cash) => build_chargeback_entry input supplied_cash).
Proof.
  intros [input supplied_cash] e [Hd Hs] Hb.
  destruct (build_chargeback_inv input supplied_cash e Hd Hs Hb) as ((_ & _ & Hph & _) & Hlegs & -> & Hplain).
  eapply plain_balanced; [|exact Hplain|].
  - intros Hnil%fmap_nil_inv. rewrite Hnil in Hlegs. by destruct (cb_phase input), (cb_variant input).
  - rewrite <- (chargeback_balance (cb_phase input) (cb_variant input)
      (posted_units (held_cash input supplied_cash)) (posted_units (cb_disputed_amount input))).
    unfold entry_facts. rewrite <- Hlegs, !sum_Z_map. done.
Qed.

(** A chargeback entry is built exactly for an implemented phase with a positive
    claim, matching currencies, positive cash for a cash hold and a named invoice for
    a receivable; its legs are the documented ones for the phase and variant, sized at
    the held cash [min(cash, claim)] or at the claim, and it passes the posting gate. *)
Theorem chargeback_entry_correct input supplied_cash :
  posted_ok (cb_disputed_amount input) -> posted_ok supplied_cash ->
  (is_ok (build_chargeback_entry input supplied_cash) = true <->
   chargeback_admissible input supplied_cash) /\
  (forall e, build_chargeback_entry input supplied_cash = Ok e ->
     cb_leg <$> lines e
       = chargeback_legs (cb_phase input) (cb_variant input)
           (Z.min (posted_units supplied_cash) (posted_units (cb_disputed_amount input)))
           (posted_units (cb_disputed_amount input)) /\
     validate_balanced_entry (entry_currency e) (entry_facts e) = Ok tt).
Proof.
  intros Hd Hs. split; [by apply build_chargeback_ok|]. intros e Hb.
  destruct (build_chargeback_inv input supplied_cash e Hd Hs Hb) as ((Hc & _) & Hlegs & _).
  split.
  - by rewrite Hlegs, (proj2 (proj2 (held_cash_spec input supplied_cash Hd Hs Hc))).
  - eapply (builder_admitted _ _ (input, supplied_cash)); [done| |exact Hb].
    unfold vec_ok. rewrite <- (length_fmap cb_leg), Hlegs.
    by destruct (cb_phase input), (cb_variant input).
Qed.

(** ** A dispute cycle conserves *)

(** The net movement of an account (with its AR status) over some lines. *)
Definition net_at (cls : AccountClass) (status : option string) (ls : list PostLine) : Z :=
  sum_Z (fun l => if bool_decide (account_class l = cls /\ ar_status l = status)
                  then signed (side l) (posted_units (money l)) else 0) ls.

Definition leg_at (cls : AccountClass) (status : option string)
    (l : AccountClass * option string * Side * Z) : Z :=
  let '(c, st, sd, z) := l in if bool_decide (c = cls /\ st = status) then signed sd z else 0.

Lemma net_at_legs cls status ls : net_at cls status ls = sum_Z (leg_at cls status) (cb_leg <$> ls).
Proof. unfold net_at. by rewrite sum_Z_map. Qed.

Definition is_lost (phase : DisputePhase) : bool :=
  match phase with Lost => true | _ => false end.

(** Decide the account comparisons of constant legs. *)
Ltac decide_accounts :=
  repeat match goal with |- context [bool_decide ?P] =>
    first [rewrite (bool_decide_true P) by (clear; by split)
          |rewrite (bool_decide_false P) by (clear; by intros [? ?])] end.

(** Where a variant takes the disputed value from. *)
Definition source_account (variant : DisputeVariant) : AccountClass * option string :=
  match variant with CashHold => (CashClearing, None) | ArReclass => (Ar, Some AR_STATUS_ACTIVE) end.

Lemma clawed_back_spec input supplied_cash :
  posted_ok (cb_disputed_amount input) -> posted_ok supplied_cash ->
  chargeback_admissible input supplied_cash ->
  exists c, clawed_back_on_post input supplied_cash = Ok c /\
    posted_units c = match cb_variant input with
                     | CashHold => if is_lost (cb_phase input)
                                   then posted_units (held_cash input supplied_cash) else 0
                     | ArReclass => 0
                     end.
Proof.
  intros Hd Hs (Hc & Hpos & Hph & Hvar). unfold clawed_back_on_post.
  rewrite (proj2 (matching_spec_ok _ _ tt) Hc). cbn [mbind result_bind].
  destruct (zero_posted_total (cb_disputed_amount input) (proj1 Hd)) as [z Hz].
  pose proof (zero_posted_ok _ _ (proj1 Hd) Hz) as (_ & _ & Hzu). posted_guards.
  destruct (held_cash_spec input supplied_cash Hd Hs Hc) as (_ & _ & Hh).
  unfold is_lost. destruct (cb_phase input), (cb_variant input); rewrite ?Hz; try by exists z.
  rewrite (proj2 (Z.leb_gt _ _)) by lia. by eexists.
Qed.


(** ** Idempotency keys *)

Lemma phase_as_str_inj p q : phase_as_str p = phase_as_str q -> p = q.
Proof. by destruct p, q. Qed.

Definition colon : Ascii.ascii := Ascii.ascii_of_nat 58.

(** The idempotency key of a chargeback event determines the event: two inputs
    with the same [business_id] have the same dispute, cycle and phase, even when
    dispute identities contain the separator. *)
Theorem business_id_injective a b :
  i32_min <= cb_cycle a <= i32_max -> i32_min <= cb_cycle b <= i32_max ->
  business_id a = business_id b ->
  cb_dispute_id a = cb_dispute_id b /\ cb_cycle a = cb_cycle b /\ cb_phase a = cb_phase b.
Proof.
  unfold i32_min, i32_max. intros Ha Hb Heq. apply (f_equal bytes) in Heq. unfold business_id in Heq.
  rewrite !bytes_app in Heq. change (bytes ":") with [colon] in Heq. cbn [app] in Heq.
  rewrite !app_comm_cons, !app_assoc in Heq.
  assert (Hp : forall p, colon ∉ bytes (phase_as_str p))
    by (intros []; apply (bool_decide_unpack _); vm_compute; exact I).
  apply split_last_unique in Heq as [Heq Hph]; [|apply Hp..].
  apply split_last_unique in Heq as [Hd Hc]; [|by apply display_int_no; [lia|..]..].
  split_and!; [by apply bytes_inj|apply display_int_inj; [lia..|by apply bytes_inj]|].
  by apply phase_as_str_inj, bytes_inj.
Qed.
End chargeback.

Section witnesses.
Import ConcreteDecimal MoneySamples.
#[local] Instance ids : UuidSource := sample_uuids.

(** A claim of 100.00 on a payment with 97.50 of cash, opened and then lost. *)
Definition sample_chargeback (phase : DisputePhase) : ChargebackInput :=
  mkChargebackInput 1%N 2%N "pay-1" "d:1" 1 phase CashHold (eur 10000) None None.

Lemma chargeback_entry_correct_witness :
  exists e, build_chargeback_entry (sample_chargeback Opened) (eur 9750) = Ok e /\
    cb_leg <$> lines e = [(DisputeHold, None, Debit, posted_units (eur 9750));
                          (CashClearing, None, Credit, posted_units (eur 9750))].
Proof.
  destruct (is_ok_exists (build_chargeback_entry (sample_chargeback Opened) (eur 9750)))
    as [e He]; [vm_compute; reflexivity|].
  exists e. split; [exact He|].
  destruct (chargeback_entry_correct (sample_chargeback Opened) (eur 9750)
              (eur_ok 10000 eq_refl) (eur_ok 9750 eq_refl)) as [_ Hlegs].
  destruct (Hlegs e He) as [-> _]. ground.
Defined.


Lemma business_id_injective_witness :
  cb_dispute_id (sample_chargeback Won) = cb_dispute_id (sample_chargeback Won).
Proof.
  refine (proj1 (business_id_injective (sample_chargeback Won) (sample_chargeback Won) _ _ eq_refl));
    unfold i32_min, i32_max; cbn; lia.
Defined.
End witnesses.
