(* ===== verification/Credit.v ===== *)
(** * Reusable credit: [domain/payment/credit.rs]

    A wallet of sub-grains is granted from the unallocated pool and spent against
    receivables.  The file characterises the planner (a greedy fill in the given
    order, the same reference as the precedence policies), the target validator and
    the two entry builders, and composes them: a validated spend always builds a
    balanced entry. *)

From S2P Require Import Prelude Decimal Money Exact ExactGrid DomainErrors Sdk Posting.
From S2P Require Import Settlement Precedence PaymentAllocation.

Section credit.
Context `{RustDecimal} `{!UuidSource}.

Record GrantInput := mkGrantInput {
  gr_tenant_id : Uuid;
  gr_payer_tenant_id : Uuid;
  gr_credit_application_id : string;
  gr_amount : PostedMoney;
  gr_credit_grant_event_type : string;
  gr_effective_at : option OffsetDateTime;
}.

Record CreditSubgrain := mkCreditSubgrain {
  sg_credit_grant_event_type : string;
  sg_available : PostedMoney;
}.

Record CreditDebit := mkCreditDebit {
  cd_credit_grant_event_type : string;
  cd_amount : PostedMoney;
}.

(** The [line] closures of both builders; a grant passes no invoice. *)
Definition wallet_line (tenant payer : Uuid) (cls : AccountClass) (sd : Side) (amt : PostedMoney)
    (invoice event : option string) (id : Uuid) : PostLine :=
  {| line_id := id;
     payer_tenant_id := payer;
     seller_tenant_id := Some tenant;
     resource_tenant_id := None;
     account_id := uuid_nil;
     account_class := cls;
     gl_code := None;
     side := sd;
     money := amt;
     invoice_id := invoice;
     due_date := None;
     revenue_stream := None;
     mapping_status := Resolved;
     functional_money := None;
     tax_jurisdiction := None;
     tax_filing_period := None;
     tax_rate_ref := None;
     invoice_item_ref := None;
     sku_or_plan_ref := None;
     price_id := None;
     pricing_snapshot_ref := None;
     po_allocation_group := None;
     credit_grant_event_type := event;
     ar_status := None |}.

Definition build_grant_entry (input : GrantInput) : result DomainError PostEntry :=
  if dec_leb (amount (gr_amount input)) ZERO then Err DomainError.InvalidRequest
  else if bool_decide (gr_credit_grant_event_type input = "") then Err DomainError.InvalidRequest
  else
    let line := wallet_line (gr_tenant_id input) (gr_payer_tenant_id input) in
    Ok (placeholder_entry (gr_tenant_id input) (code (currency (gr_amount input))) CreditApply
          (gr_credit_application_id input) (gr_effective_at input)
          [line Unallocated Debit (gr_amount input) None None;
           line ReusableCredit Credit (gr_amount input) None
             (Some (gr_credit_grant_event_type input))]).

(** The capacity loop of [plan_wallet_debit]. *)
Definition capacity_step (capacity : ExactAmount) (sg : CreditSubgrain) :
    result DomainError ExactAmount :=
  if dec_ltb ZERO (amount (sg_available sg))
  then map_err map_exact_error (checked_add capacity (from_decimal (amount (sg_available sg))))
  else Ok capacity.

(** Its fill loop. *)
Fixpoint debit_loop (cur : CurrencySpec) (remaining : ExactAmount) (subgrains : list CreditSubgrain) :
    result DomainError (list CreditDebit) :=
  match subgrains with
  | [] => Ok []
  | sg :: rest =>
      if exact_eqb remaining (from_decimal ZERO) then Ok []
      else if dec_leb (amount (sg_available sg)) ZERO then debit_loop cur remaining rest
      else
        let available := from_decimal (amount (sg_available sg)) in
        difference ← map_err map_exact_error (checked_sub remaining available);
        let give := if is_negative difference then remaining else available in
        remaining ← map_err map_exact_error (checked_sub remaining give);
        amt ← map_err map_exact_error (into_posted_exact give cur);
        out ← debit_loop cur remaining rest;
        Ok (mkCreditDebit (sg_credit_grant_event_type sg) amt :: out)
  end.

Definition plan_wallet_debit (subgrains : list CreditSubgrain) (amt : PostedMoney) :
    result DomainError (list CreditDebit) :=
  _ ← fold_res (fun _ sg => matching_spec amt (sg_available sg)) tt subgrains;
  if dec_leb (amount amt) ZERO then Err DomainError.InvalidRequest
  else
    capacity ← fold_res capacity_step (from_decimal ZERO) subgrains;
    let remaining := from_decimal (amount amt) in
    spare ← map_err map_exact_error (checked_sub capacity remaining);
    if is_negative spare then Err DomainError.CreditExceedsWallet
    else debit_loop (currency amt) remaining subgrains.

(** One turn of the target loop: the identifiers seen so far. *)
Definition target_step (candidates : list Candidate) (seen : list string) (target : Allocated) :
    result DomainError (list string) :=
  if bool_decide (alloc_invoice_id target ∈ seen) then Err DomainError.CreditExceedsOpenAr
  else if dec_leb (amount (alloc_amount target)) ZERO then Err DomainError.CreditExceedsOpenAr
  else
    candidate ← ok_or
      (List.find (fun c => bool_decide (cand_invoice_id c = alloc_invoice_id target)) candidates)
      DomainError.CreditExceedsOpenAr;
    if dec_leb (amount (cand_open candidate)) ZERO then Err DomainError.CreditExceedsOpenAr
    else if dec_ltb (amount (cand_open candidate)) (amount (alloc_amount target))
    then Err DomainError.CreditExceedsOpenAr
    else Ok (seen ++ [alloc_invoice_id target]).

Definition validate_credit_targets (candidates : list Candidate) (targets : list Allocated) :
    result DomainError (list Allocated) :=
  let basis :=
    match cand_open <$> head candidates with
    | Some open => Some open
    | None => alloc_amount <$> head targets
    end in
  _ ← match basis with
      | Some basis =>
          _ ← fold_res (fun _ c => matching_spec basis (cand_open c)) tt candidates;
          fold_res (fun _ t => matching_spec basis (alloc_amount t)) tt targets
      | None => Ok tt
      end;
  _ ← fold_res (target_step candidates) [] targets;
  Ok targets.

Record ApplyInput := mkApplyInput {
  ap_tenant_id : Uuid;
  ap_payer_tenant_id : Uuid;
  ap_credit_application_id : string;
  ap_currency : CurrencySpec;
  ap_debits : list CreditDebit;
  ap_targets : list Allocated;
  ap_effective_at : option OffsetDateTime;
}.

Definition build_apply_entry (input : ApplyInput) : result DomainError PostEntry :=
  _ ← fold_res (fun _ debit => matching_currency (ap_currency input) (currency (cd_amount debit)))
        tt (ap_debits input);
  _ ← fold_res (fun _ target => matching_currency (ap_currency input) (currency (alloc_amount target)))
        tt (ap_targets input);
  if bool_decide (ap_debits input = []) then Err DomainError.InvalidRequest
  else if bool_decide (ap_targets input = []) then Err DomainError.InvalidRequest
  else
    _ ← fold_res (fun _ debit => if dec_leb (amount (cd_amount debit)) ZERO
                                 then Err DomainError.InvalidRequest else Ok tt) tt (ap_debits input);
    _ ← fold_res (fun _ target => if dec_leb (amount (alloc_amount target)) ZERO
                                  then Err DomainError.InvalidRequest else Ok tt) tt (ap_targets input);
    debit_total ← map_err map_exact_error (sum_posted (cd_amount <$> ap_debits input) (ap_currency input));
    credit_total ← map_err map_exact_error
                     (sum_posted (alloc_amount <$> ap_targets input) (ap_currency input));
    if negb (posted_eqb debit_total credit_total) then Err DomainError.InvalidRequest
    else
      let line := wallet_line (ap_tenant_id input) (ap_payer_tenant_id input) in
      Ok (placeholder_entry (ap_tenant_id input) (code (ap_currency input)) CreditApply
            (ap_credit_application_id input) (ap_effective_at input)
            (((fun debit => line ReusableCredit Debit (cd_amount debit) None
                              (Some (cd_credit_grant_event_type debit))) <$> ap_debits input)
             ++ ((fun target => line Ar Credit (alloc_amount target)
                                  (Some (alloc_invoice_id target)) None) <$> ap_targets input))).

(** ** Planning a wallet debit *)

Definition sg_units (sg : CreditSubgrain) : Z := posted_units (sg_available sg).
Definition cd_units (d : CreditDebit) : Z := posted_units (cd_amount d).
Definition as_candidate (sg : CreditSubgrain) : Candidate :=
  mkCandidate (sg_credit_grant_event_type sg) (sg_available sg) None.
Definition as_debit (a : Allocated) : CreditDebit :=
  mkCreditDebit (alloc_invoice_id a) (alloc_amount a).

Definition as_debits (l : list Allocated) : list CreditDebit := as_debit <$> l.

(** The planner's loop is the precedence fill over the sub-grains. *)
Lemma debit_loop_fill cur subgrains : forall z, 0 <= z < 10 ^ 57 ->
  debit_loop cur (of_units z) subgrains
    = (out ← fill_loop cur (of_units z) (as_candidate <$> subgrains); Ok (as_debits out)).
Proof.
  induction subgrains as [|sg rest IH]; intros z Hz; [done|]. rewrite fmap_cons.
  cbn [debit_loop]. rewrite from_decimal_units, units_ZERO, exact_eqb_units.
  destruct (Z.eqb_spec z 0) as [->|Hnz]; [by rewrite fill_stop|].
  rewrite posted_leb_zero. fold (sg_units sg).
  change (sg_units sg) with (cand_units (as_candidate sg)).
  destruct (Z.leb_spec (cand_units (as_candidate sg)) 0); [rewrite fill_skip by lia; by apply IH|].
  rewrite fill_turn by lia. rewrite from_decimal_units.
  change (units (amount (sg_available sg))) with (cand_units (as_candidate sg)).
  pose proof (posted_units_small (sg_available sg)) as Hb. fold (sg_units sg) in Hb.
  change (sg_units sg) with (cand_units (as_candidate sg)) in Hb.
  rewrite (greedy_give z _ (fun give remaining =>
    amt ← map_err map_exact_error (into_posted_exact give cur);
    out ← debit_loop cur remaining rest;
    Ok (mkCreditDebit (sg_credit_grant_event_type sg) amt :: out))) by lia.
  destruct (into_posted_exact _ _) as [share|e]; cbn [map_err mbind result_bind]; [|done].
  rewrite IH by lia. by destruct (fill_loop _ _ _).
Qed.

Definition wallet_total (subgrains : list CreditSubgrain) : Z :=
  sum_Z (fun sg => Z.max 0 (sg_units sg)) subgrains.

Lemma capacity_loop subgrains : forall z k, 0 <= z <= 10 ^ 57 * k ->
  k + Z.of_nat (length subgrains) < 2 ^ 100 ->
  fold_res capacity_step (of_units z) subgrains = Ok (of_units (z + wallet_total subgrains)).
Proof.
  induction subgrains as [|sg rest IH]; intros z k Hz Hk; cbn [fold_res].
  { unfold wallet_total. by rewrite sum_Z_nil, Z.add_0_r. }
  cbn [length] in Hk. unfold wallet_total in *. rewrite sum_Z_cons.
  pose proof (posted_units_small (sg_available sg)) as Hb. fold (sg_units sg) in Hb.
  unfold capacity_step at 2. rewrite posted_gtb_zero. fold (sg_units sg).
  destruct (Z.ltb_spec 0 (sg_units sg)).
  - rewrite from_decimal_units. change (units (amount (sg_available sg))) with (sg_units sg).
    rewrite checked_add_units; [|apply (small_bound _ k); lia|apply (small_bound _ 1); lia
                                |apply (small_bound _ (k + 1)); lia].
    cbn [map_err mbind result_bind]. rewrite (IH _ (k + 1)) by lia. do 2 f_equal. lia.
  - cbn [mbind result_bind]. rewrite (IH z (k + 1)) by lia. do 2 f_equal. lia.
Qed.

(** A wallet debit is planned exactly when the spend is positive and the wallet
    covers it; the plan is the greedy fill of the sub-grains in the given order and
    its debits, valid postings of the spend's currency, add up to the spend. *)
Theorem wallet_debit_exact subgrains amt :
  posted_ok amt -> vec_ok subgrains ->
  Forall (fun sg => posted_ok (sg_available sg) /\ currency (sg_available sg) = currency amt) subgrains ->
  posted_units amt < 10 ^ (56 - currency_scale (currency amt)) ->
  match plan_wallet_debit subgrains amt with
  | Ok out =>
      0 < posted_units amt <= wallet_total subgrains /\
      (fun d => (cd_credit_grant_event_type d, cd_units d)) <$> out
        = fill_spec (posted_units amt) (as_candidate <$> subgrains) /\
      sum_Z cd_units out = posted_units amt /\
      Forall (fun d => posted_ok (cd_amount d) /\ currency (cd_amount d) = currency amt) out
  | Err e =>
      (e = DomainError.InvalidRequest /\ posted_units amt <= 0) \/
      (e = DomainError.CreditExceedsWallet /\ wallet_total subgrains < posted_units amt)
  end.
Proof.
  intros Ha Hl Hs Hroom. unfold plan_wallet_debit, vec_ok in *.
  rewrite (proj2 (unit_loop _ (fun sg => currency amt = currency (sg_available sg)) subgrains
    (fun sg => matching_spec_ok _ _ tt))) by (eapply Forall_impl; [exact Hs|]; by intros sg [_ ->]).
  cbn [mbind result_bind]. posted_guards. destruct (Z.leb_spec (posted_units amt) 0); [by left|].
  rewrite (from_decimal_units ZERO), units_ZERO, (capacity_loop subgrains 0 0) by lia.
  cbn [mbind result_bind]. rewrite from_decimal_units, Z.add_0_l. fold (posted_units amt).
  pose proof (posted_units_small amt) as Hb.
  assert (Hw : 0 <= wallet_total subgrains <= 10 ^ 57 * Z.of_nat (length subgrains)).
  { unfold wallet_total. split; [apply sum_Z_nonneg; intros; lia|].
    pose proof (sum_Z_bound (fun sg => Z.max 0 (sg_units sg)) (10 ^ 57) subgrains) as Hsb.
    assert (Habs : forall sg, sg ∈ subgrains -> Z.abs (Z.max 0 (sg_units sg)) <= 10 ^ 57).
    { intros sg _. pose proof (posted_units_small (sg_available sg)). unfold sg_units. lia. }
    specialize (Hsb Habs). lia. }
  rewrite checked_sub_units; [|apply (small_bound _ (Z.of_nat (length subgrains))); lia
    |apply (small_bound _ 1); lia|apply (small_bound _ (1 + Z.of_nat (length subgrains))); lia].
  cbn [map_err mbind result_bind]. rewrite is_negative_units.
  destruct (Z.ltb_spec (wallet_total subgrains - posted_units amt) 0); [right; split; [done|lia]|].
  rewrite debit_loop_fill by lia.
  destruct (fill_loop_total (currency amt) (as_candidate <$> subgrains) (proj1 Ha)) with (z := posted_units amt)
    as [out Hout]; [|by apply posted_units_grid|done|].
  { apply Forall_fmap. eapply Forall_impl; [exact Hs|]. by intros sg [? ?]. }
  rewrite Hout. cbn [mbind result_bind]. unfold as_debits. apply fill_loop_refines in Hout as [Hview Hall]; [|apply Ha|lia].
  split_and!; [lia|lia|..].
  - rewrite <- Hview, <- list_fmap_compose. done.
  - transitivity (sum_Z snd (split_view <$> out)); [by rewrite !sum_Z_map|].
    rewrite Hview, fill_spec_total, sum_Z_map. change (sum_Z (fun x => Z.max 0 (cand_units (as_candidate x))) subgrains)
      with (wallet_total subgrains). lia.
  - apply Forall_fmap. eapply Forall_impl; [exact Hall|]. by intros a [? ?].
Qed.

(** ** Targets *)

Lemma target_step_ok candidates seen t seen' :
  target_step candidates seen t = Ok seen' <->
  (alloc_invoice_id t ∉ seen) /\ split_admissible candidates t /\ seen' = seen ++ [alloc_invoice_id t].
Proof.
  unfold target_step, split_admissible. case_bool_decide as Hin; [naive_solver|].
  rewrite posted_leb_zero. fold (alloc_units t).
  destruct (Z.leb_spec (alloc_units t) 0); [split; [done|lia]|].
  destruct (List.find _ candidates) as [c|]; cbn [ok_or mbind result_bind]; [|naive_solver].
  rewrite posted_leb_zero, dec_ltb_posted. fold (cand_units c) (alloc_units t).
  destruct (Z.leb_spec (cand_units c) 0).
  { split; [done|]. intros (_ & (_ & c' & [= <-] & ?) & _). lia. }
  destruct (Z.ltb_spec (cand_units c) (alloc_units t)).
  { split; [done|]. intros (_ & (_ & c' & [= <-] & ?) & _). lia. }
  split; [|by intros (_ & _ & ->)]. intros [= <-]. split_and!; [done|done| |done]. by exists c.
Qed.

Lemma target_loop_ok candidates targets : forall seen seen', NoDup seen ->
  fold_res (target_step candidates) seen targets = Ok seen' <->
  NoDup (seen ++ (alloc_invoice_id <$> targets)) /\ Forall (split_admissible candidates) targets /\
  seen' = seen ++ (alloc_invoice_id <$> targets).
Proof.
  induction targets as [|t ts IH]; intros seen seen' Hnd; cbn [fold_res].
  { rewrite app_nil_r. split; [by intros [= <-]|by intros (_ & _ & ->)]. }
  rewrite bind_ok, Forall_cons, fmap_cons, cons_middle, app_assoc. setoid_rewrite target_step_ok. split.
  - intros (? & (Hin & Had & ->) & Hrest). apply IH in Hrest as (Hnd' & Hall & ->); [done|].
    apply NoDup_app. split_and!; [done|set_solver|apply NoDup_singleton].
  - intros (Hnd' & [Had Hall] & ->). eexists. split_and!; [|done|reflexivity|].
    + apply NoDup_app in Hnd' as [(_ & Hin & _)%NoDup_app _]. set_solver.
    + apply IH; [|done]. by apply NoDup_app in Hnd' as [? _].
Qed.

Definition one_currency (candidates : list Candidate) (targets : list Allocated) : Prop :=
  exists spec, Forall (fun c => currency (cand_open c) = spec) candidates /\
               Forall (fun t => currency (alloc_amount t) = spec) targets.

Lemma basis_loops_ok candidates targets basis :
  match cand_open <$> head candidates with
  | Some open => Some open
  | None => alloc_amount <$> head targets
  end = Some basis ->
  (_ ← fold_res (fun _ c => matching_spec basis (cand_open c)) tt candidates;
   fold_res (fun _ t => matching_spec basis (alloc_amount t)) tt targets) = Ok tt <->
  one_currency candidates targets.
Proof.
  intros Hb. rewrite bind_ok.
  setoid_rewrite (unit_loop _ (fun t => currency basis = currency (alloc_amount t)) targets
    (fun t => matching_spec_ok basis (alloc_amount t) tt)).
  split.
  - intros ([] & Hc%matching_loop & Ht). exists (currency basis).
    split; (eapply Forall_impl; [eassumption|]); by intros x ->.
  - intros (spec & Hc & Ht).
    assert (currency basis = spec) as <-.
    { destruct candidates as [|c cs]; cbn in Hb; [|injection Hb as <-; by apply Forall_cons in Hc as [? _]].
      destruct targets as [|t ts]; cbn in Hb; [done|]. injection Hb as <-. by apply Forall_cons in Ht as [? _]. }
    exists tt. rewrite matching_loop. split; (eapply Forall_impl; [eassumption|]); by intros x ->.
Qed.

(** Credit targets are accepted, in the caller's order, exactly when everything
    shares one currency, no receivable is named twice, and each target is positive and
    within the open balance of the receivable it names. *)
Theorem credit_targets_exact candidates targets out :
  validate_credit_targets candidates targets = Ok out <->
  out = targets /\ one_currency candidates targets /\
  NoDup (alloc_invoice_id <$> targets) /\ Forall (split_admissible candidates) targets.
Proof.
  unfold validate_credit_targets. rewrite bind_ok.
  destruct (match cand_open <$> head candidates with Some open => Some open
            | None => alloc_amount <$> head targets end) as [basis|] eqn:Hb.
  - split.
    + intros ([] & Hc & (seen & Hl & [= <-])%bind_ok). apply (basis_loops_ok _ _ _ Hb) in Hc.
      apply target_loop_ok in Hl as (? & ? & _); [done|apply NoDup_nil_2].
    + intros (-> & Hc & Hnd & Hall). exists tt. split; [by apply (basis_loops_ok _ _ _ Hb)|].
      apply bind_ok. eexists. split; [|done]. apply target_loop_ok; [apply NoDup_nil_2|done].
  - destruct candidates as [|c cs]; [|done]. destruct targets as [|t ts]; [|done]. cbn. split.
    + intros ([] & _ & [= <-]). split_and!; [done| |apply NoDup_nil_2|done].
      by exists (mkCurrencySpec "" 0).
    + intros (-> & _). by exists tt.
Qed.

(** ** The builders *)

(** Lines carry a wallet bucket exactly when they are on the wallet. *)
Definition event_rule (l : PostLine) : Prop :=
  is_Some (credit_grant_event_type l) <-> account_class l = ReusableCredit.

Definition apply_legs (debits : list CreditDebit) (targets : list Allocated) :
    list (AccountClass * Side * Z) :=
  ((fun d => (ReusableCredit, Debit, cd_units d)) <$> debits)
  ++ ((fun t => (Ar, Credit, alloc_units t)) <$> targets).

Record apply_wf (input : ApplyInput) : Prop := mkApplyWf {
  aw_debits : vec_ok (ap_debits input);
  aw_targets : vec_ok (ap_targets input);
  aw_currency : currency_ok (ap_currency input);
  aw_debits_ok : Forall (fun d => posted_ok (cd_amount d)) (ap_debits input);
  aw_targets_ok : Forall (fun t => posted_ok (alloc_amount t)) (ap_targets input);
}.

Record apply_admissible (input : ApplyInput) : Prop := mkApplyAdmissible {
  aa_debits : ap_debits input <> [];
  aa_targets : ap_targets input <> [];
  aa_debits_ok : Forall (fun d => ap_currency input = currency (cd_amount d) /\ 0 < cd_units d)
                        (ap_debits input);
  aa_targets_ok : Forall (fun t => ap_currency input = currency (alloc_amount t) /\ 0 < alloc_units t)
                         (ap_targets input);
  aa_balance : sum_Z cd_units (ap_debits input) = sum_Z alloc_units (ap_targets input);
  aa_fits : fits (currency_scale (ap_currency input)) (sum_Z cd_units (ap_debits input));
}.

Lemma positive_loop {A} (f : A -> PostedMoney) l :
  fold_res (fun _ x => if dec_leb (amount (f x)) ZERO
                       then Err DomainError.InvalidRequest else Ok tt) tt l = Ok tt <->
  Forall (fun x => 0 < posted_units (f x)) l.
Proof.
  apply unit_loop. intros x. rewrite posted_leb_zero.
  destruct (Z.leb_spec (posted_units (f x)) 0); split; done || lia.
Qed.

Lemma currency_loop {A} (f : A -> PostedMoney) cur l :
  fold_res (fun _ x => matching_currency cur (currency (f x))) tt l = Ok tt <->
  Forall (fun x => cur = currency (f x)) l.
Proof. apply unit_loop. intros x. apply matching_currency_ok. Qed.

Lemma build_apply_ok input : apply_wf input ->
  is_ok (build_apply_entry input) = true <-> apply_admissible input.
Proof.
  intros [Hld Hlt Hcur Hd Ht].
  assert (Hvd : vec_ok (cd_amount <$> ap_debits input)) by (unfold vec_ok in *; by rewrite length_fmap).
  assert (Hvt : vec_ok (alloc_amount <$> ap_targets input)) by (unfold vec_ok in *; by rewrite length_fmap).
  split.
  - intros [e Hb]%is_ok_exists. unfold build_apply_entry in Hb.
    apply bind_ok in Hb as ([] & Hcd%(currency_loop cd_amount) & Hb).
    apply bind_ok in Hb as ([] & Hct%(currency_loop alloc_amount) & Hb).
    case_bool_decide as Hne1; [done|]. case_bool_decide as Hne2; [done|].
    apply bind_ok in Hb as ([] & Hpd%(positive_loop cd_amount) & Hb).
    apply bind_ok in Hb as ([] & Hpt%(positive_loop alloc_amount) & Hb).
    apply bind_ok in Hb as (dt & Hdt%map_err_ok & Hb).
    apply bind_ok in Hb as (ct & Hctot%map_err_ok & Hb).
    apply sum_posted_ok in Hdt as (_ & Hdok & Hdc & Hdu); [|done..].
    apply sum_posted_ok in Hctot as (_ & Hcok & Hcc & Hcu); [|done..].
    rewrite sum_Z_map in Hdu. rewrite sum_Z_map in Hcu. unfold posted_eqb in Hb. rewrite dec_eqb_units in Hb.
    fold (posted_units dt) (posted_units ct) in Hb.
    destruct (Z.eqb_spec (posted_units dt) (posted_units ct)) as [Heq|]; [|done].
    split; [done|done|by apply Forall_and|by apply Forall_and| |].
    + unfold cd_units, alloc_units. lia.
    + change (sum_Z cd_units (ap_debits input))
        with (sum_Z (fun x => posted_units (cd_amount x)) (ap_debits input)).
      rewrite <- Hdu, <- Hdc. by apply posted_units_fits.
  - intros [Hne1 Hne2 [Hcd Hpd]%Forall_and [Hct Hpt]%Forall_and Heq Hfit]. unfold build_apply_entry.
    rewrite (proj2 (currency_loop cd_amount _ _) Hcd), (proj2 (currency_loop alloc_amount _ _) Hct).
    cbn [mbind result_bind]. rewrite !bool_decide_false by done.
    rewrite (proj2 (positive_loop cd_amount _) Hpd), (proj2 (positive_loop alloc_amount _) Hpt).
    cbn [mbind result_bind].
    destruct (sum_posted_fits (cd_amount <$> ap_debits input) (ap_currency input)) as [dt Hdt];
      [done|done|by apply Forall_fmap|..].
    { apply Forall_fmap. eapply Forall_impl; [exact Hcd|]. by intros d ->. }
    { by rewrite sum_Z_map. }
    destruct (sum_posted_fits (alloc_amount <$> ap_targets input) (ap_currency input)) as [ct Hctot];
      [done|done|by apply Forall_fmap|..].
    { apply Forall_fmap. eapply Forall_impl; [exact Hct|]. by intros t ->. }
    { rewrite sum_Z_map. fold alloc_units. change (fun x => posted_units (alloc_amount x)) with alloc_units.
      by rewrite <- Heq. }
    rewrite Hdt, Hctot. cbn [map_err mbind result_bind].
    apply sum_posted_ok in Hdt as (_ & _ & Hdc & Hdu); [|done..].
    apply sum_posted_ok in Hctot as (_ & _ & Hcc & Hcu); [|done..].
    rewrite sum_Z_map in Hdu. rewrite sum_Z_map in Hcu. unfold posted_eqb. rewrite dec_eqb_units.
    fold (posted_units dt) (posted_units ct).
    rewrite Hdc, Hcc, bool_decide_true by done. unfold cd_units, alloc_units in Heq.
    by rewrite (proj2 (Z.eqb_eq _ _)) by lia.
Qed.

(** The lines of an apply entry, before identifiers are drawn. *)
Definition apply_lines (input : ApplyInput) : list (Uuid -> PostLine) :=
  let line := wallet_line (ap_tenant_id input) (ap_payer_tenant_id input) in
  ((fun debit => line ReusableCredit Debit (cd_amount debit) None
                   (Some (cd_credit_grant_event_type debit))) <$> ap_debits input)
  ++ ((fun target => line Ar Credit (alloc_amount target)
                       (Some (alloc_invoice_id target)) None) <$> ap_targets input).

Lemma build_apply_lines input e : build_apply_entry input = Ok e ->
  lines e = draw_ids (apply_lines input) /\ entry_currency e = code (ap_currency input).
Proof.
  intros Hb. unfold build_apply_entry in Hb.
  apply bind_ok in Hb as (? & _ & Hb). apply bind_ok in Hb as (? & _ & Hb).
  destruct (bool_decide _); [done|]. destruct (bool_decide _); [done|].
  apply bind_ok in Hb as (? & _ & Hb). apply bind_ok in Hb as (? & _ & Hb).
  apply bind_ok in Hb as (? & _ & Hb). apply bind_ok in Hb as (? & _ & Hb).
  destruct (negb _); [done|]. by injection Hb as <-.
Qed.

Lemma apply_line_facts input mk : apply_wf input -> apply_admissible input -> mk ∈ apply_lines input ->
  forall id, plain_line (ap_currency input) (ap_payer_tenant_id input) (line_facts (mk id)) /\
             event_rule (mk id) /\ leg (mk id) = leg (mk uuid_nil).
Proof.
  intros [_ _ _ Hd Ht] [_ _ Had Hat _ _] Hin id. unfold event_rule.
  apply elem_of_app in Hin as [(x & -> & Hx)%list_elem_of_fmap|(x & -> & Hx)%list_elem_of_fmap].
  - eapply Forall_forall in Hd; [|exact Hx]. eapply Forall_forall in Had as [? ?]; [|exact Hx].
    split_and!; [by split|by cbn; split|done].
  - eapply Forall_forall in Ht; [|exact Hx]. eapply Forall_forall in Hat as [? ?]; [|exact Hx].
    split_and!; [by split|by cbn; split; [intros [? ?]|]|done].
Qed.

Lemma apply_legs_balance debits targets : sum_Z cd_units debits = sum_Z alloc_units targets ->
  sum_Z (fun '(_, sd, z) => signed sd z) (apply_legs debits targets) = 0.
Proof.
  intros Heq. unfold apply_legs. rewrite sum_Z_app, !sum_Z_map. cbn [signed].
  assert (sum_Z (fun x => - alloc_units x) targets = - sum_Z alloc_units targets).
  { clear. induction targets as [|x l IH]; [done|]. rewrite !sum_Z_cons, IH. lia. }
  fold cd_units. change (fun x => cd_units x) with cd_units. lia.
Qed.

#[global] Instance apply_balanced : BalancedBuilder apply_wf build_apply_entry.
Proof.
  intros input e Hwf Hb.
  assert (Hadm : apply_admissible input) by (apply build_apply_ok; [done|by rewrite Hb]).
  pose proof (fun mk => apply_line_facts input mk Hwf Hadm) as Hmk.
  destruct (build_apply_lines _ _ Hb) as [Hl ->].
  eapply (plain_balanced _ (ap_payer_tenant_id input)); unfold entry_facts; rewrite Hl.
  - intros Hnil%fmap_nil_inv%(f_equal length). rewrite draw_ids_length in Hnil.
    unfold apply_lines in Hnil. rewrite length_app, !length_fmap in Hnil.
    destruct Hadm as [Hne _ _ _ _ _]. by destruct (ap_debits input).
  - apply Forall_fmap, draw_ids_Forall. intros mk id Hin. by apply Hmk.
  - rewrite signed_lines_legs, draw_ids_view by (intros mk id Hin; by apply Hmk).
    unfold apply_lines. rewrite fmap_app, <- !list_fmap_compose.
    rewrite <- (apply_legs_balance (ap_debits input) (ap_targets input)) by apply Hadm. done.
Qed.

(** A credit application is built exactly for non-empty positive debits and targets
    in its currency with equal, representable totals; the entry debits each wallet
    bucket and then credits each receivable, in order, carries a bucket exactly on its
    wallet lines, and passes the posting gate. *)
Theorem apply_entry_correct input : apply_wf input ->
  Z.of_nat (length (ap_debits input)) + Z.of_nat (length (ap_targets input)) < 2 ^ 64 ->
  (is_ok (build_apply_entry input) = true <-> apply_admissible input) /\
  (forall e, build_apply_entry input = Ok e ->
     leg <$> lines e = apply_legs (ap_debits input) (ap_targets input) /\
     Forall event_rule (lines e) /\
     validate_balanced_entry (entry_currency e) (entry_facts e) = Ok tt).
Proof.
  intros Hwf Hlen. split; [by apply build_apply_ok|]. intros e Hb.
  assert (Hadm : apply_admissible input) by (apply build_apply_ok; [done|by rewrite Hb]).
  pose proof (fun mk => apply_line_facts input mk Hwf Hadm) as Hmk.
  destruct (build_apply_lines _ _ Hb) as [Hl _]. split_and!.
  - rewrite Hl, draw_ids_view by (intros mk id Hin; by apply Hmk).
    unfold apply_lines. by rewrite fmap_app, <- !list_fmap_compose.
  - rewrite Hl. apply draw_ids_Forall. intros mk id Hin. by apply Hmk.
  - eapply builder_admitted; [apply apply_balanced|done| |exact Hb].
    unfold vec_ok. rewrite Hl, draw_ids_length. unfold apply_lines. rewrite length_app, !length_fmap. lia.
Qed.

(** A grant moves a positive amount from the pool into a named wallet bucket and
    nothing else: it is refused for a non-positive amount or an unnamed bucket, and
    otherwise passes the posting gate. *)
Theorem grant_entry_correct input : posted_ok (gr_amount input) ->
  match build_grant_entry input with
  | Ok e =>
      0 < posted_units (gr_amount input) /\ gr_credit_grant_event_type input <> "" /\
      leg <$> lines e = [(Unallocated, Debit, posted_units (gr_amount input));
                         (ReusableCredit, Credit, posted_units (gr_amount input))] /\
      Forall event_rule (lines e) /\
      validate_balanced_entry (entry_currency e) (entry_facts e) = Ok tt
  | Err e => e = DomainError.InvalidRequest /\
             (posted_units (gr_amount input) <= 0 \/ gr_credit_grant_event_type input = "")
  end.
Proof.
  intros Hok. unfold build_grant_entry. posted_guards.
  destruct (Z.leb_spec (posted_units (gr_amount input)) 0); [by split; [|left]|].
  case_bool_decide; [by split; [|right]|].
  split_and!; [done|done|done| |].
  - unfold event_rule. cbn. repeat apply Forall_cons_2; [by split; [intros [? ?]|]|by split|apply Forall_nil_2].
  - apply validate_complete; [by cbn|]. eapply (plain_balanced _ (gr_payer_tenant_id input)); [done|plain_lines|].
    transitivity (posted_units (gr_amount input) + (- posted_units (gr_amount input) + 0)); [done|lia].
Qed.
End credit.

Section witnesses.
Import ConcreteDecimal MoneySamples.
#[local] Instance ids : UuidSource := sample_uuids.

Definition sample_wallet : list CreditSubgrain :=
  [mkCreditSubgrain "promo" (eur 2000); mkCreditSubgrain "goodwill" (eur 0);
   mkCreditSubgrain "refund" (eur 5000)].

Lemma sample_wallet_ok : Forall (fun sg => posted_ok (sg_available sg) /\
  currency (sg_available sg) = currency (eur 3000)) sample_wallet.
Proof. repeat (apply Forall_cons_2; [split; [apply eur_ok; cbn; lia|done]|]). apply Forall_nil_2. Qed.

Lemma wallet_debit_exact_witness :
  exists out, plan_wallet_debit sample_wallet (eur 3000) = Ok out /\
              sum_Z cd_units out = posted_units (eur 3000).
Proof.
  destruct (is_ok_exists (plan_wallet_debit sample_wallet (eur 3000))) as [out Hout];
    [vm_compute; reflexivity|].
  exists out. split; [exact Hout|].
  pose proof (wallet_debit_exact sample_wallet (eur 3000) (eur_ok 3000 eq_refl)) as Hw.
  rewrite Hout in Hw. refine (proj1 (proj2 (proj2 (Hw _ sample_wallet_ok _)))).
  - unfold vec_ok. cbn. lia.
  - apply Z.ltb_lt. ground.
Defined.

Lemma credit_targets_exact_witness :
  validate_credit_targets sample_candidates [mkAllocated "inv-1" (eur 3000)]
    = Ok [mkAllocated "inv-1" (eur 3000)].
Proof.
  destruct (is_ok_exists (validate_credit_targets sample_candidates [mkAllocated "inv-1" (eur 3000)]))
    as [out Hout]; [vm_compute; reflexivity|].
  pose proof (proj1 (proj1 (credit_targets_exact _ _ out) Hout)) as E. rewrite <- E. rewrite <- E in Hout.
  exact Hout.
Defined.

Definition sample_apply : ApplyInput :=
  mkApplyInput 1%N 2%N "app-1" EUR
    [mkCreditDebit "promo" (eur 2000); mkCreditDebit "refund" (eur 1000)]
    [mkAllocated "inv-1" (eur 3000)] None.

Lemma sample_apply_wf : apply_wf sample_apply.
Proof.
  split; [unfold vec_ok; cbn; lia..|by apply (eur_ok 0)| |];
    repeat (apply Forall_cons_2; [apply eur_ok; cbn; lia|]); apply Forall_nil_2.
Qed.

Lemma apply_entry_correct_witness :
  exists e, build_apply_entry sample_apply = Ok e /\
            validate_balanced_entry (entry_currency e) (entry_facts e) = Ok tt.
Proof.
  destruct (is_ok_exists (build_apply_entry sample_apply)) as [e He]; [vm_compute; reflexivity|].
  exists e. split; [exact He|].
  destruct (apply_entry_correct sample_apply sample_apply_wf ltac:(cbn; lia)) as [_ Hx].
  exact (proj2 (proj2 (Hx e He))).
Defined.

Definition sample_grant : GrantInput := mkGrantInput 1%N 2%N "grant-1" (eur 2500) "promo" None.

Lemma grant_entry_correct_witness :
  exists e, build_grant_entry sample_grant = Ok e /\ Forall event_rule (lines e).
Proof.
  destruct (is_ok_exists (build_grant_entry sample_grant)) as [e He]; [vm_compute; reflexivity|].
  exists e. split; [exact He|].
  pose proof (grant_entry_correct sample_grant (eur_ok 2500 eq_refl)) as Hg. rewrite He in Hg.
  exact (proj1 (proj2 (proj2 (proj2 Hg)))).
Defined.
End witnesses.
