(* ===== verification/Reversal.v ===== *)
(** * Reversals and mapping corrections: [domain/invoice/reversal.rs]

    A reversal posts the original's lines with their sides flipped.  The file shows
    that every admitted entry (a reversal or a reusable-credit entry apart) has a
    reversal, that the reversal passes the posting gate, and that together they net
    to zero on every grain; and that the governed amount of a reversal is the
    original's exact debit total.

    The SHA-256 of [aws_lc_rs] is the class [Sha256] of the prelude. *)

From S2P Require Import Prelude Decimal Money Exact ExactGrid DomainErrors Sdk Posting.

Module ReversalError.
Inductive reversal_error :=
| CannotReverseReversal
| Money (error : MoneyError)
| CreditGrantNotReconstructible.
End ReversalError.
Abbreviation ReversalError := ReversalError.reversal_error.

Definition flip (side : Side) : Side :=
  match side with Debit => Credit | Credit => Debit end.

Section reversal.
Context `{RustDecimal} `{!UuidSource}.

(** The read-back DTOs ([ledger-sdk/src/posting.rs]). *)
Record LineView := mkLineView {
  lv_line_id : Uuid;
  lv_entry_id : Uuid;
  lv_payer_tenant_id : Uuid;
  lv_account_id : Uuid;
  lv_account_class : AccountClass;
  lv_gl_code : option string;
  lv_side : Side;
  lv_money : PostedMoney;
  lv_invoice_id : option string;
  lv_due_date : option NaiveDate;
  lv_revenue_stream : option string;
  lv_mapping_status : MappingStatus;
  lv_functional_money : option PostedMoney;
  lv_tax_jurisdiction : option string;
  lv_tax_filing_period : option string;
  lv_ar_status : option string;
}.

Record EntryView := mkEntryView {
  ev_entry_id : Uuid;
  ev_tenant_id : Uuid;
  ev_period_id : string;
  ev_entry_currency : string;
  ev_source_doc_type : SourceDocType;
  ev_source_business_id : string;
  ev_reverses_entry_id : option Uuid;
  ev_reverses_period_id : option string;
  ev_posted_at_utc : OffsetDateTime;
  ev_effective_at : NaiveDate;
  ev_posted_by_actor_id : Uuid;
  ev_origin : string;
  ev_correlation_id : Uuid;
  ev_created_seq : Z;
  ev_lines : list LineView;
}.

Definition reversal_business_id (original_entry_id : Uuid) : string :=
  "reverses=" +:+ uuid_to_string original_entry_id.

Definition foreign_functional_only (header : string) (money : PostedMoney)
    (functional_money : option PostedMoney) : bool :=
  is_functional_only money functional_money
  && negb (bool_decide (code (currency money) = header)).

(** One turn of the loop of [validate_money], with the scale stored so far. *)
Definition money_step (header : string) (scale : option Z)
    (line : PostedMoney * option PostedMoney) : result MoneyError (option Z) :=
  let '(value, functional) := line in
  if foreign_functional_only header value functional then Ok scale
  else if negb (bool_decide (code (currency value) = header)) then Err MoneyError.CurrencyMismatch
  else if match scale with
          | Some stored => negb (stored =? currency_scale (currency value))
          | None => false
          end
  then Err MoneyError.ScaleMismatch
  else Ok (Some (currency_scale (currency value))).

Definition validate_money (header : string) (lines : list (PostedMoney * option PostedMoney)) :
    result MoneyError unit :=
  _ ← fold_res (money_step header) None lines;
  Ok tt.

Definition flip_line (line : LineView) (id : Uuid) : PostLine :=
  {| line_id := id;
     payer_tenant_id := lv_payer_tenant_id line;
     seller_tenant_id := None;
     resource_tenant_id := None;
     account_id := lv_account_id line;
     account_class := lv_account_class line;
     gl_code := lv_gl_code line;
     side := flip (lv_side line);
     money := lv_money line;
     invoice_id := lv_invoice_id line;
     due_date := lv_due_date line;
     revenue_stream := lv_revenue_stream line;
     mapping_status := lv_mapping_status line;
     functional_money := lv_functional_money line;
     tax_jurisdiction := lv_tax_jurisdiction line;
     tax_filing_period := lv_tax_filing_period line;
     tax_rate_ref := None;
     invoice_item_ref := None;
     sku_or_plan_ref := None;
     price_id := None;
     pricing_snapshot_ref := None;
     po_allocation_group := None;
     credit_grant_event_type := None;
     ar_status := lv_ar_status line |}.

(** The entry identifier is drawn before those of the lines. *)
Definition build_reversal (original : EntryView) (into_period_id : string)
    (effective_on : NaiveDate) (posted_by_actor_id correlation_id : Uuid) :
    result ReversalError PostEntry :=
  if bool_decide (ev_source_doc_type original = Reversal)
  then Err ReversalError.CannotReverseReversal
  else if existsb (fun l => bool_decide (lv_account_class l = ReusableCredit)) (ev_lines original)
  then Err ReversalError.CreditGrantNotReconstructible
  else
    _ ← map_err ReversalError.Money
          (validate_money (ev_entry_currency original)
             ((fun l => (lv_money l, lv_functional_money l)) <$> ev_lines original));
    Ok {| entry_id := now_v7 0;
          tenant_id := ev_tenant_id original;
          period_id := into_period_id;
          entry_currency := ev_entry_currency original;
          source_doc_type := Reversal;
          source_business_id := reversal_business_id (ev_entry_id original);
          effective_at := effective_on;
          posted_by_actor_id := posted_by_actor_id;
          correlation_id := correlation_id;
          reverses_entry_id := Some (ev_entry_id original);
          reverses_period_id := Some (ev_period_id original);
          lines := imap (fun i l => flip_line l (now_v7 (S i))) (ev_lines original) |}.

Definition correction_id `{!Sha256} (original_entry_id reversal_entry_id : Uuid) : string :=
  let canon := uuid_to_string original_entry_id +:+ ":" +:+ uuid_to_string reversal_entry_id in
  String.string_of_list_ascii (flat_map hex_byte (sha256 (bytes canon))).

Definition build_mapping_correction `{!Sha256} (original : EntryView) (reversal_entry_id : Uuid)
    (invoice_id into_period_id : string) (effective_on : NaiveDate)
    (posted_by_actor_id correlation_id_ : Uuid) (corrected_lines : list PostLine) :
    result ReversalError PostEntry :=
  _ ← map_err ReversalError.Money
        (validate_money (ev_entry_currency original)
           ((fun l => (money l, functional_money l)) <$> corrected_lines));
  let correction := correction_id (ev_entry_id original) reversal_entry_id in
  Ok {| entry_id := now_v7 0;
        tenant_id := ev_tenant_id original;
        period_id := into_period_id;
        entry_currency := ev_entry_currency original;
        source_doc_type := MappingCorrection;
        source_business_id := invoice_id +:+ ":" +:+ correction;
        effective_at := effective_on;
        posted_by_actor_id := posted_by_actor_id;
        correlation_id := correlation_id_;
        reverses_entry_id := Some reversal_entry_id;
        reverses_period_id := Some (ev_period_id original);
        lines := corrected_lines |}.

Definition reverse_governed_amount (original : EntryView) :
    result DomainError (option PostedMoney) :=
  let header := ev_entry_currency original in
  _ ← map_err (fun _ => DomainError.Internal)
        (validate_money header
           ((fun l => (lv_money l, lv_functional_money l)) <$> ev_lines original));
  let debits := List.filter (fun l =>
    bool_decide (lv_side l = Debit)
    && negb (foreign_functional_only header (lv_money l) (lv_functional_money l)))
    (ev_lines original) in
  match debits with
  | [] => Ok None
  | first :: _ =>
      map_err (fun _ => DomainError.Internal)
        (Some <$> sum_posted (lv_money <$> debits) (currency (lv_money first)))
  end.

(** ** Reversing an admitted entry *)

Definition view_facts (l : LineView) : LineFacts :=
  mkLineFacts (lv_side l) (lv_money l) (lv_payer_tenant_id l) (lv_functional_money l).

Definition flip_facts (f : LineFacts) : LineFacts :=
  mkLineFacts (flip (fact_side f)) (fact_money f) (fact_payer f) (fact_functional f).

Lemma flip_signed sd z : signed (flip sd) z = - signed sd z.
Proof. destruct sd; cbn; lia. Qed.

Lemma sum_Z_opp {A} (f : A -> Z) l : sum_Z (fun x => - f x) l = - sum_Z f l.
Proof. induction l as [|x l IH]; [done|]. rewrite !sum_Z_cons, IH. lia. Qed.

Lemma flip_balanced c ls : balanced_entry c ls -> balanced_entry c (flip_facts <$> ls).
Proof.
  intros [Hne Ham [payer Hpay] Hcur Hsc Hnet Hfun]. split.
  - by intros Hnil%fmap_nil_inv.
  - by apply Forall_fmap.
  - exists payer. by apply Forall_fmap.
  - by apply Forall_fmap.
  - intros l1 l2 (f1 & -> & H1)%list_elem_of_fmap (f2 & -> & H2)%list_elem_of_fmap.
    exact (Hsc f1 f2 H1 H2).
  - intros d. transitivity (- net_of d ls); [|rewrite Hnet; lia]. unfold net_of.
    rewrite sum_Z_map, <- sum_Z_opp. apply sum_Z_ext. intros f _. unfold line_code. cbn.
    destruct (bool_decide _); rewrite ?flip_signed; lia.
  - destruct Hfun as [Hnone|(spec & Hall & Hsum)]; [left; by apply Forall_fmap|right].
    exists spec. split; [by apply Forall_fmap|].
    transitivity (- sum_Z functional_units ls); [|lia]. rewrite sum_Z_map, <- sum_Z_opp. apply sum_Z_ext. intros f _. unfold functional_units. cbn.
    destruct (fact_functional f); rewrite ?flip_signed; lia.
Qed.

(** Which lines [validate_money] skips. *)
Lemma foreign_spec header l :
  line_code l = header \/ line_functional_only l = true ->
  foreign_functional_only header (fact_money l) (fact_functional l)
    = negb (bool_decide (line_code l = header)).
Proof.
  intros Hl. unfold foreign_functional_only. fold (line_code l). fold (line_functional_only l).
  case_bool_decide; [by rewrite andb_false_r|]. destruct Hl as [?| ->]; done.
Qed.

Lemma money_loop_ok header s0 ls : forall scale,
  (forall l, l ∈ ls -> line_code l = header \/ line_functional_only l = true) ->
  (forall l, l ∈ ls -> line_code l = header -> currency_scale (currency (fact_money l)) = s0) ->
  scale = None \/ scale = Some s0 ->
  is_ok (fold_res (money_step header) scale ((fun l => (fact_money l, fact_functional l)) <$> ls)) = true.
Proof.
  induction ls as [|l ls IH]; intros scale Hc Hs Hscale; [done|]. rewrite fmap_cons. cbn [fold_res].
  unfold money_step at 2. rewrite foreign_spec by (apply Hc; left).
  fold (line_code l). case_bool_decide as Hl; cbn [negb mbind result_bind].
  - assert (match scale with
            | Some stored => negb (stored =? currency_scale (currency (fact_money l)))
            | None => false
            end = false) as ->.
    { destruct Hscale as [->| ->]; [done|]. rewrite (Hs l) by (try left; done). by rewrite Z.eqb_refl. }
    cbn [mbind result_bind]. apply IH; [intros; apply Hc; by right|intros; apply Hs; [by right|done]|].
    right. f_equal. apply Hs; [left|done].
  - apply IH; [intros; apply Hc; by right|intros; apply Hs; [by right|done]|done].
Qed.

Lemma admitted_money_ok header ls : balanced_entry header ls ->
  validate_money header ((fun l => (fact_money l, fact_functional l)) <$> ls) = Ok tt.
Proof.
  intros [_ _ _ Hcur Hsc _ _]. rewrite Forall_forall in Hcur. unfold validate_money.
  assert (Hs : exists s0, forall l, l ∈ ls -> line_code l = header ->
    currency_scale (currency (fact_money l)) = s0).
  { destruct (decide (Exists (fun l => line_code l = header) ls)) as [Hex|Hno].
    - apply Exists_exists in Hex as (l0 & Hin & Hl0). exists (currency_scale (currency (fact_money l0))).
      intros l Hl Hcode. apply Hsc; [done..|congruence].
    - exists 0. intros l Hl Hcode. destruct Hno. apply Exists_exists. by exists l. }
  destruct Hs as [s0 Hs].
  pose proof (money_loop_ok header s0 ls None Hcur Hs (or_introl eq_refl)) as Hok.
  apply is_ok_exists in Hok as [a Ha]. by rewrite Ha.
Qed.

Definition reversible (original : EntryView) : Prop :=
  ev_source_doc_type original <> Reversal /\
  Forall (fun l => lv_account_class l <> ReusableCredit) (ev_lines original).

(** Where a line lands: everything the balances are kept by. *)
Definition Grain : Type :=
  Uuid * Uuid * string * option string * option string * option string * option string * option string.

Definition view_grain (l : LineView) : Grain :=
  (lv_payer_tenant_id l, lv_account_id l, code (currency (lv_money l)), lv_invoice_id l,
   lv_revenue_stream l, lv_tax_jurisdiction l, lv_tax_filing_period l, lv_ar_status l).
Definition line_grain (l : PostLine) : Grain :=
  (payer_tenant_id l, account_id l, code (currency (money l)), invoice_id l,
   revenue_stream l, tax_jurisdiction l, tax_filing_period l, ar_status l).

Definition view_net (g : Grain) (ls : list LineView) : Z :=
  sum_Z (fun l => if bool_decide (view_grain l = g)
                  then signed (lv_side l) (posted_units (lv_money l)) else 0) ls.
Definition line_net (g : Grain) (ls : list PostLine) : Z :=
  sum_Z (fun l => if bool_decide (line_grain l = g)
                  then signed (side l) (posted_units (money l)) else 0) ls.

Lemma reversal_lines_view {A} (f : PostLine -> A) (mk : nat -> Uuid) ls :
  (forall l id, f (flip_line l id) = f (flip_line l uuid_nil)) ->
  f <$> imap (fun i l => flip_line l (mk i)) ls = (fun l => f (flip_line l uuid_nil)) <$> ls.
Proof.
  intros Hf. apply list_eq. intros i. rewrite !list_lookup_fmap, list_lookup_imap.
  destruct (ls !! i) as [l|]; cbn; [|done]. by rewrite Hf.
Qed.

Lemma reversal_lines_sum (w : PostLine -> Z) (mk : nat -> Uuid) ls :
  (forall l id, w (flip_line l id) = w (flip_line l uuid_nil)) ->
  sum_Z w (imap (fun i l => flip_line l (mk i)) ls) = sum_Z (fun l => w (flip_line l uuid_nil)) ls.
Proof.
  intros Hw. transitivity (sum_Z id (w <$> imap (fun i l => flip_line l (mk i)) ls));
    [by rewrite sum_Z_map|].
  by rewrite reversal_lines_view, sum_Z_map.
Qed.

(** C27: every admitted entry that is not itself a reversal and has no wallet line has a
    reversal; the reversal passes the posting gate and nets the original to zero on
    every grain (payer, account, currency, invoice, stream, tax dimensions, AR
    status), and it names the entry it reverses. *)
Theorem reversal_nets_original original period on actor correlation :
  reversible original -> vec_ok (ev_lines original) ->
  validate_balanced_entry (ev_entry_currency original) (view_facts <$> ev_lines original) = Ok tt ->
  exists e, build_reversal original period on actor correlation = Ok e /\
    validate_balanced_entry (entry_currency e) (entry_facts e) = Ok tt /\
    (forall g, view_net g (ev_lines original) + line_net g (lines e) = 0) /\
    source_doc_type e = Reversal /\ reverses_entry_id e = Some (ev_entry_id original) /\
    period_id e = period /\ entry_currency e = ev_entry_currency original.
Proof.
  intros [Hdoc Hcls] Hlen Hadm.
  assert (Hv : vec_ok (view_facts <$> ev_lines original)) by (unfold vec_ok in *; by rewrite length_fmap).
  apply validate_sound in Hadm; [|done]. pose proof (admitted_money_ok _ _ Hadm) as Hmoney.
  rewrite <- list_fmap_compose in Hmoney. unfold build_reversal.
  rewrite bool_decide_false by done.
  assert (existsb (fun l => bool_decide (lv_account_class l = ReusableCredit)) (ev_lines original) = false)
    as ->.
  { apply existsb_false. eapply Forall_impl; [exact Hcls|]. intros l Hl. by apply bool_decide_eq_false. }
  change ((fun l => (lv_money l, lv_functional_money l)) <$> ev_lines original)
    with (((fun l => (fact_money l, fact_functional l)) ∘ view_facts) <$> ev_lines original).
  rewrite Hmoney. cbn [map_err mbind result_bind]. eexists. split; [reflexivity|].
  split_and!; try done; cbn [lines entry_currency].
  - unfold entry_facts. cbn [lines]. rewrite reversal_lines_view by done.
    change ((fun l => line_facts (flip_line l uuid_nil)) <$> ev_lines original)
      with ((flip_facts ∘ view_facts) <$> ev_lines original).
    rewrite list_fmap_compose. apply validate_complete; [|by apply flip_balanced].
    unfold vec_ok. rewrite length_fmap. exact Hv.
  - intros g. unfold line_net. rewrite reversal_lines_sum by done.
    transitivity (view_net g (ev_lines original) + - view_net g (ev_lines original)); [|lia]. f_equal.
    unfold view_net. rewrite <- sum_Z_opp. apply sum_Z_ext. intros l _.
    change (line_grain (flip_line l uuid_nil)) with (view_grain l). cbn.
    destruct (bool_decide _); rewrite ?flip_signed; lia.
Qed.

(** ** The governed amount *)

Definition header_debit (header : string) (l : LineView) : bool :=
  bool_decide (lv_side l = Debit) && bool_decide (code (currency (lv_money l)) = header).

Definition debit_total (original : EntryView) : Z :=
  sum_Z (fun l => if header_debit (ev_entry_currency original) l
                  then posted_units (lv_money l) else 0) (ev_lines original).

Lemma sum_Z_filter {A} (p : A -> bool) (f : A -> Z) l :
  sum_Z f (List.filter p l) = sum_Z (fun x => if p x then f x else 0) l.
Proof.
  induction l as [|x l IH]; [done|]. cbn [List.filter]. rewrite sum_Z_cons.
  destruct (p x); rewrite ?sum_Z_cons, IH; lia.
Qed.

Lemma governed_debits header ls : balanced_entry header (view_facts <$> ls) ->
  List.filter (fun l => bool_decide (lv_side l = Debit)
    && negb (foreign_functional_only header (lv_money l) (lv_functional_money l))) ls
  = List.filter (header_debit header) ls.
Proof.
  intros [_ _ _ Hcur _ _ _]. apply Forall_fmap in Hcur. rewrite Forall_forall in Hcur.
  apply List.filter_ext_in. intros l Hl%list_elem_of_In. specialize (Hcur l Hl).
  apply foreign_spec in Hcur. cbn in Hcur. unfold header_debit. rewrite Hcur, negb_involutive. done.
Qed.

(** The governed amount of reversing an admitted entry is its exact debit total in
    the entry currency: [None] only when no debit line is in that currency, and an
    error only when the total is not a representable posting. *)
Theorem governed_amount_is_debit_total original :
  vec_ok (ev_lines original) -> Forall (fun l => posted_ok (lv_money l)) (ev_lines original) ->
  validate_balanced_entry (ev_entry_currency original) (view_facts <$> ev_lines original) = Ok tt ->
  match reverse_governed_amount original with
  | Ok None => Forall (fun l => header_debit (ev_entry_currency original) l = false) (ev_lines original)
  | Ok (Some p) =>
      posted_ok p /\ code (currency p) = ev_entry_currency original /\
      posted_units p = debit_total original
  | Err e => e = DomainError.Internal /\
      exists l, l ∈ ev_lines original /\ header_debit (ev_entry_currency original) l = true /\
                ~ fits (currency_scale (currency (lv_money l))) (debit_total original)
  end.
Proof.
  intros Hlen Hok Hadm. unfold reverse_governed_amount.
  apply validate_sound in Hadm; [|unfold vec_ok in *; by rewrite length_fmap].
  pose proof (admitted_money_ok _ _ Hadm) as Hmoney. rewrite <- list_fmap_compose in Hmoney.
  change ((fun l => (lv_money l, lv_functional_money l)) <$> ev_lines original)
    with (((fun l => (fact_money l, fact_functional l)) ∘ view_facts) <$> ev_lines original).
  rewrite Hmoney, governed_debits by done. cbn [map_err mbind result_bind].
  set (header := ev_entry_currency original) in *.
  assert (Hin : forall l, l ∈ List.filter (header_debit header) (ev_lines original) ->
    l ∈ ev_lines original /\ header_debit header l = true).
  { intros l Hl. rewrite list_elem_of_In, filter_In in Hl. by rewrite list_elem_of_In. }
  assert (Htot : debit_total original
    = sum_Z posted_units (lv_money <$> List.filter (header_debit header) (ev_lines original)))
    by (rewrite sum_Z_map, sum_Z_filter; done).
  rewrite Htot. assert (Hl : vec_ok (List.filter (header_debit header) (ev_lines original))).
  { unfold vec_ok in *. pose proof (List.filter_length_le (header_debit header) (ev_lines original)). lia. }
  destruct (List.filter (header_debit header) (ev_lines original)) as [|first rest] eqn:Hdeb.
  { apply Forall_forall. intros l Hl'. apply not_true_iff_false. intros Hd.
    assert (Hbad : In l []); [|done]. rewrite <- Hdeb. apply filter_In. by rewrite <- list_elem_of_In. }
  set (debits := first :: rest) in *. destruct (Hin first) as [Hf1 Hf2]; [left|].
  assert (Hspec : forall l, l ∈ debits -> currency (lv_money l) = currency (lv_money first)).
  { intros l Hl'. destruct (Hin l Hl') as [Hl1 Hl2]. destruct Hadm as [_ _ _ _ Hsc _ _].
    unfold header_debit in Hf2, Hl2. apply andb_true_iff in Hf2 as [_ Hf2%bool_decide_eq_true],
      Hl2 as [_ Hl2%bool_decide_eq_true].
    pose proof (Hsc (view_facts l) (view_facts first) (list_elem_of_fmap_2 _ _ _ Hl1)
      (list_elem_of_fmap_2 _ _ _ Hf1)) as Hs. unfold line_code in Hs. cbn in Hs.
    destruct (currency (lv_money l)), (currency (lv_money first)); cbn in *. f_equal; [congruence|].
    apply Hs. congruence. }
  assert (Hfirst : posted_ok (lv_money first)) by by eapply Forall_forall in Hok.
  assert (Hv : vec_ok (lv_money <$> debits)) by (unfold vec_ok in *; by rewrite length_fmap).
  destruct (sum_posted (lv_money <$> debits) (currency (lv_money first))) as [p|e] eqn:Hsum; cbn.
  - apply sum_posted_ok in Hsum as (_ & ? & Hc & ?); [|done|apply Hfirst]. split_and!; [done| |done].
    rewrite Hc. unfold header_debit in Hf2. by apply andb_true_iff in Hf2 as [_ ?%bool_decide_eq_true].
  - split; [done|]. exists first. split_and!; [done..|]. intros Hfit.
    destruct (sum_posted_fits (lv_money <$> debits) (currency (lv_money first)) Hv (proj1 Hfirst))
      as [p Hp]; [| |done|congruence].
    + apply Forall_fmap, Forall_forall. intros l Hl'. cbn. eapply Forall_forall in Hok; [done|by apply Hin].
    + apply Forall_fmap, Forall_forall. intros l Hl'. by apply Hspec.
Qed.
End reversal.

Section witnesses.
Import ConcreteDecimal MoneySamples.
#[local] Instance ids : UuidSource := sample_uuids.

Definition sample_view (cls : AccountClass) (sd : Side) (amt : PostedMoney) (account : Uuid) : LineView :=
  mkLineView 10%N 20%N 2%N account cls None sd amt (Some "inv-1") None None Resolved None None None None.

Definition sample_original : EntryView :=
  mkEntryView 20%N 1%N "202601" "EUR" InvoicePost "inv-1" None None 0 0 3%N "SYSTEM" 4%N 1
    [sample_view Ar Debit (eur 11000) 5%N; sample_view Revenue Credit (eur 10000) 6%N;
     sample_view TaxPayable Credit (eur 1000) 7%N].

Lemma sample_admitted :
  validate_balanced_entry "EUR" (view_facts <$> ev_lines sample_original) = Ok tt.
Proof. vm_compute. reflexivity. Qed.

Lemma reversal_nets_original_witness :
  exists e, build_reversal sample_original "202602" 31 3%N 4%N = Ok e /\
            validate_balanced_entry (entry_currency e) (entry_facts e) = Ok tt.
Proof.
  destruct (reversal_nets_original sample_original "202602" 31 3%N 4%N) as (e & He & Hg & _).
  - split; [discriminate|]. repeat (apply Forall_cons_2; [discriminate|]). apply Forall_nil_2.
  - unfold vec_ok. cbn. lia.
  - exact sample_admitted.
  - exists e. split; [exact He|exact Hg].
Defined.

Lemma governed_amount_is_debit_total_witness :
  exists p, reverse_governed_amount sample_original = Ok (Some p) /\
            posted_units p = debit_total sample_original.
Proof.
  destruct (is_ok_exists (reverse_governed_amount sample_original)) as [[p|] Hp];
    [vm_compute; reflexivity|exists p|exfalso].
  - split; [exact Hp|].
    pose proof (governed_amount_is_debit_total sample_original) as Hg. rewrite Hp in Hg.
    refine (proj2 (proj2 (Hg _ _ sample_admitted))).
    + unfold vec_ok. cbn. lia.
    + repeat (apply Forall_cons_2; [apply eur_ok; cbn; lia|]). apply Forall_nil_2.
  - assert (Hs : match reverse_governed_amount sample_original with Ok None => true | _ => false end = false)
      by (vm_compute; reflexivity).
    rewrite Hp in Hs. discriminate.
Defined.
End witnesses.
