(* ===== verification/FxTranslate.v ===== *)
(** * Translating an entry to the functional currency:
    [ledger/src/domain/fx/translate.rs]

    Every line is multiplied by the quote and rounded half-even at the target scale;
    the residual of the rounded lines goes to the anchor line, so that the functional
    column balances exactly.  The file characterises the translation: it succeeds
    exactly on valid input whose balanced anchor is positive and whose lines are
    representable, and returns the rounded lines with that anchor. *)

From S2P Require Import Prelude Decimal Money Exact ExactGrid Allocate Sdk DomainErrors Posting.
From Stdlib Require Import QArith.
Local Open Scope Z_scope.

Module FxTranslateError.
Inductive fx_translate_error :=
| RateNonPositive
| AnchorOutOfBounds
| NonPositiveLine
| ResidualExceedsAnchor
| Exact (e : ExactError).
End FxTranslateError.
Abbreviation FxTranslateError := FxTranslateError.fx_translate_error.

(** A net that a debit raises and a credit lowers, in [translate_entry], [realize] and
    [remeasure]. *)
Definition net_step (side : Side) (net exact : ExactAmount) : result ExactError ExactAmount :=
  match side with
  | Debit => checked_add net exact
  | Credit => checked_sub net exact
  end.

Section translate.
Context `{RustDecimal}.

Record FxLine := mkFxLine {
  fx_amount : PostedMoney;
  fx_side : Side;
}.

Definition ensure_same_spec (left right : CurrencySpec) : result ExactError unit :=
  map_err ExactError.Money (ensure_same left right).

Definition validate_rate (rate : Decimal) : result FxTranslateError unit :=
  if dec_leb rate ZERO then Err FxTranslateError.RateNonPositive
  else
    _ ← map_err (fun e => FxTranslateError.Exact (ExactError.Money e)) (validate_amount rate);
    Ok tt.

Definition translate_amount (source : PostedMoney) (rate : Decimal) (target : CurrencySpec) :
    result FxTranslateError PostedMoney :=
  _ ← validate_rate rate;
  if bool_decide (currency source = target) && dec_eqb rate ONE then Ok source
  else map_err FxTranslateError.Exact
    (v ← checked_mul (from_decimal (amount source)) (from_decimal rate);
     round_half_even v target).

(** The checks of the first loop of [translate_entry], against the first line. *)
Definition check_line (first : CurrencySpec) (line : FxLine) : result FxTranslateError unit :=
  _ ← map_err FxTranslateError.Exact (ensure_same_spec first (currency (fx_amount line)));
  if dec_leb (amount (fx_amount line)) ZERO then Err FxTranslateError.NonPositiveLine else Ok tt.

(** One turn of the second loop. *)
Definition translate_step (rate : Decimal) (target : CurrencySpec)
    (acc : list ExactAmount * ExactAmount) (line : FxLine) :
    result ExactError (list ExactAmount * ExactAmount) :=
  let '(functional, net) := acc in
  v ← checked_mul (from_decimal (amount (fx_amount line))) (from_decimal rate);
  exact ← round_half_even_exact v (currency_scale target);
  net ← net_step (fx_side line) net exact;
  Ok (functional ++ [exact], net).

(** The anchor is in bounds past the guard, for [lines] and for [functional]. *)
Definition translate_entry (lines : list FxLine) (rate : Decimal) (target : CurrencySpec)
    (anchor : nat) : result FxTranslateError (list PostedMoney) :=
  _ ← validate_rate rate;
  match lines !! 0%nat, lines !! anchor with
  | Some first, Some anchor_line =>
      _ ← fold_res (fun _ line => check_line (currency (fx_amount first)) line) tt lines;
      '(functional, net) ← map_err FxTranslateError.Exact
        (fold_res (translate_step rate target) ([], from_decimal ZERO) lines);
      match functional !! anchor with
      | None => Err FxTranslateError.AnchorOutOfBounds
      | Some old_anchor =>
          adjusted ← map_err FxTranslateError.Exact
            (match fx_side anchor_line with
             | Debit => checked_sub old_anchor net
             | Credit => checked_add old_anchor net
             end);
          if is_negative adjusted || exact_eqb adjusted (from_decimal ZERO)
          then Err FxTranslateError.ResidualExceedsAnchor
          else map_res (fun value => map_err FxTranslateError.Exact (into_posted_exact value target))
                 (<[anchor := adjusted]> functional)
      end
  | _, _ => Err FxTranslateError.AnchorOutOfBounds
  end.

(** ** Products on the grid *)

(** [z] units are [T * W] rounded half-even at scale [sc]. *)
Definition rounded (sc T W z : Z) : Prop :=
  exists k, half_even (T * W) (grid * 10 ^ (28 - sc)) k /\ z = k * 10 ^ (28 - sc).

Lemma rounded_unique sc T W z z' : 0 <= sc <= 28 -> rounded sc T W z -> rounded sc T W z' -> z = z'.
Proof.
  intros Hsc (k & Hk & ->) (k' & Hk' & ->). f_equal. pose proof grid_pos.
  pose proof (pow10_pos (28 - sc) ltac:(lia)). eapply half_even_unique; [|done..]. nia.
Qed.

Lemma rounded_abs N k inc G P B : 0 < G -> 0 < inc <= G -> 2 * Z.abs (N - k * (G * inc)) <= G * inc ->
  Z.abs N < P -> P + G * G <= G * B -> Z.abs (k * inc) <= B.
Proof.
  intros HG Hinc Hk HN HB. assert (G * Z.abs (k * inc) = Z.abs (k * (G * inc))) as Heq.
  { rewrite !Z.abs_mul, (Z.abs_eq G) by lia. ring. }
  assert (Z.abs (k * (G * inc)) <= Z.abs N + G * inc) by lia. nia.
Qed.

Lemma rounded_bound sc T W z : 0 <= sc <= 28 -> Z.abs T < 10 ^ 57 -> Z.abs W < 10 ^ 57 ->
  rounded sc T W z -> Z.abs z <= 10 ^ 100.
Proof.
  intros Hsc HT HW (k & [Hk _] & ->). pose proof (abs_mul_lt _ _ _ _ HT HW) as HTW.
  apply (rounded_abs (T * W) k _ grid (10 ^ 57 * 10 ^ 57)); [apply grid_pos| |done|done|by vm_compute].
  split; [apply pow10_pos; lia|]. apply (pow10_le (28 - sc) 28). lia.
Qed.

Lemma product_units T W : Z.abs T < 10 ^ 57 -> Z.abs W < 10 ^ 57 ->
  checked_mul (of_units T) (of_units W) = Ok (of_Q (Qmake (T * W) (Z.to_pos (grid * grid)))).
Proof.
  intros HT HW. destruct (share_budget T W 1 HT HW) as (Hb1 & _ & _ & Hb3 & _); [by vm_compute|].
  pose proof grid_pos. rewrite checked_mul_fit by (apply of_units_inv, (small_bound _ 1); lia).
  rewrite <- fit_total by nia. apply fit_proper. rewrite !to_Q_of_units. unfold Qmult, Qeq; cbn [Qnum Qden].
  rewrite Pos2Z.inj_mul, !Z2Pos.id by lia. ring.
Qed.

Lemma product_rounded T W sc : Z.abs T < 10 ^ 57 -> Z.abs W < 10 ^ 57 -> 0 <= sc <= 28 ->
  exists z, rounded sc T W z /\
    (v ← checked_mul (of_units T) (of_units W); round_half_even_exact v sc) = Ok (of_units z).
Proof.
  intros HT HW Hsc. destruct (share_budget T W 1 HT HW) as (Hb1 & Hb1' & _ & Hb3 & _); [by vm_compute|].
  pose proof grid_pos. rewrite product_units by done. cbn [mbind result_bind].
  destruct (round_half_even_exact_fit (of_Q (Qmake (T * W) (Z.to_pos (grid * grid)))) sc)
    as (k & Hk & Hround); [apply of_Q_total_inv; nia|lia|].
  rewrite half_even_of_Q in Hk by nia.
  assert (Hg : grid = 10 ^ sc * 10 ^ (28 - sc)) by (apply pow10_split; lia).
  pose proof (pow10_pos sc ltac:(lia)). pose proof (pow10_pos (28 - sc) ltac:(lia)).
  replace (T * W * 10 ^ sc) with (10 ^ sc * (T * W)) in Hk by ring.
  replace (grid * grid) with (10 ^ sc * (grid * 10 ^ (28 - sc))) in Hk by (rewrite Hg; ring).
  rewrite half_even_scale in Hk by nia.
  exists (k * 10 ^ (28 - sc)). split; [exists k; exact (conj Hk eq_refl)|]. rewrite Hround.
  pose proof (ten_pow_final sc Hsc) as Hten. unfold ten_pow in Hten.
  assert (Hkb : Z.abs k <= Z.abs (T * W) + 1) by (destruct Hk as [Hk _]; nia).
  rewrite fit_total by lia. f_equal. apply of_units_of_Q; [lia|]. rewrite Hg. ring.
Qed.

(** ** Nets *)

Lemma small_net z k : Z.abs z <= 10 ^ 100 * k -> k <= 2 ^ 100 -> small z.
Proof.
  intros Hz Hk. unfold small. assert (10 ^ 100 * 2 ^ 100 < 10 ^ 200) by by vm_compute. nia.
Qed.

Lemma signed_bound side z B : Z.abs z <= B -> Z.abs (signed side z) <= B.
Proof. destruct side; cbn; lia. Qed.

Lemma net_step_units side a b : small a -> small b -> small (a + signed side b) ->
  net_step side (of_units a) (of_units b) = Ok (of_units (a + signed side b)).
Proof. intros Ha Hb Hs. destruct side; cbn in *; [by apply checked_add_units|by apply checked_sub_units]. Qed.

(** Debits minus credits of the functional values [zs] of [lines]. *)
Definition functional_net (lines : list FxLine) (zs : list Z) : Z :=
  sum_Z (fun lz => signed (fx_side (fst lz)) (snd lz)) (zip lines zs).

Lemma translate_step_units rate target l pre net k :
  0 <= currency_scale target <= 28 -> 0 <= k -> Z.abs net <= 10 ^ 100 * k -> k + 1 <= 2 ^ 100 ->
  exists z, rounded (currency_scale target) (posted_units (fx_amount l)) (units rate) z /\
    Z.abs (net + signed (fx_side l) z) <= 10 ^ 100 * (k + 1) /\
    translate_step rate target (pre, of_units net) l
      = Ok (pre ++ [of_units z], of_units (net + signed (fx_side l) z)).
Proof.
  intros Hsc Hk Hnet Hk1. pose proof (units_small (amount (fx_amount l))) as HT. pose proof (units_small rate) as HW.
  destruct (product_rounded _ _ (currency_scale target) HT HW Hsc) as (z & Hz & Hr).
  pose proof (rounded_bound _ _ _ _ Hsc HT HW Hz) as Hb. pose proof (signed_bound (fx_side l) z _ Hb).
  assert (Hn : Z.abs (net + signed (fx_side l) z) <= 10 ^ 100 * (k + 1)) by lia.
  exists z. split; [exact Hz|]. split; [exact Hn|]. unfold translate_step. rewrite !from_decimal_units.
  apply bind_ok in Hr as (v & -> & Hr). cbn [mbind result_bind]. rewrite Hr. cbn [mbind result_bind].
  rewrite net_step_units; [done|apply (small_net _ k); lia|apply (small_net _ 1); lia|apply (small_net _ (k + 1)); lia].
Qed.

Lemma translate_loop rate target lines : 0 <= currency_scale target <= 28 -> forall pre net k,
  0 <= k -> Z.abs net <= 10 ^ 100 * k -> k + Z.of_nat (length lines) <= 2 ^ 100 ->
  exists zs, Forall2 (fun l => rounded (currency_scale target) (posted_units (fx_amount l)) (units rate)) lines zs /\
    Z.abs (net + functional_net lines zs) <= 10 ^ 100 * (k + Z.of_nat (length lines)) /\
    fold_res (translate_step rate target) (pre, of_units net) lines
      = Ok (pre ++ (of_units <$> zs), of_units (net + functional_net lines zs)).
Proof.
  intros Hsc. induction lines as [|l lines IH]; intros pre net k Hk Hnet Hlen; cbn [length] in Hlen.
  { exists []. unfold functional_net. cbn [zip zip_with length fmap list_fmap]. rewrite sum_Z_nil, Z.add_0_r, app_nil_r.
    split; [constructor|]. split; [lia|done]. }
  destruct (translate_step_units rate target l pre net k) as (z & Hz & Hn & Hstep); [done|lia|done|lia|].
  destruct (IH (pre ++ [of_units z]) (net + signed (fx_side l) z) (k + 1)) as (zs & Hzs & Hb & Hfold); [lia|done|lia|].
  exists (z :: zs). unfold functional_net in *. cbn [zip zip_with fst snd]. rewrite sum_Z_cons. cbn [fst snd length].
  split; [by constructor|]. split; [replace (Z.of_nat (S (length lines))) with (1 + Z.of_nat (length lines)) by lia; lia|].
  cbn [fold_res]. rewrite Hstep. cbn [mbind result_bind]. rewrite Hfold, <- app_assoc, Z.add_assoc. done.
Qed.

Lemma check_lines_ok first lines : fold_res (fun _ line => check_line first line) tt lines = Ok tt <->
  Forall (fun l => currency (fx_amount l) = first /\ 0 < posted_units (fx_amount l)) lines.
Proof.
  apply unit_loop. intros l. unfold check_line, ensure_same_spec. rewrite bind_ok. setoid_rewrite map_err_ok.
  rewrite posted_leb_zero. split.
  - intros ([] & Hs%map_err_ok%ensure_same_ok & Hp). destruct (Z.leb_spec (posted_units (fx_amount l)) 0); [done|].
    split; [done|lia].
  - intros [Hs Hp]. exists tt. split; [apply map_err_ok, ensure_same_ok; done|].
    by rewrite (proj2 (Z.leb_gt _ _)).
Qed.

Lemma validate_rate_ok rate : validate_rate rate = Ok tt <->
  0 < units rate /\ Z.abs (mantissa (normalize rate)) < 10 ^ 28.
Proof.
  unfold validate_rate. rewrite dec_leb_units, units_ZERO. destruct (Z.leb_spec (units rate) 0); [split; [done|lia]|].
  rewrite bind_ok. setoid_rewrite map_err_ok. setoid_rewrite validate_amount_ok. split.
  - intros (d & [Hb _] & _). done.
  - intros [_ Hb]. by exists (normalize rate).
Qed.

(** ** The translation *)

Lemma zip_insert_r {A B} (l : list A) (k : list B) i a b : l !! i = Some a ->
  zip l (<[i := b]> k) = <[i := (a, b)]> (zip l k).
Proof.
  revert k i. induction l as [|x l IH]; intros [|y k] [|i] Hi; cbn in *; simplify_eq; try done. by rewrite IH.
Qed.

Lemma functional_net_insert lines zs i l z w : lines !! i = Some l -> zs !! i = Some z ->
  functional_net lines (<[i := w]> zs)
    = functional_net lines zs - signed (fx_side l) z + signed (fx_side l) w.
Proof.
  intros Hl Hz. unfold functional_net. rewrite (zip_insert_r _ _ _ _ _ Hl).
  rewrite (sum_Z_insert _ _ i (l, z)); [done|]. apply lookup_zip_with_Some. by exists l, z.
Qed.

(** What the translation of [lines] at [rate] is: every line but the anchor is the
    exact product rounded half-even, the anchor is positive, and the column nets to
    zero. *)
Record translation (lines : list FxLine) (rate : Decimal) (target : CurrencySpec) (anchor : nat)
    (out : list PostedMoney) : Prop := {
  tr_length : length out = length lines;
  tr_posted : Forall (fun p => posted_ok p /\ currency p = target) out;
  tr_rounded i l p : i <> anchor -> lines !! i = Some l -> out !! i = Some p ->
    rounded (currency_scale target) (posted_units (fx_amount l)) (units rate) (posted_units p);
  tr_anchor p : out !! anchor = Some p -> 0 < posted_units p;
  tr_balanced : functional_net lines (posted_units <$> out) = 0;
}.

Lemma narrow_all target ws out : currency_ok target -> Forall small ws ->
  map_res (fun value => map_err FxTranslateError.Exact (into_posted_exact value target)) (of_units <$> ws) = Ok out <->
  Forall (fun p => posted_ok p /\ currency p = target) out /\ ws = posted_units <$> out.
Proof.
  intros Hcur Hsm. rewrite map_res_ok, Forall2_fmap_l. revert out.
  induction Hsm as [|w ws Hw _ IH]; intros out.
  { split; [by intros ->%Forall2_nil_inv_l|]. intros [_ Heq]. symmetry in Heq. apply fmap_nil_inv in Heq as ->. constructor. }
  assert (Hone : forall p, map_err FxTranslateError.Exact (into_posted_exact (of_units w) target) = Ok p <->
    posted_ok p /\ currency p = target /\ posted_units p = w) by (intros p; rewrite map_err_ok; by apply into_posted_units).
  split.
  - intros (p & out' & (? & ? & Hu)%Hone & [? ->]%IH & ->)%Forall2_cons_inv_l.
    split; [by constructor|]. by rewrite fmap_cons, Hu.
  - intros [Hall Heq]. destruct out as [|p out]; [done|]. rewrite fmap_cons in Heq. injection Heq as -> Heq.
    apply Forall_cons in Hall as [[? ?] Hall]. constructor; [by apply Hone|by apply IH].
Qed.

Section exactness.
Variables (lines : list FxLine) (rate : Decimal) (target : CurrencySpec) (anchor : nat).
Hypothesis Hcur : currency_ok target.
Variables (zs : list Z) (la : FxLine) (za : Z).
Hypothesis Hzs : Forall2 (fun l => rounded (currency_scale target) (posted_units (fx_amount l)) (units rate)) lines zs.
Hypothesis Hla : lines !! anchor = Some la.
Hypothesis Hza : zs !! anchor = Some za.

(** The rounded lines with the anchor that closes the residual. *)
Definition closed : list Z := <[anchor := za - signed (fx_side la) (functional_net lines zs)]> zs.

Lemma closed_balanced : functional_net lines closed = 0.
Proof.
  unfold closed. rewrite (functional_net_insert _ _ _ _ _ _ Hla Hza). destruct (fx_side la); cbn; lia.
Qed.

Lemma closed_translation out :
  Forall (fun p => posted_ok p /\ currency p = target) out -> closed = posted_units <$> out ->
  0 < za - signed (fx_side la) (functional_net lines zs) -> translation lines rate target anchor out.
Proof.
  intros Hall Heq Hpos. pose proof (Forall2_length _ _ _ Hzs) as Hlen.
  assert (Hlo : length out = length zs) by (apply (f_equal length) in Heq; unfold closed in Heq; by rewrite length_insert, length_fmap in Heq).
  constructor; [congruence|done| | |by rewrite <- Heq; apply closed_balanced].
  - intros i l p Hi Hl Hp. assert (Hz : zs !! i = Some (posted_units p)).
    { pose proof (f_equal (lookup i) Heq) as Hli. unfold closed in Hli.
      by rewrite list_lookup_insert_ne, list_lookup_fmap, Hp in Hli by done. }
    exact (Forall2_lookup_lr _ _ _ _ _ _ Hzs Hl Hz).
  - intros p Hp. pose proof (f_equal (lookup anchor) Heq) as Hli. unfold closed in Hli.
    rewrite list_lookup_insert_eq, list_lookup_fmap, Hp in Hli by (by eapply lookup_lt_Some). cbn in Hli.
    injection Hli as Hli. lia.
Qed.

Lemma translation_closed out : translation lines rate target anchor out ->
  closed = posted_units <$> out /\ 0 < za - signed (fx_side la) (functional_net lines zs).
Proof.
  intros [Hlen Hall Hrnd Hanc Hbal]. pose proof (Forall2_length _ _ _ Hzs) as Hlz.
  destruct (lookup_lt_is_Some_2 out anchor) as [p Hp].
  { rewrite Hlen. by eapply lookup_lt_Some. }
  assert (Hout : posted_units <$> out = <[anchor := posted_units p]> zs).
  { apply list_eq. intros i. destruct (decide (i = anchor)) as [->|Hi].
    - rewrite list_lookup_insert_eq by (by eapply lookup_lt_Some). by rewrite list_lookup_fmap, Hp.
    - rewrite list_lookup_insert_ne, list_lookup_fmap by done. destruct (out !! i) as [q|] eqn:Hq; cbn.
      + destruct (lookup_lt_is_Some_2 lines i) as [l Hl]; [rewrite <- Hlen; by eapply lookup_lt_Some|].
        destruct (Forall2_lookup_l _ _ _ _ _ Hzs Hl) as (z & -> & Hz). f_equal.
        exact (rounded_unique _ _ _ _ _ Hcur (Hrnd i l q Hi Hl Hq) Hz).
      + symmetry. apply lookup_ge_None. apply lookup_ge_None in Hq. lia. }
  rewrite Hout, (functional_net_insert _ _ _ _ _ _ Hla Hza) in Hbal. specialize (Hanc p Hp).
  assert (Hpa : posted_units p = za - signed (fx_side la) (functional_net lines zs)) by (destruct (fx_side la); cbn in *; lia).
  split; [|lia]. unfold closed. by rewrite <- Hpa, Hout.
Qed.
End exactness.

Lemma negative_or_zero z : (z <? 0) || (z =? 0) = (z <=? 0).
Proof. destruct (Z.ltb_spec z 0), (Z.eqb_spec z 0), (Z.leb_spec z 0); cbn; try done; lia. Qed.

(** What the loops and the anchor come to, past the guards. *)
Lemma translate_entry_units lines first rate target anchor la : currency_ok target ->
  vec_ok lines -> lines !! 0%nat = Some first -> lines !! anchor = Some la ->
  exists zs za, Forall2 (fun l => rounded (currency_scale target) (posted_units (fx_amount l)) (units rate)) lines zs /\
    zs !! anchor = Some za /\ Forall small (closed lines anchor zs la za) /\
    translate_entry lines rate target anchor =
      (_ ← validate_rate rate;
       _ ← fold_res (fun _ line => check_line (currency (fx_amount first)) line) tt lines;
       if za - signed (fx_side la) (functional_net lines zs) <=? 0 then Err FxTranslateError.ResidualExceedsAnchor
       else map_res (fun value => map_err FxTranslateError.Exact (into_posted_exact value target))
              (of_units <$> closed lines anchor zs la za)).
Proof.
  intros Hcur Hvec Hfirst Hla. unfold vec_ok in Hvec. assert (Hbig : 2 ^ 64 + 1 < 2 ^ 100) by by vm_compute.
  destruct (translate_loop rate target lines Hcur [] 0 0) as (zs & Hzs & Hnet & Hfold); [lia|lia|lia|].
  rewrite Z.add_0_l in Hnet, Hfold. set (net := functional_net lines zs) in *.
  destruct (Forall2_lookup_l _ _ _ _ _ Hzs Hla) as (za & Hza & _). exists zs, za.
  assert (Hsm : Forall (fun z => Z.abs z <= 10 ^ 100) zs).
  { apply Forall_forall. intros z (i & Hi)%list_elem_of_lookup_1.
    destruct (Forall2_lookup_r _ _ _ _ _ Hzs Hi) as (l & _ & Hr).
    eapply rounded_bound, Hr; [done|apply posted_units_small|apply units_small]. }
  pose proof (proj1 (Forall_forall _ _) Hsm za (list_elem_of_lookup_2 _ _ _ Hza)) as Hzb. cbn beta in Hzb.
  pose proof (signed_bound (fx_side la) net _ Hnet) as Hsb. set (n := Z.of_nat (length lines)) in *.
  assert (Hadj : small (za - signed (fx_side la) net)) by (apply (small_net _ (n + 1)); lia).
  split; [done|]. split; [done|]. split.
  { apply Forall_insert; [|exact Hadj]. eapply Forall_impl; [exact Hsm|]. intros z Hz. cbn beta in Hz. apply (small_net _ 1); lia. }
  unfold translate_entry. rewrite Hfirst, Hla. destruct (validate_rate rate) as [[]|]; [|done]. cbn [mbind result_bind].
  destruct (fold_res _ tt lines) as [[]|]; [|done]. cbn [mbind result_bind].
  rewrite from_decimal_units, units_ZERO, Hfold. cbn [mbind result_bind map_err app].
  rewrite list_lookup_fmap, Hza. cbn [fmap option_fmap option_map].
  assert (Hnsm : small net) by (apply (small_net _ n); lia). assert (Hzsm : small za) by (apply (small_net _ 1); lia).
  assert (Hadjust : match fx_side la with
      | Debit => checked_sub (of_units za) (of_units net)
      | Credit => checked_add (of_units za) (of_units net)
      end = Ok (of_units (za - signed (fx_side la) net))).
  { destruct (fx_side la); cbn in *; [by apply checked_sub_units|]. rewrite Z.sub_opp_r in *. by apply checked_add_units. }
  rewrite Hadjust. cbn [mbind result_bind map_err]. rewrite is_negative_units, exact_eqb_units.
  rewrite negative_or_zero.
  unfold closed. by rewrite list_fmap_insert.
Qed.

(** C36: translation balances exactly.  [translate_entry] succeeds exactly when the
    quote is positive and in range, the anchor exists, the lines are positive and of
    one currency, and there is a balanced translation: representable postings of the
    target currency, each the exact product rounded half-even but for the anchor,
    which is positive and closes the residual to a net of zero.  It returns that
    translation. *)
Theorem translate_entry_exact lines rate target anchor out : currency_ok target -> vec_ok lines ->
  translate_entry lines rate target anchor = Ok out <->
  0 < units rate /\ Z.abs (mantissa (normalize rate)) < 10 ^ 28 /\ (anchor < length lines)%nat /\
  (exists spec, Forall (fun l => currency (fx_amount l) = spec /\ 0 < posted_units (fx_amount l)) lines) /\
  translation lines rate target anchor out.
Proof.
  intros Hcur Hvec. destruct (lines !! anchor) as [la|] eqn:Hla; cycle 1.
  { apply lookup_ge_None in Hla. unfold translate_entry. rewrite (lookup_ge_None_2 lines anchor Hla).
    split; [|lia]. intros (? & _ & Hf)%bind_ok. by destruct (lines !! 0%nat). }
  pose proof (lookup_lt_Some _ _ _ Hla) as Hlt.
  destruct (lookup_lt_is_Some_2 lines 0) as [first Hfst]; [lia|].
  destruct (translate_entry_units lines first rate target anchor la Hcur Hvec Hfst Hla) as (zs & za & Hzs & Hza & Hsm & ->).
  split.
  - intros ([] & [? ?]%validate_rate_ok & ([] & Hc%check_lines_ok & Hout)%bind_ok)%bind_ok.
    destruct (Z.leb_spec (za - signed (fx_side la) (functional_net lines zs)) 0); [done|].
    apply narrow_all in Hout as [Hall Heq]; [|done..].
    do 3 (split; [done|]). split; [by exists (currency (fx_amount first))|]. by eapply closed_translation.
  - intros (Hr & Hm & _ & (spec & Hspec) & Htr).
    destruct (translation_closed _ _ _ _ Hcur zs la za Hzs Hla Hza _ Htr) as [Hcl Hpos].
    rewrite (proj2 (validate_rate_ok rate)) by done. cbn [mbind result_bind].
    assert (currency (fx_amount first) = spec) as -> by by apply (Forall_lookup_1 _ _ _ _ Hspec Hfst).
    rewrite (proj2 (check_lines_ok _ _) Hspec). cbn [mbind result_bind].
    rewrite (proj2 (Z.leb_gt _ _)) by lia. apply narrow_all; [done..|]. split; [apply Htr|done].
Qed.
End translate.

Section witnesses.
Import ConcreteDecimal MoneySamples.

(** 100.00 USD against three thirds at 0.5: the rounded thirds leave a cent. *)
Definition sample_lines : list FxLine :=
  [mkFxLine (usd 10000) Debit; mkFxLine (usd 3333) Credit; mkFxLine (usd 3333) Credit;
   mkFxLine (usd 3334) Credit].

Lemma translate_entry_exact_witness :
  exists out, translate_entry sample_lines (lit 5 1) EUR 0 = Ok out /\
    functional_net sample_lines (posted_units <$> out) = 0.
Proof.
  destruct (is_ok_exists (translate_entry sample_lines (lit 5 1) EUR 0)) as [out Hout]; [vm_compute; reflexivity|].
  exists out. split; [exact Hout|].
  apply (translate_entry_exact sample_lines (lit 5 1) EUR 0 out) in Hout; [|split; discriminate|reflexivity].
  exact (tr_balanced _ _ _ _ _ (proj2 (proj2 (proj2 (proj2 Hout))))).
Defined.

Example translate_sample :
  map posted_units <$> translate_entry sample_lines (lit 5 1) EUR 0
  = Ok (map posted_units [eur 4999; eur 1666; eur 1666; eur 1667]).
Proof. vm_compute. reflexivity. Qed.
End witnesses.
