(* ===== verification/FxClosing.v ===== *)
(** * Realized and unrealized exchange differences:
    [ledger/src/domain/fx/{realized,revaluation,revaluation_mode}.rs]

    Closing a position relieves every grain at its own carried value, pro rata for a
    partial close, and books the net as one gain or loss; the period-end run moves
    every grain to its remeasured value and books the net as one contra line.  The
    file shows the relief to be the carried share, never more than is carried, and
    both results to balance. *)

From S2P Require Import Prelude Decimal Money Exact ExactGrid Allocate Sdk DomainErrors Posting Settlement.
From S2P Require Import FxTranslate.
Local Open Scope Z_scope.

Module RealizedFxError.
Inductive realized_fx_error :=
| NonPositiveCarriedTransaction
| RelievedOutOfRange
| NegativeCarriedFunctional
| Exact (e : ExactError).
End RealizedFxError.
Abbreviation RealizedFxError := RealizedFxError.realized_fx_error.

Module RevaluationError.
Inductive revaluation_error :=
| NegativeCarriedFunctional
| NegativeRemeasured
| Exact (e : ExactError).
End RevaluationError.
Abbreviation RevaluationError := RevaluationError.revaluation_error.

(** ** The mode and the scopes *)

Inductive RevaluationMode := ModeA | ModeB.

Inductive RevaluationModeError := UnknownMode (text : string).

Definition mode_as_str (m : RevaluationMode) : string :=
  match m with ModeA => "MODE_A" | ModeB => "MODE_B" end.

Definition mode_parse (s : string) : result RevaluationModeError RevaluationMode :=
  if bool_decide (s = "MODE_A"%string) then Ok ModeA
  else if bool_decide (s = "MODE_B"%string) then Ok ModeB
  else Err (UnknownMode s).

Definition revalues (m : RevaluationMode) : bool := match m with ModeB => true | ModeA => false end.

Definition fleet_default (global_revaluation_enabled : bool) : RevaluationMode :=
  if global_revaluation_enabled then ModeB else ModeA.

Lemma mode_parse_ok s m : mode_parse s = Ok m <-> s = mode_as_str m.
Proof. unfold mode_parse. repeat case_bool_decide; destruct m; cbn; naive_solver. Qed.

Inductive RevaluationScope := ScopeAr | ScopeUnallocated | ScopeReusableCredit.

Definition normal_side (s : RevaluationScope) : Side :=
  match s with ScopeAr => Debit | ScopeUnallocated | ScopeReusableCredit => Credit end.

Definition as_token (s : RevaluationScope) : string :=
  match s with
  | ScopeAr => "AR"
  | ScopeUnallocated => "UNALLOCATED"
  | ScopeReusableCredit => "REUSABLE_CREDIT"
  end.

Definition all_scopes : list RevaluationScope := [ScopeAr; ScopeUnallocated; ScopeReusableCredit].

Section closing.
Context `{RustDecimal}.

(** ** Realized differences *)

Record ClosingLeg := mkClosingLeg {
  leg_side : Side;
  leg_carried_functional : PostedMoney;
  leg_carried_transaction : PostedMoney;
  leg_relieved_transaction : PostedMoney;
}.

Record RealizedFxLine := mkRealizedFxLine {
  rl_side : Side;
  rl_functional : PostedMoney;
}.

Record RealizedFx := mkRealizedFx {
  leg_functional : list PostedMoney;
  fx_line : option RealizedFxLine;
}.

Definition carried_relief (carried_functional carried_transaction relieved_transaction : PostedMoney) :
    result RealizedFxError PostedMoney :=
  _ ← map_err RealizedFxError.Exact
        (ensure_same_spec (currency carried_transaction) (currency relieved_transaction));
  if dec_leb (amount carried_transaction) ZERO
  then Err RealizedFxError.NonPositiveCarriedTransaction
  else if dec_leb (amount relieved_transaction) ZERO
          || dec_ltb (amount carried_transaction) (amount relieved_transaction)
  then Err RealizedFxError.RelievedOutOfRange
  else if dec_ltb (amount carried_functional) ZERO
  then Err RealizedFxError.NegativeCarriedFunctional
  else if dec_eqb (amount relieved_transaction) (amount carried_transaction)
  then Ok carried_functional
  else map_err RealizedFxError.Exact
    (v ← checked_mul (from_decimal (amount carried_functional)) (from_decimal (amount relieved_transaction));
     v ← checked_div v (from_decimal (amount carried_transaction));
     round_half_even v (currency carried_functional)).

(** Positive money for a difference, on one side when it is positive and on the other
    when it is negative: the block of [realize], [adjust_leg] and [remeasure]. *)
Definition difference_line (positive negative : Side) (delta : ExactAmount) (spec : CurrencySpec) :
    result ExactError (option (Side * PostedMoney)) :=
  if exact_eqb delta (from_decimal ZERO) then Ok None
  else
    '(side, magnitude) ← (if is_negative delta
                          then (m ← checked_sub (from_decimal ZERO) delta; Ok (negative, m))
                          else Ok (positive, delta));
    functional ← into_posted_exact magnitude spec;
    Ok (Some (side, functional)).

(** A negative net needs a debit, a positive one a credit. *)
Definition balancing (net : ExactAmount) (spec : CurrencySpec) :
    result ExactError (option (Side * PostedMoney)) := difference_line Credit Debit net spec.

(** One turn of the second loop of [realize]. *)
Definition realize_step (acc : list PostedMoney * ExactAmount) (leg : ClosingLeg) :
    result RealizedFxError (list PostedMoney * ExactAmount) :=
  let '(leg_functional, net) := acc in
  f ← carried_relief (leg_carried_functional leg) (leg_carried_transaction leg)
        (leg_relieved_transaction leg);
  net ← map_err RealizedFxError.Exact (net_step (leg_side leg) net (from_decimal (amount f)));
  Ok (leg_functional ++ [f], net).

(** Without legs the loops do nothing and the net is zero. *)
Definition realize (legs : list ClosingLeg) : result RealizedFxError RealizedFx :=
  match legs with
  | [] => Ok (mkRealizedFx [] None)
  | first :: _ =>
      let spec := currency (leg_carried_functional first) in
      _ ← fold_res (fun _ leg => map_err RealizedFxError.Exact
            (ensure_same_spec spec (currency (leg_carried_functional leg)))) tt legs;
      '(leg_functional, net) ← fold_res realize_step ([], from_decimal ZERO) legs;
      line ← map_err RealizedFxError.Exact (balancing net spec);
      Ok (mkRealizedFx leg_functional ((fun sp => mkRealizedFxLine (fst sp) (snd sp)) <$> line))
  end.

(** ** Unrealized differences *)

Record RevaluationPosition := mkRevaluationPosition {
  pos_normal_side : Side;
  pos_carried_functional : PostedMoney;
  pos_remeasured_functional : PostedMoney;
}.

Record RevaluationLine := mkRevaluationLine {
  rv_side : Side;
  rv_functional : PostedMoney;
}.

Record Revaluation := mkRevaluation {
  grain_lines : list (option RevaluationLine);
  fx_unrealized : option RevaluationLine;
}.

Definition revaluation_is_empty (r : Revaluation) : bool :=
  forallb (fun l => negb (bool_decide (is_Some l))) (grain_lines r)
  && negb (bool_decide (is_Some (fx_unrealized r))).

Definition opposite (side : Side) : Side :=
  match side with Debit => Credit | Credit => Debit end.

Definition adjust_leg (pos : RevaluationPosition) : result RevaluationError (option RevaluationLine) :=
  let carried := pos_carried_functional pos in
  let remeasured := pos_remeasured_functional pos in
  _ ← map_err RevaluationError.Exact (ensure_same_spec (currency carried) (currency remeasured));
  if dec_ltb (amount carried) ZERO then Err RevaluationError.NegativeCarriedFunctional
  else if dec_ltb (amount remeasured) ZERO then Err RevaluationError.NegativeRemeasured
  else map_err RevaluationError.Exact
    (delta ← checked_sub (from_decimal (amount remeasured)) (from_decimal (amount carried));
     line ← difference_line (pos_normal_side pos) (opposite (pos_normal_side pos)) delta (currency carried);
     Ok (fmap (M := option) (fun sp => mkRevaluationLine (fst sp) (snd sp)) line)).

(** One turn of the second loop of [remeasure]. *)
Definition remeasure_step (acc : list (option RevaluationLine) * ExactAmount) (pos : RevaluationPosition) :
    result RevaluationError (list (option RevaluationLine) * ExactAmount) :=
  let '(grain_lines, net) := acc in
  leg ← adjust_leg pos;
  net ← match leg with
        | Some line => map_err RevaluationError.Exact
            (net_step (rv_side line) net (from_decimal (amount (rv_functional line))))
        | None => Ok net
        end;
  Ok (grain_lines ++ [leg], net).

Definition remeasure (positions : list RevaluationPosition) : result RevaluationError Revaluation :=
  match positions with
  | [] => Ok (mkRevaluation [] None)
  | first :: _ =>
      let spec := currency (pos_carried_functional first) in
      _ ← fold_res (fun _ pos => map_err RevaluationError.Exact
            (_ ← ensure_same_spec spec (currency (pos_carried_functional pos));
             ensure_same_spec (currency (pos_carried_functional pos))
               (currency (pos_remeasured_functional pos)))) tt positions;
      '(grain_lines, net) ← fold_res remeasure_step ([], from_decimal ZERO) positions;
      line ← map_err RevaluationError.Exact (balancing net spec);
      Ok (mkRevaluation grain_lines ((fun sp => mkRevaluationLine (fst sp) (snd sp)) <$> line))
  end.

(** ** Relief *)

Lemma ensure_same_spec_ok a b : ensure_same_spec a b = Ok tt <-> a = b.
Proof. unfold ensure_same_spec. rewrite map_err_ok. apply ensure_same_ok. Qed.

(** [p] is the share of the carried functional value for the relieved amount: all of
    it on a full close, else the exact proportion rounded half-even. *)
Definition relief_of (cf ct rt p : PostedMoney) : Prop :=
  if posted_units rt =? posted_units ct then p = cf
  else posted_ok p /\ currency p = currency cf /\
    exists k, half_even (posted_units cf * posted_units rt) (posted_units ct * increment cf) k /\
      posted_units p = k * increment cf.

Lemma share_relief cf ct rt p : posted_ok cf -> 0 <= posted_units cf ->
  0 < posted_units rt < posted_units ct ->
  share_of cf (from_decimal (amount ct)) (amount rt) = Ok p <->
  posted_ok p /\ currency p = currency cf /\
  exists k, half_even (posted_units cf * posted_units rt) (posted_units ct * increment cf) k /\
    posted_units p = k * increment cf.
Proof.
  intros Hcf Hpos Hr. pose proof (posted_units_small ct) as Hct.
  destruct (share_of_units cf (posted_units ct) (amount rt)) as (k & Hk & Hsh); [apply Hcf|lia|].
  rewrite from_decimal_units. fold (posted_units ct) (posted_units rt) in *. rewrite Hsh.
  assert (Hinc : 0 < increment cf).
  { destruct Hcf as [Hcur _]. unfold increment, currency_ok in *. apply pow10_pos. lia. }
  destruct (posted_units_grid cf Hcf) as [c Hc]. fold (increment cf) in Hc.
  assert (Hb : 0 <= k * increment cf <= posted_units cf).
  { apply (half_even_between (posted_units rt) (posted_units cf) (posted_units ct) _ k c); [lia|done|lia|lia|done|].
    by rewrite Z.mul_comm. }
  pose proof (posted_units_small cf) as Hcs.
  rewrite into_posted_units; [|apply (small_bound _ 1); lia|apply Hcf]. split.
  - intros (? & ? & Hu). split; [done|]. split; [done|]. by exists k.
  - intros (? & ? & k' & Hk' & Hu). split; [done|]. split; [done|]. rewrite Hu. f_equal.
    eapply half_even_unique; [|exact Hk'|exact Hk]. nia.
Qed.

Lemma relief_bounds cf ct rt p : posted_ok cf -> 0 < posted_units rt <= posted_units ct ->
  0 <= posted_units cf -> relief_of cf ct rt p -> 0 <= posted_units p <= posted_units cf.
Proof.
  intros Hcf Hr Hpos. unfold relief_of.
  destruct (Z.eqb_spec (posted_units rt) (posted_units ct)); [intros ->; lia|]. intros (_ & _ & k & Hk & ->).
  destruct (posted_units_grid cf Hcf) as [c Hc].
  apply (half_even_between (posted_units rt) (posted_units cf) (posted_units ct) _ k c); try done; try lia.
  - destruct Hcf as [Hcur _]. unfold increment, currency_ok in *. apply pow10_pos. lia.
  - by rewrite Z.mul_comm.
Qed.

Lemma carried_relief_ok cf ct rt p : posted_ok cf ->
  carried_relief cf ct rt = Ok p <->
  currency ct = currency rt /\ 0 < posted_units rt <= posted_units ct /\ 0 <= posted_units cf /\
  relief_of cf ct rt p.
Proof.
  intros Hcf. unfold carried_relief, relief_of. rewrite bind_ok. setoid_rewrite map_err_ok. split.
  - intros ([] & Hs%ensure_same_spec_ok & Hrun). posted_guards. rewrite dec_eqb_units in Hrun.
    fold (posted_units rt) (posted_units ct) in Hrun.
    destruct (Z.leb_spec (posted_units ct) 0); [done|]. destruct (Z.leb_spec (posted_units rt) 0); [done|].
    destruct (Z.ltb_spec (posted_units ct) (posted_units rt)); [done|]. cbn [orb] in Hrun.
    destruct (Z.ltb_spec (posted_units cf) 0); [done|]. split; [done|]. split; [lia|]. split; [done|].
    destruct (Z.eqb_spec (posted_units rt) (posted_units ct)); [by injection Hrun|].
    apply map_err_ok, share_relief in Hrun; [done|done|lia|lia].
  - intros (Hs & Hr & Hpos & Hp). exists tt. split; [by apply ensure_same_spec_ok|]. posted_guards.
    rewrite dec_eqb_units. fold (posted_units rt) (posted_units ct).
    rewrite (proj2 (Z.leb_gt (posted_units ct) 0)), (proj2 (Z.leb_gt (posted_units rt) 0)),
      (proj2 (Z.ltb_ge (posted_units ct) (posted_units rt))), (proj2 (Z.ltb_ge (posted_units cf) 0)) by lia. cbn [orb].
    destruct (Z.eqb_spec (posted_units rt) (posted_units ct)); [by rewrite Hp|].
    apply map_err_ok, share_relief; [done|lia|lia|done].
Qed.

(** Relief is the carried share.  [carried_relief] succeeds exactly on one
    transaction currency, a positive relief of at most the carried amount, a carried
    functional value that is not negative, and a representable share.  It returns that
    share: all that is carried on a full close, else the exact proportion rounded
    half-even; in either case between zero and what is carried. *)
Theorem carried_relief_exact cf ct rt p : posted_ok cf ->
  (carried_relief cf ct rt = Ok p <->
   currency ct = currency rt /\ 0 < posted_units rt <= posted_units ct /\ 0 <= posted_units cf /\
   relief_of cf ct rt p) /\
  (carried_relief cf ct rt = Ok p -> 0 <= posted_units p <= posted_units cf).
Proof.
  intros Hcf. split; [by apply carried_relief_ok|]. intros (_ & Hr & Hpos & Hp)%carried_relief_ok; [|done].
  by eapply relief_bounds.
Qed.

(** ** Balancing *)

(** The line that carries [z] units: none for zero, else positive money of the
    currency whose signed value, read as [value side], is [z]. *)
Definition carries (value : Side -> Z -> Z) (z : Z) (spec : CurrencySpec) (line : option (Side * PostedMoney)) : Prop :=
  match line with
  | None => z = 0
  | Some (side, p) =>
      posted_ok p /\ currency p = spec /\ 0 < posted_units p /\ value side (posted_units p) = z
  end.

(** A debit counts positively from [positive] debit, negatively from credit. *)
Definition seen_from (positive side : Side) (z : Z) : Z := signed positive (signed side z).

Lemma difference_line_ok positive negative z spec line : small z -> currency_ok spec -> negative <> positive ->
  difference_line positive negative (of_units z) spec = Ok line <-> carries (seen_from positive) z spec line.
Proof.
  intros Hz Hcur Hsides. unfold difference_line. rewrite from_decimal_units, units_ZERO, exact_eqb_units, is_negative_units.
  assert (Hneg : small (0 - z)) by (unfold small in *; lia). assert (H0z : small 0) by by vm_compute.
  destruct (Z.eqb_spec z 0) as [->|Hne].
  { split; [by intros [= <-]|]. destruct line as [[side p]|]; cbn; [|done]. unfold seen_from.
    destruct positive, side; cbn; lia. }
  assert (Hline : forall side m, m = Z.abs z -> seen_from positive side m = z ->
    (functional ← into_posted_exact (of_units m) spec; Ok (Some (side, functional))) = Ok line <->
    carries (seen_from positive) z spec line).
  { intros side m Hm Hv. assert (Hms : small m) by (unfold small in *; lia). rewrite bind_ok. split.
    - intros (p & (? & ? & Hu)%into_posted_units & [= <-]); [|done..]. cbn. rewrite Hu.
      split; [done|]. split; [done|]. split; [lia|done].
    - destruct line as [[side' p]|]; cbn; [|done]. intros (? & ? & Hp & Hs).
      assert (side = side' /\ posted_units p = m) as [<- Hu]
        by (unfold seen_from in *; destruct positive, side, side'; cbn in *; split; try done; lia).
      exists p. split; [by apply into_posted_units|done]. }
  destruct (Z.ltb_spec z 0).
  - rewrite checked_sub_units by done. cbn [mbind result_bind].
    apply Hline; [lia|]. unfold seen_from. destruct positive, negative; cbn; lia || done.
  - cbn [mbind result_bind]. apply Hline; [lia|]. unfold seen_from. destruct positive; cbn; lia.
Qed.

(** The line that closes a net of [z] units. *)
Definition closes (z : Z) (spec : CurrencySpec) (line : option (Side * PostedMoney)) : Prop :=
  carries signed (- z) spec line.

Lemma balancing_ok z spec line : small z -> currency_ok spec ->
  balancing (of_units z) spec = Ok line <-> closes z spec line.
Proof.
  intros Hz Hcur. unfold balancing. rewrite difference_line_ok by done. unfold closes, carries, seen_from.
  destruct line as [[side p]|]; [|lia]. cbn [signed].
  assert (Hs : - signed side (posted_units p) = z <-> signed side (posted_units p) = - z) by lia. by rewrite Hs.
Qed.

(** ** Loops that collect and net *)

Section net_loop.
Context {E X Y : Type} (step : list Y * ExactAmount -> X -> result E (list Y * ExactAmount)).
Context (P : X -> Prop) (R : X -> Y -> Prop) (value : X -> Y -> Z).
Hypothesis value_bound : forall x y, Z.abs (value x y) <= 10 ^ 100.
Hypothesis step_ok : forall pre net k x acc, P x -> 0 <= k -> k + 1 <= 2 ^ 100 -> Z.abs net <= 10 ^ 100 * k ->
  step (pre, of_units net) x = Ok acc <->
  exists y, R x y /\ acc = (pre ++ [y], of_units (net + value x y)).

Definition net_of_pairs (xs : list X) (ys : list Y) : Z := sum_Z (fun p => value (fst p) (snd p)) (zip xs ys).

Lemma net_of_no_pairs ys : net_of_pairs [] ys = 0.
Proof. done. Qed.

Lemma net_loop xs : Forall P xs -> forall pre net k acc, 0 <= k -> k + Z.of_nat (length xs) <= 2 ^ 100 ->
  Z.abs net <= 10 ^ 100 * k ->
  fold_res step (pre, of_units net) xs = Ok acc <->
  exists ys, Forall2 R xs ys /\ acc = (pre ++ ys, of_units (net + net_of_pairs xs ys)).
Proof.
  induction 1 as [|x xs Hx _ IH]; intros pre net k acc Hk Hlen Hnet; cbn [fold_res length] in *.
  { unfold net_of_pairs. split.
    - intros [= <-]. exists []. cbn [zip zip_with]. rewrite sum_Z_nil, app_nil_r, Z.add_0_r. by split; [constructor|].
    - intros (ys & ->%Forall2_nil_inv_l & ->). cbn [zip zip_with]. by rewrite sum_Z_nil, app_nil_r, Z.add_0_r. }
  rewrite bind_ok. split.
  - intros (acc1 & (y & Hy & ->)%(step_ok pre net k) & Hrest); [|done|lia..]. pose proof (value_bound x y).
    apply (IH _ _ (k + 1)) in Hrest as (ys & Hys & ->); [|lia..]. exists (y :: ys). split; [by constructor|].
    unfold net_of_pairs. cbn [zip zip_with]. by rewrite sum_Z_cons, <- app_assoc, Z.add_assoc.
  - intros (ys' & (y & ys & Hy & Hys & ->)%Forall2_cons_inv_l & ->). pose proof (value_bound x y).
    exists (pre ++ [y], of_units (net + value x y)). split; [apply (step_ok pre net k); [done|lia..|]; by exists y|].
    apply (IH _ _ (k + 1)); [lia..|]. exists ys. split; [done|].
    unfold net_of_pairs. cbn [zip zip_with]. by rewrite sum_Z_cons, <- app_assoc, Z.add_assoc.
Qed.

Lemma net_of_pairs_small xs ys : vec_ok xs -> small (net_of_pairs xs ys).
Proof.
  intros Hv. unfold vec_ok in Hv. assert (2 ^ 64 <= 2 ^ 100) by by vm_compute.
  assert (Hb : Z.abs (net_of_pairs xs ys) <= 10 ^ 100 * Z.of_nat (length xs)).
  { clear Hv. unfold net_of_pairs. revert ys. induction xs as [|x xs IH]; intros [|y ys]; cbn [zip zip_with length];
      [done|done|rewrite sum_Z_nil; lia|]. rewrite sum_Z_cons. cbn [fst snd]. pose proof (value_bound x y). specialize (IH ys). lia. }
  apply (small_net _ _ Hb). lia.
Qed.

(** Collect and net, then close the net. *)
Lemma net_and_close {A} (wrap : ExactError -> E) (result_of : list Y -> option (Side * PostedMoney) -> A) spec xs r :
  currency_ok spec -> vec_ok xs -> Forall P xs ->
  ('(ys, net) ← fold_res step ([], from_decimal ZERO) xs;
   line ← map_err wrap (balancing net spec);
   Ok (result_of ys line)) = Ok r <->
  exists ys line, Forall2 R xs ys /\ closes (net_of_pairs xs ys) spec line /\ r = result_of ys line.
Proof.
  intros Hcur Hvec HP. assert (Hlen : 0 + Z.of_nat (length xs) <= 2 ^ 100).
  { unfold vec_ok in Hvec. assert (2 ^ 64 <= 2 ^ 100) by by vm_compute. lia. }
  rewrite from_decimal_units, units_ZERO, bind_ok. split.
  - intros ([ys net] & (ys' & Hys & [= -> ->])%(net_loop xs HP [] 0 0) & Hline); [|lia..].
    apply bind_ok in Hline as (line & Hl%map_err_ok & [= <-]). rewrite Z.add_0_l in Hl.
    apply balancing_ok in Hl; [|by apply net_of_pairs_small|done]. by exists ys', line.
  - intros (ys & line & Hys & Hl & ->). exists (ys, of_units (net_of_pairs xs ys)). split.
    + apply (net_loop xs HP [] 0 0); [lia..|]. by exists ys.
    + apply bind_ok. exists line. split; [|done]. apply map_err_ok, balancing_ok; [by apply net_of_pairs_small|done..].
Qed.
End net_loop.

Lemma posted_bound p : Z.abs (posted_units p) <= 10 ^ 100.
Proof. pose proof (posted_units_small p). assert (10 ^ 57 < 10 ^ 100) by by vm_compute. lia. Qed.

Lemma net_step_posted side net k p : 0 <= k -> k + 1 <= 2 ^ 100 -> Z.abs net <= 10 ^ 100 * k ->
  net_step side (of_units net) (from_decimal (amount p)) = Ok (of_units (net + signed side (posted_units p))).
Proof.
  intros Hk Hk1 Hnet. rewrite from_decimal_units. fold (posted_units p). pose proof (posted_bound p) as Hp.
  pose proof (signed_bound side _ _ Hp).
  apply net_step_units; [apply (small_net _ k); lia|apply (small_net _ 1); lia|apply (small_net _ (k + 1)); lia].
Qed.

(** ** Realized differences balance *)

Definition leg_relief (leg : ClosingLeg) (f : PostedMoney) : Prop :=
  carried_relief (leg_carried_functional leg) (leg_carried_transaction leg) (leg_relieved_transaction leg) = Ok f.

Definition leg_value (leg : ClosingLeg) (f : PostedMoney) : Z := signed (leg_side leg) (posted_units f).

Lemma realize_step_ok pre net k leg acc : True -> 0 <= k -> k + 1 <= 2 ^ 100 -> Z.abs net <= 10 ^ 100 * k ->
  realize_step (pre, of_units net) leg = Ok acc <->
  exists f, leg_relief leg f /\ acc = (pre ++ [f], of_units (net + leg_value leg f)).
Proof.
  intros _ Hk Hk1 Hnet. unfold realize_step, leg_relief, leg_value. rewrite bind_ok. f_equiv. intros f.
  rewrite (net_step_posted _ _ k) by done. cbn [map_err mbind result_bind]. naive_solver.
Qed.

Lemma leg_bound leg f : Z.abs (leg_value leg f) <= 10 ^ 100.
Proof. apply signed_bound, posted_bound. Qed.

Lemma realize_check_ok spec legs :
  fold_res (fun _ leg => map_err RealizedFxError.Exact
    (ensure_same_spec spec (currency (leg_carried_functional leg)))) tt legs = Ok tt <->
  Forall (fun leg => currency (leg_carried_functional leg) = spec) legs.
Proof. apply unit_loop. intros leg. rewrite map_err_ok, ensure_same_spec_ok. by split. Qed.

Definition realized_pair (l : RealizedFxLine) : Side * PostedMoney := (rl_side l, rl_functional l).

(** Nothing is netted when there is nothing. *)
Lemma closes_nothing {A} (pair : A -> Side * PostedMoney) spec (line : option A) :
  closes 0 spec (pair <$> line) -> line = None.
Proof. destruct line as [l|]; [|done]. cbn. destruct (pair l) as [[] p]; unfold closes; cbn; lia. Qed.

(** A close realizes its difference.  [realize] succeeds exactly when the legs
    share one functional currency, every leg can be relieved, and the balancing line
    is representable; it returns the relief of every leg in order and, when their net
    is not zero, one positive gain or loss on the side that brings the functional
    column to zero. *)
Theorem realize_exact legs r : vec_ok legs ->
  Forall (fun leg => posted_ok (leg_carried_functional leg)) legs ->
  realize legs = Ok r <->
  (exists spec, Forall (fun leg => currency (leg_carried_functional leg) = spec) legs /\
     closes (net_of_pairs leg_value legs (leg_functional r)) spec (realized_pair <$> fx_line r)) /\
  Forall2 leg_relief legs (leg_functional r).
Proof.
  intros Hvec Hok. unfold realize. destruct legs as [|first rest].
  { split; [intros [= <-]; split; [by exists (mkCurrencySpec EmptyString 0)|constructor]|].
    intros ((spec & _ & Hc%closes_nothing) & Hf%Forall2_nil_inv_l). destruct r. cbn in *. by subst. }
  set (legs := first :: rest) in *. set (spec := currency (leg_carried_functional first)).
  assert (Hcur : currency_ok spec) by (inversion Hok as [|? ? Hf _]; apply Hf).
  rewrite bind_ok. split.
  - intros ([] & Hs%realize_check_ok & Hrun).
    apply (net_and_close _ _ _ _ leg_bound realize_step_ok) in Hrun as (ys & line & Hys & Hc & ->); [|done|done|by apply Forall_true].
    split; [|done]. exists spec. split; [done|]. by destruct line as [[side p]|].
  - intros ((spec' & Hs & Hc) & Hf). assert (spec' = spec) as -> by by inversion Hs.
    exists tt. split; [by apply realize_check_ok|].
    apply (net_and_close _ _ _ _ leg_bound realize_step_ok); [done|done|by apply Forall_true|].
    exists (leg_functional r), (realized_pair <$> fx_line r). split; [done|]. split; [done|].
    by destruct r as [fs [[side p]|]].
Qed.

(** ** Unrealized differences balance *)

(** The line of a grain moves its carried value to the remeasured one. *)
Definition moves (pos : RevaluationPosition) (leg : option RevaluationLine) : Prop :=
  let carried := pos_carried_functional pos in
  let remeasured := pos_remeasured_functional pos in
  currency carried = currency remeasured /\ 0 <= posted_units carried /\ 0 <= posted_units remeasured /\
  carries (seen_from (pos_normal_side pos)) (posted_units remeasured - posted_units carried) (currency carried)
    ((fun l => (rv_side l, rv_functional l)) <$> leg).

Lemma adjust_leg_ok pos leg : currency_ok (currency (pos_carried_functional pos)) ->
  adjust_leg pos = Ok leg <-> moves pos leg.
Proof.
  intros Hcur. unfold adjust_leg, moves. rewrite !from_decimal_units.
  fold (posted_units (pos_remeasured_functional pos)) (posted_units (pos_carried_functional pos)).
  pose proof (posted_units_small (pos_remeasured_functional pos)) as Hm.
  pose proof (posted_units_small (pos_carried_functional pos)) as Hc.
  rewrite checked_sub_units by (apply (small_bound _ 2); lia || done). cbn [mbind result_bind]. rewrite bind_ok.
  posted_guards.
  set (c := posted_units (pos_carried_functional pos)) in *. set (m := posted_units (pos_remeasured_functional pos)) in *.
  assert (Hsm : small (m - c)) by (apply (small_bound _ 2); lia || done).
  assert (Hop : opposite (pos_normal_side pos) <> pos_normal_side pos) by by destruct (pos_normal_side pos).
  split.
  - intros ([] & Hs%map_err_ok%ensure_same_spec_ok & Hrun). destruct (Z.ltb_spec c 0); [done|].
    destruct (Z.ltb_spec m 0); [done|]. apply map_err_ok, bind_ok in Hrun as (line & Hl & [= <-]).
    apply difference_line_ok in Hl; [|done..]. do 3 (split; [done|]). by destruct line as [[side p]|].
  - intros (Hs & Hc0 & Hm0 & Hl). exists tt. split; [by apply map_err_ok, ensure_same_spec_ok|].
    rewrite !(proj2 (Z.ltb_ge _ _)) by done. apply map_err_ok, bind_ok.
    exists ((fun l => (rv_side l, rv_functional l)) <$> leg). split; [by apply difference_line_ok|].
    by destruct leg as [[side p]|].
Qed.

Definition grain_value (pos : RevaluationPosition) (leg : option RevaluationLine) : Z :=
  match leg with Some line => signed (rv_side line) (posted_units (rv_functional line)) | None => 0 end.

Lemma grain_bound pos leg : Z.abs (grain_value pos leg) <= 10 ^ 100.
Proof. destruct leg; cbn; [apply signed_bound, posted_bound|done]. Qed.

Lemma remeasure_step_ok pre net k pos acc : currency_ok (currency (pos_carried_functional pos)) ->
  0 <= k -> k + 1 <= 2 ^ 100 -> Z.abs net <= 10 ^ 100 * k ->
  remeasure_step (pre, of_units net) pos = Ok acc <->
  exists leg, moves pos leg /\ acc = (pre ++ [leg], of_units (net + grain_value pos leg)).
Proof.
  intros Hcur Hk Hk1 Hnet. unfold remeasure_step. rewrite bind_ok. f_equiv. intros leg.
  rewrite <- adjust_leg_ok by done. destruct leg as [line|]; cbn [grain_value].
  - rewrite (net_step_posted _ _ k) by done. cbn [map_err mbind result_bind]. naive_solver.
  - rewrite Z.add_0_r. cbn [mbind result_bind]. naive_solver.
Qed.

Lemma remeasure_check_ok spec positions :
  fold_res (fun _ pos => map_err RevaluationError.Exact
    (_ ← ensure_same_spec spec (currency (pos_carried_functional pos));
     ensure_same_spec (currency (pos_carried_functional pos)) (currency (pos_remeasured_functional pos)))) tt positions = Ok tt <->
  Forall (fun pos => currency (pos_carried_functional pos) = spec /\
                     currency (pos_remeasured_functional pos) = spec) positions.
Proof.
  apply unit_loop. intros pos. rewrite map_err_ok, bind_ok. split.
  - intros ([] & ->%ensure_same_spec_ok & ->%ensure_same_spec_ok). done.
  - intros [Hc Hr]. exists tt. by rewrite !ensure_same_spec_ok, Hc, Hr.
Qed.

Definition revalued_pair (l : RevaluationLine) : Side * PostedMoney := (rv_side l, rv_functional l).

(** Revaluation moves every grain to its remeasured value.  [remeasure] succeeds
    exactly when all values are of one currency and not negative and the lines are
    representable.  Each grain whose value changes gets one positive line that moves
    it from the carried to the remeasured value, the others get none, and one contra
    line, if the movements do not cancel, brings the column to zero. *)
Theorem remeasure_exact positions r : vec_ok positions ->
  Forall (fun pos => posted_ok (pos_carried_functional pos)) positions ->
  remeasure positions = Ok r <->
  (exists spec, Forall (fun pos => currency (pos_carried_functional pos) = spec) positions /\
     closes (net_of_pairs grain_value positions (grain_lines r)) spec (revalued_pair <$> fx_unrealized r)) /\
  Forall2 moves positions (grain_lines r).
Proof.
  intros Hvec Hok. unfold remeasure. destruct positions as [|first rest].
  { split; [intros [= <-]; split; [by exists (mkCurrencySpec EmptyString 0)|constructor]|].
    intros ((spec & _ & Hc%closes_nothing) & Hf%Forall2_nil_inv_l). destruct r. cbn in *. by subst. }
  set (positions := first :: rest) in *. set (spec := currency (pos_carried_functional first)).
  assert (Hcur : currency_ok spec) by (inversion Hok as [|? ? Hf _]; apply Hf).
  assert (Hall : Forall (fun pos => currency_ok (currency (pos_carried_functional pos))) positions)
    by (eapply Forall_impl; [exact Hok|]; by intros pos [? _]).
  rewrite bind_ok. split.
  - intros ([] & Hs%remeasure_check_ok & Hrun).
    apply (net_and_close _ _ _ _ grain_bound remeasure_step_ok) in Hrun as (ys & line & Hys & Hc & ->); [|done..].
    split; [|done]. exists spec. split; [by eapply Forall_impl; [exact Hs|]; intros ? []|]. by destruct line as [[side p]|].
  - intros ((spec' & Hs & Hc) & Hf). assert (spec' = spec) as -> by by inversion Hs.
    exists tt. split.
    + apply remeasure_check_ok, Forall_lookup_2. intros i pos Hi. pose proof (Forall_lookup_1 _ _ _ _ Hs Hi) as Hp.
      destruct (Forall2_lookup_l _ _ _ _ _ Hf Hi) as (leg & _ & Hm & _). cbn beta in Hp. split; [done|congruence].
    + apply (net_and_close _ _ _ _ grain_bound remeasure_step_ok); [done..|].
      exists (grain_lines r), (revalued_pair <$> fx_unrealized r). split; [done|]. split; [done|].
      by destruct r as [fs [[side p]|]].
Qed.
End closing.

Section witnesses.
Import ConcreteDecimal MoneySamples.

(** 90.00 EUR carried for 100.00 USD, of which 33.33 USD are relieved. *)
Lemma carried_relief_exact_witness :
  exists p, carried_relief (eur 9000) (usd 10000) (usd 3333) = Ok p /\
    0 <= posted_units p <= posted_units (eur 9000).
Proof.
  destruct (is_ok_exists (carried_relief (eur 9000) (usd 10000) (usd 3333))) as [p Hp]; [vm_compute; reflexivity|].
  exists p. split; [exact Hp|].
  exact (proj2 (carried_relief_exact (eur 9000) (usd 10000) (usd 3333) p (eur_ok 9000 eq_refl)) Hp).
Defined.

(** Cash at 95.00 EUR against a receivable carried at 90.00 EUR: a gain of 5.00. *)
Definition sample_legs : list ClosingLeg :=
  [mkClosingLeg Debit (eur 9500) (usd 10000) (usd 10000);
   mkClosingLeg Credit (eur 9000) (usd 10000) (usd 10000)].

Lemma realize_exact_witness :
  exists r, realize sample_legs = Ok r /\ Forall2 leg_relief sample_legs (leg_functional r).
Proof.
  destruct (is_ok_exists (realize sample_legs)) as [r Hr]; [vm_compute; reflexivity|].
  exists r. split; [exact Hr|]. apply (realize_exact sample_legs r) in Hr as [_ Hf]; [exact Hf|reflexivity|].
  repeat (apply Forall_cons_2; [apply eur_ok; reflexivity|]). apply Forall_nil_2.
Defined.

Example realize_sample :
  (fun r => ((fun l => (rl_side l, posted_units (rl_functional l))) <$> fx_line r)) <$> realize sample_legs
  = Ok (Some (Credit, posted_units (eur 500))).
Proof. vm_compute. reflexivity. Qed.

(** A receivable gains 2.00, a wallet loses 0.50. *)
Definition sample_positions : list RevaluationPosition :=
  [mkRevaluationPosition Debit (eur 9000) (eur 9200); mkRevaluationPosition Credit (eur 500) (eur 450);
   mkRevaluationPosition Debit (eur 0) (eur 0)].

Lemma remeasure_exact_witness :
  exists r, remeasure sample_positions = Ok r /\ Forall2 moves sample_positions (grain_lines r).
Proof.
  destruct (is_ok_exists (remeasure sample_positions)) as [r Hr]; [vm_compute; reflexivity|].
  exists r. split; [exact Hr|]. apply (remeasure_exact sample_positions r) in Hr as [_ Hf]; [exact Hf|reflexivity|].
  repeat (apply Forall_cons_2; [apply eur_ok; reflexivity|]). apply Forall_nil_2.
Defined.

Example remeasure_sample :
  (fun r => ((fun l => (rv_side l, posted_units (rv_functional l))) <$> fx_unrealized r)) <$> remeasure sample_positions
  = Ok (Some (Credit, posted_units (eur 250))).
Proof. vm_compute. reflexivity. Qed.
End witnesses.
