(* ===== verification/Period.v ===== *)
(** * Fiscal periods: [ledger/src/domain/period.rs]

    A period id is the text [YYYYMM].  The file models its arithmetic as written,
    with Rust's integer parsing and padded printing, and relates it to month numbers:
    on well-formed ids up to the year 9999 the functions add and subtract months,
    undo each other, and the order of the texts is the order of time.  Outside that
    range they accept more than [YYYYMM]: [parse] takes a sign, so ["2026+1"] counts
    as January, and a year past 9999 prints with five digits. *)

From Stdlib Require Import Ascii.
From S2P Require Import Prelude Decimal Money ExactGrid DomainErrors MoneyText Sdk.
Local Open Scope Z_scope.

(** [str::parse] for an unsigned integer: an optional plus sign and digits; the texts
    parsed here are too short to overflow. *)
Definition parse_digits (b : list ascii) : option Z :=
  if negb (bool_decide (b = [])) && forallb is_ascii_digit b then Some (digits_value b) else None.

Definition parse_u32 (b : list ascii) : option Z :=
  match b with
  | "+"%char :: rest => parse_digits rest
  | _ => parse_digits b
  end.

(** A signed integer may also have a minus sign. *)
Definition parse_i32 (b : list ascii) : option Z :=
  match b with
  | "-"%char :: rest => Z.opp <$> parse_digits rest
  | _ => parse_u32 b
  end.

(** [{:0width}]: zeros between the sign and the digits, up to the width. *)
Definition padded (width : nat) (z : Z) : list ascii :=
  let digits := int_digits 20 (Z.abs z) in
  let sign := if z <? 0 then ["-"%char] else [] in
  sign ++ repeat "0"%char (width - length sign - length digits) ++ digits.

Definition format_period (year month : Z) : string :=
  String.string_of_list_ascii (padded 4 year ++ padded 2 month).

(** The guards the functions of [period.rs] share: six bytes, a year, a month in
    range.  A slice that is not on a character boundary is not a number either. *)
Definition parse_period (period_id : string) : option (Z * Z) :=
  let b := bytes period_id in
  if negb (bool_decide (length b = 6%nat)) then None
  else
    year ← parse_i32 (take 4 b);
    month ← parse_u32 (drop 4 b);
    if negb ((1 <=? month) && (month <=? 12)) then None else Some (year, month).

Definition next_period_id (period_id : string) : option string :=
  '(year, month) ← parse_period period_id;
  let '(next_year, next_month) := if month =? 12 then (year + 1, 1) else (year, month + 1) in
  Some (format_period next_year next_month).

Definition period_id_plus (period_id : string) (k : Z) : option string :=
  '(year, month) ← parse_period period_id;
  let total := year * 12 + (month - 1) + k in
  Some (format_period (total / 12) (total mod 12 + 1)).

Definition previous_period_id (period_id : string) : option string :=
  '(year, month) ← parse_period period_id;
  let '(prev_year, prev_month) := if month =? 1 then (year - 1, 12) else (year, month - 1) in
  Some (format_period prev_year prev_month).

(** ** Periods as month numbers *)

(** The period that is [n] months after January of the year 0. *)
Definition period_of (n : Z) : string := format_period (n / 12) (n mod 12 + 1).

(** The months of the years 0 to 9999. *)
Definition in_calendar (n : Z) : Prop := 0 <= n < 120000.

Lemma fixed_digits_zero k : fixed_digits k 0 = repeat "0"%char k.
Proof.
  induction k as [|k IH]; [done|]. cbn [fixed_digits]. change (0 / 10) with 0. rewrite IH.
  change [digit (0 mod 10)] with (repeat "0"%char 1). by rewrite <- repeat_app, Nat.add_1_r.
Qed.

(** Fixed width is the shortest form with zeros in front. *)
Lemma fixed_digits_padded fuel : forall w n, (0 < w <= fuel)%nat -> 0 <= n < 10 ^ Z.of_nat w ->
  (length (int_digits fuel n) <= w)%nat /\
  fixed_digits w n = repeat "0"%char (w - length (int_digits fuel n)) ++ int_digits fuel n.
Proof.
  induction fuel as [|fuel IH]; intros w n Hw Hn; [lia|]. destruct w as [|w]; [lia|]. cbn [int_digits fixed_digits].
  destruct (Z.ltb_spec n 10).
  - cbn [length]. split; [lia|]. replace (n / 10) with 0 by (symmetry; apply Z.div_small; lia).
    rewrite fixed_digits_zero, Z.mod_small by lia. by replace (S w - 1)%nat with w by lia.
  - rewrite Nat2Z.inj_succ, Z.pow_succ_r in Hn by lia. destruct w as [|w]; [cbn in Hn; lia|].
    destruct (IH (S w) (n / 10)) as [Hl Hf]; [lia|split; [apply Z.div_pos; lia|apply Z.div_lt_upper_bound; lia]|].
    rewrite Hf, length_app, <- app_assoc. cbn [length]. split; [lia|]. f_equal. f_equal. lia.
Qed.

Lemma padded_fixed w z : (0 < w <= 20)%nat -> 0 <= z < 10 ^ Z.of_nat w -> padded w z = fixed_digits w z.
Proof.
  intros Hw Hz. unfold padded. rewrite (proj2 (Z.ltb_ge z 0)), Z.abs_eq by lia.
  destruct (fixed_digits_padded 20 w z Hw Hz) as [_ ->]. cbn [length app]. by rewrite Nat.sub_0_r.
Qed.

Lemma parse_digits_ok b : all_digits b -> b <> [] -> parse_digits b = Some (digits_value b).
Proof.
  intros Hd Hne. unfold parse_digits. rewrite bool_decide_false by done.
  apply all_digits_forallb in Hd. by rewrite Hd.
Qed.

Lemma parse_u32_digits b : all_digits b -> b <> [] -> parse_u32 b = Some (digits_value b).
Proof.
  intros Hd Hne. destruct b as [|c b]; [done|]. rewrite <- (parse_digits_ok (c :: b)) by done.
  pose proof Hd as [Hc _]%Forall_cons. unfold parse_u32. repeat (case_match; try done).
Qed.

Lemma parse_i32_digits b : all_digits b -> b <> [] -> parse_i32 b = Some (digits_value b).
Proof.
  intros Hd Hne. rewrite <- parse_u32_digits by done. destruct b as [|c b]; [done|].
  pose proof Hd as [Hc _]%Forall_cons. unfold parse_i32. repeat (case_match; try done).
Qed.

Lemma format_period_bytes year month : 0 <= year < 10000 -> 1 <= month <= 12 ->
  bytes (format_period year month) = fixed_digits 4 year ++ fixed_digits 2 month.
Proof.
  intros Hy Hm. unfold bytes, format_period. rewrite String.list_ascii_of_string_of_list_ascii.
  rewrite !padded_fixed; [done|lia|change (10 ^ Z.of_nat 2) with 100; lia|lia|change (10 ^ Z.of_nat 4) with 10000; lia].
Qed.

Lemma parse_format year month : 0 <= year < 10000 -> 1 <= month <= 12 ->
  parse_period (format_period year month) = Some (year, month).
Proof.
  intros Hy Hm. unfold parse_period. rewrite format_period_bytes by done.
  destruct (fixed_digits_spec 4 year) as (Hd4 & Hl4 & Hv4); [done|].
  destruct (fixed_digits_spec 2 month) as (Hd2 & Hl2 & Hv2); [change (10 ^ Z.of_nat 2) with 100; lia|].
  rewrite length_app, Hl4, Hl2, bool_decide_true by done. cbn [negb].
  rewrite take_app_length', drop_app_length' by done.
  rewrite parse_i32_digits, parse_u32_digits; [|done|by intros E; rewrite E in Hl2|done|by intros E; rewrite E in Hl4].
  rewrite Hv4, Hv2. cbn. by rewrite (proj2 (Z.leb_le 1 month)), (proj2 (Z.leb_le month 12)) by lia.
Qed.

Lemma parse_period_of n : in_calendar n -> parse_period (period_of n) = Some (n / 12, n mod 12 + 1).
Proof.
  intros [Hlo Hhi]. pose proof (Z.mod_pos_bound n 12 ltac:(lia)).
  apply parse_format; [split; [apply Z.div_pos; lia|apply Z.div_lt_upper_bound; lia]|lia].
Qed.

Lemma split_months n : n / 12 * 12 + (n mod 12 + 1 - 1) = n.
Proof. pose proof (Z.div_mod n 12 ltac:(lia)). lia. Qed.

Lemma period_id_plus_of n k : in_calendar n -> period_id_plus (period_of n) k = Some (period_of (n + k)).
Proof.
  intros Hn. unfold period_id_plus. rewrite parse_period_of by done. cbn [mbind option_bind].
  by rewrite split_months.
Qed.

Lemma next_period_of n : in_calendar n -> next_period_id (period_of n) = Some (period_of (n + 1)).
Proof.
  intros Hn. unfold next_period_id. rewrite parse_period_of by done. cbn [mbind option_bind].
  unfold period_of. pose proof (Z.div_mod n 12 ltac:(lia)). pose proof (Z.mod_pos_bound n 12 ltac:(lia)).
  destruct (Z.eqb_spec (n mod 12 + 1) 12).
  - f_equal. f_equal; [apply Z.div_unique with 0; lia|]. rewrite <- (Z.mod_unique (n + 1) 12 (n / 12 + 1) 0); lia.
  - f_equal. f_equal; [apply Z.div_unique with (n mod 12 + 1); lia|].
    rewrite <- (Z.mod_unique (n + 1) 12 (n / 12) (n mod 12 + 1)); lia.
Qed.

Lemma previous_period_of n : in_calendar n -> previous_period_id (period_of n) = Some (period_of (n - 1)).
Proof.
  intros Hn. unfold previous_period_id. rewrite parse_period_of by done. cbn [mbind option_bind].
  unfold period_of. pose proof (Z.div_mod n 12 ltac:(lia)). pose proof (Z.mod_pos_bound n 12 ltac:(lia)).
  destruct (Z.eqb_spec (n mod 12 + 1) 1).
  - f_equal. f_equal; [apply Z.div_unique with 11; lia|]. rewrite <- (Z.mod_unique (n - 1) 12 (n / 12 - 1) 11); lia.
  - f_equal. f_equal; [apply Z.div_unique with (n mod 12 - 1); lia|].
    rewrite <- (Z.mod_unique (n - 1) 12 (n / 12) (n mod 12 - 1)); lia.
Qed.

(** ** The order of the texts *)

Lemma digit_compare a b : Ascii.compare a b = (digit_val a ?= digit_val b).
Proof.
  unfold Ascii.compare, digit_val. symmetry.
  destruct (N.compare_spec (N_of_ascii a) (N_of_ascii b));
    [apply Z.compare_eq_iff|apply Z.compare_lt_iff|apply Z.compare_gt_iff]; lia.
Qed.

(** Texts of equally many digits compare like their values. *)
Lemma digits_compare l1 : forall l2, all_digits l1 -> all_digits l2 -> length l1 = length l2 ->
  String.compare (String.string_of_list_ascii l1) (String.string_of_list_ascii l2)
    = (digits_value l1 ?= digits_value l2).
Proof.
  induction l1 as [|a l1 IH]; intros [|b l2] Hd1 Hd2 Hlen; try done.
  apply Forall_cons in Hd1 as [Ha Hd1], Hd2 as [Hb Hd2]. cbn [length] in Hlen. injection Hlen as Hlen.
  cbn [String.string_of_list_ascii String.compare]. rewrite digit_compare.
  change (a :: l1) with ([a] ++ l1). change (b :: l2) with ([b] ++ l2). rewrite !digits_value_app, Hlen.
  change (digits_value [a]) with (digit_val a). change (digits_value [b]) with (digit_val b).
  pose proof (digits_value_range l1 Hd1). pose proof (digits_value_range l2 Hd2). rewrite Hlen in *.
  destruct (Z.compare_spec (digit_val a) (digit_val b)) as [->|Hlt|Hgt].
  - rewrite IH by done. by rewrite Z.add_compare_mono_l.
  - symmetry. apply Z.compare_lt_iff. nia.
  - symmetry. apply Z.compare_gt_iff. nia.
Qed.

Lemma period_of_digits n : in_calendar n -> exists l, period_of n = String.string_of_list_ascii l /\
  all_digits l /\ length l = 6%nat /\ digits_value l = n / 12 * 100 + (n mod 12 + 1).
Proof.
  intros [Hlo Hhi]. pose proof (Z.mod_pos_bound n 12 ltac:(lia)).
  assert (Hy : 0 <= n / 12 < 10000) by (split; [apply Z.div_pos; lia|apply Z.div_lt_upper_bound; lia]).
  destruct (fixed_digits_spec 4 (n / 12)) as (Hd4 & Hl4 & Hv4); [done|].
  destruct (fixed_digits_spec 2 (n mod 12 + 1)) as (Hd2 & Hl2 & Hv2); [change (10 ^ Z.of_nat 2) with 100; lia|].
  exists (fixed_digits 4 (n / 12) ++ fixed_digits 2 (n mod 12 + 1)). split.
  - apply bytes_inj. unfold period_of. rewrite format_period_bytes by lia.
    unfold bytes. by rewrite String.list_ascii_of_string_of_list_ascii.
  - split; [by apply Forall_app|]. split; [by rewrite length_app, Hl4, Hl2|].
    rewrite digits_value_app, Hl2, Hv4, Hv2. done.
Qed.

Lemma period_order m n : in_calendar m -> in_calendar n ->
  String.compare (period_of m) (period_of n) = (m ?= n).
Proof.
  intros Hm Hn. destruct (period_of_digits m Hm) as (l1 & -> & Hd1 & Hl1 & Hv1).
  destruct (period_of_digits n Hn) as (l2 & -> & Hd2 & Hl2 & Hv2).
  rewrite digits_compare, Hv1, Hv2 by congruence.
  pose proof (Z.div_mod m 12 ltac:(lia)). pose proof (Z.mod_pos_bound m 12 ltac:(lia)).
  pose proof (Z.div_mod n 12 ltac:(lia)). pose proof (Z.mod_pos_bound n 12 ltac:(lia)).
  destruct (Z.compare_spec m n) as [->|Hlt|Hgt]; [apply Z.compare_refl|apply Z.compare_lt_iff|apply Z.compare_gt_iff];
    nia.
Qed.

(** Period arithmetic is month arithmetic.  On the periods of the years 0 to 9999
    [period_id_plus] adds months, [next_period_id] is one month more, going back
    undoes going forward, and the texts are ordered like the months. *)
Theorem period_arithmetic n m k : in_calendar n -> in_calendar m -> in_calendar (n + k) -> in_calendar (n + 1) ->
  period_id_plus (period_of n) k = Some (period_of (n + k)) /\
  next_period_id (period_of n) = period_id_plus (period_of n) 1 /\
  (p ← next_period_id (period_of n); previous_period_id p) = Some (period_of n) /\
  (p ← period_id_plus (period_of n) k; period_id_plus p (m - n - k)) = Some (period_of m) /\
  String.compare (period_of n) (period_of m) = (n ?= m).
Proof.
  intros Hn Hm Hk H1. rewrite !period_id_plus_of, next_period_of by done. cbn [mbind option_bind].
  split; [done|]. split; [done|]. split; [rewrite previous_period_of by done; do 2 f_equal; lia|].
  split; [rewrite period_id_plus_of by done; do 2 f_equal; lia|]. by apply period_order.
Qed.

Lemma period_arithmetic_witness :
  period_id_plus (period_of 24322) 3 = Some (period_of 24325) /\
  String.compare (period_of 24322) (period_of 24323) = Lt.
Proof.
  destruct (period_arithmetic 24322 24323 3) as (Hp & _ & _ & _ & Hc); [split; discriminate || reflexivity..|].
  split; [exact Hp|exact Hc].
Defined.

(** November 2026 and three months. *)
Example period_sample : period_of 24322 = "202611"%string /\ period_id_plus "202611" 3 = Some "202702"%string.
Proof. split; vm_compute; reflexivity. Qed.

(** A sign passes for a digit, and the text after 9999-12 has seven bytes. *)
Example signed_periods :
  next_period_id "2026+1" = Some "202602"%string /\ next_period_id "-00106" = Some "-00107"%string /\
  next_period_id "999912" = Some "1000001"%string.
Proof. split_and!; vm_compute; reflexivity. Qed.
