(* ===== verification/InvoicePolicy.v ===== *)
(** * Tenant posting policy: [domain/invoice/policy.rs]

    What to do with an item that has no mapping, and the day counts that bound the
    ageing buckets.  Both are stored as text.  Every constructor of the thresholds
    returns a list of at most twelve positive, strictly increasing day counts, and the
    stored text reads back. *)

From Stdlib Require Import Ascii.
From S2P Require Import Prelude Decimal Money MoneyText Sdk Period.

Module PolicyError.
Inductive policy_error :=
| UnknownMissingMappingMode
| InvalidAgingThresholds.
End PolicyError.
Abbreviation PolicyError := PolicyError.policy_error.

(** ** The missing-mapping mode *)

Inductive MissingMappingMode := ModeSuspense | ModeHardBlock.

Definition SUSPENSE : string := "SUSPENSE".
Definition HARD_BLOCK : string := "HARD_BLOCK".

Definition mode_as_str (m : MissingMappingMode) : string :=
  match m with ModeSuspense => SUSPENSE | ModeHardBlock => HARD_BLOCK end.

Definition mode_parse (s : string) : result PolicyError MissingMappingMode :=
  if bool_decide (s = SUSPENSE) then Ok ModeSuspense
  else if bool_decide (s = HARD_BLOCK) then Ok ModeHardBlock
  else Err PolicyError.UnknownMissingMappingMode.

(** ** Text *)

(** [str::split] at a one-byte separator. *)
Fixpoint split_on (c : ascii) (l : list ascii) : list (list ascii) :=
  match l with
  | [] => [[]]
  | x :: l =>
      if Ascii.eqb x c then [] :: split_on c l
      else match split_on c l with
           | t :: ts => (x :: t) :: ts
           | [] => [[x]]
           end
  end.

(** [join] with a one-byte separator. *)
Fixpoint join (c : ascii) (ts : list (list ascii)) : list ascii :=
  match ts with
  | [] => []
  | [t] => t
  | t :: ts => t ++ c :: join c ts
  end.

(** The characters of a UTF-8 text: a byte and the continuation bytes after it. *)
Definition is_continuation (c : ascii) : bool := (128 <=? byte_code c) && (byte_code c <=? 191).
Fixpoint utf8_chars (l : list ascii) : list (list ascii) :=
  match l with
  | [] => []
  | c :: l =>
      match utf8_chars l with
      | (d :: ds) :: rest => if is_continuation d then (c :: d :: ds) :: rest else [c] :: (d :: ds) :: rest
      | chars => [c] :: chars
      end
  end.

(** [char::is_whitespace] of one character. *)
Definition char_is_white (ch : list ascii) : bool := all_white (byte_code <$> ch).

Fixpoint drop_white (chars : list (list ascii)) : list (list ascii) :=
  match chars with
  | ch :: rest => if char_is_white ch then drop_white rest else chars
  | [] => []
  end.

(** [str::trim]. *)
Definition trim (l : list ascii) : list ascii :=
  concat (reverse (drop_white (reverse (drop_white (utf8_chars l))))).

(** [str::parse::<i64>]: a sign, digits, and the range of the type. *)
Definition parse_i64 (b : list ascii) : option Z :=
  z ← (match b with
       | "-"%char :: rest => Z.opp <$> parse_digits rest
       | "+"%char :: rest => parse_digits rest
       | _ => parse_digits b
       end);
  if in_i64 z then Some z else None.

(** ** The ageing thresholds *)

Record AgingThresholds := mkAgingThresholds { bounds : list Z }.

Definition default_thresholds : AgingThresholds := mkAgingThresholds [30; 60; 90].
Definition MAX_BOUNDS : nat := 12.

(** [windows(2).any(|w| w[1] <= w[0])]. *)
Fixpoint any_not_increasing (l : list Z) : bool :=
  match l with
  | x :: ((y :: _) as rest) => (y <=? x) || any_not_increasing rest
  | _ => false
  end.

Definition thresholds_new (bs : list Z) : result PolicyError AgingThresholds :=
  match bs with
  | [] => Err PolicyError.InvalidAgingThresholds
  | b0 :: _ =>
      if (MAX_BOUNDS <? length bs)%nat then Err PolicyError.InvalidAgingThresholds
      else if b0 <=? 0 then Err PolicyError.InvalidAgingThresholds
      else if any_not_increasing bs then Err PolicyError.InvalidAgingThresholds
      else Ok (mkAgingThresholds bs)
  end.

Definition parse_csv (s : string) : result PolicyError AgingThresholds :=
  bs ← map_res (fun t => ok_or (parse_i64 (trim t)) PolicyError.InvalidAgingThresholds)
         (split_on ","%char (bytes s));
  thresholds_new bs.

Definition to_csv (t : AgingThresholds) : string :=
  String.string_of_list_ascii (join ","%char ((fun z => bytes (display_int z)) <$> bounds t)).

Record PostingPolicy := mkPostingPolicy {
  missing_mapping_mode : MissingMappingMode;
  aging_thresholds : AgingThresholds;
}.

Definition default_posting_policy : PostingPolicy := mkPostingPolicy ModeSuspense default_thresholds.

(** ** Well-formed thresholds *)

Record thresholds_wf (t : AgingThresholds) : Prop := mkThresholdsWf {
  tw_length : (1 <= length (bounds t) <= MAX_BOUNDS)%nat;
  tw_positive : Forall (fun b => 0 < b) (bounds t);
  tw_increasing : StronglySorted Z.lt (bounds t);
}.

Lemma any_not_increasing_spec l : any_not_increasing l = false <-> StronglySorted Z.lt l.
Proof.
  induction l as [|x l IH]; [by split; [constructor|]|]. destruct l as [|y l]; [by split; [repeat constructor|]|].
  change (any_not_increasing (x :: y :: l)) with ((y <=? x) || any_not_increasing (y :: l)).
  rewrite orb_false_iff, IH, Z.leb_gt. split.
  - intros [Hxy Hs]. constructor; [done|]. inversion Hs as [|? ? _ Hall]; subst. constructor; [done|].
    eapply Forall_impl; [exact Hall|]. cbn. lia.
  - intros Hs. inversion Hs as [|? ? Hs' Hall]; subst. by inversion Hall.
Qed.

Lemma thresholds_new_ok bs t : thresholds_new bs = Ok t <-> bounds t = bs /\ thresholds_wf t.
Proof.
  destruct t as [bs']. unfold thresholds_new. cbn [bounds]. destruct bs as [|b0 bs].
  { split; [done|]. intros [-> [? _ _]]. cbn in *. lia. }
  destruct (Nat.ltb_spec MAX_BOUNDS (length (b0 :: bs))) as [Hl|Hl].
  { split; [done|]. intros [-> [? _ _]]. cbn [bounds] in *. lia. }
  destruct (Z.leb_spec b0 0) as [Hb|Hb].
  { split; [done|]. intros [-> [_ Hp _]]. apply Forall_inv in Hp. lia. }
  destruct (any_not_increasing (b0 :: bs)) eqn:Hi.
  { split; [done|]. intros [-> [_ _ Hs%any_not_increasing_spec]]. cbn [bounds] in Hs. congruence. }
  apply any_not_increasing_spec in Hi. split.
  - intros [= <-]. split; [done|]. split; cbn [bounds]; [cbn in *; lia| |done].
    inversion Hi as [|? ? _ Hall]; subst. constructor; [done|]. eapply Forall_impl; [exact Hall|]. cbn. lia.
  - by intros [-> _].
Qed.

(** ** The stored text *)

Lemma split_join c ts : ts <> [] -> Forall (fun t => c ∉ t) ts -> split_on c (join c ts) = ts.
Proof.
  assert (Hone : forall t rest, c ∉ t -> split_on c (t ++ c :: rest) = t :: split_on c rest).
  { induction t as [|x t IH]; intros rest Hc; cbn [app split_on].
    - by rewrite Ascii.eqb_refl.
    - apply not_elem_of_cons in Hc as [Hx Hc]. destruct (Ascii.eqb_spec x c); [congruence|].
      by rewrite IH. }
  assert (Hlast : forall t, c ∉ t -> split_on c t = [t]).
  { induction t as [|x t IH]; intros Hc; cbn [split_on]; [done|].
    apply not_elem_of_cons in Hc as [Hx Hc]. destruct (Ascii.eqb_spec x c); [congruence|]. by rewrite IH. }
  intros Hne Hts. induction Hts as [|t ts Ht Hts IH]; [done|]. destruct ts as [|t' ts]; [by apply Hlast|].
  change (join c (t :: t' :: ts)) with (t ++ c :: join c (t' :: ts)). rewrite Hone by done. by rewrite IH.
Qed.

(** Visible ASCII characters are their own UTF-8 form and are not trimmed. *)
Definition visible (c : ascii) : Prop := 33 <= byte_code c < 128.

Lemma utf8_visible l : Forall visible l -> utf8_chars l = (fun c => [c]) <$> l.
Proof.
  induction 1 as [|c l Hc Hl IH]; [done|]. cbn [utf8_chars]. rewrite IH, fmap_cons. destruct l as [|d l]; [done|].
  rewrite fmap_cons. apply Forall_inv in Hl. unfold is_continuation, visible in *.
  by rewrite (proj2 (Z.leb_gt 128 (byte_code d))) by lia.
Qed.

Lemma visible_not_white c : visible c -> char_is_white [c] = false.
Proof.
  unfold visible, char_is_white. cbn. intros Hc.
  rewrite (proj2 (Z.leb_gt (byte_code c) 13)) by lia. rewrite andb_false_r. cbn.
  by rewrite (proj2 (Z.eqb_neq (byte_code c) 32)) by lia.
Qed.

Lemma drop_visible l : Forall visible l -> drop_white ((fun c => [c]) <$> l) = (fun c => [c]) <$> l.
Proof. destruct 1 as [|c l Hc Hl]; [done|]. rewrite fmap_cons. cbn [drop_white]. by rewrite visible_not_white. Qed.

Lemma trim_visible l : Forall visible l -> trim l = l.
Proof.
  intros Hl. unfold trim. rewrite utf8_visible, drop_visible, <- fmap_reverse, drop_visible by (done || by apply Forall_reverse).
  rewrite fmap_reverse, reverse_involutive. clear. induction l as [|c l IH]; [done|]. rewrite fmap_cons. cbn. by rewrite IH.
Qed.

Lemma digit_visible c : is_ascii_digit c = true -> visible c.
Proof. unfold is_ascii_digit, visible. rewrite andb_true_iff, !Z.leb_le. lia. Qed.

(** The text of a positive [i64]. *)
Lemma display_positive z : 0 < z <= i64_max ->
  all_digits (bytes (display_int z)) /\ bytes (display_int z) <> [] /\ digits_value (bytes (display_int z)) = z.
Proof.
  intros Hz. unfold display_int, decimal_text. rewrite (proj2 (Z.ltb_ge z 0)) by lia.
  unfold bytes. rewrite String.list_ascii_of_string_of_list_ascii, Z.abs_eq, app_nil_r by lia. cbn [app].
  assert (i64_max < 10 ^ Z.of_nat 20) by by vm_compute.
  destruct (int_digits_spec 20 z) as (Hd & Hl & Hv & _); [lia|lia|].
  split_and!; [done| |done]. intros E. rewrite E in Hl. cbn in Hl. lia.
Qed.

Lemma threshold_digits_ok l : all_digits l -> l <> [] -> parse_digits l = Some (digits_value l).
Proof.
  intros Hd Hne. unfold parse_digits. rewrite bool_decide_false by done.
  by rewrite (proj2 (all_digits_forallb l)).
Qed.

Lemma parse_i64_display z : 0 < z <= i64_max -> parse_i64 (bytes (display_int z)) = Some z.
Proof.
  intros Hz. destruct (display_positive z Hz) as (Hd & Hne & Hv). unfold parse_i64.
  destruct (bytes (display_int z)) as [|c l] eqn:E; [done|].
  assert (Hc : is_ascii_digit c = true) by by apply Forall_inv in Hd.
  assert (Hp : c <> "-"%char /\ c <> "+"%char) by (split; intros ->; discriminate Hc).
  assert (Hm : match (c :: l) with
       | "-"%char :: rest => Z.opp <$> parse_digits rest
       | "+"%char :: rest => parse_digits rest
       | _ => parse_digits (c :: l) end = Some z).
  { rewrite <- Hv, <- threshold_digits_ok by done. destruct Hp.
    destruct c as [[] [] [] [] [] [] [] []]; first [done|congruence]. }
  rewrite Hm. cbn [mbind option_bind]. unfold in_i64. by rewrite (proj2 (Z.leb_le _ _)), (proj2 (Z.leb_le _ _)) by (unfold i64_min in *; lia).
Qed.

Lemma comma_not_digit l : all_digits l -> ","%char ∉ l.
Proof. intros Hd Hin. unfold all_digits in Hd. rewrite Forall_forall in Hd. by apply Hd in Hin. Qed.

(** A tenant's ageing thresholds are well formed, and storage keeps them.  The
    default, [new] and [parse_csv] return only lists of one to twelve positive,
    strictly increasing day counts; [new] accepts every such list; and the text that
    [to_csv] writes for thresholds in the range of the integers reads back as the
    same thresholds. *)
Theorem aging_thresholds_wf :
  thresholds_wf default_thresholds /\
  (forall bs t, thresholds_new bs = Ok t <-> bounds t = bs /\ thresholds_wf t) /\
  (forall s t, parse_csv s = Ok t -> thresholds_wf t) /\
  (forall t, thresholds_wf t -> Forall (fun b => b <= i64_max) (bounds t) -> parse_csv (to_csv t) = Ok t).
Proof.
  split_and!.
  - by apply (thresholds_new_ok [30; 60; 90]).
  - apply thresholds_new_ok.
  - intros s t (bs & _ & Ht)%bind_ok. apply thresholds_new_ok in Ht as [_ Ht]. exact Ht.
  - intros [bs] Hwf Hmax. cbn [bounds] in *. destruct Hwf as [Hl Hp Hi] eqn:Ew. cbn [bounds] in *.
    assert (Hr : Forall (fun z => 0 < z <= i64_max) bs) by (apply Forall_and; done).
    unfold parse_csv, to_csv. cbn [bounds]. unfold bytes at 1. rewrite String.list_ascii_of_string_of_list_ascii, split_join.
    + replace (map_res _ _) with (Ok (E := PolicyError) bs); [by apply thresholds_new_ok|].
      symmetry. apply map_res_ok, Forall2_fmap_l. clear - Hr. induction Hr as [|z bs Hz _ IH]; constructor; [|done].
      destruct (display_positive z Hz) as (Hd & _ & _). cbn beta. unfold compose. rewrite trim_visible; [by rewrite parse_i64_display|].
      eapply Forall_impl; [exact Hd|]. apply digit_visible.
    + intros E%fmap_nil_inv. subst. cbn in Hl. lia.
    + apply Forall_fmap, Forall_forall. intros z Hz. rewrite Forall_forall in Hr.
      by apply comma_not_digit, display_positive, Hr.
Qed.
