(* ===== verification/Aging.v ===== *)
(** * Receivable ageing: [domain/invoice/aging.rs]

    Open receivables are folded into buckets of days past due, per payer and currency.
    The days fall into exactly one bucket, the buckets carry exactly the positive
    balances, and the call fails only when a payer's currency is stored at two scales
    or a bucket's total is not representable. *)

From Stdlib Require Import Ascii.
From S2P Require Import Prelude BTree Decimal Money Exact ExactGrid MoneyText Sdk InvoicePolicy.

(** Two's complement wrap-around of the [i64] type, as release builds compute it. *)
Definition wrapping_i64 (x : Z) : Z := (x + 2 ^ 63) mod 2 ^ 64 - 2 ^ 63.

Definition BUCKET_CURRENT : string := "current".

Definition days_past_due (due : option NaiveDate) (today : NaiveDate) : Z :=
  match due with
  | Some d => today - d
  | None => 0
  end.

(** The first boundary that is not exceeded, counting from [i]. *)
Fixpoint rank_from (i : nat) (days : Z) (bs : list Z) : nat :=
  match bs with
  | [] => i + 1
  | b :: bs => if Z.leb days b then i + 1 else rank_from (S i) days bs
  end%nat.

Definition bucket_rank (days : Z) (bs : list Z) : nat :=
  if days <=? 0 then 0%nat else rank_from 0 days bs.

(** The labels between [current] and the open end. *)
Fixpoint range_labels (lower : Z) (bs : list Z) : list string :=
  match bs with
  | [] => []
  | b :: bs => (display_int lower +:+ "-" +:+ display_int b) :: range_labels (wrapping_i64 (b + 1)) bs
  end.

Definition bucket_labels (bs : list Z) : list string :=
  [BUCKET_CURRENT] ++ range_labels 1 bs ++ [display_int (default 0 (last bs)) +:+ "+"].

Section aging.
Context `{RustDecimal}.

Record ArInvoiceBalanceView := mkArInvoiceBalanceView {
  ar_payer_tenant_id : Uuid;
  ar_account_id : Uuid;
  ar_invoice_id : string;
  ar_balance : PostedMoney;
  ar_due_date : option NaiveDate;
}.

Record AgingBucket := mkAgingBucket {
  ab_payer_tenant_id : Uuid;
  ab_bucket : string;
  ab_amount : PostedMoney;
}.

Definition grain_cmp : Uuid * string -> Uuid * string -> comparison := pair_cmp N.compare String.compare.
Definition bucket_cmp : Uuid * (string * nat) -> Uuid * (string * nat) -> comparison :=
  pair_cmp N.compare (pair_cmp String.compare Nat.compare).

(** One row of the first loop: the scale of a payer's currency is pinned. *)
Definition pin_spec (o : option CurrencySpec) (row : ArInvoiceBalanceView) : result ExactError CurrencySpec :=
  let spec := currency (ar_balance row) in
  match o with
  | Some stored =>
      if negb (currency_scale stored =? currency_scale spec)
      then Err (ExactError.Money MoneyError.ScaleMismatch) else Ok stored
  | None => Ok spec
  end.

Definition grain_key (row : ArInvoiceBalanceView) : option (Uuid * string) :=
  Some (ar_payer_tenant_id row, code (currency (ar_balance row))).

(** One row of the second loop: positive balances are added to their bucket. *)
Definition add_row (o : option ScaledSum) (row : ArInvoiceBalanceView) : result ExactError ScaledSum :=
  let spec := currency (ar_balance row) in
  add_decimal (match o with Some s => s | None => sum_zero (currency_scale spec) end)
    (amount (ar_balance row)).

Definition bucket_key (today : NaiveDate) (bs : list Z) (row : ArInvoiceBalanceView) : option (Uuid * (string * nat)) :=
  if dec_leb (amount (ar_balance row)) ZERO then None
  else Some (ar_payer_tenant_id row,
             (code (currency (ar_balance row)), bucket_rank (days_past_due (ar_due_date row) today) bs)).

(** The output of one bucket.  The label of a rank is in range. *)
Definition emit_bucket (specs : list ((Uuid * string) * CurrencySpec)) (labels : list string)
    (b : (Uuid * (string * nat)) * ScaledSum) : result ExactError AgingBucket :=
  let '((payer, (cur, rank)), sum) := b in
  spec ← ok_or (bt_get grain_cmp (payer, cur) specs) (ExactError.Money MoneyError.CurrencyMismatch);
  amt ← sum_to_posted sum spec;
  Ok (mkAgingBucket payer (default EmptyString (labels !! rank)) amt).

Definition ar_aging (rows : list ArInvoiceBalanceView) (today : NaiveDate) (thresholds : AgingThresholds) :
    result ExactError (list AgingBucket) :=
  let bs := bounds thresholds in
  specs ← fold_res (bt_step grain_cmp grain_key pin_spec) [] rows;
  acc ← fold_res (bt_step bucket_cmp (bucket_key today bs) add_row) [] rows;
  map_res (emit_bucket specs (bucket_labels bs)) acc.
End aging.

(** ** Ranks *)

(** The days of a bucket: above the boundary before it, up to its own. *)
Definition in_bucket (bs : list Z) (rank : nat) (days : Z) : Prop :=
  match rank with
  | O => days <= 0
  | S i => (match i with O => 0 | S j => default 0 (bs !! j) end) < days /\
           forall b, bs !! i = Some b -> days <= b
  end.

Lemma rank_from_spec bs days : forall pre i, length pre = i -> (forall b, b ∈ pre -> b < days) -> 0 < days ->
  let r := rank_from i days bs in
  (1 <= r <= i + length bs + 1)%nat /\ in_bucket (pre ++ bs) r days.
Proof.
  induction bs as [|b bs IH]; intros pre i Hi Hpre Hd; cbn [rank_from].
  - rewrite app_nil_r, Nat.add_1_r. cbn [length]. split; [lia|]. cbn. split.
    + destruct i as [|j]; [done|]. destruct (pre !! j) as [x|] eqn:E; cbn; [|done].
      apply Hpre. by eapply list_elem_of_lookup_2.
    + intros x Hx%lookup_lt_Some. lia.
  - destruct (Z.leb_spec days b) as [Hb|Hb].
    + rewrite Nat.add_1_r. cbn [length]. split; [lia|]. cbn [in_bucket]. split.
      * destruct i as [|j]; [done|]. rewrite lookup_app_l by lia. destruct (pre !! j) as [x|] eqn:E; cbn; [|done].
        apply Hpre. by eapply list_elem_of_lookup_2.
      * intros x. rewrite lookup_app_r by lia. rewrite Hi, Nat.sub_diag. cbn. by intros [= <-].
    + destruct (IH (pre ++ [b]) (S i)) as [Hr Hin].
      * rewrite length_app. cbn. lia.
      * intros x [Hx|Hx%list_elem_of_singleton]%elem_of_app; [by apply Hpre|by subst].
      * done.
      * rewrite <- app_assoc in Hin. split; [cbn [length]; lia|done].
Qed.

Lemma bucket_rank_spec bs days :
  (bucket_rank days bs <= length bs + 1)%nat /\ in_bucket bs (bucket_rank days bs) days.
Proof.
  unfold bucket_rank. destruct (Z.leb_spec days 0) as [Hd|Hd]; [split; [lia|done]|].
  destruct (rank_from_spec bs days [] 0) as [Hr Hin]; [done| |done|]; [by intros b ?%not_elem_of_nil|].
  split; [lia|done].
Qed.

(** The buckets of increasing boundaries are disjoint. *)
Lemma in_bucket_unique bs days r1 r2 : Forall (fun b => 0 < b) bs -> StronglySorted Z.lt bs ->
  (r1 <= length bs + 1)%nat -> (r2 <= length bs + 1)%nat -> in_bucket bs r1 days -> in_bucket bs r2 days -> r1 = r2.
Proof.
  intros Hpos Hsorted.
  assert (Hlt : forall i j x y, (i < j)%nat -> bs !! i = Some x -> bs !! j = Some y -> x < y).
  { intros i j x y Hij Hx Hy. revert i j Hij Hx Hy. induction Hsorted as [|b bs _ IH Hall]; [done|]. apply Forall_cons in Hpos as [_ Hpos].
    intros [|i] [|j] Hij Hx Hy; cbn in *; try lia.
    - injection Hx as <-. rewrite Forall_forall in Hall. apply Hall. by eapply list_elem_of_lookup_2.
    - eapply (IH Hpos i j); [lia|done|done]. }
  assert (Hle : forall i j, (i <= j)%nat -> (i <= length bs + 1)%nat -> (j <= length bs + 1)%nat ->
    in_bucket bs i days -> in_bucket bs j days -> i = j).
  { intros i j Hij Hi Hj H1 H2. destruct (Nat.eq_dec i j) as [|Hne]; [done|]. exfalso.
    destruct j as [|j]; [lia|]. destruct H2 as [H2 _]. destruct j as [|j]; [destruct i; [cbn in H1; lia|lia]|].
    destruct (lookup_lt_is_Some_2 bs j) as [y Hy]; [lia|]. rewrite Hy in H2. cbn in H2.
    assert (0 < y) by (rewrite Forall_forall in Hpos; apply Hpos; by eapply list_elem_of_lookup_2).
    destruct i as [|i]; [cbn in H1; lia|]. destruct H1 as [_ H1].
    destruct (lookup_lt_is_Some_2 bs i) as [x Hx]; [lia|]. specialize (H1 x Hx).
    destruct (Nat.eq_dec i j) as [->|]; [rewrite Hx in Hy; injection Hy as <-; lia|].
    specialize (Hlt i j x y ltac:(lia) Hx Hy). lia. }
  intros Hr1 Hr2 H1 H2. destruct (Nat.le_gt_cases r1 r2); [by apply Hle|symmetry; apply Hle; [lia|done..]].
Qed.

(** ** Labels *)

(** The label of a rank. *)
Definition label_of (bs : list Z) (rank : nat) : string :=
  match rank with
  | O => BUCKET_CURRENT
  | S i =>
      match bs !! i with
      | Some b => display_int (match i with O => 0 | S j => default 0 (bs !! j) end + 1) +:+ "-" +:+ display_int b
      | None => display_int (default 0 (last bs)) +:+ "+"
      end
  end.

Lemma range_labels_length bs : forall lo, length (range_labels lo bs) = length bs.
Proof. induction bs as [|b bs IH]; intros lo; cbn; [done|]. by rewrite IH. Qed.

Lemma wrapping_i64_small x : i64_min <= x <= i64_max -> wrapping_i64 x = x.
Proof. unfold wrapping_i64, i64_min, i64_max. intros Hx. rewrite Z.mod_small; lia. Qed.

Lemma range_labels_spec bs : StronglySorted Z.lt bs -> Forall (fun b => 0 < b <= i64_max) bs ->
  forall lo i b, bs !! i = Some b ->
  range_labels lo bs !! i =
    Some (display_int (match i with O => lo | S j => default 0 (bs !! j) + 1 end) +:+ "-" +:+ display_int b).
Proof.
  induction 1 as [|b0 bs Hs IH Hall]; intros Hb lo [|i] b Hi; cbn in Hi; [done|done| |].
  - by injection Hi as ->.
  - apply Forall_cons in Hb as [Hb0 Hb]. cbn [range_labels lookup list_lookup]. rewrite (IH Hb _ _ _ Hi).
    destruct i as [|j]; [|done]. cbn. rewrite wrapping_i64_small; [done|].
    rewrite Forall_forall in Hall, Hb. assert (Hin : b ∈ bs) by by eapply list_elem_of_lookup_2.
    specialize (Hall b Hin). specialize (Hb b Hin). unfold i64_min. lia.
Qed.

Lemma bucket_labels_spec t rank : thresholds_wf t -> Forall (fun b => b <= i64_max) (bounds t) ->
  (rank <= length (bounds t) + 1)%nat ->
  bucket_labels (bounds t) !! rank = Some (label_of (bounds t) rank).
Proof.
  intros [_ Hp Hs] Hm Hr. destruct rank as [|i]; [done|]. unfold bucket_labels, label_of.
  rewrite lookup_app_r by (cbn; lia). cbn [length]. replace (S i - 1)%nat with i by lia.
  destruct (bounds t !! i) as [b|] eqn:Hi.
  - rewrite lookup_app_l by (rewrite range_labels_length; by apply lookup_lt_Some in Hi).
    rewrite (range_labels_spec (bounds t) Hs) with (b := b); [|by apply Forall_and|done]. by destruct i.
  - apply lookup_ge_None_1 in Hi. rewrite lookup_app_r by by rewrite range_labels_length.
    rewrite range_labels_length. by replace (i - length (bounds t))%nat with 0%nat by lia.
Qed.

(** ** The report *)

Section report.
Context `{RustDecimal}.
Implicit Types (row : ArInvoiceBalanceView) (rows ys : list ArInvoiceBalanceView).

#[global] Instance grain_cmp_linear : LinearCmp grain_cmp.
Proof. unfold grain_cmp. apply _. Qed.

#[global] Instance bucket_cmp_linear : LinearCmp bucket_cmp.
Proof. unfold bucket_cmp. apply _. Qed.

Definition row_spec row : CurrencySpec := currency (ar_balance row).
Definition row_units row : Z := posted_units (ar_balance row).

(** A payer's currency has one stored scale. *)
Definition consistent rows : Prop :=
  forall r1 r2, r1 ∈ rows -> r2 ∈ rows -> grain_key r1 = grain_key r2 -> row_spec r1 = row_spec r2.

Definition pinned ys (o : option CurrencySpec) : Prop :=
  match ys with
  | [] => o = None
  | r :: _ => o = Some (row_spec r) /\ Forall (fun y => row_spec y = row_spec r) ys
  end.

Lemma pin_step k pre x v o : grain_key x = Some k -> pinned (group grain_key k pre) o ->
  pin_spec o x = Ok v <->
  pinned (group grain_key k pre ++ [x]) (Some v).
Proof.
  intros Hx Hp. unfold pin_spec. fold (row_spec x). destruct (group grain_key k pre) as [|r ys] eqn:Hg; cbn [app pinned] in *.
  - subst o. split; [intros [= <-]; split; [done|]; by constructor|by intros [[= ->] _]].
  - destruct Hp as [-> Hall]. assert (Hr : grain_key r = Some k).
    { assert (Hin : r ∈ group grain_key k pre) by (rewrite Hg; by left). by apply elem_of_group in Hin as [? _]. }
    assert (Hcode : code (row_spec r) = code (row_spec x)) by (unfold grain_key, row_spec in *; congruence).
    destruct (Z.eqb_spec (currency_scale (row_spec r)) (currency_scale (row_spec x))) as [Hs|Hs]; cbn [negb].
    + split; [intros [= <-]; split; [done|]|by intros [[= ->] _]]. rewrite app_comm_cons. apply Forall_app. split; [done|].
      constructor; [|constructor]. destruct (row_spec r), (row_spec x). cbn in *. congruence.
    + split; [done|]. intros [_ Hf]. rewrite app_comm_cons in Hf. apply Forall_app in Hf as [_ Hf%Forall_inv]. congruence.
Qed.

Lemma pin_loop rows : consistent rows ->
  exists specs, fold_res (bt_step grain_cmp grain_key pin_spec) [] rows = Ok specs /\ grouped grain_cmp grain_key pinned rows specs.
Proof.
  intros Hc. apply (group_fold grain_cmp grain_key pin_spec pinned); [done|]. intros pre x suf k o Hrows Hx Ho.
  destruct (group grain_key k pre) as [|r ys] eqn:Hg.
  - exists (row_spec x). cbn in Ho. subst o. split; [done|]. cbn. split; [done|]. by constructor.
  - exists (row_spec r). destruct Ho as [-> Hall].
    assert (Hin : r ∈ group grain_key k pre) by (rewrite Hg; by left). apply elem_of_group in Hin as [Hk Hin].
    assert (Heq : row_spec x = row_spec r). { apply Hc; [subst; set_solver|subst; set_solver|congruence]. }
    split; [unfold pin_spec; fold (row_spec x); by rewrite Heq, Z.eqb_refl|]. cbn. split; [done|].
    rewrite app_comm_cons. apply Forall_app. split; [done|]. by constructor.
Qed.

Lemma pin_loop_inv rows specs : fold_res (bt_step grain_cmp grain_key pin_spec) [] rows = Ok specs ->
  consistent rows /\ forall r, r ∈ rows -> bt_get grain_cmp (ar_payer_tenant_id r, code (row_spec r)) specs = Some (row_spec r).
Proof.
  intros Hrun. apply (group_fold_inv grain_cmp grain_key pin_spec pinned) in Hrun as [_ Hp]; [|done|].
  2:{ intros pre x suf k o v _ Hx Ho. by apply pin_step. }
  assert (Hin : forall r, r ∈ rows -> forall k, grain_key r = Some k -> bt_get grain_cmp k specs = Some (row_spec r)).
  { intros r Hr k Hk. specialize (Hp k). assert (Hg : r ∈ group grain_key k rows) by by apply elem_of_group.
    destruct (group grain_key k rows) as [|r0 ys]; [by apply not_elem_of_nil in Hg|]. destruct Hp as [-> Hall].
    rewrite Forall_forall in Hall. by rewrite (Hall r Hg). }
  split; [|intros r Hr; by apply Hin]. intros r1 r2 H1 H2 Hk. unfold grain_key in Hk.
  pose proof (Hin r1 H1 _ eq_refl) as E1. pose proof (Hin r2 H2 _ eq_refl) as E2. congruence.
Qed.

(** What a bucket accumulates. *)
Definition accumulated ys (o : option ScaledSum) : Prop :=
  match ys with
  | [] => o = None
  | _ => exists s, o = Some s /\ sum_holds s (sum_Z row_units ys)
  end.

Lemma units_total_small ys : Z.of_nat (length ys) < 2 ^ 64 -> small (sum_Z row_units ys).
Proof. intros Hl. by apply (sum_units_small (fun r => amount (ar_balance r))). Qed.

Lemma add_loop today bs rows : vec_ok rows -> Forall (fun r => posted_ok (ar_balance r)) rows ->
  exists acc, fold_res (bt_step bucket_cmp (bucket_key today bs) add_row) [] rows = Ok acc /\
    grouped bucket_cmp (bucket_key today bs) accumulated rows acc.
Proof.
  intros Hv Hok. apply (group_fold bucket_cmp (bucket_key today bs) add_row accumulated); [done|]. intros pre x suf k o Hrows Hx Ho.
  set (ys := group (bucket_key today bs) k pre) in *.
  assert (Hl : Z.of_nat (length ys) + 1 < 2 ^ 64).
  { unfold vec_ok in Hv. subst rows. rewrite length_app in Hv. cbn in Hv. pose proof (group_length (bucket_key today bs) k pre). unfold ys. lia. }
  assert (Hc : currency_ok (row_spec x)).
  { rewrite Forall_forall in Hok. apply (Hok x). subst. set_solver. }
  set (s0 := match o with Some s => s | None => sum_zero (currency_scale (row_spec x)) end).
  assert (Hs : sum_holds s0 (sum_Z row_units ys)).
  { unfold s0. destruct ys; cbn in Ho; [subst o; by apply sum_zero_holds|]. by destruct Ho as (s & -> & ?). }
  pose proof (units_total_small ys ltac:(lia)) as Hsm.
  pose proof (units_total_small (ys ++ [x]) ltac:(rewrite length_app; cbn; lia)) as Hsm'. rewrite sum_Z_snoc in Hsm'.
  destruct (add_decimal_holds s0 _ (amount (ar_balance x)) Hs Hsm Hsm') as (s' & Hadd & Hs' & _).
  exists s'. split; [done|]. fold (posted_units (ar_balance x)) (row_units x) in Hs'. rewrite <- sum_Z_snoc in Hs'.
  destruct ys; cbn; by exists s'.
Qed.

(** The outstanding units of a bucket. *)
Definition outstanding (today : NaiveDate) (bs : list Z) rows (k : Uuid * (string * nat)) : Z :=
  sum_Z row_units (group (bucket_key today bs) k rows).

Lemma bucket_key_some today bs row k : bucket_key today bs row = Some k ->
  0 < row_units row /\ k = (ar_payer_tenant_id row, (code (row_spec row), bucket_rank (days_past_due (ar_due_date row) today) bs)).
Proof.
  unfold bucket_key. rewrite posted_leb_zero. fold (row_units row). destruct (Z.leb_spec (row_units row) 0); [done|].
  by intros [= <-].
Qed.

Lemma outstanding_positive today bs rows k : 0 < outstanding today bs rows k <-> group (bucket_key today bs) k rows <> [].
Proof.
  unfold outstanding. destruct (group (bucket_key today bs) k rows) as [|r ys] eqn:Hg; [rewrite sum_Z_nil; split; [lia|done]|].
  split; [done|]. intros _. assert (Hpos : forall y, y ∈ r :: ys -> 0 < row_units y).
  { intros y Hy. rewrite <- Hg in Hy. apply elem_of_group in Hy as [Hy _]. by apply bucket_key_some in Hy as [? _]. }
  rewrite sum_Z_cons. pose proof (Hpos r ltac:(by left)).
  pose proof (sum_Z_nonneg row_units ys ltac:(intros y Hy; specialize (Hpos y ltac:(by right)); lia)). lia.
Qed.

(** The totals of all buckets are representable. *)
Definition totals_representable today bs rows : Prop :=
  forall k r, r ∈ group (bucket_key today bs) k rows -> fits (currency_scale (row_spec r)) (outstanding today bs rows k).

(** A bucket of the report. *)
Record bucket_of today bs rows (k : Uuid * (string * nat)) (b : AgingBucket) : Prop := mkBucketOf {
  bo_payer : ab_payer_tenant_id b = fst k;
  bo_code : code (currency (ab_amount b)) = fst (snd k);
  bo_label : ab_bucket b = label_of bs (snd (snd k));
  bo_ok : posted_ok (ab_amount b);
  bo_units : posted_units (ab_amount b) = outstanding today bs rows k;
}.

Lemma emit_bucket_spec today t rows specs k sum r :
  let bs := bounds t in
  thresholds_wf t -> Forall (fun b => b <= i64_max) bs -> vec_ok rows -> Forall (fun x => posted_ok (ar_balance x)) rows ->
  consistent rows -> bt_get grain_cmp (ar_payer_tenant_id r, code (row_spec r)) specs = Some (row_spec r) ->
  r ∈ group (bucket_key today bs) k rows -> sum_holds sum (outstanding today bs rows k) ->
  match emit_bucket specs (bucket_labels bs) (k, sum) with
  | Ok b => fits (currency_scale (row_spec r)) (outstanding today bs rows k) /\ bucket_of today bs rows k b
  | Err _ => ~ fits (currency_scale (row_spec r)) (outstanding today bs rows k)
  end.
Proof.
  intros bs Hwf Hmax Hv Hok Hc Hspec Hr Hsum. rewrite Forall_forall in Hok.
  apply elem_of_group in Hr as Hr'. destruct Hr' as [Hk Hin]. apply bucket_key_some in Hk as [_ Hk].
  assert (Hcur : currency_ok (row_spec r)) by apply (Hok r Hin).
  assert (Hsmall : small (outstanding today bs rows k)).
  { apply units_total_small. pose proof (group_length (bucket_key today bs) k rows). unfold vec_ok in Hv. lia. }
  assert (Hdiv : (10 ^ (28 - currency_scale (row_spec r)) | outstanding today bs rows k)).
  { apply sum_Z_divide. intros y [Hy Hyin]%elem_of_group. apply bucket_key_some in Hy as [_ Hy].
    assert (row_spec r = row_spec y) as ->; [|by apply posted_units_grid, Hok].
    apply Hc; [done|done|]. unfold grain_key, row_spec in *. congruence. }
  rewrite Hk. cbn [emit_bucket]. rewrite Hspec. cbn [ok_or mbind result_bind]. rewrite <- Hk.
  destruct (sum_to_posted sum (row_spec r)) as [p|e] eqn:Hp; cbn [mbind result_bind].
  - apply (sum_to_posted_holds _ _ _ _ Hsum Hsmall Hcur) in Hp as (Hpok & Hpc & Hpu). split.
    { rewrite <- Hpu, <- Hpc. by apply posted_units_fits. }
    subst k. split; cbn [fst snd ab_payer_tenant_id ab_amount ab_bucket]; [done|by rewrite Hpc| |done|done].
    unfold bs. rewrite (bucket_labels_spec t); [done|done|done|]. apply bucket_rank_spec.
  - intros Hfit. destruct (into_posted_units_total _ (row_spec r) Hsmall Hcur Hdiv Hfit) as [p Hp'].
    apply into_posted_units in Hp'; [|done|done]. apply (sum_to_posted_holds _ _ _ _ Hsum Hsmall Hcur) in Hp'. congruence.
Qed.

(** The keys of the second map. *)
Lemma aging_keys today bs rows acc : grouped bucket_cmp (bucket_key today bs) accumulated rows acc ->
  StronglySorted (fun a b => bucket_cmp a b = Lt) (fst <$> acc) /\
  (forall k, k ∈ fst <$> acc <-> 0 < outstanding today bs rows k) /\
  (forall k s, (k, s) ∈ acc -> group (bucket_key today bs) k rows <> [] /\ sum_holds s (outstanding today bs rows k)).
Proof.
  intros [Hs Hg].
  assert (Hacc : forall k s, (k, s) ∈ acc -> group (bucket_key today bs) k rows <> [] /\ sum_holds s (outstanding today bs rows k)).
  { intros k s Hin. apply (bt_get_elem bucket_cmp) in Hin; [|done]. specialize (Hg k). rewrite Hin in Hg.
    unfold outstanding. destruct (group (bucket_key today bs) k rows); [done|]. by destruct Hg as (s' & [= <-] & ?). }
  split_and!; [|intros k; rewrite outstanding_positive; split|done].
  - clear - Hs. induction Hs as [|[k v] m _ IH Hall]; [constructor|]. rewrite fmap_cons. constructor; [done|].
    apply Forall_fmap. exact Hall.
  - intros ([k' s] & -> & Hin)%list_elem_of_fmap. by apply (Hacc k' s).
  - intros Hne. specialize (Hg k). destruct (group (bucket_key today bs) k rows); [done|]. destruct Hg as (s & Hs' & _).
    apply list_elem_of_fmap. exists (k, s). split; [done|]. by apply (bt_get_elem bucket_cmp).
Qed.

Definition aging_ok today bs rows : Prop := consistent rows /\ totals_representable today bs rows.

Lemma ar_aging_spec today t rows :
  thresholds_wf t -> Forall (fun b => b <= i64_max) (bounds t) ->
  vec_ok rows -> Forall (fun x => posted_ok (ar_balance x)) rows ->
  match ar_aging rows today t with
  | Ok out => aging_ok today (bounds t) rows /\
      exists keys, StronglySorted (fun a b => bucket_cmp a b = Lt) keys /\
        (forall k, k ∈ keys <-> 0 < outstanding today (bounds t) rows k) /\
        Forall2 (bucket_of today (bounds t) rows) keys out
  | Err _ => ~ aging_ok today (bounds t) rows
  end.
Proof.
  intros Hwf Hmax Hv Hok. set (bs := bounds t). unfold ar_aging. fold bs.
  destruct (fold_res (bt_step grain_cmp grain_key pin_spec) [] rows) as [specs|e] eqn:Hpin; cbn [mbind result_bind].
  2:{ intros [Hc _]. destruct (pin_loop rows Hc) as (specs & Hs & _). congruence. }
  apply pin_loop_inv in Hpin as [Hc Hspecs].
  destruct (add_loop today bs rows Hv Hok) as (acc & -> & Hacc). cbn [mbind result_bind].
  destruct (aging_keys today bs rows acc Hacc) as (Hsort & Hkeys & Hin).
  pose proof (map_res_exact (emit_bucket specs (bucket_labels bs))
    (fun b => forall r, r ∈ group (bucket_key today bs) (fst b) rows -> fits (currency_scale (row_spec r)) (outstanding today bs rows (fst b)))
    (fun b out => bucket_of today bs rows (fst b) out) acc) as Hmap.
  lapply Hmap; clear Hmap; [intros Hmap|].
  2:{ intros [k s] Hks. destruct (Hin k s Hks) as [Hne Hsum].
      assert (Hall : forall r, r ∈ group (bucket_key today bs) k rows ->
        match emit_bucket specs (bucket_labels bs) (k, s) with
        | Ok b => fits (currency_scale (row_spec r)) (outstanding today bs rows k) /\ bucket_of today bs rows k b
        | Err _ => ~ fits (currency_scale (row_spec r)) (outstanding today bs rows k) end).
      { intros r Hr. apply (emit_bucket_spec today t rows specs k s r); try done. apply Hspecs. by apply elem_of_group in Hr as [_ ?]. }
      destruct (group (bucket_key today bs) k rows) as [|r0 ys] eqn:Hg; [done|].
      specialize (Hall r0 ltac:(by left)) as H0. cbn [fst].
      destruct (emit_bucket specs (bucket_labels bs) (k, s)) as [b|e].
      - split; [|apply H0]. intros r Hr. rewrite Hg in Hr. by apply Hall.
      - intros Hf. apply H0, Hf. rewrite Hg. by left. }
  assert (Hfit : totals_representable today bs rows <->
    Forall (fun b : (Uuid * (string * nat)) * ScaledSum => forall r, r ∈ group (bucket_key today bs) (fst b) rows ->
      fits (currency_scale (row_spec r)) (outstanding today bs rows (fst b))) acc).
  { rewrite Forall_forall. split; [intros Ht b _ r; apply Ht|]. intros Hf k r Hr.
    assert (Hk : k ∈ fst <$> acc). { apply Hkeys, outstanding_positive. intros E. rewrite E in Hr. by apply not_elem_of_nil in Hr. }
    apply list_elem_of_fmap in Hk as ([k' s] & -> & Hks). by apply (Hf (k', s) Hks). }
  destruct (map_res _ acc) as [out|e].
  - destruct Hmap as [Hf Hq]. split; [split; [done|by apply Hfit]|]. exists (fst <$> acc). split_and!; [done|done|].
    by apply Forall2_fmap_l.
  - intros [_ Ht]. by apply Hmap, Hfit.
Qed.

(** What one payer owes in one currency, and what the report shows of it. *)
Definition owed (payer : Uuid) (cur : string) row : Z :=
  if bool_decide (ar_payer_tenant_id row = payer /\ code (row_spec row) = cur) then Z.max 0 (row_units row) else 0.
Definition reported (payer : Uuid) (cur : string) (b : AgingBucket) : Z :=
  if bool_decide (ab_payer_tenant_id b = payer /\ code (currency (ab_amount b)) = cur) then posted_units (ab_amount b) else 0.

Lemma report_conserves today bs rows keys out payer cur :
  StronglySorted (fun a b => bucket_cmp a b = Lt) keys -> (forall k, k ∈ keys <-> 0 < outstanding today bs rows k) ->
  Forall2 (bucket_of today bs rows) keys out ->
  sum_Z (reported payer cur) out = sum_Z (owed payer cur) rows.
Proof.
  intros Hs Hk Hq. rewrite <- (sum_groups bucket_cmp (bucket_key today bs) (owed payer cur) keys).
  - clear Hs Hk. induction Hq as [|k b keys out [Hp Hc _ _ Hu] _ IH]; [done|]. rewrite !sum_Z_cons, IH. f_equal.
    unfold reported. rewrite Hp, Hc, Hu. unfold outstanding. case_bool_decide as Hm.
    + apply sum_Z_ext. intros r [Hr _]%elem_of_group. apply bucket_key_some in Hr as [Hpos ->]. unfold owed.
      cbn in Hm. rewrite bool_decide_true by done. lia.
    + symmetry. apply sum_Z_zero. intros r [Hr _]%elem_of_group. apply bucket_key_some in Hr as [_ ->]. unfold owed.
      by rewrite bool_decide_false.
  - by apply (sorted_keys_nodup bucket_cmp).
  - intros r Hr Hne. assert (Hpos : 0 < row_units r) by (unfold owed in Hne; case_bool_decide; lia).
    destruct (bucket_key today bs r) as [k|] eqn:Hkr.
    + exists k. split; [done|]. apply Hk, outstanding_positive. intros E.
      assert (Hin : r ∈ group (bucket_key today bs) k rows) by by apply elem_of_group. rewrite E in Hin. by apply not_elem_of_nil in Hin.
    + unfold bucket_key in Hkr. rewrite posted_leb_zero in Hkr. fold (row_units r) in Hkr.
      by rewrite (proj2 (Z.leb_gt _ _)) in Hkr.
Qed.

(** The ageing report is exact.  For well-formed thresholds and valid balances,
    [ar_aging] succeeds exactly when no payer has one currency at two scales and the
    total of every bucket is representable.  The report then has one bucket per
    payer, currency and age with something outstanding, in that order, with the
    label of its age and exactly the positive balances of its rows; per payer and
    currency the buckets add up to all that is owed.  An age is the one interval
    between consecutive boundaries that holds the days past due. *)
Theorem ar_aging_exact today t rows :
  thresholds_wf t -> Forall (fun b => b <= i64_max) (bounds t) ->
  vec_ok rows -> Forall (fun x => posted_ok (ar_balance x)) rows ->
  match ar_aging rows today t with
  | Ok out => aging_ok today (bounds t) rows /\
      (exists keys, StronglySorted (fun a b => bucket_cmp a b = Lt) keys /\
        (forall k, k ∈ keys <-> 0 < outstanding today (bounds t) rows k) /\
        Forall2 (bucket_of today (bounds t) rows) keys out) /\
      forall payer cur, sum_Z (reported payer cur) out = sum_Z (owed payer cur) rows
  | Err _ => ~ aging_ok today (bounds t) rows
  end /\
  (forall days r, (r <= length (bounds t) + 1)%nat -> bucket_rank days (bounds t) = r <-> in_bucket (bounds t) r days).
Proof.
  intros Hwf Hmax Hv Hok. split.
  - pose proof (ar_aging_spec today t rows Hwf Hmax Hv Hok) as Hs. destruct (ar_aging rows today t) as [out|e]; [|done].
    destruct Hs as (Ha & keys & Hk1 & Hk2 & Hk3). split_and!; [done|by exists keys|]. intros. by eapply report_conserves.
  - intros days r Hr. destruct (bucket_rank_spec (bounds t) days) as [Hr' Hin]. destruct Hwf as [_ Hp Hs].
    split; [by intros <-|]. intros Hb. by eapply in_bucket_unique.
Qed.
End report.

Section witnesses.
Import ConcreteDecimal MoneySamples.

Definition sample_rows : list ArInvoiceBalanceView :=
  [mkArInvoiceBalanceView 7%N 1%N "a" (eur 100) (Some 20000); mkArInvoiceBalanceView 7%N 1%N "b" (eur 250) (Some 19960);
   mkArInvoiceBalanceView 7%N 1%N "c" (eur 50) (Some 19950); mkArInvoiceBalanceView 8%N 1%N "d" (eur (-30)) None].

Lemma ar_aging_exact_witness :
  aging_ok 20000 (bounds default_thresholds) sample_rows /\
  exists out, ar_aging sample_rows 20000 default_thresholds = Ok out /\
    sum_Z (reported 7%N "EUR") out = posted_units (eur 400).
Proof.
  destruct (is_ok_exists (ar_aging sample_rows 20000 default_thresholds)) as [out Hout]; [vm_compute; reflexivity|].
  assert (Hwf : thresholds_wf default_thresholds) by (apply (thresholds_new_ok [30; 60; 90]); reflexivity).
  assert (Hmax : Forall (fun b => b <= i64_max) (bounds default_thresholds)) by (repeat constructor; by vm_compute).
  assert (Hok : Forall (fun x => posted_ok (ar_balance x)) sample_rows).
  { repeat (constructor; [by apply eur_ok|]). constructor. }
  pose proof (ar_aging_exact 20000 default_thresholds sample_rows Hwf Hmax ltac:(ground) Hok) as Hs.
  rewrite Hout in Hs. destruct Hs as [(Ha & _ & Hc) _]. split; [done|]. exists out. split; [done|].
  rewrite Hc. vm_compute. reflexivity.
Defined.
End witnesses.
