(* ===== verification/DualControl.v ===== *)
(** * Dual control: [domain/approval.rs], [domain/approval/policy.rs]

    Which governed operations need a second person.  A tenant's policy holds amount
    thresholds per currency, the window of material back-dating and the lifetime of
    a pending approval.  The thresholds of a built policy are unique per currency and
    within their bounds; the policy in force is the latest effective version; the
    count of business days has a closed form; and the gate is exact for every kind of
    operation. *)

From S2P Require Import Prelude BTree Decimal Money Exact ExactGrid Sdk.

(** ** Kinds and states *)

Inductive ApprovalKind :=
| KReverse | KMaterialBackdating | KCreditGrant | KChargebackLoss | KPayerClosure | KPeriodReopen
| KRecognitionScheduleChange | KRefund | KManualAdjustment | KCreditNote | KDebitNote.

Inductive ApprovalState :=
| SPending | SApproving | SApproved | SRejected | SNeedsRework | SCancelled | SExpired.

#[global] Instance approval_kind_eq_dec : EqDecision ApprovalKind.
Proof. solve_decision. Defined.
#[global] Instance approval_state_eq_dec : EqDecision ApprovalState.
Proof. solve_decision. Defined.

Definition approval_kind_as_str (k : ApprovalKind) : string :=
  match k with
  | KReverse => "REVERSE"
  | KMaterialBackdating => "MATERIAL_BACKDATING"
  | KCreditGrant => "CREDIT_GRANT"
  | KChargebackLoss => "CHARGEBACK_LOSS"
  | KPayerClosure => "PAYER_CLOSURE"
  | KPeriodReopen => "PERIOD_REOPEN"
  | KRecognitionScheduleChange => "RECOGNITION_SCHEDULE_CHANGE"
  | KRefund => "REFUND"
  | KManualAdjustment => "MANUAL_ADJUSTMENT"
  | KCreditNote => "CREDIT_NOTE"
  | KDebitNote => "DEBIT_NOTE"
  end.

Definition approval_state_as_str (s : ApprovalState) : string :=
  match s with
  | SPending => "PENDING"
  | SApproving => "APPROVING"
  | SApproved => "APPROVED"
  | SRejected => "REJECTED"
  | SNeedsRework => "NEEDS_REWORK"
  | SCancelled => "CANCELLED"
  | SExpired => "EXPIRED"
  end.

#[global] Program Instance approval_kind_enum : StrEnum ApprovalKind :=
  {| enum_kind := "approval_kind";
     variants := [KReverse; KMaterialBackdating; KCreditGrant; KChargebackLoss; KPayerClosure; KPeriodReopen;
                  KRecognitionScheduleChange; KRefund; KManualAdjustment; KCreditNote; KDebitNote];
     as_str := approval_kind_as_str |}.
Next Obligation. solve_str_enum. Qed.
Next Obligation. solve_str_enum. Qed.

#[global] Program Instance approval_state_enum : StrEnum ApprovalState :=
  {| enum_kind := "approval_state";
     variants := [SPending; SApproving; SApproved; SRejected; SNeedsRework; SCancelled; SExpired];
     as_str := approval_state_as_str |}.
Next Obligation. solve_str_enum. Qed.
Next Obligation. solve_str_enum. Qed.

(** The [parse] functions: the literals in the order of the variants, else [None]. *)
Definition parse_literal {A} `{!StrEnum A} (s : string) : option A :=
  List.find (fun v => bool_decide (as_str v = s)) variants.
Definition approval_kind_parse (s : string) : option ApprovalKind := parse_literal s.
Definition approval_state_parse (s : string) : option ApprovalState := parse_literal s.

Definition ACTIVE : list ApprovalState := [SPending; SNeedsRework].
Definition is_active (s : ApprovalState) : bool :=
  match s with SPending | SNeedsRework => true | _ => false end.

(** ** Business days *)

(** Days since Monday, of the week that holds the date; 1970-01-01 is a Thursday. *)
Definition weekday (d : NaiveDate) : Z := (d + 3) mod 7.
Definition is_weekend (d : NaiveDate) : bool := (weekday d =? 5) || (weekday d =? 6).

(** The [while] loop.  The date after the last representable one is never asked for,
    since the loop stops at [to]. *)
Fixpoint business_loop (fuel : nat) (day to count : Z) : Z :=
  match fuel with
  | O => count
  | S fuel =>
      if day <? to then
        let day := day + 1 in
        business_loop fuel day to (if negb (is_weekend day) then count + 1 else count)
      else count
  end.

Definition business_days_between (from to : NaiveDate) : Z :=
  business_loop (Z.to_nat (to - from)) from to 0.

(** ** Rules *)

Inductive ValuationBasis := BasisTransaction | BasisFunctional.
Inductive GateRule := GateAmount | GateBackdating | GateOutstandingBalance | GateAlways.

Definition valuation_basis (k : ApprovalKind) : ValuationBasis :=
  match k with
  | KReverse | KRecognitionScheduleChange | KMaterialBackdating => BasisTransaction
  | KCreditGrant | KChargebackLoss | KPayerClosure | KPeriodReopen | KRefund | KManualAdjustment
  | KCreditNote | KDebitNote => BasisFunctional
  end.

Definition gate_rule (k : ApprovalKind) : GateRule :=
  match k with
  | KMaterialBackdating => GateBackdating
  | KPayerClosure => GateOutstandingBalance
  | KPeriodReopen => GateAlways
  | KReverse | KCreditGrant | KChargebackLoss | KRecognitionScheduleChange | KRefund
  | KManualAdjustment | KCreditNote | KDebitNote => GateAmount
  end.

Definition amount_gated (k : ApprovalKind) : bool :=
  match gate_rule k with GateAmount => true | _ => false end.

(** ** The policy *)

Definition DEFAULT_A6_BACKDATING_BIZ_DAYS : Z := 5.
Definition DEFAULT_PENDING_TTL_SECONDS : Z := 7 * 24 * 60 * 60.
Definition A6_MIN_DAYS : Z := 1.
Definition A6_MAX_DAYS : Z := 30.

Section policy.
Context `{RustDecimal}.

Inductive PolicyConfigError :=
| D2OutOfRange (threshold : PostedMoney) (min max : Decimal)
| D2DefaultUnrepresentable (spec : CurrencySpec)
| DuplicateCurrency (cur : string)
| MetadataConflict (cur : string) (configured_scale other_scale : Z)
| A6OutOfRange (a6 : Z)
| TtlNotPositive (ttl : Z).

(** The thresholds, in the order of the currency codes. *)
Record D2Thresholds := mkD2Thresholds { d2_map : list (string * PostedMoney) }.

Definition threshold_step (currencies : list (string * Z)) (value : PostedMoney) :
    result PolicyConfigError (list (string * Z)) :=
  let spec := currency value in
  match bt_get String.compare (code spec) currencies with
  | Some previous =>
      Err (if previous =? currency_scale spec then DuplicateCurrency (code spec)
           else MetadataConflict (code spec) previous (currency_scale spec))
  | None =>
      let min := from_i128_with_scale 10000 (currency_scale spec) in
      let max := from_i128_with_scale 100000000 (currency_scale spec) in
      if dec_ltb (amount value) min || dec_ltb max (amount value) then Err (D2OutOfRange value min max)
      else Ok (bt_insert String.compare (code spec) (currency_scale spec) currencies)
  end.

Definition validate_thresholds (thresholds : list PostedMoney) : result PolicyConfigError unit :=
  _ ← fold_res threshold_step [] thresholds; Ok tt.

Definition validate_limits (a6 ttl : Z) : result PolicyConfigError unit :=
  if negb ((A6_MIN_DAYS <=? a6) && (a6 <=? A6_MAX_DAYS)) then Err (A6OutOfRange a6)
  else if ttl <=? 0 then Err (TtlNotPositive ttl)
  else Ok tt.

Definition validate_config (thresholds : list PostedMoney) (a6 ttl : Z) : result PolicyConfigError unit :=
  _ ← validate_thresholds thresholds; validate_limits a6 ttl.

Definition d2_try_new (values : list PostedMoney) : result PolicyConfigError D2Thresholds :=
  _ ← validate_thresholds values;
  Ok (mkD2Thresholds (fold_left (fun m v => bt_insert String.compare (code (currency v)) v m) values [])).

Definition d2_get (t : D2Thresholds) (cur : string) : option PostedMoney :=
  bt_get String.compare cur (d2_map t).
Definition d2_into_vec (t : D2Thresholds) : list PostedMoney := snd <$> d2_map t.
Definition d2_len (t : D2Thresholds) : nat := length (d2_map t).
Definition D2_EMPTY : D2Thresholds := mkD2Thresholds [].

Record DualControlPolicy := mkDualControlPolicy {
  d2_thresholds : D2Thresholds;
  a6_backdating_biz_days : Z;
  pending_ttl_seconds : Z;
}.

Definition DEFAULT_POLICY : DualControlPolicy :=
  mkDualControlPolicy D2_EMPTY DEFAULT_A6_BACKDATING_BIZ_DAYS DEFAULT_PENDING_TTL_SECONDS.

Definition policy_try_new (t : D2Thresholds) (a6 ttl : Z) : result PolicyConfigError DualControlPolicy :=
  _ ← validate_limits a6 ttl; Ok (mkDualControlPolicy t a6 ttl).

Definition d2_threshold (policy : DualControlPolicy) (spec : CurrencySpec) : result PolicyConfigError PostedMoney :=
  match d2_get (d2_thresholds policy) (code spec) with
  | Some value =>
      if negb (bool_decide (currency value = spec))
      then Err (MetadataConflict (code spec) (currency_scale (currency value)) (currency_scale spec))
      else Ok value
  | None =>
      map_err (fun _ => D2DefaultUnrepresentable spec)
        (posted_try_new (from_i128_with_scale 100000 (currency_scale spec)) spec)
  end.

Record PolicyVersion := mkPolicyVersion {
  pv_effective_from : OffsetDateTime;
  pv_version : Z;
  pv_policy : DualControlPolicy;
}.

Definition version_cmp (a b : PolicyVersion) : comparison :=
  then_with (pv_effective_from a ?= pv_effective_from b) (pv_version a ?= pv_version b).

(** [Iterator::max_by]: the last of the greatest elements. *)
Definition max_by {A} (cmp : A -> A -> comparison) (l : list A) : option A :=
  fold_left (fun best x =>
    match best with
    | None => Some x
    | Some b => match cmp b x with Gt => Some b | _ => Some x end
    end) l None.

Definition effective_version (versions : list PolicyVersion) (now : OffsetDateTime) : option PolicyVersion :=
  max_by version_cmp (List.filter (fun v => pv_effective_from v <=? now) versions).

Definition resolve_policy_at (versions : list PolicyVersion) (now : OffsetDateTime) : DualControlPolicy :=
  match effective_version versions now with
  | Some v => pv_policy v
  | None => DEFAULT_POLICY
  end.

Record OperationFacts := mkOperationFacts {
  of_kind : ApprovalKind;
  of_amount : option PostedMoney;
  of_effective_at : option NaiveDate;
  of_has_outstanding_balance : bool;
}.

Definition requires_dual_control (op : OperationFacts) (policy : DualControlPolicy) (today : NaiveDate) :
    result PolicyConfigError bool :=
  match gate_rule (of_kind op) with
  | GateBackdating =>
      Ok (match of_effective_at op with
          | Some eff => a6_backdating_biz_days policy <? business_days_between eff today
          | None => false
          end)
  | GateOutstandingBalance => Ok (of_has_outstanding_balance op)
  | GateAlways => Ok true
  | GateAmount =>
      match of_amount op with
      | Some amt =>
          threshold ← d2_threshold policy (currency amt);
          Ok (dec_leb (amount threshold) (dec_abs (amount amt)))
      | None => Ok false
      end
  end.
End policy.

(** ** Literals *)

Lemma parse_literal_ok {A} `{!StrEnum A} (s : string) (v : A) : parse_literal s = Some v <-> s = as_str v.
Proof. rewrite <- from_str_ok. unfold from_str, parse_literal. by rewrite ok_or_ok. Qed.

(** ** Business days in closed form *)

(** Weekdays from a fixed Monday up to a date. *)
Definition weekdays_until (d : Z) : Z := 5 * ((d + 3) / 7) + Z.min 5 ((d + 3) mod 7 + 1).

Lemma weekdays_until_step d :
  weekdays_until (d + 1) = weekdays_until d + if negb (is_weekend (d + 1)) then 1 else 0.
Proof.
  unfold weekdays_until, is_weekend, weekday. replace (d + 1 + 3) with (d + 3 + 1) by lia. set (x := d + 3).
  pose proof (Z.div_mod x 7). pose proof (Z.mod_pos_bound x 7). pose proof (Z.div_mod (x + 1) 7).
  pose proof (Z.mod_pos_bound (x + 1) 7).
  assert (((x + 1) mod 7 = x mod 7 + 1 /\ (x + 1) / 7 = x / 7) \/
          ((x + 1) mod 7 = 0 /\ x mod 7 = 6 /\ (x + 1) / 7 = x / 7 + 1)) as Hcases by lia.
  destruct (Z.eqb_spec ((x + 1) mod 7) 5), (Z.eqb_spec ((x + 1) mod 7) 6); cbn [orb negb]; lia.
Qed.

Lemma business_loop_spec fuel : forall day to count, day <= to -> to - day <= Z.of_nat fuel ->
  business_loop fuel day to count = count + weekdays_until to - weekdays_until day.
Proof.
  induction fuel as [|fuel IH]; intros day to count Hle Hf; cbn [business_loop].
  - replace to with day by lia. lia.
  - destruct (Z.ltb_spec day to); [|replace to with day by lia; lia].
    rewrite IH by lia. rewrite weekdays_until_step. destruct (negb _); lia.
Qed.

Lemma business_days_closed from to :
  business_days_between from to = if from <? to then weekdays_until to - weekdays_until from else 0.
Proof.
  unfold business_days_between. destruct (Z.ltb_spec from to); [rewrite business_loop_spec by lia; lia|].
  by replace (Z.to_nat (to - from)) with 0%nat by lia.
Qed.

(** The business days between two dates.  The loop of [business_days_between]
    computes the closed form (five per week and the weekdays of the week begun),
    counts nothing when the dates are not in order, is additive over consecutive
    intervals, gives five for every seven days, and increases with the later date. *)
Theorem business_days_correct from mid to :
  business_days_between from to = (if from <? to then weekdays_until to - weekdays_until from else 0) /\
  (from <= mid <= to -> business_days_between from to = business_days_between from mid + business_days_between mid to) /\
  (forall k, 0 <= k -> business_days_between from (from + 7 * k) = 5 * k) /\
  (mid <= to -> business_days_between from mid <= business_days_between from to).
Proof.
  assert (Hmono : forall n, 0 <= n -> forall d, weekdays_until d <= weekdays_until (d + n)).
  { intros n Hn. pattern n. apply natlike_ind; [|clear n Hn; intros n Hn IH d|done].
    - intros d. by rewrite Z.add_0_r.
    - specialize (IH d). rewrite <- Z.add_1_r, Z.add_assoc, weekdays_until_step. destruct (negb _); lia. }
  rewrite !business_days_closed. split_and!.
  - done.
  - intros Hm. destruct (Z.ltb_spec from to), (Z.ltb_spec from mid), (Z.ltb_spec mid to); try lia;
      first [replace mid with to by lia; lia|replace mid with from by lia; lia].
  - intros k Hk. rewrite business_days_closed. unfold weekdays_until.
    replace (from + 7 * k + 3) with (from + 3 + k * 7) by lia. rewrite Z.div_add, Z.mod_add by lia.
    destruct (Z.ltb_spec from (from + 7 * k)); lia.
  - intros Hm. pose proof (Hmono (to - mid) ltac:(lia) mid) as H1. replace (mid + (to - mid)) with to in H1 by lia.
    pose proof (Hmono (Z.max 0 (to - from)) ltac:(lia) from) as H2.
    destruct (Z.ltb_spec from to), (Z.ltb_spec from mid); try lia. replace (from + Z.max 0 (to - from)) with to in H2 by lia. lia.
Qed.

(** ** Thresholds *)

Section thresholds.
Context `{RustDecimal}.
Implicit Types (v : PostedMoney) (vs : list PostedMoney).

Definition threshold_in_bounds v : Prop :=
  let step := 10 ^ (28 - currency_scale (currency v)) in
  10000 * step <= posted_units v <= 100000000 * step.

Definition value_code v : string := code (currency v).

Record d2_wf (t : D2Thresholds) : Prop := mkD2Wf {
  dw_sorted : bt_sorted String.compare (d2_map t);
  dw_values c v : (c, v) ∈ d2_map t -> c = value_code v /\ posted_ok v /\ threshold_in_bounds v;
}.

Lemma bound_units c sc : 0 <= c <= 100000000 -> 0 <= sc <= 28 ->
  units (from_i128_with_scale c sc) = c * 10 ^ (28 - sc).
Proof.
  intros Hc Hs. destruct (from_i128_with_scale_spec c sc) as [Hm Hsc].
  - assert (100000000 < decimal_limit) by by vm_compute. lia.
  - done.
  - unfold units. by rewrite Hm, Hsc.
Qed.

Lemma threshold_loop pre vs m : Forall posted_ok (pre ++ vs) -> bt_sorted String.compare m ->
  (forall c, bt_get String.compare c m = None <-> c ∉ value_code <$> pre) ->
  is_ok (fold_res threshold_step m vs) = true <->
  NoDup (value_code <$> vs) /\ (forall v, v ∈ vs -> value_code v ∉ value_code <$> pre) /\ Forall threshold_in_bounds vs.
Proof.
  revert pre m. induction vs as [|v vs IH]; intros pre m Hok Hs Hm; cbn [fold_res].
  { split; [intros _|by intros _]. split_and!; [constructor| |constructor]. by intros v ?%not_elem_of_nil. }
  assert (Hv : posted_ok v) by (rewrite Forall_app, Forall_cons in Hok; tauto).
  unfold threshold_step at 2. fold (value_code v). rewrite fmap_cons, NoDup_cons, Forall_cons.
  destruct (bt_get String.compare (value_code v) m) as [sc|] eqn:Hg; cbn [mbind result_bind is_ok].
  { split; [done|]. intros (_ & Hn & _). specialize (Hn v ltac:(by left)). apply Hm in Hn. congruence. }
  assert (Hc : 0 <= currency_scale (currency v) <= 28) by apply Hv.
  rewrite !dec_ltb_units, !bound_units by lia. fold (posted_units v).
  set (step := 10 ^ (28 - currency_scale (currency v))).
  assert (Hb : threshold_in_bounds v <-> (posted_units v <? 10000 * step) || (100000000 * step <? posted_units v) = false).
  { unfold threshold_in_bounds. fold step. rewrite orb_false_iff, !Z.ltb_ge. done. }
  destruct ((posted_units v <? 10000 * step) || (100000000 * step <? posted_units v)) eqn:Hcmp.
  { cbn. split; [done|]. intros (_ & _ & ? & _). intuition congruence. }
  cbn [mbind result_bind].
  rewrite (IH (pre ++ [v])).
  - rewrite fmap_app. cbn. split.
    + intros (Hnd & Hn & Hf). split_and!; [|done| |tauto|done].
      * intros (w & Hw & Hin)%list_elem_of_fmap. apply (Hn w Hin). set_solver.
      * intros w [->|Hw]%elem_of_cons; [by apply Hm|]. specialize (Hn w Hw). set_solver.
    + intros ([Hnv Hnd] & Hn & _ & Hf). split_and!; [done| |done]. intros w Hw. specialize (Hn w ltac:(by right)).
      rewrite elem_of_app. intros [?|Heq%list_elem_of_singleton]; [done|]. apply Hnv. rewrite <- Heq. by apply list_elem_of_fmap_2.
  - by rewrite <- app_assoc.
  - by apply (bt_insert_sorted String.compare).
  - intros c. rewrite (bt_get_insert String.compare) by done. rewrite fmap_app, not_elem_of_app. cbn.
    rewrite list_elem_of_singleton. case_decide; [split; [done|tauto]|]. rewrite Hm. tauto.
Qed.

Lemma validate_thresholds_ok vs : Forall posted_ok vs ->
  validate_thresholds vs = Ok tt <-> NoDup (value_code <$> vs) /\ Forall threshold_in_bounds vs.
Proof.
  intros Hok. pose proof (threshold_loop [] vs [] Hok) as Hl. unfold validate_thresholds.
  destruct (fold_res threshold_step [] vs) as [m|e]; cbn [mbind result_bind is_ok] in *.
  - split; [intros _|done]. destruct Hl as [Hl _]; [constructor|set_solver|]. by destruct (Hl eq_refl) as (? & _ & ?).
  - split; [done|]. intros [Hnd Hb]. destruct Hl as [_ Hl]; [constructor|set_solver|]. discriminate Hl.
    split_and!; [done| |done]. intros v _. apply not_elem_of_nil.
Qed.

(** Collecting values into the map. *)
Lemma collect_spec vs : NoDup (value_code <$> vs) ->
  let m := fold_left (fun m v => bt_insert String.compare (value_code v) v m) vs [] in
  bt_sorted String.compare m /\ forall c v, bt_get String.compare c m = Some v <-> v ∈ vs /\ value_code v = c.
Proof.
  induction vs as [|v vs IH] using rev_ind; intros Hnd.
  { split; [constructor|]. cbn. intros c v. split; [done|]. by intros [?%not_elem_of_nil _]. }
  rewrite fmap_app, NoDup_app in Hnd. destruct Hnd as (Hnd & Hd & _). destruct (IH Hnd) as [Hs Hg].
  rewrite fold_left_app. cbn [fold_left]. split; [by apply (bt_insert_sorted String.compare)|].
  intros c w. rewrite (bt_get_insert String.compare), elem_of_app, list_elem_of_singleton by done. case_decide as Hc.
  - subst c. split; [intros [= ->]; split; [by right|done]|]. intros [[Hw| ->] Heq]; [|done].
    exfalso. apply (Hd (value_code w)); [by apply list_elem_of_fmap_2|]. cbn. rewrite Heq. by left.
  - rewrite Hg. split; [intros [? ?]; split; [by left|done]|]. intros [[?| ->] ?]; [done|congruence].
Qed.

Lemma d2_try_new_spec vs : Forall posted_ok vs ->
  match d2_try_new vs with
  | Ok t => d2_wf t /\ NoDup (value_code <$> vs) /\ Forall threshold_in_bounds vs /\
      forall c v, d2_get t c = Some v <-> v ∈ vs /\ value_code v = c
  | Err _ => ~ (NoDup (value_code <$> vs) /\ Forall threshold_in_bounds vs)
  end.
Proof.
  intros Hok. pose proof (validate_thresholds_ok vs Hok) as Hv. unfold d2_try_new.
  destruct (validate_thresholds vs) as [[]|e]; cbn [mbind result_bind].
  - destruct Hv as [Hv _]. destruct (Hv eq_refl) as [Hnd Hb]. destruct (collect_spec vs Hnd) as [Hs Hg].
    split_and!; [|done|done|exact Hg]. split; [exact Hs|]. cbn [d2_map]. intros c v Hin.
    apply (bt_get_elem String.compare) in Hin; [|exact Hs]. apply Hg in Hin as [Hin <-]. rewrite Forall_forall in Hok, Hb. auto.
  - intros Hc. apply Hv in Hc. done.
Qed.

(** ** The policy *)

Record policy_ok (p : DualControlPolicy) : Prop := mkPolicyOk {
  po_thresholds : d2_wf (d2_thresholds p);
  po_a6 : A6_MIN_DAYS <= a6_backdating_biz_days p <= A6_MAX_DAYS;
  po_ttl : 0 < pending_ttl_seconds p;
}.

Lemma empty_wf : d2_wf D2_EMPTY.
Proof. split; [constructor|]. cbn. by intros c v ?%not_elem_of_nil. Qed.

Lemma default_policy_ok : policy_ok DEFAULT_POLICY.
Proof. split; [apply empty_wf|cbn; unfold A6_MIN_DAYS, A6_MAX_DAYS, DEFAULT_A6_BACKDATING_BIZ_DAYS; lia|done]. Qed.

Lemma policy_try_new_ok t a6 ttl p : policy_try_new t a6 ttl = Ok p <->
  p = mkDualControlPolicy t a6 ttl /\ A6_MIN_DAYS <= a6 <= A6_MAX_DAYS /\ 0 < ttl.
Proof.
  unfold policy_try_new, validate_limits.
  destruct (Z.leb_spec A6_MIN_DAYS a6), (Z.leb_spec a6 A6_MAX_DAYS), (Z.leb_spec ttl 0); cbn; split; intros Hr;
    try done; try lia; try (injection Hr as <-; split_and!; [done|lia|lia|lia]); by destruct Hr as [-> _].
Qed.

(** ** The version in force *)

#[global] Instance version_cmp_total : TotalCmp version_cmp.
Proof.
  pose proof (total_cmp_on pv_effective_from Z.compare). pose proof (total_cmp_on pv_version Z.compare).
  apply (total_cmp_then (fun a b => pv_effective_from a ?= pv_effective_from b) (fun a b => pv_version a ?= pv_version b)).
Qed.

(** The last of the greatest elements. *)
Lemma max_by_spec {A} (cmp : A -> A -> comparison) `{!TotalCmp cmp} l :
  match max_by cmp l with
  | None => l = []
  | Some v => exists pre suf, l = pre ++ v :: suf /\
      Forall (fun w => cmp_le cmp w v) pre /\ Forall (fun w => cmp v w = Gt) suf
  end.
Proof.
  induction l as [|x l IH] using rev_ind; [done|]. unfold max_by in *. rewrite fold_left_app. cbn [fold_left].
  destruct (fold_left _ l None) as [b|]; [|subst; by exists [], []]. destruct IH as (pre & suf & -> & Hpre & Hsuf).
  assert (Hle : cmp_le cmp b x -> Forall (fun w => cmp_le cmp w x) (pre ++ b :: suf)).
  { intros Hbx. apply Forall_app. split; [|constructor; [done|]].
    - eapply Forall_impl; [exact Hpre|]. intros w Hw. by apply (cmp_le_trans w b x).
    - eapply Forall_impl; [exact Hsuf|]. intros w Hw. cbn in Hw. apply (cmp_le_trans w b x); [|done].
      unfold cmp_le. by rewrite cmp_antisym, Hw. }
  destruct (cmp b x) eqn:Hbx.
  - exists (pre ++ b :: suf), []. split_and!; [done|apply Hle; unfold cmp_le; congruence|constructor].
  - exists (pre ++ b :: suf), []. split_and!; [done|apply Hle; unfold cmp_le; congruence|constructor].
  - exists pre, (suf ++ [x]). rewrite <- app_assoc. split_and!; [done|done|]. apply Forall_app. split; [done|by constructor].
Qed.

Lemma effective_version_spec versions now :
  match effective_version versions now with
  | None => forall ver : PolicyVersion, ver ∈ versions -> now < pv_effective_from ver
  | Some v => v ∈ versions /\ pv_effective_from v <= now /\
      forall w, w ∈ versions -> pv_effective_from w <= now -> cmp_le version_cmp w v
  end.
Proof.
  unfold effective_version. set (l := List.filter _ versions).
  assert (Hin : forall v : PolicyVersion, v ∈ l <-> pv_effective_from v <= now /\ v ∈ versions)
    by (intros v; unfold l; by rewrite elem_of_filter_bool, Z.leb_le).
  pose proof (max_by_spec version_cmp l) as Hm. destruct (max_by version_cmp l) as [v|].
  - destruct Hm as (pre & suf & Hl & Hpre & Hsuf). destruct (proj1 (Hin v)) as [Hv1 Hv2]; [rewrite Hl; set_solver|].
    split_and!; [done|done|]. intros w Hw Hnow. assert (Hwl : w ∈ l) by by apply Hin.
    rewrite Hl, elem_of_app, elem_of_cons in Hwl. rewrite Forall_forall in Hpre, Hsuf.
    destruct Hwl as [?|[-> |Hw']]; [by apply Hpre| |].
    + unfold cmp_le. pose proof (cmp_antisym (cmp := version_cmp) v v). by destruct (version_cmp v v).
    + unfold cmp_le. by rewrite cmp_antisym, (Hsuf w Hw').
  - intros v Hv. destruct (Z.le_gt_cases (pv_effective_from v) now) as [Hle|]; [|done].
    assert (Hvl : v ∈ l) by by apply Hin. rewrite Hm in Hvl. by apply not_elem_of_nil in Hvl.
Qed.

Lemma resolve_policy_ok versions now :
  Forall (fun ver : PolicyVersion => policy_ok (pv_policy ver)) versions -> policy_ok (resolve_policy_at versions now).
Proof.
  intros Hall. pose proof (effective_version_spec versions now) as Hv. unfold resolve_policy_at.
  destruct (effective_version versions now) as [v|]; [|apply default_policy_ok]. destruct Hv as [Hin _].
  rewrite Forall_forall in Hall. by apply Hall.
Qed.

(** A dual-control policy is well formed by construction.  [D2Thresholds::try_new]
    accepts exactly the lists with one threshold per currency code, each within the
    bounds of its scale; the result is sorted by code and looks up exactly the given
    values; [DualControlPolicy::try_new] accepts exactly a back-dating window of 1 to
    30 days and a positive lifetime; the default is such a policy; and resolving a
    history of policies keeps the property. *)
Theorem policy_well_formed :
  policy_ok DEFAULT_POLICY /\
  (forall vs, Forall posted_ok vs ->
     match d2_try_new vs with
     | Ok t => d2_wf t /\ NoDup (value_code <$> vs) /\ Forall threshold_in_bounds vs /\
         (forall c v, d2_get t c = Some v <-> v ∈ vs /\ value_code v = c) /\
         (forall a6 ttl p, policy_try_new t a6 ttl = Ok p -> policy_ok p)
     | Err _ => ~ (NoDup (value_code <$> vs) /\ Forall threshold_in_bounds vs)
     end) /\
  (forall t a6 ttl p, policy_try_new t a6 ttl = Ok p <->
     p = mkDualControlPolicy t a6 ttl /\ A6_MIN_DAYS <= a6 <= A6_MAX_DAYS /\ 0 < ttl) /\
  (forall versions now, Forall (fun ver : PolicyVersion => policy_ok (pv_policy ver)) versions -> policy_ok (resolve_policy_at versions now)).
Proof.
  split_and!; [apply default_policy_ok| |apply policy_try_new_ok|apply resolve_policy_ok].
  intros vs Hok. pose proof (d2_try_new_spec vs Hok) as Hs. destruct (d2_try_new vs) as [t|e]; [|done].
  destruct Hs as (Hw & Hnd & Hb & Hg). split_and!; [done..|]. intros a6 ttl p (-> & Ha & Ht)%policy_try_new_ok. by split.
Qed.

(** ** The gate *)

(** The threshold of a currency, in units: the configured one or 100000 increments. *)
Definition threshold_units (policy : DualControlPolicy) (spec : CurrencySpec) : Z :=
  match d2_get (d2_thresholds policy) (code spec) with
  | Some v => posted_units v
  | None => 100000 * 10 ^ (28 - currency_scale spec)
  end.

Lemma default_threshold_ok spec : currency_ok spec ->
  exists p, posted_try_new (from_i128_with_scale 100000 (currency_scale spec)) spec = Ok p /\
    posted_units p = 100000 * 10 ^ (28 - currency_scale spec).
Proof.
  intros Hc. pose proof (posted_try_new_spec (from_i128_with_scale 100000 (currency_scale spec)) spec Hc) as Hs.
  rewrite bound_units in Hs by (unfold currency_ok in Hc; lia).
  destruct (posted_try_new _ spec) as [p|[]]; try done.
  - exists p. by destruct Hs as (_ & _ & ?).
  - exfalso. apply Hs. set (d := from_i128_with_scale 100000 (currency_scale spec)).
    destruct (from_i128_with_scale_spec 100000 (currency_scale spec)) as [Hm Hsc]; [by vm_compute|exact Hc|].
    fold d in Hm, Hsc. pose proof (normalize_value d) as Hn. pose proof (normalize_scale_le d) as Hle.
    pose proof (scale_bound (normalize d)) as Hb. rewrite Hm in Hn.
    assert (Hp : 10 ^ scale (normalize d) <= 10 ^ scale d) by (apply pow10_le; lia).
    pose proof (pow10_pos (scale d) ltac:(lia)). pose proof (pow10_pos (scale (normalize d)) ltac:(lia)).
    assert (100000 < 10 ^ 28) by by vm_compute. nia.
  - exfalso. apply Hs. apply Z.divide_factor_r.
Qed.

Lemma d2_threshold_spec policy spec : policy_ok policy -> currency_ok spec ->
  match d2_threshold policy spec with
  | Ok t => posted_units t = threshold_units policy spec
  | Err e => exists v, d2_get (d2_thresholds policy) (code spec) = Some v /\
      currency_scale (currency v) <> currency_scale spec /\
      e = MetadataConflict (code spec) (currency_scale (currency v)) (currency_scale spec)
  end.
Proof.
  intros [[Hsort Hval] _ _] Hc. unfold d2_threshold, threshold_units.
  destruct (d2_get (d2_thresholds policy) (code spec)) as [v|] eqn:Hg.
  - case_bool_decide as Hcur; cbn [negb]; [done|]. exists v. split_and!; [done| |done]. intros Hsc. apply Hcur.
    apply (bt_get_elem String.compare) in Hg; [|done]. apply Hval in Hg as [Hcode _]. unfold value_code in Hcode.
    destruct (currency v), spec. cbn in *. congruence.
  - destruct (default_threshold_ok spec Hc) as (p & -> & Hp). done.
Qed.

(** When an operation needs a second person. *)
Definition gated (op : OperationFacts) (policy : DualControlPolicy) (today : NaiveDate) : Prop :=
  match of_kind op with
  | KPeriodReopen => True
  | KPayerClosure => of_has_outstanding_balance op = true
  | KMaterialBackdating => exists eff, of_effective_at op = Some eff /\ eff < today /\
      a6_backdating_biz_days policy < weekdays_until today - weekdays_until eff
  | _ => exists amt, of_amount op = Some amt /\ threshold_units policy (currency amt) <= Z.abs (posted_units amt)
  end.

Lemma amount_gate op policy today : policy_ok policy -> (forall amt, of_amount op = Some amt -> posted_ok amt) ->
  gate_rule (of_kind op) = GateAmount ->
  match requires_dual_control op policy today with
  | Ok b => b = true <-> exists amt, of_amount op = Some amt /\ threshold_units policy (currency amt) <= Z.abs (posted_units amt)
  | Err e => exists amt v, of_amount op = Some amt /\ d2_get (d2_thresholds policy) (code (currency amt)) = Some v /\
      currency_scale (currency v) <> currency_scale (currency amt) /\
      e = MetadataConflict (code (currency amt)) (currency_scale (currency v)) (currency_scale (currency amt))
  end.
Proof.
  intros Hp Hamt Hr. unfold requires_dual_control. rewrite Hr. destruct (of_amount op) as [amt|].
  - specialize (Hamt amt eq_refl). pose proof (d2_threshold_spec policy (currency amt) Hp ltac:(apply Hamt)) as Ht.
    destruct (d2_threshold policy (currency amt)) as [t|e]; cbn [mbind result_bind].
    + rewrite dec_leb_units, units_abs, Z.leb_le. fold (posted_units t) (posted_units amt). rewrite Ht. naive_solver.
    + destruct Ht as (v & ? & ? & ?). by exists amt, v.
  - split; [done|]. by intros (amt & ? & _).
Qed.

(** C35: the dual-control gate is exact.  Under a well-formed policy,
    [requires_dual_control] answers yes exactly when: the period is reopened; a payer
    with an outstanding balance is closed; a back-dated posting lies more business
    days in the past than the window allows; or, for every other kind, there is an
    amount whose magnitude reaches the threshold of its currency (the configured
    one, or 100000 increments).  The only failure is a configured threshold whose
    scale differs from the amount's: the default is always representable. *)
Theorem dual_control_exact op policy today :
  policy_ok policy -> (forall amt, of_amount op = Some amt -> posted_ok amt) ->
  match requires_dual_control op policy today with
  | Ok b => b = true <-> gated op policy today
  | Err e => exists amt v, of_amount op = Some amt /\ d2_get (d2_thresholds policy) (code (currency amt)) = Some v /\
      currency_scale (currency v) <> currency_scale (currency amt) /\
      e = MetadataConflict (code (currency amt)) (currency_scale (currency v)) (currency_scale (currency amt))
  end.
Proof.
  intros Hp Hamt. pose proof (amount_gate op policy today Hp Hamt) as Ha. pose proof (po_a6 policy Hp) as Ha6. unfold A6_MIN_DAYS in Ha6.
  unfold gated. destruct (of_kind op) eqn:Hk; cbn [gate_rule] in Ha; try exact (Ha eq_refl); clear Ha;
    unfold requires_dual_control; rewrite Hk; cbn [gate_rule].
  - destruct (of_effective_at op) as [eff|]; [|by split; [|intros (? & ? & _)]].
    rewrite Z.ltb_lt, business_days_closed. destruct (Z.ltb_spec eff today).
    + split; [intros; by exists eff|]. by intros (e & [= <-] & _ & ?).
    + split; [lia|]. intros (e & [= <-] & ? & _). lia.
  - done.
  - done.
Qed.
End thresholds.

Section witnesses.
Import ConcreteDecimal MoneySamples.

Definition sample_policy : DualControlPolicy :=
  mkDualControlPolicy (mkD2Thresholds [("EUR"%string, eur 50000)]) 5 86400.

Lemma sample_policy_ok : policy_ok sample_policy.
Proof.
  split; [|cbn; unfold A6_MIN_DAYS, A6_MAX_DAYS; lia|done]. split; [repeat constructor|].
  cbn [d2_map d2_thresholds sample_policy]. intros c v [= -> ->]%list_elem_of_singleton.
  split_and!; [done|by apply eur_ok|]. unfold threshold_in_bounds. ground.
Qed.

Definition sample_refund : OperationFacts := mkOperationFacts KRefund (Some (eur (-60000))) None false.

Definition is_gated {E} (r : result E bool) : bool := match r with Ok b => b | Err _ => false end.

Lemma dual_control_exact_witness :
  is_gated (requires_dual_control sample_refund sample_policy 20000) = true /\ gated sample_refund sample_policy 20000.
Proof.
  assert (Hr : is_gated (requires_dual_control sample_refund sample_policy 20000) = true) by (vm_compute; reflexivity).
  split; [exact Hr|].
  pose proof (dual_control_exact sample_refund sample_policy 20000 sample_policy_ok) as Ht.
  destruct (requires_dual_control sample_refund sample_policy 20000) as [b|e]; cbn [is_gated] in Hr; [|done].
  apply Ht; [|exact Hr]. intros amt [= <-]. by apply eur_ok.
Defined.
End witnesses.
