(* ===== verification/Recognition.v ===== *)
(** * Revenue recognition schedules: [ledger/src/domain/recognition/{input,ports,
    builder}.rs]

    An invoice item is recognised at once or deferred over equal segments of
    consecutive periods.  The three resolver traits are classes, with the default
    resolvers as instances; the builder is modelled against the classes.  The file
    shows that whatever the resolvers answer, a schedule the builder derives defers
    the whole item and passes the checks every stored schedule is held to, and it
    characterises the materiality test. *)

From Stdlib Require Import Ascii.
From S2P Require Import Prelude Decimal Money Exact ExactGrid Allocate Sdk DomainErrors MoneyText Period FxTranslate.
Local Open Scope Z_scope.

Inductive RecognitionTiming :=
| PointInTime
| StraightLine (periods : Z) (first_period_id : option string).

Definition is_deferred (t : RecognitionTiming) : bool :=
  match t with StraightLine _ _ => true | PointInTime => false end.

Record RecognitionInput := mkRecognitionInput {
  ri_policy_ref : string;
  ri_timing : RecognitionTiming;
  ri_po_allocation_group : option string;
  ri_multi_po : bool;
  ri_ssp_snapshot_ref : option string;
  ri_subscription_ref : option string;
  ri_vc_estimate_ref : option string;
  ri_vc_method_ref : option string;
  ri_immaterial_one_shot_sku : bool;
}.

Definition ssp_snapshot_missing (input : RecognitionInput) : bool :=
  ri_multi_po input &&
  match ri_ssp_snapshot_ref input with
  | None => true
  | Some s => bool_decide (s = EmptyString)
  end.

Record ResolvedPolicy := mkResolvedPolicy {
  rp_policy_ref : string;
  rp_timing : RecognitionTiming;
}.

Record RecognitionConfig := mkRecognitionConfig {
  max_segments_per_schedule : Z;
  recognition_run_tick_secs : Z;
}.

Section recognition.
Context `{RustDecimal}.

Record RecognitionContext := mkRecognitionContext {
  rc_input : RecognitionInput;
  rc_invoice_period_id : string;
  rc_item_amount_ex_tax : PostedMoney;
  rc_invoice_total : PostedMoney;
  rc_revenue_stream : string;
}.

(** ** The ports *)

Class DeferralPolicyResolver (P : Type) :=
  resolve_policy : P -> RecognitionContext -> result DomainError ResolvedPolicy.
Class SspResolver (S : Type) :=
  resolve_ssp : S -> RecognitionContext -> result DomainError (option string).
Class VcResolver (V : Type) :=
  resolve_vc : V -> RecognitionContext -> result DomainError (option string * option string).

Inductive DefaultDeferralPolicyResolver := default_policy.
Inductive DefaultSspResolver := default_ssp.
Inductive DefaultVcResolver := default_vc.

#[global] Instance default_policy_resolver : DeferralPolicyResolver DefaultDeferralPolicyResolver := fun _ ctx =>
  timing ← match ri_timing (rc_input ctx) with
           | PointInTime => Ok PointInTime
           | StraightLine periods first_period_id =>
               let first := default (rc_invoice_period_id ctx) first_period_id in
               match period_id_plus first 0 with
               | None => Err DomainError.RecognitionPolicyConflict
               | Some _ => Ok (StraightLine periods (Some first))
               end
           end;
  Ok (mkResolvedPolicy (ri_policy_ref (rc_input ctx)) timing).

#[global] Instance default_ssp_resolver : SspResolver DefaultSspResolver := fun _ ctx =>
  if ssp_snapshot_missing (rc_input ctx) then Err DomainError.SspSnapshotRequired
  else Ok (ri_ssp_snapshot_ref (rc_input ctx)).

#[global] Instance default_vc_resolver : VcResolver DefaultVcResolver := fun _ ctx =>
  Ok (ri_vc_estimate_ref (rc_input ctx), ri_vc_method_ref (rc_input ctx)).

(** ** The plan *)

Record PlannedSegment := mkPlannedSegment {
  segment_no : Z;
  segment_period_id : string;
  segment_amount : PostedMoney;
}.

Record BuiltSchedule := mkBuiltSchedule {
  bs_deferred : PostedMoney;
  bs_segments : list PlannedSegment;
  bs_policy_ref : string;
  bs_ssp_snapshot_ref : option string;
  bs_po_allocation_group : option string;
  bs_subscription_ref : option string;
  bs_vc_estimate_ref : option string;
  bs_vc_method_ref : option string;
  bs_revenue_stream : string;
}.

Inductive ScheduleOutcome :=
| NoDeferral
| Schedule (schedule : BuiltSchedule).

Definition outcome_deferred (o : ScheduleOutcome) : option PostedMoney :=
  match o with NoDeferral => None | Schedule s => Some (bs_deferred s) end.

(** One turn of the loop of [validate_plan]; the state is the index, the sum and the
    period before. *)
Definition validate_segment (deferred : PostedMoney) (acc : nat * ExactAmount * option string)
    (segment : PlannedSegment) : result DomainError (nat * ExactAmount * option string) :=
  let '(index, sum, prior) := acc in
  expected ← ok_or (n ← checked_i32 (Z.of_nat index); checked_i32 (n + 1)) DomainError.ScheduleTooLong;
  let period := segment_period_id segment in
  _ ← matching_spec deferred (segment_amount segment);
  if negb (segment_no segment =? expected) then Err DomainError.RecognitionPolicyConflict
  else if is_sign_negative (amount (segment_amount segment)) then Err DomainError.RecognitionPolicyConflict
  else if negb (bool_decide (length (bytes period) = 6%nat)) || negb (forallb is_ascii_digit (bytes period))
          || bool_decide (period_id_plus period 0 = None)
  then Err DomainError.RecognitionPolicyConflict
  else if from_option (fun p => match String.compare p period with Lt => false | _ => true end) false prior
  then Err DomainError.RecognitionPolicyConflict
  else
    sum ← map_err map_exact_error (checked_add sum (from_decimal (amount (segment_amount segment))));
    Ok (S index, sum, Some period).

Definition validate_plan (self : BuiltSchedule) (max_segments : Z) : result DomainError unit :=
  let segments := bs_segments self in
  if bool_decide (segments = []) || (max_segments <? Z.of_nat (length segments))
  then Err DomainError.ScheduleTooLong
  else if is_sign_negative (amount (bs_deferred self)) then Err DomainError.RecognitionPolicyConflict
  else
    '(_, sum, _) ← fold_res (validate_segment (bs_deferred self)) (0%nat, from_decimal ZERO, None) segments;
    if negb (exact_eqb sum (from_decimal (amount (bs_deferred self))))
    then Err DomainError.RecognitionPolicyConflict
    else Ok tt.

(** ** The builder *)

Definition validate_context (ctx : RecognitionContext) : result DomainError unit :=
  _ ← matching_spec (rc_item_amount_ex_tax ctx) (rc_invoice_total ctx);
  if is_sign_negative (amount (rc_item_amount_ex_tax ctx)) then Err DomainError.AmountOutOfRange else Ok tt.

Definition segment_count (periods ceiling : Z) : result DomainError Z :=
  if periods =? 0 then Err DomainError.AmountOutOfRange
  else
    _ ← ok_or (checked_i32 periods) DomainError.ScheduleTooLong;
    if ceiling <? periods then Err DomainError.ScheduleTooLong else Ok periods.

(** Ten thousand quanta of the item's currency, and a hundredth of the invoice. *)
Definition is_immaterial (item invoice : PostedMoney) : result DomainError bool :=
  _ ← matching_spec item invoice;
  absolute_ceiling ← map_err map_money_error
    (posted_try_new (from_i128_with_scale 10000 (currency_scale (currency item))) (currency item));
  let item_exact := from_decimal (amount item) in
  map_err map_exact_error
    (slack ← checked_sub (from_decimal (amount absolute_ceiling)) item_exact;
     let above_absolute := is_negative slack in
     hundred_item ← checked_mul item_exact (from_decimal (from_i128_with_scale 100 0));
     rest ← checked_sub (from_decimal (amount invoice)) hundred_item;
     let above_relative := is_negative rest in
     Ok (negb above_absolute && negb above_relative)).

(** One turn of the layout loop. *)
Definition plan_segment (first_period_id : string) (i : nat) (amt : PostedMoney) :
    result DomainError PlannedSegment :=
  period_id ← ok_or (period_id_plus first_period_id (Z.of_nat i)) DomainError.AmountOutOfRange;
  segment_no ← ok_or (checked_i32 (Z.of_nat i + 1)) DomainError.AmountOutOfRange;
  Ok (mkPlannedSegment segment_no period_id amt).

Definition plan_straight_line (config : RecognitionConfig) (deferred : PostedMoney) (periods : Z)
    (first_period_id : string) : result DomainError (list PlannedSegment) :=
  n ← segment_count periods (max_segments_per_schedule config);
  amounts ← map_err map_exact_error (allocate deferred (repeat ONE (Z.to_nat n)) Last);
  if existsb (fun a => is_sign_negative (amount a)) amounts then Err DomainError.AmountOutOfRange
  else map_res (fun ia => plan_segment first_period_id (fst ia) (snd ia)) (imap pair amounts).

Record ScheduleBuilder (P S V : Type) := mkScheduleBuilder {
  sb_policy : P;
  sb_ssp : S;
  sb_vc : V;
  sb_config : RecognitionConfig;
}.
Arguments sb_policy {P S V} _.
Arguments sb_ssp {P S V} _.
Arguments sb_vc {P S V} _.
Arguments sb_config {P S V} _.

Definition derive {P S V} `{!DeferralPolicyResolver P, !SspResolver S, !VcResolver V}
    (self : ScheduleBuilder P S V) (ctx : RecognitionContext) : result DomainError ScheduleOutcome :=
  _ ← validate_context ctx;
  ssp_snapshot_ref ← resolve_ssp (sb_ssp self) ctx;
  resolved ← resolve_policy (sb_policy self) ctx;
  match rp_timing resolved with
  | PointInTime => Ok NoDeferral
  | StraightLine periods first_period_id =>
      exempt ← (if ri_immaterial_one_shot_sku (rc_input ctx)
                then is_immaterial (rc_item_amount_ex_tax ctx) (rc_invoice_total ctx) else Ok false);
      if (exempt : bool) then Ok NoDeferral
      else
        first_period_id ← ok_or first_period_id DomainError.RecognitionPolicyConflict;
        let deferred := rc_item_amount_ex_tax ctx in
        segments ← plan_straight_line (sb_config self) deferred periods first_period_id;
        '(vc_estimate_ref, vc_method_ref) ← resolve_vc (sb_vc self) ctx;
        Ok (Schedule {| bs_deferred := deferred;
                        bs_segments := segments;
                        bs_policy_ref := rp_policy_ref resolved;
                        bs_ssp_snapshot_ref := ssp_snapshot_ref;
                        bs_po_allocation_group := ri_po_allocation_group (rc_input ctx);
                        bs_subscription_ref := ri_subscription_ref (rc_input ctx);
                        bs_vc_estimate_ref := vc_estimate_ref;
                        bs_vc_method_ref := vc_method_ref;
                        bs_revenue_stream := rc_revenue_stream ctx |})
  end.

(** ** The layout *)

Lemma posted_sign p : posted_ok p -> is_sign_negative (amount p) = (posted_units p <? 0).
Proof.
  intros (_ & [_ Hz] & _). unfold posted_units, units. pose proof (scale_bound (amount p)) as Hs.
  pose proof (pow10_pos (max_scale - scale (amount p)) ltac:(unfold max_scale in *; lia)).
  destruct (Z.lt_trichotomy (mantissa (amount p)) 0) as [Hm|[Hm|Hm]].
  - rewrite sign_negative by done. symmetry. apply Z.ltb_lt. nia.
  - rewrite (Hz Hm), Hm. done.
  - rewrite sign_positive by done. symmetry. apply Z.ltb_ge. nia.
Qed.

(** The segments of [amounts] from the [k]th month after [first] on. *)
Definition layout (first : Z) (k : nat) (amounts : list PostedMoney) : list PlannedSegment :=
  imap (fun i a => mkPlannedSegment (Z.of_nat (k + i) + 1) (period_of (first + Z.of_nat (k + i))) a) amounts.

Lemma layout_cons first k a amounts :
  layout first k (a :: amounts)
    = mkPlannedSegment (Z.of_nat k + 1) (period_of (first + Z.of_nat k)) a :: layout first (S k) amounts.
Proof.
  unfold layout. rewrite imap_cons, Nat.add_0_r. f_equal. apply imap_ext. intros i x _. cbn.
  by replace (k + S i)%nat with (S (k + i)) by lia.
Qed.

Lemma plan_segment_ok first i a : in_calendar first -> Z.of_nat i + 1 <= i32_max ->
  plan_segment (period_of first) i a
    = Ok (mkPlannedSegment (Z.of_nat i + 1) (period_of (first + Z.of_nat i)) a).
Proof.
  intros Hf Hi. unfold plan_segment, checked_i32, in_i32. rewrite period_id_plus_of by done.
  by rewrite (proj2 (Z.leb_le i32_min _)), (proj2 (Z.leb_le _ i32_max)) by (unfold i32_min, i32_max in *; lia).
Qed.

Lemma plan_segments_ok first k amounts segs : in_calendar first ->
  Z.of_nat (k + length amounts) <= i32_max ->
  map_res (fun ia => plan_segment (period_of first) (fst ia) (snd ia)) (imap (fun i a => ((k + i)%nat, a)) amounts) = Ok segs <->
  segs = layout first k amounts.
Proof.
  intros Hf. revert k segs. induction amounts as [|a amounts IH]; intros k segs Hk.
  { cbn. split; [by intros [= <-]|by intros ->]. }
  rewrite imap_cons, layout_cons, Nat.add_0_r. cbn [map_res fst snd length] in *.
  rewrite plan_segment_ok by (done || lia). cbn [mbind result_bind].
  rewrite (imap_ext _ (fun i x => ((S k + i)%nat, x))) by (intros; cbn; f_equal; lia).
  rewrite bind_ok. setoid_rewrite (IH (S k)); [|lia]. split.
  - by intros (ys & -> & [= <-]).
  - intros ->. by exists (layout first (S k) amounts).
Qed.

Lemma segment_count_ok periods ceiling n : 0 <= periods -> segment_count periods ceiling = Ok n <->
  n = periods /\ 1 <= periods <= ceiling /\ periods <= i32_max.
Proof.
  intros Hp. unfold segment_count, checked_i32, in_i32. destruct (Z.eqb_spec periods 0); [split; [done|lia]|].
  rewrite (proj2 (Z.leb_le i32_min periods)) by (unfold i32_min; lia). cbn [andb].
  destruct (Z.leb_spec periods i32_max); cbn [ok_or mbind result_bind]; [|split; [done|lia]].
  destruct (Z.ltb_spec ceiling periods); [split; [done|lia]|]. split; [intros [= <-]; lia|]. by intros [-> _].
Qed.

Lemma plan_ok config d periods first segs : posted_ok d -> 0 <= periods -> in_calendar first ->
  plan_straight_line config d periods (period_of first) = Ok segs ->
  exists amounts, segs = layout first 0 amounts /\ Z.of_nat (length amounts) = periods /\
    1 <= periods <= max_segments_per_schedule config /\ periods <= i32_max /\
    Forall (fun a => posted_ok a /\ currency a = currency d /\ 0 <= posted_units a) amounts /\
    sum_Z posted_units amounts = posted_units d.
Proof.
  intros Hd Hp Hf. unfold plan_straight_line.
  intros (n & (-> & Hn & Hi)%segment_count_ok & (amounts & Ha%map_err_ok & Hrun)%bind_ok)%bind_ok; [|done].
  apply allocate_total_kept in Ha as (Hlen & Hall & Hsum); [|done]. rewrite repeat_length in Hlen.
  destruct (existsb _ amounts) eqn:Hex; [done|].
  apply (plan_segments_ok first 0) in Hrun; [|done|cbn; lia]. exists amounts.
  split; [done|]. split; [lia|]. split; [done|]. split; [done|]. split; [|done].
  apply Forall_lookup_2. intros i a Hia. destruct (Forall_lookup_1 _ _ _ _ Hall Hia) as [Hok Hcur].
  split; [done|]. split; [done|]. assert (Hs : is_sign_negative (amount a) = false).
  { apply not_true_iff_false. intros Hs. apply not_true_iff_false in Hex. apply Hex, existsb_exists.
    exists a. by rewrite <- list_elem_of_In; split; [eapply list_elem_of_lookup_2|]. }
  rewrite posted_sign in Hs by done. by apply Z.ltb_ge in Hs.
Qed.

(** ** The plan passes its checks *)

(** The period before the [k]th segment. *)
Definition prior_of (first : Z) (k : nat) : option string :=
  match k with O => None | S k => Some (period_of (first + Z.of_nat k)) end.

Lemma period_text_ok n : in_calendar n ->
  length (bytes (period_of n)) = 6%nat /\ forallb is_ascii_digit (bytes (period_of n)) = true /\
  period_id_plus (period_of n) 0 <> None.
Proof.
  intros Hn. rewrite period_id_plus_of by done. destruct (period_of_digits n Hn) as (l & -> & Hd & Hl & _).
  unfold bytes. rewrite String.list_ascii_of_string_of_list_ascii. apply all_digits_forallb in Hd. done.
Qed.

Lemma validate_segment_ok d first k z c a :
  currency a = currency d -> posted_ok a -> 0 <= posted_units a ->
  in_calendar (first + Z.of_nat k) -> in_calendar first -> Z.of_nat k + 1 <= i32_max ->
  Z.abs z <= 10 ^ 57 * c -> c + 1 < 2 ^ 100 ->
  validate_segment d (k, of_units z, prior_of first k)
    (mkPlannedSegment (Z.of_nat k + 1) (period_of (first + Z.of_nat k)) a)
  = Ok (S k, of_units (z + posted_units a), prior_of first (S k)).
Proof.
  intros Hcur Hok Ha Hcal Hfirst Hk Hz Hc. unfold validate_segment, checked_i32, in_i32.
  cbn [segment_no segment_period_id segment_amount].
  rewrite (proj2 (Z.leb_le i32_min (Z.of_nat k))), (proj2 (Z.leb_le (Z.of_nat k) i32_max)) by (unfold i32_min, i32_max in *; lia).
  cbn [andb mbind option_bind].
  rewrite (proj2 (Z.leb_le i32_min (Z.of_nat k + 1))), (proj2 (Z.leb_le (Z.of_nat k + 1) i32_max)) by (unfold i32_min, i32_max in *; lia).
  cbn [andb ok_or mbind result_bind]. rewrite (proj2 (matching_spec_ok d a tt)) by done. cbn [mbind result_bind].
  rewrite Z.eqb_refl, posted_sign, (proj2 (Z.ltb_ge _ _)) by done. cbn [negb].
  destruct (period_text_ok _ Hcal) as (Hl & Hd & Hp). rewrite Hl, Hd, bool_decide_true, bool_decide_false by done. cbn [negb orb].
  replace (from_option _ false (prior_of first k)) with false.
  - pose proof (posted_units_small a). rewrite from_decimal_units. fold (posted_units a).
    rewrite checked_add_units; [done|apply (small_bound _ c); lia|apply (small_bound _ 1); lia|apply (small_bound _ (c + 1)); lia].
  - destruct k as [|k]; [done|]. cbn [prior_of from_option]. unfold in_calendar in *. rewrite period_order by (unfold in_calendar; lia).
    rewrite (proj2 (Z.compare_lt_iff _ _)) by lia. done.
Qed.

Lemma validate_loop d first amounts : in_calendar first ->
  Forall (fun a => posted_ok a /\ currency a = currency d /\ 0 <= posted_units a) amounts ->
  forall k z c, in_calendar (first + Z.of_nat (k + length amounts) - 1) -> Z.of_nat (k + length amounts) <= i32_max ->
  Z.abs z <= 10 ^ 57 * c -> c + Z.of_nat (length amounts) < 2 ^ 100 ->
  fold_res (validate_segment d) (k, of_units z, prior_of first k) (layout first k amounts)
    = Ok ((k + length amounts)%nat, of_units (z + sum_Z posted_units amounts), prior_of first (k + length amounts)).
Proof.
  intros Hfirst. induction 1 as [|a amounts (Hok & Hcur & Ha) _ IH]; intros k z c Hcal Hi Hz Hc.
  { cbn [length layout imap fold_res]. by rewrite Nat.add_0_r, sum_Z_nil, Z.add_0_r. }
  rewrite layout_cons. cbn [fold_res length] in *. unfold in_calendar in *.
  rewrite (validate_segment_ok _ _ _ _ c) by (done || (unfold in_calendar; lia) || lia). cbn [mbind result_bind].
  pose proof (posted_units_small a).
  rewrite (IH (S k) _ (c + 1)) by lia. rewrite sum_Z_cons, Z.add_assoc.
  by replace (S k + length amounts)%nat with (k + S (length amounts))%nat by lia.
Qed.

(** Derived schedules are valid.  Whatever the resolvers are, when the policy
    resolves to a straight line from a proper period and the builder derives a
    schedule, it defers the whole item over that many segments, and the schedule
    passes [validate_plan]: numbered segments in consecutive periods, none negative,
    that add up to the item exactly. *)
Theorem derived_schedule_valid {P S V} `{!DeferralPolicyResolver P, !SspResolver S, !VcResolver V}
    (self : ScheduleBuilder P S V) ctx ref periods first s :
  posted_ok (rc_item_amount_ex_tax ctx) -> 0 <= periods ->
  resolve_policy (sb_policy self) ctx
    = Ok (mkResolvedPolicy ref (StraightLine periods (Some (period_of first)))) ->
  in_calendar first -> in_calendar (first + periods - 1) ->
  derive self ctx = Ok (Schedule s) ->
  bs_deferred s = rc_item_amount_ex_tax ctx /\ Z.of_nat (length (bs_segments s)) = periods /\
  validate_plan s (max_segments_per_schedule (sb_config self)) = Ok tt.
Proof.
  intros Hd Hp Hres Hfirst Hlast. unfold derive, validate_context.
  intros ([] & ([] & _ & Hneg)%bind_ok & (ssp & _ & Hrun)%bind_ok)%bind_ok.
  rewrite posted_sign in Hneg by done. destruct (Z.ltb_spec (posted_units (rc_item_amount_ex_tax ctx)) 0) as [|Hpos]; [done|].
  rewrite Hres in Hrun. cbn [mbind result_bind rp_timing] in Hrun.
  apply bind_ok in Hrun as (exempt & _ & Hrun). destruct exempt; [done|]. cbn [ok_or mbind result_bind] in Hrun.
  apply bind_ok in Hrun as (segs & Hplan & Hrun). apply bind_ok in Hrun as ([est meth] & _ & [= <-]).
  destruct (plan_ok _ _ _ _ _ Hd Hp Hfirst Hplan) as (amounts & -> & Hlen & Hmax & Hi & Hall & Hsum).
  split; [done|]. cbn [bs_segments]. assert (Hll : length (layout first 0 amounts) = length amounts) by apply length_imap.
  split; [by rewrite Hll|]. unfold validate_plan. cbn [bs_segments bs_deferred].
  rewrite Hll, bool_decide_false by (intros Hnil; rewrite Hnil in Hll; cbn in Hll; lia). cbn [orb].
  rewrite (proj2 (Z.ltb_ge _ _)) by lia. rewrite posted_sign, (proj2 (Z.ltb_ge _ _)) by done.
  rewrite !from_decimal_units, units_ZERO.
  assert (Hbig : i32_max < 2 ^ 100) by by vm_compute.
  pose proof (validate_loop _ first amounts Hfirst Hall 0 0 0) as Hv. change (prior_of first 0) with (@None string) in Hv.
  rewrite Hv by (unfold in_calendar in *; cbn [Nat.add]; lia). cbn [mbind result_bind]. rewrite Z.add_0_l, Hsum. fold (posted_units (rc_item_amount_ex_tax ctx)).
  by rewrite exact_eqb_units, Z.eqb_refl.
Qed.

(** ** Materiality *)

Lemma integer_units c : Z.abs c < 10 ^ 28 -> units (from_i128_with_scale c 0) = c * grid.
Proof.
  intros Hc. assert (10 ^ 28 < decimal_limit) by by vm_compute.
  destruct (from_i128_with_scale_spec c 0) as [Hm Hs]; [lia|split; discriminate|]. exact (units_canonical _ _ _ Hm Hs).
Qed.

Lemma hundred_units T : Z.abs T < 10 ^ 57 ->
  checked_mul (of_units T) (of_units (100 * grid)) = Ok (of_units (100 * T)).
Proof.
  intros HT. rewrite product_units by (done || by vm_compute). f_equal. pose proof grid_pos.
  apply of_units_of_Q; [nia|]. ring.
Qed.

(** The materiality exemption is the documented inequality: an item is immaterial
    exactly when it is at most ten thousand quanta of its currency and at most a
    hundredth of the invoice, both exactly; the only error is a currency that does not
    match. *)
Theorem is_immaterial_exact item invoice b : posted_ok item ->
  is_immaterial item invoice = Ok b <->
  currency item = currency invoice /\
  b = bool_decide (posted_units item <= 10000 * 10 ^ (28 - currency_scale (currency item)) /\
                   100 * posted_units item <= posted_units invoice).
Proof.
  intros Hitem. unfold is_immaterial. rewrite bind_ok. destruct Hitem as [Hcur _].
  set (sc := currency_scale (currency item)). set (ceiling := from_i128_with_scale 10000 sc).
  assert (Hunits : units ceiling = 10000 * 10 ^ (28 - sc)).
  { destruct (from_i128_with_scale_spec 10000 sc) as [Hm Hs]; [by vm_compute|done|]. by apply units_canonical. }
  assert (Hceil : exists p, posted_try_new ceiling (currency item) = Ok p /\ posted_units p = 10000 * 10 ^ (28 - sc)).
  { pose proof (posted_try_new_spec ceiling (currency item) Hcur) as Hspec.
    destruct (posted_try_new ceiling (currency item)) as [p|e]; [exists p; split; [done|]; destruct Hspec as (_ & _ & ->); done|].
    exfalso. destruct e; try done; apply Hspec; [|rewrite Hunits; by exists 10000].
    destruct (from_i128_with_scale_spec 10000 sc) as [Hm Hs]; [by vm_compute|done|].
    pose proof (normalize_value ceiling) as Hn. unfold ceiling in *. rewrite Hm, Hs in Hn.
    pose proof (normalize_scale_le (from_i128_with_scale 10000 sc)) as Hle. rewrite Hs in Hle.
    pose proof (scale_bound (normalize (from_i128_with_scale 10000 sc))) as Hb.
    pose proof (pow10_le _ _ (conj (proj1 Hb) Hle)) as Hpow. pose proof (pow10_pos _ (proj1 Hb)).
    assert (10000 < 10 ^ 28) by done. nia. }
  destruct Hceil as (p & Hp & Hpu). pose proof (posted_units_small item) as Hi. pose proof (posted_units_small invoice) as Hv.
  pose proof (posted_units_small p) as Hps.
  rewrite Hp. cbn [map_err mbind result_bind]. rewrite !from_decimal_units, integer_units by by vm_compute.
  fold (posted_units p) (posted_units item) (posted_units invoice). rewrite checked_sub_units by (apply (small_bound _ 2); lia || done).
  cbn [mbind result_bind]. rewrite hundred_units by done. cbn [mbind result_bind].
  rewrite checked_sub_units by (apply (small_bound _ 101); lia || done). cbn [map_err mbind result_bind].
  rewrite !is_negative_units, Hpu.
  assert (Hb : forall x y z w, negb (x - y <? 0) && negb (z - w <? 0) = bool_decide (y <= x /\ w <= z)).
  { intros x y z w. symmetry. destruct (Z.ltb_spec (x - y) 0), (Z.ltb_spec (z - w) 0); cbn;
      [apply bool_decide_eq_false|apply bool_decide_eq_false|apply bool_decide_eq_false|apply bool_decide_eq_true]; lia. }
  rewrite Hb. split.
  - by intros ([] & ->%matching_spec_ok & [= <-]).
  - intros [Hs ->]. exists tt. by rewrite matching_spec_ok.
Qed.
End recognition.

Section witnesses.
Import ConcreteDecimal MoneySamples.

Definition sample_builder : ScheduleBuilder DefaultDeferralPolicyResolver DefaultSspResolver DefaultVcResolver :=
  mkScheduleBuilder _ _ _ default_policy default_ssp default_vc (mkRecognitionConfig 120 300).

(** 100.00 EUR over twelve months, the first taken from the invoice. *)
Definition sample_context : RecognitionContext :=
  mkRecognitionContext
    (mkRecognitionInput "policy-1" (StraightLine 12 None) None false None (Some "sub-1"%string) None None true)
    "202611" (eur 10000) (eur 50000) "subscription".

Definition is_schedule (o : result DomainError ScheduleOutcome) : bool :=
  match o with Ok (Schedule _) => true | _ => false end.

Lemma is_schedule_exists o : is_schedule o = true -> exists s, o = Ok (Schedule s).
Proof. destruct o as [[|s]|]; try done. by exists s. Qed.

Lemma derived_schedule_valid_witness :
  exists s, derive sample_builder sample_context = Ok (Schedule s) /\ validate_plan s 120 = Ok tt.
Proof.
  destruct (is_schedule_exists (derive sample_builder sample_context)) as [s Hs]; [vm_compute; reflexivity|].
  exists s. split; [exact Hs|].
  destruct (derived_schedule_valid sample_builder sample_context "policy-1" 12 24322 s) as (_ & _ & Hv);
    [exact (eur_ok 10000 eq_refl)|lia|vm_compute; reflexivity|unfold in_calendar; lia|unfold in_calendar; lia
    |exact Hs|exact Hv].
Defined.

Example schedule_sample :
  (fun o => match o with Schedule s => map (fun g => (segment_no g, segment_period_id g, posted_units (segment_amount g)))
      (drop 10 (bs_segments s)) | NoDeferral => [] end) <$> derive sample_builder sample_context
  = Ok [(11, "202709"%string, posted_units (eur 833)); (12, "202710"%string, posted_units (eur 837))].
Proof. vm_compute. reflexivity. Qed.

Lemma is_immaterial_exact_witness : is_immaterial (eur 10000) (eur 1000000) = Ok true.
Proof.
  apply (proj2 (is_immaterial_exact (eur 10000) (eur 1000000) true (eur_ok 10000 eq_refl))).
  split; [reflexivity|]. vm_compute. reflexivity.
Defined.
End witnesses.
