(* ===== verification/ExactText.v ===== *)
(** * Exact amounts as text: [canonical_at_scale] and [Display] of
    [libs/money/src/exact.rs]

    Messages and split evidence print exact amounts on a posting grid.  The file shows
    that an amount on the grid always prints, and that the text of a posting's value
    parses back to the posting's amount. *)

From Stdlib Require Import Ascii.
From S2P Require Import Prelude Decimal Money Exact ExactGrid MoneyText.

(** [to_str_radix(10)] of a magnitude; a number has no more digits than bits. *)
Definition to_str_radix (n : Z) : list ascii := int_digits (S (Z.to_nat (Z.log2 n))) n.

(** The text of a coefficient other than zero at a positive scale. *)
Definition scaled_text (neg : bool) (digits : list ascii) (scale : nat) : list ascii :=
  let padded :=
    if (length digits <=? scale)%nat
    then repeat "0"%char (scale + 1 - length digits) ++ digits else digits in
  let whole := take (length padded - scale) padded in
  let fraction := trim_end_matches "0"%char (drop (length padded - scale) padded) in
  decimal_text neg whole (if is_empty fraction then None else Some fraction).

Definition canonical_at_scale (self : ExactAmount) (scale : Z) : result ExactError string :=
  if 28 <? scale then Err (ExactError.Money MoneyError.ScaleOutOfRange)
  else
    _ ← check_budget self;
    scaled ← product (numerator self) (ten_pow scale);
    if negb (Z.rem scaled (denominator self) =? 0)
    then Err (ExactError.Money MoneyError.InvalidPostingIncrement)
    else
      let coefficient := Z.quot scaled (denominator self) in
      let digits := to_str_radix (Z.abs coefficient) in
      if coefficient =? 0 then Ok "0"%string
      else
        let neg := coefficient <? 0 in
        Ok (String.string_of_list_ascii
              (if scale =? 0 then decimal_text neg digits None
               else scaled_text neg digits (Z.to_nat scale))).

(** [Display]: the first scale that holds the amount, else the fraction itself. *)
Definition exact_to_string (self : ExactAmount) : string :=
  match omap (fun s => match canonical_at_scale self (Z.of_nat s) with Ok t => Some t | Err _ => None end)
             (seq 0 29) with
  | text :: _ => text
  | [] =>
      String.string_of_list_ascii
        (decimal_text (numerator self <? 0) (to_str_radix (Z.abs (numerator self))) None)
      +:+ "/" +:+ String.string_of_list_ascii (to_str_radix (denominator self))
  end.

Lemma to_str_radix_spec n : 0 <= n ->
  all_digits (to_str_radix n) /\ to_str_radix n <> [] /\ digits_value (to_str_radix n) = n /\
  (0 < n -> starts_with "0"%char (to_str_radix n) = false).
Proof.
  intros Hn. unfold to_str_radix. set (k := Z.to_nat (Z.log2 n)).
  destruct (int_digits_spec (S k) n) as (Hd & Hl & Hv & Hz & _); [lia| |].
  - split; [done|]. assert (n < 2 ^ Z.of_nat (S k)).
    { destruct (Z.eq_dec n 0) as [->|]; [done|]. unfold k. rewrite Nat2Z.inj_succ, Z2Nat.id by apply Z.log2_nonneg.
      apply Z.log2_spec. lia. }
    apply Z.lt_le_trans with (2 ^ Z.of_nat (S k)); [done|]. apply Z.pow_le_mono_l. lia.
  - split_and!; [done| |done|done]. intros E. rewrite E in Hl. cbn in Hl. lia.
Qed.

(** The length of a digit string without leading zeros. *)
Lemma digits_length l n : all_digits l -> starts_with "0"%char l = false -> l <> [] ->
  0 <= n -> digits_value l < 10 ^ n -> Z.of_nat (length l) <= n.
Proof.
  intros Hd Hz Hl Hn Hv. destruct l as [|c l]; [done|]. apply Forall_cons in Hd as [Hc Hd].
  change (c :: l) with ([c] ++ l) in Hv. rewrite digits_value_app in Hv.
  pose proof (digits_value_range l Hd) as Hr. change (digits_value [c]) with (digit_val c) in Hv.
  pose proof (digit_val_range c Hc). assert (digit_val c <> 0).
  { intros E. apply digit_val_zero in E; [|done]. subst. done. }
  cbn [length]. destruct (Z.le_gt_cases (Z.of_nat (S (length l))) n) as [|Hgt]; [done|].
  pose proof (pow10_le n (Z.of_nat (length l)) ltac:(lia)). nia.
Qed.

(** The text of a coefficient is plain decimal text of its value. *)
Lemma scaled_text_wf neg digits s : all_digits digits -> digits <> [] ->
  starts_with "0"%char digits = false -> (0 < s)%nat ->
  exists whole fraction, scaled_text neg digits s = decimal_text neg whole (trim_fraction (Some fraction)) /\
    wf_text whole (Some fraction) /\ length fraction = s /\
    digits_value (whole ++ fraction) = digits_value digits /\
    length whole = (1 `max` (length digits - s))%nat.
Proof.
  intros Hd Hne Hz Hs. unfold scaled_text.
  set (padded := if (length digits <=? s)%nat then _ else digits).
  assert (Hp : all_digits padded /\ (s < length padded)%nat /\ digits_value padded = digits_value digits /\
    length padded = (S s `max` length digits)%nat /\
    (s + 1 < length padded -> starts_with "0"%char padded = false)%nat).
  { unfold padded. destruct (Nat.leb_spec (length digits) s).
    - rewrite length_app, repeat_length, digits_value_app, repeat_zero_value. split_and!; try lia.
      apply Forall_app. split; [|done]. apply Forall_forall. by intros x ->%list_elem_of_In%repeat_spec.
    - split_and!; try done; lia. }
  destruct Hp as (Hpd & Hpl & Hpv & Hpm & Hpz). clearbody padded.
  exists (take (length padded - s) padded), (drop (length padded - s) padded).
  assert (Hfl : length (drop (length padded - s) padded) = s) by (rewrite length_drop; lia).
  split_and!; [| |done|by rewrite take_drop|rewrite length_take; lia].
  - unfold trim_fraction. by destruct (trim_end_matches _ _).
  - split.
    + intros E%(f_equal length). rewrite length_take in E. cbn in E. lia.
    + by apply Forall_take.
    + rewrite length_take. intros Hlen. specialize (Hpz ltac:(lia)). destruct padded as [|c l]; [done|].
      cbn [length] in *. destruct (S (length l) - s)%nat eqn:E; [lia|]. done.
    + intros [= E]. rewrite E in Hfl. cbn in Hfl. lia.
    + by apply Forall_drop.
Qed.

(** An amount on the grid of a scale has a whole coefficient there. *)
Lemma scaled_units k s : 0 <= s <= 28 ->
  numerator (of_units (k * 10 ^ (28 - s))) * ten_pow s = k * denominator (of_units (k * 10 ^ (28 - s))).
Proof.
  intros Hs. destruct (of_units_parts (k * 10 ^ (28 - s))) as (g & Hgpos & Hn & Hdn).
  set (n := numerator _) in *. set (d := denominator _) in *. unfold ten_pow.
  pose proof (pow10_pos (28 - s) ltac:(lia)).
  assert (Hgrid : grid = 10 ^ s * 10 ^ (28 - s)) by (apply pow10_split; lia).
  apply (Z.mul_cancel_r _ _ (g * 10 ^ (28 - s))); [nia|].
  transitivity (g * n * (10 ^ s * 10 ^ (28 - s))); [ring|]. rewrite <- Hn, <- Hgrid, Hdn. ring.
Qed.

Lemma canonical_at_scale_units k s : small (k * 10 ^ (28 - s)) -> 0 <= s <= 28 ->
  canonical_at_scale (of_units (k * 10 ^ (28 - s))) s =
  Ok (if k =? 0 then "0"%string
      else String.string_of_list_ascii
             (if s =? 0 then decimal_text (k <? 0) (to_str_radix (Z.abs k)) None
              else scaled_text (k <? 0) (to_str_radix (Z.abs k)) (Z.to_nat s))).
Proof.
  intros Hz Hs. destruct (of_units_inv _ Hz) as (Hd & _ & Hb). unfold canonical_at_scale.
  rewrite (proj2 (Z.ltb_ge 28 s)) by lia. rewrite check_budget_spec, Hb. cbn [mbind result_bind].
  apply in_budget_iff in Hb as [Hbn _]. pose proof (ten_pow_final s Hs).
  rewrite product_in_budget by lia. cbn [mbind result_bind]. rewrite scaled_units by done.
  rewrite Z.rem_mul, Z.quot_mul by lia. cbn [negb Z.eqb]. by destruct (k =? 0).
Qed.

Section text.
Context `{DecimalText}.

Lemma coefficient_text_parses d k s whole fraction text :
  canonical d -> Z.abs (mantissa d) < COEFFICIENT_LIMIT -> 0 <= s <= 28 ->
  mantissa d * 10 ^ s = k * 10 ^ scale d ->
  bytes text = decimal_text (k <? 0) whole (trim_fraction fraction) -> wf_text whole fraction ->
  Z.of_nat (length (frac_digits fraction)) = s -> digits_value (whole ++ frac_digits fraction) = Z.abs k ->
  (length whole <= 30)%nat -> parse_decimal text = Ok d.
Proof.
  intros Hc Hl Hs Hval Hb Hwf Hfl Hv Hwl. destruct (trim_fraction_wf _ _ Hwf) as (Hwf' & z & Hz).
  apply parse_decimal_ok. split_and!; [done|done| |].
  - rewrite byte_len_bytes, Hb. unfold decimal_text, MAX_DECIMAL_BYTES. rewrite Hz, length_app in Hfl.
    rewrite !length_app. destruct (trim_fraction fraction), (k <? 0); cbn [length frac_digits default id] in *; lia.
  - exists (k <? 0), whole, (trim_fraction fraction). split_and!; [done|done| |].
    + apply denotes_trim; [done|]. unfold denotes, signed_value. rewrite Hfl, Hv, Hval.
      destruct (Z.ltb_spec k 0); f_equal; lia.
    + intros Hk%Z.ltb_lt Hm. rewrite Hm in Hval. pose proof (pow10_pos (scale d) (proj1 (scale_bound d))). nia.
Qed.

(** The exact value of a posting always prints, and the text parses back to the
    posting's amount. *)
Theorem exact_text_roundtrip p : posted_ok p ->
  exists text, canonical_at_scale (from_decimal (amount p)) (currency_scale (currency p)) = Ok text /\
    parse_decimal text = Ok (amount p).
Proof.
  intros Hp. destruct (posted_units_grid p Hp) as [k Hk]. pose proof Hp as (Hcur & Hcan & Hlim & _).
  set (s := currency_scale (currency p)) in *. pose proof (posted_units_small p) as Hsm. unfold currency_ok in Hcur. fold s in Hcur.
  pose proof (pow10_pos (28 - s) ltac:(lia)) as Hpow.
  rewrite from_decimal_units. fold (posted_units p). rewrite Hk, canonical_at_scale_units;
    [|apply (small_bound _ 1); lia|done]. eexists. split; [done|].
  assert (Hval : mantissa (amount p) * 10 ^ s = k * 10 ^ scale (amount p)).
  { pose proof (units_scaled (amount p)) as Hu. fold (posted_units p) in Hu. rewrite Hk in Hu.
    unfold max_scale in Hu. rewrite (pow10_split s 28 Hcur) in Hu. nia. }
  destruct (Z.eqb_spec k 0) as [->|Hnz].
  { apply (coefficient_text_parses _ 0 0 ["0"%char] None); [done|done|lia| |done| |done|done|cbn; lia].
    - pose proof (pow10_pos s ltac:(lia)). nia.
    - split; [done|by repeat constructor|cbn; lia|done|constructor]. }
  destruct (to_str_radix_spec (Z.abs k) ltac:(lia)) as (Hd & Hne & Hv & Hz). specialize (Hz ltac:(lia)).
  assert (Hlen : Z.of_nat (length (to_str_radix (Z.abs k))) <= 29 + s).
  { apply digits_length; [done|done|done|lia|]. rewrite Hv.
    replace (29 + s) with (57 - (28 - s)) by lia. pose proof (pow10_split (28 - s) 57 ltac:(lia)). nia. }
  destruct (Z.eqb_spec s 0) as [Hs0|Hs0].
  - apply (coefficient_text_parses _ k s (to_str_radix (Z.abs k)) None); [done|done|lia|done| | |cbn; lia|by rewrite app_nil_r|lia].
    + unfold bytes. by rewrite String.list_ascii_of_string_of_list_ascii.
    + by split; [| |intros _| |constructor].
  - destruct (scaled_text_wf (k <? 0) (to_str_radix (Z.abs k)) (Z.to_nat s)) as (w & f & -> & Hwf & Hfl & Hwv & Hwl);
      [done|done|done|lia|].
    apply (coefficient_text_parses _ k s w (Some f)); [done|done|lia|done| |done|cbn; lia|cbn [frac_digits default id]; by rewrite Hwv|lia].
    unfold bytes. by rewrite String.list_ascii_of_string_of_list_ascii.
Qed.
End text.

Section witnesses.
Import ConcreteDecimal MoneySamples.

Example exact_text_samples :
  canonical_at_scale (from_decimal (amount (eur (-105)))) 2 = Ok "-1.05"%string /\
  canonical_at_scale (from_decimal (amount (eur 5000))) 2 = Ok "50"%string /\
  exact_to_string (from_decimal (amount (eur 7))) = "0.07"%string /\
  exact_to_string (mkExact (-2) 3) = "-2/3"%string.
Proof. vm_compute. split_and!; reflexivity. Qed.
End witnesses.
