(* ===== verification/Reconciliation.v ===== *)
(** * Reconciliation: [domain/reconciliation.rs]

    A tie-out folds postings into grain totals, compares them, and decides whether the
    differences are rounding or block the period close.  A grain total is exact or
    untrusted, and an untrusted one never ties out.  The file shows that a folded grain
    holds the exact sum precisely when every posting has its currency and scale, and
    that both decisions are exact: within tolerance means no hard defect and every
    currency inside its budget. *)

From S2P Require Import Prelude BTree Decimal Money Exact ExactGrid DomainErrors MoneyText ExactText.

Definition CHECK_AR_DERIVED : string := "AR_DERIVED".
Definition CHECK_PAYMENTS_PSP : string := "PAYMENTS_PSP".
Definition CHECK_INVOICE_COMPLETENESS : string := "INVOICE_COMPLETENESS".

(** The product of [rust_decimal]: exact when coefficient and scale stay in range. *)
Class DecimalMul `{RustDecimal} := {
  dec_mul : Decimal -> Decimal -> Decimal;
  dec_mul_exact a b :
    Z.abs (mantissa a * mantissa b) < decimal_limit -> scale a + scale b <= max_scale ->
    mantissa (dec_mul a b) = mantissa a * mantissa b /\ scale (dec_mul a b) = scale a + scale b;
}.

Section reconciliation.
Context `{RustDecimal}.

Inductive ReconciliationVariance :=
| VarianceMoney (by_currency : list PostedMoney)
| MissingInvoices (count : Z).

Definition variance_is_zero (v : ReconciliationVariance) : bool :=
  match v with
  | VarianceMoney by_currency => forallb (fun m => is_zero (amount m)) by_currency
  | MissingInvoices count => count =? 0
  end.

(** ** Grain totals *)

Inductive GrainTotal :=
| GrainExact (sum : ScaledSum)
| GrainUntrusted.

Record GrainAmount := mkGrainAmount {
  ga_currency : string;
  ga_currency_scale : Z;
  ga_total : GrainTotal;
}.

Inductive GrainError :=
| GEUntrusted (currency : string)
| GEMetadata (e : MoneyError)
| GEOutOfRange (e : ExactError).

Definition same_metadata (g : GrainAmount) (cur : string) (sc : Z) : bool :=
  bool_decide (ga_currency g = cur) && (ga_currency_scale g =? sc).

Definition grain_eqb (g other : GrainAmount) : bool :=
  bool_decide (ga_currency g = ga_currency other)
  && (ga_currency_scale g =? ga_currency_scale other)
  && match ga_total g, ga_total other with
     | GrainExact l, GrainExact r => sum_eqb l r
     | GrainUntrusted, GrainUntrusted => true
     | _, _ => false
     end.

Definition grain_zero (cur : string) (sc : Z) : GrainAmount :=
  mkGrainAmount cur sc (GrainExact (sum_zero sc)).

Definition grain_untrusted (cur : string) (sc : Z) : GrainAmount :=
  mkGrainAmount cur sc GrainUntrusted.

Definition mark_untrusted (g : GrainAmount) : GrainAmount :=
  mkGrainAmount (ga_currency g) (ga_currency_scale g) GrainUntrusted.

Definition is_untrusted (g : GrainAmount) : bool :=
  match ga_total g with GrainUntrusted => true | GrainExact _ => false end.

Definition add_posted (g : GrainAmount) (delta : PostedMoney) : GrainAmount :=
  if negb (same_metadata g (code (currency delta)) (currency_scale (currency delta))) then mark_untrusted g
  else
    match ga_total g with
    | GrainUntrusted => g
    | GrainExact sum =>
        match add_decimal sum (amount delta) with
        | Ok sum' => mkGrainAmount (ga_currency g) (ga_currency_scale g) (GrainExact sum')
        | Err _ => mark_untrusted g
        end
    end.

Definition from_posted (m : PostedMoney) : GrainAmount :=
  add_posted (grain_zero (code (currency m)) (currency_scale (currency m))) m.

Definition add_grain (g other : GrainAmount) : GrainAmount :=
  if negb (same_metadata g (ga_currency other) (ga_currency_scale other)) then mark_untrusted g
  else
    match ga_total other with
    | GrainUntrusted => mark_untrusted g
    | GrainExact theirs =>
        match ga_total g with
        | GrainUntrusted => g
        | GrainExact ours =>
            match add_sum ours theirs with
            | Ok sum' => mkGrainAmount (ga_currency g) (ga_currency_scale g) (GrainExact sum')
            | Err _ => mark_untrusted g
            end
        end
    end.

Definition grain_exact (g : GrainAmount) : option ExactAmount :=
  match ga_total g with
  | GrainExact sum => Some (to_exact sum)
  | GrainUntrusted => None
  end.

Definition differs_from (g other : GrainAmount) : bool :=
  match ga_total g, ga_total other with
  | GrainExact l, GrainExact r =>
      negb (same_metadata g (ga_currency other) (ga_currency_scale other)) || negb (sum_eqb l r)
  | _, _ => true
  end.

Definition grain_is_zero (g : GrainAmount) : bool :=
  match ga_total g with
  | GrainExact sum => sum_is_zero sum
  | GrainUntrusted => false
  end.

Definition grain_text (g : GrainAmount) : string :=
  if is_untrusted g then "<untrusted>"
  else match grain_exact g with
       | Some v => match canonical_at_scale v (ga_currency_scale g) with
                   | Ok t => t
                   | Err _ => "<unrenderable>"
                   end
       | None => "<unrenderable>"
       end.

Definition grain_to_posted (g : GrainAmount) : result GrainError PostedMoney :=
  match ga_total g with
  | GrainUntrusted => Err (GEUntrusted (ga_currency g))
  | GrainExact sum =>
      spec ← map_err GEMetadata (currency_spec_try_new (ga_currency g) (ga_currency_scale g));
      map_err GEOutOfRange (sum_to_posted sum spec)
  end.

(** ** Tolerance *)

Record ToleranceDecision := mkToleranceDecision {
  td_variance : ReconciliationVariance;
  within_tolerance : bool;
}.

(** [Decimal::from] of an unsigned integer and [Decimal::new]. *)
Definition decimal_from (n : Z) : Decimal := from_i128_with_scale n 0.

Definition tolerance_budget `{!DecimalMul} (increments items : Z) (spec : CurrencySpec) : Decimal :=
  dec_mul (dec_mul (decimal_from increments) (decimal_from (Z.max (items / 1000) 1)))
          (from_i128_with_scale 1 (currency_scale spec)).

Definition absolute_difference (a b : PostedMoney) : result DomainError PostedMoney :=
  diff ← subtract_posted a b;
  if is_sign_negative (amount diff)
  then map_err map_money_error (posted_try_new (dec_neg (amount diff)) (currency diff))
  else Ok diff.

(** One divergence: the flag of hard defects and the buckets per currency. *)
Definition divergence_step (st : bool * list (string * (Z * ExactAmount))) (p : GrainAmount * GrainAmount) :
    result DomainError (bool * list (string * (Z * ExactAmount))) :=
  let '(hard, buckets) := st in
  let '(computed, cached) := p in
  match grain_exact computed, grain_exact cached with
  | Some computed_value, Some cached_value =>
      if negb (same_metadata computed (ga_currency cached) (ga_currency_scale cached)) then Ok (true, buckets)
      else
        diff ← map_err map_exact_error (checked_sub computed_value cached_value);
        magnitude ← (if is_negative diff
                     then map_err map_exact_error (checked_sub (from_decimal ZERO) diff)
                     else Ok diff);
        match bt_get String.compare (ga_currency computed) buckets with
        | None =>
            Ok (hard, bt_insert String.compare (ga_currency computed) (ga_currency_scale computed, magnitude) buckets)
        | Some (sc, sum) =>
            if negb (sc =? ga_currency_scale computed) then Ok (true, buckets)
            else
              sum' ← map_err map_exact_error (checked_add sum magnitude);
              Ok (hard, bt_insert String.compare (ga_currency computed) (sc, sum') buckets)
        end
  | _, _ => Ok (true, buckets)
  end.

(** The total of one currency and whether it is within its budget. *)
Definition bucket_total `{!DecimalMul} (items increments_per_k : Z) (b : string * (Z * ExactAmount)) :
    result DomainError (PostedMoney * bool) :=
  let '(cur, (sc, sum)) := b in
  spec ← map_err map_money_error (currency_spec_try_new cur sc);
  let budget := tolerance_budget increments_per_k items spec in
  total ← map_err map_exact_error (into_posted_exact sum spec);
  Ok (total, negb (dec_ltb budget (amount total))).

Definition ar_tolerance_decision `{!DecimalMul} (divergences : list (GrainAmount * GrainAmount))
    (structural_defect : bool) (items increments_per_k : Z) : result DomainError ToleranceDecision :=
  '(hard_defect, buckets) ← fold_res divergence_step (structural_defect, []) divergences;
  totals ← map_res (bucket_total items increments_per_k) buckets;
  Ok (mkToleranceDecision (VarianceMoney (fst <$> totals)) (negb hard_defect && forallb snd totals)).

Definition psp_tolerance_decision `{!DecimalMul} (ledger_settled psp_settled : PostedMoney)
    (settlements increments_per_k : Z) : result DomainError ToleranceDecision :=
  bucket ← absolute_difference ledger_settled psp_settled;
  let budget := tolerance_budget increments_per_k settlements (currency psp_settled) in
  Ok (mkToleranceDecision (VarianceMoney [bucket]) (dec_leb (amount bucket) budget)).
End reconciliation.

(** ** Sums *)

Section sums.
Context `{RustDecimal}.

Lemma sum_eqb_holds s z t y : sum_holds s z -> sum_holds t y -> sum_eqb s t = (z =? y).
Proof.
  intros Hs Ht. unfold sum_eqb.
  assert (Hslow : exact_eqb (to_exact s) (to_exact t) = (z =? y)).
  { by rewrite (to_exact_holds s z Hs), (to_exact_holds t y Ht), exact_eqb_units. }
  destruct (form s) as [c|] eqn:Es, (form t) as [d|] eqn:Et; [|done..].
  destruct (Z.eqb_spec (sum_scale s) (sum_scale t)) as [He|]; [|done].
  destruct Hs as [Hsc Hz], Ht as [_ Hy]. rewrite Es in Hz. rewrite Et in Hy. rewrite <- He in Hy.
  pose proof (pow10_pos (28 - sum_scale s) ltac:(lia)).
  destruct (Z.eqb_spec c d), (Z.eqb_spec z y); try done; nia.
Qed.

(** The value of an exact total, in units. *)
Definition sum_units (s : ScaledSum) : Z :=
  match form s with
  | Coefficient c => c * 10 ^ (28 - sum_scale s)
  | Fraction v => numerator v * grid / denominator v
  end.

Lemma sum_units_holds s z : sum_holds s z -> sum_units s = z.
Proof.
  unfold sum_holds, sum_units. destruct (form s); intros [Hs Hz]; [done|]. subst value.
  destruct (of_units_parts z) as (g & Hg & Hn & Hd). pose proof grid_pos.
  set (n := numerator (of_units z)) in *. set (d := denominator (of_units z)) in *. clearbody n d.
  replace (n * grid) with (z * d) by (rewrite Hn, Hd; ring). apply Z.div_mul. nia.
Qed.

Lemma units_of_from_i128 c s : Z.abs c < decimal_limit -> 0 <= s <= 28 ->
  units (from_i128_with_scale c s) = c * 10 ^ (28 - s).
Proof. intros Hc Hs. destruct (from_i128_with_scale_spec c s Hc Hs) as [Hm Hsc]. unfold units. by rewrite Hm, Hsc. Qed.

(** The budget, exactly. *)
Definition budget_units (increments items : Z) (sc : Z) : Z :=
  increments * Z.max (items / 1000) 1 * 10 ^ (28 - sc).

Lemma tolerance_budget_units `{!DecimalMul} increments items spec :
  0 <= increments < 2 ^ 32 -> 0 <= items < 2 ^ 64 -> currency_ok spec ->
  units (tolerance_budget increments items spec) = budget_units increments items (currency_scale spec).
Proof.
  intros Hi Hn Hc. unfold currency_ok in Hc. set (m := Z.max (items / 1000) 1).
  assert (Hm : 1 <= m <= 2 ^ 62).
  { assert (2 ^ 64 / 1000 < 2 ^ 62) by by vm_compute. pose proof (Z.div_le_mono items (2 ^ 64) 1000). unfold m. lia. }
  assert (Hlim : 2 ^ 32 * 2 ^ 62 < decimal_limit) by by vm_compute. unfold tolerance_budget, decimal_from. fold m.
  destruct (from_i128_with_scale_spec increments 0) as [A1 A2]; [nia|done|].
  destruct (from_i128_with_scale_spec m 0) as [B1 B2]; [nia|done|].
  destruct (from_i128_with_scale_spec 1 (currency_scale spec)) as [C1 C2]; [nia|done|].
  destruct (dec_mul_exact (from_i128_with_scale increments 0) (from_i128_with_scale m 0)) as [D1 D2].
  { rewrite A1, B1. nia. }
  { rewrite A2, B2. unfold max_scale. lia. }
  destruct (dec_mul_exact (dec_mul (from_i128_with_scale increments 0) (from_i128_with_scale m 0))
    (from_i128_with_scale 1 (currency_scale spec))) as [E1 E2].
  { rewrite D1, A1, B1, C1. nia. }
  { rewrite D2, A2, B2, C2. unfold max_scale. lia. }
  unfold units, budget_units. rewrite E1, E2, D1, D2, A1, A2, B1, B2, C1, C2. unfold max_scale, m.
  rewrite Z.mul_1_r, !Z.add_0_l. done.
Qed.
End sums.

(** ** Folding a grain *)

Section grains.
Context `{RustDecimal}.

Definition fold_grain (cur : string) (sc : Z) (ps : list PostedMoney) : GrainAmount :=
  fold_left add_posted ps (grain_zero cur sc).

Definition in_grain (cur : string) (sc : Z) (p : PostedMoney) : Prop :=
  code (currency p) = cur /\ currency_scale (currency p) = sc.

Lemma same_metadata_spec g cur sc : same_metadata g cur sc = true <-> ga_currency g = cur /\ ga_currency_scale g = sc.
Proof. unfold same_metadata. by rewrite andb_true_iff, bool_decide_eq_true, Z.eqb_eq. Qed.

Lemma add_posted_meta g p : ga_currency (add_posted g p) = ga_currency g /\ ga_currency_scale (add_posted g p) = ga_currency_scale g.
Proof. unfold add_posted. destruct (negb _); [done|]. destruct (ga_total g) as [s|] eqn:E; [|done]. by destruct (add_decimal _ _). Qed.

Lemma fold_grain_meta cur sc ps : ga_currency (fold_grain cur sc ps) = cur /\ ga_currency_scale (fold_grain cur sc ps) = sc.
Proof.
  induction ps as [|p ps IH] using rev_ind; [done|]. unfold fold_grain in *. rewrite fold_left_app. cbn [fold_left].
  by destruct (add_posted_meta (fold_left add_posted ps (grain_zero cur sc)) p) as [-> ->].
Qed.

Lemma fold_grain_spec cur sc ps : 0 <= sc <= 28 -> vec_ok ps ->
  match ga_total (fold_grain cur sc ps) with
  | GrainExact s => Forall (in_grain cur sc) ps /\ sum_holds s (sum_Z posted_units ps)
  | GrainUntrusted => ~ Forall (in_grain cur sc) ps
  end.
Proof.
  intros Hsc. induction ps as [|p ps IH] using rev_ind; intros Hv.
  { cbn. split; [constructor|by apply sum_zero_holds]. }
  assert (Hv' : vec_ok ps) by (unfold vec_ok in *; rewrite length_app in Hv; lia). specialize (IH Hv').
  unfold fold_grain in *. rewrite fold_left_app. cbn [fold_left]. set (g := fold_left add_posted ps (grain_zero cur sc)) in *.
  destruct (fold_grain_meta cur sc ps) as [Hgc Hgs]. unfold fold_grain in Hgc, Hgs. fold g in Hgc, Hgs.
  unfold add_posted. destruct (same_metadata g (code (currency p)) (currency_scale (currency p))) eqn:Hm; cbn [negb].
  - apply same_metadata_spec in Hm as [Hm1 Hm2].
    assert (Hp : in_grain cur sc p) by (split; congruence).
    destruct (ga_total g) as [s|] eqn:Hg.
    + destruct IH as [Hall Hs].
      destruct (add_decimal_holds s _ (amount p) Hs) as (s' & -> & Hs' & _).
      * by apply (sum_units_small amount).
      * apply (sum_units_small amount) in Hv. unfold posted_units. by rewrite sum_Z_snoc in Hv.
      * cbn [ga_total]. split; [apply Forall_app; split; [done|by constructor]|]. by rewrite sum_Z_snoc.
    + rewrite Hg. intros [? _]%Forall_app. done.
  - cbn [ga_total mark_untrusted]. intros [_ [Hp1 Hp2]%Forall_inv]%Forall_app.
    assert (same_metadata g (code (currency p)) (currency_scale (currency p)) = true) by (apply same_metadata_spec; split; congruence).
    congruence.
Qed.

(** A baseline and the fold of what came after it. *)
Lemma add_grain_spec cur sc ps1 ps2 : 0 <= sc <= 28 -> vec_ok (ps1 ++ ps2) ->
  let g := add_grain (fold_grain cur sc ps1) (fold_grain cur sc ps2) in
  ga_currency g = cur /\ ga_currency_scale g = sc /\
  match ga_total g with
  | GrainExact s => Forall (in_grain cur sc) (ps1 ++ ps2) /\ sum_holds s (sum_Z posted_units (ps1 ++ ps2))
  | GrainUntrusted => ~ Forall (in_grain cur sc) (ps1 ++ ps2)
  end.
Proof.
  intros Hsc Hv. assert (Hv1 : vec_ok ps1) by (unfold vec_ok in *; rewrite length_app in Hv; lia).
  assert (Hv2 : vec_ok ps2) by (unfold vec_ok in *; rewrite length_app in Hv; lia).
  pose proof (fold_grain_spec cur sc ps1 Hsc Hv1) as H1. pose proof (fold_grain_spec cur sc ps2 Hsc Hv2) as H2.
  destruct (fold_grain_meta cur sc ps1) as [A1 A2], (fold_grain_meta cur sc ps2) as [B1 B2].
  unfold add_grain. rewrite (proj2 (same_metadata_spec _ _ _)) by (split; congruence). cbn [negb].
  assert (HF : Forall (in_grain cur sc) (ps1 ++ ps2) <-> Forall (in_grain cur sc) ps1 /\ Forall (in_grain cur sc) ps2)
    by apply Forall_app.
  destruct (ga_total (fold_grain cur sc ps2)) as [t|] eqn:E2.
  2:{ cbn. split_and!; [done|done|]. tauto. }
  destruct (ga_total (fold_grain cur sc ps1)) as [s|] eqn:E1.
  2:{ rewrite E1. split_and!; [done|done|]. tauto. }
  destruct H1 as [F1 S1], H2 as [F2 S2].
  destruct (add_sum_holds s _ t _ S1 S2) as (s' & -> & Hs' & _).
  - by apply (sum_units_small amount).
  - by apply (sum_units_small amount).
  - rewrite <- sum_Z_app. by apply (sum_units_small amount).
  - cbn. split_and!; [done|done|by apply HF|]. by rewrite sum_Z_app.
Qed.

Lemma differs_spec g1 g2 z1 z2 (P1 P2 : Prop) :
  match ga_total g1 with GrainExact s => P1 /\ sum_holds s z1 | GrainUntrusted => ~ P1 end ->
  match ga_total g2 with GrainExact s => P2 /\ sum_holds s z2 | GrainUntrusted => ~ P2 end ->
  differs_from g1 g2 = false <->
  ga_currency g1 = ga_currency g2 /\ ga_currency_scale g1 = ga_currency_scale g2 /\ P1 /\ P2 /\ z1 = z2.
Proof.
  intros H1 H2. unfold differs_from. destruct (ga_total g1) as [s|]; [|split; [done|tauto]].
  destruct (ga_total g2) as [t|]; [|split; [done|tauto]]. destruct H1 as [? Hs], H2 as [? Ht].
  rewrite orb_false_iff, !negb_false_iff, same_metadata_spec, (sum_eqb_holds s z1 t z2 Hs Ht), Z.eqb_eq. tauto.
Qed.

(** A tie-out is exact and never passes untrusted evidence.  Two grains folded
    from lists of postings tie out ([differs_from] is false) exactly when they have the
    same currency and scale, every posting of both lists has that currency and scale,
    and the two exact sums are equal; and adding the fold of the open part to a stored
    baseline ties out with the fold of the whole exactly when every posting belongs to
    the grain. *)
Theorem grain_tie_out c1 s1 ps1 c2 s2 ps2 :
  0 <= s1 <= 28 -> 0 <= s2 <= 28 -> vec_ok (ps1 ++ ps2) ->
  (differs_from (fold_grain c1 s1 ps1) (fold_grain c2 s2 ps2) = false <->
   c1 = c2 /\ s1 = s2 /\ Forall (in_grain c1 s1) ps1 /\ Forall (in_grain c2 s2) ps2 /\
   sum_Z posted_units ps1 = sum_Z posted_units ps2) /\
  (differs_from (add_grain (fold_grain c1 s1 ps1) (fold_grain c1 s1 ps2)) (fold_grain c1 s1 (ps1 ++ ps2)) = false <->
   Forall (in_grain c1 s1) (ps1 ++ ps2)).
Proof.
  intros Hs1 Hs2 Hv. assert (Hv1 : vec_ok ps1) by (unfold vec_ok in *; rewrite length_app in Hv; lia).
  assert (Hv2 : vec_ok ps2) by (unfold vec_ok in *; rewrite length_app in Hv; lia). split.
  - rewrite (differs_spec _ _ _ _ _ _ (fold_grain_spec c1 s1 ps1 Hs1 Hv1) (fold_grain_spec c2 s2 ps2 Hs2 Hv2)).
    destruct (fold_grain_meta c1 s1 ps1) as [-> ->], (fold_grain_meta c2 s2 ps2) as [-> ->]. done.
  - destruct (add_grain_spec c1 s1 ps1 ps2 Hs1 Hv) as (A1 & A2 & A3).
    rewrite (differs_spec _ _ _ _ _ _ A3 (fold_grain_spec c1 s1 (ps1 ++ ps2) Hs1 Hv)), A1, A2.
    destruct (fold_grain_meta c1 s1 (ps1 ++ ps2)) as [-> ->]. tauto.
Qed.
End grains.

(** ** The decision on divergences *)

Section decision.
Context `{DM : DecimalMul}.
Implicit Types (p q : GrainAmount * GrainAmount) (ds : list (GrainAmount * GrainAmount)).

Definition grain_units (g : GrainAmount) : Z :=
  match ga_total g with GrainExact s => sum_units s | GrainUntrusted => 0 end.

(** A grain that folding at most [2^64] postings can produce. *)
Definition grain_ok (g : GrainAmount) : Prop :=
  match ga_total g with
  | GrainExact s => 0 <= ga_currency_scale g <= 28 /\
      exists z, sum_holds s z /\ (10 ^ (28 - ga_currency_scale g) | z) /\ Z.abs z <= 10 ^ 57 * 2 ^ 64
  | GrainUntrusted => True
  end.

(** Both totals are trusted and in the same grain. *)
Definition clean p : bool :=
  negb (is_untrusted (fst p)) && negb (is_untrusted (snd p))
  && same_metadata (fst p) (ga_currency (snd p)) (ga_currency_scale (snd p)).

Definition div_currency p : string := ga_currency (fst p).
Definition div_scale p : Z := ga_currency_scale (fst p).
Definition magnitude p : Z := Z.abs (grain_units (fst p) - grain_units (snd p)).
Definition div_key p : option string := if clean p then Some (div_currency p) else None.

(** The divergence of a currency: the first scale seen, and what has that scale. *)
Definition currency_units ds (cur : string) : Z :=
  match group div_key cur ds with
  | [] => 0
  | p :: _ => sum_Z (fun q => if div_scale q =? div_scale p then magnitude q else 0) (group div_key cur ds)
  end.

Definition currency_bucket ds (cur : string) : option (Z * ExactAmount) :=
  match group div_key cur ds with
  | [] => None
  | p :: _ => Some (div_scale p, of_units (currency_units ds cur))
  end.

(** Every currency has one scale. *)
Definition scales_agree ds : Prop :=
  forall p q, p ∈ ds -> q ∈ ds -> clean p = true -> clean q = true ->
    div_currency p = div_currency q -> div_scale p = div_scale q.

Definition soft (structural : bool) ds : Prop :=
  structural = false /\ Forall (fun p => clean p = true) ds /\ scales_agree ds.

(** What the loop has computed. *)
Record decided (structural : bool) ds (hard : bool) (m : list (string * (Z * ExactAmount))) : Prop := mkDecided {
  dc_sorted : bt_sorted String.compare m;
  dc_buckets cur : bt_get String.compare cur m = currency_bucket ds cur;
  dc_hard : hard = false <-> soft structural ds;
}.

Lemma magnitude_bound ds p : Forall (fun d => grain_ok (fst d) /\ grain_ok (snd d)) ds -> p ∈ ds ->
  0 <= magnitude p <= 10 ^ 57 * 2 ^ 65.
Proof.
  intros Hok Hp. rewrite Forall_forall in Hok. destruct (Hok p Hp) as [H1 H2].
  assert (Hb : forall g, grain_ok g -> Z.abs (grain_units g) <= 10 ^ 57 * 2 ^ 64).
  { intros g. unfold grain_ok, grain_units. destruct (ga_total g); [|lia].
    intros (_ & z & Hz & _ & Hb). by rewrite (sum_units_holds _ _ Hz). }
  apply Hb in H1, H2. unfold magnitude. lia.
Qed.

Lemma wide_small z : Z.abs z <= 10 ^ 57 * 2 ^ 65 * 2 ^ 64 -> small z.
Proof. unfold small. assert (10 ^ 57 * 2 ^ 65 * 2 ^ 64 < 10 ^ 200) by by vm_compute. lia. Qed.

Lemma currency_units_bound ds cur : Forall (fun d => grain_ok (fst d) /\ grain_ok (snd d)) ds -> vec_ok ds ->
  0 <= currency_units ds cur <= 10 ^ 57 * 2 ^ 65 * Z.of_nat (length ds).
Proof.
  intros Hok Hv. pose proof (group_length div_key cur ds) as Hl. unfold currency_units.
  destruct (group div_key cur ds) as [|p ys] eqn:Hg; [lia|].
  assert (Hin : forall q, q ∈ p :: ys -> q ∈ ds) by (intros q Hq; rewrite <- Hg in Hq; by apply elem_of_group in Hq as [_ ?]).
  set (f := fun q => if div_scale q =? div_scale p then magnitude q else 0).
  assert (Hf : forall q, q ∈ p :: ys -> 0 <= f q <= 10 ^ 57 * 2 ^ 65).
  { intros q Hq. unfold f. pose proof (magnitude_bound ds q Hok (Hin q Hq)). destruct (_ =? _); lia. }
  split; [apply sum_Z_nonneg; intros q Hq; by apply Hf|].
  pose proof (sum_Z_bound f (10 ^ 57 * 2 ^ 65) (p :: ys) ltac:(intros q Hq; specialize (Hf q Hq); lia)). nia.
Qed.

(** A clean divergence: the difference of the two totals, and its magnitude. *)
Lemma clean_values p : grain_ok (fst p) /\ grain_ok (snd p) -> clean p = true ->
  exists a b, grain_exact (fst p) = Some a /\ grain_exact (snd p) = Some b /\
    same_metadata (fst p) (ga_currency (snd p)) (ga_currency_scale (snd p)) = true /\
    (diff ← map_err map_exact_error (checked_sub a b);
     if is_negative diff then map_err map_exact_error (checked_sub (from_decimal ZERO) diff) else Ok diff)
    = Ok (of_units (magnitude p)).
Proof.
  intros [H1 H2] Hc. unfold clean in Hc. apply andb_true_iff in Hc as [[Hu1 Hu2]%andb_true_iff Hmeta].
  unfold grain_ok, grain_exact, is_untrusted, magnitude, grain_units in *.
  destruct (ga_total (fst p)) as [s|]; [|done]. destruct (ga_total (snd p)) as [t|]; [|done].
  destruct H1 as (_ & z & Hz & _ & Bz), H2 as (_ & y & Hy & _ & By). exists (to_exact s), (to_exact t).
  split_and!; [done|done|done|]. rewrite (to_exact_holds _ _ Hz), (to_exact_holds _ _ Hy), (sum_units_holds _ _ Hz), (sum_units_holds _ _ Hy).
  rewrite checked_sub_units by (apply wide_small; lia). cbn [map_err mbind result_bind]. rewrite is_negative_units.
  destruct (Z.ltb_spec (z - y) 0).
  - rewrite from_decimal_units, units_ZERO, checked_sub_units; [|done|apply wide_small; lia..].
    cbn [map_err]. do 2 f_equal. lia.
  - do 2 f_equal. lia.
Qed.

(** How the definitions grow by one divergence. *)
Lemma group_snoc_other ds p cur : div_key p <> Some cur -> group div_key cur (ds ++ [p]) = group div_key cur ds.
Proof.
  intros Hk. rewrite group_app. unfold group at 2. cbn [List.filter]. rewrite bool_decide_false by done. apply app_nil_r.
Qed.

Lemma group_snoc_same ds p cur : div_key p = Some cur -> group div_key cur (ds ++ [p]) = group div_key cur ds ++ [p].
Proof. intros Hk. rewrite group_app. unfold group at 2. cbn [List.filter]. by rewrite bool_decide_true. Qed.

Lemma bucket_snoc_other ds p cur : div_key p <> Some cur -> currency_bucket (ds ++ [p]) cur = currency_bucket ds cur.
Proof. intros Hk. unfold currency_bucket, currency_units. by rewrite group_snoc_other. Qed.

Lemma soft_dirty structural ds p : clean p = false -> ~ soft structural (ds ++ [p]).
Proof. intros Hc (_ & Hf & _). apply Forall_app in Hf as [_ Hf%Forall_inv]. congruence. Qed.

Lemma soft_snoc structural ds p : clean p = true ->
  soft structural (ds ++ [p]) <->
  soft structural ds /\ (forall q, q ∈ group div_key (div_currency p) ds -> div_scale q = div_scale p).
Proof.
  intros Hc. unfold soft, scales_agree. split.
  - intros (Hs & [Hf _]%Forall_app & Ha). split_and!; [done|done| |].
    + intros q r Hq Hr. apply Ha; set_solver.
    + intros q [Hk Hq]%elem_of_group. unfold div_key in Hk. destruct (clean q) eqn:Hcq; [|done].
      apply Ha; [set_solver|set_solver|done|done|congruence].
  - intros ((Hs & Hf & Ha) & Hg). split_and!; [done|apply Forall_app; split; [done|by constructor]|].
    assert (Hp : forall q, q ∈ ds -> clean q = true -> div_currency q = div_currency p -> div_scale q = div_scale p).
    { intros q Hq Hcq Hcur. apply Hg, elem_of_group. unfold div_key. rewrite Hcq. by rewrite Hcur. }
    intros q r [Hq|Hq%list_elem_of_singleton]%elem_of_app [Hr|Hr%list_elem_of_singleton]%elem_of_app H1 H2 Hcur; subst; auto.
    symmetry. auto.
Qed.

Lemma group_scales structural ds cur p ys : soft structural ds -> group div_key cur ds = p :: ys ->
  forall q, q ∈ group div_key cur ds -> div_scale q = div_scale p.
Proof.
  intros (_ & _ & Ha) Hg q Hq. assert (Hp : p ∈ group div_key cur ds) by (rewrite Hg; by left).
  apply elem_of_group in Hp as [Hkp Hp], Hq as [Hkq Hq]. unfold div_key in *.
  destruct (clean p) eqn:?; [|done]. destruct (clean q) eqn:?; [|done]. apply Ha; [done..|congruence].
Qed.

Lemma divergence_step_decided structural ds p hard m :
  Forall (fun d => grain_ok (fst d) /\ grain_ok (snd d)) (ds ++ [p]) -> vec_ok (ds ++ [p]) ->
  decided structural ds hard m ->
  exists hard' m', divergence_step (hard, m) p = Ok (hard', m') /\ decided structural (ds ++ [p]) hard' m'.
Proof.
  intros Hok Hv [Hs Hb Hh]. pose proof Hok as [Hds Hp%Forall_inv]%Forall_app.
  assert (Hvd : vec_ok ds) by (unfold vec_ok in *; rewrite length_app in Hv; lia).
  destruct (clean p) eqn:Hc.
  2:{ exists true, m. split.
      - unfold divergence_step, grain_exact, clean, is_untrusted in *. destruct p as [c d]. cbn [fst snd] in *.
        destruct (ga_total c); [|done]. destruct (ga_total d); [|done]. cbn [negb andb] in Hc. by rewrite Hc.
      - split; [done| |split; [done|by intros ?%soft_dirty]]. intros cur. rewrite bucket_snoc_other, Hb; [done|].
        unfold div_key. by rewrite Hc. }
  destruct (clean_values p Hp Hc) as (a & b & Ha & Hbv & Hmeta & Hmag).
  assert (Hk : div_key p = Some (div_currency p)) by (unfold div_key; by rewrite Hc).
  set (cur := div_currency p) in *.
  assert (Hpos : 0 <= currency_units ds cur <= 10 ^ 57 * 2 ^ 65 * Z.of_nat (length ds)) by by apply currency_units_bound.
  assert (Hm : 0 <= magnitude p <= 10 ^ 57 * 2 ^ 65) by (eapply magnitude_bound; [exact Hok|set_solver]).
  assert (Hstep : divergence_step (hard, m) p =
    match bt_get String.compare cur m with
    | None => Ok (hard, bt_insert String.compare cur (div_scale p, of_units (magnitude p)) m)
    | Some (sc, sum) =>
        if negb (sc =? div_scale p) then Ok (true, m)
        else sum' ← map_err map_exact_error (checked_add sum (of_units (magnitude p)));
             Ok (hard, bt_insert String.compare cur (sc, sum') m)
    end).
  { unfold divergence_step. destruct p as [c d]. cbn [fst snd] in *. rewrite Ha, Hbv, Hmeta. cbn [negb].
    apply bind_ok in Hmag as (diff & -> & Hmag). cbn [mbind result_bind]. rewrite Hmag. done. }
  rewrite Hstep, Hb. clear Hstep. unfold currency_bucket.
  destruct (group div_key cur ds) as [|p0 ys] eqn:Hg.
  - exists hard, (bt_insert String.compare cur (div_scale p, of_units (magnitude p)) m). split; [done|].
    split; [by apply (bt_insert_sorted String.compare)| |].
    + intros k. rewrite (bt_get_insert String.compare) by done. case_decide as Hkc; [subst k|].
      * unfold currency_bucket, currency_units. rewrite group_snoc_same, Hg by done. cbn [app].
        by rewrite sum_Z_cons, sum_Z_nil, Z.eqb_refl, Z.add_0_r.
      * rewrite bucket_snoc_other, Hb by congruence. done.
    + rewrite Hh, soft_snoc by done. fold cur. rewrite Hg. split; [|tauto]. intros ?. split; [done|]. by intros q ?%not_elem_of_nil.
  - destruct (Z.eqb_spec (div_scale p0) (div_scale p)) as [Hsc|Hsc]; cbn [negb].
    + rewrite checked_add_units.
      2, 3: apply wide_small; unfold vec_ok in Hvd; nia.
      2: apply wide_small; unfold vec_ok in Hv; rewrite length_app in Hv; cbn in Hv; nia.
      cbn [map_err mbind result_bind]. eexists _, _. split; [done|]. split; [by apply (bt_insert_sorted String.compare)| |].
      * intros k. rewrite (bt_get_insert String.compare) by done. case_decide as Hkc; [subst k|].
        -- unfold currency_bucket, currency_units. rewrite group_snoc_same, Hg by done. cbn [app].
           by rewrite app_comm_cons, sum_Z_snoc, (proj2 (Z.eqb_eq _ _) (eq_sym Hsc)).
        -- rewrite bucket_snoc_other, Hb by congruence. done.
      * rewrite Hh, soft_snoc by done. fold cur. split; [|tauto]. intros Hsoft. split; [done|]. intros q Hq.
        rewrite <- Hsc. by apply (group_scales structural ds cur p0 ys).
    + exists true, m. split; [done|]. split; [done| |].
      * intros k. rewrite Hb. destruct (decide (k = cur)) as [->|Hkc]; [|by rewrite bucket_snoc_other by congruence].
        unfold currency_bucket, currency_units. rewrite group_snoc_same, Hg by done. cbn [app].
        rewrite app_comm_cons, sum_Z_snoc, (proj2 (Z.eqb_neq _ _)) by congruence. by rewrite Z.add_0_r.
      * split; [done|]. rewrite soft_snoc by done. fold cur. intros [_ Hall]. destruct Hsc. apply Hall. rewrite Hg. by left.
Qed.

Lemma divergence_loop structural ds :
  Forall (fun d => grain_ok (fst d) /\ grain_ok (snd d)) ds -> vec_ok ds ->
  exists hard m, fold_res divergence_step (structural, []) ds = Ok (hard, m) /\ decided structural ds hard m.
Proof.
  induction ds as [|p ds IH] using rev_ind; intros Hok Hv.
  - exists structural, []. split; [done|]. split; [constructor|done|]. unfold soft, scales_agree. split; [|tauto].
    intros ->. split_and!; [done|constructor|]. by intros p q ?%not_elem_of_nil.
  - assert (Hv' : vec_ok ds) by (unfold vec_ok in *; rewrite length_app in Hv; lia).
    pose proof Hok as [Hds _]%Forall_app. destruct (IH Hds Hv') as (hard & m & Hrun & Hd).
    destruct (divergence_step_decided structural ds p hard m Hok Hv Hd) as (hard' & m' & Hstep & Hd').
    exists hard', m'. split; [|done]. rewrite fold_res_app, Hrun. cbn [mbind result_bind fold_res]. by rewrite Hstep.
Qed.

(** The scale of a currency's bucket. *)
Definition currency_scale_of ds (cur : string) : Z :=
  match group div_key cur ds with [] => 0 | p :: _ => div_scale p end.

(** The currency is a valid one and its total is representable. *)
Definition admitted_currency ds (cur : string) : Prop :=
  is_ok (currency_spec_try_new cur (currency_scale_of ds cur)) = true /\
  fits (currency_scale_of ds cur) (currency_units ds cur).

Definition total_of ds (items increments : Z) (cur : string) (t : PostedMoney * bool) : Prop :=
  posted_ok (fst t) /\ code (currency (fst t)) = cur /\ posted_units (fst t) = currency_units ds cur /\
  (snd t = true <-> currency_units ds cur <= budget_units increments items (currency_scale_of ds cur)).

Lemma try_new_inv cur sc spec : currency_spec_try_new cur sc = Ok spec -> spec = mkCurrencySpec cur sc /\ sc <= 28.
Proof. unfold currency_spec_try_new. intros Hn. res_inv. bool_to_prop. done. Qed.

Lemma clean_divides p : grain_ok (fst p) /\ grain_ok (snd p) -> clean p = true ->
  0 <= div_scale p <= 28 /\ (10 ^ (28 - div_scale p) | magnitude p).
Proof.
  intros [H1 H2] Hc. unfold clean in Hc. apply andb_true_iff in Hc as [[Hu1 Hu2]%andb_true_iff [_ Hsc]%same_metadata_spec].
  unfold grain_ok, is_untrusted, magnitude, grain_units, div_scale in *.
  destruct (ga_total (fst p)) as [s|]; [|done]. destruct (ga_total (snd p)) as [t|]; [|done].
  destruct H1 as (Hr & z & Hz & Dz & _), H2 as (_ & y & Hy & Dy & _). split; [done|]. rewrite <- Hsc in Dy.
  rewrite (sum_units_holds _ _ Hz), (sum_units_holds _ _ Hy). by apply Z.divide_abs_r, Z.divide_sub_r.
Qed.

Lemma currency_units_divides ds cur : Forall (fun d => grain_ok (fst d) /\ grain_ok (snd d)) ds ->
  group div_key cur ds <> [] ->
  0 <= currency_scale_of ds cur <= 28 /\ (10 ^ (28 - currency_scale_of ds cur) | currency_units ds cur).
Proof.
  intros Hok Hne. rewrite Forall_forall in Hok. unfold currency_scale_of, currency_units.
  destruct (group div_key cur ds) as [|p ys] eqn:Hg; [done|].
  assert (Hin : forall q, q ∈ p :: ys -> 0 <= div_scale q <= 28 /\ (10 ^ (28 - div_scale q) | magnitude q)).
  { intros q Hq. rewrite <- Hg in Hq. apply elem_of_group in Hq as [Hk Hq]. apply clean_divides; [by apply Hok|].
    unfold div_key in Hk. by destruct (clean q). }
  split; [apply Hin; by left|]. apply sum_Z_divide. intros q Hq. destruct (Hin q Hq) as [_ Hd].
  destruct (Z.eqb_spec (div_scale q) (div_scale p)) as [<-|]; [done|apply Z.divide_0_r].
Qed.

Lemma bucket_total_spec ds items increments cur b :
  Forall (fun d => grain_ok (fst d) /\ grain_ok (snd d)) ds -> vec_ok ds ->
  0 <= increments < 2 ^ 32 -> 0 <= items < 2 ^ 64 -> currency_bucket ds cur = Some b ->
  match bucket_total items increments (cur, b) with
  | Ok t => admitted_currency ds cur /\ total_of ds items increments cur t
  | Err _ => ~ admitted_currency ds cur
  end.
Proof.
  intros Hok Hv Hi Hn Hb. destruct (currency_units_divides ds cur Hok) as [Hsc Hdiv].
  { intros E. unfold currency_bucket in Hb. by rewrite E in Hb. }
  assert (Hbv : b = (currency_scale_of ds cur, of_units (currency_units ds cur))).
  { unfold currency_bucket, currency_scale_of in *. destruct (group div_key cur ds); [done|]. by injection Hb. }
  assert (Hsm : small (currency_units ds cur)).
  { apply wide_small. pose proof (currency_units_bound ds cur Hok Hv). unfold vec_ok in Hv. nia. }
  rewrite Hbv. cbn [bucket_total]. unfold admitted_currency.
  destruct (currency_spec_try_new cur (currency_scale_of ds cur)) as [spec|e] eqn:Hspec; cbn [map_err mbind result_bind is_ok]; [|by intros [? _]].
  apply try_new_inv in Hspec as [-> _]. set (spec := mkCurrencySpec cur (currency_scale_of ds cur)).
  destruct (into_posted_exact (of_units (currency_units ds cur)) spec) as [t|e] eqn:Hp; cbn [map_err mbind result_bind].
  - apply into_posted_units in Hp as (Hpok & Hpc & Hpu); [|done|done]. split; [split; [done|]|].
    + pose proof (posted_units_fits t Hpok) as Hf. by rewrite Hpc, Hpu in Hf.
    + unfold total_of. cbn [fst snd]. split_and!; [done|by rewrite Hpc|done|].
      rewrite negb_true_iff, dec_ltb_units, Z.ltb_ge, tolerance_budget_units by done. fold (posted_units t). by rewrite Hpu.
  - intros [_ Hf]. destruct (into_posted_units_total (currency_units ds cur) spec Hsm Hsc Hdiv Hf) as [t Ht]. congruence.
Qed.

Lemma forallb_Forall2 ds items increments curs (ts : list (PostedMoney * bool)) :
  Forall2 (total_of ds items increments) curs ts ->
  forallb snd ts = true <->
  forall cur, cur ∈ curs -> currency_units ds cur <= budget_units increments items (currency_scale_of ds cur).
Proof.
  induction 1 as [|cur t curs ts (_ & _ & _ & Ht) _ IH]; [split; [by intros _ cur ?%not_elem_of_nil|done]|].
  cbn [forallb]. rewrite andb_true_iff, IH, Ht. split.
  - intros [? ?] c [->|?]%elem_of_cons; auto.
  - intros Hall. split; [apply Hall; by left|]. intros c Hc. apply Hall. by right.
Qed.

(** What a decision on divergences says. *)
Definition ar_decision ds (structural : bool) (items increments : Z) (d : ToleranceDecision) : Prop :=
  exists curs by_currency,
    StronglySorted (fun a b => String.compare a b = Lt) curs /\
    (forall cur, cur ∈ curs <-> group div_key cur ds <> []) /\
    td_variance d = VarianceMoney by_currency /\
    Forall2 (fun cur m => posted_ok m /\ code (currency m) = cur /\ posted_units m = currency_units ds cur) curs by_currency /\
    (within_tolerance d = true <->
       soft structural ds /\
       forall cur, cur ∈ curs -> currency_units ds cur <= budget_units increments items (currency_scale_of ds cur)).

Lemma ar_tolerance_spec ds structural items increments :
  Forall (fun d => grain_ok (fst d) /\ grain_ok (snd d)) ds -> vec_ok ds ->
  0 <= increments < 2 ^ 32 -> 0 <= items < 2 ^ 64 ->
  match ar_tolerance_decision ds structural items increments with
  | Ok d => (forall cur, group div_key cur ds <> [] -> admitted_currency ds cur) /\ ar_decision ds structural items increments d
  | Err _ => ~ (forall cur, group div_key cur ds <> [] -> admitted_currency ds cur)
  end.
Proof.
  intros Hok Hv Hi Hn. unfold ar_tolerance_decision.
  destruct (divergence_loop structural ds Hok Hv) as (hard & m & -> & [Hs Hb Hh]). cbn [mbind result_bind].
  assert (Hkeys : forall cur, cur ∈ fst <$> m <-> group div_key cur ds <> []).
  { intros cur. rewrite list_elem_of_fmap. split.
    - intros ([k b] & -> & Hin). apply (bt_get_elem String.compare) in Hin; [|done]. rewrite Hb in Hin.
      unfold currency_bucket in Hin. intros E. cbn in *. by rewrite E in Hin.
    - intros Hne. destruct (currency_bucket ds cur) as [b|] eqn:E.
      + exists (cur, b). split; [done|]. apply (bt_get_elem String.compare); [done|]. by rewrite Hb.
      + unfold currency_bucket in E. by destruct (group div_key cur ds). }
  pose proof (map_res_exact (bucket_total items increments) (fun b => admitted_currency ds (fst b))
    (fun b t => total_of ds items increments (fst b) t) m) as Hmap.
  lapply Hmap; clear Hmap; [intros Hmap|].
  2:{ intros [cur b] Hin. apply (bt_get_elem String.compare) in Hin; [|done]. rewrite Hb in Hin. by apply bucket_total_spec. }
  assert (Hall : Forall (fun b => admitted_currency ds (fst b)) m <-> forall cur, group div_key cur ds <> [] -> admitted_currency ds cur).
  { transitivity (Forall (admitted_currency ds) (fst <$> m)); [symmetry; apply Forall_fmap|].
    rewrite Forall_forall. split; intros Hf cur Hc; by apply Hf, Hkeys. }
  destruct (map_res (bucket_total items increments) m) as [ts|e]; cbn [mbind result_bind]; [|by rewrite <- Hall].
  destruct Hmap as [Hf Hq]. split; [by apply Hall|]. apply Forall2_fmap_l in Hq.
  exists (fst <$> m), (fst <$> ts). split_and!; [|done|done| |].
  - clear - Hs. induction Hs as [|[k v] m _ IH Hfa]; [constructor|]. rewrite fmap_cons. constructor; [done|].
    apply Forall_fmap. exact Hfa.
  - apply Forall2_fmap_r. eapply Forall2_impl; [exact Hq|]. intros cur t (? & ? & ? & _). done.
  - cbn [within_tolerance]. rewrite andb_true_iff, negb_true_iff, Hh, (forallb_Forall2 ds items increments (fst <$> m) ts Hq). done.
Qed.

(** The close decision on divergences is exact.  For grains that folding can
    produce, [ar_tolerance_decision] succeeds exactly when every divergent currency is
    a valid one and its total is representable.  It records one variance per currency,
    in order, the exact sum of the absolute differences; and the run is within
    tolerance exactly when there is no structural defect, no untrusted or mismatched
    total, no currency at two scales, and every currency stays within its budget of
    increments per thousand items. *)
Theorem ar_tolerance_exact ds structural items increments :
  Forall (fun d => grain_ok (fst d) /\ grain_ok (snd d)) ds -> vec_ok ds ->
  0 <= increments < 2 ^ 32 -> 0 <= items < 2 ^ 64 ->
  match ar_tolerance_decision ds structural items increments with
  | Ok d => (forall cur, group div_key cur ds <> [] -> admitted_currency ds cur) /\ ar_decision ds structural items increments d
  | Err _ => ~ (forall cur, group div_key cur ds <> [] -> admitted_currency ds cur)
  end.
Proof. apply ar_tolerance_spec. Qed.

(** ** The decision on settlements *)

Lemma absolute_difference_spec a b : posted_ok a -> posted_ok b ->
  match absolute_difference a b with
  | Ok p => currency a = currency b /\ posted_ok p /\ currency p = currency a /\
            posted_units p = Z.abs (posted_units a - posted_units b)
  | Err _ => currency a = currency b -> ~ fits (currency_scale (currency a)) (posted_units a - posted_units b)
  end.
Proof.
  intros Ha Hb. unfold absolute_difference. destruct (subtract_posted a b) as [d|e] eqn:Hd; cbn [mbind result_bind].
  2:{ intros Hc Hf. destruct (subtract_posted_fits a b Ha Hb Hc Hf) as [p Hp]. congruence. }
  apply subtract_posted_ok in Hd as (Hc & Hok & Hdc & Hu); [|apply Ha].
  destruct Hok as (Hcur & Hcan & Hlim & Hsc) eqn:Eok. clear Eok.
  assert (Hsign : is_sign_negative (amount d) = (posted_units d <? 0)).
  { unfold posted_units, units. pose proof (scale_bound (amount d)).
    pose proof (pow10_pos (max_scale - scale (amount d)) ltac:(lia)).
    destruct (Z.ltb_spec (mantissa (amount d) * 10 ^ (max_scale - scale (amount d))) 0).
    - apply sign_negative. nia.
    - destruct (Z.eq_dec (mantissa (amount d)) 0) as [Hz|]; [by apply Hcan|]. apply sign_positive. nia. }
  rewrite Hsign. destruct (Z.ltb_spec (posted_units d) 0) as [Hneg|Hneg].
  - pose proof (posted_try_new_spec (dec_neg (amount d)) (currency d) Hcur) as Hs. rewrite units_neg in Hs.
    fold (posted_units d) in Hs. destruct (posted_try_new (dec_neg (amount d)) (currency d)) as [q|[]]; cbn [map_err]; try done.
    + destruct Hs as (Hq & Hqc & Hqu). split_and!; [done|done|congruence|]. lia.
    + exfalso. apply Hs. assert (Hn : normalize (dec_neg (amount d)) = dec_neg (amount d)).
      { apply canonical_normalize_id. destruct (dec_neg_spec (amount d)) as [Hm Hsc']. destruct Hcan as [Hcan _]. split.
        - rewrite Hm, Hsc'. destruct Hcan as [?|Hr]; [by left|right]. rewrite Z.rem_opp_l by lia. lia.
        - intros Hz. exfalso. rewrite Hm in Hz. unfold posted_units, units in Hneg. nia. }
      rewrite Hn, (proj1 (dec_neg_spec (amount d))). by rewrite Z.abs_opp.
    + exfalso. apply Hs. apply Z.divide_opp_r. by apply (posted_units_grid d).
  - split_and!; [done|done|done|]. lia.
Qed.

(** The decision on a payment provider's settlements is exact: it succeeds when the
    totals share their currency and the difference is representable, records the
    absolute difference, and is within tolerance when that stays within the budget. *)
Theorem psp_tolerance_exact ledger psp settlements increments : posted_ok ledger -> posted_ok psp ->
  0 <= increments < 2 ^ 32 -> 0 <= settlements < 2 ^ 64 ->
  match psp_tolerance_decision ledger psp settlements increments with
  | Ok d => currency ledger = currency psp /\
      (exists m, td_variance d = VarianceMoney [m] /\ posted_ok m /\ currency m = currency ledger /\
        posted_units m = Z.abs (posted_units ledger - posted_units psp)) /\
      (within_tolerance d = true <->
         Z.abs (posted_units ledger - posted_units psp)
         <= budget_units increments settlements (currency_scale (currency psp)))
  | Err _ => currency ledger = currency psp ->
      ~ fits (currency_scale (currency ledger)) (posted_units ledger - posted_units psp)
  end.
Proof.
  intros Hl Hp Hi Hn. unfold psp_tolerance_decision. pose proof (absolute_difference_spec ledger psp Hl Hp) as Hd.
  destruct (absolute_difference ledger psp) as [m|e]; cbn [mbind result_bind]; [|done].
  destruct Hd as (Hc & Hm & Hmc & Hu). split_and!; [done|by exists m|]. cbn [within_tolerance].
  rewrite dec_leb_units, Z.leb_le, tolerance_budget_units; [|done|done|apply Hp]. fold (posted_units m). by rewrite Hu.
Qed.
End decision.

Section witnesses.
Import ConcreteDecimal MoneySamples.

(** The product of the concrete decimals. *)
#[local] Program Instance concrete_mul : DecimalMul :=
  {| dec_mul a b := of_i128 (coefficient a * coefficient b) (dec_scale a + dec_scale b) |}.
Next Obligation.
  intros a b Hm Hs. pose proof (scale_bound a). pose proof (scale_bound b). apply of_i128_parts; [done|]. lia.
Qed.

Lemma grain_tie_out_witness :
  differs_from (fold_grain "EUR" 2 [eur 100; eur 250]) (fold_grain "EUR" 2 [eur 350]) = false /\
  differs_from (fold_grain "EUR" 2 [eur 100]) (fold_grain "EUR" 2 [usd 100]) = true.
Proof.
  split.
  - destruct (grain_tie_out "EUR" 2 [eur 100; eur 250] "EUR" 2 [eur 350]) as [[_ Ht] _]; [lia|lia|ground|].
    apply Ht. split_and!; [done|done|repeat constructor|repeat constructor|vm_compute; reflexivity].
  - apply not_false_iff_true. intros E.
    destruct (grain_tie_out "EUR" 2 [eur 100] "EUR" 2 [usd 100]) as [[Ht _] _]; [lia|lia|ground|].
    destruct (Ht E) as (_ & _ & _ & Hf & _). apply Forall_inv in Hf as [Hf _]. discriminate Hf.
Defined.

Definition sample_divergences : list (GrainAmount * GrainAmount) :=
  [(fold_grain "EUR" 2 [eur 100; eur 250], fold_grain "EUR" 2 [eur 349])].

Lemma sample_grain_ok ps : Forall posted_ok ps -> Forall (in_grain "EUR" 2) ps -> (length ps < 10)%nat ->
  grain_ok (fold_grain "EUR" 2 ps).
Proof.
  intros Hok Hin Hl. assert (Hv : vec_ok ps) by (unfold vec_ok; lia).
  pose proof (fold_grain_spec "EUR" 2 ps ltac:(lia) Hv) as Hs. unfold grain_ok.
  destruct (fold_grain_meta "EUR" 2 ps) as [_ ->]. destruct (ga_total _) as [s|]; [|done].
  destruct Hs as [_ Hs]. split; [lia|]. exists (sum_Z posted_units ps). split_and!; [done| |].
  - apply sum_Z_divide. intros p Hp. rewrite Forall_forall in Hok, Hin. destruct (Hin p Hp) as [_ Hsc]. rewrite <- Hsc.
    by apply posted_units_grid, Hok.
  - pose proof (sum_units_bound amount ps) as Hb. unfold posted_units. lia.
Qed.

Lemma ar_tolerance_exact_witness :
  exists d, ar_tolerance_decision sample_divergences false 5000 2 = Ok d /\
    within_tolerance d = true /\ ar_decision sample_divergences false 5000 2 d.
Proof.
  assert (Hok : Forall (fun d => grain_ok (fst d) /\ grain_ok (snd d)) sample_divergences).
  { constructor; [|constructor]. split; (apply sample_grain_ok;
      [repeat (constructor; [by apply eur_ok|]); constructor|repeat constructor|cbn; lia]). }
  destruct (is_ok_exists (ar_tolerance_decision sample_divergences false 5000 2)) as [d Hd]; [vm_compute; reflexivity|].
  assert (Hw : within_tolerance <$> ar_tolerance_decision sample_divergences false 5000 2 = Ok true) by (vm_compute; reflexivity).
  pose proof (ar_tolerance_exact sample_divergences false 5000 2 Hok ltac:(ground) ltac:(lia) ltac:(lia)) as Hs.
  rewrite Hd in Hs, Hw. exists d. split_and!; [done|by injection Hw|by destruct Hs].
Defined.
End witnesses.
