(* ===== verification/Splitter.v ===== *)
(** * Recognised and deferred parts of a note: [domain/adjustment/splitter.rs]

    A credit or debit note reduces revenue already recognised and revenue still
    deferred.  The splitter places the deferred part on the recognition schedules of
    the line, and refuses when the placement is a matter of choice.  The file shows
    that refusal to be exact: the deferred part is placed if and only if the schedules
    leave one placement, and the recognised part lands on the one schedule it can be
    attributed to. *)

From Stdlib Require Import Ascii.
From S2P Require Import Prelude Decimal Money Exact ExactGrid DomainErrors MoneyText ExactText.

Definition SCHEDULE_STATUS_ACTIVE : string := "ACTIVE".

(** The indices of the elements that pass, [iter().enumerate().filter(..)]. *)
Definition indices {A} (p : A -> bool) (l : list A) : list nat :=
  imap pair l ≫= fun ix => if p (snd ix) then [fst ix] else [].

(** ** Placements

    A placement hands out [req] over streams that can absorb [rels]; it is forced when
    there is no other. *)

Definition placement (rels : list Z) (req : Z) (ds : list Z) : Prop :=
  Forall2 (fun rel d => 0 <= d <= rel) rels ds /\ sum_Z id ds = req.

Definition forced (rels : list Z) (req : Z) (ds : list Z) : Prop :=
  placement rels req ds /\ forall ds', placement rels req ds' -> ds' = ds.

(** The recognised rest is attributed to a stream only when it is the single stream,
    or the one stream that takes a deferred part. *)
Definition attributed (ds : list Z) (rest : Z) (rs : list Z) : Prop :=
  length rs = length ds /\ Forall (fun r => 0 <= r) rs /\ sum_Z id rs = rest /\
  forall i r, rs !! i = Some r -> 0 < r ->
    length ds = 1%nat \/ forall j d, ds !! j = Some d -> (0 < d <-> j = i).

Lemma elem_of_indices {A} (p : A -> bool) l i :
  i ∈ indices p l <-> exists x, l !! i = Some x /\ p x = true.
Proof.
  unfold indices. rewrite list_elem_of_bind. split.
  - intros ([k x] & Hi & (j & y & [= -> ->] & Hy)%elem_of_lookup_imap_1). cbn in *.
    destruct (p y) eqn:E; [|set_solver]. apply list_elem_of_singleton in Hi as ->. by exists y.
  - intros (x & Hx & Hp). exists (i, x). split; [cbn; rewrite Hp; set_solver|].
    apply elem_of_lookup_imap. by exists i, x.
Qed.

Lemma indices_cons {A} (p : A -> bool) x l :
  indices p (x :: l) = (if p x then [0%nat] else []) ++ (S <$> indices p l).
Proof.
  unfold indices. rewrite imap_cons. cbn [mbind list_bind fst snd]. f_equal.
  replace (imap (pair ∘ S) l) with ((fun ix => (S (fst ix), snd ix)) <$> imap pair l).
  - induction (imap pair l) as [|[k y] l' IH]; [done|]. rewrite fmap_cons. cbn [mbind list_bind fst snd].
    rewrite IH, fmap_app. by destruct (p y).
  - rewrite fmap_imap. by apply imap_ext.
Qed.

Lemma NoDup_indices {A} (p : A -> bool) l : NoDup (indices p l).
Proof.
  induction l as [|x l IH]; [constructor|]. rewrite indices_cons. apply NoDup_app. split_and!.
  - destruct (p x); [apply NoDup_singleton|constructor].
  - intros i Hi. destruct (p x); [|set_solver]. apply list_elem_of_singleton in Hi as ->.
    intros (j & Hj & _)%list_elem_of_fmap. done.
  - by apply NoDup_fmap_2; [apply _|].
Qed.

Lemma indices_single {A} (p : A -> bool) l i : (i < length l)%nat ->
  (forall j x, l !! j = Some x -> (p x = true <-> j = i)) -> indices p l = [i].
Proof.
  intros Hi Hp. assert (Hin : forall j, j ∈ indices p l <-> j = i).
  { intros j. rewrite elem_of_indices. split.
    - intros (x & Hx & Hpx). by apply (Hp j x).
    - intros ->. destruct (lookup_lt_is_Some_2 l i Hi) as [x Hx]. exists x. split; [done|]. by apply (Hp i x). }
  pose proof (NoDup_indices p l) as Hn. destruct (indices p l) as [|a [|b r]].
  - assert (i ∈ []) by by apply Hin. set_solver.
  - f_equal. apply Hin. set_solver.
  - exfalso. apply NoDup_cons in Hn as [Hn _]. assert (a = i) by (apply Hin; set_solver).
    assert (b = i) by (apply Hin; set_solver). subst. set_solver.
Qed.

Lemma sum_only l i x : l !! i = Some x -> (forall j y, j <> i -> l !! j = Some y -> y = 0) -> sum_Z id l = x.
Proof.
  intros Hi Hz. pose proof (sum_Z_insert id l i x 0 Hi) as Hs.
  rewrite (sum_Z_ext id (fun _ => 0) (<[i := 0]> l)) in Hs.
  - assert (Hc : sum_Z (fun _ : Z => 0) (<[i := 0]> l) = 0).
    { clear. induction (<[i := 0]> l) as [|y l' IH]; [done|]. by rewrite sum_Z_cons. }
    rewrite Hc in Hs. unfold id in *. lia.
  - intros y (j & Hj)%list_elem_of_lookup_1. unfold id.
    destruct (decide (j = i)) as [->|Hne].
    + rewrite list_lookup_insert_eq in Hj by (by eapply lookup_lt_Some). by injection Hj as <-.
    + rewrite list_lookup_insert_ne in Hj by done. by apply (Hz j).
Qed.

Lemma sum_positive l : 0 < sum_Z id l -> exists i x, l !! i = Some x /\ 0 < x.
Proof.
  induction l as [|x l IH]; [done|]. rewrite sum_Z_cons. unfold id at 1. intros Hs.
  destruct (Z.lt_ge_cases 0 x); [by exists 0%nat, x|]. destruct IH as (i & y & Hi & Hy); [lia|].
  by exists (S i), y.
Qed.

Lemma sum_below rels ds : Forall2 (fun rel d => 0 <= d <= rel) rels ds ->
  0 <= sum_Z id ds <= sum_Z id rels /\
  (sum_Z id ds < sum_Z id rels -> exists i rel d, rels !! i = Some rel /\ ds !! i = Some d /\ d < rel) /\
  (sum_Z id ds = sum_Z id rels -> ds = rels).
Proof.
  induction 1 as [|rel d rels ds Hd Hall (Hle & Hlt & Heq)]; [done|]. rewrite !sum_Z_cons. unfold id in *. split; [lia|]. split.
  - intros Hs. destruct (Z.lt_ge_cases d rel); [by exists 0%nat, rel, d|].
    destruct Hlt as (i & r & e & ?); [lia|]. by exists (S i), r, e.
  - intros Hs. f_equal; [lia|]. apply Heq. lia.
Qed.

Lemma forced_full rels : Forall (fun r => 0 <= r) rels -> forced rels (sum_Z id rels) rels.
Proof.
  intros Hr. split; [split; [|done]|].
  - clear -Hr. induction Hr; constructor; [lia|done].
  - intros ds' [Hp Hs]. by apply (sum_below rels ds' Hp).
Qed.
Lemma placement_lookup rels req ds i rel : placement rels req ds -> rels !! i = Some rel ->
  exists d, ds !! i = Some d /\ 0 <= d <= rel.
Proof. intros [Hp _] Hi. destruct (Forall2_lookup_l _ _ _ _ _ Hp Hi) as (d & Hd & ?). by exists d. Qed.

(** When one stream alone can absorb anything, it takes everything. *)
Lemma forced_single rels req i rel : Forall (fun r => 0 <= r) rels -> rels !! i = Some rel ->
  (forall j r, j <> i -> rels !! j = Some r -> r = 0) -> 0 <= req <= sum_Z id rels ->
  forced rels req (<[i := req]> (replicate (length rels) 0)).
Proof.
  intros Hr Hi Hz Hreq. rewrite (sum_only rels i rel) in Hreq by done.
  assert (Hlen : (i < length rels)%nat) by by eapply lookup_lt_Some.
  assert (Hlook : forall j r, rels !! j = Some r ->
    <[i := req]> (replicate (length rels) 0) !! j = Some (if decide (j = i) then req else 0)).
  { intros j r Hj. destruct (decide (j = i)) as [->|Hne].
    - rewrite list_lookup_insert_eq; [done|]. by rewrite length_replicate.
    - rewrite list_lookup_insert_ne by done. apply lookup_replicate_2. by eapply lookup_lt_Some. }
  split; [split|].
  - apply Forall2_same_length_lookup_2; [by rewrite length_insert, length_replicate|].
    intros j r d Hj. rewrite (Hlook j r Hj). intros [= <-].
    pose proof (Forall_lookup_1 _ _ _ _ Hr Hj) as Hpos. cbn in Hpos. destruct (decide (j = i)) as [->|]; [|lia]. simplify_eq. lia.
  - apply (sum_only _ i); [by rewrite (Hlook i rel Hi), decide_True|].
    intros j y Hne Hj. rewrite list_lookup_insert_ne in Hj by done.
    by apply lookup_replicate_1 in Hj as [-> _].
  - intros ds' Hp. pose proof Hp as [Hp2 Hs]. apply list_eq_same_length with (length rels).
    + by rewrite length_insert, length_replicate.
    + symmetry. by eapply Forall2_length.
    + intros j x y _ Hx Hy. destruct (Forall2_lookup_r _ _ _ _ _ Hp2 Hx) as (r & Hrj & Hb).
      rewrite (Hlook j r Hrj) in Hy. injection Hy as <-. destruct (decide (j = i)) as [->|Hne].
      * rewrite <- Hs. symmetry. apply (sum_only _ i); [done|]. intros k z Hk Hz'.
        destruct (Forall2_lookup_r _ _ _ _ _ Hp2 Hz') as (r' & Hr' & ?). rewrite (Hz k r' Hk Hr') in *. lia.
      * rewrite (Hz j r Hne Hrj) in *. lia.
Qed.

(** One unit moved from a stream with a part to a stream with room is another
    placement. *)
Lemma placement_shift rels req ds i j d e rel : placement rels req ds -> i <> j ->
  ds !! i = Some d -> 0 < d -> ds !! j = Some e -> rels !! j = Some rel -> e < rel ->
  placement rels req (<[i := d - 1]> (<[j := e + 1]> ds)).
Proof.
  intros [Hp Hs] Hij Hd Hdp He Hrel Her. split.
  - destruct (Forall2_lookup_r _ _ _ _ _ Hp Hd) as (ri & Hri & ?). destruct (Forall2_lookup_l _ _ _ _ _ Hp Hrel) as (? & ? & ?).
    simplify_eq. rewrite <- (list_insert_id rels j rel Hrel). rewrite <- (list_insert_id (<[j := rel]> rels) i ri).
    + apply Forall2_insert; [apply Forall2_insert; [done|lia]|lia].
    + by rewrite list_lookup_insert_ne.
  - rewrite (sum_Z_insert _ _ i d) by by rewrite list_lookup_insert_ne.
    rewrite (sum_Z_insert _ _ j e) by done. unfold id in *. lia.
Qed.

Lemma partial_not_forced rels req a b ra rb : a <> b ->
  rels !! a = Some ra -> rels !! b = Some rb -> 0 < ra -> 0 < rb -> 0 < req < sum_Z id rels ->
  ~ exists ds, forced rels req ds.
Proof.
  intros Hab Ha Hb Hra Hrb Hreq (ds & Hp & Huniq).
  assert (Hno : forall i j d e rel, i <> j -> ds !! i = Some d -> 0 < d -> ds !! j = Some e ->
    rels !! j = Some rel -> e < rel -> False).
  { intros i j d e rel Hij Hd Hdp He Hrel Her.
    pose proof (Huniq _ (placement_shift _ _ _ _ _ _ _ _ Hp Hij Hd Hdp He Hrel Her)) as Heq.
    apply (f_equal (lookup i)) in Heq. rewrite list_lookup_insert_eq, Hd in Heq; [injection Heq; lia|].
    rewrite length_insert. by eapply lookup_lt_Some. }
  pose proof Hp as [Hp2 Hs]. destruct (sum_below _ _ Hp2) as (_ & Hlt & _).
  destruct (sum_positive ds) as (i & d & Hd & Hdp); [lia|]. destruct Hlt as (j & rel & e & Hrel & He & Her); [lia|].
  destruct (decide (i = j)) as [<-|Hij]; [|by eapply (Hno i j)]. simplify_eq.
  assert (exists k rk, k <> i /\ rels !! k = Some rk /\ 0 < rk) as (k & rk & Hk & Hrk & Hpos).
  { destruct (decide (a = i)) as [->|]; [by exists b, rb|by exists a, ra]. }
  destruct (placement_lookup _ _ _ _ _ Hp Hrk) as (dk & Hdk & Hdk').
  destruct (Z.lt_ge_cases 0 dk); [by eapply (Hno k i)|]. eapply (Hno i k); [done..|lia].
Qed.

Lemma forced_zero rels : Forall (fun r => 0 <= r) rels -> forced rels 0 (replicate (length rels) 0).
Proof.
  intros Hr. assert (Hp : placement rels 0 (replicate (length rels) 0)).
  { split; induction Hr as [|r l Hr' Hl IH]; cbn [replicate length]; [constructor|constructor; [lia|done]|done|].
    by rewrite sum_Z_cons, IH. }
  split; [done|]. intros ds' [Hp2 Hs]. clear Hp Hr. induction Hp2 as [|r d l ds' Hd Hall IH]; [done|].
  rewrite sum_Z_cons in Hs. destruct (sum_below _ _ Hall) as (Hb & _). unfold id in *. cbn [length replicate]. f_equal; [lia|apply IH; lia].
Qed.
Lemma attributed_single ds rest i : (i < length ds)%nat -> ds <> [] -> 0 < rest ->
  (length ds = 1%nat \/ forall j d, ds !! j = Some d -> (0 < d <-> j = i)) ->
  attributed ds rest (<[i := rest]> (replicate (length ds) 0)).
Proof.
  intros Hi Hne Hr Hsingle. split_and!.
  - by rewrite length_insert, length_replicate.
  - apply Forall_insert; [by apply Forall_replicate|lia].
  - apply (sum_only _ i); [apply list_lookup_insert_eq; by rewrite length_replicate|].
    intros j y Hj Hy. rewrite list_lookup_insert_ne in Hy by done. by apply lookup_replicate_1 in Hy as [-> _].
  - intros j r Hj Hpos. destruct (decide (j = i)) as [->|Hne']; [done|].
    rewrite list_lookup_insert_ne in Hj by done. apply lookup_replicate_1 in Hj as [-> _]. lia.
Qed.

Section splitter.
Context `{DecimalText}.

Record ScheduleStreamState := mkScheduleStreamState {
  ss_revenue_stream : string;
  ss_schedule_id : string;
  ss_total_deferred : PostedMoney;
  ss_recognized : PostedMoney;
  ss_status : string;
  ss_version : Z;
}.

Definition releasable_remaining (self : ScheduleStreamState) : result DomainError ExactAmount :=
  _ ← matching_spec (ss_total_deferred self) (ss_recognized self);
  if dec_ltb (amount (ss_total_deferred self)) ZERO
     || dec_ltb (amount (ss_recognized self)) ZERO
     || dec_ltb (amount (ss_total_deferred self)) (amount (ss_recognized self))
  then Err DomainError.Internal
  else if negb (bool_decide (ss_status self = SCHEDULE_STATUS_ACTIVE)) then Ok (from_decimal ZERO)
  else map_err map_exact_error
         (checked_sub (from_decimal (amount (ss_total_deferred self))) (from_decimal (amount (ss_recognized self)))).

Record StreamSplit := mkStreamSplit {
  sp_revenue_stream : string;
  sp_schedule_id : string;
  sp_recognized_part : PostedMoney;
  sp_deferred_part : PostedMoney;
}.

Record SplitResult := mkSplitResult {
  sr_recognized_part : PostedMoney;
  sr_deferred_part : PostedMoney;
  sr_per_stream : list StreamSplit;
  sr_split_basis_ref : string;
}.

Record SplitInput := mkSplitInput {
  si_source_invoice_item_ref : string;
  si_po_allocation_group : option string;
  si_streams : list ScheduleStreamState;
  si_amount_ex_tax : PostedMoney;
  si_requested_deferred : PostedMoney;
}.

(** The indices of the loop are indices of [remainders], so the default is not read. *)
Definition drain_step (input : SplitInput) (remainders : list ExactAmount) (deferred : list PostedMoney)
    (i : nat) : result DomainError (list PostedMoney) :=
  amt ← map_err map_exact_error
          (into_posted_exact (nth i remainders (from_decimal ZERO)) (currency (si_amount_ex_tax input)));
  Ok (<[i := amt]> deferred).

Definition place_deferred (input : SplitInput) (requested_deferred : PostedMoney)
    (total_releasable : ExactAmount) (remainders : list ExactAmount) : result DomainError (list PostedMoney) :=
  zero ← zero_posted (si_amount_ex_tax input);
  let deferred := replicate (length (si_streams input)) zero in
  if dec_eqb (amount requested_deferred) ZERO then Ok deferred
  else
    let releasable_idx := indices (fun r => negb (exact_eqb r (from_decimal ZERO))) remainders in
    match releasable_idx with
    | [i] => Ok (<[i := requested_deferred]> deferred)
    | _ =>
        if exact_eqb (from_decimal (amount requested_deferred)) total_releasable
        then fold_res (drain_step input remainders) deferred releasable_idx
        else Err DomainError.CreditNoteSplitAmbiguous
    end.

Definition place_recognized (input : SplitInput) (recognized_total : PostedMoney)
    (deferred_by_stream : list PostedMoney) : result DomainError (list PostedMoney) :=
  let n := length (si_streams input) in
  zero ← zero_posted (si_amount_ex_tax input);
  let recognized := replicate n zero in
  if dec_eqb (amount recognized_total) ZERO then Ok recognized
  else if bool_decide (n = 1%nat) then Ok (<[0%nat := recognized_total]> recognized)
  else
    match indices (fun d => dec_ltb ZERO (amount d)) deferred_by_stream with
    | [i] => Ok (<[i := recognized_total]> recognized)
    | _ => Err DomainError.CreditNoteSplitAmbiguous
    end.

(** The evidence text of one stream. *)
Definition stream_basis (s : ScheduleStreamState) : result DomainError string :=
  remaining ← releasable_remaining s;
  let cur := currency (ss_total_deferred s) in
  rel ← map_err map_exact_error (canonical_at_scale remaining (currency_scale cur));
  Ok (ss_revenue_stream s +:+ ":" +:+ ss_schedule_id s +:+ "@v" +:+ display_int (ss_version s)
      +:+ ":def=" +:+ canonical_decimal (amount (ss_total_deferred s))
      +:+ ":rec=" +:+ canonical_decimal (amount (ss_recognized s))
      +:+ ":rel=" +:+ rel +:+ ":" +:+ ss_status s +:+ ":" +:+ code cur
      +:+ ":" +:+ display_int (currency_scale cur)).

Definition build_split_basis_ref (input : SplitInput) : result DomainError string :=
  let po := default "-"%string (si_po_allocation_group input) in
  let prefix := "item=" +:+ si_source_invoice_item_ref input +:+ ";po=" +:+ po in
  match si_streams input with
  | [] => Ok (prefix +:+ ";streams=none")
  | streams =>
      texts ← map_res stream_basis streams;
      Ok (prefix +:+ ";streams=[" +:+ String.concat "," texts +:+ "]")
  end.

(** The checks at the head of [split] for one stream. *)
Definition check_stream (input : SplitInput) (stream : ScheduleStreamState) : result DomainError unit :=
  _ ← matching_spec (si_amount_ex_tax input) (ss_total_deferred stream);
  _ ← matching_spec (si_amount_ex_tax input) (ss_recognized stream);
  _ ← releasable_remaining stream;
  Ok tt.

(** The duplicate gate: a stream that an earlier one names too. *)
Definition duplicate_stream (streams : list ScheduleStreamState) : bool :=
  existsb (fun '(i, s) => existsb (fun prev => bool_decide (ss_revenue_stream prev = ss_revenue_stream s))
                            (take i streams)) (imap pair streams).

(** [split] past its first gates. *)
Definition split_parts (input : SplitInput) : result DomainError SplitResult :=
  let requested_deferred := si_requested_deferred input in
  recognized_total ← subtract_posted (si_amount_ex_tax input) requested_deferred;
  if bool_decide (si_streams input = []) then
    if dec_ltb ZERO (amount requested_deferred) then Err DomainError.CreditNoteSplitAmbiguous
    else
      zero ← zero_posted (si_amount_ex_tax input);
      basis ← build_split_basis_ref input;
      Ok (mkSplitResult recognized_total zero [] basis)
  else
    remainders ← map_res releasable_remaining (si_streams input);
    total_releasable ← fold_res (fun total remaining => map_err map_exact_error (checked_add total remaining))
                         (from_decimal ZERO) remainders;
    spare ← map_err map_exact_error (checked_sub total_releasable (from_decimal (amount requested_deferred)));
    if is_negative spare then Err DomainError.CreditNoteSplitAmbiguous
    else
      deferred_by_stream ← place_deferred input requested_deferred total_releasable remainders;
      recognized_by_stream ← place_recognized input recognized_total deferred_by_stream;
      let per_stream := zip_with (fun s '(r, d) => mkStreamSplit (ss_revenue_stream s) (ss_schedule_id s) r d)
                          (si_streams input) (zip recognized_by_stream deferred_by_stream) in
      basis ← build_split_basis_ref input;
      Ok (mkSplitResult recognized_total requested_deferred per_stream basis).

Definition split (input : SplitInput) : result DomainError SplitResult :=
  _ ← matching_spec (si_amount_ex_tax input) (si_requested_deferred input);
  _ ← fold_res (fun _ stream => check_stream input stream) tt (si_streams input);
  if dec_ltb (amount (si_amount_ex_tax input)) ZERO then Err DomainError.AmountOutOfRange
  else if dec_ltb (amount (si_requested_deferred input)) ZERO then Err DomainError.AmountOutOfRange
  else if dec_ltb (amount (si_amount_ex_tax input)) (amount (si_requested_deferred input))
  then Err DomainError.AmountOutOfRange
  else if duplicate_stream (si_streams input) then Err DomainError.CreditNoteSplitAmbiguous
  else split_parts input.

(** ** The counters of a schedule *)

Definition rel_units (s : ScheduleStreamState) : Z :=
  if bool_decide (ss_status s = SCHEDULE_STATUS_ACTIVE)
  then posted_units (ss_total_deferred s) - posted_units (ss_recognized s) else 0.

Definition counters_ok (s : ScheduleStreamState) : Prop :=
  currency (ss_total_deferred s) = currency (ss_recognized s) /\
  0 <= posted_units (ss_recognized s) <= posted_units (ss_total_deferred s).

Lemma releasable_ok s r : releasable_remaining s = Ok r <-> counters_ok s /\ r = of_units (rel_units s).
Proof.
  unfold releasable_remaining, counters_ok, rel_units. rewrite bind_ok.
  rewrite !posted_ltb_zero, dec_ltb_posted, !from_decimal_units, units_ZERO.
  pose proof (posted_units_small (ss_total_deferred s)). pose proof (posted_units_small (ss_recognized s)).
  fold (posted_units (ss_total_deferred s)) (posted_units (ss_recognized s)).
  rewrite checked_sub_units by (apply (small_bound _ 2); lia). cbn [map_err].
  assert (Hg : forall x y, (x <? 0) || (y <? 0) || (x <? y) = false <-> 0 <= y <= x).
  { intros x y. rewrite !orb_false_iff, !Z.ltb_ge. lia. }
  split.
  - intros ([] & Hc%matching_spec_ok & Hr). destruct (_ || _) eqn:E; [done|]. apply Hg in E.
    by destruct (bool_decide _); injection Hr as <-.
  - intros [[Hc Hb] ->]. exists tt. split; [by apply matching_spec_ok|]. apply Hg in Hb as ->. by destruct (bool_decide _).
Qed.

Lemma rel_units_bounds s : counters_ok s -> 0 <= rel_units s <= posted_units (ss_total_deferred s).
Proof. unfold counters_ok, rel_units. intros [_ ?]. destruct (bool_decide _); lia. Qed.

Lemma rel_units_small s : counters_ok s -> Z.abs (rel_units s) < 10 ^ 57.
Proof. intros Hc%rel_units_bounds. pose proof (posted_units_small (ss_total_deferred s)). lia. Qed.

Lemma rel_units_grid s : posted_ok (ss_total_deferred s) -> posted_ok (ss_recognized s) -> counters_ok s ->
  (10 ^ (28 - currency_scale (currency (ss_total_deferred s))) | rel_units s).
Proof.
  intros Ht Hr [Hc _]. unfold rel_units. destruct (bool_decide _); [|apply Z.divide_0_r].
  apply Z.divide_sub_r; [by apply posted_units_grid|]. rewrite Hc. by apply posted_units_grid.
Qed.

(** Postings of one currency with the given values. *)
Definition postings (cur : CurrencySpec) : list PostedMoney -> list Z -> Prop :=
  Forall2 (fun p z => posted_ok p /\ currency p = cur /\ posted_units p = z).

Lemma postings_zero cur zero n : posted_ok zero -> currency zero = cur -> posted_units zero = 0 ->
  postings cur (replicate n zero) (replicate n 0).
Proof. intros. induction n; by constructor. Qed.

Lemma postings_insert cur ps zs i p : postings cur ps zs -> posted_ok p -> currency p = cur ->
  postings cur (<[i := p]> ps) (<[i := posted_units p]> zs).
Proof. intros. by apply Forall2_insert. Qed.

Lemma postings_fits cur ps zs : postings cur ps zs -> Forall (fits (currency_scale cur)) zs.
Proof. induction 1 as [|p z ps zs (Hp & <- & <-) _ IH]; constructor; [by apply posted_units_fits|done]. Qed.

(** ** Draining *)

Definition drained (rels zs : list Z) (idx : list nat) : list Z :=
  foldl (fun zs i => <[i := nth i rels 0]> zs) zs idx.

Lemma drained_lookup rels idx : forall zs j, (j < length zs)%nat ->
  drained rels zs idx !! j = if decide (j ∈ idx) then Some (nth j rels 0) else zs !! j.
Proof.
  induction idx as [|i idx IH]; intros zs j Hj; [done|]. cbn [drained foldl].
  change (foldl _ _ idx) with (drained rels (<[i := nth i rels 0]> zs) idx).
  rewrite IH by by rewrite length_insert. destruct (decide (j ∈ idx)), (decide (j ∈ i :: idx)); try set_solver.
  - assert (j = i) as -> by set_solver. by rewrite list_lookup_insert_eq.
  - rewrite list_lookup_insert_ne; [done|]. set_solver.
Qed.

Lemma drained_all rels :
  drained rels (replicate (length rels) 0) (indices (fun z => negb (z =? 0)) rels) = rels.
Proof.
  assert (Hlen : forall idx zs, length (drained rels zs idx) = length zs).
  { induction idx as [|i idx IH]; intros zs; [done|]. etrans; [apply (IH (<[i := nth i rels 0]> zs))|apply length_insert]. }
  apply list_eq_same_length with (length rels); [done|by rewrite Hlen, length_replicate|].
  intros j x y Hj Hx Hy. rewrite drained_lookup in Hx by by rewrite length_replicate.
  destruct (decide _) as [Hin|Hin].
  - rewrite (nth_lookup_Some _ _ _ _ Hy) in Hx. congruence.
  - apply lookup_replicate_1 in Hx as [-> _]. destruct (Z.eqb_spec y 0) as [->|Hy0]; [done|].
    exfalso. apply Hin, elem_of_indices. exists y. split; [done|]. by apply negb_true_iff, Z.eqb_neq.
Qed.

Section place.
Context (input : SplitInput).
Let cur := currency (si_amount_ex_tax input).
Hypothesis Hcur : currency_ok cur.

Lemma drain_loop rels idx : Forall (fun r => 0 <= r < 10 ^ 57 /\ (10 ^ (28 - currency_scale cur) | r)) rels ->
  (forall i, i ∈ idx -> (i < length rels)%nat) -> forall ps zs, postings cur ps zs ->
  match fold_res (drain_step input (of_units <$> rels)) ps idx with
  | Ok ps' => postings cur ps' (drained rels zs idx)
  | Err _ => ~ Forall (fits (currency_scale cur)) rels
  end.
Proof.
  intros Hrels. induction idx as [|i idx IH]; intros Hidx ps zs Hps; [done|]. cbn [fold_res drained foldl].
  destruct (lookup_lt_is_Some_2 rels i (Hidx i ltac:(set_solver))) as [r Hr].
  pose proof (Forall_lookup_1 _ _ _ _ Hrels Hr) as [Hb Hg]. unfold drain_step at 2.
  rewrite (nth_lookup_Some (of_units <$> rels) i _ (of_units r)) by by rewrite list_lookup_fmap, Hr.
  rewrite (nth_lookup_Some rels i _ r) by done. fold cur.
  assert (Hsm : small r) by (apply (small_bound _ 1); lia).
  destruct (into_posted_exact (of_units r) cur) as [p|e] eqn:E; cbn [map_err mbind result_bind].
  - apply into_posted_units in E as (Hp & Hc & <-); [|done|done]. apply IH; [set_solver|]. by apply postings_insert.
  - intros Hf. destruct (into_posted_units_total r cur) as [p Hp]; [done|done|done| |congruence].
    by apply (Forall_lookup_1 _ _ _ _ Hf Hr).
Qed.

Lemma nonzero_indices rels :
  indices (fun r => negb (exact_eqb r (from_decimal ZERO))) (of_units <$> rels) = indices (fun z => negb (z =? 0)) rels.
Proof.
  rewrite from_decimal_units, units_ZERO. induction rels as [|r rels IH]; [done|].
  by rewrite fmap_cons, !indices_cons, IH, exact_eqb_units.
Qed.

(** The deferred part is placed exactly when its placement is forced. *)
Lemma place_deferred_ok req rels :
  posted_ok req -> currency req = cur -> length rels = length (si_streams input) ->
  Forall (fun r => 0 <= r < 10 ^ 57 /\ (10 ^ (28 - currency_scale cur) | r)) rels ->
  0 <= posted_units req <= sum_Z id rels ->
  match place_deferred input req (of_units (sum_Z id rels)) (of_units <$> rels) with
  | Ok ps => exists ds, forced rels (posted_units req) ds /\ postings cur ps ds
  | Err _ => ~ exists ds, forced rels (posted_units req) ds /\ Forall (fits (currency_scale cur)) ds
  end.
Proof.
  intros Hreq Hrc Hlen Hrels Hle. assert (Hpos : Forall (fun r => 0 <= r) rels) by (eapply Forall_impl; [done|cbn; lia]).
  unfold place_deferred. destruct (zero_posted_total (si_amount_ex_tax input) Hcur) as [zero Hz].
  rewrite Hz. apply zero_posted_ok in Hz as (Hz1 & Hz2 & Hz3); [|done]. cbn [mbind result_bind]. rewrite <- Hlen.
  pose proof (postings_zero cur zero (length rels) Hz1 Hz2 Hz3) as Hzs.
  rewrite dec_eqb_units, units_ZERO. fold (posted_units req). destruct (Z.eqb_spec (posted_units req) 0) as [E|Hnz].
  { exists (replicate (length rels) 0). rewrite E. split; [by apply forced_zero|done]. }
  rewrite nonzero_indices, from_decimal_units, exact_eqb_units. fold (posted_units req).
  pose proof (elem_of_indices (fun z => negb (z =? 0)) rels) as Hel. pose proof (NoDup_indices (fun z => negb (z =? 0)) rels) as Hnd.
  destruct (indices (fun z => negb (z =? 0)) rels) as [|a [|b idx]] eqn:Hidx.
  - exfalso. destruct (sum_positive rels) as (i & x & Hi & Hx); [lia|].
    assert (i ∈ []) by (apply Hel; exists x; split; [done|]; apply negb_true_iff, Z.eqb_neq; lia). set_solver.
  - destruct (proj1 (Hel a)) as (x & Ha & _); [set_solver|].
    exists (<[a := posted_units req]> (replicate (length rels) 0)). split; [|by apply postings_insert].
    apply (forced_single _ _ _ x); [done|done| |done]. intros j y Hne Hj.
    destruct (Z.eqb_spec y 0) as [|Hy]; [done|]. exfalso. apply Hne.
    assert (j ∈ [a]) by (apply Hel; exists y; split; [done|by apply negb_true_iff, Z.eqb_neq]). set_solver.
  - destruct (Z.eqb_spec (posted_units req) (sum_Z id rels)) as [Heq|Hneq].
    + pose proof (drain_loop rels (a :: b :: idx) Hrels) as Hloop. specialize (Hloop ltac:(intros i (x & Hx & _)%Hel; by eapply lookup_lt_Some) _ _ Hzs).
      destruct (fold_res _ _ _) as [ps|e].
      * exists rels. rewrite Heq. split; [by apply forced_full|]. rewrite <- Hidx, drained_all in Hloop. done.
      * intros (ds & Hf & Hfit). apply Hloop. destruct (forced_full rels Hpos) as [Hfull _]. rewrite Heq in Hf.
        destruct Hf as [_ Huniq]. by rewrite (Huniq _ Hfull).
    + intros (ds & Hf & _). destruct (proj1 (Hel a)) as (x & Ha & Hx); [set_solver|].
      destruct (proj1 (Hel b)) as (y & Hb & Hy); [set_solver|]. bool_to_prop.
      pose proof (Forall_lookup_1 _ _ _ _ Hpos Ha). pose proof (Forall_lookup_1 _ _ _ _ Hpos Hb). cbn in *.
      apply (partial_not_forced rels (posted_units req) a b x y); [|done|done|lia|lia|lia|by exists ds].
      apply NoDup_cons in Hnd as [Hnd _]. set_solver.
Qed.

Lemma positive_indices ps ds : postings cur ps ds ->
  indices (fun p => dec_ltb ZERO (amount p)) ps = indices (fun d => 0 <? d) ds.
Proof.
  induction 1 as [|p d ps ds (_ & _ & <-) _ IH]; [done|]. by rewrite !indices_cons, IH, posted_gtb_zero.
Qed.

(** The recognised part is placed exactly when it can be attributed. *)
Lemma place_recognized_ok rest ps ds :
  posted_ok rest -> currency rest = cur -> 0 <= posted_units rest -> postings cur ps ds ->
  length ds = length (si_streams input) -> ds <> [] ->
  match place_recognized input rest ps with
  | Ok qs => exists rs, attributed ds (posted_units rest) rs /\ postings cur qs rs
  | Err _ => ~ exists rs, attributed ds (posted_units rest) rs
  end.
Proof.
  intros Hrest Hrc Hpos Hps Hlen Hne. unfold place_recognized.
  destruct (zero_posted_total (si_amount_ex_tax input) Hcur) as [zero Hz].
  rewrite Hz. apply zero_posted_ok in Hz as (Hz1 & Hz2 & Hz3); [|done]. cbn [mbind result_bind]. rewrite <- Hlen.
  pose proof (postings_zero cur zero (length ds) Hz1 Hz2 Hz3) as Hzs.
  rewrite dec_eqb_units, units_ZERO. fold (posted_units rest). destruct (Z.eqb_spec (posted_units rest) 0) as [E|Hnz].
  { exists (replicate (length ds) 0). rewrite E. split; [|done]. split_and!.
    - apply length_replicate.
    - by apply Forall_replicate.
    - clear. induction (length ds) as [|n IH]; [done|]. cbn [replicate]. by rewrite sum_Z_cons, IH.
    - intros i r [-> _]%lookup_replicate_1. lia. }
  assert (Hone : forall i, (i < length ds)%nat ->
    (length ds = 1%nat \/ forall j d, ds !! j = Some d -> (0 < d <-> j = i)) ->
    attributed ds (posted_units rest) (<[i := posted_units rest]> (replicate (length ds) 0))).
  { intros i Hi Hsingle. apply attributed_single; [done|done|lia|done]. }
  case_bool_decide as Hn.
  { exists (<[0%nat := posted_units rest]> (replicate (length ds) 0)). split; [apply Hone; [lia|by left]|by apply postings_insert]. }
  rewrite (positive_indices ps ds Hps). pose proof (elem_of_indices (fun d => 0 <? d) ds) as Hel.
  assert (Hnot : (forall i, indices (fun d => 0 <? d) ds <> [i]) -> ~ exists rs, attributed ds (posted_units rest) rs).
  { intros Hno (rs & Hl & _ & Hsum & Hat). destruct (sum_positive rs) as (i & r & Hi & Hr); [lia|].
    apply lookup_lt_Some in Hi as Hlt. destruct (Hat i r Hi Hr) as [|Hj]; [done|]. apply (Hno i), indices_single; [by rewrite <- Hl|].
    intros j d Hd. rewrite Z.ltb_lt. by apply Hj. }
  destruct (indices (fun d => 0 <? d) ds) as [|i [|k idx]]; [by apply Hnot| |by apply Hnot].
  destruct (proj1 (Hel i)) as (d & Hd & _); [set_solver|].
  exists (<[i := posted_units rest]> (replicate (length ds) 0)). split; [|by apply postings_insert].
  apply Hone; [by eapply lookup_lt_Some|]. right. intros j e He.
  transitivity (j ∈ [i]); [|set_solver]. rewrite Hel. setoid_rewrite Z.ltb_lt. naive_solver.
Qed.
End place.

(** ** The split *)

Lemma check_stream_ok input s : check_stream input s = Ok tt <->
  currency (si_amount_ex_tax input) = currency (ss_total_deferred s) /\
  currency (si_amount_ex_tax input) = currency (ss_recognized s) /\ counters_ok s.
Proof.
  unfold check_stream. rewrite bind_ok. split.
  - intros ([] & ?%matching_spec_ok & ([] & ?%matching_spec_ok & (r & [? _]%releasable_ok & _)%bind_ok)%bind_ok). done.
  - intros (H1 & H2 & H3). exists tt. split; [by apply matching_spec_ok|].
    rewrite (proj2 (matching_spec_ok _ _ tt) H2). cbn. by rewrite (proj2 (releasable_ok s _) (conj H3 eq_refl)).
Qed.

Lemma duplicate_stream_spec streams : duplicate_stream streams = false <-> NoDup (ss_revenue_stream <$> streams).
Proof.
  unfold duplicate_stream. rewrite NoDup_alt. split.
  - intros Hf i j x Hi Hj. destruct (decide (i = j)) as [|Hne]; [done|]. exfalso. apply not_true_iff_false in Hf. apply Hf.
    assert (Hw : forall a b sa sb, (a < b)%nat -> streams !! a = Some sa -> streams !! b = Some sb ->
      ss_revenue_stream sa = ss_revenue_stream sb -> existsb (fun '(i, s) => existsb (fun prev =>
        bool_decide (ss_revenue_stream prev = ss_revenue_stream s)) (take i streams)) (imap pair streams) = true).
    { intros a b sa sb Hab Ha Hb Heq. apply existsb_exists. exists (b, sb). split.
      - apply list_elem_of_In, elem_of_lookup_imap. by exists b, sb.
      - apply existsb_exists. exists sa. split; [|by apply bool_decide_eq_true].
        apply list_elem_of_In, (list_elem_of_lookup_2 _ a). by rewrite lookup_take_lt. }
    rewrite list_lookup_fmap in Hi, Hj. apply fmap_Some in Hi as (si & Hi & ->). apply fmap_Some in Hj as (sj & Hj & Heq).
    destruct (Nat.lt_gt_cases i j) as [Hlt _]. destruct (Hlt Hne) as [?|?]; [by apply (Hw i j si sj)|by apply (Hw j i sj si)].
  - intros Hnd. apply not_true_iff_false. intros ([i s] & (k & s' & [= -> ->] & Hk)%list_elem_of_In%elem_of_lookup_imap_1 &
      (prev & Hprev%list_elem_of_In%list_elem_of_lookup_1 & Heq%bool_decide_eq_true)%existsb_exists)%existsb_exists.
    destruct Hprev as (j & Hj). apply lookup_take_Some in Hj as [Hj Hlt].
    assert (j = k) as ->; [|lia]. apply (Hnd j k (ss_revenue_stream s')).
    + by rewrite list_lookup_fmap, Hj, <- Heq.
    + by rewrite list_lookup_fmap, Hk.
Qed.

Lemma releasable_total streams : Forall counters_ok streams ->
  map_res releasable_remaining streams = Ok (of_units <$> (rel_units <$> streams)).
Proof.
  intros Hc. apply map_res_ok. induction Hc as [|s streams Hs _ IH]; [constructor|].
  rewrite !fmap_cons. constructor; [|done]. by apply releasable_ok.
Qed.

Lemma sum_releasable rels : Forall (fun r => Z.abs r < 10 ^ 57) rels -> forall z c,
  Z.abs z <= 10 ^ 57 * c -> c + Z.of_nat (length rels) < 2 ^ 100 ->
  fold_res (fun total remaining => map_err map_exact_error (checked_add total remaining)) (of_units z) (of_units <$> rels)
    = Ok (of_units (z + sum_Z id rels)) /\ Z.abs (z + sum_Z id rels) <= 10 ^ 57 * (c + Z.of_nat (length rels)).
Proof.
  induction 1 as [|r rels Hr _ IH]; intros z c Hz Hc.
  { rewrite sum_Z_nil, Z.add_0_r. split; [done|]. cbn. lia. }
  rewrite fmap_cons, sum_Z_cons. cbn [fold_res length] in *. unfold id at 1 3.
  rewrite checked_add_units; [|apply (small_bound _ c); lia|apply (small_bound _ 1); lia|apply (small_bound _ (c + 1)); lia].
  cbn [map_err mbind result_bind]. rewrite Z.add_assoc. destruct (IH (z + r) (c + 1)) as [-> Hb]; [lia|lia|]. split; [done|lia].
Qed.

Definition stream_posted (s : ScheduleStreamState) : Prop :=
  posted_ok (ss_total_deferred s) /\ posted_ok (ss_recognized s).

Lemma basis_total input : Forall stream_posted (si_streams input) -> Forall counters_ok (si_streams input) ->
  exists basis, build_split_basis_ref input = Ok basis.
Proof.
  intros Hp Hc. unfold build_split_basis_ref. assert (exists texts, map_res stream_basis (si_streams input) = Ok texts) as [texts Htexts].
  { induction Hp as [|s streams [Ht Hr] _ IH]; [by exists []|]. apply Forall_cons in Hc as [Hs Hc]. destruct (IH Hc) as [texts IHt].
    cbn [map_res]. unfold stream_basis at 2. rewrite (proj2 (releasable_ok s _) (conj Hs eq_refl)). cbn [mbind result_bind].
    destruct (rel_units_grid s Ht Hr Hs) as [k Hk]. pose proof (rel_units_small s Hs). rewrite Hk in *.
    rewrite canonical_at_scale_units; [|apply (small_bound _ 1); lia|apply Ht]. cbn [map_err mbind result_bind].
    rewrite IHt. by eexists. }
  destruct (si_streams input); [by eexists|]. rewrite Htexts. by eexists.
Qed.

Definition split_input_ok (input : SplitInput) : Prop :=
  posted_ok (si_amount_ex_tax input) /\ posted_ok (si_requested_deferred input) /\
  Forall stream_posted (si_streams input) /\ vec_ok (si_streams input).

(** The request is well formed: one currency, consistent counters, a deferred part
    within the amount, and every stream named once. *)
Definition split_admitted (input : SplitInput) : Prop :=
  currency (si_amount_ex_tax input) = currency (si_requested_deferred input) /\
  Forall (fun s => currency (si_amount_ex_tax input) = currency (ss_total_deferred s) /\
                   currency (si_amount_ex_tax input) = currency (ss_recognized s) /\ counters_ok s) (si_streams input) /\
  0 <= posted_units (si_requested_deferred input) <= posted_units (si_amount_ex_tax input) /\
  NoDup (ss_revenue_stream <$> si_streams input).

(** The parts the note leaves no choice about, as representable values. *)
Definition split_plan (input : SplitInput) (ds rs : list Z) : Prop :=
  let sc := currency_scale (currency (si_amount_ex_tax input)) in
  let rest := posted_units (si_amount_ex_tax input) - posted_units (si_requested_deferred input) in
  forced (rel_units <$> si_streams input) (posted_units (si_requested_deferred input)) ds /\
  Forall (fits sc) ds /\ fits sc rest /\
  (si_streams input = [] /\ rs = [] \/ si_streams input <> [] /\ attributed ds rest rs).

Definition split_result (input : SplitInput) (ds rs : list Z) (r : SplitResult) : Prop :=
  posted_units (sr_recognized_part r) + posted_units (sr_deferred_part r) = posted_units (si_amount_ex_tax input) /\
  sr_deferred_part r = si_requested_deferred input /\
  Forall (fun p => posted_ok p /\ currency p = currency (si_amount_ex_tax input))
    (sr_recognized_part r :: (sp_recognized_part <$> sr_per_stream r) ++ (sp_deferred_part <$> sr_per_stream r)) /\
  (fun p => (sp_revenue_stream p, sp_schedule_id p)) <$> sr_per_stream r
    = (fun s => (ss_revenue_stream s, ss_schedule_id s)) <$> si_streams input /\
  posted_units <$> (sp_recognized_part <$> sr_per_stream r) = rs /\
  posted_units <$> (sp_deferred_part <$> sr_per_stream r) = ds.

Lemma per_stream_result input qs ps rs ds cur :
  postings cur qs rs -> postings cur ps ds -> length rs = length (si_streams input) -> length ds = length (si_streams input) ->
  let per_stream := zip_with (fun s '(r, d) => mkStreamSplit (ss_revenue_stream s) (ss_schedule_id s) r d)
                      (si_streams input) (zip qs ps) in
  (sp_recognized_part <$> per_stream) = qs /\ (sp_deferred_part <$> per_stream) = ps /\
  (fun p => (sp_revenue_stream p, sp_schedule_id p)) <$> per_stream
    = (fun s => (ss_revenue_stream s, ss_schedule_id s)) <$> si_streams input.
Proof.
  intros Hq Hp Hr Hd. cbn. apply Forall2_length in Hq, Hp. rewrite <- Hq in Hr. rewrite <- Hp in Hd. clear Hq Hp.
  revert qs ps Hr Hd. induction (si_streams input) as [|s streams IH]; intros [|q qs] [|p ps]; try done.
  cbn [length]. intros [= Hr] [= Hd]. cbn [zip_with zip]. destruct (IH qs ps Hr Hd) as (H1 & H2 & H3).
  rewrite !fmap_cons, H1, H2, H3. done.
Qed.

Lemma postings_units cur ps zs : postings cur ps zs ->
  posted_units <$> ps = zs /\ Forall (fun p => posted_ok p /\ currency p = cur) ps.
Proof. induction 1 as [|p z ps zs (Hp & Hc & <-) _ [IH1 IH2]]; [by split|]. rewrite fmap_cons, IH1. by split; [|constructor]. Qed.

(** What the gates admit. *)
Lemma split_gates input :
  (split_admitted input /\ split input = split_parts input) \/ (~ split_admitted input /\ exists e, split input = Err e).
Proof.
  unfold split_admitted, split.
  destruct (matching_spec _ _) as [[]|e] eqn:E1; cbn [mbind result_bind];
    [apply matching_spec_ok in E1|right; split; [|by eexists]; intros (Hc & _); apply (matching_spec_ok _ _ tt) in Hc; congruence].
  pose proof (unit_loop (check_stream input) _ (si_streams input) (check_stream_ok input)) as Hloop.
  destruct (fold_res _ _ _) as [[]|e] eqn:E2; cbn [mbind result_bind];
    [apply proj1 in Hloop; specialize (Hloop eq_refl)|right; split; [|by eexists]; by intros (_ & Hc%Hloop & _)].
  rewrite !posted_ltb_zero, dec_ltb_posted. pose proof (duplicate_stream_spec (si_streams input)) as Hdup.
  destruct (Z.ltb_spec (posted_units (si_amount_ex_tax input)) 0); [right; split; [lia|by eexists]|].
  destruct (Z.ltb_spec (posted_units (si_requested_deferred input)) 0); [right; split; [lia|by eexists]|].
  destruct (Z.ltb_spec (posted_units (si_amount_ex_tax input)) (posted_units (si_requested_deferred input)));
    [right; split; [lia|by eexists]|].
  destruct (duplicate_stream (si_streams input)).
  - right. split; [|by eexists]. by intros (_ & _ & _ & Hnd%Hdup).
  - left. split; [|done]. split_and!; [done|done|lia|lia|]. by apply Hdup.
Qed.

Section parts.
Context (input : SplitInput).
Let cur := currency (si_amount_ex_tax input).
Let req := si_requested_deferred input.
Let rels := rel_units <$> si_streams input.
Hypothesis Hok : split_input_ok input.
Hypothesis Hadm : split_admitted input.

Lemma admitted_counters : Forall counters_ok (si_streams input).
Proof. destruct Hadm as (_ & Hs & _). eapply Forall_impl; [done|]. cbn. tauto. Qed.

Lemma admitted_rels : Forall (fun r => 0 <= r < 10 ^ 57 /\ (10 ^ (28 - currency_scale cur) | r)) rels.
Proof.
  destruct Hok as (_ & _ & Hs & _). destruct Hadm as (_ & Hstreams & _).
  apply Forall_fmap, Forall_forall. intros s Hin. rewrite Forall_forall in Hs, Hstreams.
  destruct (Hs s Hin) as [Ht Hrec]. destruct (Hstreams s Hin) as (Hc & _ & Hcs). unfold cur. rewrite Hc.
  pose proof (rel_units_bounds s Hcs). pose proof (rel_units_small s Hcs). cbn. split; [lia|by apply rel_units_grid].
Qed.

(** What the tail of [split] computes before it places the parts. *)
Lemma split_parts_run rest basis : si_streams input <> [] ->
  subtract_posted (si_amount_ex_tax input) req = Ok rest -> build_split_basis_ref input = Ok basis ->
  split_parts input =
    if sum_Z id rels <? posted_units req then Err DomainError.CreditNoteSplitAmbiguous
    else
      ps ← place_deferred input req (of_units (sum_Z id rels)) (of_units <$> rels);
      qs ← place_recognized input rest ps;
      Ok (mkSplitResult rest req
            (zip_with (fun s '(r, d) => mkStreamSplit (ss_revenue_stream s) (ss_schedule_id s) r d)
               (si_streams input) (zip qs ps)) basis).
Proof.
  intros Hne Hsub Hb. unfold split_parts. fold req. rewrite Hsub, Hb. cbn [mbind result_bind].
  rewrite bool_decide_false by done. rewrite releasable_total by apply admitted_counters. fold rels. cbn [mbind result_bind].
  destruct Hok as (_ & _ & _ & Hv). unfold vec_ok in Hv. assert (2 ^ 64 < 2 ^ 100) by by vm_compute.
  assert (Hlen : length rels = length (si_streams input)) by apply length_fmap.
  rewrite (from_decimal_units ZERO), units_ZERO. destruct (sum_releasable rels) with (z := 0) (c := 0) as [-> Hbound];
    [eapply Forall_impl; [exact admitted_rels|cbn; lia]|cbn; lia|lia|]. rewrite Z.add_0_l in *. cbn [mbind result_bind].
  pose proof (posted_units_small req). rewrite from_decimal_units. fold (posted_units req).
  rewrite checked_sub_units; [|apply (small_bound _ (Z.of_nat (length rels))); lia|apply (small_bound _ 1); lia
    |apply (small_bound _ (Z.of_nat (length rels) + 1)); lia].
  cbn [map_err mbind result_bind]. rewrite is_negative_units.
  by replace (sum_Z id rels - posted_units req <? 0) with (sum_Z id rels <? posted_units req) by lia.
Qed.

(** A line without schedules: everything is recognised. *)
Lemma split_parts_empty rest basis : si_streams input = [] ->
  subtract_posted (si_amount_ex_tax input) req = Ok rest -> build_split_basis_ref input = Ok basis ->
  match split_parts input with
  | Ok r => exists ds rs, split_plan input ds rs /\ split_result input ds rs r
  | Err _ => ~ exists ds rs, split_plan input ds rs
  end.
Proof.
  intros Hnil Hsub Hb. pose proof Hok as (Ha & Hr & _). destruct Hadm as (Hcur & _ & Hreq & _).
  unfold split_parts, split_plan, split_result. fold req cur in Hcur, Hreq |- *. rewrite Hsub, Hb. cbn [mbind result_bind].
  apply subtract_posted_ok in Hsub as (_ & Hrest & Hrc & Hru); [|apply Ha]. rewrite bool_decide_true by done.
  rewrite Hnil, posted_gtb_zero. destruct (Z.ltb_spec 0 (posted_units req)).
  - intros (ds & rs & [[Hp Hsum] _] & _). apply Forall2_nil_inv_l in Hp as ->. rewrite sum_Z_nil in Hsum. lia.
  - destruct (zero_posted_total (si_amount_ex_tax input) (proj1 Ha)) as [zero Hz]. rewrite Hz. cbn [mbind result_bind].
    apply zero_posted_ok in Hz as (Hz1 & Hz2 & Hz3); [|apply Ha]. exists [], [].
    assert (Hz4 : zero = req) by (apply posted_unique; [done|done|exact (eq_trans Hz2 Hcur)|lia]). split; [split_and!|].
    + replace (posted_units req) with 0 by lia. apply (forced_zero []). constructor.
    + constructor.
    + rewrite <- Hru. unfold cur. rewrite <- Hrc. by apply posted_units_fits.
    + by left.
    + cbn. split_and!; [lia|done|constructor; [done|constructor]|done|done|done].
Qed.

(** The parts of an admitted request. *)
Lemma split_parts_ok :
  match split_parts input with
  | Ok r => exists ds rs, split_plan input ds rs /\ split_result input ds rs r
  | Err _ => ~ exists ds rs, split_plan input ds rs
  end.
Proof.
  pose proof Hok as (Ha & Hr & Hs & _). pose proof Hadm as (Hcur & _ & Hreq & _). fold cur req in Hcur, Hreq, Hr.
  destruct (subtract_posted (si_amount_ex_tax input) req) as [rest|e] eqn:Hsub; last first.
  { unfold split_parts. fold req. rewrite Hsub. intros (ds & rs & _ & _ & Hfit & _).
    destruct (subtract_posted_fits _ req Ha Hr Hcur Hfit). congruence. }
  destruct (basis_total input Hs admitted_counters) as [basis Hb].
  destruct (decide (si_streams input = [])) as [Hnil|Hne]; [by eapply split_parts_empty|].
  rewrite (split_parts_run rest basis) by done. clear Hb.
  apply subtract_posted_ok in Hsub as (_ & Hrest & Hrc & Hru); [|apply Ha].
  assert (Hlen : length rels = length (si_streams input)) by apply length_fmap.
  unfold split_plan. fold rels req cur. destruct (Z.ltb_spec (sum_Z id rels) (posted_units req)).
  { intros (ds & rs & [[Hp Hsum] _] & _). apply sum_below in Hp as [Hp _]. lia. }
  pose proof (place_deferred_ok input (proj1 Ha) req rels Hr (eq_sym Hcur) Hlen admitted_rels ltac:(lia)) as Hpd.
  destruct (place_deferred _ _ _ _) as [ps|e]; cbn [mbind result_bind].
  2:{ intros (ds & rs & Hf & Hfit & _). apply Hpd. by exists ds. }
  destruct Hpd as (ds & Hf & Hps). pose proof Hf as [[Hp _] _]. apply Forall2_length in Hp as Hdl. rewrite Hlen in Hdl.
  pose proof (place_recognized_ok input (proj1 Ha) rest ps ds Hrest Hrc ltac:(lia) Hps (eq_sym Hdl)) as Hpr.
  specialize (Hpr ltac:(intros ->; destruct (si_streams input); done)). rewrite Hru in Hpr.
  destruct (place_recognized _ _ _) as [qs|e]; cbn [mbind result_bind].
  2:{ intros (ds' & rs & [Hp' _] & _ & _ & [[? _]|[_ Hat]]); [done|]. destruct Hf as [_ Hu].
      rewrite (Hu _ Hp') in Hat. apply Hpr. by exists rs. }
  destruct Hpr as (rs & Hat & Hqs). exists ds, rs. split.
  { split_and!; [done|by eapply postings_fits| |by right]. rewrite <- Hru. unfold cur. rewrite <- Hrc. by apply posted_units_fits. }
  destruct Hat as (Hrl & _). destruct (per_stream_result input qs ps rs ds _ Hqs Hps) as (P1 & P2 & P3); [congruence|congruence|].
  destruct (postings_units _ _ _ Hqs) as [P4 P5]. destruct (postings_units _ _ _ Hps) as [P6 P7].
  unfold split_result. cbn [sr_recognized_part sr_deferred_part sr_per_stream]. rewrite P1, P2, P3, P4, P6.
  split_and!; [fold req; lia|done| |done|done|done]. constructor; [done|]. by apply Forall_app.
Qed.
End parts.

Lemma split_spec input : split_input_ok input ->
  match split input with
  | Ok r => split_admitted input /\ exists ds rs, split_plan input ds rs /\ split_result input ds rs r
  | Err _ => ~ (split_admitted input /\ exists ds rs, split_plan input ds rs)
  end.
Proof.
  intros Hok. destruct (split_gates input) as [[Hadm ->]|[Hno [e ->]]]; [|tauto].
  pose proof (split_parts_ok input Hok Hadm) as Hp. destruct (split_parts input); tauto.
Qed.

Lemma split_keys input r : split_input_ok input -> split input = Ok r ->
  length (sr_per_stream r) = length (si_streams input).
Proof.
  intros Hok Hr. pose proof (split_spec input Hok) as Hs. rewrite Hr in Hs.
  destruct Hs as (_ & ds & rs & _ & _ & _ & _ & Hkeys & _). apply (f_equal length) in Hkeys. by rewrite !length_fmap in Hkeys.
Qed.

(** No stream gives more than it can still release. *)
Lemma split_within input r p : split_input_ok input -> split input = Ok r -> p ∈ sr_per_stream r ->
  exists s, s ∈ si_streams input /\ ss_schedule_id s = sp_schedule_id p /\
    0 <= posted_units (sp_deferred_part p) <= rel_units s.
Proof.
  intros Hok Hr (i & Hi)%list_elem_of_lookup. pose proof (split_spec input Hok) as Hs. rewrite Hr in Hs.
  destruct Hs as (_ & ds & rs & ([[Hp _] _] & _) & _ & _ & _ & Hkeys & _ & Hds).
  apply (f_equal (lookup i)) in Hkeys. rewrite !list_lookup_fmap, Hi in Hkeys. symmetry in Hkeys.
  apply fmap_Some in Hkeys as (s & Hs & [= _ Hid]). exists s. split; [by eapply list_elem_of_lookup_2|]. split; [done|].
  eapply Forall2_lookup_lr in Hp; [exact Hp| |].
  - by rewrite list_lookup_fmap, Hs.
  - by rewrite <- Hds, !list_lookup_fmap, Hi.
Qed.

(** The splitter blocks exactly on ambiguity.  On a well-formed request (one
    currency, consistent schedule counters, a deferred part within the amount, streams
    named once) the splitter succeeds exactly when the schedules leave a single
    placement of the deferred part and the recognised rest can be attributed, all
    representable; it then returns that placement, with parts that add up to the note.
    Everything else is an error. *)
Theorem split_exact input : split_input_ok input ->
  match split input with
  | Ok r => split_admitted input /\ exists ds rs, split_plan input ds rs /\ split_result input ds rs r
  | Err _ => ~ (split_admitted input /\ exists ds rs, split_plan input ds rs)
  end.
Proof. apply split_spec. Qed.
End splitter.

Section witnesses.
Import ConcreteDecimal MoneySamples.

Definition sample_stream (name : string) (total recognized : Z) : ScheduleStreamState :=
  mkScheduleStreamState name (name +:+ "-1") (eur total) (eur recognized) SCHEDULE_STATUS_ACTIVE 3.

(** 100.00 EUR, 40.00 of it deferred, on a line whose second stream is spent. *)
Definition sample_split : SplitInput :=
  mkSplitInput "item-1" None [sample_stream "seats" 12000 3000; sample_stream "setup" 5000 5000] (eur 10000) (eur 4000).

Lemma split_exact_witness :
  exists r, split sample_split = Ok r /\ exists ds rs, split_plan sample_split ds rs /\ split_result sample_split ds rs r.
Proof.
  assert (Hok : split_input_ok sample_split).
  { split; [exact (eur_ok 10000 eq_refl)|]. split; [exact (eur_ok 4000 eq_refl)|]. split; [|ground].
    constructor; [exact (conj (eur_ok 12000 eq_refl) (eur_ok 3000 eq_refl))|].
    constructor; [exact (conj (eur_ok 5000 eq_refl) (eur_ok 5000 eq_refl))|constructor]. }
  destruct (is_ok_exists (split sample_split)) as [r Hr]; [vm_compute; reflexivity|].
  exists r. split; [exact Hr|]. pose proof (split_exact sample_split Hok) as Hs. rewrite Hr in Hs. exact (proj2 Hs).
Defined.

(** Two streams with room and a partial request: the choice is refused. *)
Example split_samples :
  (fun r => (map (fun p => (posted_units (sp_recognized_part p), posted_units (sp_deferred_part p))) (sr_per_stream r),
             sr_split_basis_ref r)) <$> split sample_split
  = Ok ([(posted_units (eur 6000), posted_units (eur 4000)); (0, 0)],
        "item=item-1;po=-;streams=[seats:seats-1@v3:def=120:rec=30:rel=90:ACTIVE:EUR:2,setup:setup-1@v3:def=50:rec=50:rel=0:ACTIVE:EUR:2]"%string) /\
  (fun _ => tt) <$> split (mkSplitInput "item-1" None [sample_stream "a" 12000 3000; sample_stream "b" 5000 0] (eur 10000) (eur 4000))
  = Err DomainError.CreditNoteSplitAmbiguous.
Proof. split; vm_compute; reflexivity. Qed.
End witnesses.
