(* ===== verification/Notes.v ===== *)
(** * Credit and debit notes: [domain/adjustment/credit_note.rs],
    [domain/adjustment/debit_note.rs]

    A credit note compensates a posted invoice: it debits revenue, the deferred
    balance and tax, and credits the open receivable first and the wallet with the
    rest.  A debit note is an additional charge.  Both plans are characterised: they
    are built exactly for the requests their checks admit, their legs balance at the
    note's amount, and the credit note composes with the splitter. *)

From Stdlib Require Import Ascii.
From S2P Require Import Prelude Decimal Money Exact ExactGrid DomainErrors Sdk MoneyText Posting Recognition Splitter.

Definition CREDIT_GRANT_EVENT_TYPE_CREDIT_NOTE : string := "CREDIT_NOTE".

Section common.
Context `{RustDecimal}.

Record TaxBreakdown := mkTaxBreakdown {
  tb_amount : PostedMoney;
  tb_tax_jurisdiction : string;
  tb_tax_filing_period : string;
  tb_tax_rate_ref : option string;
}.

(** [amount_ex_tax] of both requests. *)
Definition amount_ex_tax (amt tax_amount : PostedMoney) : result DomainError PostedMoney :=
  _ ← matching_spec amt tax_amount;
  if dec_ltb (amount amt) ZERO then Err DomainError.AmountOutOfRange
  else if dec_ltb (amount tax_amount) ZERO then Err DomainError.AmountOutOfRange
  else if dec_ltb (amount amt) (amount tax_amount) then Err DomainError.AmountOutOfRange
  else subtract_posted amt tax_amount.

(** The checks of both [validate_shape] up to the tax breakdown: the deferred part is
    within the amount before tax, and the components add up to the tax. *)
Definition validate_note_amounts (amt tax_amount deferred : PostedMoney) (tax : list TaxBreakdown) :
    result DomainError unit :=
  ex_tax ← amount_ex_tax amt tax_amount;
  _ ← matching_spec amt deferred;
  if dec_ltb (amount deferred) ZERO || dec_ltb (amount ex_tax) (amount deferred)
  then Err DomainError.AmountOutOfRange
  else if dec_ltb ZERO (amount tax_amount) && is_empty tax then Err DomainError.InvalidRequest
  else
    _ ← fold_res (fun _ component =>
          _ ← matching_spec amt (tb_amount component);
          if dec_ltb (amount (tb_amount component)) ZERO then Err DomainError.AmountOutOfRange else Ok tt) tt tax;
    tax_sum ← map_err map_exact_error (sum_posted (tb_amount <$> tax) (currency amt));
    if negb (posted_eqb tax_sum tax_amount) then Err DomainError.AmountOutOfRange else Ok tt.

(** The balance check at the end of both builders, on the sides and amounts of the
    legs. *)
Definition check_balance (cur : CurrencySpec) (legs : list (Side * PostedMoney)) : result DomainError unit :=
  let side_total sd :=
    map_err map_exact_error
      (sum_posted (snd <$> List.filter (fun l => bool_decide (fst l = sd)) legs) cur) in
  dr ← side_total Debit;
  cr ← side_total Credit;
  if negb (posted_eqb dr cr) then Err DomainError.Internal else Ok tt.

(** ** Amounts *)

Lemma amount_ex_tax_ok a t e : posted_ok a ->
  amount_ex_tax a t = Ok e <->
  currency a = currency t /\ 0 <= posted_units t <= posted_units a /\
  posted_ok e /\ currency e = currency a /\ posted_units e = posted_units a - posted_units t.
Proof.
  intros Ha. unfold amount_ex_tax. rewrite bind_ok, !posted_ltb_zero, dec_ltb_posted.
  pose proof (subtract_posted_ok a t e (proj1 Ha)) as Hs. split.
  - intros ([] & Hc & Hrun). res_inv. apply Hs in Hrun as (? & ? & ? & ?). bool_to_prop. done.
  - intros (Hc & Hb & He & Hec & Heu). exists tt. split; [by apply matching_spec_ok|].
    rewrite !(proj2 (Z.ltb_ge _ _)) by lia. by apply Hs.
Qed.

(** What [validate_note_amounts] admits. *)
Record amounts_ok (amt tax_amount deferred : PostedMoney) (tax : list TaxBreakdown) : Prop := mkAmountsOk {
  am_tax_currency : currency amt = currency tax_amount;
  am_tax : 0 <= posted_units tax_amount <= posted_units amt;
  am_fits : fits (currency_scale (currency amt)) (posted_units amt - posted_units tax_amount);
  am_deferred_currency : currency amt = currency deferred;
  am_deferred : 0 <= posted_units deferred <= posted_units amt - posted_units tax_amount;
  am_components : Forall (fun t => currency amt = currency (tb_amount t) /\ 0 <= posted_units (tb_amount t)) tax;
  am_sum : sum_Z (fun t => posted_units (tb_amount t)) tax = posted_units tax_amount;
}.

Lemma amounts_ex_tax amt tax_amount deferred tax : posted_ok amt -> posted_ok tax_amount ->
  amounts_ok amt tax_amount deferred tax -> exists e, amount_ex_tax amt tax_amount = Ok e.
Proof.
  intros Ha Ht [Hc Hb Hf _ _ _ _]. destruct (subtract_posted_fits amt tax_amount Ha Ht Hc Hf) as [e He].
  apply subtract_posted_ok in He as (? & ? & ? & ?); [|apply Ha]. exists e. by apply amount_ex_tax_ok.
Qed.

Lemma component_loop amt tax :
  fold_res (fun _ component =>
    _ ← matching_spec amt (tb_amount component);
    if dec_ltb (amount (tb_amount component)) ZERO then Err DomainError.AmountOutOfRange else Ok tt) tt tax = Ok tt <->
  Forall (fun t => currency amt = currency (tb_amount t) /\ 0 <= posted_units (tb_amount t)) tax.
Proof.
  apply unit_loop. intros t. rewrite bind_ok, posted_ltb_zero. split.
  - intros ([] & Hc%matching_spec_ok & Hr). res_inv. by bool_to_prop.
  - intros [Hc Hp]. exists tt. split; [by apply matching_spec_ok|]. by rewrite (proj2 (Z.ltb_ge _ _)).
Qed.

Lemma validate_note_amounts_ok amt tax_amount deferred tax :
  posted_ok amt -> posted_ok tax_amount -> Forall (fun t => posted_ok (tb_amount t)) tax -> vec_ok tax ->
  validate_note_amounts amt tax_amount deferred tax = Ok tt <-> amounts_ok amt tax_amount deferred tax.
Proof.
  intros Ha Ht Hts Hv. assert (Hv' : vec_ok (tb_amount <$> tax)) by (unfold vec_ok in *; by rewrite length_fmap).
  unfold validate_note_amounts. rewrite bind_ok. split.
  - intros (e & He%amount_ex_tax_ok & ([] & Hd%matching_spec_ok & Hrun)%bind_ok); [|done].
    destruct He as (Hc & Hb & Heok & Hec & Heu). rewrite posted_ltb_zero, dec_ltb_posted in Hrun. res_inv. destruct r.
    apply component_loop in E1. apply sum_posted_ok in E2 as (_ & Hsok & Hsc & Hsu); [|done|apply Ha]. bool_to_prop.
    apply posted_eqb_ok in E3; [|done|done]. subst. rewrite sum_Z_map in Hsu.
    split; [done|done| |done|lia|done|done]. rewrite <- Heu, <- Hec. by apply posted_units_fits.
  - intros Hok. destruct (amounts_ex_tax _ _ _ _ Ha Ht Hok) as [e He]. destruct Hok as [Hc Hb Hf Hdc Hdb Hcomp Hsum].
    exists e. split; [done|]. apply amount_ex_tax_ok in He as (_ & _ & _ & _ & Heu); [|done].
    rewrite (proj2 (matching_spec_ok _ _ tt)) by done. cbn [mbind result_bind]. rewrite posted_ltb_zero, dec_ltb_posted, posted_gtb_zero.
    rewrite !(proj2 (Z.ltb_ge _ _)) by lia. cbn [orb].
    replace ((0 <? posted_units tax_amount) && is_empty tax) with false.
    2:{ destruct tax; [|by rewrite andb_false_r]. rewrite sum_Z_nil in Hsum. by rewrite <- Hsum. }
    rewrite (proj2 (component_loop amt tax)) by done. cbn [mbind result_bind].
    assert (Hs : sum_posted (tb_amount <$> tax) (currency amt) = Ok tax_amount).
    { apply sum_posted_ok; [done|apply Ha|]. split; [apply Forall_fmap; eapply Forall_impl; [done|]; by intros t [? _]|].
      split; [done|]. split; [done|]. by rewrite sum_Z_map. }
    rewrite Hs. cbn [map_err mbind result_bind]. by rewrite (proj2 (posted_eqb_ok _ _ Ht Ht)).
Qed.

(** ** The balance check *)

(** The legs of the amounts that are positive. *)
Definition emit (sd : Side) (ms : list PostedMoney) : list (Side * PostedMoney) :=
  ms ≫= fun m => if dec_ltb ZERO (amount m) then [(sd, m)] else [].

Definition amounts_in (cur : CurrencySpec) : list PostedMoney -> Prop :=
  Forall (fun m => posted_ok m /\ currency m = cur /\ 0 <= posted_units m).

Lemma emit_app sd ms1 ms2 : emit sd (ms1 ++ ms2) = emit sd ms1 ++ emit sd ms2.
Proof. apply bind_app. Qed.

Lemma emit_spec sd cur ms : amounts_in cur ms ->
  Forall (fun l => fst l = sd /\ posted_ok (snd l) /\ currency (snd l) = cur /\ 0 < posted_units (snd l)) (emit sd ms) /\
  sum_Z (fun l => posted_units (snd l)) (emit sd ms) = sum_Z posted_units ms /\
  (length (emit sd ms) <= length ms)%nat.
Proof.
  induction 1 as [|m ms (Hok & Hc & Hp) _ (IH1 & IH2 & IH3)]; [by split_and!|].
  change (emit sd (m :: ms)) with ((if dec_ltb ZERO (amount m) then [(sd, m)] else []) ++ emit sd ms).
  rewrite posted_gtb_zero, sum_Z_app, sum_Z_cons, length_app. destruct (Z.ltb_spec 0 (posted_units m)).
  - rewrite sum_Z_cons, sum_Z_nil. cbn [length snd]. split_and!; [by constructor|lia|lia].
  - rewrite sum_Z_nil. cbn [length]. split_and!; [done|lia|lia].
Qed.

Lemma filter_side sd sd' cur ms : amounts_in cur ms ->
  List.filter (fun l => bool_decide (fst l = sd')) (emit sd ms) = if bool_decide (sd = sd') then emit sd ms else [].
Proof.
  intros (Hall & _)%(emit_spec sd). induction Hall as [|l ls [Hl _] _ IH]; [by case_bool_decide|].
  cbn [List.filter]. rewrite Hl, IH. by case_bool_decide.
Qed.

Lemma check_balance_ok cur ds cs v : currency_ok cur -> amounts_in cur ds -> amounts_in cur cs ->
  vec_ok ds -> vec_ok cs -> sum_Z posted_units ds = v -> sum_Z posted_units cs = v -> fits (currency_scale cur) v ->
  check_balance cur (emit Debit ds ++ emit Credit cs) = Ok tt.
Proof.
  intros Hcur Hd Hc Hvd Hvc Hds Hcs Hfit. unfold check_balance.
  rewrite !List.filter_app, !(filter_side Debit _ cur), !(filter_side Credit _ cur) by done.
  rewrite (bool_decide_eq_true_2 (Debit = Debit)), (bool_decide_eq_true_2 (Credit = Credit)),
    (bool_decide_eq_false_2 (Debit = Credit)), (bool_decide_eq_false_2 (Credit = Debit)) by done.
  rewrite app_nil_r. cbn [app].
  assert (Hsum : forall sd ms, amounts_in cur ms -> vec_ok ms -> sum_Z posted_units ms = v ->
    exists p, sum_posted (snd <$> emit sd ms) cur = Ok p /\ posted_ok p /\ currency p = cur /\ posted_units p = v).
  { intros sd ms Hms Hvm Hs. destruct (emit_spec sd cur ms Hms) as (H1 & H2 & H3).
    assert (Hvs : vec_ok (snd <$> emit sd ms)) by (unfold vec_ok in *; rewrite length_fmap; lia).
    destruct (sum_posted_fits (snd <$> emit sd ms) cur) as [p Hp]; [done|done| | |by rewrite sum_Z_map, H2, Hs|].
    - apply Forall_fmap. eapply Forall_impl; [exact H1|]. cbn. tauto.
    - apply Forall_fmap. eapply Forall_impl; [exact H1|]. cbn. tauto.
    - exists p. split; [done|]. apply sum_posted_ok in Hp as (_ & ? & ? & Hu); [|done|done]. split_and!; [done|done|].
      by rewrite Hu, sum_Z_map, H2. }
  destruct (Hsum Debit ds) as (d & -> & Hd1 & Hd2 & Hd3); [done..|]. destruct (Hsum Credit cs) as (c & -> & Hc1 & Hc2 & Hc3); [done..|].
  cbn [map_err mbind result_bind]. rewrite (proj2 (posted_eqb_ok d c Hd1 Hc1)); [done|]. apply posted_unique; congruence.
Qed.

(** Emitted legs of equal totals make an entry the gate admits. *)
Lemma emit_balanced cur payer ds cs v : amounts_in cur ds -> amounts_in cur cs ->
  sum_Z posted_units ds = v -> sum_Z posted_units cs = v -> 0 < v ->
  balanced_entry (code cur) ((fun l => mkLineFacts (fst l) (snd l) payer None) <$> emit Debit ds ++ emit Credit cs).
Proof.
  intros Hd Hc Hds Hcs Hv. destruct (emit_spec Debit cur ds Hd) as (D1 & D2 & _). destruct (emit_spec Credit cur cs Hc) as (C1 & C2 & _).
  apply (plain_balanced _ payer).
  - intros E%fmap_nil_inv%app_nil. destruct E as [E _]. rewrite E, sum_Z_nil in D2. lia.
  - apply Forall_fmap, Forall_app. split; (eapply Forall_impl; [eassumption|]); intros l (? & ? & ? & ?); by split.
  - rewrite sum_Z_map, sum_Z_app. rewrite (sum_Z_ext _ (fun l => posted_units (snd l)) (emit Debit ds)).
    2:{ intros l Hl. rewrite Forall_forall in D1. unfold signed_line. cbn. by rewrite (proj1 (D1 l Hl)). }
    rewrite (sum_Z_ext _ (fun l => -1 * posted_units (snd l)) (emit Credit cs)).
    2:{ intros l Hl. rewrite Forall_forall in C1. unfold signed_line. cbn [fact_side fact_money]. rewrite (proj1 (C1 l Hl)). cbn [signed]. lia. }
    assert (Hneg : forall ls, sum_Z (fun l : Side * PostedMoney => -1 * posted_units (snd l)) ls = - sum_Z (fun l => posted_units (snd l)) ls).
    { induction ls as [|l ls IH]; [done|]. rewrite !sum_Z_cons, IH. lia. }
    rewrite Hneg. lia.
Qed.

(** Legs built for the positive ones of a list of amounts. *)
Lemma emit_bind {A L} (side_of : L -> Side) (amount_of : L -> PostedMoney) sd (f : A -> PostedMoney) (leg : A -> L) xs :
  (forall x, side_of (leg x) = sd) -> (forall x, amount_of (leg x) = f x) ->
  (fun l => (side_of l, amount_of l)) <$> (xs ≫= fun x => if dec_ltb ZERO (amount (f x)) then [leg x] else [])
  = emit sd (f <$> xs).
Proof.
  intros Hs Ha. induction xs as [|x xs IH]; [done|]. cbn [mbind list_bind]. rewrite fmap_app, IH, fmap_cons.
  change (emit sd (f x :: (f <$> xs))) with ((if dec_ltb ZERO (amount (f x)) then [(sd, f x)] else []) ++ emit sd (f <$> xs)).
  f_equal. destruct (dec_ltb _ _); [|done]. cbn. by rewrite Hs, Ha.
Qed.

Lemma emit_one {L} (side_of : L -> Side) (amount_of : L -> PostedMoney) (leg : L) :
  (fun l => (side_of l, amount_of l)) <$> (if dec_ltb ZERO (amount (amount_of leg)) then [leg] else [])
  = emit (side_of leg) [amount_of leg].
Proof. unfold emit. cbn. rewrite app_nil_r. by destruct (dec_ltb _ _). Qed.

(** What the legs of one account class add up to. *)
Definition class_total {L} (class_of : L -> AccountClass) (amount_of : L -> PostedMoney) (cls : AccountClass)
    (legs : list L) : Z :=
  sum_Z (fun l => if bool_decide (class_of l = cls) then posted_units (amount_of l) else 0) legs.

Lemma class_total_app {L} class_of amount_of cls (l1 l2 : list L) :
  class_total class_of amount_of cls (l1 ++ l2) = class_total class_of amount_of cls l1 + class_total class_of amount_of cls l2.
Proof. apply sum_Z_app. Qed.

Lemma class_total_bind {A L} class_of amount_of cls c (f : A -> PostedMoney) (leg : A -> L) xs :
  (forall x, class_of (leg x) = c) -> (forall x, amount_of (leg x) = f x) -> (forall x, x ∈ xs -> 0 <= posted_units (f x)) ->
  class_total class_of amount_of cls (xs ≫= fun x => if dec_ltb ZERO (amount (f x)) then [leg x] else [])
  = if bool_decide (c = cls) then sum_Z (fun x => posted_units (f x)) xs else 0.
Proof.
  intros Hc Ha. induction xs as [|x xs IH]; intros Hp; [by case_bool_decide|]. cbn [mbind list_bind].
  rewrite class_total_app, IH, sum_Z_cons by set_solver. specialize (Hp x ltac:(set_solver)). rewrite posted_gtb_zero.
  unfold class_total. destruct (Z.ltb_spec 0 (posted_units (f x))); rewrite ?sum_Z_cons, ?sum_Z_nil, ?Hc, ?Ha;
    case_bool_decide; lia.
Qed.

Lemma class_total_one {L} class_of amount_of cls (leg : L) : 0 <= posted_units (amount_of leg) ->
  class_total class_of amount_of cls (if dec_ltb ZERO (amount (amount_of leg)) then [leg] else [])
  = if bool_decide (class_of leg = cls) then posted_units (amount_of leg) else 0.
Proof.
  intros Hp. rewrite posted_gtb_zero. unfold class_total.
  destruct (Z.ltb_spec 0 (posted_units (amount_of leg))); rewrite ?sum_Z_cons, ?sum_Z_nil; case_bool_decide; lia.
Qed.
End common.

Module CreditNote.
Section credit_note.
Context `{DecimalText}.

Record CreditNoteRequest := mkCreditNoteRequest {
  cn_tenant_id : Uuid;
  cn_payer_tenant_id : Uuid;
  cn_credit_note_id : string;
  cn_origin_invoice_id : string;
  cn_origin_invoice_item_ref : option string;
  cn_po_allocation_group : option string;
  cn_revenue_stream : string;
  cn_amount : PostedMoney;
  cn_tax_amount : PostedMoney;
  cn_tax : list TaxBreakdown;
  cn_requested_deferred : PostedMoney;
  cn_reason_code : string;
  cn_goodwill : bool;
}.

Definition remaining_headroom (original_total debit_note_total credit_note_total : PostedMoney) :
    result DomainError PostedMoney :=
  _ ← matching_spec original_total debit_note_total;
  _ ← matching_spec original_total credit_note_total;
  remaining ← map_err map_exact_error
    (v ← checked_add (from_decimal (amount original_total)) (from_decimal (amount debit_note_total));
     checked_sub v (from_decimal (amount credit_note_total)));
  if is_negative remaining then Err DomainError.Internal
  else map_err map_exact_error (into_posted_exact remaining (currency original_total)).

Record PlannedLeg := mkPlannedLeg {
  leg_account_class : AccountClass;
  leg_side : Side;
  leg_amount : PostedMoney;
  leg_revenue_stream : option string;
  leg_schedule_id : option string;
  leg_credit_grant_event_type : option string;
  leg_tax_jurisdiction : option string;
  leg_tax_filing_period : option string;
  leg_tax_rate_ref : option string;
}.

Record CreditNoteLegPlan := mkCreditNoteLegPlan {
  cp_legs : list PlannedLeg;
  cp_recognized_part : PostedMoney;
  cp_deferred_part : PostedMoney;
  cp_ar_credit : PostedMoney;
  cp_wallet_remainder : PostedMoney;
  cp_split_basis_ref : string;
}.

Definition validate_shape (req : CreditNoteRequest) : result DomainError unit :=
  _ ← validate_note_amounts (cn_amount req) (cn_tax_amount req) (cn_requested_deferred req) (cn_tax req);
  if trim_is_empty (cn_reason_code req) then Err DomainError.InvalidRequest
  else if cn_goodwill req && negb (dec_eqb (amount (cn_requested_deferred req)) ZERO)
  then Err DomainError.InvalidRequest
  else Ok tt.

(** The debit legs: goodwill, or the recognised part and the deferred parts. *)
Definition revenue_legs (req : CreditNoteRequest) (split : SplitResult) (ex_tax : PostedMoney) : list PlannedLeg :=
  if cn_goodwill req then
    if dec_ltb ZERO (amount ex_tax)
    then [mkPlannedLeg Goodwill Debit ex_tax None None None None None None] else []
  else
    (if dec_ltb ZERO (amount (sr_recognized_part split))
     then [mkPlannedLeg ContraRevenue Debit (sr_recognized_part split) (Some (cn_revenue_stream req))
             None None None None None] else [])
    ++ (sr_per_stream split ≫= fun ps =>
          if dec_ltb ZERO (amount (sp_deferred_part ps))
          then [mkPlannedLeg ContractLiability Debit (sp_deferred_part ps) (Some (sp_revenue_stream ps))
                  (Some (sp_schedule_id ps)) None None None None] else []).

Definition tax_legs (tax : list TaxBreakdown) : list PlannedLeg :=
  tax ≫= fun t =>
    if dec_ltb ZERO (amount (tb_amount t))
    then [mkPlannedLeg TaxPayable Debit (tb_amount t) None None None (Some (tb_tax_jurisdiction t))
            (Some (tb_tax_filing_period t)) (tb_tax_rate_ref t)] else [].

Definition credit_legs (ar_credit wallet_remainder : PostedMoney) : list PlannedLeg :=
  (if dec_ltb ZERO (amount ar_credit)
   then [mkPlannedLeg Ar Credit ar_credit None None None None None None] else [])
  ++ (if dec_ltb ZERO (amount wallet_remainder)
      then [mkPlannedLeg ReusableCredit Credit wallet_remainder None None
              (Some CREDIT_GRANT_EVENT_TYPE_CREDIT_NOTE) None None None] else []).

(** The checks that the split belongs to the request. *)
Definition check_part (amt value : PostedMoney) : result DomainError unit :=
  _ ← matching_spec amt value;
  if dec_ltb (amount value) ZERO then Err DomainError.Internal else Ok tt.

Definition check_split (req : CreditNoteRequest) (split : SplitResult) (ex_tax : PostedMoney) :
    result DomainError unit :=
  let amt := cn_amount req in
  _ ← check_part amt (sr_recognized_part split);
  _ ← check_part amt (sr_deferred_part split);
  _ ← fold_res (fun _ part =>
        _ ← check_part amt (sp_recognized_part part);
        check_part amt (sp_deferred_part part)) tt (sr_per_stream split);
  split_total ← map_err map_exact_error
    (sum_posted [sr_recognized_part split; sr_deferred_part split] (currency amt));
  if negb (posted_eqb split_total ex_tax)
     || negb (posted_eqb (sr_deferred_part split) (cn_requested_deferred req))
  then Err DomainError.Internal
  else
    _ ← (if is_empty (sr_per_stream split) then Ok tt
         else
           stream_recognized ← map_err map_exact_error
             (sum_posted (sp_recognized_part <$> sr_per_stream split) (currency amt));
           if negb (posted_eqb stream_recognized (sr_recognized_part split))
           then Err DomainError.Internal else Ok tt);
    stream_deferred ← map_err map_exact_error
      (sum_posted (sp_deferred_part <$> sr_per_stream split) (currency amt));
    if negb (posted_eqb stream_deferred (sr_deferred_part split)) then Err DomainError.Internal else Ok tt.

(** The layout of the legs, past the checks. *)
Definition lay_out (req : CreditNoteRequest) (split : SplitResult) (open_ar ex_tax : PostedMoney) :
    result DomainError CreditNoteLegPlan :=
  let ar_credit := if dec_leb (amount (cn_amount req)) (amount open_ar) then cn_amount req else open_ar in
  wallet_remainder ← subtract_posted (cn_amount req) ar_credit;
  if cn_goodwill req && dec_ltb ZERO (amount wallet_remainder) then Err DomainError.InvalidRequest
  else
    let legs := revenue_legs req split ex_tax ++ tax_legs (cn_tax req)
                ++ credit_legs ar_credit wallet_remainder in
    _ ← check_balance (currency (cn_amount req)) ((fun l => (leg_side l, leg_amount l)) <$> legs);
    Ok (mkCreditNoteLegPlan legs (sr_recognized_part split) (sr_deferred_part split)
          ar_credit wallet_remainder (sr_split_basis_ref split)).

Definition build_credit_note_legs (req : CreditNoteRequest) (split : SplitResult) (open_ar : PostedMoney) :
    result DomainError CreditNoteLegPlan :=
  _ ← validate_shape req;
  _ ← matching_spec (cn_amount req) open_ar;
  if dec_ltb (amount open_ar) ZERO then Err DomainError.Internal
  else
    ex_tax ← amount_ex_tax (cn_amount req) (cn_tax_amount req);
    _ ← check_split req split ex_tax;
    lay_out req split open_ar ex_tax.

(** The split the service asks for; a goodwill credit has no schedules. *)
Definition note_split (req : CreditNoteRequest) (states : list ScheduleStreamState) : result DomainError SplitResult :=
  let streams := if cn_goodwill req then [] else states in
  ex_tax ← amount_ex_tax (cn_amount req) (cn_tax_amount req);
  split (mkSplitInput (default ""%string (cn_origin_invoice_item_ref req)) (cn_po_allocation_group req)
           streams ex_tax (cn_requested_deferred req)).

(** The headroom is what is left of the invoice and its debit notes. *)
Theorem remaining_headroom_exact original debit credit p : posted_ok original ->
  remaining_headroom original debit credit = Ok p <->
  currency original = currency debit /\ currency original = currency credit /\
  posted_ok p /\ currency p = currency original /\ 0 <= posted_units p /\
  posted_units p = posted_units original + posted_units debit - posted_units credit.
Proof.
  intros Ho. unfold remaining_headroom. rewrite !from_decimal_units.
  fold (posted_units original) (posted_units debit) (posted_units credit).
  pose proof (posted_units_small original). pose proof (posted_units_small debit). pose proof (posted_units_small credit).
  rewrite checked_add_units by (apply (small_bound _ 2); lia). cbn [mbind result_bind].
  rewrite checked_sub_units by (apply (small_bound _ 3); lia). cbn [map_err mbind result_bind]. rewrite is_negative_units.
  pose proof (into_posted_units (posted_units original + posted_units debit - posted_units credit) (currency original) p
    ltac:(apply (small_bound _ 3); lia) (proj1 Ho)) as Hp. split.
  - intros ([] & Hd%matching_spec_ok & Hrun)%bind_ok. apply bind_ok in Hrun as ([] & Hc%matching_spec_ok & Hrun). res_inv.
    apply Hp in Hrun as (? & ? & ?). bool_to_prop. split_and!; try done; lia.
  - intros (Hd & Hc & ? & ? & ? & ?). rewrite !(proj2 (matching_spec_ok _ _ tt)) by done. cbn [mbind result_bind].
    rewrite (proj2 (Z.ltb_ge _ _)) by lia. apply map_err_ok, Hp. done.
Qed.

(** ** What a credit note admits *)

Definition shape_ok (req : CreditNoteRequest) : Prop :=
  amounts_ok (cn_amount req) (cn_tax_amount req) (cn_requested_deferred req) (cn_tax req) /\
  trim_is_empty (cn_reason_code req) = false /\
  (cn_goodwill req = true -> posted_units (cn_requested_deferred req) = 0).

(** The postings of a request are valid, and its lists are of a machine size. *)
Definition request_posted (req : CreditNoteRequest) : Prop :=
  posted_ok (cn_amount req) /\ posted_ok (cn_tax_amount req) /\ posted_ok (cn_requested_deferred req) /\
  Forall (fun t => posted_ok (tb_amount t)) (cn_tax req) /\ vec_ok (cn_tax req).

Lemma validate_shape_ok req : request_posted req -> validate_shape req = Ok tt <-> shape_ok req.
Proof.
  intros (Ha & Ht & Hd & Hts & Hv). unfold validate_shape, shape_ok. rewrite bind_ok.
  pose proof (validate_note_amounts_ok (cn_amount req) (cn_tax_amount req) (cn_requested_deferred req) (cn_tax req) Ha Ht Hts Hv) as Hva.
  rewrite dec_eqb_units, units_ZERO. fold (posted_units (cn_requested_deferred req)). split.
  - intros ([] & E%Hva & Hrun). res_inv. split_and!; [done|done|]. intros Hg. rewrite Hg in *. by match goal with E : true && _ = false |- _ => apply negb_false_iff, Z.eqb_eq in E end.
  - intros (E & Hr & Hg). exists tt. split; [by apply Hva|]. rewrite Hr.
    destruct (cn_goodwill req); [|done]. by rewrite Hg.
Qed.

Definition split_amounts (split : SplitResult) : list PostedMoney :=
  sr_recognized_part split :: sr_deferred_part split
    :: (sp_recognized_part <$> sr_per_stream split) ++ (sp_deferred_part <$> sr_per_stream split).

(** The split belongs to the request. *)
Record split_matches (req : CreditNoteRequest) (split : SplitResult) : Prop := mkSplitMatches {
  sm_amounts : amounts_in (currency (cn_amount req)) (split_amounts split);
  sm_total : posted_units (sr_recognized_part split) + posted_units (sr_deferred_part split)
             = posted_units (cn_amount req) - posted_units (cn_tax_amount req);
  sm_deferred : sr_deferred_part split = cn_requested_deferred req;
  sm_recognized_streams : sr_per_stream split <> [] ->
    sum_Z (fun p => posted_units (sp_recognized_part p)) (sr_per_stream split) = posted_units (sr_recognized_part split);
  sm_deferred_streams :
    sum_Z (fun p => posted_units (sp_deferred_part p)) (sr_per_stream split) = posted_units (sr_deferred_part split);
}.

Lemma check_part_ok amt value : check_part amt value = Ok tt <-> currency amt = currency value /\ 0 <= posted_units value.
Proof.
  unfold check_part. rewrite bind_ok, posted_ltb_zero. split.
  - intros ([] & Hc%matching_spec_ok & Hr). res_inv. by bool_to_prop.
  - intros [Hc Hp]. exists tt. split; [by apply matching_spec_ok|]. by rewrite (proj2 (Z.ltb_ge _ _)).
Qed.

(** A guard that compares a sum with a posting. *)
Lemma sum_guard {A} (values : list PostedMoney) cur p (e : DomainError) (k : result DomainError A) a : vec_ok values -> currency_ok cur ->
  Forall (fun v => currency v = cur) values -> posted_ok p -> currency p = cur ->
  (total ← map_err map_exact_error (sum_posted values cur); if negb (posted_eqb total p) then Err e else k) = Ok a <->
  sum_Z posted_units values = posted_units p /\ k = Ok a.
Proof.
  intros Hv Hcur Hc Hp Hpc. rewrite bind_ok. setoid_rewrite map_err_ok. split.
  - intros (t & Ht & Hrun). apply sum_posted_ok in Ht as (_ & Htok & _ & Htu); [|done|done]. res_inv. bool_to_prop.
    apply posted_eqb_ok in E; [|done|done]. by subst.
  - intros [Hs Hk]. exists p. rewrite sum_posted_ok by done. rewrite (proj2 (posted_eqb_ok p p Hp Hp)) by done. done.
Qed.

Lemma stream_loop_ok amt parts :
  fold_res (fun _ part => _ ← check_part amt (sp_recognized_part part); check_part amt (sp_deferred_part part)) tt parts = Ok tt <->
  Forall (fun p => (currency amt = currency (sp_recognized_part p) /\ 0 <= posted_units (sp_recognized_part p)) /\
                   (currency amt = currency (sp_deferred_part p) /\ 0 <= posted_units (sp_deferred_part p))) parts.
Proof.
  apply unit_loop. intros p. rewrite bind_ok. split.
  - by intros ([] & ?%check_part_ok & ?%check_part_ok).
  - intros [H1 H2]. exists tt. by rewrite !check_part_ok.
Qed.

Section check_split.
Context (req : CreditNoteRequest) (split : SplitResult) (ex_tax : PostedMoney).
Let cur := currency (cn_amount req).
Hypothesis Hcur : currency_ok cur.
Hypothesis Hok : Forall posted_ok (split_amounts split).
Hypothesis Hreq : posted_ok (cn_requested_deferred req).
Hypothesis Hv : vec_ok (sr_per_stream split).
Hypothesis He : posted_ok ex_tax.
Hypothesis Hec : currency ex_tax = cur.

Lemma total_guard (k : result DomainError unit) :
  currency (sr_recognized_part split) = cur -> currency (sr_deferred_part split) = cur ->
  (split_total ← map_err map_exact_error (sum_posted [sr_recognized_part split; sr_deferred_part split] cur);
   if negb (posted_eqb split_total ex_tax) || negb (posted_eqb (sr_deferred_part split) (cn_requested_deferred req))
   then Err DomainError.Internal else k) = Ok tt <->
  (posted_units (sr_recognized_part split) + posted_units (sr_deferred_part split) = posted_units ex_tax /\
   sr_deferred_part split = cn_requested_deferred req) /\ k = Ok tt.
Proof.
  intros Hrc Hdc. pose proof Hok as [_ [Hdok _]%Forall_cons]%Forall_cons. rewrite <- (posted_eqb_ok _ _ Hdok Hreq).
  transitivity (sum_Z posted_units [sr_recognized_part split; sr_deferred_part split] = posted_units ex_tax /\
    (if negb (posted_eqb (sr_deferred_part split) (cn_requested_deferred req)) then Err DomainError.Internal else k) = Ok tt).
  - rewrite <- (sum_guard _ cur ex_tax DomainError.Internal); [|by vm_compute|done|by repeat constructor|done|done].
    destruct (sum_posted _ cur) as [t|]; [|done]. cbn. by destruct (posted_eqb t ex_tax).
  - rewrite !sum_Z_cons, sum_Z_nil, Z.add_0_r.
    destruct (posted_eqb (sr_deferred_part split) (cn_requested_deferred req)); naive_solver.
Qed.

Lemma part_guard (f : StreamSplit -> PostedMoney) total :
  Forall (fun p => cur = currency (f p)) (sr_per_stream split) -> posted_ok total -> currency total = cur ->
  (sum ← map_err map_exact_error (sum_posted (f <$> sr_per_stream split) cur);
   if negb (posted_eqb sum total) then Err DomainError.Internal else Ok tt) = Ok tt <->
  sum_Z (fun p => posted_units (f p)) (sr_per_stream split) = posted_units total.
Proof.
  intros Hf Ht Htc. rewrite sum_guard; [|unfold vec_ok in *; by rewrite length_fmap|done| |done|done].
  - rewrite sum_Z_map. tauto.
  - apply Forall_fmap. eapply Forall_impl; [exact Hf|]. by intros p ->.
Qed.

Lemma check_split_ok : posted_units ex_tax = posted_units (cn_amount req) - posted_units (cn_tax_amount req) ->
  check_split req split ex_tax = Ok tt <-> split_matches req split.
Proof.
  intros Heu. pose proof Hok as [Hrok [Hdok [Hrs Hds]%Forall_app]%Forall_cons]%Forall_cons. rewrite !Forall_fmap in Hrs, Hds.
  unfold check_split. split.
  - intros ([] & [Hrc Hrp]%check_part_ok & ([] & [Hdc Hdp]%check_part_ok & ([] & Hl%stream_loop_ok & Hrun)%bind_ok)%bind_ok)%bind_ok.
    apply total_guard in Hrun as ([Htot Hdef] & ([] & Hrec & Hdefs)%bind_ok); [|done|done].
    apply (part_guard sp_deferred_part) in Hdefs; [|eapply Forall_impl; [exact Hl|cbn; tauto]|done|done].
    split; [|lia|done| |done].
    + constructor; [done|]. constructor; [done|]. apply Forall_app. rewrite !Forall_fmap, !Forall_forall in *.
      split; intros p Hp; destruct (Hl p Hp) as [[Hc1 ?] [Hc2 ?]]; [pose proof (Hrs p Hp)|pose proof (Hds p Hp)]; by split_and!.
    + intros Hne. assert (is_empty (sr_per_stream split) = false) as E by by destruct (sr_per_stream split).
      rewrite E in Hrec. apply (part_guard sp_recognized_part) in Hrec; [done|eapply Forall_impl; [exact Hl|cbn; tauto]|done|done].
  - intros [Ham Htot Hdef Hrs' Hds']. apply Forall_cons in Ham as [(_ & Hrc & Hrp) Ham]. apply Forall_cons in Ham as [(_ & Hdc & Hdp) Ham].
    apply Forall_app in Ham as [Har Had]. rewrite Forall_fmap in Har, Had. fold cur in Hrc, Hdc, Har, Had.
    rewrite (proj2 (check_part_ok _ _)) by done. cbn [mbind result_bind]. rewrite (proj2 (check_part_ok _ _)) by done. cbn [mbind result_bind].
    assert (Hcr : Forall (fun p => cur = currency (sp_recognized_part p)) (sr_per_stream split))
      by (eapply Forall_impl; [exact Har|]; intros p (_ & -> & _); done).
    assert (Hcd : Forall (fun p => cur = currency (sp_deferred_part p)) (sr_per_stream split))
      by (eapply Forall_impl; [exact Had|]; intros p (_ & -> & _); done).
    rewrite (proj2 (stream_loop_ok _ _)).
    2:{ rewrite !Forall_forall in *. intros p Hp. split; (split; [by auto|]); [apply (Har p Hp)|apply (Had p Hp)]. }
    cbn [mbind result_bind]. apply total_guard; [done|done|]. split; [split; [lia|done]|].
    apply bind_ok. exists tt. split; [|by apply (part_guard sp_deferred_part)].
    destruct (is_empty (sr_per_stream split)) eqn:E; [done|].
    apply (part_guard sp_recognized_part); [done|done|done|]. apply Hrs'. intros E'. by rewrite E' in E.
Qed.
End check_split.

(** ** The plan *)

Definition note_posted (req : CreditNoteRequest) (split : SplitResult) (open_ar : PostedMoney) : Prop :=
  request_posted req /\ Forall posted_ok (split_amounts split) /\ posted_ok open_ar /\
  Z.of_nat (length (sr_per_stream split)) + Z.of_nat (length (cn_tax req)) + 1 < 2 ^ 64.

Definition ar_units (req : CreditNoteRequest) (open_ar : PostedMoney) : Z :=
  Z.min (posted_units (cn_amount req)) (posted_units open_ar).

Definition note_admitted (req : CreditNoteRequest) (split : SplitResult) (open_ar : PostedMoney) : Prop :=
  shape_ok req /\ split_matches req split /\ currency (cn_amount req) = currency open_ar /\ 0 <= posted_units open_ar /\
  fits (currency_scale (currency (cn_amount req))) (posted_units (cn_amount req) - ar_units req open_ar) /\
  (cn_goodwill req = true -> posted_units (cn_amount req) <= posted_units open_ar).

Definition note_class (cls : AccountClass) (legs : list PlannedLeg) : Z := class_total leg_account_class leg_amount cls legs.

Definition note_facts (payer : Uuid) (legs : list PlannedLeg) : list LineFacts :=
  (fun l => mkLineFacts (leg_side l) (leg_amount l) payer None) <$> legs.

(** The schedules the legs reduce. *)
Definition reductions (legs : list PlannedLeg) : list (string * PostedMoney) :=
  omap (fun l => (fun s => (s, leg_amount l)) <$> leg_schedule_id l) legs.

Record plan_correct (req : CreditNoteRequest) (split : SplitResult) (open_ar : PostedMoney) (plan : CreditNoteLegPlan) : Prop := {
  pc_balanced : forall payer, 0 < posted_units (cn_amount req) ->
    balanced_entry (code (currency (cn_amount req))) (note_facts payer (cp_legs plan));
  pc_ar : note_class Ar (cp_legs plan) = ar_units req open_ar;
  pc_wallet : note_class ReusableCredit (cp_legs plan) = posted_units (cn_amount req) - ar_units req open_ar;
  pc_tax : note_class TaxPayable (cp_legs plan) = posted_units (cn_tax_amount req);
  pc_revenue : note_class ContraRevenue (cp_legs plan)
    = if cn_goodwill req then 0 else posted_units (sr_recognized_part split);
  pc_liability : note_class ContractLiability (cp_legs plan)
    = if cn_goodwill req then 0 else posted_units (sr_deferred_part split);
  pc_goodwill : note_class Goodwill (cp_legs plan)
    = if cn_goodwill req then posted_units (cn_amount req) - posted_units (cn_tax_amount req) else 0;
  pc_reductions : reductions (cp_legs plan)
    = if cn_goodwill req then []
      else (fun p => (sp_schedule_id p, sp_deferred_part p)) <$>
           filter (fun p => 0 < posted_units (sp_deferred_part p)) (sr_per_stream split);
  pc_parts : cp_recognized_part plan = sr_recognized_part split /\ cp_deferred_part plan = sr_deferred_part split /\
    posted_units (cp_ar_credit plan) = ar_units req open_ar /\
    posted_units (cp_wallet_remainder plan) = posted_units (cn_amount req) - ar_units req open_ar;
}.

Section plan.
Context (req : CreditNoteRequest) (split : SplitResult) (ex_tax ar wallet : PostedMoney).
Let cur := currency (cn_amount req).
Hypothesis Hposted : request_posted req.
Hypothesis Hshape : shape_ok req.
Hypothesis Hsplit : split_matches req split.
Hypothesis Hex : amounts_in cur [ex_tax].
Hypothesis Hexu : posted_units ex_tax = posted_units (cn_amount req) - posted_units (cn_tax_amount req).
Hypothesis Hcr : amounts_in cur [ar; wallet].
Hypothesis Hcru : posted_units ar + posted_units wallet = posted_units (cn_amount req).

Let legs := revenue_legs req split ex_tax ++ tax_legs (cn_tax req) ++ credit_legs ar wallet.

Definition debit_amounts : list PostedMoney :=
  (if cn_goodwill req then [ex_tax] else sr_recognized_part split :: (sp_deferred_part <$> sr_per_stream split))
  ++ (tb_amount <$> cn_tax req).

Lemma legs_emitted :
  (fun l => (leg_side l, leg_amount l)) <$> legs = emit Debit debit_amounts ++ emit Credit [ar; wallet].
Proof.
  unfold legs, revenue_legs, tax_legs, credit_legs, debit_amounts. rewrite !fmap_app, emit_app, <- app_assoc. f_equal; [|f_equal].
  - destruct (cn_goodwill req); [apply (emit_one leg_side leg_amount (mkPlannedLeg _ _ ex_tax _ _ _ _ _ _))|].
    rewrite fmap_app. change (sr_recognized_part split :: ?l) with ([sr_recognized_part split] ++ l). rewrite emit_app. f_equal.
    + apply (emit_one leg_side leg_amount (mkPlannedLeg ContraRevenue Debit (sr_recognized_part split) _ _ _ _ _ _)).
    + by apply (emit_bind leg_side leg_amount).
  - by apply (emit_bind leg_side leg_amount).
  - change [ar; wallet] with ([ar] ++ [wallet]). rewrite emit_app. f_equal.
    + apply (emit_one leg_side leg_amount (mkPlannedLeg Ar Credit ar _ _ _ _ _ _)).
    + apply (emit_one leg_side leg_amount (mkPlannedLeg ReusableCredit Credit wallet _ _ _ _ _ _)).
Qed.

Lemma tax_amounts : amounts_in cur (tb_amount <$> cn_tax req).
Proof.
  destruct Hposted as (_ & _ & _ & Ht & _). destruct Hshape as [[_ _ _ _ _ Hc _] _].
  apply Forall_fmap, Forall_forall. rewrite Forall_forall in Ht, Hc. intros t Hin. destruct (Hc t Hin) as [Hcur ?].
  by split_and!; [apply Ht| |].
Qed.

Lemma debit_amounts_in : amounts_in cur debit_amounts /\ sum_Z posted_units debit_amounts = posted_units (cn_amount req).
Proof.
  pose proof Hsplit as [[Hr [_ [_ Hd]%Forall_app]%Forall_cons]%Forall_cons Htot _ _ Hds].
  destruct Hshape as [[_ _ _ _ _ _ Hsum] _]. unfold debit_amounts. split.
  - apply Forall_app. split; [|exact tax_amounts]. destruct (cn_goodwill req); [done|]. by constructor.
  - rewrite sum_Z_app, sum_Z_map, Hsum. destruct (cn_goodwill req); rewrite sum_Z_cons, ?sum_Z_nil, ?sum_Z_map; lia.
Qed.

Lemma plan_balance_checked :
  Z.of_nat (length (sr_per_stream split)) + Z.of_nat (length (cn_tax req)) + 1 < 2 ^ 64 ->
  check_balance cur ((fun l => (leg_side l, leg_amount l)) <$> legs) = Ok tt.
Proof.
  intros Hlen. destruct debit_amounts_in as [Hd Hs]. pose proof Hposted as (Ha & _). rewrite legs_emitted.
  apply (check_balance_ok _ _ _ (posted_units (cn_amount req))); [apply Ha|done|done| |by vm_compute|done| |by apply posted_units_fits].
  - unfold vec_ok, debit_amounts. rewrite length_app, length_fmap. destruct (cn_goodwill req); cbn [length]; rewrite ?length_fmap; lia.
  - rewrite !sum_Z_cons, sum_Z_nil. lia.
Qed.

Lemma note_class_legs cls :
  note_class cls legs =
    (if cn_goodwill req then (if bool_decide (Goodwill = cls) then posted_units ex_tax else 0)
     else (if bool_decide (ContraRevenue = cls) then posted_units (sr_recognized_part split) else 0)
          + (if bool_decide (ContractLiability = cls) then posted_units (sr_deferred_part split) else 0))
    + ((if bool_decide (TaxPayable = cls) then posted_units (cn_tax_amount req) else 0)
       + ((if bool_decide (Ar = cls) then posted_units ar else 0)
          + (if bool_decide (ReusableCredit = cls) then posted_units wallet else 0))).
Proof.
  pose proof Hsplit as [[(_ & _ & Hr) [_ [_ Hd]%Forall_app]%Forall_cons]%Forall_cons _ _ _ Hds].
  destruct Hshape as [[_ _ _ _ _ Hc Hsum] _]. pose proof Hex as [(_ & _ & He) _]%Forall_cons.
  pose proof Hcr as [(_ & _ & Ha) [(_ & _ & Hw) _]%Forall_cons]%Forall_cons.
  rewrite Forall_fmap, Forall_forall in Hd. rewrite Forall_forall in Hc.
  unfold note_class, legs, tax_legs, credit_legs. rewrite !class_total_app. f_equal; [|f_equal; [|f_equal]].
  - unfold revenue_legs. destruct (cn_goodwill req).
    { exact (class_total_one leg_account_class leg_amount cls (mkPlannedLeg Goodwill Debit ex_tax None None None None None None) He). }
    rewrite class_total_app. f_equal.
    + exact (class_total_one leg_account_class leg_amount cls (mkPlannedLeg ContraRevenue Debit (sr_recognized_part split) (Some (cn_revenue_stream req)) None None None None None) Hr).
    + rewrite <- Hds. apply (class_total_bind leg_account_class leg_amount cls ContractLiability sp_deferred_part); [done|done|].
      intros p Hp. apply (Hd p Hp).
  - rewrite <- Hsum. apply (class_total_bind leg_account_class leg_amount cls TaxPayable tb_amount); [done|done|].
    intros t Ht. apply (Hc t Ht).
  - exact (class_total_one leg_account_class leg_amount cls (mkPlannedLeg Ar Credit ar None None None None None None) Ha).
  - exact (class_total_one leg_account_class leg_amount cls
      (mkPlannedLeg ReusableCredit Credit wallet None None (Some CREDIT_GRANT_EVENT_TYPE_CREDIT_NOTE) None None None) Hw).
Qed.

Lemma reductions_legs : reductions legs =
  if cn_goodwill req then []
  else (fun p => (sp_schedule_id p, sp_deferred_part p)) <$>
       filter (fun p => 0 < posted_units (sp_deferred_part p)) (sr_per_stream split).
Proof.
  assert (Htax : forall tax, reductions (tax_legs tax) = []).
  { induction tax as [|t tax IH]; [done|]. unfold reductions, tax_legs in *. cbn [mbind list_bind]. rewrite omap_app, IH.
    by destruct (dec_ltb _ _). }
  unfold legs, reductions. rewrite !omap_app. fold (reductions (tax_legs (cn_tax req))). rewrite Htax.
  replace (omap _ (credit_legs ar wallet)) with (@nil (string * PostedMoney)).
  2:{ unfold credit_legs. rewrite omap_app. by destruct (dec_ltb ZERO (amount ar)), (dec_ltb ZERO (amount wallet)). }
  rewrite app_nil_r. unfold revenue_legs. destruct (cn_goodwill req); [by destruct (dec_ltb _ _)|].
  rewrite omap_app. replace (omap _ (if dec_ltb ZERO (amount (sr_recognized_part split)) then _ else [])) with (@nil (string * PostedMoney))
    by by destruct (dec_ltb _ _).
  cbn [app]. induction (sr_per_stream split) as [|p ps IH]; [done|]. cbn [mbind list_bind]. rewrite omap_app, IH, posted_gtb_zero, filter_cons.
  destruct (Z.ltb_spec 0 (posted_units (sp_deferred_part p))), (decide (0 < posted_units (sp_deferred_part p))); try lia; done.
Qed.

Lemma plan_built open_ar basis : posted_units ar = ar_units req open_ar ->
  plan_correct req split open_ar (mkCreditNoteLegPlan legs (sr_recognized_part split) (sr_deferred_part split) ar wallet basis).
Proof.
  intros Har. destruct debit_amounts_in as [Hd Hs]. assert (Hcs : sum_Z posted_units [ar; wallet] = posted_units (cn_amount req)).
  { rewrite !sum_Z_cons, sum_Z_nil. lia. }
  split; cbn [cp_legs cp_recognized_part cp_deferred_part cp_ar_credit cp_wallet_remainder];
    try (rewrite note_class_legs; destruct (cn_goodwill req); repeat case_bool_decide; try done; lia).
  - intros payer Hpos. unfold note_facts. fold cur.
    assert ((fun l => mkLineFacts (leg_side l) (leg_amount l) payer None) <$> legs
      = (fun l => mkLineFacts (fst l) (snd l) payer None) <$> ((fun l => (leg_side l, leg_amount l)) <$> legs)) as ->
      by exact (list_fmap_compose (fun l => (leg_side l, leg_amount l)) (fun l => mkLineFacts (fst l) (snd l) payer None) legs).
    rewrite legs_emitted. by apply (emit_balanced _ _ _ _ (posted_units (cn_amount req))).
  - apply reductions_legs.
  - split_and!; [done|done|done|lia].
Qed.
End plan.

Lemma ar_choice req open_ar :
  posted_units (if dec_leb (amount (cn_amount req)) (amount open_ar) then cn_amount req else open_ar) = ar_units req open_ar.
Proof. rewrite dec_leb_posted. unfold ar_units. destruct (Z.leb_spec (posted_units (cn_amount req)) (posted_units open_ar)); lia. Qed.

(** The layout succeeds when the wallet remainder is representable and a goodwill
    credit stays within the receivable. *)
Lemma lay_out_ok req split open_ar ex : note_posted req split open_ar -> shape_ok req -> split_matches req split ->
  currency (cn_amount req) = currency open_ar -> 0 <= posted_units open_ar ->
  posted_ok ex -> currency ex = currency (cn_amount req) ->
  posted_units ex = posted_units (cn_amount req) - posted_units (cn_tax_amount req) ->
  match lay_out req split open_ar ex with
  | Ok plan => note_admitted req split open_ar /\ plan_correct req split open_ar plan
  | Err _ => ~ note_admitted req split open_ar
  end.
Proof.
  intros (Hreq & _ & Hoar & Hlen) Hshape Hmatch Hoc Hop Hex Hec Heu. pose proof Hreq as (Ha & _). pose proof Hshape as [[_ Htb _ _ Hdb _ _] _].
  unfold lay_out, note_admitted. set (ar := if dec_leb _ _ then _ else _).
  assert (Har : posted_ok ar /\ currency ar = currency (cn_amount req) /\ posted_units ar = ar_units req open_ar).
  { split_and!; [by unfold ar; destruct (dec_leb _ _)|by unfold ar; destruct (dec_leb _ _)|apply ar_choice]. }
  destruct Har as (Har & Harc & Haru). assert (0 <= ar_units req open_ar <= posted_units (cn_amount req)) by (unfold ar_units; lia).
  clearbody ar. destruct (subtract_posted (cn_amount req) ar) as [w|e] eqn:Hw; cbn [mbind result_bind]; last first.
  { intros (_ & _ & _ & _ & Hf & _). rewrite <- Haru in Hf. destruct (subtract_posted_fits _ ar Ha Har (eq_sym Harc) Hf). congruence. }
  apply subtract_posted_ok in Hw as (_ & Hwok & Hwc & Hwu); [|apply Ha]. rewrite posted_gtb_zero.
  assert (Hcap : cn_goodwill req && (0 <? posted_units w) = false <->
                 (cn_goodwill req = true -> posted_units (cn_amount req) <= posted_units open_ar)).
  { unfold ar_units in *. destruct (cn_goodwill req); cbn [andb]; [|by split]. rewrite Z.ltb_ge. split; [intros; lia|].
    intros Hgw. specialize (Hgw eq_refl). lia. }
  destruct (cn_goodwill req && (0 <? posted_units w)) eqn:Hg; [by intros (_ & _ & _ & _ & _ & Hgw%Hcap)|].
  assert (Hexin : amounts_in (currency (cn_amount req)) [ex]) by (constructor; [split_and!; [done|done|lia]|constructor]).
  assert (Hcrin : amounts_in (currency (cn_amount req)) [ar; w]).
  { constructor; [split_and!; [done|done|lia]|]. constructor; [split_and!; [done|done|lia]|constructor]. }
  rewrite plan_balance_checked by (done || lia). split.
  - split_and!; [done|done|done|done| |by apply Hcap]. rewrite <- Haru, <- Hwu, <- Hwc. by apply posted_units_fits.
  - by apply plan_built; try lia.
Qed.

Lemma note_spec req split open_ar : note_posted req split open_ar ->
  match build_credit_note_legs req split open_ar with
  | Ok plan => note_admitted req split open_ar /\ plan_correct req split open_ar plan
  | Err _ => ~ note_admitted req split open_ar
  end.
Proof.
  intros Hall. pose proof Hall as (Hreq & Hsok & Hoar & Hlen). pose proof Hreq as (Ha & Ht & Hd & Hts & Hv).
  unfold build_credit_note_legs. pose proof (validate_shape_ok req Hreq) as Hvs.
  destruct (validate_shape req) as [[]|e]; cbn [mbind result_bind]; [|by intros (Hs%Hvs & _)].
  apply proj1 in Hvs. specialize (Hvs eq_refl). pose proof (matching_spec_ok (cn_amount req) open_ar tt) as Hm.
  destruct (matching_spec _ _) as [[]|e]; cbn [mbind result_bind]; [|by intros (_ & _ & Hc%Hm & _)].
  apply proj1 in Hm. specialize (Hm eq_refl). rewrite posted_ltb_zero.
  destruct (Z.ltb_spec (posted_units open_ar) 0); [intros (_ & _ & _ & ? & _); lia|].
  destruct (amounts_ex_tax _ _ _ _ Ha Ht (proj1 Hvs)) as [ex Hex]. rewrite Hex. cbn [mbind result_bind].
  apply amount_ex_tax_ok in Hex as (_ & Htb & Hex & Hec & Heu); [|done].
  pose proof (check_split_ok req split ex (proj1 Ha) Hsok Hd ltac:(unfold vec_ok; lia) Hex Hec Heu) as Hcs.
  destruct (check_split _ _ _) as [[]|e]; cbn [mbind result_bind]; [|by intros (_ & Hs%Hcs & _)].
  apply lay_out_ok; try done. by apply Hcs.
Qed.

(** The credit-note plan.  The legs are built exactly when the request is well
    formed, the split belongs to it, the wallet remainder is representable and a
    goodwill credit stays within the open receivable.  The legs then pass the posting
    gate; the receivable is credited up to what is open and the wallet with the rest,
    tax and revenue are debited by the parts, and the schedules reduced are those of
    the split. *)
Theorem credit_note_exact req split open_ar : note_posted req split open_ar ->
  match build_credit_note_legs req split open_ar with
  | Ok plan => note_admitted req split open_ar /\ plan_correct req split open_ar plan
  | Err _ => ~ note_admitted req split open_ar
  end.
Proof. apply note_spec. Qed.

(** ** Composition with the splitter *)

Lemma split_result_matches req states ex r : request_posted req -> shape_ok req ->
  Forall stream_posted states -> vec_ok states -> amount_ex_tax (cn_amount req) (cn_tax_amount req) = Ok ex ->
  forall item po, split (mkSplitInput item po states ex (cn_requested_deferred req)) = Ok r -> split_matches req r.
Proof.
  intros (Ha & Ht & Hd & _) Hshape Hst Hv (_ & _ & Hex & Hec & Heu)%amount_ex_tax_ok item po Hr; [|done].
  set (input := mkSplitInput item po states ex (cn_requested_deferred req)) in *.
  assert (Hok : split_input_ok input) by (split_and!; done).
  pose proof (split_spec input Hok) as Hs. rewrite Hr in Hs.
  destruct Hs as ((_ & _ & Hreq & _) & ds & rs & ([[Hp Hdsum] _] & _ & _ & Hat) & Hsum & Hdef & Hparts & _ & Hrs & Hds).
  subst input. cbn [si_amount_ex_tax si_requested_deferred si_streams] in *. rewrite Hec in Hparts. rewrite Hdef in Hsum.
  apply Forall_cons in Hparts as [[Hrok Hrc] [Hqs Hps]%Forall_app]. rewrite Forall_fmap, Forall_forall in Hqs, Hps.
  assert (Hdnn : Forall (fun d => 0 <= d) ds) by (clear -Hp; induction Hp; constructor; [lia|done]).
  assert (Hrnn : Forall (fun d => 0 <= d) rs) by (destruct Hat as [[_ ->]|(_ & _ & Hnn & _)]; [constructor|done]).
  split.
  - constructor; [split_and!; [done|done|lia]|]. constructor.
    { rewrite Hdef. destruct Hshape as [[_ _ _ Hdc Hdb _ _] _]. split_and!; [done|done|lia]. }
    rewrite <- Hrs, !Forall_fmap, Forall_forall in Hrnn. rewrite <- Hds, !Forall_fmap, Forall_forall in Hdnn. apply Forall_app. rewrite !Forall_fmap, !Forall_forall.
    split; intros p Hin; [destruct (Hqs p Hin)|destruct (Hps p Hin)]; split_and!; try done; [by apply Hrnn|by apply Hdnn].
  - rewrite Hdef. lia.
  - done.
  - intros Hne. destruct Hat as [[Hnil ->]|(_ & _ & _ & Hrsum & _)].
    + exfalso. apply Hne. by apply fmap_nil_inv, fmap_nil_inv in Hrs.
    + rewrite <- Hrs in Hrsum. rewrite !sum_Z_map in Hrsum. unfold id in Hrsum. rewrite Hrsum. lia.
  - rewrite <- Hds in Hdsum. rewrite !sum_Z_map in Hdsum. unfold id in Hdsum. by rewrite Hdsum, Hdef.
Qed.

(** C37: a credit note composed with its split.  Whenever the splitter accepts a
    well-formed request, the legs are built for any open receivable that leaves a
    representable wallet remainder (and covers a goodwill credit), the plan is
    correct, and no schedule is reduced by more than it can still release. *)
Theorem credit_note_composes req states r open_ar :
  request_posted req -> Forall stream_posted states -> posted_ok open_ar ->
  Z.of_nat (length states) + Z.of_nat (length (cn_tax req)) + 1 < 2 ^ 64 ->
  shape_ok req -> note_split req states = Ok r ->
  currency (cn_amount req) = currency open_ar -> 0 <= posted_units open_ar ->
  fits (currency_scale (currency (cn_amount req))) (posted_units (cn_amount req) - ar_units req open_ar) ->
  (cn_goodwill req = true -> posted_units (cn_amount req) <= posted_units open_ar) ->
  exists plan, build_credit_note_legs req r open_ar = Ok plan /\ plan_correct req r open_ar plan /\
    forall id m, (id, m) ∈ reductions (cp_legs plan) ->
      exists s, s ∈ states /\ ss_schedule_id s = id /\ 0 < posted_units m <= rel_units s.
Proof.
  intros Hreq Hst Hoar Hlen Hshape Hsplit Hoc Hop Hfit Hgw. unfold note_split in Hsplit.
  apply bind_ok in Hsplit as (ex & Hex & Hsplit). set (streams := if cn_goodwill req then [] else states) in *.
  assert (Hsub : Forall stream_posted streams) by (unfold streams; by destruct (cn_goodwill req)).
  assert (Hlen' : (length streams <= length states)%nat) by (unfold streams; destruct (cn_goodwill req); cbn; lia).
  assert (Hvs : vec_ok streams) by (unfold vec_ok; lia).
  pose proof (split_result_matches req streams ex r Hreq Hshape Hsub Hvs Hex _ _ Hsplit) as Hm.
  pose proof Hex as (_ & _ & Hexok & _)%amount_ex_tax_ok; [|apply Hreq]. pose proof Hreq as (_ & _ & Hd & _).
  match type of Hsplit with split ?i = _ => assert (Hok : split_input_ok i) by (split_and!; done) end.
  pose proof (split_keys _ r Hok Hsplit) as Hkeys. cbn [si_streams] in Hkeys.
  assert (Hpost : note_posted req r open_ar).
  { split_and!; [done| |done|lia]. destruct Hm as [Ham _ _ _ _]. eapply Forall_impl; [exact Ham|]. cbn. tauto. }
  pose proof (note_spec req r open_ar Hpost) as Hn. destruct (build_credit_note_legs req r open_ar) as [plan|e].
  2:{ exfalso. apply Hn. by split_and!. }
  exists plan. destruct Hn as [_ Hplan]. split; [done|]. split; [done|]. intros id m Hin.
  rewrite (pc_reductions _ _ _ _ Hplan) in Hin. destruct (cn_goodwill req) eqn:Hg; [set_solver|].
  apply list_elem_of_fmap in Hin as (p & [= -> ->] & [Hpos Hp]%list_elem_of_filter).
  destruct (split_within _ _ _ Hok Hsplit Hp) as (s & Hs & Hid & ? & ?). by exists s.
Qed.
End credit_note.
End CreditNote.

Module DebitNote.
Section debit_note.
Context `{RustDecimal}.

Record DebitNoteRequest := mkDebitNoteRequest {
  dn_tenant_id : Uuid;
  dn_payer_tenant_id : Uuid;
  dn_debit_note_id : string;
  dn_origin_invoice_id : string;
  dn_origin_invoice_item_ref : option string;
  dn_revenue_stream : string;
  dn_amount : PostedMoney;
  dn_tax_amount : PostedMoney;
  dn_tax : list TaxBreakdown;
  dn_deferred : PostedMoney;
  dn_reason_code : string;
  dn_recognition : option RecognitionInput;
}.

Definition recognized (self : DebitNoteRequest) : result DomainError PostedMoney :=
  ex_tax ← amount_ex_tax (dn_amount self) (dn_tax_amount self);
  _ ← matching_spec ex_tax (dn_deferred self);
  if dec_ltb (amount (dn_deferred self)) ZERO then Err DomainError.AmountOutOfRange
  else if dec_ltb (amount ex_tax) (amount (dn_deferred self)) then Err DomainError.AmountOutOfRange
  else subtract_posted ex_tax (dn_deferred self).

Record DebitLeg := mkDebitLeg {
  dl_account_class : AccountClass;
  dl_side : Side;
  dl_amount : PostedMoney;
  dl_revenue_stream : option string;
  dl_tax_jurisdiction : option string;
  dl_tax_filing_period : option string;
  dl_tax_rate_ref : option string;
}.

Record DebitNoteLegPlan := mkDebitNoteLegPlan {
  dp_legs : list DebitLeg;
  dp_recognized_part : PostedMoney;
  dp_deferred_part : PostedMoney;
}.

Definition validate_debit_shape (req : DebitNoteRequest) : result DomainError unit :=
  _ ← validate_note_amounts (dn_amount req) (dn_tax_amount req) (dn_deferred req) (dn_tax req);
  if trim_is_empty (dn_reason_code req) then Err DomainError.InvalidRequest
  else if dec_ltb ZERO (amount (dn_deferred req)) && bool_decide (dn_recognition req = None)
  then Err DomainError.InvalidRequest
  else Ok tt.

Definition debit_legs (req : DebitNoteRequest) (rec : PostedMoney) : list DebitLeg :=
  (if dec_ltb ZERO (amount (dn_amount req))
   then [mkDebitLeg Ar Debit (dn_amount req) None None None None] else [])
  ++ (if dec_ltb ZERO (amount rec)
      then [mkDebitLeg Revenue Credit rec (Some (dn_revenue_stream req)) None None None] else [])
  ++ (if dec_ltb ZERO (amount (dn_deferred req))
      then [mkDebitLeg ContractLiability Credit (dn_deferred req) (Some (dn_revenue_stream req)) None None None] else [])
  ++ (dn_tax req ≫= fun t =>
        if dec_ltb ZERO (amount (tb_amount t))
        then [mkDebitLeg TaxPayable Credit (tb_amount t) None (Some (tb_tax_jurisdiction t))
                (Some (tb_tax_filing_period t)) (tb_tax_rate_ref t)] else []).

Definition build_debit_note_legs (req : DebitNoteRequest) : result DomainError DebitNoteLegPlan :=
  _ ← validate_debit_shape req;
  rec ← recognized req;
  let legs := debit_legs req rec in
  _ ← check_balance (currency (dn_amount req)) ((fun l => (dl_side l, dl_amount l)) <$> legs);
  Ok (mkDebitNoteLegPlan legs rec (dn_deferred req)).

(** ** What a debit note admits *)

Definition debit_posted (req : DebitNoteRequest) : Prop :=
  posted_ok (dn_amount req) /\ posted_ok (dn_tax_amount req) /\ posted_ok (dn_deferred req) /\
  Forall (fun t => posted_ok (tb_amount t)) (dn_tax req) /\ Z.of_nat (length (dn_tax req)) + 2 < 2 ^ 64.

Definition recognized_units (req : DebitNoteRequest) : Z :=
  posted_units (dn_amount req) - posted_units (dn_tax_amount req) - posted_units (dn_deferred req).

Definition debit_admitted (req : DebitNoteRequest) : Prop :=
  amounts_ok (dn_amount req) (dn_tax_amount req) (dn_deferred req) (dn_tax req) /\
  trim_is_empty (dn_reason_code req) = false /\
  (0 < posted_units (dn_deferred req) -> dn_recognition req <> None) /\
  fits (currency_scale (currency (dn_amount req))) (recognized_units req).

Definition charge_class (cls : AccountClass) (legs : list DebitLeg) : Z := class_total dl_account_class dl_amount cls legs.

Record debit_plan_correct (req : DebitNoteRequest) (plan : DebitNoteLegPlan) : Prop := {
  dpc_balanced : forall payer, 0 < posted_units (dn_amount req) ->
    balanced_entry (code (currency (dn_amount req)))
      ((fun l => mkLineFacts (dl_side l) (dl_amount l) payer None) <$> dp_legs plan);
  dpc_ar : charge_class Ar (dp_legs plan) = posted_units (dn_amount req);
  dpc_revenue : charge_class Revenue (dp_legs plan) = recognized_units req;
  dpc_liability : charge_class ContractLiability (dp_legs plan) = posted_units (dn_deferred req);
  dpc_tax : charge_class TaxPayable (dp_legs plan) = posted_units (dn_tax_amount req);
  dpc_parts : posted_units (dp_recognized_part plan) = recognized_units req /\ dp_deferred_part plan = dn_deferred req;
}.

Lemma recognized_ok req rec : posted_ok (dn_amount req) ->
  recognized req = Ok rec <->
  exists ex, amount_ex_tax (dn_amount req) (dn_tax_amount req) = Ok ex /\ currency ex = currency (dn_deferred req) /\
    0 <= posted_units (dn_deferred req) <= posted_units ex /\
    posted_ok rec /\ currency rec = currency ex /\ posted_units rec = posted_units ex - posted_units (dn_deferred req).
Proof.
  intros Ha. unfold recognized. rewrite bind_ok.
  assert (Hstep : forall ex, amount_ex_tax (dn_amount req) (dn_tax_amount req) = Ok ex -> currency_ok (currency ex)).
  { intros ex (_ & _ & He & _)%amount_ex_tax_ok; [apply He|done]. }
  split; intros (ex & Hex & Hrun); exists ex; (split; [done|]); pose proof (subtract_posted_ok ex (dn_deferred req) rec (Hstep ex Hex)) as Hs.
  - rewrite posted_ltb_zero, dec_ltb_posted in Hrun. apply bind_ok in Hrun as ([] & Hc%matching_spec_ok & Hrun). res_inv.
    apply Hs in Hrun. bool_to_prop. tauto.
  - destruct Hrun as (Hc & Hb & Hrest). rewrite (proj2 (matching_spec_ok _ _ tt)) by done. cbn [mbind result_bind].
    rewrite posted_ltb_zero, dec_ltb_posted, !(proj2 (Z.ltb_ge _ _)) by lia. apply Hs. tauto.
Qed.

Lemma validate_debit_shape_ok req : debit_posted req ->
  validate_debit_shape req = Ok tt <->
  amounts_ok (dn_amount req) (dn_tax_amount req) (dn_deferred req) (dn_tax req) /\
  trim_is_empty (dn_reason_code req) = false /\ (0 < posted_units (dn_deferred req) -> dn_recognition req <> None).
Proof.
  intros (Ha & Ht & Hd & Hts & Hl). unfold validate_debit_shape. rewrite bind_ok, posted_gtb_zero.
  pose proof (validate_note_amounts_ok (dn_amount req) (dn_tax_amount req) (dn_deferred req) (dn_tax req) Ha Ht Hts ltac:(unfold vec_ok; lia)) as Hva.
  split.
  - intros ([] & E%Hva & Hrun). res_inv. split_and!; [done|done|]. intros Hpos Hn.
    match goal with E : (0 <? _) && _ = false |- _ => rewrite (proj2 (Z.ltb_lt _ _) Hpos), bool_decide_true in E by done end. done.
  - intros (E & -> & Hn). exists tt. split; [by apply Hva|]. destruct (Z.ltb_spec 0 (posted_units (dn_deferred req))); [|done].
    by rewrite bool_decide_false by auto.
Qed.

Section legs.
Context (req : DebitNoteRequest) (rec : PostedMoney).
Let cur := currency (dn_amount req).
Hypothesis Hposted : debit_posted req.
Hypothesis Hamounts : amounts_ok (dn_amount req) (dn_tax_amount req) (dn_deferred req) (dn_tax req).
Hypothesis Hrec : amounts_in cur [rec].
Hypothesis Hrecu : posted_units rec = recognized_units req.

Definition credit_amounts : list PostedMoney := rec :: dn_deferred req :: (tb_amount <$> dn_tax req).

Lemma debit_legs_emitted :
  (fun l => (dl_side l, dl_amount l)) <$> debit_legs req rec = emit Debit [dn_amount req] ++ emit Credit credit_amounts.
Proof.
  unfold debit_legs, credit_amounts. rewrite !fmap_app. f_equal.
  - apply (emit_one dl_side dl_amount (mkDebitLeg Ar Debit (dn_amount req) _ _ _ _)).
  - change (rec :: dn_deferred req :: ?l) with ([rec] ++ [dn_deferred req] ++ l). rewrite !emit_app. f_equal; [|f_equal].
    + apply (emit_one dl_side dl_amount (mkDebitLeg Revenue Credit rec _ _ _ _)).
    + apply (emit_one dl_side dl_amount (mkDebitLeg ContractLiability Credit (dn_deferred req) _ _ _ _)).
    + by apply (emit_bind dl_side dl_amount).
Qed.

Lemma credit_amounts_in : amounts_in cur [dn_amount req] /\ amounts_in cur credit_amounts /\
  sum_Z posted_units [dn_amount req] = posted_units (dn_amount req) /\
  sum_Z posted_units credit_amounts = posted_units (dn_amount req).
Proof.
  destruct Hposted as (Ha & _ & Hd & Ht & _). destruct Hamounts as [_ Htb _ Hdc Hdb Hc Hsum]. split_and!.
  - constructor; [split_and!; [done|done|lia]|constructor].
  - constructor; [by apply Forall_cons in Hrec as [? _]|]. constructor; [split_and!; [done|done|lia]|].
    apply Forall_fmap, Forall_forall. rewrite Forall_forall in Ht, Hc. intros t Hin. destruct (Hc t Hin). split_and!; [by apply Ht|done|done].
  - rewrite sum_Z_cons, sum_Z_nil. lia.
  - unfold credit_amounts. rewrite !sum_Z_cons, sum_Z_map, Hsum. unfold recognized_units in Hrecu. lia.
Qed.

Lemma charge_class_legs cls : charge_class cls (debit_legs req rec) =
  (if bool_decide (Ar = cls) then posted_units (dn_amount req) else 0)
  + ((if bool_decide (Revenue = cls) then posted_units rec else 0)
     + ((if bool_decide (ContractLiability = cls) then posted_units (dn_deferred req) else 0)
        + (if bool_decide (TaxPayable = cls) then posted_units (dn_tax_amount req) else 0))).
Proof.
  destruct Hamounts as [_ Htb _ _ Hdb Hc Hsum]. pose proof Hrec as [(_ & _ & Hr) _]%Forall_cons. rewrite Forall_forall in Hc.
  unfold charge_class, debit_legs. rewrite !class_total_app. f_equal; [|f_equal; [|f_equal]].
  - apply (class_total_one dl_account_class dl_amount cls (mkDebitLeg Ar Debit (dn_amount req) None None None None)). cbn. lia.
  - exact (class_total_one dl_account_class dl_amount cls (mkDebitLeg Revenue Credit rec (Some (dn_revenue_stream req)) None None None) Hr).
  - apply (class_total_one dl_account_class dl_amount cls
      (mkDebitLeg ContractLiability Credit (dn_deferred req) (Some (dn_revenue_stream req)) None None None)). cbn. lia.
  - rewrite <- Hsum. apply (class_total_bind dl_account_class dl_amount cls TaxPayable tb_amount); [done|done|]. intros t Ht. apply (Hc t Ht).
Qed.

Lemma debit_plan_built : debit_plan_correct req (mkDebitNoteLegPlan (debit_legs req rec) rec (dn_deferred req)).
Proof.
  destruct credit_amounts_in as (Hd & Hc & Hds & Hcs).
  split; cbn [dp_legs dp_recognized_part dp_deferred_part];
    try (rewrite charge_class_legs; repeat case_bool_decide; try done; lia).
  - intros payer Hpos.
    assert ((fun l => mkLineFacts (dl_side l) (dl_amount l) payer None) <$> debit_legs req rec
      = (fun l => mkLineFacts (fst l) (snd l) payer None) <$> ((fun l => (dl_side l, dl_amount l)) <$> debit_legs req rec)) as ->
      by exact (list_fmap_compose (fun l => (dl_side l, dl_amount l)) (fun l => mkLineFacts (fst l) (snd l) payer None) _).
    rewrite debit_legs_emitted. by apply (emit_balanced _ _ _ _ (posted_units (dn_amount req))).
  - done.
Qed.
End legs.

(** The debit-note plan.  The legs are built exactly when the amounts are well
    formed, the reason is given, a deferred part comes with a recognition spec and the
    recognised part is representable.  They then pass the posting gate: the receivable
    takes the gross amount, against revenue, the deferred liability and the tax. *)
Theorem debit_note_exact req : debit_posted req ->
  match build_debit_note_legs req with
  | Ok plan => debit_admitted req /\ debit_plan_correct req plan
  | Err _ => ~ debit_admitted req
  end.
Proof.
  intros Hall. pose proof Hall as (Ha & Ht & Hd & _ & Hl). unfold build_debit_note_legs, debit_admitted.
  pose proof (validate_debit_shape_ok req Hall) as Hvs.
  destruct (validate_debit_shape req) as [[]|e]; cbn [mbind result_bind];
    [|intros (H1 & H2 & H3 & _); by assert (Err e = Ok tt) by (apply Hvs; done)].
  apply proj1 in Hvs. destruct (Hvs eq_refl) as (Ham & Hr & Hn). pose proof Ham as [_ Htb _ Hdc Hdb _ _].
  destruct (amounts_ex_tax _ _ _ _ Ha Ht Ham) as [ex Hex]. pose proof Hex as (_ & _ & Hexok & Hec & Heu)%amount_ex_tax_ok; [|done].
  unfold recognized_units. destruct (recognized req) as [rec|e] eqn:Hrec; cbn [mbind result_bind]; last first.
  { intros (_ & _ & _ & Hf). destruct (subtract_posted_fits ex (dn_deferred req) Hexok Hd) as [rec Hs]; [congruence| |].
    - by rewrite Hec, Heu.
    - apply subtract_posted_ok in Hs as (? & ? & ? & ?); [|apply Hexok].
      assert (recognized req = Ok rec); [|congruence]. apply recognized_ok; [done|]. exists ex. split_and!; try done; lia. }
  apply recognized_ok in Hrec as (ex' & Hex' & _ & _ & Hrok & Hrc & Hru); [|done]. assert (ex' = ex) as -> by congruence.
  assert (Hru' : posted_units rec = recognized_units req) by (unfold recognized_units; lia).
  assert (Hrin : amounts_in (currency (dn_amount req)) [rec]) by (constructor; [split_and!; [done|congruence|lia]|constructor]).
  destruct (credit_amounts_in req rec Hall Ham Hrin Hru') as (H1 & H2 & H3 & H4).
  rewrite debit_legs_emitted, (check_balance_ok _ _ _ (posted_units (dn_amount req)));
    [|apply Ha|done|done|by vm_compute|unfold vec_ok, credit_amounts; cbn [length]; rewrite length_fmap; lia|done|done|by apply posted_units_fits].
  cbn [mbind result_bind]. split; [|by apply debit_plan_built]. split_and!; [done|done|done|].
  fold (recognized_units req). rewrite <- Hru', <- Hec, <- Hrc. by apply posted_units_fits.
Qed.
End debit_note.
End DebitNote.

Section witnesses.
Import ConcreteDecimal MoneySamples CreditNote DebitNote.

(** 119.00 EUR with 19.00 of tax, 40.00 of the rest deferred. *)
Definition sample_note : CreditNoteRequest :=
  mkCreditNoteRequest 1%N 2%N "cn-1" "inv-1" (Some "item-1"%string) None "seats" (eur 11900) (eur 1900)
    [mkTaxBreakdown (eur 1900) "DE" "202611" None] (eur 4000) "overcharge" false.

Definition sample_states : list ScheduleStreamState :=
  [sample_stream "seats" 12000 3000; sample_stream "setup" 5000 5000].

Lemma sample_note_posted : request_posted sample_note.
Proof.
  split; [exact (eur_ok 11900 eq_refl)|]. split; [exact (eur_ok 1900 eq_refl)|]. split; [exact (eur_ok 4000 eq_refl)|].
  split; [constructor; [exact (eur_ok 1900 eq_refl)|constructor]|ground].
Qed.

Lemma sample_states_posted : Forall stream_posted sample_states.
Proof.
  constructor; [exact (conj (eur_ok 12000 eq_refl) (eur_ok 3000 eq_refl))|].
  constructor; [exact (conj (eur_ok 5000 eq_refl) (eur_ok 5000 eq_refl))|constructor].
Qed.

Lemma sample_note_shape : shape_ok sample_note.
Proof. apply (validate_shape_ok _ sample_note_posted). vm_compute. reflexivity. Qed.

Lemma eur_fits c : Z.abs c < 10 ^ 28 -> fits (currency_scale EUR) (posted_units (eur c)).
Proof. intros Hc. exact (posted_units_fits (eur c) (eur_ok c Hc)). Qed.

(** 50.00 EUR of the invoice are still open. *)
Lemma credit_note_composes_witness :
  exists r, note_split sample_note sample_states = Ok r /\
    exists plan, build_credit_note_legs sample_note r (eur 5000) = Ok plan /\ plan_correct sample_note r (eur 5000) plan.
Proof.
  destruct (is_ok_exists (note_split sample_note sample_states)) as [r Hr]; [vm_compute; reflexivity|].
  exists r. split; [exact Hr|].
  assert (Hrest : posted_units (cn_amount sample_note) - ar_units sample_note (eur 5000) = posted_units (eur 6900))
    by (vm_compute; reflexivity).
  assert (Hfit : fits (currency_scale EUR) (posted_units (cn_amount sample_note) - ar_units sample_note (eur 5000)))
    by (rewrite Hrest; exact (eur_fits 6900 eq_refl)).
  assert (Hopen : (0 <=? posted_units (eur 5000)) = true) by (vm_compute; reflexivity). apply Z.leb_le in Hopen.
  assert (Hgood : cn_goodwill sample_note = false) by reflexivity.
  destruct (credit_note_composes sample_note sample_states r (eur 5000)) as (plan & Hb & Hp & _);
    [exact sample_note_posted|exact sample_states_posted|exact (eur_ok 5000 eq_refl)|vm_compute; reflexivity
    |exact sample_note_shape|exact Hr|reflexivity|exact Hopen|exact Hfit|intros Hg; rewrite Hgood in Hg; discriminate Hg
    |exists plan; exact (conj Hb Hp)].
Defined.

(** A split that is not the request's is refused. *)
Definition sample_result : SplitResult := mkSplitResult (eur 10000) (eur 0) [] "item=item-1;po=-;streams=none".

Lemma credit_note_exact_witness : ~ note_admitted sample_note sample_result (eur 5000).
Proof.
  assert (Hpost : note_posted sample_note sample_result (eur 5000)).
  { split; [exact sample_note_posted|]. split; [|split; [exact (eur_ok 5000 eq_refl)|vm_compute; reflexivity]].
    constructor; [exact (eur_ok 10000 eq_refl)|]. constructor; [exact (eur_ok 0 eq_refl)|constructor]. }
  pose proof (credit_note_exact sample_note sample_result (eur 5000) Hpost) as Hn.
  destruct (build_credit_note_legs sample_note sample_result (eur 5000)) as [plan|e] eqn:E; [|exact Hn].
  exfalso. assert (Hno : is_ok (build_credit_note_legs sample_note sample_result (eur 5000)) = false) by (vm_compute; reflexivity).
  rewrite E in Hno. discriminate Hno.
Defined.

Definition sample_debit : DebitNoteRequest :=
  mkDebitNoteRequest 1%N 2%N "dn-1" "inv-1" None "seats" (eur 11900) (eur 1900)
    [mkTaxBreakdown (eur 1900) "DE" "202611" None] (eur 4000) "extra seats"
    (Some (mkRecognitionInput "policy-1" (StraightLine 4 None) None false None None None None false)).

Lemma debit_note_exact_witness : exists plan, build_debit_note_legs sample_debit = Ok plan /\ debit_plan_correct sample_debit plan.
Proof.
  assert (Hpost : debit_posted sample_debit).
  { split; [exact (eur_ok 11900 eq_refl)|]. split; [exact (eur_ok 1900 eq_refl)|]. split; [exact (eur_ok 4000 eq_refl)|].
    split; [constructor; [exact (eur_ok 1900 eq_refl)|constructor]|vm_compute; reflexivity]. }
  destruct (is_ok_exists (build_debit_note_legs sample_debit)) as [plan Hb]; [vm_compute; reflexivity|].
  exists plan. split; [exact Hb|]. pose proof (debit_note_exact sample_debit Hpost) as Hn. rewrite Hb in Hn. exact (proj2 Hn).
Defined.

Example note_legs_sample :
  (fun plan => map (fun l => (leg_account_class l, leg_side l, posted_units (leg_amount l))) (cp_legs plan)) <$>
    (r ← note_split sample_note sample_states; build_credit_note_legs sample_note r (eur 5000))
  = Ok [(ContraRevenue, Debit, posted_units (eur 6000)); (ContractLiability, Debit, posted_units (eur 4000));
        (TaxPayable, Debit, posted_units (eur 1900)); (Ar, Credit, posted_units (eur 5000));
        (ReusableCredit, Credit, posted_units (eur 6900))].
Proof. vm_compute. reflexivity. Qed.
End witnesses.
