(* ===== verification/Invoice.v ===== *)
(** * Invoice postings: [domain/invoice/builder.rs], [domain/invoice/mapping.rs]

    A posted invoice debits the receivable with its gross and credits revenue,
    deferred revenue and tax.  Items are grouped: one revenue line per class, code,
    status and stream, one deferral line per stream.  The builder is characterised: it
    returns an entry exactly for the invoices its checks admit, the entry has exactly
    the documented lines with the sums of their groups, and it passes the posting
    gate; items without a mapping end up on suspense lines and nowhere else. *)

From S2P Require Import Prelude BTree Decimal Money Exact ExactGrid DomainErrors Sdk Posting Recognition Notes.

Module InvoiceError.
Inductive invoice_error :=
| EmptyInvoice
| MappingLengthMismatch
| NegativeAmount
| InvalidDeferral
| Exact (e : ExactError).
End InvoiceError.
Abbreviation InvoiceError := InvoiceError.invoice_error.

(** The identifiers that remain after the first draw. *)
Definition next_uuids `{!UuidSource} : UuidSource :=
  {| now_v7 k := now_v7 (S k); uuid_to_string := uuid_to_string |}.

Section invoice.
Context `{RustDecimal}.

(** ** Data *)

Record InvoiceItem := mkInvoiceItem {
  it_amount_ex_tax : PostedMoney;
  it_deferred : PostedMoney;
  it_revenue_stream : string;
  it_catalog_class : option AccountClass;
  it_contract_class : option AccountClass;
  it_gl_code : option string;
  it_recognition : option RecognitionInput;
  it_invoice_item_ref : option string;
  it_sku_or_plan_ref : option string;
  it_price_id : option string;
  it_pricing_snapshot_ref : option string;
}.

Record PostedInvoice := mkPostedInvoice {
  inv_invoice_id : string;
  inv_payer_tenant_id : Uuid;
  inv_resource_tenant_id : option Uuid;
  inv_seller_tenant_id : Uuid;
  inv_effective_at : NaiveDate;
  inv_due_date : option NaiveDate;
  inv_period_id : string;
  inv_items : list InvoiceItem;
  inv_tax : list TaxBreakdown;
  inv_posted_by_actor_id : Uuid;
  inv_correlation_id : Uuid;
}.

(** [MappedLine] and [resolve] of the account mapping. *)
Record MappedLine := mkMappedLine {
  ml_account_class : AccountClass;
  ml_gl_code : option string;
  ml_mapping_status : MappingStatus;
}.

Definition resolve (item : InvoiceItem) : MappedLine :=
  match (match it_contract_class item with Some c => Some c | None => it_catalog_class item end) with
  | Some cls => mkMappedLine cls (it_gl_code item) Resolved
  | None => mkMappedLine Suspense (it_gl_code item) Pending
  end.

(** ** Checks *)

Definition matching (value : PostedMoney) (spec : CurrencySpec) : result ExactError unit :=
  map_err ExactError.Money (ensure_same (currency value) spec).

Definition first_currency (inv : PostedInvoice) : option CurrencySpec :=
  match inv_items inv with
  | i :: _ => Some (currency (it_amount_ex_tax i))
  | [] => match inv_tax inv with
          | t :: _ => Some (currency (tb_amount t))
          | [] => None
          end
  end.

Definition invoice_currency (inv : PostedInvoice) : option string := code <$> first_currency inv.

Definition validated_spec (inv : PostedInvoice) : result InvoiceError CurrencySpec :=
  spec ← ok_or (first_currency inv) InvoiceError.EmptyInvoice;
  _ ← map_err InvoiceError.Exact
        (fold_res (fun _ item => _ ← matching (it_amount_ex_tax item) spec; matching (it_deferred item) spec)
           tt (inv_items inv));
  _ ← map_err InvoiceError.Exact (fold_res (fun _ t => matching (tb_amount t) spec) tt (inv_tax inv));
  _ ← fold_res (fun _ item =>
        if dec_ltb (amount (it_amount_ex_tax item)) ZERO then Err InvoiceError.NegativeAmount
        else if dec_ltb (amount (it_deferred item)) ZERO
                || dec_ltb (amount (it_amount_ex_tax item)) (amount (it_deferred item))
        then Err InvoiceError.InvalidDeferral else Ok tt) tt (inv_items inv);
  if existsb (fun t => dec_ltb (amount (tb_amount t)) ZERO) (inv_tax inv)
  then Err InvoiceError.NegativeAmount else Ok spec.

Definition gross (inv : PostedInvoice) : result InvoiceError PostedMoney :=
  spec ← validated_spec inv;
  map_err InvoiceError.Exact
    (sum_posted ((it_amount_ex_tax <$> inv_items inv) ++ (tb_amount <$> inv_tax inv)) spec).

(** ** Groups *)

Record RevenueKey := mkRevenueKey {
  rk_account_class : string;
  rk_gl_code : string;
  rk_mapping_status : string;
  rk_revenue_stream : string;
}.

#[global] Instance revenue_key_eq_dec : EqDecision RevenueKey.
Proof. solve_decision. Defined.

(** The derived [Ord]: field by field, in declaration order. *)
Definition revenue_key_fields (k : RevenueKey) : string * (string * (string * string)) :=
  (rk_account_class k, (rk_gl_code k, (rk_mapping_status k, rk_revenue_stream k))).
Definition revenue_key_cmp (a b : RevenueKey) : comparison :=
  pair_cmp String.compare (pair_cmp String.compare (pair_cmp String.compare String.compare))
    (revenue_key_fields a) (revenue_key_fields b).

Record ItemRefs := mkItemRefs {
  ir_invoice_item_ref : option string;
  ir_sku_or_plan_ref : option string;
  ir_price_id : option string;
  ir_pricing_snapshot_ref : option string;
}.

Definition refs_from (item : InvoiceItem) : ItemRefs :=
  mkItemRefs (it_invoice_item_ref item) (it_sku_or_plan_ref item) (it_price_id item)
    (it_pricing_snapshot_ref item).

Record RevenueAgg := mkRevenueAgg {
  ra_amount : ExactAmount;
  ra_account_class : AccountClass;
  ra_gl_code : option string;
  ra_mapping_status : MappingStatus;
  ra_refs : ItemRefs;
}.

Record DeferredAgg := mkDeferredAgg {
  da_amount : ExactAmount;
  da_refs : ItemRefs;
}.

Definition revenue_key (x : InvoiceItem * MappedLine) : RevenueKey :=
  let '(item, m) := x in
  mkRevenueKey (as_str (ml_account_class m))
    (match ml_gl_code m with Some c => c | None => EmptyString end)
    (as_str (ml_mapping_status m)) (it_revenue_stream item).

(** The body of the loop on the revenue map. *)
Definition revenue_entry (o : option RevenueAgg) (x : InvoiceItem * MappedLine) : result ExactError RevenueAgg :=
  let '(item, m) := x in
  recognized_now ← checked_sub (from_decimal (amount (it_amount_ex_tax item)))
                     (from_decimal (amount (it_deferred item)));
  let agg := match o with
             | Some agg => agg
             | None => mkRevenueAgg (from_decimal ZERO) (ml_account_class m) (ml_gl_code m)
                         (ml_mapping_status m) (refs_from item)
             end in
  total ← checked_add (ra_amount agg) recognized_now;
  Ok (mkRevenueAgg total (ra_account_class agg) (ra_gl_code agg) (ra_mapping_status agg) (ra_refs agg)).

(** The body of the loop on the deferral map. *)
Definition deferred_entry (o : option DeferredAgg) (x : InvoiceItem * MappedLine) : result ExactError DeferredAgg :=
  let '(item, _) := x in
  let cl := match o with
            | Some cl => cl
            | None => mkDeferredAgg (from_decimal ZERO) (refs_from item)
            end in
  total ← checked_add (da_amount cl) (from_decimal (amount (it_deferred item)));
  Ok (mkDeferredAgg total (da_refs cl)).

Definition item_step (maps : list (RevenueKey * RevenueAgg) * list (string * DeferredAgg))
    (x : InvoiceItem * MappedLine) :
    result ExactError (list (RevenueKey * RevenueAgg) * list (string * DeferredAgg)) :=
  revenue ← bt_entry revenue_key_cmp (revenue_key x) (fun o => revenue_entry o x) (fst maps);
  deferred ← (if dec_ltb ZERO (amount (it_deferred (fst x)))
              then bt_entry String.compare (it_revenue_stream (fst x)) (fun o => deferred_entry o x) (snd maps)
              else Ok (snd maps));
  Ok (revenue, deferred).

(** ** Lines *)

(** The fields that all four kinds of line share. *)
Definition invoice_line (inv : PostedInvoice) (cls : AccountClass) (code : option string) (sd : Side)
    (amt : PostedMoney) (due : option NaiveDate) (stream : option string) (status : MappingStatus)
    (jurisdiction period rate : option string) (refs : ItemRefs) (id : Uuid) : PostLine :=
  {| line_id := id;
     payer_tenant_id := inv_payer_tenant_id inv;
     seller_tenant_id := Some (inv_seller_tenant_id inv);
     resource_tenant_id := inv_resource_tenant_id inv;
     account_id := uuid_nil;
     account_class := cls;
     gl_code := code;
     side := sd;
     money := amt;
     invoice_id := Some (inv_invoice_id inv);
     due_date := due;
     revenue_stream := stream;
     mapping_status := status;
     functional_money := None;
     tax_jurisdiction := jurisdiction;
     tax_filing_period := period;
     tax_rate_ref := rate;
     invoice_item_ref := ir_invoice_item_ref refs;
     sku_or_plan_ref := ir_sku_or_plan_ref refs;
     price_id := ir_price_id refs;
     pricing_snapshot_ref := ir_pricing_snapshot_ref refs;
     po_allocation_group := None;
     credit_grant_event_type := None;
     ar_status := None |}.

Definition no_refs : ItemRefs := mkItemRefs None None None None.

Definition ar_lines (inv : PostedInvoice) (total : PostedMoney) : list (Uuid -> PostLine) :=
  if dec_ltb ZERO (amount total)
  then [invoice_line inv Ar None Debit total (inv_due_date inv) None Resolved None None None no_refs]
  else [].

Definition revenue_lines (inv : PostedInvoice) (spec : CurrencySpec) (group : RevenueKey * RevenueAgg) :
    result ExactError (list (Uuid -> PostLine)) :=
  let '(key, agg) := group in
  if exact_eqb (ra_amount agg) (from_decimal ZERO) then Ok []
  else
    amt ← into_posted_exact (ra_amount agg) spec;
    Ok [invoice_line inv (ra_account_class agg) (ra_gl_code agg) Credit amt None
          (Some (rk_revenue_stream key)) (ra_mapping_status agg) None None None (ra_refs agg)].

Definition deferred_lines (inv : PostedInvoice) (spec : CurrencySpec) (group : string * DeferredAgg) :
    result ExactError (list (Uuid -> PostLine)) :=
  let '(stream, agg) := group in
  amt ← into_posted_exact (da_amount agg) spec;
  Ok [invoice_line inv ContractLiability None Credit amt None (Some stream) Resolved None None None
        (da_refs agg)].

Definition invoice_tax_lines (inv : PostedInvoice) (t : TaxBreakdown) : list (Uuid -> PostLine) :=
  if dec_eqb (amount (tb_amount t)) ZERO then []
  else [invoice_line inv TaxPayable None Credit (tb_amount t) None None Resolved (Some (tb_tax_jurisdiction t))
          (Some (tb_tax_filing_period t)) (tb_tax_rate_ref t) no_refs].

Definition build_invoice_entry `{!UuidSource} (inv : PostedInvoice) (mapped : list MappedLine) :
    result InvoiceError PostEntry :=
  if negb (Nat.eqb (length mapped) (length (inv_items inv))) then Err InvoiceError.MappingLengthMismatch
  else
    spec ← validated_spec inv;
    total ← gross inv;
    ls ← map_err InvoiceError.Exact
      ('(revenue, deferred) ← fold_res item_step ([], []) (zip (inv_items inv) mapped);
       rs ← map_res (revenue_lines inv spec) revenue;
       ds ← map_res (deferred_lines inv spec) deferred;
       Ok (ar_lines inv total ++ concat rs ++ concat ds ++ (inv_tax inv ≫= invoice_tax_lines inv)));
    Ok {| entry_id := now_v7 0;
          tenant_id := inv_seller_tenant_id inv;
          period_id := inv_period_id inv;
          entry_currency := code spec;
          source_doc_type := InvoicePost;
          source_business_id := inv_invoice_id inv;
          effective_at := inv_effective_at inv;
          posted_by_actor_id := inv_posted_by_actor_id inv;
          correlation_id := inv_correlation_id inv;
          reverses_entry_id := None;
          reverses_period_id := None;
          lines := @draw_ids _ next_uuids ls |}.
End invoice.

Section theory.
Context `{RustDecimal}.
Implicit Types (inv : PostedInvoice) (x : InvoiceItem * MappedLine).

#[global] Instance revenue_key_linear : LinearCmp revenue_key_cmp.
Proof.
  split.
  - apply (total_cmp_on revenue_key_fields). apply _.
  - intros [a1 a2 a3 a4] [b1 b2 b3 b4] Heq. unfold revenue_key_cmp in Heq. apply cmp_eq in Heq.
    by injection Heq as -> -> -> ->.
Qed.

(** ** What the checks admit *)

(** The recognised and the deferred units of an item. *)
Definition recognized_units x : Z := posted_units (it_amount_ex_tax (fst x)) - posted_units (it_deferred (fst x)).
Definition deferred_units x : Z := posted_units (it_deferred (fst x)).

Definition gross_units inv : Z :=
  sum_Z (fun i => posted_units (it_amount_ex_tax i)) (inv_items inv)
  + sum_Z (fun t => posted_units (tb_amount t)) (inv_tax inv).

Record item_ok (spec : CurrencySpec) (i : InvoiceItem) : Prop := mkItemOk {
  io_currency : currency (it_amount_ex_tax i) = spec;
  io_deferred_currency : currency (it_deferred i) = spec;
  io_deferred : 0 <= posted_units (it_deferred i) <= posted_units (it_amount_ex_tax i);
}.

Definition tax_ok (spec : CurrencySpec) (t : TaxBreakdown) : Prop :=
  currency (tb_amount t) = spec /\ 0 <= posted_units (tb_amount t).

(** Every amount is a valid posting: what the type of postings guarantees. *)
Record money_ok inv : Prop := mkMoneyOk {
  mo_items : Forall (fun i => posted_ok (it_amount_ex_tax i) /\ posted_ok (it_deferred i)) (inv_items inv);
  mo_tax : Forall (fun t => posted_ok (tb_amount t)) (inv_tax inv);
  mo_length : Z.of_nat (length (inv_items inv) + length (inv_tax inv)) < 2 ^ 64;
}.

Record shape_ok inv (spec : CurrencySpec) : Prop := mkShapeOk {
  so_first : first_currency inv = Some spec;
  so_items : Forall (item_ok spec) (inv_items inv);
  so_tax : Forall (tax_ok spec) (inv_tax inv);
}.

Lemma item_matching_ok value spec : matching value spec = Ok tt <-> currency value = spec.
Proof. unfold matching. by rewrite map_err_ok, ensure_same_ok. Qed.

Lemma items_matching spec items :
  fold_res (fun _ item => _ ← matching (it_amount_ex_tax item) spec; matching (it_deferred item) spec) tt items = Ok tt <->
  Forall (fun i => currency (it_amount_ex_tax i) = spec /\ currency (it_deferred i) = spec) items.
Proof.
  apply unit_loop. intros i. rewrite bind_ok. split.
  - by intros ([] & ?%item_matching_ok & ?%item_matching_ok).
  - intros [? ?]. exists tt. by rewrite !item_matching_ok.
Qed.

Lemma items_signs items :
  fold_res (fun _ item =>
    if dec_ltb (amount (it_amount_ex_tax item)) ZERO then Err InvoiceError.NegativeAmount
    else if dec_ltb (amount (it_deferred item)) ZERO
            || dec_ltb (amount (it_amount_ex_tax item)) (amount (it_deferred item))
    then Err InvoiceError.InvalidDeferral else Ok tt) tt items = Ok tt <->
  Forall (fun i => 0 <= posted_units (it_deferred i) <= posted_units (it_amount_ex_tax i)) items.
Proof.
  apply unit_loop. intros i. rewrite !posted_ltb_zero, dec_ltb_posted.
  destruct (Z.ltb_spec (posted_units (it_amount_ex_tax i)) 0), (Z.ltb_spec (posted_units (it_deferred i)) 0),
    (Z.ltb_spec (posted_units (it_amount_ex_tax i)) (posted_units (it_deferred i))); cbn; split; intros; try done; lia.
Qed.

Lemma tax_signs tax :
  existsb (fun t => dec_ltb (amount (tb_amount t)) ZERO) tax = false <->
  Forall (fun t => 0 <= posted_units (tb_amount t)) tax.
Proof.
  rewrite existsb_false, !Forall_forall. split; intros Ht t Hin; specialize (Ht t Hin).
  - rewrite posted_ltb_zero in Ht. by bool_to_prop.
  - rewrite posted_ltb_zero. by apply Z.ltb_ge.
Qed.

Lemma validated_spec_ok inv spec : validated_spec inv = Ok spec <-> shape_ok inv spec.
Proof.
  unfold validated_spec. rewrite bind_ok. split.
  - intros (s & Hfirst%ok_or_ok & ([] & Hi%map_err_ok%items_matching & Hrun)%bind_ok).
    apply bind_ok in Hrun as ([] & Ht%map_err_ok & ([] & Hs%items_signs & Hrun)%bind_ok).
    apply (unit_loop _ _ _ (fun t => item_matching_ok (tb_amount t) s)) in Ht.
    destruct (existsb _ _) eqn:Hx; [done|]. apply tax_signs in Hx. injection Hrun as <-.
    split; [done| |].
    + rewrite Forall_forall in *. intros i Hin. destruct (Hi i Hin). by split; [..|apply Hs].
    + rewrite Forall_forall in *. intros t Hin. split; [by apply Ht|by apply Hx].
  - intros [Hfirst Hi Ht]. exists spec. split; [by apply ok_or_ok|].
    rewrite (proj2 (items_matching _ _)).
    2:{ eapply Forall_impl; [exact Hi|]. by intros i [? ? _]. }
    cbn [map_err mbind result_bind].
    rewrite (proj2 (unit_loop _ _ _ (fun t => item_matching_ok (tb_amount t) spec))).
    2:{ eapply Forall_impl; [exact Ht|]. by intros t [? _]. }
    cbn [map_err mbind result_bind]. rewrite (proj2 (items_signs _)).
    2:{ eapply Forall_impl; [exact Hi|]. by intros i [_ _ ?]. }
    cbn [mbind result_bind]. rewrite (proj2 (tax_signs _)); [done|].
    eapply Forall_impl; [exact Ht|]. by intros t [_ ?].
Qed.

Lemma shape_currency_ok inv spec : money_ok inv -> shape_ok inv spec -> currency_ok spec.
Proof.
  intros [Hi Ht _] [Hf _ _]. unfold first_currency in Hf. destruct (inv_items inv) as [|i items].
  - destruct (inv_tax inv) as [|t ts]; [done|]. injection Hf as <-. by apply Forall_inv in Ht as [? _].
  - injection Hf as <-. apply Forall_inv in Hi as [[? _] _]. done.
Qed.

Lemma gross_ok inv spec p : money_ok inv -> shape_ok inv spec ->
  gross inv = Ok p <-> posted_ok p /\ currency p = spec /\ posted_units p = gross_units inv.
Proof.
  intros Hm Hs. pose proof (shape_currency_ok _ _ Hm Hs) as Hc. unfold gross.
  rewrite (proj2 (validated_spec_ok inv spec) Hs). cbn [mbind result_bind]. rewrite map_err_ok, sum_posted_ok; [|..|done].
  2:{ unfold vec_ok. rewrite length_app, !length_fmap. apply Hm. }
  rewrite sum_Z_app, !sum_Z_map. fold (gross_units inv). destruct Hs as [_ Hi Ht]. split; [tauto|].
  intros Hp. split; [|done]. apply Forall_app. rewrite !Forall_fmap. split.
  - eapply Forall_impl; [exact Hi|]. by intros i [? _ _].
  - eapply Forall_impl; [exact Ht|]. by intros t [? _].
Qed.

Lemma gross_fits inv spec : money_ok inv -> shape_ok inv spec ->
  is_ok (gross inv) = true <-> fits (currency_scale spec) (gross_units inv).
Proof.
  intros Hm Hs. split.
  - intros [p Hp]%is_ok_exists. apply (gross_ok inv spec) in Hp as (Hok & Hc & Hu); [|done|done].
    rewrite <- Hu, <- Hc. by apply posted_units_fits.
  - intros Hf. pose proof (shape_currency_ok _ _ Hm Hs) as Hc. unfold gross.
    rewrite (proj2 (validated_spec_ok inv spec) Hs). cbn [mbind result_bind].
    destruct (sum_posted_fits ((it_amount_ex_tax <$> inv_items inv) ++ (tb_amount <$> inv_tax inv)) spec) as [p ->].
    + unfold vec_ok. rewrite length_app, !length_fmap. apply Hm.
    + done.
    + destruct Hm as [Hi Ht _]. apply Forall_app. rewrite !Forall_fmap. split; [|done].
      eapply Forall_impl; [exact Hi|]. by intros i [? _].
    + destruct Hs as [_ Hi Ht]. apply Forall_app. rewrite !Forall_fmap. split.
      * eapply Forall_impl; [exact Hi|]. by intros i [? _ _].
      * eapply Forall_impl; [exact Ht|]. by intros t [? _].
    + by rewrite sum_Z_app, !sum_Z_map.
    + done.
Qed.

(** ** The groups *)

(** The binding that a group leaves in the revenue map. *)
Definition revenue_agg (ys : list (InvoiceItem * MappedLine)) : option RevenueAgg :=
  match ys with
  | [] => None
  | (item, m) :: _ =>
      Some (mkRevenueAgg (of_units (sum_Z recognized_units ys)) (ml_account_class m) (ml_gl_code m)
              (ml_mapping_status m) (refs_from item))
  end.

Definition deferred_agg (ys : list (InvoiceItem * MappedLine)) : option DeferredAgg :=
  match ys with
  | [] => None
  | (item, _) :: _ => Some (mkDeferredAgg (of_units (sum_Z deferred_units ys)) (refs_from item))
  end.

Lemma item_units_small x : Z.abs (recognized_units x) <= 10 ^ 57 * 2 /\ Z.abs (deferred_units x) <= 10 ^ 57 * 2.
Proof.
  unfold recognized_units, deferred_units. pose proof (posted_units_small (it_amount_ex_tax (fst x))).
  pose proof (posted_units_small (it_deferred (fst x))). lia.
Qed.

Lemma group_total_small (f : InvoiceItem * MappedLine -> Z) ys :
  (forall x, Z.abs (f x) <= 10 ^ 57 * 2) -> Z.of_nat (length ys) < 2 ^ 64 -> small (sum_Z f ys).
Proof.
  intros Hf Hl. apply (small_bound _ (2 * Z.of_nat (length ys))).
  - pose proof (sum_Z_bound f (10 ^ 57 * 2) ys (fun x _ => Hf x)). lia.
  - assert (2 * 2 ^ 64 < 2 ^ 100) by by vm_compute. lia.
Qed.

Lemma revenue_entry_holds ys x : Z.of_nat (length ys) + 1 < 2 ^ 64 ->
  exists v, revenue_entry (revenue_agg ys) x = Ok v /\ Some v = revenue_agg (ys ++ [x]).
Proof.
  intros Hl. assert (Hs : small (sum_Z recognized_units ys)) by (apply group_total_small; [apply item_units_small|lia]).
  assert (Hs' : small (sum_Z recognized_units (ys ++ [x])))
    by (apply group_total_small; [apply item_units_small|rewrite length_app; cbn; lia]).
  rewrite sum_Z_snoc in Hs'. pose proof (item_units_small x) as [Hx _].
  destruct x as [item m]. unfold revenue_entry. rewrite !from_decimal_units, checked_sub_units.
  2, 3: apply (small_bound _ 1); [|done]; pose proof (units_small (amount (it_amount_ex_tax item)));
    pose proof (units_small (amount (it_deferred item))); lia.
  2: apply (small_bound _ 2); [|done]; unfold recognized_units, posted_units in Hx; cbn [fst] in Hx; lia.
  cbn [mbind result_bind]. rewrite units_ZERO. change (units (amount (it_amount_ex_tax item)) - units (amount (it_deferred item)))
    with (recognized_units (item, m)). destruct ys as [|[item0 m0] ys]; cbn [revenue_agg ra_amount app].
  - rewrite sum_Z_nil in Hs'. rewrite checked_add_units; [|done|done|done]. eexists. split; [done|].
    cbn. by rewrite sum_Z_cons, sum_Z_nil, Z.add_0_r.
  - rewrite checked_add_units; [|done|apply (small_bound _ 2); [lia|done]|done]. eexists. split; [done|].
    cbn [ra_account_class ra_gl_code ra_mapping_status ra_refs]. by rewrite app_comm_cons, sum_Z_snoc.
Qed.

Lemma deferred_entry_holds ys x : Z.of_nat (length ys) + 1 < 2 ^ 64 ->
  exists v, deferred_entry (deferred_agg ys) x = Ok v /\ Some v = deferred_agg (ys ++ [x]).
Proof.
  intros Hl. assert (Hs : small (sum_Z deferred_units ys)) by (apply group_total_small; [apply item_units_small|lia]).
  assert (Hs' : small (sum_Z deferred_units (ys ++ [x])))
    by (apply group_total_small; [apply item_units_small|rewrite length_app; cbn; lia]).
  rewrite sum_Z_snoc in Hs'. pose proof (item_units_small x) as [_ Hx].
  destruct x as [item m]. unfold deferred_entry. rewrite !from_decimal_units, units_ZERO.
  change (units (amount (it_deferred item))) with (deferred_units (item, m)).
  destruct ys as [|[item0 m0] ys]; cbn [deferred_agg da_amount da_refs app].
  - rewrite sum_Z_nil in Hs'. rewrite checked_add_units; [|done|done|done]. eexists. split; [done|].
    cbn. by rewrite sum_Z_cons, sum_Z_nil, Z.add_0_r.
  - rewrite checked_add_units; [|done|apply (small_bound _ 2); [lia|done]|done]. eexists. split; [done|].
    by rewrite app_comm_cons, sum_Z_snoc.
Qed.

Definition stream_key x : option string :=
  if dec_ltb ZERO (amount (it_deferred (fst x))) then Some (it_revenue_stream (fst x)) else None.
Definition some_key x : option RevenueKey := Some (revenue_key x).

(** What the two maps hold after the loop. *)
Record maps_ok (pairs : list (InvoiceItem * MappedLine)) (revenue : list (RevenueKey * RevenueAgg))
    (deferred : list (string * DeferredAgg)) : Prop := mkMapsOk {
  mp_revenue_sorted : bt_sorted revenue_key_cmp revenue;
  mp_revenue k : bt_get revenue_key_cmp k revenue = revenue_agg (group some_key k pairs);
  mp_deferred_sorted : bt_sorted String.compare deferred;
  mp_deferred s : bt_get String.compare s deferred = deferred_agg (group stream_key s pairs);
}.

Lemma item_loop pairs : Z.of_nat (length pairs) < 2 ^ 64 ->
  exists revenue deferred, fold_res item_step ([], []) pairs = Ok (revenue, deferred) /\ maps_ok pairs revenue deferred.
Proof.
  intros Hl.
  assert (Hpre : forall pre x suf, pairs = pre ++ x :: suf -> Z.of_nat (length pre) + 1 < 2 ^ 64).
  { intros pre x suf ->. rewrite length_app in Hl. cbn in Hl. lia. }
  destruct (group_fold revenue_key_cmp some_key revenue_entry (fun ys o => o = revenue_agg ys) pairs)
    as (revenue & Hr & Hrs & Hrk); [done| |].
  { intros pre x suf k o Hp _ ->. pose proof (group_length some_key k pre). specialize (Hpre _ _ _ Hp).
    apply revenue_entry_holds. lia. }
  destruct (group_fold String.compare stream_key deferred_entry (fun ys o => o = deferred_agg ys) pairs)
    as (deferred & Hd & Hds & Hdk); [done| |].
  { intros pre x suf k o Hp _ ->. pose proof (group_length stream_key k pre). specialize (Hpre _ _ _ Hp).
    apply deferred_entry_holds. lia. }
  exists revenue, deferred. split; [|by split].
  apply (fold_res_pair _ _ item_step _) with (2 := Hr) (3 := Hd). intros a b x. unfold item_step, bt_step, stream_key, some_key.
  cbn [fst snd]. destruct (bt_entry revenue_key_cmp _ _ _); cbn [mbind result_bind]; [|done].
  by destruct (dec_ltb ZERO _).
Qed.

(** ** The lines *)

(** What a line says, without identifiers and with its amount in units. *)
Record InvoiceLineView := mkInvoiceLineView {
  v_class : AccountClass;
  v_gl_code : option string;
  v_side : Side;
  v_units : Z;
  v_due : option NaiveDate;
  v_stream : option string;
  v_status : MappingStatus;
  v_tax : option string * option string * option string;
  v_refs : ItemRefs;
}.

Definition view (l : PostLine) : InvoiceLineView :=
  mkInvoiceLineView (account_class l) (gl_code l) (side l) (posted_units (money l)) (due_date l) (revenue_stream l)
    (mapping_status l) (tax_jurisdiction l, tax_filing_period l, tax_rate_ref l)
    (mkItemRefs (invoice_item_ref l) (sku_or_plan_ref l) (price_id l) (pricing_snapshot_ref l)).

Definition revenue_total (pairs : list (InvoiceItem * MappedLine)) (k : RevenueKey) : Z :=
  sum_Z recognized_units (group some_key k pairs).
Definition deferred_total (pairs : list (InvoiceItem * MappedLine)) (s : string) : Z :=
  sum_Z deferred_units (group stream_key s pairs).

(** The lines of the four kinds. *)
Definition ar_view inv : list InvoiceLineView :=
  if 0 <? gross_units inv
  then [mkInvoiceLineView Ar None Debit (gross_units inv) (inv_due_date inv) None Resolved (None, None, None) no_refs]
  else [].

Definition revenue_view (pairs : list (InvoiceItem * MappedLine)) (k : RevenueKey) : list InvoiceLineView :=
  match group some_key k pairs with
  | [] => []
  | (item, m) :: _ =>
      [mkInvoiceLineView (ml_account_class m) (ml_gl_code m) Credit (revenue_total pairs k) None
         (Some (rk_revenue_stream k)) (ml_mapping_status m) (None, None, None) (refs_from item)]
  end.

Definition deferred_view (pairs : list (InvoiceItem * MappedLine)) (s : string) : list InvoiceLineView :=
  match group stream_key s pairs with
  | [] => []
  | (item, _) :: _ =>
      [mkInvoiceLineView ContractLiability None Credit (deferred_total pairs s) None (Some s) Resolved
         (None, None, None) (refs_from item)]
  end.

Definition tax_view (t : TaxBreakdown) : list InvoiceLineView :=
  if posted_units (tb_amount t) =? 0 then []
  else [mkInvoiceLineView TaxPayable None Credit (posted_units (tb_amount t)) None None Resolved
          (Some (tb_tax_jurisdiction t), Some (tb_tax_filing_period t), tb_tax_rate_ref t) no_refs].

(** A line to be numbered shows a view and is a plain posting of the invoice. *)
Definition renders inv (spec : CurrencySpec) (mk : Uuid -> PostLine) (v : InvoiceLineView) : Prop :=
  forall id, view (mk id) = v /\ plain_line spec (inv_payer_tenant_id inv) (line_facts (mk id)).

Lemma emit_groups {K V} (out : K * V -> result ExactError (list (Uuid -> PostLine))) (total : K -> Z)
    (vw : K -> list InvoiceLineView) sc inv spec (m : list (K * V)) :
  (forall k v, (k, v) ∈ m ->
     match out (k, v) with
     | Ok ls => fits sc (total k) /\ Forall2 (renders inv spec) ls (if total k =? 0 then [] else vw k)
     | Err _ => ~ fits sc (total k)
     end) ->
  match map_res out m with
  | Ok rs => Forall (fun b => fits sc (total (fst b))) m /\
      Forall2 (renders inv spec) (concat rs) (List.filter (fun k => negb (total k =? 0)) (fst <$> m) ≫= vw)
  | Err _ => ~ Forall (fun b => fits sc (total (fst b))) m
  end.
Proof.
  induction m as [|[k v] m IH]; intros Hout; cbn [map_res]; [by split; constructor|].
  specialize (IH ltac:(intros; apply Hout; by right)). specialize (Hout k v ltac:(by left)).
  destruct (out (k, v)) as [ls|e]; cbn [mbind result_bind]; [|intros Hf%Forall_inv; done].
  destruct (map_res out m) as [rs|e]; cbn [mbind result_bind]; [|by intros Hf%Forall_inv_tail].
  destruct Hout as [Hfit Hls], IH as [Hfits Hrs]. split; [by constructor|].
  rewrite fmap_cons. cbn [List.filter concat fst]. destruct (total k =? 0); cbn [negb].
  - inversion Hls. done.
  - rewrite bind_cons. by apply Forall2_app.
Qed.

(** Narrowing a total either fails because it does not fit, or gives a posting. *)
Lemma narrow_total z spec : small z -> currency_ok spec -> (10 ^ (28 - currency_scale spec) | z) ->
  match into_posted_exact (of_units z) spec with
  | Ok p => fits (currency_scale spec) z /\ posted_ok p /\ currency p = spec /\ posted_units p = z
  | Err _ => ~ fits (currency_scale spec) z
  end.
Proof.
  intros Hz Hc Hdiv. destruct (into_posted_exact _ _) as [p|e] eqn:E.
  - apply into_posted_units in E as (Hp & Hpc & Hu); [|done|done]. split; [|done].
    rewrite <- Hu, <- Hpc. by apply posted_units_fits.
  - intros Hf. destruct (into_posted_units_total z spec Hz Hc Hdiv Hf) as [p Hp]. congruence.
Qed.

(** ** The builder *)

Section build.
Context (inv : PostedInvoice) (mapped : list MappedLine) (spec : CurrencySpec).
Hypothesis Hm : money_ok inv.
Hypothesis Hs : shape_ok inv spec.
Let pairs := zip (inv_items inv) mapped.
Let sc := currency_scale spec.

Lemma pairs_items x : x ∈ pairs -> fst x ∈ inv_items inv.
Proof. destruct x as [i m]. apply elem_of_zip_l. Qed.

Lemma pairs_ok x : x ∈ pairs -> item_ok spec (fst x) /\ posted_ok (it_amount_ex_tax (fst x)) /\ posted_ok (it_deferred (fst x)).
Proof.
  intros Hx%pairs_items. destruct Hm as [Hi _ _], Hs as [_ Hio _]. rewrite Forall_forall in Hi, Hio.
  destruct (Hi _ Hx). by split; [apply Hio|].
Qed.

Lemma pairs_length : Z.of_nat (length pairs) < 2 ^ 64.
Proof. unfold pairs. rewrite length_zip. pose proof (mo_length inv Hm). lia. Qed.

Lemma unit_divides x : x ∈ pairs ->
  (10 ^ (28 - sc) | recognized_units x) /\ (10 ^ (28 - sc) | deferred_units x).
Proof.
  intros ([Hc Hdc _] & Ha & Hd)%pairs_ok. apply posted_units_grid in Ha, Hd. rewrite Hc in Ha. rewrite Hdc in Hd.
  split; [by apply Z.divide_sub_r|done].
Qed.

Lemma spec_ok : currency_ok spec.
Proof. by apply (shape_currency_ok inv). Qed.

(** A total of a group. *)
Lemma group_total {K} `{!EqDecision K} (key : InvoiceItem * MappedLine -> option K) (f : InvoiceItem * MappedLine -> Z) k :
  (forall x, x ∈ pairs -> 0 <= f x /\ (10 ^ (28 - sc) | f x)) -> (forall x, Z.abs (f x) <= 10 ^ 57 * 2) ->
  let z := sum_Z f (group key k pairs) in 0 <= z /\ small z /\ (10 ^ (28 - sc) | z).
Proof.
  intros Hf Hb z. assert (Hin : forall x, x ∈ group key k pairs -> x ∈ pairs) by (intros x; rewrite elem_of_group; tauto).
  split_and!.
  - apply sum_Z_nonneg. intros x Hx. by apply Hf, Hin.
  - apply group_total_small; [done|]. pose proof (group_length key k pairs). pose proof pairs_length. lia.
  - apply sum_Z_divide. intros x Hx. by apply Hf, Hin.
Qed.

Lemma revenue_total_spec k :
  0 <= revenue_total pairs k /\ small (revenue_total pairs k) /\ (10 ^ (28 - sc) | revenue_total pairs k).
Proof.
  apply group_total; [|intros; apply item_units_small]. intros x Hx. destruct (unit_divides x Hx).
  destruct (pairs_ok x Hx) as ([_ _ ?] & _). unfold recognized_units. split; [lia|done].
Qed.

Lemma deferred_total_spec s :
  0 <= deferred_total pairs s /\ small (deferred_total pairs s) /\ (10 ^ (28 - sc) | deferred_total pairs s).
Proof.
  apply group_total; [|intros; apply item_units_small]. intros x Hx. destruct (unit_divides x Hx).
  destruct (pairs_ok x Hx) as ([_ _ ?] & _). unfold deferred_units. split; [lia|done].
Qed.

Lemma revenue_lines_spec k agg : revenue_agg (group some_key k pairs) = Some agg ->
  match revenue_lines inv spec (k, agg) with
  | Ok ls => fits sc (revenue_total pairs k) /\
      Forall2 (renders inv spec) ls (if revenue_total pairs k =? 0 then [] else revenue_view pairs k)
  | Err _ => ~ fits sc (revenue_total pairs k)
  end.
Proof.
  destruct (revenue_total_spec k) as (Hpos & Hsmall & Hdiv). unfold revenue_view, revenue_agg.
  fold (revenue_total pairs k). destruct (group some_key k pairs) as [|[i m] ys] eqn:Hg; [done|]. intros [= <-].
  unfold revenue_lines. cbn [ra_amount]. rewrite from_decimal_units, units_ZERO, exact_eqb_units.
  destruct (Z.eqb_spec (revenue_total pairs k) 0) as [->|Hne].
  { split; [|constructor]. exists 0. pose proof spec_ok as Hc. unfold currency_ok in Hc.
    split; [fold sc in Hc; lia|]. split; [apply Z.divide_0_r|]. by apply pow10_pos. }
  pose proof (narrow_total _ spec Hsmall spec_ok Hdiv) as Hn.
  destruct (into_posted_exact _ _) as [p|e]; cbn [mbind result_bind]; [|done].
  destruct Hn as (Hfit & Hp & Hc & Hu). split; [done|]. constructor; [|constructor].
  intros id. split; [unfold view; cbn; by rewrite Hu|]. split; cbn; [done|done|lia|done|done].
Qed.

Lemma deferred_lines_spec s agg : deferred_agg (group stream_key s pairs) = Some agg ->
  match deferred_lines inv spec (s, agg) with
  | Ok ls => fits sc (deferred_total pairs s) /\
      Forall2 (renders inv spec) ls (if deferred_total pairs s =? 0 then [] else deferred_view pairs s)
  | Err _ => ~ fits sc (deferred_total pairs s)
  end.
Proof.
  destruct (deferred_total_spec s) as (Hpos & Hsmall & Hdiv). unfold deferred_view, deferred_agg.
  fold (deferred_total pairs s). destruct (group stream_key s pairs) as [|[i m] ys] eqn:Hg; [done|]. intros [= <-].
  assert (Hne : 0 < deferred_total pairs s).
  { unfold deferred_total. rewrite Hg, sum_Z_cons.
    assert (Hin : forall x, x ∈ (i, m) :: ys -> 0 < deferred_units x).
    { intros x Hx. rewrite <- Hg, elem_of_group in Hx. destruct Hx as [Hk _]. unfold stream_key in Hk.
      rewrite posted_gtb_zero in Hk. destruct (Z.ltb_spec 0 (posted_units (it_deferred (fst x)))); done. }
    pose proof (Hin (i, m) ltac:(by left)).
    pose proof (sum_Z_nonneg deferred_units ys ltac:(intros x Hx; specialize (Hin x ltac:(by right)); lia)). lia. }
  rewrite (proj2 (Z.eqb_neq _ 0)) by lia. unfold deferred_lines. cbn [da_amount].
  pose proof (narrow_total _ spec Hsmall spec_ok Hdiv) as Hn.
  destruct (into_posted_exact _ _) as [p|e]; cbn [mbind result_bind]; [|done].
  destruct Hn as (Hfit & Hp & Hc & Hu). split; [done|]. constructor; [|constructor].
  intros id. split; [unfold view; cbn; by rewrite Hu|]. split; cbn; [done|done|lia|done|done].
Qed.

Lemma tax_lines_spec : Forall2 (renders inv spec) (inv_tax inv ≫= invoice_tax_lines inv) (inv_tax inv ≫= tax_view).
Proof.
  destruct Hm as [_ Hok _], Hs as [_ _ Ht]. revert Hok Ht. generalize (inv_tax inv). clear.
  induction 1 as [|t ts Hp _ IH]; intros Ht; [constructor|]. apply Forall_cons in Ht as [[Hc Hpos] Ht].
  rewrite !bind_cons. apply Forall2_app; [|by apply IH]. unfold invoice_tax_lines, tax_view.
  rewrite dec_eqb_units, units_ZERO. fold (posted_units (tb_amount t)).
  destruct (Z.eqb_spec (posted_units (tb_amount t)) 0); [constructor|]. constructor; [|constructor].
  intros id. split; [done|]. split; cbn; [done|done|lia|done|done].
Qed.

Lemma ar_lines_spec p : posted_ok p -> currency p = spec -> posted_units p = gross_units inv ->
  Forall2 (renders inv spec) (ar_lines inv p) (ar_view inv).
Proof.
  intros Hp Hc Hu. unfold ar_lines, ar_view. rewrite posted_gtb_zero, Hu.
  destruct (Z.ltb_spec 0 (gross_units inv)); constructor; [|constructor].
  intros id. split; [unfold view; cbn; by rewrite Hu|]. split; cbn; [done|done|lia|done|done].
Qed.

(** The keys that get a line. *)
Definition positive_keys {K V} (total : K -> Z) (m : list (K * V)) : list K :=
  List.filter (fun k => negb (total k =? 0)) (fst <$> m).

Lemma zero_fits : fits sc 0.
Proof.
  exists 0. pose proof spec_ok as Hc. unfold currency_ok in Hc. fold sc in Hc. split; [lia|].
  split; [apply Z.divide_0_r|]. by apply pow10_pos.
Qed.

Lemma revenue_absent k : revenue_agg (group some_key k pairs) = None -> revenue_total pairs k = 0.
Proof. unfold revenue_total, revenue_agg. by destruct (group some_key k pairs) as [|[]]. Qed.

Lemma deferred_absent k : deferred_agg (group stream_key k pairs) = None -> deferred_total pairs k = 0.
Proof. unfold deferred_total, deferred_agg. by destruct (group stream_key k pairs) as [|[]]. Qed.

(** The keys with a line, and that every total fits as soon as the present ones do. *)
Lemma keys_spec {K V} `{!EqDecision K} (cmp : K -> K -> comparison) `{!LinearCmp cmp} (total : K -> Z) (m : list (K * V)) :
  bt_sorted cmp m -> (forall k, bt_get cmp k m = None -> total k = 0) -> (forall k, 0 <= total k) ->
  StronglySorted (fun a b => cmp a b = Lt) (positive_keys total m) /\
  (forall k, k ∈ positive_keys total m <-> 0 < total k) /\
  (Forall (fun b => fits sc (total (fst b))) m <-> forall k, fits sc (total k)).
Proof.
  intros Hsort Habs Hpos. split_and!.
  - unfold positive_keys. clear Habs. induction Hsort as [|[k v] m Hsm IH Hall]; [constructor|]. rewrite fmap_cons.
    cbn [List.filter]. destruct (negb _); [|done]. constructor; [done|]. apply Forall_forall. intros k1.
    rewrite elem_of_filter_bool. intros [_ ([k2 v2] & -> & Hin)%list_elem_of_fmap]. rewrite Forall_forall in Hall.
    by apply Hall in Hin.
  - intros k. unfold positive_keys. rewrite elem_of_filter_bool, negb_true_iff, Z.eqb_neq. specialize (Hpos k). split; [lia|].
    intros Hk. split; [lia|]. destruct (bt_get cmp k m) as [v|] eqn:E; [|specialize (Habs k E); lia].
    apply bt_get_elem in E; [|done|done]. apply list_elem_of_fmap. by exists (k, v).
  - rewrite Forall_forall. split; [|auto]. intros Hf k. destruct (bt_get cmp k m) as [v|] eqn:E.
    + apply bt_get_elem in E; [|done|done]. by apply (Hf (k, v)).
    + rewrite (Habs k E). apply zero_fits.
Qed.

Definition totals_fit : Prop :=
  (forall k, fits sc (revenue_total pairs k)) /\ (forall s, fits sc (deferred_total pairs s)).

(** The lines of the revenue and deferral groups. *)
Definition group_views (rks : list RevenueKey) (streams : list string) : Prop :=
  StronglySorted (fun a b => revenue_key_cmp a b = Lt) rks /\ (forall k, k ∈ rks <-> 0 < revenue_total pairs k) /\
  StronglySorted (fun a b => String.compare a b = Lt) streams /\ (forall s, s ∈ streams <-> 0 < deferred_total pairs s).

Lemma build_lines total : posted_ok total -> currency total = spec -> posted_units total = gross_units inv ->
  match ('(revenue, deferred) ← fold_res item_step ([], []) pairs;
         rs ← map_res (revenue_lines inv spec) revenue;
         ds ← map_res (deferred_lines inv spec) deferred;
         Ok (ar_lines inv total ++ concat rs ++ concat ds ++ (inv_tax inv ≫= invoice_tax_lines inv))) with
  | Ok ls => totals_fit /\ exists rks streams, group_views rks streams /\
      Forall2 (renders inv spec) ls
        (ar_view inv ++ (rks ≫= revenue_view pairs) ++ (streams ≫= deferred_view pairs) ++ (inv_tax inv ≫= tax_view))
  | Err _ => ~ totals_fit
  end.
Proof.
  intros Hp Hc Hu. destruct (item_loop pairs pairs_length) as (revenue & deferred & -> & [Hrs Hr Hds Hd]).
  cbn [mbind result_bind].
  destruct (keys_spec revenue_key_cmp (revenue_total pairs) revenue Hrs) as (R1 & R2 & R3).
  { intros k Hk. rewrite Hr in Hk. by apply revenue_absent. }
  { intros k. apply revenue_total_spec. }
  destruct (keys_spec String.compare (deferred_total pairs) deferred Hds) as (D1 & D2 & D3).
  { intros k Hk. rewrite Hd in Hk. by apply deferred_absent. }
  { intros k. apply deferred_total_spec. }
  pose proof (emit_groups (revenue_lines inv spec) (revenue_total pairs) (revenue_view pairs) sc inv spec revenue) as HR.
  lapply HR; clear HR; [intros HR|].
  2:{ intros k agg Hk. apply (bt_get_elem revenue_key_cmp) in Hk; [|done]. rewrite Hr in Hk. by apply revenue_lines_spec. }
  pose proof (emit_groups (deferred_lines inv spec) (deferred_total pairs) (deferred_view pairs) sc inv spec deferred) as HD.
  lapply HD; clear HD; [intros HD|].
  2:{ intros k agg Hk. apply (bt_get_elem String.compare) in Hk; [|done]. rewrite Hd in Hk. by apply deferred_lines_spec. }
  assert (HT : totals_fit <-> Forall (fun b => fits sc (revenue_total pairs (fst b))) revenue /\
                              Forall (fun b => fits sc (deferred_total pairs (fst b))) deferred)
    by (unfold totals_fit; tauto).
  destruct (map_res (revenue_lines inv spec) revenue) as [rs|]; cbn [mbind result_bind]; [|tauto].
  destruct (map_res (deferred_lines inv spec) deferred) as [ds|]; cbn [mbind result_bind]; [|tauto].
  destruct HR as [HR1 HR2], HD as [HD1 HD2]. split; [by apply HT|].
  exists (positive_keys (revenue_total pairs) revenue), (positive_keys (deferred_total pairs) deferred).
  split; [done|]. repeat apply Forall2_app; [by apply ar_lines_spec|done|done|apply tax_lines_spec].
Qed.

(** The keys with a line reach every item that counts. *)
Lemma revenue_reached x : x ∈ pairs -> recognized_units x <> 0 -> 0 < revenue_total pairs (revenue_key x).
Proof.
  intros Hx Hr. assert (Hpos : forall y, y ∈ pairs -> 0 <= recognized_units y).
  { intros y Hy. destruct (pairs_ok y Hy) as ([_ _ ?] & _). unfold recognized_units. lia. }
  unfold revenue_total. pose proof (sum_Z_member_le recognized_units (group some_key (revenue_key x) pairs) x
    ltac:(intros y [_ Hy]%elem_of_group; by apply Hpos) ltac:(by apply elem_of_group)).
  specialize (Hpos x Hx) as Hpx. lia.
Qed.

Lemma deferred_reached x : x ∈ pairs -> deferred_units x <> 0 ->
  stream_key x = Some (it_revenue_stream (fst x)) /\ 0 < deferred_total pairs (it_revenue_stream (fst x)).
Proof.
  intros Hx Hd. assert (Hpos : forall y, y ∈ pairs -> 0 <= deferred_units y).
  { intros y Hy. destruct (pairs_ok y Hy) as ([_ _ ?] & _). unfold deferred_units. lia. }
  specialize (Hpos x Hx) as Hpx.
  assert (Hk : stream_key x = Some (it_revenue_stream (fst x))).
  { unfold stream_key. rewrite posted_gtb_zero. fold (deferred_units x). by rewrite (proj2 (Z.ltb_lt _ _)) by lia. }
  split; [done|]. unfold deferred_total.
  pose proof (sum_Z_member_le deferred_units (group stream_key (it_revenue_stream (fst x)) pairs) x
    ltac:(intros y [_ Hy]%elem_of_group; by apply Hpos) ltac:(by apply elem_of_group)). lia.
Qed.

Lemma views_conserve rks streams : group_views rks streams ->
  sum_Z (revenue_total pairs) rks = sum_Z recognized_units pairs /\
  sum_Z (deferred_total pairs) streams = sum_Z deferred_units pairs.
Proof.
  intros (Hr & Hrk & Hd & Hdk). split.
  - apply (sum_groups revenue_key_cmp some_key); [by apply (sorted_keys_nodup revenue_key_cmp)|].
    intros x Hx Hne. exists (revenue_key x). split; [done|]. apply Hrk. by apply revenue_reached.
  - apply (sum_groups String.compare stream_key); [by apply (sorted_keys_nodup String.compare)|].
    intros x Hx Hne. destruct (deferred_reached x Hx Hne) as [Hk Hp]. exists (it_revenue_stream (fst x)).
    split; [done|]. by apply Hdk.
Qed.

(** The views balance. *)
Definition view_net (v : InvoiceLineView) : Z := signed (v_side v) (v_units v).

Lemma net_revenue rks : (forall k, k ∈ rks -> 0 < revenue_total pairs k) ->
  sum_Z view_net (rks ≫= revenue_view pairs) = - sum_Z (revenue_total pairs) rks.
Proof.
  induction rks as [|k rks IH]; intros Hk; [done|]. rewrite bind_cons, sum_Z_app, IH, sum_Z_cons by set_solver.
  specialize (Hk k ltac:(by left)). unfold revenue_view. fold (revenue_total pairs k).
  destruct (group some_key k pairs) as [|[]] eqn:Hg; [unfold revenue_total in Hk; by rewrite Hg in Hk|].
  rewrite sum_Z_cons, sum_Z_nil. unfold view_net. cbn [v_side v_units signed]. lia.
Qed.

Lemma net_deferred streams : (forall s, s ∈ streams -> 0 < deferred_total pairs s) ->
  sum_Z view_net (streams ≫= deferred_view pairs) = - sum_Z (deferred_total pairs) streams.
Proof.
  induction streams as [|k streams IH]; intros Hk; [done|]. rewrite bind_cons, sum_Z_app, IH, sum_Z_cons by set_solver.
  specialize (Hk k ltac:(by left)). unfold deferred_view. fold (deferred_total pairs k).
  destruct (group stream_key k pairs) as [|[]] eqn:Hg; [unfold deferred_total in Hk; by rewrite Hg in Hk|].
  rewrite sum_Z_cons, sum_Z_nil. unfold view_net. cbn [v_side v_units signed]. lia.
Qed.

Lemma net_tax ts : sum_Z view_net (ts ≫= tax_view) = - sum_Z (fun t => posted_units (tb_amount t)) ts.
Proof.
  induction ts as [|t ts IH]; [done|]. rewrite bind_cons, sum_Z_app, IH, sum_Z_cons. unfold tax_view.
  destruct (Z.eqb_spec (posted_units (tb_amount t)) 0); rewrite ?sum_Z_cons, ?sum_Z_nil; unfold view_net; cbn; lia.
Qed.

Lemma gross_nonneg : 0 <= gross_units inv.
Proof.
  destruct Hs as [_ Hi Ht]. rewrite Forall_forall in Hi. rewrite Forall_forall in Ht. unfold gross_units. apply Z.add_nonneg_nonneg; apply sum_Z_nonneg.
  - intros i Hin. destruct (Hi i Hin). lia.
  - intros t Hin. by destruct (Ht t Hin).
Qed.

Lemma pairs_gross : length mapped = length (inv_items inv) ->
  sum_Z recognized_units pairs + sum_Z deferred_units pairs = sum_Z (fun i => posted_units (it_amount_ex_tax i)) (inv_items inv).
Proof.
  unfold pairs. generalize (inv_items inv). clear. revert mapped.
  induction mapped as [|m ms IH]; intros [|i items] Hl; try done.
  cbn [zip_with]. rewrite !sum_Z_cons, <- (IH items) by (cbn in Hl; lia). unfold recognized_units, deferred_units. cbn. lia.
Qed.

Lemma views_balance rks streams : length mapped = length (inv_items inv) -> group_views rks streams ->
  sum_Z view_net (ar_view inv ++ (rks ≫= revenue_view pairs) ++ (streams ≫= deferred_view pairs) ++ (inv_tax inv ≫= tax_view)) = 0.
Proof.
  intros Hl Hgv. destruct (views_conserve rks streams Hgv) as [Hc1 Hc2]. destruct Hgv as (_ & Hr & _ & Hd). rewrite !sum_Z_app, net_revenue, net_deferred, net_tax, Hc1, Hc2 by naive_solver.
  pose proof (pairs_gross Hl) as Hp. unfold ar_view. pose proof gross_nonneg as Hg. unfold gross_units in *.
  destruct (Z.ltb_spec 0 (sum_Z (fun i => posted_units (it_amount_ex_tax i)) (inv_items inv)
    + sum_Z (fun t => posted_units (tb_amount t)) (inv_tax inv))); rewrite ?sum_Z_cons, ?sum_Z_nil; unfold view_net; cbn; lia.
Qed.
End build.

(** ** The entry *)

(** The invoices that are posted. *)
Record invoice_ok inv (mapped : list MappedLine) (spec : CurrencySpec) : Prop := mkInvoiceOk {
  ok_length : length mapped = length (inv_items inv);
  ok_shape : shape_ok inv spec;
  ok_gross : fits (currency_scale spec) (gross_units inv);
  ok_totals : totals_fit inv mapped spec;
}.

(** What the entry of an invoice is. *)
Record invoice_entry inv (mapped : list MappedLine) (spec : CurrencySpec) (e : PostEntry) : Prop := mkInvoiceEntry {
  ie_lines : exists rks streams, group_views inv mapped rks streams /\
    view <$> lines e =
      ar_view inv ++ (rks ≫= revenue_view (zip (inv_items inv) mapped))
      ++ (streams ≫= deferred_view (zip (inv_items inv) mapped)) ++ (inv_tax inv ≫= tax_view);
  ie_plain : Forall (plain_line spec (inv_payer_tenant_id inv)) (entry_facts e);
  ie_currency : entry_currency e = code spec;
  ie_business : source_doc_type e = InvoicePost /\ source_business_id e = inv_invoice_id inv;
  ie_balanced : 0 < gross_units inv -> balanced_entry (entry_currency e) (entry_facts e);
}.

Lemma renders_lines `{!UuidSource} inv spec mks views : Forall2 (renders inv spec) mks views ->
  view <$> draw_ids mks = views /\
  Forall (plain_line spec (inv_payer_tenant_id inv)) (line_facts <$> draw_ids mks) /\
  sum_Z signed_line (line_facts <$> draw_ids mks) = sum_Z view_net views.
Proof.
  intros Hr.
  assert (Hv : view <$> draw_ids mks = views).
  { rewrite draw_ids_view.
    - induction Hr as [|mk v mks vs Hm _ IH]; [done|]. rewrite fmap_cons, IH. f_equal. apply Hm.
    - intros mk id (i & Hi)%list_elem_of_lookup. destruct (Forall2_lookup_l _ _ _ _ _ Hr Hi) as (v & _ & Hm).
      by rewrite (proj1 (Hm id)), (proj1 (Hm uuid_nil)). }
  split_and!; [done| |].
  - apply Forall_fmap, draw_ids_Forall. intros mk id (i & Hi)%list_elem_of_lookup.
    destruct (Forall2_lookup_l _ _ _ _ _ Hr Hi) as (v & _ & Hm). apply Hm.
  - rewrite <- Hv, !sum_Z_map. done.
Qed.

Lemma build_invoice_spec `{!UuidSource} inv mapped : money_ok inv ->
  match build_invoice_entry inv mapped with
  | Ok e => exists spec, invoice_ok inv mapped spec /\ invoice_entry inv mapped spec e
  | Err _ => forall spec, ~ invoice_ok inv mapped spec
  end.
Proof.
  intros Hm. unfold build_invoice_entry. destruct (Nat.eqb_spec (length mapped) (length (inv_items inv))) as [Hl|Hl]; cbn [negb].
  2:{ by intros spec [? _ _ _]. }
  destruct (validated_spec inv) as [spec|e] eqn:Hv; cbn [mbind result_bind].
  2:{ intros spec [_ Hs%validated_spec_ok _ _]. congruence. }
  apply validated_spec_ok in Hv as Hs.
  assert (Huniq : forall spec', shape_ok inv spec' -> spec' = spec) by (intros spec' [Hf _ _]; destruct Hs as [Hf' _ _]; congruence).
  destruct (gross inv) as [total|e] eqn:Hg; cbn [mbind result_bind].
  2:{ intros spec' [_ Hs' Hf _]. rewrite (Huniq _ Hs') in Hf. apply (gross_fits inv spec Hm Hs) in Hf. by rewrite Hg in Hf. }
  pose proof (proj1 (gross_fits inv spec Hm Hs) ltac:(by rewrite Hg)) as Hfit.
  apply (gross_ok inv spec total Hm Hs) in Hg as (Hp & Hc & Hu).
  pose proof (build_lines inv mapped spec Hm Hs total Hp Hc Hu) as Hb.
  destruct ('(revenue, deferred) ← _; _) as [ls|e]; cbn [map_err mbind result_bind].
  2:{ intros spec' [_ Hs' _ Ht]. by rewrite (Huniq _ Hs') in Ht. }
  destruct Hb as (Ht & rks & streams & Hgv & Hr). exists spec. split; [by split|].
  destruct (@renders_lines next_uuids inv spec ls _ Hr) as (Hview & Hplain & Hnet).
  split; [by exists rks, streams|done|done|done|]. intros Hpos. cbn [entry_currency]. apply (plain_balanced _ (inv_payer_tenant_id inv)); [|done|].
  - intros Hnil%fmap_nil_inv. cbn [lines] in Hnil. rewrite Hnil in Hview. unfold ar_view in Hview.
    by rewrite (proj2 (Z.ltb_lt _ _)) in Hview.
  - unfold entry_facts. cbn [lines]. rewrite Hnet. by eapply views_balance.
Qed.

(** ** The account mapping *)

Definition unmapped (i : InvoiceItem) : bool :=
  match it_contract_class i, it_catalog_class i with None, None => true | _, _ => false end.

Lemma resolve_pending i : bool_decide (ml_mapping_status (resolve i) = Pending) = unmapped i.
Proof. unfold resolve, unmapped. by destruct (it_contract_class i), (it_catalog_class i). Qed.

Lemma resolve_suspense i : ml_mapping_status (resolve i) = Pending -> ml_account_class (resolve i) = Suspense.
Proof. unfold resolve. by destruct (it_contract_class i), (it_catalog_class i). Qed.

Lemma zip_resolve items : zip items (resolve <$> items) = (fun i => (i, resolve i)) <$> items.
Proof. induction items as [|i items IH]; [done|]. rewrite !fmap_cons. cbn [zip_with]. by rewrite IH. Qed.

Definition pending_units (v : InvoiceLineView) : Z := if bool_decide (v_status v = Pending) then v_units v else 0.
Definition unmapped_units x : Z := if unmapped (fst x) then recognized_units x else 0.

(** The members of a group share their status. *)
Lemma group_status items k i m ys : let pairs := zip items (resolve <$> items) in
  group some_key k pairs = (i, m) :: ys ->
  m = resolve i /\ forall x, x ∈ group some_key k pairs -> unmapped (fst x) = bool_decide (ml_mapping_status m = Pending).
Proof.
  intros pairs Hg.
  assert (Hin : forall x, x ∈ group some_key k pairs -> snd x = resolve (fst x) /\ revenue_key x = k).
  { intros x [Hk Hx]%elem_of_group. split; [|by injection Hk]. unfold pairs in Hx. rewrite zip_resolve in Hx.
    apply list_elem_of_fmap in Hx as (j & -> & _). done. }
  destruct (Hin (i, m)) as [Hm Hk]; [rewrite Hg; by left|]. cbn [fst snd] in Hm. split; [done|].
  intros [j mj] Hx. destruct (Hin _ Hx) as [Hmj Hkj]. cbn [fst snd] in *. rewrite <- resolve_pending, <- Hmj.
  assert (Heq : ml_mapping_status mj = ml_mapping_status m); [|by rewrite Heq].
  apply as_str_inj. unfold revenue_key in Hk, Hkj. congruence.
Qed.

Lemma revenue_pending items k : let pairs := zip items (resolve <$> items) in
  sum_Z pending_units (revenue_view pairs k) = sum_Z unmapped_units (group some_key k pairs).
Proof.
  intros pairs. unfold revenue_view, revenue_total. destruct (group some_key k pairs) as [|[i m] ys] eqn:Hg; [done|].
  destruct (group_status items k i m ys Hg) as [_ Hst]. fold pairs in Hst. rewrite Hg in Hst.
  rewrite sum_Z_cons, sum_Z_nil, Z.add_0_r. unfold pending_units. cbn [v_status v_units].
  case_bool_decide as Hm.
  - apply sum_Z_ext. intros x Hx. unfold unmapped_units. by rewrite (Hst x Hx).
  - rewrite (sum_Z_ext unmapped_units (fun _ => 0)).
    + clear. induction ((i, m) :: ys); [done|]. by rewrite sum_Z_cons, <- IHl.
    + intros x Hx. unfold unmapped_units. by rewrite (Hst x Hx).
Qed.

Lemma pending_views inv spec rks streams : money_ok inv -> shape_ok inv spec ->
  let pairs := zip (inv_items inv) (resolve <$> inv_items inv) in
  group_views inv (resolve <$> inv_items inv) rks streams ->
  sum_Z pending_units (ar_view inv ++ (rks ≫= revenue_view pairs) ++ (streams ≫= deferred_view pairs) ++ (inv_tax inv ≫= tax_view))
  = sum_Z (fun i => if unmapped i then posted_units (it_amount_ex_tax i) - posted_units (it_deferred i) else 0) (inv_items inv).
Proof.
  intros Hm Hs pairs (Hr & Hrk & _ & _). rewrite !sum_Z_app, !sum_Z_bind.
  rewrite (sum_Z_zero (fun s => sum_Z pending_units (deferred_view pairs s))).
  2:{ intros s _. unfold deferred_view. destruct (group stream_key s pairs) as [|[]]; done. }
  rewrite (sum_Z_zero (fun t => sum_Z pending_units (tax_view t))).
  2:{ intros t _. unfold tax_view. by destruct (_ =? 0). }
  rewrite (sum_Z_zero pending_units (ar_view inv)).
  2:{ unfold ar_view. intros v Hv. destruct (0 <? _); [|by apply not_elem_of_nil in Hv]. by apply list_elem_of_singleton in Hv as ->. }
  rewrite (sum_Z_ext _ (fun k => sum_Z unmapped_units (group some_key k pairs))) by (intros k _; apply revenue_pending).
  rewrite (sum_groups revenue_key_cmp some_key); [|by apply (sorted_keys_nodup revenue_key_cmp)|].
  - unfold pairs. rewrite zip_resolve, sum_Z_map, Z.add_0_l, !Z.add_0_r. done.
  - intros x Hx Hne. exists (revenue_key x). split; [done|]. apply Hrk. eapply revenue_reached; [done|done|done|].
    unfold unmapped_units in Hne. by destruct (unmapped (fst x)).
Qed.

Lemma pending_suspense items rks v : let pairs := zip items (resolve <$> items) in
  v ∈ rks ≫= revenue_view pairs -> v_status v = Pending -> v_class v = Suspense /\ v_side v = Credit.
Proof.
  intros pairs (k & Hv & _)%list_elem_of_bind. unfold revenue_view in Hv.
  destruct (group some_key k pairs) as [|[i m] ys] eqn:Hg; [by apply not_elem_of_nil in Hv|].
  apply list_elem_of_singleton in Hv as ->. cbn. destruct (group_status items k i m ys Hg) as [-> _].
  intros Hp. split; [by apply resolve_suspense|done].
Qed.
End theory.

Section claims.
Context `{RustDecimal} `{!UuidSource}.

(** C24: the invoice builder is exact.  For an invoice whose amounts are valid
    postings, [build_invoice_entry] returns an entry exactly when every item has its
    mapping, all amounts share one currency, deferrals lie between zero and their
    item, no amount is negative, and the gross and every group total are
    representable.  The entry then has the gross on one receivable line (none for a
    zero gross), one revenue line per key with a positive recognised total, in key
    order, one deferral line per stream with a positive deferred total, in stream
    order, and one line per tax component; every total is the sum of its group, the
    source references are those of the group's first item, and the entry of a
    positive gross passes the posting gate. *)
Theorem invoice_entry_exact inv mapped : money_ok inv ->
  match build_invoice_entry inv mapped with
  | Ok e => exists spec, invoice_ok inv mapped spec /\ invoice_entry inv mapped spec e
  | Err _ => forall spec, ~ invoice_ok inv mapped spec
  end.
Proof. apply build_invoice_spec. Qed.

(** An item without a mapping is parked, never booked as revenue.  When an
    invoice is built with the mapping that [resolve] gives its items, the pending
    lines of the entry are suspense credits and carry exactly the recognised amount
    of the items that neither the contract nor the catalog maps: no pending item
    merges into a resolved line, and no resolved item into a pending one. *)
Theorem unmapped_parked inv e : money_ok inv ->
  build_invoice_entry inv (resolve <$> inv_items inv) = Ok e ->
  (forall l, l ∈ lines e -> mapping_status l = Pending -> account_class l = Suspense /\ side l = Credit) /\
  sum_Z (fun l => if bool_decide (mapping_status l = Pending) then posted_units (money l) else 0) (lines e)
  = sum_Z (fun i => if unmapped i then posted_units (it_amount_ex_tax i) - posted_units (it_deferred i) else 0) (inv_items inv).
Proof.
  intros Hm Hb. pose proof (build_invoice_spec inv (resolve <$> inv_items inv) Hm) as Hspec. rewrite Hb in Hspec.
  destruct Hspec as (spec & [_ Hs _ _] & [(rks & streams & Hgv & Hview) _ _ _ _]). split.
  - intros l Hl Hp. assert (Hv : view l ∈ view <$> lines e) by by apply list_elem_of_fmap_2.
    rewrite Hview, !elem_of_app in Hv. destruct Hv as [Hv|[Hv|[Hv|Hv]]].
    + unfold ar_view in Hv. destruct (0 <? _); [|by apply not_elem_of_nil in Hv].
      apply list_elem_of_singleton in Hv. apply (f_equal v_status) in Hv. cbn in Hv. congruence.
    + by apply (pending_suspense (inv_items inv) rks (view l)).
    + apply list_elem_of_bind in Hv as (s & Hv & _). unfold deferred_view in Hv.
      destruct (group stream_key s _) as [|[]]; [by apply not_elem_of_nil in Hv|].
      apply list_elem_of_singleton in Hv. apply (f_equal v_status) in Hv. cbn in Hv. congruence.
    + apply list_elem_of_bind in Hv as (t & Hv & _). unfold tax_view in Hv. destruct (_ =? 0); [by apply not_elem_of_nil in Hv|].
      apply list_elem_of_singleton in Hv. apply (f_equal v_status) in Hv. cbn in Hv. congruence.
  - rewrite <- (pending_views inv spec rks streams Hm Hs Hgv), <- Hview, sum_Z_map. done.
Qed.
End claims.

Section witnesses.
Import ConcreteDecimal MoneySamples.
Local Existing Instance sample_uuids.

Definition sample_item (amt dfr : Z) (stream : string) (cls : option AccountClass) : InvoiceItem :=
  mkInvoiceItem (eur amt) (eur dfr) stream cls None None None None None None None.

Definition sample_invoice : PostedInvoice :=
  mkPostedInvoice "inv-1" 7%N None 9%N 20000 None "202611"
    [sample_item 1000 400 "seats" (Some Revenue); sample_item 500 0 "seats" (Some Revenue);
     sample_item 300 0 "usage" None]
    [mkTaxBreakdown (eur 180) "DE" "2026Q4" None] 3%N 4%N.

Lemma sample_invoice_money : money_ok sample_invoice.
Proof.
  split; [|constructor; [by apply eur_ok|constructor]|ground].
  repeat (constructor; [split; by apply eur_ok|]). constructor.
Qed.

Lemma sample_invoice_built : exists e, build_invoice_entry sample_invoice (resolve <$> inv_items sample_invoice) = Ok e.
Proof. apply is_ok_exists. vm_compute. reflexivity. Qed.

Lemma invoice_entry_exact_witness :
  exists e spec, build_invoice_entry sample_invoice (resolve <$> inv_items sample_invoice) = Ok e /\
    invoice_ok sample_invoice (resolve <$> inv_items sample_invoice) spec /\
    invoice_entry sample_invoice (resolve <$> inv_items sample_invoice) spec e.
Proof.
  destruct sample_invoice_built as [e He].
  pose proof (invoice_entry_exact sample_invoice (resolve <$> inv_items sample_invoice) sample_invoice_money) as Hs.
  rewrite He in Hs. destruct Hs as (spec & Hok & Hentry). exists e, spec. by split_and!.
Defined.

Lemma unmapped_parked_witness :
  exists e, build_invoice_entry sample_invoice (resolve <$> inv_items sample_invoice) = Ok e /\
  sum_Z (fun l => if bool_decide (mapping_status l = Pending) then posted_units (money l) else 0) (lines e)
  = posted_units (eur 300) - posted_units (eur 0).
Proof.
  destruct sample_invoice_built as [e He]. exists e. split; [exact He|].
  rewrite (proj2 (unmapped_parked sample_invoice e sample_invoice_money He)). vm_compute. reflexivity.
Defined.
End witnesses.
