(* ===== verification/Adjustment.v ===== *)
(** * Refunds and governed manual adjustments: [domain/adjustment/refund.rs],
    [domain/adjustment/manual.rs]

    A refund returns cash in one step or through a clearing account; a claw-back is
    the same stage with its sides exchanged.  A manual adjustment passes a governor.
    The file shows that the stages of a refund compose to the single step and that a
    claw-back undoes them, and that the governor admits exactly the balanced postings
    within the allow-list. *)

From S2P Require Import Prelude Decimal Money Exact ExactGrid DomainErrors Sdk Posting Notes.

Definition CLEARING_STATE_PENDING : string := "PENDING".
Definition CLEARING_STATE_SETTLED : string := "SETTLED".

Inductive RefundPhase := Initiated | Confirmed | Rejected | Voided | UnknownFinal.
Inductive RefundPattern := AUnallocated | BRestoreAr.
Inductive RefundDirection := Outbound | Clawback.

#[global] Instance refund_phase_eq_dec : EqDecision RefundPhase.
Proof. solve_decision. Defined.
#[global] Instance refund_pattern_eq_dec : EqDecision RefundPattern.
Proof. solve_decision. Defined.
#[global] Instance refund_direction_eq_dec : EqDecision RefundDirection.
Proof. solve_decision. Defined.

Definition refund_phase_as_str (p : RefundPhase) : string :=
  match p with
  | Initiated => "initiated"
  | Confirmed => "confirmed"
  | Rejected => "rejected"
  | Voided => "voided"
  | UnknownFinal => "unknown_final"
  end.

Definition refund_phase_parse (s : string) : option RefundPhase :=
  if bool_decide (s = "initiated") then Some Initiated
  else if bool_decide (s = "confirmed") then Some Confirmed
  else if bool_decide (s = "rejected") then Some Rejected
  else if bool_decide (s = "voided") then Some Voided
  else if bool_decide (s = "unknown_final") then Some UnknownFinal
  else None.

Definition refund_direction_as_str (d : RefundDirection) : string :=
  match d with Outbound => "OUTBOUND" | Clawback => "CLAWBACK" end.

Definition refund_direction_parse (s : string) : option RefundDirection :=
  if bool_decide (s = "OUTBOUND") then Some Outbound
  else if bool_decide (s = "CLAWBACK") then Some Clawback
  else None.

Definition refund_pattern_as_str (p : RefundPattern) : string :=
  match p with AUnallocated => "A_UNALLOCATED" | BRestoreAr => "B_RESTORE_AR" end.

Definition refund_pattern_parse (s : string) : option RefundPattern :=
  if bool_decide (s = "A_UNALLOCATED") then Some AUnallocated
  else if bool_decide (s = "B_RESTORE_AR") then Some BRestoreAr
  else None.

Definition debit_class (p : RefundPattern) : AccountClass :=
  match p with AUnallocated => Unallocated | BRestoreAr => Ar end.

Section refund.
Context `{RustDecimal}.

Record RefundRequest := mkRefundRequest {
  rf_tenant_id : Uuid;
  rf_payer_tenant_id : Uuid;
  rf_refund_id : string;
  rf_psp_refund_id : string;
  rf_phase : RefundPhase;
  rf_pattern : RefundPattern;
  rf_payment_id : string;
  rf_invoice_id : option string;
  rf_amount : PostedMoney;
  rf_two_stage : bool;
  rf_relates_to_refund_id : option string;
  rf_direction : RefundDirection;
}.

Definition is_clawback (self : RefundRequest) : bool :=
  match rf_direction self, rf_relates_to_refund_id self with
  | Clawback, Some _ => true
  | _, _ => false
  end.

Record RefundLeg := mkRefundLeg {
  rl_account_class : AccountClass;
  rl_side : Side;
  rl_amount : PostedMoney;
  rl_revenue_stream : option string;
}.

Record RefundLegPlan := mkRefundLegPlan {
  rlp_legs : list RefundLeg;
  rlp_clearing_state : string;
}.

(** [is_none_or(|i| i.trim().is_empty())]. *)
Definition blank (o : option string) : bool :=
  match o with None => true | Some s => trim_is_empty s end.

Definition validate_refund_shape (req : RefundRequest) : result DomainError unit :=
  if dec_ltb (amount (rf_amount req)) ZERO then Err DomainError.AmountOutOfRange
  else if bool_decide (rf_direction req = Clawback) && blank (rf_relates_to_refund_id req)
  then Err DomainError.InvalidRequest
  else
    _ ← match rf_pattern req with
        | BRestoreAr => if blank (rf_invoice_id req) then Err DomainError.InvalidRequest else Ok tt
        | AUnallocated => if bool_decide (rf_invoice_id req = None) then Ok tt else Err DomainError.InvalidRequest
        end;
    if negb (rf_two_stage req) && bool_decide (rf_phase req = Confirmed)
    then Err DomainError.InvalidRequest else Ok tt.

Definition build_refund_legs (req : RefundRequest) : result DomainError RefundLegPlan :=
  _ ← validate_refund_shape req;
  let amt := rf_amount req in
  '(out_debit, out_credit, clearing_state) ←
    match rf_phase req, rf_two_stage req with
    | Initiated, true => Ok (debit_class (rf_pattern req), RefundClearing, CLEARING_STATE_PENDING)
    | Confirmed, true => Ok (RefundClearing, CashClearing, CLEARING_STATE_SETTLED)
    | Initiated, false => Ok (debit_class (rf_pattern req), CashClearing, CLEARING_STATE_SETTLED)
    | Confirmed, false => Err DomainError.InvalidRequest
    | (Rejected | Voided | UnknownFinal), _ => Err DomainError.InvalidRequest
    end;
  let '(debit, credit) :=
    match rf_direction req with
    | Outbound => (out_debit, out_credit)
    | Clawback => (out_credit, out_debit)
    end in
  let legs :=
    if dec_ltb ZERO (amount amt)
    then [mkRefundLeg debit Debit amt None; mkRefundLeg credit Credit amt None] else [] in
  Ok (mkRefundLegPlan legs clearing_state).

(** ** The stages of a refund *)

Definition staged (req : RefundRequest) (phase : RefundPhase) (two_stage : bool) (dir : RefundDirection) : RefundRequest :=
  mkRefundRequest (rf_tenant_id req) (rf_payer_tenant_id req) (rf_refund_id req) (rf_psp_refund_id req) phase
    (rf_pattern req) (rf_payment_id req) (rf_invoice_id req) (rf_amount req) two_stage (rf_relates_to_refund_id req) dir.

(** What a refund books to a class: debits count positive. *)
Definition refund_net (cls : AccountClass) (plan : RefundLegPlan) : Z :=
  sum_Z (fun l => if bool_decide (rl_account_class l = cls) then signed (rl_side l) (posted_units (rl_amount l)) else 0)
    (rlp_legs plan).

Definition refund_facts (payer : Uuid) (plan : RefundLegPlan) : list LineFacts :=
  (fun l => mkLineFacts (rl_side l) (rl_amount l) payer None) <$> rlp_legs plan.

Definition invoice_matches (req : RefundRequest) : Prop :=
  match rf_pattern req with
  | BRestoreAr => blank (rf_invoice_id req) = false
  | AUnallocated => rf_invoice_id req = None
  end.

(** The position a refund moves: out of the pool or the receivable into cash, and
    back for a claw-back. *)
Definition refund_moves (req : RefundRequest) (dir : RefundDirection) (cls : AccountClass) : Z :=
  let amt := posted_units (rf_amount req) in
  let out := (if bool_decide (debit_class (rf_pattern req) = cls) then amt else 0)
             - (if bool_decide (CashClearing = cls) then amt else 0) in
  match dir with Outbound => out | Clawback => - out end.

Lemma refund_shape_ok req phase two_stage dir : 0 <= posted_units (rf_amount req) -> invoice_matches req ->
  blank (rf_relates_to_refund_id req) = false -> two_stage || negb (bool_decide (phase = Confirmed)) = true ->
  validate_refund_shape (staged req phase two_stage dir) = Ok tt.
Proof.
  intros Ha Hi Hr Hp. unfold validate_refund_shape, invoice_matches in *.
  cbn [staged rf_amount rf_direction rf_relates_to_refund_id rf_pattern rf_invoice_id rf_two_stage rf_phase].
  rewrite posted_ltb_zero, (proj2 (Z.ltb_ge _ _)), Hr, andb_false_r by done.
  assert (Hlast : negb two_stage && bool_decide (phase = Confirmed) = false) by (destruct two_stage, (bool_decide _); done).
  rewrite Hlast. destruct (rf_pattern req); [by rewrite bool_decide_true|by rewrite Hi].
Qed.

Lemma refund_pair payer req d c st : posted_ok (rf_amount req) -> 0 < posted_units (rf_amount req) ->
  balanced_entry (code (currency (rf_amount req)))
    (refund_facts payer (mkRefundLegPlan [mkRefundLeg d Debit (rf_amount req) None; mkRefundLeg c Credit (rf_amount req) None] st)).
Proof.
  intros Hok Hpos. apply (plain_balanced _ payer); [done| |].
  - plain_lines.
  - unfold signed_line. cbn. rewrite !sum_Z_cons, sum_Z_nil. cbn. lia.
Qed.

(** The plan of a valid stage: two legs of the amount between the stage's accounts. *)
Lemma refund_stage req phase two_stage dir d c st : posted_ok (rf_amount req) ->
  0 <= posted_units (rf_amount req) -> invoice_matches req -> blank (rf_relates_to_refund_id req) = false ->
  (phase, two_stage, d, c, st) ∈
    [(Initiated, true, debit_class (rf_pattern req), RefundClearing, CLEARING_STATE_PENDING);
     (Confirmed, true, RefundClearing, CashClearing, CLEARING_STATE_SETTLED);
     (Initiated, false, debit_class (rf_pattern req), CashClearing, CLEARING_STATE_SETTLED)] ->
  exists plan, build_refund_legs (staged req phase two_stage dir) = Ok plan /\ rlp_clearing_state plan = st /\
    (forall cls, refund_net cls plan =
       let out := (if bool_decide (d = cls) then posted_units (rf_amount req) else 0)
                  - (if bool_decide (c = cls) then posted_units (rf_amount req) else 0) in
       match dir with Outbound => out | Clawback => - out end) /\
    forall payer, 0 < posted_units (rf_amount req) ->
      balanced_entry (code (currency (rf_amount req))) (refund_facts payer plan).
Proof.
  intros Hok Ha Hi Hr Hin. unfold build_refund_legs.
  assert (Hmatrix : match phase, two_stage with
    | Initiated, true => Ok (debit_class (rf_pattern req), RefundClearing, CLEARING_STATE_PENDING)
    | Confirmed, true => Ok (RefundClearing, CashClearing, CLEARING_STATE_SETTLED)
    | Initiated, false => Ok (debit_class (rf_pattern req), CashClearing, CLEARING_STATE_SETTLED)
    | Confirmed, false => Err DomainError.InvalidRequest
    | (Rejected | Voided | UnknownFinal), _ => Err DomainError.InvalidRequest
    end = Ok (d, c, st) /\ two_stage || negb (bool_decide (phase = Confirmed)) = true).
  { repeat (apply elem_of_cons in Hin as [[= -> -> -> -> ->]|Hin]; [by split|]). by apply not_elem_of_nil in Hin. }
  destruct Hmatrix as [Hm Hp]. rewrite refund_shape_ok by done. cbn [mbind result_bind staged rf_phase rf_two_stage rf_pattern rf_direction rf_amount].
  rewrite Hm. cbn [mbind result_bind]. rewrite posted_gtb_zero.
  destruct (Z.ltb_spec 0 (posted_units (rf_amount req))) as [Hpos|Hz].
  - destruct dir; (eexists; split; [done|]; split; [done|]; split; [|intros payer _; by apply refund_pair]);
      intros cls; unfold refund_net; cbn [rlp_legs]; rewrite !sum_Z_cons, sum_Z_nil; cbn [rl_account_class rl_side rl_amount signed];
      repeat case_bool_decide; lia.
  - destruct dir; (eexists; split; [done|]; split; [done|]; split; [|intros payer Hpos; lia]);
      intros cls; unfold refund_net; cbn [rlp_legs]; rewrite sum_Z_nil; repeat case_bool_decide; lia.
Qed.

(** The stages of a refund compose.  For any valid refund and either direction,
    the two stages and the single step are built, every entry passes the posting gate,
    and on every account class the two stages together book what the single step
    books: the cash leaves the pool or the receivable, the clearing account returns to
    zero, nothing else moves, and a claw-back books exactly the opposite. *)
Theorem refund_stages_compose req dir : posted_ok (rf_amount req) -> 0 <= posted_units (rf_amount req) ->
  invoice_matches req -> blank (rf_relates_to_refund_id req) = false ->
  exists open close direct,
    build_refund_legs (staged req Initiated true dir) = Ok open /\
    build_refund_legs (staged req Confirmed true dir) = Ok close /\
    build_refund_legs (staged req Initiated false dir) = Ok direct /\
    (rlp_clearing_state open, rlp_clearing_state close, rlp_clearing_state direct) = ("PENDING", "SETTLED", "SETTLED")%string /\
    (forall cls, refund_net cls open + refund_net cls close = refund_moves req dir cls /\
                 refund_net cls direct = refund_moves req dir cls) /\
    (forall payer, 0 < posted_units (rf_amount req) -> forall plan, plan ∈ [open; close; direct] ->
       balanced_entry (code (currency (rf_amount req))) (refund_facts payer plan)).
Proof.
  intros Hok Ha Hi Hr.
  destruct (refund_stage req Initiated true dir (debit_class (rf_pattern req)) RefundClearing CLEARING_STATE_PENDING) as (p1 & B1 & S1 & N1 & G1); [done..|set_solver|].
  destruct (refund_stage req Confirmed true dir RefundClearing CashClearing CLEARING_STATE_SETTLED) as (p2 & B2 & S2 & N2 & G2); [done..|set_solver|].
  destruct (refund_stage req Initiated false dir (debit_class (rf_pattern req)) CashClearing CLEARING_STATE_SETTLED) as (p3 & B3 & S3 & N3 & G3); [done..|set_solver|].
  exists p1, p2, p3. split_and!; [done|done|done|by rewrite S1, S2, S3| |].
  - intros cls. rewrite N1, N2, N3. unfold refund_moves. cbn zeta. destruct dir; repeat case_bool_decide; lia.
  - intros payer Hpos plan Hin. repeat (apply elem_of_cons in Hin as [->|Hin]; [by auto|]). by apply not_elem_of_nil in Hin.
Qed.
End refund.

(** ** Manual adjustments *)

Inductive ManualAdjustmentAction := RoundingCorrection | SuspenseClear.

Definition manual_action_as_str (a : ManualAdjustmentAction) : string :=
  match a with RoundingCorrection => "ROUNDING_CORRECTION" | SuspenseClear => "SUSPENSE_CLEAR" end.

Definition manual_action_parse (s : string) : option ManualAdjustmentAction :=
  if bool_decide (s = "ROUNDING_CORRECTION") then Some RoundingCorrection
  else if bool_decide (s = "SUSPENSE_CLEAR") then Some SuspenseClear
  else None.

Definition allowed_classes (a : ManualAdjustmentAction) : list AccountClass :=
  match a with
  | RoundingCorrection => [Suspense; CashClearing; Ar; Unallocated]
  | SuspenseClear => [Suspense; Ar; CashClearing; Unallocated]
  end.

Module ManualAdjustmentReject.
Inductive manual_adjustment_reject :=
| NotAllowed
| AttemptedWriteOff
| Numeric (error : DomainError).
End ManualAdjustmentReject.
Abbreviation ManualAdjustmentReject := ManualAdjustmentReject.manual_adjustment_reject.

Definition into_domain_error (self : ManualAdjustmentReject) : DomainError :=
  match self with
  | ManualAdjustmentReject.Numeric error => error
  | ManualAdjustmentReject.NotAllowed | ManualAdjustmentReject.AttemptedWriteOff =>
      DomainError.ManualAdjustmentNotAllowed
  end.

Section manual.
Context `{RustDecimal}.

Record ManualLeg := mkManualLeg {
  ml_account_class : AccountClass;
  ml_side : Side;
  ml_amount : PostedMoney;
  ml_revenue_stream : option string;
}.

Record ManualAdjustmentRequest := mkManualAdjustmentRequest {
  ma_tenant_id : Uuid;
  ma_payer_tenant_id : option Uuid;
  ma_adjustment_id : string;
  ma_action : ManualAdjustmentAction;
  ma_currency : CurrencySpec;
  ma_legs : list ManualLeg;
  ma_reason_code : string;
  ma_preparer_actor_id : Uuid;
  ma_approver_actor_id : option Uuid;
  ma_tax : list TaxBreakdown;
}.

(** The [side_total] closure. *)
Definition manual_total (req : ManualAdjustmentRequest) (sd : Side) : result ManualAdjustmentReject PostedMoney :=
  map_err ManualAdjustmentReject.Numeric (map_err map_exact_error
    (sum_posted (ml_amount <$> List.filter (fun l => bool_decide (ml_side l = sd)) (ma_legs req)) (ma_currency req))).

Definition paired (req : ManualAdjustmentRequest) (contra : ManualLeg) : bool :=
  existsb (fun l => bool_decide (ml_account_class l = Revenue) && bool_decide (ml_side l = Debit)
                    && bool_decide (ml_revenue_stream l = ml_revenue_stream contra)) (ma_legs req).

(** The class checks of [govern], past the balance. *)
Definition govern_classes (req : ManualAdjustmentRequest) : result ManualAdjustmentReject unit :=
  let has cls := existsb (fun l => bool_decide (ml_account_class l = cls)) (ma_legs req) in
  if has Revenue then Err ManualAdjustmentReject.NotAllowed
  else if has ContractLiability then Err ManualAdjustmentReject.NotAllowed
  else
    _ ← fold_res (fun _ contra => if negb (paired req contra) then Err ManualAdjustmentReject.AttemptedWriteOff
                                  else Ok tt) tt
          (List.filter (fun l => bool_decide (ml_account_class l = ContraRevenue)) (ma_legs req));
    if existsb (fun l => negb (bool_decide (ml_account_class l ∈ allowed_classes (ma_action req)))) (ma_legs req)
    then Err ManualAdjustmentReject.NotAllowed
    else Ok tt.

Definition govern (req : ManualAdjustmentRequest) : result ManualAdjustmentReject unit :=
  if trim_is_empty (ma_reason_code req) then Err ManualAdjustmentReject.NotAllowed
  else if bool_decide (ma_tax req <> []) then Err ManualAdjustmentReject.NotAllowed
  else if bool_decide (ma_legs req = []) then Err ManualAdjustmentReject.NotAllowed
  else
    _ ← fold_res (fun _ leg => map_err ManualAdjustmentReject.Numeric
                                 (matching_currency (ma_currency req) (currency (ml_amount leg)))) tt (ma_legs req);
    if existsb (fun l => dec_leb (amount (ml_amount l)) ZERO) (ma_legs req)
    then Err ManualAdjustmentReject.NotAllowed
    else
      dr ← manual_total req Debit;
      cr ← manual_total req Credit;
      if negb (posted_eqb dr cr) then Err ManualAdjustmentReject.NotAllowed
      else govern_classes req.

Definition governed_gross (req : ManualAdjustmentRequest) : result ManualAdjustmentReject PostedMoney :=
  _ ← govern req;
  manual_total req Debit.

(** ** What the governor admits *)

Definition side_units (sd : Side) (legs : list ManualLeg) : Z :=
  sum_Z (fun l => posted_units (ml_amount l)) (List.filter (fun l => bool_decide (ml_side l = sd)) legs).

Record well_shaped (req : ManualAdjustmentRequest) : Prop := {
  ws_reason : trim_is_empty (ma_reason_code req) = false;
  ws_tax : ma_tax req = [];
  ws_legs : ma_legs req <> [];
  ws_currency : Forall (fun l => ma_currency req = currency (ml_amount l)) (ma_legs req);
  ws_positive : Forall (fun l => 0 < posted_units (ml_amount l)) (ma_legs req);
  ws_balance : side_units Debit (ma_legs req) = side_units Credit (ma_legs req);
  ws_fits : fits (currency_scale (ma_currency req)) (side_units Debit (ma_legs req));
}.

Definition books (req : ManualAdjustmentRequest) (cls : AccountClass) : Prop :=
  Exists (fun l => ml_account_class l = cls) (ma_legs req).

Definition governed (req : ManualAdjustmentRequest) : Prop :=
  well_shaped req /\ Forall (fun l => ml_account_class l ∈ allowed_classes (ma_action req)) (ma_legs req).

(** A posting of contra revenue that is sound otherwise. *)
Definition write_off (req : ManualAdjustmentRequest) : Prop :=
  well_shaped req /\ ~ books req Revenue /\ ~ books req ContractLiability /\ books req ContraRevenue.

Definition manual_facts (payer : Uuid) (req : ManualAdjustmentRequest) : list LineFacts :=
  (fun l => mkLineFacts (ml_side l) (ml_amount l) payer None) <$> ma_legs req.

Lemma side_legs sd legs : exists rest, legs ≡ₚ List.filter (fun l => bool_decide (ml_side l = sd)) legs ++ rest.
Proof.
  exists (List.filter (fun l => negb (bool_decide (ml_side l = sd))) legs).
  induction legs as [|l ls IH]; [done|]. cbn [List.filter]. destruct (bool_decide _); cbn [negb app].
  - by apply perm_skip.
  - rewrite <- Permutation_middle. by apply perm_skip.
Qed.

Section governor.
Context (req : ManualAdjustmentRequest).
Hypothesis Hposted : Forall (fun l => posted_ok (ml_amount l)) (ma_legs req).
Hypothesis Hvec : vec_ok (ma_legs req).
Hypothesis Hcur : currency_ok (ma_currency req).


Lemma manual_total_ok sd p : Forall (fun l => ma_currency req = currency (ml_amount l)) (ma_legs req) ->
  manual_total req sd = Ok p <-> posted_ok p /\ currency p = ma_currency req /\ posted_units p = side_units sd (ma_legs req).
Proof.
  intros Hc. destruct (side_legs sd (ma_legs req)) as [rest Hp]. unfold manual_total, side_units. rewrite !map_err_ok.
  assert (Hlen := Permutation_length Hp). rewrite length_app in Hlen. rewrite Hp, Forall_app in Hc. destruct Hc as [Hc _].
  rewrite sum_posted_ok; [|unfold vec_ok in *; rewrite length_fmap; lia|done]. rewrite sum_Z_map, Forall_fmap.
  split; [tauto|]. intros Hrest. split; [|done]. eapply Forall_impl; [exact Hc|]. by intros l ->.
Qed.

Lemma manual_total_fits sd : Forall (fun l => ma_currency req = currency (ml_amount l)) (ma_legs req) ->
  fits (currency_scale (ma_currency req)) (side_units sd (ma_legs req)) -> exists p, manual_total req sd = Ok p.
Proof.
  intros Hc Hf. destruct (side_legs sd (ma_legs req)) as [rest Hp]. pose proof Hposted as Hok. rewrite Hp, Forall_app in Hc, Hok.
  destruct Hc as [Hc _], Hok as [Hok _]. assert (Hlen := Permutation_length Hp). rewrite length_app in Hlen.
  destruct (sum_posted_fits (ml_amount <$> List.filter (fun l => bool_decide (ml_side l = sd)) (ma_legs req)) (ma_currency req)) as [p Hs].
  - unfold vec_ok in *. rewrite length_fmap. lia.
  - done.
  - by apply Forall_fmap.
  - apply Forall_fmap. eapply Forall_impl; [exact Hc|]. by intros l ->.
  - by rewrite sum_Z_map.
  - exists p. unfold manual_total. by rewrite Hs.
Qed.

Lemma leg_currency_loop :
  fold_res (fun _ leg => map_err ManualAdjustmentReject.Numeric
    (matching_currency (ma_currency req) (currency (ml_amount leg)))) tt (ma_legs req) = Ok tt <->
  Forall (fun l => ma_currency req = currency (ml_amount l)) (ma_legs req).
Proof. apply unit_loop. intros l. rewrite map_err_ok. apply matching_currency_ok. Qed.

Lemma has_class cls : existsb (fun l => bool_decide (ml_account_class l = cls)) (ma_legs req) = true <-> books req cls.
Proof.
  unfold books. rewrite existsb_exists, Exists_exists. setoid_rewrite bool_decide_eq_true. by setoid_rewrite list_elem_of_In.
Qed.

Lemma unpaired contra : ~ books req Revenue -> paired req contra = false.
Proof.
  intros Hno. apply not_true_iff_false. unfold paired. intros (l & Hl%list_elem_of_In & Hb)%existsb_exists. apply Hno.
  rewrite !andb_true_iff, !bool_decide_eq_true in Hb. apply Exists_exists. exists l. tauto.
Qed.

Lemma positive_legs : existsb (fun l => dec_leb (amount (ml_amount l)) ZERO) (ma_legs req) = false <->
  Forall (fun l => 0 < posted_units (ml_amount l)) (ma_legs req).
Proof.
  rewrite existsb_false. apply Forall_iff. intros l. rewrite posted_leb_zero. apply Z.leb_gt.
Qed.

(** The errors of a loop of numeric checks are numeric. *)
Lemma leg_currency_loop_err e :
  fold_res (fun _ leg => map_err ManualAdjustmentReject.Numeric
    (matching_currency (ma_currency req) (currency (ml_amount leg)))) tt (ma_legs req) = Err e ->
  exists n, e = ManualAdjustmentReject.Numeric n.
Proof.
  clear Hposted Hvec. induction (ma_legs req) as [|l ls IH]; [done|]. cbn [fold_res].
  destruct (matching_currency _ _) as [[]|n]; cbn; [done|]. intros [= <-]. by exists n.
Qed.

Lemma manual_total_err sd e : manual_total req sd = Err e -> exists n, e = ManualAdjustmentReject.Numeric n.
Proof. unfold manual_total. destruct (sum_posted _ _); [done|]. intros [= <-]. by eexists. Qed.

Lemma govern_shape :
  (well_shaped req /\ govern req = govern_classes req) \/
  (~ well_shaped req /\ exists e, govern req = Err e /\ e <> ManualAdjustmentReject.AttemptedWriteOff).
Proof.
  unfold govern.
  destruct (trim_is_empty _) eqn:Hr; [right; split; [intros [? _ _ _ _ _ _]; congruence|by eexists]|].
  case_bool_decide as Ht; [right; split; [by intros [_ ? _ _ _ _ _]|by eexists]|].
  case_bool_decide as Hl; [right; split; [by intros [_ _ ? _ _ _ _]|by eexists]|].
  destruct (fold_res _ _ _) as [[]|e] eqn:E; cbn [mbind result_bind]; last first.
  { right. split; [intros [_ _ _ Hc _ _ _]; apply leg_currency_loop in Hc; congruence|]. exists e. split; [done|].
    apply leg_currency_loop_err in E as [n ->]. done. }
  apply leg_currency_loop in E. pose proof positive_legs as Hpos. destruct (existsb _ _).
  { right. split; [|by eexists]. by intros [_ _ _ _ Hp%Hpos _ _]. }
  apply proj1 in Hpos. specialize (Hpos eq_refl).
  destruct (manual_total req Debit) as [dr|e] eqn:Ed; cbn [mbind result_bind]; last first.
  { right. split; [|exists e; apply manual_total_err in Ed as [n ->]; done].
    intros [_ _ _ _ _ _ Hf]. destruct (manual_total_fits Debit E Hf). congruence. }
  destruct (manual_total req Credit) as [cr|e] eqn:Ec; cbn [mbind result_bind]; last first.
  { right. split; [|exists e; apply manual_total_err in Ec as [n ->]; done].
    intros [_ _ _ _ _ Hb Hf]. rewrite Hb in Hf. destruct (manual_total_fits Credit E Hf). congruence. }
  apply manual_total_ok in Ed as (Hd1 & Hd2 & Hd3); [|done]. apply manual_total_ok in Ec as (Hc1 & Hc2 & Hc3); [|done].
  pose proof (posted_eqb_ok dr cr Hd1 Hc1) as Heq. destruct (posted_eqb dr cr); cbn [negb].
  - left. split; [|done]. apply proj1 in Heq. specialize (Heq eq_refl). subst cr.
    split; [done|done|done|done|done|congruence|]. rewrite <- Hd3, <- Hd2. by apply posted_units_fits.
  - right. split; [|by eexists]. intros [_ _ _ _ _ Hb _]. assert (dr = cr) as Hx by (apply posted_unique; congruence). by apply Heq in Hx.
Qed.

Lemma writeoff_loop : ~ books req Revenue ->
  fold_res (fun _ contra => if negb (paired req contra) then Err ManualAdjustmentReject.AttemptedWriteOff else Ok tt) tt
    (List.filter (fun l => bool_decide (ml_account_class l = ContraRevenue)) (ma_legs req))
  = if existsb (fun l => bool_decide (ml_account_class l = ContraRevenue)) (ma_legs req)
    then Err ManualAdjustmentReject.AttemptedWriteOff else Ok tt.
Proof.
  intros Hno. assert (Hq : forall c, paired req c = false) by (intros c; by apply unpaired). clear Hposted Hvec Hno.
  revert Hq. generalize (paired req) as q. intros q Hq. induction (ma_legs req) as [|l ls IH]; [done|].
  cbn [List.filter existsb]. destruct (bool_decide _); cbn [orb fold_res]; [by rewrite Hq|done].
Qed.

Lemma govern_classes_ok :
  match govern_classes req with
  | Ok _ => Forall (fun l => ml_account_class l ∈ allowed_classes (ma_action req)) (ma_legs req)
  | Err ManualAdjustmentReject.AttemptedWriteOff => ~ books req Revenue /\ ~ books req ContractLiability /\ books req ContraRevenue
  | Err _ => ~ Forall (fun l => ml_account_class l ∈ allowed_classes (ma_action req)) (ma_legs req) /\
             ~ (~ books req Revenue /\ ~ books req ContractLiability /\ books req ContraRevenue)
  end.
Proof.
  unfold govern_classes. pose proof has_class as Hhas.
  assert (Hall : forall cls, cls ∉ allowed_classes (ma_action req) -> books req cls ->
    ~ Forall (fun l => ml_account_class l ∈ allowed_classes (ma_action req)) (ma_legs req)).
  { intros cls Hcls (l & Hl & <-)%Exists_exists Hf. rewrite Forall_forall in Hf. by apply Hcls, Hf. }
  destruct (existsb (fun l => bool_decide (ml_account_class l = Revenue)) _) eqn:E1.
  { apply Hhas in E1. split; [|tauto]. apply (Hall Revenue); [|done]. destruct (ma_action req); set_solver. }
  assert (Hrev : ~ books req Revenue) by (intros Hb%Hhas; congruence).
  destruct (existsb (fun l => bool_decide (ml_account_class l = ContractLiability)) _) eqn:E2.
  { apply Hhas in E2. split; [|tauto]. apply (Hall ContractLiability); [|done]. destruct (ma_action req); set_solver. }
  assert (Hcl : ~ books req ContractLiability) by (intros Hb%Hhas; congruence).
  rewrite writeoff_loop by done. destruct (existsb (fun l => bool_decide (ml_account_class l = ContraRevenue)) _) eqn:E3; cbn [mbind result_bind].
  { apply Hhas in E3. done. }
  assert (Hcr : ~ books req ContraRevenue) by (intros Hb%Hhas; congruence).
  destruct (existsb (fun l => negb _) _) eqn:E4.
  - split; [|tauto]. intros Hf. apply existsb_exists in E4 as (l & Hl%list_elem_of_In & Hn%negb_true_iff%bool_decide_eq_false).
    rewrite Forall_forall in Hf. by apply Hn, Hf.
  - apply existsb_false in E4. eapply Forall_impl; [exact E4|]. intros l Hl%negb_false_iff%bool_decide_eq_true. done.
Qed.

(** The net of the legs is the difference of the sides. *)
Lemma manual_net payer : sum_Z signed_line (manual_facts payer req) = side_units Debit (ma_legs req) - side_units Credit (ma_legs req).
Proof.
  clear Hposted Hvec. unfold manual_facts, side_units. rewrite sum_Z_map. induction (ma_legs req) as [|l ls IH]; [done|].
  rewrite sum_Z_cons, IH. cbn [List.filter]. unfold signed_line. cbn [fact_side fact_money].
  destruct (ml_side l); cbn [signed]; case_bool_decide; try done; case_bool_decide; try done; rewrite sum_Z_cons; lia.
Qed.

Lemma shaped_balanced payer : well_shaped req -> balanced_entry (code (ma_currency req)) (manual_facts payer req).
Proof.
  intros [_ _ Hl Hc Hp Hb _]. apply (plain_balanced _ payer); [by intros E%fmap_nil_inv| |rewrite manual_net; lia].
  apply Forall_fmap, Forall_forall. rewrite Forall_forall in Hc, Hp. pose proof Hposted as Ho. rewrite Forall_forall in Ho.
  intros l Hin. split; cbn; [by apply Ho|by rewrite <- Hc|by apply Hp|done|done].
Qed.
End governor.

(** C38: the governor is exact.  A manual adjustment is admitted exactly when it gives a
    reason, carries no tax, has positive legs of its currency that balance within the
    range of a posting, and books only classes of its action's allow-list; its gross
    is then the debit total and its entry passes the posting gate.  An attempted
    write-off is reported exactly for a balanced posting of contra revenue that books
    neither revenue nor contract liability. *)
Theorem govern_exact req : Forall (fun l => posted_ok (ml_amount l)) (ma_legs req) -> vec_ok (ma_legs req) ->
  currency_ok (ma_currency req) ->
  (govern req = Ok tt <-> governed req) /\
  (govern req = Err ManualAdjustmentReject.AttemptedWriteOff <-> write_off req) /\
  (governed req -> exists gross, governed_gross req = Ok gross /\ posted_units gross = side_units Debit (ma_legs req) /\
     forall payer, balanced_entry (code (ma_currency req)) (manual_facts payer req)).
Proof.
  intros Hp Hv Hc. unfold governed, write_off.
  assert (Hboth : (govern req = Ok tt <-> governed req) /\ (govern req = Err ManualAdjustmentReject.AttemptedWriteOff <-> write_off req)).
  { unfold governed, write_off. pose proof (govern_classes_ok req Hp Hv Hc) as Hcl.
    destruct (govern_shape req Hp Hv Hc) as [[Hs ->]|[Hs (e & -> & Hne)]].
    - assert (Hexcl : Forall (fun l => ml_account_class l ∈ allowed_classes (ma_action req)) (ma_legs req) -> ~ books req ContraRevenue).
      { intros Hf (l & Hl & Hcls)%Exists_exists. rewrite Forall_forall in Hf. specialize (Hf l Hl). rewrite Hcls in Hf.
        destruct (ma_action req); set_solver. }
      destruct (govern_classes req) as [[]|[| |n]]; split; split; try done; tauto.
    - split; split; try done; try tauto. intros [= ->]. done. }
  destruct Hboth as [Hok Hwo]. split; [done|]. split; [done|]. intros Hg. pose proof Hg as [Hs _]. apply Hok in Hg.
  unfold governed_gross. rewrite Hg. cbn [mbind result_bind].
  destruct (manual_total_fits req Hp Hv Hc Debit (ws_currency _ Hs) (ws_fits _ Hs)) as [gross Hgross]. exists gross. split; [done|].
  apply manual_total_ok in Hgross as (_ & _ & Hu); [|done|done|apply Hs]. split; [done|]. intros payer. by apply shaped_balanced.
Qed.
End manual.

(** ** Literals *)

(** The stored literals of a refund and of a manual action read back. *)
Theorem adjustment_literals :
  (forall p, refund_phase_parse (refund_phase_as_str p) = Some p) /\
  (forall d, refund_direction_parse (refund_direction_as_str d) = Some d) /\
  (forall p, refund_pattern_parse (refund_pattern_as_str p) = Some p) /\
  (forall a, manual_action_parse (manual_action_as_str a) = Some a).
Proof. split_and!; by intros []. Qed.

Section witnesses.
Import ConcreteDecimal MoneySamples.

Definition sample_refund : RefundRequest :=
  mkRefundRequest 1%N 2%N "rf-1" "psp-1" Initiated BRestoreAr "pay-1" (Some "inv-1"%string) (eur 2500) true
    (Some "rf-0"%string) Outbound.

Lemma refund_stages_compose_witness :
  exists close, build_refund_legs (staged sample_refund Confirmed true Clawback) = Ok close /\
    rlp_clearing_state close = "SETTLED"%string.
Proof.
  assert (Hpos : (0 <=? posted_units (eur 2500)) = true) by (vm_compute; reflexivity). apply Z.leb_le in Hpos.
  destruct (refund_stages_compose sample_refund Clawback (eur_ok 2500 eq_refl) Hpos eq_refl eq_refl)
    as (open & close & direct & _ & Hclose & _ & Hst & _).
  exists close. injection Hst as _ Hs _. exact (conj Hclose Hs).
Defined.

Definition sample_manual (cls : AccountClass) : ManualAdjustmentRequest :=
  mkManualAdjustmentRequest 1%N None "adj-1" SuspenseClear EUR
    [mkManualLeg Suspense Debit (eur 100) None; mkManualLeg cls Credit (eur 100) None] "stale balance" 7%N None [].

Lemma govern_exact_witness : governed (sample_manual CashClearing) /\ write_off (sample_manual ContraRevenue).
Proof.
  assert (Hp : forall cls, Forall (fun l => posted_ok (ml_amount l)) (ma_legs (sample_manual cls))).
  { intros cls. constructor; [exact (eur_ok 100 eq_refl)|]. constructor; [exact (eur_ok 100 eq_refl)|constructor]. }
  assert (Hc : currency_ok EUR) by (split; discriminate). assert (Hv : forall cls, vec_ok (ma_legs (sample_manual cls))) by (intros; ground).
  split.
  - apply (proj1 (govern_exact (sample_manual CashClearing) (Hp _) (Hv _) Hc)). vm_compute. reflexivity.
  - apply (proj1 (proj2 (govern_exact (sample_manual ContraRevenue) (Hp _) (Hv _) Hc))). vm_compute. reflexivity.
Defined.
End witnesses.
