(* ===== verification/Json.v ===== *)
(** * JSON values

    What the sources use of [serde_json]: the value type, and its serialization to
    bytes, which is the class [Json] together with the text of a date. *)

From S2P Require Import Prelude Sdk.

(** [serde_json::Value]; a number is kept by its text, an object lists its members
    in the map's order. *)
Inductive Value :=
| VNull
| VBool (b : bool)
| VNumber (text : string)
| VString (s : string)
| VArray (items : list Value)
| VObject (members : list (string * Value)).

Class Json := {
  to_vec : Value -> list Ascii.ascii;
  date_to_string : NaiveDate -> string;
}.

Definition member_cmp {A} (x y : string * A) : comparison := String.compare (fst x) (fst y).
