(* ===== verification/Intent.v ===== *)
(** * Captured mutations: [ledger/src/domain/approval/intent.rs]

    A governed mutation over the threshold is not executed but captured as an intent,
    which an approver later replays.  The intents mirror the requests of the mutation
    surfaces with every enum as its stored literal.  An intent is a type of its money:
    [PostedMoney] in the domain, stored money in the database; the class [Traversal]
    gives the operations that go from one to the other.

    Shown: a replayed request is the captured one, the governed amount covers every
    part, a business key identifies the grain of its kind, and a resubmission can edit
    nothing but the amount. *)

From Stdlib Require Import Ascii.
From S2P Require Import Prelude BTree Decimal Money Exact ExactGrid Sdk DomainErrors MoneyText DualControl Recognition Notes Invoice Adjustment.

(** ** Types over their money *)

(** What a type with money inside offers: mapping ([From]), mapping with failure in
    the order of the fields ([TryFrom]), and the money it holds. *)
Class Traversal (X : Type -> Type) := {
  tmap {M N} : (M -> N) -> X M -> X N;
  ttry {E M N} : (M -> result E N) -> X M -> result E (X N);
  tmoneys {M} : X M -> list M;
  ttry_tmap {E M N} (f : N -> result E M) (g : M -> N) (x : X M) :
    (forall m, m ∈ tmoneys x -> f (g m) = Ok m) -> ttry f (tmap g x) = Ok x;
  tshape {M} (x y : X M) :
    tmap (fun _ => tt) x = tmap (fun _ => tt) y -> tmoneys x = tmoneys y -> x = y;
  tlength {M} (x y : X M) :
    tmap (fun _ => tt) x = tmap (fun _ => tt) y -> length (tmoneys x) = length (tmoneys y);
}.

(** Lists of such types. *)
Section list_traversal.
Context {X : Type -> Type} `{!Traversal X}.

Definition tmap_list {M N} (f : M -> N) (l : list (X M)) : list (X N) := fmap (M := list) (tmap f) l.
Definition ttry_list {E M N} (f : M -> result E N) (l : list (X M)) : result E (list (X N)) := map_res (ttry f) l.
Definition tmoneys_list {M} (l : list (X M)) : list M := mbind (M := list) tmoneys l.

Lemma list_roundtrip {E M N} (f : N -> result E M) (g : M -> N) (l : list (X M)) :
  (forall m, m ∈ tmoneys_list l -> f (g m) = Ok m) -> ttry_list f (tmap_list g l) = Ok l.
Proof.
  unfold ttry_list, tmap_list, tmoneys_list. induction l as [|x l IH]; intros Hm; [done|]. cbn in *.
  rewrite ttry_tmap by set_solver. cbn. rewrite IH by set_solver. done.
Qed.

Lemma list_length {M} (l k : list (X M)) :
  tmap_list (fun _ => tt) l = tmap_list (fun _ => tt) k -> length (tmoneys_list l) = length (tmoneys_list k).
Proof.
  unfold tmap_list, tmoneys_list. revert k. induction l as [|x l IH]; intros [|y k]; try done. cbn. intros [= Hx Hl].
  rewrite !length_app. rewrite (tlength x y Hx), (IH k Hl). done.
Qed.

Lemma list_shape {M} (l k : list (X M)) :
  tmap_list (fun _ => tt) l = tmap_list (fun _ => tt) k -> tmoneys_list l = tmoneys_list k -> l = k.
Proof.
  unfold tmap_list, tmoneys_list. revert k. induction l as [|x l IH]; intros [|y k]; try done. cbn. intros [= Hx Hl] Hm.
  apply app_inj_1 in Hm as [Hm1 Hm2]; [|by apply tlength]. f_equal; [by apply tshape|by apply IH].
Qed.
End list_traversal.

(** [Option::transpose]. *)
Definition transpose {E A} (o : option (result E A)) : result E (option A) :=
  match o with Some r => a ← r; Ok (Some a) | None => Ok None end.

Create HintDb traversal.

(** The laws of a record follow from those of its fields; the operations of the record
    are unfolded, those of its fields are not. *)
Ltac open_record := autounfold with traversal in *; cbn -[tmap ttry tmoneys tmap_list ttry_list tmoneys_list] in *.
Ltac solve_roundtrip :=
  intros E M N f g []; open_record; intros Hm;
  repeat first
    [ rewrite Hm by set_solver
    | rewrite ttry_tmap by set_solver
    | rewrite list_roundtrip by set_solver
    | progress cbn -[tmap ttry tmoneys tmap_list ttry_list tmoneys_list] ];
  reflexivity.
Ltac split_moneys :=
  repeat match goal with
  | H : _ ++ _ = _ ++ _ |- _ =>
      apply app_inj_1 in H as [??]; [|first [by apply tlength|by apply list_length]]
  | H : _ :: _ = _ :: _ |- _ => injection H; clear H; intros; subst
  end.
Ltac solve_shape :=
  intros M [] []; open_record; intros [=] ?; subst; split_moneys; f_equal;
  first [done|by apply tshape|by apply list_shape].
Ltac solve_length :=
  intros M [] []; open_record; intros [=]; subst; rewrite ?length_app; cbn -[tmap ttry tmoneys tmap_list ttry_list tmoneys_list];
  repeat match goal with
  | H : tmap _ ?x = tmap _ ?y |- _ => apply tlength in H
  | H : tmap_list _ ?x = tmap_list _ ?y |- _ => apply list_length in H
  end; rewrite ?length_app; cbn -[tmap ttry tmoneys tmap_list ttry_list tmoneys_list]; lia.

(** ** The intents *)

Record PeriodReopenIntent := mkPeriodReopenIntent {
  pri_tenant_id : Uuid;
  pri_legal_entity_id : Uuid;
  pri_period_id : string;
}.

Record ReverseIntent := mkReverseIntent {
  rvi_entry_id : Uuid;
  rvi_into_period_id : option string;
  rvi_effective_at : option NaiveDate;
  rvi_reason : string;
}.

Record PayerClosureIntent := mkPayerClosureIntent {
  pci_tenant_id : Uuid;
  pci_payer_tenant_id : Uuid;
  pci_closed_with_open_balance : bool;
  pci_disposition : option string;
}.

Module DebitNoteTimingSnapshot.
Inductive timing :=
| PointInTime
| StraightLine (periods : Z) (first_period_id : option string).
End DebitNoteTimingSnapshot.
Abbreviation DebitNoteTimingSnapshot := DebitNoteTimingSnapshot.timing.

Record DebitNoteRecognitionSnapshot := mkDebitNoteRecognitionSnapshot {
  drs_policy_ref : string;
  drs_timing : DebitNoteTimingSnapshot;
  drs_po_allocation_group : option string;
  drs_multi_po : bool;
  drs_ssp_snapshot_ref : option string;
  drs_subscription_ref : option string;
  drs_vc_estimate_ref : option string;
  drs_vc_method_ref : option string;
  drs_immaterial_one_shot_sku : bool;
}.

#[global] Instance period_reopen_intent_eq_dec : EqDecision PeriodReopenIntent.
Proof. solve_decision. Defined.
#[global] Instance reverse_intent_eq_dec : EqDecision ReverseIntent.
Proof. solve_decision. Defined.
#[global] Instance payer_closure_intent_eq_dec : EqDecision PayerClosureIntent.
Proof. solve_decision. Defined.
#[global] Instance timing_snapshot_eq_dec : EqDecision DebitNoteTimingSnapshot.
Proof. solve_decision. Defined.
#[global] Instance recognition_snapshot_eq_dec : EqDecision DebitNoteRecognitionSnapshot.
Proof. solve_decision. Defined.

Section intents.
Context (M : Type).

Record CreditGrantIntent := mkCreditGrantIntent {
  cgi_tenant_id : Uuid;
  cgi_payer_tenant_id : Uuid;
  cgi_credit_application_id : string;
  cgi_amount : M;
  cgi_credit_grant_event_type : option string;
}.

Record ChargebackLossIntent := mkChargebackLossIntent {
  cli_tenant_id : Uuid;
  cli_payer_tenant_id : Uuid;
  cli_payment_id : string;
  cli_dispute_id : string;
  cli_invoice_id : option string;
  cli_cycle : Z;
  cli_funds_at_open : string;
  cli_disputed_amount : M;
}.

Record RecognitionChangeSegment := mkRecognitionChangeSegment {
  rcs_period_id : string;
  rcs_amount : M;
}.

Record RecognitionScheduleChangeIntent := mkRecognitionScheduleChangeIntent {
  rsi_tenant_id : Uuid;
  rsi_schedule_id : string;
  rsi_change_id : string;
  rsi_action : string;
  rsi_treatment : string;
  rsi_new_segments : option (list RecognitionChangeSegment);
}.

Record RefundIntent := mkRefundIntent {
  rfi_tenant_id : Uuid;
  rfi_payer_tenant_id : Uuid;
  rfi_refund_id : string;
  rfi_psp_refund_id : string;
  rfi_phase : string;
  rfi_pattern : string;
  rfi_payment_id : string;
  rfi_invoice_id : option string;
  rfi_amount : M;
  rfi_two_stage : bool;
  rfi_relates_to_refund_id : option string;
  rfi_direction : string;
}.

Record ManualLegIntent := mkManualLegIntent {
  mli_account_class : string;
  mli_side : string;
  mli_amount : M;
  mli_revenue_stream : option string;
}.

Record BackdatedTaxBreakdown := mkBackdatedTaxBreakdown {
  btb_amount : M;
  btb_tax_jurisdiction : string;
  btb_tax_filing_period : string;
  btb_tax_rate_ref : option string;
}.

Record CreditNoteIntent := mkCreditNoteIntent {
  cni_tenant_id : Uuid;
  cni_payer_tenant_id : Uuid;
  cni_credit_note_id : string;
  cni_origin_invoice_id : string;
  cni_origin_invoice_item_ref : option string;
  cni_po_allocation_group : option string;
  cni_revenue_stream : string;
  cni_amount : M;
  cni_tax_amount : M;
  cni_tax : list BackdatedTaxBreakdown;
  cni_requested_deferred : M;
  cni_reason_code : string;
  cni_goodwill : bool;
}.

Record DebitNoteIntent := mkDebitNoteIntent {
  dni_tenant_id : Uuid;
  dni_payer_tenant_id : Uuid;
  dni_debit_note_id : string;
  dni_origin_invoice_id : string;
  dni_origin_invoice_item_ref : option string;
  dni_revenue_stream : string;
  dni_amount : M;
  dni_tax_amount : M;
  dni_tax : list BackdatedTaxBreakdown;
  dni_deferred : M;
  dni_reason_code : string;
  dni_recognition : option DebitNoteRecognitionSnapshot;
}.

Record RefundWithCreditNoteIntent := mkRefundWithCreditNoteIntent {
  rci_refund : RefundIntent;
  rci_credit_note : CreditNoteIntent;
}.

Record BackdatedInvoiceItem := mkBackdatedInvoiceItem {
  bii_amount_ex_tax : M;
  bii_deferred : M;
  bii_recognition : option DebitNoteRecognitionSnapshot;
  bii_revenue_stream : string;
  bii_catalog_class : option string;
  bii_contract_class : option string;
  bii_gl_code : option string;
  bii_invoice_item_ref : option string;
  bii_sku_or_plan_ref : option string;
  bii_price_id : option string;
  bii_pricing_snapshot_ref : option string;
}.

Record BackdatedInvoiceSnapshot := mkBackdatedInvoiceSnapshot {
  bis_invoice_id : string;
  bis_payer_tenant_id : Uuid;
  bis_resource_tenant_id : option Uuid;
  bis_seller_tenant_id : Uuid;
  bis_effective_at : NaiveDate;
  bis_due_date : option NaiveDate;
  bis_period_id : string;
  bis_items : list BackdatedInvoiceItem;
  bis_tax : list BackdatedTaxBreakdown;
  bis_posted_by_actor_id : Uuid;
  bis_correlation_id : Uuid;
}.

Inductive BackdatedPost := BackdatedInvoice (s : BackdatedInvoiceSnapshot).
End intents.

Arguments mkCreditGrantIntent {M}.
Arguments cgi_tenant_id {M}.
Arguments cgi_payer_tenant_id {M}.
Arguments cgi_credit_application_id {M}.
Arguments cgi_amount {M}.
Arguments cgi_credit_grant_event_type {M}.
Arguments mkChargebackLossIntent {M}.
Arguments cli_tenant_id {M}.
Arguments cli_payer_tenant_id {M}.
Arguments cli_payment_id {M}.
Arguments cli_dispute_id {M}.
Arguments cli_invoice_id {M}.
Arguments cli_cycle {M}.
Arguments cli_funds_at_open {M}.
Arguments cli_disputed_amount {M}.
Arguments mkRecognitionChangeSegment {M}.
Arguments rcs_period_id {M}.
Arguments rcs_amount {M}.
Arguments mkRecognitionScheduleChangeIntent {M}.
Arguments rsi_tenant_id {M}.
Arguments rsi_schedule_id {M}.
Arguments rsi_change_id {M}.
Arguments rsi_action {M}.
Arguments rsi_treatment {M}.
Arguments rsi_new_segments {M}.
Arguments mkRefundIntent {M}.
Arguments rfi_tenant_id {M}.
Arguments rfi_payer_tenant_id {M}.
Arguments rfi_refund_id {M}.
Arguments rfi_psp_refund_id {M}.
Arguments rfi_phase {M}.
Arguments rfi_pattern {M}.
Arguments rfi_payment_id {M}.
Arguments rfi_invoice_id {M}.
Arguments rfi_amount {M}.
Arguments rfi_two_stage {M}.
Arguments rfi_relates_to_refund_id {M}.
Arguments rfi_direction {M}.
Arguments mkManualLegIntent {M}.
Arguments mli_account_class {M}.
Arguments mli_side {M}.
Arguments mli_amount {M}.
Arguments mli_revenue_stream {M}.
Arguments mkBackdatedTaxBreakdown {M}.
Arguments btb_amount {M}.
Arguments btb_tax_jurisdiction {M}.
Arguments btb_tax_filing_period {M}.
Arguments btb_tax_rate_ref {M}.
Arguments mkCreditNoteIntent {M}.
Arguments cni_tenant_id {M}.
Arguments cni_payer_tenant_id {M}.
Arguments cni_credit_note_id {M}.
Arguments cni_origin_invoice_id {M}.
Arguments cni_origin_invoice_item_ref {M}.
Arguments cni_po_allocation_group {M}.
Arguments cni_revenue_stream {M}.
Arguments cni_amount {M}.
Arguments cni_tax_amount {M}.
Arguments cni_tax {M}.
Arguments cni_requested_deferred {M}.
Arguments cni_reason_code {M}.
Arguments cni_goodwill {M}.
Arguments mkDebitNoteIntent {M}.
Arguments dni_tenant_id {M}.
Arguments dni_payer_tenant_id {M}.
Arguments dni_debit_note_id {M}.
Arguments dni_origin_invoice_id {M}.
Arguments dni_origin_invoice_item_ref {M}.
Arguments dni_revenue_stream {M}.
Arguments dni_amount {M}.
Arguments dni_tax_amount {M}.
Arguments dni_tax {M}.
Arguments dni_deferred {M}.
Arguments dni_reason_code {M}.
Arguments dni_recognition {M}.
Arguments mkRefundWithCreditNoteIntent {M}.
Arguments rci_refund {M}.
Arguments rci_credit_note {M}.
Arguments mkBackdatedInvoiceItem {M}.
Arguments bii_amount_ex_tax {M}.
Arguments bii_deferred {M}.
Arguments bii_recognition {M}.
Arguments bii_revenue_stream {M}.
Arguments bii_catalog_class {M}.
Arguments bii_contract_class {M}.
Arguments bii_gl_code {M}.
Arguments bii_invoice_item_ref {M}.
Arguments bii_sku_or_plan_ref {M}.
Arguments bii_price_id {M}.
Arguments bii_pricing_snapshot_ref {M}.
Arguments mkBackdatedInvoiceSnapshot {M}.
Arguments bis_invoice_id {M}.
Arguments bis_payer_tenant_id {M}.
Arguments bis_resource_tenant_id {M}.
Arguments bis_seller_tenant_id {M}.
Arguments bis_effective_at {M}.
Arguments bis_due_date {M}.
Arguments bis_period_id {M}.
Arguments bis_items {M}.
Arguments bis_tax {M}.
Arguments bis_posted_by_actor_id {M}.
Arguments bis_correlation_id {M}.
Arguments BackdatedInvoice {M}.

#[global] Instance credit_grant_intent_eq_dec M `{!EqDecision M} : EqDecision (CreditGrantIntent M).
Proof. solve_decision. Defined.
#[global] Instance chargeback_loss_intent_eq_dec M `{!EqDecision M} : EqDecision (ChargebackLossIntent M).
Proof. solve_decision. Defined.
#[global] Instance recognition_change_segment_eq_dec M `{!EqDecision M} : EqDecision (RecognitionChangeSegment M).
Proof. solve_decision. Defined.
#[global] Instance recognition_schedule_change_intent_eq_dec M `{!EqDecision M} : EqDecision (RecognitionScheduleChangeIntent M).
Proof. solve_decision. Defined.
#[global] Instance refund_intent_eq_dec M `{!EqDecision M} : EqDecision (RefundIntent M).
Proof. solve_decision. Defined.
#[global] Instance manual_leg_intent_eq_dec M `{!EqDecision M} : EqDecision (ManualLegIntent M).
Proof. solve_decision. Defined.
#[global] Instance backdated_tax_breakdown_eq_dec M `{!EqDecision M} : EqDecision (BackdatedTaxBreakdown M).
Proof. solve_decision. Defined.
#[global] Instance credit_note_intent_eq_dec M `{!EqDecision M} : EqDecision (CreditNoteIntent M).
Proof. solve_decision. Defined.
#[global] Instance debit_note_intent_eq_dec M `{!EqDecision M} : EqDecision (DebitNoteIntent M).
Proof. solve_decision. Defined.
#[global] Instance refund_with_credit_note_intent_eq_dec M `{!EqDecision M} : EqDecision (RefundWithCreditNoteIntent M).
Proof. solve_decision. Defined.
#[global] Instance backdated_invoice_item_eq_dec M `{!EqDecision M} : EqDecision (BackdatedInvoiceItem M).
Proof. solve_decision. Defined.
#[global] Instance backdated_invoice_snapshot_eq_dec M `{!EqDecision M} : EqDecision (BackdatedInvoiceSnapshot M).
Proof. solve_decision. Defined.
#[global] Instance backdated_post_eq_dec M `{!EqDecision M} : EqDecision (BackdatedPost M).
Proof. solve_decision. Defined.

(** ** Stored and posted money: [From] and [TryFrom] of [infra/approval/stored_intent.rs] *)

Definition credit_grant_from {M N} (f : M -> N) (v : CreditGrantIntent M) : CreditGrantIntent N :=
  mkCreditGrantIntent (cgi_tenant_id v) (cgi_payer_tenant_id v) (cgi_credit_application_id v)
    (f (cgi_amount v)) (cgi_credit_grant_event_type v).
Definition credit_grant_try_from {E M N} (f : M -> result E N) (v : CreditGrantIntent M) : result E (CreditGrantIntent N) :=
  amount ← f (cgi_amount v);
  Ok (mkCreditGrantIntent (cgi_tenant_id v) (cgi_payer_tenant_id v) (cgi_credit_application_id v) amount
    (cgi_credit_grant_event_type v)).
Definition credit_grant_moneys {M} (v : CreditGrantIntent M) : list M :=
  [cgi_amount v].
#[export] Hint Unfold credit_grant_from credit_grant_try_from credit_grant_moneys : traversal.
#[global] Program Instance credit_grant_traversal : Traversal CreditGrantIntent :=
  {| tmap M N := credit_grant_from; ttry E M N := credit_grant_try_from; tmoneys M := credit_grant_moneys |}.
Next Obligation. solve_roundtrip. Qed.
Next Obligation. solve_shape. Qed.
Next Obligation. solve_length. Qed.

Definition chargeback_loss_from {M N} (f : M -> N) (v : ChargebackLossIntent M) : ChargebackLossIntent N :=
  mkChargebackLossIntent (cli_tenant_id v) (cli_payer_tenant_id v) (cli_payment_id v) (cli_dispute_id v)
    (cli_invoice_id v) (cli_cycle v) (cli_funds_at_open v) (f (cli_disputed_amount v)).
Definition chargeback_loss_try_from {E M N} (f : M -> result E N) (v : ChargebackLossIntent M) : result E (ChargebackLossIntent N) :=
  disputed_amount ← f (cli_disputed_amount v);
  Ok (mkChargebackLossIntent (cli_tenant_id v) (cli_payer_tenant_id v) (cli_payment_id v) (cli_dispute_id v)
    (cli_invoice_id v) (cli_cycle v) (cli_funds_at_open v) disputed_amount).
Definition chargeback_loss_moneys {M} (v : ChargebackLossIntent M) : list M :=
  [cli_disputed_amount v].
#[export] Hint Unfold chargeback_loss_from chargeback_loss_try_from chargeback_loss_moneys : traversal.
#[global] Program Instance chargeback_loss_traversal : Traversal ChargebackLossIntent :=
  {| tmap M N := chargeback_loss_from; ttry E M N := chargeback_loss_try_from; tmoneys M := chargeback_loss_moneys |}.
Next Obligation. solve_roundtrip. Qed.
Next Obligation. solve_shape. Qed.
Next Obligation. solve_length. Qed.

Definition change_segment_from {M N} (f : M -> N) (v : RecognitionChangeSegment M) : RecognitionChangeSegment N :=
  mkRecognitionChangeSegment (rcs_period_id v) (f (rcs_amount v)).
Definition change_segment_try_from {E M N} (f : M -> result E N) (v : RecognitionChangeSegment M) : result E (RecognitionChangeSegment N) :=
  amount ← f (rcs_amount v);
  Ok (mkRecognitionChangeSegment (rcs_period_id v) amount).
Definition change_segment_moneys {M} (v : RecognitionChangeSegment M) : list M :=
  [rcs_amount v].
#[export] Hint Unfold change_segment_from change_segment_try_from change_segment_moneys : traversal.
#[global] Program Instance change_segment_traversal : Traversal RecognitionChangeSegment :=
  {| tmap M N := change_segment_from; ttry E M N := change_segment_try_from; tmoneys M := change_segment_moneys |}.
Next Obligation. solve_roundtrip. Qed.
Next Obligation. solve_shape. Qed.
Next Obligation. solve_length. Qed.

Definition refund_intent_from {M N} (f : M -> N) (v : RefundIntent M) : RefundIntent N :=
  mkRefundIntent (rfi_tenant_id v) (rfi_payer_tenant_id v) (rfi_refund_id v) (rfi_psp_refund_id v)
    (rfi_phase v) (rfi_pattern v) (rfi_payment_id v) (rfi_invoice_id v) (f (rfi_amount v)) (rfi_two_stage v)
    (rfi_relates_to_refund_id v) (rfi_direction v).
Definition refund_intent_try_from {E M N} (f : M -> result E N) (v : RefundIntent M) : result E (RefundIntent N) :=
  amount ← f (rfi_amount v);
  Ok (mkRefundIntent (rfi_tenant_id v) (rfi_payer_tenant_id v) (rfi_refund_id v) (rfi_psp_refund_id v)
    (rfi_phase v) (rfi_pattern v) (rfi_payment_id v) (rfi_invoice_id v) amount (rfi_two_stage v)
    (rfi_relates_to_refund_id v) (rfi_direction v)).
Definition refund_intent_moneys {M} (v : RefundIntent M) : list M :=
  [rfi_amount v].
#[export] Hint Unfold refund_intent_from refund_intent_try_from refund_intent_moneys : traversal.
#[global] Program Instance refund_intent_traversal : Traversal RefundIntent :=
  {| tmap M N := refund_intent_from; ttry E M N := refund_intent_try_from; tmoneys M := refund_intent_moneys |}.
Next Obligation. solve_roundtrip. Qed.
Next Obligation. solve_shape. Qed.
Next Obligation. solve_length. Qed.

Definition manual_leg_from {M N} (f : M -> N) (v : ManualLegIntent M) : ManualLegIntent N :=
  mkManualLegIntent (mli_account_class v) (mli_side v) (f (mli_amount v)) (mli_revenue_stream v).
Definition manual_leg_try_from {E M N} (f : M -> result E N) (v : ManualLegIntent M) : result E (ManualLegIntent N) :=
  amount ← f (mli_amount v);
  Ok (mkManualLegIntent (mli_account_class v) (mli_side v) amount (mli_revenue_stream v)).
Definition manual_leg_moneys {M} (v : ManualLegIntent M) : list M :=
  [mli_amount v].
#[export] Hint Unfold manual_leg_from manual_leg_try_from manual_leg_moneys : traversal.
#[global] Program Instance manual_leg_traversal : Traversal ManualLegIntent :=
  {| tmap M N := manual_leg_from; ttry E M N := manual_leg_try_from; tmoneys M := manual_leg_moneys |}.
Next Obligation. solve_roundtrip. Qed.
Next Obligation. solve_shape. Qed.
Next Obligation. solve_length. Qed.

Definition tax_breakdown_from {M N} (f : M -> N) (v : BackdatedTaxBreakdown M) : BackdatedTaxBreakdown N :=
  mkBackdatedTaxBreakdown (f (btb_amount v)) (btb_tax_jurisdiction v) (btb_tax_filing_period v)
    (btb_tax_rate_ref v).
Definition tax_breakdown_try_from {E M N} (f : M -> result E N) (v : BackdatedTaxBreakdown M) : result E (BackdatedTaxBreakdown N) :=
  amount ← f (btb_amount v);
  Ok (mkBackdatedTaxBreakdown amount (btb_tax_jurisdiction v) (btb_tax_filing_period v) (btb_tax_rate_ref v)).
Definition tax_breakdown_moneys {M} (v : BackdatedTaxBreakdown M) : list M :=
  [btb_amount v].
#[export] Hint Unfold tax_breakdown_from tax_breakdown_try_from tax_breakdown_moneys : traversal.
#[global] Program Instance tax_breakdown_traversal : Traversal BackdatedTaxBreakdown :=
  {| tmap M N := tax_breakdown_from; ttry E M N := tax_breakdown_try_from; tmoneys M := tax_breakdown_moneys |}.
Next Obligation. solve_roundtrip. Qed.
Next Obligation. solve_shape. Qed.
Next Obligation. solve_length. Qed.

Definition credit_note_intent_from {M N} (f : M -> N) (v : CreditNoteIntent M) : CreditNoteIntent N :=
  mkCreditNoteIntent (cni_tenant_id v) (cni_payer_tenant_id v) (cni_credit_note_id v)
    (cni_origin_invoice_id v) (cni_origin_invoice_item_ref v) (cni_po_allocation_group v)
    (cni_revenue_stream v) (f (cni_amount v)) (f (cni_tax_amount v)) (tmap_list f (cni_tax v))
    (f (cni_requested_deferred v)) (cni_reason_code v) (cni_goodwill v).
Definition credit_note_intent_try_from {E M N} (f : M -> result E N) (v : CreditNoteIntent M) : result E (CreditNoteIntent N) :=
  amount ← f (cni_amount v);
  tax_amount ← f (cni_tax_amount v);
  tax ← ttry_list f (cni_tax v);
  requested_deferred ← f (cni_requested_deferred v);
  Ok (mkCreditNoteIntent (cni_tenant_id v) (cni_payer_tenant_id v) (cni_credit_note_id v)
    (cni_origin_invoice_id v) (cni_origin_invoice_item_ref v) (cni_po_allocation_group v)
    (cni_revenue_stream v) amount tax_amount tax requested_deferred (cni_reason_code v) (cni_goodwill v)).
Definition credit_note_intent_moneys {M} (v : CreditNoteIntent M) : list M :=
  cni_amount v :: cni_tax_amount v :: tmoneys_list (cni_tax v) ++ [cni_requested_deferred v].
#[export] Hint Unfold credit_note_intent_from credit_note_intent_try_from credit_note_intent_moneys : traversal.
#[global] Program Instance credit_note_intent_traversal : Traversal CreditNoteIntent :=
  {| tmap M N := credit_note_intent_from; ttry E M N := credit_note_intent_try_from; tmoneys M := credit_note_intent_moneys |}.
Next Obligation. solve_roundtrip. Qed.
Next Obligation. solve_shape. Qed.
Next Obligation. solve_length. Qed.

Definition debit_note_intent_from {M N} (f : M -> N) (v : DebitNoteIntent M) : DebitNoteIntent N :=
  mkDebitNoteIntent (dni_tenant_id v) (dni_payer_tenant_id v) (dni_debit_note_id v)
    (dni_origin_invoice_id v) (dni_origin_invoice_item_ref v) (dni_revenue_stream v) (f (dni_amount v))
    (f (dni_tax_amount v)) (tmap_list f (dni_tax v)) (f (dni_deferred v)) (dni_reason_code v)
    (dni_recognition v).
Definition debit_note_intent_try_from {E M N} (f : M -> result E N) (v : DebitNoteIntent M) : result E (DebitNoteIntent N) :=
  amount ← f (dni_amount v);
  tax_amount ← f (dni_tax_amount v);
  tax ← ttry_list f (dni_tax v);
  deferred ← f (dni_deferred v);
  Ok (mkDebitNoteIntent (dni_tenant_id v) (dni_payer_tenant_id v) (dni_debit_note_id v)
    (dni_origin_invoice_id v) (dni_origin_invoice_item_ref v) (dni_revenue_stream v) amount tax_amount tax
    deferred (dni_reason_code v) (dni_recognition v)).
Definition debit_note_intent_moneys {M} (v : DebitNoteIntent M) : list M :=
  dni_amount v :: dni_tax_amount v :: tmoneys_list (dni_tax v) ++ [dni_deferred v].
#[export] Hint Unfold debit_note_intent_from debit_note_intent_try_from debit_note_intent_moneys : traversal.
#[global] Program Instance debit_note_intent_traversal : Traversal DebitNoteIntent :=
  {| tmap M N := debit_note_intent_from; ttry E M N := debit_note_intent_try_from; tmoneys M := debit_note_intent_moneys |}.
Next Obligation. solve_roundtrip. Qed.
Next Obligation. solve_shape. Qed.
Next Obligation. solve_length. Qed.

Definition refund_with_note_from {M N} (f : M -> N) (v : RefundWithCreditNoteIntent M) : RefundWithCreditNoteIntent N :=
  mkRefundWithCreditNoteIntent (tmap f (rci_refund v)) (tmap f (rci_credit_note v)).
Definition refund_with_note_try_from {E M N} (f : M -> result E N) (v : RefundWithCreditNoteIntent M) : result E (RefundWithCreditNoteIntent N) :=
  refund ← ttry f (rci_refund v);
  credit_note ← ttry f (rci_credit_note v);
  Ok (mkRefundWithCreditNoteIntent refund credit_note).
Definition refund_with_note_moneys {M} (v : RefundWithCreditNoteIntent M) : list M :=
  tmoneys (rci_refund v) ++ tmoneys (rci_credit_note v).
#[export] Hint Unfold refund_with_note_from refund_with_note_try_from refund_with_note_moneys : traversal.
#[global] Program Instance refund_with_note_traversal : Traversal RefundWithCreditNoteIntent :=
  {| tmap M N := refund_with_note_from; ttry E M N := refund_with_note_try_from; tmoneys M := refund_with_note_moneys |}.
Next Obligation. solve_roundtrip. Qed.
Next Obligation.
  intros M [r c] [r' c'] Hs Hm. pose proof (f_equal rci_refund Hs). pose proof (f_equal rci_credit_note Hs).
  open_record. split_moneys. f_equal; by apply tshape.
Qed.
Next Obligation.
  intros M [r c] [r' c'] Hs. pose proof (f_equal rci_refund Hs) as Hr. pose proof (f_equal rci_credit_note Hs) as Hc.
  open_record. apply tlength in Hr, Hc. rewrite !length_app. lia.
Qed.

Definition invoice_item_from {M N} (f : M -> N) (v : BackdatedInvoiceItem M) : BackdatedInvoiceItem N :=
  mkBackdatedInvoiceItem (f (bii_amount_ex_tax v)) (f (bii_deferred v)) (bii_recognition v)
    (bii_revenue_stream v) (bii_catalog_class v) (bii_contract_class v) (bii_gl_code v)
    (bii_invoice_item_ref v) (bii_sku_or_plan_ref v) (bii_price_id v) (bii_pricing_snapshot_ref v).
Definition invoice_item_try_from {E M N} (f : M -> result E N) (v : BackdatedInvoiceItem M) : result E (BackdatedInvoiceItem N) :=
  amount_ex_tax ← f (bii_amount_ex_tax v);
  deferred ← f (bii_deferred v);
  Ok (mkBackdatedInvoiceItem amount_ex_tax deferred (bii_recognition v) (bii_revenue_stream v)
    (bii_catalog_class v) (bii_contract_class v) (bii_gl_code v) (bii_invoice_item_ref v)
    (bii_sku_or_plan_ref v) (bii_price_id v) (bii_pricing_snapshot_ref v)).
Definition invoice_item_moneys {M} (v : BackdatedInvoiceItem M) : list M :=
  bii_amount_ex_tax v :: [bii_deferred v].
#[export] Hint Unfold invoice_item_from invoice_item_try_from invoice_item_moneys : traversal.
#[global] Program Instance invoice_item_traversal : Traversal BackdatedInvoiceItem :=
  {| tmap M N := invoice_item_from; ttry E M N := invoice_item_try_from; tmoneys M := invoice_item_moneys |}.
Next Obligation. solve_roundtrip. Qed.
Next Obligation. solve_shape. Qed.
Next Obligation. solve_length. Qed.

Definition invoice_snapshot_from {M N} (f : M -> N) (v : BackdatedInvoiceSnapshot M) : BackdatedInvoiceSnapshot N :=
  mkBackdatedInvoiceSnapshot (bis_invoice_id v) (bis_payer_tenant_id v) (bis_resource_tenant_id v)
    (bis_seller_tenant_id v) (bis_effective_at v) (bis_due_date v) (bis_period_id v)
    (tmap_list f (bis_items v)) (tmap_list f (bis_tax v)) (bis_posted_by_actor_id v) (bis_correlation_id v).
Definition invoice_snapshot_try_from {E M N} (f : M -> result E N) (v : BackdatedInvoiceSnapshot M) : result E (BackdatedInvoiceSnapshot N) :=
  items ← ttry_list f (bis_items v);
  tax ← ttry_list f (bis_tax v);
  Ok (mkBackdatedInvoiceSnapshot (bis_invoice_id v) (bis_payer_tenant_id v) (bis_resource_tenant_id v)
    (bis_seller_tenant_id v) (bis_effective_at v) (bis_due_date v) (bis_period_id v) items tax
    (bis_posted_by_actor_id v) (bis_correlation_id v)).
Definition invoice_snapshot_moneys {M} (v : BackdatedInvoiceSnapshot M) : list M :=
  tmoneys_list (bis_items v) ++ tmoneys_list (bis_tax v).
#[export] Hint Unfold invoice_snapshot_from invoice_snapshot_try_from invoice_snapshot_moneys : traversal.
#[global] Program Instance invoice_snapshot_traversal : Traversal BackdatedInvoiceSnapshot :=
  {| tmap M N := invoice_snapshot_from; ttry E M N := invoice_snapshot_try_from; tmoneys M := invoice_snapshot_moneys |}.
Next Obligation. solve_roundtrip. Qed.
Next Obligation. solve_shape. Qed.
Next Obligation. solve_length. Qed.

Definition schedule_change_from {M N} (f : M -> N) (v : RecognitionScheduleChangeIntent M) :
    RecognitionScheduleChangeIntent N :=
  mkRecognitionScheduleChangeIntent (rsi_tenant_id v) (rsi_schedule_id v) (rsi_change_id v) (rsi_action v)
    (rsi_treatment v) (option_map (tmap_list f) (rsi_new_segments v)).
Definition schedule_change_try_from {E M N} (f : M -> result E N) (v : RecognitionScheduleChangeIntent M) :
    result E (RecognitionScheduleChangeIntent N) :=
  new_segments ← transpose (option_map (ttry_list f) (rsi_new_segments v));
  Ok (mkRecognitionScheduleChangeIntent (rsi_tenant_id v) (rsi_schedule_id v) (rsi_change_id v) (rsi_action v)
        (rsi_treatment v) new_segments).
Definition schedule_change_moneys {M} (v : RecognitionScheduleChangeIntent M) : list M :=
  from_option tmoneys_list [] (rsi_new_segments v).
#[global] Program Instance schedule_change_traversal : Traversal RecognitionScheduleChangeIntent :=
  {| tmap M N := schedule_change_from; ttry E M N := schedule_change_try_from; tmoneys M := schedule_change_moneys |}.
Next Obligation.
  intros E M N f g [t s c a tr [l|]]; [|done]. unfold schedule_change_try_from, schedule_change_moneys. cbn -[ttry_list tmap_list tmoneys_list].
  intros Hm. by rewrite list_roundtrip.
Qed.
Next Obligation.
  intros M [t s c a tr [l|]] [t' s' c' a' tr' [k|]] Hs; pose proof (f_equal rsi_new_segments Hs) as Hl;
    cbn -[tmap_list tmoneys_list] in *; try done; [|by injection Hs as -> -> -> -> ->].
  unfold schedule_change_moneys. cbn -[tmap_list tmoneys_list]. intros Hm. injection Hl as Hl. injection Hs as -> -> -> -> -> _.
  do 2 f_equal. by apply list_shape.
Qed.
Next Obligation.
  intros M [t s c a tr [l|]] [t' s' c' a' tr' [k|]] Hs; pose proof (f_equal rsi_new_segments Hs) as Hl;
    cbn -[tmap_list tmoneys_list] in *; try done. injection Hl as Hl. by apply list_length.
Qed.

Definition backdated_post_from {M N} (f : M -> N) (v : BackdatedPost M) : BackdatedPost N :=
  match v with BackdatedInvoice s => BackdatedInvoice (tmap f s) end.
Definition backdated_post_try_from {E M N} (f : M -> result E N) (v : BackdatedPost M) : result E (BackdatedPost N) :=
  match v with BackdatedInvoice s => s ← ttry f s; Ok (BackdatedInvoice s) end.
Definition backdated_post_moneys {M} (v : BackdatedPost M) : list M :=
  match v with BackdatedInvoice s => tmoneys s end.
#[global] Program Instance backdated_post_traversal : Traversal BackdatedPost :=
  {| tmap M N := backdated_post_from; ttry E M N := backdated_post_try_from; tmoneys M := backdated_post_moneys |}.
Next Obligation.
  intros E M N f g [s]. unfold backdated_post_try_from, backdated_post_moneys, backdated_post_from. intros Hm. by rewrite ttry_tmap.
Qed.
Next Obligation.
  intros M [s] [s'] Hs Hm. f_equal. apply tshape; [|done].
  exact (f_equal (fun v => match v with BackdatedInvoice s => s end) Hs).
Qed.
Next Obligation.
  intros M [s] [s'] Hs. apply (tlength s s'). exact (f_equal (fun v => match v with BackdatedInvoice s => s end) Hs).
Qed.

(** A manual adjustment also declares its currency, and so do the intents. *)
Record ManualAdjustmentIntent (C M : Type) := mkManualAdjustmentIntent {
  mai_tenant_id : Uuid;
  mai_payer_tenant_id : option Uuid;
  mai_adjustment_id : string;
  mai_action : string;
  mai_currency : C;
  mai_legs : list (ManualLegIntent M);
  mai_tax : list (BackdatedTaxBreakdown M);
  mai_reason_code : string;
  mai_preparer_actor_id : Uuid;
  mai_approver_actor_id : option Uuid;
}.
Arguments mkManualAdjustmentIntent {C M}.
Arguments mai_tenant_id {C M}.
Arguments mai_payer_tenant_id {C M}.
Arguments mai_adjustment_id {C M}.
Arguments mai_action {C M}.
Arguments mai_currency {C M}.
Arguments mai_legs {C M}.
Arguments mai_tax {C M}.
Arguments mai_reason_code {C M}.
Arguments mai_preparer_actor_id {C M}.
Arguments mai_approver_actor_id {C M}.

Module ApprovalIntent.
Inductive intent (C M : Type) :=
| Reverse (i : ReverseIntent)
| CreditGrant (i : CreditGrantIntent M)
| ChargebackLoss (i : ChargebackLossIntent M)
| PayerClosure (i : PayerClosureIntent)
| PeriodReopen (i : PeriodReopenIntent)
| MaterialBackdating (p : BackdatedPost M)
| RecognitionScheduleChange (i : RecognitionScheduleChangeIntent M)
| Refund (i : RefundIntent M)
| ManualAdjustment (i : ManualAdjustmentIntent C M)
| CreditNote (i : CreditNoteIntent M)
| DebitNote (i : DebitNoteIntent M)
| RefundWithCreditNote (i : RefundWithCreditNoteIntent M).
Arguments Reverse {C M}.
Arguments CreditGrant {C M}.
Arguments ChargebackLoss {C M}.
Arguments PayerClosure {C M}.
Arguments PeriodReopen {C M}.
Arguments MaterialBackdating {C M}.
Arguments RecognitionScheduleChange {C M}.
Arguments Refund {C M}.
Arguments ManualAdjustment {C M}.
Arguments CreditNote {C M}.
Arguments DebitNote {C M}.
Arguments RefundWithCreditNote {C M}.
End ApprovalIntent.

#[global] Instance manual_adjustment_intent_eq_dec C M `{!EqDecision C, !EqDecision M} :
  EqDecision (ManualAdjustmentIntent C M).
Proof. solve_decision. Defined.
#[global] Instance approval_intent_eq_dec C M `{!EqDecision C, !EqDecision M} : EqDecision (ApprovalIntent.intent C M).
Proof. solve_decision. Defined.

Section both.
Context {C D M N E : Type}.

Definition manual_adjustment_from (g : C -> D) (f : M -> N) (v : ManualAdjustmentIntent C M) :
    ManualAdjustmentIntent D N :=
  mkManualAdjustmentIntent (mai_tenant_id v) (mai_payer_tenant_id v) (mai_adjustment_id v) (mai_action v)
    (g (mai_currency v)) (tmap_list f (mai_legs v)) (tmap_list f (mai_tax v)) (mai_reason_code v)
    (mai_preparer_actor_id v) (mai_approver_actor_id v).

Definition manual_adjustment_try_from (g : C -> result E D) (f : M -> result E N) (v : ManualAdjustmentIntent C M) :
    result E (ManualAdjustmentIntent D N) :=
  currency ← g (mai_currency v);
  legs ← ttry_list f (mai_legs v);
  tax ← ttry_list f (mai_tax v);
  Ok (mkManualAdjustmentIntent (mai_tenant_id v) (mai_payer_tenant_id v) (mai_adjustment_id v) (mai_action v)
        currency legs tax (mai_reason_code v) (mai_preparer_actor_id v) (mai_approver_actor_id v)).

Definition manual_adjustment_moneys (v : ManualAdjustmentIntent C M) : list M :=
  tmoneys_list (mai_legs v) ++ tmoneys_list (mai_tax v).

Definition approval_intent_from (g : C -> D) (f : M -> N) (v : ApprovalIntent.intent C M) : ApprovalIntent.intent D N :=
  match v with
  | ApprovalIntent.Reverse v => ApprovalIntent.Reverse v
  | ApprovalIntent.CreditGrant v => ApprovalIntent.CreditGrant (tmap f v)
  | ApprovalIntent.ChargebackLoss v => ApprovalIntent.ChargebackLoss (tmap f v)
  | ApprovalIntent.PayerClosure v => ApprovalIntent.PayerClosure v
  | ApprovalIntent.PeriodReopen v => ApprovalIntent.PeriodReopen v
  | ApprovalIntent.MaterialBackdating v => ApprovalIntent.MaterialBackdating (tmap f v)
  | ApprovalIntent.RecognitionScheduleChange v => ApprovalIntent.RecognitionScheduleChange (tmap f v)
  | ApprovalIntent.Refund v => ApprovalIntent.Refund (tmap f v)
  | ApprovalIntent.ManualAdjustment v => ApprovalIntent.ManualAdjustment (manual_adjustment_from g f v)
  | ApprovalIntent.CreditNote v => ApprovalIntent.CreditNote (tmap f v)
  | ApprovalIntent.DebitNote v => ApprovalIntent.DebitNote (tmap f v)
  | ApprovalIntent.RefundWithCreditNote v => ApprovalIntent.RefundWithCreditNote (tmap f v)
  end.

(** The match of [TryFrom]; the check of the metadata follows it. *)
Definition approval_intent_try_from (g : C -> result E D) (f : M -> result E N) (v : ApprovalIntent.intent C M) :
    result E (ApprovalIntent.intent D N) :=
  match v with
  | ApprovalIntent.Reverse v => Ok (ApprovalIntent.Reverse v)
  | ApprovalIntent.CreditGrant v => ApprovalIntent.CreditGrant <$> ttry f v
  | ApprovalIntent.ChargebackLoss v => ApprovalIntent.ChargebackLoss <$> ttry f v
  | ApprovalIntent.PayerClosure v => Ok (ApprovalIntent.PayerClosure v)
  | ApprovalIntent.PeriodReopen v => Ok (ApprovalIntent.PeriodReopen v)
  | ApprovalIntent.MaterialBackdating v => ApprovalIntent.MaterialBackdating <$> ttry f v
  | ApprovalIntent.RecognitionScheduleChange v => ApprovalIntent.RecognitionScheduleChange <$> ttry f v
  | ApprovalIntent.Refund v => ApprovalIntent.Refund <$> ttry f v
  | ApprovalIntent.ManualAdjustment v => ApprovalIntent.ManualAdjustment <$> manual_adjustment_try_from g f v
  | ApprovalIntent.CreditNote v => ApprovalIntent.CreditNote <$> ttry f v
  | ApprovalIntent.DebitNote v => ApprovalIntent.DebitNote <$> ttry f v
  | ApprovalIntent.RefundWithCreditNote v => ApprovalIntent.RefundWithCreditNote <$> ttry f v
  end.

(** Every amount an intent holds, and the currency it declares apart from them. *)
Definition moneys (v : ApprovalIntent.intent C M) : list M :=
  match v with
  | ApprovalIntent.Reverse _ | ApprovalIntent.PayerClosure _ | ApprovalIntent.PeriodReopen _ => []
  | ApprovalIntent.CreditGrant v => tmoneys v
  | ApprovalIntent.ChargebackLoss v => tmoneys v
  | ApprovalIntent.MaterialBackdating v => tmoneys v
  | ApprovalIntent.RecognitionScheduleChange v => tmoneys v
  | ApprovalIntent.Refund v => tmoneys v
  | ApprovalIntent.ManualAdjustment v => manual_adjustment_moneys v
  | ApprovalIntent.CreditNote v => tmoneys v
  | ApprovalIntent.DebitNote v => tmoneys v
  | ApprovalIntent.RefundWithCreditNote v => tmoneys v
  end.

Definition declared (v : ApprovalIntent.intent C M) : option C :=
  match v with ApprovalIntent.ManualAdjustment v => Some (mai_currency v) | _ => None end.
End both.

Lemma intent_roundtrip {C D M N E} (g : D -> result E C) (f : N -> result E M) (g' : C -> D) (f' : M -> N)
    (v : ApprovalIntent.intent C M) :
  (forall m, m ∈ moneys v -> f (f' m) = Ok m) -> (forall c, declared v = Some c -> g (g' c) = Ok c) ->
  approval_intent_try_from g f (approval_intent_from g' f' v) = Ok v.
Proof.
  destruct v as [| | | | | | | |i| | |]; cbn [approval_intent_from approval_intent_try_from moneys declared]; intros Hm Hc;
    try done; rewrite ?ttry_tmap by done; try done.
  destruct i. unfold manual_adjustment_try_from, manual_adjustment_from, manual_adjustment_moneys in *.
  cbn -[ttry_list tmap_list tmoneys_list] in *. rewrite Hc by done. cbn -[ttry_list tmap_list tmoneys_list].
  rewrite !list_roundtrip by set_solver. done.
Qed.

(** An intent is its shape (everything but the amounts) and its amounts. *)
Definition shape {C M} (v : ApprovalIntent.intent C M) : ApprovalIntent.intent C unit :=
  approval_intent_from id (fun _ => tt) v.

Lemma intent_shape {C M} (v w : ApprovalIntent.intent C M) : shape v = shape w -> moneys v = moneys w -> v = w.
Proof.
  unfold shape. destruct v as [| | | | | | | |i| | |], w as [| | | | | | | |j| | |]; cbn [approval_intent_from moneys];
    intros Hs Hm; try discriminate Hs;
    match type of Hs with ?K ?a = ?K ?b => assert (Hab : a = b) by congruence; clear Hs end;
    try (f_equal; first [done|by apply tshape]).
  destruct i, j. unfold manual_adjustment_moneys in *. cbn -[tmap_list tmoneys_list] in *.
  pose proof (f_equal mai_legs Hab) as Hl. pose proof (f_equal mai_tax Hab) as Ht.
  cbn -[tmap_list tmoneys_list] in *. apply app_inj_1 in Hm as [Hm1 Hm2]; [|by apply list_length].
  apply list_shape in Hl as ->; [|done]. apply list_shape in Ht as ->; [|done]. injection Hab as -> -> -> -> -> -> -> ->. done.
Qed.

Lemma intent_length {C M} (v w : ApprovalIntent.intent C M) : shape v = shape w -> length (moneys v) = length (moneys w).
Proof.
  unfold shape. destruct v as [| | | | | | | |i| | |], w as [| | | | | | | |j| | |]; cbn [approval_intent_from moneys];
    intros Hs; try discriminate Hs; try done;
    match type of Hs with ?K ?a = ?K ?b => assert (Hab : a = b) by congruence; clear Hs end;
    try (by apply tlength).
  destruct i, j. unfold manual_adjustment_moneys. pose proof (f_equal mai_legs Hab) as Hl. pose proof (f_equal mai_tax Hab) as Ht.
  cbn -[tmap_list tmoneys_list] in *. rewrite !length_app. apply list_length in Hl, Ht. lia.
Qed.

(** ** Requests and their intents *)

Definition timing_to_snapshot (t : RecognitionTiming) : DebitNoteTimingSnapshot :=
  match t with
  | PointInTime => DebitNoteTimingSnapshot.PointInTime
  | StraightLine periods first_period_id => DebitNoteTimingSnapshot.StraightLine periods first_period_id
  end.
Definition timing_from_snapshot (t : DebitNoteTimingSnapshot) : RecognitionTiming :=
  match t with
  | DebitNoteTimingSnapshot.PointInTime => PointInTime
  | DebitNoteTimingSnapshot.StraightLine periods first_period_id => StraightLine periods first_period_id
  end.

Definition recognition_to_snapshot (r : RecognitionInput) : DebitNoteRecognitionSnapshot :=
  mkDebitNoteRecognitionSnapshot (ri_policy_ref r) (timing_to_snapshot (ri_timing r)) (ri_po_allocation_group r)
    (ri_multi_po r) (ri_ssp_snapshot_ref r) (ri_subscription_ref r) (ri_vc_estimate_ref r) (ri_vc_method_ref r)
    (ri_immaterial_one_shot_sku r).
Definition recognition_from_snapshot (s : DebitNoteRecognitionSnapshot) : RecognitionInput :=
  mkRecognitionInput (drs_policy_ref s) (timing_from_snapshot (drs_timing s)) (drs_po_allocation_group s)
    (drs_multi_po s) (drs_ssp_snapshot_ref s) (drs_subscription_ref s) (drs_vc_estimate_ref s) (drs_vc_method_ref s)
    (drs_immaterial_one_shot_sku s).

Section requests.
Context `{RustDecimal}.

Definition refund_to_intent (req : RefundRequest) : RefundIntent PostedMoney :=
  mkRefundIntent (rf_tenant_id req) (rf_payer_tenant_id req) (rf_refund_id req) (rf_psp_refund_id req)
    (refund_phase_as_str (rf_phase req)) (refund_pattern_as_str (rf_pattern req)) (rf_payment_id req)
    (rf_invoice_id req) (rf_amount req) (rf_two_stage req) (rf_relates_to_refund_id req)
    (refund_direction_as_str (rf_direction req)).

Definition refund_from_intent (i : RefundIntent PostedMoney) : result DomainError RefundRequest :=
  phase ← ok_or (refund_phase_parse (rfi_phase i)) DomainError.Internal;
  pattern ← ok_or (refund_pattern_parse (rfi_pattern i)) DomainError.Internal;
  direction ← ok_or (refund_direction_parse (rfi_direction i)) DomainError.Internal;
  Ok (mkRefundRequest (rfi_tenant_id i) (rfi_payer_tenant_id i) (rfi_refund_id i) (rfi_psp_refund_id i) phase pattern
        (rfi_payment_id i) (rfi_invoice_id i) (rfi_amount i) (rfi_two_stage i) (rfi_relates_to_refund_id i) direction).

Definition tax_to_intent (t : TaxBreakdown) : BackdatedTaxBreakdown PostedMoney :=
  mkBackdatedTaxBreakdown (tb_amount t) (tb_tax_jurisdiction t) (tb_tax_filing_period t) (tb_tax_rate_ref t).
Definition tax_from_intent (t : BackdatedTaxBreakdown PostedMoney) : TaxBreakdown :=
  mkTaxBreakdown (btb_amount t) (btb_tax_jurisdiction t) (btb_tax_filing_period t) (btb_tax_rate_ref t).

Definition manual_leg_to_intent (l : ManualLeg) : ManualLegIntent PostedMoney :=
  mkManualLegIntent (as_str (ml_account_class l)) (as_str (ml_side l)) (ml_amount l) (ml_revenue_stream l).
Definition manual_leg_from_intent (l : ManualLegIntent PostedMoney) : result DomainError ManualLeg :=
  account_class ← map_err (fun _ => DomainError.Internal) (from_str (mli_account_class l));
  side ← map_err (fun _ => DomainError.Internal) (from_str (mli_side l));
  Ok (mkManualLeg account_class side (mli_amount l) (mli_revenue_stream l)).

Definition manual_to_intent (req : ManualAdjustmentRequest) : ManualAdjustmentIntent CurrencySpec PostedMoney :=
  mkManualAdjustmentIntent (ma_tenant_id req) (ma_payer_tenant_id req) (ma_adjustment_id req)
    (manual_action_as_str (ma_action req)) (ma_currency req) (manual_leg_to_intent <$> ma_legs req)
    (tax_to_intent <$> ma_tax req) (ma_reason_code req) (ma_preparer_actor_id req) (ma_approver_actor_id req).

Definition manual_from_intent (i : ManualAdjustmentIntent CurrencySpec PostedMoney) :
    result DomainError ManualAdjustmentRequest :=
  action ← ok_or (manual_action_parse (mai_action i)) DomainError.Internal;
  legs ← map_res manual_leg_from_intent (mai_legs i);
  Ok (mkManualAdjustmentRequest (mai_tenant_id i) (mai_payer_tenant_id i) (mai_adjustment_id i) action (mai_currency i)
        legs (mai_reason_code i) (mai_preparer_actor_id i) (mai_approver_actor_id i) (tax_from_intent <$> mai_tax i)).

Definition credit_note_to_intent (req : CreditNote.CreditNoteRequest) : CreditNoteIntent PostedMoney :=
  mkCreditNoteIntent (CreditNote.cn_tenant_id req) (CreditNote.cn_payer_tenant_id req) (CreditNote.cn_credit_note_id req)
    (CreditNote.cn_origin_invoice_id req) (CreditNote.cn_origin_invoice_item_ref req)
    (CreditNote.cn_po_allocation_group req) (CreditNote.cn_revenue_stream req) (CreditNote.cn_amount req)
    (CreditNote.cn_tax_amount req) (tax_to_intent <$> CreditNote.cn_tax req) (CreditNote.cn_requested_deferred req)
    (CreditNote.cn_reason_code req) (CreditNote.cn_goodwill req).
Definition credit_note_from_intent (i : CreditNoteIntent PostedMoney) : CreditNote.CreditNoteRequest :=
  CreditNote.mkCreditNoteRequest (cni_tenant_id i) (cni_payer_tenant_id i) (cni_credit_note_id i)
    (cni_origin_invoice_id i) (cni_origin_invoice_item_ref i) (cni_po_allocation_group i) (cni_revenue_stream i)
    (cni_amount i) (cni_tax_amount i) (tax_from_intent <$> cni_tax i) (cni_requested_deferred i) (cni_reason_code i)
    (cni_goodwill i).

Definition debit_note_to_intent (req : DebitNote.DebitNoteRequest) : DebitNoteIntent PostedMoney :=
  mkDebitNoteIntent (DebitNote.dn_tenant_id req) (DebitNote.dn_payer_tenant_id req) (DebitNote.dn_debit_note_id req)
    (DebitNote.dn_origin_invoice_id req) (DebitNote.dn_origin_invoice_item_ref req) (DebitNote.dn_revenue_stream req)
    (DebitNote.dn_amount req) (DebitNote.dn_tax_amount req) (tax_to_intent <$> DebitNote.dn_tax req)
    (DebitNote.dn_deferred req) (DebitNote.dn_reason_code req) (recognition_to_snapshot <$> DebitNote.dn_recognition req).
Definition debit_note_from_intent (i : DebitNoteIntent PostedMoney) : DebitNote.DebitNoteRequest :=
  DebitNote.mkDebitNoteRequest (dni_tenant_id i) (dni_payer_tenant_id i) (dni_debit_note_id i) (dni_origin_invoice_id i)
    (dni_origin_invoice_item_ref i) (dni_revenue_stream i) (dni_amount i) (dni_tax_amount i)
    (tax_from_intent <$> dni_tax i) (dni_deferred i) (dni_reason_code i) (recognition_from_snapshot <$> dni_recognition i).

Definition from_requests (refund : RefundRequest) (credit_note : CreditNote.CreditNoteRequest) :
    RefundWithCreditNoteIntent PostedMoney :=
  mkRefundWithCreditNoteIntent (refund_to_intent refund) (credit_note_to_intent credit_note).
Definition to_requests (self : RefundWithCreditNoteIntent PostedMoney) :
    result DomainError (RefundRequest * CreditNote.CreditNoteRequest) :=
  refund ← refund_from_intent (rci_refund self);
  let credit_note := credit_note_from_intent (rci_credit_note self) in
  Ok (refund, credit_note).

(** [parse_account_class]. *)
Definition parse_account_class (token : option string) : result DomainError (option AccountClass) :=
  transpose ((fun t => map_err (fun _ => DomainError.Internal) (from_str t)) <$> token).

Definition item_to_intent (i : InvoiceItem) : BackdatedInvoiceItem PostedMoney :=
  mkBackdatedInvoiceItem (it_amount_ex_tax i) (it_deferred i) (recognition_to_snapshot <$> it_recognition i)
    (it_revenue_stream i) (as_str <$> it_catalog_class i) (as_str <$> it_contract_class i) (it_gl_code i)
    (it_invoice_item_ref i) (it_sku_or_plan_ref i) (it_price_id i) (it_pricing_snapshot_ref i).
Definition item_from_intent (i : BackdatedInvoiceItem PostedMoney) : result DomainError InvoiceItem :=
  catalog_class ← parse_account_class (bii_catalog_class i);
  contract_class ← parse_account_class (bii_contract_class i);
  Ok (mkInvoiceItem (bii_amount_ex_tax i) (bii_deferred i) (bii_revenue_stream i) catalog_class contract_class
        (bii_gl_code i) (recognition_from_snapshot <$> bii_recognition i) (bii_invoice_item_ref i)
        (bii_sku_or_plan_ref i) (bii_price_id i) (bii_pricing_snapshot_ref i)).

Definition invoice_to_intent (inv : PostedInvoice) : BackdatedInvoiceSnapshot PostedMoney :=
  mkBackdatedInvoiceSnapshot (inv_invoice_id inv) (inv_payer_tenant_id inv) (inv_resource_tenant_id inv)
    (inv_seller_tenant_id inv) (inv_effective_at inv) (inv_due_date inv) (inv_period_id inv)
    (item_to_intent <$> inv_items inv) (tax_to_intent <$> inv_tax inv) (inv_posted_by_actor_id inv)
    (inv_correlation_id inv).
Definition invoice_from_intent (s : BackdatedInvoiceSnapshot PostedMoney) : result DomainError PostedInvoice :=
  items ← map_res item_from_intent (bis_items s);
  Ok (mkPostedInvoice (bis_invoice_id s) (bis_payer_tenant_id s) (bis_resource_tenant_id s) (bis_seller_tenant_id s)
        (bis_effective_at s) (bis_due_date s) (bis_period_id s) items (tax_from_intent <$> bis_tax s)
        (bis_posted_by_actor_id s) (bis_correlation_id s)).

(** ** The methods of an intent *)

(** An intent of the domain. *)
Definition DomainIntent := ApprovalIntent.intent CurrencySpec PostedMoney.

Definition kind (self : DomainIntent) : ApprovalKind :=
  match self with
  | ApprovalIntent.Reverse _ => KReverse
  | ApprovalIntent.CreditGrant _ => KCreditGrant
  | ApprovalIntent.ChargebackLoss _ => KChargebackLoss
  | ApprovalIntent.PayerClosure _ => KPayerClosure
  | ApprovalIntent.PeriodReopen _ => KPeriodReopen
  | ApprovalIntent.MaterialBackdating _ => KMaterialBackdating
  | ApprovalIntent.RecognitionScheduleChange _ => KRecognitionScheduleChange
  | ApprovalIntent.Refund _ | ApprovalIntent.RefundWithCreditNote _ => KRefund
  | ApprovalIntent.ManualAdjustment _ => KManualAdjustment
  | ApprovalIntent.CreditNote _ => KCreditNote
  | ApprovalIntent.DebitNote _ => KDebitNote
  end.

(** [BackdatedPost::business_id] and [business_key]. *)
Definition business_id (self : BackdatedPost PostedMoney) : string :=
  match self with BackdatedInvoice s => bis_invoice_id s end.

Definition business_key `{!UuidSource} (self : DomainIntent) : string :=
  match self with
  | ApprovalIntent.Reverse i => uuid_to_string (rvi_entry_id i)
  | ApprovalIntent.CreditGrant i => cgi_credit_application_id i
  | ApprovalIntent.ChargebackLoss i => cli_dispute_id i +:+ ":" +:+ display_int (cli_cycle i) +:+ ":LOST"
  | ApprovalIntent.PayerClosure i => uuid_to_string (pci_payer_tenant_id i)
  | ApprovalIntent.PeriodReopen i => uuid_to_string (pri_legal_entity_id i) +:+ ":" +:+ pri_period_id i
  | ApprovalIntent.MaterialBackdating p => business_id p
  | ApprovalIntent.RecognitionScheduleChange i => rsi_change_id i
  | ApprovalIntent.Refund i => rfi_psp_refund_id i +:+ ":" +:+ rfi_phase i
  | ApprovalIntent.ManualAdjustment i => mai_adjustment_id i
  | ApprovalIntent.CreditNote i => cni_credit_note_id i
  | ApprovalIntent.DebitNote i => dni_debit_note_id i
  | ApprovalIntent.RefundWithCreditNote i => rfi_psp_refund_id (rci_refund i) +:+ ":" +:+ rfi_phase (rci_refund i)
  end.

Definition validate_specs (values : list PostedMoney) (spec : CurrencySpec) : result DomainError unit :=
  fold_res (fun _ value =>
    if negb (bool_decide (code (currency value) = code spec)) then Err DomainError.CurrencyMismatch
    else if negb (currency_scale (currency value) =? currency_scale spec) then Err DomainError.InconsistentScale
    else Ok tt) tt values.

Definition validate_credit_note (i : CreditNoteIntent PostedMoney) : result DomainError unit :=
  validate_specs ([cni_amount i; cni_tax_amount i; cni_requested_deferred i] ++ (btb_amount <$> cni_tax i))
    (currency (cni_amount i)).

Definition validate_money_metadata (self : DomainIntent) : result DomainError unit :=
  match self with
  | ApprovalIntent.ManualAdjustment i =>
      validate_specs ((mli_amount <$> mai_legs i) ++ (btb_amount <$> mai_tax i)) (mai_currency i)
  | ApprovalIntent.CreditNote i => validate_credit_note i
  | ApprovalIntent.DebitNote i =>
      validate_specs ([dni_amount i; dni_tax_amount i; dni_deferred i] ++ (btb_amount <$> dni_tax i))
        (currency (dni_amount i))
  | ApprovalIntent.RefundWithCreditNote i =>
      _ ← validate_specs [rfi_amount (rci_refund i); cni_amount (rci_credit_note i)] (currency (rfi_amount (rci_refund i)));
      validate_credit_note (rci_credit_note i)
  | ApprovalIntent.MaterialBackdating (BackdatedInvoice i) =>
      match (match bis_items i with
             | v :: _ => Some (currency (bii_amount_ex_tax v))
             | [] => (fun v => currency (btb_amount v)) <$> head (bis_tax i)
             end) with
      | Some spec =>
          validate_specs ((bis_items i ≫= fun v => [bii_amount_ex_tax v; bii_deferred v]) ++ (btb_amount <$> bis_tax i)) spec
      | None => Ok tt
      end
  | ApprovalIntent.RecognitionScheduleChange i =>
      match rsi_new_segments i with
      | Some ((first :: _) as segments) => validate_specs (rcs_amount <$> segments) (currency (rcs_amount first))
      | _ => Ok tt
      end
  | ApprovalIntent.Reverse _ | ApprovalIntent.CreditGrant _ | ApprovalIntent.ChargebackLoss _
  | ApprovalIntent.PayerClosure _ | ApprovalIntent.PeriodReopen _ | ApprovalIntent.Refund _ => Ok tt
  end.

(** [ManualAdjustmentIntent::gross], [BackdatedInvoiceSnapshot::gross] and
    [BackdatedPost::gross]. *)
Definition manual_gross (self : ManualAdjustmentIntent CurrencySpec PostedMoney) : result DomainError PostedMoney :=
  let values := mli_amount <$> List.filter (fun l => bool_decide (mli_side l = as_str Debit)) (mai_legs self) in
  map_err map_exact_error (sum_posted values (mai_currency self)).

Definition snapshot_gross (self : BackdatedInvoiceSnapshot PostedMoney) : result DomainError PostedMoney :=
  let values := (bii_amount_ex_tax <$> bis_items self) ++ (btb_amount <$> bis_tax self) in
  spec ← currency <$> ok_or (head values) DomainError.InvalidRequest;
  map_err map_exact_error (sum_posted values spec).

Definition backdated_gross (self : BackdatedPost PostedMoney) : result DomainError PostedMoney :=
  match self with BackdatedInvoice s => snapshot_gross s end.

Definition governed_amount (self : DomainIntent) : result DomainError (option PostedMoney) :=
  _ ← validate_money_metadata self;
  match self with
  | ApprovalIntent.Reverse _ | ApprovalIntent.PayerClosure _ | ApprovalIntent.PeriodReopen _
  | ApprovalIntent.RecognitionScheduleChange _ => Ok None
  | ApprovalIntent.CreditGrant i => Ok (Some (cgi_amount i))
  | ApprovalIntent.ChargebackLoss i => Ok (Some (cli_disputed_amount i))
  | ApprovalIntent.MaterialBackdating p => Some <$> backdated_gross p
  | ApprovalIntent.Refund i => Ok (Some (rfi_amount i))
  | ApprovalIntent.ManualAdjustment i => Some <$> manual_gross i
  | ApprovalIntent.CreditNote i => Ok (Some (cni_amount i))
  | ApprovalIntent.DebitNote i => Ok (Some (dni_amount i))
  | ApprovalIntent.RefundWithCreditNote i =>
      Ok (Some (if dec_ltb (amount (rfi_amount (rci_refund i))) (amount (cni_amount (rci_credit_note i)))
                then cni_amount (rci_credit_note i) else rfi_amount (rci_refund i)))
  end.

(** Derived [PartialEq]: amounts compare by value, everything else as it is. *)
Fixpoint moneys_eqb (l k : list PostedMoney) : bool :=
  match l, k with
  | [], [] => true
  | a :: l, b :: k => posted_eqb a b && moneys_eqb l k
  | _, _ => false
  end.
Definition intent_eqb (a b : DomainIntent) : bool :=
  bool_decide (shape a = shape b) && moneys_eqb (moneys a) (moneys b).

Definition with_grant_amount (i : CreditGrantIntent PostedMoney) (v : PostedMoney) : CreditGrantIntent PostedMoney :=
  mkCreditGrantIntent (cgi_tenant_id i) (cgi_payer_tenant_id i) (cgi_credit_application_id i) v
    (cgi_credit_grant_event_type i).
Definition with_disputed_amount (i : ChargebackLossIntent PostedMoney) (v : PostedMoney) : ChargebackLossIntent PostedMoney :=
  mkChargebackLossIntent (cli_tenant_id i) (cli_payer_tenant_id i) (cli_payment_id i) (cli_dispute_id i)
    (cli_invoice_id i) (cli_cycle i) (cli_funds_at_open i) v.

Definition same_target (self other : DomainIntent) : bool :=
  match self, other with
  | ApprovalIntent.CreditGrant a, ApprovalIntent.CreditGrant b =>
      if negb (bool_decide (currency (cgi_amount a) = currency (cgi_amount b))) then false
      else intent_eqb (ApprovalIntent.CreditGrant (with_grant_amount a (cgi_amount b)))
             (ApprovalIntent.CreditGrant (with_grant_amount b (cgi_amount b)))
  | ApprovalIntent.ChargebackLoss a, ApprovalIntent.ChargebackLoss b =>
      if negb (bool_decide (currency (cli_disputed_amount a) = currency (cli_disputed_amount b))) then false
      else intent_eqb (ApprovalIntent.ChargebackLoss (with_disputed_amount a (cli_disputed_amount b)))
             (ApprovalIntent.ChargebackLoss (with_disputed_amount b (cli_disputed_amount b)))
  | _, _ => intent_eqb self other
  end.
End requests.

(** ** Replays *)

Lemma recognition_roundtrip r : recognition_from_snapshot (recognition_to_snapshot r) = r.
Proof. destruct r as [? []]; done. Qed.

Lemma fmap_roundtrip {A B} (f : A -> B) (g : B -> A) (l : list A) : (forall a, g (f a) = a) -> g <$> (f <$> l) = l.
Proof. intros Hg. induction l as [|a l IH]; [done|]. cbn. by rewrite Hg, IH. Qed.

Lemma option_roundtrip {A B} (f : A -> B) (g : B -> A) (o : option A) : (forall a, g (f a) = a) -> g <$> (f <$> o) = o.
Proof. intros Hg. destruct o; cbn; [by rewrite Hg|done]. Qed.

Lemma map_res_roundtrip {E A B} (f : A -> B) (g : B -> result E A) (l : list A) :
  (forall a, g (f a) = Ok a) -> map_res g (f <$> l) = Ok l.
Proof. intros Hg. induction l as [|a l IH]; [done|]. cbn. rewrite Hg. cbn. by rewrite IH. Qed.

Lemma from_as_str {A} `{!StrEnum A} (v : A) : from_str (as_str v) = Ok v.
Proof. by apply from_str_ok. Qed.

Section replay.
Context `{RustDecimal}.

Lemma tax_roundtrip t : tax_from_intent (tax_to_intent t) = t.
Proof. by destruct t. Qed.

Lemma refund_roundtrip req : refund_from_intent (refund_to_intent req) = Ok req.
Proof. destruct req as [? ? ? ? [] [] ? ? ? ? ? []]; done. Qed.

Lemma manual_roundtrip req : manual_from_intent (manual_to_intent req) = Ok req.
Proof.
  unfold manual_from_intent, manual_to_intent. cbn [mai_action mai_legs mai_tax].
  assert (Hl : map_res manual_leg_from_intent (manual_leg_to_intent <$> ma_legs req) = Ok (ma_legs req)).
  { apply map_res_roundtrip. intros []. unfold manual_leg_from_intent, manual_leg_to_intent.
    cbn [mli_account_class mli_side]. by rewrite !from_as_str. }
  rewrite Hl. rewrite (fmap_roundtrip _ _ _ tax_roundtrip). destruct req as [? ? ? []]; done.
Qed.

Lemma credit_note_roundtrip req : credit_note_from_intent (credit_note_to_intent req) = req.
Proof.
  unfold credit_note_from_intent, credit_note_to_intent. cbn -[tax_from_intent tax_to_intent].
  rewrite (fmap_roundtrip _ _ _ tax_roundtrip). by destruct req.
Qed.

Lemma debit_note_roundtrip req : debit_note_from_intent (debit_note_to_intent req) = req.
Proof.
  unfold debit_note_from_intent, debit_note_to_intent. cbn -[tax_from_intent tax_to_intent].
  rewrite (fmap_roundtrip _ _ _ tax_roundtrip), (option_roundtrip _ _ _ recognition_roundtrip). by destruct req.
Qed.

Lemma parse_account_class_roundtrip (o : option AccountClass) : parse_account_class (as_str <$> o) = Ok o.
Proof. destruct o as [[]|]; done. Qed.

Lemma item_roundtrip i : item_from_intent (item_to_intent i) = Ok i.
Proof.
  unfold item_from_intent, item_to_intent. cbn [bii_catalog_class bii_contract_class bii_recognition].
  rewrite !parse_account_class_roundtrip. cbn [mbind result_bind].
  rewrite (option_roundtrip _ _ _ recognition_roundtrip). by destruct i.
Qed.

Lemma invoice_roundtrip inv : invoice_from_intent (invoice_to_intent inv) = Ok inv.
Proof.
  unfold invoice_from_intent, invoice_to_intent. cbn [bis_items bis_tax].
  rewrite (map_res_roundtrip _ _ _ item_roundtrip), (fmap_roundtrip _ _ _ tax_roundtrip). by destruct inv.
Qed.

Lemma composite_roundtrip refund credit_note : to_requests (from_requests refund credit_note) = Ok (refund, credit_note).
Proof. unfold to_requests, from_requests. cbn [rci_refund rci_credit_note]. rewrite refund_roundtrip, credit_note_roundtrip. done. Qed.

(** ** Money metadata *)

Definition in_currency (i : DomainIntent) (spec : CurrencySpec) : Prop :=
  (forall c, declared i = Some c -> c = spec) /\ Forall (fun m => currency m = spec) (moneys i).

(** All amounts of the intent are in one currency at one scale. *)
Definition consistent (i : DomainIntent) : Prop := exists spec, in_currency i spec.

Record intent_ok (i : DomainIntent) : Prop := mkIntentOk {
  io_moneys : Forall posted_ok (moneys i);
  io_size : vec_ok (moneys i);
  io_declared c : declared i = Some c -> currency_ok c;
}.

Lemma validate_specs_ok values spec : validate_specs values spec = Ok tt <-> Forall (fun v => currency v = spec) values.
Proof.
  unfold validate_specs. apply (unit_loop (fun value =>
    if negb (bool_decide (code (currency value) = code spec)) then Err DomainError.CurrencyMismatch
    else if negb (currency_scale (currency value) =? currency_scale spec) then Err DomainError.InconsistentScale
    else Ok tt)).
  intros [a [c s]]. destruct spec as [c' s']. cbn. case_bool_decide; cbn [negb]; [|naive_solver].
  destruct (Z.eqb_spec s s'); cbn [negb]; naive_solver.
Qed.

Lemma leg_moneys (l : list (ManualLegIntent PostedMoney)) : tmoneys_list l = mli_amount <$> l.
Proof. induction l as [|x l IH]; [done|]. exact (f_equal (cons (mli_amount x)) IH). Qed.
Lemma tax_moneys (l : list (BackdatedTaxBreakdown PostedMoney)) : tmoneys_list l = btb_amount <$> l.
Proof. induction l as [|x l IH]; [done|]. exact (f_equal (cons (btb_amount x)) IH). Qed.
Lemma segment_moneys (l : list (RecognitionChangeSegment PostedMoney)) : tmoneys_list l = rcs_amount <$> l.
Proof. induction l as [|x l IH]; [done|]. exact (f_equal (cons (rcs_amount x)) IH). Qed.
Lemma item_moneys (l : list (BackdatedInvoiceItem PostedMoney)) :
  tmoneys_list l = l ≫= fun v => [bii_amount_ex_tax v; bii_deferred v].
Proof. induction l as [|x l IH]; [done|]. exact (f_equal (fun k => bii_amount_ex_tax x :: bii_deferred x :: k) IH). Qed.

Lemma credit_note_moneys_spec i spec :
  Forall (fun m => currency m = spec) (tmoneys i) <->
  Forall (fun m => currency m = spec) ([cni_amount i; cni_tax_amount i; cni_requested_deferred i] ++ (btb_amount <$> cni_tax i)).
Proof.
  change (tmoneys i) with (credit_note_intent_moneys i). unfold credit_note_intent_moneys. rewrite tax_moneys. cbn [app].
  rewrite !Forall_cons, Forall_app, Forall_singleton. tauto.
Qed.

Lemma debit_note_moneys_spec i spec :
  Forall (fun m => currency m = spec) (tmoneys i) <->
  Forall (fun m => currency m = spec) ([dni_amount i; dni_tax_amount i; dni_deferred i] ++ (btb_amount <$> dni_tax i)).
Proof.
  change (tmoneys i) with (debit_note_intent_moneys i). unfold debit_note_intent_moneys. rewrite tax_moneys. cbn [app].
  rewrite !Forall_cons, Forall_app, Forall_singleton. tauto.
Qed.

(** Amounts in the currency of one of them are in one currency. *)
Lemma one_currency (l : list PostedMoney) m : m ∈ l ->
  Forall (fun v => currency v = currency m) l <-> exists spec, Forall (fun v => currency v = spec) l.
Proof.
  intros Hm. split; [by exists (currency m)|]. intros [spec Hs]. rewrite Forall_forall in Hs |- *. intros v Hv.
  by rewrite (Hs v Hv), (Hs m Hm).
Qed.

Lemma metadata_consistent i : validate_money_metadata i = Ok tt <-> consistent i.
Proof.
  assert (Hplain : forall j : DomainIntent, declared j = None ->
    consistent j <-> exists spec, Forall (fun m => currency m = spec) (moneys j)).
  { intros j Hd. unfold consistent, in_currency. rewrite Hd. split; intros [spec Hs]; exists spec; naive_solver. }
  destruct i as [i|i|i|i|i|[i]|i|i|i|i|i|i]; cbn [validate_money_metadata].
  1,4,5: split; [intros _|done]; apply Hplain; [done|]; exists (mkCurrencySpec "" 0); constructor.
  1,2,5: split; [intros _|done]; apply Hplain; [done|]; eexists; cbn; constructor; [reflexivity|constructor].
  - rewrite Hplain by done. cbn [moneys]. change (tmoneys (BackdatedInvoice i)) with (invoice_snapshot_moneys i).
    unfold invoice_snapshot_moneys. rewrite item_moneys, tax_moneys.
    destruct (bis_items i) as [|v items]; [destruct (bis_tax i) as [|t tax]|]; cbn [head fmap option_fmap option_map].
    + split; [intros _|done]. exists (mkCurrencySpec "" 0). constructor.
    + rewrite validate_specs_ok. apply one_currency. cbn. left.
    + rewrite validate_specs_ok. apply one_currency. cbn. left.
  - rewrite Hplain by done. cbn [moneys]. change (tmoneys i) with (schedule_change_moneys i). unfold schedule_change_moneys.
    destruct (rsi_new_segments i) as [[|first segments]|]; cbn [from_option];
      [split; [intros _|done]; exists (mkCurrencySpec "" 0); constructor| |split; [intros _|done]; exists (mkCurrencySpec "" 0); constructor].
    rewrite validate_specs_ok, segment_moneys. apply one_currency. cbn. left.
  - rewrite validate_specs_ok. unfold consistent, in_currency. cbn [declared moneys]. unfold manual_adjustment_moneys.
    rewrite leg_moneys, tax_moneys. split; [intros Hs; exists (mai_currency i); split; [by intros c [= ->]|done]|].
    intros (spec & Hd & Hs). by rewrite (Hd _ eq_refl).
  - unfold validate_credit_note. rewrite validate_specs_ok, Hplain by done. cbn [moneys]. setoid_rewrite credit_note_moneys_spec.
    apply one_currency. left.
  - rewrite validate_specs_ok, Hplain by done. cbn [moneys]. setoid_rewrite debit_note_moneys_spec.
    apply one_currency. left.
  - rewrite Hplain by done. cbn [moneys]. change (tmoneys i) with (refund_with_note_moneys i). unfold refund_with_note_moneys.
    setoid_rewrite Forall_app. setoid_rewrite credit_note_moneys_spec.
    change (tmoneys (rci_refund i)) with [rfi_amount (rci_refund i)]. unfold validate_credit_note. rewrite bind_ok.
    split.
    + intros ([] & H1%validate_specs_ok & H2%validate_specs_ok). exists (currency (rfi_amount (rci_refund i))).
      rewrite !Forall_cons in H1. destruct H1 as (_ & Hc & _). rewrite Hc in H2. split; [by repeat constructor|done].
    + intros (spec & [<- _]%Forall_cons & H2). exists tt. pose proof H2 as [Hc _]%Forall_cons. split.
      * apply validate_specs_ok. by repeat constructor.
      * apply validate_specs_ok. by rewrite Hc.
Qed.

(** ** The governed amount *)

(** What each kind is governed by, in units; [None] for the kinds without an amount of
    their own. *)
Definition governed_units (i : DomainIntent) : option Z :=
  match i with
  | ApprovalIntent.Reverse _ | ApprovalIntent.PayerClosure _ | ApprovalIntent.PeriodReopen _
  | ApprovalIntent.RecognitionScheduleChange _ => None
  | ApprovalIntent.CreditGrant i => Some (posted_units (cgi_amount i))
  | ApprovalIntent.ChargebackLoss i => Some (posted_units (cli_disputed_amount i))
  | ApprovalIntent.MaterialBackdating (BackdatedInvoice i) =>
      Some (sum_Z (fun v => posted_units (bii_amount_ex_tax v)) (bis_items i)
            + sum_Z (fun t => posted_units (btb_amount t)) (bis_tax i))
  | ApprovalIntent.Refund i => Some (posted_units (rfi_amount i))
  | ApprovalIntent.ManualAdjustment i =>
      Some (sum_Z (fun l => posted_units (mli_amount l)) (List.filter (fun l => bool_decide (mli_side l = "DR")) (mai_legs i)))
  | ApprovalIntent.CreditNote i => Some (posted_units (cni_amount i))
  | ApprovalIntent.DebitNote i => Some (posted_units (dni_amount i))
  | ApprovalIntent.RefundWithCreditNote i =>
      Some (posted_units (rfi_amount (rci_refund i)) `max` posted_units (cni_amount (rci_credit_note i)))
  end.

(** An invoice without lines has no currency. *)
Definition empty_invoice (i : DomainIntent) : Prop :=
  match i with
  | ApprovalIntent.MaterialBackdating (BackdatedInvoice s) => bis_items s = [] /\ bis_tax s = []
  | _ => False
  end.

(** A sum that is returned, or does not fit. *)
Lemma sum_posted_cases values spec : vec_ok values -> currency_ok spec -> Forall posted_ok values ->
  Forall (fun v => currency v = spec) values ->
  match map_err map_exact_error (sum_posted values spec) with
  | Ok m => posted_ok m /\ currency m = spec /\ posted_units m = sum_Z posted_units values
  | Err _ => ~ fits (currency_scale spec) (sum_Z posted_units values)
  end.
Proof.
  intros Hv Hc Hok Hs. destruct (sum_posted values spec) as [m|e] eqn:E; cbn [map_err].
  - apply sum_posted_ok in E as (_ & ? & ? & ?); done.
  - intros Hf. destruct (sum_posted_fits values spec Hv Hc Hok Hs Hf) as [p Hp]. congruence.
Qed.

(** The outcome of [amount] for an intent whose metadata is consistent. *)
Definition amount_outcome (i : DomainIntent) (spec : CurrencySpec) (r : result DomainError (option PostedMoney)) : Prop :=
  match r with
  | Ok (Some m) => posted_ok m /\ currency m = spec /\ governed_units i = Some (posted_units m)
  | Ok None => governed_units i = None
  | Err _ => empty_invoice i \/ exists z, governed_units i = Some z /\ ~ fits (currency_scale spec) z
  end.

Lemma manual_gross_spec i : intent_ok (ApprovalIntent.ManualAdjustment i) ->
  in_currency (ApprovalIntent.ManualAdjustment i) (mai_currency i) ->
  amount_outcome (ApprovalIntent.ManualAdjustment i) (mai_currency i) (Some <$> manual_gross i).
Proof.
  intros [Hok Hv Hd] [_ Hs]. cbn [moneys declared] in *. unfold manual_adjustment_moneys in *. rewrite leg_moneys, tax_moneys in *.
  apply Forall_app in Hok as [Hok _], Hs as [Hs _]. unfold manual_gross, amount_outcome. cbn [governed_units].
  set (legs := List.filter _ (mai_legs i)).
  assert (Hsub : forall l, l ∈ legs -> mli_amount l ∈ mli_amount <$> mai_legs i).
  { intros l Hl. apply elem_of_filter_bool in Hl as [_ Hl]. by apply list_elem_of_fmap_2. }
  assert (Hvec : vec_ok (mli_amount <$> legs)).
  { unfold vec_ok, legs in *. rewrite length_app, length_fmap in Hv. rewrite length_fmap.
    pose proof (List.filter_length_le (fun l => bool_decide (mli_side l = as_str Debit)) (mai_legs i)). lia. }
  pose proof (sum_posted_cases (mli_amount <$> legs) (mai_currency i) Hvec (Hd _ eq_refl)) as Hsum.
  rewrite sum_Z_map, !Forall_fmap, !Forall_forall in Hsum. rewrite Forall_forall in Hok, Hs.
  specialize (Hsum (fun l Hl => Hok _ (Hsub l Hl)) (fun l Hl => Hs _ (Hsub l Hl))).
  destruct (map_err map_exact_error _) as [m|e]; cbn [fmap result_fmap].
  - destruct Hsum as (? & ? & Hu). by rewrite Hu.
  - right. by eexists.
Qed.

Lemma backdated_gross_spec s spec : intent_ok (ApprovalIntent.MaterialBackdating (BackdatedInvoice s)) ->
  in_currency (ApprovalIntent.MaterialBackdating (BackdatedInvoice s)) spec ->
  amount_outcome (ApprovalIntent.MaterialBackdating (BackdatedInvoice s)) spec (Some <$> snapshot_gross s).
Proof.
  intros [Hok Hv _] [_ Hs]. cbn [moneys] in *. change (tmoneys (BackdatedInvoice s)) with (invoice_snapshot_moneys s) in *.
  unfold invoice_snapshot_moneys in *. rewrite item_moneys, tax_moneys in *.
  unfold snapshot_gross, amount_outcome. cbn [governed_units empty_invoice].
  set (values := (bii_amount_ex_tax <$> bis_items s) ++ (btb_amount <$> bis_tax s)).
  assert (Hsub : forall m, m ∈ values ->
    m ∈ (bis_items s ≫= fun v => [bii_amount_ex_tax v; bii_deferred v]) ++ (btb_amount <$> bis_tax s)).
  { intros m. unfold values. rewrite !elem_of_app. intros [Hm|Hm]; [left|by right]. apply list_elem_of_fmap in Hm as (v & -> & Hv').
    apply list_elem_of_bind. exists v. split; [left|done]. }
  assert (Hvec : vec_ok values).
  { unfold vec_ok, values in *. rewrite length_app, length_fmap in *. rewrite length_fmap in Hv |- *.
    enough (length (bis_items s) <= length (bis_items s ≫= fun v => [bii_amount_ex_tax v; bii_deferred v]))%nat by lia.
    clear. induction (bis_items s) as [|v l IH]; cbn in *; lia. }
  assert (Hu : sum_Z posted_units values = sum_Z (fun v => posted_units (bii_amount_ex_tax v)) (bis_items s)
            + sum_Z (fun t => posted_units (btb_amount t)) (bis_tax s)) by (unfold values; by rewrite sum_Z_app, !sum_Z_map).
  rewrite Forall_forall in Hok, Hs. destruct (head values) as [m0|] eqn:Hh; cbn [ok_or fmap result_fmap mbind result_bind].
  - assert (Hm0 : m0 ∈ values) by (destruct values; [done|]; injection Hh as ->; left).
    rewrite (Hs m0 (Hsub m0 Hm0)). pose proof (Hok m0 (Hsub m0 Hm0)) as [Hcur _]. rewrite (Hs m0 (Hsub m0 Hm0)) in Hcur.
    pose proof (sum_posted_cases values spec Hvec Hcur) as Hsum. rewrite !Forall_forall, Hu in Hsum.
    specialize (Hsum (fun m Hm => Hok m (Hsub m Hm)) (fun m Hm => Hs m (Hsub m Hm))).
    destruct (map_err map_exact_error _) as [m|e]; cbn [fmap result_fmap].
    + destruct Hsum as (? & ? & Hm). by rewrite Hm.
    + right. by eexists.
  - left. unfold values in Hh. by destruct (bis_items s), (bis_tax s).
Qed.

Lemma intent_outcome i spec : intent_ok i -> in_currency i spec -> amount_outcome i spec (governed_amount i).
Proof.
  intros Hok Hin. unfold governed_amount. rewrite (proj2 (metadata_consistent i)) by by exists spec. cbn [mbind result_bind].
  assert (Hone : forall m, m ∈ moneys i -> posted_ok m /\ currency m = spec).
  { destruct Hok as [Hok _ _], Hin as [_ Hs]. rewrite Forall_forall in Hok, Hs. auto. }
  destruct i as [i|i|i|i|i|[i]|i|i|i|i|i|i]; cbn [amount_outcome governed_units]; try done.
  1,2,4,6,7: destruct (Hone _ (list_elem_of_here _ _)); done.
  - by apply backdated_gross_spec.
  - destruct Hin as [Hd Hs]. rewrite <- (Hd _ eq_refl). apply manual_gross_spec; [done|]. rewrite (Hd _ eq_refl). done.
  - assert (Hr : posted_ok (rfi_amount (rci_refund i)) /\ currency (rfi_amount (rci_refund i)) = spec)
      by (apply Hone; apply list_elem_of_here).
    assert (Hc : posted_ok (cni_amount (rci_credit_note i)) /\ currency (cni_amount (rci_credit_note i)) = spec)
      by (apply Hone; right; apply list_elem_of_here).
    rewrite dec_ltb_posted. destruct (Z.ltb_spec (posted_units (rfi_amount (rci_refund i))) (posted_units (cni_amount (rci_credit_note i))));
      split_and!; try apply Hr; try apply Hc; f_equal; lia.
Qed.

(** The amount an approval is gated on.  For every captured mutation, [amount]
    fails when the amounts inside it are not in one currency at one scale; otherwise it
    returns nothing for the kinds without an amount, and for the others a posting in
    that currency whose value is the governed value: the amount itself, the gross of a
    back-dated invoice, the debit total of a manual adjustment, the larger leg of a
    refund with credit note.  It fails on consistent metadata only when the invoice has
    no lines or the sum is not representable. *)
Theorem governed_amount_exact (i : DomainIntent) : intent_ok i ->
  (consistent i -> exists spec, in_currency i spec /\ amount_outcome i spec (governed_amount i)) /\
  (~ consistent i -> is_ok (governed_amount i) = false) /\
  (forall refund note m, i = ApprovalIntent.RefundWithCreditNote (from_requests refund note) ->
     governed_amount i = Ok (Some m) ->
     posted_units (rf_amount refund) <= posted_units m /\ posted_units (CreditNote.cn_amount note) <= posted_units m).
Proof.
  intros Hok. split_and!.
  - intros [spec Hs]. exists spec. split; [done|]. by apply intent_outcome.
  - intros Hn. unfold governed_amount. destruct (validate_money_metadata i) as [[]|e] eqn:E; [|done].
    destruct Hn. by apply metadata_consistent.
  - intros refund note m -> Hm. unfold governed_amount in Hm. apply bind_ok in Hm as (_ & _ & [= <-]).
    cbn [rci_refund rci_credit_note from_requests rfi_amount refund_to_intent cni_amount credit_note_to_intent].
    rewrite dec_ltb_posted. destruct (Z.ltb_spec (posted_units (rf_amount refund)) (posted_units (CreditNote.cn_amount note))); lia.
Qed.

(** ** Targets *)

Lemma moneys_eqb_ok l : forall k, Forall posted_ok l -> Forall posted_ok k -> moneys_eqb l k = true <-> l = k.
Proof.
  induction l as [|a l IH]; intros [|b k] Hl Hk; cbn; try done.
  apply Forall_cons in Hl as [Ha Hl], Hk as [Hb Hk]. rewrite andb_true_iff, posted_eqb_ok, IH by done. naive_solver.
Qed.

(** The derived equality of intents built from constructed money. *)
Lemma intent_eqb_ok a b : Forall posted_ok (moneys a) -> Forall posted_ok (moneys b) -> intent_eqb a b = true <-> a = b.
Proof.
  intros Ha Hb. unfold intent_eqb. rewrite andb_true_iff, bool_decide_eq_true, moneys_eqb_ok by done. split.
  - intros [Hs Hm]. by apply intent_shape.
  - by intros ->.
Qed.

(** [b] is [a] with another amount in the same currency. *)
Definition amount_edited (a b : DomainIntent) : Prop :=
  (exists i v, a = ApprovalIntent.CreditGrant i /\ b = ApprovalIntent.CreditGrant (with_grant_amount i v) /\
     currency v = currency (cgi_amount i)) \/
  (exists i v, a = ApprovalIntent.ChargebackLoss i /\ b = ApprovalIntent.ChargebackLoss (with_disputed_amount i v) /\
     currency v = currency (cli_disputed_amount i)).

Lemma same_target_spec a b : Forall posted_ok (moneys a) -> Forall posted_ok (moneys b) ->
  same_target a b = true <-> a = b \/ amount_edited a b.
Proof.
  intros Ha Hb.
  assert (Hrest : intent_eqb a b = true -> a = b \/ amount_edited a b) by (rewrite intent_eqb_ok by done; auto).
  assert (Hrefl : a = b -> intent_eqb a b = true) by (rewrite intent_eqb_ok; done).
  destruct a as [|i|i| | | | | | | | |] eqn:Ea, b as [|j|j| | | | | | | | |] eqn:Eb; cbn [same_target];
    try (split; [done|intros [Heq|[(? & ? & Hx & Hy & _)|(? & ? & Hx & Hy & _)]]; [by apply Hrefl|done|done]]).
  - assert (Hm : posted_ok (cgi_amount j)) by (by apply Forall_inv in Hb). clear Hrest Hrefl.
    case_bool_decide as Hc; cbn [negb].
    + rewrite intent_eqb_ok by exact (proj2 (Forall_singleton _ _) Hm). destruct i, j. cbn in *. split.
      * intros [= -> -> -> ->]. right. left. by repeat eexists.
      * intros [[= -> -> -> -> ->]|[(i & v & [= <-] & [= -> -> -> -> ->] & _)|(? & ? & ? & _)]]; done.
    + split; [done|]. intros [[= ->]|[(k & v & [= <-] & [= ->] & Hv)|(? & ? & ? & _)]]; try done.
  - assert (Hm : posted_ok (cli_disputed_amount j)) by (by apply Forall_inv in Hb). clear Hrest Hrefl.
    case_bool_decide as Hc; cbn [negb].
    + rewrite intent_eqb_ok by exact (proj2 (Forall_singleton _ _) Hm). destruct i, j. cbn in *. split.
      * intros [= -> -> -> -> -> -> ->]. right. right. by repeat eexists.
      * intros [[= -> -> -> -> -> -> -> ->]|[(? & ? & ? & _)|(i & v & [= <-] & [= -> -> -> -> -> -> -> ->] & _)]]; done.
    + split; [done|]. intros [[= ->]|[(? & ? & ? & _)|(k & v & [= <-] & [= ->] & Hv)]]; try done.
Qed.

(** What a resubmission may edit.  [same_target] accepts two intents exactly when
    they are equal, or are credit grants or lost chargebacks that differ in the amount
    alone, in the same currency.  So an accepted edit keeps the kind, the business key,
    the recipient and every identifier. *)
Theorem same_target_exact `{!UuidSource} (a b : DomainIntent) : intent_ok a -> intent_ok b ->
  (same_target a b = true <-> a = b \/ amount_edited a b) /\
  (same_target a b = true -> kind a = kind b /\ business_key a = business_key b /\ shape a = shape b).
Proof.
  intros [Ha _ _] [Hb _ _]. rewrite same_target_spec by done. split; [done|].
  intros [->|[(i & v & -> & -> & _)|(i & v & -> & -> & _)]]; done.
Qed.

(** ** Business keys *)

(** The grain an approval of a kind is about. *)
Inductive Grain :=
| GEntry (entry_id : Uuid)
| GApplication (id : string)
| GDispute (dispute_id : string) (cycle : Z)
| GPayer (payer : Uuid)
| GPeriod (legal_entity : Uuid) (period : string)
| GInvoice (id : string)
| GChange (id : string)
| GRefund (psp_refund_id phase : string)
| GAdjustment (id : string)
| GCreditNote (id : string)
| GDebitNote (id : string).

Definition grain (i : DomainIntent) : Grain :=
  match i with
  | ApprovalIntent.Reverse i => GEntry (rvi_entry_id i)
  | ApprovalIntent.CreditGrant i => GApplication (cgi_credit_application_id i)
  | ApprovalIntent.ChargebackLoss i => GDispute (cli_dispute_id i) (cli_cycle i)
  | ApprovalIntent.PayerClosure i => GPayer (pci_payer_tenant_id i)
  | ApprovalIntent.PeriodReopen i =>
      GPeriod (pri_legal_entity_id i) (pri_period_id i)
  | ApprovalIntent.MaterialBackdating p => GInvoice (business_id p)
  | ApprovalIntent.RecognitionScheduleChange i => GChange (rsi_change_id i)
  | ApprovalIntent.Refund i => GRefund (rfi_psp_refund_id i) (rfi_phase i)
  | ApprovalIntent.ManualAdjustment i => GAdjustment (mai_adjustment_id i)
  | ApprovalIntent.CreditNote i => GCreditNote (cni_credit_note_id i)
  | ApprovalIntent.DebitNote i => GDebitNote (dni_debit_note_id i)
  | ApprovalIntent.RefundWithCreditNote i => GRefund (rfi_psp_refund_id (rci_refund i)) (rfi_phase (rci_refund i))
  end.

(** A cycle is an [i32], and the phase of a refund is one of its literals. *)
Definition key_ok (i : DomainIntent) : Prop :=
  match i with
  | ApprovalIntent.ChargebackLoss i => Z.abs (cli_cycle i) <= 2 ^ 31
  | ApprovalIntent.Refund i => exists p, rfi_phase i = refund_phase_as_str p
  | ApprovalIntent.RefundWithCreditNote i => exists p, rfi_phase (rci_refund i) = refund_phase_as_str p
  | _ => True
  end.

Lemma join_last a b a' b' : ":"%char ∉ bytes b -> ":"%char ∉ bytes b' ->
  a +:+ ":" +:+ b = a' +:+ ":" +:+ b' -> a = a' /\ b = b'.
Proof.
  intros Hb Hb' Heq. apply (f_equal bytes) in Heq. rewrite !bytes_app in Heq.
  apply (split_last_unique _ _ _ _ _ Hb Hb') in Heq as [??]. split; by apply bytes_inj.
Qed.

Lemma join_first a b a' b' : ":"%char ∉ bytes a -> ":"%char ∉ bytes a' ->
  a +:+ ":" +:+ b = a' +:+ ":" +:+ b' -> a = a' /\ b = b'.
Proof.
  intros Ha Ha' Heq. apply (f_equal bytes) in Heq. rewrite !bytes_app in Heq.
  apply (split_first_unique _ _ _ _ _ Ha Ha') in Heq as [??]. split; by apply bytes_inj.
Qed.

Lemma phase_no_colon s : (exists p, s = refund_phase_as_str p) -> ":"%char ∉ bytes s.
Proof. intros [p ->]. apply (bool_decide_unpack _). by destruct p; vm_compute. Qed.

Lemma lost_no_colon : ":"%char ∉ bytes "LOST".
Proof. apply (bool_decide_unpack _). by vm_compute. Qed.

Lemma str_app_assoc (a b c : string) : (a +:+ b) +:+ c = a +:+ b +:+ c.
Proof. apply bytes_inj. rewrite !bytes_app. symmetry. apply app_assoc. Qed.

Lemma dispute_key_inj d c d' c' : Z.abs c <= 2 ^ 31 -> Z.abs c' <= 2 ^ 31 ->
  d +:+ ":" +:+ display_int c +:+ ":LOST" = d' +:+ ":" +:+ display_int c' +:+ ":LOST" -> d = d' /\ c = c'.
Proof.
  intros Hc Hc' Heq. assert (2 ^ 31 < 10 ^ 20) by by vm_compute.
  assert (Hsplit : forall d c, d +:+ ":" +:+ display_int c +:+ ":LOST" = (d +:+ ":" +:+ display_int c) +:+ ":" +:+ "LOST").
  { intros. by rewrite !str_app_assoc. }
  rewrite !Hsplit in Heq. apply join_last in Heq as [Heq _]; [|apply lost_no_colon..].
  apply join_last in Heq as [-> Heq]; [|by apply display_int_no; [lia|..]..].
  split; [done|]. apply display_int_inj; [lia..|done].
Qed.

(** Business keys.  Within a kind, two intents have the same business key exactly
    when they are about the same thing: the same entry, credit application, dispute
    cycle, payer, fiscal period, invoice, schedule change, note, adjustment or phase of
    a refund, a plain refund and one with a credit note being the same phase.  So the
    one active approval per key is one per thing, and no two things share the slot. *)
Theorem business_key_grain `{!UuidSource} (a b : DomainIntent) :
  (forall u v, uuid_to_string u = uuid_to_string v -> u = v) ->
  (forall u, ":"%char ∉ bytes (uuid_to_string u)) ->
  key_ok a -> key_ok b -> kind a = kind b ->
  business_key a = business_key b <-> grain a = grain b.
Proof.
  intros Hinj Hcolon Ha Hb Hk.
  destruct a, b; try discriminate Hk; cbn [business_key grain key_ok] in *; split; intros Heq;
    try (injection Heq; intros; congruence); try (by rewrite Heq); try (by f_equal; apply Hinj).
  1: apply dispute_key_inj in Heq as [-> ->]; done.
  1: apply join_first in Heq as [->%Hinj ->]; done.
  all: apply join_last in Heq as [-> ->]; [done|by apply phase_no_colon..].
Qed.
End replay.

(** ** Witnesses *)

Section intent_witnesses.
Import ConcreteDecimal MoneySamples.
#[local] Existing Instance sample_uuids.

Definition sample_grant (c : Z) : DomainIntent :=
  ApprovalIntent.CreditGrant (mkCreditGrantIntent 1%N 2%N "app-1" (eur c) (Some "GOODWILL"%string)).

Lemma sample_grant_ok c : Z.abs c < 10 ^ 28 -> intent_ok (sample_grant c).
Proof. intros Hc. split; [by apply Forall_singleton, eur_ok|done|done]. Qed.

Definition sample_refund_note : DomainIntent :=
  ApprovalIntent.RefundWithCreditNote (from_requests sample_refund
    (CreditNote.mkCreditNoteRequest 1%N 2%N "cn-1" "inv-1" None None "saas" (eur 9000) (eur 0) [] (eur 0) "GOODWILL" true)).

Lemma sample_refund_note_ok : intent_ok sample_refund_note.
Proof. split; [|done|done]. repeat (apply Forall_cons; split; [by apply eur_ok|]). constructor. Qed.

Lemma governed_amount_exact_witness :
  exists spec, in_currency sample_refund_note spec /\ amount_outcome sample_refund_note spec (governed_amount sample_refund_note).
Proof.
  apply (governed_amount_exact sample_refund_note sample_refund_note_ok). exists EUR. split; [done|]. by repeat constructor.
Defined.

Lemma same_target_exact_witness :
  same_target (sample_grant 900) (sample_grant 400) = true /\ business_key (sample_grant 900) = business_key (sample_grant 400).
Proof.
  destruct (same_target_exact (sample_grant 900) (sample_grant 400) (sample_grant_ok 900 eq_refl) (sample_grant_ok 400 eq_refl))
    as [Hiff Hkey].
  assert (Ht : same_target (sample_grant 900) (sample_grant 400) = true).
  { apply Hiff. right. left. eexists _, (eur 400). split_and!; reflexivity. }
  split; [exact Ht|]. exact (proj1 (proj2 (Hkey Ht))).
Defined.

(** Identifiers spelled in unary. *)
Definition unary_uuids : UuidSource :=
  {| now_v7 k := N.of_nat (S k); uuid_to_string u := String.string_of_list_ascii (repeat "1"%char (N.to_nat u)) |}.

Lemma unary_bytes (u : Uuid) : bytes (uuid_to_string (UuidSource := unary_uuids) u) = repeat "1"%char (N.to_nat u).
Proof. unfold bytes. cbn. apply String.list_ascii_of_string_of_list_ascii. Qed.

Lemma business_key_grain_witness :
  business_key (H0 := unary_uuids) sample_refund_note =
  business_key (H0 := unary_uuids) (ApprovalIntent.Refund (refund_to_intent sample_refund)).
Proof.
  apply (business_key_grain (H0 := unary_uuids) sample_refund_note (ApprovalIntent.Refund (refund_to_intent sample_refund))).
  - intros u v Huv. apply (f_equal bytes) in Huv. rewrite !unary_bytes in Huv. apply (f_equal length) in Huv.
    rewrite !repeat_length in Huv. lia.
  - intros u. rewrite unary_bytes. intros Hin. apply list_elem_of_In, repeat_spec in Hin. done.
  - exists Initiated. reflexivity.
  - exists Initiated. reflexivity.
  - reflexivity.
  - reflexivity.
Defined.
End intent_witnesses.
