(* ===== verification/StoredIntent.v ===== *)
(** * Stored approval payloads: [ledger/src/infra/approval/stored_intent.rs]

    The JSON columns of an approval row: the captured intent, whose money is stored as
    canonical text with its currency and scale, and the snapshot of the policy that was
    in force.  Serde writes and reads the JSON; the class [Serde] states that it reads
    back what it wrote, the class [JsonText] that a JSON text determines its value.

    Shown: a consistent intent is decoded exactly as it was encoded and no other
    encoding is accepted in its place; a snapshot of a well-formed policy passes the
    checks it is later read with. *)

From Stdlib Require Import Ascii.
From S2P Require Import Prelude BTree Decimal Money Exact ExactGrid Sdk DomainErrors MoneyText DualControl Intent.

(** [serde_json]: conversion of a payload to a JSON value and back, and the bytes of a
    JSON value. *)
Class Serde (J D : Type) := {
  to_value : D -> result unit J;
  from_value : J -> result unit D;
  from_to_value d v : to_value d = Ok v -> from_value v = Ok d;
}.
Class JsonText (J : Type) := {
  to_vec : J -> result unit (list ascii);
  to_vec_inj v w b : to_vec v = Ok b -> to_vec w = Ok b -> v = w;
}.

(** [format_rfc3339]: the text of an instant. *)
Class InstantText := { format_rfc3339 : OffsetDateTime -> string }.

Record StoredCurrencySpec := mkStoredCurrencySpec {
  scs_currency : string;
  scs_currency_scale : Z;
}.

Definition spec_to_stored (v : CurrencySpec) : StoredCurrencySpec :=
  mkStoredCurrencySpec (code v) (currency_scale v).
Definition spec_from_stored (v : StoredCurrencySpec) : result DomainError CurrencySpec :=
  map_err map_money_error (currency_spec_try_new (scs_currency v) (scs_currency_scale v)).

(** The payload: the intent over stored money. *)
Definition StoredApprovalIntent := ApprovalIntent.intent StoredCurrencySpec StoredMoney.

Inductive SnapshotBasis := TransactionGate | FunctionalGate | ResubmissionTransactionSnapshot.

Record StoredThresholdSnapshot := mkStoredThresholdSnapshot {
  sts_d2_default : string;
  sts_d2_thresholds : list StoredMoney;
  sts_d2_threshold : option StoredMoney;
  sts_policy_version : option Z;
  sts_policy_effective_from : option string;
  sts_basis : SnapshotBasis;
  sts_a6_backdating_biz_days : Z;
  sts_pending_ttl_seconds : Z;
  sts_resolved_at : string;
}.

Definition D2_DEFAULT_RULE : string := "per_currency_platform_default".

Section stored.
Context `{DecimalText}.

(** [PostedMoney::try_from(v).map_err(map_money_error)]. *)
Definition money_from_stored (v : StoredMoney) : result DomainError PostedMoney :=
  map_err map_money_error (stored_try_into_posted v).

Definition intent_to_stored (v : DomainIntent) : StoredApprovalIntent :=
  approval_intent_from spec_to_stored stored_from_posted v.

Definition intent_from_stored (v : StoredApprovalIntent) : result DomainError DomainIntent :=
  intent ← approval_intent_try_from spec_from_stored money_from_stored v;
  _ ← validate_money_metadata intent;
  Ok intent.

Section codec.
Context {J : Type} `{!Serde J StoredApprovalIntent, !JsonText J}.

Definition encode_intent (intent : DomainIntent) : result DomainError J :=
  map_err (fun _ => DomainError.Internal) (to_value (intent_to_stored intent)).

Definition decode_intent (value : J) : result DomainError DomainIntent :=
  dto ← map_err (fun _ => DomainError.Internal) (from_value value);
  map_err (fun _ => DomainError.Internal) (intent_from_stored dto).

Definition decode_client_intent (value : J) : result DomainError DomainIntent :=
  dto ← map_err (fun _ => DomainError.InvalidRequest) (from_value value);
  intent_from_stored dto.

Definition canonical_identity (intent : DomainIntent) : result DomainError (list ascii) :=
  value ← encode_intent intent;
  map_err (fun _ => DomainError.Internal) (to_vec value).
End codec.

(** ** Snapshots of the policy *)

Definition check_threshold_snapshot (snapshot : StoredThresholdSnapshot) : result DomainError StoredThresholdSnapshot :=
  thresholds ← map_res (fun v => map_err (fun _ => DomainError.Internal) (money_from_stored v)) (sts_d2_thresholds snapshot);
  policy ← map_err (fun _ => DomainError.Internal)
             (d2 ← d2_try_new thresholds;
              policy_try_new d2 (sts_a6_backdating_biz_days snapshot) (sts_pending_ttl_seconds snapshot));
  if bool_decide (sts_d2_default snapshot <> D2_DEFAULT_RULE) then Err DomainError.Internal
  else
    threshold ←
      match sts_d2_threshold snapshot with
      | Some value =>
          money ← map_err (fun _ => DomainError.Internal) (money_from_stored value);
          expected ← map_err (fun _ => DomainError.Internal) (d2_threshold policy (currency money));
          if negb (posted_eqb expected money) then Err DomainError.Internal
          else Ok (Some (stored_from_posted money))
      | None => Ok None
      end;
    Ok (mkStoredThresholdSnapshot (sts_d2_default snapshot)
          (stored_from_posted <$> d2_into_vec (d2_thresholds policy)) threshold (sts_policy_version snapshot)
          (sts_policy_effective_from snapshot) (sts_basis snapshot) (sts_a6_backdating_biz_days snapshot)
          (sts_pending_ttl_seconds snapshot) (sts_resolved_at snapshot)).

Definition validate_threshold_snapshot {J} `{!Serde J StoredThresholdSnapshot} (value : J) :
    result DomainError StoredThresholdSnapshot :=
  snapshot ← map_err (fun _ => DomainError.Internal) (from_value value);
  check_threshold_snapshot snapshot.

(** [threshold_snapshot] of the service. *)
Definition threshold_snapshot `{!InstantText} (policy : DualControlPolicy) (now : OffsetDateTime)
    (version : option PolicyVersion) (basis : SnapshotBasis) (threshold : option PostedMoney) : StoredThresholdSnapshot :=
  mkStoredThresholdSnapshot D2_DEFAULT_RULE (stored_from_posted <$> d2_into_vec (d2_thresholds policy))
    (stored_from_posted <$> threshold) (pv_version <$> version)
    ((fun v => format_rfc3339 (pv_effective_from v)) <$> version) basis (a6_backdating_biz_days policy)
    (pending_ttl_seconds policy) (format_rfc3339 now).

(** ** Money reads back *)

(** Money as its constructors leave it, in a currency the constructor accepts. *)
Definition money_valid (m : PostedMoney) : Prop := posted_ok m /\ spec_valid (currency m).

Record intent_valid (i : DomainIntent) : Prop := mkIntentValid {
  iv_moneys : Forall money_valid (moneys i);
  iv_declared c : declared i = Some c -> spec_valid c;
}.

Lemma money_back m : money_valid m -> money_from_stored (stored_from_posted m) = Ok m.
Proof.
  intros [Hok Hv]. unfold money_from_stored, stored_try_into_posted, stored_from_posted. cbn [stored_amount stored_currency stored_currency_scale].
  rewrite Hv. cbn [mbind result_bind]. destruct Hok as (Hcur & Hcan & Hlim & Hs).
  rewrite parse_canonical by by rewrite canonical_normalize_id. rewrite canonical_normalize_id by done. cbn [mbind result_bind].
  rewrite (proj2 (posted_try_new_ok (amount m) (currency m) m Hcan)); [done|]. split_and!; [done|done|by destruct m].
Qed.

Lemma spec_back c : spec_valid c -> spec_from_stored (spec_to_stored c) = Ok c.
Proof. intros Hv. unfold spec_from_stored, spec_to_stored. cbn [scs_currency scs_currency_scale]. by rewrite Hv. Qed.

Lemma stored_back i : intent_valid i -> approval_intent_try_from spec_from_stored money_from_stored (intent_to_stored i) = Ok i.
Proof.
  intros [Hm Hd]. apply intent_roundtrip.
  - rewrite Forall_forall in Hm. intros m Hin. by apply money_back, Hm.
  - intros c Hc. by apply spec_back, Hd.
Qed.

Section codec_laws.
Context {J : Type} `{!Serde J StoredApprovalIntent, !JsonText J}.

Lemma decode_encode i v : intent_valid i -> encode_intent i = Ok v ->
  (consistent i -> decode_intent v = Ok i) /\ (~ consistent i -> decode_intent v = Err DomainError.Internal).
Proof.
  intros Hi Hv. apply map_err_ok, from_to_value in Hv. unfold decode_intent. rewrite Hv. cbn [map_err mbind result_bind].
  unfold intent_from_stored. rewrite stored_back by done. cbn [mbind result_bind].
  pose proof (metadata_consistent i) as Hc. destruct (validate_money_metadata i) as [[]|e]; cbn [mbind result_bind map_err].
  - split; [done|]. intros Hn. destruct Hn. by apply Hc.
  - split; [|done]. intros Hn. apply Hc in Hn. done.
Qed.

Lemma identity_inj i j b : intent_valid i -> intent_valid j -> canonical_identity i = Ok b -> canonical_identity j = Ok b -> i = j.
Proof.
  intros Hi Hj (v & Hv & Hb%map_err_ok)%bind_ok (w & Hw & Hb'%map_err_ok)%bind_ok.
  assert (v = w) as -> by by eapply to_vec_inj.
  apply map_err_ok, from_to_value in Hv, Hw. rewrite Hv in Hw. injection Hw as Hw.
  pose proof (stored_back i Hi) as Hbi. rewrite Hw, stored_back in Hbi by done. by injection Hbi.
Qed.
End codec_laws.

(** ** Snapshots are readable *)

Record policy_valid (p : DualControlPolicy) : Prop := mkPolicyValid {
  pva_ok : policy_ok p;
  pva_specs : Forall (fun v => spec_valid (currency v)) (d2_into_vec (d2_thresholds p));
}.

Lemma d2_rebuild t : d2_wf t -> d2_try_new (d2_into_vec t) = Ok t.
Proof.
  intros [Hs Hv].
  assert (Hvals : Forall posted_ok (d2_into_vec t)).
  { apply Forall_fmap, Forall_forall. intros [c v] Hin. by apply (Hv c v Hin). }
  assert (Hkeys : value_code <$> d2_into_vec t = fst <$> d2_map t).
  { unfold d2_into_vec. rewrite <- list_fmap_compose. apply list_fmap_ext. intros k [c v] Hin.
    apply list_elem_of_lookup_2 in Hin. cbn. symmetry. apply (Hv c v Hin). }
  pose proof (d2_try_new_spec _ Hvals) as Hspec. destruct (d2_try_new (d2_into_vec t)) as [t'|e].
  - destruct Hspec as ([Hs' Hv'] & _ & _ & Hg). f_equal. destruct t as [m], t' as [m']. cbn in *. f_equal.
    apply (bt_ext String.compare); [done|done|]. intros c.
    assert (Hone : forall v, bt_get String.compare c m' = Some v <-> bt_get String.compare c m = Some v).
    { intros v. unfold d2_get in Hg. cbn in Hg. rewrite Hg. rewrite (bt_get_elem String.compare) by done. split.
      - intros [Hin <-]. apply list_elem_of_fmap in Hin as ([c' v'] & -> & Hin). cbn. by destruct (Hv c' v' Hin) as [<- _].
      - intros Hin. destruct (Hv c v Hin) as [-> _]. split; [|done]. apply list_elem_of_fmap. by exists (value_code v, v). }
    apply option_eq. intros v. apply Hone.
  - destruct Hspec. split.
    + rewrite Hkeys. by apply (bt_keys_nodup String.compare).
    + apply Forall_fmap, Forall_forall. intros [c v] Hin. by apply (Hv c v Hin).
Qed.

(** The check accepts a snapshot of a well-formed policy as it is. *)
Lemma snapshot_accepted `{!InstantText} policy now version basis threshold :
  policy_valid policy ->
  (forall m, threshold = Some m -> money_valid m /\ d2_threshold policy (currency m) = Ok m) ->
  let s := threshold_snapshot policy now version basis threshold in
  check_threshold_snapshot s = Ok s.
Proof.
  intros [[Hwf Ha Ht] Hsp] Hth s. unfold check_threshold_snapshot, s, threshold_snapshot. cbn -[d2_into_vec money_from_stored stored_from_posted].
  assert (Hvals : Forall money_valid (d2_into_vec (d2_thresholds policy))).
  { rewrite Forall_forall in Hsp |- *. intros v Hv. split; [|by apply Hsp]. apply list_elem_of_fmap in Hv as ([c w] & -> & Hin).
    by apply (dw_values _ Hwf c w). }
  assert (Hback : map_res (fun v => map_err (fun _ => DomainError.Internal) (money_from_stored v))
                    (stored_from_posted <$> d2_into_vec (d2_thresholds policy)) = Ok (d2_into_vec (d2_thresholds policy))).
  { clear -Hvals. induction Hvals as [|v l Hv _ IH]; [done|]. rewrite fmap_cons. cbn [map_res]. rewrite money_back by done.
    cbn [map_err mbind result_bind]. by rewrite IH. }
  rewrite Hback. cbn [mbind result_bind]. rewrite d2_rebuild by done. cbn [mbind result_bind].
  assert (Hp : policy_try_new (d2_thresholds policy) (a6_backdating_biz_days policy) (pending_ttl_seconds policy) = Ok policy).
  { apply policy_try_new_ok. split; [by destruct policy|done]. }
  rewrite Hp. cbn [map_err mbind result_bind]. rewrite bool_decide_false by (intros Hn; by apply Hn).
  destruct threshold as [m|]; cbn [fmap option_fmap option_map mbind result_bind]; [|done].
  destruct (Hth m eq_refl) as [Hm Hd]. rewrite money_back by done. cbn [map_err mbind result_bind]. rewrite Hd.
  cbn [map_err mbind result_bind]. rewrite (proj2 (posted_eqb_ok m m (proj1 Hm) (proj1 Hm)) eq_refl). done.
Qed.
End stored.
