(* ===== verification/DualApproval.v ===== *)
(** * Dual-control approvals of the ledger: [ledger/src/infra/approval/service.rs],
      [executor.rs], [infra/storage/repo/approval_repo.rs], [infra/posting/retry.rs],
      [error_transport.rs]

    A mutation over the threshold is stored as a pending approval; a second person
    approves it, which replays the captured mutation, or rejects it, or sends it back
    for rework.  The tables are lists of rows; a repository function that runs in the
    caller's transaction maps the tables to a result and new tables.  A service method
    is a [Prog]: the reads, transactions and calls are its steps.  A transaction is
    retried as [retry_transaction_for] does it, each attempt a step of its own.

    What the environment decides at a step is [Env]: the clock, a failure of the
    database, fresh identifiers, what the other repositories hold (currencies, rates,
    the reversed entry), and the answer of the mutation surface.  The tables also keep
    the history that the theorems speak of, which no operation reads: every stored
    version of an intent, every latch, every call of a surface. *)

From Stdlib Require Import Ascii.
From S2P Require Import Prelude BTree Sql Decimal Money Exact ExactGrid Iso Sdk DomainErrors MoneyText DualControl Recognition Notes Invoice Adjustment Reversal FxTranslate Json Intent StoredIntent Handler.

(** ** Errors *)

Definition repo_to_domain (e : RepoError) : DomainError :=
  match e with
  | RepoError.InvalidRequest => DomainError.InvalidRequest
  | RepoError.ApprovalPolicyOutOfRange => DomainError.DualControlPolicyOutOfRange
  | RepoError.Conflict => DomainError.ConcurrentModification
  | RepoError.DisputeNotOpen => DomainError.InvalidDisputeTransition
  | RepoError.RecognitionPolicyConflict => DomainError.RecognitionPolicyConflict
  | RepoError.Money error => map_money_error error
  | RepoError.InvalidStoredMoney => DomainError.Internal
  | RepoError.CurrencyScaleLocked => DomainError.CurrencyScaleLocked
  | RepoError.ScaleOutOfRange => DomainError.AmountOutOfRange
  | RepoError.Db | RepoError.RowVanished | RepoError.MoneyOutCapExceeded => DomainError.Internal
  end.

Module AttemptError.
Inductive attempt_error := Conflict | Business (e : DomainError).
End AttemptError.
Abbreviation AttemptError := AttemptError.attempt_error.

Module InsertPendingError.
Inductive insert_pending_error := ActiveExists | Repo (e : RepoError).
End InsertPendingError.
Abbreviation InsertPendingError := InsertPendingError.insert_pending_error.

Definition attempt_from_domain (error : DomainError) : AttemptError :=
  match error with
  | DomainError.ConcurrentModification => AttemptError.Conflict
  | other => AttemptError.Business other
  end.
Definition attempt_from_repo (error : RepoError) : AttemptError := attempt_from_domain (repo_to_domain error).

Definition policy_config_to_domain `{RustDecimal} (e : PolicyConfigError) : DomainError :=
  match e with
  | MetadataConflict _ _ _ => DomainError.InconsistentScale
  | DuplicateCurrency _ => DomainError.InvalidRequest
  | D2OutOfRange _ _ _ | D2DefaultUnrepresentable _ | A6OutOfRange _ | TtlNotPositive _ =>
      DomainError.DualControlPolicyOutOfRange
  end.

(** How an attempt of a transaction can fail: contention, which is retried; another
    failure of the database; or the loss of the answer after the commit. *)
Inductive Fault := FContention | FFailure (e : DomainError) | FLost (e : DomainError).

(** [ScaleError]. *)
Module ScaleError.
Inductive scale_error := UnknownCurrencyScale | Repo (e : RepoError) | CorruptStoredScale.
End ScaleError.
Abbreviation ScaleError := ScaleError.scale_error.

Definition scale_error_to_domain (e : ScaleError) : DomainError :=
  match e with
  | ScaleError.UnknownCurrencyScale => DomainError.InvalidRequest
  | ScaleError.Repo error => repo_to_domain error
  | ScaleError.CorruptStoredScale => DomainError.Internal
  end.
Definition attempt_from_scale (e : ScaleError) : AttemptError := attempt_from_domain (scale_error_to_domain e).

(** [CurrencyScaleResolver::resolve] and [resolve_in]; [registry] is the answer of the
    registry row's lookup. *)
Definition scale_resolve (registry : string -> result ScaleError (option Z)) (currency : string) : result ScaleError Z :=
  match iso_scale currency with
  | Some scale => Ok scale
  | None => row ← registry currency; ok_or row ScaleError.UnknownCurrencyScale
  end.

Record SecurityContext := mkSecurityContext {
  subject_tenant_id : Uuid;
  subject_id : Uuid;
}.

(** The compiled access filter: the tenant and the resource column of a row. *)
Definition AccessScope := Uuid -> Uuid -> bool.

(** ** Rows *)

Section rows.
Context {J : Type}.

(** [dual_control_approval::Model]. *)
Record ApprovalModelRow := mkApprovalModelRow {
  ap_currency : option string;
  ap_currency_scale : option Z;
  ap_approval_id : Uuid;
  ap_tenant_id : Uuid;
  ap_kind : string;
  ap_state : string;
  ap_revision : Z;
  ap_business_key : string;
  ap_intent : J;
  ap_amount : option string;
  ap_threshold_snapshot : J;
  ap_reason_code : string;
  ap_prepared_by : Uuid;
  ap_prepared_at : OffsetDateTime;
  ap_approved_by : option Uuid;
  ap_decided_at : option OffsetDateTime;
  ap_correlation_id : Uuid;
  ap_expires_at : OffsetDateTime;
}.
End rows.
Arguments ApprovalModelRow : clear implicits.

(** [dual_control_comment::Model]. *)
Record CommentRow := mkCommentRow {
  cm_comment_id : Uuid;
  cm_approval_id : Uuid;
  cm_tenant_id : Uuid;
  cm_revision : Z;
  cm_author_actor : Uuid;
  cm_body : string;
  cm_created_at : OffsetDateTime;
}.

(** [dual_control_policy::Model] and [dual_control_policy_threshold::Model]. *)
Record PolicyRow := mkPolicyRow {
  pl_tenant_id : Uuid;
  pl_version : Z;
  pl_effective_from : OffsetDateTime;
  pl_a6_backdating_biz_days : Z;
  pl_pending_ttl_seconds : Z;
  pl_created_at_utc : OffsetDateTime;
}.
Record ThresholdRow := mkThresholdRow {
  th_tenant_id : Uuid;
  th_version : Z;
  th_currency : string;
  th_currency_scale : Z;
  th_amount : string;
}.

Section service.
Context `{DecimalText} `{!UuidSource} `{!Json} `{!InstantText}.
Context {J : Type} `{!Serde J StoredApprovalIntent, !Serde J StoredThresholdSnapshot, !JsonText J}.

(** ** State and environment *)

(** A command handed to a mutation surface. *)
Inductive Command :=
| PostReversal (entry : PostEntry) (reason : option string)
| PostCreditGrant (tenant payer : Uuid) (application : string) (money : PostedMoney) (event_type : string)
| RecordDisputePhase (tenant payer : Uuid) (payment dispute : string) (invoice : option string) (cycle : Z)
    (phase funds_at_open : string) (disputed : PostedMoney) (effective_at : option NaiveDate)
| ClosePayer (tenant payer actor : Uuid) (closed_with_open_balance : bool)
| ReopenPeriod (tenant legal_entity : Uuid) (period : string) (actor : Uuid)
| PostInvoice (invoice : PostedInvoice) (payer_open : bool)
| ChangeSchedule (tenant : Uuid) (schedule change action treatment : string)
    (segments : option (list (string * PostedMoney)))
| PostRefund (req : RefundRequest)
| PostManualAdjustment (req : ManualAdjustmentRequest)
| PostCreditNote (req : CreditNote.CreditNoteRequest)
| PostDebitNote (req : DebitNote.DebitNoteRequest) (payer_open : bool)
| PostRefundWithCreditNote (refund : RefundRequest) (credit_note : CreditNote.CreditNoteRequest).

(** A call in the history: for which approval and revision, by whom, and whether it
    was accepted. *)
Record SurfaceCall := mkSurfaceCall {
  sc_approval : Uuid;
  sc_revision : Z;
  sc_actor : Uuid;
  sc_intent : DomainIntent;
  sc_command : Command;
  sc_ok : bool;
}.

Record Db := mkDb {
  db_approvals : list (ApprovalModelRow J);
  db_comments : list CommentRow;
  db_policies : list PolicyRow;
  db_thresholds : list ThresholdRow;
  (** History: the intents stored at each revision, the latched revisions, the calls. *)
  db_versions : list (Uuid * Z * J);
  db_latched : list (Uuid * Z);
  db_calls : list SurfaceCall;
}.

Definition set_approvals (l : list (ApprovalModelRow J)) (db : Db) : Db :=
  mkDb l (db_comments db) (db_policies db) (db_thresholds db) (db_versions db) (db_latched db) (db_calls db).
Definition add_version (x : Uuid * Z * J) (db : Db) : Db :=
  mkDb (db_approvals db) (db_comments db) (db_policies db) (db_thresholds db) (db_versions db ++ [x]) (db_latched db) (db_calls db).
Definition add_latches (l : list (Uuid * Z)) (db : Db) : Db :=
  mkDb (db_approvals db) (db_comments db) (db_policies db) (db_thresholds db) (db_versions db) (db_latched db ++ l) (db_calls db).
Definition add_call (c : SurfaceCall) (db : Db) : Db :=
  mkDb (db_approvals db) (db_comments db) (db_policies db) (db_thresholds db) (db_versions db) (db_latched db) (db_calls db ++ [c]).
Definition add_comment_row (c : CommentRow) (db : Db) : Db :=
  mkDb (db_approvals db) (db_comments db ++ [c]) (db_policies db) (db_thresholds db) (db_versions db) (db_latched db) (db_calls db).
Definition add_policy_rows (p : PolicyRow) (ts : list ThresholdRow) (db : Db) : Db :=
  mkDb (db_approvals db) (db_comments db) (db_policies db ++ [p]) (db_thresholds db ++ ts) (db_versions db) (db_latched db) (db_calls db).

(** A rate with its evidence ([RateSnapshotRow], as far as the gate reads it). *)
Record RateQuote := mkRateQuote {
  rq_base_currency : CurrencySpec;
  rq_quote_currency : CurrencySpec;
  rq_rate : Decimal;
}.

Record Env := mkEnv {
  e_fault : option Fault;
  e_now : OffsetDateTime;
  e_uuid : Uuid;
  e_functional : option string;
  e_registry : string -> result ScaleError (option Z);
  e_locked : option RateQuote;
  e_rate : result DomainError Decimal;
  e_entry : result unit (option EntryView);
  e_answer : result DomainError unit;
}.

Definition P := Prog Env Db DomainError.

Definition now_utc : P OffsetDateTime := atomic (fun env db => (db, Ok (e_now env))).
Definition new_uuid : P Uuid := atomic (fun env db => (db, Ok (e_uuid env))).

(** A read on a connection of its own. *)
Definition db_read {A} (f : Db -> result DomainError A) : P A :=
  atomic (fun env db => (db, match e_fault env with Some _ => Err DomainError.Internal | None => f db end)).

(** A read of another repository. *)
Definition ask {A} (f : Env -> result DomainError A) : P A :=
  atomic (fun env db => (db, match e_fault env with Some _ => Err DomainError.Internal | None => f env end)).

Definition MAX_ATTEMPTS : nat := 3.

(** [retry_transaction_for]: attempts that conflict are repeated while the budget
    lasts, any other failure ends the loop; only a successful attempt commits. *)
Fixpoint retry_loop {A} (attempts : nat) (body : Env -> Db -> result AttemptError (A * Db)) : P A :=
  match attempts with
  | O => Throw DomainError.ConcurrentModification
  | S attempts =>
      Act (fun env db =>
             match e_fault env with
             | Some FContention | Some (FFailure _) => db
             | Some (FLost _) | None => match body env db with Ok (_, db') => db' | Err _ => db end
             end)
          (fun env db =>
             match e_fault env with
             | Some FContention => retry_loop attempts body
             | Some (FFailure e) | Some (FLost e) => Throw e
             | None =>
                 match body env db with
                 | Ok (a, _) => Ret a
                 | Err AttemptError.Conflict => retry_loop attempts body
                 | Err (AttemptError.Business e) => Throw e
                 end
             end)
  end.
Definition retry_transaction_for {A} (body : Env -> Db -> result AttemptError (A * Db)) : P A :=
  retry_loop MAX_ATTEMPTS body.

(** ** The repository *)

(** A row with its money decoded ([ApprovalRow]). *)
Record ApprovalRow := mkApprovalRow {
  ar_row : ApprovalModelRow J;
  ar_amount : option PostedMoney;
}.

Definition row_try_from (r : ApprovalModelRow J) : result RepoError ApprovalRow :=
  if ap_revision r <? 0 then Err RepoError.InvalidStoredMoney
  else
    amount ← decode_optional_money (ap_amount r) (ap_currency r) (ap_currency_scale r);
    Ok (mkApprovalRow r amount).

Definition pending_insert_error (error : InsertPendingError) : AttemptError :=
  match error with
  | InsertPendingError.ActiveExists => AttemptError.Business DomainError.ConcurrentModification
  | InsertPendingError.Repo error => attempt_from_repo error
  end.

(** The states of the partial unique index [uq_ledger_approval_active]. *)
Definition slot_held (r : ApprovalModelRow J) : bool :=
  bool_decide (ap_state r ∈ [as_str SPending; as_str SNeedsRework; as_str SApproving]).
Definition same_slot (r s : ApprovalModelRow J) : bool :=
  bool_decide (ap_tenant_id r = ap_tenant_id s) && bool_decide (ap_kind r = ap_kind s)
  && bool_decide (ap_business_key r = ap_business_key s).

(** The primary key or the partial unique index refuses the row. *)
Definition unique_violation (r : ApprovalModelRow J) (l : list (ApprovalModelRow J)) : bool :=
  existsb (fun s => bool_decide (ap_approval_id s = ap_approval_id r) || (slot_held r && slot_held s && same_slot r s)) l.

Definition row_scope (scope : AccessScope) (r : ApprovalModelRow J) : bool := scope (ap_tenant_id r) (ap_approval_id r).

(** [insert_pending], on the row it builds. *)
Definition pending_row (approval_id tenant : Uuid) (knd business_key : string) (intent : J) (amt : option PostedMoney)
    (snapshot : J) (reason_code : string) (prepared_by : Uuid) (prepared_at : OffsetDateTime) (correlation_id : Uuid)
    (expires_at : OffsetDateTime) : ApprovalModelRow J :=
  mkApprovalModelRow ((fun v => code (currency v)) <$> amt) ((fun v => currency_scale (currency v)) <$> amt)
    approval_id tenant knd (as_str SPending) 0 business_key intent (encode_amount <$> amt) snapshot reason_code
    prepared_by prepared_at None None correlation_id expires_at.

Definition insert_pending (scope : AccessScope) (row : ApprovalModelRow J) (db : Db) : result InsertPendingError (unit * Db) :=
  if negb (row_scope scope row) then Err (InsertPendingError.Repo RepoError.Db)
  else if unique_violation row (db_approvals db) then Err InsertPendingError.ActiveExists
  else Ok (tt, add_version (ap_approval_id row, ap_revision row, ap_intent row)
                 (set_approvals (db_approvals db ++ [row]) db)).

Definition read_row (scope : AccessScope) (tenant approval_id : Uuid) (db : Db) : option (ApprovalModelRow J) :=
  List.find (fun r => row_scope scope r && bool_decide (ap_tenant_id r = tenant)
                      && bool_decide (ap_approval_id r = approval_id)) (db_approvals db).

Definition read_in_txn (scope : AccessScope) (tenant approval_id : Uuid) (db : Db) : result RepoError (option ApprovalRow) :=
  transpose (row_try_from <$> read_row scope tenant approval_id db).

Definition with_state (state : string) (decider : option Uuid) (decided_at : option OffsetDateTime)
    (r : ApprovalModelRow J) : ApprovalModelRow J :=
  mkApprovalModelRow (ap_currency r) (ap_currency_scale r) (ap_approval_id r) (ap_tenant_id r) (ap_kind r) state
    (ap_revision r) (ap_business_key r) (ap_intent r) (ap_amount r) (ap_threshold_snapshot r) (ap_reason_code r)
    (ap_prepared_by r) (ap_prepared_at r) decider decided_at (ap_correlation_id r) (ap_expires_at r).

Definition transition_cond (scope : AccessScope) (tenant approval_id : Uuid) (expected_state : string)
    (expected_revision : Z) (r : ApprovalModelRow J) : bool :=
  row_scope scope r && bool_decide (ap_tenant_id r = tenant) && bool_decide (ap_approval_id r = approval_id)
  && bool_decide (ap_state r = expected_state) && (ap_revision r =? expected_revision).

(** [transition].  The check constraint keeps the approver apart from the preparer. *)
Definition transition (scope : AccessScope) (tenant approval_id : Uuid) (expected_state : string)
    (expected_revision : Z) (new_state : string) (decider : option Uuid) (decided_at : option OffsetDateTime)
    (db : Db) : result RepoError (Z * Db) :=
  let cond := transition_cond scope tenant approval_id expected_state expected_revision in
  if existsb (fun r => cond r && bool_decide (decider = Some (ap_prepared_by r))) (db_approvals db)
  then Err RepoError.Db
  else
    let '(rows, n) := sql_update cond (with_state new_state decider decided_at) (db_approvals db) in
    let latches := if bool_decide (new_state = as_str SApproving)
                   then (fun r => (ap_approval_id r, ap_revision r)) <$> List.filter cond (db_approvals db) else [] in
    Ok (n, add_latches latches (set_approvals rows db)).

Definition resubmitted_row (intent snapshot : J) (amt : option PostedMoney) (revision : Z) (r : ApprovalModelRow J) :
    ApprovalModelRow J :=
  mkApprovalModelRow ((fun v => code (currency v)) <$> amt) ((fun v => currency_scale (currency v)) <$> amt)
    (ap_approval_id r) (ap_tenant_id r) (ap_kind r) (as_str SPending) revision (ap_business_key r) intent
    (encode_amount <$> amt) snapshot (ap_reason_code r) (ap_prepared_by r) (ap_prepared_at r) (ap_approved_by r)
    (ap_decided_at r) (ap_correlation_id r) (ap_expires_at r).

Definition checked_add_i32 (a b : Z) : option Z := if a + b <=? 2 ^ 31 - 1 then Some (a + b) else None.

Definition repo_resubmit (scope : AccessScope) (tenant approval_id : Uuid) (new_intent new_snapshot : J)
    (new_amount : option PostedMoney) (expected_revision : Z) (db : Db) : result RepoError (Z * Db) :=
  current ← read_in_txn scope tenant approval_id db;
  match current with
  | None => Ok (0, db)
  | Some current =>
      if negb (bool_decide (ap_state (ar_row current) = as_str SNeedsRework)) then Ok (0, db)
      else if negb (ap_revision (ar_row current) =? expected_revision) then Err RepoError.Conflict
      else
        new_revision ← ok_or (if 0 <=? expected_revision then checked_add_i32 expected_revision 1 else None)
                         RepoError.InvalidStoredMoney;
        let cond := transition_cond scope tenant approval_id (as_str SNeedsRework) expected_revision in
        let '(rows, n) := sql_update cond (resubmitted_row new_intent new_snapshot new_amount new_revision) (db_approvals db) in
        if negb (n =? 1) then Err RepoError.Conflict
        else Ok (n, add_version (approval_id, new_revision, new_intent) (set_approvals rows db))
  end.

Definition expired (now : OffsetDateTime) (r : ApprovalModelRow J) : bool :=
  bool_decide (ap_state r ∈ as_str <$> ACTIVE) && (ap_expires_at r <=? now).

(** The bulk updates leave the other columns of a row. *)
Definition expire_row (r : ApprovalModelRow J) : ApprovalModelRow J :=
  with_state (as_str SExpired) (ap_approved_by r) (ap_decided_at r) r.

Definition expire_due (scope : AccessScope) (tenant : Uuid) (now : OffsetDateTime) (db : Db) : result RepoError (Z * Db) :=
  let '(rows, n) := sql_update (fun r => row_scope scope r && bool_decide (ap_tenant_id r = tenant) && expired now r)
                      expire_row (db_approvals db) in
  Ok (n, set_approvals rows db).

Definition expire_due_all (now : OffsetDateTime) : P Z :=
  atomic (fun env db =>
    match e_fault env with
    | Some _ => (db, Err DomainError.Internal)
    | None => let '(rows, n) := sql_update (expired now) expire_row (db_approvals db) in (set_approvals rows db, Ok n)
    end).

Definition count_approving_all : P Z :=
  db_read (fun db => Ok (Z.of_nat (length (List.filter (fun r => bool_decide (ap_state r = as_str SApproving)) (db_approvals db))))).

Definition append_comment (scope : AccessScope) (comment_id approval_id tenant : Uuid) (revision : Z) (author : Uuid)
    (body : string) (created_at : OffsetDateTime) (db : Db) : result RepoError (unit * Db) :=
  if negb (scope tenant approval_id) then Err RepoError.Db
  else if existsb (fun c => bool_decide (cm_comment_id c = comment_id)) (db_comments db) then Err RepoError.Db
  else Ok (tt, add_comment_row (mkCommentRow comment_id approval_id tenant revision author body created_at) db).

(** [ORDER BY version DESC LIMIT 1]. *)
Definition max_policy_version (scope : AccessScope) (tenant : Uuid) (db : Db) : option Z :=
  pl_version <$> head (sql_select (fun r => - pl_version r)
                         (fun r => scope (pl_tenant_id r) (pl_tenant_id r) && bool_decide (pl_tenant_id r = tenant)) 1
                         (db_policies db)).

Definition threshold_rows (tenant : Uuid) (version : Z) (policy : DualControlPolicy) : list ThresholdRow :=
  (fun v => mkThresholdRow tenant version (code (currency v)) (currency_scale (currency v)) (encode_amount v))
    <$> d2_into_vec (d2_thresholds policy).

Definition insert_policy_row (scope : AccessScope) (tenant : Uuid) (version : Z) (effective_from : OffsetDateTime)
    (policy : DualControlPolicy) (created_at : OffsetDateTime) (db : Db) : result RepoError (unit * Db) :=
  if negb (scope tenant tenant) then Err RepoError.Db
  else if existsb (fun r => bool_decide (pl_tenant_id r = tenant) && (pl_version r =? version)) (db_policies db)
  then Err RepoError.Conflict
  else Ok (tt, add_policy_rows (mkPolicyRow tenant version effective_from (a6_backdating_biz_days policy)
                                  (pending_ttl_seconds policy) created_at)
                 (threshold_rows tenant version policy) db).

Definition repo_read (scope : AccessScope) (tenant approval_id : Uuid) : P (option ApprovalRow) :=
  db_read (fun db => map_err (fun _ => DomainError.Internal) (read_in_txn scope tenant approval_id db)).

(** [read_policy_versions_in]: the thresholds of a version in the order of their
    currencies. *)
Definition policy_version_of (thresholds : list ThresholdRow) (r : PolicyRow) : result RepoError PolicyVersion :=
  let children := sort_by (fun a b => String.compare (th_currency a) (th_currency b))
                    (List.filter (fun c => th_version c =? pl_version r) thresholds) in
  values ← map_res (fun c => decode_money (th_amount c) (th_currency c) (th_currency_scale c)) children;
  policy ← map_err (fun _ => RepoError.InvalidStoredMoney)
             (d2 ← d2_try_new values; policy_try_new d2 (pl_a6_backdating_biz_days r) (pl_pending_ttl_seconds r));
  Ok (mkPolicyVersion (pl_effective_from r) (pl_version r) policy).

Definition read_policy_versions_in (scope : AccessScope) (tenant : Uuid) (db : Db) : result RepoError (list PolicyVersion) :=
  let rows := List.filter (fun r => scope (pl_tenant_id r) (pl_tenant_id r) && bool_decide (pl_tenant_id r = tenant)) (db_policies db) in
  let thresholds := List.filter (fun c => scope (th_tenant_id c) (th_tenant_id c) && bool_decide (th_tenant_id c = tenant)) (db_thresholds db) in
  map_res (policy_version_of thresholds) rows.

Definition read_policy_versions (scope : AccessScope) (tenant : Uuid) : P (list PolicyVersion) :=
  db_read (fun db => map_err (fun _ => DomainError.Internal) (read_policy_versions_in scope tenant db)).

Definition active_cond (scope : AccessScope) (tenant : Uuid) (knd business_key : string) (now : OffsetDateTime)
    (r : ApprovalModelRow J) : bool :=
  row_scope scope r && bool_decide (ap_tenant_id r = tenant) && bool_decide (ap_kind r = knd)
  && bool_decide (ap_business_key r = business_key)
  && bool_decide (ap_state r ∈ [as_str SPending; as_str SNeedsRework; as_str SApproving])
  && (now <? ap_expires_at r).

Definition read_active (scope : AccessScope) (tenant : Uuid) (knd business_key : string) (now : OffsetDateTime) :
    P (option ApprovalRow) :=
  db_read (fun db => map_err (fun _ => DomainError.Internal)
    (transpose (row_try_from <$> List.find (active_cond scope tenant knd business_key now) (db_approvals db)))).

(** Newest first, by a stable sort. *)
Definition repo_list (scope : AccessScope) (tenant : Uuid) (state knd : option string) : P (list ApprovalRow) :=
  db_read (fun db =>
    let rows := List.filter (fun r => row_scope scope r && bool_decide (ap_tenant_id r = tenant)
                  && from_option (fun s => bool_decide (ap_state r = s)) true state
                  && from_option (fun k => bool_decide (ap_kind r = k)) true knd) (db_approvals db) in
    map_err (fun _ => DomainError.Internal)
      (map_res row_try_from (sort_by (fun a b => ap_prepared_at b ?= ap_prepared_at a) rows))).

Definition read_thread (scope : AccessScope) (tenant approval_id : Uuid) : P (list CommentRow) :=
  db_read (fun db => Ok (sort_by (fun a b => cm_created_at a ?= cm_created_at b)
    (List.filter (fun c => scope (cm_tenant_id c) (cm_approval_id c) && bool_decide (cm_tenant_id c = tenant)
                  && bool_decide (cm_approval_id c = approval_id)) (db_comments db)))).

(** ** The executor port *)

(** [execute] of a caller, for an approval at a revision (which the history keeps). *)
Definition Executor := SecurityContext -> AccessScope -> Uuid -> Z -> DomainIntent -> P unit.

(** What the executor makes of a surface's answer: the client's errors are internal, a
    refund held behind a dispute is a success. *)
Definition outcome (c : Command) (answer : result DomainError unit) : result DomainError unit :=
  match c, answer with
  | PostCreditGrant _ _ _ _ _, Err _ | RecordDisputePhase _ _ _ _ _ _ _ _ _ _, Err _
  | ChangeSchedule _ _ _ _ _ _, Err _ => Err DomainError.Internal
  | PostRefund _, Err DomainError.RefundDisputeHeld => Ok tt
  | _, answer => answer
  end.

Definition surface (actor approval_id : Uuid) (revision : Z) (intent : DomainIntent) (c : Command) : P unit :=
  atomic (fun env db =>
    let r := outcome c (e_answer env) in
    (add_call (mkSurfaceCall approval_id revision actor intent c (is_ok r)) db, r)).

(** The command an intent is replayed as. *)
Definition dispatch (ctx : SecurityContext) (intent : DomainIntent) : P Command :=
  match intent with
  | ApprovalIntent.Reverse i =>
      original ← atomic (fun env db =>
        (db, match e_entry env with
             | Err _ => Err DomainError.Internal
             | Ok entry => ok_or entry DomainError.ApprovalNotActionable
             end));
      let into_period := default (ev_period_id original) (rvi_into_period_id i) in
      now ← match rvi_effective_at i with Some _ => mret 0 | None => now_utc end;
      let effective_on := default (to_naive_date now) (rvi_effective_at i) in
      reversal ← lift (map_err (fun _ => DomainError.Internal)
        (build_reversal original into_period effective_on (subject_id ctx) (ev_correlation_id original)));
      mret (PostReversal reversal (Some (rvi_reason i)))
  | ApprovalIntent.CreditGrant i =>
      event_type ← lift (ok_or (cgi_credit_grant_event_type i) DomainError.Internal);
      mret (PostCreditGrant (cgi_tenant_id i) (cgi_payer_tenant_id i) (cgi_credit_application_id i) (cgi_amount i) event_type)
  | ApprovalIntent.ChargebackLoss i =>
      mret (RecordDisputePhase (cli_tenant_id i) (cli_payer_tenant_id i) (cli_payment_id i) (cli_dispute_id i)
              (cli_invoice_id i) (cli_cycle i) "LOST" (cli_funds_at_open i) (cli_disputed_amount i) None)
  | ApprovalIntent.PayerClosure i =>
      mret (ClosePayer (pci_tenant_id i) (pci_payer_tenant_id i) (subject_id ctx) (pci_closed_with_open_balance i))
  | ApprovalIntent.PeriodReopen i =>
      mret (ReopenPeriod (pri_tenant_id i) (pri_legal_entity_id i) (pri_period_id i) (subject_id ctx))
  | ApprovalIntent.MaterialBackdating (BackdatedInvoice snap) =>
      posted ← lift (invoice_from_intent snap);
      mret (PostInvoice posted true)
  | ApprovalIntent.RecognitionScheduleChange i =>
      mret (ChangeSchedule (rsi_tenant_id i) (rsi_schedule_id i) (rsi_change_id i) (rsi_action i) (rsi_treatment i)
              (option_map (List.map (fun s => (rcs_period_id s, rcs_amount s))) (rsi_new_segments i)))
  | ApprovalIntent.Refund i =>
      req ← lift (refund_from_intent i);
      mret (PostRefund req)
  | ApprovalIntent.ManualAdjustment i =>
      req ← lift (manual_from_intent i);
      mret (PostManualAdjustment req)
  | ApprovalIntent.CreditNote i => mret (PostCreditNote (credit_note_from_intent i))
  | ApprovalIntent.DebitNote i => mret (PostDebitNote (debit_note_from_intent i) true)
  | ApprovalIntent.RefundWithCreditNote i =>
      '(refund, credit_note) ← lift (to_requests i);
      mret (PostRefundWithCreditNote refund credit_note)
  end.

(** [LedgerApprovalExecutor::execute]. *)
Definition ledger_execute : Executor := fun ctx _ approval_id revision intent =>
  cmd ← dispatch ctx intent;
  surface (subject_id ctx) approval_id revision intent cmd.

(** ** The lifecycle *)

Definition parse_state (s : string) : result DomainError ApprovalState :=
  ok_or (approval_state_parse s) DomainError.Internal.

Definition ensure_same_intent (row : ApprovalRow) (intent : DomainIntent) : result DomainError unit :=
  stored ← decode_intent (ap_intent (ar_row row));
  a ← canonical_identity (J := J) stored;
  b ← canonical_identity (J := J) intent;
  if negb (bool_decide (a = b)) then Err DomainError.ApprovalNotActionable else Ok tt.

(** [serde_json::json!] keeps the order of the members. *)
Definition decision_audit (decision knd business_key : string) (prepared_by decided_by : Uuid) (reason : option string) : string :=
  String.string_of_list_ascii (Json.to_vec (VObject
    [("event_type", VString "exception-resolution"); ("decision", VString decision); ("kind", VString knd);
     ("business_key", VString business_key); ("prepared_by", VString (uuid_to_string prepared_by));
     ("decided_by", VString (uuid_to_string decided_by));
     ("reason", from_option VString VNull reason)])).

(** [ok_or_else(ApprovalNotFound)] on a read. *)
Definition read_found (scope : AccessScope) (tenant approval_id : Uuid) : P ApprovalRow :=
  row ← repo_read scope tenant approval_id;
  lift (ok_or row DomainError.ApprovalNotFound).

Definition NANOS : Z := 10 ^ 9.

Definition create_body (scope : AccessScope) (tenant : Uuid) (now : OffsetDateTime) (row : ApprovalModelRow J)
    (db : Db) : result AttemptError (unit * Db) :=
  '(_, db) ← map_err attempt_from_repo (expire_due scope tenant now db);
  map_err pending_insert_error (insert_pending scope row db).

Definition create_pending (ctx : SecurityContext) (scope : AccessScope) (intent : DomainIntent) (reason_code : string)
    (snapshot : StoredThresholdSnapshot) (amt : option PostedMoney) (ttl_seconds : Z) : P Uuid :=
  checked ← lift (check_threshold_snapshot snapshot);
  snapshot_json ← lift (map_err (fun _ => DomainError.Internal) (to_value checked));
  let tenant := subject_tenant_id ctx in
  let knd := as_str (kind intent) in
  let key := business_key intent in
  now ← now_utc;
  active ← read_active scope tenant knd key now;
  match active with
  | Some existing =>
      _ ← lift (ensure_same_intent existing intent);
      mret (ap_approval_id (ar_row existing))
  | None =>
      approval_id ← new_uuid;
      let expires_at := now + ttl_seconds * NANOS in
      intent_json ← lift (encode_intent intent);
      correlation_id ← new_uuid;
      let row := pending_row approval_id tenant knd key intent_json amt snapshot_json reason_code (subject_id ctx) now
                   correlation_id expires_at in
      created ← attempt (retry_transaction_for (fun _ => create_body scope tenant now row));
      match created with
      | Ok _ => mret approval_id
      | Err DomainError.ConcurrentModification =>
          now2 ← now_utc;
          winner ← read_active scope tenant knd key now2;
          match winner with
          | Some existing =>
              _ ← lift (ensure_same_intent existing intent);
              mret (ap_approval_id (ar_row existing))
          | None => Throw DomainError.ConcurrentModification
          end
      | Err e => Throw e
      end
  end.

Definition operation_locked_rate (intent : DomainIntent) : P (option RateQuote) :=
  match intent with
  | ApprovalIntent.Refund _ | ApprovalIntent.RefundWithCreditNote _ | ApprovalIntent.CreditNote _
  | ApprovalIntent.DebitNote _ => ask (fun env => Ok (e_locked env))
  | _ => mret None
  end.

Definition fx_error_to_domain (e : FxTranslateError) : DomainError :=
  match e with
  | FxTranslateError.Exact e => map_exact_error e
  | _ => DomainError.Internal
  end.

Definition with_amount (facts : OperationFacts) (v : PostedMoney) : OperationFacts :=
  mkOperationFacts (of_kind facts) (Some v) (of_effective_at facts) (of_has_outstanding_balance facts).

(** The rate and the target currency of the valuation. *)
Definition valuation_rate (amt : PostedMoney) (functional : string) (locked : option RateQuote) : P (Decimal * CurrencySpec) :=
  match locked with
  | Some q =>
      if negb (bool_decide (code (rq_base_currency q) = code (currency amt)))
         || negb (bool_decide (code (rq_quote_currency q) = functional))
      then Throw DomainError.CurrencyMismatch
      else if negb (currency_scale (rq_base_currency q) =? currency_scale (currency amt))
      then Throw DomainError.InconsistentScale
      else mret (rq_rate q, rq_quote_currency q)
  | None =>
      scale ← ask (fun env => map_err scale_error_to_domain (scale_resolve (e_registry env) functional));
      target ← lift (map_err map_money_error (currency_spec_try_new functional scale));
      rate ← atomic (fun env db => (db, e_rate env));
      mret (rate, target)
  end.

Definition to_functional_facts (facts : OperationFacts) (intent : DomainIntent) : P OperationFacts :=
  match valuation_basis (of_kind facts), of_amount facts with
  | BasisTransaction, _ | _, None => mret facts
  | BasisFunctional, Some amt =>
      functional ← ask (fun env => Ok (e_functional env));
      match functional with
      | None => mret facts
      | Some functional =>
          if bool_decide (functional = code (currency amt)) then mret facts
          else
            locked ← operation_locked_rate intent;
            '(rate, target) ← valuation_rate amt functional locked;
            v ← lift (map_err fx_error_to_domain (translate_amount amt rate target));
            mret (with_amount facts v)
      end
  end.

(** The facts must state the amount the intent captured. *)
Definition facts_match (intent : DomainIntent) (facts : OperationFacts) : result DomainError unit :=
  if negb (bool_decide (of_kind facts = kind intent)) then Err DomainError.InvalidRequest
  else
    captured ← governed_amount intent;
    match captured with
    | Some direct =>
        match of_amount facts with
        | Some comparand =>
            _ ← matching_spec direct comparand;
            if negb (posted_eqb direct comparand) then Err DomainError.InvalidRequest else Ok tt
        | None => if amount_gated (kind intent) then Err DomainError.InvalidRequest else Ok tt
        end
    | None => Ok tt
    end.

(** [policy.d2_threshold(v.currency())] of the amount, if there is one. *)
Definition resolved_threshold (policy : DualControlPolicy) (amt : option PostedMoney) : result DomainError (option PostedMoney) :=
  map_err policy_config_to_domain (transpose ((fun v => d2_threshold policy (currency v)) <$> amt)).

Definition gate (ctx : SecurityContext) (scope : AccessScope) (intent : DomainIntent) (facts : OperationFacts)
    (reason_code : string) : P (option Uuid) :=
  versions ← read_policy_versions scope (subject_tenant_id ctx);
  now ← now_utc;
  let policy := resolve_policy_at versions now in
  _ ← lift (facts_match intent facts);
  let original_currency := currency <$> of_amount facts in
  facts ← to_functional_facts facts intent;
  gated ← lift (map_err policy_config_to_domain (requires_dual_control facts policy (to_naive_date now)));
  if negb gated then mret None
  else
    resolved ← lift (resolved_threshold policy (of_amount facts));
    let snapshot := threshold_snapshot policy now (effective_version versions now)
      (if bool_decide (currency <$> of_amount facts = original_currency) then TransactionGate else FunctionalGate) resolved in
    id ← create_pending ctx scope intent reason_code snapshot (of_amount facts) (pending_ttl_seconds policy);
    mret (Some id).

Definition read_effective_policy (scope : AccessScope) (tenant : Uuid) (now : OffsetDateTime) : P (option PolicyVersion) :=
  versions ← read_policy_versions scope tenant;
  mret (effective_version versions now).

Definition checked_add_i64 (a b : Z) : option Z := if a + b <=? 2 ^ 63 - 1 then Some (a + b) else None.

(** Every threshold at the scale of the registry. *)
Definition threshold_scales (registry : string -> result ScaleError (option Z)) (policy : DualControlPolicy) :
    result AttemptError unit :=
  fold_res (fun _ value =>
    registered ← map_err attempt_from_scale (scale_resolve registry (code (currency value)));
    if negb (registered =? currency_scale (currency value))
    then Err (AttemptError.Business DomainError.InconsistentScale) else Ok tt)
    tt (d2_into_vec (d2_thresholds policy)).

Definition policy_body (scope : AccessScope) (tenant : Uuid) (policy : DualControlPolicy) (effective_from created_at : OffsetDateTime)
    (env : Env) (db : Db) : result AttemptError (Z * Db) :=
  _ ← threshold_scales (e_registry env) policy;
  next ← match max_policy_version scope tenant db with
         | Some v => ok_or (checked_add_i64 v 1) (AttemptError.Business DomainError.Internal)
         | None => Ok 0
         end;
  '(_, db) ← map_err attempt_from_repo (insert_policy_row scope tenant next effective_from policy created_at db);
  Ok (next, db).

Definition set_policy (ctx : SecurityContext) (scope : AccessScope) (thresholds : list PostedMoney)
    (a6 ttl : Z) (effective_from : OffsetDateTime) : P Z :=
  policy ← lift (map_err policy_config_to_domain (d2 ← d2_try_new thresholds; policy_try_new d2 a6 ttl));
  created_at ← now_utc;
  retry_transaction_for (policy_body scope (subject_tenant_id ctx) policy effective_from created_at).

Definition load_for_approve (scope : AccessScope) (tenant approval_id : Uuid) : P ApprovalRow :=
  row ← read_found scope tenant approval_id;
  state ← lift (parse_state (ap_state (ar_row row)));
  match state with
  | SPending =>
      now ← now_utc;
      if ap_expires_at (ar_row row) <=? now then Throw DomainError.ApprovalNotActionable else mret row
  | SApproving => mret row
  | _ => Throw DomainError.ApprovalNotActionable
  end.

Definition load_pending (scope : AccessScope) (tenant approval_id : Uuid) : P ApprovalRow :=
  row ← read_found scope tenant approval_id;
  state ← lift (parse_state (ap_state (ar_row row)));
  if negb (bool_decide (state = SPending)) then Throw DomainError.ApprovalNotActionable
  else
    now ← now_utc;
    if ap_expires_at (ar_row row) <=? now then Throw DomainError.ApprovalNotActionable else mret row.

Definition bare_body (scope : AccessScope) (tenant approval_id : Uuid) (expected : ApprovalState) (revision : Z)
    (new_state : ApprovalState) (db : Db) : result AttemptError (bool * Db) :=
  '(rows, db) ← map_err attempt_from_repo
    (transition scope tenant approval_id (as_str expected) revision (as_str new_state) None None db);
  Ok (0 <? rows, db).

Definition bare_transition (tenant : Uuid) (scope : AccessScope) (approval_id : Uuid) (expected : ApprovalState)
    (revision : Z) (new_state : ApprovalState) : P bool :=
  retry_transaction_for (fun _ => bare_body scope tenant approval_id expected revision new_state).

Definition commit_body (scope : AccessScope) (tenant approval_id : Uuid) (expected new_state : ApprovalState)
    (decider : Uuid) (revision : Z) (audit_body : string) (now : OffsetDateTime) (comment_id : Uuid) (db : Db) :
    result AttemptError (bool * Db) :=
  let approved_by := if bool_decide (new_state = SApproved) then Some decider else None in
  '(rows, db') ← map_err attempt_from_repo
    (transition scope tenant approval_id (as_str expected) revision (as_str new_state) approved_by (Some now) db);
  if rows =? 0 then Ok (false, db')
  else
    '(_, db'') ← map_err attempt_from_repo
      (append_comment scope comment_id approval_id tenant revision decider audit_body now db');
    Ok (true, db'').

Definition commit_transition (tenant : Uuid) (scope : AccessScope) (approval_id : Uuid) (expected new_state : ApprovalState)
    (decider : Uuid) (revision : Z) (audit_body : string) : P unit :=
  now ← now_utc;
  comment_id ← new_uuid;
  applied ← retry_transaction_for (fun _ =>
    commit_body scope tenant approval_id expected new_state decider revision audit_body now comment_id);
  if (applied : bool) then mret tt else Throw DomainError.ApprovalNotActionable.

Section decisions.
Context (execute : Executor).

Definition approve (ctx : SecurityContext) (scope : AccessScope) (approval_id : Uuid) : P unit :=
  let tenant := subject_tenant_id ctx in
  let approver := subject_id ctx in
  found ← load_for_approve scope tenant approval_id;
  let row := ar_row found in
  if bool_decide (approver = ap_prepared_by row) then Throw DomainError.SelfApprovalForbidden
  else
    _ ← lift (validate_threshold_snapshot (ap_threshold_snapshot row));
    intent ← lift (decode_intent (ap_intent row));
    state ← lift (parse_state (ap_state row));
    latched ← if bool_decide (state = SPending)
              then bare_transition tenant scope approval_id SPending (ap_revision row) SApproving
              else mret true;
    if negb latched then Throw DomainError.ApprovalNotActionable
    else
      executed ← attempt (execute ctx scope approval_id (ap_revision row) intent);
      match executed with
      | Err e =>
          _ ← attempt (bare_transition tenant scope approval_id SApproving (ap_revision row) SPending);
          Throw e
      | Ok _ =>
          commit_transition tenant scope approval_id SApproving SApproved approver (ap_revision row)
            (decision_audit "approved" (ap_kind row) (ap_business_key row) (ap_prepared_by row) approver None)
      end.
End decisions.

Definition reject (ctx : SecurityContext) (scope : AccessScope) (approval_id : Uuid) (reason : string) : P unit :=
  let tenant := subject_tenant_id ctx in
  let decider := subject_id ctx in
  found ← load_pending scope tenant approval_id;
  let row := ar_row found in
  if bool_decide (decider = ap_prepared_by row) then Throw DomainError.SelfApprovalForbidden
  else
    commit_transition tenant scope approval_id SPending SRejected decider (ap_revision row)
      (decision_audit "rejected" (ap_kind row) (ap_business_key row) (ap_prepared_by row) decider (Some reason)).

Definition cancel (ctx : SecurityContext) (scope : AccessScope) (approval_id : Uuid) : P unit :=
  let tenant := subject_tenant_id ctx in
  let caller := subject_id ctx in
  found ← read_found scope tenant approval_id;
  let row := ar_row found in
  state ← lift (parse_state (ap_state row));
  if negb (is_active state) then Throw DomainError.ApprovalNotActionable
  else if negb (bool_decide (caller = ap_prepared_by row)) then Throw DomainError.ApprovalNotActionable
  else
    commit_transition tenant scope approval_id state SCancelled caller (ap_revision row)
      (decision_audit "cancelled" (ap_kind row) (ap_business_key row) (ap_prepared_by row) caller None).

Definition request_changes (ctx : SecurityContext) (scope : AccessScope) (approval_id : Uuid) (reason : string) : P unit :=
  let tenant := subject_tenant_id ctx in
  let decider := subject_id ctx in
  found ← load_pending scope tenant approval_id;
  let row := ar_row found in
  if bool_decide (decider = ap_prepared_by row) then Throw DomainError.SelfApprovalForbidden
  else
    commit_transition tenant scope approval_id SPending SNeedsRework decider (ap_revision row)
      (decision_audit "needs_rework" (ap_kind row) (ap_business_key row) (ap_prepared_by row) decider (Some reason)).

Definition resubmit_body (scope : AccessScope) (tenant approval_id : Uuid) (intent snapshot : J) (new_amount : option PostedMoney)
    (expected_revision new_revision : Z) (comment_id caller : Uuid) (body : string) (now : OffsetDateTime) (db : Db) :
    result AttemptError (bool * Db) :=
  '(rows, db') ← map_err attempt_from_repo
    (repo_resubmit scope tenant approval_id intent snapshot new_amount expected_revision db);
  if rows =? 0 then Ok (false, db')
  else
    '(_, db'') ← map_err attempt_from_repo
      (append_comment scope comment_id approval_id tenant new_revision caller body now db');
    Ok (true, db'').

Definition resubmit (ctx : SecurityContext) (scope : AccessScope) (approval_id : Uuid) (new_intent : DomainIntent) : P unit :=
  let tenant := subject_tenant_id ctx in
  let caller := subject_id ctx in
  found ← read_found scope tenant approval_id;
  let row := ar_row found in
  state ← lift (parse_state (ap_state row));
  if negb (bool_decide (state = SNeedsRework)) then Throw DomainError.ApprovalNotActionable
  else if negb (bool_decide (caller = ap_prepared_by row)) then Throw DomainError.ApprovalNotActionable
  else if negb (bool_decide (as_str (kind new_intent) = ap_kind row)) then Throw DomainError.ApprovalNotActionable
  else
    _ ← lift (validate_threshold_snapshot (ap_threshold_snapshot row));
    original_intent ← lift (decode_intent (ap_intent row));
    if negb (same_target new_intent original_intent) then Throw DomainError.ApprovalNotActionable
    else
      versions ← read_policy_versions scope tenant;
      resolved_at ← now_utc;
      let policy := resolve_policy_at versions resolved_at in
      new_amount ← lift (governed_amount new_intent);
      resolved ← lift (resolved_threshold policy new_amount);
      let new_snapshot := threshold_snapshot policy resolved_at (effective_version versions resolved_at)
                            ResubmissionTransactionSnapshot resolved in
      snapshot_json ← lift (map_err (fun _ => DomainError.Internal) (to_value new_snapshot));
      new_revision ← lift (ok_or (checked_add_i32 (ap_revision row) 1) DomainError.Internal);
      intent_json ← lift (encode_intent new_intent);
      let body := decision_audit "resubmitted" (ap_kind row) (ap_business_key row) (ap_prepared_by row) caller None in
      now ← now_utc;
      comment_id ← new_uuid;
      applied ← retry_transaction_for (fun _ =>
        resubmit_body scope tenant approval_id intent_json snapshot_json new_amount (ap_revision row) new_revision
          comment_id caller body now);
      if (applied : bool) then mret tt else Throw DomainError.ApprovalNotActionable.

Definition comment_body (scope : AccessScope) (tenant approval_id : Uuid) (revision : Z) (comment_id author : Uuid)
    (body : string) (now : OffsetDateTime) (db : Db) : result AttemptError (unit * Db) :=
  current ← map_err attempt_from_repo (read_in_txn scope tenant approval_id db);
  if negb (bool_decide ((fun r => ap_revision (ar_row r)) <$> current = Some revision))
  then Err (AttemptError.Business DomainError.ApprovalNotActionable)
  else map_err attempt_from_repo (append_comment scope comment_id approval_id tenant revision author body now db).

Definition append_comment_at (ctx : SecurityContext) (scope : AccessScope) (approval_id : Uuid) (revision : Z)
    (body_text : string) : P unit :=
  now ← now_utc;
  comment_id ← new_uuid;
  retry_transaction_for (fun _ =>
    comment_body scope (subject_tenant_id ctx) approval_id revision comment_id (subject_id ctx) body_text now).

Definition add_comment (ctx : SecurityContext) (scope : AccessScope) (approval_id : Uuid) (body_text : string) : P unit :=
  found ← read_found scope (subject_tenant_id ctx) approval_id;
  append_comment_at ctx scope approval_id (ap_revision (ar_row found)) body_text.

Definition approval_list (ctx : SecurityContext) (scope : AccessScope) (state knd : option string) : P (list ApprovalRow) :=
  repo_list scope (subject_tenant_id ctx) state knd.
Definition approval_get (ctx : SecurityContext) (scope : AccessScope) (approval_id : Uuid) : P (option ApprovalRow) :=
  repo_read scope (subject_tenant_id ctx) approval_id.
Definition approval_thread (ctx : SecurityContext) (scope : AccessScope) (approval_id : Uuid) : P (list CommentRow) :=
  read_thread scope (subject_tenant_id ctx) approval_id.

(** [dual_control_maintenance_tick]; the results are only logged. *)
Definition dual_control_maintenance_tick : P unit :=
  now ← now_utc;
  _ ← attempt (expire_due_all now);
  _ ← attempt count_approving_all;
  mret tt.
End service.
Arguments Env {_}.
