(* ===== verification/DualApprovalInv.v ===== *)
(** * The invariant of the approval tables

    [inv] is what every reachable state of the tables satisfies, [evolves] what a step
    of any request does to them.  Each transaction of the service is shown to keep the
    invariant and to evolve the tables; [quiet] and [only] say which transactions leave
    the approvals in execution, or all others, as they are. *)

From Stdlib Require Import Ascii.
From S2P Require Import Prelude BTree Sql Decimal Money Exact ExactGrid Iso Sdk DomainErrors MoneyText Posting DualControl Recognition Notes Invoice Adjustment Reversal FxTranslate Json Intent StoredIntent Handler DualApproval.

(** ** What storing and editing an intent keep *)

Section keys.
Context `{DecimalText} `{!UuidSource}.

Ltac head_of t := match t with ?f _ => head_of f | ?f => f end.
Ltac open_try :=
  repeat match goal with
  | Hv : _ <$> _ = Ok _ |- _ => apply fmap_ok in Hv as (? & ? & ->)
  | Hv : (_ ≫= _) = Ok _ |- _ => apply bind_ok in Hv as (? & ? & ?)
  | Hv : Ok _ = Ok _ |- _ => injection Hv as <-
  | Hv : money_from_stored _ = Ok _ |- _ => clear Hv
  | Hv : ?t = Ok _ |- _ => let h := head_of t in
      progress (cbn [ttry tmap] in Hv; try unfold h in Hv; cbn [ttry tmap] in Hv)
  end.

(** Reading a stored intent keeps its kind and its business key, whatever its money. *)
Lemma stored_key (i i' : DomainIntent) :
  approval_intent_try_from spec_from_stored money_from_stored (intent_to_stored i) = Ok i' ->
  kind i' = kind i /\ business_key i' = business_key i.
Proof.
  unfold intent_to_stored. destruct i as [v|v|v|v|v|[v]|v|v|v|v|v|v]; 
    cbn -[money_from_stored spec_from_stored stored_from_posted]; intros Hv.
  all: open_try; try done.
Qed.

Lemma shape_key (a b : DomainIntent) : shape a = shape b -> kind a = kind b /\ business_key a = business_key b.
Proof.
  unfold shape. destruct a as [v|v|v|v|v|[v]|v|v|v|v|v|v], b as [w|w|w|w|w|[w]|w|w|w|w|w|w]; cbn; intros Hs; try done;
    injection Hs as Hs; intros; subst; split; congruence.
Qed.

Lemma edit_key (a b : DomainIntent) : same_target a b = true -> kind a = kind b /\ business_key a = business_key b.
Proof.
  destruct a, b; cbn [same_target]; try (by intros [Hs%bool_decide_eq_true _]%andb_true_iff; apply shape_key).
  all: case_match; [done|]; intros [Hs%bool_decide_eq_true _]%andb_true_iff; apply shape_key in Hs as [_ Hs]; cbn in Hs |- *; done.
Qed.
End keys.

Lemma ok_pair {E A B} (a a' : A) (b b' : B) : Ok (E := E) (a, b) = Ok (a', b') -> a = a' /\ b = b'.
Proof. by intros [= -> ->]. Qed.

Section invariant.
Context `{DecimalText} `{!UuidSource} `{!Json}.
Context {J : Type} `{!Serde J StoredApprovalIntent}.
Implicit Types (r s : ApprovalModelRow J) (db : Db (J := J)) (id u : Uuid).

Lemma state_inj (s s' : ApprovalState) : as_str s = as_str s' -> s = s'.
Proof. intros Hs. apply (f_equal (from_str (A := ApprovalState))) in Hs. rewrite !from_as_str in Hs. by injection Hs. Qed.

(** ** Rows *)

(** The columns no statement changes. *)
Definition identity r :=
  (ap_approval_id r, ap_tenant_id r, ap_kind r, ap_business_key r, ap_reason_code r, ap_prepared_by r, ap_prepared_at r,
   ap_correlation_id r, ap_expires_at r).

(** The edges of the lifecycle. *)
Inductive lifecycle : ApprovalState -> ApprovalState -> Prop :=
| LLatch : lifecycle SPending SApproving
| LRevert : lifecycle SApproving SPending
| LMark : lifecycle SApproving SApproved
| LReject : lifecycle SPending SRejected
| LRework : lifecycle SPending SNeedsRework
| LResubmit : lifecycle SNeedsRework SPending
| LCancel a : is_active a = true -> lifecycle a SCancelled
| LExpire a : is_active a = true -> lifecycle a SExpired.

Definition is_resubmit (a b : ApprovalState) : bool := bool_decide (a = SNeedsRework) && bool_decide (b = SPending).

(** One step of a row: along the lifecycle, the revision counting the resubmissions and
    the intent fixed between them. *)
Record moves r r' : Prop := mkMoves {
  mv_identity : identity r' = identity r;
  mv_edge : exists a b, ap_state r = as_str a /\ ap_state r' = as_str b /\ lifecycle a b /\
    (if is_resubmit a b then ap_revision r' = ap_revision r + 1
     else ap_revision r' = ap_revision r /\ ap_intent r' = ap_intent r);
}.

Definition row_step r r' : Prop := r' = r \/ moves r r'.

Lemma step_identity r r' : row_step r r' -> identity r' = identity r.
Proof. intros [->|[? _]]; done. Qed.

Lemma step_revision r r' : row_step r r' -> ap_revision r <= ap_revision r'.
Proof. intros [->|[_ (a & b & _ & _ & _ & Hr)]]; [done|]. destruct (is_resubmit a b); [lia|]. destruct Hr. lia. Qed.

Lemma step_intent r r' : row_step r r' -> ap_revision r' = ap_revision r -> ap_intent r' = ap_intent r.
Proof. intros [->|[_ (a & b & _ & _ & _ & Hr)]] He; [done|]. destruct (is_resubmit a b); [lia|]. by destruct Hr. Qed.

Lemma identity_id r r' : identity r' = identity r -> ap_approval_id r' = ap_approval_id r.
Proof. by intros [= ? ? ? ? ? ? ? ? ?]. Qed.
Lemma identity_kind r r' : identity r' = identity r -> ap_kind r' = ap_kind r /\ ap_business_key r' = ap_business_key r.
Proof. by intros [= ? ? ? ? ? ? ? ? ?]. Qed.
Lemma identity_prepared r r' : identity r' = identity r -> ap_prepared_by r' = ap_prepared_by r.
Proof. by intros [= ? ? ? ? ? ? ? ? ?]. Qed.
Lemma identity_slot r r' s : identity r' = identity r -> same_slot r' s = same_slot r s.
Proof. intros [= ? Ht Hk Hb ? ? ? ? ?]. unfold same_slot. by rewrite Ht, Hk, Hb. Qed.
Lemma same_slot_sym r s : same_slot r s = same_slot s r.
Proof. unfold same_slot. f_equal; [f_equal|]; apply bool_decide_ext; split; congruence. Qed.

Lemma held_states r : slot_held r = true <-> exists a, ap_state r = as_str a /\ (a = SPending \/ a = SNeedsRework \/ a = SApproving).
Proof.
  unfold slot_held. rewrite bool_decide_eq_true, !elem_of_cons, elem_of_nil. split.
  - intros [?|[?|[?|[]]]]; eauto 7.
  - intros (a & -> & [->|[->| ->]]); auto.
Qed.

Lemma step_held r r' : row_step r r' -> slot_held r' = true -> slot_held r = true.
Proof.
  intros [->|[_ (a & b & Ha & Hb & Hl & _)]] Hh; [done|]. apply held_states. exists a. split; [done|].
  inversion Hl; subst; auto; destruct a; cbn in *; auto; done.
Qed.

(** ** The invariant *)

(** The decoded intent is about the row's kind and business key. *)
Definition keyed (j : J) r : Prop :=
  forall i, decode_intent j = Ok i -> as_str (kind i) = ap_kind r /\ business_key i = ap_business_key r.

Definition call_ok db (c : SurfaceCall) : Prop :=
  exists r j, r ∈ db_approvals db /\ ap_approval_id r = sc_approval c /\ sc_actor c <> ap_prepared_by r /\
    (sc_approval c, sc_revision c) ∈ db_latched db /\ (sc_approval c, sc_revision c, j) ∈ db_versions db /\
    decode_intent j = Ok (sc_intent c).

(** The word of a decision and who takes it. *)
Definition decided (s : ApprovalState) r (author : Uuid) : option string :=
  match s with
  | SApproved => if bool_decide (ap_approved_by r = Some author) then Some "approved" else None
  | SRejected => if bool_decide (author = ap_prepared_by r) then None else Some "rejected"
  | SNeedsRework => if bool_decide (author = ap_prepared_by r) then None else Some "needs_rework"
  | SCancelled => if bool_decide (author = ap_prepared_by r) then Some "cancelled" else None
  | _ => None
  end%string.

Definition audited db r (s : ApprovalState) : Prop :=
  exists c word reason, c ∈ db_comments db /\ cm_approval_id c = ap_approval_id r /\ cm_revision c = ap_revision r /\
    ap_decided_at r = Some (cm_created_at c) /\ decided s r (cm_author_actor c) = Some word /\
    cm_body c = decision_audit word (ap_kind r) (ap_business_key r) (ap_prepared_by r) (cm_author_actor c) reason.

Definition row_state_ok db r (s : ApprovalState) : Prop :=
  match s with
  | SPending | SExpired => ap_approved_by r = None
  | SApproving => ap_approved_by r = None /\ (ap_approval_id r, ap_revision r) ∈ db_latched db
  | SApproved =>
      (ap_approval_id r, ap_revision r) ∈ db_latched db /\ audited db r SApproved /\
      exists u c, ap_approved_by r = Some u /\ u <> ap_prepared_by r /\ c ∈ db_calls db /\ sc_ok c = true /\
        sc_approval c = ap_approval_id r /\ sc_revision c = ap_revision r /\ sc_actor c = u
  | SRejected | SNeedsRework | SCancelled => ap_approved_by r = None /\ audited db r s
  end.

Definition row_ok db r : Prop :=
  (ap_approval_id r, ap_revision r, ap_intent r) ∈ db_versions db /\
  exists a, ap_state r = as_str a /\ row_state_ok db r a.

(** The versions of a tenant's policies count up from zero. *)
Definition tenant_policies (tenant : Uuid) (l : list PolicyRow) : list PolicyRow :=
  List.filter (fun p => bool_decide (pl_tenant_id p = tenant)) l.
Definition policies_ok (l : list PolicyRow) : Prop :=
  forall tenant, pl_version <$> tenant_policies tenant l = seqZ 0 (Z.of_nat (length (tenant_policies tenant l))).

Record inv db : Prop := mkInv {
  inv_ids : NoDup (ap_approval_id <$> db_approvals db);
  inv_slots r s : r ∈ db_approvals db -> s ∈ db_approvals db -> slot_held r = true -> slot_held s = true ->
    same_slot r s = true -> r = s;
  inv_rows r : r ∈ db_approvals db -> row_ok db r;
  inv_functional id v j j' : (id, v, j) ∈ db_versions db -> (id, v, j') ∈ db_versions db -> j = j';
  inv_versions id v j : (id, v, j) ∈ db_versions db ->
    exists r, r ∈ db_approvals db /\ ap_approval_id r = id /\ v <= ap_revision r /\ keyed j r;
  inv_calls c : c ∈ db_calls db -> call_ok db c;
  inv_policies : policies_ok (db_policies db);
}.

(** ** Growth *)

Record grows db db' : Prop := mkGrows {
  gr_versions : db_versions db ⊆ db_versions db';
  gr_latched : db_latched db ⊆ db_latched db';
  gr_calls : db_calls db ⊆ db_calls db';
  gr_comments : db_comments db ⊆ db_comments db';
  gr_policies : db_policies db `prefix_of` db_policies db';
}.

Record evolves db db' : Prop := mkEvolves {
  ev_rows r : r ∈ db_approvals db -> exists r', r' ∈ db_approvals db' /\ row_step r r';
  ev_grows : grows db db';
}.

#[global] Instance grows_refl : Reflexive grows.
Proof. intros db. by split. Qed.
#[global] Instance grows_trans : Transitive grows.
Proof. intros a b c [] []. split; [set_solver..|by etrans]. Qed.
#[global] Instance evolves_refl : Reflexive evolves.
Proof. intros db. split; [|done]. intros r Hr. exists r. split; [done|by left]. Qed.

(** A row of the next state is the successor of the row with its identifier. *)
Lemma same_id db r s : inv db -> r ∈ db_approvals db -> s ∈ db_approvals db -> ap_approval_id r = ap_approval_id s -> r = s.
Proof.
  intros Hi [i Hr]%list_elem_of_lookup [k Hs]%list_elem_of_lookup He.
  assert (i = k) as <-; [|congruence]. eapply NoDup_lookup; [apply (inv_ids db Hi)| |]; rewrite list_lookup_fmap.
  - by rewrite Hr.
  - rewrite Hs. cbn. by rewrite He.
Qed.

Lemma audited_mono db db' r (a : ApprovalState) : grows db db' -> audited db r a -> audited db' r a.
Proof. intros Hg (c & w & x & Hc & Hrest). exists c, w, x. split; [by apply (gr_comments _ _ Hg)|done]. Qed.

Lemma row_ok_mono db db' r : grows db db' -> row_ok db r -> row_ok db' r.
Proof.
  intros Hg (Hv & s & Hs & Hok). split; [by apply (gr_versions _ _ Hg)|]. exists s. split; [done|].
  destruct s; cbn in *; try done.
  - destruct Hok. split; [done|by apply (gr_latched _ _ Hg)].
  - destruct Hok as (? & ? & u & c & ? & ? & Hc & ?). split_and!; [by apply (gr_latched _ _ Hg)|by eapply audited_mono|].
    exists u, c. split_and!; try done; [by apply (gr_calls _ _ Hg)|naive_solver..].
  - destruct Hok. split; [done|by eapply audited_mono].
  - destruct Hok. split; [done|by eapply audited_mono].
  - destruct Hok. split; [done|by eapply audited_mono].
Qed.

Lemma call_ok_mono db db' c : evolves db db' -> call_ok db c -> call_ok db' c.
Proof.
  intros [Hr Hg] (r & j & Hin & Hid & Ha & Hl & Hv & Hd). destruct (Hr r Hin) as (r' & Hin' & Hst%step_identity).
  exists r', j. rewrite (identity_id _ _ Hst), (identity_prepared _ _ Hst).
  split_and!; try done; [by apply (gr_latched _ _ Hg)|by apply (gr_versions _ _ Hg)].
Qed.

Lemma keyed_identity j r r' : identity r' = identity r -> keyed j r -> keyed j r'.
Proof. intros Hid Hk i Hi. destruct (identity_kind _ _ Hid) as [-> ->]. by apply Hk. Qed.

(** ** Updates *)

(** Rows stepped in place, with what the step adds to the history. *)
Section update.
Context (db db' : Db (J := J)) (g : ApprovalModelRow J -> ApprovalModelRow J).
Hypothesis Hinv : inv db.
Hypothesis Hrows : db_approvals db' = g <$> db_approvals db.
Hypothesis Hstep : forall r, r ∈ db_approvals db -> row_step r (g r).
Hypothesis Hgrows : grows db db'.
Hypothesis Hok : forall r, r ∈ db_approvals db -> g r = r \/ row_ok db' (g r).
Hypothesis Hversions : forall id v j, (id, v, j) ∈ db_versions db' -> (id, v, j) ∈ db_versions db \/
  exists r, r ∈ db_approvals db /\ ap_approval_id r = id /\ ap_revision r < v /\ v = ap_revision (g r) /\
    j = ap_intent (g r) /\ keyed j (g r).
Hypothesis Hcalls : forall c, c ∈ db_calls db' -> c ∈ db_calls db \/ call_ok db' c.
Hypothesis Hpol : policies_ok (db_policies db').

Lemma update_evolves : evolves db db'.
Proof.
  split; [|done]. intros r Hr. exists (g r). split; [|by apply Hstep]. rewrite Hrows. apply list_elem_of_fmap. by exists r.
Qed.

Lemma update_inv : inv db'.
Proof.
  assert (Hback : forall r', r' ∈ db_approvals db' -> exists r, r ∈ db_approvals db /\ r' = g r).
  { intros r'. rewrite Hrows, list_elem_of_fmap. naive_solver. }
  assert (Hid : forall r, r ∈ db_approvals db -> identity (g r) = identity r) by (intros; by apply step_identity, Hstep).
  split.
  - rewrite Hrows, <- list_fmap_compose. replace (_ <$> _) with (ap_approval_id <$> db_approvals db); [apply Hinv|].
    apply list_fmap_ext. intros i r Hr%list_elem_of_lookup_2. cbn. symmetry. by apply identity_id, Hid.
  - intros r' s' (r & Hr & ->)%Hback (s & Hs & ->)%Hback Hhr Hhs Hss. f_equal.
    apply (inv_slots db Hinv); [done|done|by eapply step_held; [apply Hstep|]|by eapply step_held; [apply Hstep|]|].
    rewrite (identity_slot _ _ _ (Hid r Hr)), same_slot_sym, (identity_slot _ _ _ (Hid s Hs)) in Hss. by rewrite same_slot_sym.
  - intros r' (r & Hr & ->)%Hback. destruct (Hok r Hr) as [->|?]; [|done]. eapply row_ok_mono; [done|]. by apply Hinv.
  - intros id v j j' Hj Hj'.
    assert (Hcross : forall k, (id, v, k) ∈ db_versions db -> forall r, r ∈ db_approvals db -> ap_approval_id r = id ->
              ap_revision r < v -> False).
    { intros k Hk r Hr Hrid Hlt. destruct (inv_versions db Hinv _ _ _ Hk) as (s & Hs & Hsid & Hle & _).
      assert (r = s) as -> by (apply (same_id db); congruence). lia. }
    apply Hversions in Hj as [Hj|(r & Hr & Hrid & Hlt & -> & -> & _)], Hj' as [Hj'|(s & Hs & Hsid & Hlt' & _ & -> & _)].
    + by eapply inv_functional.
    + by destruct (Hcross _ Hj s).
    + by destruct (Hcross _ Hj' r).
    + assert (r = s) as -> by (apply (same_id db); congruence). done.
  - intros id v j [Hj|(r & Hr & Hrid & Hlt & -> & -> & Hk)]%Hversions.
    + destruct (inv_versions db Hinv _ _ _ Hj) as (s & Hs & Hsid & Hle & Hk). exists (g s).
      rewrite Hrows, (identity_id _ _ (Hid s Hs)). split_and!; [apply list_elem_of_fmap; by exists s|done| |].
      * pose proof (step_revision _ _ (Hstep s Hs)). lia.
      * eapply keyed_identity; [by apply Hid|done].
    + exists (g r). rewrite Hrows, (identity_id _ _ (Hid r Hr)). split_and!; [apply list_elem_of_fmap; by exists r|done|done|done].
  - intros c [Hc|Hc]%Hcalls; [|done]. eapply call_ok_mono; [apply update_evolves|]. by apply Hinv.
  - done.
Qed.
End update.

(** A new row. *)
Section insertion.
Context (db db' : Db (J := J)) (row : ApprovalModelRow J).
Hypothesis Hinv : inv db.
Hypothesis Hrows : db_approvals db' = db_approvals db ++ [row].
Hypothesis Hversions : db_versions db' = db_versions db ++ [(ap_approval_id row, ap_revision row, ap_intent row)].
Hypothesis Hrest : db_latched db' = db_latched db /\ db_calls db' = db_calls db /\ db_comments db' = db_comments db /\
  db_policies db' = db_policies db.
Hypothesis Hunique : unique_violation row (db_approvals db) = false.
Hypothesis Hpending : ap_state row = as_str SPending /\ ap_approved_by row = None.
Hypothesis Hkeyed : keyed (ap_intent row) row.

Lemma insert_grows : grows db db'.
Proof. destruct Hrest as (Hl & Hc & Hm & Hp). split; rewrite ?Hversions, ?Hl, ?Hc, ?Hm, ?Hp; [set_solver..|done]. Qed.

Lemma insert_evolves : evolves db db'.
Proof. split; [|apply insert_grows]. intros r Hr. exists r. split; [rewrite Hrows; set_solver|by left]. Qed.

Lemma insert_apart s : s ∈ db_approvals db ->
  ap_approval_id s <> ap_approval_id row /\ (slot_held row = true -> slot_held s = true -> same_slot row s = false).
Proof.
  intros Hs. pose proof Hunique as Hu. unfold unique_violation in Hu. rewrite existsb_false, Forall_forall in Hu.
  specialize (Hu s Hs). apply orb_false_iff in Hu as [Hne%bool_decide_eq_false Hslot]. split; [done|].
  intros Hr1 Hs1. by rewrite Hr1, Hs1 in Hslot.
Qed.

Lemma insert_inv : inv db'.
Proof.
  pose proof insert_grows as Hg. pose proof insert_evolves as He.
  assert (Hheld : slot_held row = true) by (apply held_states; exists SPending; split; [apply Hpending|auto]).
  split.
  - rewrite Hrows, fmap_app. apply NoDup_app. split_and!; [apply Hinv| |apply NoDup_singleton].
    intros x (s & -> & Hs)%list_elem_of_fmap. cbn. rewrite list_elem_of_singleton. by apply insert_apart.
  - intros r s. rewrite Hrows, !elem_of_app, !list_elem_of_singleton. intros [Hr| ->] [Hs| ->] Hhr Hhs Hss; try done.
    + by apply (inv_slots db Hinv).
    + rewrite same_slot_sym in Hss. destruct (insert_apart r Hr) as [_ Hf]. rewrite Hf in Hss by done. done.
    + destruct (insert_apart s Hs) as [_ Hf]. rewrite Hf in Hss by done. done.
  - intros r. rewrite Hrows, elem_of_app, list_elem_of_singleton. intros [Hr| ->].
    + eapply row_ok_mono; [done|]. by apply Hinv.
    + split; [rewrite Hversions; set_solver|]. exists SPending. apply Hpending.
  - intros id v j j'. rewrite Hversions, !elem_of_app, !list_elem_of_singleton.
    assert (Hcross : forall k, (id, v, k) ∈ db_versions db -> id <> ap_approval_id row).
    { intros k (s & Hs & <- & _)%(inv_versions db Hinv). by apply insert_apart. }
    intros [Hj|Hj] [Hj'|Hj']; [by eapply inv_functional| | |congruence].
    + apply Hcross in Hj. congruence.
    + apply Hcross in Hj'. congruence.
  - intros id v j. rewrite Hversions, elem_of_app, list_elem_of_singleton. intros [Hj|[= -> -> ->]].
    + destruct (inv_versions db Hinv _ _ _ Hj) as (s & Hs & Hrest'). exists s. split; [rewrite Hrows; set_solver|done].
    + exists row. split_and!; [rewrite Hrows; set_solver|done..].
  - destruct Hrest as (_ & -> & _). intros c Hc. eapply call_ok_mono; [done|]. by apply Hinv.
  - destruct Hrest as (_ & _ & _ & ->). apply Hinv.
Qed.
End insertion.

(** ** Which rows a step leaves *)

Definition approving r : Prop := ap_state r = as_str SApproving.

Definition quiet db db' : Prop :=
  db_calls db' = db_calls db /\ forall r, approving r -> r ∈ db_approvals db <-> r ∈ db_approvals db'.
Definition only id db db' : Prop :=
  forall r, ap_approval_id r <> id -> r ∈ db_approvals db <-> r ∈ db_approvals db'.

Lemma quiet_trans db1 db2 db3 : quiet db1 db2 -> quiet db2 db3 -> quiet db1 db3.
Proof. intros [Hc1 Ha1] [Hc2 Ha2]. split; [congruence|]. intros r Hr. by rewrite Ha1, Ha2. Qed.

Section selective.
Context (db db' : Db (J := J)) (cond : ApprovalModelRow J -> bool) (f : ApprovalModelRow J -> ApprovalModelRow J).
Hypothesis Hrows : db_approvals db' = (sql_update cond f (db_approvals db)).1.

Lemma update_elem r' : r' ∈ db_approvals db' <->
  exists r, r ∈ db_approvals db /\ r' = if cond r then f r else r.
Proof. rewrite Hrows. cbn. rewrite list_elem_of_fmap. naive_solver. Qed.

(** Rows with a property that neither the chosen rows nor their successors have. *)
Lemma update_other (Pr : ApprovalModelRow J -> Prop) r :
  (forall r, r ∈ db_approvals db -> cond r = true -> ~ Pr r /\ ~ Pr (f r)) -> Pr r ->
  r ∈ db_approvals db <-> r ∈ db_approvals db'.
Proof.
  intros Hc Hr. rewrite update_elem. split.
  - intros Hin. exists r. split; [done|]. destruct (cond r) eqn:Ec; [|done]. destruct (Hc r Hin Ec). done.
  - intros (s & Hs & ->). destruct (cond s) eqn:Ec; [|done]. destruct (Hc s Hs Ec). done.
Qed.

(** Rows moved along the lifecycle, with nothing new stored. *)
Lemma move_inv : inv db ->
  (forall r, r ∈ db_approvals db -> cond r = true -> moves r (f r) /\ ap_revision (f r) = ap_revision r /\ row_ok db' (f r)) ->
  grows db db' -> db_versions db' = db_versions db -> db_calls db' = db_calls db -> db_policies db' = db_policies db ->
  inv db' /\ evolves db db'.
Proof.
  intros Hi Hc Hg Hv Hca Hp. pose (g := fun r => if cond r then f r else r).
  assert (Hstep : forall r, r ∈ db_approvals db -> row_step r (g r)).
  { intros r Hr. unfold g. destruct (cond r) eqn:Ec; [|by left]. right. by apply Hc. }
  split; [|by apply (update_evolves db db' g)].
  apply (update_inv db db' g); try done.
  - intros r Hr. unfold g. destruct (cond r) eqn:Ec; [|by left]. right. by apply Hc.
  - intros id v j Hj. left. by rewrite <- Hv.
  - intros c Hx. left. by rewrite <- Hca.
  - rewrite Hp. apply Hi.
Qed.
End selective.

(** Steps that leave the approvals: comments and policies. *)
Lemma append_inv db db' : inv db -> db_approvals db' = db_approvals db -> grows db db' ->
  db_versions db' = db_versions db -> db_calls db' = db_calls db -> policies_ok (db_policies db') ->
  inv db' /\ evolves db db' /\ quiet db db'.
Proof.
  intros Hi Ha Hg Hv Hc Hp. assert (Hrows : db_approvals db' = id <$> db_approvals db) by by rewrite list_fmap_id.
  split_and!.
  - apply (update_inv db db' id); try done; [by left|by left| |].
    + intros a v j Hj. left. by rewrite <- Hv.
    + intros c Hx. left. by rewrite <- Hc.
  - apply (update_evolves db db' id); [done|by left|done].
  - split; [done|]. intros r _. by rewrite Ha.
Qed.

(** ** Transactions *)

Lemma cond_true scope tenant id (a : ApprovalState) v r : transition_cond scope tenant id (as_str a) v r = true ->
  ap_approval_id r = id /\ ap_tenant_id r = tenant /\ ap_state r = as_str a /\ ap_revision r = v.
Proof.
  unfold transition_cond. rewrite !andb_true_iff, !bool_decide_eq_true. intros [[[[_ ?] ?] ?] ?%Z.eqb_eq]. done.
Qed.

Lemma row_state db r (a : ApprovalState) : inv db -> r ∈ db_approvals db -> ap_state r = as_str a -> row_state_ok db r a.
Proof. intros Hi Hr Ha. destruct (inv_rows db Hi r Hr) as (_ & b & Hb & Hok). rewrite Ha in Hb. by apply state_inj in Hb as <-. Qed.

Lemma with_state_moves (a b : ApprovalState) (o : option Uuid) at_ r : ap_state r = as_str a -> lifecycle a b -> is_resubmit a b = false ->
  moves r (with_state (as_str b) o at_ r).
Proof. intros Ha Hl Hn. split; [done|]. exists a, b. rewrite Hn. done. Qed.

Lemma transition_ok scope tenant id (a b : ApprovalState) v (o : option Uuid) at_ db n db1 :
  transition scope tenant id (as_str a) v (as_str b) o at_ db = Ok (n, db1) ->
  let cond := transition_cond scope tenant id (as_str a) v in
  n = (sql_update cond (with_state (as_str b) o at_) (db_approvals db)).2 /\
  db1 = add_latches (if bool_decide (b = SApproving) then (fun r => (ap_approval_id r, ap_revision r)) <$> List.filter cond (db_approvals db) else [])
          (set_approvals (sql_update cond (with_state (as_str b) o at_) (db_approvals db)).1 db) /\
  (forall r, r ∈ db_approvals db -> cond r = true -> o <> Some (ap_prepared_by r)).
Proof.
  intros Ht cond. unfold transition in Ht. fold cond in Ht. case_match eqn:Hex; [done|]. cbn in Ht. injection Ht as <- <-. split_and!; [done| |].
  - assert (bool_decide (as_str b = as_str SApproving) = bool_decide (b = SApproving)) as <-; [|done].
    apply bool_decide_ext. split; [apply state_inj|congruence].
  - rewrite existsb_false, Forall_forall in Hex. intros r Hr Hc. specialize (Hex r Hr).
    rewrite Hc in Hex. by apply bool_decide_eq_false in Hex.
Qed.

Definition bare_edge (a b : ApprovalState) : Prop := (a = SPending /\ b = SApproving) \/ (a = SApproving /\ b = SPending).

(** The latch and its revert. *)
Lemma bare_ok scope tenant id (a b : ApprovalState) v db flag db' :
  bare_edge a b -> inv db -> bare_body scope tenant id a v b db = Ok (flag, db') ->
  inv db' /\ evolves db db' /\ only id db db' /\ db_calls db' = db_calls db /\
  (flag = true -> exists r, r ∈ db_approvals db' /\ ap_approval_id r = id /\ ap_revision r = v /\ ap_state r = as_str b) /\
  (forall r, r ∈ db_approvals db -> ap_state r <> as_str a -> r ∈ db_approvals db').
Proof.
  intros He Hi ([n db1] & Ht%map_err_ok & [= <- <-])%bind_ok. apply transition_ok in Ht as (Hn & Hdb & _).
  set (cond := transition_cond scope tenant id (as_str a) v) in *. set (f := with_state (as_str b) None None) in *.
  assert (Hrows : db_approvals db1 = (sql_update cond f (db_approvals db)).1) by by rewrite Hdb.
  assert (Hg : grows db db1) by (rewrite Hdb; split; cbn; [done|set_solver|done..]).
  assert (Hmove : forall r, r ∈ db_approvals db -> cond r = true -> moves r (f r) /\ ap_revision (f r) = ap_revision r /\ row_ok db1 (f r)).
  { intros r Hr Hc. pose proof Hc as (Hid & _ & Ha & Hv)%cond_true. split_and!; [|done|].
    - apply (with_state_moves a b); [done|..]; destruct He as [[-> ->]|[-> ->]]; by constructor.
    - split; [rewrite Hdb; exact (proj1 (inv_rows db Hi r Hr))|]. exists b. split; [done|]. destruct He as [[-> ->]|[-> ->]]; [|done].
      split; [done|]. rewrite Hdb. cbn. apply elem_of_app. right. apply list_elem_of_fmap. exists r. split; [done|].
      apply elem_of_filter_bool. done. }
  destruct (move_inv db db1 cond f Hrows Hi Hmove Hg) as [Hi' He']; [by rewrite Hdb..|].
  split_and!; [done|done| |by rewrite Hdb| |].
  - intros r Hr. apply (update_other db db1 cond f Hrows (fun r => ap_approval_id r <> id)); [|done].
    intros s _ Hc%cond_true. cbn. naive_solver.
  - intros Hf%Z.ltb_lt. rewrite Hn in Hf. cbn in Hf.
    destruct (List.filter cond (db_approvals db)) as [|r l] eqn:Hl; [cbn in Hf; lia|].
    assert (r ∈ List.filter cond (db_approvals db)) as [Hc Hr]%elem_of_filter_bool by (rewrite Hl; set_solver).
    exists (f r). pose proof Hc as (Hid & _ & _ & Hv)%cond_true. split_and!; [|done..].
    apply (update_elem _ _ _ _ Hrows). exists r. by rewrite Hc.
  - intros r Hr Hne. apply (update_elem _ _ _ _ Hrows). exists r. split; [done|]. destruct (cond r) eqn:Hc; [|done].
    by apply cond_true in Hc as (_ & _ & ? & _).
Qed.

(** What a request that has read [row] keeps knowing. *)
Definition known (row : ApprovalModelRow J) db : Prop :=
  (exists r, r ∈ db_approvals db /\ identity r = identity row) /\
  (ap_approval_id row, ap_revision row, ap_intent row) ∈ db_versions db.

Lemma known_evolves row db db' : evolves db db' -> known row db -> known row db'.
Proof.
  intros [Hr Hg] [(r & Hin & Hid) Hv]. split; [|by apply (gr_versions _ _ Hg)].
  destruct (Hr r Hin) as (r' & Hin' & Hst%step_identity). exists r'. split; [done|congruence].
Qed.

Lemma known_row row db r : inv db -> known row db -> r ∈ db_approvals db -> ap_approval_id r = ap_approval_id row ->
  identity r = identity row /\ (ap_revision r = ap_revision row -> ap_intent r = ap_intent row).
Proof.
  intros Hi [(s & Hs & Hid) Hv] Hr He.
  assert (r = s) as -> by (apply (same_id db); [done..|]; apply identity_id in Hid; congruence).
  split; [done|]. intros Hrev. destruct (inv_rows db Hi s Hs) as [Hv' _]. rewrite He, Hrev in Hv'. by eapply inv_functional.
Qed.

Definition executed_by u db id v : Prop :=
  exists c, c ∈ db_calls db /\ sc_ok c = true /\ sc_approval c = id /\ sc_revision c = v /\ sc_actor c = u.

(** The decisions and who may take them. *)
Definition decision (row : ApprovalModelRow J) (a b : ApprovalState) (decider : Uuid) (word : string) db : Prop :=
  match b with
  | SApproved => a = SApproving /\ word = "approved" /\ decider <> ap_prepared_by row /\
      executed_by decider db (ap_approval_id row) (ap_revision row)
  | SRejected => a = SPending /\ word = "rejected" /\ decider <> ap_prepared_by row
  | SNeedsRework => a = SPending /\ word = "needs_rework" /\ decider <> ap_prepared_by row
  | SCancelled => is_active a = true /\ word = "cancelled" /\ decider = ap_prepared_by row
  | _ => False
  end%string.

Lemma decision_edge row a b decider word db : decision row a b decider word db -> lifecycle a b /\ is_resubmit a b = false /\ b <> SApproving.
Proof.
  destruct b; cbn [decision]; try done; intros (Ha & _).
  4: split_and!; [by apply LCancel|by destruct a|done].
  all: subst a; split_and!; [constructor|done|done].
Qed.

Definition commit_comment (row : ApprovalModelRow J) (decider : Uuid) word reason now cid : CommentRow :=
  mkCommentRow cid (ap_approval_id row) (ap_tenant_id row) (ap_revision row) decider
    (decision_audit word (ap_kind row) (ap_business_key row) (ap_prepared_by row) decider reason) now.

(** The row a decision leaves is audited by the comment written with it. *)
Lemma decision_row_ok row a b decider word reason now cid db db' r :
  let o := if bool_decide (b = SApproved) then Some decider else None in
  inv db -> grows db db' -> db_versions db' = db_versions db -> known row db -> decision row a b decider word db ->
  commit_comment row decider word reason now cid ∈ db_comments db' ->
  r ∈ db_approvals db -> ap_approval_id r = ap_approval_id row -> ap_state r = as_str a -> ap_revision r = ap_revision row ->
  row_ok db' (with_state (as_str b) o (Some now) r).
Proof.
  intros o Hi Hg Hv Hk Hd Hc Hr Hid Ha Hrev. destruct (known_row row db r Hi Hk Hr Hid) as [Hident _].
  pose proof (identity_prepared _ _ Hident) as Hp. destruct (identity_kind _ _ Hident) as [Hkind Hkey].
  assert (Haud : decided b (with_state (as_str b) o (Some now) r) decider = Some word -> audited db' (with_state (as_str b) o (Some now) r) b).
  { intros Hw. exists (commit_comment row decider word reason now cid), word, reason. cbn. rewrite Hkind, Hkey, Hp. done. }
  split; [rewrite Hv; exact (proj1 (inv_rows db Hi r Hr))|]. exists b. split; [done|].
  unfold o in *. destruct b; cbn in Hd |- *; try done.
  - destruct Hd as (-> & -> & Hne & c & Hcall & Hok & Hcid & Hcrev & Hact). cbn in Haud.
    split_and!.
    + apply (gr_latched _ _ Hg). by apply (row_state db r SApproving).
    + apply Haud. cbn. by rewrite bool_decide_true.
    + exists decider, c. rewrite Hp, Hid, Hrev. split_and!; try done. by apply (gr_calls _ _ Hg).
  - destruct Hd as (_ & -> & Hne). split; [done|]. apply Haud. cbn. by rewrite bool_decide_false by congruence.
  - destruct Hd as (_ & -> & Hne). split; [done|]. apply Haud. cbn. by rewrite bool_decide_false by congruence.
  - destruct Hd as (_ & -> & Hne). split; [done|]. apply Haud. cbn. by rewrite bool_decide_true by congruence.
Qed.

Lemma commit_ok scope row a b decider word reason now cid db flag db' :
  inv db -> known row db -> decision row a b decider word db ->
  commit_body scope (ap_tenant_id row) (ap_approval_id row) a b decider (ap_revision row)
    (decision_audit word (ap_kind row) (ap_business_key row) (ap_prepared_by row) decider reason) now cid db = Ok (flag, db') ->
  inv db' /\ evolves db db' /\ only (ap_approval_id row) db db' /\ db_calls db' = db_calls db /\
  (b <> SApproved -> quiet db db') /\
  (forall r, r ∈ db_approvals db -> exists r', r' ∈ db_approvals db' /\ identity r' = identity r /\ ap_revision r' = ap_revision r /\
     (r' = r \/ ap_state r' = as_str b)).
Proof.
  intros Hi Hk Hd Hb. destruct (decision_edge _ _ _ _ _ _ Hd) as (Hl & Hnr & Hnl).
  apply bind_ok in Hb as ([n db1] & Ht%map_err_ok & Hb). apply transition_ok in Ht as (Hn & Hdb1 & _).
  rewrite (bool_decide_false (b = SApproving)) in Hdb1 by done.
  set (o := if bool_decide (b = SApproved) then Some decider else None) in *. set (f := with_state (as_str b) o (Some now)) in *.
  set (cond := transition_cond scope (ap_tenant_id row) (ap_approval_id row) (as_str a) (ap_revision row)) in *.
  assert (Hgoal : db_approvals db' = (sql_update cond f (db_approvals db)).1 /\ grows db db' /\ db_versions db' = db_versions db /\
            db_calls db' = db_calls db /\ db_policies db' = db_policies db /\
            (forall r, r ∈ db_approvals db -> cond r = true -> commit_comment row decider word reason now cid ∈ db_comments db')).
  { destruct (Z.eqb_spec n 0) as [Hz|Hz]; cbn [mbind result_bind] in Hb.
    - injection Hb as <- <-. rewrite Hdb1. split_and!; try done; [split; cbn; [done|set_solver|done..]|].
      intros r Hr Hc. exfalso. rewrite Hn in Hz. cbn in Hz.
      assert (r ∈ List.filter cond (db_approvals db)) as Hin by by apply elem_of_filter_bool.
      destruct (List.filter cond (db_approvals db)); [set_solver|cbn in Hz; lia].
    - apply bind_ok in Hb as ([u db2] & Ha%map_err_ok & [= <- <-]). unfold append_comment in Ha.
      case_match; [done|]. case_match; [done|]. injection Ha as _ <-. rewrite Hdb1.
      split_and!; try done; [split; cbn; [done|set_solver|done|set_solver|done]|]. intros r _ _. cbn. set_solver. }
  destruct Hgoal as (Hrows & Hg & Hv & Hca & Hp & Hcom).
  destruct (move_inv db db' cond f Hrows Hi) as [Hi' He]; try done.
  { intros r Hr Hc. pose proof Hc as (Hid & _ & Ha & Hrev)%cond_true. split_and!; [by apply (with_state_moves a b)|done|].
    eapply (decision_row_ok row a b decider word reason now cid db db' r); try done. by apply Hcom with r. }
  split_and!; [done|done| |done| |].
  - intros r Hr. apply (update_other db db' cond f Hrows (fun r => ap_approval_id r <> ap_approval_id row)); [|done].
    intros s _ Hc%cond_true. cbn. naive_solver.
  - intros Hna. split; [done|]. intros r Hr. apply (update_other db db' cond f Hrows approving); [|done].
    intros s _ (_ & _ & Ha & _)%cond_true. split; [|intros Hs%state_inj; done].
    unfold approving. rewrite Ha. intros ->%state_inj. inversion Hl; subst; done.
  - intros r Hr. exists (if cond r then f r else r). split; [apply (update_elem _ _ _ _ Hrows); by exists r|].
    destruct (cond r); auto.
Qed.

(** A step that leaves the approvals in execution and the calls. *)
Definition benign db db' : Prop := inv db' /\ evolves db db' /\ quiet db db'.

Lemma expired_active now r : expired now r = true -> exists a, ap_state r = as_str a /\ is_active a = true.
Proof.
  unfold expired. rewrite andb_true_iff, bool_decide_eq_true. cbn. intros [Hs _].
  rewrite !elem_of_cons, elem_of_nil in Hs. destruct Hs as [Hs|[Hs|[]]]; [by exists SPending|by exists SNeedsRework].
Qed.

Lemma expire_ok now cond db : (forall r, cond r = true -> expired now r = true) -> inv db ->
  benign db (set_approvals (sql_update cond expire_row (db_approvals db)).1 db).
Proof.
  intros Hc Hi. set (db' := set_approvals _ db).
  assert (Hrows : db_approvals db' = (sql_update cond expire_row (db_approvals db)).1) by done.
  destruct (move_inv db db' cond expire_row Hrows Hi) as [Hi' He]; try done.
  { intros r Hr (a & Ha & Hact)%Hc%expired_active. split_and!; [|done|].
    - apply (with_state_moves a SExpired); [done|by constructor|by destruct a].
    - split; [exact (proj1 (inv_rows db Hi r Hr))|]. exists SExpired. split; [done|]. cbn.
      pose proof (row_state db r a Hi Hr Ha) as Hs. by destruct a; cbn in *; naive_solver. }
  split_and!; [done|done|]. split; [done|]. intros r Hr. apply (update_other db db' cond expire_row Hrows approving); [|done].
  intros s _ (a & Ha & Hact)%Hc%expired_active. split; [|done]. unfold approving. rewrite Ha. by intros ->%state_inj.
Qed.

Lemma encode_keyed (i : DomainIntent) (j : J) r : encode_intent i = Ok j -> as_str (kind i) = ap_kind r ->
  business_key i = ap_business_key r -> keyed j r.
Proof.
  intros Hj%map_err_ok%from_to_value Hk Hb i' Hi'. unfold decode_intent in Hi'. rewrite Hj in Hi'. cbn in Hi'.
  apply map_err_ok in Hi' as Hs. apply bind_ok in Hs as (i2 & Hs & (? & _ & [= <-])%bind_ok).
  apply stored_key in Hs as [-> ->]. done.
Qed.

Lemma create_ok scope tenant now row db x db' : inv db ->
  ap_state row = as_str SPending -> ap_approved_by row = None -> keyed (ap_intent row) row ->
  create_body scope tenant now row db = Ok (x, db') -> benign db db'.
Proof.
  intros Hi Hs Ha Hk ([n db1] & [= <- <-] & Hb%map_err_ok)%bind_ok.
  destruct (expire_ok now (fun r => row_scope scope r && bool_decide (ap_tenant_id r = tenant) && expired now r) db) as (Hi1 & He1 & Hq1);
    [by intros r [_ ?]%andb_true_iff|done|]. set (db1 := set_approvals _ db) in *.
  unfold insert_pending in Hb. case_match; [done|]. case_match eqn:Hu; [done|]. injection Hb as _ <-.
  set (db2 := add_version _ _).
  assert (Hi2 : inv db2) by (by apply (insert_inv db1 db2 row)).
  assert (He2 : evolves db1 db2) by (by apply (insert_evolves db1 db2 row)).
  split_and!; [done| |].
  - split; [|by etrans; [apply He1|apply He2]]. intros r (r' & Hr' & Hst)%(ev_rows _ _ He1). exists r'. split; [|done].
    cbn. set_solver.
  - eapply quiet_trans; [done|]. split; [done|]. intros r Hr. cbn. rewrite elem_of_app, list_elem_of_singleton.
    split; [auto|]. intros [?| ->]; [done|]. unfold approving in Hr. rewrite Hs in Hr. by apply state_inj in Hr.
Qed.

Lemma comment_ok scope tenant id v cid author body now db x db' : inv db ->
  comment_body scope tenant id v cid author body now db = Ok (x, db') -> benign db db'.
Proof.
  intros Hi (cur & _ & Hb)%bind_ok. case_match; [done|]. apply map_err_ok in Hb. unfold append_comment in Hb.
  case_match; [done|]. case_match; [done|]. injection Hb as _ <-. apply append_inv; try done; [|apply Hi].
  split; cbn; [done|done|done|set_solver|done].
Qed.

(** A resubmission finds nothing, or steps the row to the next revision. *)
Lemma resubmit_shape scope (row : ApprovalModelRow J) intent_json snapshot amt v cid caller body now db flag db' :
  resubmit_body scope (ap_tenant_id row) (ap_approval_id row) intent_json snapshot amt (ap_revision row) v cid caller body now db
    = Ok (flag, db') ->
  let cond := transition_cond (J := J) scope (ap_tenant_id row) (ap_approval_id row) (as_str SNeedsRework) (ap_revision row) in
  let f := resubmitted_row intent_json snapshot amt (ap_revision row + 1) in
  db' = db \/ (exists r, r ∈ db_approvals db /\ cond r = true) /\ exists c,
    db' = add_comment_row c (add_version (ap_approval_id row, ap_revision row + 1, intent_json)
            (set_approvals (sql_update cond f (db_approvals db)).1 db)).
Proof.
  intros Hb cond f. apply bind_ok in Hb as ([n db1] & Hr%map_err_ok & Hb).
  unfold repo_resubmit in Hr. apply bind_ok in Hr as ([cur|] & _ & Hr);
    [|left; injection Hr as <- <-; cbn in Hb; by injection Hb as <- <-].
  destruct (negb (bool_decide (ap_state (ar_row cur) = as_str SNeedsRework))) in Hr;
    [left; injection Hr as <- <-; cbn in Hb; by injection Hb as <- <-|].
  destruct (negb (ap_revision (ar_row cur) =? ap_revision row)) in Hr; [done|].
  apply bind_ok in Hr as (w & Hw & Hr). cbn [sql_update] in Hr. destruct (negb (Z.of_nat _ =? 1)) eqn:Hcount in Hr; [done|].
  apply ok_pair in Hr as [Hn Hdb]. apply negb_false_iff, Z.eqb_eq in Hcount. assert (n = 1) as -> by congruence.
  assert (w = ap_revision row + 1) as ->.
  { apply ok_or_ok in Hw. unfold checked_add_i32 in Hw. repeat case_match; naive_solver. }
  subst db1. cbn [Z.eqb] in Hb. apply bind_ok in Hb as ([u db2] & Ha%map_err_ok & [= <- <-]). unfold append_comment in Ha.
  case_match; [done|]. case_match; [done|]. injection Ha as _ <-. right. split; [|by eexists].
  fold cond in Hcount. destruct (List.filter cond (db_approvals db)) as [|r l] eqn:Hl; [done|]. exists r.
  assert (r ∈ List.filter cond (db_approvals db)) as [? ?]%elem_of_filter_bool by (rewrite Hl; set_solver). done.
Qed.

Lemma resubmit_ok scope row intent_json snapshot amt v cid caller body now (i : DomainIntent) db flag db' :
  inv db -> known row db -> encode_intent i = Ok intent_json -> as_str (kind i) = ap_kind row -> business_key i = ap_business_key row ->
  resubmit_body scope (ap_tenant_id row) (ap_approval_id row) intent_json snapshot amt (ap_revision row) v cid caller body now db
    = Ok (flag, db') ->
  benign db db'.
Proof.
  intros Hi Hkn Hj Hkind Hkey [->|((r0 & Hr0 & Hc0) & c & Hdb)]%resubmit_shape; [by split_and!|].
  set (cond := transition_cond _ _ _ _ _) in *. set (f := resubmitted_row _ _ _ _) in *.
  assert (Hrows : db_approvals db' = (sql_update cond f (db_approvals db)).1) by by rewrite Hdb.
  pose (g := fun r => if cond r then f r else r).
  assert (Hc : forall r, r ∈ db_approvals db -> cond r = true -> identity r = identity row /\ ap_approval_id r = ap_approval_id row /\
            ap_state r = as_str SNeedsRework /\ ap_revision r = ap_revision row).
  { intros r Hr (Hid & _ & Ha & Hrev)%cond_true. by destruct (known_row row db r Hi Hkn Hr Hid). }
  assert (Hstep : forall r, r ∈ db_approvals db -> row_step r (g r)).
  { intros r Hr. unfold g. destruct (cond r) eqn:Ec; [|by left]. right. destruct (Hc r Hr Ec) as (_ & _ & Ha & Hrev).
    split; [done|]. exists SNeedsRework, SPending. split_and!; [done|done|constructor|].
    change (ap_revision row + 1 = ap_revision r + 1). lia. }
  assert (Hg : grows db db') by (rewrite Hdb; split; cbn; [set_solver|done|done|set_solver|done]).
  split_and!.
  - apply (update_inv db db' g); try done.
    + intros r Hr. unfold g. destruct (cond r) eqn:Ec; [|by left]. right. destruct (Hc r Hr Ec) as (_ & Hid & Ha & Hrev).
      split; [rewrite Hdb; cbn; rewrite Hid; set_solver|]. exists SPending. split; [done|].
      exact (proj1 (row_state db r SNeedsRework Hi Hr Ha)).
    + intros id x j. rewrite Hdb. cbn. rewrite elem_of_app, list_elem_of_singleton. intros [?|[= -> -> ->]]; [by left|]. right.
      destruct (Hc r0 Hr0 Hc0) as (Hident & Hid & Ha & Hrev). exists r0. unfold g. rewrite Hc0. split_and!; try done; [lia|].
      destruct (identity_kind _ _ Hident) as [Hk Hb].
      eapply encode_keyed; [done|etrans; [exact Hkind|exact (eq_sym Hk)]|etrans; [exact Hkey|exact (eq_sym Hb)]].
    + rewrite Hdb. by left.
    + rewrite Hdb. apply Hi.
  - by apply (update_evolves db db' g).
  - split; [by rewrite Hdb|]. intros r Hr. apply (update_other db db' cond f Hrows approving); [|done].
    intros s Hs Ec. destruct (Hc s Hs Ec) as (_ & _ & Ha & _). unfold approving. rewrite Ha. split; [by intros ?%state_inj|].
    cbn. by intros ?%(state_inj SPending SApproving).
Qed.

(** ** Policies *)

Lemma order_by_head {R} (key : R -> Z) l x rest : order_by key l = x :: rest -> x ∈ l /\ forall y, y ∈ l -> key x <= key y.
Proof.
  intros Ho. pose proof (order_by_perm key l) as Hp. rewrite Ho in Hp. split; [rewrite <- Hp; set_solver|].
  clear Hp. revert x rest Ho. induction l as [|z l IH]; intros x rest Ho; [done|].
  change (order_by key (z :: l)) with (insert_by key z (order_by key l)) in Ho.
  destruct (order_by key l) as [|x' rest'] eqn:Hl.
  - injection Ho as <- <-. pose proof (order_by_perm key l) as Hp. rewrite Hl in Hp. apply Permutation_nil_l in Hp as <-.
    intros y ->%list_elem_of_singleton. lia.
  - specialize (IH _ _ eq_refl). cbn in Ho. intros y [->|Hy]%elem_of_cons.
    + destruct (Z.leb_spec (key z) (key x')); injection Ho as <- _; lia.
    + specialize (IH y Hy). destruct (Z.leb_spec (key z) (key x')); injection Ho as <- _; lia.
Qed.

Lemma max_version scope tenant db : policies_ok (db_policies db) -> scope tenant tenant = true ->
  max_policy_version scope tenant db =
  if (length (tenant_policies tenant (db_policies db)) =? 0)%nat then None
  else Some (Z.of_nat (length (tenant_policies tenant (db_policies db))) - 1).
Proof.
  intros Hp Hs. unfold max_policy_version, sql_select.
  assert (Hf : List.filter (fun p => scope (pl_tenant_id p) (pl_tenant_id p) && bool_decide (pl_tenant_id p = tenant)) (db_policies db)
               = tenant_policies tenant (db_policies db)).
  { apply filter_ext. intros p. case_bool_decide as Ht; [by rewrite Ht, Hs|by rewrite andb_false_r]. }
  rewrite Hf. specialize (Hp tenant). set (l := tenant_policies tenant (db_policies db)) in *.
  destruct (order_by (fun p => - pl_version p) l) as [|x rest] eqn:Ho.
  - pose proof (order_by_perm (fun p => - pl_version p) l) as Hperm. rewrite Ho in Hperm. apply Permutation_nil_l in Hperm as <-. done.
  - apply order_by_head in Ho as [Hx Hmax]. cbn. destruct (Nat.eqb_spec (length l) 0) as [Hz|Hz]; [destruct l; [set_solver|done]|].
    assert (Hin : forall v, v ∈ pl_version <$> l <-> 0 <= v < Z.of_nat (length l)).
    { intros v. rewrite Hp, elem_of_seqZ. lia. }
    assert (pl_version x ∈ pl_version <$> l) as Hvx%Hin by (apply list_elem_of_fmap; by exists x).
    assert (Z.of_nat (length l) - 1 ∈ pl_version <$> l) as (y & Hy & Hyin)%list_elem_of_fmap by (apply Hin; lia).
    specialize (Hmax y Hyin). cbn in Hmax. change (Some (pl_version x) = Some (Z.of_nat (length l) - 1)). f_equal. lia.
Qed.

Lemma policy_ok scope tenant policy eff created (env : Env) db v db' : inv db ->
  policy_body scope tenant policy eff created env db = Ok (v, db') ->
  benign db db' /\ v = Z.of_nat (length (tenant_policies tenant (db_policies db))).
Proof.
  intros Hi (x & _ & (next & Hn & ([y db1] & Hins%map_err_ok & [= <- <-])%bind_ok)%bind_ok)%bind_ok.
  unfold insert_policy_row in Hins. destruct (scope tenant tenant) eqn:Hs; [|done]. cbn in Hins. case_match; [done|].
  injection Hins as _ <-. rewrite max_version in Hn; [|apply Hi|done].
  assert (Hv : next = Z.of_nat (length (tenant_policies tenant (db_policies db)))).
  { destruct (Nat.eqb_spec (length (tenant_policies tenant (db_policies db))) 0) as [Hz|Hz]; [injection Hn as <-; lia|].
    apply ok_or_ok in Hn. unfold checked_add_i64 in Hn. case_match; [injection Hn as <-; lia|done]. }
  split; [|done]. apply append_inv; try done; [split; cbn; [done..|by apply prefix_app_r]|].
  intros t. cbn. unfold tenant_policies. rewrite List.filter_app. cbn. pose proof (inv_policies db Hi t) as Hp.
  case_bool_decide as Ht; [|by rewrite app_nil_r]. rewrite fmap_app, length_app. cbn.
  fold (tenant_policies t (db_policies db)). rewrite Hp, Hv, <- Ht, Nat2Z.inj_add, seqZ_app by lia. f_equal.
Qed.
End invariant.
