(* ===== verification/DualApprovalRun.v ===== *)
(** * Runs of the approval service

    The service's requests run concurrently, interleaved at their transactions, with
    crashes, lost answers and any failures.  The handlers are shown to keep the
    invariant of the tables by the logic of [Handler], for any executor that acts
    through the surfaces; [DualApprovalReplay] adds what a replaying executor gives. *)

From Stdlib Require Import Ascii.
From S2P Require Import Prelude BTree Sql Decimal Money Exact ExactGrid Iso Sdk DomainErrors MoneyText Posting DualControl Recognition Notes Invoice Adjustment Reversal FxTranslate Json Intent StoredIntent Handler DualApproval DualApprovalInv.

Section requests.
Context `{DecimalText} `{!UuidSource} `{!Json} `{!InstantText}.
Context {J : Type} `{!Serde J StoredApprovalIntent, !Serde J StoredThresholdSnapshot, !JsonText J}.
Implicit Types (db : Db (J := J)).

Inductive Request :=
| Gate (ctx : SecurityContext) (scope : AccessScope) (intent : DomainIntent) (facts : OperationFacts) (reason_code : string)
| SetPolicy (ctx : SecurityContext) (scope : AccessScope) (thresholds : list PostedMoney) (a6 ttl : Z) (effective_from : OffsetDateTime)
| Approve (ctx : SecurityContext) (scope : AccessScope) (approval_id : Uuid)
| Reject (ctx : SecurityContext) (scope : AccessScope) (approval_id : Uuid) (reason : string)
| Cancel (ctx : SecurityContext) (scope : AccessScope) (approval_id : Uuid)
| RequestChanges (ctx : SecurityContext) (scope : AccessScope) (approval_id : Uuid) (reason : string)
| Resubmit (ctx : SecurityContext) (scope : AccessScope) (approval_id : Uuid) (intent : DomainIntent)
| AddComment (ctx : SecurityContext) (scope : AccessScope) (approval_id : Uuid) (text : string)
| ListApprovals (ctx : SecurityContext) (scope : AccessScope) (state knd : option string)
| GetApproval (ctx : SecurityContext) (scope : AccessScope) (approval_id : Uuid)
| GetThread (ctx : SecurityContext) (scope : AccessScope) (approval_id : Uuid)
| GetPolicy (scope : AccessScope) (tenant : Uuid) (now : OffsetDateTime)
| Maintenance.

Definition ignore {A} (p : P (J := J) A) : P (J := J) unit := _ ← p; mret tt.

Definition handler (execute : Executor (J := J)) (r : Request) : P (J := J) unit :=
  match r with
  | Gate ctx scope intent facts reason_code => ignore (gate ctx scope intent facts reason_code)
  | SetPolicy ctx scope thresholds a6 ttl eff => ignore (set_policy ctx scope thresholds a6 ttl eff)
  | Approve ctx scope id => approve execute ctx scope id
  | Reject ctx scope id reason => reject ctx scope id reason
  | Cancel ctx scope id => cancel ctx scope id
  | RequestChanges ctx scope id reason => request_changes ctx scope id reason
  | Resubmit ctx scope id intent => resubmit ctx scope id intent
  | AddComment ctx scope id text => add_comment ctx scope id text
  | ListApprovals ctx scope state knd => ignore (approval_list ctx scope state knd)
  | GetApproval ctx scope id => ignore (approval_get ctx scope id)
  | GetThread ctx scope id => ignore (approval_thread ctx scope id)
  | GetPolicy scope tenant now => ignore (read_effective_policy scope tenant now)
  | Maintenance => dual_control_maintenance_tick
  end.

(** ** What an executor promises *)

Record call_for (id : Uuid) (v : Z) (u : Uuid) (i : DomainIntent) (c : SurfaceCall) : Prop := mkCallFor {
  cf_approval : sc_approval c = id;
  cf_revision : sc_revision c = v;
  cf_actor : sc_actor c = u;
  cf_intent : sc_intent c = i;
}.

Definition add_calls (cs : list SurfaceCall) db : Db (J := J) := fold_left (fun db c => add_call c db) cs db.

(** It touches the tables only through the surfaces, each call on behalf of the caller
    for this approval, and it succeeds exactly when a surface has accepted. *)
Fixpoint executes (id : Uuid) (v : Z) (u : Uuid) (i : DomainIntent) (seen : bool) (p : P (J := J) unit) : Prop :=
  match p with
  | Ret _ => seen = true
  | Throw _ => seen = false
  | Act step k => forall env db, exists cs, Forall (call_for id v u i) cs /\ step env db = add_calls cs db /\
      executes id v u i (seen || existsb sc_ok cs) (k env db)
  end.

Definition executed db id v : Prop := exists c, c ∈ db_calls db /\ sc_ok c = true /\ sc_approval c = id /\ sc_revision c = v.

(** Once a surface has accepted, a replay succeeds. *)
Fixpoint replays (id : Uuid) (v : Z) (p : P (J := J) unit) : Prop :=
  match p with
  | Ret _ => True
  | Throw _ => False
  | Act step k => forall env db, executed db id v -> replays id v (k env db)
  end.

(** The port [ApprovalExecutor]. *)
Class ApprovalExecutor (execute : Executor (J := J)) : Prop :=
  execute_calls ctx scope id v i : executes id v (subject_id ctx) i false (execute ctx scope id v i).
Class IdempotentExecutor (execute : Executor (J := J)) : Prop :=
  execute_replays ctx scope id v i : replays id v (execute ctx scope id v i).

(** ** Calls *)

Lemma row_known db r : inv db -> r ∈ db_approvals db -> known r db.
Proof. intros Hi Hr. split; [by exists r|]. apply (inv_rows db Hi r Hr). Qed.

Lemma parse_state_ok s a : parse_state s = Ok a -> s = as_str a.
Proof. intros Hs%ok_or_ok. by apply parse_literal_ok in Hs. Qed.

Lemma add_calls_fields cs db : db_approvals (add_calls cs db) = db_approvals db /\ db_versions (add_calls cs db) = db_versions db /\
  db_latched (add_calls cs db) = db_latched db /\ db_comments (add_calls cs db) = db_comments db /\
  db_policies (add_calls cs db) = db_policies db /\ db_calls (add_calls cs db) = db_calls db ++ cs.
Proof.
  revert db. induction cs as [|c cs IH]; intros db; [cbn; by rewrite app_nil_r|].
  change (add_calls (c :: cs) db) with (add_calls cs (add_call c db)). destruct (IH (add_call c db)) as (-> & -> & -> & -> & -> & ->). cbn. by rewrite <- app_assoc.
Qed.

Lemma calls_inv cs db : inv db -> Forall (call_ok db) cs -> inv (add_calls cs db) /\ evolves db (add_calls cs db).
Proof.
  intros Hi Hcs. destruct (add_calls_fields cs db) as (Ha & Hv & Hl & Hm & Hp & Hc).
  assert (Hrows : db_approvals (add_calls cs db) = Datatypes.id <$> db_approvals db) by by rewrite list_fmap_id.
  assert (Hg : grows db (add_calls cs db)) by (split; rewrite ?Hv, ?Hl, ?Hm, ?Hp, ?Hc; [set_solver..|done]).
  assert (He : evolves db (add_calls cs db)) by (apply (update_evolves db _ Datatypes.id); [done|by left|done]).
  split; [|done]. apply (update_inv db _ Datatypes.id); try done; [by left|by left| | |].
  - intros a v j Hj. left. by rewrite <- Hv.
  - intros c. rewrite Hc, elem_of_app. intros [?|Hx]; [by left|]. right. eapply call_ok_mono; [done|].
    rewrite Forall_forall in Hcs. by apply Hcs.
  - rewrite Hp. apply Hi.
Qed.

(** The calls of an executor are accounted for: the caller is not the preparer, the
    revision is latched, the intent is the one stored. *)
Definition may_execute (row : ApprovalModelRow J) (u : Uuid) (i : DomainIntent) db : Prop :=
  (u <> ap_prepared_by row /\ decode_intent (ap_intent row) = Ok i) /\
  known row db /\ (ap_approval_id row, ap_revision row) ∈ db_latched db.

Lemma may_execute_calls row u i cs db : inv db -> may_execute row u i db ->
  Forall (call_for (ap_approval_id row) (ap_revision row) u i) cs -> Forall (call_ok db) cs.
Proof.
  intros Hi ([Hu Hd] & [(r & Hr & Hid) Hv] & Hl) Hcs. eapply Forall_impl; [done|]. intros c [Ha Hrev Hact Hint].
  exists r, (ap_intent row). rewrite Ha, Hrev, Hact, Hint, (identity_id _ _ Hid), (identity_prepared _ _ Hid). done.
Qed.

Lemma executed_by_add u id v i cs db (seen : bool) : Forall (call_for id v u i) cs ->
  (seen = true -> executed_by u db id v) -> seen || existsb sc_ok cs = true -> executed_by u (add_calls cs db) id v.
Proof.
  intros Hcs Hs [Ht|(c & Hc%list_elem_of_In & Hok)%existsb_exists]%orb_true_iff;
    destruct (add_calls_fields cs db) as (_ & _ & _ & _ & _ & Hcalls).
  - destruct (Hs Ht) as (c & Hc & Hrest). exists c. rewrite Hcalls. split; [set_solver|done].
  - rewrite Forall_forall in Hcs. destruct (Hcs c Hc) as [? ? ? _]. exists c. rewrite Hcalls. split_and!; try done. set_solver.
Qed.

(** ** Steps *)

Section logic.
Context (Inv : Db (J := J) -> Prop) (Rely Guar : Db (J := J) -> Db (J := J) -> Prop).
Hypothesis Hinv : forall db, Inv db -> inv db.
Hypothesis Hrely : forall db db', Rely db db' -> evolves db db'.
Hypothesis Hguar : forall db, Inv db -> Guar db db.

Definition okpost {A} (Q : A -> Db (J := J) -> Prop) : result DomainError A -> Db (J := J) -> Prop :=
  fun r db => match r with Ok a => Q a db | Err _ => True end.

Abbreviation safe := (safe Inv Rely Guar).
Abbreviation stable := (stable Inv Rely).

Lemma okpost_stable {A} (Q : A -> Db -> Prop) r : (forall a, stable (Q a)) -> stable (okpost Q r).
Proof. intros Hq. destruct r; [apply Hq|apply stable_true]. Qed.

Lemma known_stable row : stable (known row).
Proof. intros w w' _ _ Hr. apply known_evolves, Hrely, Hr. Qed.

Lemma safe_then {A B} L (p : P A) (f : A -> P B) Q1 Q :
  safe L p (okpost Q1) -> (forall a, safe (Q1 a) (f a) (okpost Q)) -> safe L (p ≫= f) (okpost Q).
Proof. intros Hp Hf. eapply safe_bind; [done|exact Hf|done]. Qed.

Lemma safe_ignore {A} L (p : P A) : safe L p (okpost (fun _ _ => True)) -> safe L (ignore p) (okpost (fun _ _ => True)).
Proof. intros Hp. eapply safe_then; [done|]. by intros a w _ _. Qed.

Lemma safe_throw {A} L e (Q : A -> Db -> Prop) : safe L (Throw e : P (J := J) A) (okpost Q).
Proof. by intros w _ _. Qed.

Lemma safe_pure {A} L (r : result DomainError A) (Q : A -> Db -> Prop) :
  (forall a db, r = Ok a -> Inv db -> L db -> Q a db) -> safe L (lift r : P (J := J) A) (okpost Q).
Proof. intros Hq. apply safe_lift. intros w Hi Hl. destruct r; cbn; [by apply Hq|done]. Qed.

(** A step that reads. *)
Lemma safe_view {A} L (f : Env -> Db -> result DomainError A) (Q : A -> Db -> Prop) :
  (forall a, stable (Q a)) -> (forall env db a, Inv db -> L db -> f env db = Ok a -> Q a db) ->
  safe L (atomic (fun env db => (db, f env db))) (okpost Q).
Proof.
  intros Hst Hf. apply safe_atomic; [intros r; by apply okpost_stable|]. intros env db Hi Hl. cbn.
  split_and!; [done|by apply Hguar|]. destruct (f env db) eqn:He; cbn; [by eapply Hf|done].
Qed.

Lemma safe_now {A} L (k : OffsetDateTime -> P A) Q : stable L -> (forall now, safe L (k now) (okpost Q)) ->
  safe L (now_utc ≫= k) (okpost Q).
Proof. intros Hl Hk. eapply safe_then; [apply (safe_view L _ (fun _ => L)); by intros|done]. Qed.
Lemma safe_uuid {A} L (k : Uuid -> P A) Q : stable L -> (forall u, safe L (k u) (okpost Q)) ->
  safe L (new_uuid ≫= k) (okpost Q).
Proof. intros Hl Hk. eapply safe_then; [apply (safe_view L _ (fun _ => L)); by intros|done]. Qed.

Lemma safe_lift_then {A B} L (r : result DomainError A) (k : A -> P B) Q :
  (forall a, r = Ok a -> safe L (k a) (okpost Q)) -> safe L (lift r ≫= k) (okpost Q).
Proof. intros Hk. destruct r; [by apply Hk|by intros w _ _]. Qed.

(** A transaction, in as many attempts as it takes. *)
Lemma safe_retry {A} L (body : Env -> Db -> result AttemptError (A * Db)) (Q : A -> Db -> Prop) n :
  stable L -> (forall a, stable (Q a)) ->
  (forall env db a db', Inv db -> L db -> body env db = Ok (a, db') -> Inv db' /\ Guar db db' /\ Q a db') ->
  safe L (retry_loop n body) (okpost Q).
Proof.
  intros Hl Hq Hb. induction n as [|n IH]; [apply safe_throw|]. cbn. intros env db Hi HL.
  assert (Hsame : Inv db /\ Guar db db) by (split; [done|by apply Hguar]).
  assert (Hret : forall e, exists L', stable L' /\ L' db /\ safe L' (Throw e : P (J := J) A) (okpost Q)).
  { intros e. exists L. split_and!; [done|done|apply safe_throw]. }
  assert (Hagain : exists L', stable L' /\ L' db /\ safe L' (retry_loop n body) (okpost Q)) by by exists L.
  destruct (body env db) as [[a db']|[|e]] eqn:Hbody.
  - destruct (Hb env db a db' Hi HL Hbody) as (Hi' & Hg & Ha).
    destruct (e_fault env) as [[|e|e]|].
    1,2: split_and!; [apply Hsame..|]; eauto.
    + split_and!; [done..|]. exists (fun _ => True). split_and!; [apply stable_true|done|apply safe_throw].
    + split_and!; [done..|]. exists (Q a). split_and!; [done|done|by intros w _ Hw].
  - destruct (e_fault env) as [[|e|e]|]; (split_and!; [apply Hsame..|]); eauto.
  - destruct (e_fault env) as [[|e'|e']|]; (split_and!; [apply Hsame..|]); eauto.
Qed.

(** Reading a row. *)
Lemma safe_found {A} L scope tenant id (K : ApprovalRow -> Db -> Prop) (k : ApprovalRow -> P A) Q :
  (forall found, stable (K found)) ->
  (forall found db, Inv db -> L db -> ar_row found ∈ db_approvals db -> ap_tenant_id (ar_row found) = tenant ->
     ap_approval_id (ar_row found) = id -> K found db) ->
  (forall found, ap_tenant_id (ar_row found) = tenant -> ap_approval_id (ar_row found) = id -> safe (K found) (k found) (okpost Q)) ->
  safe L (read_found scope tenant id ≫= k) (okpost Q).
Proof.
  intros Hst HK Hk.
  pose (K' := fun found db => (ap_tenant_id (ar_row found) = tenant /\ ap_approval_id (ar_row found) = id) /\ K found db).
  apply (safe_then L _ _ K').
  - unfold read_found. apply (safe_then L _ _ (fun o db => forall found, o = Some found -> K' found db)).
    + apply safe_view.
      * intros [found|] w w' Hi Hi' Hr Ho x [= <-]. destruct (Ho found eq_refl) as [? Hk']. split; [done|]. exact (Hst found w w' Hi Hi' Hr Hk').
      * intros env db o Hi Hl Ho found ->. destruct (e_fault env); [done|]. apply map_err_ok in Ho. unfold read_in_txn in Ho.
        destruct (read_row scope tenant id db) as [r|] eqn:Hr; [|done].
        apply List.find_some in Hr as [Hin%list_elem_of_In Hc]. rewrite !andb_true_iff, !bool_decide_eq_true in Hc.
        destruct Hc as [[_ ?] ?]. cbn in Ho. unfold row_try_from in Ho. case_match; [done|].
        destruct (decode_optional_money _ _ _) as [m|]; [|done]. cbn in Ho. injection Ho as <-. split; [done|]. by apply HK.
    + intros o. apply safe_pure. intros found db Ho%ok_or_ok _ Hf. by apply Hf.
  - intros found. apply safe_extract. intros [Ht Hid]. by apply Hk.
Qed.

Lemma safe_try {A B} L (p : P A) (k : result DomainError A -> P B) Q :
  safe L p (okpost (fun _ _ => True)) -> (forall r, safe (fun _ => True) (k r) (okpost Q)) -> safe L (attempt p ≫= k) (okpost Q).
Proof.
  intros Hp Hk. eapply safe_bind; [by apply safe_attempt| |done]. intros r. eapply safe_pre; [|apply Hk]. done.
Qed.

Lemma safe_skip {A B} (p : P A) (k : A -> P B) Q :
  safe (fun _ => True) p (okpost (fun _ _ => True)) -> (forall a, safe (fun _ => True) (k a) (okpost Q)) ->
  safe (fun _ => True) (p ≫= k) (okpost Q).
Proof. intros Hp Hk. by eapply safe_then. Qed.

Lemma safe_look {A} (f : Env -> Db -> result DomainError A) :
  safe (fun _ => True) (atomic (fun env db => (db, f env db))) (okpost (fun _ _ => True)).
Proof. apply safe_view; [intros a; apply stable_true|done]. Qed.

(** ** The requests that leave the approvals in execution *)

Section others.
Hypothesis Hbenign : forall db db', Inv db -> benign db db' -> Inv db' /\ Guar db db'.

(** A transaction that leaves the approvals in execution. *)
Lemma safe_benign {A} L (body : Env -> Db -> result AttemptError (A * Db)) : stable L ->
  (forall env db a db', Inv db -> L db -> body env db = Ok (a, db') -> benign db db') ->
  safe L (retry_transaction_for body) (okpost (fun _ _ => True)).
Proof.
  intros Hl Hb. apply safe_retry; [done|intros a; apply stable_true|]. intros env db a db' Hi HL Hok.
  destruct (Hbenign db db' Hi (Hb env db a db' Hi HL Hok)). done.
Qed.

(** Steps of handlers that know nothing. *)
Ltac safe_walk :=
  lazymatch goal with
  | |- Handler.safe _ _ _ _ (Throw _) _ => apply safe_throw
  | |- Handler.safe _ _ _ _ (mret _) _ => by intros ? _ _
  | |- Handler.safe _ _ _ _ (lift _) _ => by apply safe_pure
  | |- Handler.safe _ _ _ _ (mbind _ (lift _)) _ => apply safe_lift_then; intros
  | |- Handler.safe _ _ _ _ (mbind _ now_utc) _ => apply safe_now; [apply stable_true|intros]
  | |- Handler.safe _ _ _ _ (mbind _ new_uuid) _ => apply safe_uuid; [apply stable_true|intros]
  | |- Handler.safe _ _ _ _ (mbind _ (mret _)) _ => cbn [mbind Prog_bind mret Prog_ret prog_bind]
  | |- Handler.safe _ _ _ _ (mbind _ _) _ => apply safe_skip; [try apply safe_look|intros]
  | |- Handler.safe _ _ _ _ (match _ with _ => _ end) _ => case_match
  | |- Handler.safe _ _ _ _ _ _ => apply safe_look
  end.

Lemma valuation_safe amt functional locked :
  safe (fun _ => True) (valuation_rate amt functional locked) (okpost (fun _ _ => True)).
Proof. unfold valuation_rate. repeat safe_walk. Qed.

Lemma functional_safe facts intent : safe (fun _ => True) (to_functional_facts facts intent) (okpost (fun _ _ => True)).
Proof.
  unfold to_functional_facts. repeat safe_walk.
  - unfold operation_locked_rate. repeat safe_walk.
  - apply valuation_safe.
Qed.

Lemma create_safe ctx scope intent reason snapshot amt ttl :
  safe (fun _ => True) (create_pending ctx scope intent reason snapshot amt ttl) (okpost (fun _ _ => True)).
Proof.
  unfold create_pending. do 3 safe_walk. apply safe_skip; [apply safe_look|]. intros [existing|]; [repeat safe_walk|].
  do 3 safe_walk. apply safe_try; [|intros r; repeat safe_walk].
  apply safe_benign; [apply stable_true|]. intros env db x db' Hi _ Hok. eapply create_ok; [by apply Hinv|..|exact Hok]; [done|done|].
  by eapply encode_keyed.
Qed.

Lemma gate_safe ctx scope intent facts reason :
  safe (fun _ => True) (gate ctx scope intent facts reason) (okpost (fun _ _ => True)).
Proof.
  unfold gate. do 3 safe_walk. apply safe_skip; [apply functional_safe|]. intros facts'. safe_walk. case_match; [safe_walk|].
  safe_walk. apply safe_skip; [apply create_safe|]. intros id. safe_walk.
Qed.

Lemma set_policy_safe ctx scope thresholds a6 ttl eff :
  safe (fun _ => True) (set_policy ctx scope thresholds a6 ttl eff) (okpost (fun _ _ => True)).
Proof.
  unfold set_policy. do 2 safe_walk. apply safe_benign; [apply stable_true|]. intros env db v db' Hi _ Hok.
  eapply policy_ok; [by apply Hinv|exact Hok].
Qed.

(** Reading the row of a decision. *)
Definition loaded (tenant id : Uuid) (found : ApprovalRow) db : Prop :=
  (ap_tenant_id (ar_row found) = tenant /\ ap_approval_id (ar_row found) = id) /\ known (ar_row found) db.

Lemma loaded_stable tenant id found : stable (loaded tenant id found).
Proof. apply stable_and; [apply stable_pure|apply known_stable]. Qed.

Lemma load_pending_safe scope tenant id :
  safe (fun _ => True) (load_pending scope tenant id) (okpost (loaded tenant id)).
Proof.
  unfold load_pending. apply (safe_found _ _ _ _ (fun found => loaded tenant id found)); [apply loaded_stable| |].
  - intros found db Hi _ Hr Ht Hid. split; [done|]. by apply row_known; [apply Hinv|].
  - intros found Ht Hid. apply safe_lift_then. intros state _. case_match; [apply safe_throw|].
    apply safe_now; [apply loaded_stable|]. intros now. case_match; [apply safe_throw|]. by intros w _ Hl.
Qed.

Lemma decide_safe scope row a b decider word reason : b <> SApproved -> (forall db, decision row a b decider word db) ->
  safe (known row) (commit_transition (ap_tenant_id row) scope (ap_approval_id row) a b decider (ap_revision row)
      (decision_audit word (ap_kind row) (ap_business_key row) (ap_prepared_by row) decider reason)) (okpost (fun _ _ => True)).
Proof.
  intros Hb Hd. unfold commit_transition. apply safe_now; [apply known_stable|]. intros now.
  apply safe_uuid; [apply known_stable|]. intros cid. eapply safe_then.
  - apply safe_benign; [apply known_stable|]. intros env db flag db' Hi Hk Hok.
    destruct (commit_ok scope row a b decider word reason now cid db flag db' (Hinv db Hi) Hk (Hd db) Hok) as (? & ? & _ & _ & Hq & _).
    split_and!; [done|done|by apply Hq].
  - intros []; repeat safe_walk.
Qed.

Lemma reject_safe ctx scope id reason : safe (fun _ => True) (reject ctx scope id reason) (okpost (fun _ _ => True)).
Proof.
  unfold reject. eapply safe_then; [apply load_pending_safe|]. intros found. apply safe_extract. intros [<- <-].
  case_bool_decide as Hself; [apply safe_throw|]. by apply decide_safe.
Qed.

Lemma request_changes_safe ctx scope id reason : safe (fun _ => True) (request_changes ctx scope id reason) (okpost (fun _ _ => True)).
Proof.
  unfold request_changes. eapply safe_then; [apply load_pending_safe|]. intros found. apply safe_extract. intros [<- <-].
  case_bool_decide as Hself; [apply safe_throw|]. by apply decide_safe.
Qed.

Lemma cancel_safe ctx scope id : safe (fun _ => True) (cancel ctx scope id) (okpost (fun _ _ => True)).
Proof.
  unfold cancel. apply (safe_found _ _ _ _ (fun found => known (ar_row found))); [intros found; apply known_stable| |].
  - intros found db Hi _ Hr _ _. by apply row_known; [apply Hinv|].
  - intros found <- <-. apply safe_lift_then. intros a _. destruct (is_active a) eqn:Hact; [|apply safe_throw].
    cbn [negb]. case_bool_decide as Hself; cbn [negb]; [|apply safe_throw]. by apply decide_safe.
Qed.

Lemma resubmit_safe ctx scope id intent : safe (fun _ => True) (resubmit ctx scope id intent) (okpost (fun _ _ => True)).
Proof.
  pose (K := fun (found : ApprovalRow) db => keyed (ap_intent (ar_row found)) (ar_row found) /\ known (ar_row found) db).
  unfold resubmit. apply (safe_found _ _ _ _ K).
  { intros found. apply stable_and; [apply stable_pure|apply known_stable]. }
  { intros found db Hi%Hinv _ Hr _ _. split; [|by apply row_known]. destruct (inv_rows db Hi _ Hr) as [Hv _].
    destruct (inv_versions db Hi _ _ _ Hv) as (s & Hs & Hid & _ & Hk). assert (Heq : s = ar_row found) by by apply (same_id db). by rewrite Heq in Hk. }
  intros found <- <-. apply safe_extract. intros Hkeyed. set (row := ar_row found) in *.
  apply safe_lift_then. intros a Ha%parse_state_ok. case_bool_decide as Hst; cbn [negb]; [subst a|apply safe_throw].
  case_bool_decide as Hself; cbn [negb]; [|apply safe_throw]. case_bool_decide as Hkind; cbn [negb]; [|apply safe_throw].
  apply safe_lift_then. intros _ _. apply safe_lift_then. intros original Horig. case_match eqn:Htarget; [apply safe_throw|].
  apply negb_false_iff, edit_key in Htarget as [_ Hkey]. destruct (Hkeyed _ Horig) as [_ Hbk].
  apply (safe_then _ _ _ (fun _ => known row)).
  { apply safe_view; [intros ?; apply known_stable|by intros]. }
  intros versions. apply safe_now; [apply known_stable|]. intros now. do 4 (apply safe_lift_then; intros ? ?).
  apply safe_lift_then. intros json Hjson. apply safe_now; [apply known_stable|]. intros now2.
  apply safe_uuid; [apply known_stable|]. intros cid. eapply safe_then; [|intros []; repeat safe_walk].
  apply safe_benign; [apply known_stable|]. intros env db flag db' Hi Hk Hok.
  eapply (resubmit_ok scope row json); [by apply Hinv|done|exact Hjson|done|congruence|exact Hok].
Qed.

Lemma comment_safe ctx scope id text : safe (fun _ => True) (add_comment ctx scope id text) (okpost (fun _ _ => True)).
Proof.
  unfold add_comment. apply (safe_found _ _ _ _ (fun _ _ => True)); [intros; apply stable_true|done|]. intros found _ _.
  unfold append_comment_at. do 2 safe_walk. apply safe_benign; [apply stable_true|]. intros env db x db' Hi _ Hok.
  eapply comment_ok; [by apply Hinv|exact Hok].
Qed.

Lemma tick_safe : safe (fun _ => True) dual_control_maintenance_tick (okpost (fun _ _ => True)).
Proof.
  unfold dual_control_maintenance_tick. safe_walk. apply safe_try.
  - apply safe_atomic; [intros r; apply okpost_stable; intros ?; apply stable_true|]. intros env db Hi _.
    assert (Hself : Inv db /\ Guar db db) by (split; [done|by apply Hguar]).
    destruct (e_fault env); [by destruct Hself|]. cbn.
    destruct (Hbenign db (set_approvals (sql_update (expired now) expire_row (db_approvals db)).1 db) Hi); [|done].
    by apply (expire_ok now); [|apply Hinv].
  - intros r. apply safe_try; [apply safe_look|]. intros r'. safe_walk.
Qed.

(** Every request but an approval. *)
Lemma other_safe execute r : (forall ctx scope id, r <> Approve ctx scope id) ->
  safe (fun _ => True) (handler execute r) (okpost (fun _ _ => True)).
Proof.
  intros Hr. destruct r as [| |ctx scope id| | | | | | | | | |]; cbn [handler]; [| |by destruct (Hr ctx scope id)|..].
  - apply safe_ignore, gate_safe.
  - apply safe_ignore, set_policy_safe.
  - apply reject_safe.
  - apply cancel_safe.
  - apply request_changes_safe.
  - apply resubmit_safe.
  - apply comment_safe.
  - apply safe_ignore, safe_look.
  - apply safe_ignore, safe_look.
  - apply safe_ignore, safe_look.
  - apply safe_ignore. unfold read_effective_policy. repeat safe_walk.
  - apply tick_safe.
Qed.
End others.

(** ** Approvals *)

Lemma load_for_approve_safe scope tenant id (K : ApprovalRow -> Db -> Prop) :
  (forall found, stable (K found)) ->
  (forall found db, Inv db -> ar_row found ∈ db_approvals db -> ap_approval_id (ar_row found) = id -> K found db) ->
  safe (fun _ => True) (load_for_approve scope tenant id)
    (okpost (fun found db => (ap_tenant_id (ar_row found) = tenant /\ ap_approval_id (ar_row found) = id /\
       (ap_state (ar_row found) = as_str SPending \/ ap_state (ar_row found) = as_str SApproving)) /\ K found db)).
Proof.
  intros Hst HK. unfold load_for_approve. apply (safe_found _ _ _ _ K); [done|by intros; apply HK|].
  intros found Ht Hid. apply safe_lift_then. intros a Ha%parse_state_ok. destruct a; try apply safe_throw.
  - apply safe_now; [done|]. intros now. case_match; [apply safe_throw|]. intros w _ Hk. split; [auto|done].
  - intros w _ Hk. split; [auto|done].
Qed.

Lemma may_execute_stable row u i : stable (may_execute row u i).
Proof.
  apply stable_and; [apply stable_pure|apply stable_and; [apply known_stable|]].
  intros w w' _ _ Hr Hl. by apply (gr_latched _ _ (ev_grows _ _ (Hrely _ _ Hr))).
Qed.

Lemma executed_by_stable u id v : stable (fun db => executed_by u db id v).
Proof.
  intros w w' _ _ Hr (c & Hc & Hrest). exists c. split; [|done]. by apply (gr_calls _ _ (ev_grows _ _ (Hrely _ _ Hr))).
Qed.

Lemma commit_safe L scope tenant id a b decider v body : stable L ->
  (forall now cid db flag db', Inv db -> L db -> commit_body scope tenant id a b decider v body now cid db = Ok (flag, db') ->
     Inv db' /\ Guar db db') ->
  safe L (commit_transition tenant scope id a b decider v body) (okpost (fun _ _ => True)).
Proof.
  intros Hl Hb. unfold commit_transition. apply safe_now; [done|]. intros now. apply safe_uuid; [done|]. intros cid.
  eapply safe_then; [apply safe_retry; [done|intros ?; apply stable_true|]|].
  - intros env db flag db' Hi HL Hok. destruct (Hb now cid db flag db' Hi HL Hok). done.
  - intros []; [by intros w _ _|apply safe_throw].
Qed.

(** Running an executor under what its caller knows. *)
Lemma execute_safe M (row : ApprovalModelRow J) u i p : forall seen, stable M ->
  (forall db cs, Inv db -> M db -> Forall (call_for (ap_approval_id row) (ap_revision row) u i) cs ->
     Inv (add_calls cs db) /\ Guar db (add_calls cs db) /\ M (add_calls cs db)) ->
  executes (ap_approval_id row) (ap_revision row) u i seen p ->
  safe (fun db => M db /\ (seen = true -> executed_by u db (ap_approval_id row) (ap_revision row))) p
    (fun r db => M db /\ (is_ok r = true -> executed_by u db (ap_approval_id row) (ap_revision row))).
Proof.
  induction p as [a|e|step k IH]; intros seen Hm Hcall He; cbn in *.
  - subst seen. intros w _ [? Hs]. split; [done|]. intros _. by apply Hs.
  - subst seen. intros w _ [? _]. by split.
  - intros env db Hi [HM Hs]. destruct (He env db) as (cs & Hcs & -> & Hk). destruct (Hcall db cs Hi HM Hcs) as (Hi' & Hg & HM').
    split_and!; [done..|]. eexists. split; [|split; [|by apply (IH env db _ Hm Hcall Hk)]].
    + apply stable_and; [done|]. intros w w' Hw1 Hw2 Hw3 Hx Ht. by eapply executed_by_stable; [..|apply Hx].
    + split; [done|]. intros Ht. by eapply executed_by_add.
Qed.
(** The parts of an approval: what it knows of the row it has read ([K]), once latched
    ([M]), once executed ([X]) and after a failed execution ([N]). *)
Section approve.
Context (execute : Executor (J := J)) (ctx : SecurityContext) (scope : AccessScope) (id : Uuid).
Context (K : ApprovalModelRow J -> Db (J := J) -> Prop) (M X N : ApprovalModelRow J -> DomainIntent -> Db (J := J) -> Prop).
Let u := subject_id ctx.

Hypothesis Kstable : forall row, stable (K row).
Hypothesis Mstable : forall row i, stable (M row i).
Hypothesis Xstable : forall row i, stable (X row i).
Hypothesis Nstable : forall row i, stable (N row i).
Hypothesis Hread : forall row db, Inv db -> row ∈ db_approvals db -> ap_approval_id row = id -> K row db.
Hypothesis Hlatch : forall row i db flag db', Inv db -> K row db -> u <> ap_prepared_by row -> decode_intent (ap_intent row) = Ok i ->
  ap_approval_id row = id ->
  bare_body scope (ap_tenant_id row) (ap_approval_id row) SPending (ap_revision row) SApproving db = Ok (flag, db') ->
  Inv db' /\ Guar db db' /\ (flag = true -> M row i db').
Hypothesis Hskip : forall row i db, Inv db -> K row db -> u <> ap_prepared_by row -> decode_intent (ap_intent row) = Ok i ->
  ap_approval_id row = id -> ap_state row = as_str SApproving -> M row i db.
Hypothesis Hexecute : forall row i, ap_approval_id row = id ->
  safe (M row i) (execute ctx scope (ap_approval_id row) (ap_revision row) i)
    (fun r db => if is_ok r then X row i db else N row i db).
Hypothesis Hmark : forall row i now cid db flag db', Inv db -> X row i db -> ap_approval_id row = id ->
  commit_body scope (ap_tenant_id row) (ap_approval_id row) SApproving SApproved u (ap_revision row)
    (decision_audit "approved" (ap_kind row) (ap_business_key row) (ap_prepared_by row) u None) now cid db = Ok (flag, db') ->
  Inv db' /\ Guar db db'.
Hypothesis Hrevert : forall row i db flag db', Inv db -> N row i db -> ap_approval_id row = id ->
  bare_body scope (ap_tenant_id row) (ap_approval_id row) SApproving (ap_revision row) SPending db = Ok (flag, db') ->
  Inv db' /\ Guar db db'.

Lemma approve_parts : safe (fun _ => True) (approve execute ctx scope id) (okpost (fun _ _ => True)).
Proof.
  unfold approve. eapply safe_then; [apply (load_for_approve_safe _ _ _ (fun found => K (ar_row found))); [done|by intros; apply Hread]|].
  intros found. apply safe_extract. intros (<- & Hid & Hstate). rewrite <- Hid. set (row := ar_row found) in *. fold u.
  case_bool_decide as Hself; [apply safe_throw|]. apply safe_lift_then. intros _ _. apply safe_lift_then. intros i Hi.
  apply safe_lift_then. intros a Ha%parse_state_ok.
  apply (safe_then _ _ _ (fun (flag : bool) db => flag = true -> M row i db)).
  { case_bool_decide as Hp.
    - apply safe_retry; [done| |by intros env db flag db' HI HK; apply Hlatch].
      intros flag w w' Hw1 Hw2 Hw3 Hx Ht. exact (Mstable row i w w' Hw1 Hw2 Hw3 (Hx Ht)).
    - intros w HI HK _. apply Hskip; try done. destruct Hstate as [Hs|Hs]; [|done]. rewrite Ha in Hs. by apply state_inj in Hs. }
  intros [|]; cbn [negb]; [|apply safe_throw].
  eapply safe_bind; [apply safe_attempt; eapply safe_pre; [|by apply Hexecute]; by intros w _ Hm; apply Hm| |done].
  intros [[]|e].
  - eapply safe_pre; [|apply (commit_safe (X row i)); [done|by intros now cid db flag db' HI HX; apply Hmark with (i := i)]].
    by intros w _ (r & [= <-] & Hx).
  - apply safe_try; [|intros r; apply safe_throw].
    eapply safe_pre; [|apply (safe_retry (N row i)); [done|intros ?; apply stable_true|]].
    + by intros w _ (r & [= <-] & Hx).
    + intros env db flag db' HI HN Hok. destruct (Hrevert row i db flag db' HI HN Hid Hok). done.
Qed.
End approve.
End logic.

(** ** Every run *)

Section runs.
Context (execute : Executor (J := J)) `{!ApprovalExecutor execute}.

Lemma calls_step row u i cs db : inv db -> may_execute row u i db ->
  Forall (call_for (ap_approval_id row) (ap_revision row) u i) cs ->
  inv (add_calls cs db) /\ evolves db (add_calls cs db) /\ may_execute row u i (add_calls cs db).
Proof.
  intros Hi Hm Hcs. destruct (calls_inv cs db Hi) as [Hi' He]; [by eapply may_execute_calls|]. split_and!; [done..|].
  by apply (may_execute_stable inv evolves ltac:(done) row u i db).
Qed.

Lemma approve_safe ctx scope id :
  safe inv evolves evolves (fun _ => True) (approve execute ctx scope id) (okpost (fun _ _ => True)).
Proof.
  pose (u := subject_id ctx).
  pose (K := fun row db => known row db /\ (ap_state row = as_str SApproving -> (ap_approval_id row, ap_revision row) ∈ db_latched db)).
  pose (X := fun row (_ : DomainIntent) db => (u <> ap_prepared_by row) /\ known row db /\ executed_by u db (ap_approval_id row) (ap_revision row)).
  apply (approve_parts inv evolves evolves ltac:(done) execute ctx scope id K (fun row => may_execute row u) X (fun _ _ _ => True)).
  - intros row. apply stable_and; [by apply known_stable|]. intros w w' _ _ Hr Hl Ha. by apply (gr_latched _ _ (ev_grows _ _ Hr)), Hl.
  - intros row i. by apply may_execute_stable.
  - intros row i. apply stable_and; [apply stable_pure|apply stable_and; [by apply known_stable|by apply executed_by_stable]].
  - intros row i. apply stable_true.
  - intros row db Hi Hr _. split; [by apply row_known|]. intros Ha. exact (proj2 (row_state db _ SApproving Hi Hr Ha)).
  - intros row i db flag db' Hi [Hkn _] Hself Hd _ Hok.
    destruct (bare_ok scope _ _ _ _ _ db flag db' (or_introl (conj eq_refl eq_refl)) Hi Hok) as (? & He & _ & _ & Hf & _).
    split_and!; [done..|]. intros Ht. destruct (Hf Ht) as (r & Hr & Hid & Hrev & Hs).
    split; [done|]. split; [by eapply known_evolves|]. rewrite <- Hid, <- Hrev. by apply (row_state db' r SApproving).
  - intros row i db _ [Hkn Hl] Hself Hd _ Ha. split; [done|]. split; [done|]. by apply Hl.
  - intros row i _. eapply safe_conseq; [| |apply (execute_safe inv evolves evolves ltac:(done) (may_execute row u i) row u i _ false)].
    + intros w _ Hm. by split; [apply Hm|].
    + intros [[]|e] w _ [Hm Hx]; cbn; [|done]. destruct Hm as ([? _] & ? & _). split_and!; [done..|by apply Hx].
    + by apply may_execute_stable.
    + intros db cs Hi' Hm Hcs. by apply calls_step.
    + apply execute_calls.
  - intros row i now cid db flag db' Hi (Hself & Hkn & Hx) _ Hok.
    destruct (commit_ok scope row SApproving SApproved u "approved" None now cid db flag db' Hi Hkn) as (? & ? & _); [by split_and!|exact Hok|done].
  - intros row i db flag db' Hi _ _ Hok.
    destruct (bare_ok scope _ _ _ _ _ db flag db' (or_intror (conj eq_refl eq_refl)) Hi Hok) as (? & ? & _). done.
Qed.

Lemma handlers_safe r : safe inv evolves evolves (fun _ => True) (handler execute r) (fun _ _ => True).
Proof.
  apply (safe_conseq inv evolves evolves _ (fun _ => True) _ _ (okpost (fun _ _ => True))); [done|done|].
  assert (Hother : (forall ctx scope id, r <> Approve ctx scope id) ->
            safe inv evolves evolves (fun _ => True) (handler execute r) (okpost (fun _ _ => True))).
  { apply other_safe; [done..|]. by intros db db' _ (? & ? & _). }
  destruct r; try (by apply Hother). apply approve_safe.
Qed.
End runs.

(** ** Descent *)

Definition terminal (a : ApprovalState) : bool :=
  match a with SApproved | SRejected | SCancelled | SExpired => true | _ => false end.

(** A row and what it becomes: the same request, a revision that only grows, an intent
    fixed per revision, and nothing more once decided. *)
Record row_descends (r r' : ApprovalModelRow J) : Prop := mkRowDescends {
  rd_identity : identity r' = identity r;
  rd_revision : ap_revision r <= ap_revision r';
  rd_intent : ap_revision r' = ap_revision r -> ap_intent r' = ap_intent r;
  rd_terminal a : ap_state r = as_str a -> terminal a = true -> r' = r;
}.

Record descends (db db' : Db (J := J)) : Prop := mkDescends {
  de_rows r : r ∈ db_approvals db -> exists r', r' ∈ db_approvals db' /\ row_descends r r';
  de_grows : grows db db';
}.

#[global] Instance row_descends_order : PreOrder row_descends.
Proof.
  split; [intros r; by split|]. intros r1 r2 r3 [Hi Hr Hj Ht] [Hi' Hr' Hj' Ht'].
  split; [congruence|lia| |].
  - intros He. rewrite Hj', Hj by lia. done.
  - intros a Ha Hta. assert (r2 = r1) as -> by by eapply Ht. by eapply Ht'.
Qed.

#[global] Instance descends_order : PreOrder descends.
Proof.
  split; [intros db; split; [intros r Hr; by exists r|done]|]. intros a b c [Hr Hg] [Hr' Hg']. split; [|by etrans].
  intros r (r' & Hin & Hd)%Hr. destruct (Hr' r' Hin) as (r2 & Hin2 & Hd2). exists r2. split; [done|by etrans].
Qed.

Lemma evolves_descends db db' : evolves db db' -> descends db db'.
Proof.
  intros [Hr Hg]. split; [|done]. intros r (r' & Hin & Hst)%Hr. exists r'. split; [done|]. split.
  - by apply step_identity.
  - by apply step_revision.
  - by apply step_intent.
  - intros a Ha Ht. destruct Hst as [->|[_ (b & b' & Hb & _ & Hl & _)]]; [done|]. rewrite Ha in Hb. apply state_inj in Hb as ->.
    inversion Hl; subst; done || (by destruct b).
Qed.

Definition empty_db : Db (J := J) := mkDb [] [] [] [] [] [] [].
Definition fresh_service : Machine Env (Db (J := J)) DomainError Request := mkMachine empty_db ∅.

Lemma empty_inv : inv empty_db.
Proof. split; cbn; try (by intros; set_solver); [constructor|]. intros t. done. Qed.

(** ** The executor of the ledger *)

(** A program that only reads. *)
Fixpoint reads {A} (p : P (J := J) A) : Prop :=
  match p with
  | Act step k => forall env db, step env db = db /\ reads (k env db)
  | _ => True
  end.

Lemma reads_bind {A B} (p : P (J := J) A) (f : A -> P (J := J) B) : reads p -> (forall a, reads (f a)) -> reads (p ≫= f).
Proof.
  intros Hp Hf. induction p as [a|e|step k IH]; cbn in *; [done|done|]. intros env db. destruct (Hp env db). split; [done|by apply IH].
Qed.

Lemma reads_lift {A} (r : result DomainError A) : reads (lift r : P (J := J) A).
Proof. by destruct r. Qed.

Lemma reads_view {A} (f : Env -> Db -> result DomainError A) : reads (atomic (fun env db => (db, f env db))).
Proof. intros env db. split; [done|apply reads_lift]. Qed.

Lemma dispatch_reads ctx i : reads (dispatch ctx i : P (J := J) Command).
Proof.
  destruct i as [i|i|i|i|i|[i]|i|i|i|i|i|i]; cbn [dispatch]; try done.
  1: apply reads_bind; [apply reads_view|intros original]; apply reads_bind; [destruct (rvi_effective_at i); [done|apply reads_view]|intros now].
  all: apply reads_bind; [apply reads_lift|by intros []].
Qed.

Lemma executes_reads {A} id v u i (p : P (J := J) A) k : reads p -> (forall a, executes id v u i false (k a)) ->
  executes id v u i false (p ≫= k).
Proof.
  intros Hp Hk. induction p as [a|e|step q IH]; cbn in *; [apply Hk|done|]. intros env db. destruct (Hp env db) as [-> Hq].
  exists []. split_and!; [constructor|done|by apply IH].
Qed.

Lemma executes_surface id v u i c : executes id v u i false (surface u id v i c).
Proof.
  intros env db. exists [mkSurfaceCall id v u i c (is_ok (outcome c (e_answer env)))].
  split_and!; [by apply Forall_singleton|done|]. cbn. rewrite orb_false_r. by destruct (outcome c (e_answer env)).
Qed.

#[global] Instance ledger_executor : ApprovalExecutor ledger_execute.
Proof. intros ctx scope id v i. apply executes_reads; [apply dispatch_reads|]. intros c. apply executes_surface. Qed.

Section safety.
Context (execute : Executor (J := J)) `{!ApprovalExecutor execute}.
Implicit Types (ops : list (MachineOp Env Request)).

(** The tables of the service after a run. *)
Definition tables_after ops : Db (J := J) := m_world (mrun (handler execute) fresh_service ops).

Lemma fresh_run ops : machine_ok inv (fun _ _ => true) (fun _ => evolves) (fun _ => evolves) (mrun (handler execute) fresh_service ops).
Proof.
  apply (run_sound inv (handler execute)); [done|by intros|intros r; by apply handlers_safe|apply fresh_ok, empty_inv|apply compatible_always].
Qed.

(** C6: no one approves their own request, whatever the requests do concurrently.  In
    every run of the service from empty tables, with any interleaving of gates,
    decisions, resubmissions, comments, policy writes and sweeps, crashes, retries and
    lost answers: each call of a mutation surface was made by somebody other than the
    preparer, for a revision that was latched, with the intent stored at that revision,
    and that intent has the kind and business key of the request; an approved request
    carries an approver other than the preparer, whose own call with the request's
    intent was accepted; each decision has its audit comment of the same revision and
    time, by the right person; at most one request per kind and business key is open;
    the policy versions of a tenant count up from zero; and as the run goes on a
    request keeps its identity, its revision only grows, its intent changes only with
    the revision, a decided request never changes, and nothing recorded is lost. *)
Theorem dual_control_holds ops ops' : let db := tables_after ops in
  (forall c, c ∈ db_calls db -> exists r j, r ∈ db_approvals db /\ ap_approval_id r = sc_approval c /\
     sc_actor c <> ap_prepared_by r /\ (sc_approval c, sc_revision c) ∈ db_latched db /\
     (sc_approval c, sc_revision c, j) ∈ db_versions db /\ decode_intent j = Ok (sc_intent c) /\
     as_str (kind (sc_intent c)) = ap_kind r /\ business_key (sc_intent c) = ap_business_key r) /\
  (forall r, r ∈ db_approvals db -> ap_state r = as_str SApproved -> exists u c, ap_approved_by r = Some u /\
     u <> ap_prepared_by r /\ c ∈ db_calls db /\ sc_ok c = true /\ sc_approval c = ap_approval_id r /\
     sc_revision c = ap_revision r /\ sc_actor c = u /\ decode_intent (ap_intent r) = Ok (sc_intent c)) /\
  (forall r a, r ∈ db_approvals db -> ap_state r = as_str a -> a ∈ [SApproved; SRejected; SNeedsRework; SCancelled] -> audited db r a) /\
  (forall r s, r ∈ db_approvals db -> s ∈ db_approvals db -> slot_held r = true -> slot_held s = true -> same_slot r s = true -> r = s) /\
  policies_ok (db_policies db) /\
  descends db (tables_after (ops ++ ops')).
Proof.
  intros db. pose proof (fresh_run ops) as Hm. pose proof (mo_inv _ _ _ _ _ Hm) as Hi. fold (tables_after ops) in Hi. fold db in Hi.
  split_and!.
  - intros c (r & j & Hr & Hid & Ha & Hl & Hv & Hd)%(inv_calls db Hi). exists r, j.
    destruct (inv_versions db Hi _ _ _ Hv) as (s & Hs & Hsid & _ & Hk). assert (s = r) as -> by (apply (same_id db); congruence).
    destruct (Hk _ Hd). done.
  - intros r Hr Ha. pose proof (row_state db r SApproved Hi Hr Ha) as (_ & _ & u & c & Hu & Hne & Hc & Hok & Hid & Hrev & Hact).
    exists u, c. split_and!; try done. destruct (inv_calls db Hi c Hc) as (_ & j & _ & _ & _ & _ & Hv & Hd).
    rewrite Hid, Hrev in Hv. by rewrite (inv_functional db Hi _ _ _ _ (proj1 (inv_rows db Hi r Hr)) Hv).
  - intros r a Hr Ha Hin. pose proof (row_state db r a Hi Hr Ha) as Hs. by destruct a; try set_solver; destruct Hs as (? & ? & ?) || destruct Hs.
  - apply (inv_slots db Hi).
  - apply (inv_policies db Hi).
  - unfold db, tables_after, mrun. rewrite fold_left_app.
    apply (run_relates inv (handler execute) (fun _ _ => true) (fun _ => evolves) (fun _ => evolves) ltac:(done) ltac:(done) (fun r => handlers_safe execute r) descends);
      [intros _; apply evolves_descends|apply fresh_run|apply compatible_always].
Qed.
End safety.
End requests.
