(* ===== verification/DualApprovalReplay.v ===== *)
(** * Approvals and executors that replay

    An approval latches the request, executes its mutation and marks it approved, in
    separate transactions.  When the executor replays an accepted mutation and no two
    approvals of a request overlap, an executed mutation is never disowned; without
    either of the two it can be, and both runs are given.  What the executor is handed
    is the request that was captured. *)

From Stdlib Require Import Ascii.
From S2P Require Import Prelude BTree Sql Decimal Money Exact ExactGrid Iso Sdk DomainErrors MoneyText Posting DualControl Recognition Notes Invoice Adjustment Reversal FxTranslate Json Intent StoredIntent Handler DualApproval DualApprovalInv DualApprovalRun.

Section requests.
Context `{DecimalText} `{!UuidSource} `{!Json} `{!InstantText}.
Context {J : Type} `{!Serde J StoredApprovalIntent, !Serde J StoredThresholdSnapshot, !JsonText J}.
Implicit Types (db : Db (J := J)).

(** ** Executors that replay *)

(** Two approvals of the same request exclude each other. *)
Definition apart (r r' : Request) : bool :=
  match r, r' with
  | Approve _ _ id, Approve _ _ id' => negb (bool_decide (id = id'))
  | _, _ => true
  end.

(** A request whose mutation was accepted is in execution or approved. *)
Definition held (db : Db (J := J)) : Prop :=
  forall c r, c ∈ db_calls db -> sc_ok c = true -> r ∈ db_approvals db -> ap_approval_id r = sc_approval c ->
    (approving r \/ ap_state r = as_str SApproved) /\ sc_revision c = ap_revision r.

Definition inv_held db : Prop := inv db /\ held db.

Definition guar (r : Request) (db db' : Db (J := J)) : Prop :=
  evolves db db' /\
  match r with
  | Approve _ _ id => only id db db' /\ forall c, c ∈ db_calls db' -> c ∈ db_calls db \/ sc_approval c = id
  | _ => quiet db db'
  end.

Definition rely (r : Request) (db db' : Db (J := J)) : Prop :=
  evolves db db' /\
  match r with
  | Approve _ _ id =>
      (forall c, c ∈ db_calls db' -> sc_approval c = id -> c ∈ db_calls db) /\
      (forall r, r ∈ db_approvals db -> ap_approval_id r = id -> approving r -> r ∈ db_approvals db')
  | _ => True
  end.

Lemma apart_rely r r' db db' : apart r r' = true -> guar r db db' -> rely r' db db'.
Proof.
  intros Ha [He Hg]. split; [done|]. destruct r' as [| |ctx' scope' id'| | | | | | | | | |]; try done.
  destruct r as [| |ctx scope id| | | | | | | | | |]; cbn in Ha.
  3: { apply negb_true_iff, bool_decide_eq_false in Ha. destruct Hg as [Ho Hc]. split.
       - intros c Hin Hid. destruct (Hc c Hin); [done|congruence].
       - intros x Hx Hid _. apply Ho; [congruence|done]. }
  all: destruct Hg as [-> Hq]; split; [done|]; intros x Hx _ Hap; by apply Hq.
Qed.

Lemma apart_sym r r' : apart r r' = apart r' r.
Proof. destruct r, r'; cbn; try done. f_equal. apply bool_decide_ext. split; congruence. Qed.

(** Rows with an accepted call stay where they are under a step that leaves them. *)
Lemma held_keep db db' : inv_held db -> inv db' -> evolves db db' ->
  (forall r, r ∈ db_approvals db -> approving r -> (exists c, c ∈ db_calls db /\ sc_ok c = true /\ sc_approval c = ap_approval_id r) ->
     exists r', r' ∈ db_approvals db' /\ identity r' = identity r /\ ap_revision r' = ap_revision r /\ (approving r' \/ ap_state r' = as_str SApproved)) ->
  (forall c r', c ∈ db_calls db' -> sc_ok c = true -> r' ∈ db_approvals db' -> ap_approval_id r' = sc_approval c ->
     c ∈ db_calls db \/ ((approving r' \/ ap_state r' = as_str SApproved) /\ sc_revision c = ap_revision r')) ->
  held db'.
Proof.
  intros [Hi Hh] Hi' He Hap Hc c r' Hin Hok Hr' Hid'. destruct (Hc c r' Hin Hok Hr' Hid') as [Hold|?]; [|done].
  destruct (inv_calls db Hi c Hold) as (r & _ & Hr & Hid & _). destruct (Hh c r Hold Hok Hr Hid) as [[Ha|Ha] Hrev].
  - destruct (Hap r Hr Ha) as (s & Hs & Hident & Hsrev & Hst); [by exists c|].
    assert (r' = s) as -> by (apply (same_id db'); [done..|]; rewrite (identity_id _ _ Hident); congruence). split; [done|congruence].
  - destruct (de_rows _ _ (evolves_descends db db' He) r Hr) as (s & Hs & Hd).
    assert (s = r) as -> by by apply (rd_terminal r s Hd SApproved). assert (r' = r) as -> by (apply (same_id db'); congruence). auto.
Qed.

Section replay.
Context (execute : Executor (J := J)) `{!ApprovalExecutor execute, !IdempotentExecutor execute}.

Lemma benign_held r db db' : (forall ctx scope id, r <> Approve ctx scope id) -> inv_held db -> benign db db' ->
  inv_held db' /\ guar r db db'.
Proof.
  intros Hr Hh (Hi' & He & Hq). destruct Hq as [Hc Ha]. split; [split; [done|]|].
  - apply (held_keep db); try done.
    + intros x Hx Hap _. exists x. split_and!; [by apply Ha|done|done|by left].
    + intros c x Hin. rewrite Hc in Hin. by left.
  - split; [done|]. destruct r as [| |ctx scope id| | | | | | | | | |]; [..|by destruct (Hr ctx scope id)| | | | | | | | | |]; done.
Qed.

Section one.
Context (ctx : SecurityContext) (scope : AccessScope) (id : Uuid).
Let req := Approve ctx scope id.
Let u := subject_id ctx.

Definition unexecuted db : Prop := forall c, c ∈ db_calls db -> sc_approval c = id -> sc_ok c = false.

(** The request is latched by this approval. *)
Definition latched_row (row : ApprovalModelRow J) (i : DomainIntent) db : Prop :=
  (ap_approval_id row = id) /\ may_execute row u i db /\
  exists r, (ap_approval_id r = id /\ ap_revision r = ap_revision row /\ approving r) /\ r ∈ db_approvals db.

Lemma rely_evolves db db' : rely req db db' -> evolves db db'.
Proof. by intros [? _]. Qed.

Lemma unexecuted_stable : stable inv_held (rely req) unexecuted.
Proof. intros w w' _ _ (_ & Hc & _) Hu c Hin Hid. apply Hu; [by apply Hc|done]. Qed.

Lemma latched_row_stable row i : stable inv_held (rely req) (latched_row row i).
Proof.
  apply stable_and; [apply stable_pure|]. apply stable_and; [apply may_execute_stable, rely_evolves|].
  intros w w' _ _ (_ & _ & Hr) (r & (Hid & Hrev & Ha) & Hin). exists r. split; [done|]. by apply Hr.
Qed.

Lemma executed_dec db row i : inv_held db -> latched_row row i db ->
  unexecuted db \/ executed db (ap_approval_id row) (ap_revision row).
Proof.
  intros [_ Hh] (Hid & _ & r & (Hrid & Hrev & _) & Hr).
  destruct (existsb (fun c => bool_decide (sc_approval c = id) && sc_ok c) (db_calls db)) eqn:He.
  - right. apply existsb_exists in He as (c & Hc%list_elem_of_In & [Hcid%bool_decide_eq_true Hok]%andb_true_iff).
    destruct (Hh c r Hc Hok Hr) as [_ Hv]; [congruence|]. exists c. split_and!; congruence.
  - left. rewrite existsb_false, Forall_forall in He. intros c Hc Hcid. specialize (He c Hc). cbn in He.
    by rewrite bool_decide_true in He.
Qed.

Lemma latched_calls row i cs db : inv_held db -> latched_row row i db ->
  Forall (call_for (ap_approval_id row) (ap_revision row) u i) cs ->
  inv_held (add_calls cs db) /\ guar req db (add_calls cs db) /\ latched_row row i (add_calls cs db).
Proof.
  intros Hh (Hid & Hm & r & (Hrid & Hrev & Ha) & Hr) Hcs. pose proof Hh as [Hi _].
  destruct (calls_step row u i cs db Hi Hm Hcs) as (Hi' & He & Hm').
  destruct (add_calls_fields cs db) as (Hrows & _ & _ & _ & _ & Hc). rewrite Forall_forall in Hcs.
  split_and!.
  - split; [done|]. apply (held_keep db); try done; rewrite Hrows.
    + intros x Hx Hap _. exists x. split_and!; [done..|by left].
    + intros c x Hin _ Hx Hxid. rewrite Hc in Hin. apply elem_of_app in Hin as [?|Hin]; [by left|]. right.
      destruct (Hcs c Hin) as [Hca Hcr _ _]. assert (x = r) as -> by (apply (same_id db); congruence). split; [by left|congruence].
  - split; [done|]. split; [intros x _; by rewrite Hrows|]. intros c. rewrite Hc, elem_of_app. intros [?|Hin]; [by left|].
    right. destruct (Hcs c Hin) as [-> _ _ _]. done.
  - split; [done|]. split; [done|]. exists r. by rewrite Hrows.
Qed.

(** An execution that fails has left nothing behind. *)
Lemma replay_safe row i p : forall seen, executes (ap_approval_id row) (ap_revision row) u i seen p ->
  safe inv_held (rely req) (guar req)
    (fun db => latched_row row i db /\ (seen = true -> executed_by u db (ap_approval_id row) (ap_revision row)) /\
       (seen = false -> unexecuted db \/ (executed db (ap_approval_id row) (ap_revision row) /\ replays (ap_approval_id row) (ap_revision row) p)))
    p
    (fun r db => if is_ok r then latched_row row i db /\ executed_by u db (ap_approval_id row) (ap_revision row) else unexecuted db).
Proof.
  induction p as [a|e|step k IH]; intros seen He; cbn in He |- *.
  - subst seen. intros w _ (Hl & Hx & _). split; [done|by apply Hx].
  - subst seen. intros w _ (_ & _ & [?|[_ []]]); [done|done].
  - intros env db Hh (Hl & Hs & Hn). destruct (He env db) as (cs & Hcs & Hstep & Hk). rewrite Hstep.
    destruct (latched_calls row i cs db Hh Hl Hcs) as (Hh' & Hg & Hl'). split_and!; [done..|].
    eexists. split; [|split; [|by apply (IH env db _ Hk)]].
    + apply stable_and; [apply latched_row_stable|]. intros w w' Hw Hw' Hr [Hx Hy]. split.
      * intros Ht. eapply (executed_by_stable inv_held (rely req) rely_evolves); [exact Hw|exact Hw'|done|by apply Hx].
      * intros Ht. destruct (Hy Ht) as [Hun|[(c & Hc & Hrest) Hrep]]; [left; by apply (unexecuted_stable w w')|].
        right. split; [|done]. exists c. split; [|done]. by apply (gr_calls _ _ (ev_grows _ _ (rely_evolves _ _ Hr))).
    + split; [done|]. split; [by eapply executed_by_add|]. intros [Hsf Hcf]%orb_false_iff.
      destruct (add_calls_fields cs db) as (_ & _ & _ & _ & _ & Hc). destruct (Hn Hsf) as [Hun|[Hex Hrep]].
      * left. intros c Hin. rewrite Hc in Hin. apply elem_of_app in Hin as [Hin|Hin]; [by apply Hun|].
        rewrite existsb_false, Forall_forall in Hcf. by rewrite Hcf.
      * right. split; [|by apply Hrep]. destruct Hex as (c & Hin & Hrest). exists c. split; [rewrite Hc; set_solver|done].
Qed.

Lemma latch_held row i db flag db' : inv_held db -> ap_approval_id row = id -> u <> ap_prepared_by row ->
  decode_intent (ap_intent row) = Ok i -> known row db ->
  bare_body scope (ap_tenant_id row) (ap_approval_id row) SPending (ap_revision row) SApproving db = Ok (flag, db') ->
  inv_held db' /\ guar req db db' /\ (flag = true -> latched_row row i db').
Proof.
  intros Hh Hid Hself Hd Hkn Hok.
  destruct (bare_ok scope _ _ _ _ _ db flag db' (or_introl (conj eq_refl eq_refl)) (proj1 Hh) Hok) as (Hi' & He & Ho & Hc & Hf & Hk).
  rewrite Hid in Ho, Hf. split_and!.
  - split; [done|]. apply (held_keep db); try done.
    + intros x Hx Hap _. exists x. split_and!; [|done|done|by left]. apply Hk; [done|]. rewrite Hap. by intros ?%state_inj.
    + intros c x Hin. left. by rewrite <- Hc.
  - split; [done|]. split; [done|]. intros c Hin. left. by rewrite <- Hc.
  - intros Ht. destruct (Hf Ht) as (r & Hr & Hrid & Hrev & Hs). split; [done|]. split; [|by exists r].
    split; [done|]. split; [by eapply known_evolves|]. rewrite Hid, <- Hrid, <- Hrev. by apply (row_state db' r SApproving).
Qed.

Lemma revert_held (row : ApprovalModelRow J) db flag db' : inv_held db -> ap_approval_id row = id -> unexecuted db ->
  bare_body scope (ap_tenant_id row) (ap_approval_id row) SApproving (ap_revision row) SPending db = Ok (flag, db') ->
  inv_held db' /\ guar req db db'.
Proof.
  intros Hh Hid Hun Hok.
  destruct (bare_ok scope _ _ _ _ _ db flag db' (or_intror (conj eq_refl eq_refl)) (proj1 Hh) Hok) as (Hi' & He & Ho & Hc & _ & _).
  rewrite Hid in Ho. split.
  - split; [done|]. apply (held_keep db); try done.
    + intros x Hx Hap (c & Hin & Hcok & Hcid). exists x. split_and!; [|done|done|by left]. apply Ho; [|done].
      intros Hxid. rewrite (Hun c Hin) in Hcok by congruence. done.
    + intros c x Hin. left. by rewrite <- Hc.
  - split; [done|]. split; [done|]. intros c Hin. left. by rewrite <- Hc.
Qed.

Lemma mark_held row i now cid db flag db' : inv_held db -> latched_row row i db /\ executed_by u db (ap_approval_id row) (ap_revision row) ->
  commit_body scope (ap_tenant_id row) (ap_approval_id row) SApproving SApproved u (ap_revision row)
    (decision_audit "approved" (ap_kind row) (ap_business_key row) (ap_prepared_by row) u None) now cid db = Ok (flag, db') ->
  inv_held db' /\ guar req db db'.
Proof.
  intros Hh [(Hid & ([Hself _] & Hkn & _) & _) Hx] Hok.
  destruct (commit_ok scope row SApproving SApproved u "approved" None now cid db flag db' (proj1 Hh) Hkn) as (Hi' & He & Ho & Hc & _ & Hk);
    [by split_and!|exact Hok|]. rewrite Hid in Ho. split.
  - split; [done|]. apply (held_keep db); try done.
    + intros x Hin Hap _. destruct (Hk x Hin) as (x' & Hin' & Hident & Hrev & Hst). exists x'. split_and!; try done.
      destruct Hst as [->|?]; auto.
    + intros c x Hin. left. by rewrite <- Hc.
  - split; [done|]. split; [done|]. intros c Hin. left. by rewrite <- Hc.
Qed.

Lemma approve_replay_safe :
  safe inv_held (rely req) (guar req) (fun _ => True) (approve execute ctx scope id) (okpost (fun _ _ => True)).
Proof.
  pose (K := fun row db => (ap_approval_id row = id) /\ known row db /\ (approving row -> row ∈ db_approvals db)).
  pose (X := fun row i db => latched_row row i db /\ executed_by u db (ap_approval_id row) (ap_revision row)).
  assert (Hself : forall db, inv_held db -> guar req db db) by (intros db _; split; [done|split; [done|auto]]).
  apply (approve_parts inv_held (rely req) (guar req) Hself execute ctx scope id K latched_row X (fun _ _ => unexecuted)).
  - intros row w w' Hw Hw' Hr (Hid & Hkn & Hap). split; [done|]. split; [eapply known_evolves; [apply Hr|done]|].
    intros Ha. by apply Hr; [apply Hap|..].
  - intros row i. apply latched_row_stable.
  - intros row i. apply stable_and; [apply latched_row_stable|apply executed_by_stable, rely_evolves].
  - intros row i. apply unexecuted_stable.
  - intros row db [Hi _] Hr Hid. split; [done|]. split; [by apply row_known|done].
  - intros row i db flag db' Hh (_ & Hkn & _) Hne Hd Hid Hok. by eapply latch_held.
  - intros row i db [Hi _] (_ & Hkn & Hap) Hne Hd Hid Ha. specialize (Hap Ha). split; [done|]. split; [|by exists row].
    split; [done|]. split; [done|]. exact (proj2 (row_state db row SApproving Hi Hap Ha)).
  - intros row i Hid. eapply safe_pre; [|apply (replay_safe row i _ false), execute_calls].
    intros db Hh Hl. split; [done|]. split; [done|]. intros _. destruct (executed_dec db row i Hh Hl); [by left|right].
    split; [done|apply execute_replays].
  - intros row i now cid db flag db' Hh HX _ Hok. by eapply mark_held.
  - intros row i db flag db' Hh Hun Hid Hok. by eapply revert_held.
Qed.
End one.

Lemma handlers_replay_safe r : safe inv_held (rely r) (guar r) (fun _ => True) (handler execute r) (fun _ _ => True).
Proof.
  apply (safe_conseq inv_held (rely r) (guar r) _ (fun _ => True) _ _ (okpost (fun _ _ => True))); [done|done|].
  assert (Hother : (forall ctx scope id, r <> Approve ctx scope id) ->
            safe inv_held (rely r) (guar r) (fun _ => True) (handler execute r) (okpost (fun _ _ => True))).
  { intros Hr. apply other_safe; [by intros ? []|by intros ? ? []| | |done].
    - intros db Hh. apply (benign_held r db db Hr Hh). split_and!; [apply Hh|done|done].
    - intros db db'. by apply benign_held. }
  destruct r; try (by apply Hother). apply approve_replay_safe.
Qed.

(** C12: an executed mutation is never disowned.  If the executor replays a mutation
    that a surface has already accepted, and no two approvals of the same request run
    at the same time, then in every run, crashes between any two steps and recoveries
    included: a request whose mutation was accepted is in execution or approved, never
    pending again, sent back, rejected, cancelled or expired; so a request that was
    rejected, cancelled or has expired was never executed. *)
Theorem executed_never_rejected ops :
  compatible (handler execute) apart fresh_service ops ->
  forall c r, c ∈ db_calls (tables_after execute ops) -> sc_ok c = true ->
    r ∈ db_approvals (tables_after execute ops) -> ap_approval_id r = sc_approval c ->
    (ap_state r = as_str SApproving \/ ap_state r = as_str SApproved) /\ sc_revision c = ap_revision r.
Proof.
  intros Hc. assert (machine_ok inv_held apart rely guar (mrun (handler execute) fresh_service ops)) as [[_ Hh] _ _].
  { apply (run_sound inv_held (handler execute) apart rely guar); [apply apart_sym|apply apart_rely|intros r; by apply handlers_replay_safe| |done].
    apply fresh_ok. split; [apply empty_inv|]. intros c r Hin. cbn in Hin. set_solver. }
  exact Hh.
Qed.
End replay.

(** ** What is replayed *)

(** The requests that are captured whole. *)
Inductive Captured :=
| CapturedRefund (req : RefundRequest)
| CapturedManual (req : ManualAdjustmentRequest)
| CapturedCreditNote (req : CreditNote.CreditNoteRequest)
| CapturedDebitNote (req : DebitNote.DebitNoteRequest)
| CapturedInvoice (invoice : PostedInvoice)
| CapturedRefundWithNote (refund : RefundRequest) (credit_note : CreditNote.CreditNoteRequest).

Definition capture (x : Captured) : DomainIntent :=
  match x with
  | CapturedRefund req => ApprovalIntent.Refund (refund_to_intent req)
  | CapturedManual req => ApprovalIntent.ManualAdjustment (manual_to_intent req)
  | CapturedCreditNote req => ApprovalIntent.CreditNote (credit_note_to_intent req)
  | CapturedDebitNote req => ApprovalIntent.DebitNote (debit_note_to_intent req)
  | CapturedInvoice invoice => ApprovalIntent.MaterialBackdating (BackdatedInvoice (invoice_to_intent invoice))
  | CapturedRefundWithNote refund credit_note => ApprovalIntent.RefundWithCreditNote (from_requests refund credit_note)
  end.

Definition replayed (x : Captured) : Command :=
  match x with
  | CapturedRefund req => PostRefund req
  | CapturedManual req => PostManualAdjustment req
  | CapturedCreditNote req => PostCreditNote req
  | CapturedDebitNote req => PostDebitNote req true
  | CapturedInvoice invoice => PostInvoice invoice true
  | CapturedRefundWithNote refund credit_note => PostRefundWithCreditNote refund credit_note
  end.

Lemma dispatch_captured ctx x : dispatch (J := J) ctx (capture x) = mret (replayed x).
Proof.
  destruct x; cbn [capture dispatch replayed].
  - by rewrite refund_roundtrip.
  - by rewrite manual_roundtrip.
  - by rewrite credit_note_roundtrip.
  - by rewrite debit_note_roundtrip.
  - by rewrite invoice_roundtrip.
  - by rewrite composite_roundtrip.
Qed.

(** C31: an approval replays the request that was captured.  A refund, an adjustment, a
    note, a back-dated invoice or a refund with its note, captured with money of one
    currency, stored as JSON and read back at approval, gives the same intent; the
    executor then makes exactly one call, with the original request, field for field,
    and takes the surface's answer: it succeeds when the surface accepts or, for a
    refund, holds it behind a dispute. *)
Theorem captured_request_replays ctx scope id v x j env db :
  intent_valid (capture x) -> consistent (capture x) -> encode_intent (capture x) = Ok j ->
  exists i, decode_intent j = Ok i /\
    let r := outcome (replayed x) (e_answer env) in
    run_alone (ledger_execute ctx scope id v i) [env] db =
      (add_call (mkSurfaceCall id v (subject_id ctx) (capture x) (replayed x) (is_ok r)) db, Some r) /\
    (is_ok r = true <-> e_answer env = Ok tt \/ (e_answer env = Err DomainError.RefundDisputeHeld /\ exists req, x = CapturedRefund req)).
Proof.
  intros Hv Hc Hj. exists (capture x). split; [by apply (decode_encode _ _ Hv Hj)|]. cbv zeta. split.
  - unfold ledger_execute. rewrite dispatch_captured. cbn. by destruct (outcome _ _).
  - destruct (e_answer env) as [[]|e]; destruct x; cbn; split; try naive_solver; destruct e; cbn; naive_solver.
Qed.
End requests.

(** ** Sample service *)

(** Payloads kept as they are; the text of a payer closure is the code of its fields,
    other payloads have none. *)
Module SampleService.
Export ConcreteDecimal ConcreteText MoneySamples.

Inductive Payload := PIntent (d : StoredApprovalIntent) | PSnapshot (d : StoredThresholdSnapshot).

#[export] Program Instance intent_serde : Serde Payload StoredApprovalIntent :=
  {| to_value d := Ok (PIntent d); from_value v := match v with PIntent d => Ok d | PSnapshot _ => Err tt end |}.
Next Obligation. by intros d v [= <-]. Qed.
#[export] Program Instance snapshot_serde : Serde Payload StoredThresholdSnapshot :=
  {| to_value d := Ok (PSnapshot d); from_value v := match v with PSnapshot d => Ok d | PIntent _ => Err tt end |}.
Next Obligation. by intros d v [= <-]. Qed.

Fixpoint pos_text (p : positive) : list ascii :=
  match p with
  | xH => []
  | xO p => "0"%char :: pos_text p
  | xI p => "1"%char :: pos_text p
  end.

#[export] Instance pos_text_inj : Inj (=) (=) pos_text.
Proof. intros p. induction p as [p IH|p IH|]; intros [q|q|] Ht; try done; injection Ht as Ht; f_equal; by apply IH. Qed.

Definition payload_bytes (v : Payload) : result unit (list ascii) :=
  match v with
  | PIntent (ApprovalIntent.PayerClosure i) =>
      Ok (pos_text (encode (pci_tenant_id i, pci_payer_tenant_id i, pci_closed_with_open_balance i, pci_disposition i)))
  | _ => Err tt
  end.

Lemma payload_bytes_inj v w b : payload_bytes v = Ok b -> payload_bytes w = Ok b -> v = w.
Proof.
  destruct v as [[]|]; try done. destruct w as [[]|]; try done. cbn [payload_bytes].
  intros Hv Hw. rewrite <- Hv in Hw. assert (Ht : forall p q, Ok (E := unit) (pos_text p) = Ok (pos_text q) -> p = q) by (intros p q [= ?%pos_text_inj]; done).
  apply Ht, encode_inj in Hw. destruct i, i0. cbn in Hw. congruence.
Qed.

#[export] Instance payload_text : JsonText Payload := {| to_vec := payload_bytes; to_vec_inj := payload_bytes_inj |}.

#[export] Instance sample_json : Json := {| Json.to_vec _ := []; date_to_string _ := EmptyString |}.
#[export] Instance sample_instants : InstantText := {| format_rfc3339 _ := EmptyString |}.
#[export] Existing Instance sample_uuids.

(** An executor behind an idempotency key. *)
Definition keyed_execute : Executor (J := Payload) := fun ctx _ id v i =>
  atomic (fun env db =>
    let before := existsb (fun c => bool_decide (sc_approval c = id) && (sc_revision c =? v) && sc_ok c) (db_calls db) in
    let r := if before then Ok tt else e_answer env in
    (add_call (mkSurfaceCall id v (subject_id ctx) i (ReopenPeriod id id "2026-01" (subject_id ctx)) (is_ok r)) db, r)).

#[export] Instance keyed_executor : ApprovalExecutor keyed_execute.
Proof.
  intros ctx scope id v i env db. eexists [_]. split; [|split; [reflexivity|]]; [by apply Forall_singleton|].
  cbn. rewrite orb_false_r. by destruct (if existsb _ _ then _ else _).
Qed.

#[export] Instance keyed_replays : IdempotentExecutor keyed_execute.
Proof.
  intros ctx scope id v i env db (c & Hc & Hok & Hid & Hv). cbn.
  assert (existsb (fun c => bool_decide (sc_approval c = id) && (sc_revision c =? v) && sc_ok c) (db_calls db) = true) as ->; [|done].
  apply existsb_exists. exists c. split; [by apply list_elem_of_In|]. rewrite Hid, Hv, Hok, Z.eqb_refl. by rewrite bool_decide_true.
Qed.

Definition everything : AccessScope := fun _ _ => true.
Definition actor (u : Uuid) : SecurityContext := mkSecurityContext 1%N u.
Definition closure : DomainIntent := ApprovalIntent.PayerClosure (mkPayerClosureIntent 1%N 7%N true None).
Definition closure_facts : OperationFacts := mkOperationFacts KPayerClosure None None true.

(** An environment in which nothing fails, a fresh identifier, and the surface's answer. *)
Definition calm (u : Uuid) (answer : result DomainError unit) : Env :=
  mkEnv None 1000 u None (fun _ => Ok None) None (Err DomainError.Internal) (Err tt) answer.

Definition steps (t n : nat) (answer : result DomainError unit) : list (MachineOp Env Request) :=
  (fun k => Advance t (calm (N.of_nat (100 * t + k)) answer)) <$> seq 1 n.

Definition refused : result DomainError unit := Err DomainError.Internal.

(** Actor 10 asks for a closure; the approval is 105. *)
Definition prepared : list (MachineOp Env Request) :=
  Start 1 (Gate (actor 10%N) everything closure closure_facts "CLOSE") :: steps 1 12 (Ok tt).

Definition states (execute : Executor (J := Payload)) (ops : list (MachineOp Env Request)) : list (Uuid * string * Uuid * option Uuid) :=
  (fun r => (ap_approval_id r, ap_state r, ap_prepared_by r, ap_approved_by r)) <$> db_approvals (tables_after execute ops).
Definition outcomes (execute : Executor (J := Payload)) (ops : list (MachineOp Env Request)) : list (Uuid * Uuid * bool) :=
  (fun c => (sc_approval c, sc_actor c, sc_ok c)) <$> db_calls (tables_after execute ops).
End SampleService.

Section witnesses.
Import SampleService.

(** Executed by actor 11, who crashes before the mark; the replay of actor 12 fails and
    reopens the request; actor 13 rejects it. *)
Definition crashed_replay : list (MachineOp Env Request) :=
  prepared ++ Start 2 (Approve (actor 11%N) everything 105%N) :: steps 2 4 (Ok tt) ++ [Kill 2] ++
  Start 3 (Approve (actor 12%N) everything 105%N) :: steps 3 3 refused ++
  Start 4 (Reject (actor 13%N) everything 105%N "no") :: steps 4 5 (Ok tt).

(** Two approvals overlap: the first is refused after the second has read the latch,
    the second is accepted, the first reopens the request, and actor 13 rejects it. *)
Definition overlapping : list (MachineOp Env Request) :=
  prepared ++ Start 2 (Approve (actor 11%N) everything 105%N) :: steps 2 3 (Ok tt) ++
  Start 3 (Approve (actor 12%N) everything 105%N) :: steps 3 1 (Ok tt) ++
  steps 2 1 refused ++ steps 3 1 (Ok tt) ++ steps 2 1 (Ok tt) ++ steps 3 3 (Ok tt) ++
  Start 4 (Reject (actor 13%N) everything 105%N "no") :: steps 4 5 (Ok tt).

Definition disowned (execute : Executor (J := Payload)) (ops : list (MachineOp Env Request)) : Prop :=
  exists c r, c ∈ db_calls (tables_after execute ops) /\ sc_ok c = true /\ r ∈ db_approvals (tables_after execute ops) /\
    ap_approval_id r = sc_approval c /\ ap_state r = as_str SRejected.

Definition disownedb (execute : Executor (J := Payload)) (ops : list (MachineOp Env Request)) : bool :=
  existsb (fun c => sc_ok c && existsb (fun r => bool_decide (ap_approval_id r = sc_approval c) && bool_decide (ap_state r = as_str SRejected))
                                 (db_approvals (tables_after execute ops))) (db_calls (tables_after execute ops)).

Lemma disownedb_ok execute ops : disownedb execute ops = true -> disowned execute ops.
Proof.
  unfold disownedb. intros (c & Hc%list_elem_of_In & [Hok Hr]%andb_true_iff)%existsb_exists.
  apply existsb_exists in Hr as (r & Hr%list_elem_of_In & [Hid%bool_decide_eq_true Hs%bool_decide_eq_true]%andb_true_iff).
  by exists c, r.
Qed.


(** Actor 11 crashes after executing and actor 12 completes the approval. *)
Definition recovered : list (MachineOp Env Request) :=
  prepared ++ Start 2 (Approve (actor 11%N) everything 105%N) :: steps 2 4 (Ok tt) ++ [Kill 2] ++
  Start 3 (Approve (actor 12%N) everything 105%N) :: steps 3 6 (Ok tt).

Lemma dual_control_holds_witness :
  states ledger_execute recovered = [(105%N, "APPROVED"%string, 10%N, Some 12%N)] /\
  policies_ok (db_policies (tables_after ledger_execute recovered)) /\
  descends (tables_after ledger_execute prepared) (tables_after ledger_execute (prepared ++ recovered)).
Proof.
  split_and!.
  - by vm_compute.
  - apply (dual_control_holds ledger_execute recovered []).
  - apply (dual_control_holds ledger_execute prepared recovered).
Defined.

Lemma executed_never_rejected_witness :
  states keyed_execute recovered = [(105%N, "APPROVED"%string, 10%N, Some 12%N)] /\
  forall c r, c ∈ db_calls (tables_after keyed_execute recovered) -> sc_ok c = true ->
    r ∈ db_approvals (tables_after keyed_execute recovered) -> ap_approval_id r = sc_approval c ->
    (ap_state r = as_str SApproving \/ ap_state r = as_str SApproved) /\ sc_revision c = ap_revision r.
Proof.
  split; [by vm_compute|]. apply (executed_never_rejected keyed_execute recovered). apply compatibleb_ok. by vm_compute.
Defined.

Definition sample_capture : Captured := CapturedRefund sample_refund.

Lemma sample_capture_valid : intent_valid (capture sample_capture).
Proof. split; [|done]. apply Forall_singleton. split; [by apply eur_ok|done]. Qed.

Lemma captured_request_replays_witness :
  exists i, decode_intent (J := Payload) (PIntent (intent_to_stored (capture sample_capture))) = Ok i /\
    (run_alone (ledger_execute (J := Payload) (actor 11%N) everything 105%N 0 i) [calm 1%N (Ok tt)] empty_db).2 = Some (Ok tt).
Proof.
  destruct (captured_request_replays (actor 11%N) everything 105%N 0 sample_capture
              (PIntent (intent_to_stored (capture sample_capture))) (calm 1%N (Ok tt)) empty_db sample_capture_valid) as (i & Hd & Hr & _).
  - exists (currency (rf_amount sample_refund)). split; [done|]. by apply Forall_singleton.
  - reflexivity.
  - exists i. split; [exact Hd|]. by rewrite Hr.
Defined.
End witnesses.
