(* ===== verification/Canonical.v ===== *)
(** * Canonical framing: [ledger/src/domain/canonical.rs]

    The bytes both tamper-evidence chains hash.  A field is a presence byte, and for
    a present field a 32-bit big-endian length and the bytes.  The file models the
    framing primitives and shows that a sequence of framed fields determines the
    fields: two different field boundaries never give the same bytes. *)

From S2P Require Import Prelude Decimal Money ExactGrid DomainErrors MoneyText Sdk.

Abbreviation Bytes := (list Ascii.ascii).

(** The big-endian bytes of an integer of [n] bytes; negative numbers in two's
    complement. *)
Fixpoint be_bytes (n : nat) (z : Z) : Bytes :=
  match n with
  | O => []
  | S n => be_bytes n (z / 256) ++ [Ascii.ascii_of_N (Z.to_N (z mod 256))]
  end.

(** [Uuid::as_bytes]. *)
Definition uuid_bytes (u : Uuid) : Bytes := be_bytes 16 (Z.of_N u).
Definition uuid_ok (u : Uuid) : Prop := Z.of_N u < 2 ^ 128.

Definition ABSENT : Ascii.ascii := Ascii.zero.
Definition PRESENT : Ascii.ascii := Ascii.one.

Definition put (buf bytes : Bytes) : Bytes :=
  let len := Z.min (Z.of_nat (length bytes)) (2 ^ 32 - 1) in
  buf ++ [PRESENT] ++ be_bytes 4 len ++ bytes.

Definition put_none (buf : Bytes) : Bytes := buf ++ [ABSENT].

Definition put_opt (buf : Bytes) (bytes : option Bytes) : Bytes :=
  match bytes with
  | Some b => put buf b
  | None => put_none buf
  end.

Definition put_str (buf : Bytes) (s : string) : Bytes := put buf (bytes s).

Definition put_opt_str (buf : Bytes) (s : option string) : Bytes := put_opt buf (bytes <$> s).

Definition put_uuid (buf : Bytes) (u : Uuid) : Bytes := put buf (uuid_bytes u).

Definition put_opt_uuid (buf : Bytes) (u : option Uuid) : Bytes :=
  match u with
  | Some u => put_uuid buf u
  | None => put_none buf
  end.

Definition put_i64 (buf : Bytes) (n : Z) : Bytes := put buf (be_bytes 8 n).
Definition put_i32 (buf : Bytes) (n : Z) : Bytes := put buf (be_bytes 4 n).

(** A digest that is not 32 bytes would panic in the copy; [Sha256] gives 32. *)
Definition digest32 `{!Sha256} (buf : Bytes) : Bytes := sha256 buf.

Definition digest32_hex `{!Sha256} (buf : Bytes) : string :=
  String.string_of_list_ascii (flat_map hex_byte (digest32 buf)).

Section money.
Context `{DecimalText}.

Definition put_money (buf : Bytes) (money : PostedMoney) : Bytes :=
  let buf := put_str buf (canonical_decimal (amount money)) in
  let buf := put_str buf (code (currency money)) in
  put buf (be_bytes 1 (currency_scale (currency money))).

Definition put_opt_money (buf : Bytes) (money : option PostedMoney) : Bytes :=
  match money with
  | Some money => put_money buf money
  | None => put_none (put_none (put_none buf))
  end.
End money.

(** ** Bytes of integers *)

Lemma be_bytes_length n z : length (be_bytes n z) = n.
Proof. revert z. induction n as [|n IH]; intros z; cbn; [done|]. rewrite length_app, IH. cbn. lia. Qed.

Lemma byte_inj x y : 0 <= x < 256 -> 0 <= y < 256 ->
  Ascii.ascii_of_N (Z.to_N x) = Ascii.ascii_of_N (Z.to_N y) -> x = y.
Proof.
  intros Hx Hy Heq. apply (f_equal Ascii.N_of_ascii) in Heq.
  rewrite !Ascii.N_ascii_embedding in Heq by lia. lia.
Qed.

Lemma be_bytes_inj n : forall x y, be_bytes n x = be_bytes n y ->
  x mod 256 ^ Z.of_nat n = y mod 256 ^ Z.of_nat n.
Proof.
  induction n as [|n IH]; intros x y Heq; [by rewrite !Z.mod_1_r|].
  cbn in Heq. apply app_inj_tail in Heq as [Hq Hr]. apply IH in Hq.
  apply byte_inj in Hr; [|apply Z.mod_pos_bound; lia..].
  rewrite Nat2Z.inj_succ, Z.pow_succ_r by lia.
  rewrite (Z.rem_mul_r x), (Z.rem_mul_r y) by (try apply Z.pow_pos_nonneg; lia). by rewrite Hq, Hr.
Qed.

Lemma be_bytes_nat_inj n x y : 0 <= x < 256 ^ Z.of_nat n -> 0 <= y < 256 ^ Z.of_nat n ->
  be_bytes n x = be_bytes n y -> x = y.
Proof. intros Hx Hy Heq%be_bytes_inj. rewrite !Z.mod_small in Heq; lia. Qed.

(** Two's complement determines a signed integer of the width. *)
Lemma be_bytes_signed_inj n x y : let h := 256 ^ Z.of_nat n / 2 in (0 < n)%nat ->
  - h <= x < h -> - h <= y < h -> be_bytes n x = be_bytes n y -> x = y.
Proof.
  intros h Hn Hx Hy Heq%be_bytes_inj.
  assert (Hh : 256 ^ Z.of_nat n = 2 * h).
  { subst h. destruct n as [|n]; [lia|]. rewrite Nat2Z.inj_succ, Z.pow_succ_r by lia.
    replace (256 * 256 ^ Z.of_nat n) with ((128 * 256 ^ Z.of_nat n) * 2) by lia.
    rewrite Z.div_mul by lia. lia. }
  rewrite Hh in Heq. assert (0 < h) by lia.
  pose proof (Z.div_mod x (2 * h)). pose proof (Z.div_mod y (2 * h)).
  assert (x - y = 2 * h * (x / (2 * h) - y / (2 * h))) by lia.
  assert (x / (2 * h) - y / (2 * h) = 0) by nia. lia.
Qed.

Lemma uuid_bytes_inj u v : uuid_ok u -> uuid_ok v -> uuid_bytes u = uuid_bytes v -> u = v.
Proof.
  unfold uuid_ok, uuid_bytes. intros Hu Hv Heq.
  apply be_bytes_nat_inj in Heq; [lia|..]; change (256 ^ Z.of_nat 16) with (2 ^ 128); lia.
Qed.

(** ** Frames *)

(** The bytes of one field. *)
Definition frame (field : option Bytes) : Bytes := put_opt [] field.

Definition small_field (field : option Bytes) : Prop :=
  forall b, field = Some b -> Z.of_nat (length b) < 2 ^ 32.

Lemma put_opt_frame buf field : put_opt buf field = buf ++ frame field.
Proof. by destruct field. Qed.

Lemma frame_inj f g r s : small_field f -> small_field g ->
  frame f ++ r = frame g ++ s -> f = g /\ r = s.
Proof.
  intros Hf Hg Heq. unfold frame in Heq.
  destruct f as [b|], g as [c|]; unfold put_opt, put, put_none, ABSENT, PRESENT in Heq; cbn [app] in Heq;
    [|discriminate Heq|discriminate Heq|by injection Heq].
  specialize (Hf b eq_refl). specialize (Hg c eq_refl).
  apply (f_equal (@tl _)) in Heq. cbn [tl] in Heq.
  rewrite <- !app_assoc in Heq.
  apply app_inj_1 in Heq as [Hlen Heq]; [|by rewrite !be_bytes_length].
  apply be_bytes_nat_inj in Hlen; [|change (256 ^ Z.of_nat 4) with (2 ^ 32); lia..].
  apply app_inj_1 in Heq as [-> ->]; [done|lia].
Qed.

(** As many framed fields on both sides: the fields are the same. *)
Lemma frames_inj fs : forall gs r s, length fs = length gs ->
  Forall small_field fs -> Forall small_field gs ->
  flat_map frame fs ++ r = flat_map frame gs ++ s -> fs = gs /\ r = s.
Proof.
  induction fs as [|f fs IH]; intros [|g gs] r s Hl Hf Hg Heq; try done.
  cbn in Heq. rewrite <- !app_assoc in Heq. apply Forall_cons in Hf as [Hf Hfs], Hg as [Hg Hgs].
  apply frame_inj in Heq as [-> Heq]; [|done..]. apply IH in Heq as [-> ->]; [done|naive_solver..].
Qed.
