(* ===== verification/Chain.v ===== *)
(** * The tamper-evidence chains: [ledger/src/domain/chain.rs],
    [domain/audit_chain.rs] and the rows of [domain/model.rs]

    A posted entry is sealed by a digest of its canonical encoding and of the digest
    before it; the secured audit records have a chain of their own.  The file models
    both encodings and shows that a digest binds what it covers: two sealed rows
    with the same digest have the same covered content and the same predecessor, or
    the digest function collides; the two chains and their genesis values never
    meet.  The due date of a line, the rate snapshot of an entry, its correlation id
    and its rounding evidence are not covered. *)

From S2P Require Import Prelude Decimal Money ExactGrid DomainErrors MoneyText Sdk Json Canonical.

Record NewEntry := mkNewEntry {
  ne_entry_id : Uuid;
  ne_tenant_id : Uuid;
  ne_legal_entity_id : Uuid;
  ne_period_id : string;
  ne_entry_currency : string;
  ne_source_doc_type : SourceDocType;
  ne_source_business_id : string;
  ne_reverses_entry_id : option Uuid;
  ne_reverses_period_id : option string;
  ne_posted_at_utc : OffsetDateTime;
  ne_effective_at : NaiveDate;
  ne_origin : string;
  ne_posted_by_actor_id : Uuid;
  ne_correlation_id : Uuid;
  ne_rounding_evidence : Value;
  ne_rate_snapshot_ref : option Uuid;
}.

Section chain.
Context `{DecimalText} `{!Sha256}.

Record NewLine := mkNewLine {
  nl_line_id : Uuid;
  nl_payer_tenant_id : Uuid;
  nl_seller_tenant_id : option Uuid;
  nl_resource_tenant_id : option Uuid;
  nl_account_id : Uuid;
  nl_account_class : AccountClass;
  nl_gl_code : option string;
  nl_side : Side;
  nl_money : PostedMoney;
  nl_invoice_id : option string;
  nl_due_date : option NaiveDate;
  nl_revenue_stream : option string;
  nl_mapping_status : MappingStatus;
  nl_functional_money : option PostedMoney;
  nl_tax_jurisdiction : option string;
  nl_tax_filing_period : option string;
  nl_tax_rate_ref : option string;
  nl_legal_entity_id : option Uuid;
  nl_invoice_item_ref : option string;
  nl_sku_or_plan_ref : option string;
  nl_price_id : option string;
  nl_pricing_snapshot_ref : option string;
  nl_po_allocation_group : option string;
  nl_credit_grant_event_type : option string;
  nl_ar_status : option string;
}.

(** [i64::saturating_mul] and [saturating_add]; an instant is its nanoseconds. *)
Definition saturating_i64 (x : Z) : Z := Z.max i64_min (Z.min i64_max x).

Definition timestamp_micros (at_ : OffsetDateTime) : Z :=
  let unix_timestamp := at_ / 10 ^ 9 in
  let nanosecond := at_ mod 10 ^ 9 in
  saturating_i64 (saturating_i64 (unix_timestamp * 1000000) + nanosecond / 1000).

(** [Datelike::num_days_from_ce]: day 1 is 0001-01-01; a date counts from 1970. *)
Definition num_days_from_ce (d : NaiveDate) : Z := d + 719163.

(** The separators end in the unit separator, [\x1f]. *)
Definition unit_separator : Ascii.ascii := Ascii.ascii_of_nat 31.
Definition CHAIN_DOMAIN_SEP : Bytes := bytes "VHP-BSS-LEDGER-CHAIN-v2" ++ [unit_separator].
Definition AUDIT_DOMAIN_SEP : Bytes := bytes "VHP-BSS-LEDGER-AUDIT-v1" ++ [unit_separator].

(** The bytes [genesis_prev_hash] digests. *)
Definition genesis_bytes (tenant_id : Uuid) : Bytes :=
  let buf := CHAIN_DOMAIN_SEP in
  let buf := put_uuid buf tenant_id in
  put_str buf "GENESIS".

Definition genesis_prev_hash (tenant_id : Uuid) : Bytes := digest32 (genesis_bytes tenant_id).

(** One line of the encoding. *)
Definition put_line (buf : Bytes) (l : NewLine) : Bytes :=
  let buf := put_uuid buf (nl_line_id l) in
  let buf := put_uuid buf (nl_account_id l) in
  let buf := put_str buf (as_str (nl_account_class l)) in
  let buf := put_opt_str buf (nl_gl_code l) in
  let buf := put_str buf (as_str (nl_side l)) in
  let buf := put_money buf (nl_money l) in
  let buf := put_opt_money buf (nl_functional_money l) in
  let buf := put_uuid buf (nl_payer_tenant_id l) in
  let buf := put_opt_uuid buf (nl_seller_tenant_id l) in
  let buf := put_opt_uuid buf (nl_resource_tenant_id l) in
  let buf := put_opt_str buf (nl_invoice_id l) in
  let buf := put_opt_str buf (nl_revenue_stream l) in
  let buf := put_opt_str buf (nl_tax_jurisdiction l) in
  let buf := put_opt_str buf (nl_tax_filing_period l) in
  let buf := put_opt_str buf (nl_tax_rate_ref l) in
  let buf := put_opt_str buf (nl_ar_status l) in
  let buf := put_str buf (as_str (nl_mapping_status l)) in
  let buf := put_none buf in
  let buf := put_opt_str buf (nl_credit_grant_event_type l) in
  let buf := put_opt_str buf (nl_invoice_item_ref l) in
  let buf := put_opt_str buf (nl_sku_or_plan_ref l) in
  let buf := put_opt_str buf (nl_price_id l) in
  let buf := put_opt_str buf (nl_pricing_snapshot_ref l) in
  let buf := put_opt_str buf (nl_po_allocation_group l) in
  put_opt_uuid buf (nl_legal_entity_id l).

Definition line_id_cmp (a b : NewLine) : comparison := N.compare (nl_line_id a) (nl_line_id b).

(** The bytes [chain_row_hash] digests. *)
Definition chain_row_bytes (entry : NewEntry) (lines : list NewLine) (prev_hash : Bytes) : Bytes :=
  let buf := CHAIN_DOMAIN_SEP in
  let buf := put_uuid buf (ne_tenant_id entry) in
  let buf := put_uuid buf (ne_entry_id entry) in
  let buf := put_str buf (ne_period_id entry) in
  let buf := put_uuid buf (ne_legal_entity_id entry) in
  let buf := put_str buf (ne_entry_currency entry) in
  let buf := put_str buf (as_str (ne_source_doc_type entry)) in
  let buf := put_str buf (ne_source_business_id entry) in
  let buf := put_opt_uuid buf (ne_reverses_entry_id entry) in
  let buf := put_opt_str buf (ne_reverses_period_id entry) in
  let buf := put_i32 buf (num_days_from_ce (ne_effective_at entry)) in
  let buf := put_i64 buf (timestamp_micros (ne_posted_at_utc entry)) in
  let buf := put_str buf (ne_origin entry) in
  let buf := put_uuid buf (ne_posted_by_actor_id entry) in
  let ordered := sort_by line_id_cmp lines in
  let count := Z.min (Z.of_nat (length ordered)) (2 ^ 64 - 1) in
  let buf := put buf (be_bytes 8 count) in
  let buf := foldl put_line buf ordered in
  put buf prev_hash.

Definition chain_row_hash (entry : NewEntry) (lines : list NewLine) (prev_hash : Bytes) : Bytes :=
  digest32 (chain_row_bytes entry lines prev_hash).

(** ** The audit chain *)

Record AuditHashInput := mkAuditHashInput {
  audit_id : Uuid;
  audit_tenant_id : Uuid;
  event_type : string;
  actor_ref : option string;
  reason_code : option string;
  audit_correlation_id : option Uuid;
  at_utc : OffsetDateTime;
  before_after : Value;
}.

(** The bytes [audit_genesis_prev_hash] digests. *)
Definition audit_genesis_bytes (tenant_id : Uuid) : Bytes :=
  let buf := AUDIT_DOMAIN_SEP in
  let buf := put_uuid buf tenant_id in
  put_str buf "GENESIS".

Definition audit_genesis_prev_hash (tenant_id : Uuid) : Bytes := digest32 (audit_genesis_bytes tenant_id).

Fixpoint canonicalized (value : Value) : Value :=
  match value with
  | VObject m => VObject (sort_by member_cmp (map (fun kv => (fst kv, canonicalized (snd kv))) m))
  | VArray items => VArray (map canonicalized items)
  | other => other
  end.

(** Serializing a value in memory does not fail. *)
Definition canonical_json `{!Json} (value : Value) : Bytes := to_vec (canonicalized value).

Definition audit_row_bytes `{!Json} (rec : AuditHashInput) (prev_hash : Bytes) : Bytes :=
  let buf := AUDIT_DOMAIN_SEP in
  let buf := put_uuid buf (audit_id rec) in
  let buf := put_uuid buf (audit_tenant_id rec) in
  let buf := put_str buf (event_type rec) in
  let buf := put_opt_str buf (actor_ref rec) in
  let buf := put_opt_str buf (reason_code rec) in
  let buf := put_opt_uuid buf (audit_correlation_id rec) in
  let buf := put_i64 buf (timestamp_micros (at_utc rec)) in
  let buf := put buf (canonical_json (before_after rec)) in
  put buf prev_hash.

Definition audit_row_hash `{!Json} (rec : AuditHashInput) (prev_hash : Bytes) : Bytes :=
  digest32 (audit_row_bytes rec prev_hash).

(** ** The encodings as lists of fields *)

Definition present (b : Bytes) : option Bytes := Some b.
Definition money_fields (m : PostedMoney) : list (option Bytes) :=
  [present (bytes (canonical_decimal (amount m))); present (bytes (code (currency m)));
   present (be_bytes 1 (currency_scale (currency m)))].
Definition opt_money_fields (m : option PostedMoney) : list (option Bytes) :=
  match m with Some m => money_fields m | None => [None; None; None] end.

Definition line_fields (l : NewLine) : list (option Bytes) :=
  [present (uuid_bytes (nl_line_id l)); present (uuid_bytes (nl_account_id l));
   present (bytes (as_str (nl_account_class l))); bytes <$> nl_gl_code l;
   present (bytes (as_str (nl_side l)))]
  ++ money_fields (nl_money l) ++ opt_money_fields (nl_functional_money l)
  ++ [present (uuid_bytes (nl_payer_tenant_id l)); uuid_bytes <$> nl_seller_tenant_id l;
      uuid_bytes <$> nl_resource_tenant_id l; bytes <$> nl_invoice_id l;
      bytes <$> nl_revenue_stream l; bytes <$> nl_tax_jurisdiction l;
      bytes <$> nl_tax_filing_period l; bytes <$> nl_tax_rate_ref l; bytes <$> nl_ar_status l;
      present (bytes (as_str (nl_mapping_status l))); None;
      bytes <$> nl_credit_grant_event_type l; bytes <$> nl_invoice_item_ref l;
      bytes <$> nl_sku_or_plan_ref l; bytes <$> nl_price_id l; bytes <$> nl_pricing_snapshot_ref l;
      bytes <$> nl_po_allocation_group l; uuid_bytes <$> nl_legal_entity_id l].

Definition entry_fields (e : NewEntry) : list (option Bytes) :=
  [present (uuid_bytes (ne_tenant_id e)); present (uuid_bytes (ne_entry_id e));
   present (bytes (ne_period_id e)); present (uuid_bytes (ne_legal_entity_id e));
   present (bytes (ne_entry_currency e)); present (bytes (as_str (ne_source_doc_type e)));
   present (bytes (ne_source_business_id e)); uuid_bytes <$> ne_reverses_entry_id e;
   bytes <$> ne_reverses_period_id e; present (be_bytes 4 (num_days_from_ce (ne_effective_at e)));
   present (be_bytes 8 (timestamp_micros (ne_posted_at_utc e))); present (bytes (ne_origin e));
   present (uuid_bytes (ne_posted_by_actor_id e))].

Definition count_field (n : nat) : option Bytes :=
  present (be_bytes 8 (Z.min (Z.of_nat n) (2 ^ 64 - 1))).

Lemma put_frame buf b : put buf b = buf ++ frame (present b).
Proof. done. Qed.

Lemma put_opt_uuid_frame buf u : put_opt_uuid buf u = buf ++ frame (uuid_bytes <$> u).
Proof. by destruct u. Qed.

Lemma put_none_frame buf : put_none buf = buf ++ frame None.
Proof. done. Qed.

End chain.

(** Turn a sequence of puts into the frames it appends. *)
Ltac to_frames :=
  unfold put_opt_str, put_str, put_uuid, put_i32, put_i64;
  rewrite ?put_frame, ?put_opt_frame, ?put_opt_uuid_frame, ?put_none_frame;
  rewrite <- ?app_assoc; cbn [flat_map app]; rewrite ?flat_map_app; cbn [flat_map app];
  rewrite <- ?app_assoc, ?app_nil_r.

Section chain_fields.
Context `{DecimalText} `{!Sha256}.

Lemma put_money_frame buf m : put_money buf m = buf ++ flat_map frame (money_fields m).
Proof. unfold put_money, money_fields. by to_frames. Qed.

Lemma put_opt_money_frame buf m : put_opt_money buf m = buf ++ flat_map frame (opt_money_fields m).
Proof.
  destruct m; cbn [put_opt_money opt_money_fields]; [apply put_money_frame|by to_frames].
Qed.

Lemma put_line_frame buf l : put_line buf l = buf ++ flat_map frame (line_fields l).
Proof.
  unfold put_line, line_fields. rewrite put_opt_money_frame, put_money_frame. by to_frames.
Qed.

Lemma put_lines_frame ls : forall buf,
  foldl put_line buf ls = buf ++ flat_map frame (flat_map line_fields ls).
Proof.
  induction ls as [|l ls IH]; intros buf; cbn [foldl flat_map]; [by rewrite app_nil_r|].
  by rewrite IH, put_line_frame, flat_map_app, <- app_assoc.
Qed.

Lemma chain_row_bytes_fields e ls prev :
  chain_row_bytes e ls prev = CHAIN_DOMAIN_SEP ++ flat_map frame (entry_fields e)
    ++ frame (count_field (length ls))
    ++ flat_map frame (flat_map line_fields (sort_by line_id_cmp ls)) ++ frame (present prev).
Proof.
  unfold chain_row_bytes, entry_fields, count_field.
  rewrite put_lines_frame, (Permutation_length (sort_by_perm line_id_cmp ls)). by to_frames.
Qed.

Definition audit_fields `{!Json} (r : AuditHashInput) : list (option Bytes) :=
  [present (uuid_bytes (audit_id r)); present (uuid_bytes (audit_tenant_id r));
   present (bytes (event_type r)); bytes <$> actor_ref r; bytes <$> reason_code r;
   uuid_bytes <$> audit_correlation_id r; present (be_bytes 8 (timestamp_micros (at_utc r)));
   present (canonical_json (before_after r))].

Lemma audit_row_bytes_fields `{!Json} r prev :
  audit_row_bytes r prev = AUDIT_DOMAIN_SEP ++ flat_map frame (audit_fields r) ++ frame (present prev).
Proof. unfold audit_row_bytes, audit_fields. by to_frames. Qed.

(** ** What a digest binds *)

(** What the code base guarantees of a row: 128-bit identifiers, dates and money in
    range, fields below 4 GiB. *)
Definition money_ok (m : PostedMoney) : Prop := posted_ok m /\ spec_valid (currency m).
Definition option_ok {A} (P : A -> Prop) (o : option A) : Prop := forall a, o = Some a -> P a.

Record line_ok (l : NewLine) : Prop := {
  line_sizes : Forall small_field (line_fields l);
  line_uuids : Forall uuid_ok [nl_line_id l; nl_account_id l; nl_payer_tenant_id l];
  line_opt_uuids : Forall (option_ok uuid_ok)
    [nl_seller_tenant_id l; nl_resource_tenant_id l; nl_legal_entity_id l];
  line_money : money_ok (nl_money l);
  line_functional : option_ok money_ok (nl_functional_money l);
}.

Record entry_ok (e : NewEntry) : Prop := {
  entry_sizes : Forall small_field (entry_fields e);
  entry_uuids : Forall uuid_ok [ne_tenant_id e; ne_entry_id e; ne_legal_entity_id e; ne_posted_by_actor_id e];
  entry_opt_uuid : option_ok uuid_ok (ne_reverses_entry_id e);
  entry_date : in_i32 (num_days_from_ce (ne_effective_at e)) = true;
}.

(** The content of a row the digest covers. *)
Definition covered_line (l : NewLine) :=
  (nl_line_id l, nl_account_id l, nl_account_class l, nl_gl_code l, nl_side l, nl_money l,
   nl_functional_money l, nl_payer_tenant_id l, nl_seller_tenant_id l, nl_resource_tenant_id l,
   nl_invoice_id l, nl_revenue_stream l, nl_tax_jurisdiction l, nl_tax_filing_period l,
   nl_tax_rate_ref l, nl_ar_status l, nl_mapping_status l, nl_credit_grant_event_type l,
   nl_invoice_item_ref l, nl_sku_or_plan_ref l, nl_price_id l, nl_pricing_snapshot_ref l,
   nl_po_allocation_group l, nl_legal_entity_id l).

Definition covered_lines (ls : list NewLine) := covered_line <$> sort_by line_id_cmp ls.

Definition covered_entry (e : NewEntry) :=
  (ne_tenant_id e, ne_entry_id e, ne_period_id e, ne_legal_entity_id e, ne_entry_currency e,
   ne_source_doc_type e, ne_source_business_id e, ne_reverses_entry_id e, ne_reverses_period_id e,
   ne_effective_at e, timestamp_micros (ne_posted_at_utc e), ne_origin e, ne_posted_by_actor_id e).

(** Two byte strings that show SHA-256 not to be collision free. *)
Definition collides (b1 b2 : Bytes) : Prop := b1 <> b2 /\ sha256 b1 = sha256 b2.

Lemma present_bytes a b : present (bytes a) = present (bytes b) -> a = b.
Proof. intros [= Hab]. by apply bytes_inj. Qed.

Lemma opt_bytes (a b : option string) : (bytes <$> a) = (bytes <$> b) -> a = b.
Proof. destruct a, b; try done. intros [= Hab]. f_equal. by apply bytes_inj. Qed.

Lemma present_uuid u v : uuid_ok u -> uuid_ok v ->
  present (uuid_bytes u) = present (uuid_bytes v) -> u = v.
Proof. intros Hu Hv Heq. exact (uuid_bytes_inj u v Hu Hv (inj Some _ _ Heq)). Qed.

Lemma opt_uuid (u v : option Uuid) : option_ok uuid_ok u -> option_ok uuid_ok v ->
  (uuid_bytes <$> u) = (uuid_bytes <$> v) -> u = v.
Proof.
  destruct u as [u|], v as [v|]; try done. intros Hu Hv Heq. f_equal.
  exact (present_uuid u v (Hu u eq_refl) (Hv v eq_refl) Heq).
Qed.

Lemma present_enum {A} `{!StrEnum A} (v w : A) :
  present (bytes (as_str v)) = present (bytes (as_str w)) -> v = w.
Proof. intros Heq%present_bytes. by apply as_str_inj. Qed.

Lemma money_fields_inj m1 m2 : money_ok m1 -> money_ok m2 -> money_fields m1 = money_fields m2 -> m1 = m2.
Proof.
  intros [P1 V1] [P2 V2] Heq. unfold money_fields in Heq.
  pose proof (f_equal (fun l => l !! 0%nat) Heq) as Ha. pose proof (f_equal (fun l => l !! 1%nat) Heq) as Hc.
  pose proof (f_equal (fun l => l !! 2%nat) Heq) as Hs. clear Heq. cbn [lookup list_lookup] in *.
  injection Ha as Ha%bytes_inj. injection Hc as Hc%bytes_inj.
  assert (Hsc : currency_scale (currency m1) = currency_scale (currency m2)).
  { apply (be_bytes_nat_inj 1); [destruct P1 as [[? ?] _]; cbn; lia|destruct P2 as [[? ?] _]; cbn; lia|].
    exact (inj Some _ _ (inj Some _ _ Hs)). }
  assert (Hd : forall m, money_ok m -> decode_money (canonical_decimal (amount m))
    (code (currency m)) (currency_scale (currency m)) = Ok m) by (intros m [? ?]; by apply decode_money_ok).
  pose proof (Hd m1 (conj P1 V1)) as D1. rewrite Ha, Hc, Hsc, (Hd m2 (conj P2 V2)) in D1. congruence.
Qed.

Lemma opt_money_fields_inj m1 m2 : option_ok money_ok m1 -> option_ok money_ok m2 ->
  opt_money_fields m1 = opt_money_fields m2 -> m1 = m2.
Proof.
  destruct m1 as [m1|], m2 as [m2|]; intros P1 P2 Heq; try done. f_equal.
  exact (money_fields_inj m1 m2 (P1 m1 eq_refl) (P2 m2 eq_refl) Heq).
Qed.

Lemma cons_eq {A} (x y : A) l k : x :: l = y :: k -> x = y /\ l = k.
Proof. by intros [= -> ->]. Qed.

End chain_fields.

(** Split an equation of listed fields, and read each field back. *)
Ltac split_fields H :=
  repeat (apply cons_eq in H; let E := fresh "F" in destruct H as [E H]).
Ltac read_fields :=
  repeat match goal with
  | F : present (bytes (as_str _)) = present (bytes (as_str _)) |- _ => apply present_enum in F
  | F : present (bytes _) = present (bytes _) |- _ => apply present_bytes in F
  | F : (bytes <$> _) = (bytes <$> _) |- _ => apply opt_bytes in F
  | F : present (uuid_bytes _) = present (uuid_bytes _) |- _ => apply present_uuid in F; [|tauto..]
  | F : (uuid_bytes <$> _) = (uuid_bytes <$> _) |- _ => apply opt_uuid in F; [|tauto..]
  end.

Section chain_binds.
Context `{DecimalText} `{!Sha256}.

Lemma opt_money_fields_length m : length (opt_money_fields m) = 3%nat.
Proof. by destruct m. Qed.

Lemma line_fields_length l : length (line_fields l) = 29%nat.
Proof. unfold line_fields. by rewrite !length_app, opt_money_fields_length. Qed.

Lemma line_fields_inj l1 l2 : line_ok l1 -> line_ok l2 -> line_fields l1 = line_fields l2 ->
  covered_line l1 = covered_line l2.
Proof.
  intros [_ U1 O1 M1 F1] [_ U2 O2 M2 F2] Heq. rewrite !Forall_cons in *. unfold line_fields in Heq.
  apply app_inj_1 in Heq as [Ha Heq]; [|done]. apply app_inj_1 in Heq as [Hm Heq]; [|done].
  apply app_inj_1 in Heq as [Hf Heq]; [|by rewrite !opt_money_fields_length].
  apply money_fields_inj in Hm; [|done..]. apply opt_money_fields_inj in Hf; [|done..].
  split_fields Ha. split_fields Heq. read_fields. unfold covered_line. congruence.
Qed.

Lemma timestamp_micros_i64 at_ : i64_min <= timestamp_micros at_ <= i64_max.
Proof. unfold timestamp_micros, saturating_i64, i64_min, i64_max. lia. Qed.

Lemma entry_fields_inj e1 e2 : entry_ok e1 -> entry_ok e2 -> entry_fields e1 = entry_fields e2 ->
  covered_entry e1 = covered_entry e2.
Proof.
  intros [_ U1 O1 D1] [_ U2 O2 D2] Heq. rewrite !Forall_cons in *. unfold entry_fields in Heq.
  split_fields Heq. read_fields.
  assert (Hd : ne_effective_at e1 = ne_effective_at e2).
  { match goal with F : present (be_bytes 4 _) = _ |- _ => apply (inj Some) in F;
      apply be_bytes_signed_inj in F; [unfold num_days_from_ce in F; lia|lia|..] end;
    unfold in_i32, i32_min, i32_max in *; bool_to_prop;
    change (256 ^ Z.of_nat 4 / 2) with (2 ^ 31); lia. }
  assert (Ht : timestamp_micros (ne_posted_at_utc e1) = timestamp_micros (ne_posted_at_utc e2)).
  { match goal with F : present (be_bytes 8 _) = _ |- _ => apply (inj Some) in F;
      apply be_bytes_signed_inj in F; [exact F|lia|..] end;
    change (256 ^ Z.of_nat 8 / 2) with (2 ^ 63);
    [pose proof (timestamp_micros_i64 (ne_posted_at_utc e1))
    |pose proof (timestamp_micros_i64 (ne_posted_at_utc e2))]; unfold i64_min, i64_max in *; lia. }
  unfold covered_entry. congruence.
Qed.

Lemma digest_eq b1 b2 : digest32 b1 = digest32 b2 -> collides b1 b2 \/ b1 = b2.
Proof. intros Hd. destruct (decide (b1 = b2)); [by right|by left]. Qed.

Lemma lines_fields_inj ls1 : forall ls2, length ls1 = length ls2 ->
  Forall line_ok ls1 -> Forall line_ok ls2 ->
  flat_map line_fields ls1 = flat_map line_fields ls2 ->
  covered_line <$> ls1 = covered_line <$> ls2.
Proof.
  induction ls1 as [|l1 ls1 IH]; intros [|l2 ls2] Hl H1' H2' Heq; try done.
  cbn [flat_map] in Heq.
  apply Forall_cons in H1' as [L1 H1'], H2' as [L2 H2'].
  apply app_inj_1 in Heq as [Hf Heq]; [|by rewrite !line_fields_length].
  rewrite !fmap_cons. f_equal; [by apply line_fields_inj|].
  apply IH; [by injection Hl|done..].
Qed.

Lemma lines_sizes ls : Forall line_ok ls -> Forall small_field (flat_map line_fields ls).
Proof.
  induction 1 as [|l ls Hl _ IH]; cbn [flat_map]; [constructor|]. apply Forall_app. split; [apply Hl|done].
Qed.

Lemma lines_fields_length ls : length (flat_map line_fields ls) = (29 * length ls)%nat.
Proof. induction ls as [|l ls IH]; cbn [flat_map length]; [done|]. rewrite length_app, line_fields_length, IH. lia. Qed.

Lemma small_count n : small_field (count_field n).
Proof. intros b Hb%(inj Some). rewrite <- Hb, be_bytes_length. lia. Qed.

(** A 32-byte digest as a field. *)
Definition digest_ok (b : Bytes) : Prop := length b = 32%nat.

Lemma digest_small b : digest_ok b -> small_field (present b).
Proof. intros Hb b' <-%(inj Some). rewrite Hb. lia. Qed.

Lemma chain_row_bytes_inj e1 e2 ls1 ls2 p1 p2 :
  entry_ok e1 -> entry_ok e2 -> Forall line_ok ls1 -> Forall line_ok ls2 ->
  Z.of_nat (length ls1) < 2 ^ 64 -> Z.of_nat (length ls2) < 2 ^ 64 ->
  digest_ok p1 -> digest_ok p2 ->
  chain_row_bytes e1 ls1 p1 = chain_row_bytes e2 ls2 p2 ->
  covered_entry e1 = covered_entry e2 /\ covered_lines ls1 = covered_lines ls2 /\ p1 = p2.
Proof.
  intros He1 He2 Hl1 Hl2 Hn1 Hn2 Hp1 Hp2 Heq. rewrite !chain_row_bytes_fields in Heq.
  apply app_inv_head in Heq.
  apply frames_inj in Heq as [Hent Heq]; [|done|apply He1|apply He2].
  apply frame_inj in Heq as [Hcnt Heq]; [|apply small_count..].
  assert (Hlen : length ls1 = length ls2).
  { apply (inj Some) in Hcnt. apply be_bytes_nat_inj in Hcnt; [lia|..];
      change (256 ^ Z.of_nat 8) with (2 ^ 64); lia. }
  pose proof (sort_by_perm line_id_cmp ls1) as S1. pose proof (sort_by_perm line_id_cmp ls2) as S2.
  rewrite <- S1 in Hl1. rewrite <- S2 in Hl2.
  assert (Hls : length (sort_by line_id_cmp ls1) = length (sort_by line_id_cmp ls2))
    by by rewrite S1, S2.
  apply frames_inj in Heq as [Hlines Hprev]; [|by rewrite !lines_fields_length, Hls|by apply lines_sizes..].
  split; [by apply entry_fields_inj|]. split.
  - exact (lines_fields_inj _ _ Hls Hl1 Hl2 Hlines).
  - rewrite <- (app_nil_r (frame (present p1))), <- (app_nil_r (frame (present p2))) in Hprev.
    apply frame_inj in Hprev as [Hprev _]; [|by apply digest_small..]. exact (inj Some _ _ Hprev).
Qed.

(** The digest of a posted entry binds it.  If two well-formed rows have the same
    [chain_row_hash], then they agree on every covered field of the header and of
    their lines in line order, and both are linked to the same predecessor digest,
    unless the encodings of these two rows collide under SHA-256. *)
Theorem chain_digest_binds e1 e2 ls1 ls2 p1 p2 :
  entry_ok e1 -> entry_ok e2 -> Forall line_ok ls1 -> Forall line_ok ls2 ->
  Z.of_nat (length ls1) < 2 ^ 64 -> Z.of_nat (length ls2) < 2 ^ 64 ->
  digest_ok p1 -> digest_ok p2 ->
  chain_row_hash e1 ls1 p1 = chain_row_hash e2 ls2 p2 ->
  collides (chain_row_bytes e1 ls1 p1) (chain_row_bytes e2 ls2 p2) \/
  covered_entry e1 = covered_entry e2 /\ covered_lines ls1 = covered_lines ls2 /\ p1 = p2.
Proof.
  intros He1 He2 Hl1 Hl2 Hn1 Hn2 Hp1 Hp2 [Hc|Hb]%digest_eq; [by left|right].
  exact (chain_row_bytes_inj _ _ _ _ _ _ He1 He2 Hl1 Hl2 Hn1 Hn2 Hp1 Hp2 Hb).
Qed.

Record audit_ok `{!Json} (r : AuditHashInput) : Prop := {
  audit_sizes : Forall small_field (audit_fields r);
  audit_uuids : Forall uuid_ok [audit_id r; audit_tenant_id r];
  audit_opt_uuid : option_ok uuid_ok (audit_correlation_id r);
}.

(** The content of an audit record its digest covers; the change it describes by its
    canonical JSON. *)
Definition covered_audit `{!Json} (r : AuditHashInput) :=
  (audit_id r, audit_tenant_id r, event_type r, actor_ref r, reason_code r,
   audit_correlation_id r, timestamp_micros (at_utc r), canonical_json (before_after r)).

(** The digest of an audit record binds it: records with the same
    [audit_row_hash] agree on identity, tenant, event, actor, reason, correlation,
    instant, canonical change and predecessor, unless the encodings of these two
    records collide under SHA-256. *)
Theorem audit_digest_binds `{!Json} r1 r2 p1 p2 :
  audit_ok r1 -> audit_ok r2 -> digest_ok p1 -> digest_ok p2 ->
  audit_row_hash r1 p1 = audit_row_hash r2 p2 ->
  collides (audit_row_bytes r1 p1) (audit_row_bytes r2 p2) \/ covered_audit r1 = covered_audit r2 /\ p1 = p2.
Proof.
  intros [S1 U1 O1] [S2 U2 O2] Hp1 Hp2 [Hc|Hb]%digest_eq; [by left|right].
  rewrite !audit_row_bytes_fields in Hb. apply app_inv_head in Hb.
  apply frames_inj in Hb as [Hf Hp]; [|done..].
  rewrite <- (app_nil_r (frame (present p1))), <- (app_nil_r (frame (present p2))) in Hp.
  apply frame_inj in Hp as [Hp%(inj Some) _]; [|by apply digest_small..]. split; [|done].
  rewrite !Forall_cons in U1, U2. unfold audit_fields in Hf. split_fields Hf. read_fields.
  match goal with F : present (be_bytes 8 _) = _ |- _ => apply (inj Some) in F;
    apply be_bytes_signed_inj in F; [rename F into Ht|lia|..] end.
  - match goal with F : present (canonical_json _) = _ |- _ => apply (inj Some) in F end.
    unfold covered_audit. congruence.
  - pose proof (timestamp_micros_i64 (at_utc r1)). unfold i64_min, i64_max in *.
    change (256 ^ Z.of_nat 8 / 2) with (2 ^ 63). lia.
  - pose proof (timestamp_micros_i64 (at_utc r2)). unfold i64_min, i64_max in *.
    change (256 ^ Z.of_nat 8 / 2) with (2 ^ 63). lia.
Qed.

Lemma separators_differ x y : CHAIN_DOMAIN_SEP ++ x <> AUDIT_DOMAIN_SEP ++ y.
Proof. intros Heq. apply app_inj_1 in Heq as [Heq _]; [|done]. by vm_compute in Heq. Qed.

Lemma genesis_bytes_fields t : genesis_bytes t =
  CHAIN_DOMAIN_SEP ++ flat_map frame [present (uuid_bytes t); present (bytes "GENESIS")].
Proof. unfold genesis_bytes. by to_frames. Qed.

Lemma audit_genesis_bytes_fields t : audit_genesis_bytes t =
  AUDIT_DOMAIN_SEP ++ flat_map frame [present (uuid_bytes t); present (bytes "GENESIS")].
Proof. unfold audit_genesis_bytes. by to_frames. Qed.

Lemma small_uuid u : small_field (present (uuid_bytes u)).
Proof. intros b <-%(inj Some). unfold uuid_bytes. rewrite be_bytes_length. lia. Qed.

Lemma small_genesis : small_field (present (bytes "GENESIS")).
Proof. intros b <-%(inj Some). done. Qed.

Lemma row_not_genesis e ls p t : entry_ok e -> chain_row_bytes e ls p <> genesis_bytes t.
Proof.
  intros [Hs _ _ _] Heq. rewrite chain_row_bytes_fields, genesis_bytes_fields in Heq. apply app_inv_head in Heq.
  unfold entry_fields in *. rewrite !Forall_cons in Hs. cbn [flat_map] in Heq.
  rewrite <- !app_assoc in Heq.
  apply frame_inj in Heq as [_ Heq]; [|apply small_uuid..].
  apply frame_inj in Heq as [Heq _]; [|apply small_uuid|apply small_genesis].
  apply (inj Some), (f_equal length) in Heq. unfold uuid_bytes in Heq. by rewrite be_bytes_length in Heq.
Qed.

Lemma genesis_inj t1 t2 : uuid_ok t1 -> uuid_ok t2 -> genesis_bytes t1 = genesis_bytes t2 -> t1 = t2.
Proof.
  intros Ht1 Ht2 Heq. rewrite !genesis_bytes_fields in Heq. apply app_inv_head in Heq.
  cbn [flat_map] in Heq. apply frame_inj in Heq as [Heq _]; [|apply small_uuid..].
  by apply present_uuid.
Qed.

(** What the ledger digests is separated by purpose.  The encoding of a posted
    entry is never that of a genesis seed, the seeds of two tenants differ, and
    nothing of the posting chain encodes as anything of the audit chain; so no digest
    of one kind can be passed off as one of another. *)
Theorem chain_domains_separate `{!Json} e ls p t1 t2 r q :
  entry_ok e -> uuid_ok t1 -> uuid_ok t2 ->
  chain_row_bytes e ls p <> genesis_bytes t1 /\
  (genesis_bytes t1 = genesis_bytes t2 -> t1 = t2) /\
  chain_row_bytes e ls p <> audit_row_bytes r q /\
  chain_row_bytes e ls p <> audit_genesis_bytes t1 /\
  genesis_bytes t1 <> audit_row_bytes r q /\
  genesis_bytes t1 <> audit_genesis_bytes t2.
Proof.
  intros He Ht1 Ht2.
  rewrite audit_row_bytes_fields, !audit_genesis_bytes_fields.
  split_and!; [by apply row_not_genesis|by apply genesis_inj|..];
    rewrite ?chain_row_bytes_fields, ?genesis_bytes_fields; apply separators_differ.
Qed.
End chain_binds.

(** ** Sample rows *)

Module ChainSamples.
Import ConcreteDecimal ConcreteText MoneySamples.

#[export] Instance digest : Sha256 := sample_digest.
#[export] Instance null_json : Json := {| to_vec _ := []; date_to_string _ := EmptyString |}.

(** A line, and the entry of an invoice: a revenue credit and an AR debit. *)
Definition line (id : N) (class : AccountClass) (side : Side) (cents : Z) : NewLine :=
  mkNewLine id 7%N None None (id + 100)%N class None side (eur cents) (Some "INV-1"%string) (Some 20000) None
    Resolved None None None None None None None None None None None None.

Definition entry (id tenant : N) : NewEntry :=
  mkNewEntry id tenant 9%N "202610" "EUR" InvoicePost "INV-1" None None
    (1790000000 * 10 ^ 9 + 123456789) 20000 "API" 11%N 12%N VNull None.

Definition lines (id : N) (cents : Z) : list NewLine :=
  [line (2 * id + 1)%N Revenue Credit cents;
   line (2 * id)%N Ar Debit cents].

Definition small_fieldb (f : option Bytes) : bool :=
  match f with Some b => Z.of_nat (length b) <? 2 ^ 32 | None => true end.

Lemma small_fields fs : forallb small_fieldb fs = true -> Forall small_field fs.
Proof.
  intros Hf. apply Forall_forall. intros f Hin b ->. apply list_elem_of_In in Hin.
  pose proof (proj1 (forallb_forall _ _) Hf _ Hin) as Hb. by apply Z.ltb_lt in Hb.
Qed.

Ltac sample_uuids := repeat (constructor; [by vm_compute|]); constructor.

Lemma entry_sample_ok : entry_ok (entry 1 5).
Proof. constructor; [by apply small_fields; vm_compute|sample_uuids|done|by vm_compute]. Qed.

Lemma money_sample_ok cents : Z.abs cents < 10 ^ 28 -> money_ok (eur cents).
Proof. intros Hc. split; [by apply eur_ok|done]. Qed.

Lemma lines_sample_ok : Forall line_ok (lines 1 11900).
Proof.
  repeat (apply Forall_cons_2; [constructor; [by apply small_fields; vm_compute|sample_uuids
    |repeat (constructor; [done|]); constructor|by apply money_sample_ok|done]|]). constructor.
Qed.

Definition audit_sample : AuditHashInput :=
  mkAuditHashInput 3%N 5%N "PERIOD_REOPENED" (Some "controller"%string) None (Some 12%N)
    (1790000000 * 10 ^ 9) VNull.

Lemma audit_sample_ok : audit_ok audit_sample.
Proof.
  constructor; [by apply small_fields; vm_compute|sample_uuids|]. intros u [= <-]. by vm_compute.
Qed.

Lemma genesis_size t : digest_ok (genesis_prev_hash t).
Proof. apply sha256_length. Qed.

Lemma chain_digest_binds_witness :
  collides (chain_row_bytes (entry 1 5) (lines 1 11900) (genesis_prev_hash 5%N))
    (chain_row_bytes (entry 1 5) (reverse (lines 1 11900)) (genesis_prev_hash 5%N)) \/
  covered_lines (lines 1 11900) = covered_lines (reverse (lines 1 11900)).
Proof.
  destruct (chain_digest_binds (entry 1 5) (entry 1 5) (lines 1 11900) (reverse (lines 1 11900))
    (genesis_prev_hash 5%N) (genesis_prev_hash 5%N)) as [Hc|(_ & Hl & _)];
    [exact entry_sample_ok|exact entry_sample_ok|exact lines_sample_ok
    |apply Forall_reverse; exact lines_sample_ok|reflexivity|reflexivity|apply genesis_size|apply genesis_size
    |reflexivity|left; exact Hc|right; exact Hl].
Defined.

Lemma audit_digest_binds_witness :
  collides (audit_row_bytes audit_sample (audit_genesis_prev_hash 5%N))
    (audit_row_bytes audit_sample (audit_genesis_prev_hash 5%N)) \/
  covered_audit audit_sample = covered_audit audit_sample /\
  audit_genesis_prev_hash 5%N = audit_genesis_prev_hash 5%N.
Proof.
  apply (audit_digest_binds audit_sample audit_sample); [exact audit_sample_ok|exact audit_sample_ok
    |apply sha256_length|apply sha256_length|reflexivity].
Defined.

Lemma chain_domains_separate_witness :
  chain_row_bytes (entry 1 5) (lines 1 11900) (genesis_prev_hash 5%N) <> genesis_bytes 5%N /\
  genesis_bytes 5%N <> audit_genesis_bytes 6%N.
Proof.
  destruct (chain_domains_separate (entry 1 5) (lines 1 11900) (genesis_prev_hash 5%N) 5%N 6%N audit_sample
    (audit_genesis_prev_hash 5%N)) as (Hg & _ & _ & _ & _ & Ha);
    [exact entry_sample_ok|vm_compute; reflexivity|vm_compute; reflexivity|]. split; [exact Hg|exact Ha].
Defined.
End ChainSamples.
