(* ===== verification/Journal.v ===== *)
(** * The journal tables: [ledger/src/infra/storage/entity/{journal_entry,
    journal_line}.rs] and [infra/storage/repo/{journal_repo,chain_state_repo}.rs]

    A posted entry is a header row and its line rows; every tenant has one chain tip
    row.  The tables are the class [JournalDb], which states the SQL the repositories
    run by its effect on the rows (primary keys of headers, lines and tips);
    finite maps are an instance.  The file models the insert of an entry and the
    decoding of stored lines, and shows that what was inserted decodes back. *)

From S2P Require Import Prelude Decimal Money ExactGrid DomainErrors MoneyText Sdk Json Canonical Chain.

(** The primary key of a header: tenant, period, entry. *)
Definition EntryKey : Type := Uuid * string * Uuid.

Record EntryRow := mkEntryRow {
  er_entry_id : Uuid;
  er_tenant_id : Uuid;
  er_legal_entity_id : Uuid;
  er_period_id : string;
  er_entry_currency : string;
  er_source_doc_type : string;
  er_source_business_id : string;
  er_reverses_entry_id : option Uuid;
  er_reverses_period_id : option string;
  er_posted_at_utc : OffsetDateTime;
  er_effective_at : NaiveDate;
  er_origin : string;
  er_posted_by_actor_id : Uuid;
  er_correlation_id : Uuid;
  er_rounding_evidence : Value;
  er_created_seq : Z;
  er_row_hash : option Bytes;
  er_prev_hash : option Bytes;
  er_prev_entry_id : option Uuid;
  er_prev_period_id : option string;
}.

Record LineRow := mkLineRow {
  lr_line_id : Uuid;
  lr_entry_id : Uuid;
  lr_tenant_id : Uuid;
  lr_period_id : string;
  lr_payer_tenant_id : Uuid;
  lr_seller_tenant_id : option Uuid;
  lr_resource_tenant_id : option Uuid;
  lr_account_id : Uuid;
  lr_account_class : string;
  lr_gl_code : option string;
  lr_side : string;
  lr_amount : string;
  lr_currency : string;
  lr_currency_scale : Z;
  lr_invoice_id : option string;
  lr_due_date : option NaiveDate;
  lr_revenue_stream : option string;
  lr_mapping_status : string;
  lr_functional_amount : option string;
  lr_functional_currency : option string;
  lr_functional_currency_scale : option Z;
  lr_tax_jurisdiction : option string;
  lr_tax_filing_period : option string;
  lr_tax_rate_ref : option string;
  lr_legal_entity_id : option Uuid;
  lr_invoice_item_ref : option string;
  lr_sku_or_plan_ref : option string;
  lr_price_id : option string;
  lr_pricing_snapshot_ref : option string;
  lr_po_allocation_group : option string;
  lr_credit_grant_event_type : option string;
  lr_ar_status : option string;
  lr_rate_snapshot_ref : option Uuid;
}.

Record TipRow := mkTipRow {
  last_row_hash : Bytes;
  last_entry_id : Uuid;
  last_period_id : string;
  last_seq : Z;
}.

Definition header_key (h : EntryRow) : EntryKey := (er_tenant_id h, er_period_id h, er_entry_id h).
Definition line_entry (l : LineRow) : EntryKey := (lr_tenant_id l, lr_period_id l, lr_entry_id l).
Definition sealed (h : EntryRow) : bool := match er_row_hash h with Some _ => true | None => false end.

(** ** The tables *)

Class JournalDb (D : Type) := {
  j_headers : D -> list EntryRow;
  j_lines : D -> EntryKey -> list LineRow;
  j_tip : D -> Uuid -> option TipRow;
  j_insert_header : D -> EntryRow -> option D;
  j_insert_line : D -> LineRow -> option D;
  j_update_header : D -> EntryKey -> (EntryRow -> bool) -> (EntryRow -> EntryRow) -> D * Z;
  j_upsert_tip : D -> Uuid -> TipRow -> D;

  j_headers_keyed db : NoDup (header_key <$> j_headers db);
  j_lines_keyed db k l : l ∈ j_lines db k -> line_entry l = k;
  j_lines_ids db k : NoDup (lr_line_id <$> j_lines db k);

  j_insert_header_ok db h db' : j_insert_header db h = Some db' ->
    (header_key h ∉ (header_key <$> j_headers db)) /\ j_headers db' ≡ₚ h :: j_headers db /\
    (forall k, j_lines db' k = j_lines db k) /\ (forall t, j_tip db' t = j_tip db t);
  j_insert_line_ok db l db' : j_insert_line db l = Some db' ->
    j_headers db' = j_headers db /\ (forall t, j_tip db' t = j_tip db t) /\
    j_lines db' (line_entry l) ≡ₚ l :: j_lines db (line_entry l) /\
    forall k, k <> line_entry l -> j_lines db' k ≡ₚ j_lines db k;
  (** An update of the row with the key, when the condition holds of it; the new row
      keeps the key. *)
  j_update_hit db h others cond f : j_headers db ≡ₚ h :: others -> cond h = true ->
    header_key (f h) = header_key h ->
    exists db', j_update_header db (header_key h) cond f = (db', 1) /\
      j_headers db' ≡ₚ f h :: others /\
      (forall k, j_lines db' k = j_lines db k) /\ (forall t, j_tip db' t = j_tip db t);
  j_update_miss db k cond f :
    (forall h, h ∈ j_headers db -> header_key h = k -> cond h = false) ->
    j_update_header db k cond f = (db, 0);
  j_upsert_tip_ok db t tip :
    j_headers (j_upsert_tip db t tip) = j_headers db /\
    (forall k, j_lines (j_upsert_tip db t tip) k = j_lines db k) /\
    forall t', j_tip (j_upsert_tip db t tip) t' = if decide (t' = t) then Some tip else j_tip db t';
}.

(** [SELECT .. WHERE] the primary key. *)
Definition j_find `{JournalDb D} (db : D) (k : EntryKey) : option EntryRow :=
  List.find (fun h => bool_decide (header_key h = k)) (j_headers db).

Definition j_count_sealed `{JournalDb D} (db : D) (tenant : Uuid) : nat :=
  length (List.filter (fun h => bool_decide (er_tenant_id h = tenant) && sealed h) (j_headers db)).

Lemma find_keyed (k : EntryKey) hs h : NoDup (header_key <$> hs) ->
  List.find (fun h => bool_decide (header_key h = k)) hs = Some h <-> h ∈ hs /\ header_key h = k.
Proof.
  intros Hnd. split.
  - intros [Hin Hk%bool_decide_eq_true]%find_some. by rewrite list_elem_of_In.
  - intros [Hin Hk]. destruct (List.find _ hs) as [h'|] eqn:E.
    + apply find_some in E as [Hin' Hk'%bool_decide_eq_true]. apply list_elem_of_In in Hin'.
      f_equal. apply (NoDup_fmap_inj_elem Hnd); congruence.
    + apply list_elem_of_In, (find_none _ _ E) in Hin. by apply bool_decide_eq_false in Hin.
Qed.

Lemma j_find_some `{JournalDb D} (db : D) k h :
  j_find db k = Some h <-> h ∈ j_headers db /\ header_key h = k.
Proof. apply find_keyed, j_headers_keyed. Qed.

(** ** Writing an entry *)

Section journal.
Context `{DecimalText}.

Definition header_of (entry : NewEntry) (created_seq : Z) : EntryRow := {|
  er_entry_id := ne_entry_id entry;
  er_tenant_id := ne_tenant_id entry;
  er_legal_entity_id := ne_legal_entity_id entry;
  er_period_id := ne_period_id entry;
  er_entry_currency := ne_entry_currency entry;
  er_source_doc_type := as_str (ne_source_doc_type entry);
  er_source_business_id := ne_source_business_id entry;
  er_reverses_entry_id := ne_reverses_entry_id entry;
  er_reverses_period_id := ne_reverses_period_id entry;
  er_posted_at_utc := ne_posted_at_utc entry;
  er_effective_at := ne_effective_at entry;
  er_origin := ne_origin entry;
  er_posted_by_actor_id := ne_posted_by_actor_id entry;
  er_correlation_id := ne_correlation_id entry;
  er_rounding_evidence := ne_rounding_evidence entry;
  er_created_seq := created_seq;
  er_row_hash := None;
  er_prev_hash := None;
  er_prev_entry_id := None;
  er_prev_period_id := None;
|}.

Definition line_row_of (entry : NewEntry) (line : NewLine) : LineRow := {|
  lr_line_id := nl_line_id line;
  lr_entry_id := ne_entry_id entry;
  lr_tenant_id := ne_tenant_id entry;
  lr_period_id := ne_period_id entry;
  lr_payer_tenant_id := nl_payer_tenant_id line;
  lr_seller_tenant_id := nl_seller_tenant_id line;
  lr_resource_tenant_id := nl_resource_tenant_id line;
  lr_account_id := nl_account_id line;
  lr_account_class := as_str (nl_account_class line);
  lr_gl_code := nl_gl_code line;
  lr_side := as_str (nl_side line);
  lr_amount := encode_amount (nl_money line);
  lr_currency := code (currency (nl_money line));
  lr_currency_scale := currency_scale (currency (nl_money line));
  lr_invoice_id := nl_invoice_id line;
  lr_due_date := nl_due_date line;
  lr_revenue_stream := nl_revenue_stream line;
  lr_mapping_status := as_str (nl_mapping_status line);
  lr_functional_amount := encode_amount <$> nl_functional_money line;
  lr_functional_currency := (fun m => code (currency m)) <$> nl_functional_money line;
  lr_functional_currency_scale := (fun m => currency_scale (currency m)) <$> nl_functional_money line;
  lr_tax_jurisdiction := nl_tax_jurisdiction line;
  lr_tax_filing_period := nl_tax_filing_period line;
  lr_tax_rate_ref := nl_tax_rate_ref line;
  lr_legal_entity_id := nl_legal_entity_id line;
  lr_invoice_item_ref := nl_invoice_item_ref line;
  lr_sku_or_plan_ref := nl_sku_or_plan_ref line;
  lr_price_id := nl_price_id line;
  lr_pricing_snapshot_ref := nl_pricing_snapshot_ref line;
  lr_po_allocation_group := nl_po_allocation_group line;
  lr_credit_grant_event_type := nl_credit_grant_event_type line;
  lr_ar_status := nl_ar_status line;
  lr_rate_snapshot_ref := ne_rate_snapshot_ref entry;
|}.

(** [created_seq] is the sequence number the database draws for the header. *)
Definition insert_entry_with_lines `{!JournalDb D} (db : D) (entry : NewEntry) (lines : list NewLine)
    (created_seq : Z) : result RepoError (D * (Uuid * Z)) :=
  db ← ok_or (j_insert_header db (header_of entry created_seq)) RepoError.Db;
  db ← fold_res (fun db line => ok_or (j_insert_line db (line_row_of entry line)) RepoError.Db) db lines;
  written ← ok_or (j_find db (ne_tenant_id entry, ne_period_id entry, ne_entry_id entry)) RepoError.RowVanished;
  Ok (db, (er_entry_id written, er_created_seq written)).

(** ** Reading a line back *)

Definition stored_enum {A} `{!StrEnum A} (literal : string) : result RepoError A :=
  map_err (fun _ => RepoError.InvalidStoredMoney) (from_str literal).

(** [stored_line_error]: the detail is for the log, the class is kept. *)
Definition stored_line_error (error : RepoError) : RepoError := RepoError.InvalidStoredMoney.

Definition decode_line (row : LineRow) : result RepoError NewLine :=
  account_class ← stored_enum (lr_account_class row);
  side ← stored_enum (lr_side row);
  money ← map_err stored_line_error
    (decode_money (lr_amount row) (lr_currency row) (lr_currency_scale row));
  mapping_status ← stored_enum (lr_mapping_status row);
  functional_money ← map_err stored_line_error
    (decode_optional_money (lr_functional_amount row) (lr_functional_currency row)
       (lr_functional_currency_scale row));
  Ok {| nl_line_id := lr_line_id row;
        nl_payer_tenant_id := lr_payer_tenant_id row;
        nl_seller_tenant_id := lr_seller_tenant_id row;
        nl_resource_tenant_id := lr_resource_tenant_id row;
        nl_account_id := lr_account_id row;
        nl_account_class := account_class;
        nl_gl_code := lr_gl_code row;
        nl_side := side;
        nl_money := money;
        nl_invoice_id := lr_invoice_id row;
        nl_due_date := lr_due_date row;
        nl_revenue_stream := lr_revenue_stream row;
        nl_mapping_status := mapping_status;
        nl_functional_money := functional_money;
        nl_tax_jurisdiction := lr_tax_jurisdiction row;
        nl_tax_filing_period := lr_tax_filing_period row;
        nl_tax_rate_ref := lr_tax_rate_ref row;
        nl_legal_entity_id := lr_legal_entity_id row;
        nl_invoice_item_ref := lr_invoice_item_ref row;
        nl_sku_or_plan_ref := lr_sku_or_plan_ref row;
        nl_price_id := lr_price_id row;
        nl_pricing_snapshot_ref := lr_pricing_snapshot_ref row;
        nl_po_allocation_group := lr_po_allocation_group row;
        nl_credit_grant_event_type := lr_credit_grant_event_type row;
        nl_ar_status := lr_ar_status row |}.

Lemma stored_enum_as_str {A} `{!StrEnum A} (v : A) : stored_enum (as_str v) = Ok v.
Proof. unfold stored_enum. apply map_err_ok. by apply from_str_ok. Qed.

Lemma decode_money_encoded m : money_ok m ->
  decode_money (encode_amount m) (code (currency m)) (currency_scale (currency m)) = Ok m.
Proof. intros [? ?]. by apply decode_money_ok. Qed.

Lemma decode_optional_encoded m : option_ok money_ok m ->
  decode_optional_money (encode_amount <$> m) ((fun m => code (currency m)) <$> m)
    ((fun m => currency_scale (currency m)) <$> m) = Ok m.
Proof.
  destruct m as [m|]; intros Hm; [|done]. cbn. by rewrite decode_money_encoded by by apply Hm.
Qed.

(** What was inserted decodes back. *)
Lemma decode_line_row e l : money_ok (nl_money l) -> option_ok money_ok (nl_functional_money l) ->
  decode_line (line_row_of e l) = Ok l.
Proof.
  intros Hm Hf. unfold decode_line, line_row_of.
  cbn [lr_account_class lr_side lr_mapping_status lr_amount lr_currency lr_currency_scale
       lr_functional_amount lr_functional_currency lr_functional_currency_scale].
  rewrite !stored_enum_as_str, decode_money_encoded, decode_optional_encoded by done. by destruct l.
Qed.
End journal.

(** ** The tables as finite maps *)

Module MemoryJournal.
Record memory := mkMemory {
  m_headers : gmap EntryKey EntryRow;
  m_lines : gmap (Uuid * string * Uuid) LineRow;
  m_tips : gmap Uuid TipRow;
}.

(** The values of a map that are stored under their own key. *)
Definition values {K R} `{Countable K} (key : R -> K) (t : gmap K R) : list R :=
  snd <$> List.filter (fun kr => bool_decide (key kr.2 = kr.1)) (map_to_list t).

Section values.
Context {K R : Type} `{Countable K} (key : R -> K).

Lemma elem_of_values (t : gmap K R) r : r ∈ values key t <-> t !! key r = Some r.
Proof.
  unfold values. rewrite list_elem_of_fmap. split.
  - intros ([k r'] & -> & Hin%list_elem_of_In). apply filter_In in Hin as [Hin Hk].
    apply bool_decide_eq_true in Hk. cbn in *. subst k. by apply elem_of_map_to_list, list_elem_of_In.
  - intros Hr. exists (key r, r). split; [done|]. apply list_elem_of_In, filter_In.
    split; [by apply list_elem_of_In, elem_of_map_to_list|]. by apply bool_decide_eq_true.
Qed.

Lemma values_keys (t : gmap K R) : NoDup (key <$> values key t).
Proof.
  unfold values. rewrite <- list_fmap_compose. pose proof (NoDup_fst_map_to_list t) as Hnd. revert Hnd.
  generalize (map_to_list t) as l. induction l as [|[k r] l IH]; cbn; [done|].
  intros [Hk Hnd]%NoDup_cons. case_bool_decide as Hb; [|by apply IH]. cbn. rewrite Hb.
  constructor; [|by apply IH]. intros ([k' r'] & Hr & Hin%list_elem_of_In)%list_elem_of_fmap.
  apply filter_In in Hin as [Hin Hb'%bool_decide_eq_true]. cbn in *. apply Hk. rewrite Hr, Hb'.
  apply list_elem_of_fmap. exists (k', r'). by rewrite list_elem_of_In.
Qed.

Lemma values_NoDup (t : gmap K R) : NoDup (values key t).
Proof. eapply NoDup_fmap_1, values_keys. Qed.

Lemma values_insert (t : gmap K R) r : t !! key r = None -> values key (<[key r := r]> t) ≡ₚ r :: values key t.
Proof.
  intros Hn. apply NoDup_Permutation; [apply values_NoDup|constructor; [|apply values_NoDup]|].
  - rewrite elem_of_values. congruence.
  - intros x. rewrite elem_of_cons, !elem_of_values. destruct (decide (key x = key r)) as [E|E].
    + rewrite E, lookup_insert_eq. split; [intros [= ->]; auto|]. intros [->|Hx]; [done|]. congruence.
    + rewrite lookup_insert_ne by done. naive_solver.
Qed.

Lemma values_replace (t : gmap K R) r r' others : values key t ≡ₚ r :: others -> key r' = key r ->
  values key (<[key r := r']> t) ≡ₚ r' :: others.
Proof.
  intros Hp Hk. pose proof (values_keys t) as Hnd. rewrite Hp in Hnd. apply NoDup_cons in Hnd as [Hr Hnd].
  assert (Hlk : t !! key r = Some r) by (apply elem_of_values; rewrite Hp; left).
  apply NoDup_Permutation; [apply values_NoDup| |].
  - constructor; [|by eapply NoDup_fmap_1]. intros Hin. apply Hr. rewrite <- Hk.
    by apply list_elem_of_fmap_2.
  - intros x. rewrite elem_of_cons, elem_of_values.
    assert (Hx : x ∈ values key t <-> x = r \/ x ∈ others) by by rewrite Hp, elem_of_cons.
    rewrite elem_of_values in Hx. destruct (decide (key x = key r)) as [E|E].
    + rewrite E, lookup_insert_eq. split; [intros [= ->]; by left|]. intros [->|Hin]; [done|].
      destruct Hr. rewrite <- E. by apply list_elem_of_fmap_2.
    + rewrite lookup_insert_ne by done. split; [naive_solver|]. intros [->|Hin]; [congruence|tauto].
Qed.
End values.

Definition line_key (l : LineRow) : Uuid * string * Uuid := (lr_tenant_id l, lr_period_id l, lr_line_id l).

Definition insert_header (db : memory) (h : EntryRow) : option memory :=
  match m_headers db !! header_key h with
  | Some _ => None
  | None => Some (mkMemory (<[header_key h := h]> (m_headers db)) (m_lines db) (m_tips db))
  end.

Definition insert_line (db : memory) (l : LineRow) : option memory :=
  match m_lines db !! line_key l with
  | Some _ => None
  | None => Some (mkMemory (m_headers db) (<[line_key l := l]> (m_lines db)) (m_tips db))
  end.

Definition update_header (db : memory) (k : EntryKey) (cond : EntryRow -> bool)
    (f : EntryRow -> EntryRow) : memory * Z :=
  match m_headers db !! k with
  | Some h =>
      if bool_decide (header_key h = k) && cond h
      then (mkMemory (<[k := f h]> (m_headers db)) (m_lines db) (m_tips db), 1)
      else (db, 0)
  | None => (db, 0)
  end.

Definition lines_at (db : memory) (k : EntryKey) : list LineRow :=
  List.filter (fun l => bool_decide (line_entry l = k)) (values line_key (m_lines db)).

Lemma lines_at_ids db k : NoDup (lr_line_id <$> lines_at db k).
Proof.
  pose proof (values_keys line_key (m_lines db)) as Hnd. unfold lines_at. revert Hnd.
  induction (values line_key (m_lines db)) as [|l ls IH]; cbn; [constructor|].
  intros [Hl Hnd]%NoDup_cons. case_bool_decide as Hk; [|by apply IH]. cbn. constructor; [|by apply IH].
  intros (l' & Hid & [Hk' Hin]%elem_of_filter_bool)%list_elem_of_fmap. apply Hl.
  apply bool_decide_eq_true in Hk'. replace (line_key l) with (line_key l'); [by apply list_elem_of_fmap_2|].
  unfold line_key, line_entry in *. congruence.
Qed.

#[global] Instance memory_journal : JournalDb memory.
Proof.
  refine {| j_headers db := values header_key (m_headers db); j_lines := lines_at;
    j_tip db t := m_tips db !! t; j_insert_header := insert_header; j_insert_line := insert_line;
    j_update_header := update_header;
    j_upsert_tip db t tip := mkMemory (m_headers db) (m_lines db) (<[t := tip]> (m_tips db)) |}.
  - intros db. apply values_keys.
  - intros db k l [Hl _]%elem_of_filter_bool. by apply bool_decide_eq_true in Hl.
  - apply lines_at_ids.
  - intros db h db'. unfold insert_header. destruct (_ !! _) eqn:E; [done|]. intros [= <-]. split_and!; try done.
    + intros (h' & Hk & Hin%elem_of_values)%list_elem_of_fmap. congruence.
    + by apply values_insert.
  - intros db l db'. unfold insert_line. destruct (_ !! _) eqn:E; [done|]. intros [= <-].
    assert (Hp := values_insert line_key (m_lines db) l E). split_and!; try done; unfold lines_at; cbn [m_lines].
    + rewrite Hp. cbn [List.filter]. by rewrite bool_decide_true.
    + intros k Hk. rewrite Hp. cbn [List.filter]. by rewrite bool_decide_false.
  - intros db h others cond f Hp Hc Hk. unfold update_header.
    assert (Hh : m_headers db !! header_key h = Some h) by (apply elem_of_values; rewrite Hp; left).
    rewrite Hh, bool_decide_true, Hc by done. eexists. split; [done|]. split_and!; try done.
    by apply values_replace.
  - intros db k cond f Hm. unfold update_header. destruct (m_headers db !! k) as [h|] eqn:E; [|done].
    case_bool_decide as Hk; [|done]. subst k. rewrite Hm; [done|by apply elem_of_values|done].
  - intros db t tip. split; [done|]. split; [done|]. intros t'. cbn.
    case_decide; [subst; by rewrite lookup_insert_eq|by rewrite lookup_insert_ne].
Defined.
End MemoryJournal.
