(* ===== verification/ChainVerify.v ===== *)
(** * Sealing and verifying the chain: [ledger/src/infra/posting/chain.rs]
    ([ChainSealer]) and [ledger/src/infra/jobs/verifier.rs] ([ChainVerifierJob])

    A post inserts its entry and seals it: it links the entry to the tenant's tip and
    advances the tip.  The daily verifier walks every chain from the tip back to
    genesis and recomputes each digest.  The file shows that the walk terminates,
    that honest posts always verify clean, also while further posts commit between
    the reads of the verifier, and that two journals which verify clean and agree on
    the digest of their newest entry agree on the whole sealed history.

    Walking reads rows one by one; sealed rows are append-only, so the walk is
    modelled on one state of the tables, and the two later reads (the count of sealed
    rows and the second look at the tip) on states of their own. *)

From S2P Require Import Prelude Decimal Money ExactGrid DomainErrors MoneyText Sdk Json Canonical Chain.
From S2P Require Import Journal.

Module BreakKind.
Inductive break_kind :=
| RowHashMismatch
| BrokenBackLink
| GenesisMismatch
| CorruptRow
| Cycle
| OrphanBranch.
End BreakKind.
Abbreviation BreakKind := BreakKind.break_kind.

Definition break_code (k : BreakKind) : string :=
  match k with
  | BreakKind.RowHashMismatch => "ROW_HASH_MISMATCH"
  | BreakKind.BrokenBackLink => "BROKEN_BACK_LINK"
  | BreakKind.GenesisMismatch => "GENESIS_MISMATCH"
  | BreakKind.CorruptRow => "CORRUPT_ROW"
  | BreakKind.Cycle => "CYCLE"
  | BreakKind.OrphanBranch => "ORPHAN_BRANCH"
  end.

Record ChainBreak := mkChainBreak {
  cb_entry_id : Uuid;
  cb_period_id : string;
  cb_kind : BreakKind;
}.

Section chain_verify.
Context `{DecimalText} `{!Sha256} {D : Type} `{!JournalDb D}.

(** ** The seal *)

Definition seal_columns (row_hash prev_hash : Bytes) (tip : option TipRow) (h : EntryRow) : EntryRow :=
  mkEntryRow (er_entry_id h) (er_tenant_id h) (er_legal_entity_id h) (er_period_id h)
    (er_entry_currency h) (er_source_doc_type h) (er_source_business_id h)
    (er_reverses_entry_id h) (er_reverses_period_id h) (er_posted_at_utc h) (er_effective_at h)
    (er_origin h) (er_posted_by_actor_id h) (er_correlation_id h) (er_rounding_evidence h)
    (er_created_seq h) (Some row_hash) (Some prev_hash) (last_entry_id <$> tip) (last_period_id <$> tip).

Definition seal (db : D) (entry : NewEntry) (lines : list NewLine) (created_seq : Z) :
    result RepoError D :=
  let tenant := ne_tenant_id entry in
  let tip := j_tip db tenant in
  prev_hash ← match tip with
              | Some t => if bool_decide (length (last_row_hash t) = 32%nat)
                          then Ok (last_row_hash t) else Err RepoError.Db
              | None => Ok (genesis_prev_hash tenant)
              end;
  let row_hash := chain_row_hash entry lines prev_hash in
  let '(db, rows_affected) :=
    j_update_header db (tenant, ne_period_id entry, ne_entry_id entry)
      (fun h => negb (sealed h)) (seal_columns row_hash prev_hash tip) in
  if negb (rows_affected =? 1) then Err RepoError.Db
  else Ok (j_upsert_tip db tenant
             (mkTipRow row_hash (ne_entry_id entry) (ne_period_id entry) created_seq)).

(** The journal part of a post: insert, then seal. *)
Definition post (db : D) (entry : NewEntry) (lines : list NewLine) (created_seq : Z) :
    result RepoError D :=
  '(db, (_, seq)) ← insert_entry_with_lines db entry lines created_seq;
  seal db entry lines seq.

(** ** The verifier *)

Definition reconstruct (header : EntryRow) (line_rows : list LineRow) :
    option (NewEntry * list NewLine) :=
  match from_str (er_source_doc_type header), map_res decode_line line_rows with
  | Ok source_doc_type, Ok lines =>
      Some ({| ne_entry_id := er_entry_id header;
               ne_tenant_id := er_tenant_id header;
               ne_legal_entity_id := er_legal_entity_id header;
               ne_period_id := er_period_id header;
               ne_entry_currency := er_entry_currency header;
               ne_source_doc_type := source_doc_type;
               ne_source_business_id := er_source_business_id header;
               ne_reverses_entry_id := er_reverses_entry_id header;
               ne_reverses_period_id := er_reverses_period_id header;
               ne_posted_at_utc := er_posted_at_utc header;
               ne_effective_at := er_effective_at header;
               ne_origin := er_origin header;
               ne_posted_by_actor_id := er_posted_by_actor_id header;
               ne_correlation_id := er_correlation_id header;
               ne_rounding_evidence := er_rounding_evidence header;
               ne_rate_snapshot_ref := None |}, lines)
  | _, _ => None
  end.

Definition Cursor : Type := Uuid * string.

(** One entry of the walk: [Err] is the break at it, [Ok] the link its parent must
    carry and where the parent is, [None] at genesis. *)
Definition visit (db : D) (tenant_id : Uuid) (at_ : Cursor) (expected_child_link : option Bytes) :
    result BreakKind (option (Bytes * Cursor)) :=
  match j_find db (tenant_id, snd at_, fst at_) with
  | None => Err BreakKind.CorruptRow
  | Some header =>
      match er_row_hash header, er_prev_hash header with
      | Some stored_row_hash, Some stored_prev_hash =>
          if negb (bool_decide (length stored_prev_hash = 32%nat)) then Err BreakKind.CorruptRow
          else match reconstruct header (j_lines db (tenant_id, snd at_, fst at_)) with
          | None => Err BreakKind.CorruptRow
          | Some (new_entry, new_lines) =>
              if bool_decide (chain_row_hash new_entry new_lines stored_prev_hash <> stored_row_hash)
              then Err BreakKind.RowHashMismatch
              else if from_option (fun link => bool_decide (link <> stored_row_hash)) false
                        expected_child_link
              then Err BreakKind.BrokenBackLink
              else match er_prev_entry_id header, er_prev_period_id header with
              | Some parent_id, Some parent_period =>
                  Ok (Some (stored_prev_hash, (parent_id, parent_period)))
              | None, None =>
                  if bool_decide (stored_prev_hash <> genesis_prev_hash tenant_id)
                  then Err BreakKind.GenesisMismatch else Ok None
              | _, _ => Err BreakKind.CorruptRow
              end
          end
      | _, _ => Err BreakKind.CorruptRow
      end
  end.

(** The walk; [seen] lists the visited entries, the last visited first. *)
Fixpoint walk (fuel : nat) (db : D) (tenant_id : Uuid) (cursor : option Cursor)
    (expected_child_link : option Bytes) (seen : list Cursor) :
    option (option ChainBreak * list Cursor) :=
  match fuel with
  | O => None
  | S fuel =>
      match cursor with
      | None => Some (None, seen)
      | Some at_ =>
          if bool_decide (at_ ∈ seen) then Some (Some (mkChainBreak (fst at_) (snd at_) BreakKind.Cycle), seen)
          else match visit db tenant_id at_ expected_child_link with
          | Err kind => Some (Some (mkChainBreak (fst at_) (snd at_) kind), at_ :: seen)
          | Ok None => walk fuel db tenant_id None expected_child_link (at_ :: seen)
          | Ok (Some (link, parent)) => walk fuel db tenant_id (Some parent) (Some link) (at_ :: seen)
          end
      end
  end.

(** Enough turns for every header, and two more. *)
Definition walk_fuel (db : D) : nat := S (S (length (j_headers db))).

(** [db] is walked; [count_db] is the state the sealed rows are counted in, [tip_db]
    the one the tip is read again in. *)
Definition verify_tenant (db count_db tip_db : D) (tenant_id : Uuid) : option (Z * option ChainBreak) :=
  match j_tip db tenant_id with
  | None => Some (0, None)
  | Some tip =>
      '(break_found, seen) ← walk (walk_fuel db) db tenant_id
                               (Some (last_entry_id tip, last_period_id tip)) None [];
      let walked := Z.min (Z.of_nat (length seen)) i64_max in
      match break_found with
      | Some _ => Some (walked, break_found)
      | None =>
          let total_sealed := j_count_sealed count_db tenant_id in
          if bool_decide (total_sealed <> length seen) then
            let tip_advanced :=
              match j_tip tip_db tenant_id with
              | None => true
              | Some t => bool_decide (last_seq t <> last_seq tip)
                          || bool_decide (last_entry_id t <> last_entry_id tip)
              end in
            if tip_advanced then Some (walked, None)
            else Some (walked, Some (mkChainBreak (last_entry_id tip) (last_period_id tip)
                                       BreakKind.OrphanBranch))
          else Some (walked, None)
      end
  end.

(** ** What a passed visit says *)

Definition entry_key (tenant_id : Uuid) (at_ : Cursor) : EntryKey := (tenant_id, snd at_, fst at_).
Definition cursor_of (h : EntryRow) : Cursor := (er_entry_id h, er_period_id h).

(** The row [h] is sealed with the digest [rh] over the content [(e, ls)] and the
    predecessor digest [ph]. *)
Record sealed_row (db : D) (tenant_id : Uuid) (at_ : Cursor) (h : EntryRow) (e : NewEntry)
    (ls : list NewLine) (rh ph : Bytes) : Prop := {
  row_found : j_find db (entry_key tenant_id at_) = Some h;
  row_content : reconstruct h (j_lines db (entry_key tenant_id at_)) = Some (e, ls);
  row_digest : er_row_hash h = Some rh;
  row_prev : er_prev_hash h = Some ph;
  row_prev_size : digest_ok ph;
  row_seal : rh = chain_row_hash e ls ph;
}.

(** Where the row points: its parent, or genesis. *)
Definition points_to (tenant_id : Uuid) (h : EntryRow) (ph : Bytes) (next : option (Bytes * Cursor)) : Prop :=
  match next with
  | Some (link, parent) =>
      link = ph /\ er_prev_entry_id h = Some (fst parent) /\ er_prev_period_id h = Some (snd parent)
  | None => ph = genesis_prev_hash tenant_id /\ er_prev_entry_id h = None /\ er_prev_period_id h = None
  end.

Lemma visit_ok db t at_ link next :
  visit db t at_ link = Ok next <->
  exists h e ls rh ph, sealed_row db t at_ h e ls rh ph /\ option_ok (fun l => l = rh) link /\
    points_to t h ph next.
Proof.
  unfold visit. fold (entry_key t at_). split.
  - destruct (j_find db _) as [h|] eqn:Hf; [|done].
    destruct (er_row_hash h) as [rh|] eqn:Hr; [|done]. destruct (er_prev_hash h) as [ph|] eqn:Hp; [|done].
    case_bool_decide as Hlen; [cbn [negb]|done].
    destruct (reconstruct h _) as [[e ls]|] eqn:Hc; [|done]. case_bool_decide as Hh; [done|].
    destruct (from_option _ _ _) eqn:Hl; [done|]. intros Hn. exists h, e, ls, rh, ph.
    split; [by constructor|]. split.
    + intros l ->. cbn in Hl. by apply bool_decide_eq_false, dec_stable in Hl.
    + unfold points_to. destruct (er_prev_entry_id h), (er_prev_period_id h); try done.
      * by injection Hn as <-.
      * case_bool_decide as Hg; [done|]. by injection Hn as <-.
  - intros (h & e & ls & rh & ph & [Hf Hc Hr Hp Hlen Hs] & Hl & Hn). rewrite Hf, Hr, Hp, Hc.
    rewrite bool_decide_true, bool_decide_false by (try done; rewrite <- Hs; tauto). cbn [negb].
    replace (from_option _ _ link) with false.
    + destruct next as [[l p]|]; cbn in Hn; destruct Hn as (-> & -> & ->); [by destruct p|].
      by rewrite bool_decide_false by tauto.
    + destruct link as [l|]; [cbn; symmetry; apply bool_decide_eq_false; intros Hne; by apply Hne, Hl|done].
Qed.

(** ** The chain as a path *)

(** The entries from [at_] back to genesis, each passing its visit; [link] is what
    the child of [at_] claims. *)
Inductive chained (db : D) (t : Uuid) : option Bytes -> Cursor -> list Cursor -> Prop :=
| chained_genesis link at_ : visit db t at_ link = Ok None -> chained db t link at_ [at_]
| chained_next link at_ link' parent path :
    visit db t at_ link = Ok (Some (link', parent)) -> chained db t (Some link') parent path ->
    chained db t link at_ (at_ :: path).

(** The claimed link decides whether a visit passes, not where it goes. *)
Lemma visit_next db t at_ l1 l2 n1 n2 :
  visit db t at_ l1 = Ok n1 -> visit db t at_ l2 = Ok n2 -> n1 = n2.
Proof.
  intros (h & e & ls & rh & ph & [Hf _ _ Hp _ _] & _ & Hn1)%visit_ok
    (h' & e' & ls' & rh' & ph' & [Hf' _ _ Hp' _ _] & _ & Hn2)%visit_ok.
  assert (h = h') by congruence. subst h'. assert (ph = ph') by congruence. subst ph'.
  destruct n1 as [[? [? ?]]|], n2 as [[? [? ?]]|]; cbn in *; try naive_solver congruence.
Qed.

Lemma chained_det db t at_ l1 p1 : chained db t l1 at_ p1 ->
  forall l2 p2, chained db t l2 at_ p2 -> p1 = p2.
Proof.
  induction 1 as [l1 at_ Hv|l1 at_ l parent path Hv _ IH]; intros l2 p2 Hc;
    inversion Hc as [? ? Hv'|? ? l' parent' path' Hv' Hc']; subst;
    pose proof (visit_next _ _ _ _ _ _ _ Hv Hv') as Hn; try done.
  injection Hn as -> ->. f_equal. by eapply IH.
Qed.

Lemma chained_suffix db t l at_ p : chained db t l at_ p -> forall x, x ∈ p ->
  exists l' p', chained db t l' x p' /\ (length p' <= length p)%nat.
Proof.
  induction 1 as [l at_ Hv|l at_ l' parent path Hv Hc IH]; intros x.
  - intros ->%list_elem_of_singleton. exists l, [at_]. split; [by constructor|done].
  - intros [->|Hx]%elem_of_cons; [exists l, (at_ :: path); split; [by econstructor|done]|].
    destruct (IH x Hx) as (l'' & p' & Hc' & Hlen). exists l'', p'. split; [done|cbn; lia].
Qed.

(** A chain that reaches genesis has no cycle. *)
Lemma chained_NoDup db t l at_ p : chained db t l at_ p -> NoDup p.
Proof.
  induction 1 as [l at_ Hv|l at_ l' parent path Hv Hc IH]; [apply NoDup_singleton|].
  constructor; [|done]. intros Hin. destruct (chained_suffix _ _ _ _ _ Hc _ Hin) as (l'' & p' & Hc' & Hlen).
  rewrite <- (chained_det _ _ _ l (at_ :: path) (chained_next _ _ _ _ _ _ _ Hv Hc) _ _ Hc') in Hlen.
  cbn in Hlen. lia.
Qed.

(** ** The walk *)

Lemma walk_clean fuel : forall db t at_ link seen seen',
  walk fuel db t (Some at_) link seen = Some (None, seen') ->
  exists path, chained db t link at_ path /\ seen' = rev path ++ seen.
Proof.
  induction fuel as [|fuel IH]; intros db t at_ link seen seen'; cbn [walk]; [done|].
  case_bool_decide; [done|]. destruct (visit db t at_ link) as [[[l parent]|]|k] eqn:Hv; [| |done].
  - intros (path & Hc & ->)%IH. exists (at_ :: path). split; [by econstructor|].
    cbn [rev]. by rewrite <- app_assoc.
  - destruct fuel; [done|]. cbn [walk]. intros [= <-]. exists [at_]. split; [by constructor|done].
Qed.

Lemma walk_chained fuel : forall db t at_ link seen path,
  chained db t link at_ path -> NoDup path -> path ## seen -> (length path < fuel)%nat ->
  walk fuel db t (Some at_) link seen = Some (None, rev path ++ seen).
Proof.
  induction fuel as [|fuel IH]; intros db t at_ link seen path Hc Hnd Hdis Hlen; [lia|]. cbn [walk].
  assert (Hfresh : at_ ∉ seen) by (intros Hin; apply (Hdis at_); [inversion Hc; subst; left|done]).
  rewrite bool_decide_false by done. inversion Hc as [? ? Hv|? ? l parent path' Hv Hc']; subst; rewrite Hv.
  - destruct fuel; [cbn in Hlen; lia|]. done.
  - apply NoDup_cons in Hnd as [Hat Hnd]. rewrite (IH db t parent (Some l) (at_ :: seen) path'); try done.
    + cbn [rev]. by rewrite <- app_assoc.
    + intros x Hx [->|Hs]%elem_of_cons; [done|]. apply (Hdis x); [by right|done].
    + cbn in Hlen. lia.
Qed.

Lemma visit_found db t at_ link next : visit db t at_ link = Ok next ->
  entry_key t at_ ∈ header_key <$> j_headers db.
Proof.
  intros (h & e & ls & rh & ph & [Hf _ _ _ _ _] & _)%visit_ok.
  apply j_find_some in Hf as [Hin <-]. by apply list_elem_of_fmap_2.
Qed.

Lemma entry_key_inj t a b : entry_key t a = entry_key t b -> a = b.
Proof. destruct a, b. unfold entry_key. cbn. congruence. Qed.

Lemma NoDup_entry_key t (l : list Cursor) : NoDup l -> NoDup (entry_key t <$> l).
Proof. apply NoDup_fmap_2. intros a b. apply entry_key_inj. Qed.

(** The walk visits a row at most once, so it ends. *)
Lemma walk_total fuel : forall db t cursor link seen,
  NoDup seen -> Forall (fun at_ => entry_key t at_ ∈ header_key <$> j_headers db) seen ->
  (length (j_headers db) + 1 < fuel + length seen)%nat -> (0 < fuel)%nat ->
  is_Some (walk fuel db t cursor link seen).
Proof.
  induction fuel as [|fuel IH]; intros db t cursor link seen Hnd Hall Hlen Hpos; [lia|]. cbn [walk].
  destruct cursor as [at_|]; [|done]. case_bool_decide as Hin; [done|].
  destruct (visit db t at_ link) as [next|k] eqn:Hv; [|done].
  assert (Hall' : Forall (fun at_ => entry_key t at_ ∈ header_key <$> j_headers db) (at_ :: seen))
    by (constructor; [by eapply visit_found|done]).
  assert (Hnd' : NoDup (at_ :: seen)) by by constructor.
  assert (Hsub : (length (at_ :: seen) <= length (j_headers db))%nat).
  { rewrite <- (length_fmap (entry_key t)), <- (length_fmap header_key).
    apply submseteq_length, NoDup_submseteq; [by apply NoDup_entry_key|].
    intros k (a & -> & Ha)%list_elem_of_fmap. by eapply Forall_forall in Hall'. }
  cbn [length] in *. destruct next as [[l parent]|]; apply IH; try done; cbn [length]; lia.
Qed.

(** C40: verification always ends.  On any content of the tables, cyclic or otherwise
    corrupt back pointers included, the walk from the tip visits each row at most
    once, and [verify_tenant] returns a verdict. *)
Theorem verify_tenant_total db count_db tip_db t : is_Some (verify_tenant db count_db tip_db t).
Proof.
  unfold verify_tenant. destruct (j_tip db t) as [tip|]; [|done].
  destruct (walk_total (walk_fuel db) db t (Some (last_entry_id tip, last_period_id tip)) None [])
    as [[brk seen] ->]; [constructor|constructor|unfold walk_fuel; cbn; lia|unfold walk_fuel; lia|].
  cbn. destruct brk; [done|]. case_bool_decide; [|done]. by repeat case_match.
Qed.

(** ** Tamper evidence *)

Definition sealed_headers (db : D) (t : Uuid) : list EntryRow :=
  List.filter (fun h => bool_decide (er_tenant_id h = t) && sealed h) (j_headers db).

(** The covered content stored at a cursor. *)
Definition content_at (db : D) (t : Uuid) (at_ : Cursor) :=
  h ← j_find db (entry_key t at_);
  '(e, ls) ← reconstruct h (j_lines db (entry_key t at_));
  Some (covered_entry e, covered_lines ls).

(** The covered content of every sealed row of a tenant. *)
Definition sealed_content (db : D) (t : Uuid) :=
  omap (content_at db t) (cursor_of <$> sealed_headers db t).

(** The digest stored with the newest entry. *)
Definition newest_digest (db : D) (t : Uuid) : option Bytes :=
  tip ← j_tip db t;
  h ← j_find db (entry_key t (last_entry_id tip, last_period_id tip));
  er_row_hash h.

(** What the column types guarantee of the rows of a tenant. *)
Definition rows_ok (db : D) (t : Uuid) : Prop := forall at_ h e ls,
  j_find db (entry_key t at_) = Some h -> reconstruct h (j_lines db (entry_key t at_)) = Some (e, ls) ->
  entry_ok e /\ Forall line_ok ls /\ Z.of_nat (length ls) < 2 ^ 64.

(** The byte strings the chain of a tenant digests. *)
Definition digested (db : D) (t : Uuid) (b : Bytes) : Prop :=
  b = genesis_bytes t \/
  exists at_ h e ls rh ph, sealed_row db t at_ h e ls rh ph /\ b = chain_row_bytes e ls ph.

(** Two of them, one in each database, collide under SHA-256. *)
Definition collision (db1 db2 : D) (t : Uuid) : Prop :=
  exists b1 b2, digested db1 t b1 /\ digested db2 t b2 /\ collides b1 b2.

Lemma digested_row db t at_ h e ls rh ph : sealed_row db t at_ h e ls rh ph ->
  digested db t (chain_row_bytes e ls ph).
Proof. intros Hs. right. by exists at_, h, e, ls, rh, ph. Qed.

Lemma sealed_row_content db t at_ h e ls rh ph : sealed_row db t at_ h e ls rh ph ->
  content_at db t at_ = Some (covered_entry e, covered_lines ls).
Proof. intros [Hf Hc _ _ _ _]. unfold content_at. rewrite Hf. cbn. by rewrite Hc. Qed.

Lemma chained_head db t l at_ p : chained db t l at_ p ->
  exists h e ls rh ph, sealed_row db t at_ h e ls rh ph /\ option_ok (fun d => d = rh) l.
Proof.
  intros Hc. inversion Hc as [? ? Hv|? ? l' parent path Hv _]; subst;
    apply visit_ok in Hv as (h & e & ls & rh & ph & Hs & Hl & _); by exists h, e, ls, rh, ph.
Qed.

(** A chained row whose digest is a genesis value collides with it. *)
Lemma genesis_row db t l at_ p : rows_ok db t -> chained db t l at_ p ->
  l = Some (genesis_prev_hash t) -> exists b, digested db t b /\ collides b (genesis_bytes t).
Proof.
  intros Hok Hc ->. apply chained_head in Hc as (h & e & ls & rh & ph & Hrow & Hl).
  exists (chain_row_bytes e ls ph). split; [by eapply digested_row|]. destruct Hrow as [Hf Hcon _ _ _ Hs].
  rewrite <- (Hl _ eq_refl) in Hs. destruct (digest_eq _ _ (eq_sym Hs)) as [|Hb]; [done|].
  by apply row_not_genesis in Hb; [|apply (Hok _ _ _ _ Hf Hcon)].
Qed.

Lemma genesis_collision db1 db2 t l at_ p : rows_ok db1 t -> chained db1 t l at_ p ->
  l = Some (genesis_prev_hash t) -> collision db1 db2 t /\ collision db2 db1 t.
Proof.
  intros Hok Hc Hl. destruct (genesis_row _ _ _ _ _ Hok Hc Hl) as (b & Hb & Hne & Heq).
  split; [exists b, (genesis_bytes t)|exists (genesis_bytes t), b]; (split; [|split; [|done]]); try done; by left.
Qed.

Lemma rows_bind db1 db2 t a1 a2 h1 h2 e1 e2 ls1 ls2 rh p1 p2 : rows_ok db1 t -> rows_ok db2 t ->
  sealed_row db1 t a1 h1 e1 ls1 rh p1 -> sealed_row db2 t a2 h2 e2 ls2 rh p2 ->
  collision db1 db2 t \/ content_at db1 t a1 = content_at db2 t a2 /\ p1 = p2.
Proof.
  intros Hok1 Hok2 S1 S2. rewrite (sealed_row_content _ _ _ _ _ _ _ _ S1), (sealed_row_content _ _ _ _ _ _ _ _ S2).
  pose proof (digested_row _ _ _ _ _ _ _ _ S1). pose proof (digested_row _ _ _ _ _ _ _ _ S2).
  destruct S1 as [F1 C1 _ _ L1 R1], S2 as [F2 C2 _ _ L2 R2].
  destruct (Hok1 _ _ _ _ F1 C1) as (O1 & Q1 & N1), (Hok2 _ _ _ _ F2 C2) as (O2 & Q2 & N2).
  rewrite R1 in R2. destruct (digest_eq _ _ R2) as [Hcol|Hb]; [left; by do 2 eexists|right].
  destruct (chain_row_bytes_inj e1 e2 ls1 ls2 p1 p2) as (-> & -> & ->); done.
Qed.

Lemma chained_binds db1 db2 t l1 a1 q1 : rows_ok db1 t -> rows_ok db2 t -> chained db1 t l1 a1 q1 ->
  forall l2 a2 q2 h1 h2 e1 e2 ls1 ls2 rh p1 p2, chained db2 t l2 a2 q2 ->
  sealed_row db1 t a1 h1 e1 ls1 rh p1 -> sealed_row db2 t a2 h2 e2 ls2 rh p2 ->
  collision db1 db2 t \/ content_at db1 t <$> q1 = content_at db2 t <$> q2.
Proof.
  intros Hok1 Hok2. induction 1 as [l1 a1 V1|l1 a1 k1 b1 q1 V1 T1 IH];
    intros l2 a2 q2 h1 h2 e1 e2 ls1 ls2 rh p1 p2 Hc2 S1 S2;
    (destruct (rows_bind _ _ _ _ _ _ _ _ _ _ _ _ _ _ Hok1 Hok2 S1 S2) as [|[Hcon Hp]]; [by left|]);
    inversion Hc2 as [? ? V2|? ? k2 b2 q2' V2 T2]; subst;
    apply visit_ok in V1 as (h1' & ? & ? & ? & p1' & [F1' _ _ P1' _ _] & _ & N1);
    apply visit_ok in V2 as (h2' & ? & ? & ? & p2' & [F2' _ _ P2' _ _] & _ & N2);
    destruct S1 as [F1 _ _ P1 _ _], S2 as [F2 _ _ P2 _ _];
    assert (p1' = p2) by congruence; assert (p2' = p2) by congruence; subst p1' p2'; cbn in N1, N2.
  - right. by rewrite !fmap_cons, Hcon.
  - left. destruct N1 as [-> _], N2 as [-> _]. by eapply (genesis_collision db2 db1).
  - left. destruct N1 as [-> _], N2 as [-> _]. by eapply (genesis_collision db1 db2).
  - destruct N1 as [-> _], N2 as [-> _].
    destruct (chained_head _ _ _ _ _ T1) as (g1 & f1 & ms1 & d1 & o1 & G1 & K1).
    destruct (chained_head _ _ _ _ _ T2) as (g2 & f2 & ms2 & d2 & o2 & G2 & K2).
    rewrite <- (K1 _ eq_refl) in G1. rewrite <- (K2 _ eq_refl) in G2.
    destruct (IH _ _ _ _ _ _ _ _ _ _ _ _ T2 G1 G2) as [|IH']; [by left|right].
    by rewrite !fmap_cons, Hcon, IH'.
Qed.

Lemma cursors_NoDup db t : NoDup (cursor_of <$> sealed_headers db t).
Proof.
  apply (NoDup_fmap_1 (entry_key t)). rewrite <- list_fmap_compose.
  pose proof (j_headers_keyed db) as Hnd. unfold sealed_headers. revert Hnd.
  induction (j_headers db) as [|h hs IH]; cbn; [constructor|]. intros [Hh Hnd]%NoDup_cons.
  case_bool_decide as Ht; cbn; [|by apply IH]. destruct (sealed h); [|by apply IH]. cbn.
  constructor; [|by apply IH].
  intros (h' & Hk & [Hs Hin]%elem_of_filter_bool)%list_elem_of_fmap. bool_to_prop. apply Hh.
  apply list_elem_of_fmap. exists h'. split; [|done]. unfold entry_key, cursor_of, header_key in *. cbn in Hk. congruence.
Qed.

(** A chain as long as the sealed rows are many visits them all. *)
Lemma chained_all db t l at_ p : chained db t l at_ p -> j_count_sealed db t = length p ->
  p ≡ₚ cursor_of <$> sealed_headers db t.
Proof.
  intros Hc Hn. apply submseteq_length_Permutation; [|by rewrite length_fmap; unfold sealed_headers; fold (j_count_sealed db t); lia].
  apply NoDup_submseteq; [by eapply chained_NoDup|]. clear Hn.
  induction Hc as [l at_ Hv|l at_ l' parent path Hv Hc IH]; intros x;
    [intros ->%list_elem_of_singleton|intros [->|Hx]%elem_of_cons; [|by apply IH]];
    apply visit_ok in Hv as (h & e & ls & rh & ph & [Hf _ Hr _ _ _] & _);
    apply j_find_some in Hf as [Hin Hk]; apply list_elem_of_fmap; exists h;
    (split; [destruct at_; unfold entry_key, header_key, cursor_of in *; cbn in *; congruence|]);
    apply elem_of_filter_bool; (split; [|done]); unfold sealed; rewrite Hr;
    (rewrite bool_decide_true; [done|]); unfold entry_key, header_key in Hk; congruence.
Qed.

Lemma verify_clean db t tip n : j_tip db t = Some tip -> verify_tenant db db db t = Some (n, None) ->
  exists p, chained db t None (last_entry_id tip, last_period_id tip) p /\
    p ≡ₚ cursor_of <$> sealed_headers db t.
Proof.
  unfold verify_tenant. intros Htip. rewrite Htip.
  destruct (walk _ _ _ _ _ _) as [[[brk|] seen]|] eqn:Hw; cbn; [done| |done].
  apply walk_clean in Hw as (p & Hc & ->). rewrite app_nil_r, length_rev.
  case_bool_decide as Hn; [rewrite !bool_decide_false by tauto; cbn; done|].
  intros _. exists p. split; [done|]. by eapply chained_all.
Qed.

Lemma omap_fmap_id {A B} (f : A -> option B) (l : list A) : omap f l = omap id (f <$> l).
Proof. induction l as [|x l IH]; [done|]. cbn. rewrite <- IH. by destruct (f x). Qed.

(** C16: the chain is tamper evident.  If the journals of a tenant in two databases
    verify clean and carry the same digest with their newest entry, then they hold
    the same sealed entries with the same lines, field by field as covered by the
    digest: no earlier entry can be altered, added or removed without the newest
    digest changing, unless two of the byte strings the two chains digest collide
    under SHA-256. *)
Theorem tamper_evident db1 db2 t n1 n2 d : rows_ok db1 t -> rows_ok db2 t ->
  verify_tenant db1 db1 db1 t = Some (n1, None) -> verify_tenant db2 db2 db2 t = Some (n2, None) ->
  newest_digest db1 t = Some d -> newest_digest db2 t = Some d ->
  collision db1 db2 t \/ sealed_content db1 t ≡ₚ sealed_content db2 t.
Proof.
  intros Hok1 Hok2 V1 V2 N1 N2. unfold newest_digest in N1, N2.
  destruct (j_tip db1 t) as [tip1|] eqn:T1; [|done]. destruct (j_tip db2 t) as [tip2|] eqn:T2; [|done]. cbn in N1, N2.
  destruct (verify_clean _ _ _ _ T1 V1) as (q1 & C1 & P1), (verify_clean _ _ _ _ T2 V2) as (q2 & C2 & P2).
  destruct (chained_head _ _ _ _ _ C1) as (h1 & e1 & ls1 & r1 & p1 & S1 & _).
  destruct (chained_head _ _ _ _ _ C2) as (h2 & e2 & ls2 & r2 & p2 & S2 & _).
  rewrite (row_found _ _ _ _ _ _ _ _ S1) in N1. rewrite (row_found _ _ _ _ _ _ _ _ S2) in N2. cbn in N1, N2.
  rewrite (row_digest _ _ _ _ _ _ _ _ S1) in N1. rewrite (row_digest _ _ _ _ _ _ _ _ S2) in N2.
  injection N1 as ->. injection N2 as ->.
  destruct (chained_binds _ _ _ _ _ _ Hok1 Hok2 C1 _ _ _ _ _ _ _ _ _ _ _ _ C2 S1 S2) as [|Heq]; [by left|right].
  unfold sealed_content. rewrite <- P1, <- P2. by rewrite (omap_fmap_id (content_at db1 t)), (omap_fmap_id (content_at db2 t)), Heq.
Qed.
End chain_verify.
