(* ===== verification/ChainRun.v ===== *)
(** * Honest runs of the ledger keep their chains: the posts of
    [ledger/src/infra/posting/chain.rs] seen by [infra/jobs/verifier.rs]

    A run starts with empty tables and posts entries, of any tenants, each in one
    serializable transaction.  The invariant [intact] says that every tenant's tip is
    the head of a chain through all its sealed rows; every post keeps it and leaves
    the rows already there alone.  So verification is clean on every run, also when
    further posts commit while it is under way. *)

From S2P Require Import Prelude Decimal Money ExactGrid DomainErrors MoneyText Sdk Json Canonical Chain.
From S2P Require Import Journal ChainVerify.

Section chain_run.
Context `{DecimalText} `{!Sha256} {D : Type} `{!JournalDb D}.

(** ** One post *)

Lemma insert_lines_ok e ls : forall db db',
  fold_res (fun db line => ok_or (j_insert_line db (line_row_of e line)) RepoError.Db) db ls = Ok db' ->
  j_headers db' = j_headers db /\ (forall t, j_tip db' t = j_tip db t) /\
  j_lines db' (ne_tenant_id e, ne_period_id e, ne_entry_id e)
    ≡ₚ (line_row_of e <$> ls) ++ j_lines db (ne_tenant_id e, ne_period_id e, ne_entry_id e) /\
  forall k, k <> (ne_tenant_id e, ne_period_id e, ne_entry_id e) -> j_lines db' k ≡ₚ j_lines db k.
Proof.
  induction ls as [|l ls IH]; intros db db'; cbn [fold_res]; [by intros [= <-]|].
  intros (db1 & Hi%ok_or_ok%j_insert_line_ok & Hrest)%bind_ok.
  destruct Hi as (Hh & Ht & Hl & Hk), (IH _ _ Hrest) as (Hh' & Ht' & Hl' & Hk').
  split_and!.
  - congruence.
  - intros t. by rewrite Ht', Ht.
  - rewrite Hl'. change (line_entry (line_row_of e l)) with (ne_tenant_id e, ne_period_id e, ne_entry_id e) in Hl.
    rewrite Hl, fmap_cons. cbn. by rewrite Permutation_middle.
  - intros k Hne. by rewrite Hk', Hk.
Qed.

(** What a successful post does to the tables. *)
Record post_effect (db : D) (e : NewEntry) (ls : list NewLine) (seq : Z) (ph : Bytes) (db' : D) : Prop := {
  pe_fresh : header_key (header_of e seq) ∉ header_key <$> j_headers db;
  pe_prev : ph = from_option last_row_hash (genesis_prev_hash (ne_tenant_id e)) (j_tip db (ne_tenant_id e));
  pe_prev_size : digest_ok ph;
  pe_headers : j_headers db' ≡ₚ
    seal_columns (chain_row_hash e ls ph) ph (j_tip db (ne_tenant_id e)) (header_of e seq) :: j_headers db;
  pe_lines : j_lines db' (header_key (header_of e seq))
    ≡ₚ (line_row_of e <$> ls) ++ j_lines db (header_key (header_of e seq));
  pe_other_lines k : k <> header_key (header_of e seq) -> j_lines db' k ≡ₚ j_lines db k;
  pe_tip t : j_tip db' t = if decide (t = ne_tenant_id e)
    then Some (mkTipRow (chain_row_hash e ls ph) (ne_entry_id e) (ne_period_id e) seq) else j_tip db t;
}.

Lemma digest32_size b : digest_ok (digest32 b).
Proof. apply sha256_length. Qed.

Lemma post_ok db e ls seq db' : post db e ls seq = Ok db' -> exists ph, post_effect db e ls seq ph db'.
Proof.
  unfold post, insert_entry_with_lines.
  intros ([db2 [id seq']] & (db0 & Hi%ok_or_ok%j_insert_header_ok & Hins)%bind_ok & Hseal)%bind_ok.
  apply bind_ok in Hins as (db1 & Hl%insert_lines_ok & Hw).
  apply bind_ok in Hw as (w & Hw%ok_or_ok & [= -> <- <-]).
  destruct Hi as (Hfresh & Hh0 & Hl0 & Ht0), Hl as (Hh1 & Ht1 & Hlk & Hlo). rewrite <- Hh1 in Hh0.
  assert (w = header_of e seq) as ->.
  { assert (Hf : j_find db2 (header_key (header_of e seq)) = Some (header_of e seq))
      by (apply j_find_some; split; [rewrite Hh0; left|done]).
    change (ne_tenant_id e, ne_period_id e, ne_entry_id e) with (header_key (header_of e seq)) in Hw. congruence. }
  unfold seal in Hseal. rewrite Ht1, Ht0 in Hseal. apply bind_ok in Hseal as (ph & Hph & Hup).
  destruct (j_update_hit db2 (header_of e seq) (j_headers db) (fun h => negb (sealed h))
    (seal_columns (chain_row_hash e ls ph) ph (j_tip db (ne_tenant_id e)))) as (db3 & Hu & Hh3 & Hl3 & Ht3); [done..|].
  change (ne_tenant_id e, ne_period_id e, ne_entry_id e) with (header_key (header_of e seq)) in *.
  rewrite Hu in Hup. cbn in Hup. injection Hup as <-.
  destruct (j_upsert_tip_ok db3 (ne_tenant_id e) (mkTipRow (chain_row_hash e ls ph) (ne_entry_id e) (ne_period_id e) seq))
    as (Hh4 & Hl4 & Ht4).
  exists ph. constructor; try done.
  - destruct (j_tip db (ne_tenant_id e)); [case_bool_decide; [|done]|]; by injection Hph as <-.
  - destruct (j_tip db (ne_tenant_id e)); [case_bool_decide; [|done]|]; injection Hph as <-; [done|apply digest32_size].
  - by rewrite Hh4.
  - by rewrite Hl4, Hl3, Hlk, Hl0.
  - intros k Hk. by rewrite Hl4, Hl3, Hlo, Hl0.
  - intros t. rewrite Ht4. case_decide; [done|]. by rewrite Ht3, Ht1, Ht0.
Qed.

(** ** Growing tables *)

(** Every row of [db] is still in [db'], with its lines. *)
Record extends (db db' : D) : Prop := {
  ext_headers h : h ∈ j_headers db -> h ∈ j_headers db';
  ext_lines k : k ∈ header_key <$> j_headers db -> j_lines db' k ≡ₚ j_lines db k;
}.

#[export] Instance extends_preorder : PreOrder extends.
Proof.
  split; [by constructor|]. intros a b c [Ha La] [Hb Lb]. constructor; [auto|].
  intros k Hk. rewrite Lb, La; [done..|]. apply list_elem_of_fmap in Hk as (h & -> & Hh).
  by apply list_elem_of_fmap_2, Ha.
Qed.

Lemma post_extends db e ls seq ph db' : post_effect db e ls seq ph db' -> extends db db'.
Proof.
  intros [Hf _ _ Hh _ Ho _]. constructor; [intros h Hin; rewrite Hh; by right|].
  intros k Hk. apply Ho. congruence.
Qed.

Lemma extends_find db db' k h : extends db db' -> j_find db k = Some h -> j_find db' k = Some h.
Proof. intros [Hh _] [Hin Hk]%j_find_some. apply j_find_some. auto. Qed.

(** ** Digests do not see the order of the lines *)

#[local] Instance line_id_total : TotalCmp line_id_cmp := total_cmp_on nl_line_id N.compare.

Lemma chain_row_hash_perm e ls1 ls2 ph : ls1 ≡ₚ ls2 -> NoDup (nl_line_id <$> ls1) ->
  chain_row_hash e ls1 ph = chain_row_hash e ls2 ph.
Proof.
  intros Hp Hnd. unfold chain_row_hash, chain_row_bytes.
  by rewrite (sort_by_unique line_id_cmp ls1 ls2 Hp
    (fun a b Ha Hb Hab => NoDup_fmap_inj_elem Hnd a b Ha Hb (N.compare_eq _ _ Hab))).
Qed.

Lemma decode_line_id row l : decode_line row = Ok l -> nl_line_id l = lr_line_id row.
Proof. unfold decode_line. intros Hd. res_inv. by subst. Qed.

Lemma decode_line_ids rows ls : map_res decode_line rows = Ok ls ->
  nl_line_id <$> ls = lr_line_id <$> rows.
Proof.
  intros Hd%map_res_ok. induction Hd as [|row l rows ls Hl _ IH]; [done|].
  by rewrite !fmap_cons, IH, (decode_line_id _ _ Hl).
Qed.

Lemma reconstruct_ok h rows e ls : reconstruct h rows = Some (e, ls) ->
  map_res decode_line rows = Ok ls /\ forall rows' ls', map_res decode_line rows' = Ok ls' ->
    reconstruct h rows' = Some (e, ls').
Proof.
  unfold reconstruct. destruct (from_str _); [|done]. destruct (map_res decode_line rows); [|done].
  intros [= <- <-]. split; [done|]. by intros rows' ls' ->.
Qed.

Lemma sealed_row_extends db db' t at_ h e ls rh ph : extends db db' ->
  sealed_row db t at_ h e ls rh ph -> exists ls', sealed_row db' t at_ h e ls' rh ph.
Proof.
  intros Hext [Hf Hc Hr Hp Hl Hs]. destruct (reconstruct_ok _ _ _ _ Hc) as [Hd Hre].
  assert (Hk : entry_key t at_ ∈ header_key <$> j_headers db).
  { apply j_find_some in Hf as [Hin <-]. by apply list_elem_of_fmap_2. }
  destruct (map_res_perm decode_line _ _ ls (symmetry (ext_lines _ _ Hext _ Hk)) Hd) as (ls' & Hd' & Hpl).
  exists ls'. constructor; try done; [by eapply extends_find|by apply Hre|].
  rewrite Hs. apply chain_row_hash_perm; [done|]. rewrite (decode_line_ids _ _ Hd). apply j_lines_ids.
Qed.

Lemma visit_extends db db' t at_ link next : extends db db' ->
  visit db t at_ link = Ok next -> visit db' t at_ link = Ok next.
Proof.
  intros Hext (h & e & ls & rh & ph & Hs & Hl & Hn)%visit_ok.
  destruct (sealed_row_extends _ _ _ _ _ _ _ _ _ Hext Hs) as [ls' Hs']. apply visit_ok. by exists h, e, ls', rh, ph.
Qed.

Lemma chained_extends db db' t link at_ p : extends db db' -> chained db t link at_ p -> chained db' t link at_ p.
Proof.
  intros Hext. induction 1; [constructor 1|econstructor 2; [|done]]; by eapply visit_extends.
Qed.

(** ** The invariant *)

Definition tip_cursor (tip : TipRow) : Cursor := (last_entry_id tip, last_period_id tip).

(** The tip [tip] of a tenant heads the chain of all its sealed rows. *)
Record headed (db : D) (t : Uuid) (tip : TipRow) (path : list Cursor) (newest : EntryRow) : Prop := {
  hd_chain : chained db t None (tip_cursor tip) path;
  hd_all : path ≡ₚ cursor_of <$> sealed_headers db t;
  hd_newest : j_find db (entry_key t (tip_cursor tip)) = Some newest;
  hd_digest : er_row_hash newest = Some (last_row_hash tip);
  hd_seq : er_created_seq newest = last_seq tip;
}.

Record intact (db : D) : Prop := {
  in_seqs : NoDup (er_created_seq <$> j_headers db);
  in_lines k : k ∉ header_key <$> j_headers db -> j_lines db k = [];
  in_untouched t : j_tip db t = None -> sealed_headers db t = [];
  in_headed t tip : j_tip db t = Some tip -> exists path newest, headed db t tip path newest;
}.

Definition empty_journal (db : D) : Prop :=
  j_headers db = [] /\ (forall k, j_lines db k = []) /\ forall t, j_tip db t = None.

Lemma empty_intact db : empty_journal db -> intact db.
Proof.
  intros (Hh & Hl & Ht). constructor; [rewrite Hh; constructor|done| |].
  - intros t _. unfold sealed_headers. by rewrite Hh.
  - intros t tip Htip. by rewrite Ht in Htip.
Qed.

(** What the caller and the database provide: the lines carry valid money, and the
    sequence number is fresh. *)
Definition postable (db : D) (ls : list NewLine) (seq : Z) : Prop :=
  Forall (fun l => money_ok (nl_money l) /\ option_ok money_ok (nl_functional_money l)) ls /\
  seq ∉ er_created_seq <$> j_headers db.

Lemma decode_rows e ls : Forall (fun l => money_ok (nl_money l) /\ option_ok money_ok (nl_functional_money l)) ls ->
  map_res decode_line (line_row_of e <$> ls) = Ok ls.
Proof.
  intros Hls. apply map_res_ok, Forall2_fmap_l. induction Hls as [|l ls [Hm Hf] _ IH]; constructor; [|done].
  by apply decode_line_row.
Qed.

(** The entry as the verifier rebuilds it. *)
Definition without_rate (e : NewEntry) : NewEntry :=
  mkNewEntry (ne_entry_id e) (ne_tenant_id e) (ne_legal_entity_id e) (ne_period_id e)
    (ne_entry_currency e) (ne_source_doc_type e) (ne_source_business_id e) (ne_reverses_entry_id e)
    (ne_reverses_period_id e) (ne_posted_at_utc e) (ne_effective_at e) (ne_origin e)
    (ne_posted_by_actor_id e) (ne_correlation_id e) (ne_rounding_evidence e) None.

Lemma chain_row_hash_rate e ls ph : chain_row_hash (without_rate e) ls ph = chain_row_hash e ls ph.
Proof. done. Qed.

Lemma reconstruct_new e seq rh ph tip rows ls : map_res decode_line rows = Ok ls ->
  reconstruct (seal_columns rh ph tip (header_of e seq)) rows = Some (without_rate e, ls).
Proof.
  intros Hd. unfold reconstruct, seal_columns, header_of. cbn [er_source_doc_type].
  rewrite Hd, (proj2 (from_str_ok _ _) eq_refl). by destruct e.
Qed.

Section posting.
Variables (db : D) (e : NewEntry) (ls : list NewLine) (seq : Z) (ph : Bytes) (db' : D).
Hypothesis Hpe : post_effect db e ls seq ph db'.
Hypothesis Hin : intact db.
Hypothesis Hok : postable db ls seq.

Let new := seal_columns (chain_row_hash e ls ph) ph (j_tip db (ne_tenant_id e)) (header_of e seq).

Lemma new_sealed : exists ls', sealed_row db' (ne_tenant_id e) (ne_entry_id e, ne_period_id e) new
  (without_rate e) ls' (chain_row_hash e ls ph) ph.
Proof.
  destruct Hpe as [Hf _ Hsz Hh Hl _ _]. rewrite (in_lines _ Hin _ Hf), app_nil_r in Hl.
  destruct (map_res_perm decode_line _ _ ls (symmetry Hl) (decode_rows e ls (proj1 Hok))) as (ls' & Hd & Hp).
  exists ls'. constructor; try done.
  - apply j_find_some. split; [rewrite Hh; left|done].
  - by apply reconstruct_new.
  - rewrite chain_row_hash_rate. apply chain_row_hash_perm; [done|].
    rewrite (decode_line_ids _ _ (decode_rows e ls (proj1 Hok))), <- Hl. apply j_lines_ids.
Qed.

(** Past the new entry, the chain goes on with the old tip. *)
Lemma new_chained : exists path,
  chained db' (ne_tenant_id e) None (ne_entry_id e, ne_period_id e) ((ne_entry_id e, ne_period_id e) :: path) /\
  path ≡ₚ cursor_of <$> sealed_headers db (ne_tenant_id e).
Proof.
  destruct new_sealed as [ls' Hs]. pose proof (post_extends _ _ _ _ _ _ Hpe) as Hext.
  destruct (j_tip db (ne_tenant_id e)) as [tip|] eqn:Ht.
  - destruct (in_headed _ Hin _ _ Ht) as (path & newest & [Hc Hall Hn Hd _]). exists path. split; [|done].
    assert (Hlink : ph = last_row_hash tip) by (rewrite (pe_prev _ _ _ _ _ _ Hpe), Ht; done).
    eapply (chained_next _ _ _ _ ph (tip_cursor tip)).
    + apply visit_ok. do 5 eexists. split; [exact Hs|]. split; [done|]. by unfold new, tip_cursor.
    + apply (chained_extends db); [done|].
      assert (Hv : forall next, visit db (ne_tenant_id e) (tip_cursor tip) None = Ok next ->
        visit db (ne_tenant_id e) (tip_cursor tip) (Some ph) = Ok next).
      { intros next (h & e1 & l1 & rh & p1 & Hs1 & _ & Hn1)%visit_ok. apply visit_ok.
        exists h, e1, l1, rh, p1. split; [done|]. split; [|done]. intros l [= <-].
        destruct Hs1 as [Hf1 _ Hr1 _ _ _]. congruence. }
      inversion Hc; subst; [constructor 1|econstructor 2; [|done]]; by apply Hv.
  - exists []. rewrite (in_untouched _ Hin _ Ht). split; [|done]. constructor. apply visit_ok.
    do 5 eexists. split; [exact Hs|]. split; [done|]. unfold new. cbn. split; [|done].
    by rewrite (pe_prev _ _ _ _ _ _ Hpe), Ht.
Qed.

Lemma new_sealed_headers : cursor_of <$> sealed_headers db' (ne_tenant_id e)
  ≡ₚ (ne_entry_id e, ne_period_id e) :: (cursor_of <$> sealed_headers db (ne_tenant_id e)).
Proof.
  unfold sealed_headers. rewrite (pe_headers _ _ _ _ _ _ Hpe). cbn [List.filter].
  by rewrite bool_decide_true.
Qed.

Lemma other_sealed_headers t : t <> ne_tenant_id e ->
  cursor_of <$> sealed_headers db' t ≡ₚ cursor_of <$> sealed_headers db t.
Proof.
  intros Ht. unfold sealed_headers. rewrite (pe_headers _ _ _ _ _ _ Hpe). cbn [List.filter].
  by rewrite bool_decide_false.
Qed.

Lemma post_intact : intact db'.
Proof.
  pose proof (post_extends _ _ _ _ _ _ Hpe) as Hext. constructor.
  - rewrite (pe_headers _ _ _ _ _ _ Hpe). constructor; [apply Hok|apply Hin].
  - intros k Hk. rewrite (pe_headers _ _ _ _ _ _ Hpe), fmap_cons, not_elem_of_cons in Hk.
    destruct Hk as [Hk Hk']. apply Permutation_nil_r. rewrite (pe_other_lines _ _ _ _ _ _ Hpe) by done.
    by rewrite (in_lines _ Hin).
  - intros t. rewrite (pe_tip _ _ _ _ _ _ Hpe). case_decide as Ht; [done|]. intros Htip.
    apply (in_untouched _ Hin) in Htip. pose proof (other_sealed_headers t Ht) as Hp. rewrite Htip in Hp.
    by apply Permutation_nil_r, fmap_nil_inv in Hp.
  - intros t tip. rewrite (pe_tip _ _ _ _ _ _ Hpe). case_decide as Ht.
    + intros [= <-]. subst t. destruct new_chained as (path & Hc & Hall). destruct new_sealed as [ls' Hs].
      exists ((ne_entry_id e, ne_period_id e) :: path), new. destruct Hs as [Hf _ Hr _ _ _]. constructor; try done.
      by rewrite new_sealed_headers, Hall.
    + intros Htip. destruct (in_headed _ Hin _ _ Htip) as (path & newest & [Hc Hall Hn Hd Hs]).
      exists path, newest. constructor; try done; [by eapply chained_extends|by rewrite other_sealed_headers|by eapply extends_find].
Qed.

Lemma post_count t : j_count_sealed db' t =
  ((if bool_decide (ne_tenant_id e = t) then 1 else 0) + j_count_sealed db t)%nat.
Proof.
  unfold j_count_sealed. fold (sealed_headers db' t) (sealed_headers db t).
  rewrite <- !(length_fmap cursor_of). case_bool_decide as Ht.
  - subst t. by rewrite new_sealed_headers.
  - by rewrite other_sealed_headers.
Qed.

(** The rows of a journal are as good as what was posted. *)
Lemma post_rows_ok t : rows_ok db t -> entry_ok e -> Forall line_ok ls -> Z.of_nat (length ls) < 2 ^ 64 ->
  rows_ok db' t.
Proof.
  intros Hrows He Hls Hn at_ h e1 ls1 Hf Hc. pose proof Hf as [Hmem Hk]%j_find_some.
  rewrite (pe_headers _ _ _ _ _ _ Hpe), elem_of_cons in Hmem. destruct Hmem as [->|Hold].
  - pose proof (pe_lines _ _ _ _ _ _ Hpe) as Hl. rewrite (in_lines _ Hin _ (pe_fresh _ _ _ _ _ _ Hpe)), app_nil_r in Hl.
    change (header_key _) with (header_key (header_of e seq)) in Hk. rewrite <- Hk in Hc.
    destruct (map_res_perm decode_line _ _ ls (symmetry Hl) (decode_rows e ls (proj1 Hok))) as (ls' & Hd & Hp).
    rewrite (reconstruct_new _ _ _ _ _ _ _ Hd) in Hc. injection Hc as <- <-. rewrite <- Hp.
    split; [|done]. destruct He as [S U O W]. by constructor.
  - destruct (reconstruct_ok _ _ _ _ Hc) as [Hd Hre].
    assert (Hkey : entry_key t at_ ∈ header_key <$> j_headers db) by (rewrite <- Hk; by apply list_elem_of_fmap_2).
    destruct (map_res_perm decode_line _ _ ls1 (ext_lines _ _ (post_extends _ _ _ _ _ _ Hpe) _ Hkey) Hd) as (ls' & Hd' & Hp).
    destruct (Hrows at_ h e1 ls') as (? & ? & ?); [by apply j_find_some|by apply Hre|]. by rewrite Hp.
Qed.
End posting.

(** ** Runs *)

Definition Post : Type := NewEntry * list NewLine * Z.

Definition run (db : D) (posts : list Post) : result RepoError D :=
  fold_res (fun db '(e, ls, seq) => post db e ls seq) db posts.

Definition valid_money (p : Post) : Prop :=
  Forall (fun l => money_ok (nl_money l) /\ option_ok money_ok (nl_functional_money l)) (snd (fst p)).

(** The posts of a tenant. *)
Definition posts_of (t : Uuid) (posts : list Post) : nat :=
  length (List.filter (fun p => bool_decide (ne_tenant_id (fst (fst p)) = t)) posts).

Lemma run_ok posts : forall db db', intact db -> Forall valid_money posts ->
  NoDup ((snd <$> posts) ++ (er_created_seq <$> j_headers db)) -> run db posts = Ok db' ->
  intact db' /\ extends db db' /\
  er_created_seq <$> j_headers db' ≡ₚ (snd <$> posts) ++ (er_created_seq <$> j_headers db) /\
  forall t, j_count_sealed db' t = (posts_of t posts + j_count_sealed db t)%nat.
Proof.
  induction posts as [|[[e ls] seq] posts IH]; intros db db' Hin Hm Hnd; cbn [run fold_res]; [by intros [= <-]|].
  intros (db1 & (ph & Hpe)%post_ok & Hrun)%bind_ok. apply Forall_cons in Hm as [Hm Hms].
  rewrite fmap_cons in Hnd. cbn in Hnd. pose proof Hnd as [Hseq Hnd']%NoDup_cons.
  assert (Hok : postable db ls seq) by (split; [done|]; intros Hs; apply Hseq, elem_of_app; by right).
  assert (Hseqs : er_created_seq <$> j_headers db1 ≡ₚ seq :: (er_created_seq <$> j_headers db))
    by by rewrite (pe_headers _ _ _ _ _ _ Hpe).
  destruct (IH db1 db') as (Hi & Hext & Hs & Hc); [by eapply post_intact|done| |done|].
  { by rewrite Hseqs, <- Permutation_middle. }
  split; [done|]. split; [transitivity db1; [by eapply post_extends|done]|]. split.
  - rewrite Hs, Hseqs, fmap_cons. cbn. by rewrite Permutation_middle.
  - intros t. rewrite Hc, (post_count _ _ _ _ _ _ Hpe). unfold posts_of. cbn.
    case_bool_decide; cbn; lia.
Qed.

(** The posted rows are within the column types. *)
Definition valid_rows (p : Post) : Prop :=
  entry_ok (fst (fst p)) /\ Forall line_ok (snd (fst p)) /\ Z.of_nat (length (snd (fst p))) < 2 ^ 64.

Lemma valid_rows_money p : valid_rows p -> valid_money p.
Proof. intros (_ & Hl & _). eapply Forall_impl; [exact Hl|]. by intros l [_ _ _ Hm Hf]. Qed.

Lemma run_rows_ok t posts : forall db db', intact db -> rows_ok db t -> Forall valid_rows posts ->
  NoDup ((snd <$> posts) ++ (er_created_seq <$> j_headers db)) -> run db posts = Ok db' -> rows_ok db' t.
Proof.
  induction posts as [|[[e ls] seq] posts IH]; intros db db' Hin Hrows Hv Hnd; cbn [run fold_res]; [by intros [= <-]|].
  intros (db1 & Hpost & Hrun)%bind_ok. apply Forall_cons in Hv as [Hv Hvs].
  rewrite fmap_cons in Hnd. cbn in Hnd.
  assert (Hok : postable db ls seq).
  { apply NoDup_cons in Hnd as [Hs _]. split; [by apply valid_rows_money in Hv|].
    intros Hin'. apply Hs, elem_of_app. by right. }
  destruct (post_ok _ _ _ _ _ Hpost) as [ph Hpe]. apply (IH db1); [by eapply post_intact| |done| |done].
  - destruct Hv as (? & ? & ?). by eapply post_rows_ok.
  - by rewrite (pe_headers _ _ _ _ _ _ Hpe), fmap_cons, <- Permutation_middle.
Qed.

Lemma empty_rows_ok db t : empty_journal db -> rows_ok db t.
Proof. intros [Hh _] at_ h e ls [Hin _]%j_find_some. rewrite Hh in Hin. by apply not_elem_of_nil in Hin. Qed.

Lemma extends_length db db' t link at_ at' p p' : extends db db' -> at_ = at' ->
  chained db t link at_ p -> chained db' t None at' p' -> p = p'.
Proof. intros Hext <- Hc Hc'. eapply chained_det; [by eapply chained_extends|done]. Qed.

Lemma count_path db t p : p ≡ₚ cursor_of <$> sealed_headers db t -> j_count_sealed db t = length p.
Proof. intros ->. by rewrite length_fmap. Qed.

(** Another newest entry has another sequence number. *)
Lemma newest_seq db t tip1 tip2 h1 h2 : intact db ->
  j_find db (entry_key t (tip_cursor tip1)) = Some h1 -> j_find db (entry_key t (tip_cursor tip2)) = Some h2 ->
  er_created_seq h1 = er_created_seq h2 -> tip_cursor tip1 = tip_cursor tip2.
Proof.
  intros Hin [Hi1 Hk1]%j_find_some [Hi2 Hk2]%j_find_some Hs.
  pose proof (NoDup_fmap_inj_elem (in_seqs _ Hin) _ _ Hi1 Hi2 Hs). subst h2. rewrite Hk1 in Hk2.
  by apply entry_key_inj in Hk2.
Qed.

(** C26: honest ledgers verify clean.  Start with empty tables and post any entries of
    any tenants, with valid money and fresh sequence numbers.  Verification walks
    exactly the entries the tenant posted and reports no break; posts that commit
    after the walk, before the sealed rows are counted, or before the tip is read
    again, never make it report one. *)
Theorem honest_verifies start posts1 posts2 posts3 db count_db tip_db t :
  empty_journal start -> Forall valid_money (posts1 ++ posts2 ++ posts3) ->
  NoDup (snd <$> (posts1 ++ posts2 ++ posts3)) ->
  run start posts1 = Ok db -> run db posts2 = Ok count_db -> run count_db posts3 = Ok tip_db ->
  verify_tenant db count_db tip_db t = Some (Z.min (Z.of_nat (posts_of t posts1)) i64_max, None).
Proof.
  intros Hempty [Hm1 [Hm2 Hm3]%Forall_app]%Forall_app Hnd R1 R2 R3. rewrite !fmap_app in Hnd.
  assert (Hh : j_headers start = []) by apply Hempty.
  destruct (run_ok posts1 start db) as (I1 & _ & S1 & C1); [by apply empty_intact|done| |done|].
  { rewrite Hh, app_nil_r. by apply NoDup_app in Hnd as [? _]. }
  rewrite Hh, app_nil_r in S1.
  destruct (run_ok posts2 db count_db) as (I2 & E2 & S2 & C2); [done..| |done|].
  { rewrite S1, Permutation_app_comm. rewrite app_assoc in Hnd. by apply NoDup_app in Hnd as [? _]. }
  destruct (run_ok posts3 count_db tip_db) as (I3 & E3 & S3 & C3); [done..| |done|].
  { by rewrite S2, S1, Permutation_app_comm, (Permutation_app_comm (snd <$> posts2)), <- app_assoc. }
  assert (Hcount : j_count_sealed db t = posts_of t posts1).
  { rewrite C1. unfold j_count_sealed. rewrite Hh. cbn. lia. }
  unfold verify_tenant. destruct (j_tip db t) as [tip|] eqn:Ht.
  - destruct (in_headed _ I1 _ _ Ht) as (p & h & [Hc Hall Hf _ Hs]).
    rewrite (walk_chained (walk_fuel db) _ _ _ _ _ p Hc); [|by eapply chained_NoDup|intros x _; apply not_elem_of_nil|].
    + cbn. rewrite app_nil_r, length_rev, <- (count_path _ _ _ Hall), Hcount.
      case_bool_decide as Hne; [|done]. destruct (j_tip tip_db t) as [tip'|] eqn:Ht'; [|done].
      destruct (in_headed _ I3 _ _ Ht') as (p' & h' & [Hc' Hall' Hf' _ Hs']).
      case_bool_decide as Hseq; [done|]. exfalso.
      assert (Hcur : tip_cursor tip = tip_cursor tip').
      { eapply (newest_seq tip_db); [done|by eapply extends_find, Hf; transitivity count_db|exact Hf'|congruence]. }
      assert (Hp : p = p') by (eapply extends_length; [by transitivity count_db|exact Hcur|exact Hc|exact Hc']).
      apply count_path in Hall, Hall'. subst p'. specialize (C2 t). specialize (C3 t). lia.
    + unfold walk_fuel. rewrite <- (count_path _ _ _ Hall). unfold j_count_sealed.
      match goal with |- (length (List.filter ?f ?l) < _)%nat => pose proof (List.filter_length_le f l) end. lia.
  - apply (in_untouched _ I1) in Ht. assert (posts_of t posts1 = 0%nat) as ->; [|done].
    rewrite <- Hcount. unfold j_count_sealed. fold (sealed_headers db t). by rewrite Ht.
Qed.
End chain_run.

(** ** Sample runs *)

Section samples.
Import ConcreteDecimal ConcreteText MoneySamples ChainSamples MemoryJournal.

Definition start : memory := mkMemory ∅ ∅ ∅.

Lemma empty_start : empty_journal start.
Proof. by split. Qed.

(** Tenant 5 posts two entries, tenant 6 one; the last post commits late. *)
Definition early : list Post :=
  [(entry 1 5, lines 1 11900, 31); (entry 2 6, lines 2 5000, 30); (entry 3 5, lines 3 700, 32)].
Definition late : list Post := [(entry 4 5, lines 4 4200, 33)].

Definition after (db : memory) (posts : list Post) : memory :=
  match run db posts with Ok db' => db' | Err _ => db end.

Lemma sample_valid : Forall valid_money (early ++ [] ++ late).
Proof.
  repeat (apply Forall_cons_2; [repeat (apply Forall_cons_2; [split; [apply money_sample_ok; ground|done]|]);
    apply Forall_nil_2|]). apply Forall_nil_2.
Qed.

Lemma honest_verifies_witness :
  verify_tenant (after start early) (after start early) (after (after start early) late) 5%N = Some (2, None).
Proof.
  apply (honest_verifies start early [] late (after start early) (after start early)
    (after (after start early) late) 5%N); [exact empty_start|exact sample_valid| |vm_compute; reflexivity..].
  apply (bool_decide_unpack (NoDup _)). vm_compute. exact I.
Defined.

(** The count sees the late post, and the second look at the tip too. *)
Example late_post_deferred :
  verify_tenant (after start early) (after (after start early) late) (after (after start early) late) 5%N
    = Some (2, None) /\
  verify_tenant (after start early) (after (after start early) late) (after start early) 5%N
    = Some (2, Some (mkChainBreak 3%N "202610" BreakKind.OrphanBranch)).
Proof. split; vm_compute; reflexivity. Qed.

(** The same post with its lines in the other order. *)
Definition posted_once : memory := after start [(entry 1 5, lines 1 11900, 31)].
Definition posted_reordered : memory := after start [(entry 1 5, reverse (lines 1 11900), 77)].

Lemma sample_rows ls seq : ls ≡ₚ lines 1 11900 -> run start [(entry 1 5, ls, seq)] = Ok (after start [(entry 1 5, ls, seq)]) ->
  rows_ok (after start [(entry 1 5, ls, seq)]) 5%N.
Proof.
  intros Hp Hrun. apply (run_rows_ok 5%N _ start _ (empty_intact _ empty_start)) in Hrun; [done|by apply empty_rows_ok| |].
  - constructor; [|constructor]. split; [exact entry_sample_ok|]. cbn. rewrite Hp. split; [exact lines_sample_ok|done].
  - apply NoDup_singleton.
Qed.

Lemma tamper_evident_witness :
  collision posted_once posted_reordered 5%N \/
  sealed_content posted_once 5%N ≡ₚ sealed_content posted_reordered 5%N.
Proof.
  apply (tamper_evident posted_once posted_reordered 5%N 1 1
    (chain_row_hash (entry 1 5) (lines 1 11900) (genesis_prev_hash 5%N)));
    [apply sample_rows; [reflexivity|vm_compute; reflexivity]
    |apply sample_rows; [apply reverse_Permutation|vm_compute; reflexivity]
    |vm_compute; reflexivity..].
Defined.
End samples.
