(* ===== verification/Projector.v ===== *)
(** * The balance projector: [ledger/src/infra/posting/projector.rs]

    A posted entry moves six derived balances: per account, per payer, per invoice,
    unallocated cash, reusable credit and tax.  [derive_grains] turns the lines into
    signed deltas, sorts them into the lock order and merges the deltas of one grain;
    [project] then reads and rewrites one cache row per grain.

    A cache table is a finite map from its primary key; [CacheRow] has the columns the
    six tables share, its argument the columns of one table.  The six writers of the
    source differ in their key, in the decoding of the functional balance, in the check
    of the row found and in their own columns; the record [CacheEntity] holds these four
    and [upsert] is the code they share.  The scope of a request covers its tenant. *)

From S2P Require Import Prelude Decimal Money Exact ExactGrid Table DomainErrors MoneyText Sdk Json Canonical Chain.

Module ProjectError.
Inductive project_error :=
| Repo (error : RepoError)
| Conflict
| NegativeBalance (account_id : Uuid) (balance : string)
| MissingNormalSide (account_id : Uuid)
| MissingCreditEventType (line_id : Uuid)
| Arithmetic (error : ExactError)
| Db.
End ProjectError.
Abbreviation ProjectError := ProjectError.project_error.

(** The cache tables in the order in which their rows are locked. *)
Inductive GrainTable := GAccount | GArPayer | GArInvoice | GUnallocated | GReusableCredit | GTax.

#[global] Instance grain_table_eq_dec : EqDecision GrainTable.
Proof. solve_decision. Defined.

Definition table_index (t : GrainTable) : Z :=
  match t with
  | GAccount => 0 | GArPayer => 1 | GArInvoice => 2 | GUnallocated => 3 | GReusableCredit => 4 | GTax => 5
  end.

Record GrainDelta := mkGrainDelta {
  table_rank : GrainTable;
  gd_tenant_id : Uuid;
  gd_account_id : Uuid;
  gd_currency : string;
  gd_payer_tenant_id : Uuid;
  gd_invoice_id : string;
  gd_tax_jurisdiction : string;
  gd_tax_filing_period : string;
  gd_account_class : AccountClass;
  gd_normal_side : Side;
  delta : ExactAmount;
  currency_spec : CurrencySpec;
  functional_delta : ExactAmount;
  functional_currency : option CurrencySpec;
  disputed_delta : ExactAmount;
  gd_posted_at : OffsetDateTime;
  gd_due_date : option NaiveDate;
  gd_credit_grant_event_type : string;
  gd_first_granted_at : option OffsetDateTime;
}.

(** [GrainSortKey]. *)
Record GrainSortKey := mkSortKey {
  sk_table : GrainTable;
  sk_tenant : Uuid;
  sk_account : Uuid;
  sk_currency : string;
  sk_payer : Uuid;
  sk_invoice : string;
  sk_tax_jurisdiction : string;
  sk_tax_filing_period : string;
  sk_credit_grant_event_type : string;
}.

#[global] Instance grain_sort_key_eq_dec : EqDecision GrainSortKey.
Proof. solve_decision. Defined.

Definition sort_key (g : GrainDelta) : GrainSortKey := {|
  sk_table := table_rank g;
  sk_tenant := gd_tenant_id g;
  sk_account := match table_rank g with GUnallocated | GReusableCredit => uuid_nil | _ => gd_account_id g end;
  sk_currency := match table_rank g with GArInvoice | GTax => "" | _ => gd_currency g end;
  sk_payer := match table_rank g with GAccount | GTax => uuid_nil | _ => gd_payer_tenant_id g end;
  sk_invoice := gd_invoice_id g;
  sk_tax_jurisdiction := gd_tax_jurisdiction g;
  sk_tax_filing_period := gd_tax_filing_period g;
  sk_credit_grant_event_type := gd_credit_grant_event_type g;
|}.

(** The derived order of the tuple. *)
Definition key_cmp (a b : GrainSortKey) : comparison :=
  then_with (Z.compare (table_index (sk_table a)) (table_index (sk_table b)))
  (then_with (N.compare (sk_tenant a) (sk_tenant b))
  (then_with (N.compare (sk_account a) (sk_account b))
  (then_with (String.compare (sk_currency a) (sk_currency b))
  (then_with (N.compare (sk_payer a) (sk_payer b))
  (then_with (String.compare (sk_invoice a) (sk_invoice b))
  (then_with (String.compare (sk_tax_jurisdiction a) (sk_tax_jurisdiction b))
  (then_with (String.compare (sk_tax_filing_period a) (sk_tax_filing_period b))
             (String.compare (sk_credit_grant_event_type a) (sk_credit_grant_event_type b))))))))).

Definition grain_cmp (a b : GrainDelta) : comparison := key_cmp (sort_key a) (sort_key b).

(** ** Cache rows *)

Record CacheRow (X : Type) := mkCacheRow {
  cr_account_id : Uuid;
  cr_currency : string;
  cr_currency_scale : Z;
  cr_balance : string;
  cr_functional_balance : option string;
  cr_functional_currency : option string;
  cr_functional_currency_scale : option Z;
  cr_last_entry_seq : option Z;
  cr_version : Z;
  cr_own : X;
}.
Arguments mkCacheRow {X}.
Arguments cr_account_id {X}.
Arguments cr_currency {X}.
Arguments cr_currency_scale {X}.
Arguments cr_balance {X}.
Arguments cr_functional_balance {X}.
Arguments cr_functional_currency {X}.
Arguments cr_functional_currency_scale {X}.
Arguments cr_last_entry_seq {X}.
Arguments cr_version {X}.
Arguments cr_own {X}.

(** The columns [account_balance], [ar_invoice_balance] and
    [reusable_credit_subbalance] have of their own. *)
Record AccountColumns := mkAccountColumns { ac_account_class : string; ac_normal_side : string }.
Record InvoiceColumns := mkInvoiceColumns {
  ic_disputed : string;
  ic_original_posted_at : option OffsetDateTime;
  ic_due_date : option NaiveDate;
}.
Record CreditColumns := mkCreditColumns { cc_first_granted_at : option OffsetDateTime }.

Record Caches := mkCaches {
  account_balance : gmap (Uuid * Uuid * string) (CacheRow AccountColumns);
  ar_payer_balance : gmap (Uuid * Uuid * Uuid * string) (CacheRow unit);
  ar_invoice_balance : gmap (Uuid * Uuid * Uuid * string) (CacheRow InvoiceColumns);
  unallocated_balance : gmap (Uuid * Uuid * string) (CacheRow unit);
  reusable_credit_subbalance : gmap (Uuid * Uuid * string * string) (CacheRow CreditColumns);
  tax_subbalance : gmap (Uuid * Uuid * string * string) (CacheRow unit);
}.

Definition no_caches : Caches := mkCaches ∅ ∅ ∅ ∅ ∅ ∅.

(** ** Arithmetic *)

(** [From<ExactError> for ProjectError]. *)
Definition project_from_exact (e : ExactError) : ProjectError :=
  match e with
  | ExactError.Money e => ProjectError.Repo (RepoError.Money e)
  | e => ProjectError.Arithmetic e
  end.

Definition require_one (rows : Z) : result ProjectError unit :=
  if rows =? 1 then Ok tt else Err ProjectError.Conflict.

Definition next_version (version : Z) : result ProjectError Z :=
  if in_i64 (version + 1) then Ok (version + 1) else Err ProjectError.Db.

Definition match_currency (a b : CurrencySpec) : result ProjectError unit :=
  map_err (fun e => ProjectError.Repo (RepoError.Money e)) (ensure_same a b).

Definition match_functional (a b : option CurrencySpec) : result ProjectError unit :=
  match a, b with
  | Some a, Some b => match_currency a b
  | None, None => Ok tt
  | _, _ => Err (ProjectError.Repo (RepoError.Money MoneyError.CurrencyMismatch))
  end.

Section projector.
Context `{DecimalText}.

Definition final_amount (delta : ExactAmount) (stored : option PostedMoney) (cur : CurrencySpec) :
    result ProjectError PostedMoney :=
  _ ← match stored with
      | Some stored => match_currency cur (currency stored)
      | None => Ok tt
      end;
  total ← map_err project_from_exact
    (checked_add delta (from_decimal (match stored with Some stored => amount stored | None => ZERO end)));
  map_err project_from_exact (into_posted_exact total cur).

Definition final_balances (g : GrainDelta) (stored functional : option PostedMoney) :
    result ProjectError (PostedMoney * option PostedMoney) :=
  let tax := bool_decide (table_rank g = GTax) in
  _ ← match stored with
      | Some stored => match_currency (currency_spec g) (currency stored)
      | None => Ok tt
      end;
  _ ← (if bool_decide (is_Some stored) && negb tax
       then match_functional (functional_currency g) (currency <$> functional)
       else Ok tt);
  balance ← final_amount (delta g) stored (currency_spec g);
  _ ← (if (is_guarded (gd_account_class g) || bool_decide (table_rank g = GReusableCredit))
          && dec_ltb (amount balance) ZERO
       then Err (ProjectError.NegativeBalance (gd_account_id g) (encode_amount balance))
       else Ok tt);
  functional ← (if tax then Ok None
                else match functional_currency g with
                     | Some c => Some <$> final_amount (functional_delta g) functional c
                     | None => Ok None
                     end);
  Ok (balance, functional).

(** ** One cache row *)

Record CacheEntity (K X : Type) := mkCacheEntity {
  (** The key of the grain's row. *)
  ce_key : GrainDelta -> K;
  (** The stored functional balance. *)
  ce_functional : CacheRow X -> result RepoError (option PostedMoney);
  (** What the writer checks of a row it finds. *)
  ce_check : GrainDelta -> CacheRow X -> result ProjectError unit;
  (** The columns of its own the writer stores, from the row it found and the new balance. *)
  ce_own : GrainDelta -> option (CacheRow X) -> PostedMoney -> result ProjectError X;
  (** The functional currency an insert stores. *)
  ce_functional_currency : GrainDelta -> option CurrencySpec;
}.
Arguments ce_key {K X}.
Arguments ce_functional {K X}.
Arguments ce_check {K X}.
Arguments ce_own {K X}.
Arguments ce_functional_currency {K X}.

Definition decode_balance {X} (r : CacheRow X) : result RepoError PostedMoney :=
  decode_money (cr_balance r) (cr_currency r) (cr_currency_scale r).

Definition decode_functional {X} (r : CacheRow X) : result RepoError (option PostedMoney) :=
  decode_optional_money (cr_functional_balance r) (cr_functional_currency r) (cr_functional_currency_scale r).

(** The row of an update: balance, functional balance, version, sequence and own columns. *)
Definition rewrite_row {X} (balance : PostedMoney) (functional : option PostedMoney) (version seq : Z)
    (own : X) (r : CacheRow X) : CacheRow X :=
  mkCacheRow (cr_account_id r) (cr_currency r) (cr_currency_scale r) (encode_amount balance)
    (encode_amount <$> functional) (cr_functional_currency r) (cr_functional_currency_scale r)
    (Some seq) version own.

(** The row of an insert. *)
Definition fresh_row {X} (g : GrainDelta) (fc : option CurrencySpec) (balance : PostedMoney)
    (functional : option PostedMoney) (seq : Z) (own : X) : CacheRow X :=
  mkCacheRow (gd_account_id g) (gd_currency g) (currency_scale (currency_spec g)) (encode_amount balance)
    (encode_amount <$> functional) (code <$> fc) (currency_scale <$> fc) (Some seq) 0 own.

Definition upsert {K X} `{Countable K} (e : CacheEntity K X) (t : gmap K (CacheRow X)) (g : GrainDelta) (seq : Z) :
    result ProjectError (gmap K (CacheRow X)) :=
  let existing := t_find t (ce_key e g) in
  stored ← match existing with
           | Some r => Some <$> map_err ProjectError.Repo (decode_balance r)
           | None => Ok None
           end;
  functional ← match existing with
               | Some r => map_err ProjectError.Repo (ce_functional e r)
               | None => Ok None
               end;
  _ ← match existing with Some r => ce_check e g r | None => Ok tt end;
  '(balance, functional_balance) ← final_balances g stored functional;
  own ← ce_own e g existing balance;
  match existing with
  | Some r =>
      next ← next_version (cr_version r);
      let '(t, rows_affected) :=
        t_update t (ce_key e g) (fun row => cr_version row =? cr_version r)
          (rewrite_row balance functional_balance next seq own) in
      _ ← require_one rows_affected;
      Ok t
  | None =>
      ok_or (t_insert t (ce_key e g)
               (fresh_row g (ce_functional_currency e g) balance functional_balance seq own))
        (ProjectError.Repo RepoError.Conflict)
  end.

(** [cache_account_mismatch], as the guard of each writer. *)
Definition check_account {X} (g : GrainDelta) (r : CacheRow X) : result ProjectError unit :=
  ensure (bool_decide (cr_account_id r = gd_account_id g)) ProjectError.Db.

(** Columns an update leaves alone. *)
Definition keep_own {X} (fresh : X) (existing : option (CacheRow X)) : result ProjectError X :=
  Ok (match existing with Some r => cr_own r | None => fresh end).

Definition account_entity : CacheEntity (Uuid * Uuid * string) AccountColumns := {|
  ce_key g := (gd_tenant_id g, gd_account_id g, gd_currency g);
  ce_functional := decode_functional;
  ce_check g r :=
    _ ← check_account g r;
    ensure (bool_decide (ac_account_class (cr_own r) = as_str (gd_account_class g))
            && bool_decide (ac_normal_side (cr_own r) = as_str (gd_normal_side g))) ProjectError.Db;
  ce_own g existing _ :=
    keep_own (mkAccountColumns (as_str (gd_account_class g)) (as_str (gd_normal_side g))) existing;
  ce_functional_currency := functional_currency;
|}.

Definition ar_payer_entity : CacheEntity (Uuid * Uuid * Uuid * string) unit := {|
  ce_key g := (gd_tenant_id g, gd_payer_tenant_id g, gd_account_id g, gd_currency g);
  ce_functional := decode_functional;
  ce_check := check_account;
  ce_own _ existing _ := keep_own tt existing;
  ce_functional_currency := functional_currency;
|}.

Definition disputed_outside (disputed total : PostedMoney) : bool :=
  dec_ltb (amount disputed) ZERO || dec_ltb (amount total) (amount disputed).

Definition ar_invoice_disputed (g : GrainDelta) (existing : option (CacheRow InvoiceColumns))
    (balance : PostedMoney) : result ProjectError InvoiceColumns :=
  stored_disputed ← match existing with
                    | Some r => Some <$> map_err ProjectError.Repo
                        (decode_money (ic_disputed (cr_own r)) (cr_currency r) (cr_currency_scale r))
                    | None => Ok None
                    end;
  stored ← match existing with
           | Some r => Some <$> map_err ProjectError.Repo (decode_balance r)
           | None => Ok None
           end;
  _ ← match stored, stored_disputed with
      | Some total, Some disputed =>
          if disputed_outside disputed total then Err (ProjectError.Repo RepoError.InvalidStoredMoney) else Ok tt
      | _, _ => Ok tt
      end;
  disputed ← final_amount (disputed_delta g) stored_disputed (currency_spec g);
  _ ← (if disputed_outside disputed balance then Err ProjectError.Db else Ok tt);
  Ok (match existing with
      | Some r => mkInvoiceColumns (encode_amount disputed) (ic_original_posted_at (cr_own r)) (ic_due_date (cr_own r))
      | None => mkInvoiceColumns (encode_amount disputed) (Some (gd_posted_at g)) (gd_due_date g)
      end).

Definition ar_invoice_entity : CacheEntity (Uuid * Uuid * Uuid * string) InvoiceColumns := {|
  ce_key g := (gd_tenant_id g, gd_payer_tenant_id g, gd_account_id g, gd_invoice_id g);
  ce_functional := decode_functional;
  ce_check := check_account;
  ce_own := ar_invoice_disputed;
  ce_functional_currency := functional_currency;
|}.

Definition unallocated_entity : CacheEntity (Uuid * Uuid * string) unit := {|
  ce_key g := (gd_tenant_id g, gd_payer_tenant_id g, gd_currency g);
  ce_functional := decode_functional;
  ce_check := check_account;
  ce_own _ existing _ := keep_own tt existing;
  ce_functional_currency := functional_currency;
|}.

Definition reusable_credit_entity : CacheEntity (Uuid * Uuid * string * string) CreditColumns := {|
  ce_key g := (gd_tenant_id g, gd_payer_tenant_id g, gd_currency g, gd_credit_grant_event_type g);
  ce_functional := decode_functional;
  ce_check := check_account;
  ce_own g existing _ := keep_own (mkCreditColumns (gd_first_granted_at g)) existing;
  ce_functional_currency := functional_currency;
|}.

(** The tax table has no functional columns. *)
Definition tax_entity : CacheEntity (Uuid * Uuid * string * string) unit := {|
  ce_key g := (gd_tenant_id g, gd_account_id g, gd_tax_jurisdiction g, gd_tax_filing_period g);
  ce_functional _ := Ok None;
  ce_check := check_account;
  ce_own _ existing _ := keep_own tt existing;
  ce_functional_currency _ := None;
|}.

Definition upsert_account_balance := upsert account_entity.
Definition upsert_ar_payer := upsert ar_payer_entity.
Definition upsert_ar_invoice := upsert ar_invoice_entity.
Definition upsert_unallocated := upsert unallocated_entity.
Definition upsert_reusable_credit := upsert reusable_credit_entity.
Definition upsert_tax := upsert tax_entity.

(** ** The grains of an entry *)

Definition AR_STATUS_DISPUTED : string := "DISPUTED".

Definition signed_amount (normal_side : Side) (line : NewLine) (money : PostedMoney) : ExactAmount :=
  from_decimal (if bool_decide (nl_side line = normal_side) then amount money else dec_neg (amount money)).

Definition base_grain (entry : NewEntry) (line : NewLine) (normal_side : Side) : GrainDelta := {|
  table_rank := GAccount;
  gd_tenant_id := ne_tenant_id entry;
  gd_account_id := nl_account_id line;
  gd_currency := code (currency (nl_money line));
  gd_payer_tenant_id := nl_payer_tenant_id line;
  gd_invoice_id := "";
  gd_tax_jurisdiction := "";
  gd_tax_filing_period := "";
  gd_account_class := nl_account_class line;
  gd_normal_side := normal_side;
  delta := signed_amount normal_side line (nl_money line);
  currency_spec := currency (nl_money line);
  functional_delta := match nl_functional_money line with
                      | Some m => signed_amount normal_side line m
                      | None => from_decimal ZERO
                      end;
  functional_currency := currency <$> nl_functional_money line;
  disputed_delta := from_decimal ZERO;
  gd_posted_at := ne_posted_at_utc entry;
  gd_due_date := None;
  gd_credit_grant_event_type := "";
  gd_first_granted_at := None;
|}.

Definition with_table (t : GrainTable) (g : GrainDelta) : GrainDelta :=
  mkGrainDelta t (gd_tenant_id g) (gd_account_id g) (gd_currency g) (gd_payer_tenant_id g) (gd_invoice_id g)
    (gd_tax_jurisdiction g) (gd_tax_filing_period g) (gd_account_class g) (gd_normal_side g) (delta g)
    (currency_spec g) (functional_delta g) (functional_currency g) (disputed_delta g) (gd_posted_at g)
    (gd_due_date g) (gd_credit_grant_event_type g) (gd_first_granted_at g).

Definition invoice_grain (line : NewLine) (invoice_id : string) (g : GrainDelta) : GrainDelta :=
  mkGrainDelta GArInvoice (gd_tenant_id g) (gd_account_id g) (gd_currency g) (gd_payer_tenant_id g) invoice_id
    (gd_tax_jurisdiction g) (gd_tax_filing_period g) (gd_account_class g) (gd_normal_side g) (delta g)
    (currency_spec g) (functional_delta g) (functional_currency g)
    (if bool_decide (nl_ar_status line = Some AR_STATUS_DISPUTED) then delta g else from_decimal ZERO)
    (gd_posted_at g) (nl_due_date line) (gd_credit_grant_event_type g) (gd_first_granted_at g).

Definition credit_grain (entry : NewEntry) (event : string) (g : GrainDelta) : GrainDelta :=
  mkGrainDelta GReusableCredit (gd_tenant_id g) (gd_account_id g) (gd_currency g) (gd_payer_tenant_id g)
    (gd_invoice_id g) (gd_tax_jurisdiction g) (gd_tax_filing_period g) (gd_account_class g) (gd_normal_side g)
    (delta g) (currency_spec g) (functional_delta g) (functional_currency g) (disputed_delta g) (gd_posted_at g)
    (gd_due_date g) event (Some (ne_posted_at_utc entry)).

Definition tax_grain (jurisdiction filing : string) (g : GrainDelta) : GrainDelta :=
  mkGrainDelta GTax (gd_tenant_id g) (gd_account_id g) (gd_currency g) (gd_payer_tenant_id g) (gd_invoice_id g)
    jurisdiction filing (gd_account_class g) (gd_normal_side g) (delta g) (currency_spec g) (functional_delta g)
    (functional_currency g) (disputed_delta g) (gd_posted_at g) (gd_due_date g) (gd_credit_grant_event_type g)
    (gd_first_granted_at g).

(** The grains one line pushes. *)
Definition line_grains (entry : NewEntry) (normal_sides : gmap Uuid Side) (line : NewLine) :
    result ProjectError (list GrainDelta) :=
  normal_side ← ok_or (normal_sides !! nl_account_id line) (ProjectError.MissingNormalSide (nl_account_id line));
  let base := base_grain entry line normal_side in
  match nl_account_class line with
  | Ar =>
      Ok (base :: with_table GArPayer base ::
          match nl_invoice_id line with
          | Some invoice_id => [invoice_grain line invoice_id base]
          | None => []
          end)
  | Unallocated => Ok [base; with_table GUnallocated base]
  | ReusableCredit =>
      event ← match nl_credit_grant_event_type line with
              | Some s => if bool_decide (s = "") then Err (ProjectError.MissingCreditEventType (nl_line_id line))
                          else Ok s
              | None => Err (ProjectError.MissingCreditEventType (nl_line_id line))
              end;
      Ok [base; credit_grain entry event base]
  | TaxPayable =>
      Ok (base :: match nl_tax_jurisdiction line, nl_tax_filing_period line with
                  | Some j, Some f => [tax_grain j f base]
                  | _, _ => []
                  end)
  | _ => Ok [base]
  end.

(** Merge a grain into the last one. *)
Definition merge_grain (last g : GrainDelta) : result ProjectError GrainDelta :=
  _ ← match_currency (currency_spec last) (currency_spec g);
  _ ← match_functional (functional_currency last) (functional_currency g);
  _ ← ensure (bool_decide (gd_account_id last = gd_account_id g)
              && bool_decide (gd_account_class last = gd_account_class g)
              && bool_decide (gd_normal_side last = gd_normal_side g)) ProjectError.Db;
  d ← map_err project_from_exact (checked_add (delta last) (delta g));
  disputed ← map_err project_from_exact (checked_add (disputed_delta last) (disputed_delta g));
  functional ← map_err project_from_exact (checked_add (functional_delta last) (functional_delta g));
  Ok (mkGrainDelta (table_rank last) (gd_tenant_id last) (gd_account_id last) (gd_currency last)
        (gd_payer_tenant_id last) (gd_invoice_id last) (gd_tax_jurisdiction last) (gd_tax_filing_period last)
        (gd_account_class last) (gd_normal_side last) d (currency_spec last) functional
        (functional_currency last) disputed (gd_posted_at last) (gd_due_date last)
        (gd_credit_grant_event_type last) (gd_first_granted_at last)).

(** The result vector is kept with its last element first. *)
Definition coalesce_step (result : list GrainDelta) (g : GrainDelta) : Prelude.result ProjectError (list GrainDelta) :=
  match result with
  | last :: rest =>
      if bool_decide (sort_key last = sort_key g)
      then last ← merge_grain last g; Ok (last :: rest)
      else Ok (g :: result)
  | [] => Ok [g]
  end.

(** The grains of an entry, before they are merged. *)
Definition entry_grains (entry : NewEntry) (lines : list NewLine) (normal_sides : gmap Uuid Side) :
    result ProjectError (list GrainDelta) :=
  grains ← map_res (line_grains entry normal_sides) lines;
  Ok (mjoin (M := list) grains).

Definition derive_grains (entry : NewEntry) (lines : list NewLine) (normal_sides : gmap Uuid Side) :
    result ProjectError (list GrainDelta) :=
  grains ← entry_grains entry lines normal_sides;
  reverse <$> fold_res coalesce_step [] (sort_by grain_cmp grains).

(** ** The projection *)

Definition project_grain (seq : Z) (c : Caches) (g : GrainDelta) : result ProjectError Caches :=
  match table_rank g with
  | GAccount => t ← upsert_account_balance (account_balance c) g seq;
      Ok (mkCaches t (ar_payer_balance c) (ar_invoice_balance c) (unallocated_balance c) (reusable_credit_subbalance c) (tax_subbalance c))
  | GArPayer => t ← upsert_ar_payer (ar_payer_balance c) g seq;
      Ok (mkCaches (account_balance c) t (ar_invoice_balance c) (unallocated_balance c) (reusable_credit_subbalance c) (tax_subbalance c))
  | GArInvoice => t ← upsert_ar_invoice (ar_invoice_balance c) g seq;
      Ok (mkCaches (account_balance c) (ar_payer_balance c) t (unallocated_balance c) (reusable_credit_subbalance c) (tax_subbalance c))
  | GUnallocated => t ← upsert_unallocated (unallocated_balance c) g seq;
      Ok (mkCaches (account_balance c) (ar_payer_balance c) (ar_invoice_balance c) t (reusable_credit_subbalance c) (tax_subbalance c))
  | GReusableCredit => t ← upsert_reusable_credit (reusable_credit_subbalance c) g seq;
      Ok (mkCaches (account_balance c) (ar_payer_balance c) (ar_invoice_balance c) (unallocated_balance c) t (tax_subbalance c))
  | GTax => t ← upsert_tax (tax_subbalance c) g seq;
      Ok (mkCaches (account_balance c) (ar_payer_balance c) (ar_invoice_balance c) (unallocated_balance c) (reusable_credit_subbalance c) t)
  end.

Definition project (c : Caches) (entry : NewEntry) (lines : list NewLine) (normal_sides : gmap Uuid Side)
    (created_seq : Z) : result ProjectError Caches :=
  grains ← derive_grains entry lines normal_sides;
  fold_res (project_grain created_seq) c grains.
End projector.

Arguments ce_key {_ K X}.
Arguments ce_functional {_ K X}.
Arguments ce_check {_ K X}.
Arguments ce_own {_ K X}.
Arguments ce_functional_currency {_ K X}.
