(* ===== verification/ProjectorProps.v ===== *)
(** * What the balance projector keeps

    The caches are a fold of history: [caches_tie c h] says that every row of every
    table holds the exact sums of the deltas in the list [h] that belong to its key,
    that a guarded balance is not negative, that a disputed part lies within its
    balance, and that a key without deltas has no row.  One projection extends the
    history by the grains of its entry; the list [derive_grains] hands to the writers
    is strictly increasing in the lock order. *)

From S2P Require Import Prelude Decimal Money Exact ExactGrid Table DomainErrors MoneyText Sdk Json Canonical Chain.
From S2P Require Import Journal Projector.
From Stdlib Require Import QArith.
From stdpp Require Import sorting.
#[local] Open Scope Z_scope.

(** ** Exact amounts on the grid of money *)

Definition amount_units (a : ExactAmount) : Z := numerator a * grid / denominator a.

Definition on_grid (a : ExactAmount) : Prop := a = of_units (amount_units a) /\ exact_inv a.

Lemma amount_units_of z : amount_units (of_units z) = z.
Proof.
  destruct (of_units_parts z) as (g & Hg & Hn & Hd). unfold amount_units. rewrite Hd at 1.
  pose proof grid_pos. replace (numerator (of_units z) * (g * denominator (of_units z)))
    with (g * numerator (of_units z) * denominator (of_units z)) by ring.
  rewrite Z.div_mul; [done|nia].
Qed.

Lemma on_grid_of z : exact_inv (of_units z) -> on_grid (of_units z).
Proof. intros Hi. split; [|done]. by rewrite amount_units_of. Qed.

Lemma checked_add_grid a b c : on_grid a -> on_grid b -> checked_add a b = Ok c ->
  on_grid c /\ amount_units c = amount_units a + amount_units b.
Proof.
  intros [Ha Hia] [Hb Hib]. set (x := amount_units a) in *. set (y := amount_units b) in *.
  unfold checked_add. rewrite combine_fit by done. intros Hf.
  destruct (fit_inv _ _ Hf) as [Hi _]. unfold fit in Hf. case_match; [|done]. injection Hf as <-.
  assert (of_Q (to_Q a + to_Q b)%Q = of_units (x + y)) as Hc.
  { apply of_Q_proper. rewrite Ha, Hb, !to_Q_of_units. unfold Qplus, Qeq; cbn [Qnum Qden].
    rewrite Pos2Z.inj_mul, Z2Pos.id by done. ring. }
  rewrite Hc in *. split; [by apply on_grid_of|apply amount_units_of].
Qed.

Section amounts.
Context `{RustDecimal}.

Lemma from_decimal_grid d : on_grid (from_decimal d) /\ amount_units (from_decimal d) = units d.
Proof.
  rewrite from_decimal_units. split; [|apply amount_units_of]. apply on_grid_of, of_units_inv.
  apply (small_bound _ 1); [pose proof (units_small d)|]; lia.
Qed.

Lemma into_posted_grid a cur p : on_grid a -> currency_ok cur -> into_posted_exact a cur = Ok p ->
  posted_ok p /\ currency p = cur /\ posted_units p = amount_units a.
Proof.
  intros [_ Hi] Hcur Hp. pose proof (into_posted_exact_spec a cur Hi Hcur) as Hs. rewrite Hp in Hs.
  destruct Hs as (? & ? & Ha). split_and!; [done..|]. by rewrite Ha, amount_units_of.
Qed.
End amounts.

(** ** The lock order *)

#[global] Instance key_total_cmp : TotalCmp key_cmp.
Proof.
  unfold key_cmp. apply (total_cmp_then (fun a b => Z.compare (table_index (sk_table a)) (table_index (sk_table b))));
    [apply (total_cmp_on (fun k => table_index (sk_table k)) Z.compare)|].
  repeat (apply (total_cmp_then (fun a b => _)); [first
    [exact (total_cmp_on sk_tenant N.compare)|exact (total_cmp_on sk_account N.compare)
    |exact (total_cmp_on sk_currency String.compare)|exact (total_cmp_on sk_payer N.compare)
    |exact (total_cmp_on sk_invoice String.compare)|exact (total_cmp_on sk_tax_jurisdiction String.compare)
    |exact (total_cmp_on sk_tax_filing_period String.compare)]|]).
  exact (total_cmp_on sk_credit_grant_event_type String.compare).
Qed.

#[global] Instance grain_total_cmp : TotalCmp grain_cmp := total_cmp_on sort_key key_cmp.

Lemma then_with_eq c d : then_with c d = Eq <-> c = Eq /\ d = Eq.
Proof. destruct c; cbn; naive_solver. Qed.

Lemma string_compare_eq a b : String.compare a b = Eq <-> a = b.
Proof.
  split; [apply String.compare_eq_iff|intros ->]. pose proof (String.compare_antisym b b) as Ha.
  by destruct (String.compare b b).
Qed.

Lemma key_cmp_eq a b : key_cmp a b = Eq <-> a = b.
Proof.
  unfold key_cmp. rewrite !then_with_eq, Z.compare_eq_iff, !N.compare_eq_iff, !string_compare_eq.
  destruct a as [ta ? ? ? ? ? ? ? ?], b as [tb ? ? ? ? ? ? ? ?]; cbn. split; [|by intros [= -> -> -> -> -> -> -> -> ->]].
  intros (Ht & -> & -> & -> & -> & -> & -> & -> & ->). f_equal. by destruct ta, tb.
Qed.

Section coalesce.
Context `{DecimalText}.

(** The result is kept with its largest key first. *)
Definition descending (gs : list GrainDelta) : Prop := StronglySorted (fun a b => grain_cmp b a = Lt) gs.

Lemma merge_grain_key s g s' : merge_grain s g = Ok s' -> sort_key s' = sort_key s.
Proof. unfold merge_grain. intros Hm. res_inv. done. Qed.

Lemma coalesce_descending gs : forall acc res, descending acc ->
  StronglySorted (cmp_le grain_cmp) gs -> (forall a g, a ∈ acc -> g ∈ gs -> cmp_le grain_cmp a g) ->
  fold_res coalesce_step acc gs = Ok res -> descending res.
Proof.
  induction gs as [|g gs IH]; intros acc res Hacc Hs Hle; cbn [fold_res]; [by intros [= <-]|].
  intros (acc' & Hstep & Hrest)%bind_ok. apply StronglySorted_inv in Hs as [Hs Hg]. rewrite Forall_forall in Hg.
  destruct acc as [|last rest]; cbn in Hstep.
  { injection Hstep as <-. refine (IH _ _ _ Hs _ Hrest); [repeat constructor|].
    intros a g' ->%list_elem_of_singleton Hg'. by apply Hg. }
  apply StronglySorted_inv in Hacc as [Hr Hlast]. rewrite Forall_forall in Hlast.
  case_bool_decide as Hk.
  - apply bind_ok in Hstep as (s & Hm%merge_grain_key & [= <-]). refine (IH _ _ _ Hs _ Hrest).
    + constructor; [done|]. apply Forall_forall. intros x Hx. unfold grain_cmp. rewrite Hm. by apply Hlast.
    + intros a g' [->|Ha]%elem_of_cons Hg'; [|apply Hle; [by right|by right]].
      unfold cmp_le, grain_cmp. rewrite Hm. apply (Hle last g'); [by left|by right].
  - injection Hstep as <-.
    assert (Hlt : grain_cmp last g = Lt).
    { specialize (Hle last g ltac:(left) ltac:(left)). unfold cmp_le in Hle.
      destruct (grain_cmp last g) eqn:E; [|done|done]. by apply key_cmp_eq in E. }
    refine (IH _ _ _ Hs _ Hrest).
    + constructor; [by constructor; [|apply Forall_forall]|]. constructor; [done|]. apply Forall_forall. intros x Hx.
      apply (cmp_le_lt_trans grain_cmp x last g); [|done]. unfold cmp_le. by rewrite (Hlast x Hx).
    + intros a g' [->|Ha]%elem_of_cons Hg'; [by apply Hg|apply Hle; [done|by right]].
Qed.

Lemma descending_reverse gs : descending gs -> StronglySorted (fun a b => grain_cmp a b = Lt) (reverse gs).
Proof.
  induction 1 as [|g gs _ IH Hg]; [constructor|]. rewrite reverse_cons. apply StronglySorted_app_2; [|done|repeat constructor].
  intros x y Hx Hy. apply list_elem_of_singleton in Hy as ->. rewrite elem_of_reverse in Hx.
  rewrite Forall_forall in Hg. by apply Hg.
Qed.


(** ** Merged grains *)

(** The account class of the lines that reach a table other than the first. *)
Definition rank_class (t : GrainTable) : option AccountClass :=
  match t with
  | GAccount => None
  | GArPayer | GArInvoice => Some Ar
  | GUnallocated => Some Unallocated
  | GReusableCredit => Some ReusableCredit
  | GTax => Some TaxPayable
  end.

Definition spec_ok (c : CurrencySpec) : Prop := currency_ok c /\ spec_valid c.

Record grain_ok (g : GrainDelta) : Prop := {
  go_delta : on_grid (delta g);
  go_functional : on_grid (functional_delta g);
  go_disputed : on_grid (disputed_delta g);
  go_spec : spec_ok (currency_spec g);
  go_fspec c : functional_currency g = Some c -> spec_ok c;
  go_code : gd_currency g = code (currency_spec g);
  go_class cls : rank_class (table_rank g) = Some cls -> gd_account_class g = cls;
}.

Definition identity (g : GrainDelta) :=
  (sort_key g, gd_account_id g, gd_account_class g, gd_normal_side g, currency_spec g, functional_currency g).

Definition delta_units (g : GrainDelta) : Z := amount_units (delta g).
Definition functional_units_of (g : GrainDelta) : Z := amount_units (functional_delta g).
Definition disputed_units (g : GrainDelta) : Z := amount_units (disputed_delta g).

(** [s] is the merger of the grains [gs]. *)
Record summarises (s : GrainDelta) (gs : list GrainDelta) : Prop := {
  sm_ok : grain_ok s;
  sm_all : Forall grain_ok gs;
  sm_some : gs <> [];
  sm_same g : g ∈ gs -> identity g = identity s;
  sm_delta : delta_units s = sum_Z delta_units gs;
  sm_functional : functional_units_of s = sum_Z functional_units_of gs;
  sm_disputed : disputed_units s = sum_Z disputed_units gs;
}.

Lemma summarises_one g : grain_ok g -> summarises g [g].
Proof.
  intros Hg. constructor; rewrite ?sum_Z_cons, ?sum_Z_nil, ?Z.add_0_r; try done; [by constructor|].
  by intros g' ->%list_elem_of_singleton.
Qed.

Lemma match_currency_ok a b u : match_currency a b = Ok u <-> a = b.
Proof. destruct u. unfold match_currency. rewrite map_err_ok. apply ensure_same_ok. Qed.

Lemma match_functional_ok a b u : match_functional a b = Ok u <-> a = b.
Proof.
  destruct u, a, b; cbn; rewrite ?match_currency_ok; naive_solver.
Qed.

Lemma merge_grain_ok s gs g s' : summarises s gs -> grain_ok g -> sort_key s = sort_key g ->
  merge_grain s g = Ok s' -> summarises s' (gs ++ [g]).
Proof.
  intros [Hs Hall Hne Hsame Hd Hf Hp] Hg Hk Hm. unfold merge_grain in Hm.
  res_inv. apply match_currency_ok in E. apply match_functional_ok in E0. bool_to_prop.
  apply checked_add_grid in E2 as [? Hd']; [|apply Hs|apply Hg].
  apply checked_add_grid in E3 as [? Hp']; [|apply Hs|apply Hg].
  apply checked_add_grid in E4 as [? Hf']; [|apply Hs|apply Hg].
  constructor; rewrite ?sum_Z_snoc, <- ?Hd, <- ?Hf, <- ?Hp; [..|exact Hd'|exact Hf'|exact Hp'].
  - destruct Hs. by constructor.
  - apply Forall_app_2; [done|by constructor].
  - by destruct gs.
  - intros g' [Hin| ->%list_elem_of_singleton]%elem_of_app; [by rewrite (Hsame g' Hin)|].
    unfold identity; cbn. change (sort_key _) with (sort_key s) at 2. congruence.
Qed.

Lemma coalesce_ok gs : forall acc parts res, Forall2 summarises acc parts -> Forall grain_ok gs ->
  fold_res coalesce_step acc gs = Ok res ->
  exists parts', Forall2 summarises res parts' /\ mjoin parts' ≡ₚ mjoin parts ++ gs.
Proof.
  induction gs as [|g gs IH]; intros acc parts res Hacc Hok; cbn [fold_res].
  { intros [= <-]. exists parts. by rewrite app_nil_r. }
  intros (acc' & Hstep & Hrest)%bind_ok. apply Forall_cons in Hok as [Hg Hok].
  assert (exists parts1, Forall2 summarises acc' parts1 /\ mjoin parts1 ≡ₚ mjoin parts ++ [g]) as (parts1 & H1 & Hp1).
  { destruct Hacc as [|s part acc parts Hs Hacc]; cbn in Hstep.
    - injection Hstep as <-. exists [[g]]. split; [|done]. constructor; [by apply summarises_one|constructor].
    - case_bool_decide as Hk.
      + apply bind_ok in Hstep as (s' & Hm & [= <-]). exists ((part ++ [g]) :: parts).
        split; [constructor; [by eapply merge_grain_ok|done]|]. cbn. rewrite <- !app_assoc. f_equiv. apply Permutation_app_comm.
      + injection Hstep as <-. exists ([g] :: part :: parts). split; [constructor; [by apply summarises_one|by constructor]|].
        cbn. by rewrite <- Permutation_cons_append. }
  destruct (IH _ _ _ H1 Hok Hrest) as (parts' & H' & Hp'). exists parts'. split; [done|].
  by rewrite Hp', Hp1, <- app_assoc.
Qed.
End coalesce.

(** ** One row *)

Section rows.
Context `{DecimalText}.

Definition stored_units (m : option PostedMoney) : Z := from_option posted_units 0 m.

Lemma final_amount_ok d stored cur p : on_grid d -> spec_ok cur -> final_amount d stored cur = Ok p ->
  money_ok p /\ currency p = cur /\ posted_units p = amount_units d + stored_units stored /\
  forall m, stored = Some m -> currency m = cur.
Proof.
  intros Hd [Hcur Hv] Hf. unfold final_amount in Hf. res_inv.
  assert (Hst : on_grid (from_decimal (match stored with Some m => amount m | None => ZERO end)) /\
    amount_units (from_decimal (match stored with Some m => amount m | None => ZERO end)) = stored_units stored).
  { destruct (from_decimal_grid (match stored with Some m => amount m | None => ZERO end)) as [Hg Hu].
    split; [done|]. rewrite Hu. destruct stored; [done|apply units_ZERO]. }
  destruct Hst as [Hg Hu]. apply checked_add_grid in E0 as [Ht Htu]; [|done..].
  apply into_posted_grid in Hf as (Hp & Hc & Hpu); [|done..].
  split_and!; [by split; [|rewrite Hc]|done|congruence|].
  intros m Hsm. rewrite Hsm in E. by apply match_currency_ok in E.
Qed.

(** The balance the writer stores, and the functional one. *)
Record balances_ok (g : GrainDelta) (stored functional : option PostedMoney) (b : PostedMoney) (f : option PostedMoney) : Prop := {
  bo_money : money_ok b;
  bo_currency : currency b = currency_spec g;
  bo_units : posted_units b = delta_units g + stored_units stored;
  bo_stored m : stored = Some m -> currency m = currency_spec g;
  bo_guard : is_guarded (gd_account_class g) = true \/ table_rank g = GReusableCredit -> 0 <= posted_units b;
  bo_tax : table_rank g = GTax -> f = None;
  bo_keeps : table_rank g <> GTax -> is_Some stored -> currency <$> functional = functional_currency g;
  bo_functional : table_rank g <> GTax -> currency <$> f = functional_currency g;
  bo_functional_units m : f = Some m -> money_ok m /\ posted_units m = functional_units_of g + stored_units functional;
}.

Lemma final_balances_ok g stored functional b f : grain_ok g ->
  final_balances g stored functional = Ok (b, f) -> balances_ok g stored functional b f.
Proof.
  intros Hg Hf. unfold final_balances in Hf.
  apply bind_ok in Hf as (u1 & Hstored & Hf). apply bind_ok in Hf as (u2 & Hkeep & Hf).
  apply bind_ok in Hf as (b' & Hb & Hf). apply bind_ok in Hf as (u3 & Hguard & Hf).
  apply bind_ok in Hf as (f' & Hfun & [= -> ->]).
  apply final_amount_ok in Hb as (Hm & Hc & Hu & Hst); [|apply Hg..].
  assert (Hfun' : (table_rank g = GTax -> f = None) /\ (table_rank g <> GTax -> currency <$> f = functional_currency g) /\
    forall m, f = Some m -> money_ok m /\ posted_units m = functional_units_of g + stored_units functional).
  { case_bool_decide; [injection Hfun as <-; by split_and!|].
    destruct (functional_currency g) as [c|] eqn:Ec; [|injection Hfun as <-; by split_and!].
    apply fmap_ok in Hfun as (m & Hm' & ->). apply final_amount_ok in Hm' as (Hok & Hmc & Hmu & _); [|apply Hg|by apply (go_fspec g Hg)].
    split_and!; [done|cbn; congruence|]. by intros ? [= <-]. }
  destruct Hfun' as (Ht & Hfc & Hfu). constructor; try done.
  - intros Hcase. destruct (_ && _) eqn:E in Hguard; [done|]. rewrite posted_ltb_zero in E.
    apply andb_false_iff in E as [E|E%Z.ltb_ge]; [|done]. apply orb_false_iff in E as [E1 E2%bool_decide_eq_false].
    destruct Hcase; congruence.
  - intros Hnt Hs. rewrite bool_decide_true, bool_decide_false in Hkeep by done. cbn in Hkeep.
    by apply match_functional_ok in Hkeep.
Qed.

(** ** One table *)

Section table.
Context {K X : Type} `{Countable K} (rank : GrainTable) (e : CacheEntity K X)
  (own_ties : X -> PostedMoney -> list GrainDelta -> Prop).

Definition belongs (k : K) (g : GrainDelta) : bool := bool_decide (table_rank g = rank) && bool_decide (ce_key e g = k).
Definition grains_at (k : K) (h : list GrainDelta) : list GrainDelta := List.filter (belongs k) h.

(** A row that holds the sums of the grains [gs]. *)
Record row_ties (r : CacheRow X) (gs : list GrainDelta) (balance : PostedMoney) (functional : option PostedMoney) : Prop := {
  rt_some : gs <> [];
  rt_currency g : g ∈ gs -> currency_spec g = currency balance;
  rt_account g : g ∈ gs -> gd_account_id g = cr_account_id r;
  rt_class g g' : g ∈ gs -> g' ∈ gs -> gd_account_class g = gd_account_class g';
  rt_balance : decode_balance r = Ok balance;
  rt_units : posted_units balance = sum_Z delta_units gs;
  rt_guard g : g ∈ gs -> is_guarded (gd_account_class g) = true \/ rank = GReusableCredit -> 0 <= posted_units balance;
  rt_functional : ce_functional e r = Ok functional;
  rt_functional_currency g : rank <> GTax -> g ∈ gs -> functional_currency g = currency <$> functional;
  rt_functional_units m : functional = Some m -> posted_units m = sum_Z functional_units_of gs;
  rt_own : own_ties (cr_own r) balance gs;
}.

Definition key_ties (t : gmap K (CacheRow X)) (h : list GrainDelta) (k : K) : Prop :=
  match t !! k with
  | Some r => exists balance functional, row_ties r (grains_at k h) balance functional
  | None => grains_at k h = []
  end.

Definition table_ties (t : gmap K (CacheRow X)) (h : list GrainDelta) : Prop := forall k, key_ties t h k.

(** What the proofs need of a writer. *)
Class EntityLaws : Prop := {
  law_key g s : table_rank s = rank -> identity g = identity s -> grain_ok g -> grain_ok s -> ce_key e g = ce_key e s;
  law_functional : rank <> GTax -> ce_functional e = decode_functional /\ ce_functional_currency e = functional_currency;
  law_tax : rank = GTax -> ce_functional e = (fun _ => Ok None);
  law_check g r u : ce_check e g r = Ok u -> cr_account_id r = gd_account_id g;
  law_class s r u b gs : grain_ok s -> table_rank s = rank -> Forall grain_ok gs ->
    (forall g, g ∈ gs -> table_rank g = rank) -> ce_check e s r = Ok u -> own_ties (cr_own r) b gs ->
    forall g, g ∈ gs -> gd_account_class g = gd_account_class s;
  law_fresh s gs b x : summarises s gs -> money_ok b -> currency b = currency_spec s ->
    ce_own e s None b = Ok x -> own_ties x b gs;
  law_update s gs r u b0 b old x : summarises s gs -> money_ok b -> currency b = currency_spec s ->
    decode_balance r = Ok b0 -> currency b0 = currency_spec s -> ce_check e s r = Ok u ->
    own_ties (cr_own r) b0 old -> ce_own e s (Some r) b = Ok x -> own_ties x b (old ++ gs);
  law_perm x b gs gs' : gs ≡ₚ gs' -> own_ties x b gs -> own_ties x b gs';
}.

Context `{!EntityLaws}.

Lemma grains_at_app k h1 h2 : grains_at k (h1 ++ h2) = grains_at k h1 ++ grains_at k h2.
Proof. apply List.filter_app. Qed.

Lemma same_rank g s : identity g = identity s -> table_rank g = table_rank s.
Proof. by intros [= Hr _]. Qed.

Lemma grains_at_key s gs : summarises s gs -> table_rank s = rank -> grains_at (ce_key e s) gs = gs.
Proof.
  intros Hs Hr. unfold grains_at. apply forallb_filter_id, forallb_forall. intros g Hg%list_elem_of_In.
  pose proof (sm_same _ _ Hs g Hg) as Hi. unfold belongs.
  rewrite bool_decide_true by (rewrite (same_rank _ _ Hi); done). apply bool_decide_eq_true.
  apply law_key; [done|done| |apply Hs]. pose proof (sm_all _ _ Hs) as Hall. rewrite Forall_forall in Hall. auto.
Qed.

Lemma grains_at_other s gs k : summarises s gs -> table_rank s <> rank \/ ce_key e s <> k -> grains_at k gs = [].
Proof.
  intros Hs Hne. unfold grains_at. destruct (List.filter _ gs) as [|g l] eqn:E; [done|exfalso].
  assert (Hg : g ∈ List.filter (belongs k) gs) by (rewrite E; left).
  apply elem_of_filter_bool in Hg as [[Hr%bool_decide_eq_true Hk%bool_decide_eq_true]%andb_true_iff Hg].
  pose proof (sm_same _ _ Hs g Hg) as Hi. destruct Hne as [Hne|Hne].
  - apply Hne. by rewrite <- (same_rank _ _ Hi).
  - apply Hne. rewrite <- Hk. symmetry. apply law_key; [by rewrite <- (same_rank _ _ Hi)|done| |apply Hs].
    pose proof (sm_all _ _ Hs) as Hall. rewrite Forall_forall in Hall. auto.
Qed.

Lemma table_ties_insert t h s gs r b f : table_ties t h -> summarises s gs -> table_rank s = rank ->
  row_ties r (grains_at (ce_key e s) h ++ gs) b f -> table_ties (<[ce_key e s := r]> t) (h ++ gs).
Proof.
  intros Ht Hs Hr Hrow k. unfold key_ties. rewrite grains_at_app.
  destruct (decide (k = ce_key e s)) as [->|Hk].
  - rewrite lookup_insert_eq, (grains_at_key s gs) by done. by exists b, f.
  - rewrite lookup_insert_ne, (grains_at_other s gs k Hs), app_nil_r by auto. apply Ht.
Qed.

(** The two ways a write succeeds. *)
Lemma upsert_cases t s seq t' : upsert e t s seq = Ok t' ->
  (exists b f x, t !! ce_key e s = None /\ final_balances s None None = Ok (b, f) /\ ce_own e s None b = Ok x /\
     t' = <[ce_key e s := fresh_row s (ce_functional_currency e s) b f seq x]> t) \/
  (exists r b0 f0 u b f x v, t !! ce_key e s = Some r /\ decode_balance r = Ok b0 /\ ce_functional e r = Ok f0 /\
     ce_check e s r = Ok u /\ final_balances s (Some b0) f0 = Ok (b, f) /\ ce_own e s (Some r) b = Ok x /\
     t' = <[ce_key e s := rewrite_row b f v seq x r]> t).
Proof.
  unfold upsert. cbn [t_find map_table]. destruct (t !! ce_key e s) as [r|] eqn:Hr; intros Hu.
  - right. apply bind_ok in Hu as (st & (b0 & Hb0%map_err_ok & ->)%fmap_ok & Hu).
    apply bind_ok in Hu as (f0 & Hf0%map_err_ok & Hu). apply bind_ok in Hu as (u & Hc & Hu).
    apply bind_ok in Hu as ([b f] & Hb & Hu). apply bind_ok in Hu as (x & Hx & Hu).
    apply bind_ok in Hu as (v & _ & Hu). cbn in Hu. unfold map_update in Hu. rewrite Hr, Z.eqb_refl in Hu.
    injection Hu as <-. by exists r, b0, f0, u, b, f, x, v.
  - left. cbn [mbind result_bind] in Hu. apply bind_ok in Hu as ([b f] & Hb & Hu). apply bind_ok in Hu as (x & Hx & Hu).
    apply ok_or_ok in Hu. cbn in Hu. unfold map_insert in Hu. rewrite Hr in Hu. injection Hu as <-. by exists b, f, x.
Qed.

Lemma functional_encoded f : (forall m, f = Some m -> money_ok m) ->
  decode_optional_money (encode_amount <$> f) (code <$> (currency <$> f)) (currency_scale <$> (currency <$> f)) = Ok f.
Proof. intros Hf. rewrite <- !option_fmap_compose. by apply decode_optional_encoded. Qed.

Lemma decode_functional_meta (r : CacheRow X) f : decode_functional r = Ok f ->
  cr_functional_currency r = code <$> (currency <$> f) /\
  cr_functional_currency_scale r = currency_scale <$> (currency <$> f).
Proof.
  unfold decode_functional, decode_optional_money. repeat case_match; try done; [|by intros [= <-]].
  intros (m & (_ & _ & _ & Hc & Hs)%decode_money_ok & ->)%fmap_ok. cbn. by rewrite Hc, Hs.
Qed.

Lemma fresh_row_ties s gs b f seq x : summarises s gs -> table_rank s = rank ->
  final_balances s None None = Ok (b, f) -> ce_own e s None b = Ok x ->
  row_ties (fresh_row s (ce_functional_currency e s) b f seq x) gs b f.
Proof.
  intros Hs Hr Hb%final_balances_ok Hx; [|apply Hs]. pose proof (sm_same _ _ Hs) as Hsame.
  assert (Hfields : forall g, g ∈ gs -> gd_account_id g = gd_account_id s /\ gd_account_class g = gd_account_class s /\
    currency_spec g = currency_spec s /\ functional_currency g = functional_currency s)
    by (intros g Hg; specialize (Hsame g Hg); unfold identity in Hsame; split_and!; congruence).
  pose proof (bo_currency _ _ _ _ _ Hb) as Hc. pose proof (bo_units _ _ _ _ _ Hb) as Hu. cbn in Hu.
  constructor; try (intros g Hg; destruct (Hfields g Hg) as (? & ? & ? & ?)); cbn.
  - apply Hs.
  - congruence.
  - done.
  - intros g g' Hg Hg'. destruct (Hfields _ Hg) as (_ & -> & _), (Hfields _ Hg') as (_ & -> & _). done.
  - apply decode_money_ok. destruct (bo_money _ _ _ _ _ Hb). split_and!; try done; cbn; rewrite Hc; [|done].
    symmetry. apply (go_code s), Hs.
  - rewrite Hu, (sm_delta _ _ Hs). lia.
  - intros Hcase. apply (bo_guard _ _ _ _ _ Hb). destruct Hcase; [left|right]; congruence.
  - destruct (decide (rank = GTax)) as [Et|Et].
    + rewrite (law_tax Et). by rewrite (bo_tax _ _ _ _ _ Hb) by congruence.
    + destruct (law_functional Et) as [-> ->]. unfold decode_functional; cbn.
      rewrite <- (bo_functional _ _ _ _ _ Hb) by congruence. apply functional_encoded.
      intros m Hm. by apply (bo_functional_units _ _ _ _ _ Hb).
  - intros g Hnt Hg. destruct (Hfields _ Hg) as (? & ? & ? & ->). symmetry. apply (bo_functional _ _ _ _ _ Hb). congruence.
  - intros m Hm. destruct (bo_functional_units _ _ _ _ _ Hb m Hm) as [_ ->]. cbn. rewrite (sm_functional _ _ Hs). lia.
  - by eapply law_fresh; [..|exact Hx]; [|apply Hb|].
Qed.

Lemma updated_row_ties s gs old r b0 f0 u b f x v seq : summarises s gs -> table_rank s = rank ->
  Forall grain_ok old -> (forall g, g ∈ old -> table_rank g = rank) -> row_ties r old b0 f0 ->
  ce_check e s r = Ok u -> final_balances s (Some b0) f0 = Ok (b, f) -> ce_own e s (Some r) b = Ok x ->
  row_ties (rewrite_row b f v seq x r) (old ++ gs) b f.
Proof.
  intros Hs Hr Hok Hranks Hrow Hc Hb%final_balances_ok Hx; [|apply Hs]. pose proof (sm_same _ _ Hs) as Hsame.
  pose proof (bo_currency _ _ _ _ _ Hb) as Hcur. pose proof (bo_stored _ _ _ _ _ Hb b0 eq_refl) as Hcur0.
  assert (Hclass : forall g, g ∈ old -> gd_account_class g = gd_account_class s)
    by (intros g; by eapply law_class; [..|exact Hc|apply Hrow]; [apply Hs|..]).
  assert (Hfields : forall g, g ∈ old ++ gs -> gd_account_id g = cr_account_id r /\
    gd_account_class g = gd_account_class s /\ currency_spec g = currency_spec s /\
    (rank <> GTax -> functional_currency g = functional_currency s)).
  { intros g [Hg|Hg]%elem_of_app.
    - split_and!; [by apply (rt_account _ _ _ _ Hrow)|by apply Hclass|by rewrite (rt_currency _ _ _ _ Hrow g Hg)|].
      intros Hnt. rewrite (rt_functional_currency _ _ _ _ Hrow g Hnt Hg). apply (bo_keeps _ _ _ _ _ Hb); [congruence|done].
    - specialize (Hsame g Hg). unfold identity in Hsame. rewrite (law_check _ _ _ Hc). split_and!; intros; congruence. }
  destruct (proj1 (decode_money_ok _ _ _ _) (rt_balance _ _ _ _ Hrow)) as (_ & _ & _ & Hcode & Hscale).
  constructor; cbn [cr_own rewrite_row].
  - destruct gs; [by destruct (sm_some _ _ Hs)|by destruct old].
  - intros g Hg. rewrite Hcur. by apply Hfields.
  - intros g Hg. by apply Hfields.
  - intros g g' Hg Hg'. by rewrite (proj1 (proj2 (Hfields g Hg))), (proj1 (proj2 (Hfields g' Hg'))).
  - apply decode_money_ok. destruct (bo_money _ _ _ _ _ Hb). cbn. split_and!; try done; congruence.
  - rewrite (bo_units _ _ _ _ _ Hb), sum_Z_app, (sm_delta _ _ Hs). cbn. rewrite (rt_units _ _ _ _ Hrow). lia.
  - intros g Hg Hcase. apply (bo_guard _ _ _ _ _ Hb). rewrite (proj1 (proj2 (Hfields g Hg))) in Hcase.
    destruct Hcase; [by left|right; congruence].
  - pose proof (rt_functional _ _ _ _ Hrow) as Hf0. destruct (decide (rank = GTax)) as [Et|Et].
    + rewrite (law_tax Et). by rewrite (bo_tax _ _ _ _ _ Hb) by congruence.
    + destruct (law_functional Et) as [Ef _]. rewrite Ef in *. apply decode_functional_meta in Hf0 as [Hfc Hfs].
      unfold decode_functional; cbn. rewrite Hfc, Hfs.
      assert (Heq : currency <$> f0 = currency <$> f).
      { rewrite (bo_functional _ _ _ _ _ Hb) by congruence. apply (bo_keeps _ _ _ _ _ Hb); [congruence|done]. }
      rewrite Heq. apply functional_encoded. intros m Hm. by apply (bo_functional_units _ _ _ _ _ Hb).
  - intros g Hnt Hg. rewrite (bo_functional _ _ _ _ _ Hb) by congruence. by apply Hfields.
  - intros m Hm. destruct (bo_functional_units _ _ _ _ _ Hb m Hm) as [_ ->]. rewrite sum_Z_app, (sm_functional _ _ Hs).
    destruct f0 as [m0|]; cbn; [rewrite (rt_functional_units _ _ _ _ Hrow m0 eq_refl); lia|].
    exfalso. destruct (decide (rank = GTax)); [by rewrite (bo_tax _ _ _ _ _ Hb) in Hm by congruence|].
    pose proof (bo_keeps _ _ _ _ _ Hb ltac:(congruence) ltac:(done)) as Hk.
    rewrite <- (bo_functional _ _ _ _ _ Hb), Hm in Hk by congruence. done.
  - eapply law_update; [exact Hs|apply Hb|done|apply Hrow|done|exact Hc|apply Hrow|exact Hx].
Qed.

Lemma grains_at_ranks k h g : g ∈ grains_at k h -> table_rank g = rank.
Proof. by intros [[Hr%bool_decide_eq_true _]%andb_true_iff _]%elem_of_filter_bool. Qed.

Lemma grains_at_ok k h : Forall grain_ok h -> Forall grain_ok (grains_at k h).
Proof.
  rewrite !Forall_forall. intros Hh g [_ Hg]%elem_of_filter_bool. by apply Hh.
Qed.

(** A write extends the history its table ties to. *)
Lemma upsert_ties t h s gs seq t' : table_ties t h -> Forall grain_ok h -> summarises s gs ->
  table_rank s = rank -> upsert e t s seq = Ok t' -> table_ties t' (h ++ gs).
Proof.
  intros Ht Hok Hs Hr Hu. pose proof (Ht (ce_key e s)) as Hk. unfold key_ties in Hk.
  destruct (upsert_cases _ _ _ _ Hu) as [(b & f & x & Hn & Hb & Hx & ->)|(r & b0 & f0 & u & b & f & x & v & Hn & Hb0 & Hf0 & Hc & Hb & Hx & ->)];
    rewrite Hn in Hk.
  - eapply table_ties_insert; [done..|]. rewrite Hk. by apply fresh_row_ties.
  - destruct Hk as (b1 & f1 & Hrow).
    assert (b1 = b0) as -> by (pose proof (rt_balance _ _ _ _ Hrow); congruence).
    assert (f1 = f0) as -> by (pose proof (rt_functional _ _ _ _ Hrow); congruence).
    eapply table_ties_insert; [done..|]. eapply updated_row_ties; try done; [by apply grains_at_ok|].
    intros g. apply grains_at_ranks.
Qed.

(** Grains of another table leave it alone. *)
Lemma other_ties t h s gs : table_ties t h -> summarises s gs -> table_rank s <> rank -> table_ties t (h ++ gs).
Proof.
  intros Ht Hs Hr k. unfold key_ties. rewrite grains_at_app, (grains_at_other s gs k Hs), app_nil_r by auto. apply Ht.
Qed.

(** The order of the history does not matter. *)
Lemma table_ties_perm t h h' : h ≡ₚ h' -> table_ties t h -> table_ties t h'.
Proof.
  intros Hp Ht k. specialize (Ht k). unfold key_ties in *.
  assert (Hg : grains_at k h ≡ₚ grains_at k h') by (unfold grains_at; by rewrite Hp).
  destruct (t !! k) as [r|]; [|rewrite Ht in Hg; by apply Permutation_nil in Hg].
  destruct Ht as (b & f & Hrow). exists b, f. destruct Hrow as [Hne Hcur Hacc Hcls Hb Hu Hgd Hf Hfc Hfu Hown].
  constructor; try done; try (by setoid_rewrite <- Hg).
  - intros Hnil. rewrite Hnil in Hg. symmetry in Hg. by apply Permutation_nil in Hg.
  - by rewrite <- (sum_Z_perm _ _ _ Hg).
  - intros m Hm. rewrite <- (sum_Z_perm _ _ _ Hg). by apply Hfu.
  - by eapply law_perm.
Qed.
End table.

(** ** The six tables *)

Definition no_own {X} (x : X) (b : PostedMoney) (gs : list GrainDelta) : Prop := True.

(** The class and the normal side of an account row are those of every line that moved it. *)
Definition account_own (x : AccountColumns) (b : PostedMoney) (gs : list GrainDelta) : Prop :=
  forall g, g ∈ gs -> ac_account_class x = as_str (gd_account_class g) /\ ac_normal_side x = as_str (gd_normal_side g).

(** The disputed part of an invoice is the sum of its disputed lines, within the balance. *)
Definition invoice_own (x : InvoiceColumns) (b : PostedMoney) (gs : list GrainDelta) : Prop :=
  exists d, decode_money (ic_disputed x) (code (currency b)) (currency_scale (currency b)) = Ok d /\
    posted_units d = sum_Z disputed_units gs /\ 0 <= posted_units d <= posted_units b.

(** Equal identities have equal keys: the sort key has the columns of the key, or they are
    among the fields the merge compares. *)
Ltac solve_key :=
  let Hr := fresh in let Hi := fresh in let Hg := fresh in let Hs := fresh in
  intros ? ? Hr Hi Hg Hs; pose proof (same_rank _ _ Hi) as Hrank; unfold identity, sort_key in Hi;
  rewrite Hrank, Hr in Hi; cbn; rewrite ?(go_code _ Hg), ?(go_code _ Hs); congruence.

(** The class of a table other than the first is fixed. *)
Lemma class_by_rank rank cls s gs : rank_class rank = Some cls -> grain_ok s -> table_rank s = rank ->
  Forall grain_ok gs -> (forall g, g ∈ gs -> table_rank g = rank) ->
  forall g, g ∈ gs -> gd_account_class g = gd_account_class s.
Proof.
  intros Hc Hs Hr Hall Hranks g Hg. rewrite Forall_forall in Hall.
  rewrite (go_class g (Hall g Hg) cls) by by rewrite Hranks. by rewrite (go_class s Hs cls) by by rewrite Hr.
Qed.

Lemma check_account_ok {X} g (r : CacheRow X) u : check_account g r = Ok u -> cr_account_id r = gd_account_id g.
Proof. unfold check_account. by intros Hb%ensure_ok%bool_decide_eq_true. Qed.

#[local] Instance ar_payer_laws : EntityLaws GArPayer ar_payer_entity no_own.
Proof.
  constructor; try done; [solve_key|intros ???; apply check_account_ok|].
  intros. by eapply (class_by_rank GArPayer).
Qed.

#[local] Instance unallocated_laws : EntityLaws GUnallocated unallocated_entity no_own.
Proof.
  constructor; try done; [solve_key|intros ???; apply check_account_ok|].
  intros. by eapply (class_by_rank GUnallocated).
Qed.

#[local] Instance reusable_credit_laws : EntityLaws GReusableCredit reusable_credit_entity no_own.
Proof.
  constructor; try done; [solve_key|intros ???; apply check_account_ok|].
  intros. by eapply (class_by_rank GReusableCredit).
Qed.

#[local] Instance tax_laws : EntityLaws GTax tax_entity no_own.
Proof.
  constructor; try done; [solve_key|intros ???; apply check_account_ok|].
  intros. by eapply (class_by_rank GTax).
Qed.

Lemma account_check_ok g r u : ce_check account_entity g r = Ok u ->
  cr_account_id r = gd_account_id g /\ ac_account_class (cr_own r) = as_str (gd_account_class g) /\
  ac_normal_side (cr_own r) = as_str (gd_normal_side g).
Proof.
  cbn [ce_check account_entity]. intros (v & Ha%check_account_ok & Hb%ensure_ok)%bind_ok. by bool_to_prop.
Qed.

#[local] Instance account_laws : EntityLaws GAccount account_entity account_own.
Proof.
  constructor; try done; [solve_key|..].
  - by intros g r u (? & _)%account_check_ok.
  - intros s r u b gs _ _ _ _ (_ & Hc & _)%account_check_ok Hown g Hg. destruct (Hown g Hg) as [Hc' _].
    apply as_str_inj. congruence.
  - intros s gs b x Hs _ _ [= <-] g Hg. pose proof (sm_same _ _ Hs g Hg) as Hi. unfold identity in Hi.
    cbn [ac_account_class ac_normal_side]. split; f_equal; congruence.
  - intros s gs r u b0 b old x Hs _ _ _ _ (_ & Hc & Hn)%account_check_ok Hown [= <-] g [Hg|Hg]%elem_of_app; [by apply Hown|].
    pose proof (sm_same _ _ Hs g Hg) as Hi. unfold identity in Hi. rewrite Hc, Hn. split; f_equal; congruence.
  - intros x b gs gs' Hp Hown g. rewrite <- Hp. apply Hown.
Qed.

Lemma disputed_inside d b : disputed_outside d b = false -> 0 <= posted_units d <= posted_units b.
Proof.
  unfold disputed_outside. rewrite posted_ltb_zero, dec_ltb_posted. intros. bool_to_prop. lia.
Qed.

#[local] Instance ar_invoice_laws : EntityLaws GArInvoice ar_invoice_entity invoice_own.
Proof.
  constructor; try done; [solve_key|intros ???; apply check_account_ok|intros; by eapply (class_by_rank GArInvoice)|..].
  - intros s gs b x Hs Hm Hc. cbn [ce_own ar_invoice_entity]. unfold ar_invoice_disputed. cbn [mbind result_bind].
    intros (d & Hd & Hx)%bind_ok. apply final_amount_ok in Hd as ([Hp Hv] & Hdc & Hu & _); [|apply Hs..].
    destruct (disputed_outside d b) eqn:Ho; [done|]. injection Hx as <-. exists d. rewrite Hc, <- Hdc.
    split; [by apply decode_money_ok|split; [|by apply disputed_inside]].
    fold (disputed_units s) in Hu. rewrite Hu, <- (sm_disputed _ _ Hs). cbn. lia.
  - intros s gs r u b0 b old x Hs Hm Hc Hb0 Hc0 _ (d0 & Hd0 & Hu0 & _). cbn [ce_own ar_invoice_entity].
    pose proof (proj1 (decode_money_ok _ _ _ _) Hb0) as (_ & _ & _ & Hcode & Hscale).
    unfold ar_invoice_disputed. rewrite Hcode, Hscale in Hd0. rewrite Hd0, Hb0. cbn [map_err fmap result_fmap mbind result_bind].
    destruct (disputed_outside d0 b0); [done|]. cbn [mbind result_bind].
    intros (d & Hd & Hx)%bind_ok. apply final_amount_ok in Hd as ([Hp Hv] & Hdc & Hu & _); [|apply Hs..].
    destruct (disputed_outside d b) eqn:Ho; [done|]. injection Hx as <-. exists d. rewrite Hc, <- Hdc.
    split; [by apply decode_money_ok|split; [|by apply disputed_inside]].
    fold (disputed_units s) in Hu. rewrite Hu, sum_Z_app, <- (sm_disputed _ _ Hs). cbn. lia.
  - intros x b gs gs' Hp (d & Hd & Hu & Hr). exists d. by rewrite <- (sum_Z_perm _ _ _ Hp).
Qed.

Record caches_tie (c : Caches) (h : list GrainDelta) : Prop := {
  ct_ok : Forall grain_ok h;
  ct_account : table_ties GAccount account_entity account_own (account_balance c) h;
  ct_ar_payer : table_ties GArPayer ar_payer_entity no_own (ar_payer_balance c) h;
  ct_ar_invoice : table_ties GArInvoice ar_invoice_entity invoice_own (ar_invoice_balance c) h;
  ct_unallocated : table_ties GUnallocated unallocated_entity no_own (unallocated_balance c) h;
  ct_reusable_credit : table_ties GReusableCredit reusable_credit_entity no_own (reusable_credit_subbalance c) h;
  ct_tax : table_ties GTax tax_entity no_own (tax_subbalance c) h;
}.

Lemma caches_tie_empty : caches_tie no_caches [].
Proof. by constructor. Qed.

Lemma caches_tie_perm c h h' : h ≡ₚ h' -> caches_tie c h -> caches_tie c h'.
Proof.
  intros Hp []. constructor; [by rewrite <- Hp|..]; by eapply table_ties_perm; [apply _|done|].
Qed.

Lemma project_grain_ties c h s gs seq c' : caches_tie c h -> summarises s gs ->
  project_grain seq c s = Ok c' -> caches_tie c' (h ++ gs).
Proof.
  intros [Hok H1 H2 H3 H4 H5 H6] Hs. unfold project_grain.
  destruct (table_rank s) eqn:Hr; intros (t & Hu & [= <-])%bind_ok;
    (constructor; cbn; [apply Forall_app_2; [done|apply Hs]|..]);
    first [eapply upsert_ties; [apply _|eassumption..] | eapply other_ties; [apply _|eassumption..|congruence]].
Qed.

Lemma project_grains_tie seq gs : forall parts c h c', caches_tie c h -> Forall2 summarises gs parts ->
  fold_res (project_grain seq) c gs = Ok c' -> caches_tie c' (h ++ mjoin parts).
Proof.
  induction gs as [|s gs IH]; intros parts c h c' Hc Hp; cbn [fold_res].
  - apply Forall2_nil_inv_l in Hp as ->. intros [= <-]. by rewrite app_nil_r.
  - apply Forall2_cons_inv_l in Hp as (part & parts' & Hs & Hp & ->). intros (c1 & H1 & Hrest)%bind_ok.
    cbn. rewrite app_assoc. eapply IH; [|done..]. by eapply project_grain_ties.
Qed.

(** ** An entry *)

Record line_valid (l : NewLine) : Prop := {
  lv_money : money_ok (nl_money l);
  lv_functional : option_ok money_ok (nl_functional_money l);
}.

Lemma signed_amount_grid ns l m : on_grid (signed_amount ns l m).
Proof. apply from_decimal_grid. Qed.

Lemma zero_grid : on_grid (from_decimal ZERO).
Proof. apply from_decimal_grid. Qed.

#[local] Hint Resolve signed_amount_grid zero_grid : core.

Lemma base_grain_ok en l ns : line_valid l -> grain_ok (base_grain en l ns).
Proof.
  intros [[Hp Hv] Hf]. constructor; cbn; try done.
  - by destruct (nl_functional_money l).
  - by split; [apply Hp|].
  - intros c. destruct (nl_functional_money l) as [m|]; [|done]. cbn. intros [= <-].
    destruct (Hf m eq_refl) as [Hmp Hmv]. by split; [apply Hmp|].
Qed.

Lemma line_grains_ok en sides l gs : line_valid l -> line_grains en sides l = Ok gs -> Forall grain_ok gs.
Proof.
  intros Hl. unfold line_grains. intros (ns & _ & Hg)%bind_ok. pose proof (base_grain_ok en l ns Hl) as Hb.
  assert (Hinv : forall inv, nl_account_class l = Ar -> grain_ok (invoice_grain l inv (base_grain en l ns)))
    by (intros inv Hc; destruct Hb; constructor; cbn in *; try done; [by case_bool_decide|by intros cls [= <-]]).
  destruct (nl_account_class l) eqn:Hc; try (injection Hg as <-; by constructor).
  - injection Hg as <-. constructor; [done|]. constructor; [by destruct Hb; constructor; cbn in *; try done; intros cls [= <-]|].
    destruct (nl_invoice_id l); constructor; auto.
  - injection Hg as <-. constructor; [done|]. constructor; [|done]. by destruct Hb; constructor; cbn in *; try done; intros cls [= <-].
  - apply bind_ok in Hg as (ev & _ & [= <-]). constructor; [done|]. constructor; [|done].
    by destruct Hb; constructor; cbn in *; try done; intros cls [= <-].
  - injection Hg as <-. constructor; [done|]. destruct (nl_tax_jurisdiction l), (nl_tax_filing_period l); try by constructor.
    constructor; [|done]. by destruct Hb; constructor; cbn in *; try done; intros cls [= <-].
Qed.

Lemma entry_grains_ok en ls sides gs : Forall line_valid ls -> entry_grains en ls sides = Ok gs -> Forall grain_ok gs.
Proof.
  unfold entry_grains. intros Hv (gss & Hm%map_res_ok & [= <-])%bind_ok.
  induction Hm as [|l gs' ls gss Hl _ IH]; cbn; [constructor|]. apply Forall_cons in Hv as [Hv1 Hv].
  apply Forall_app_2; [by eapply line_grains_ok|by apply IH].
Qed.

(** A projection extends the history by the grains of its entry. *)
Lemma project_ties c h en ls sides seq c' : caches_tie c h -> Forall line_valid ls ->
  project c en ls sides seq = Ok c' ->
  exists gs, entry_grains en ls sides = Ok gs /\ caches_tie c' (h ++ gs).
Proof.
  intros Hc Hv. unfold project, derive_grains.
  intros (gs & (raw & Hraw & (acc & Hacc & ->)%fmap_ok)%bind_ok & Hp)%bind_ok. exists raw. split; [done|].
  destruct (coalesce_ok (sort_by grain_cmp raw) [] [] acc) as (parts & Hparts & Hperm); [constructor| |done|].
  { rewrite sort_by_perm. by eapply entry_grains_ok. }
  eapply (project_grains_tie seq _ (reverse parts)) in Hp; [|done|by apply Forall2_reverse].
  eapply caches_tie_perm; [|done]. f_equiv. rewrite <- (sort_by_perm grain_cmp raw). cbn in Hperm. rewrite <- Hperm.
  apply join_Permutation, reverse_Permutation.
Qed.

End rows.
