(* ===== verification/Idempotency.v ===== *)
(** * The idempotency gate: [ledger/src/infra/posting/idempotency.rs]

    One row of [idempotency_dedup] per business key (tenant, flow, business id) makes a
    posting happen at most once: the first transaction that inserts the row owns the
    key, every other one reads the row back.  The table is a finite map from the key.
    The file models the claim, the read, the stamp of the result and the digests a
    claim carries, and shows what a digest binds.  The text of a date ([chrono]) is the
    class [DateText]. *)

From S2P Require Import Prelude Decimal Money ExactGrid Table DomainErrors MoneyText Sdk Json Canonical Chain.

(** [NaiveDate::to_string]: different dates have different texts. *)
Class DateText := {
  date_to_string : NaiveDate -> string;
  date_to_string_inj d1 d2 : date_to_string d1 = date_to_string d2 -> d1 = d2;
}.

Definition FLOW_SCHEDULE_CHANGE : string := "SCHEDULE_CHANGE".
Definition STATUS_CLAIMED : string := "CLAIMED".
Definition STATUS_POSTED : string := "POSTED".
Definition STATUS_QUEUED : string := "QUEUED".

Abbreviation DedupKey := (Uuid * string * string)%type.

Record DedupRow := mkDedupRow {
  dd_payload_hash : string;
  dd_result_entry_id : option Uuid;
  dd_result_schedule_id : option string;
  dd_posted_at_utc : option OffsetDateTime;
  dd_status : string;
  dd_retain_until : option OffsetDateTime;
}.

Abbreviation Dedup := (gmap DedupKey DedupRow).

Record PostingRefRow := mkPostingRefRow {
  pr_payload_hash : string;
  pr_result_entry_id : option Uuid;
  pr_status : string;
}.

Inductive ClaimOutcome := Claimed | ClaimReplay (row : PostingRefRow).

Definition ref_row (row : DedupRow) : PostingRefRow :=
  mkPostingRefRow (dd_payload_hash row) (dd_result_entry_id row) (dd_status row).

(** [INSERT .. ON CONFLICT DO NOTHING], then the read-back of a conflict. *)
Definition claim_with_status (db : Dedup) (tenant : Uuid) (flow business_id payload_hash seed_status : string) :
    result RepoError (ClaimOutcome * Dedup) :=
  match t_insert db (tenant, flow, business_id) (mkDedupRow payload_hash None None None seed_status None) with
  | Some db => Ok (Claimed, db)
  | None =>
      row ← ok_or (t_find db (tenant, flow, business_id)) RepoError.RowVanished;
      Ok (ClaimReplay (ref_row row), db)
  end.

Definition claim (db : Dedup) (tenant : Uuid) (flow business_id payload_hash : string) :
    result RepoError (ClaimOutcome * Dedup) :=
  claim_with_status db tenant flow business_id payload_hash STATUS_CLAIMED.

Definition claim_queued (db : Dedup) (tenant : Uuid) (flow business_id payload_hash : string) :
    result RepoError (ClaimOutcome * Dedup) :=
  claim_with_status db tenant flow business_id payload_hash STATUS_QUEUED.

Definition read_dedup (db : Dedup) (tenant : Uuid) (flow business_id : string) : option PostingRefRow :=
  ref_row <$> t_find db (tenant, flow, business_id).

Definition store_schedule_change_result (db : Dedup) (tenant : Uuid) (change_id payload_hash : string)
    (successor : option string) : result RepoError Dedup :=
  let '(db, rows_affected) :=
    t_update db (tenant, FLOW_SCHEDULE_CHANGE, change_id)
      (fun row => bool_decide (dd_payload_hash row = payload_hash) && bool_decide (dd_status row = STATUS_CLAIMED)
                  && bool_decide (dd_result_entry_id row = None) && bool_decide (dd_result_schedule_id row = None))
      (fun row => mkDedupRow (dd_payload_hash row) (dd_result_entry_id row) successor (dd_posted_at_utc row)
                    (dd_status row) (dd_retain_until row)) in
  if negb (rows_affected =? 1) then Err RepoError.RowVanished else Ok db.

Definition read_schedule_change_result (db : Dedup) (tenant : Uuid) (change_id : string) :
    result RepoError (option string) :=
  row ← ok_or (t_find db (tenant, FLOW_SCHEDULE_CHANGE, change_id)) RepoError.RowVanished;
  if bool_decide (dd_status row <> STATUS_CLAIMED) || bool_decide (dd_result_entry_id row <> None)
     || bool_decide (dd_result_schedule_id row = Some "")
  then Err RepoError.Db
  else Ok (dd_result_schedule_id row).

Definition finalize (db : Dedup) (tenant : Uuid) (flow business_id : string) (entry_id : Uuid)
    (now : OffsetDateTime) : result RepoError Dedup :=
  let '(db, rows_affected) :=
    t_update db (tenant, flow, business_id) (fun _ => true)
      (fun row => mkDedupRow (dd_payload_hash row) (Some entry_id) (dd_result_schedule_id row) (Some now)
                    STATUS_POSTED (dd_retain_until row)) in
  if rows_affected =? 0 then Err RepoError.RowVanished else Ok db.

(** ** Digests *)

Section digests.
Context `{DecimalText} `{!Sha256} `{!DateText}.

Definition PAYLOAD_DOMAIN_SEP : Bytes := bytes "VHP-BSS-LEDGER-PAYLOAD-v1" ++ [unit_separator].

(** [Ord] of [Vec<u8>]. *)
Fixpoint bytes_cmp (a b : Bytes) : comparison :=
  match a, b with
  | [], [] => Eq
  | [], _ :: _ => Lt
  | _ :: _, [] => Gt
  | x :: a, y :: b => then_with (Z.compare (byte_code x) (byte_code y)) (bytes_cmp a b)
  end.

Definition payload_line_key (line : NewLine) : Bytes :=
  let key := [] in
  let key := put_uuid key (nl_account_id line) in
  let key := put_str key (as_str (nl_account_class line)) in
  let key := put_money key (nl_money line) in
  let key := put_str key (as_str (nl_side line)) in
  let key := put_uuid key (nl_payer_tenant_id line) in
  let key := put_opt_uuid key (nl_seller_tenant_id line) in
  let key := put_opt_str key (nl_invoice_id line) in
  let key := put_opt_str key (date_to_string <$> nl_due_date line) in
  let key := put_opt_str key (nl_revenue_stream line) in
  let key := put_opt_money key (nl_functional_money line) in
  let key := put_opt_str key (nl_tax_jurisdiction line) in
  let key := put_opt_str key (nl_tax_filing_period line) in
  let key := put_opt_str key (nl_credit_grant_event_type line) in
  put_opt_str key (nl_ar_status line).

Definition payload_bytes (entry : NewEntry) (lines : list NewLine) : Bytes :=
  let canon := PAYLOAD_DOMAIN_SEP in
  let canon := put_str canon (as_str (ne_source_doc_type entry)) in
  let canon := put_str canon (ne_source_business_id entry) in
  let canon := put_str canon (ne_entry_currency entry) in
  let canon := put_str canon (date_to_string (ne_effective_at entry)) in
  let canon := put_str canon (ne_period_id entry) in
  let keys := sort_by bytes_cmp (payload_line_key <$> lines) in
  let canon := put canon (be_bytes 8 (Z.of_nat (length keys))) in
  foldl put canon keys.

Definition payload_hash (entry : NewEntry) (lines : list NewLine) : string :=
  digest32_hex (payload_bytes entry lines).

Definition content_hash (canonical : string) : string :=
  String.string_of_list_ascii (flat_map hex_byte (sha256 (bytes canonical))).

(** ** What the gate promises *)

Lemma claim_with_status_exact db tenant flow business_id h status :
  claim_with_status db tenant flow business_id h status =
  Ok (match db !! (tenant, flow, business_id) with
      | Some row => (ClaimReplay (ref_row row), db)
      | None => (Claimed, <[(tenant, flow, business_id) := mkDedupRow h None None None status None]> db)
      end).
Proof.
  unfold claim_with_status. cbn. unfold map_insert.
  by destruct (db !! (tenant, flow, business_id)).
Qed.

Lemma finalize_ok db tenant flow business_id id now db' : finalize db tenant flow business_id id now = Ok db' <->
  exists row, db !! (tenant, flow, business_id) = Some row /\
    db' = <[(tenant, flow, business_id) := mkDedupRow (dd_payload_hash row) (Some id) (dd_result_schedule_id row)
              (Some now) STATUS_POSTED (dd_retain_until row)]> db.
Proof.
  unfold finalize. cbn. unfold map_update. destruct (db !! (tenant, flow, business_id)) as [row|].
  - split; [intros [= <-]; by exists row|]. by intros (row' & [= <-] & ->).
  - split; [done|]. by intros (row & [=] & _).
Qed.

(** ** What a payload digest binds *)

Definition unhex_digit (c : Ascii.ascii) : Z := if byte_code c <? 58 then byte_code c - 48 else byte_code c - 87.
Definition unhex_byte (l : list Ascii.ascii) : Ascii.ascii :=
  match l with
  | [h; l] => Ascii.ascii_of_nat (Z.to_nat (unhex_digit h * 16 + unhex_digit l))
  | _ => Ascii.zero
  end.

Lemma unhex_hex c : unhex_byte (hex_byte c) = c.
Proof. destruct c as [[] [] [] [] [] [] [] []]; reflexivity. Qed.

Lemma hex_bytes_inj a : forall b, flat_map hex_byte a = flat_map hex_byte b -> a = b.
Proof.
  induction a as [|x a IH]; intros [|y b] Heq; try done. cbn [flat_map] in Heq.
  apply app_inj_1 in Heq as [Hx Ha]; [|done]. f_equal; [|by apply IH].
  by rewrite <- (unhex_hex x), Hx, unhex_hex.
Qed.

Lemma digest32_hex_inj a b : digest32_hex a = digest32_hex b -> digest32 a = digest32 b.
Proof.
  unfold digest32_hex. intros Heq%(f_equal String.list_ascii_of_string).
  rewrite !String.list_ascii_of_string_of_list_ascii in Heq. by apply hex_bytes_inj.
Qed.

Lemma bytes_cmp_eq a : forall b, bytes_cmp a b = Eq <-> a = b.
Proof.
  induction a as [|x a IH]; intros [|y b]; cbn; try by split.
  destruct (Z.compare (byte_code x) (byte_code y)) eqn:E; cbn; split; try done.
  - intros ->%IH. f_equal. apply Z.compare_eq, Nat2Z.inj in E.
    by rewrite <- (Ascii.ascii_nat_embedding x), E, Ascii.ascii_nat_embedding.
  - intros [= -> ->]. by apply IH.
  - intros [= -> ->]. by rewrite Z.compare_refl in E.
  - intros [= -> ->]. by rewrite Z.compare_refl in E.
Qed.

Lemma bytes_cmp_antisym a : forall b, bytes_cmp b a = CompOpp (bytes_cmp a b).
Proof.
  induction a as [|x a IH]; intros [|y b]; cbn; try done. rewrite IH, (Z.compare_antisym (byte_code x) (byte_code y)).
  by destruct (Z.compare (byte_code x) (byte_code y)).
Qed.

Lemma bytes_le_trans a : forall b c, cmp_le bytes_cmp a b -> cmp_le bytes_cmp b c -> cmp_le bytes_cmp a c.
Proof.
  unfold cmp_le. induction a as [|x a IH]; intros [|y b] [|z c]; cbn; try done.
  destruct (Z.compare_spec (byte_code x) (byte_code y)) as [Exy|Exy|Exy]; cbn; [..|done].
  - rewrite Exy. destruct (Z.compare (byte_code y) (byte_code z)); cbn; [apply IH|done|done].
  - intros _. destruct (Z.compare_spec (byte_code y) (byte_code z)) as [Eyz|Eyz|Eyz]; cbn; [..|done];
      intros _; rewrite (proj2 (Z.compare_lt_iff _ _)); [done|lia|done|lia].
Qed.

#[export] Instance bytes_total_cmp : TotalCmp bytes_cmp.
Proof. split; [apply bytes_cmp_antisym|apply bytes_le_trans]. Qed.

Definition payload_line_fields (l : NewLine) : list (option Bytes) :=
  [present (uuid_bytes (nl_account_id l)); present (bytes (as_str (nl_account_class l)))]
  ++ money_fields (nl_money l)
  ++ [present (bytes (as_str (nl_side l))); present (uuid_bytes (nl_payer_tenant_id l));
      uuid_bytes <$> nl_seller_tenant_id l; bytes <$> nl_invoice_id l;
      bytes <$> (date_to_string <$> nl_due_date l); bytes <$> nl_revenue_stream l]
  ++ opt_money_fields (nl_functional_money l)
  ++ [bytes <$> nl_tax_jurisdiction l; bytes <$> nl_tax_filing_period l;
      bytes <$> nl_credit_grant_event_type l; bytes <$> nl_ar_status l].

Definition payload_entry_fields (e : NewEntry) : list (option Bytes) :=
  [present (bytes (as_str (ne_source_doc_type e))); present (bytes (ne_source_business_id e));
   present (bytes (ne_entry_currency e)); present (bytes (date_to_string (ne_effective_at e)));
   present (bytes (ne_period_id e))].

(** The financial content: what the digest covers. *)
Definition payload_line (l : NewLine) :=
  (nl_account_id l, nl_account_class l, nl_money l, nl_side l, nl_payer_tenant_id l, nl_seller_tenant_id l,
   nl_invoice_id l, nl_due_date l, nl_revenue_stream l, nl_functional_money l, nl_tax_jurisdiction l,
   nl_tax_filing_period l, nl_credit_grant_event_type l, nl_ar_status l).

Definition payload_entry (e : NewEntry) :=
  (ne_source_doc_type e, ne_source_business_id e, ne_entry_currency e, ne_effective_at e, ne_period_id e).

(** What the code base guarantees: 128-bit identifiers, valid money, fields below 4 GiB. *)
Record payload_ok (e : NewEntry) (ls : list NewLine) : Prop := {
  py_entry : Forall small_field (payload_entry_fields e);
  py_lines l : l ∈ ls -> Forall small_field (payload_line_fields l) /\ small_field (present (payload_line_key l));
  py_uuids l : l ∈ ls -> uuid_ok (nl_account_id l) /\ uuid_ok (nl_payer_tenant_id l) /\
    option_ok uuid_ok (nl_seller_tenant_id l);
  py_money l : l ∈ ls -> money_ok (nl_money l) /\ option_ok money_ok (nl_functional_money l);
  py_count : Z.of_nat (length ls) < 2 ^ 64;
}.

Lemma payload_line_key_fields l : payload_line_key l = flat_map frame (payload_line_fields l).
Proof.
  unfold payload_line_key, payload_line_fields. rewrite !flat_map_app, put_opt_money_frame, put_money_frame. by to_frames.
Qed.

Lemma put_keys_frame keys : forall buf, foldl put buf keys = buf ++ flat_map frame (present <$> keys).
Proof.
  induction keys as [|k keys IH]; intros buf; cbn [foldl fmap list_fmap flat_map]; [by rewrite app_nil_r|].
  by rewrite IH, put_frame, <- app_assoc.
Qed.

Definition payload_keys (ls : list NewLine) : list Bytes := sort_by bytes_cmp (payload_line_key <$> ls).

Lemma payload_bytes_fields e ls :
  payload_bytes e ls = PAYLOAD_DOMAIN_SEP ++ flat_map frame (payload_entry_fields e)
    ++ frame (present (be_bytes 8 (Z.of_nat (length (payload_keys ls))))) ++ flat_map frame (present <$> payload_keys ls).
Proof.
  unfold payload_bytes, payload_entry_fields. rewrite put_keys_frame. unfold payload_keys. by to_frames.
Qed.

Lemma opt_date_text (a b : option NaiveDate) :
  (bytes <$> (date_to_string <$> a)) = (bytes <$> (date_to_string <$> b)) -> a = b.
Proof.
  intros Heq%opt_bytes. destruct a, b; try done. injection Heq as Heq%date_to_string_inj. by f_equal.
Qed.

Lemma payload_line_key_inj e1 e2 ls1 ls2 l1 l2 : payload_ok e1 ls1 -> payload_ok e2 ls2 -> l1 ∈ ls1 -> l2 ∈ ls2 ->
  payload_line_key l1 = payload_line_key l2 -> payload_line l1 = payload_line l2.
Proof.
  intros [_ S1 U1 M1 _] [_ S2 U2 M2 _] H1' H2' Heq. rewrite !payload_line_key_fields in Heq.
  destruct (S1 _ H1') as [Z1 _], (S2 _ H2') as [Z2 _], (U1 _ H1') as (? & ? & ?), (U2 _ H2') as (? & ? & ?),
    (M1 _ H1') as [P1 F1], (M2 _ H2') as [P2 F2].
  rewrite <- (app_nil_r (flat_map frame (payload_line_fields l1))),
    <- (app_nil_r (flat_map frame (payload_line_fields l2))) in Heq.
  apply frames_inj in Heq as [Heq _]; [|unfold payload_line_fields; by rewrite !length_app, !opt_money_fields_length|done..].
  unfold payload_line_fields in Heq.
  apply app_inj_1 in Heq as [Ha Heq]; [|done]. apply app_inj_1 in Heq as [Hm Heq]; [|done].
  apply app_inj_1 in Heq as [Hb Heq]; [|done]. apply app_inj_1 in Heq as [Hf Hc]; [|by rewrite !opt_money_fields_length].
  apply money_fields_inj in Hm; [|done..]. apply opt_money_fields_inj in Hf; [|done..].
  split_fields Ha. split_fields Hb. split_fields Hc.
  match goal with F : (bytes <$> (date_to_string <$> _)) = _ |- _ => apply opt_date_text in F end.
  read_fields. unfold payload_line. congruence.
Qed.

Lemma payload_entry_inj e1 e2 : payload_entry_fields e1 = payload_entry_fields e2 -> payload_entry e1 = payload_entry e2.
Proof.
  unfold payload_entry_fields. intros Heq. split_fields Heq. read_fields.
  match goal with F : date_to_string _ = _ |- _ => apply date_to_string_inj in F end. unfold payload_entry. congruence.
Qed.

(** Lists whose images under [f] are permutations have images under [g] that are, when [f]
    determines [g]. *)
Lemma perm_images {A B C} (f : A -> B) (g : A -> C) l1 l2 : f <$> l1 ≡ₚ f <$> l2 ->
  (forall x y, x ∈ l1 -> y ∈ l2 -> f x = f y -> g x = g y) -> g <$> l1 ≡ₚ g <$> l2.
Proof.
  intros Hp Hg. destruct (Permutation_map_inv _ _ Hp) as (l3 & Hf & Hp3).
  assert (g <$> l1 = g <$> l3) as ->; [|by rewrite Hp3].
  assert (Hg3 : forall x y, x ∈ l1 -> y ∈ l3 -> f x = f y -> g x = g y) by (setoid_rewrite <- Hp3; done).
  clear -Hf Hg3. revert l3 Hf Hg3. induction l1 as [|x l1 IH]; intros [|y l3] Hf Hg; try done.
  cbn in Hf. injection Hf as Hxy Hf. rewrite !fmap_cons. f_equal.
  - apply Hg; [left|left|done].
  - apply IH; [done|]. intros a b Ha Hb. apply Hg; by right.
Qed.

Lemma perm_determined {A B C} (f : A -> B) (g : A -> C) l1 l2 : (forall x y, g x = g y -> f x = f y) ->
  g <$> l1 ≡ₚ g <$> l2 -> f <$> l1 ≡ₚ f <$> l2.
Proof. intros Hf Hp. by eapply perm_images; [exact Hp|auto]. Qed.

Lemma payload_encoding_inj e1 e2 ls1 ls2 : payload_ok e1 ls1 -> payload_ok e2 ls2 ->
  payload_bytes e1 ls1 = payload_bytes e2 ls2 ->
  payload_entry e1 = payload_entry e2 /\ payload_line <$> ls1 ≡ₚ payload_line <$> ls2.
Proof.
  intros O1 O2 Heq. rewrite !payload_bytes_fields in Heq. apply app_inv_head in Heq.
  apply frames_inj in Heq as [He Heq]; [|done|apply O1|apply O2].
  assert (Hkl : forall ls, length (payload_keys ls) = length ls)
    by (intros ls; unfold payload_keys; by rewrite sort_by_perm, length_fmap).
  assert (Hsz : forall n, small_field (present (be_bytes 8 n)))
    by (intros n b <-%(inj Some); rewrite be_bytes_length; lia).
  apply frame_inj in Heq as [Hn Heq]; [|apply Hsz..].
  apply (inj Some), be_bytes_nat_inj in Hn;
    [|rewrite Hkl; change (256 ^ Z.of_nat 8) with (2 ^ 64); pose proof (py_count _ _ O1); lia
     |rewrite Hkl; change (256 ^ Z.of_nat 8) with (2 ^ 64); pose proof (py_count _ _ O2); lia].
  assert (Hkeys : forall e ls, payload_ok e ls -> Forall small_field (present <$> payload_keys ls)).
  { intros e ls O. apply Forall_fmap. unfold payload_keys. rewrite sort_by_perm. apply Forall_fmap, Forall_forall.
    intros l Hl. by apply (py_lines _ _ O). }
  rewrite <- (app_nil_r (flat_map frame (present <$> payload_keys ls1))),
    <- (app_nil_r (flat_map frame (present <$> payload_keys ls2))) in Heq.
  apply frames_inj in Heq as [Hk _]; [|rewrite !length_fmap; lia|by eapply Hkeys..].
  split; [by apply payload_entry_inj|]. apply (perm_images payload_line_key).
  - rewrite <- (sort_by_perm bytes_cmp (payload_line_key <$> ls1)), <- (sort_by_perm bytes_cmp (payload_line_key <$> ls2)).
    apply list_fmap_eq_inj in Hk; [by unfold payload_keys in Hk; rewrite Hk|]. by intros ? ? [=].
  - intros l1 l2 H1' H2'. exact (payload_line_key_inj e1 e2 ls1 ls2 l1 l2 O1 O2 H1' H2').
Qed.

Lemma payload_bytes_content e1 e2 ls1 ls2 : payload_entry e1 = payload_entry e2 ->
  payload_line <$> ls1 ≡ₚ payload_line <$> ls2 -> payload_bytes e1 ls1 = payload_bytes e2 ls2.
Proof.
  intros He Hl. rewrite !payload_bytes_fields.
  assert (Hk : payload_keys ls1 = payload_keys ls2).
  { apply (sort_by_unique bytes_cmp); [|by intros a b _ _ ->%bytes_cmp_eq].
    eapply perm_determined; [|exact Hl]. intros x y Hxy. rewrite !payload_line_key_fields. unfold payload_line_fields.
    unfold payload_line in Hxy. congruence. }
  rewrite Hk. do 2 f_equal. unfold payload_entry_fields, payload_entry in *. congruence.
Qed.

(** A repeat is recognised by its financial content: two well-formed entries with the same
    business key, currency, effective date and period, and the same lines in any order, have one
    payload digest whatever their identifiers, actors and instants; and entries with one digest
    have the same content, unless their encodings collide under SHA-256. *)
Theorem payload_hash_binds e1 e2 ls1 ls2 : payload_ok e1 ls1 -> payload_ok e2 ls2 ->
  (payload_entry e1 = payload_entry e2 -> payload_line <$> ls1 ≡ₚ payload_line <$> ls2 ->
   payload_hash e1 ls1 = payload_hash e2 ls2) /\
  (payload_hash e1 ls1 = payload_hash e2 ls2 ->
   collides (payload_bytes e1 ls1) (payload_bytes e2 ls2) \/
   (payload_entry e1 = payload_entry e2 /\ payload_line <$> ls1 ≡ₚ payload_line <$> ls2)).
Proof.
  intros O1 O2. split.
  - intros He Hl. unfold payload_hash. by rewrite (payload_bytes_content e1 e2 ls1 ls2).
  - intros [Hc|Hb]%digest32_hex_inj%digest_eq; [by left|right]. by apply payload_encoding_inj.
Qed.

End digests.
