(* ===== verification/PostingEngine.v ===== *)
(** * The posting engine: [ledger/src/infra/posting/{service,period,freeze}.rs] and
    [infra/policy_version.rs]

    [post_in_txn] is the body of one serializable transaction over the state [Ledger]:
    the journal tables, the dedup table, the balance caches, the reference tables the
    gates read, and the tables of the sidecars.  A transaction that fails leaves the
    state alone, so an operation returns an error or the new state.  A sidecar is an
    argument, as in the source a trait object; [sidecar_keeps] is what the engine
    expects of it.  The sequence number of a header, the clock and fresh identifiers
    are arguments.  The event publisher is parked (it logs) and has no part in the
    state; alarms are returned.  The scope of a request covers its tenant. *)

From S2P Require Import Prelude Decimal Money Exact ExactGrid Table DomainErrors MoneyText Sdk Json Canonical Chain.
From S2P Require Import Posting DualApproval Journal ChainVerify Projector Idempotency.

(** ** Reference tables *)

(** [tenant_account::Model]. *)
Record AccountRow := mkAccountRow {
  acc_tenant_id : Uuid;
  acc_legal_entity_id : Uuid;
  acc_account_class : string;
  acc_currency : string;
  acc_revenue_stream : option string;
  acc_normal_side : string;
  acc_may_go_negative : bool;
  acc_lifecycle_state : string;
}.

(** [scope_freeze::Model] without its key. *)
Record FreezeRow := mkFreezeRow {
  fz_reason : string;
  fz_frozen_at : OffsetDateTime;
  fz_set_by : string;
  fz_cleared_by : option string;
  fz_cleared_at : option OffsetDateTime;
}.

Abbreviation Freezes := (gmap (Uuid * string * string) FreezeRow).

Record Reference := mkReference {
  rf_posting_locked : gmap Uuid bool;
  rf_accounts : gmap Uuid AccountRow;
  rf_freezes : Freezes;
  rf_period_status : gmap (Uuid * Uuid * string) string;
  rf_currency_scale : Uuid -> string -> result ScaleError (option Z);
}.

(** The tenants whose rows a request sees. *)
Definition AccessScope : Type := Uuid -> bool.
Definition for_tenant (t : Uuid) : AccessScope := fun u => bool_decide (u = t).

(** [ReferenceRepo::find_account_in]. *)
Definition find_account_in (r : Reference) (scope : AccessScope) (account_id : Uuid) : option AccountRow :=
  row ← rf_accounts r !! account_id;
  if scope (acc_tenant_id row) then Some row else None.

Definition LIFECYCLE_OPEN : string := "OPEN".
Definition PERIOD_STATUS_OPEN : string := "OPEN".

(** ** The tamper freeze *)

Definition PERIOD_ALL : string := "ALL".

Definition active_freeze (t : Freezes) (tenant : Uuid) (period_id : string) : bool :=
  existsb (fun '((row_tenant, _, row_period), r) =>
             bool_decide (row_tenant = tenant) && bool_decide (fz_cleared_at r = None)
             && bool_decide (row_period ∈ [PERIOD_ALL; period_id])) (map_to_list t).

(** [ScopeFreezeRepo::set]: [INSERT .. ON CONFLICT DO NOTHING]. *)
Definition freeze_set (t : Freezes) (tenant : Uuid) (scope_kind period_id reason set_by : string) (now : OffsetDateTime) :
    bool * Freezes :=
  match t_insert t (tenant, scope_kind, period_id) (mkFreezeRow reason now set_by None None) with
  | Some t => (true, t)
  | None => (false, t)
  end.

Definition freeze_clear (t : Freezes) (tenant : Uuid) (scope_kind period_id cleared_by : string) (now : OffsetDateTime) : Freezes :=
  fst (t_update t (tenant, scope_kind, period_id) (fun r => bool_decide (fz_cleared_at r = None))
         (fun r => mkFreezeRow (fz_reason r) (fz_frozen_at r) (fz_set_by r) (Some cleared_by) (Some now))).

(** ** Errors of an attempt *)

Definition business (e : DomainError) : AttemptError := attempt_from_domain e.
Definition infra : AttemptError := AttemptError.Business DomainError.Internal.
Definition repo_to_db (e : RepoError) : AttemptError := business (repo_to_domain e).

Definition project_to_db (e : ProjectError) : AttemptError :=
  match e with
  | ProjectError.Repo e => repo_to_db e
  | ProjectError.Conflict => business DomainError.ConcurrentModification
  | ProjectError.NegativeBalance _ _ => business DomainError.NegativeBalance
  | ProjectError.MissingNormalSide _ => business DomainError.AccountClosed
  | ProjectError.MissingCreditEventType _ => business DomainError.Internal
  | ProjectError.Db | ProjectError.Arithmetic _ => infra
  end.

(** ** Alarms *)

Module AlarmCategory.
Inductive alarm_category :=
| IdempotencyPayloadConflict | NegativeBalanceViolation | TieOutVariance | EntryImbalance
| TamperVerifyFailed | ChargebackCashNegative | RecognitionDoubleCredit | OverRecognition | FxSnapshotMissing
| FxSnapshotStaleAllowed | FxSnapshotStaleBlocked | NegativeTaxSubbalance | CreditNoteSplitBlocked
| RefundQuarantined | RecognitionPeriodQueued | ReconciliationVariance | ExportFailedAged
| AgedAllocationQueue | AgedUnallocated | RefundClearingAged | DisputePhaseQueued | Stage1RefundOrphan
| ClawbackUnderflow | StuckRefundClearing | BillrunPartialFailure | PartitionDetachBlocked | RelayLag
| ClockSkew | AttemptedWriteOff | PayerAttributionDrift | FxRevaluationIncomplete | DormantOpenCredit
| ChainLag | SubtreeTooLarge | SubtreeResolutionDegraded | MissedPosting.
End AlarmCategory.
Abbreviation AlarmCategory := AlarmCategory.alarm_category.

Inductive AlarmSeverity := Warn | Critical.

(** [alarm_catalog::severity]. *)
Definition severity (cat : AlarmCategory) : AlarmSeverity :=
  match cat with
  | AlarmCategory.EntryImbalance | AlarmCategory.NegativeBalanceViolation
  | AlarmCategory.RecognitionDoubleCredit | AlarmCategory.OverRecognition | AlarmCategory.FxSnapshotMissing
  | AlarmCategory.FxSnapshotStaleBlocked | AlarmCategory.IdempotencyPayloadConflict
  | AlarmCategory.NegativeTaxSubbalance | AlarmCategory.TamperVerifyFailed | AlarmCategory.AttemptedWriteOff
  | AlarmCategory.ClawbackUnderflow | AlarmCategory.StuckRefundClearing
  | AlarmCategory.FxRevaluationIncomplete => Critical
  | AlarmCategory.TieOutVariance | AlarmCategory.ChargebackCashNegative
  | AlarmCategory.FxSnapshotStaleAllowed | AlarmCategory.CreditNoteSplitBlocked
  | AlarmCategory.RefundQuarantined | AlarmCategory.RecognitionPeriodQueued
  | AlarmCategory.ReconciliationVariance | AlarmCategory.ExportFailedAged | AlarmCategory.AgedAllocationQueue
  | AlarmCategory.AgedUnallocated | AlarmCategory.RefundClearingAged | AlarmCategory.DisputePhaseQueued
  | AlarmCategory.Stage1RefundOrphan | AlarmCategory.BillrunPartialFailure
  | AlarmCategory.PartitionDetachBlocked | AlarmCategory.RelayLag | AlarmCategory.ClockSkew
  | AlarmCategory.PayerAttributionDrift | AlarmCategory.DormantOpenCredit | AlarmCategory.ChainLag
  | AlarmCategory.SubtreeTooLarge | AlarmCategory.SubtreeResolutionDegraded | AlarmCategory.MissedPosting => Warn
  end.

Definition alarm_for (err : DomainError) : option (AlarmCategory * AlarmSeverity * string) :=
  let alarm category code := Some (category, severity category, code) in
  match err with
  | DomainError.IdempotencyConflict => alarm AlarmCategory.IdempotencyPayloadConflict "IDEMPOTENCY_PAYLOAD_CONFLICT"
  | DomainError.NegativeBalance => alarm AlarmCategory.NegativeBalanceViolation "NEGATIVE_BALANCE_VIOLATION"
  | DomainError.OverRecognition => alarm AlarmCategory.OverRecognition "OVER_RECOGNITION"
  | _ => None
  end.

(** ** The clock *)

Inductive ClockSkewVerdict := SkewOk | SkewWarn | SkewReject.

Definition CLOCK_SKEW_WARN_MINUTES : Z := 15.
Definition CLOCK_SKEW_REJECT_HOURS : Z := 24.

Definition classify_clock_skew (posted_at_utc now : OffsetDateTime) : ClockSkewVerdict :=
  let skew := Z.abs (now - posted_at_utc) in
  if CLOCK_SKEW_REJECT_HOURS * 3600 * 10 ^ 9 <? skew then SkewReject
  else if CLOCK_SKEW_WARN_MINUTES * 60 * 10 ^ 9 <? skew then SkewWarn
  else SkewOk.

(** ** Requests *)

Definition MAX_LINES : nat := 1000.

Inductive ClaimMode := Fresh | QueuedApply.
Record ClaimSpec := mkClaimSpec { claim_mode : ClaimMode; payload_hash_override : option string }.

Definition fresh : ClaimSpec := mkClaimSpec Fresh None.
Definition fresh_with_request_hash (request_hash : string) : ClaimSpec := mkClaimSpec Fresh (Some request_hash).
Definition queued_apply : ClaimSpec := mkClaimSpec QueuedApply None.

Inductive MoneyOrigin := Current | StoredReversal.

Inductive PostOutcome := Posted (entry_id : Uuid) (created_seq : Z) | PostReplay (entry_id : Uuid).

Record PostedFacts := mkPostedFacts { pf_entry_id : Uuid; pf_created_seq : Z }.

Record PostingRef := mkPostingRef { ref_entry_id : Uuid; ref_created_seq : Z; ref_replayed : bool }.

Definition posting_ref (o : PostOutcome) : PostingRef :=
  match o with
  | Posted entry_id created_seq => mkPostingRef entry_id created_seq false
  | PostReplay entry_id => mkPostingRef entry_id 0 true
  end.

Section engine.
Context `{DecimalText} `{!Sha256} `{!DateText} `{!UuidSource} {D S : Type} `{!JournalDb D}.

Record Ledger := mkLedger {
  lg_journal : D;
  lg_dedup : Dedup;
  lg_caches : Caches;
  lg_reference : Reference;
  lg_rest : S;
}.

Definition with_journal (j : D) (l : Ledger) := mkLedger j (lg_dedup l) (lg_caches l) (lg_reference l) (lg_rest l).
Definition with_dedup (d : Dedup) (l : Ledger) := mkLedger (lg_journal l) d (lg_caches l) (lg_reference l) (lg_rest l).
Definition with_caches (c : Caches) (l : Ledger) := mkLedger (lg_journal l) (lg_dedup l) c (lg_reference l) (lg_rest l).

(** [PostSidecar]. *)
Record PostSidecar := mkPostSidecar {
  sc_run : PostedFacts -> Ledger -> result DomainError Ledger;
  sc_run_before_projection : bool;
  sc_check_before_projection : Ledger -> result DomainError unit;
}.

(** What an attempt takes from outside: the clock, the sequence number the database
    would draw for its header, and the access scope of its request. *)
Record AttemptEnv := mkAttemptEnv { ae_now : OffsetDateTime; ae_seq : Z; ae_scope : AccessScope }.

(** ** Gates *)

Definition freeze_check (r : Reference) (tenant : Uuid) (period_id : string) : result AttemptError unit :=
  if active_freeze (rf_freezes r) tenant period_id then Err (business DomainError.TamperVerificationFailed) else Ok tt.

(** [FiscalPeriodGuard::pin_open] with its mapping. *)
Definition pin_open (r : Reference) (tenant legal_entity : Uuid) (period_id : string) : result AttemptError unit :=
  match rf_period_status r !! (tenant, legal_entity, period_id) with
  | Some status => if bool_decide (status = PERIOD_STATUS_OPEN) then Ok tt else Err (business DomainError.PeriodClosed)
  | None => Err (business DomainError.PeriodClosed)
  end.

Definition EvidenceTuple : Type := option string * option string * option string * option string * option string.

Definition is_all_null (t : EvidenceTuple) : bool := bool_decide (t = (None, None, None, None, None)).

Definition line_tuple (l : NewLine) : EvidenceTuple :=
  (nl_pricing_snapshot_ref l, nl_po_allocation_group l, nl_price_id l, nl_sku_or_plan_ref l, nl_invoice_item_ref l).

Definition row_tuple (r : LineRow) : EvidenceTuple :=
  (lr_pricing_snapshot_ref r, lr_po_allocation_group r, lr_price_id r, lr_sku_or_plan_ref r, lr_invoice_item_ref r).

Definition first_unreused_tuple (original correction : list EvidenceTuple) : option EvidenceTuple :=
  let original_set := List.filter (fun t => negb (is_all_null t)) original in
  List.find (fun t => negb (is_all_null t) && negb (bool_decide (t ∈ original_set))) correction.

(** The lines of an entry, in any period when none is given. *)
Definition original_rows (db : D) (tenant entry_id : Uuid) (period : option string) : list LineRow :=
  flat_map (fun h => j_lines db (header_key h))
    (List.filter (fun h => bool_decide (er_tenant_id h = tenant) && bool_decide (er_entry_id h = entry_id)
                           && match period with Some p => bool_decide (er_period_id h = p) | None => true end)
       (j_headers db)).

Definition policy_check (db : D) (entry : NewEntry) (lines : list NewLine) : result AttemptError unit :=
  match ne_reverses_entry_id entry with
  | None => Ok tt
  | Some original_entry_id =>
      let rows := original_rows db (ne_tenant_id entry) original_entry_id (ne_reverses_period_id entry) in
      if bool_decide (rows = []) then Err infra
      else match first_unreused_tuple (row_tuple <$> rows) (line_tuple <$> lines) with
           | Some _ => Err (business DomainError.PolicyVersionViolation)
           | None => Ok tt
           end
  end.

(** The scale of every amount against the registry, each code resolved once. *)
Definition check_scale (resolve : string -> result ScaleError Z) (scale_by_code : gmap string Z) (money : PostedMoney) :
    result AttemptError (gmap string Z) :=
  let code := code (currency money) in
  '(scale, scale_by_code) ← match scale_by_code !! code with
    | Some scale => Ok (scale, scale_by_code)
    | None => scale ← map_err (fun e => business (scale_error_to_domain e)) (resolve code);
              Ok (scale, <[code := scale]> scale_by_code)
    end;
  if scale =? currency_scale (currency money) then Ok scale_by_code
  else Err (business DomainError.InconsistentScale).

Definition line_monies (line : NewLine) : list PostedMoney :=
  nl_money line :: match nl_functional_money line with Some m => [m] | None => [] end.

Definition check_scales (r : Reference) (tenant : Uuid) (lines : list NewLine) : result AttemptError unit :=
  _ ← fold_res (check_scale (scale_resolve (rf_currency_scale r tenant))) ∅ (flat_map line_monies lines);
  Ok tt.

Definition new_line_facts (l : NewLine) : LineFacts :=
  mkLineFacts (nl_side l) (nl_money l) (nl_payer_tenant_id l) (nl_functional_money l).

Definition prepare_attempt (now : OffsetDateTime) (l : Ledger) (entry : NewEntry) (lines : list NewLine) :
    result AttemptError unit :=
  _ ← map_err (fun v => business (violation_to_domain v))
        (validate_balanced_entry (ne_entry_currency entry) (new_line_facts <$> lines));
  _ ← ensure (bool_decide (length lines <= MAX_LINES)%nat) (business DomainError.EntryTooLarge);
  _ ← ensure (negb (default false (rf_posting_locked (lg_reference l) !! ne_tenant_id entry)))
        (business DomainError.TenantPostingLocked);
  match classify_clock_skew (ne_posted_at_utc entry) now with
  | SkewReject => Err (business DomainError.ClockSkewQuarantine)
  | _ => Ok tt
  end.

Definition load_side (r : Reference) (scope : AccessScope) (normal_sides : gmap Uuid Side) (line : NewLine) : result AttemptError (gmap Uuid Side) :=
  match normal_sides !! nl_account_id line with
  | Some _ => Ok normal_sides
  | None =>
      account ← ok_or (find_account_in r scope (nl_account_id line)) (business DomainError.AccountClosed);
      _ ← ensure (bool_decide (acc_lifecycle_state account = LIFECYCLE_OPEN)) (business DomainError.AccountClosed);
      side ← (if bool_decide (acc_normal_side account = "DR") then Ok Debit
              else if bool_decide (acc_normal_side account = "CR") then Ok Credit
              else Err infra);
      Ok (<[nl_account_id line := side]> normal_sides)
  end.

Definition load_normal_sides (r : Reference) (scope : AccessScope) (lines : list NewLine) : result AttemptError (gmap Uuid Side) :=
  fold_res (load_side r scope) ∅ lines.

(** ** The idempotency gate of a post *)

Definition gate (claim_spec : ClaimSpec) (entry : NewEntry) (lines : list NewLine) (db : Dedup) :
    result AttemptError (option PostOutcome * Dedup) :=
  let tenant := ne_tenant_id entry in
  let flow := as_str (ne_source_doc_type entry) in
  let business_id := ne_source_business_id entry in
  match claim_mode claim_spec with
  | Fresh =>
      let hash := default (payload_hash entry lines) (payload_hash_override claim_spec) in
      '(outcome, db) ← map_err repo_to_db (claim db tenant flow business_id hash);
      match outcome with
      | ClaimReplay row =>
          if bool_decide (pr_payload_hash row <> hash) then Err (business DomainError.IdempotencyConflict)
          else match pr_result_entry_id row with
               | Some entry_id =>
                   if bool_decide (pr_status row = STATUS_POSTED) then Ok (Some (PostReplay entry_id), db) else Err infra
               | None => Err infra
               end
      | Claimed => Ok (None, db)
      end
  | QueuedApply =>
      match read_dedup db tenant flow business_id with
      | Some row =>
          match pr_result_entry_id row with
          | Some entry_id =>
              if bool_decide (pr_status row = STATUS_POSTED) then Ok (Some (PostReplay entry_id), db)
              else if bool_decide (pr_status row = STATUS_QUEUED) then Ok (None, db) else Err infra
          | None => if bool_decide (pr_status row = STATUS_QUEUED) then Ok (None, db) else Err infra
          end
      | None => Err infra
      end
  end.

(** ** The transaction *)

Definition run_sidecar (sidecar : option PostSidecar) (before : bool) (posted : PostedFacts) (l : Ledger) : result AttemptError Ledger :=
  match sidecar with
  | Some sc => if Bool.eqb (sc_run_before_projection sc) before then map_err business (sc_run sc posted l) else Ok l
  | None => Ok l
  end.

Definition check_sidecar_state (sidecar : option PostSidecar) (l : Ledger) : result AttemptError unit :=
  match sidecar with
  | Some sc => map_err business (sc_check_before_projection sc l)
  | None => Ok tt
  end.

(** The checks between the gate and the first write to the journal. *)
Definition check_post (origin : MoneyOrigin) (sidecar : option PostSidecar) (entry : NewEntry) (lines : list NewLine) (l : Ledger) :
    result AttemptError unit :=
  let tenant := ne_tenant_id entry in
  _ ← match origin with
      | Current => check_scales (lg_reference l) tenant lines
      | StoredReversal => Ok tt
      end;
  _ ← freeze_check (lg_reference l) tenant (ne_period_id entry);
  _ ← pin_open (lg_reference l) tenant (ne_legal_entity_id entry) (ne_period_id entry);
  _ ← policy_check (lg_journal l) entry lines;
  check_sidecar_state sidecar l.

(** Insert, sidecar and projection in the order the sidecar asks for, seal, finalize. *)
Definition write_post (env : AttemptEnv) (sidecar : option PostSidecar) (normal_sides : gmap Uuid Side) (entry : NewEntry)
    (lines : list NewLine) (l : Ledger) : result AttemptError (PostOutcome * Ledger) :=
  '(journal, (entry_id, created_seq)) ← map_err repo_to_db (insert_entry_with_lines (lg_journal l) entry lines (ae_seq env));
  let l := with_journal journal l in
  let posted := mkPostedFacts entry_id created_seq in
  l ← run_sidecar sidecar true posted l;
  caches ← map_err project_to_db (project (lg_caches l) entry lines normal_sides created_seq);
  let l := with_caches caches l in
  l ← run_sidecar sidecar false posted l;
  journal ← map_err (fun _ => infra) (seal (lg_journal l) entry lines created_seq);
  let l := with_journal journal l in
  dedup ← map_err repo_to_db
    (finalize (lg_dedup l) (ne_tenant_id entry) (as_str (ne_source_doc_type entry)) (ne_source_business_id entry) entry_id (ae_now env));
  Ok (Posted entry_id created_seq, with_dedup dedup l).

Definition post_in_txn (env : AttemptEnv) (entry : NewEntry) (lines : list NewLine) (normal_sides : gmap Uuid Side)
    (sidecar : option PostSidecar) (claim_spec : ClaimSpec) (origin : MoneyOrigin) (l : Ledger) :
    result AttemptError (PostOutcome * Ledger) :=
  '(early, dedup) ← gate claim_spec entry lines (lg_dedup l);
  let l := with_dedup dedup l in
  match early with
  | Some outcome => Ok (outcome, l)
  | None =>
      _ ← check_post origin sidecar entry lines l;
      write_post env sidecar normal_sides entry lines l
  end.

Definition post_once (env : AttemptEnv) (entry : NewEntry) (lines : list NewLine) (sidecar : option PostSidecar)
    (claim_spec : ClaimSpec) (l : Ledger) : result AttemptError (PostingRef * Ledger) :=
  if bool_decide (ne_source_doc_type entry = Reversal) then Err (business DomainError.InvalidRequest) else
  _ ← prepare_attempt (ae_now env) l entry lines;
  normal_sides ← load_normal_sides (lg_reference l) (ae_scope env) lines;
  '(outcome, l) ← post_in_txn env entry lines normal_sides sidecar claim_spec Current l;
  Ok (posting_ref outcome, l).

(** [JournalRepo::read_lines_to_reverse_in]. *)
Definition read_lines_to_reverse_in (db : D) (tenant entry_id : Uuid) (period_id : string) :
    result RepoError (option Uuid * list NewLine) :=
  let rows := j_lines db (tenant, period_id, entry_id) in
  let rate_snapshot := r ← head rows; lr_rate_snapshot_ref r in
  if existsb (fun row => negb (bool_decide (lr_rate_snapshot_ref row = rate_snapshot))) rows
  then Err RepoError.InvalidStoredMoney
  else
    lines ← map_res decode_line rows;
    Ok (rate_snapshot, lines).

Definition flip_side (s : Side) : Side := match s with Debit => Credit | Credit => Debit end.

(** A stored line with a fresh identifier and the opposite side. *)
Definition reversed_line (id : Uuid) (l : NewLine) : NewLine :=
  mkNewLine id (nl_payer_tenant_id l) (nl_seller_tenant_id l) (nl_resource_tenant_id l) (nl_account_id l)
    (nl_account_class l) (nl_gl_code l) (flip_side (nl_side l)) (nl_money l) (nl_invoice_id l) (nl_due_date l)
    (nl_revenue_stream l) (nl_mapping_status l) (nl_functional_money l) (nl_tax_jurisdiction l)
    (nl_tax_filing_period l) (nl_tax_rate_ref l) (nl_legal_entity_id l) (nl_invoice_item_ref l)
    (nl_sku_or_plan_ref l) (nl_price_id l) (nl_pricing_snapshot_ref l) (nl_po_allocation_group l)
    (nl_credit_grant_event_type l) (nl_ar_status l).

Definition with_rate_snapshot (r : option Uuid) (e : NewEntry) : NewEntry :=
  mkNewEntry (ne_entry_id e) (ne_tenant_id e) (ne_legal_entity_id e) (ne_period_id e) (ne_entry_currency e)
    (ne_source_doc_type e) (ne_source_business_id e) (ne_reverses_entry_id e) (ne_reverses_period_id e)
    (ne_posted_at_utc e) (ne_effective_at e) (ne_origin e) (ne_posted_by_actor_id e) (ne_correlation_id e)
    (ne_rounding_evidence e) r.

Definition post_reversal_once (env : AttemptEnv) (entry : NewEntry) (sidecar : option PostSidecar) (claim_spec : ClaimSpec)
    (l : Ledger) : result AttemptError (PostingRef * Ledger) :=
  original ← ok_or (ne_reverses_entry_id entry) (business DomainError.InvalidRequest);
  period ← ok_or (ne_reverses_period_id entry) (business DomainError.InvalidRequest);
  '(rate_snapshot, lines) ← map_err attempt_from_repo
    (read_lines_to_reverse_in (lg_journal l) (ne_tenant_id entry) original period);
  if bool_decide (lines = []) then Err (business DomainError.InvalidRequest) else
  let entry := with_rate_snapshot rate_snapshot entry in
  let lines := imap (fun k line => reversed_line (now_v7 k) line) lines in
  _ ← prepare_attempt (ae_now env) l entry lines;
  normal_sides ← load_normal_sides (lg_reference l) (ae_scope env) lines;
  '(outcome, l) ← post_in_txn env entry lines normal_sides sidecar claim_spec StoredReversal l;
  Ok (posting_ref outcome, l).

(** ** The retry *)

(** What happens around one attempt: the transactions that commit before it, a failure of
    the database, the clock and the sequence. *)
Record PostAttempt := mkPostAttempt {
  pa_others : Ledger -> Ledger;
  pa_fault : option Fault;
  pa_env : AttemptEnv;
}.

Fixpoint retry_post {A} (fuel : nat) (attempt : nat -> PostAttempt) (body : AttemptEnv -> Ledger -> result AttemptError (A * Ledger))
    (l : Ledger) : Ledger * result DomainError A :=
  match fuel with
  | O => (l, Err DomainError.ConcurrentModification)
  | Datatypes.S fuel =>
      let a := attempt O in
      let l := pa_others a l in
      match pa_fault a with
      | Some FContention => retry_post fuel (fun n => attempt (Datatypes.S n)) body l
      | Some (FFailure e) => (l, Err e)
      | Some (FLost e) => (match body (pa_env a) l with Ok (_, l') => l' | Err _ => l end, Err e)
      | None =>
          match body (pa_env a) l with
          | Ok (v, l') => (l', Ok v)
          | Err AttemptError.Conflict => retry_post fuel (fun n => attempt (Datatypes.S n)) body l
          | Err (AttemptError.Business e) => (l, Err e)
          end
      end
  end.

(** [run_post]; [now] is read before the transaction. *)
Definition run_post (now : OffsetDateTime) (attempt : nat -> PostAttempt) (entry : NewEntry) (lines : list NewLine)
    (sidecar : option PostSidecar) (claim_spec : ClaimSpec) (l : Ledger) :
    Ledger * result DomainError PostingRef * list (AlarmCategory * AlarmSeverity * string) :=
  let go alarms :=
    let '(l, r) := retry_post MAX_ATTEMPTS attempt (fun env => post_once env entry lines sidecar claim_spec) l in
    (l, r, alarms ++ match r with Err e => option_list (alarm_for e) | Ok _ => [] end) in
  match classify_clock_skew (ne_posted_at_utc entry) now with
  | SkewOk => go []
  | SkewWarn => go [(AlarmCategory.ClockSkew, severity AlarmCategory.ClockSkew, "CLOCK_SKEW")]
  | SkewReject => (l, Err DomainError.ClockSkewQuarantine, [])
  end.

Definition post_entry (now : OffsetDateTime) (attempt : nat -> PostAttempt) (entry : NewEntry) (lines : list NewLine)
    (sidecar : option PostSidecar) (l : Ledger) := run_post now attempt entry lines sidecar fresh l.
Definition post_with_request_hash (now : OffsetDateTime) (attempt : nat -> PostAttempt) (entry : NewEntry) (lines : list NewLine)
    (sidecar : option PostSidecar) (request_hash : string) (l : Ledger) :=
  run_post now attempt entry lines sidecar (fresh_with_request_hash request_hash) l.
Definition post_queued_apply (now : OffsetDateTime) (attempt : nat -> PostAttempt) (entry : NewEntry) (lines : list NewLine)
    (sidecar : option PostSidecar) (l : Ledger) := run_post now attempt entry lines sidecar queued_apply l.
End engine.
