(* ===== verification/PostingRun.v ===== *)
(** * Runs of the posting engine

    A run starts with empty tables and commits serializable transactions one after the
    other: posts of any mode, reversals, intakes of queued work, schedule changes, and
    changes of the reference tables and of the sidecars' tables by other parts of the
    ledger.  The invariant [books] relates the state to the list of entries posted so
    far: every entry has one header, its lines and one finalized dedup row, every
    header belongs to one entry, and the caches tie to the grains of all entries. *)

From S2P Require Import Prelude Decimal Money Exact ExactGrid Table DomainErrors MoneyText Sdk Json Canonical Chain.
From S2P Require Import Posting DualApproval Journal ChainVerify ChainRun Projector ProjectorProps Idempotency PostingEngine.

Definition entry_business (e : NewEntry) : DedupKey :=
  (ne_tenant_id e, as_str (ne_source_doc_type e), ne_source_business_id e).
Definition header_business (h : EntryRow) : DedupKey :=
  (er_tenant_id h, er_source_doc_type h, er_source_business_id h).
Definition entry_key_of (e : NewEntry) : EntryKey := (ne_tenant_id e, ne_period_id e, ne_entry_id e).

Section posting_run.
Context `{DecimalText} `{!Sha256} `{!DateText} `{!UuidSource} {D S : Type} `{!JournalDb D}.
Abbreviation Ledger := (Ledger (D := D) (S := S)).
Abbreviation PostSidecar := (PostSidecar (D := D) (S := S)).

(** The scopes the requests of a tenant come with. *)
Context (admits : Uuid -> AccessScope -> Prop).

(** ** What the other parts promise *)

(** A sidecar writes its own tables and claims further keys: it keeps the journal, the caches,
    the reference tables and the rows of the dedup table, and the rows it adds are claims. *)
Record dedup_keeps (d d' : Dedup) : Prop := {
  dk_rows k row : d !! k = Some row -> d' !! k = Some row;
  dk_claims k row : d' !! k = Some row -> d !! k = Some row \/ dd_status row = STATUS_CLAIMED;
}.

Record keeps (l l' : Ledger) : Prop := {
  kp_journal : lg_journal l' = lg_journal l;
  kp_caches : lg_caches l' = lg_caches l;
  kp_reference : lg_reference l' = lg_reference l;
  kp_dedup : dedup_keeps (lg_dedup l) (lg_dedup l');
}.

Definition sidecar_keeps (sc : PostSidecar) : Prop :=
  forall posted l l', sc_run sc posted l = Ok l' -> keeps l l'.

(** The chart of accounts only grows, and an account keeps its owner and its normal side. *)
Definition chart_extends (r r' : Reference) : Prop :=
  forall a row, rf_accounts r !! a = Some row ->
    exists row', rf_accounts r' !! a = Some row' /\ acc_tenant_id row' = acc_tenant_id row /\
      acc_normal_side row' = acc_normal_side row.

Definition with_reference (r : Reference) (l : Ledger) : Ledger :=
  mkLedger (lg_journal l) (lg_dedup l) (lg_caches l) r (lg_rest l).
Definition with_rest (s : S) (l : Ledger) : Ledger :=
  mkLedger (lg_journal l) (lg_dedup l) (lg_caches l) (lg_reference l) s.

Definition sidecar_ok (sc : option PostSidecar) : Prop := forall s, sc = Some s -> sidecar_keeps s.

(** ** Committed transactions *)

Inductive step : Ledger -> Ledger -> Prop :=
| step_post env entry lines sc cs ref l l' : admits (ne_tenant_id entry) (ae_scope env) ->
    Forall line_valid lines -> sidecar_ok sc -> post_once env entry lines sc cs l = Ok (ref, l') -> step l l'
| step_reversal env entry sc cs ref l l' : admits (ne_tenant_id entry) (ae_scope env) -> sidecar_ok sc ->
    post_reversal_once env entry sc cs l = Ok (ref, l') -> step l l'
| step_queue tenant flow business_id hash outcome d l :
    claim_queued (lg_dedup l) tenant flow business_id hash = Ok (outcome, d) -> step l (with_dedup d l)
| step_schedule_change tenant change_id hash successor outcome d d' l :
    claim (lg_dedup l) tenant FLOW_SCHEDULE_CHANGE change_id hash = Ok (outcome, d) ->
    store_schedule_change_result d tenant change_id hash successor = Ok d' -> step l (with_dedup d' l)
| step_reference r l : chart_extends (lg_reference l) r -> step l (with_reference r l)
| step_rest s l : step l (with_rest s l).

Definition empty_journal (db : D) : Prop := j_headers db = [] /\ forall k, j_lines db k = [].

Record initial (l : Ledger) : Prop := {
  init_journal : empty_journal (lg_journal l);
  init_dedup : lg_dedup l = ∅;
  init_caches : lg_caches l = no_caches;
}.

Definition reachable (l : Ledger) : Prop := exists l0, initial l0 /\ rtc step l0 l.

(** ** The books *)

Record Post := mkPost { p_entry : NewEntry; p_lines : list NewLine; p_sides : gmap Uuid Side; p_hash : string }.

Definition post_grains (p : Post) : list GrainDelta :=
  match entry_grains (p_entry p) (p_lines p) (p_sides p) with Ok gs => gs | Err _ => [] end.
Definition history (ps : list Post) : list GrainDelta := flat_map post_grains ps.

Record post_valid (p : Post) : Prop := {
  pv_lines : Forall line_valid (p_lines p);
  pv_balanced : balanced_entry (ne_entry_currency (p_entry p)) (new_line_facts <$> p_lines p);
  pv_grains : exists gs, entry_grains (p_entry p) (p_lines p) (p_sides p) = Ok gs;
}.

Definition core (h : EntryRow) : EntryKey * DedupKey := (header_key h, header_business h).
Definition post_core (p : Post) : EntryKey * DedupKey := (entry_key_of (p_entry p), entry_business (p_entry p)).

Definition finalized (row : DedupRow) (id : Uuid) : Prop :=
  dd_status row = STATUS_POSTED /\ dd_result_entry_id row = Some id.

(** An account a post of the tenant found in the chart. *)
Definition charted (r : Reference) (tenant a : Uuid) (s : Side) : Prop :=
  exists row scope, rf_accounts r !! a = Some row /\ acc_normal_side row = as_str s /\
    admits tenant scope /\ scope (acc_tenant_id row) = true.

Record books (l : Ledger) (ps : list Post) : Prop := {
  bk_headers : core <$> j_headers (lg_journal l) ≡ₚ post_core <$> ps;
  bk_lines p : p ∈ ps -> j_lines (lg_journal l) (entry_key_of (p_entry p)) ≡ₚ line_row_of (p_entry p) <$> p_lines p;
  bk_no_orphans k : k ∉ header_key <$> j_headers (lg_journal l) -> j_lines (lg_journal l) k = [];
  bk_valid : Forall post_valid ps;
  bk_caches : caches_tie (lg_caches l) (history ps);
  bk_posted p : p ∈ ps -> exists row, lg_dedup l !! entry_business (p_entry p) = Some row /\
    finalized row (ne_entry_id (p_entry p)) /\ dd_payload_hash row = p_hash p;
  bk_finalized k row : lg_dedup l !! k = Some row -> dd_status row = STATUS_POSTED ->
    exists p, p ∈ ps /\ entry_business (p_entry p) = k;
  bk_once : NoDup (entry_business ∘ p_entry <$> ps);
  bk_chart p a s : p ∈ ps -> p_sides p !! a = Some s -> charted (lg_reference l) (ne_tenant_id (p_entry p)) a s;
}.

Lemma books_initial l : initial l -> books l [].
Proof.
  intros [[Hh Hl] Hd Hc]. constructor; try by intros p Hp%not_elem_of_nil.
  - by rewrite Hh.
  - intros k _. apply Hl.
  - constructor.
  - rewrite Hc. apply caches_tie_empty.
  - intros k row. by rewrite Hd, lookup_empty.
  - constructor.
  - by intros p a s Hp%not_elem_of_nil.
Qed.

Lemma header_keys_posts l ps : books l ps ->
  header_key <$> j_headers (lg_journal l) ≡ₚ entry_key_of ∘ p_entry <$> ps.
Proof.
  intros Hb. pose proof (fmap_Permutation fst _ _ (bk_headers _ _ Hb)) as Hp.
  by rewrite <- !list_fmap_compose in Hp.
Qed.

(** ** The gate *)

(** The payload hash a fresh claim stores. *)
Definition request_hash (cs : ClaimSpec) (e : NewEntry) (ls : list NewLine) : string :=
  default (payload_hash e ls) (payload_hash_override cs).

Lemma gate_ok cs e ls db o db' : gate cs e ls db = Ok (o, db') ->
  (exists id row, o = Some (PostReplay id) /\ db' = db /\ db !! entry_business e = Some row /\ finalized row id) \/
  (o = None /\ (forall row, db !! entry_business e = Some row -> dd_status row = STATUS_QUEUED) /\
   exists row, db' = <[entry_business e := row]> db /\ dd_status row <> STATUS_POSTED /\
     (claim_mode cs = Fresh -> dd_payload_hash row = request_hash cs e ls)).
Proof.
  unfold gate. destruct (claim_mode cs).
  - unfold claim. rewrite claim_with_status_exact. fold (entry_business e). cbn [map_err mbind result_bind].
    destruct (db !! entry_business e) as [row|] eqn:E; cbn.
    + case_bool_decide; [done|]. destruct (dd_result_entry_id row) as [id|] eqn:Eid; [|done].
      case_bool_decide as Hs; [|done]. intros [= <- <-]. left. by exists id, row.
    + intros [= <- <-]. right. split; [done|]. split; [done|]. eexists. split; [done|]. done.
  - unfold read_dedup. cbn [t_find map_table]. fold (entry_business e).
    destruct (db !! entry_business e) as [row|] eqn:E; [|done]. cbn [fmap option_fmap option_map ref_row].
    intros Hg.
    assert (Hcase : (exists id, o = Some (PostReplay id) /\ db' = db /\ finalized row id) \/
      (o = None /\ db' = db /\ dd_status row = STATUS_QUEUED)).
    { revert Hg. unfold ref_row; cbn [pr_result_entry_id pr_status]. destruct (dd_result_entry_id row) as [id|] eqn:Eid; [case_bool_decide; [intros [= <- <-]; left; by exists id|]|];
        (case_bool_decide; [|done]); intros [= <- <-]; by right. }
    destruct Hcase as [(id & -> & -> & Hf)|(-> & -> & Hq)]; [left; by exists id, row|right].
    split; [done|]. split; [by intros ? [= <-]|]. exists row. by rewrite insert_id, Hq.
Qed.

(** ** The writes of a post *)

#[local] Instance dedup_keeps_preorder : PreOrder dedup_keeps.
Proof.
  split; [split; auto|]. intros a b c [R1 C1] [R2 C2]. split; [auto|]. intros k row Hk.
  destruct (C2 k row Hk) as [Hb|]; [by apply C1|by right].
Qed.

Lemma run_sidecar_keeps sc before posted l l' : sidecar_ok sc -> run_sidecar sc before posted l = Ok l' -> keeps l l'.
Proof.
  intros Hsc. unfold run_sidecar. destruct sc as [s|]; [|by intros [= <-]; constructor].
  destruct (Bool.eqb _ _); [|by intros [= <-]; constructor]. intros Hr%map_err_ok. by eapply Hsc.
Qed.

(** The reference an insert returns is the entry's own. *)
Lemma insert_ref db e ls seq db' id seq' : insert_entry_with_lines db e ls seq = Ok (db', (id, seq')) ->
  id = ne_entry_id e /\ seq' = seq.
Proof.
  unfold insert_entry_with_lines.
  intros (db0 & (Hfresh & Hh0 & _)%ok_or_ok%j_insert_header_ok & (db1 & (Hh1 & _)%insert_lines_ok & Hw)%bind_ok)%bind_ok.
  apply bind_ok in Hw as (w & Hw%ok_or_ok & [= -> <- <-]). rewrite <- Hh1 in Hh0.
  assert (Hf : j_find db' (header_key (header_of e seq)) = Some (header_of e seq))
    by (apply j_find_some; split; [rewrite Hh0; left|done]).
  change (ne_tenant_id e, ne_period_id e, ne_entry_id e) with (header_key (header_of e seq)) in Hw.
  rewrite Hf in Hw. injection Hw as <-. done.
Qed.

Record write_effect (env : AttemptEnv) (sides : gmap Uuid Side) (e : NewEntry) (ls : list NewLine) (l l' : Ledger) : Prop := {
  we_journal : ChainVerify.post (lg_journal l) e ls (ae_seq env) = Ok (lg_journal l');
  we_caches : project (lg_caches l) e ls sides (ae_seq env) = Ok (lg_caches l');
  we_reference : lg_reference l' = lg_reference l;
  we_dedup : exists d, dedup_keeps (lg_dedup l) d /\
    finalize d (ne_tenant_id e) (as_str (ne_source_doc_type e)) (ne_source_business_id e) (ne_entry_id e) (ae_now env)
      = Ok (lg_dedup l');
}.

Lemma write_post_ok env sc sides e ls l o l' : sidecar_ok sc -> write_post env sc sides e ls l = Ok (o, l') ->
  o = Posted (ne_entry_id e) (ae_seq env) /\ write_effect env sides e ls l l'.
Proof.
  intros Hsc. unfold write_post. intros ([j [id seq]] & Hins%map_err_ok & Hw)%bind_ok.
  destruct (insert_ref _ _ _ _ _ _ _ Hins) as [-> ->].
  apply bind_ok in Hw as (l1 & K1%run_sidecar_keeps & Hw); [|done]. apply bind_ok in Hw as (c & Hc%map_err_ok & Hw).
  apply bind_ok in Hw as (l2 & K2%run_sidecar_keeps & Hw); [|done]. apply bind_ok in Hw as (j' & Hs%map_err_ok & Hw).
  apply bind_ok in Hw as (d & Hd%map_err_ok & [= <- <-]). split; [done|].
  destruct K1 as [J1 C1 R1 D1], K2 as [J2 C2 R2 D2]. cbn in *. rewrite J2, J1 in Hs. rewrite C1 in Hc. constructor; cbn.
  - unfold ChainVerify.post. by rewrite Hins.
  - by rewrite C2.
  - by rewrite R2, R1.
  - exists (lg_dedup l2). split; [by transitivity (lg_dedup l1)|done].
Qed.

Lemma load_normal_sides_chart r scope tenant ls : admits tenant scope -> forall acc sides,
  (forall a s, acc !! a = Some s -> charted r tenant a s) ->
  fold_res (load_side r scope) acc ls = Ok sides ->
  forall a s, sides !! a = Some s -> charted r tenant a s.
Proof.
  intros Hadm. induction ls as [|line ls IH]; intros acc sides Hacc; cbn [fold_res]; [by intros [= <-]|].
  intros (acc' & Hl & Hrest)%bind_ok. eapply IH; [|done]. unfold load_side in Hl.
  destruct (acc !! nl_account_id line); [by injection Hl as <-|].
  apply bind_ok in Hl as (row & Hrow%ok_or_ok & Hl). apply bind_ok in Hl as (u & _ & Hl).
  apply bind_ok in Hl as (side & Hside & [= <-]). intros a s. rewrite lookup_insert_Some.
  intros [[<- <-]|[_ Ha]]; [|by apply Hacc]. unfold find_account_in in Hrow.
  apply bind_Some in Hrow as (row' & Hrow & Hvis). destruct (scope (acc_tenant_id row')) eqn:Hsc; [|done]. injection Hvis as ->.
  exists row, scope. split_and!; [done| |done..].
  revert Hside. case_bool_decide as E1; [by intros [= <-]|]. case_bool_decide as E2; [by intros [= <-]|done].
Qed.

Lemma books_journal (l l' : Ledger) ps e ls seq ph sides hash : books l ps ->
  post_effect (lg_journal l) e ls seq ph (lg_journal l') ->
  let p := mkPost e ls sides hash in
  core <$> j_headers (lg_journal l') ≡ₚ post_core <$> p :: ps /\
  (forall q, q ∈ p :: ps ->
     j_lines (lg_journal l') (entry_key_of (p_entry q)) ≡ₚ line_row_of (p_entry q) <$> p_lines q) /\
  (forall k, k ∉ header_key <$> j_headers (lg_journal l') -> j_lines (lg_journal l') k = []).
Proof.
  intros Hb [Hfresh _ _ Hh Hl Ho _] p. split_and!.
  - rewrite Hh, !fmap_cons. by rewrite (bk_headers _ _ Hb).
  - intros q [->|Hq]%elem_of_cons.
    + change (entry_key_of (p_entry p)) with (header_key (header_of e seq)).
      rewrite Hl, (bk_no_orphans _ _ Hb) by done. by rewrite app_nil_r.
    + rewrite Ho; [by apply (bk_lines _ _ Hb)|]. intros Heq. apply Hfresh. rewrite <- Heq, (header_keys_posts _ _ Hb).
      by apply (list_elem_of_fmap_2 (entry_key_of ∘ p_entry)).
  - intros k Hk. rewrite Hh, fmap_cons, not_elem_of_cons in Hk. destruct Hk as [Hne Hk].
    apply Permutation_nil_r. rewrite Ho by done. by rewrite (bk_no_orphans _ _ Hb).
Qed.

Lemma books_dedup (l : Ledger) ps e ls sides row hash d d' now : hash = dd_payload_hash row -> books l ps -> dd_status row <> STATUS_POSTED ->
  (forall old, lg_dedup l !! entry_business e = Some old -> dd_status old = STATUS_QUEUED) ->
  dedup_keeps (<[entry_business e := row]> (lg_dedup l)) d ->
  finalize d (ne_tenant_id e) (as_str (ne_source_doc_type e)) (ne_source_business_id e) (ne_entry_id e) now = Ok d' ->
  let p := mkPost e ls sides hash in
  (forall q, q ∈ p :: ps -> exists row, d' !! entry_business (p_entry q) = Some row /\
     finalized row (ne_entry_id (p_entry q)) /\ dd_payload_hash row = p_hash q) /\
  (forall k row, d' !! k = Some row -> dd_status row = STATUS_POSTED -> exists q, q ∈ p :: ps /\ entry_business (p_entry q) = k) /\
  NoDup (entry_business ∘ p_entry <$> p :: ps).
Proof.
  intros -> Hb Hrow Hold [Hrows Hclaims] (r & Hr & ->)%finalize_ok p. fold (entry_business e) in *.
  assert (Hnew : forall q, q ∈ ps -> entry_business (p_entry q) <> entry_business e).
  { intros q Hq Heq. destruct (bk_posted _ _ Hb q Hq) as (old & Hlk & [Hst _] & _). rewrite Heq in Hlk.
    rewrite (Hold old Hlk) in Hst. discriminate Hst. }
  assert (r = row) as -> by (specialize (Hrows _ row (lookup_insert_eq _ _ _)); congruence).
  split_and!.
  - intros q [->|Hq]%elem_of_cons; [cbn; rewrite lookup_insert_eq; eexists; split_and!; try done; cbn; congruence|].
    destruct (bk_posted _ _ Hb q Hq) as (old & Hlk & Hf). exists old. split; [|done].
    rewrite lookup_insert_ne by (symmetry; auto). apply Hrows. by rewrite lookup_insert_ne by (symmetry; auto).
  - intros k row'. rewrite lookup_insert_Some. intros [[<- _]|[Hne Hk]] Hst; [exists p; by split; [left|]|].
    destruct (Hclaims k row' Hk) as [Hk'|Hc]; [|rewrite Hc in Hst; discriminate Hst]. rewrite lookup_insert_ne in Hk' by done.
    destruct (bk_finalized _ _ Hb k row' Hk' Hst) as (q & Hq & Hqk). exists q. by split; [right|].
  - rewrite fmap_cons. constructor; [|apply Hb]. intros (q & Hq & Hin)%list_elem_of_fmap. by apply (Hnew q Hin).
Qed.

(** A fresh post enters the books. *)
Lemma books_post env (l l' : Ledger) ps e ls sides row : books l ps -> dd_status row <> STATUS_POSTED ->
  (forall old, lg_dedup l !! entry_business e = Some old -> dd_status old = STATUS_QUEUED) ->
  Forall line_valid ls -> balanced_entry (ne_entry_currency e) (new_line_facts <$> ls) ->
  admits (ne_tenant_id e) (ae_scope env) ->
  load_normal_sides (lg_reference l) (ae_scope env) ls = Ok sides ->
  write_effect env sides e ls (with_dedup (<[entry_business e := row]> (lg_dedup l)) l) l' ->
  books l' (mkPost e ls sides (dd_payload_hash row) :: ps).
Proof.
  intros Hb Hrow Hold Hv Hbal Hadm Hsides [Hj Hc Hr (d & Hd & Hf)]. cbn in *.
  destruct (post_ok _ _ _ _ _ Hj) as [ph He].
  destruct (books_journal _ l' _ _ _ _ _ sides (dd_payload_hash row) Hb He) as (Hh & Hl & Ho).
  destruct (books_dedup _ _ _ ls sides _ _ _ _ _ eq_refl Hb Hrow Hold Hd Hf) as (Hp & Hfin & Hnd).
  destruct (project_ties _ _ _ _ _ _ _ (bk_caches _ _ Hb) Hv Hc) as (gs & Hgs & Hties).
  constructor; try done.
  - constructor; [|apply Hb]. by constructor; [..|exists gs].
  - eapply caches_tie_perm; [|done]. assert (Hp0 : post_grains (mkPost e ls sides (dd_payload_hash row)) = gs) by (unfold post_grains; cbn [p_entry p_lines p_sides]; by rewrite Hgs).
    cbn [history flat_map]. rewrite Hp0. apply Permutation_app_comm.
  - intros q a s [->|Hq]%elem_of_cons; rewrite Hr.
    + revert a s. eapply load_normal_sides_chart; [done| |exact Hsides]. by intros a s Ha%lookup_empty_Some.
    + by apply (bk_chart _ _ Hb).
Qed.

(** ** What a post does to the books *)

Definition recorded (ps : list Post) (e : NewEntry) (id : Uuid) : Prop :=
  exists p, p ∈ ps /\ entry_business (p_entry p) = entry_business e /\ ne_entry_id (p_entry p) = id.

Lemma post_in_txn_books env e ls sides sc cs origin (l : Ledger) o l' ps : books l ps -> sidecar_ok sc ->
  Forall line_valid ls -> balanced_entry (ne_entry_currency e) (new_line_facts <$> ls) ->
  admits (ne_tenant_id e) (ae_scope env) ->
  load_normal_sides (lg_reference l) (ae_scope env) ls = Ok sides ->
  post_in_txn env e ls sides sc cs origin l = Ok (o, l') ->
  (l' = l /\ exists id, o = PostReplay id /\ recorded ps e id) \/
  (o = Posted (ne_entry_id e) (ae_seq env) /\ exists hash, (claim_mode cs = Fresh -> hash = request_hash cs e ls) /\
     books l' (mkPost e ls sides hash :: ps)).
Proof.
  intros Hb Hsc Hv Hbal Hadm Hsides. unfold post_in_txn. intros ([early d] & Hg & Hp)%bind_ok.
  destruct (gate_ok _ _ _ _ _ _ Hg) as [(id & row & -> & -> & Hrow & Hst & Hid)|(-> & Hold & row & -> & Hst & Hh)].
  - injection Hp as <- <-. left. split; [by destruct l|]. exists id. split; [done|].
    destruct (bk_finalized _ _ Hb _ _ Hrow Hst) as (p & Hp & Hk). exists p. split_and!; [done..|].
    destruct (bk_posted _ _ Hb p Hp) as (row' & Hrow' & [_ Hid'] & _). rewrite Hk in Hrow'. congruence.
  - apply bind_ok in Hp as (u & _ & Hw). apply write_post_ok in Hw as [-> Hw]; [|done].
    right. split; [done|]. exists (dd_payload_hash row). split; [done|]. by eapply books_post.
Qed.

(** The gate of every attempt admits balanced entries only. *)
Lemma prepare_balanced now (l : Ledger) e ls u : prepare_attempt now l e ls = Ok u ->
  balanced_entry (ne_entry_currency e) (new_line_facts <$> ls).
Proof.
  unfold prepare_attempt. intros ([] & Hv%map_err_ok & (u' & Hn%ensure_ok%bool_decide_eq_true & _)%bind_ok)%bind_ok.
  apply validate_sound; [|done]. unfold vec_ok. rewrite length_fmap. unfold MAX_LINES in Hn. lia.
Qed.

Lemma post_once_books env e ls sc cs (l : Ledger) ref l' ps : books l ps -> admits (ne_tenant_id e) (ae_scope env) -> sidecar_ok sc -> Forall line_valid ls ->
  post_once env e ls sc cs l = Ok (ref, l') ->
  (l' = l /\ ref_replayed ref = true /\ recorded ps e (ref_entry_id ref)) \/
  (ref = mkPostingRef (ne_entry_id e) (ae_seq env) false /\
   exists sides hash, (claim_mode cs = Fresh -> hash = request_hash cs e ls) /\ books l' (mkPost e ls sides hash :: ps)).
Proof.
  intros Hb Hadm Hsc Hv. unfold post_once. case_bool_decide; [done|].
  intros (u & Hp%prepare_balanced & (sides & Hs & ([o l1] & Ho & [= <- <-])%bind_ok)%bind_ok)%bind_ok.
  destruct (post_in_txn_books _ _ _ _ _ _ _ _ _ _ _ Hb Hsc Hv Hp Hadm Hs Ho) as [(-> & id & -> & Hr)|(-> & hash & Hb')];
    [by left|right]. split; [done|]. by exists sides, hash.
Qed.

Lemma decode_line_valid row l : decode_line row = Ok l -> line_valid l.
Proof.
  unfold decode_line. intros Hd. res_inv. constructor; cbn.
  - match goal with H : decode_money _ _ _ = Ok _ |- _ => apply decode_money_ok in H as (? & ? & _) end. by split.
  - intros m ->. match goal with H : decode_optional_money _ _ _ = Ok _ |- _ => rename H into Ho end.
    unfold decode_optional_money in Ho. repeat case_match; try done.
    apply fmap_ok in Ho as (m' & (? & ? & _)%decode_money_ok & [= ->]). by split.
Qed.

Lemma reversed_lines_valid rows ls : map_res decode_line rows = Ok ls ->
  Forall line_valid (imap (fun k line => reversed_line (now_v7 k) line) ls).
Proof.
  intros Hd%map_res_ok. apply Forall_lookup. intros i l' Hl. rewrite list_lookup_imap in Hl.
  destruct (ls !! i) as [l|] eqn:E; [|done]. injection Hl as <-.
  destruct (Forall2_lookup_r _ _ _ _ _ Hd E) as (row & _ & [Hm Hf]%decode_line_valid). by constructor.
Qed.

Lemma post_reversal_books env e sc cs (l : Ledger) ref l' ps : books l ps -> admits (ne_tenant_id e) (ae_scope env) -> sidecar_ok sc ->
  post_reversal_once env e sc cs l = Ok (ref, l') ->
  (l' = l /\ ref_replayed ref = true) \/ (ref_replayed ref = false /\ exists p, books l' (p :: ps)).
Proof.
  intros Hb Hadm Hsc. unfold post_reversal_once.
  intros (orig & _ & (period & _ & ([rs ls] & Hread%map_err_ok & Hp)%bind_ok)%bind_ok)%bind_ok.
  case_bool_decide; [done|]. unfold read_lines_to_reverse_in in Hread. case_match; [done|].
  apply bind_ok in Hread as (ls' & Hd & [= _ ->]).
  apply bind_ok in Hp as (u & Hbal%prepare_balanced & (sides & Hs & ([o l1] & Ho & [= <- <-])%bind_ok)%bind_ok).
  destruct (post_in_txn_books _ _ _ _ _ _ _ _ _ _ _ Hb Hsc (reversed_lines_valid _ _ Hd) Hbal Hadm Hs Ho)
    as [(-> & id & -> & Hr)|(-> & hash & _ & Hb')]; [by left|right]. split; [done|]. by eexists.
Qed.

(** Changes of the dedup table that leave finalized rows alone. *)
Lemma books_same_posted (l : Ledger) ps d : books l ps ->
  (forall k row, dd_status row = STATUS_POSTED -> lg_dedup l !! k = Some row <-> d !! k = Some row) ->
  books (with_dedup d l) ps.
Proof.
  intros Hb Hd. destruct Hb as [? ? ? ? ? Hp Hf ? ?]. constructor; try done; cbn.
  - intros p Hin. destruct (Hp p Hin) as (row & Hrow & [Hst Hid] & Hh). exists row. split; [by apply Hd|done].
  - intros k row Hrow Hst. apply (Hf k row); [by apply Hd|done].
Qed.

Lemma insert_not_posted (d : Dedup) k row : (forall old, d !! k = Some old -> dd_status old <> STATUS_POSTED) ->
  dd_status row <> STATUS_POSTED ->
  forall k' r, dd_status r = STATUS_POSTED -> d !! k' = Some r <-> <[k := row]> d !! k' = Some r.
Proof.
  intros Hold Hrow k' r Hr. destruct (decide (k' = k)) as [->|Hne]; [|by rewrite lookup_insert_ne].
  rewrite lookup_insert_eq. split; [intros Hk; by destruct (Hold r Hk)|]. intros [= ->]. done.
Qed.

Lemma claim_not_posted (d d' : Dedup) tenant flow business_id hash status outcome :
  status <> STATUS_POSTED -> claim_with_status d tenant flow business_id hash status = Ok (outcome, d') ->
  forall k r, dd_status r = STATUS_POSTED -> d !! k = Some r <-> d' !! k = Some r.
Proof.
  intros Hst. rewrite claim_with_status_exact. destruct (d !! (tenant, flow, business_id)) as [row|] eqn:E; intros [= <- <-]; [done|].
  apply insert_not_posted; [|done]. intros old. by rewrite E.
Qed.

Lemma store_not_posted (d d' : Dedup) tenant change_id hash successor :
  store_schedule_change_result d tenant change_id hash successor = Ok d' ->
  forall k r, dd_status r = STATUS_POSTED -> d !! k = Some r <-> d' !! k = Some r.
Proof.
  unfold store_schedule_change_result. cbn. unfold map_update.
  destruct (d !! (tenant, FLOW_SCHEDULE_CHANGE, change_id)) as [row|] eqn:E; [|done].
  destruct (_ && _) eqn:Hc; [|done]. intros [= <-]. bool_to_prop.
  apply insert_not_posted; [intros old; rewrite E; intros [= <-]|cbn];
    match goal with Hst : dd_status row = STATUS_CLAIMED |- _ => rewrite Hst end; discriminate.
Qed.

(** Every committed transaction keeps the books. *)
Lemma step_books (l l' : Ledger) ps : books l ps -> step l l' -> exists qs, books l' (qs ++ ps).
Proof.
  intros Hb Hs. destruct Hs as [env e ls sc cs ref l l' Hadm Hv Hsc Hp|env e sc cs ref l l' Hadm Hsc Hp
    |tenant flow business_id hash outcome d l Hc|tenant change_id hash successor outcome d d' l Hc Hst|r l Hr|s l].
  - destruct (post_once_books _ _ _ _ _ _ _ _ _ Hb Hadm Hsc Hv Hp) as [(-> & _)|(_ & sides & hash & _ & Hb')]; [by exists []|by eexists [_]].
  - destruct (post_reversal_books _ _ _ _ _ _ _ _ Hb Hadm Hsc Hp) as [(-> & _)|(_ & p & Hb')]; [by exists []|by exists [p]].
  - exists []. apply books_same_posted; [done|]. eapply claim_not_posted; [|exact Hc]. discriminate.
  - exists []. apply books_same_posted; [done|]. intros k row Hrow.
    etransitivity; [eapply claim_not_posted; [|exact Hc|done]; discriminate|by eapply store_not_posted].
  - exists []. destruct Hb as [? ? ? ? ? ? ? ? Hch]. constructor; try done. cbn. intros p a s Hp Ha.
    destruct (Hch p a s Hp Ha) as (row & scope & Hrow & Hn & Hsc). destruct (Hr a row Hrow) as (row' & Hrow' & Ht & Hn').
    exists row', scope. by rewrite Hn', Ht.
  - exists []. by destruct Hb.
Qed.

Lemma steps_books (l l' : Ledger) : rtc step l l' -> forall ps, books l ps -> exists qs, books l' (qs ++ ps).
Proof.
  induction 1 as [l|l l1 l' Hs _ IH]; intros ps Hb; [by exists []|].
  destruct (step_books _ _ _ Hb Hs) as [q1 H1']. destruct (IH _ H1') as [q2 H2']. exists (q2 ++ q1). by rewrite <- app_assoc.
Qed.

Lemma reachable_books (l : Ledger) : reachable l -> exists ps, books l ps.
Proof.
  intros (l0 & Hi & Hs). destruct (steps_books _ _ Hs [] (books_initial _ Hi)) as [qs Hb]. by exists (qs ++ []).
Qed.

End posting_run.
