(* ===== verification/PostingLaws.v ===== *)
(** * What holds of the books

    The consequences of the invariant [books] for every reachable state: an
    idempotency key has at most one entry, a post that is answered is in the journal
    once, a repeated post is answered with the entry the first one made, and the
    account balances of a tenant sum to zero. *)

From S2P Require Import Prelude Decimal Money Exact ExactGrid Table DomainErrors MoneyText Sdk Json Canonical Chain.
From S2P Require Import Posting DualApproval Journal ChainVerify ChainRun Projector ProjectorProps Idempotency PostingEngine PostingRun.

Section laws.
Context `{DecimalText} `{!Sha256} `{!DateText} `{!UuidSource} {D S : Type} `{!JournalDb D}.
Context (admits : Uuid -> AccessScope -> Prop).
Abbreviation Ledger := (Ledger (D := D) (S := S)).
Abbreviation PostSidecar := (PostSidecar (D := D) (S := S)).

(** ** Entries by key *)

Definition entries_with (k : DedupKey) (l : Ledger) : list EntryRow :=
  List.filter (fun h => bool_decide (header_business h = k)) (j_headers (lg_journal l)).

Lemma entries_of_posts (l : Ledger) ps k : books admits l ps ->
  er_entry_id <$> entries_with k l ≡ₚ
  ne_entry_id ∘ p_entry <$> List.filter (fun p => bool_decide (entry_business (p_entry p) = k)) ps.
Proof.
  intros Hb. pose proof (fmap_Permutation (fun c : EntryKey * DedupKey => snd (fst c)) _ _
    (filter_bool_perm (fun c : EntryKey * DedupKey => bool_decide (snd c = k)) _ _ (bk_headers _ _ _ Hb))) as Hp.
  by rewrite !filter_bool_map, <- !list_fmap_compose in Hp.
Qed.

(** A recorded entry is the only one of its key. *)
Lemma recorded_entry (l : Ledger) ps e id : books admits l ps -> recorded ps e id ->
  er_entry_id <$> entries_with (entry_business e) l = [id].
Proof.
  intros Hb (p & Hp & Hk & Hid). apply Permutation_singleton_r. rewrite (entries_of_posts _ _ _ Hb), <- Hk.
  rewrite (filter_bool_unique (entry_business ∘ p_entry) ps p); [|apply Hb|done]. cbn. by rewrite Hid.
Qed.

Lemma once_entry (l : Ledger) ps k : books admits l ps -> (length (entries_with k l) <= 1)%nat.
Proof.
  intros Hb. rewrite <- (length_fmap er_entry_id), (Permutation_length (entries_of_posts _ _ _ Hb)), length_fmap.
  destruct (List.filter _ ps) as [|p qs] eqn:E; [cbn; lia|].
  assert (p ∈ p :: qs) as Hp by left. rewrite <- E in Hp. apply elem_of_filter_bool in Hp as [Hk%bool_decide_eq_true Hp].
  rewrite <- Hk, (filter_bool_unique (entry_business ∘ p_entry) ps p) in E; [|apply Hb|done]. by injection E as <-.
Qed.

(** C2: In every reachable state, whatever the mix of posts, reversals, queue intakes, schedule
    changes and other writes that committed, an idempotency key has at most one journal entry, and the
    dedup table says so exactly: a row is finalized with an entry identifier if and only if the journal
    has a header with that key and that identifier. *)
Theorem posting_exactly_once (l : Ledger) : reachable admits l ->
  NoDup (header_business <$> j_headers (lg_journal l)) /\
  forall k id, (exists row, lg_dedup l !! k = Some row /\ finalized row id) <->
    exists h, h ∈ j_headers (lg_journal l) /\ header_business h = k /\ er_entry_id h = id.
Proof.
  intros (ps & Hb)%reachable_books.
  assert (Hperm : header_business <$> j_headers (lg_journal l) ≡ₚ entry_business ∘ p_entry <$> ps).
  { pose proof (fmap_Permutation snd _ _ (bk_headers _ _ _ Hb)) as Hp. by rewrite <- !list_fmap_compose in Hp. }
  split; [rewrite Hperm; apply Hb|]. intros k id. split.
  - intros (row & Hrow & Hst & Hid). destruct (bk_finalized _ _ _ Hb k row Hrow Hst) as (p & Hp & Hk).
    destruct (bk_posted _ _ _ Hb p Hp) as (row' & Hrow' & [_ Hid'] & _). rewrite Hk, Hrow in Hrow'. injection Hrow' as <-.
    rewrite Hid in Hid'. injection Hid' as ->.
    pose proof (recorded_entry l ps (p_entry p) _ Hb ltac:(by exists p)) as He.
    destruct (entries_with _ _) as [|h hs] eqn:E; [done|]. assert (h ∈ h :: hs) as Hh by left. rewrite <- E in Hh.
    apply elem_of_filter_bool in Hh as [Hhk%bool_decide_eq_true Hh]. exists h. injection He as He _. by rewrite Hhk.
  - intros (h & Hh & <- & <-). assert (core h ∈ post_core <$> ps) as (p & Hc & Hp)%list_elem_of_fmap
      by (rewrite <- (bk_headers _ _ _ Hb); by apply list_elem_of_fmap_2).
    injection Hc as Ht Hper Hid Hk1 Hk2 Hk3. destruct (bk_posted _ _ _ Hb p Hp) as (row & Hrow & Hf & _).
    exists row. unfold header_business. rewrite Hk1, Hk2, Hk3, Hid. done.
Qed.

(** ** A post under retries *)

Definition others_run (attempt : nat -> PostAttempt (D := D) (S := S)) : Prop :=
  forall n l, rtc (step admits) l (pa_others (attempt n) l).
Definition scoped (attempt : nat -> PostAttempt (D := D) (S := S)) (e : NewEntry) : Prop :=
  forall n, admits (ne_tenant_id e) (ae_scope (pa_env (attempt n))).

Lemma post_once_step env e ls sc cs (l : Ledger) ref l' : admits (ne_tenant_id e) (ae_scope env) -> Forall line_valid ls ->
  sidecar_ok sc -> post_once env e ls sc cs l = Ok (ref, l') -> step admits l l'.
Proof. intros. by eapply step_post. Qed.

Lemma post_once_recorded env e ls sc cs (l : Ledger) ref l' : reachable admits l -> admits (ne_tenant_id e) (ae_scope env) ->
  Forall line_valid ls -> sidecar_ok sc -> post_once env e ls sc cs l = Ok (ref, l') ->
  er_entry_id <$> entries_with (entry_business e) l' = [ref_entry_id ref].
Proof.
  intros (ps & Hb)%reachable_books Hadm Hv Hsc Hp.
  destruct (post_once_books _ _ _ _ _ _ _ _ _ _ Hb Hadm Hsc Hv Hp) as [(-> & _ & Hr)|(-> & sides & hash & _ & Hb')];
    [by eapply recorded_entry|]. eapply recorded_entry; [done|]. eexists. by split; [left|].
Qed.

Lemma reachable_steps (l l' : Ledger) : reachable admits l -> rtc (step admits) l l' -> reachable admits l'.
Proof. intros (l0 & Hi & Hs) Hs'. exists l0. split; [done|]. by etransitivity. Qed.

Lemma retry_post_ok e ls sc cs fuel : Forall line_valid ls -> sidecar_ok sc -> forall attempt (l : Ledger) l' r,
  reachable admits l -> others_run attempt -> scoped attempt e ->
  retry_post fuel attempt (fun env => post_once env e ls sc cs) l = (l', r) ->
  reachable admits l' /\
  forall ref, r = Ok ref -> er_entry_id <$> entries_with (entry_business e) l' = [ref_entry_id ref].
Proof.
  intros Hv Hsc. induction fuel as [|fuel IH]; intros attempt l l' r Hl Ho Hs; cbn [retry_post]; [by intros [= <- <-]|].
  pose proof (reachable_steps _ _ Hl (Ho 0%nat l)) as Hl1. cbn zeta. set (l1 := pa_others (attempt 0%nat) l) in *.
  assert (Hrest : forall out, retry_post fuel (fun n => attempt (Datatypes.S n)) (fun env => post_once env e ls sc cs) l1 = out ->
    reachable admits (fst out) /\ forall ref, snd out = Ok ref -> er_entry_id <$> entries_with (entry_business e) (fst out) = [ref_entry_id ref])
    by (intros [l2 r2] Hout; eapply IH; [exact Hl1|intros n; apply Ho|intros n; apply Hs|exact Hout]).
  assert (Hcommit : forall ref l2, post_once (pa_env (attempt 0%nat)) e ls sc cs l1 = Ok (ref, l2) -> reachable admits l2)
    by (intros ref l2 Hp; eapply reachable_steps; [exact Hl1|]; by eapply rtc_once, post_once_step).
  destruct (pa_fault _) as [[|err|err]|].
  - apply (Hrest (l', r)).
  - by intros [= <- <-].
  - destruct (post_once _ _ _ _ _ l1) as [[ref l2]|err'] eqn:Hp; intros [= <- <-]; split; try done. by eapply Hcommit.
  - destruct (post_once _ _ _ _ _ l1) as [[ref l2]|[]] eqn:Hp; [|apply (Hrest (l', r))|by intros [= <- <-]].
    intros [= <- <-]. split; [by eapply Hcommit|]. intros ref' [= <-]. by eapply post_once_recorded.
Qed.

(** C9: A post is exactly once under retries, competing transactions and lost acknowledgements.
    Whatever transactions commit between its attempts and whichever attempts the database fails, the
    state it ends in is reachable, its key has at most one entry, and when the caller is answered with
    a reference, the key has exactly one entry, the one of the reference. *)
Theorem run_post_exactly_once now attempt e ls sc cs (l : Ledger) : reachable admits l -> others_run attempt ->
  scoped attempt e -> Forall line_valid ls -> sidecar_ok sc ->
  let '(l', r, _) := run_post now attempt e ls sc cs l in
  reachable admits l' /\ (length (entries_with (entry_business e) l') <= 1)%nat /\
  forall ref, r = Ok ref -> er_entry_id <$> entries_with (entry_business e) l' = [ref_entry_id ref].
Proof.
  intros Hl Ho Hs Hv Hsc. destruct (run_post _ _ _ _ _ _ _) as [[l' r] alarms] eqn:Hr.
  assert (reachable admits l' /\ forall ref, r = Ok ref -> er_entry_id <$> entries_with (entry_business e) l' = [ref_entry_id ref])
    as [Hl' Hok].
  { unfold run_post in Hr. destruct (classify_clock_skew _ _); [| |by injection Hr as <- <- _].
    all: destruct (retry_post _ _ _ _) as [l2 r2] eqn:Hret; injection Hr as <- <- _; by eapply retry_post_ok. }
  split; [done|]. split; [|done]. destruct (reachable_books _ _ Hl') as [ps Hb]. by eapply once_entry.
Qed.

(** ** A repeated post *)

(** The answer to a fresh request whose key has a finalized row. *)
Lemma replay_exact env e ls sc cs (l : Ledger) row id : lg_dedup l !! entry_business e = Some row -> finalized row id ->
  claim_mode cs = Fresh -> ne_source_doc_type e <> Sdk.Reversal ->
  prepare_attempt (ae_now env) l e ls = Ok tt -> is_ok (load_normal_sides (lg_reference l) (ae_scope env) ls) = true ->
  post_once env e ls sc cs l =
    if bool_decide (dd_payload_hash row = request_hash cs e ls) then Ok (mkPostingRef id 0 true, l)
    else Err (business DomainError.IdempotencyConflict).
Proof.
  intros Hrow [Hst Hid] Hm Hrev Hprep [sides Hsides]%is_ok_exists.
  unfold post_once. rewrite bool_decide_false, Hprep by done. cbn [mbind result_bind]. rewrite Hsides. cbn [mbind result_bind].
  unfold post_in_txn, gate, claim. rewrite Hm, claim_with_status_exact. fold (entry_business e) (request_hash cs e ls). rewrite Hrow.
  cbn [map_err mbind result_bind]. unfold ref_row. cbn [pr_payload_hash pr_status pr_result_entry_id].
  rewrite Hst, Hid, (bool_decide_true (STATUS_POSTED = STATUS_POSTED)) by done.
  rewrite (bool_decide_decide (dd_payload_hash row <> _)), (bool_decide_decide (dd_payload_hash row = _)).
  destruct (decide (dd_payload_hash row = request_hash cs e ls)) as [E|E], (decide (dd_payload_hash row <> _)); try done.
  cbn [mbind result_bind]. by destruct l.
Qed.

(** C10: A repeated request of a posted key changes nothing.  Let a request post its entry; after
    any further transactions, a request with the same key that passes the structural gate and whose
    accounts are open is answered with the identifier of that entry when it has the payload hash of the
    first request, and is refused as an idempotency conflict when it has another. *)
Theorem repeated_post_replays env env' e e' ls ls' sc sc' cs cs' (l0 l1 l : Ledger) ref :
  reachable admits l0 -> admits (ne_tenant_id e) (ae_scope env) -> Forall line_valid ls -> sidecar_ok sc ->
  claim_mode cs = Fresh -> post_once env e ls sc cs l0 = Ok (ref, l1) -> ref_replayed ref = false ->
  rtc (step admits) l1 l ->
  entry_business e' = entry_business e -> ne_source_doc_type e' <> Sdk.Reversal -> claim_mode cs' = Fresh ->
  prepare_attempt (ae_now env') l e' ls' = Ok tt ->
  is_ok (load_normal_sides (lg_reference l) (ae_scope env') ls') = true ->
  post_once env' e' ls' sc' cs' l =
    if bool_decide (request_hash cs e ls = request_hash cs' e' ls') then Ok (mkPostingRef (ref_entry_id ref) 0 true, l)
    else Err (business DomainError.IdempotencyConflict).
Proof.
  intros (ps & Hb)%reachable_books Hadm Hv Hsc Hm Hp Hnew Hs Hk Hrev Hm' Hprep Hsides.
  destruct (post_once_books _ _ _ _ _ _ _ _ _ _ Hb Hadm Hsc Hv Hp) as [(_ & Hrep & _)|(-> & sides & hash & Hh & Hb1)];
    [congruence|]. destruct (steps_books _ _ _ Hs _ Hb1) as [qs Hb2].
  destruct (bk_posted _ _ _ Hb2 (mkPost e ls sides hash)) as (row & Hrow & Hf & Hrh); [apply elem_of_app; right; left|].
  cbn [p_entry p_hash] in *. rewrite <- Hh, <- Hrh by done. rewrite <- Hk in Hrow. by apply replay_exact.
Qed.

(** ** The trial balance *)

Definition is_account (g : GrainDelta) : bool := bool_decide (table_rank g = GAccount).

(** A balance counted on the debit side. *)
Definition on_debit (side : string) (z : Z) : Z := if bool_decide (side = as_str Debit) then z else - z.

(** The sum of a tenant's account balances in a currency, debit balances counted positive. *)
Definition trial_balance (c : Caches) (tenant : Uuid) (cur : string) : Z :=
  sum_Z (fun '((t, _, code), r) =>
    if bool_decide (t = tenant) && bool_decide (code = cur)
    then on_debit (ac_normal_side (cr_own r)) match decode_balance r with Ok m => posted_units m | Err _ => 0 end
    else 0) (map_to_list (account_balance c)).

(** The same of the functional balances in a functional currency. *)
Definition functional_trial_balance (c : Caches) (tenant : Uuid) (cur : CurrencySpec) : Z :=
  sum_Z (fun '((t, _, _), r) =>
    match decode_functional r with
    | Ok (Some m) => if bool_decide (t = tenant) && bool_decide (currency m = cur)
                     then on_debit (ac_normal_side (cr_own r)) (posted_units m) else 0
    | _ => 0
    end) (map_to_list (account_balance c)).

(** Summing a measure of the account rows is summing it over the lines' grains. *)
Lemma account_sum (F : Uuid * Uuid * string -> CacheRow AccountColumns -> Z) (w : GrainDelta -> Z) t h :
  table_ties GAccount account_entity account_own t h ->
  (forall k r b f, t !! k = Some r -> row_ties GAccount account_entity account_own r
     (grains_at GAccount account_entity k h) b f -> F k r = sum_Z w (grains_at GAccount account_entity k h)) ->
  sum_Z (fun '(k, r) => F k r) (map_to_list t) = sum_Z w (List.filter is_account h).
Proof.
  intros Ht HF. rewrite <- (sum_Z_by_key w is_account (ce_key account_entity) (fst <$> map_to_list t) h).
  - rewrite sum_Z_map. apply sum_Z_ext. intros [k r] Hk%elem_of_map_to_list. specialize (Ht k). unfold key_ties in Ht.
    rewrite Hk in Ht. destruct Ht as (b & f & Hr). cbn. by erewrite HF.
  - apply NoDup_fst_map_to_list.
  - intros g Hg Ha%bool_decide_eq_true. specialize (Ht (ce_key account_entity g)). unfold key_ties in Ht.
    destruct (t !! ce_key account_entity g) as [r|] eqn:E.
    + apply (list_elem_of_fmap_2 fst _ (ce_key account_entity g, r)). by apply elem_of_map_to_list.
    + assert (g ∈ grains_at GAccount account_entity (ce_key account_entity g) h) as Hin.
      { apply elem_of_filter_bool. split; [|done]. unfold belongs. by rewrite !bool_decide_true. }
      rewrite Ht in Hin. by apply not_elem_of_nil in Hin.
Qed.

(** An entry has one account grain per line. *)
Lemma line_account_grains e sides l gs : line_grains e sides l = Ok gs ->
  exists ns, sides !! nl_account_id l = Some ns /\ List.filter is_account gs = [base_grain e l ns].
Proof.
  unfold line_grains. intros (ns & Hns%ok_or_ok & Hg)%bind_ok. exists ns. split; [done|].
  destruct (nl_account_class l); try (by injection Hg as <-).
  - injection Hg as <-. by destruct (nl_invoice_id l).
  - by apply bind_ok in Hg as (ev & _ & [= <-]).
  - injection Hg as <-. by destruct (nl_tax_jurisdiction l), (nl_tax_filing_period l).
Qed.

Lemma entry_account_sum (w : GrainDelta -> Z) (v : NewLine -> Z) e sides ls gs :
  (forall l ns, l ∈ ls -> w (base_grain e l ns) = v l) -> entry_grains e ls sides = Ok gs ->
  sum_Z w (List.filter is_account gs) = sum_Z v ls.
Proof.
  intros Hw. unfold entry_grains. intros (gss & Hm%map_res_ok & [= <-])%bind_ok.
  induction Hm as [|l gs ls gss Hl _ IH]; [done|].
  change (mjoin (gs :: gss)) with (gs ++ mjoin gss). rewrite List.filter_app, sum_Z_app, sum_Z_cons.
  rewrite IH by (intros; apply Hw; by right). destruct (line_account_grains _ _ _ _ Hl) as (ns & _ & ->).
  rewrite sum_Z_cons, sum_Z_nil, Hw by left. lia.
Qed.

(** A measure that vanishes on every entry vanishes on the history. *)
Lemma history_account_sum (w : GrainDelta -> Z) (v : Post -> NewLine -> Z) ps : Forall post_valid ps ->
  (forall p l ns, p ∈ ps -> l ∈ p_lines p -> w (base_grain (p_entry p) l ns) = v p l) ->
  (forall p, p ∈ ps -> post_valid p -> sum_Z (v p) (p_lines p) = 0) ->
  sum_Z w (List.filter is_account (history ps)) = 0.
Proof.
  induction 1 as [|p ps Hp Hps IH]; intros Hw Hz; [done|]. cbn [history flat_map]. rewrite List.filter_app, sum_Z_app.
  change (flat_map post_grains ps) with (history ps).
  rewrite IH; [|by intros p' l ns Hin; apply Hw; right|by intros p' Hin; apply Hz; right].
  destruct (pv_grains _ Hp) as (gs & Hgs). unfold post_grains. rewrite Hgs.
  rewrite (entry_account_sum w (v p) _ _ _ _ ltac:(intros; apply Hw; [left|done]) Hgs), Hz by first [left|done]. lia.
Qed.

Lemma base_grain_units l ns m : on_debit (as_str ns) (amount_units (signed_amount ns l m)) = signed (nl_side l) (posted_units m).
Proof.
  unfold signed_amount. rewrite (proj2 (from_decimal_grid _)). unfold posted_units, on_debit.
  destruct ns, (nl_side l); cbn [signed]; repeat case_bool_decide; try done; rewrite ?units_neg; lia.
Qed.

Definition debit_grain (tenant : Uuid) (cur : string) (g : GrainDelta) : Z :=
  if bool_decide (gd_tenant_id g = tenant) && bool_decide (gd_currency g = cur)
  then on_debit (as_str (gd_normal_side g)) (delta_units g) else 0.

Lemma on_debit_sum side f gs : (forall g : GrainDelta, g ∈ gs -> as_str (gd_normal_side g) = side) ->
  on_debit side (sum_Z f gs) = sum_Z (fun g => on_debit (as_str (gd_normal_side g)) (f g)) gs.
Proof.
  induction gs as [|g gs IH]; intros Hs; [unfold on_debit; by case_bool_decide|]. rewrite !sum_Z_cons, <- IH, (Hs g) by set_solver.
  unfold on_debit. case_bool_decide; lia.
Qed.

Lemma belongs_account k g h : g ∈ grains_at GAccount account_entity k h ->
  k = (gd_tenant_id g, gd_account_id g, gd_currency g).
Proof.
  intros [Hb _]%elem_of_filter_bool. by apply andb_true_iff in Hb as [_ <-%bool_decide_eq_true].
Qed.

Lemma trial_balance_history c h tenant cur : caches_tie c h ->
  trial_balance c tenant cur = sum_Z (debit_grain tenant cur) (List.filter is_account h).
Proof.
  intros Hc. apply (account_sum (fun k r => let '(t, _, code) := k in
    if bool_decide (t = tenant) && bool_decide (code = cur)
    then on_debit (ac_normal_side (cr_own r)) match decode_balance r with Ok m => posted_units m | Err _ => 0 end
    else 0) _ _ _ (ct_account _ _ Hc)).
  intros [[t a] code] r b f Hk Hr. rewrite (rt_balance _ _ _ _ _ _ _ Hr), (rt_units _ _ _ _ _ _ _ Hr).
  pose proof (rt_own _ _ _ _ _ _ _ Hr) as Hown. set (gs := grains_at _ _ _ _) in *.
  rewrite on_debit_sum by (intros g Hg; by destruct (Hown g Hg)).
  destruct (_ && _) eqn:Hm.
  - apply sum_Z_ext. intros g Hg. injection (belongs_account _ _ _ Hg) as -> -> ->. unfold debit_grain. by rewrite Hm.
  - symmetry. apply sum_Z_zero. intros g Hg. injection (belongs_account _ _ _ Hg) as -> -> ->. unfold debit_grain. by rewrite Hm.
Qed.

Definition debit_functional_grain (tenant : Uuid) (cur : CurrencySpec) (g : GrainDelta) : Z :=
  if bool_decide (gd_tenant_id g = tenant) && bool_decide (functional_currency g = Some cur)
  then on_debit (as_str (gd_normal_side g)) (functional_units_of g) else 0.

Lemma functional_trial_balance_history c h tenant cur : caches_tie c h ->
  functional_trial_balance c tenant cur = sum_Z (debit_functional_grain tenant cur) (List.filter is_account h).
Proof.
  intros Hc. apply (account_sum (fun k r => let '(t, _, _) := k in
    match decode_functional r with
    | Ok (Some m) => if bool_decide (t = tenant) && bool_decide (currency m = cur)
                     then on_debit (ac_normal_side (cr_own r)) (posted_units m) else 0
    | _ => 0
    end) _ _ _ (ct_account _ _ Hc)).
  intros [[t a] code] r b f Hk Hr. pose proof (rt_functional _ _ _ _ _ _ _ Hr) as Hf.
  change (ce_functional account_entity) with (decode_functional (X := AccountColumns)) in Hf. rewrite Hf.
  pose proof (rt_own _ _ _ _ _ _ _ Hr) as Hown. pose proof (rt_functional_currency _ _ _ _ _ _ _ Hr) as Hcur.
  pose proof (rt_functional_units _ _ _ _ _ _ _ Hr) as Hu. set (gs := grains_at _ _ _ _) in *.
  destruct f as [m|].
  - rewrite (Hu m), on_debit_sum by first [done|intros g Hg; by destruct (Hown g Hg)]. unfold debit_functional_grain.
    destruct (_ && _) eqn:Hm; [apply sum_Z_ext|symmetry; apply sum_Z_zero]; intros g Hg;
      injection (belongs_account _ _ _ Hg) as -> -> ->; rewrite (Hcur g) by done; cbn;
      revert Hm; rewrite !andb_true_iff || rewrite !andb_false_iff; intros Hm.
    all: repeat case_bool_decide; naive_solver.
  - symmetry. apply sum_Z_zero. intros g Hg. unfold debit_functional_grain. rewrite (Hcur g) by done. cbn.
    rewrite (bool_decide_false (None = Some cur)), andb_false_r by done. done.
Qed.

(** C3: The trial balance of every tenant is zero in every reachable state, in every currency: the
    cached account balances, read from their rows and counted on their normal sides, have debits equal
    to credits exactly, and so have the functional balances in every functional currency. *)
Theorem trial_balance_zero (l : Ledger) tenant cur fcur : reachable admits l ->
  trial_balance (lg_caches l) tenant cur = 0 /\ functional_trial_balance (lg_caches l) tenant fcur = 0.
Proof.
  intros (ps & Hb)%reachable_books. split.
  - rewrite (trial_balance_history _ _ _ _ (bk_caches _ _ _ Hb)).
    apply (history_account_sum _ (fun p line => if bool_decide (ne_tenant_id (p_entry p) = tenant)
      then (if bool_decide (code (currency (nl_money line)) = cur) then signed (nl_side line) (posted_units (nl_money line)) else 0)
      else 0)); [apply Hb|..].
    + intros p line ns _ _. unfold debit_grain. cbn. unfold delta_units. cbn [delta base_grain]. rewrite base_grain_units.
      by repeat case_bool_decide.
    + intros p _ Hv. case_bool_decide; [|by apply sum_Z_zero]. pose proof (be_net _ _ (pv_balanced _ Hv) cur) as Hn.
      unfold net_of in Hn. by rewrite sum_Z_map in Hn.
  - rewrite (functional_trial_balance_history _ _ _ _ (bk_caches _ _ _ Hb)).
    apply (history_account_sum _ (fun p line => if bool_decide (ne_tenant_id (p_entry p) = tenant)
      then match nl_functional_money line with
           | Some m => if bool_decide (currency m = fcur) then signed (nl_side line) (posted_units m) else 0
           | None => 0 end
      else 0)); [apply Hb|..].
    + intros p line ns _ _. unfold debit_functional_grain, functional_units_of. cbn.
      destruct (nl_functional_money line) as [m|]; cbn; [|by repeat case_bool_decide].
      rewrite base_grain_units. repeat case_bool_decide; naive_solver.
    + intros p _ Hv. case_bool_decide; [|by apply sum_Z_zero].
      destruct (be_functional _ _ (pv_balanced _ Hv)) as [Hnone|(spec & Hspec & Hsum)].
      * apply sum_Z_zero. intros line Hl. rewrite Forall_fmap, Forall_forall in Hnone. specialize (Hnone _ Hl). cbn in Hnone. by rewrite Hnone.
      * rewrite Forall_fmap, Forall_forall in Hspec. rewrite sum_Z_map in Hsum. unfold functional_units in Hsum. cbn in Hsum.
        destruct (decide (spec = fcur)) as [->|Hne].
        -- rewrite <- Hsum. apply sum_Z_ext. intros line Hl. destruct (Hspec _ Hl) as (m & Hm & Hc). cbn in Hm. rewrite Hm.
           by rewrite bool_decide_true.
        -- apply sum_Z_zero. intros line Hl. destruct (Hspec _ Hl) as (m & Hm & Hc). cbn in Hm. rewrite Hm.
           by rewrite bool_decide_false by congruence.
Qed.

(** ** Guarded balances *)

(** A row of the account table has the class of its lines; its balance decodes, and is not negative
    when the class is guarded. *)
Lemma account_row c h k r : caches_tie c h -> account_balance c !! k = Some r ->
  exists b cls, decode_balance r = Ok b /\ ac_account_class (cr_own r) = as_str cls /\
    (is_guarded cls = true -> 0 <= posted_units b).
Proof.
  intros Hc Hk. pose proof (ct_account _ _ Hc k) as Ht. unfold key_ties in Ht. rewrite Hk in Ht. destruct Ht as (b & f & Hr).
  pose proof (rt_own _ _ _ _ _ _ _ Hr) as Hown. destruct (grains_at _ _ _ _) as [|g gs] eqn:E; [by destruct (rt_some _ _ _ _ _ _ _ Hr)|].
  exists b, (gd_account_class g). split; [apply Hr|]. split; [by apply Hown; left|]. intros Hg.
  apply (rt_guard _ _ _ _ _ _ _ Hr g ltac:(left)). by left.
Qed.

(** C11: The no-negative rule holds in every reachable state: the balance of an account of a guarded
    class and of a reusable-credit grant decodes and is not negative, and the disputed part of an open
    invoice decodes and lies between zero and the invoice's balance. *)
Theorem guarded_balances (l : Ledger) : reachable admits l ->
  (forall k r cls, account_balance (lg_caches l) !! k = Some r -> ac_account_class (cr_own r) = as_str cls ->
     is_guarded cls = true -> exists b, decode_balance r = Ok b /\ 0 <= posted_units b) /\
  (forall k r, reusable_credit_subbalance (lg_caches l) !! k = Some r ->
     exists b, decode_balance r = Ok b /\ 0 <= posted_units b) /\
  (forall k r, ar_invoice_balance (lg_caches l) !! k = Some r -> exists b d, decode_balance r = Ok b /\
     decode_money (ic_disputed (cr_own r)) (cr_currency r) (cr_currency_scale r) = Ok d /\
     0 <= posted_units d <= posted_units b).
Proof.
  intros (ps & Hb)%reachable_books. destruct (bk_caches _ _ _ Hb) as [_ _ _ Hi _ Hc _].
  split_and!.
  - intros k r cls Hk Hcls Hg. destruct (account_row _ _ _ _ (bk_caches _ _ _ Hb) Hk) as (b & cls' & Hd & Hcls' & Hpos).
    exists b. split; [done|]. apply Hpos. rewrite Hcls in Hcls'. by rewrite <- (as_str_inj _ _ Hcls').
  - intros k r Hk. specialize (Hc k). unfold key_ties in Hc. rewrite Hk in Hc. destruct Hc as (b & f & Hr).
    exists b. split; [apply Hr|]. destruct (grains_at _ _ _ _) as [|g gs] eqn:E; [by destruct (rt_some _ _ _ _ _ _ _ Hr)|].
    apply (rt_guard _ _ _ _ _ _ _ Hr g ltac:(left)). by right.
  - intros k r Hk. specialize (Hi k). unfold key_ties in Hi. rewrite Hk in Hi. destruct Hi as (b & f & Hr).
    destruct (rt_own _ _ _ _ _ _ _ Hr) as (d & Hd & _ & Hle). pose proof (rt_balance _ _ _ _ _ _ _ Hr) as Hdec.
    exists b, d. split_and!; [done| |lia..]. apply decode_money_ok in Hdec as (_ & _ & _ & <- & <-). done.
Qed.
End laws.
