(* ===== verification/TieOut.v ===== *)
(** * The tie-out job: [ledger/src/infra/jobs/tieout.rs]

    The full tie-out recomputes the six balance caches of a tenant from its journal
    lines and reports every disagreement, with an independent check of the entries'
    balance, of the no-negative rule and of the payment counters.  A hash map is a
    finite map; the order in which a report lists its items follows the map.  Reading
    a table is a function of the state; the pages of the journal scans are cut and
    folded as in the source.  The incremental tie-out compares a stored baseline plus
    the lines of the open periods with the caches, in the key space of the baseline.
    The counters of payments live in the tables of other parts of the ledger, which an
    accessor reads.  Log records and the event of an alarm are left out. *)

From S2P Require Import Prelude Decimal Money Exact ExactGrid Table DomainErrors MoneyText Sdk Json Canonical Chain Reconciliation.
From S2P Require Import Posting Journal Projector Idempotency PostingEngine.

Definition SIDE_DEBIT : string := "DR".
Definition SIDE_CREDIT : string := "CR".
Definition MAPPING_PENDING : string := "PENDING".
Definition CLASS_AR : string := "AR".
Definition CLASS_TAX_PAYABLE : string := "TAX_PAYABLE".
Definition CLASS_UNALLOCATED : string := "UNALLOCATED".
Definition CLASS_REUSABLE_CREDIT : string := "REUSABLE_CREDIT".
Definition CLASS_PSP_FEE_EXPENSE : string := "PSP_FEE_EXPENSE".
Definition DOC_PAYMENT_SETTLE : string := "PAYMENT_SETTLE".
Definition DOC_SETTLEMENT_RETURN : string := "SETTLEMENT_RETURN".
Definition TIE_OUT_PAGE_SIZE : Z := 5000.

(** Keys within a tenant: payer, account and currency or invoice; account, jurisdiction and
    filing period; payer, account, currency and event type. *)
Abbreviation PayerKey := (Uuid * Uuid * string)%type.
Abbreviation TaxKey := (Uuid * string * string)%type.
Abbreviation CreditKey := (Uuid * Uuid * string * string)%type.

(** ** Standard library *)

(** [u8::try_from(..).unwrap_or(0)]. *)
Definition u8_or_zero (z : Z) : Z := if (0 <=? z) && (z <? 256) then z else 0.

(** [u64::saturating_add]. *)
Definition saturating_add (a b : Z) : Z := Z.min (a + b) (2 ^ 64 - 1).

(** [Iterator::collect] into a hash map: a later pair replaces an earlier one. *)
Definition collect {K V} `{Countable K} (kvs : list (K * V)) : gmap K V :=
  foldl (fun m '(k, v) => <[k := v]> m) ∅ kvs.

(** ** Keyset pages *)

Section pages.
Context {A B : Type} (id : A -> Uuid).

(** [WHERE id > cursor ORDER BY id ASC LIMIT n]. *)
Definition page_after (rows : list A) (cursor : option Uuid) : list A :=
  take (Z.to_nat TIE_OUT_PAGE_SIZE)
    (sort_by (fun a b => N.compare (id a) (id b))
       (List.filter (fun r => match cursor with Some after => (after <? id r)%N | None => true end) rows)).

(** The page loop: it stops on an empty page and on a short one. *)
Fixpoint fold_pages (fuel : nat) (rows : list A) (cursor : option Uuid) (body : B -> list A -> B) (acc : B) : B :=
  match fuel with
  | O => acc
  | Datatypes.S fuel =>
      let page := page_after rows cursor in
      match last page with
      | None => acc
      | Some r =>
          let acc := body acc page in
          if Z.of_nat (length page) <? TIE_OUT_PAGE_SIZE then acc
          else fold_pages fuel rows (Some (id r)) body acc
      end
  end.

(** Every page but the last takes at least one row. *)
Definition scan_pages (rows : list A) (body : B -> list A -> B) (acc : B) : B :=
  fold_pages (Datatypes.S (length rows)) rows None body acc.
End pages.

(** The tally of an entry in one currency. *)
Record EntryAgg := mkEntryAgg { ea_net : option GrainAmount; ea_line_count : Z; ea_payers : gset Uuid }.
Definition entry_agg_default : EntryAgg := mkEntryAgg None 0 ∅.

Abbreviation EntryGroups := (gmap (Uuid * string * Z) EntryAgg).

Section tieout.
Context `{DecimalText} `{!UuidSource}.

(** ** Amounts *)

Definition cached_amount (text currency : string) (scale : Z) : GrainAmount :=
  match decode_money text currency scale with
  | Ok money => from_posted money
  | Err _ => grain_untrusted currency (u8_or_zero scale)
  end.

Definition cached_balance {X} (r : CacheRow X) : GrainAmount := cached_amount (cr_balance r) (cr_currency r) (cr_currency_scale r).

Definition line_money (line : LineRow) : option PostedMoney :=
  match decode_money (lr_amount line) (lr_currency line) (lr_currency_scale line) with Ok m => Some m | Err _ => None end.

(** [DecodedPage]. *)
Definition decoded_page (lines : list LineRow) : list (LineRow * option PostedMoney) :=
  (fun line => (line, line_money line)) <$> lines.

Definition negated (money : PostedMoney) : option PostedMoney :=
  match posted_try_new (dec_neg (amount money)) (currency money) with Ok m => Some m | Err _ => None end.

Definition signed_owned (line : LineRow) (money : PostedMoney) (normal_side_map : gmap Uuid string) : option PostedMoney :=
  normal_side ← normal_side_map !! lr_account_id line;
  if bool_decide (lr_side line = normal_side) then Some money else negated money.

Definition signed_delta (line : LineRow) (money : option PostedMoney) (normal_side_map : gmap Uuid string) : option PostedMoney :=
  money ← money;
  signed_owned line money normal_side_map.

Definition line_zero (line : LineRow) : GrainAmount := grain_zero (lr_currency line) (u8_or_zero (lr_currency_scale line)).

(** [entry(key).or_insert_with(|| line_zero(line)).add_posted(&delta)]. *)
Definition bump {K} `{Countable K} (m : gmap K GrainAmount) (key : K) (line : LineRow) (delta : PostedMoney) : gmap K GrainAmount :=
  <[key := add_posted (default (line_zero line) (m !! key)) delta]> m.

(** ** The account balances *)

Record AccountBalanceVariance := mkAccountBalanceVariance {
  av_account_id : Uuid;
  av_currency : string;
  av_computed : GrainAmount;
  av_cached : GrainAmount;
}.

Record AccountBalanceAcc := mkAccountBalanceAcc {
  ab_computed : gmap (Uuid * string) GrainAmount;
  ab_forced : gset (Uuid * string);
}.

Definition account_step (normal_side_map : gmap Uuid string) (acc : AccountBalanceAcc) (p : LineRow * option PostedMoney) :
    AccountBalanceAcc :=
  let '(line, money) := p in
  let key := (lr_account_id line, lr_currency line) in
  match signed_delta line money normal_side_map with
  | None => mkAccountBalanceAcc (ab_computed acc) ({[key]} ∪ ab_forced acc)
  | Some delta => mkAccountBalanceAcc (bump (ab_computed acc) key line delta) (ab_forced acc)
  end.

Definition account_fold_page (normal_side_map : gmap Uuid string) (acc : AccountBalanceAcc) (page : list (LineRow * option PostedMoney)) :
    AccountBalanceAcc := foldl (account_step normal_side_map) acc page.

Definition account_finalize (acc : AccountBalanceAcc) (cache_map : gmap (Uuid * string) (CacheRow AccountColumns))
    (balances : list (Uuid * string * CacheRow AccountColumns)) : list AccountBalanceVariance :=
  let computed := ab_computed acc in
  let forced := ab_forced acc in
  let cached_of key (like : GrainAmount) :=
    match cache_map !! key with
    | None => grain_zero (ga_currency like) (ga_currency_scale like)
    | Some m => cached_balance m
    end in
  flat_map (fun '(key, computed_sum) =>
      let cached := cached_of key computed_sum in
      if differs_from computed_sum cached || bool_decide (key ∈ forced)
      then [mkAccountBalanceVariance (fst key) (snd key) computed_sum cached] else []) (map_to_list computed)
  ++ flat_map (fun key =>
      if bool_decide (is_Some (computed !! key)) then []
      else
        let cached := match cache_map !! key with None => grain_untrusted (snd key) 0 | Some m => cached_balance m end in
        [mkAccountBalanceVariance (fst key) (snd key) (grain_untrusted (ga_currency cached) (ga_currency_scale cached)) cached])
      (elements forced)
  ++ flat_map (fun '(account_id, currency, b) =>
      let key := (account_id, currency) in
      if bool_decide (is_Some (computed !! key)) || bool_decide (key ∈ forced) then []
      else
        let cached := cached_balance b in
        if grain_is_zero cached then []
        else [mkAccountBalanceVariance account_id currency (grain_zero (ga_currency cached) (ga_currency_scale cached)) cached])
      balances.

(** ** The other caches *)

Record SubGrainVariance := mkSubGrainVariance {
  sv_grain : string;
  sv_key : string;
  sv_computed : GrainAmount;
  sv_cached : GrainAmount;
}.

Definition diff_grain {K} `{Countable K} (grain : string) (computed cache : gmap K GrainAmount) (label : K -> string) :
    list SubGrainVariance :=
  flat_map (fun '(key, computed_sum) =>
      let cached := default (grain_zero (ga_currency computed_sum) (ga_currency_scale computed_sum)) (cache !! key) in
      if differs_from computed_sum cached then [mkSubGrainVariance grain (label key) computed_sum cached] else [])
    (map_to_list computed)
  ++ flat_map (fun '(key, cached) =>
      if negb (grain_is_zero cached) && negb (bool_decide (is_Some (computed !! key)))
      then [mkSubGrainVariance grain (label key) (grain_zero (ga_currency cached) (ga_currency_scale cached)) cached] else [])
    (map_to_list cache).

Record SubGrainAcc := mkSubGrainAcc {
  sg_ar_payer : gmap PayerKey GrainAmount;
  sg_ar_invoice : gmap PayerKey GrainAmount;
  sg_ar_invoice_disputed : gmap PayerKey GrainAmount;
  sg_tax : gmap TaxKey GrainAmount;
  sg_unallocated : gmap PayerKey GrainAmount;
  sg_reusable_credit : gmap CreditKey GrainAmount;
}.

Definition sub_grain_step (normal_side_map : gmap Uuid string) (acc : SubGrainAcc) (p : LineRow * option PostedMoney) : SubGrainAcc :=
  let '(line, money) := p in
  match signed_delta line money normal_side_map with
  | None => acc
  | Some delta =>
      let '(ar_payer, ar_invoice, ar_invoice_disputed) :=
        if bool_decide (lr_account_class line = CLASS_AR) then
          let ar_payer := bump (sg_ar_payer acc) (lr_payer_tenant_id line, lr_account_id line, lr_currency line) line delta in
          match lr_invoice_id line with
          | Some invoice_id =>
              let key := (lr_payer_tenant_id line, lr_account_id line, invoice_id) in
              (ar_payer, bump (sg_ar_invoice acc) key line delta,
               if bool_decide (lr_ar_status line = Some AR_STATUS_DISPUTED)
               then bump (sg_ar_invoice_disputed acc) key line delta else sg_ar_invoice_disputed acc)
          | None => (ar_payer, sg_ar_invoice acc, sg_ar_invoice_disputed acc)
          end
        else (sg_ar_payer acc, sg_ar_invoice acc, sg_ar_invoice_disputed acc) in
      let tax :=
        if bool_decide (lr_account_class line = CLASS_TAX_PAYABLE) then
          match lr_tax_jurisdiction line, lr_tax_filing_period line with
          | Some juris, Some filing => bump (sg_tax acc) (lr_account_id line, juris, filing) line delta
          | _, _ => sg_tax acc
          end
        else sg_tax acc in
      let unallocated :=
        if bool_decide (lr_account_class line = CLASS_UNALLOCATED)
        then bump (sg_unallocated acc) (lr_payer_tenant_id line, lr_account_id line, lr_currency line) line delta
        else sg_unallocated acc in
      let reusable_credit :=
        if bool_decide (lr_account_class line = CLASS_REUSABLE_CREDIT) then
          let event_type := default "" (lr_credit_grant_event_type line) in
          bump (sg_reusable_credit acc) (lr_payer_tenant_id line, lr_account_id line, lr_currency line, event_type) line delta
        else sg_reusable_credit acc in
      mkSubGrainAcc ar_payer ar_invoice ar_invoice_disputed tax unallocated reusable_credit
  end.

Definition sub_grain_fold_page (normal_side_map : gmap Uuid string) (acc : SubGrainAcc) (page : list (LineRow * option PostedMoney)) :
    SubGrainAcc := foldl (sub_grain_step normal_side_map) acc page.

(** The rows of a tenant, each with its key. *)
Record TenantCaches := mkTenantCaches {
  tc_balances : list (Uuid * string * CacheRow AccountColumns);
  tc_ar_payer : list (PayerKey * CacheRow unit);
  tc_ar_invoice : list (PayerKey * CacheRow InvoiceColumns);
  tc_tax : list (TaxKey * CacheRow unit);
  tc_unallocated : list (Uuid * string * CacheRow unit);
  tc_reusable_credit : list (Uuid * string * string * CacheRow CreditColumns);
}.

Definition label_payer (last : string) (k : PayerKey) : string :=
  let '(payer, account, x) := k in
  "payer=" +:+ uuid_to_string payer +:+ "/account=" +:+ uuid_to_string account +:+ "/" +:+ last +:+ "=" +:+ x.
Definition label_tax (k : TaxKey) : string :=
  let '(account, juris, filing) := k in
  "account=" +:+ uuid_to_string account +:+ "/jurisdiction=" +:+ juris +:+ "/filing=" +:+ filing.
Definition label_credit (k : CreditKey) : string :=
  let '(payer, account, currency, event_type) := k in
  label_payer "currency" (payer, account, currency) +:+ "/event_type=" +:+ event_type.

Definition cached_disputed (r : CacheRow InvoiceColumns) : GrainAmount :=
  cached_amount (ic_disputed (cr_own r)) (cr_currency r) (cr_currency_scale r).

Definition sub_grain_finalize (acc : SubGrainAcc) (c : TenantCaches) : list SubGrainVariance :=
  diff_grain "ar_payer_balance" (sg_ar_payer acc)
    (collect ((fun '(k, r) => (k, cached_balance r)) <$> tc_ar_payer c)) (label_payer "currency")
  ++ diff_grain "ar_invoice_balance" (sg_ar_invoice acc)
    (collect ((fun '(k, r) => (k, cached_balance r)) <$> tc_ar_invoice c)) (label_payer "invoice")
  ++ diff_grain "ar_invoice_disputed" (sg_ar_invoice_disputed acc)
    (collect ((fun '(k, r) => (k, cached_disputed r)) <$> tc_ar_invoice c)) (label_payer "invoice")
  ++ diff_grain "tax_subbalance" (sg_tax acc)
    (collect ((fun '(k, r) => (k, cached_balance r)) <$> tc_tax c)) label_tax
  ++ diff_grain "unallocated_balance" (sg_unallocated acc)
    (collect ((fun '(payer, currency, r) => (payer, cr_account_id r, currency, cached_balance r)) <$> tc_unallocated c))
    (label_payer "currency")
  ++ diff_grain "reusable_credit_subbalance" (sg_reusable_credit acc)
    (collect ((fun '(payer, currency, event_type, r) => (payer, cr_account_id r, currency, event_type, cached_balance r))
       <$> tc_reusable_credit c)) label_credit.

(** ** The entries *)

Record ImbalancedEntry := mkImbalancedEntry {
  ib_entry_id : Uuid;
  ib_currency : string;
  ib_net : GrainAmount;
  ib_line_count : Z;
  ib_payer_count : Z;
}.

Definition entry_step (groups : EntryGroups) (p : LineRow * option PostedMoney) : EntryGroups :=
  let '(line, money) := p in
  let key := (lr_entry_id line, lr_currency line, lr_currency_scale line) in
  let agg := default entry_agg_default (groups !! key) in
  let net := default (line_zero line) (ea_net agg) in
  let net :=
    match (money ← money; if bool_decide (lr_side line = SIDE_DEBIT) then Some money else negated money) with
    | Some signed => add_posted net signed
    | None => mark_untrusted net
    end in
  <[key := mkEntryAgg (Some net) (ea_line_count agg + 1) ({[lr_payer_tenant_id line]} ∪ ea_payers agg)]> groups.

Definition entry_fold_page (groups : EntryGroups) (page : list (LineRow * option PostedMoney)) : EntryGroups :=
  foldl entry_step groups page.

Definition entry_finalize (groups : EntryGroups) : list ImbalancedEntry :=
  flat_map (fun '((entry_id, currency, scale), agg) =>
      let payer_count := Z.of_nat (size (ea_payers agg)) in
      let net := default (grain_zero currency (u8_or_zero scale)) (ea_net agg) in
      if negb (grain_is_zero net) || (1 <? payer_count)
      then [mkImbalancedEntry entry_id currency net (ea_line_count agg) payer_count] else [])
    (map_to_list groups).

(** ** The no-negative rule *)

Record NegativeGrain := mkNegativeGrain { ng_account_id : Uuid; ng_currency : string; ng_balance : PostedMoney }.

Definition negative_grains (balances : list (Uuid * string * CacheRow AccountColumns)) : list NegativeGrain :=
  omap (fun '(account_id, currency, b) =>
      match decode_balance b with
      | Ok balance => if is_sign_negative (amount balance) then Some (mkNegativeGrain account_id currency balance) else None
      | Err _ => None
      end)
    (List.filter (fun '(_, _, b) =>
        match from_str (ac_account_class (cr_own b)) with Ok cls => is_guarded cls | Err _ => true end) balances).

(** ** The payment counters *)

(** [payment_settlement::Model], the columns the job reads. *)
Record SettlementRow := mkSettlementRow {
  sr_payment_id : string;
  sr_currency : string;
  sr_currency_scale : Z;
  sr_settled : string;
  sr_fee : string;
  sr_allocated : string;
}.

(** [payment_allocation::Model], the columns the job reads. *)
Record AllocationRow := mkAllocationRow {
  al_payment_id : string;
  al_amount : string;
  al_currency : string;
  al_currency_scale : Z;
}.

Record PaymentCounterVariance := mkPaymentCounterVariance {
  pv_payment_id : string;
  pv_counter : string;
  pv_computed : GrainAmount;
  pv_cached : GrainAmount;
}.

Definition settle_index (entries : list EntryRow) : gmap Uuid string * bool :=
  foldl (fun '(settle_payment_by_entry, has_settlement_return) entry =>
      (if bool_decide (er_source_doc_type entry = DOC_PAYMENT_SETTLE)
       then <[er_entry_id entry := er_source_business_id entry]> settle_payment_by_entry else settle_payment_by_entry,
       has_settlement_return || bool_decide (er_source_doc_type entry = DOC_SETTLEMENT_RETURN)))
    (∅, false) entries.

Record PaymentCounterAcc := mkPaymentCounterAcc {
  settled_from_journal : gmap string GrainAmount;
  fee_from_journal : gmap string GrainAmount;
}.

Definition payment_step (settle_payment_by_entry : gmap Uuid string) (acc : PaymentCounterAcc) (p : LineRow * option PostedMoney) :
    PaymentCounterAcc :=
  let '(line, money) := p in
  match settle_payment_by_entry !! lr_entry_id line with
  | None => acc
  | Some payment_id =>
      match money with
      | None =>
          mkPaymentCounterAcc
            (<[payment_id := mark_untrusted (default (line_zero line) (settled_from_journal acc !! payment_id))]>
               (settled_from_journal acc)) (fee_from_journal acc)
      | Some money =>
          mkPaymentCounterAcc
            (if bool_decide (lr_side line = SIDE_CREDIT) && bool_decide (lr_account_class line = CLASS_UNALLOCATED)
             then bump (settled_from_journal acc) payment_id line money else settled_from_journal acc)
            (if bool_decide (lr_side line = SIDE_DEBIT) && bool_decide (lr_account_class line = CLASS_PSP_FEE_EXPENSE)
             then bump (fee_from_journal acc) payment_id line money else fee_from_journal acc)
      end
  end.

Definition payment_fold_page (settle_payment_by_entry : gmap Uuid string) (acc : PaymentCounterAcc)
    (page : list (LineRow * option PostedMoney)) : PaymentCounterAcc :=
  foldl (payment_step settle_payment_by_entry) acc page.

Definition allocated_step (m : gmap string GrainAmount) (alloc : AllocationRow) : gmap string GrainAmount :=
  let total := default (grain_zero (al_currency alloc) (u8_or_zero (al_currency_scale alloc))) (m !! al_payment_id alloc) in
  <[al_payment_id alloc := match decode_money (al_amount alloc) (al_currency alloc) (al_currency_scale alloc) with
                           | Ok money => add_posted total money
                           | Err _ => mark_untrusted total
                           end]> m.

Definition payment_finalize (acc : PaymentCounterAcc) (allocations : list AllocationRow) (settlement_cache : list SettlementRow)
    (has_settlement_return : bool) : list PaymentCounterVariance :=
  let allocated_from_rows := foldl allocated_step ∅ allocations in
  let compare row counter (computed : gmap string GrainAmount) text :=
    let zero := grain_zero (sr_currency row) (u8_or_zero (sr_currency_scale row)) in
    let value := default zero (computed !! sr_payment_id row) in
    let cached := cached_amount text (sr_currency row) (sr_currency_scale row) in
    if differs_from value cached then [mkPaymentCounterVariance (sr_payment_id row) counter value cached] else [] in
  let stray payment_id counter (computed : gmap string GrainAmount) :=
    match computed !! payment_id with
    | Some value =>
        if grain_is_zero value then []
        else [mkPaymentCounterVariance payment_id counter value (grain_zero (ga_currency value) (ga_currency_scale value))]
    | None => []
    end in
  let orphans : gset string :=
    dom allocated_from_rows ∪ dom (settled_from_journal acc) ∪ dom (fee_from_journal acc) in
  flat_map (fun row =>
      compare row "allocated" allocated_from_rows (sr_allocated row)
      ++ (if has_settlement_return then []
          else compare row "fee" (fee_from_journal acc) (sr_fee row)
               ++ compare row "settled" (settled_from_journal acc) (sr_settled row))) settlement_cache
  ++ flat_map (fun payment_id =>
      if bool_decide (payment_id ∈ sr_payment_id <$> settlement_cache) then []
      else stray payment_id "allocated" allocated_from_rows
           ++ (if has_settlement_return then []
               else stray payment_id "fee" (fee_from_journal acc) ++ stray payment_id "settled" (settled_from_journal acc)))
      (elements orphans).

(** ** The report *)

Record TieOutReport := mkTieOutReport {
  to_tenant_id : Uuid;
  posted_line_count : Z;
  account_balance_variances : list AccountBalanceVariance;
  sub_grain_variances : list SubGrainVariance;
  imbalanced_entries : list ImbalancedEntry;
  to_negative_grains : list NegativeGrain;
  payment_counter_variances : list PaymentCounterVariance;
  pending_lines : Z;
}.

Definition is_empty {A} (l : list A) : bool := match l with [] => true | _ => false end.

Definition is_clean (r : TieOutReport) : bool :=
  is_empty (account_balance_variances r) && is_empty (sub_grain_variances r) && is_empty (imbalanced_entries r)
  && is_empty (to_negative_grains r) && is_empty (payment_counter_variances r) && (pending_lines r =? 0).

Section job.
Context `{!Sha256} `{!DateText} {D S : Type} `{!JournalDb D}.
(** The tables of allocations and settlements, by tenant. *)
Context (allocations_of : S -> Uuid -> list AllocationRow) (settlements_of : S -> Uuid -> list SettlementRow).
Abbreviation Ledger := (Ledger (D := D) (S := S)).

Definition tenant_headers (db : D) (tenant : Uuid) : list EntryRow :=
  List.filter (fun h => bool_decide (er_tenant_id h = tenant)) (j_headers db).
Definition tenant_lines (db : D) (tenant : Uuid) : list LineRow :=
  flat_map (fun h => j_lines db (header_key h)) (tenant_headers db tenant).

(** Account identifier to normal side. *)
Definition normal_side_map (r : Reference) (tenant : Uuid) : gmap Uuid string :=
  acc_normal_side <$> filter (fun p => acc_tenant_id (snd p) = tenant) (rf_accounts r).

(** The rows of one tenant: the key without its tenant, and the row. *)
Definition rows_of {K L X} `{Countable K} (owner : K -> Uuid) (rest : K -> L) (t : gmap K X) (tenant : Uuid) : list (L * X) :=
  (fun '(k, r) => (rest k, r)) <$> List.filter (fun '(k, _) => bool_decide (owner k = tenant)) (map_to_list t).

Definition owner2 {A B} (k : Uuid * A * B) : Uuid := fst (fst k).
Definition rest2 {A B} (k : Uuid * A * B) : A * B := let '(_, a, b) := k in (a, b).
Definition owner3 {A B C} (k : Uuid * A * B * C) : Uuid := fst (fst (fst k)).
Definition rest3 {A B C} (k : Uuid * A * B * C) : A * B * C := let '(_, a, b, c) := k in (a, b, c).

Definition tenant_caches (c : Caches) (tenant : Uuid) : TenantCaches :=
  mkTenantCaches (rows_of owner2 rest2 (account_balance c) tenant) (rows_of owner3 rest3 (ar_payer_balance c) tenant)
    (rows_of owner3 rest3 (ar_invoice_balance c) tenant) (rows_of owner3 rest3 (tax_subbalance c) tenant)
    (rows_of owner2 rest2 (unallocated_balance c) tenant) (rows_of owner3 rest3 (reusable_credit_subbalance c) tenant).

(** What the line scan accumulates. *)
Record LineScan := mkLineScan {
  ls_account_balance : AccountBalanceAcc;
  ls_sub_grain : SubGrainAcc;
  ls_entry_balance : EntryGroups;
  ls_payment_counter : PaymentCounterAcc;
  ls_pending_lines : Z;
  ls_posted_line_count : Z;
}.

Definition line_scan_start : LineScan :=
  mkLineScan (mkAccountBalanceAcc ∅ ∅) (mkSubGrainAcc ∅ ∅ ∅ ∅ ∅ ∅) ∅ (mkPaymentCounterAcc ∅ ∅) 0 0.

Definition line_scan_page (normal_sides : gmap Uuid string) (settle_payment_by_entry : gmap Uuid string) (acc : LineScan)
    (page : list LineRow) : LineScan :=
  let decoded := decoded_page page in
  mkLineScan (account_fold_page normal_sides (ls_account_balance acc) decoded)
    (sub_grain_fold_page normal_sides (ls_sub_grain acc) decoded)
    (entry_fold_page (ls_entry_balance acc) decoded)
    (payment_fold_page settle_payment_by_entry (ls_payment_counter acc) decoded)
    (saturating_add (ls_pending_lines acc)
       (Z.of_nat (length (List.filter (fun l => bool_decide (lr_mapping_status l = MAPPING_PENDING)) page))))
    (saturating_add (ls_posted_line_count acc) (Z.of_nat (length page))).

Definition entry_scan_page (acc : gmap Uuid string * bool) (page : list EntryRow) : gmap Uuid string * bool :=
  let '(settle_payment_by_entry, has_settlement_return) := acc in
  let '(page_index, page_has_return) := settle_index page in
  (page_index ∪ settle_payment_by_entry, has_settlement_return || page_has_return).

Definition tie_out_on (l : Ledger) (tenant : Uuid) : TieOutReport :=
  let c := tenant_caches (lg_caches l) tenant in
  let settlement_cache := settlements_of (lg_rest l) tenant in
  let allocations := allocations_of (lg_rest l) tenant in
  let normal_sides := normal_side_map (lg_reference l) tenant in
  let cache_map := collect (tc_balances c) in
  let '(settle_payment_by_entry, has_settlement_return) :=
    scan_pages er_entry_id (tenant_headers (lg_journal l) tenant) entry_scan_page (∅, false) in
  let scan :=
    scan_pages lr_line_id (tenant_lines (lg_journal l) tenant) (line_scan_page normal_sides settle_payment_by_entry)
      line_scan_start in
  {| to_tenant_id := tenant;
     posted_line_count := ls_posted_line_count scan;
     account_balance_variances := account_finalize (ls_account_balance scan) cache_map (tc_balances c);
     sub_grain_variances := sub_grain_finalize (ls_sub_grain scan) c;
     imbalanced_entries := entry_finalize (ls_entry_balance scan);
     to_negative_grains := negative_grains (tc_balances c);
     payment_counter_variances := payment_finalize (ls_payment_counter scan) allocations settlement_cache has_settlement_return;
     pending_lines := ls_pending_lines scan |}.
End job.
End tieout.
