(* ===== verification/TieOutProps.v ===== *)
(** * What the tie-out reports

    The page loop visits every row once, so the accumulators are folds over all lines
    of the tenant; each entry of an accumulated map is the exact fold of the signed
    amounts with its key.  In a reachable state the lines with a key are in bijection
    with the grains the projector gave the cache row of that key, so the recomputed
    total and the cached one agree in every table: the report has no variance, no
    imbalanced entry and no negative grain. *)

From S2P Require Import Prelude Decimal Money Exact ExactGrid Table DomainErrors MoneyText Sdk Json Canonical Chain Reconciliation.
From S2P Require Import Posting DualApproval Journal ChainVerify ChainRun Projector ProjectorProps Idempotency PostingEngine PostingRun PostingLaws TieOut.
From stdpp Require Import sorting.
#[local] Open Scope Z_scope.

(** ** The page loop *)

Section pages.
Context {A B : Type} (id : A -> Uuid).

Definition id_cmp (a b : A) : comparison := N.compare (id a) (id b).
#[local] Instance id_cmp_total : TotalCmp id_cmp := total_cmp_on id N.compare.
Definition id_lt (a b : A) : Prop := (id a < id b)%N.

Lemma id_unique rows a b : NoDup (id <$> rows) -> a ∈ rows -> b ∈ rows -> id a = id b -> a = b.
Proof.
  intros Hnd Ha Hb Heq. pose proof (filter_bool_unique id rows a Hnd Ha) as Hf.
  assert (b ∈ List.filter (fun y => bool_decide (id y = id a)) rows) as Hin
    by (apply elem_of_filter_bool; by rewrite bool_decide_true).
  rewrite Hf in Hin. by apply list_elem_of_singleton in Hin.
Qed.

Lemma sorted_strict rows : NoDup (id <$> rows) -> StronglySorted id_lt (sort_by id_cmp rows).
Proof.
  intros Hnd. assert (Hnd' : NoDup (id <$> sort_by id_cmp rows)) by by rewrite sort_by_perm.
  pose proof (sort_by_sorted id_cmp rows) as Hs. revert Hnd'.
  induction Hs as [|x xs _ IH Hall]; [constructor|]. rewrite fmap_cons, NoDup_cons. intros [Hx Hnd'].
  constructor; [by apply IH|]. apply Forall_forall. intros y Hy. rewrite Forall_forall in Hall. specialize (Hall y Hy).
  unfold cmp_le, id_cmp, id_lt in *. rewrite N.compare_le_iff in Hall. apply N.le_neq. split; [done|]. intros Heq.
  apply Hx. rewrite Heq. by apply list_elem_of_fmap_2.
Qed.

Lemma strict_is_sort rows xs : NoDup (id <$> rows) -> StronglySorted id_lt xs -> rows ≡ₚ xs -> sort_by id_cmp rows = xs.
Proof.
  intros Hnd Hs Hp. apply (StronglySorted_unique_strong id_lt); [|by apply sorted_strict|done|by rewrite sort_by_perm].
  intros a b _ _ Hab Hba. unfold id_lt in *. lia.
Qed.

(** The rows after the last one of a page are the rest of the sorted rows. *)
Lemma next_page rows (cursor : option Uuid) page rest r : NoDup (id <$> rows) ->
  let visible (c : option Uuid) := List.filter (fun r => match c with Some after => (after <? id r)%N | None => true end) rows in
  sort_by id_cmp (visible cursor) = page ++ rest -> last page = Some r -> sort_by id_cmp (visible (Some (id r))) = rest.
Proof.
  intros Hnd visible Hsort Hlast. assert (Hndf : forall c, NoDup (id <$> visible c)).
  { intros c. unfold visible. clear -Hnd. induction rows as [|x rows IH]; [constructor|]. cbn.
    rewrite fmap_cons, NoDup_cons in Hnd. destruct Hnd as [Hx Hnd]. destruct c as [after|]; [destruct (after <? id x)%N|];
      try (by apply IH); rewrite fmap_cons; (constructor; [|by apply IH]); intros (y & Hy & Hin)%list_elem_of_fmap;
      apply Hx; rewrite Hy; apply list_elem_of_fmap_2; by apply elem_of_filter_bool in Hin as [_ Hin]. }
  pose proof (sorted_strict _ (Hndf cursor)) as Hs. rewrite Hsort in Hs.
  apply last_Some in Hlast as [page' ->]. rewrite <- app_assoc in Hs, Hsort.
  assert (Hmem : forall x, x ∈ visible cursor <-> x ∈ page' ++ [r] ++ rest) by (intros x; by rewrite <- Hsort, sort_by_perm).
  apply StronglySorted_app in Hs as (Hcross & _ & Hs). cbn in Hs. apply StronglySorted_inv in Hs as [Hs Hr].
  rewrite Forall_forall in Hr.
  apply strict_is_sort; [done|done|]. apply NoDup_Permutation.
  - by eapply NoDup_fmap_1.
  - eapply NoDup_fmap_1 with (f := id). specialize (Hndf cursor). rewrite <- (sort_by_perm id_cmp), Hsort, !fmap_app in Hndf.
    apply NoDup_app in Hndf as (_ & _ & Hndf). by apply NoDup_app in Hndf as (_ & _ & Hndf).
  - intros x. unfold visible. rewrite elem_of_filter_bool, N.ltb_lt. split.
    + intros [Hlt Hx]. assert (Hr' : r ∈ visible cursor) by (apply Hmem; set_solver).
      assert (Hv : x ∈ visible cursor).
      { unfold visible in *. apply elem_of_filter_bool in Hr' as [Hr' _]. apply elem_of_filter_bool. split; [|done].
        destruct cursor; [|done]. rewrite N.ltb_lt in *. lia. }
      apply Hmem in Hv. rewrite !elem_of_app, list_elem_of_singleton in Hv. destruct Hv as [Hv|[->|Hv]]; [|lia|done].
      specialize (Hcross x r Hv ltac:(set_solver)). unfold id_lt in Hcross. lia.
    + intros Hx. split; [by apply Hr|]. assert (x ∈ visible cursor) as Hv by (apply Hmem; set_solver).
      by apply elem_of_filter_bool in Hv as [_ Hv].
Qed.

Lemma fold_pages_all rows (body : B -> list A -> B) : NoDup (id <$> rows) -> forall fuel (cursor : option Uuid) acc rest,
  sort_by id_cmp (List.filter (fun r => match cursor with Some after => (after <? id r)%N | None => true end) rows) = rest ->
  (length rest < fuel)%nat ->
  exists pages, mjoin (M := list) pages = rest /\ fold_pages id fuel rows cursor body acc = foldl body acc pages.
Proof.
  intros Hnd. induction fuel as [|fuel IH]; intros cursor acc rest Hrest Hlen; [lia|]. cbn [fold_pages].
  unfold page_after. change (fun a b => N.compare (id a) (id b)) with id_cmp. rewrite Hrest. set (n := Z.to_nat TIE_OUT_PAGE_SIZE).
  assert (Hn : (0 < n)%nat) by (unfold n, TIE_OUT_PAGE_SIZE; lia).
  destruct (last (take n rest)) as [r|] eqn:Hl.
  2:{ apply last_None in Hl. exists []. split; [|done]. destruct rest; [done|]. destruct n; [lia|done]. }
  destruct (Z.ltb_spec (Z.of_nat (length (take n rest))) TIE_OUT_PAGE_SIZE) as [Hshort|Hfull].
  - exists [take n rest]. split; [|done]. cbn. rewrite app_nil_r, take_ge; [done|].
    rewrite length_take in Hshort. assert (Z.of_nat n = TIE_OUT_PAGE_SIZE) by by apply Z2Nat.id. lia.
  - rewrite length_take in Hfull. assert (Hn' : Z.of_nat n = TIE_OUT_PAGE_SIZE) by by apply Z2Nat.id.
    destruct (IH (Some (id r)) (body acc (take n rest)) (drop n rest)) as (pages & Hp & Hf).
    + eapply next_page; [done|by rewrite take_drop|done].
    + rewrite length_drop. lia.
    + exists (take n rest :: pages). split; [|done]. change (mjoin (take n rest :: pages)) with (take n rest ++ mjoin pages).
      by rewrite Hp, take_drop.
Qed.

(** A scan of rows with distinct identifiers folds pages that hold every row once. *)
Lemma scan_pages_all rows (body : B -> list A -> B) acc : NoDup (id <$> rows) ->
  exists pages, mjoin (M := list) pages ≡ₚ rows /\ scan_pages id rows body acc = foldl body acc pages.
Proof.
  intros Hnd. destruct (fold_pages_all rows body Hnd (Datatypes.S (length rows)) None acc _ eq_refl) as (pages & Hp & Hf).
  - rewrite sort_by_perm. clear. induction rows as [|x rows IH]; cbn in *; lia.
  - exists pages. split; [|done]. rewrite Hp, sort_by_perm. clear. induction rows as [|x rows IH]; [done|]. cbn. by rewrite IH.
Qed.
End pages.

(** ** The accumulators as folds by key *)

Section folds.
Context `{DecimalText}.

Abbreviation Delta := (LineRow * PostedMoney)%type.

(** The lines with their signed amounts. *)
Definition deltas (ns : gmap Uuid string) (lines : list LineRow) : list Delta :=
  omap (fun line => (line,.) <$> signed_delta line (line_money line) ns) lines.

Definition bump_by {K} `{Countable K} (f : LineRow -> option K) (m : gmap K GrainAmount) (x : Delta) : gmap K GrainAmount :=
  match f (fst x) with Some k => bump m k (fst x) (snd x) | None => m end.

Definition selected {K} `{EqDecision K} (f : LineRow -> option K) (k : K) (xs : list Delta) : list Delta :=
  List.filter (fun x => bool_decide (f (fst x) = Some k)) xs.

(** What a map holds at a key: the fold of what was selected, started by the first line. *)
Definition total (sel : list Delta) : option GrainAmount :=
  match sel with
  | [] => None
  | x :: _ => Some (fold_left add_posted (snd <$> sel) (line_zero (fst x)))
  end.

Lemma total_snoc sel x : total (sel ++ [x]) = Some (add_posted (default (line_zero (fst x)) (total sel)) (snd x)).
Proof.
  destruct sel as [|y sel]; [done|]. unfold total. rewrite <- app_comm_cons. rewrite app_comm_cons, fmap_app, fold_left_app. done.
Qed.

Lemma fold_bump_lookup {K} `{Countable K} (f : LineRow -> option K) xs k :
  foldl (bump_by f) ∅ xs !! k = total (selected f k xs).
Proof.
  induction xs as [|x xs IH] using rev_ind; [exact (lookup_empty k)|]. rewrite foldl_app. cbn [foldl].
  unfold selected in *. rewrite List.filter_app. cbn [List.filter]. unfold bump_by at 1.
  destruct (f (fst x)) as [k'|] eqn:Hf; [|by rewrite bool_decide_false, app_nil_r].
  unfold bump. destruct (decide (k' = k)) as [->|Hne].
  - by rewrite lookup_insert_eq, bool_decide_true, total_snoc, IH.
  - rewrite lookup_insert_ne, bool_decide_false, app_nil_r by congruence. done.
Qed.

Lemma selected_vec_ok {K} `{EqDecision K} (f : LineRow -> option K) k (amount : LineRow -> option PostedMoney) lines : vec_ok lines ->
  vec_ok (selected f k (omap (fun line => (line,.) <$> amount line) lines)).
Proof.
  unfold vec_ok, selected. intros Hv.
  pose proof (List.filter_length_le (fun x : Delta => bool_decide (f (fst x) = Some k)) (omap (fun line => (line,.) <$> amount line) lines)) as Hf.
  assert (length (omap (fun line => (line,.) <$> amount line) lines) <= length lines)%nat; [|lia]. clear.
  induction lines as [|x xs IH]; cbn; [lia|]. destruct (amount x); cbn; lia.
Qed.

(** The keys of the maps. *)
Definition account_key (line : LineRow) : option (Uuid * string) := Some (lr_account_id line, lr_currency line).
Definition ar_payer_key (line : LineRow) : option PayerKey :=
  if bool_decide (lr_account_class line = CLASS_AR)
  then Some (lr_payer_tenant_id line, lr_account_id line, lr_currency line) else None.
Definition ar_invoice_key (line : LineRow) : option PayerKey :=
  if bool_decide (lr_account_class line = CLASS_AR)
  then (fun invoice_id => (lr_payer_tenant_id line, lr_account_id line, invoice_id)) <$> lr_invoice_id line else None.
Definition disputed_key (line : LineRow) : option PayerKey :=
  if bool_decide (lr_ar_status line = Some AR_STATUS_DISPUTED) then ar_invoice_key line else None.
Definition tax_key (line : LineRow) : option TaxKey :=
  if bool_decide (lr_account_class line = CLASS_TAX_PAYABLE)
  then juris ← lr_tax_jurisdiction line; filing ← lr_tax_filing_period line; Some (lr_account_id line, juris, filing) else None.
Definition unallocated_key (line : LineRow) : option PayerKey :=
  if bool_decide (lr_account_class line = CLASS_UNALLOCATED)
  then Some (lr_payer_tenant_id line, lr_account_id line, lr_currency line) else None.
Definition credit_key (line : LineRow) : option CreditKey :=
  if bool_decide (lr_account_class line = CLASS_REUSABLE_CREDIT)
  then Some (lr_payer_tenant_id line, lr_account_id line, lr_currency line, default "" (lr_credit_grant_event_type line)) else None.

Lemma account_fold ns lines : forall acc,
  let acc' := account_fold_page ns acc (decoded_page lines) in
  ab_computed acc' = foldl (bump_by account_key) (ab_computed acc) (deltas ns lines) /\
  (Forall (fun line => is_Some (signed_delta line (line_money line) ns)) lines -> ab_forced acc' = ab_forced acc).
Proof.
  induction lines as [|line lines IH]; intros acc; [done|]. cbn zeta. unfold account_fold_page in *. cbn [decoded_page fmap list_fmap foldl].
  specialize (IH (account_step ns acc (line, line_money line))). cbn zeta in IH. destruct IH as [IH1 IH2].
  unfold decoded_page in IH1, IH2. rewrite IH1. clear IH1. unfold account_step in *. cbn [deltas omap list_omap].
  destruct (signed_delta line (line_money line) ns) as [d|] eqn:E; cbn in *.
  - split; [done|]. intros [_ Hall]%Forall_cons. by apply IH2.
  - split; [done|]. intros [[d Hd] _]%Forall_cons. congruence.
Qed.

Lemma sub_grain_fold ns lines : forall acc,
  let acc' := sub_grain_fold_page ns acc (decoded_page lines) in
  let ds := deltas ns lines in
  acc' = mkSubGrainAcc (foldl (bump_by ar_payer_key) (sg_ar_payer acc) ds) (foldl (bump_by ar_invoice_key) (sg_ar_invoice acc) ds)
    (foldl (bump_by disputed_key) (sg_ar_invoice_disputed acc) ds) (foldl (bump_by tax_key) (sg_tax acc) ds)
    (foldl (bump_by unallocated_key) (sg_unallocated acc) ds) (foldl (bump_by credit_key) (sg_reusable_credit acc) ds).
Proof.
  induction lines as [|line lines IH]; intros acc; [by destruct acc|]. cbn zeta. unfold sub_grain_fold_page in *. cbn [decoded_page fmap list_fmap foldl].
  specialize (IH (sub_grain_step ns acc (line, line_money line))). cbn zeta in IH. unfold decoded_page in IH. rewrite IH. clear IH.
  unfold sub_grain_step. cbn [deltas omap list_omap]. destruct (signed_delta line (line_money line) ns) as [d|] eqn:E; cbn; [|done].
  unfold bump_by, ar_payer_key, disputed_key, ar_invoice_key, tax_key, unallocated_key, credit_key; cbn.
  f_equal; repeat case_bool_decide; repeat (case_match; simplify_eq/=); done.
Qed.
End folds.

(** ** Comparing a total with a cached amount *)

Section compare.
Context `{DecimalText}.
Abbreviation Delta := (LineRow * PostedMoney)%type.

Lemma negated_ok m : posted_ok m ->
  exists d, negated m = Some d /\ posted_ok d /\ currency d = currency m /\ posted_units d = - posted_units m.
Proof.
  intros (Hc & [Hstrip _] & Hm & Hs). set (n := normalize (dec_neg (amount m))).
  assert (Hu : units n = - units (amount m)) by (unfold n; by rewrite units_normalize, units_neg).
  destruct (dec_neg_spec (amount m)) as [Hnm Hns].
  assert (Hsc : scale n = scale (amount m)).
  { apply Z.le_antisymm; [rewrite <- Hns; apply normalize_scale_le|].
    rewrite <- Hns. apply stripped_scale_le; [|by rewrite Hu, units_neg].
    rewrite Hns, Hnm. destruct Hstrip as [|Hr]; [by left|right]. rewrite Z.rem_opp_l'. lia. }
  assert (Hmn : mantissa n = - mantissa (amount m)).
  { rewrite <- Hnm. apply units_mantissa_eq; [congruence|]. by rewrite Hu, units_neg. }
  exists (mkPostedMoney n (currency m)). unfold negated, posted_try_new. fold n.
  rewrite (proj2 (validate_amount_ok _ n)) by (split; [fold n; rewrite Hmn, Z.abs_opp; exact Hm|done]). cbn [mbind result_bind].
  destruct (Z.ltb_spec (currency_scale (currency m)) (scale n)); [lia|]. split_and!; [done| |done|done].
  split; [done|]. split; [apply canonical_normalize|]. cbn. by rewrite Hsc, Hmn, Z.abs_opp.
Qed.

(** A line with its signed amount in the line's own currency. *)
Record delta_ok (x : Delta) : Prop := {
  do_posted : posted_ok (snd x);
  do_code : lr_currency (fst x) = code (currency (snd x));
  do_scale : lr_currency_scale (fst x) = currency_scale (currency (snd x));
}.

Lemma u8_scale m : posted_ok m -> u8_or_zero (currency_scale (currency m)) = currency_scale (currency m).
Proof.
  intros ([Hlo Hhi] & _). unfold u8_or_zero. destruct (Z.leb_spec 0 (currency_scale (currency m))); [|lia].
  destruct (Z.ltb_spec (currency_scale (currency m)) 256); [done|lia].
Qed.

Lemma total_spec sel x : vec_ok sel -> head sel = Some x -> Forall delta_ok sel ->
  (forall y, y ∈ sel -> currency (snd y) = currency (snd x)) ->
  exists g s, total sel = Some g /\ ga_currency g = code (currency (snd x)) /\
    ga_currency_scale g = currency_scale (currency (snd x)) /\ ga_total g = GrainExact s /\
    sum_holds s (sum_Z (posted_units ∘ snd) sel).
Proof.
  intros Hv Hx Hok Hcur. destruct sel as [|x' sel]; [done|]. injection Hx as ->. set (xs := x :: sel) in *.
  destruct (Forall_inv Hok) as [Hp Hcode Hscale].
  exists (fold_grain (code (currency (snd x))) (currency_scale (currency (snd x))) (snd <$> xs)).
  pose proof (fold_grain_spec (code (currency (snd x))) (currency_scale (currency (snd x))) (snd <$> xs)) as Hs.
  destruct (fold_grain_meta (code (currency (snd x))) (currency_scale (currency (snd x))) (snd <$> xs)) as [Hm1 Hm2].
  destruct (ga_total _) as [s|].
  - exists s. split_and!; [|done|done|done|].
    + unfold total, xs, fold_grain, line_zero. rewrite Hcode, Hscale, u8_scale by done. done.
    + destruct Hs as [_ Hs]; [apply Hp|unfold vec_ok; by rewrite length_fmap|]. by rewrite sum_Z_map in Hs.
  - destruct Hs; [apply Hp|unfold vec_ok; by rewrite length_fmap|].
    rewrite Forall_fmap, Forall_forall. intros y Hy. unfold in_grain. cbn. by rewrite (Hcur y Hy).
Qed.

Lemma from_posted_spec b : posted_ok b -> exists s, ga_total (from_posted b) = GrainExact s /\ sum_holds s (posted_units b) /\
  ga_currency (from_posted b) = code (currency b) /\ ga_currency_scale (from_posted b) = currency_scale (currency b).
Proof.
  intros Hp. pose proof (fold_grain_spec (code (currency b)) (currency_scale (currency b)) [b] ltac:(apply Hp) ltac:(by vm_compute)) as Hs.
  destruct (fold_grain_meta (code (currency b)) (currency_scale (currency b)) [b]) as [Hm1 Hm2].
  change (fold_grain (code (currency b)) (currency_scale (currency b)) [b]) with (from_posted b) in *.
  destruct (ga_total (from_posted b)) as [s|]; [|by destruct Hs; repeat constructor].
  destruct Hs as [_ Hs]. rewrite sum_Z_cons, sum_Z_nil, Z.add_0_r in Hs. by exists s.
Qed.

Lemma from_posted_zero b : posted_ok b -> posted_units b = 0 -> grain_is_zero (from_posted b) = true.
Proof.
  intros Hp Hz. destruct (from_posted_spec b Hp) as (s & Ht & Hs & _). unfold grain_is_zero. rewrite Ht.
  rewrite (sum_is_zero_holds s _ Hs), Hz. done.
Qed.

(** The total of the selected lines and the cached amount agree. *)
Lemma total_agrees sel b : sel <> [] -> vec_ok sel -> posted_ok b -> Forall delta_ok sel ->
  (forall y, y ∈ sel -> currency (snd y) = currency b) -> sum_Z (posted_units ∘ snd) sel = posted_units b ->
  exists g, total sel = Some g /\ differs_from g (from_posted b) = false.
Proof.
  intros Hne Hv Hb Hok Hcur Hsum. destruct (head sel) as [x|] eqn:Hx; [|by destruct sel].
  assert (Hxin : x ∈ sel) by (destruct sel; [done|injection Hx as ->; left]).
  destruct (total_spec sel x Hv Hx Hok) as (g & s & Hg & Hgc & Hgs & Ht & Hs); [intros y Hy; by rewrite !Hcur|].
  exists g. split; [done|]. destruct (from_posted_spec b Hb) as (s' & Ht' & Hs' & Hc' & Hsc').
  apply (differs_spec _ _ (sum_Z (posted_units ∘ snd) sel) (posted_units b) True True); [by rewrite Ht|by rewrite Ht'|].
  by rewrite Hgc, Hgs, Hc', Hsc', (Hcur x Hxin).
Qed.

Lemma flat_map_nil {A B} (f : A -> list B) xs : (forall x, x ∈ xs -> f x = []) -> flat_map f xs = [].
Proof. intros Hf. induction xs as [|x xs IH]; [done|]. cbn. rewrite Hf, IH by set_solver. done. Qed.

(** One key of a computed map and of a cache. *)
Definition key_agrees (computed cached : option GrainAmount) : Prop :=
  match computed, cached with
  | Some g, Some c => differs_from g c = false
  | Some _, None => False
  | None, Some c => grain_is_zero c = true
  | None, None => True
  end.

Lemma diff_grain_nil {K} `{Countable K} grain (computed cache : gmap K GrainAmount) label :
  (forall k, key_agrees (computed !! k) (cache !! k)) -> diff_grain grain computed cache label = [].
Proof.
  intros Ha. unfold diff_grain. rewrite !flat_map_nil; [done|..].
  - intros [k c] Hk%elem_of_map_to_list. specialize (Ha k). rewrite Hk in Ha. unfold key_agrees in Ha.
    destruct (computed !! k) as [g|] eqn:E; [|by rewrite Ha].
    rewrite (bool_decide_true (is_Some (Some g))), andb_false_r by by eexists. done.
  - intros [k g] Hk%elem_of_map_to_list. specialize (Ha k). rewrite Hk in Ha. unfold key_agrees in Ha.
    destruct (cache !! k) as [c|]; [|done]. cbn. by rewrite Ha.
Qed.

Lemma account_finalize_nil computed cache_map balances :
  (forall k, key_agrees (computed !! k) (cached_balance <$> cache_map !! k)) ->
  (forall a c b, (a, c, b) ∈ balances -> cache_map !! (a, c) = Some b) ->
  account_finalize (mkAccountBalanceAcc computed ∅) cache_map balances = [].
Proof.
  intros Ha Hb. unfold account_finalize. cbn [ab_computed ab_forced]. rewrite !flat_map_nil; [done|..].
  - intros [[a c] b] Hin%Hb. specialize (Ha (a, c)). rewrite Hin in Ha. unfold key_agrees in Ha. cbn in Ha.
    destruct (computed !! (a, c)) as [g|] eqn:E; [done|].
    rewrite bool_decide_false by by intros [? ?]. rewrite bool_decide_false by set_solver. cbn. by rewrite Ha.
  - intros k. rewrite elements_empty. by intros Hk%not_elem_of_nil.
  - intros [k g] Hk%elem_of_map_to_list. specialize (Ha k). rewrite Hk in Ha. unfold key_agrees in Ha.
    destruct (cache_map !! k) as [c|]; [|done]. cbn in Ha. rewrite Ha, bool_decide_false by set_solver. done.
Qed.
End compare.
