(* ===== verification/TieOutRun.v ===== *)
(** * The tie-out of a reachable ledger

    A [View] pairs what the projector makes of a line with what the tie-out makes of
    its stored row, for one table.  Both give the table the same keys and the same
    signed amounts, so over the entries of a run the lines selected by a key and the
    grains of the key correspond one to one; with [caches_tie] the recomputed totals
    are the cached ones. *)

From S2P Require Import Prelude Decimal Money Exact ExactGrid Table DomainErrors MoneyText Sdk Json Canonical Chain Reconciliation.
From S2P Require Import Posting DualApproval Journal ChainVerify ChainRun Projector ProjectorProps Idempotency PostingEngine PostingRun PostingLaws TieOut TieOutProps.
#[local] Open Scope Z_scope.

(** ** Collected rows *)

Lemma collect_some {K V} `{Countable K} (kvs : list (K * V)) k v :
  (forall k v v', (k, v) ∈ kvs -> (k, v') ∈ kvs -> v = v') -> collect kvs !! k = Some v <-> (k, v) ∈ kvs.
Proof.
  induction kvs as [|[k' v'] kvs IH] using rev_ind; intros Hf.
  { unfold collect. cbn. rewrite lookup_empty, elem_of_nil. done. }
  unfold collect in *. rewrite foldl_app. cbn [foldl]. rewrite lookup_insert_Some, IH.
  - rewrite elem_of_app, list_elem_of_singleton. split; [intros [[-> ->]|[_ ?]]; auto|].
    intros [Hin|[= -> ->]]; [|by left]. destruct (decide (k' = k)) as [->|Hne]; [|by right]. left. split; [done|].
    apply (Hf k); set_solver.
  - intros k1 v1 v2 Hk1 Hk2. apply (Hf k1); set_solver.
Qed.

Lemma rows_of_elem {K L X} `{Countable K} (owner : K -> Uuid) (rest : K -> L) (t : gmap K X) tenant y r :
  (y, r) ∈ rows_of owner rest t tenant <-> exists k, t !! k = Some r /\ owner k = tenant /\ rest k = y.
Proof.
  unfold rows_of. rewrite list_elem_of_fmap. split.
  - intros ([k r'] & [= -> ->] & [Ho%bool_decide_eq_true Hk%elem_of_map_to_list]%elem_of_filter_bool). by exists k.
  - intros (k & Hk & Ho & <-). exists (k, r). split; [done|]. apply elem_of_filter_bool.
    rewrite bool_decide_true by done. split; [done|]. by apply elem_of_map_to_list.
Qed.

(** The rows of a tenant collected by a key that determines the rest of the row's own key. *)
Lemma collect_rows_by {K L X M V} `{Countable K} `{Countable M} (owner : K -> Uuid) (rest : K -> L) (join : Uuid -> L -> K)
    (G : L -> X -> M) (back : M -> L) (F : X -> V) (t : gmap K X) tenant m :
  (forall k, join (owner k) (rest k) = k) -> (forall y, owner (join tenant y) = tenant /\ rest (join tenant y) = y) ->
  (forall y r, back (G y r) = y) ->
  collect ((fun '(y, r) => (G y r, F r)) <$> rows_of owner rest t tenant) !! m
  = (r ← t !! join tenant (back m); if bool_decide (G (back m) r = m) then Some (F r) else None).
Proof.
  intros Hj Ho HG. apply option_eq. intros v. rewrite collect_some.
  - rewrite list_elem_of_fmap, bind_Some. split.
    + intros ([y r] & [= -> ->] & (k & Hk & <- & <-)%rows_of_elem). exists r. rewrite HG, Hj. by rewrite bool_decide_true.
    + intros (r & Hr & Hd). case_bool_decide as Hm; [|done]. injection Hd as <-. exists (back m, r). split; [by rewrite Hm|].
      apply rows_of_elem. exists (join tenant (back m)). split; [done|apply Ho].
  - intros k v1 v2 ([y1 r1] & [= -> ->] & (k1 & Hk1 & Ho1 & Hr1)%rows_of_elem)%list_elem_of_fmap
      ([y2 r2] & [= Heq ->] & (k2 & Hk2 & Ho2 & Hr2)%rows_of_elem)%list_elem_of_fmap.
    assert (y1 = y2) as <- by (rewrite <- (HG y1 r1), Heq; apply HG).
    rewrite <- (Hj k1), Ho1, Hr1 in Hk1. rewrite <- (Hj k2), Ho2, Hr2 in Hk2. congruence.
Qed.

(** The rows of a tenant collected by the rest of their key. *)
Lemma collect_rows {K L X V} `{Countable K} `{Countable L} (owner : K -> Uuid) (rest : K -> L) (join : Uuid -> L -> K)
    (t : gmap K X) tenant (F : X -> V) y :
  (forall k, join (owner k) (rest k) = k) -> (forall y, owner (join tenant y) = tenant /\ rest (join tenant y) = y) ->
  collect ((fun '(k, r) => (k, F r)) <$> rows_of owner rest t tenant) !! y = F <$> t !! join tenant y.
Proof.
  intros Hj Ho. rewrite (collect_rows_by owner rest join (fun y _ => y) id) by done. cbn.
  destruct (t !! join tenant y); cbn; [by rewrite bool_decide_true|done].
Qed.

Definition join2 {A B} (tenant : Uuid) (k : A * B) : Uuid * A * B := (tenant, fst k, snd k).
Definition join3 {A B C} (tenant : Uuid) (k : A * B * C) : Uuid * A * B * C := (tenant, fst (fst k), snd (fst k), snd k).

(** ** One table seen by the projector and by the tie-out *)

Record View (K : Type) := mkView {
  v_rank : GrainTable;
  v_key : GrainDelta -> K;
  v_line : LineRow -> option K;
}.
Arguments mkView {K}.
Arguments v_rank {K}.
Arguments v_key {K}.
Arguments v_line {K}.

Section views.
Context `{DecimalText}.
Abbreviation Delta := (LineRow * PostedMoney)%type.

Definition account_view := mkView GAccount (fun g => (gd_account_id g, gd_currency g)) account_key.
Definition ar_payer_view := mkView GArPayer (fun g => (gd_payer_tenant_id g, gd_account_id g, gd_currency g)) ar_payer_key.
Definition ar_invoice_view := mkView GArInvoice (fun g => (gd_payer_tenant_id g, gd_account_id g, gd_invoice_id g)) ar_invoice_key.
Definition tax_view := mkView GTax (fun g => (gd_account_id g, gd_tax_jurisdiction g, gd_tax_filing_period g)) tax_key.
Definition unallocated_view := mkView GUnallocated (fun g => (gd_payer_tenant_id g, gd_account_id g, gd_currency g)) unallocated_key.
Definition credit_view := mkView GReusableCredit
  (fun g => (gd_payer_tenant_id g, gd_account_id g, gd_currency g, gd_credit_grant_event_type g)) credit_key.

(** A grain that carries the line's amount. *)
Record like_base (e : NewEntry) (l : NewLine) (s : Side) (g : GrainDelta) : Prop := {
  lb_delta : delta g = delta (base_grain e l s);
  lb_spec : currency_spec g = currency (nl_money l);
  lb_tenant : gd_tenant_id g = ne_tenant_id e;
  lb_disputed : table_rank g = GArInvoice ->
    disputed_delta g = if bool_decide (nl_ar_status l = Some AR_STATUS_DISPUTED) then delta g else from_decimal ZERO;
}.

Definition of_rank (rank : GrainTable) (g : GrainDelta) : bool := bool_decide (table_rank g = rank).

(** The projector and the tie-out put a line in the same place of the table. *)
Class ViewLaws {K} (v : View K) : Prop := {
  view_line e l s sides gs : line_grains e sides l = Ok gs -> sides !! nl_account_id l = Some s ->
    match v_line v (line_row_of e l) with
    | Some k => exists g, List.filter (of_rank (v_rank v)) gs = [g] /\ v_key v g = k /\ like_base e l s g
    | None => List.filter (of_rank (v_rank v)) gs = []
    end;
}.

Ltac solve_view :=
  constructor; intros e l s sides gs Hg Hs; unfold line_grains in Hg; rewrite Hs in Hg; cbn [ok_or mbind result_bind] in Hg;
  cbn [v_line v_rank v_key account_view ar_payer_view ar_invoice_view tax_view unallocated_view credit_view];
  unfold account_key, ar_payer_key, ar_invoice_key, tax_key, unallocated_key, credit_key; cbn [line_row_of lr_account_class
    lr_payer_tenant_id lr_account_id lr_currency lr_invoice_id lr_tax_jurisdiction lr_tax_filing_period lr_credit_grant_event_type];
  destruct (nl_account_class l) eqn:Hc;
  repeat first [done | progress simplify_eq/= | case_bool_decide | case_match | eexists | split_and!].

#[local] Instance account_view_laws : ViewLaws account_view.
Proof. solve_view. Qed.
#[local] Instance ar_payer_view_laws : ViewLaws ar_payer_view.
Proof. solve_view. Qed.
#[local] Instance ar_invoice_view_laws : ViewLaws ar_invoice_view.
Proof. solve_view. Qed.
#[local] Instance tax_view_laws : ViewLaws tax_view.
Proof. solve_view. Qed.
#[local] Instance unallocated_view_laws : ViewLaws unallocated_view.
Proof. solve_view. Qed.
#[local] Instance credit_view_laws : ViewLaws credit_view.
Proof. solve_view. Qed.

(** ** Lines and grains correspond *)

(** A line with its signed amount, and a grain of it. *)
Record related (x : Delta) (g : GrainDelta) : Prop := {
  rel_ok : delta_ok x;
  rel_units : posted_units (snd x) = delta_units g;
  rel_spec : currency (snd x) = currency_spec g;
  rel_disputed : table_rank g = GArInvoice ->
    disputed_units g = if bool_decide (lr_ar_status (fst x) = Some AR_STATUS_DISPUTED) then posted_units (snd x) else 0;
}.

Lemma line_delta e l s ns : line_valid l -> ns !! nl_account_id l = Some (as_str s) ->
  exists d, signed_delta (line_row_of e l) (line_money (line_row_of e l)) ns = Some d /\
    forall g, like_base e l s g -> related (line_row_of e l, d) g.
Proof.
  intros [[Hp Hsv] _] Hns.
  assert (Hm : line_money (line_row_of e l) = Some (nl_money l)).
  { unfold line_money. cbn [line_row_of lr_amount lr_currency lr_currency_scale].
    rewrite (proj2 (decode_money_ok _ _ _ (nl_money l))) by done. done. }
  assert (Hd : exists d, signed_owned (line_row_of e l) (nl_money l) ns = Some d /\ posted_ok d /\ currency d = currency (nl_money l) /\
    posted_units d = amount_units (signed_amount s l (nl_money l))).
  { unfold signed_owned, signed_amount. cbn [line_row_of lr_account_id lr_side]. rewrite Hns. cbn [mbind option_bind].
    rewrite (proj2 (from_decimal_grid _)). destruct (decide (nl_side l = s)) as [->|Hne].
    - rewrite !bool_decide_true by done. by exists (nl_money l).
    - rewrite !bool_decide_false by (done || intros Heq%as_str_inj; done).
      destruct (negated_ok _ Hp) as (d & ? & ? & ? & Hu). exists d. by rewrite units_neg. }
  destruct Hd as (d & Hd & Hdp & Hdc & Hdu). exists d. unfold signed_delta. rewrite Hm. split; [done|].
  intros g [Hg1 Hg2 _ Hg4]. constructor; cbn [fst snd].
  - constructor; cbn; [done|by rewrite Hdc..].
  - unfold delta_units. by rewrite Hg1.
  - congruence.
  - intros Hr. unfold disputed_units. rewrite (Hg4 Hr). cbn [line_row_of lr_ar_status].
    case_bool_decide; [by rewrite Hg1|]. rewrite (proj2 (from_decimal_grid _)). apply units_ZERO.
Qed.

Section one_view.
Context {K} `{Countable K} (v : View K) `{!ViewLaws v} (tenant : Uuid) (ns : gmap Uuid string).

(** The grains of a key, and the lines of a key. *)
Definition pick (k : K) (g : GrainDelta) : bool :=
  of_rank (v_rank v) g && (bool_decide (gd_tenant_id g = tenant) && bool_decide (v_key v g = k)).

Lemma filter_pick k gs : List.filter (pick k) gs =
  List.filter (fun g => bool_decide (gd_tenant_id g = tenant) && bool_decide (v_key v g = k)) (List.filter (of_rank (v_rank v)) gs).
Proof.
  induction gs as [|g gs IH]; [done|]. cbn [List.filter]. unfold pick at 1. destruct (of_rank (v_rank v) g); cbn; [|done].
  destruct (_ && _); by rewrite IH.
Qed.

Lemma view_one e l sides gs k : line_valid l -> ne_tenant_id e = tenant ->
  (forall s, sides !! nl_account_id l = Some s -> ns !! nl_account_id l = Some (as_str s)) ->
  line_grains e sides l = Ok gs ->
  is_Some (signed_delta (line_row_of e l) (line_money (line_row_of e l)) ns) /\
  Forall2 related (selected (v_line v) k (deltas ns [line_row_of e l])) (List.filter (pick k) gs).
Proof.
  intros Hv Ht Hns Hg. pose proof Hg as Hside. unfold line_grains in Hside. apply bind_ok in Hside as (s & Hs%ok_or_ok & _).
  destruct (line_delta e l s ns Hv (Hns s Hs)) as (d & Hd & Hrel). split; [by exists d|].
  unfold deltas. cbn [omap list_omap]. rewrite Hd. cbn [fmap option_fmap option_map selected List.filter fst]. rewrite filter_pick.
  pose proof (view_line e l s sides gs Hg Hs) as Hview. destruct (v_line v (line_row_of e l)) as [k'|].
  - destruct Hview as (g & -> & Hk & Hlb). cbn [List.filter]. rewrite (lb_tenant _ _ _ _ Hlb), (bool_decide_true (ne_tenant_id e = tenant)) by done.
    rewrite Hk. cbn [andb]. destruct (decide (k' = k)) as [->|Hne].
    + rewrite !bool_decide_true by done. constructor; [by apply Hrel|constructor].
    + rewrite !bool_decide_false by congruence. constructor.
  - rewrite Hview. rewrite bool_decide_false by done. constructor.
Qed.

Lemma deltas_app xs ys : deltas ns (xs ++ ys) = deltas ns xs ++ deltas ns ys.
Proof. apply omap_app. Qed.

Lemma view_entry e ls sides gs k : Forall line_valid ls -> ne_tenant_id e = tenant ->
  (forall a s, sides !! a = Some s -> ns !! a = Some (as_str s)) -> entry_grains e ls sides = Ok gs ->
  Forall (fun row => is_Some (signed_delta row (line_money row) ns)) (line_row_of e <$> ls) /\
  Forall2 related (selected (v_line v) k (deltas ns (line_row_of e <$> ls))) (List.filter (pick k) gs).
Proof.
  intros Hv Ht Hns. unfold entry_grains. intros (gss & Hm%map_res_ok & [= <-])%bind_ok.
  induction Hm as [|l gs ls gss Hl _ IH]; [by split; constructor|]. apply Forall_cons in Hv as [Hv1 Hv]. destruct (IH Hv) as [IH1 IH2].
  destruct (view_one e l sides gs k Hv1 Ht (fun s => Hns _ s) Hl) as [Hs H2].
  rewrite fmap_cons. split; [by constructor|]. change (mjoin (gs :: gss)) with (gs ++ mjoin gss).
  change (line_row_of e l :: (line_row_of e <$> ls)) with ([line_row_of e l] ++ (line_row_of e <$> ls)).
  rewrite deltas_app. unfold selected in *. rewrite !List.filter_app. by apply Forall2_app.
Qed.

Lemma other_tenant e ls sides gs k : ne_tenant_id e <> tenant -> entry_grains e ls sides = Ok gs -> List.filter (pick k) gs = [].
Proof.
  intros Ht. unfold entry_grains. intros (gss & Hm%map_res_ok & [= <-])%bind_ok.
  induction Hm as [|l gs ls gss Hl _ IH]; [done|]. change (mjoin (gs :: gss)) with (gs ++ mjoin gss).
  rewrite List.filter_app, IH, app_nil_r, filter_pick.
  pose proof Hl as Hside. unfold line_grains in Hside. apply bind_ok in Hside as (s & Hs%ok_or_ok & _).
  pose proof (view_line e l s sides gs Hl Hs) as Hview. destruct (v_line v (line_row_of e l)); [|by rewrite Hview].
  destruct Hview as (g & -> & _ & Hlb). cbn [List.filter]. by rewrite (lb_tenant _ _ _ _ Hlb), bool_decide_false.
Qed.
End one_view.
End views.

(** ** A reachable ledger *)

(** Requests come with a scope that covers their tenant only. *)
Definition tenant_scoped (tenant : Uuid) (scope : AccessScope) : Prop := forall u, scope u = true -> u = tenant.

Lemma flat_map_perm {A B} (f g : A -> list B) xs : (forall x, x ∈ xs -> f x ≡ₚ g x) -> flat_map f xs ≡ₚ flat_map g xs.
Proof. induction xs as [|x xs IH]; intros Hf; [done|]. cbn. rewrite IH, (Hf x) by set_solver. done. Qed.

Lemma flat_map_map {A B C} (f : B -> list C) (g : A -> B) xs : flat_map f (g <$> xs) = flat_map (fun x => f (g x)) xs.
Proof. induction xs as [|x xs IH]; [done|]. cbn. by rewrite <- IH. Qed.

Lemma Forall2_elem_l {A B} (P : A -> B -> Prop) xs ys x : Forall2 P xs ys -> x ∈ xs -> exists y, y ∈ ys /\ P x y.
Proof.
  induction 1 as [|x' y' xs ys Hxy _ IH]; [by intros Hx%not_elem_of_nil|]. intros [->|Hx]%elem_of_cons; [exists y'; by split; [left|]|].
  destruct (IH Hx) as (y & ? & ?). exists y. by split; [right|].
Qed.

Section run.
Context `{DecimalText} `{!Sha256} `{!DateText} `{!UuidSource} {D S : Type} `{!JournalDb D}.
Abbreviation Ledger := (Ledger (D := D) (S := S)).
Abbreviation Delta := (LineRow * PostedMoney)%type.
#[local] Existing Instances account_view_laws ar_payer_view_laws ar_invoice_view_laws tax_view_laws unallocated_view_laws credit_view_laws.

Definition posts_of (tenant : Uuid) (ps : list Post) : list Post :=
  List.filter (fun p => bool_decide (ne_tenant_id (p_entry p) = tenant)) ps.
Definition post_rows (ps : list Post) : list LineRow := flat_map (fun p => line_row_of (p_entry p) <$> p_lines p) ps.

(** The grains of a view's key are the grains of a row. *)
Ltac pick_is_belongs :=
  unfold pick, belongs, of_rank, join2, join3; apply Bool.eq_iff_eq_true; rewrite !andb_true_iff, !bool_decide_eq_true;
  cbn [v_rank v_key account_view ar_payer_view ar_invoice_view tax_view unallocated_view credit_view ce_key account_entity
    ar_payer_entity ar_invoice_entity tax_entity unallocated_entity reusable_credit_entity fst snd]; intuition congruence.

Section books.
Context (l : Ledger) (ps : list Post) (tenant : Uuid) (Hb : books tenant_scoped l ps).

Lemma tenant_keys : header_key <$> tenant_headers (lg_journal l) tenant ≡ₚ entry_key_of ∘ p_entry <$> posts_of tenant ps.
Proof.
  pose proof (filter_bool_perm (fun k : EntryKey => bool_decide (fst (fst k) = tenant)) _ _ (header_keys_posts _ _ _ Hb)) as Hp.
  by rewrite !filter_bool_map in Hp.
Qed.

Lemma tenant_lines_posts : tenant_lines (lg_journal l) tenant ≡ₚ post_rows (posts_of tenant ps).
Proof.
  unfold tenant_lines, post_rows. rewrite <- (flat_map_map (j_lines (lg_journal l)) header_key), tenant_keys, flat_map_map.
  apply flat_map_perm. intros p [_ Hp]%elem_of_filter_bool. apply (bk_lines _ _ _ Hb p Hp).
Qed.

Lemma normal_sides_known p a s : p ∈ posts_of tenant ps -> p_sides p !! a = Some s ->
  normal_side_map (lg_reference l) tenant !! a = Some (as_str s).
Proof.
  intros [Ht%bool_decide_eq_true Hp]%elem_of_filter_bool Ha.
  destruct (bk_chart _ _ _ Hb p a s Hp Ha) as (row & scope & Hrow & Hs & Hadm & Hvis). rewrite Ht in Hadm. apply Hadm in Hvis.
  unfold normal_side_map. rewrite lookup_fmap, (map_lookup_filter_Some_2 _ _ a row); [cbn; by rewrite Hs|done|done].
Qed.

Abbreviation ns := (normal_side_map (lg_reference l) tenant).

Lemma view_posts {K} `{Countable K} (v : View K) `{!ViewLaws v} k :
  Forall (fun row => is_Some (signed_delta row (line_money row) ns)) (post_rows (posts_of tenant ps)) /\
  Forall2 related (selected (v_line v) k (deltas ns (post_rows (posts_of tenant ps)))) (List.filter (pick v tenant k) (history ps)).
Proof.
  pose proof (bk_valid _ _ _ Hb) as Hvalid. pose proof normal_sides_known as Hns. clear Hb. revert Hvalid Hns.
  induction ps as [|p qs IH]; intros Hvalid Hns; [by split; constructor|]. apply Forall_cons in Hvalid as [Hp Hvalid].
  destruct IH as [IH1 IH2]; [done|intros q a s Hq; apply (Hns q); unfold posts_of in *; cbn; case_bool_decide; [by right|done]|].
  destruct (pv_grains _ Hp) as [gs Hgs]. cbn [history flat_map]. unfold post_grains at 1. rewrite Hgs, List.filter_app.
  unfold posts_of in *. cbn [List.filter] in *. case_bool_decide as Ht.
  - cbn [post_rows flat_map]. rewrite deltas_app. unfold selected in *. rewrite List.filter_app.
    destruct (view_entry v tenant ns _ _ _ _ k (pv_lines _ Hp) Ht (fun a s => Hns p a s ltac:(left)) Hgs) as [Hsome Hrel].
    split; [by apply Forall_app_2|by apply Forall2_app].
  - by rewrite (other_tenant v tenant _ _ _ _ k Ht Hgs).
Qed.

(** What the scan folds: the lines of the tenant in some order. *)
Context (lines : list LineRow) (Hlines : lines ≡ₚ tenant_lines (lg_journal l) tenant) (Hcount : vec_ok lines).

Lemma all_signed : Forall (fun row => is_Some (signed_delta row (line_money row) ns)) lines.
Proof. rewrite Hlines, tenant_lines_posts. apply (view_posts account_view (0%N, EmptyString)). Qed.

Lemma deltas_perm xs ys : xs ≡ₚ ys -> deltas ns xs ≡ₚ deltas ns ys.
Proof. intros Hp. unfold deltas. by rewrite Hp. Qed.

Lemma selected_related {K} `{Countable K} (v : View K) `{!ViewLaws v} k :
  exists sel, selected (v_line v) k (deltas ns lines) ≡ₚ sel /\ Forall2 related sel (List.filter (pick v tenant k) (history ps)).
Proof.
  eexists. split; [|exact (proj2 (view_posts v k))]. apply filter_bool_perm, deltas_perm. by rewrite Hlines, tenant_lines_posts.
Qed.

Lemma selected_ok {K} `{Countable K} (f : LineRow -> option K) k : vec_ok (selected f k (deltas ns lines)).
Proof. by apply selected_vec_ok. Qed.

(** The lines a row's grains correspond to. *)
Lemma row_deltas {K X} (rank : GrainTable) (e : CacheEntity K X) own r gs b f sel sel' :
  row_ties rank e own r gs b f -> sel ≡ₚ sel' -> Forall2 related sel' gs ->
  sel <> [] /\ Forall delta_ok sel /\ (forall y, y ∈ sel -> currency (snd y) = currency b) /\
  sum_Z (posted_units ∘ snd) sel = posted_units b.
Proof.
  intros Hr Hp Hrel. split_and!.
  - intros ->. symmetry in Hp. apply Permutation_nil_r in Hp as ->. apply Forall2_nil_inv_l in Hrel. by destruct (rt_some _ _ _ _ _ _ _ Hr).
  - rewrite Hp. eapply Forall2_Forall_l; [exact Hrel|]. apply Forall_true. intros g x Hx. apply Hx.
  - intros y Hy. rewrite Hp in Hy. destruct (Forall2_elem_l _ _ _ _ Hrel Hy) as (g & Hg & Hyg).
    rewrite (rel_spec _ _ Hyg). by apply (rt_currency _ _ _ _ _ _ _ Hr).
  - rewrite (rt_units _ _ _ _ _ _ _ Hr), (sum_Z_perm _ _ _ Hp). clear -Hrel.
    induction Hrel as [|x g xs gs Hx _ IH]; [done|]. rewrite !sum_Z_cons, IH. cbn. by rewrite (rel_units _ _ Hx).
Qed.

Lemma row_agrees {K X} (rank : GrainTable) (e : CacheEntity K X) own r gs b f sel sel' :
  row_ties rank e own r gs b f -> sel ≡ₚ sel' -> Forall2 related sel' gs -> vec_ok sel ->
  key_agrees (total sel) (Some (cached_balance r)).
Proof.
  intros Hr Hp Hrel Hv. pose proof (rt_balance _ _ _ _ _ _ _ Hr) as Hdec. unfold cached_balance, cached_amount.
  unfold decode_balance in Hdec. rewrite Hdec. apply decode_money_ok in Hdec as (Hpok & _).
  destruct (row_deltas _ _ _ _ _ _ _ _ _ Hr Hp Hrel) as (? & ? & ? & ?).
  by destruct (total_agrees sel b) as (g & -> & Hd).
Qed.

Lemma table_agrees {K KT X} `{Countable K} `{Countable KT} (v : View K) `{!ViewLaws v} (e : CacheEntity KT X) own tbl k key :
  table_ties (v_rank v) e own tbl (history ps) ->
  (forall g, g ∈ history ps -> pick v tenant k g = belongs (v_rank v) e key g) ->
  key_agrees (total (selected (v_line v) k (deltas ns lines))) (cached_balance <$> tbl !! key).
Proof.
  intros Ht Hpick. destruct (selected_related v k) as (sel & Hp & Hrel). rewrite (filter_bool_ext _ _ _ Hpick) in Hrel.
  change (List.filter _ _) with (grains_at (v_rank v) e key (history ps)) in Hrel. specialize (Ht key). unfold key_ties in Ht.
  destruct (tbl !! key) as [r|]; cbn [fmap option_fmap option_map].
  - destruct Ht as (b & f & Hr). eapply row_agrees; [exact Hr|done|done|apply selected_ok].
  - rewrite Ht in Hrel. apply Forall2_nil_inv_r in Hrel as ->. by apply Permutation_nil_r in Hp as ->.
Qed.

(** A table whose rows carry the account in a column. *)
Lemma account_table_agrees {K KT X} `{Countable K} `{Countable KT} (v : View K) `{!ViewLaws v} (e : CacheEntity KT X) own tbl k key a :
  table_ties (v_rank v) e own tbl (history ps) ->
  (forall g, g ∈ history ps -> pick v tenant k g = belongs (v_rank v) e key g && bool_decide (gd_account_id g = a)) ->
  key_agrees (total (selected (v_line v) k (deltas ns lines)))
    (r ← tbl !! key; if bool_decide (cr_account_id r = a) then Some (cached_balance r) else None).
Proof.
  intros Ht Hpick. destruct (selected_related v k) as (sel & Hp & Hrel). rewrite (filter_bool_ext _ _ _ Hpick) in Hrel.
  specialize (Ht key). unfold key_ties in Ht.
  assert (Hnil : (forall g, g ∈ history ps -> belongs (v_rank v) e key g && bool_decide (gd_account_id g = a) = false) ->
    total (selected (v_line v) k (deltas ns lines)) = None).
  { intros Hf. rewrite (filter_bool_nil _ _ Hf) in Hrel. apply Forall2_nil_inv_r in Hrel as ->. by apply Permutation_nil_r in Hp as ->. }
  assert (Hat : forall g, g ∈ history ps -> belongs (v_rank v) e key g = true -> g ∈ grains_at (v_rank v) e key (history ps))
    by (intros g ? ?; by apply elem_of_filter_bool).
  destruct (tbl !! key) as [r|]; cbn [mbind option_bind].
  - destruct Ht as (b & f & Hr). pose proof (rt_account _ _ _ _ _ _ _ Hr) as Hacc. case_bool_decide as Ha.
    + eapply row_agrees; [exact Hr|exact Hp| |apply selected_ok]. erewrite filter_bool_ext in Hrel; [exact Hrel|]. cbn. intros g Hg.
      destruct (belongs (v_rank v) e key g) eqn:E; [|done]. rewrite (Hacc g (Hat g Hg E)), Ha. by rewrite bool_decide_true.
    + rewrite Hnil; [done|]. intros g Hg. destruct (belongs (v_rank v) e key g) eqn:E; [|done].
      rewrite (Hacc g (Hat g Hg E)). by rewrite bool_decide_false.
  - rewrite Hnil; [done|]. intros g Hg. destruct (belongs (v_rank v) e key g) eqn:E; [|done].
    specialize (Hat g Hg E). rewrite Ht in Hat. by apply not_elem_of_nil in Hat.
Qed.

Lemma disputed_sum sel gs : Forall2 related sel gs -> (forall g, g ∈ gs -> table_rank g = GArInvoice) ->
  sum_Z (posted_units ∘ snd) (List.filter (fun x => bool_decide (lr_ar_status (fst x) = Some AR_STATUS_DISPUTED)) sel)
  = sum_Z disputed_units gs.
Proof.
  induction 1 as [|x g xs gs Hx _ IH]; intros Hr; [done|]. rewrite sum_Z_cons, <- IH by (intros; apply Hr; by right).
  rewrite (rel_disputed _ _ Hx) by (apply Hr; left). cbn [List.filter]. case_bool_decide; [rewrite sum_Z_cons; cbn|]; lia.
Qed.

Lemma disputed_agrees tbl k : table_ties GArInvoice ar_invoice_entity invoice_own tbl (history ps) ->
  key_agrees (total (selected disputed_key k (deltas ns lines))) (cached_disputed <$> tbl !! join3 tenant k).
Proof.
  intros Ht. destruct (selected_related ar_invoice_view k) as (sel & Hp & Hrel). cbn [v_line ar_invoice_view] in Hp.
  set (disp := fun x : Delta => bool_decide (lr_ar_status (fst x) = Some AR_STATUS_DISPUTED)).
  assert (Hsel : selected disputed_key k (deltas ns lines) = List.filter disp (selected ar_invoice_key k (deltas ns lines))).
  { assert (Hk : forall x : Delta, bool_decide (disputed_key (fst x) = Some k) = disp x && bool_decide (ar_invoice_key (fst x) = Some k)).
    { intros x. unfold disp, disputed_key. apply Bool.eq_iff_eq_true. rewrite andb_true_iff, !bool_decide_eq_true. case_bool_decide; naive_solver. }
    unfold selected. generalize (deltas ns lines). intros xs. induction xs as [|x xs IH]; [done|]. cbn [List.filter]. rewrite Hk.
    destruct (bool_decide (ar_invoice_key _ = _)); destruct (disp x) eqn:E; cbn [List.filter andb]; rewrite ?E, IH; done. }
  pose proof (selected_ok disputed_key k) as Hv. rewrite Hsel in *. pose proof (filter_bool_perm disp _ _ Hp) as Hpd.
  rewrite (filter_bool_ext _ (belongs GArInvoice ar_invoice_entity (join3 tenant k))) in Hrel.
  2:{ intros g _. destruct k as [[payer account] invoice]. pick_is_belongs. }
  change (List.filter _ _) with (grains_at GArInvoice ar_invoice_entity (join3 tenant k) (history ps)) in Hrel.
  specialize (Ht (join3 tenant k)). unfold key_ties in Ht. destruct (tbl !! join3 tenant k) as [r|]; cbn [fmap option_fmap option_map].
  - destruct Ht as (b & f & Hr). destruct (rt_own _ _ _ _ _ _ _ Hr) as (d & Hd & Hdu & _).
    pose proof (rt_balance _ _ _ _ _ _ _ Hr) as Hdec. apply decode_money_ok in Hdec as (_ & _ & _ & Hbc & Hbs).
    unfold cached_disputed, cached_amount. rewrite <- Hbc, <- Hbs, Hd. apply decode_money_ok in Hd as (Hdp & _ & _ & Hdc & Hds).
    assert (Hcur : currency d = currency b) by (destruct (currency d), (currency b); cbn in *; by subst).
    assert (Hsum : sum_Z (posted_units ∘ snd) (List.filter disp (selected ar_invoice_key k (deltas ns lines))) = posted_units d).
    { rewrite (sum_Z_perm _ _ _ Hpd), Hdu. apply disputed_sum; [done|]. intros g [Hg _]%elem_of_filter_bool.
      by apply andb_true_iff in Hg as [Hg%bool_decide_eq_true _]. }
    destruct (List.filter disp (selected ar_invoice_key k (deltas ns lines))) as [|x xs] eqn:E.
    + cbn. apply from_posted_zero; [done|]. by rewrite <- Hsum.
    + destruct (total_agrees (x :: xs) d) as (g & -> & Hg); [done|done|done| | |done|done].
      * rewrite Hpd. apply Forall_forall. intros y [_ Hy]%elem_of_filter_bool.
        destruct (Forall2_elem_l _ _ _ _ Hrel Hy) as (g & _ & Hyg). apply Hyg.
      * intros y Hy. rewrite Hpd in Hy. apply elem_of_filter_bool in Hy as [_ Hy].
        destruct (Forall2_elem_l _ _ _ _ Hrel Hy) as (g & Hg & Hyg). rewrite (rel_spec _ _ Hyg), Hcur. by apply (rt_currency _ _ _ _ _ _ _ Hr).
  - rewrite Ht in Hrel. apply Forall2_nil_inv_r in Hrel as ->. by apply Permutation_nil_r in Hpd as ->.
Qed.

Abbreviation caches := (tenant_caches (lg_caches l) tenant).

(** The recomputed total of an account row is its balance. *)
Lemma account_total account cur r : account_balance (lg_caches l) !! (tenant, account, cur) = Some r ->
  exists b g s, decode_balance r = Ok b /\ total (selected account_key (account, cur) (deltas ns lines)) = Some g /\
    ga_total g = GrainExact s /\ sum_holds s (posted_units b) /\ ga_currency g = code (currency b) /\
    ga_currency_scale g = currency_scale (currency b).
Proof.
  intros Hr. destruct (selected_related account_view (account, cur)) as (sel & Hp & Hrel). cbn [v_line account_view] in Hp.
  rewrite (filter_bool_ext _ (belongs GAccount account_entity (tenant, account, cur))) in Hrel by (intros g _; pick_is_belongs).
  change (List.filter _ _) with (grains_at GAccount account_entity (tenant, account, cur) (history ps)) in Hrel.
  pose proof (ct_account _ _ (bk_caches _ _ _ Hb) (tenant, account, cur)) as Hk. unfold key_ties in Hk. rewrite Hr in Hk.
  destruct Hk as (b & f & Hrow). destruct (row_deltas _ _ _ _ _ _ _ _ _ Hrow Hp Hrel) as (Hne & Hok & Hcur & Hsum).
  set (chosen := selected _ _ _) in *. destruct (head chosen) as [x|] eqn:Hx; [|by destruct chosen].
  assert (Hxin : x ∈ chosen) by (destruct chosen; [done|injection Hx as ->; left]).
  destruct (total_spec chosen x (selected_ok _ _) Hx Hok) as (g & s & Hg & Hgc & Hgs & Ht & Hs); [intros y Hy; by rewrite !Hcur|].
  rewrite Hsum in Hs. rewrite (Hcur x Hxin) in Hgc, Hgs. exists b, g, s. by pose proof (rt_balance _ _ _ _ _ _ _ Hrow).
Qed.

Lemma collect_balances c k : collect (tc_balances (tenant_caches c tenant)) !! k = account_balance c !! join2 tenant k.
Proof.
  rewrite <- (list_fmap_id (tc_balances _)) at 1. rewrite <- (option_fmap_id (_ !! join2 tenant k)).
  rewrite <- (collect_rows owner2 rest2 join2); [|by intros [[??]?]|by intros []]. do 2 f_equal.
  apply list_fmap_ext. by intros ? [? ?] ?.
Qed.

Lemma account_clean : account_finalize (account_fold_page ns (mkAccountBalanceAcc ∅ ∅) (decoded_page lines))
  (collect (tc_balances caches)) (tc_balances caches) = [].
Proof.
  destruct (account_fold ns lines (mkAccountBalanceAcc ∅ ∅)) as [Hcomp Hforced]. specialize (Hforced all_signed).
  destruct (account_fold_page _ _ _) as [computed forced]. cbn [ab_computed ab_forced] in *. subst.
  apply account_finalize_nil.
  - intros k. rewrite fold_bump_lookup, collect_balances. apply (table_agrees account_view _ _ _ _ _ (ct_account _ _ (bk_caches _ _ _ Hb))).
    intros g _. destruct k as [account cur]. pick_is_belongs.
  - intros a c b ([[t a'] c'] & Hk & Ht & [= <- <-])%rows_of_elem. cbn in Ht. rewrite Ht in Hk. by rewrite collect_balances.
Qed.

Lemma sub_grain_clean : sub_grain_finalize (sub_grain_fold_page ns (mkSubGrainAcc ∅ ∅ ∅ ∅ ∅ ∅) (decoded_page lines)) caches = [].
Proof.
  rewrite sub_grain_fold. unfold sub_grain_finalize. cbn [sg_ar_payer sg_ar_invoice sg_ar_invoice_disputed sg_tax sg_unallocated sg_reusable_credit].
  destruct (bk_caches _ _ _ Hb) as [_ _ Hpayer Hinv Hunal Hcred Htax].
  assert (Hj3 : forall A B C (k : Uuid * A * B * C), join3 (owner3 k) (rest3 k) = k) by by intros A B C [[[??]?]?].
  assert (Ho3 : forall A B C (k : A * B * C), owner3 (join3 tenant k) = tenant /\ rest3 (join3 tenant k) = k) by by intros A B C [[??]?].
  rewrite !diff_grain_nil; [done|..]; intros k; rewrite fold_bump_lookup.
  - cbn [tc_reusable_credit tenant_caches].
    rewrite (list_fmap_ext _ (fun '(y, r) => ((fst (fst y), cr_account_id r, snd (fst y), snd y), cached_balance r)))
      by by intros ? [[[??]?]?] ?.
    rewrite (collect_rows_by _ _ join3 (fun y r => (fst (fst y), cr_account_id r, snd (fst y), snd y))
      (fun m => (fst (fst (fst m)), snd (fst m), snd m))) by (done || by intros [[??]?]).
    destruct k as [[[payer account] cur] event]. cbn [fst snd]. erewrite option_bind_ext_fun.
    + apply (account_table_agrees credit_view _ _ _ (payer, account, cur, event) _ account Hcred). intros g _. pick_is_belongs.
    + intros r. cbn. by repeat case_bool_decide; naive_solver.
  - cbn [tc_unallocated tenant_caches].
    rewrite (list_fmap_ext _ (fun '(y, r) => ((fst y, cr_account_id r, snd y), cached_balance r))) by by intros ? [[??]?] ?.
    rewrite (collect_rows_by _ _ join2 (fun y r => (fst y, cr_account_id r, snd y))
      (fun m => (fst (fst m), snd m))) by (done || by intros [[??]?] || by intros []).
    destruct k as [[payer account] cur]. cbn [fst snd]. erewrite option_bind_ext_fun.
    + apply (account_table_agrees unallocated_view _ _ _ (payer, account, cur) _ account Hunal). intros g _. pick_is_belongs.
    + intros r. cbn. by repeat case_bool_decide; naive_solver.
  - cbn [tc_tax tenant_caches]. rewrite (collect_rows _ _ join3) by done.
    apply (table_agrees tax_view _ _ _ _ _ Htax). intros g _. destruct k as [[??]?]. pick_is_belongs.
  - cbn [tc_ar_invoice tenant_caches]. rewrite (collect_rows _ _ join3) by done. by apply disputed_agrees.
  - cbn [tc_ar_invoice tenant_caches]. rewrite (collect_rows _ _ join3) by done.
    apply (table_agrees ar_invoice_view _ _ _ _ _ Hinv). intros g _. destruct k as [[??]?]. pick_is_belongs.
  - cbn [tc_ar_payer tenant_caches]. rewrite (collect_rows _ _ join3) by done.
    apply (table_agrees ar_payer_view _ _ _ _ _ Hpayer). intros g _. destruct k as [[??]?]. pick_is_belongs.
Qed.
End books.
End run.
