(* ===== verification/TieOutReport.v ===== *)
(** * The report on a reachable ledger

    The entry check and the no-negative check of the tie-out, and the theorem that
    composes the whole: on every reachable ledger the full report is clean but for what
    it says of the payment counters and of lines whose mapping is pending. *)

From S2P Require Import Prelude Decimal Money Exact ExactGrid Table DomainErrors MoneyText Sdk Json Canonical Chain Reconciliation.
From S2P Require Import Posting DualApproval Journal ChainVerify ChainRun Projector ProjectorProps Idempotency PostingEngine PostingRun PostingLaws.
From S2P Require Import TieOut TieOutProps TieOutRun.
#[local] Open Scope Z_scope.

(** ** The tally of entries *)

Section entries.
Context `{DecimalText}.
Abbreviation Delta := (LineRow * PostedMoney)%type.

(** The amount of a line, debits positive. *)
Definition debit_delta (line : LineRow) : option PostedMoney :=
  money ← line_money line;
  if bool_decide (lr_side line = SIDE_DEBIT) then Some money else negated money.
Definition debit_deltas (lines : list LineRow) : list Delta := omap (fun line => (line,.) <$> debit_delta line) lines.

Definition entry_key (line : LineRow) : option (Uuid * string * Z) := Some (lr_entry_id line, lr_currency line, lr_currency_scale line).

Definition entry_agg (sel : list Delta) : option EntryAgg :=
  match sel with
  | [] => None
  | _ => Some (mkEntryAgg (total sel) (Z.of_nat (length sel)) (list_to_set ((fun x => lr_payer_tenant_id (fst x)) <$> sel)))
  end.

Lemma entry_agg_snoc sel line d :
  let agg := default entry_agg_default (entry_agg sel) in
  entry_agg (sel ++ [(line, d)]) =
  Some (mkEntryAgg (Some (add_posted (default (line_zero line) (ea_net agg)) d)) (ea_line_count agg + 1)
          ({[lr_payer_tenant_id line]} ∪ ea_payers agg)).
Proof.
  assert (Hn : forall sel, entry_agg (sel ++ [(line, d)]) = Some (mkEntryAgg (total (sel ++ [(line, d)])) (Z.of_nat (length (sel ++ [(line, d)])))
    (list_to_set ((fun x => lr_payer_tenant_id (fst x)) <$> sel ++ [(line, d)])))) by by intros [].
  rewrite Hn, total_snoc, length_app, fmap_app, list_to_set_app_L. cbn zeta. do 2 f_equal.
  - by destruct sel.
  - destruct sel; cbn -[Z.of_nat]; lia.
  - destruct sel; cbn [entry_agg default from_option ea_payers entry_agg_default]; set_solver.
Qed.

Lemma entry_fold_lookup lines k : Forall (fun line => is_Some (debit_delta line)) lines ->
  entry_fold_page ∅ (decoded_page lines) !! k = entry_agg (selected entry_key k (debit_deltas lines)).
Proof.
  induction lines as [|line lines IH] using rev_ind; intros Hall; [exact (lookup_empty k)|].
  apply Forall_app in Hall as [Hall [d Hd]%Forall_inv]. specialize (IH Hall).
  unfold entry_fold_page, decoded_page in *. rewrite fmap_app, foldl_app. cbn [fmap list_fmap foldl].
  unfold debit_deltas in *. rewrite omap_app. cbn [omap list_omap]. rewrite Hd. cbn [fmap option_fmap option_map].
  unfold selected in *. rewrite !List.filter_app. cbn [List.filter fst]. set (groups := foldl _ _ _) in *.
  unfold entry_step. unfold debit_delta in Hd. rewrite Hd.
  set (key := (lr_entry_id line, lr_currency line, lr_currency_scale line)). unfold entry_key at 2. fold key.
  destruct (decide (key = k)) as [<-|Hne].
  - by rewrite lookup_insert_eq, bool_decide_true, entry_agg_snoc, IH.
  - rewrite lookup_insert_ne by done. rewrite bool_decide_false by (intros Heq; apply Hne; by injection Heq). by rewrite app_nil_r.
Qed.

(** A valid line's amount. *)
Lemma debit_delta_ok e l : line_valid l -> exists d, debit_delta (line_row_of e l) = Some d /\
  delta_ok (line_row_of e l, d) /\ currency d = currency (nl_money l) /\ posted_units d = signed (nl_side l) (posted_units (nl_money l)).
Proof.
  intros [[Hp Hsv] _]. unfold debit_delta, line_money. cbn [line_row_of lr_amount lr_currency lr_currency_scale lr_side].
  rewrite (proj2 (decode_money_ok _ _ _ (nl_money l))) by done. cbn [mbind option_bind].
  destruct (nl_side l); cbn [signed].
  - rewrite bool_decide_true by done. exists (nl_money l). by split_and!.
  - rewrite bool_decide_false by done. destruct (negated_ok _ Hp) as (d & Hd & Hpd & Hc & Hu). exists d. split_and!; try done.
    constructor; cbn; [done|by rewrite Hc..].
Qed.

Lemma entry_sum e ls k : Forall line_valid ls ->
  (forall l, l ∈ ls -> code (currency (nl_money l)) = snd (fst k) -> entry_key (line_row_of e l) = Some k) ->
  sum_Z (posted_units ∘ snd) (selected entry_key k (debit_deltas (line_row_of e <$> ls))) = net_of (snd (fst k)) (new_line_facts <$> ls).
Proof.
  unfold net_of. induction ls as [|l ls IH]; intros Hv Hk; [done|]. apply Forall_cons in Hv as [Hl Hv].
  rewrite !fmap_cons, sum_Z_cons. rewrite <- IH; [|done|by intros l' Hl'; apply Hk; right].
  destruct (debit_delta_ok e l Hl) as (d & Hd & _ & _ & Hu). unfold debit_deltas. cbn [omap list_omap]. rewrite Hd.
  cbn [fmap option_fmap option_map]. unfold selected. cbn [List.filter fst]. unfold line_code. cbn [new_line_facts fact_money fact_side].
  destruct (decide (code (currency (nl_money l)) = snd (fst k))) as [Hc|Hc].
  - rewrite (bool_decide_true (code _ = _)), bool_decide_true by first [done|by apply Hk; [left|]]. rewrite sum_Z_cons. cbn. by rewrite Hu.
  - rewrite !bool_decide_false; [done|done|]. intros Heq. apply Hc. unfold entry_key in Heq. cbn in Heq. by injection Heq as <-.
Qed.

(** The lines of one entry in one currency. *)
Lemma entry_net e ls k ec : Forall line_valid ls -> balanced_entry ec (new_line_facts <$> ls) ->
  let sel := selected entry_key k (debit_deltas (line_row_of e <$> ls)) in
  Forall delta_ok sel /\ (forall x y, x ∈ sel -> y ∈ sel -> currency (snd x) = currency (snd y)) /\
  sum_Z (posted_units ∘ snd) sel = 0 /\ (forall x y, x ∈ sel -> y ∈ sel -> lr_payer_tenant_id (fst x) = lr_payer_tenant_id (fst y)).
Proof.
  intros Hv Hbal sel.
  assert (Hsel : forall x, x ∈ sel -> exists l, l ∈ ls /\ fst x = line_row_of e l /\ debit_delta (fst x) = Some (snd x) /\ entry_key (fst x) = Some k).
  { intros [row d] [Hk%bool_decide_eq_true (row' & Hrow & Hd)%list_elem_of_omap]%elem_of_filter_bool.
    apply fmap_Some in Hd as (d' & Hd & [= -> ->]). apply list_elem_of_fmap in Hrow as (l & -> & Hl). by exists l. }
  assert (Hok : forall x, x ∈ sel -> exists l, l ∈ ls /\ fst x = line_row_of e l /\ delta_ok x /\ currency (snd x) = currency (nl_money l) /\
    code (currency (nl_money l)) = snd (fst k) /\ currency_scale (currency (nl_money l)) = snd k).
  { intros [row d] Hx. destruct (Hsel _ Hx) as (l & Hl & Hrow & Hd & Hk). cbn in Hrow, Hd, Hk. subst row.
    rewrite Forall_forall in Hv. destruct (debit_delta_ok e l (Hv l Hl)) as (d' & Hd' & Hok & Hc & _). rewrite Hd in Hd'.
    injection Hd' as <-. exists l. split_and!; try done; unfold entry_key in Hk; cbn in Hk; by injection Hk as <-. }
  split_and!.
  - apply Forall_forall. intros x Hx. by destruct (Hok x Hx) as (l & _ & _ & ? & _).
  - intros x y Hx Hy. destruct (Hok x Hx) as (l1 & _ & _ & _ & -> & Hc1 & Hs1), (Hok y Hy) as (l2 & _ & _ & _ & -> & Hc2 & Hs2).
    destruct (currency (nl_money l1)), (currency (nl_money l2)); cbn in *. congruence.
  - destruct sel as [|x0 sel0] eqn:E; [done|]. destruct (Hok x0 ltac:(left)) as (l0 & Hl0 & Hrow & _ & _ & Hc0 & Hs0).
    destruct (Hsel x0 ltac:(left)) as (l1 & _ & _ & _ & Hk0). rewrite Hrow in Hk0. rewrite <- E. unfold sel.
    rewrite entry_sum; [apply (be_net _ _ Hbal)|done|]. intros l Hl Hc. rewrite <- Hk0. unfold entry_key. cbn. do 2 f_equal; [congruence|].
    apply (be_scale _ _ Hbal (new_line_facts l) (new_line_facts l0)); [by apply list_elem_of_fmap_2..|unfold line_code; cbn; congruence].
  - intros x y Hx Hy. destruct (Hok x Hx) as (l1 & Hl1 & -> & _), (Hok y Hy) as (l2 & Hl2 & -> & _). cbn.
    destruct (be_payer _ _ Hbal) as [payer Hpay]. rewrite Forall_fmap, Forall_forall in Hpay.
    pose proof (Hpay l1 Hl1) as P1. pose proof (Hpay l2 Hl2) as P2. cbn in P1, P2. congruence.
Qed.
End entries.

(** ** The report *)

Section report.
Context `{DecimalText} `{!Sha256} `{!DateText} `{!UuidSource} {D S : Type} `{!JournalDb D}.
Abbreviation Ledger := (Ledger (D := D) (S := S)).

Lemma entry_selected qs k : NoDup (ne_entry_id ∘ p_entry <$> qs) ->
  selected entry_key k (debit_deltas (post_rows qs)) = [] \/
  exists p, p ∈ qs /\
    selected entry_key k (debit_deltas (post_rows qs)) = selected entry_key k (debit_deltas (line_row_of (p_entry p) <$> p_lines p)).
Proof.
  assert (Happ : forall xs ys, selected entry_key k (debit_deltas (xs ++ ys)) =
    selected entry_key k (debit_deltas xs) ++ selected entry_key k (debit_deltas ys)).
  { intros xs ys. unfold debit_deltas, selected. by rewrite omap_app, List.filter_app. }
  assert (Hid : forall p, ne_entry_id (p_entry p) <> fst (fst k) ->
    selected entry_key k (debit_deltas (line_row_of (p_entry p) <$> p_lines p)) = []).
  { intros p Hne. apply filter_bool_nil. intros [row d] (row' & Hrow & Hd)%list_elem_of_omap.
    apply fmap_Some in Hd as (d' & _ & [= -> ->]). apply list_elem_of_fmap in Hrow as (line & -> & _).
    apply bool_decide_eq_false. unfold entry_key. cbn. intros [= <-]. done. }
  induction qs as [|p qs IH]; [by left|]. rewrite fmap_cons, NoDup_cons. intros [Hp Hnd]. cbn [post_rows flat_map].
  change (flat_map _ qs) with (post_rows qs). rewrite Happ.
  destruct (decide (ne_entry_id (p_entry p) = fst (fst k))) as [Heq|Hne].
  - right. exists p. split; [left|]. destruct (IH Hnd) as [->|(q & Hq & ->)]; [by rewrite app_nil_r|].
    rewrite (Hid q), app_nil_r; [done|]. intros Hqk. apply Hp. cbn. rewrite Heq, <- Hqk.
    by apply (list_elem_of_fmap_2 (ne_entry_id ∘ p_entry)).
  - rewrite (Hid p Hne). cbn [app]. destruct (IH Hnd) as [->|(q & Hq & ->)]; [by left|right]. exists q. by split; [right|].
Qed.

Section books.
Context (l : Ledger) (ps : list Post) (tenant : Uuid) (Hb : books tenant_scoped l ps).
Context (lines : list LineRow) (Hlines : lines ≡ₚ tenant_lines (lg_journal l) tenant) (Hcount : vec_ok lines).

Lemma entries_clean : NoDup (er_entry_id <$> tenant_headers (lg_journal l) tenant) ->
  entry_finalize (entry_fold_page ∅ (decoded_page lines)) = [].
Proof.
  intros Hnd. assert (Hnd' : NoDup (ne_entry_id ∘ p_entry <$> posts_of tenant ps)).
  { pose proof (fmap_Permutation (fun k : EntryKey => snd k) _ _ (tenant_keys l ps tenant Hb)) as Hp.
    rewrite <- !list_fmap_compose in Hp. by rewrite <- Hp. }
  assert (Hrows : lines ≡ₚ post_rows (posts_of tenant ps)) by (rewrite Hlines; by apply tenant_lines_posts).
  assert (Hvalid : forall p, p ∈ posts_of tenant ps -> post_valid p).
  { intros p [_ Hp]%elem_of_filter_bool. pose proof (bk_valid _ _ _ Hb) as Hv. rewrite Forall_forall in Hv. by apply Hv. }
  assert (Hall : Forall (fun line => is_Some (debit_delta line)) lines).
  { rewrite Hrows. apply Forall_forall. intros row Hrow. unfold post_rows in Hrow.
    apply list_elem_of_In, in_flat_map in Hrow as (p & Hp%list_elem_of_In & Hr%list_elem_of_In).
    apply list_elem_of_fmap in Hr as (line & -> & Hl). pose proof (pv_lines _ (Hvalid p Hp)) as Hv. rewrite Forall_forall in Hv.
    destruct (debit_delta_ok (p_entry p) line (Hv line Hl)) as (d & -> & _). by eexists. }
  unfold entry_finalize. apply flat_map_nil. intros [[[eid cur] sc] agg] Hk%elem_of_map_to_list.
  rewrite entry_fold_lookup in Hk by done. set (k := (eid, cur, sc)) in *. set (sel := selected entry_key k (debit_deltas lines)) in *.
  assert (Hsel : sel ≡ₚ selected entry_key k (debit_deltas (post_rows (posts_of tenant ps)))).
  { unfold sel, debit_deltas. apply filter_bool_perm. by rewrite Hrows. }
  assert (Hv : vec_ok sel) by by apply selected_vec_ok.
  destruct (entry_selected _ k Hnd') as [Hnil|(p & Hp & Hone)].
  { rewrite Hnil in Hsel. apply Permutation_nil_r in Hsel. by rewrite Hsel in Hk. }
  rewrite Hone in Hsel. destruct (entry_net (p_entry p) (p_lines p) k _ (pv_lines _ (Hvalid p Hp)) (pv_balanced _ (Hvalid p Hp))) as (Hok & Hcur & Hsum & Hpay).
  rewrite <- Hsel in Hok. setoid_rewrite <- Hsel in Hcur. setoid_rewrite <- Hsel in Hpay. rewrite <- (sum_Z_perm _ _ _ Hsel) in Hsum.
  destruct sel as [|x sel'] eqn:E; [done|]. cbn [entry_agg] in Hk. apply (inj Some) in Hk as <-.
  destruct (total_spec (x :: sel') x Hv eq_refl Hok) as (g & s & Hg & _ & _ & Ht & Hs); [intros y Hy; apply Hcur; [done|left]|].
  cbn [ea_net ea_payers]. rewrite Hg. cbn [from_option id]. unfold grain_is_zero. rewrite Ht, (sum_is_zero_holds s _ Hs), Hsum.
  cbn [negb orb Z.eqb].
  assert (Hsize : (size (list_to_set (C := gset Uuid) ((fun y => lr_payer_tenant_id (fst y)) <$> x :: sel')) <= 1)%nat).
  { rewrite <- (size_singleton (C := gset Uuid) (lr_payer_tenant_id (fst x))). apply subseteq_size. intros u.
    rewrite elem_of_list_to_set, list_elem_of_fmap, elem_of_singleton. intros (y & -> & Hy). apply Hpay; [done|left]. }
  destruct (Z.ltb_spec 1 (Z.of_nat (size (list_to_set (C := gset Uuid) ((fun y => lr_payer_tenant_id (fst y)) <$> x :: sel'))))); [lia|done].
Qed.

Lemma negative_clean : negative_grains (tc_balances (tenant_caches (lg_caches l) tenant)) = [].
Proof.
  unfold negative_grains. destruct (omap _ _) as [|n ns] eqn:E; [done|]. assert (n ∈ n :: ns) as Hn by left. rewrite <- E in Hn.
  apply list_elem_of_omap in Hn as ([[a c] r] & [Hg Hin]%elem_of_filter_bool & Hd).
  apply rows_of_elem in Hin as (k & Hk & _). destruct (account_row _ _ _ _ (bk_caches _ _ _ Hb) Hk) as (b & cls & Hdec & Hcls & Hpos).
  rewrite Hdec in Hd. rewrite (proj2 (from_str_ok _ cls) Hcls) in Hg. specialize (Hpos Hg).
  apply decode_money_ok in Hdec as ((_ & [_ Hz] & _) & _). destruct (is_sign_negative (amount b)) eqn:Hs; [|done].
  exfalso. unfold posted_units, units in Hpos. pose proof (scale_bound (amount b)).
  pose proof (pow10_pos (max_scale - scale (amount b)) ltac:(lia)).
  destruct (Z.lt_trichotomy (mantissa (amount b)) 0) as [?|[He|Hp]]; [nia|specialize (Hz He); congruence|].
  by rewrite sign_positive in Hs.
Qed.
End books.

(** The pages of the scan fold to one fold of all lines. *)
Lemma line_scan_pages ns index pages : forall acc,
  let scan := foldl (line_scan_page ns index) acc pages in
  let lines := mjoin (M := list) pages in
  ls_account_balance scan = account_fold_page ns (ls_account_balance acc) (decoded_page lines) /\
  ls_sub_grain scan = sub_grain_fold_page ns (ls_sub_grain acc) (decoded_page lines) /\
  ls_entry_balance scan = entry_fold_page (ls_entry_balance acc) (decoded_page lines) /\
  (0 <= ls_posted_line_count acc -> ls_posted_line_count acc + Z.of_nat (length lines) < 2 ^ 64 ->
   ls_posted_line_count scan = ls_posted_line_count acc + Z.of_nat (length lines)).
Proof.
  induction pages as [|page pages IH]; intros acc; cbn zeta; [split_and!; [done..|cbn; lia]|].
  change (mjoin (page :: pages)) with (page ++ mjoin pages). cbn [foldl].
  specialize (IH (line_scan_page ns index acc page)). cbn zeta in IH. destruct IH as (-> & -> & -> & Hc).
  unfold account_fold_page, sub_grain_fold_page, entry_fold_page, decoded_page in *. rewrite !fmap_app, !foldl_app.
  split_and!; [done..|]. rewrite length_app, Nat2Z.inj_add. intros H0' Hlt.
  cbn [line_scan_page ls_posted_line_count] in Hc. unfold saturating_add in Hc. rewrite Z.min_l in Hc by lia. rewrite Hc; lia.
Qed.

(** C4: The full tie-out of a reachable ledger finds nothing in the books.  When the identifiers of
    the tenant's lines and of its entries are distinct and the lines number fewer than [2^64], the
    report counts every line once and has no variance in any of the six balance caches, no entry that
    fails the balance check and no negative guarded balance: it is clean exactly when no payment
    counter differs and no line is pending. *)
Theorem tie_out_clean allocations_of settlements_of (l : Ledger) tenant : reachable tenant_scoped l ->
  NoDup (lr_line_id <$> tenant_lines (lg_journal l) tenant) ->
  NoDup (er_entry_id <$> tenant_headers (lg_journal l) tenant) ->
  vec_ok (tenant_lines (lg_journal l) tenant) ->
  let report := tie_out_on allocations_of settlements_of l tenant in
  account_balance_variances report = [] /\ sub_grain_variances report = [] /\ imbalanced_entries report = [] /\
  to_negative_grains report = [] /\
  posted_line_count report = Z.of_nat (length (tenant_lines (lg_journal l) tenant)) /\
  is_clean report = is_empty (payment_counter_variances report) && (pending_lines report =? 0).
Proof.
  intros (ps & Hb)%reachable_books Hids Hentries Hcount. unfold tie_out_on.
  destruct (scan_pages er_entry_id _ _ _) as [index has_return].
  destruct (scan_pages_all lr_line_id (tenant_lines (lg_journal l) tenant)
    (line_scan_page (normal_side_map (lg_reference l) tenant) index) line_scan_start Hids) as (pages & Hpages & Hscan). rewrite Hscan.
  assert (Hc' : vec_ok (mjoin (M := list) pages)) by (unfold vec_ok; by rewrite Hpages).
  destruct (line_scan_pages (normal_side_map (lg_reference l) tenant) index pages line_scan_start) as (Ha & Hs & He & Hn).
  cbn zeta. unfold is_clean. cbn [account_balance_variances sub_grain_variances imbalanced_entries to_negative_grains posted_line_count
    payment_counter_variances pending_lines]. rewrite Ha, Hs, He. cbn [line_scan_start ls_account_balance ls_sub_grain ls_entry_balance].
  rewrite (account_clean l ps tenant Hb _ Hpages Hc'), (sub_grain_clean l ps tenant Hb _ Hpages Hc'),
    (entries_clean l ps tenant Hb _ Hpages Hc' Hentries), (negative_clean l ps tenant Hb).
  split_and!; try done. rewrite Hn by (cbn; unfold vec_ok in Hc'; lia). cbn. by rewrite Hpages.
Qed.

(** ** Detection *)

(** The account table with the balance text of one row replaced. *)
Definition with_balance (text : string) (r : CacheRow AccountColumns) : CacheRow AccountColumns :=
  mkCacheRow (cr_account_id r) (cr_currency r) (cr_currency_scale r) text (cr_functional_balance r) (cr_functional_currency r)
    (cr_functional_currency_scale r) (cr_last_entry_seq r) (cr_version r) (cr_own r).
Definition tampered (k : Uuid * Uuid * string) (text : string) (c : Caches) : Caches :=
  mkCaches (alter (with_balance text) k (account_balance c)) (ar_payer_balance c) (ar_invoice_balance c) (unallocated_balance c)
    (reusable_credit_subbalance c) (tax_subbalance c).

Lemma flat_map_nil_inv {A B} (f : A -> list B) xs x : flat_map f xs = [] -> x ∈ xs -> f x = [].
Proof.
  induction xs as [|y xs IH]; [by intros _ Hx%not_elem_of_nil|]. cbn. intros [Hy Hxs]%app_nil [->|Hx]%elem_of_cons; [done|by apply IH].
Qed.

Lemma account_finalize_some acc cache_map balances k g r : ab_computed acc !! k = Some g -> cache_map !! k = Some r ->
  differs_from g (cached_balance r) = true -> account_finalize acc cache_map balances <> [].
Proof.
  intros Hg Hr Hd Hnil. unfold account_finalize in Hnil. apply app_nil in Hnil as [Hnil _].
  pose proof (flat_map_nil_inv _ _ (k, g) Hnil ltac:(by apply elem_of_map_to_list)) as Hkg. cbn in Hkg. by rewrite Hr, Hd in Hkg.
Qed.

(** A text other than the canonical text of a total differs from the total. *)
Lemma other_text_differs g s b text : ga_total g = GrainExact s -> sum_holds s (posted_units b) -> posted_ok b ->
  ga_currency g = code (currency b) -> ga_currency_scale g = currency_scale (currency b) -> text <> encode_amount b ->
  differs_from g (cached_amount text (code (currency b)) (currency_scale (currency b))) = true.
Proof.
  intros Ht Hs Hb Hc Hsc Hne. unfold cached_amount. destruct (decode_money _ _ _) as [m|] eqn:Hd.
  2:{ unfold differs_from. rewrite Ht. by cbn. }
  apply decode_money_ok in Hd as (Hm & _ & Henc & Hmc & Hms). destruct (from_posted_spec m Hm) as (s' & Ht' & Hs' & Hc' & Hsc').
  destruct (differs_from g (from_posted m)) eqn:Hdiff; [done|exfalso]. apply (differs_spec _ _ (posted_units b) (posted_units m) True True) in Hdiff;
    [|by rewrite Ht|by rewrite Ht'].
  destruct Hdiff as (_ & _ & _ & _ & Heq). apply Hne. rewrite <- Henc. f_equal. symmetry. apply posted_unique; try done.
  destruct (currency b), (currency m); cbn in *. congruence.
Qed.

(** C7: The tie-out misses no altered balance.  In a reachable ledger, let the stored text of any
    account balance be replaced by any other text, well-formed or not: the full report of the row's
    tenant then has an account variance, so it is not clean. *)
Theorem tie_out_detects allocations_of settlements_of (l : Ledger) tenant account cur r text : reachable tenant_scoped l ->
  NoDup (lr_line_id <$> tenant_lines (lg_journal l) tenant) -> vec_ok (tenant_lines (lg_journal l) tenant) ->
  account_balance (lg_caches l) !! (tenant, account, cur) = Some r -> text <> cr_balance r ->
  let report := tie_out_on allocations_of settlements_of (with_caches (tampered (tenant, account, cur) text (lg_caches l)) l) tenant in
  account_balance_variances report <> [] /\ is_clean report = false.
Proof.
  intros (ps & Hb)%reachable_books Hids Hcount Hr Htext report.
  enough (Hv : account_balance_variances report <> []) by (split; [done|]; unfold is_clean; by destruct (account_balance_variances report)).
  unfold report, tie_out_on. cbn [lg_journal lg_reference lg_caches lg_rest with_caches].
  destruct (scan_pages er_entry_id _ _ _) as [index has_return]. cbn [account_balance_variances].
  destruct (scan_pages_all lr_line_id (tenant_lines (lg_journal l) tenant)
    (line_scan_page (normal_side_map (lg_reference l) tenant) index) line_scan_start Hids) as (pages & Hpages & ->).
  destruct (line_scan_pages (normal_side_map (lg_reference l) tenant) index pages line_scan_start) as (-> & _).
  set (lines := mjoin pages) in *. assert (Hc' : vec_ok lines) by (unfold vec_ok; by rewrite Hpages).
  destruct (account_total l ps tenant Hb lines Hpages Hc' account cur r Hr) as (b & g & s & Hdec & Hg & Ht & Hs & Hgc & Hgs).
  unfold decode_balance in Hdec. apply decode_money_ok in Hdec as (Hpok & _ & Henc & Hbc & Hbs).
  apply (account_finalize_some _ _ _ (account, cur) g (with_balance text r)).
  - etransitivity; [apply (f_equal (lookup _)), (proj1 (account_fold (normal_side_map (lg_reference l) tenant) lines (mkAccountBalanceAcc ∅ ∅)))|].
    cbn [ab_computed]. by rewrite fold_bump_lookup.
  - rewrite collect_balances. unfold tampered, join2. cbn [account_balance fst snd]. by rewrite lookup_alter_eq, Hr.
  - unfold cached_balance. cbn [with_balance cr_balance cr_currency cr_currency_scale]. rewrite <- Hbc, <- Hbs.
    eapply other_text_differs; try done. by rewrite Henc.
Qed.
End report.
