(* ===== verification/TieOutIncremental.v ===== *)
(** * The incremental tie-out and its baseline

    [infra/jobs/tieout.rs] (the second half) and [infra/storage/repo/verified_balance_repo.rs].
    At the close of a period ([PeriodClose]) the caches are snapshotted as the verified
    baseline; the incremental tie-out then compares baseline plus the lines of the open
    periods with the caches.  [PostingSamples] shows when it differs from the full
    tie-out. *)

From S2P Require Import Prelude Decimal Money Exact ExactGrid Table DomainErrors MoneyText Sdk Json Canonical Chain Reconciliation.
From S2P Require Import Posting Journal Projector Idempotency PostingEngine TieOut.

Definition GRAIN_ACCOUNT : string := "account".
Definition GRAIN_AR_PAYER : string := "ar_payer".
Definition GRAIN_AR_INVOICE : string := "ar_invoice".
Definition GRAIN_AR_INVOICE_DISPUTED : string := "ar_invoice_disputed".
Definition GRAIN_TAX : string := "tax".
Definition GRAIN_UNALLOCATED : string := "unallocated".
Definition GRAIN_REUSABLE_CREDIT : string := "reusable_credit".
Definition PERIOD_STATUS_CLOSED : string := "CLOSED".

Definition grain_label (grain : string) : option string :=
  if bool_decide (grain ∈ [GRAIN_ACCOUNT; GRAIN_AR_PAYER; GRAIN_AR_INVOICE; GRAIN_AR_INVOICE_DISPUTED; GRAIN_TAX;
                           GRAIN_UNALLOCATED; GRAIN_REUSABLE_CREDIT]) then Some grain else None.

Definition bar : Ascii.ascii := Ascii.ascii_of_N 124.

(** [str::split('|')]. *)
Fixpoint split_bar (s : string) : list string :=
  match s with
  | EmptyString => [""]
  | String c rest =>
      if Ascii.eqb c bar then "" :: split_bar rest
      else match split_bar rest with
           | word :: words => String c word :: words
           | [] => [String c ""]
           end
  end.

(** ** The stored baseline *)

(** [verified_balance::Model] without its key. *)
Record VerifiedRow := mkVerifiedRow {
  vb_currency : string;
  vb_currency_scale : Z;
  vb_verified_balance : string;
  vb_version : Z;
  vb_through_period : string;
  vb_watermark_seq : Z;
  vb_updated_at_utc : OffsetDateTime;
}.

Abbreviation VerifiedKey := (Uuid * string * string)%type.
Abbreviation VerifiedBalances := (gmap VerifiedKey VerifiedRow).

Definition currency_position (grain : string) : option (option nat) :=
  if bool_decide (grain = GRAIN_ACCOUNT) then Some (Some 1%nat)
  else if bool_decide (grain ∈ [GRAIN_AR_PAYER; GRAIN_UNALLOCATED; GRAIN_REUSABLE_CREDIT]) then Some (Some 2%nat)
  else if bool_decide (grain ∈ [GRAIN_AR_INVOICE; GRAIN_AR_INVOICE_DISPUTED; GRAIN_TAX]) then Some None
  else None.

Section baseline.
Context `{DecimalText} `{!UuidSource}.

Record BaselineRow := mkBaselineRow { bl_grain : string; bl_grain_key : string; bl_balance : PostedMoney }.

Record VerifiedBalanceView := mkVerifiedBalanceView {
  vw_grain : string;
  vw_grain_key : string;
  vw_balance : PostedMoney;
  vw_version : Z;
  vw_through_period : string;
  vw_watermark_seq : Z;
}.

Definition validate_key (grain grain_key : string) (money : PostedMoney) : bool :=
  match currency_position grain with
  | None => false
  | Some currency_index =>
      negb (bool_decide (grain_key = "")
            || match currency_index with
               | Some i => negb (bool_decide (split_bar grain_key !! i = Some (code (currency money))))
               | None => false
               end)
  end.

Definition decode_verified (grain grain_key : string) (row : VerifiedRow) : result RepoError VerifiedBalanceView :=
  balance ← decode_money (vb_verified_balance row) (vb_currency row) (vb_currency_scale row);
  _ ← ensure (validate_key grain grain_key balance) RepoError.InvalidStoredMoney;
  _ ← ensure (negb ((vb_version row <? 0) || (vb_watermark_seq row <? 0))) RepoError.InvalidStoredMoney;
  Ok (mkVerifiedBalanceView grain grain_key balance (vb_version row) (vb_through_period row) (vb_watermark_seq row)).

Definition load_baseline (t : VerifiedBalances) (tenant : Uuid) : result RepoError (list VerifiedBalanceView) :=
  map_res (fun '((_, grain, grain_key), row) => decode_verified grain grain_key row)
    (List.filter (fun '((row_tenant, _, _), _) => bool_decide (row_tenant = tenant)) (map_to_list t)).

Definition replace_observed (t : VerifiedBalances) (tenant : Uuid) (previous : VerifiedBalanceView) (row : BaselineRow)
    (through_period : string) (watermark_seq : Z) (now : OffsetDateTime) : result RepoError VerifiedBalances :=
  _ ← ensure (bool_decide (code (currency (vw_balance previous)) = code (currency (bl_balance row)))) (RepoError.Money MoneyError.CurrencyMismatch);
  _ ← ensure (currency_scale (currency (vw_balance previous)) =? currency_scale (currency (bl_balance row))) (RepoError.Money MoneyError.ScaleMismatch);
  _ ← ensure (vw_version previous <? 2 ^ 63 - 1) RepoError.InvalidStoredMoney;
  let '(t, changed) :=
    t_update t (tenant, vw_grain previous, vw_grain_key previous)
      (fun r => vb_version r =? vw_version previous)
      (fun r => mkVerifiedRow (vb_currency r) (vb_currency_scale r) (encode_amount (bl_balance row)) (vw_version previous + 1)
                  through_period watermark_seq now) in
  if negb (changed =? 1) then Err RepoError.Conflict else Ok t.

Definition seed (t : VerifiedBalances) (tenant : Uuid) (row : BaselineRow) (through_period : string) (watermark_seq : Z)
    (now : OffsetDateTime) : result RepoError VerifiedBalances :=
  ok_or (t_insert t (tenant, bl_grain row, bl_grain_key row)
           (mkVerifiedRow (code (currency (bl_balance row))) (currency_scale (currency (bl_balance row)))
              (encode_amount (bl_balance row)) 0 through_period watermark_seq now)) RepoError.Conflict.

(** [VerifiedBalanceRepo::snapshot]; [stored] is read once, before the writes. *)
Definition snapshot (t : VerifiedBalances) (tenant : Uuid) (through_period : string) (watermark_seq : Z) (rows : list BaselineRow)
    (now : OffsetDateTime) : result RepoError VerifiedBalances :=
  _ ← ensure (negb (watermark_seq <? 0)) RepoError.InvalidRequest;
  _ ← ensure (forallb (fun row => validate_key (bl_grain row) (bl_grain_key row) (bl_balance row)) rows) RepoError.InvalidRequest;
  _ ← ensure (bool_decide (NoDup ((fun row => (bl_grain row, bl_grain_key row)) <$> rows))) RepoError.InvalidRequest;
  let stored := t in
  fold_res (fun t row =>
      match stored !! (tenant, bl_grain row, bl_grain_key row) with
      | Some m => previous ← decode_verified (bl_grain row) (bl_grain_key row) m;
                  replace_observed t tenant previous row through_period watermark_seq now
      | None => seed t tenant row through_period watermark_seq now
      end) t rows.

(** ** Grain keys *)

Definition key_account (account_id : Uuid) (currency : string) : string := uuid_to_string account_id +:+ "|" +:+ currency.
Definition key_payer_account_ccy (payer account : Uuid) (currency : string) : string :=
  uuid_to_string payer +:+ "|" +:+ uuid_to_string account +:+ "|" +:+ currency.
Definition key_payer_account_invoice (payer account : Uuid) (invoice : string) : string :=
  uuid_to_string payer +:+ "|" +:+ uuid_to_string account +:+ "|" +:+ invoice.
Definition key_tax (account : Uuid) (juris filing : string) : string :=
  uuid_to_string account +:+ "|" +:+ juris +:+ "|" +:+ filing.
Definition key_reusable (payer account : Uuid) (currency event_type : string) : string :=
  uuid_to_string payer +:+ "|" +:+ uuid_to_string account +:+ "|" +:+ currency +:+ "|" +:+ event_type.

Abbreviation Grains := (gmap (string * string) GrainAmount).

(** ** The caches and the lines in the key space of the baseline *)

Definition cache_grains (c : TenantCaches) : Grains :=
  collect
    (((fun '(account, currency, b) => ((GRAIN_ACCOUNT, key_account account currency), cached_balance b)) <$> tc_balances c)
     ++ ((fun '(payer, account, currency, r) =>
            ((GRAIN_AR_PAYER, key_payer_account_ccy payer account currency), cached_balance r)) <$> tc_ar_payer c)
     ++ flat_map (fun '(payer, account, invoice, r) =>
            let key := key_payer_account_invoice payer account invoice in
            [((GRAIN_AR_INVOICE, key), cached_balance r); ((GRAIN_AR_INVOICE_DISPUTED, key), cached_disputed r)]) (tc_ar_invoice c)
     ++ ((fun '(account, juris, filing, r) => ((GRAIN_TAX, key_tax account juris filing), cached_balance r)) <$> tc_tax c)
     ++ ((fun '(payer, currency, r) =>
            ((GRAIN_UNALLOCATED, key_payer_account_ccy payer (cr_account_id r) currency), cached_balance r)) <$> tc_unallocated c)
     ++ ((fun '(payer, currency, event_type, r) =>
            ((GRAIN_REUSABLE_CREDIT, key_reusable payer (cr_account_id r) currency event_type), cached_balance r)) <$> tc_reusable_credit c)).

Definition cache_baseline_rows (cache : Grains) : result GrainError (list BaselineRow) :=
  map_res (fun '((grain, key), balance) => balance ← grain_to_posted balance; Ok (mkBaselineRow grain key balance)) (map_to_list cache).

Definition fold_grains_step (normal_side_map : gmap Uuid string) (m : Grains) (line : LineRow) : Grains :=
  match (money ← line_money line; signed_owned line money normal_side_map) with
  | None => m
  | Some delta =>
      let bump m key := bump m key line delta in
      let m := bump m (GRAIN_ACCOUNT, key_account (lr_account_id line) (lr_currency line)) in
      let m :=
        if bool_decide (lr_account_class line = CLASS_AR) then
          let m := bump m (GRAIN_AR_PAYER, key_payer_account_ccy (lr_payer_tenant_id line) (lr_account_id line) (lr_currency line)) in
          match lr_invoice_id line with
          | Some invoice_id =>
              let key := key_payer_account_invoice (lr_payer_tenant_id line) (lr_account_id line) invoice_id in
              let m := bump m (GRAIN_AR_INVOICE, key) in
              if bool_decide (lr_ar_status line = Some AR_STATUS_DISPUTED) then bump m (GRAIN_AR_INVOICE_DISPUTED, key) else m
          | None => m
          end
        else m in
      let m :=
        if bool_decide (lr_account_class line = CLASS_TAX_PAYABLE) then
          match lr_tax_jurisdiction line, lr_tax_filing_period line with
          | Some juris, Some filing => bump m (GRAIN_TAX, key_tax (lr_account_id line) juris filing)
          | _, _ => m
          end
        else m in
      let m :=
        if bool_decide (lr_account_class line = CLASS_UNALLOCATED)
        then bump m (GRAIN_UNALLOCATED, key_payer_account_ccy (lr_payer_tenant_id line) (lr_account_id line) (lr_currency line))
        else m in
      if bool_decide (lr_account_class line = CLASS_REUSABLE_CREDIT)
      then bump m (GRAIN_REUSABLE_CREDIT, key_reusable (lr_payer_tenant_id line) (lr_account_id line) (lr_currency line)
                                            (default "" (lr_credit_grant_event_type line)))
      else m
  end.

Definition fold_grains (lines : list LineRow) (normal_side_map : gmap Uuid string) : Grains :=
  foldl (fold_grains_step normal_side_map) ∅ lines.

Definition verify_incremental (baseline open_fold cache : Grains) : list SubGrainVariance :=
  flat_map (fun key =>
      let like := match baseline !! key, open_fold !! key, cache !! key with
                  | Some g, _, _ => g
                  | None, Some g, _ => g
                  | None, None, Some g => g
                  | None, None, None => grain_zero "" 0
                  end in
      let zero := grain_zero (ga_currency like) (ga_currency_scale like) in
      let computed := default zero (baseline !! key) in
      let computed := match open_fold !! key with Some open => add_grain computed open | None => computed end in
      let cached := default zero (cache !! key) in
      if differs_from computed cached then [mkSubGrainVariance (fst key) (snd key) computed cached] else [])
    (elements (dom baseline ∪ dom open_fold ∪ dom cache)).

Record IncrementalReport := mkIncrementalReport {
  ir_sub_grain_variances : list SubGrainVariance;
  open_line_count : Z;
  watermark : option Z;
}.

Definition incremental_is_clean (r : IncrementalReport) : bool := is_empty (ir_sub_grain_variances r).

Definition into_tie_out_report (r : IncrementalReport) (tenant : Uuid) : TieOutReport :=
  mkTieOutReport tenant (open_line_count r) [] (ir_sub_grain_variances r) [] [] [] 0.

Definition max_of (xs : list Z) : option Z :=
  match xs with [] => None | x :: xs => Some (foldl Z.max x xs) end.

Section job.
Context `{!Sha256} `{!DateText} {D S : Type} `{!JournalDb D}.
Abbreviation Ledger := (Ledger (D := D) (S := S)).

(** The identifiers of the open periods; none when a period is neither open nor closed. *)
Definition open_periods (r : Reference) (tenant : Uuid) : option (list string) :=
  let periods := List.filter (fun '((row_tenant, _, _), _) => bool_decide (row_tenant = tenant)) (map_to_list (rf_period_status r)) in
  if forallb (fun '(_, status) => bool_decide (status = PERIOD_STATUS_OPEN) || bool_decide (status = PERIOD_STATUS_CLOSED)) periods
  then Some ((fun '((_, _, period_id), _) => period_id)
               <$> List.filter (fun '(_, status) => bool_decide (status = PERIOD_STATUS_OPEN)) periods)
  else None.

Definition tie_out_incremental (l : Ledger) (verified : VerifiedBalances) (tenant : Uuid) :
    result RepoError (option IncrementalReport) :=
  baseline_rows ← load_baseline verified tenant;
  if is_empty baseline_rows then Ok None else
  match open_periods (lg_reference l) tenant with
  | None => Ok None
  | Some open_period_ids =>
      let open_lines := List.filter (fun line => bool_decide (lr_period_id line ∈ open_period_ids)) (tenant_lines (lg_journal l) tenant) in
      let normal_sides := normal_side_map (lg_reference l) tenant in
      let baseline_map := collect (omap (fun r => g ← grain_label (vw_grain r);
                                                  Some ((g, vw_grain_key r), from_posted (vw_balance r))) baseline_rows) in
      let open_fold := fold_grains open_lines normal_sides in
      let cache_map := cache_grains (tenant_caches (lg_caches l) tenant) in
      Ok (Some (mkIncrementalReport (verify_incremental baseline_map open_fold cache_map) (Z.of_nat (length open_lines))
                  (max_of (vw_watermark_seq <$> baseline_rows))))
  end.

(** [TieOutJob::snapshot_baseline]. *)
Definition snapshot_baseline (l : Ledger) (verified : VerifiedBalances) (tenant : Uuid) (through_period : string)
    (now : OffsetDateTime) : option VerifiedBalances :=
  match cache_baseline_rows (cache_grains (tenant_caches (lg_caches l) tenant)) with
  | Err _ => None
  | Ok rows =>
      let entries := List.filter (fun h => bool_decide (er_period_id h = through_period)) (tenant_headers (lg_journal l) tenant) in
      match snapshot verified tenant through_period (default 0 (max_of (er_created_seq <$> entries))) rows now with
      | Ok verified => Some verified
      | Err _ => None
      end
  end.

(** [tie_out_for]. *)
Definition tie_out_for (allocations_of : S -> Uuid -> list AllocationRow) (settlements_of : S -> Uuid -> list SettlementRow)
    (l : Ledger) (verified : VerifiedBalances) (tenant : Uuid) (full : bool) : result RepoError TieOutReport :=
  if full then Ok (tie_out_on allocations_of settlements_of l tenant)
  else
    inc ← tie_out_incremental l verified tenant;
    Ok (match inc with
        | Some inc => into_tie_out_report inc tenant
        | None => tie_out_on allocations_of settlements_of l tenant
        end).
End job.
End baseline.
