(* ===== verification/PeriodClose.v ===== *)
(** * Closing and reopening a period: [ledger/src/infra/period_close.rs]

    The bodies of the two serializable transactions: the read of the period, the gate,
    the flip of its status, the record of the close process, the snapshot of the
    baseline and the event.  The state adds the tables they write to the ledger's.
    What they read of other parts (the queue of exceptions, the recognition segments,
    the control feeds, the revaluation marker) is an argument.  The lease around them
    ([Lease]) and the retry ([Retry]) are modelled elsewhere. *)

From S2P Require Import Prelude Decimal Money Exact ExactGrid Table DomainErrors MoneyText Sdk Json Canonical Chain Reconciliation.
From S2P Require Import Posting FxClosing DualApproval Journal ChainVerify Projector Idempotency PostingEngine PostingRun TieOut TieOutIncremental.

Definition PERIOD_CLOSE_STATUS_CLOSING : string := "CLOSING".
Definition PERIOD_CLOSE_STATUS_REOPENED : string := "REOPENED".

(** What a blocked close names, in the order of the gate. *)
Inductive CloseReason :=
| TieOutNotClean
| OpenExceptions (open : list (string * string))
| DueNotDone (count : Z)
| BillRunNotFinished
| BillRunNotAsserted
| BillRunFeedError
| MissedPosting (missing : Z)
| InvoiceCountMismatch (manifest posted : Z)
| ManifestUnavailable
| ManifestFeedError
| FxRevaluationNotComplete.

Inductive CloseTxnResult :=
| CloseNotFound
| AlreadyClosed
| NotOpen
| Blocked (reasons : list CloseReason)
| Flipped (already_closed : bool).

Inductive ReopenTxnResult := ReopenNotFound | ReopenNoOp | Reopened.

(** [CloseOutcome] of the SDK. *)
Record CloseOutcome := mkCloseOutcome { co_period_id : string; co_already_closed : bool }.

(** The answers of [close_locked] and [reopen_locked]. *)
Definition close_outcome (period_id : string) (r : CloseTxnResult) : result DomainError CloseOutcome :=
  match r with
  | CloseNotFound => Err DomainError.PeriodNotFound
  | AlreadyClosed => Ok (mkCloseOutcome period_id true)
  | NotOpen => Err DomainError.PeriodNotOpen
  | Blocked _ => Err DomainError.PeriodCloseBlocked
  | Flipped already_closed => Ok (mkCloseOutcome period_id already_closed)
  end.

Definition reopen_outcome (r : ReopenTxnResult) : result DomainError unit :=
  match r with
  | ReopenNotFound => Err DomainError.PeriodNotFound
  | ReopenNoOp | Reopened => Ok tt
  end.

(** [IssuedInvoiceManifestV1]'s answer. *)
Record Manifest := mkManifest { mf_invoice_ids : list string; mf_count : Z }.

(** [CloseControlFeeds] with the answers of its feeds and of the revaluation tables. *)
Record ControlFeeds := mkControlFeeds {
  bill_run_enforcement : bool;
  bill_run_finished : option (option bool);
  manifest_enforcement : bool;
  latest_manifest : option (option Manifest);
  fx_revaluation_enforcement : bool;
  effective_mode : option RevaluationMode;
  revaluation_complete : bool;
}.

(** What the gate reads of other parts. *)
Record CloseInputs := mkCloseInputs {
  open_exceptions : list (string * string);
  due_not_done : Z;
  control_feeds : option ControlFeeds;
}.

(** [period_close::Model] without its key and the columns nothing writes. *)
Record CloseRow := mkCloseRow {
  pc_status : string;
  pc_initiated_by : Uuid;
  pc_blocked_reasons : option (list CloseReason);
  pc_recon_watermark : option Z;
  pc_closed_at : option OffsetDateTime;
}.

Section period_close.
Context `{DecimalText} `{!UuidSource} `{!Sha256} `{!DateText} {D S : Type} `{!JournalDb D}.
Context (allocations_of : S -> Uuid -> list AllocationRow) (settlements_of : S -> Uuid -> list SettlementRow).
Abbreviation Ledger := (Ledger (D := D) (S := S)).
Abbreviation PeriodKey := (Uuid * Uuid * string)%type.

Record Books := mkBooks {
  bs_ledger : Ledger;
  bs_verified : VerifiedBalances;
  bs_period_close : gmap PeriodKey CloseRow;
  bs_closed_events : list (PeriodKey * Uuid * OffsetDateTime);
  bs_reopen_audit : list (PeriodKey * Uuid);
}.

(** [PeriodCloseRepo::upsert_status]: the initiator is written with a new row only. *)
Definition upsert_status (t : gmap PeriodKey CloseRow) (k : PeriodKey) (status : string) (initiated_by : Uuid)
    (blocked_reasons : option (list CloseReason)) (recon_watermark : option Z) (closed_at : option OffsetDateTime) : gmap PeriodKey CloseRow :=
  <[k := mkCloseRow status (match t !! k with Some row => pc_initiated_by row | None => initiated_by end)
           blocked_reasons recon_watermark closed_at]> t.

(** [UPDATE fiscal_period SET status = new WHERE key AND status = old], with the rows affected. *)
Definition flip_status (k : PeriodKey) (old new : string) (l : Ledger) : Ledger * Z :=
  let r := lg_reference l in
  let '(period_status, rows_affected) :=
    t_update (rf_period_status r) k (fun status => bool_decide (status = old)) (fun _ => new) in
  (mkLedger (lg_journal l) (lg_dedup l) (lg_caches l)
     (mkReference (rf_posting_locked r) (rf_accounts r) (rf_freezes r) period_status (rf_currency_scale r)) (lg_rest l),
   rows_affected).

(** [posted_invoice_ids]. *)
Definition posted_invoice_ids (l : Ledger) (tenant : Uuid) (period : string) : gset string :=
  list_to_set (er_source_business_id <$>
    List.filter (fun h => bool_decide (er_period_id h = period) && bool_decide (er_source_doc_type h = as_str InvoicePost))
      (tenant_headers (lg_journal l) tenant)).

Definition control_reasons (l : Ledger) (tenant : Uuid) (period : string) (c : ControlFeeds) : list CloseReason :=
  (if bill_run_enforcement c then
     match bill_run_finished c with
     | Some (Some true) => []
     | Some (Some false) => [BillRunNotFinished]
     | Some None => [BillRunNotAsserted]
     | None => [BillRunFeedError]
     end
   else [])
  ++ (if manifest_enforcement c then
        match latest_manifest c with
        | Some (Some manifest) =>
            let posted := posted_invoice_ids l tenant period in
            let missing := Z.of_nat (length (List.filter (fun id => negb (bool_decide (id ∈ posted))) (mf_invoice_ids manifest))) in
            let posted_count := Z.of_nat (size posted) in
            (if 0 <? missing then [MissedPosting missing] else [])
            ++ (if negb (mf_count manifest =? posted_count) then [InvoiceCountMismatch (mf_count manifest) posted_count] else [])
        | Some None => [ManifestUnavailable]
        | None => [ManifestFeedError]
        end
      else [])
  ++ (if fx_revaluation_enforcement c then
        let mode := default (fleet_default (fx_revaluation_enforcement c)) (effective_mode c) in
        let complete := if revalues mode then revaluation_complete c else true in
        if complete then [] else [FxRevaluationNotComplete]
      else []).

Definition close_reasons (inputs : CloseInputs) (l : Ledger) (tenant : Uuid) (period : string) : list CloseReason :=
  (if is_clean (tie_out_on allocations_of settlements_of l tenant) then [] else [TieOutNotClean])
  ++ (if is_empty (open_exceptions inputs) then [] else [OpenExceptions (open_exceptions inputs)])
  ++ (if 0 <? due_not_done inputs then [DueNotDone (due_not_done inputs)] else [])
  ++ match control_feeds inputs with Some c => control_reasons l tenant period c | None => [] end.

Definition close_in_txn (inputs : CloseInputs) (actor tenant legal_entity : Uuid) (period_id : string) (now : OffsetDateTime) (b : Books) :
    result AttemptError (CloseTxnResult * Books) :=
  let k := (tenant, legal_entity, period_id) in
  let l := bs_ledger b in
  match rf_period_status (lg_reference l) !! k with
  | None => Ok (CloseNotFound, b)
  | Some status =>
      if bool_decide (status = PERIOD_STATUS_CLOSED) then Ok (AlreadyClosed, b)
      else if negb (bool_decide (status = PERIOD_STATUS_OPEN)) then Ok (NotOpen, b)
      else
        let reasons := close_reasons inputs l tenant period_id in
        if negb (is_empty reasons) then
          Ok (Blocked reasons,
              mkBooks l (bs_verified b)
                (upsert_status (bs_period_close b) k PERIOD_CLOSE_STATUS_CLOSING actor (Some reasons) None None)
                (bs_closed_events b) (bs_reopen_audit b))
        else
          let '(l, rows_affected) := flip_status k PERIOD_STATUS_OPEN PERIOD_STATUS_CLOSED l in
          let period_close := upsert_status (bs_period_close b) k PERIOD_STATUS_CLOSED actor None None (Some now) in
          '(verified, closed_events) ←
            (if 0 <? rows_affected then
               verified ← ok_or (snapshot_baseline l (bs_verified b) tenant period_id now) infra;
               Ok (verified, bs_closed_events b ++ [(k, actor, now)])
             else Ok (bs_verified b, bs_closed_events b));
          Ok (Flipped (rows_affected =? 0), mkBooks l verified period_close closed_events (bs_reopen_audit b))
  end.

Definition reopen_in_txn (actor tenant legal_entity : Uuid) (period_id : string) (b : Books) : ReopenTxnResult * Books :=
  let k := (tenant, legal_entity, period_id) in
  let l := bs_ledger b in
  match rf_period_status (lg_reference l) !! k with
  | None => (ReopenNotFound, b)
  | Some status =>
      if bool_decide (status = PERIOD_STATUS_OPEN) then (ReopenNoOp, b)
      else
        (Reopened,
         mkBooks (fst (flip_status k PERIOD_STATUS_CLOSED PERIOD_STATUS_OPEN l)) (bs_verified b)
           (upsert_status (bs_period_close b) k PERIOD_CLOSE_STATUS_REOPENED actor None None None)
           (bs_closed_events b) (bs_reopen_audit b ++ [(k, actor)]))
  end.

(** ** A closed period *)

(** A transaction that is not answered with a replay wrote into an open period. *)
Lemma post_needs_open env e ls sides sc cs origin (l : Ledger) o l' : post_in_txn env e ls sides sc cs origin l = Ok (o, l') ->
  (exists id, o = PostReplay id /\ l' = l) \/
  rf_period_status (lg_reference l) !! (ne_tenant_id e, ne_legal_entity_id e, ne_period_id e) = Some PERIOD_STATUS_OPEN.
Proof.
  unfold post_in_txn. intros ([early d] & Hg & Hp)%bind_ok.
  destruct (gate_ok _ _ _ _ _ _ Hg) as [(id & row & -> & -> & _)|(-> & _)].
  - injection Hp as <- <-. left. exists id. by destruct l.
  - right. apply bind_ok in Hp as (u & Hc & _). unfold check_post in Hc. res_inv. unfold pin_open in *.
    match goal with H : match rf_period_status _ !! _ with _ => _ end = Ok _ |- _ => revert H end. cbn [lg_reference with_dedup].
    destruct (rf_period_status _ !! _) as [status|]; [|done]. by case_bool_decide as Hs; [rewrite Hs|].
Qed.

(** The guarded update of a period that has the old status. *)
Lemma flip_status_hit k old new (l : Ledger) : rf_period_status (lg_reference l) !! k = Some old ->
  exists l', flip_status k old new l = (l', 1) /\ lg_journal l' = lg_journal l /\ lg_dedup l' = lg_dedup l /\
    lg_caches l' = lg_caches l /\ rf_period_status (lg_reference l') !! k = Some new.
Proof.
  intros Hk. unfold flip_status. cbn. unfold map_update. rewrite Hk, bool_decide_true by done.
  eexists. split_and!; try done. apply lookup_insert_eq.
Qed.

End period_close.
