(* ===== verification/PostingSamples.v ===== *)
(** * Sample runs of the posting engine

    A tenant with two accounts and two open periods posts an invoice into each; the
    properties of the posting engine, of the tie-out and of the close are applied
    to these states. *)

From S2P Require Import Prelude Decimal Money Exact ExactGrid Table DomainErrors MoneyText Sdk Json Canonical Chain Reconciliation.
From S2P Require Import Posting FxClosing DualApproval Journal ChainVerify ChainRun Projector ProjectorProps Idempotency PostingEngine PostingRun PostingLaws.
From S2P Require Import TieOut TieOutProps TieOutRun TieOutReport TieOutIncremental PeriodClose.
#[local] Open Scope Z_scope.

Section samples.
Import ConcreteDecimal ConcreteText MoneySamples ChainSamples MemoryJournal.

#[local] Instance uuids : UuidSource := sample_uuids.
#[local] Instance dates : DateText := {| date_to_string d := pretty d; date_to_string_inj d1 d2 := inj pretty d1 d2 |}.

Abbreviation Ledger := (PostingEngine.Ledger (D := memory) (S := unit)).

Definition account (class : AccountClass) (side : Side) : AccountRow :=
  mkAccountRow 5%N 9%N (as_str class) "EUR" None (as_str side) false LIFECYCLE_OPEN.

Definition reference : Reference :=
  mkReference ∅ {[101%N := account Ar Debit; 102%N := account Revenue Credit]} ∅
    {[(5%N, 9%N, "202610"%string) := PERIOD_STATUS_OPEN; (5%N, 9%N, "202611"%string) := PERIOD_STATUS_OPEN]}
    (fun _ _ => Ok (Some 2)).

Definition empty : Ledger := mkLedger (mkMemory ∅ ∅ ∅) ∅ no_caches reference tt.

(** An invoice: AR against revenue. *)
Definition invoice_line (id account : N) (class : AccountClass) (side : Side) (cents : Z) (invoice : string) : NewLine :=
  mkNewLine id 7%N None None account class None side (eur cents) (Some invoice) (Some 20000) None
    Resolved None None None None None None None None None None None None.
Definition invoice_entry (id : N) (period invoice : string) : NewEntry :=
  mkNewEntry id 5%N 9%N period "EUR" InvoicePost invoice None None
    (1790000000 * 10 ^ 9) 20000 "API" 11%N 12%N VNull None.
Definition invoice_lines (id : N) (cents : Z) (invoice : string) : list NewLine :=
  [invoice_line (2 * id)%N 101%N Ar Debit cents invoice; invoice_line (2 * id + 1)%N 102%N Revenue Credit cents invoice].

Definition env (seq : Z) : AttemptEnv := mkAttemptEnv (1790000000 * 10 ^ 9) seq (for_tenant 5%N).

Definition after_invoice (l : Ledger) (id : N) (period : string) (cents : Z) (invoice : string) : Ledger :=
  match post_once (env (Z.of_N id)) (invoice_entry id period invoice) (invoice_lines id cents invoice) None fresh l with
  | Ok (_, l') => l'
  | Err _ => l
  end.

Definition first : Ledger := after_invoice empty 1 "202610" 11900 "INV-1".
Definition second : Ledger := after_invoice first 2 "202611" 5000 "INV-2".


(** ** The incremental tie-out after a close *)

Definition no_inputs : CloseInputs := mkCloseInputs [] 0 None.
Definition no_rows {A} (_ : unit) (_ : Uuid) : list A := [].
Definition close (period : string) (l : Ledger) : result AttemptError (CloseTxnResult * Books) :=
  close_in_txn no_rows no_rows no_inputs 11%N 5%N 9%N period (1790000000 * 10 ^ 9) (mkBooks l ∅ ∅ [] []).
Definition closed (period : string) (l : Ledger) : Books :=
  match close period l with Ok (_, b) => b | Err _ => mkBooks l ∅ ∅ [] [] end.

Definition reopened (period : string) (l : Ledger) : ReopenTxnResult * Books := reopen_in_txn 11%N 5%N 9%N period (closed period l).

Definition full_clean (b : Books) : bool := is_clean (tie_out_on no_rows no_rows (bs_ledger b) 5%N).
Definition tick_clean (b : Books) : option bool :=
  match tie_out_for no_rows no_rows (bs_ledger b) (bs_verified b) 5%N false with Ok r => Some (is_clean r) | Err _ => None end.


(** ** Applications *)

Lemma scope_ok : tenant_scoped 5%N (for_tenant 5%N).
Proof. intros u Hu. by apply bool_decide_eq_true in Hu. Qed.

Lemma lines_valid id cents invoice : Z.abs cents < 10 ^ 28 -> Forall line_valid (invoice_lines id cents invoice).
Proof. intros Hc. repeat (apply Forall_cons_2; [split; [by apply money_sample_ok|done]|]). apply Forall_nil_2. Qed.

Lemma no_sidecar : sidecar_ok (None : option (PostSidecar (D := memory) (S := unit))).
Proof. done. Qed.

Lemma invoice_step (l : Ledger) id period cents invoice : Z.abs cents < 10 ^ 28 ->
  is_ok (post_once (env (Z.of_N id)) (invoice_entry id period invoice) (invoice_lines id cents invoice) None fresh l) = true ->
  step tenant_scoped l (after_invoice l id period cents invoice).
Proof.
  intros Hc [[ref l'] Hp]%is_ok_exists. unfold after_invoice. rewrite Hp.
  exact (step_post _ _ _ _ _ _ _ _ _ scope_ok (lines_valid id cents invoice Hc) no_sidecar Hp).
Qed.

Lemma first_reachable : reachable tenant_scoped first.
Proof.
  exists empty. split; [by constructor|]. apply rtc_once, invoice_step; [lia|vm_compute; reflexivity].
Qed.

Lemma second_reachable : reachable tenant_scoped second.
Proof.
  destruct first_reachable as (l0 & Hi & Hs). exists l0. split; [done|]. eapply rtc_r; [exact Hs|].
  apply invoice_step; [lia|vm_compute; reflexivity].
Qed.

Lemma posting_exactly_once_witness : NoDup (header_business <$> j_headers (lg_journal second)).
Proof. exact (proj1 (posting_exactly_once tenant_scoped second second_reachable)). Defined.

(** The first attempt meets contention; the second posts. *)
Definition attempts (n : nat) : PostAttempt (D := memory) (S := unit) :=
  mkPostAttempt (fun l => l) (match n with O => Some FContention | _ => None end) (env 2).

Lemma run_post_exactly_once_witness :
  exists l' alarms, run_post (1790000000 * 10 ^ 9) attempts (invoice_entry 2 "202611" "INV-2") (invoice_lines 2 5000 "INV-2") None fresh first
    = (l', Ok (mkPostingRef 2%N 2 false), alarms) /\
  er_entry_id <$> entries_with (entry_business (invoice_entry 2 "202611" "INV-2")) l' = [2%N].
Proof.
  pose proof (run_post_exactly_once tenant_scoped (1790000000 * 10 ^ 9) attempts (invoice_entry 2 "202611" "INV-2")
    (invoice_lines 2 5000 "INV-2") None fresh first first_reachable (fun _ _ => rtc_refl _ _) (fun _ => scope_ok)
    (lines_valid 2 5000 "INV-2" ltac:(lia)) no_sidecar) as Hrun.
  destruct (run_post _ _ _ _ _ _ _) as [[l' r] alarms] eqn:E. destruct Hrun as (_ & _ & Hok).
  exists l', alarms. assert (Hr : r = Ok (mkPostingRef 2%N 2 false)) by (change r with (snd (fst (l', r, alarms))); rewrite <- E; vm_compute; reflexivity).
  rewrite Hr. split; [reflexivity|exact (Hok _ Hr)].
Defined.

Lemma repeated_post_replays_witness :
  post_once (env 3) (invoice_entry 3 "202610" "INV-1") (invoice_lines 3 11900 "INV-1") None fresh second
    = Ok (mkPostingRef 1%N 0 true, second).
Proof.
  refine (eq_trans (repeated_post_replays tenant_scoped (env 1) (env 3) (invoice_entry 1 "202610" "INV-1") (invoice_entry 3 "202610" "INV-1")
    (invoice_lines 1 11900 "INV-1") (invoice_lines 3 11900 "INV-1") None None fresh fresh empty first second
    (mkPostingRef 1%N 1 false) _ scope_ok (lines_valid 1 11900 "INV-1" ltac:(lia)) no_sidecar eq_refl _ eq_refl _ _ _ _ _ _) _).
  - exists empty. split; [by constructor|apply rtc_refl].
  - vm_compute. reflexivity.
  - apply rtc_once, invoice_step; [lia|vm_compute; reflexivity].
  - reflexivity.
  - discriminate.
  - reflexivity.
  - vm_compute. reflexivity.
  - vm_compute. reflexivity.
  - vm_compute. reflexivity.
Defined.

Lemma trial_balance_zero_witness : trial_balance (lg_caches second) 5%N "EUR" = 0.
Proof. exact (proj1 (trial_balance_zero tenant_scoped second 5%N "EUR" EUR second_reachable)). Defined.

Lemma guarded_balances_witness : exists r b, account_balance (lg_caches second) !! (5%N, 101%N, "EUR"%string) = Some r /\
  decode_balance r = Ok b /\ 0 <= posted_units b.
Proof.
  destruct (account_balance (lg_caches second) !! (5%N, 101%N, "EUR"%string)) as [r|] eqn:Hr; [|vm_compute in Hr; discriminate Hr].
  exists r. destruct (proj1 (guarded_balances tenant_scoped second second_reachable) _ r Ar Hr) as (b & Hb & Hpos).
  - assert (ac_account_class ∘ cr_own <$> Some r = Some "AR"%string) as Hcls by (rewrite <- Hr; vm_compute; reflexivity). injection Hcls as ->. reflexivity.
  - reflexivity.
  - exists b. split; [reflexivity|]. split; [exact Hb|exact Hpos].
Defined.

Lemma ids_distinct : NoDup (lr_line_id <$> tenant_lines (lg_journal second) 5%N) /\ NoDup (er_entry_id <$> tenant_headers (lg_journal second) 5%N).
Proof. split; apply (bool_decide_unpack (NoDup _)); vm_compute; exact I. Qed.

Lemma few_lines : vec_ok (tenant_lines (lg_journal second) 5%N).
Proof. vm_compute. reflexivity. Qed.

Lemma tie_out_clean_witness : account_balance_variances (tie_out_on no_rows no_rows second 5%N) = [].
Proof.
  exact (proj1 (tie_out_clean no_rows no_rows second 5%N second_reachable (proj1 ids_distinct) (proj2 ids_distinct) few_lines)).
Defined.

(** The AR balance of 169 EUR rewritten to 16900. *)
Lemma tie_out_detects_witness :
  is_clean (tie_out_on no_rows no_rows (with_caches (tampered (5%N, 101%N, "EUR"%string) "16900" (lg_caches second)) second) 5%N) = false.
Proof.
  destruct (account_balance (lg_caches second) !! (5%N, 101%N, "EUR"%string)) as [r|] eqn:Hr; [|vm_compute in Hr; discriminate Hr].
  refine (proj2 (tie_out_detects no_rows no_rows second 5%N 101%N "EUR" r "16900" second_reachable (proj1 ids_distinct) few_lines Hr _)).
  assert (cr_balance <$> Some r = Some "169"%string) as Hb by (rewrite <- Hr; vm_compute; reflexivity). injection Hb as ->. discriminate.
Defined.

(** The close of the first period, run once. *)
Definition flips : option bool :=
  match close "202610" second with Ok (Flipped already, _) => Some already | _ => None end.

Lemma close_flips : flips = Some false.
Proof. vm_compute. reflexivity. Qed.


(** The AR line first or last: one digest. *)
Lemma payload_sample_ok ls : ls ≡ₚ invoice_lines 1 11900 "INV-1" -> payload_ok (invoice_entry 1 "202610" "INV-1") ls.
Proof.
  intros Hp. constructor; [apply small_fields; vm_compute; reflexivity|..]; [intros l Hl; rewrite Hp in Hl..|by rewrite Hp].
  - apply elem_of_cons in Hl as [->|[->|[]%not_elem_of_nil]%elem_of_cons];
      (split; [|apply Forall_singleton]; apply small_fields; vm_compute; reflexivity).
  - apply elem_of_cons in Hl as [->|[->|[]%not_elem_of_nil]%elem_of_cons]; (split_and!; [reflexivity..|by intros ? [=]]).
  - apply elem_of_cons in Hl as [->|[->|[]%not_elem_of_nil]%elem_of_cons]; (split; [by apply money_sample_ok|by intros ? [=]]).
Qed.

Lemma payload_hash_binds_witness :
  payload_hash (invoice_entry 1 "202610" "INV-1") (invoice_lines 1 11900 "INV-1")
  = payload_hash (invoice_entry 1 "202610" "INV-1") (reverse (invoice_lines 1 11900 "INV-1")).
Proof.
  refine (proj1 (payload_hash_binds _ _ _ _ (payload_sample_ok _ _) (payload_sample_ok _ _)) eq_refl _).
  - reflexivity.
  - apply reverse_Permutation.
  - apply fmap_Permutation. symmetry. apply reverse_Permutation.
Defined.

End samples.
