(* ===== verification/ApprovalModel.v ===== *)
(** * Approval units: [libs/approval/src/{model,rules,hash,store,subject}.rs]

    The shared approval library of the billing gears: units, votes and the quorum
    policy; the pure rules of quorum and separation of duties; the fingerprint of
    the content under review; and the two interfaces a gear implements, its
    persistence ([Store]) and its business operations ([ApprovalSubject]).

    An operation of the gear runs in the caller's transaction: it takes the state
    [W] of the database and returns a value with the new state, or an error, on
    which the caller rolls back ([TX]).  JSON text and the text of a date are the
    class [Json]; the digest is [Sha256]. *)

From S2P Require Import Prelude Sdk Json.

Inductive UnitState := Pending | Approved | Rejected | Withdrawn.
Inductive Verdict := Approve | Reject.

#[global] Instance unit_state_eq_dec : EqDecision UnitState.
Proof. solve_decision. Defined.
#[global] Instance verdict_eq_dec : EqDecision Verdict.
Proof. solve_decision. Defined.

Definition unit_state_as_str (s : UnitState) : string :=
  match s with
  | Pending => "pending" | Approved => "approved"
  | Rejected => "rejected" | Withdrawn => "withdrawn"
  end.

Definition unit_state_parse (s : string) : option UnitState :=
  if bool_decide (s = "pending") then Some Pending
  else if bool_decide (s = "approved") then Some Approved
  else if bool_decide (s = "rejected") then Some Rejected
  else if bool_decide (s = "withdrawn") then Some Withdrawn
  else None.

Definition verdict_as_str (v : Verdict) : string :=
  match v with Approve => "approve" | Reject => "reject" end.

Definition verdict_parse (s : string) : option Verdict :=
  if bool_decide (s = "approve") then Some Approve
  else if bool_decide (s = "reject") then Some Reject
  else None.

Definition u32_max : Z := 2 ^ 32 - 1.

Record Policy := mkPolicy {
  default_quorum : Z;
  overrides : gmap string Z;
}.

Definition quorum_for (p : Policy) (kind : string) : Z :=
  default (default_quorum p) (overrides p !! kind).

Record ItemRef := mkItemRef {
  item_type : string;
  item_id : Uuid;
  created_by : Uuid;
  before : option Value;
  after : Value;
}.

Record Unit := mkUnit {
  u_id : Uuid;
  u_tenant_id : Uuid;
  u_kind : string;
  u_ref_type : string;
  u_ref_id : Uuid;
  u_state : UnitState;
  u_common_effective_date : option NaiveDate;
  u_quorum_required : Z;
  u_generation : Z;
  u_submitted_by : Uuid;
  u_submitted_at : OffsetDateTime;
  u_submit_note : option string;
  u_decided_at : option OffsetDateTime;
  u_decided_note : option string;
  u_snapshot : Value;
  u_snapshot_hash : string;
  u_version : Z;
}.

Record Decision := mkDecision {
  d_unit_id : Uuid;
  d_actor : Uuid;
  d_generation : Z;
  d_verdict : Verdict;
  d_note : option string;
  d_at : OffsetDateTime;
  d_stale : bool;
}.

Definition NOTE_MAX_CHARS : Z := 2000.

Module ApprovalError.
Inductive approval_error :=
| SodViolation
| AlreadyDecided
| DuplicateVote
| Contended
| Locked (item_type : string) (item_id : Uuid)
| NotSubmitter
| NoteRequired
| NoteTooLong
| UnitNotFound (unit_id : Uuid)
| Empty
| InvalidSubmit (code field detail : string)
| ApplyRefused (code detail : string)
| GenerationMismatch (seen current : Z)
| Db (error : string)
| Store (context : string).
End ApprovalError.
Abbreviation ApprovalError := ApprovalError.approval_error.

Definition code (e : ApprovalError) : string :=
  match e with
  | ApprovalError.SodViolation => "SOD_VIOLATION"
  | ApprovalError.AlreadyDecided => "UNIT_ALREADY_DECIDED"
  | ApprovalError.DuplicateVote => "DUPLICATE_VOTE"
  | ApprovalError.Contended => "UNIT_CONTENDED"
  | ApprovalError.Locked _ _ => "ROW_LOCKED_PENDING"
  | ApprovalError.NotSubmitter => "NOT_SUBMITTER"
  | ApprovalError.NoteRequired => "NOTE_REQUIRED"
  | ApprovalError.NoteTooLong => "NOTE_TOO_LONG"
  | ApprovalError.UnitNotFound _ => "UNIT_NOT_FOUND"
  | ApprovalError.Empty | ApprovalError.InvalidSubmit _ _ _ => "VALIDATION"
  | ApprovalError.ApplyRefused _ _ => "APPLY_REFUSED"
  | ApprovalError.GenerationMismatch _ _ => "GENERATION_MISMATCH"
  | ApprovalError.Db _ => "DB"
  | ApprovalError.Store _ => "STORE"
  end.

(** ** The rules *)

Inductive ApproveStep := NeedMore (have need : Z) | Apply.

Definition already_voted (u : Unit) (decisions : list Decision) (actor : Uuid) : bool :=
  existsb (fun d => bool_decide (d_actor d = actor) && (d_generation d =? u_generation u)) decisions.

(** The votes that count: approvals of the current generation that are not stale. *)
Definition counts (generation : Z) (d : Decision) : bool :=
  bool_decide (d_verdict d = Approve) && negb (d_stale d) && (d_generation d =? generation).

Definition counted_approvals (u : Unit) (decisions : list Decision) : Z :=
  let counted := Z.of_nat (length (List.filter (counts (u_generation u)) decisions)) in
  if counted <=? u32_max then counted else u32_max.

Module ApproveRefusal.
Inductive approve_refusal := AlreadyDecided | SodViolation | DuplicateVote.
End ApproveRefusal.
Abbreviation ApproveRefusal := ApproveRefusal.approve_refusal.

Definition refusal_error (r : ApproveRefusal) : ApprovalError :=
  match r with
  | ApproveRefusal.AlreadyDecided => ApprovalError.AlreadyDecided
  | ApproveRefusal.SodViolation => ApprovalError.SodViolation
  | ApproveRefusal.DuplicateVote => ApprovalError.DuplicateVote
  end.

Record ApproveEligibility := mkEligibility {
  approvals : Z;
  refusal : option ApproveRefusal;
}.

Definition approve_eligibility (u : Unit) (authors : list Uuid) (decisions : list Decision)
    (actor : Uuid) : ApproveEligibility :=
  let refusal :=
    if bool_decide (u_state u <> Pending) then Some ApproveRefusal.AlreadyDecided
    else if bool_decide (actor = u_submitted_by u)
            || existsb (fun author => bool_decide (author = actor)) authors
    then Some ApproveRefusal.SodViolation
    else if already_voted u decisions actor then Some ApproveRefusal.DuplicateVote
    else None in
  mkEligibility (counted_approvals u decisions) refusal.

(** [u32::saturating_add]. *)
Definition saturating_u32 (x : Z) : Z := Z.min u32_max x.

Definition evaluate_approve (u : Unit) (decisions : list Decision) (actor : Uuid)
    (items : list ItemRef) : result ApprovalError ApproveStep :=
  let judged := approve_eligibility u (created_by <$> items) decisions actor in
  match refusal judged with
  | Some refusal => Err (refusal_error refusal)
  | None =>
      let have := saturating_u32 (approvals judged + 1) in
      if u_quorum_required u <=? have then Ok Apply
      else Ok (NeedMore have (u_quorum_required u))
  end.

(** ** The fingerprint *)

Fixpoint canonical (v : Value) : Value :=
  match v with
  | VObject m => VObject (sort_by member_cmp (map (fun kv => (fst kv, canonical (snd kv))) m))
  | VArray a => VArray (map canonical a)
  | other => other
  end.

Definition item_cmp (a b : ItemRef) : comparison :=
  then_with (String.compare (item_type a) (item_type b)) (N.compare (item_id a) (item_id b)).

#[global] Instance N_total_cmp : TotalCmp N.compare.
Proof.
  split; [intros; apply N.compare_antisym|]. unfold cmp_le.
  intros a b c. rewrite !N.compare_gt_iff. lia.
Qed.

#[global] Instance item_total_cmp : TotalCmp item_cmp.
Proof.
  exact (total_cmp_then _ _ (TotalCmp0 := total_cmp_on item_type String.compare)
                            (TotalCmp1 := total_cmp_on item_id N.compare)).
Qed.

Definition hex_encode (bytes : list Ascii.ascii) : string :=
  String.string_of_list_ascii (flat_map hex_byte bytes).

Section fingerprint.
Context `{!Json} `{!Sha256} `{!UuidSource}.

Definition item_json (i : ItemRef) : Value :=
  VObject [("type", VString (item_type i)); ("id", VString (uuid_to_string (item_id i)));
           ("after", canonical (after i))].

Definition snapshot_hash (items : list ItemRef) (common_effective_date : option NaiveDate) : string :=
  let sorted := sort_by item_cmp items in
  let canon := VObject [
    ("commonEffectiveDate",
       match common_effective_date with
       | Some d => VString (date_to_string d) | None => VNull
       end);
    ("items", VArray (item_json <$> sorted))] in
  hex_encode (sha256 (to_vec (canonical canon))).

(** The order of the items does not matter to the fingerprint. *)
Lemma snapshot_hash_perm items items' date : items' ≡ₚ items ->
  NoDup ((fun i => (item_type i, item_id i)) <$> items) ->
  snapshot_hash items' date = snapshot_hash items date.
Proof.
  intros Hp Hnd. unfold snapshot_hash. rewrite (sort_by_unique item_cmp items' items Hp); [done|].
  intros a b Ha Hb Hab. rewrite Hp in Ha, Hb. apply (NoDup_fmap_inj_elem Hnd a b Ha Hb).
  unfold item_cmp in Hab. destruct (String.compare _ _) eqn:Ht; try done. cbn in Hab.
  apply String.compare_eq_iff in Ht. apply N.compare_eq in Hab. by rewrite Ht, Hab.
Qed.
End fingerprint.

(** ** The gear's side *)

(** A computation in the caller's transaction over the database state [W]. *)
Definition TX (W A : Type) : Type := W -> result ApprovalError (A * W).

#[global] Instance tx_ret {W} : MRet (TX W) := fun A a w => Ok (a, w).
#[global] Instance tx_bind {W} : MBind (TX W) := fun A B f m w =>
  match m w with
  | Ok (a, w') => f a w'
  | Err e => Err e
  end.

(** A pure check inside the transaction. *)
Definition lift {W A} (m : result ApprovalError A) : TX W A := fun w =>
  match m with
  | Ok a => Ok (a, w)
  | Err e => Err e
  end.

Class Store (W : Type) := {
  insert_unit : Unit -> list ItemRef -> TX W unit;
  unit_of : Uuid -> TX W (option Unit);
  bump_version : Uuid -> Z -> TX W bool;
  items_of : Uuid -> TX W (list ItemRef);
  decisions_of : Uuid -> TX W (list Decision);
  insert_decision : Decision -> TX W unit;
  refresh : Uuid -> list ItemRef -> Value -> string -> Z -> TX W unit;
  set_state : Uuid -> UnitState -> option OffsetDateTime -> option string -> TX W unit;
}.

Record ApprovalSubject (W : Type) := mkSubject {
  s_kind : string;
  s_ref_type : string;
  collect : list Uuid -> TX W (list ItemRef);
  validate_submit : list ItemRef -> TX W unit;
  lock : Uuid -> list ItemRef -> TX W unit;
  snapshot : list ItemRef -> option NaiveDate -> Value;
  apply : Unit -> list ItemRef -> TX W unit;
  unlock : Unit -> list ItemRef -> bool -> TX W unit;
}.
Arguments s_kind {W}.
Arguments s_ref_type {W}.
Arguments collect {W}.
Arguments validate_submit {W}.
Arguments lock {W}.
Arguments snapshot {W}.
Arguments apply {W}.
Arguments unlock {W}.

(** ** What the engine relies on

    The persistence contract, on the rows a unit id owns: its unit, its items and
    its votes.  The primary keys of the tables ([ddl.rs]) are (unit), (unit, item
    type, item id) and (unit, actor, generation); reads may list the rows in any
    order.  An operation that returns had the stated effect, and it does return
    when the keys allow it. *)

Record Dossier := mkDossier {
  dos_unit : Unit;
  dos_items : list ItemRef;
  dos_decisions : list Decision;
}.

Definition item_key (i : ItemRef) : string * Uuid := (item_type i, item_id i).
Definition vote_key (d : Decision) : Uuid * Z := (d_actor d, d_generation d).

Definition with_version (u : Unit) (version : Z) : Unit :=
  mkUnit (u_id u) (u_tenant_id u) (u_kind u) (u_ref_type u) (u_ref_id u) (u_state u)
    (u_common_effective_date u) (u_quorum_required u) (u_generation u) (u_submitted_by u)
    (u_submitted_at u) (u_submit_note u) (u_decided_at u) (u_decided_note u) (u_snapshot u)
    (u_snapshot_hash u) version.

Definition with_content (u : Unit) (generation : Z) (snapshot : Value) (hash : string) : Unit :=
  mkUnit (u_id u) (u_tenant_id u) (u_kind u) (u_ref_type u) (u_ref_id u) (u_state u)
    (u_common_effective_date u) (u_quorum_required u) generation (u_submitted_by u)
    (u_submitted_at u) (u_submit_note u) (u_decided_at u) (u_decided_note u) snapshot
    hash (u_version u).

Definition with_state (u : Unit) (state : UnitState) (decided_at : option OffsetDateTime)
    (note : option string) : Unit :=
  mkUnit (u_id u) (u_tenant_id u) (u_kind u) (u_ref_type u) (u_ref_id u) state
    (u_common_effective_date u) (u_quorum_required u) (u_generation u) (u_submitted_by u)
    (u_submitted_at u) (u_submit_note u) decided_at note (u_snapshot u)
    (u_snapshot_hash u) (u_version u).

(** Votes of a generation before [generation] become stale. *)
Definition mark_stale (generation : Z) (d : Decision) : Decision :=
  mkDecision (d_unit_id d) (d_actor d) (d_generation d) (d_verdict d) (d_note d) (d_at d)
    (d_stale d || (d_generation d <? generation)).

(** [after] is [before] with [d] at [id]. *)
Definition writes {D} (before after : Uuid -> option D) (id : Uuid) (d : D) : Prop :=
  forall k, after k = if decide (k = id) then Some d else before k.

Class StoreLaws (W : Type) `{!Store W} := {
  dossier : W -> Uuid -> option Dossier;

  unit_of_law w id : unit_of id w = Ok (dos_unit <$> dossier w id, w);
  items_of_law w id d : dossier w id = Some d -> items_of id w = Ok (dos_items d, w);
  decisions_of_law w id d : dossier w id = Some d -> decisions_of id w = Ok (dos_decisions d, w);

  bump_hit w id d : dossier w id = Some d ->
    exists w', bump_version id (u_version (dos_unit d)) w = Ok (true, w') /\
      writes (dossier w) (dossier w') id
        (mkDossier (with_version (dos_unit d) (u_version (dos_unit d) + 1))
                   (dos_items d) (dos_decisions d));
  bump_miss w id v d : dossier w id = Some d -> u_version (dos_unit d) <> v ->
    bump_version id v w = Ok (false, w);

  insert_unit_ok w u items x w' : insert_unit u items w = Ok (x, w') ->
    dossier w (u_id u) = None /\ NoDup (item_key <$> items) /\
    exists items', items' ≡ₚ items /\ writes (dossier w) (dossier w') (u_id u) (mkDossier u items' []);
  insert_unit_progress w u items : dossier w (u_id u) = None -> NoDup (item_key <$> items) ->
    is_ok (insert_unit u items w) = true;

  insert_decision_ok w v x w' : insert_decision v w = Ok (x, w') ->
    exists d, dossier w (d_unit_id v) = Some d /\ (vote_key v ∉ (vote_key <$> dos_decisions d)) /\
    exists votes, votes ≡ₚ v :: dos_decisions d /\
      writes (dossier w) (dossier w') (d_unit_id v) (mkDossier (dos_unit d) (dos_items d) votes);
  insert_decision_progress w v d : dossier w (d_unit_id v) = Some d ->
    vote_key v ∉ (vote_key <$> dos_decisions d) -> is_ok (insert_decision v w) = true;

  refresh_ok w id items snap hash generation x w' :
    refresh id items snap hash generation w = Ok (x, w') ->
    exists d, dossier w id = Some d /\ NoDup (item_key <$> items) /\
    exists items', items' ≡ₚ items /\
      writes (dossier w) (dossier w') id
        (mkDossier (with_content (dos_unit d) generation snap hash) items'
                   (mark_stale generation <$> dos_decisions d));
  refresh_progress w id items snap hash generation d : dossier w id = Some d ->
    NoDup (item_key <$> items) -> is_ok (refresh id items snap hash generation w) = true;

  set_state_law w id state decided_at note d : dossier w id = Some d ->
    exists w', set_state id state decided_at note w = Ok (tt, w') /\
      writes (dossier w) (dossier w') id
        (mkDossier (with_state (dos_unit d) state decided_at note) (dos_items d) (dos_decisions d));
}.

(** A gear's business operations leave the approval tables alone. *)
Definition quiet {W} `{!Store W} `{!StoreLaws W} {A} (m : TX W A) : Prop :=
  forall w a w', m w = Ok (a, w') -> forall k, dossier w' k = dossier w k.

Class SubjectLaws {W} `{!Store W} `{!StoreLaws W} (s : ApprovalSubject W) : Prop := {
  collect_quiet ids : quiet (collect s ids);
  validate_quiet items : quiet (validate_submit s items);
  lock_quiet id items : quiet (lock s id items);
  apply_quiet u items : quiet (apply s u items);
  unlock_quiet u items approved : quiet (unlock s u items approved);
}.

(** ** The tables as finite maps *)

Definition Tables (B : Type) : Type := gmap Uuid Dossier * B.

Section memory.
Context {B : Type}.

Definition m_insert_unit (u : Unit) (items : list ItemRef) : TX (Tables B) unit := fun '(t, b) =>
  if bool_decide (t !! u_id u = None) && bool_decide (NoDup (item_key <$> items))
  then Ok (tt, (<[u_id u := mkDossier u items []]> t, b))
  else Err (ApprovalError.Db "unique violation").

(** Rewrite the rows of one unit. *)
Definition m_rewrite (id : Uuid) (f : Dossier -> result ApprovalError Dossier) : TX (Tables B) unit :=
  fun '(t, b) =>
  match t !! id with
  | None => Err (ApprovalError.UnitNotFound id)
  | Some d => d' ← f d; Ok (tt, (<[id := d']> t, b))
  end.

Definition m_bump (id : Uuid) (expected : Z) : TX (Tables B) bool := fun '(t, b) =>
  match t !! id with
  | Some d =>
      if u_version (dos_unit d) =? expected
      then Ok (true, (<[id := mkDossier (with_version (dos_unit d) (u_version (dos_unit d) + 1))
                               (dos_items d) (dos_decisions d)]> t, b))
      else Ok (false, (t, b))
  | None => Ok (false, (t, b))
  end.

#[global] Instance memory_store : Store (Tables B) := {|
  insert_unit := m_insert_unit;
  unit_of id w := Ok (dos_unit <$> fst w !! id, w);
  bump_version := m_bump;
  items_of id w := Ok (from_option dos_items [] (fst w !! id), w);
  decisions_of id w := Ok (from_option dos_decisions [] (fst w !! id), w);
  insert_decision v := m_rewrite (d_unit_id v) (fun d =>
    if bool_decide (vote_key v ∈ (vote_key <$> dos_decisions d))
    then Err ApprovalError.DuplicateVote
    else Ok (mkDossier (dos_unit d) (dos_items d) (v :: dos_decisions d)));
  refresh id items snap hash generation := m_rewrite id (fun d =>
    if bool_decide (NoDup (item_key <$> items))
    then Ok (mkDossier (with_content (dos_unit d) generation snap hash) items
               (mark_stale generation <$> dos_decisions d))
    else Err (ApprovalError.Db "unique violation"));
  set_state id state decided_at note := m_rewrite id (fun d =>
    Ok (mkDossier (with_state (dos_unit d) state decided_at note) (dos_items d) (dos_decisions d)));
|}.

Lemma writes_insert (t : gmap Uuid Dossier) id d : writes (fun k => t !! k) (fun k => <[id := d]> t !! k) id d.
Proof. intros k. case_decide; [subst; by rewrite lookup_insert_eq|by rewrite lookup_insert_ne]. Qed.

Lemma m_rewrite_ok id f (t : gmap Uuid Dossier) (b : B) x w' : m_rewrite id f (t, b) = Ok (x, w') ->
  exists d d', t !! id = Some d /\ f d = Ok d' /\ writes (fun k => t !! k) (fun k => fst w' !! k) id d'.
Proof.
  unfold m_rewrite. destruct (t !! id) as [d|] eqn:E; [|done]. intros (d' & Hf & [= <- <-])%bind_ok.
  exists d, d'. do 2 (split; [done|]). apply writes_insert.
Qed.

#[global] Instance memory_laws : StoreLaws (Tables B).
Proof.
  refine {| dossier w id := fst w !! id |}; cbn.
  - done.
  - by intros w id d ->.
  - by intros w id d ->.
  - intros [t b] id d Hd. unfold m_bump; cbn in *. rewrite Hd, Z.eqb_refl.
    eexists. split; [done|]. apply writes_insert.
  - intros [t b] id v d Hd Hv. unfold m_bump; cbn in *. rewrite Hd. by apply Z.eqb_neq in Hv as ->.
  - intros [t b] u items x w'. unfold m_insert_unit. destruct (_ && _) eqn:E; [|done].
    bool_to_prop. intros [= <- <-]. do 2 (split; [done|]). exists items. split; [done|].
    apply writes_insert.
  - intros [t b] u items Hn Hd. unfold m_insert_unit; cbn in *.
    rewrite bool_decide_true by done. by rewrite bool_decide_true.
  - intros [t b] v x w' (d & d' & Hd & Hf & Hw)%m_rewrite_ok. exists d. split; [done|].
    case_bool_decide; [done|]. injection Hf as <-. split; [done|]. by eexists.
  - intros [t b] v d Hd Hv. unfold m_rewrite; cbn in *. by rewrite Hd, bool_decide_false.
  - intros [t b] id items snap hash g x w' (d & d' & Hd & Hf & Hw)%m_rewrite_ok. exists d.
    split; [done|]. case_bool_decide; [|done]. injection Hf as <-. split; [done|]. by exists items.
  - intros [t b] id items snap hash g d Hd Hn. unfold m_rewrite; cbn in *. by rewrite Hd, bool_decide_true.
  - intros [t b] id state da note d Hd. unfold m_rewrite; cbn in *. rewrite Hd. cbn.
    eexists. split; [done|]. apply writes_insert.
Defined.
End memory.
