(* ===== verification/ApprovalEngine.v ===== *)
(** * The approval engine: [libs/approval/src/engine.rs]

    Submit, approve, reject and withdraw, each in the caller's transaction, over any
    [Store] and [ApprovalSubject].  The file shows what an accepted vote does; that,
    along any sequence of committed transactions, a unit is approved only by the
    quorum of distinct reviewers who neither submitted nor authored it, on the
    content it stores; that a decided unit never changes; and that the version of a
    unit identifies its content, so that a compare-and-swap on it succeeds only when
    nothing happened since the read. *)

From S2P Require Import Prelude Sdk Json ApprovalModel.

(** ** Notes *)

(** [str::chars().count()]: the bytes of UTF-8 text that do not continue a character. *)
Definition continues (c : Ascii.ascii) : bool := (128 <=? byte_code c) && (byte_code c <? 192).
Definition chars_count (s : string) : Z :=
  Z.of_nat (length (List.filter (fun c => negb (continues c)) (bytes s))).

Definition check_note_length (note : option string) : result ApprovalError unit :=
  if from_option (fun n => NOTE_MAX_CHARS <? chars_count n) false note
  then Err ApprovalError.NoteTooLong else Ok tt.

Definition check_generation (u : Unit) (seen : Z) : result ApprovalError unit :=
  if u_generation u =? seen then Ok tt
  else Err (ApprovalError.GenerationMismatch seen (u_generation u)).

(** ** The engine *)

Record SubmitRequest := mkSubmitRequest {
  req_tenant_id : Uuid;
  req_ref_id : Uuid;
  req_item_ids : list Uuid;
  req_actor : Uuid;
  req_policy : Policy;
  req_common_effective_date : option NaiveDate;
  req_note : option string;
  req_now : OffsetDateTime;
}.

Record Submitted := mkSubmitted { sub_unit : Unit; sub_applied : bool }.

Module ApproveOutcome.
Inductive approve_outcome :=
| Pending (have need : Z)
| Applied
| Refreshed (generation : Z).
End ApproveOutcome.
Abbreviation ApproveOutcome := ApproveOutcome.approve_outcome.

Module RejectOutcome.
Inductive reject_outcome :=
| Rejected
| Refreshed (generation : Z).
End RejectOutcome.
Abbreviation RejectOutcome := RejectOutcome.reject_outcome.

Section engine.
Context {W : Type} `{!Store W} `{!Json} `{!Sha256} `{!UuidSource}.

(** [new_v4] is the identifier [Uuid::new_v4()] draws. *)
Definition submit (subject : ApprovalSubject W) (new_v4 : Uuid) (req : SubmitRequest) :
    TX W Submitted :=
  if bool_decide (req_item_ids req = []) then lift (Err ApprovalError.Empty)
  else
    items ← collect subject (req_item_ids req);
    _ ← validate_submit subject items;
    let quorum := quorum_for (req_policy req) (s_kind subject) in
    let u := mkUnit new_v4 (req_tenant_id req) (s_kind subject) (s_ref_type subject)
      (req_ref_id req) Pending (req_common_effective_date req) quorum 1 (req_actor req)
      (req_now req) (req_note req) None None
      (snapshot subject items (req_common_effective_date req))
      (snapshot_hash items (req_common_effective_date req)) 1 in
    _ ← insert_unit u items;
    _ ← lock subject (u_id u) items;
    if quorum =? 0 then
      _ ← apply subject u items;
      _ ← unlock subject u items true;
      _ ← set_state (u_id u) Approved (Some (req_now req)) None;
      mret (mkSubmitted (with_state u Approved (Some (req_now req)) None) true)
    else mret (mkSubmitted u false).

(** [unit.version + 1] stays within [i64]: the column has just taken that value. *)
Definition load_pending (unit_id : Uuid) : TX W Unit :=
  found ← unit_of unit_id;
  u ← lift (ok_or found (ApprovalError.UnitNotFound unit_id));
  if bool_decide (u_state u <> Pending) then lift (Err ApprovalError.AlreadyDecided)
  else
    bumped ← bump_version unit_id (u_version u);
    if negb bumped then lift (Err ApprovalError.Contended)
    else mret (with_version u (u_version u + 1)).

Definition refresh_if_stale (subject : ApprovalSubject W) (u : Unit) (items : list ItemRef) :
    TX W (option Z) :=
  fresh_items ← collect subject (item_id <$> items);
  let fresh_hash := snapshot_hash fresh_items (u_common_effective_date u) in
  if bool_decide (fresh_hash = u_snapshot_hash u) then mret None
  else
    let generation := saturating_i32 (u_generation u + 1) in
    _ ← refresh (u_id u) fresh_items (snapshot subject fresh_items (u_common_effective_date u))
          fresh_hash generation;
    mret (Some generation).

Definition approve (subject : ApprovalSubject W) (unit_id actor : Uuid) (seen_generation : Z)
    (note : option string) (now : OffsetDateTime) : TX W ApproveOutcome :=
  _ ← lift (check_note_length note);
  u ← load_pending unit_id;
  _ ← lift (check_generation u seen_generation);
  items ← items_of unit_id;
  decisions ← decisions_of unit_id;
  step ← lift (evaluate_approve u decisions actor items);
  refreshed ← refresh_if_stale subject u items;
  match refreshed with
  | Some generation => mret (ApproveOutcome.Refreshed generation)
  | None =>
      _ ← insert_decision (mkDecision unit_id actor (u_generation u) Approve note now false);
      match step with
      | NeedMore have need => mret (ApproveOutcome.Pending have need)
      | Apply =>
          _ ← apply subject u items;
          _ ← unlock subject u items true;
          _ ← set_state unit_id Approved (Some now) None;
          mret ApproveOutcome.Applied
      end
  end.

Definition reject (subject : ApprovalSubject W) (unit_id actor : Uuid) (seen_generation : Z)
    (note : string) (now : OffsetDateTime) : TX W RejectOutcome :=
  if trim_is_empty note then lift (Err ApprovalError.NoteRequired)
  else
    _ ← lift (check_note_length (Some note));
    u ← load_pending unit_id;
    _ ← lift (check_generation u seen_generation);
    items ← items_of unit_id;
    refreshed ← refresh_if_stale subject u items;
    match refreshed with
    | Some generation => mret (RejectOutcome.Refreshed generation)
    | None =>
        decisions ← decisions_of unit_id;
        if already_voted u decisions actor then lift (Err ApprovalError.DuplicateVote)
        else
          _ ← insert_decision (mkDecision unit_id actor (u_generation u) Reject (Some note) now false);
          _ ← unlock subject u items false;
          _ ← set_state unit_id Rejected (Some now) (Some note);
          mret RejectOutcome.Rejected
    end.

Definition withdraw (subject : ApprovalSubject W) (unit_id actor : Uuid) (now : OffsetDateTime) :
    TX W unit :=
  u ← load_pending unit_id;
  if bool_decide (u_submitted_by u <> actor) then lift (Err ApprovalError.NotSubmitter)
  else
    items ← items_of unit_id;
    _ ← unlock subject u items false;
    set_state unit_id Withdrawn (Some now) None.
End engine.

(** ** What a committed transaction does to a unit

    [created] and [evolves] say it on the rows of one unit, without the store. *)

Lemma tx_bind_ok {W A B} (m : TX W A) (f : A -> TX W B) w b w'' :
  (m ≫= f) w = Ok (b, w'') <-> exists a w', m w = Ok (a, w') /\ f a w' = Ok (b, w'').
Proof. unfold mbind, tx_bind. destruct (m w) as [[a w']|e]; naive_solver. Qed.

Lemma lift_ok {W A} (m : result ApprovalError A) (w : W) a w' :
  lift m w = Ok (a, w') <-> m = Ok a /\ w' = w.
Proof. unfold lift. destruct m; naive_solver. Qed.

Ltac tx_inv :=
  repeat match goal with
  | H : (_ ≫= _) _ = Ok (_, _) |- _ =>
      let a := fresh "r" in let v := fresh "w" in let E := fresh "E" in
      apply tx_bind_ok in H as (a & v & E & H)
  | H : lift _ _ = Ok (_, _) |- _ => apply lift_ok in H as [H ->]
  | H : mret _ _ = Ok (_, _) |- _ => injection H as <- <-
  | H : Err _ = Ok _ |- _ => discriminate H
  end.

Definition bumped (u : Unit) : Unit := with_version u (u_version u + 1).

Section spec.
Context `{!Json} `{!Sha256} `{!UuidSource}.

(** The items' content has the unit's fingerprint. *)
Definition fingerprinted (u : Unit) (items : list ItemRef) : Prop :=
  NoDup (item_key <$> items) /\ snapshot_hash items (u_common_effective_date u) = u_snapshot_hash u.

Inductive created (id : Uuid) : Dossier -> Prop :=
| created_unit u items :
    u_id u = id -> u_generation u = 1 -> u_version u = 1 -> fingerprinted u items ->
    u_state u = Pending \/ u_state u = Approved /\ u_quorum_required u = 0 ->
    created id (mkDossier u items []).

Inductive evolves (d : Dossier) : Dossier -> Prop :=
| evolves_refresh generation snap hash items :
    generation = saturating_i32 (u_generation (dos_unit d) + 1) ->
    fingerprinted (with_content (bumped (dos_unit d)) generation snap hash) items ->
    evolves d (mkDossier (with_content (bumped (dos_unit d)) generation snap hash) items
                 (mark_stale generation <$> dos_decisions d))
| evolves_vote actor note now votes :
    evaluate_approve (dos_unit d) (dos_decisions d) actor (dos_items d)
      = Ok (NeedMore (saturating_u32 (counted_approvals (dos_unit d) (dos_decisions d) + 1))
                     (u_quorum_required (dos_unit d))) ->
    votes ≡ₚ mkDecision (u_id (dos_unit d)) actor (u_generation (dos_unit d)) Approve note now false
               :: dos_decisions d ->
    evolves d (mkDossier (bumped (dos_unit d)) (dos_items d) votes)
| evolves_approve actor note now votes :
    evaluate_approve (dos_unit d) (dos_decisions d) actor (dos_items d) = Ok Apply ->
    votes ≡ₚ mkDecision (u_id (dos_unit d)) actor (u_generation (dos_unit d)) Approve note now false
               :: dos_decisions d ->
    evolves d (mkDossier (with_state (bumped (dos_unit d)) Approved (Some now) None)
                 (dos_items d) votes)
| evolves_reject actor note now votes :
    already_voted (dos_unit d) (dos_decisions d) actor = false ->
    votes ≡ₚ mkDecision (u_id (dos_unit d)) actor (u_generation (dos_unit d)) Reject (Some note) now false
               :: dos_decisions d ->
    evolves d (mkDossier (with_state (bumped (dos_unit d)) Rejected (Some now) (Some note))
                 (dos_items d) votes)
| evolves_withdraw now :
    evolves d (mkDossier (with_state (bumped (dos_unit d)) Withdrawn (Some now) None)
                 (dos_items d) (dos_decisions d)).

(** The rows of unit [id] before and after a committed transaction. *)
Inductive transition (id : Uuid) : option Dossier -> option Dossier -> Prop :=
| transition_none o : transition id o o
| transition_create d : created id d -> transition id None (Some d)
| transition_evolve d d' : u_state (dos_unit d) = Pending -> evolves d d' ->
    transition id (Some d) (Some d').
End spec.

Section refinement.
Context {W : Type} `{!Store W} `{!StoreLaws W} `{!Json} `{!Sha256} `{!UuidSource}.

(** Every stored unit is found under its own id. *)
Definition keyed (w : W) : Prop := forall id d, dossier w id = Some d -> u_id (dos_unit d) = id.

Lemma writes_trans (f g h : Uuid -> option Dossier) id d d' :
  writes f g id d -> writes g h id d' -> writes f h id d'.
Proof. intros Hfg Hgh k. rewrite Hgh, Hfg. by case_decide. Qed.

Lemma writes_quiet (f g h : Uuid -> option Dossier) id d :
  writes f g id d -> (forall k, h k = g k) -> writes f h id d.
Proof. intros Hfg Hgh k. by rewrite Hgh, Hfg. Qed.

Lemma writes_at (f g : Uuid -> option Dossier) id d : writes f g id d -> g id = Some d.
Proof. intros ->. by case_decide. Qed.

Lemma load_pending_ok id w u w' : load_pending id w = Ok (u, w') ->
  exists d, dossier w id = Some d /\ u_state (dos_unit d) = Pending /\ u = bumped (dos_unit d) /\
    writes (dossier w) (dossier w') id (mkDossier u (dos_items d) (dos_decisions d)).
Proof.
  unfold load_pending. intros Hrun. tx_inv. rewrite unit_of_law in E. injection E as <- ->.
  apply ok_or_ok in E0. destruct (dossier _ id) as [d|] eqn:Hd; [|done].
  injection E0 as <-. case_bool_decide as Hs; [done|]. tx_inv.
  destruct (bump_hit _ _ _ Hd) as (w1 & Hb & Hw). rewrite Hb in E. injection E as <- <-.
  cbn in Hrun. injection Hrun as <- <-. exists d. split; [done|]. split; [|by split].
  by destruct (u_state (dos_unit d)).
Qed.

Lemma refresh_if_stale_ok s `{!SubjectLaws s} u items d w r w' :
  dossier w (u_id u) = Some d -> dos_unit d = u -> refresh_if_stale s u items w = Ok (r, w') ->
  match r with
  | None => forall k, dossier w' k = dossier w k
  | Some generation =>
      generation = saturating_i32 (u_generation u + 1) /\
      exists snap hash items',
        fingerprinted (with_content u generation snap hash) items' /\
        writes (dossier w) (dossier w') (u_id u)
          (mkDossier (with_content u generation snap hash) items'
             (mark_stale generation <$> dos_decisions d))
  end.
Proof.
  intros Hd Hu. unfold refresh_if_stale. intros Hrun. tx_inv. pose proof (collect_quiet _ _ _ _ E) as Hq.
  case_bool_decide as Hh; tx_inv; [done|]. split; [done|].
  apply refresh_ok in E0 as (d0 & Hd0 & Hnd & items' & Hp & Hw).
  rewrite Hq, Hd in Hd0. injection Hd0 as <-. rewrite Hu in Hw.
  eexists _, _, items'. split; [split|].
  - by rewrite Hp.
  - cbn. exact (snapshot_hash_perm _ _ _ Hp Hnd).
  - intros k. rewrite Hw. case_decide; [done|apply Hq].
Qed.

(** A write of an evolved unit is a transition of every unit. *)
Lemma evolves_transition (f g : Uuid -> option Dossier) id d d' :
  f id = Some d -> u_state (dos_unit d) = Pending -> evolves d d' -> writes f g id d' ->
  forall k, transition k (f k) (g k).
Proof.
  intros Hd Hs He Hw k. rewrite Hw. case_decide as Hk; [subst k|constructor].
  rewrite Hd. by constructor.
Qed.

Lemma insert_decision_at (w : W) v x w' d : insert_decision v w = Ok (x, w') ->
  dossier w (d_unit_id v) = Some d ->
  exists votes, votes ≡ₚ v :: dos_decisions d /\
    writes (dossier w) (dossier w') (d_unit_id v) (mkDossier (dos_unit d) (dos_items d) votes).
Proof. intros (d0 & -> & _ & votes & Hp & Hw)%insert_decision_ok [= ->]. by exists votes. Qed.

Lemma set_state_at w id state decided_at note x w' d :
  set_state id state decided_at note w = Ok (x, w') -> dossier w id = Some d ->
  writes (dossier w) (dossier w') id
    (mkDossier (with_state (dos_unit d) state decided_at note) (dos_items d) (dos_decisions d)).
Proof.
  intros Hr Hd. destruct (set_state_law w id state decided_at note d Hd) as (w1 & Hr1 & Hw).
  rewrite Hr in Hr1. by injection Hr1 as _ <-.
Qed.

Lemma evaluate_need_more u decisions actor items have need :
  evaluate_approve u decisions actor items = Ok (NeedMore have need) ->
  have = saturating_u32 (counted_approvals u decisions + 1) /\ need = u_quorum_required u.
Proof.
  unfold evaluate_approve. destruct (refusal _); [done|]. case_match; [done|].
  by intros [= <- <-].
Qed.

Lemma approve_refines s `{!SubjectLaws s} w id actor seen note now out w' : keyed w ->
  approve s id actor seen note now w = Ok (out, w') ->
  forall k, transition k (dossier w k) (dossier w' k).
Proof.
  intros Hkey. unfold approve. intros Hrun. tx_inv.
  apply load_pending_ok in E0 as (d & Hd & Hs & -> & Hw).
  pose proof (writes_at _ _ _ _ Hw) as Hat. pose proof (Hkey _ _ Hd) as <-.
  rewrite (items_of_law _ _ _ Hat) in E2. injection E2 as <- <-.
  rewrite (decisions_of_law _ _ _ Hat) in E3. injection E3 as <- <-.
  change (u_id (dos_unit d)) with (u_id (bumped (dos_unit d))) in Hat.
  apply (refresh_if_stale_ok s _ _ _ _ _ _ Hat eq_refl) in E5. destruct r5 as [g|].
  - destruct E5 as (Hg & snap & hash & items' & Hfp & Hw1). tx_inv.
    apply (evolves_transition _ _ _ d _ Hd Hs) with (2 := writes_trans _ _ _ _ _ _ Hw Hw1).
    by apply (evolves_refresh d).
  - tx_inv. rewrite <- E5 in Hat.
    apply insert_decision_at with (2 := Hat) in E0 as (votes & Hp & Hw1).
    pose proof (writes_trans _ _ _ _ _ _ (writes_quiet _ _ _ _ _ Hw E5) Hw1) as Hw2.
    destruct r4 as [have need|]; tx_inv.
    + apply (evolves_transition _ _ _ d _ Hd Hs) with (2 := Hw2).
      apply evaluate_need_more in E4 as Hn. destruct Hn as [-> ->]. by eapply (evolves_vote d).
    + pose proof (apply_quiet _ _ _ _ _ E0) as Hq1. pose proof (unlock_quiet _ _ _ _ _ _ E2) as Hq2.
      pose proof (writes_quiet _ _ _ _ _ (writes_quiet _ _ _ _ _ Hw2 Hq1) Hq2) as Hw3.
      apply set_state_at with (2 := writes_at _ _ _ _ Hw3) in E3.
      apply (evolves_transition _ _ _ d _ Hd Hs) with (2 := writes_trans _ _ _ _ _ _ Hw3 E3).
      by eapply (evolves_approve d).
Qed.

Lemma reject_refines s `{!SubjectLaws s} w id actor seen note now out w' : keyed w ->
  reject s id actor seen note now w = Ok (out, w') ->
  forall k, transition k (dossier w k) (dossier w' k).
Proof.
  intros Hkey. unfold reject. destruct (trim_is_empty note); [done|]. intros Hrun. tx_inv.
  apply load_pending_ok in E0 as (d & Hd & Hs & -> & Hw).
  pose proof (writes_at _ _ _ _ Hw) as Hat. pose proof (Hkey _ _ Hd) as <-.
  rewrite (items_of_law _ _ _ Hat) in E2. injection E2 as <- <-.
  change (u_id (dos_unit d)) with (u_id (bumped (dos_unit d))) in Hat.
  apply (refresh_if_stale_ok s _ _ _ _ _ _ Hat eq_refl) in E3. destruct r3 as [g|].
  - destruct E3 as (Hg & snap & hash & items' & Hfp & Hw1). tx_inv.
    apply (evolves_transition _ _ _ d _ Hd Hs) with (2 := writes_trans _ _ _ _ _ _ Hw Hw1).
    by apply (evolves_refresh d).
  - rewrite <- E3 in Hat. tx_inv. change (u_id (bumped (dos_unit d))) with (u_id (dos_unit d)) in Hat.
    rewrite (decisions_of_law _ _ _ Hat) in E0. injection E0 as <- <-.
    cbn [dos_decisions] in Hrun. destruct (already_voted _ _ _) eqn:Hv; [done|]. tx_inv.
    apply insert_decision_at with (2 := Hat) in E0 as (votes & Hp & Hw1).
    pose proof (unlock_quiet _ _ _ _ _ _ E2) as Hq.
    pose proof (writes_quiet _ _ _ _ _
      (writes_trans _ _ _ _ _ _ (writes_quiet _ _ _ _ _ Hw E3) Hw1) Hq) as Hw2.
    apply set_state_at with (2 := writes_at _ _ _ _ Hw2) in E4.
    apply (evolves_transition _ _ _ d _ Hd Hs) with (2 := writes_trans _ _ _ _ _ _ Hw2 E4).
    by eapply (evolves_reject d).
Qed.

Lemma withdraw_refines s `{!SubjectLaws s} w id actor now out w' :
  withdraw s id actor now w = Ok (out, w') -> forall k, transition k (dossier w k) (dossier w' k).
Proof.
  unfold withdraw. intros Hrun. tx_inv. apply load_pending_ok in E as (d & Hd & Hs & -> & Hw).
  case_bool_decide; tx_inv. pose proof (writes_at _ _ _ _ Hw) as Hat.
  rewrite (items_of_law _ _ _ Hat) in E. injection E as <- <-.
  pose proof (writes_quiet _ _ _ _ _ Hw (unlock_quiet _ _ _ _ _ _ E0)) as Hw1.
  apply set_state_at with (2 := writes_at _ _ _ _ Hw1) in Hrun.
  apply (evolves_transition _ _ _ d _ Hd Hs) with (2 := writes_trans _ _ _ _ _ _ Hw1 Hrun).
  apply (evolves_withdraw d).
Qed.

Lemma creates_transition (f g : Uuid -> option Dossier) id d :
  f id = None -> created id d -> writes f g id d -> forall k, transition k (f k) (g k).
Proof.
  intros Hn Hc Hw k. rewrite Hw. case_decide as Hk; [subst k|constructor].
  rewrite Hn. by constructor.
Qed.

Lemma submit_refines s `{!SubjectLaws s} w new_v4 req out w' :
  submit s new_v4 req w = Ok (out, w') -> forall k, transition k (dossier w k) (dossier w' k).
Proof.
  unfold submit. case_bool_decide; intros Hrun; tx_inv.
  pose proof (collect_quiet _ _ _ _ E) as Hq1. pose proof (validate_quiet _ _ _ _ E0) as Hq2.
  apply insert_unit_ok in E1 as (Hn & Hnd & items' & Hp & Hw). cbn [u_id] in *.
  assert (Hw0 : writes (dossier w) (dossier w3) new_v4 (mkDossier (mkUnit new_v4 (req_tenant_id req)
      (s_kind s) (s_ref_type s) (req_ref_id req) Pending (req_common_effective_date req)
      (quorum_for (req_policy req) (s_kind s)) 1 (req_actor req) (req_now req) (req_note req) None
      None (snapshot s r (req_common_effective_date req))
      (snapshot_hash r (req_common_effective_date req)) 1) items' [])).
  { intros k. rewrite (lock_quiet _ _ _ _ _ E2), Hw. case_decide; [done|]. by rewrite Hq2, Hq1. }
  rewrite Hq2, Hq1 in Hn.
  assert (Hfp : NoDup (item_key <$> items') /\ snapshot_hash items' (req_common_effective_date req)
      = snapshot_hash r (req_common_effective_date req)).
  { split; [by rewrite Hp|]. exact (snapshot_hash_perm _ _ _ Hp Hnd). }
  destruct (Z.eqb_spec (quorum_for (req_policy req) (s_kind s)) 0) as [Hz|_]; tx_inv.
  - pose proof (writes_quiet _ _ _ _ _ (writes_quiet _ _ _ _ _ Hw0
      (apply_quiet _ _ _ _ _ E1)) (unlock_quiet _ _ _ _ _ _ E3)) as Hw1.
    apply set_state_at with (2 := writes_at _ _ _ _ Hw1) in E4.
    apply (creates_transition _ _ _ _ Hn) with (2 := writes_trans _ _ _ _ _ _ Hw1 E4).
    constructor; try done. by right.
  - apply (creates_transition _ _ _ _ Hn) with (2 := Hw0). constructor; try done. by left.
Qed.

(** ** Sequences of committed transactions

    A failed transaction is rolled back and changes nothing; the gears' own edits of
    the content under review leave the approval tables alone. *)
Inductive step (w w' : W) : Prop :=
| step_submit s new_v4 req out : SubjectLaws s ->
    submit s new_v4 req w = Ok (out, w') -> step w w'
| step_approve s id actor seen note now out : SubjectLaws s ->
    approve s id actor seen note now w = Ok (out, w') -> step w w'
| step_reject s id actor seen note now out : SubjectLaws s ->
    reject s id actor seen note now w = Ok (out, w') -> step w w'
| step_withdraw s id actor now out : SubjectLaws s ->
    withdraw s id actor now w = Ok (out, w') -> step w w'
| step_business : (forall k, dossier w' k = dossier w k) -> step w w'.

Lemma transition_keyed id o o' : (forall d, o = Some d -> u_id (dos_unit d) = id) ->
  transition id o o' -> forall d, o' = Some d -> u_id (dos_unit d) = id.
Proof.
  intros Ho Ht. destruct Ht as [| d Hc | d d' _ He]; [done| |]; intros d0 [= <-].
  - by destruct Hc.
  - rewrite <- (Ho d eq_refl). by destruct He.
Qed.

Lemma step_transition w w' : keyed w -> step w w' ->
  (forall k, transition k (dossier w k) (dossier w' k)) /\ keyed w'.
Proof.
  intros Hkey Hs. assert (Ht : forall k, transition k (dossier w k) (dossier w' k)).
  { destruct Hs as [| | | |Hq]; eauto using submit_refines, approve_refines, reject_refines,
      withdraw_refines. intros k. rewrite Hq. constructor. }
  split; [done|]. intros id d. apply (transition_keyed id (dossier w id)); eauto.
Qed.
End refinement.

(** ** The invariant of a unit *)

Definition valid_votes (d : Dossier) : list Decision :=
  List.filter (counts (u_generation (dos_unit d))) (dos_decisions d).

Lemma counts_true g v : counts g v = true <->
  d_verdict v = Approve /\ d_stale v = false /\ d_generation v = g.
Proof.
  unfold counts. rewrite !andb_true_iff, bool_decide_eq_true, negb_true_iff, Z.eqb_eq. tauto.
Qed.

Lemma already_voted_false u decisions actor : already_voted u decisions actor = false <->
  ((actor, u_generation u) ∉ (vote_key <$> decisions)).
Proof.
  unfold already_voted. rewrite <- not_true_iff_false, existsb_exists, list_elem_of_fmap.
  apply not_iff_compat. split.
  - intros (v & Hv%list_elem_of_In & Hm). bool_to_prop. exists v. split; [|done].
    unfold vote_key. congruence.
  - intros (v & [= -> Hg] & Hv%list_elem_of_In). exists v. split; [done|].
    by rewrite bool_decide_true, Hg, Z.eqb_refl.
Qed.

Lemma evaluate_approve_ok u decisions actor items st :
  evaluate_approve u decisions actor items = Ok st ->
  u_state u = Pending /\ actor <> u_submitted_by u /\ (actor ∉ (created_by <$> items)) /\
  ((actor, u_generation u) ∉ (vote_key <$> decisions)) /\
  (st = Apply -> u_quorum_required u
     <= Z.of_nat (length (List.filter (counts (u_generation u)) decisions)) + 1).
Proof.
  unfold evaluate_approve, approve_eligibility, approvals, refusal.
  case_bool_decide as Hs; [done|]. destruct (_ || _) eqn:Hd; [done|].
  destruct (already_voted _ _ _) eqn:Hv; [done|]. apply already_voted_false in Hv. bool_to_prop.
  intros Hq. split; [by destruct (u_state u)|]. split; [done|]. split; [|split; [done|]].
  - intros Ha. apply not_true_iff_false in H0. apply H0, existsb_exists. exists actor.
    apply list_elem_of_In in Ha. split; [done|]. by apply bool_decide_eq_true.
  - intros ->. destruct (u_quorum_required u <=? _) eqn:E; [|done]. apply Z.leb_le in E.
    unfold saturating_u32, counted_approvals in E. destruct (Z.leb_spec (Z.of_nat (length (List.filter (counts (u_generation u)) decisions))) u32_max); lia.
Qed.

Section invariant.
Context `{!Json} `{!Sha256} `{!UuidSource}.

Record sound (n : Z) (d : Dossier) : Prop := {
  sound_generation : 1 <= u_generation (dos_unit d) <= n;
  sound_items : fingerprinted (dos_unit d) (dos_items d);
  sound_keys : NoDup (vote_key <$> dos_decisions d);
  sound_past v : v ∈ dos_decisions d -> d_generation v <= u_generation (dos_unit d);
  sound_duties v : v ∈ valid_votes d ->
    d_actor v <> u_submitted_by (dos_unit d) /\ (d_actor v ∉ (created_by <$> dos_items d));
  sound_verdicts v : u_state (dos_unit d) <> Rejected -> v ∈ dos_decisions d -> d_verdict v = Approve;
  sound_quorum : u_state (dos_unit d) = Approved ->
    u_quorum_required (dos_unit d) <= Z.of_nat (length (valid_votes d));
}.

Lemma created_sound id d : created id d -> sound 1 d.
Proof.
  destruct 1 as [u items Hid Hg Hv Hfp Hs]. split; cbn; rewrite ?Hg; try done.
  - constructor.
  - by intros v ?%not_elem_of_nil.
  - by intros v ?%not_elem_of_nil.
  - by intros v _ ?%not_elem_of_nil.
  - destruct Hs as [Hs|[_ ->]]; [congruence|done].
Qed.

Lemma sound_weaken n n' d : n <= n' -> sound n d -> sound n' d.
Proof. intros Hn [? ? ? ? ? ? ?]. split; auto; lia. Qed.

(** A new vote of the current generation, on the stored content. *)
Lemma sound_vote n d u votes v state :
  sound n d -> u_state (dos_unit d) = Pending -> votes ≡ₚ v :: dos_decisions d ->
  u_generation u = u_generation (dos_unit d) -> u_submitted_by u = u_submitted_by (dos_unit d) ->
  fingerprinted u (dos_items d) -> u_state u = state ->
  u_quorum_required u = u_quorum_required (dos_unit d) ->
  d_generation v = u_generation u -> (vote_key v ∉ (vote_key <$> dos_decisions d)) ->
  (counts (u_generation u) v = true ->
     d_actor v <> u_submitted_by u /\ (d_actor v ∉ (created_by <$> dos_items d))) ->
  (state <> Rejected -> d_verdict v = Approve) ->
  (state = Approved -> counts (u_generation u) v = true /\
     u_quorum_required u <= Z.of_nat (length (valid_votes d)) + 1) ->
  sound n (mkDossier u (dos_items d) votes).
Proof.
  intros [Hgen _ Hk Hpast Hdut Hver _] Hs Hp Hg Hsub Hfp Hst Hq Hvg Hnew Hvd Hvv Hvq.
  unfold valid_votes in *. split; unfold valid_votes; cbn [dos_unit dos_items dos_decisions]; try done; try lia.
  - rewrite Hp. by constructor.
  - intros x. rewrite Hp, elem_of_cons. intros [->|Hx]; [lia|specialize (Hpast x Hx); lia].
  - intros x [Hc Hx]%elem_of_filter_bool. rewrite Hp, elem_of_cons in Hx.
    destruct Hx as [->|Hx]; [by apply Hvd|]. rewrite Hsub. apply Hdut, elem_of_filter_bool.
    by rewrite <- Hg.
  - intros x Hr. rewrite Hp, elem_of_cons. intros [->|Hx]; [apply Hvv; congruence|].
    apply Hver; [congruence|done].
  - intros Ha. destruct Hvq as [Hc Hle]; [congruence|]. assert (List.filter (counts (u_generation u)) votes
      ≡ₚ v :: List.filter (counts (u_generation u)) (dos_decisions d)) as ->.
    { rewrite Hp. cbn [List.filter]. by rewrite Hc. }
    cbn [length]. rewrite Hg. lia.
Qed.

Lemma saturating_i32_id x : i32_min <= x <= i32_max -> saturating_i32 x = x.
Proof. unfold saturating_i32. lia. Qed.

Lemma vote_key_stale g (l : list Decision) : vote_key <$> (mark_stale g <$> l) = vote_key <$> l.
Proof. rewrite <- list_fmap_compose. by apply list_fmap_ext. Qed.

(** After a refresh no earlier vote counts. *)
Lemma sound_refresh n d snap hash items :
  sound n d -> u_state (dos_unit d) = Pending ->
  let u := with_content (bumped (dos_unit d)) (u_generation (dos_unit d) + 1) snap hash in
  fingerprinted u items ->
  sound (n + 1) (mkDossier u items (mark_stale (u_generation u) <$> dos_decisions d)).
Proof.
  intros [Hgen _ Hk Hpast _ Hver _] Hs u Hfp. subst u.
  assert (Hnone : forall v, v ∈ dos_decisions d -> d_generation v < u_generation (dos_unit d) + 1)
    by (intros v Hv; specialize (Hpast v Hv); lia).
  split; unfold valid_votes; cbn [dos_unit dos_items dos_decisions with_content u_generation u_state];
    try done; try lia.
  - by rewrite vote_key_stale.
  - intros v (v0 & -> & Hv)%list_elem_of_fmap. cbn. specialize (Hnone v0 Hv). lia.
  - intros v [Hc (v0 & -> & Hv)%list_elem_of_fmap]%elem_of_filter_bool.
    apply counts_true in Hc as (_ & _ & Hg). cbn in Hg. specialize (Hnone v0 Hv). lia.
  - intros v _ (v0 & -> & Hv)%list_elem_of_fmap. cbn. apply Hver; [congruence|done].
  - cbn. congruence.
Qed.

Lemma evolves_sound n d d' : n < i32_max -> sound n d -> u_state (dos_unit d) = Pending ->
  evolves d d' -> sound (n + 1) d'.
Proof.
  intros Hn Hd Hs He. pose proof (sound_generation _ _ Hd) as Hg.
  pose proof (sound_items _ _ Hd) as Hfp.
  destruct He as [g snap hash items -> Hfp'|actor note now votes Ha Hp|actor note now votes Ha Hp
    |actor note now votes Ha Hp|now].
  - rewrite saturating_i32_id in * by (unfold i32_min, i32_max in *; lia). by apply sound_refresh.
  - apply evaluate_approve_ok in Ha as (_ & Hsub & Hauth & Hnew & _).
    apply (sound_weaken n); [lia|]. by eapply sound_vote; cbn; try done; rewrite ?Hs.
  - apply evaluate_approve_ok in Ha as (_ & Hsub & Hauth & Hnew & Hq).
    apply (sound_weaken n); [lia|]. eapply sound_vote; cbn; try done. intros _.
    split; [by apply counts_true|]. exact (Hq eq_refl).
  - apply already_voted_false in Ha. apply (sound_weaken n); [lia|].
    by eapply sound_vote; cbn; try done.
  - apply (sound_weaken n); [lia|]. destruct Hd as [H1' H2' H3' H4' H5' H6' H7'].
    split; cbn; try done. intros v _. apply H6'. congruence.
Qed.

Lemma transition_sound id n o o' : 1 <= n < i32_max -> (forall d, o = Some d -> sound n d) ->
  transition id o o' -> forall d, o' = Some d -> sound (n + 1) d.
Proof.
  intros Hn Ho Ht. destruct Ht as [| d Hc | d d' Hs He]; intros d0 Hd.
  - apply (sound_weaken n); [lia|auto].
  - injection Hd as <-. apply (sound_weaken 1); [lia|]. by eapply created_sound.
  - injection Hd as <-. apply (evolves_sound n d); auto. lia.
Qed.

Lemma voters_NoDup n d : sound n d -> NoDup (d_actor <$> valid_votes d).
Proof.
  intros Hd. apply (NoDup_fmap_1 (fun a => (a, u_generation (dos_unit d)))).
  rewrite <- list_fmap_compose.
  rewrite (list_fmap_ext _ vote_key).
  - pose proof (sound_keys _ _ Hd) as Hk. unfold valid_votes. revert Hk.
    induction (dos_decisions d) as [|v l IH]; cbn; [done|]. intros [Hv Hl]%NoDup_cons.
    destruct (counts _ v); [|by apply IH]. cbn. constructor; [|by apply IH].
    intros (x & Hx & [_ Hin]%elem_of_filter_bool)%list_elem_of_fmap. apply Hv. rewrite Hx.
    by apply list_elem_of_fmap_2.
  - intros i v Hv%list_elem_of_lookup_2. apply elem_of_filter_bool in Hv as [Hc _].
    apply counts_true in Hc as (_ & _ & Hg). unfold vote_key. cbn. by rewrite Hg.
Qed.
End invariant.

(** ** Correctness *)

Section correctness.
Context {W : Type} `{!Store W} `{!StoreLaws W} `{!Json} `{!Sha256} `{!UuidSource}.

Definition no_units (w : W) : Prop := forall id, dossier w id = None.

Definition all_sound (m : Z) (w : W) : Prop :=
  keyed w /\ forall id d, dossier w id = Some d -> sound m d.

Lemma steps_sound n : forall m w w', 1 <= m -> m + Z.of_nat n <= i32_max ->
  all_sound m w -> nsteps step n w w' -> all_sound (m + Z.of_nat n) w'.
Proof.
  induction n as [|n IH]; intros m w w' Hm Hn Hw Hr; inversion Hr as [|? ? w1 ? Hs Hrest]; subst.
  - by rewrite Z.add_0_r.
  - replace (m + Z.of_nat (S n)) with ((m + 1) + Z.of_nat n) by lia.
    apply (IH (m + 1) w1); [lia|lia| |done]. destruct Hw as [Hk Hall].
    destruct (step_transition _ _ Hk Hs) as [Ht Hk']. split; [done|]. intros id d.
    apply (transition_sound id m (dossier w id)); [lia|apply Hall|apply Ht].
Qed.

Lemma reachable_sound n w0 w : no_units w0 -> nsteps step n w0 w -> Z.of_nat n < i32_max ->
  all_sound (1 + Z.of_nat n) w.
Proof.
  intros Hnone Hr Hn. apply (steps_sound n 1 w0); [lia|lia| |done].
  split; intros id d Hd; by rewrite Hnone in Hd.
Qed.

(** C5: Separation of duties.  Along any sequence of committed submits, approvals,
    rejections, withdrawals and content edits, fewer than [i32::MAX] of them, an
    approved unit has the required quorum of distinct reviewers, each with a live
    approve vote of the unit's current generation, none of them its submitter or the
    author of one of its items; nobody rejected it; and the items it stores are the
    content the fingerprint of that generation was taken of. *)
Theorem approved_by_quorum n w0 w id d :
  no_units w0 -> nsteps step n w0 w -> Z.of_nat n < i32_max ->
  dossier w id = Some d -> u_state (dos_unit d) = Approved ->
  (exists voters : list Uuid,
     NoDup voters /\ u_quorum_required (dos_unit d) <= Z.of_nat (length voters) /\
     forall a, a ∈ voters ->
       a <> u_submitted_by (dos_unit d) /\ (a ∉ (created_by <$> dos_items d)) /\
       exists v, v ∈ dos_decisions d /\ d_actor v = a /\ d_verdict v = Approve /\
         d_generation v = u_generation (dos_unit d) /\ d_stale v = false) /\
  (forall v, v ∈ dos_decisions d -> d_verdict v = Approve) /\
  snapshot_hash (dos_items d) (u_common_effective_date (dos_unit d)) = u_snapshot_hash (dos_unit d).
Proof.
  intros Hnone Hr Hn Hd Hs. destruct (reachable_sound n w0 w Hnone Hr Hn) as [_ Hall].
  specialize (Hall id d Hd). split; [|split].
  - exists (d_actor <$> valid_votes d). split; [by eapply voters_NoDup|].
    split; [rewrite length_fmap; by eapply sound_quorum|].
    intros a (v & -> & Hv)%list_elem_of_fmap. destruct (sound_duties _ _ Hall v Hv) as [H1' H2'].
    do 2 (split; [done|]). apply elem_of_filter_bool in Hv as [Hc Hv].
    apply counts_true in Hc as (? & ? & ?). by exists v.
  - intros v. apply (sound_verdicts _ _ Hall). congruence.
  - apply (sound_items _ _ Hall).
Qed.

(** A decided unit is final.  Once approved, rejected or withdrawn, its unit row,
    its items and its votes never change again, whatever transactions follow, and a
    later withdrawal answers that it is already decided. *)
Theorem decided_unit_final w w' id d s actor now :
  keyed w -> rtc step w w' -> dossier w id = Some d -> u_state (dos_unit d) <> Pending ->
  dossier w' id = Some d /\ withdraw s id actor now w' = Err ApprovalError.AlreadyDecided.
Proof.
  intros Hk Hr Hd Hs. assert (Hd' : dossier w' id = Some d).
  { induction Hr as [|w w1 w' Hstep _ IH]; [done|].
    destruct (step_transition _ _ Hk Hstep) as [Ht Hk1]. apply (IH Hk1).
    specialize (Ht id). rewrite Hd in Ht. by inversion Ht. }
  split; [done|]. unfold withdraw, load_pending, mbind, tx_bind. rewrite unit_of_law, Hd'. cbn.
  by rewrite bool_decide_true.
Qed.

Lemma evolves_version d d' : evolves d d' -> u_version (dos_unit d) < u_version (dos_unit d').
Proof. destruct 1; cbn; lia. Qed.

(** The version identifies the content of a unit: if, after any committed
    transactions, a unit has the version it had, then its row, its items and its
    votes are the same.  So the conditional bump of a transaction that read the unit
    earlier succeeds exactly when nothing has happened to it since. *)
Theorem version_cas_sound w w' id d :
  keyed w -> rtc step w w' -> dossier w id = Some d ->
  exists d', dossier w' id = Some d' /\ u_version (dos_unit d) <= u_version (dos_unit d') /\
    ((exists w'', bump_version id (u_version (dos_unit d)) w' = Ok (true, w'')) <-> d' = d).
Proof.
  intros Hk Hr Hd.
  assert (Hmono : exists d', dossier w' id = Some d' /\
    (d' = d \/ u_version (dos_unit d) < u_version (dos_unit d'))).
  { revert d Hd. induction Hr as [w|w w1 w' Hstep _ IH]; intros d Hd; [by exists d; auto|].
    destruct (step_transition _ _ Hk Hstep) as [Ht Hk1]. specialize (Ht id). rewrite Hd in Ht.
    inversion Ht as [o Ho Ho'|?|d1 d2 _ He Ho Ho']; subst.
    - apply (IH Hk1). congruence.
    - destruct (IH Hk1 d2) as (d' & Hd' & Hv); [congruence|]. exists d'. split; [done|]. right.
      apply evolves_version in He. destruct Hv as [->|Hv]; lia. }
  destruct Hmono as (d' & Hd' & Hv). exists d'. split; [done|]. split; [destruct Hv as [->|]; lia|].
  split.
  - intros [w'' Hb]. destruct Hv as [->|Hv]; [done|].
    rewrite (bump_miss _ _ _ _ Hd') in Hb by lia. done.
  - intros ->. destruct (bump_hit _ _ _ Hd') as (w'' & Hb & _). by exists w''.
Qed.

Lemma tx_bind_run {A B} (m : TX W A) (f : A -> TX W B) w a w' :
  m w = Ok (a, w') -> (m ≫= f) w = f a w'.
Proof. intros Hm. unfold mbind, tx_bind. by rewrite Hm. Qed.

Lemma load_pending_run w id d : dossier w id = Some d -> u_state (dos_unit d) = Pending ->
  exists w', load_pending id w = Ok (bumped (dos_unit d), w') /\
    writes (dossier w) (dossier w') id (mkDossier (bumped (dos_unit d)) (dos_items d) (dos_decisions d)).
Proof.
  intros Hd Hs. destruct (bump_hit _ _ _ Hd) as (w' & Hb & Hw). exists w'. split; [|done].
  unfold load_pending. rewrite (tx_bind_run _ _ _ _ _ (unit_of_law w id)), Hd.
  unfold lift, mbind, tx_bind. cbn. rewrite bool_decide_false by (intros Hn; by apply Hn).
  by rewrite Hb.
Qed.

Lemma insert_decision_run w v d : dossier w (d_unit_id v) = Some d ->
  (vote_key v ∉ (vote_key <$> dos_decisions d)) ->
  exists w' votes, insert_decision v w = Ok (tt, w') /\ votes ≡ₚ v :: dos_decisions d /\
    writes (dossier w) (dossier w') (d_unit_id v) (mkDossier (dos_unit d) (dos_items d) votes).
Proof.
  intros Hd Hv. destruct (is_ok_exists _ (insert_decision_progress w v d Hd Hv)) as [[[] w'] Hr].
  destruct (insert_decision_at _ _ _ _ _ Hr Hd) as (votes & Hp & Hw). by exists w', votes.
Qed.

Lemma refresh_run w id items snap hash g d : dossier w id = Some d -> NoDup (item_key <$> items) ->
  exists w' items', refresh id items snap hash g w = Ok (tt, w') /\ items' ≡ₚ items /\
    writes (dossier w) (dossier w') id
      (mkDossier (with_content (dos_unit d) g snap hash) items' (mark_stale g <$> dos_decisions d)).
Proof.
  intros Hd Hi. destruct (is_ok_exists _ (refresh_progress w id items snap hash g d Hd Hi)) as [[[] w'] Hr].
  destruct (refresh_ok _ _ _ _ _ _ _ _ Hr) as (d0 & Hd0 & _ & items' & Hp & Hw).
  rewrite Hd in Hd0. injection Hd0 as <-. by exists w', items'.
Qed.

Section vote.
Context (s : ApprovalSubject W) `{!SubjectLaws s} (w : W) (id : Uuid) (d : Dossier).
Context (fresh : list ItemRef).
Hypothesis (Hkey : u_id (dos_unit d) = id) (Hd : dossier w id = Some d).
Hypothesis (Hpending : u_state (dos_unit d) = Pending).
Hypothesis (Hkeys : NoDup (item_key <$> fresh)).
(** Under the bumped version the gear reads [fresh]; it can apply and unlock. *)
Hypothesis (Hcollect : forall u w1, load_pending id w = Ok (u, w1) ->
  exists w2, collect s (item_id <$> dos_items d) w1 = Ok (fresh, w2)).
Hypothesis (Happly : forall w, exists w', apply s (bumped (dos_unit d)) (dos_items d) w = Ok (tt, w')).
Hypothesis (Hunlock : forall w, exists w', unlock s (bumped (dos_unit d)) (dos_items d) true w = Ok (tt, w')).

Lemma refresh_if_stale_run u1 w1 : load_pending id w = Ok (u1, w1) ->
  dossier w1 id = Some (mkDossier (bumped (dos_unit d)) (dos_items d) (dos_decisions d)) ->
  let hash := snapshot_hash fresh (u_common_effective_date (dos_unit d)) in
  let g := saturating_i32 (u_generation (dos_unit d) + 1) in
  exists w2 items', items' ≡ₚ fresh /\
    refresh_if_stale s (bumped (dos_unit d)) (dos_items d) w1
      = Ok (if bool_decide (hash = u_snapshot_hash (dos_unit d)) then None else Some g, w2) /\
    if bool_decide (hash = u_snapshot_hash (dos_unit d)) then forall k, dossier w2 k = dossier w1 k
    else writes (dossier w1) (dossier w2) id
      (mkDossier (with_content (bumped (dos_unit d)) g
                    (snapshot s fresh (u_common_effective_date (dos_unit d))) hash)
         items' (mark_stale g <$> dos_decisions d)).
Proof.
  intros Hl Hd1. cbn zeta. destruct (Hcollect _ w1 Hl) as [w2 Hc].
  pose proof (collect_quiet _ _ _ _ Hc) as Hq. unfold refresh_if_stale.
  rewrite (tx_bind_run _ _ _ _ _ Hc). cbn [bumped with_version u_common_effective_date u_snapshot_hash].
  case_bool_decide; [by exists w2, fresh|].
  rewrite <- Hq in Hd1. subst id.
  destruct (refresh_run w2 _ fresh (snapshot s fresh (u_common_effective_date (dos_unit d)))
    (snapshot_hash fresh (u_common_effective_date (dos_unit d)))
    (saturating_i32 (u_generation (dos_unit d) + 1)) _ Hd1 Hkeys) as (w3 & items' & Hr & Hp & Hw).
  exists w3, items'. split; [done|]. split; [by apply tx_bind_run with (1 := Hr)|].
  intros k. rewrite Hw. case_decide; [done|apply Hq].
Qed.

(** What an approval does.  On a pending unit whose rows are read at the
    reviewer's generation, with a note of legal length and a gear that can read,
    apply and unlock the content: an ineligible reviewer gets exactly the refusal of
    the rules and nothing is written; content that changed since the fingerprint
    moves the unit to the next generation, every earlier vote stale and no vote
    cast; otherwise one approve vote is added, and the unit stays pending or, at
    quorum, is approved.  No other unit is touched. *)
Theorem approve_effect actor note now : check_note_length note = Ok tt ->
  let u := dos_unit d in
  let hash := snapshot_hash fresh (u_common_effective_date u) in
  let g := saturating_i32 (u_generation u + 1) in
  let vote := mkDecision id actor (u_generation u) Approve note now false in
  let run := approve s id actor (u_generation u) note now w in
  match evaluate_approve u (dos_decisions d) actor (dos_items d) with
  | Err e => run = Err e
  | Ok st =>
      exists w' items' votes, items' ≡ₚ fresh /\ votes ≡ₚ vote :: dos_decisions d /\
      if bool_decide (hash = u_snapshot_hash u) then
        match st with
        | NeedMore have need =>
            run = Ok (ApproveOutcome.Pending have need, w') /\
            writes (dossier w) (dossier w') id (mkDossier (bumped u) (dos_items d) votes)
        | Apply =>
            run = Ok (ApproveOutcome.Applied, w') /\
            writes (dossier w) (dossier w') id
              (mkDossier (with_state (bumped u) Approved (Some now) None) (dos_items d) votes)
        end
      else
        run = Ok (ApproveOutcome.Refreshed g, w') /\
        writes (dossier w) (dossier w') id
          (mkDossier (with_content (bumped u) g (snapshot s fresh (u_common_effective_date u)) hash)
             items' (mark_stale g <$> dos_decisions d))
  end.
Proof.
  intros Hnote. cbn zeta. unfold approve.
  destruct (load_pending_run w id d Hd Hpending) as (w1 & Hl & Hw1).
  pose proof (writes_at _ _ _ _ Hw1) as Hd1.
  rewrite (tx_bind_run _ _ w tt w) by (by rewrite Hnote). rewrite (tx_bind_run _ _ _ _ _ Hl).
  rewrite (tx_bind_run _ _ w1 tt w1) by (unfold check_generation; cbn; by rewrite Z.eqb_refl).
  rewrite (tx_bind_run _ _ _ _ _ (items_of_law _ _ _ Hd1)).
  rewrite (tx_bind_run _ _ _ _ _ (decisions_of_law _ _ _ Hd1)). cbn [dos_items dos_decisions].
  change (evaluate_approve (bumped (dos_unit d))) with (evaluate_approve (dos_unit d)).
  destruct (evaluate_approve (dos_unit d) (dos_decisions d) actor (dos_items d)) as [st|e] eqn:He; [|done].
  rewrite (tx_bind_run _ _ w1 st w1) by done.
  destruct (refresh_if_stale_run _ w1 Hl Hd1) as (w2 & items' & Hp & Hr & Hw2).
  rewrite (tx_bind_run _ _ _ _ _ Hr). clear Hr.
  set (vote := mkDecision id actor (u_generation (dos_unit d)) Approve note now false).
  case_bool_decide as Hh.
  2:{ exists w2, items', (vote :: dos_decisions d). do 3 (split; [done|]).
      by eapply writes_trans. }
  apply evaluate_approve_ok in He as (_ & _ & _ & Hnew & _). rewrite <- Hw2 in Hd1.
  destruct (insert_decision_run w2 vote _ Hd1 Hnew) as (w3 & votes & Hi & Hv & Hw3).
  pose proof (writes_trans _ _ _ _ _ _ (writes_quiet _ _ _ _ _ Hw1 Hw2) Hw3) as Hw.
  rewrite (tx_bind_run _ _ _ _ _ Hi). destruct st as [have need|].
  { by exists w3, items', votes. }
  destruct (Happly w3) as [w4 Ha]. destruct (Hunlock w4) as [w5 Hu].
  pose proof (writes_quiet _ _ _ _ _ (writes_quiet _ _ _ _ _ Hw (apply_quiet _ _ _ _ _ Ha))
    (unlock_quiet _ _ _ _ _ _ Hu)) as Hw5.
  destruct (set_state_law w5 id Approved (Some now) None _ (writes_at _ _ _ _ Hw5)) as (w6 & Hs & Hw6).
  exists w6, items', votes. do 2 (split; [done|]). split; [|by eapply writes_trans].
  by rewrite (tx_bind_run _ _ _ _ _ Ha), (tx_bind_run _ _ _ _ _ Hu), (tx_bind_run _ _ _ _ _ Hs).
Qed.
End vote.
End correctness.

(** ** A concrete gear

    Its business state is the list of the items under review; the text of a value
    lists its leaves. *)

Section witnesses.

Fixpoint leaves (v : Value) : list Ascii.ascii :=
  match v with
  | VNull => bytes "null"
  | VBool b => bytes (if b then "true" else "false")
  | VNumber text => bytes text
  | VString s => bytes s
  | VArray a => flat_map leaves a
  | VObject m => flat_map (fun kv => bytes (fst kv) ++ leaves (snd kv)) m
  end.

#[local] Instance leaves_json : Json := {| to_vec := leaves; date_to_string d := pretty d |}.
#[local] Instance digest : Sha256 := sample_digest.
#[local] Instance uuids : UuidSource := sample_uuids.

Abbreviation World := (Tables (list ItemRef)).

Definition gear : ApprovalSubject World := {|
  s_kind := "prices";
  s_ref_type := "price_book";
  collect ids w := Ok (List.filter (fun i => bool_decide (item_id i ∈ ids)) (snd w), w);
  validate_submit _ w := Ok (tt, w);
  lock _ _ w := Ok (tt, w);
  snapshot items _ := VArray (after <$> items);
  apply _ _ w := Ok (tt, w);
  unlock _ _ _ w := Ok (tt, w);
|}.

#[local] Instance gear_laws : SubjectLaws gear.
Proof. by split; intros; intros ? ? ? [= <- <-]. Qed.

Definition price (text : string) : ItemRef := mkItemRef "price" 7%N 2%N None (VNumber text).
Definition request (quorum : Z) : SubmitRequest :=
  mkSubmitRequest 100%N 50%N [7%N] 1%N (mkPolicy quorum ∅) None None 0.
Definition start : World := (∅, [price "10.00"]).

(** The state a transaction commits. *)
Definition after_tx {W A} (m : TX W A) (w : W) : W :=
  match m w with Ok (_, w') => w' | Err _ => w end.

Lemma run_after {W A} (m : TX W A) w : is_ok (m w) = true -> exists a, m w = Ok (a, after_tx m w).
Proof. unfold after_tx. destruct (m w) as [[a w']|]; [by exists a|done]. Qed.

Definition submitted : World := after_tx (submit gear 9%N (request 2)) start.
Definition one_vote : World := after_tx (approve gear 9%N 3%N 1 None 1) submitted.
Definition two_votes : World := after_tx (approve gear 9%N 4%N 1 None 2) one_vote.

Lemma start_empty : no_units start.
Proof. intros id. apply lookup_empty. Qed.

Lemma submitted_step : step start submitted.
Proof.
  destruct (run_after (submit gear 9%N (request 2)) start) as [out Hout]; [vm_compute; reflexivity|].
  exact (step_submit _ _ gear 9%N (request 2) out _ Hout).
Qed.

Lemma voted_steps : nsteps step 3 start two_votes.
Proof.
  apply (nsteps_l _ _ _ submitted); [apply submitted_step|].
  destruct (run_after (approve gear 9%N 3%N 1 None 1) submitted) as [o1 H1]; [vm_compute; reflexivity|].
  apply (nsteps_l _ _ _ one_vote); [exact (step_approve _ _ gear 9%N 3%N 1 None 1 o1 _ H1)|].
  destruct (run_after (approve gear 9%N 4%N 1 None 2) one_vote) as [o2 H2]; [vm_compute; reflexivity|].
  apply nsteps_once. exact (step_approve _ _ gear 9%N 4%N 1 None 2 o2 _ H2).
Qed.

(** The rows of a unit, found by computation. *)
Lemma found {P : Dossier -> bool} (w : World) id :
  from_option P false (dossier w id) = true -> exists d, dossier w id = Some d /\ P d = true.
Proof. destruct (dossier w id) as [d|]; [by exists d|done]. Qed.

Lemma approved_by_quorum_witness : exists d, dossier two_votes 9%N = Some d /\
  u_quorum_required (dos_unit d) = 2 /\
  exists voters : list Uuid, NoDup voters /\
    u_quorum_required (dos_unit d) <= Z.of_nat (length voters) /\
    forall a, a ∈ voters -> a <> u_submitted_by (dos_unit d).
Proof.
  destruct (found (P := fun d => bool_decide (u_state (dos_unit d) = Approved)
    && (u_quorum_required (dos_unit d) =? 2)) two_votes 9%N) as (d & Hd & Hs);
    [vm_compute; reflexivity|].
  apply andb_true_iff in Hs as [Hs Hq]. apply bool_decide_eq_true in Hs. apply Z.eqb_eq in Hq.
  exists d. split; [exact Hd|]. split; [exact Hq|].
  destruct (approved_by_quorum 3 start two_votes 9%N d start_empty voted_steps
    ltac:(vm_compute; reflexivity) Hd Hs) as [(voters & Hnd & Hl & Ha) _].
  exists voters. split; [exact Hnd|]. split; [exact Hl|]. intros a Hin. apply (Ha a Hin).
Defined.

Lemma start_keyed : keyed start.
Proof. intros id d Hd. by rewrite start_empty in Hd. Qed.

Lemma submitted_keyed : keyed submitted.
Proof. apply (step_transition _ _ start_keyed submitted_step). Qed.

Definition withdrawn : World := after_tx (withdraw gear 9%N 1%N 3) submitted.

Lemma withdrawn_step : step submitted withdrawn.
Proof.
  destruct (run_after (withdraw gear 9%N 1%N 3) submitted) as [out Hout]; [vm_compute; reflexivity|].
  exact (step_withdraw _ _ gear 9%N 1%N 3 out _ Hout).
Qed.

(** A withdrawn unit is refused a second withdrawal. *)
Lemma decided_unit_final_witness :
  withdraw gear 9%N 1%N 4 withdrawn = Err ApprovalError.AlreadyDecided.
Proof.
  destruct (found (P := fun d => bool_decide (u_state (dos_unit d) = Withdrawn)) withdrawn 9%N)
    as (d & Hd & Hs); [vm_compute; reflexivity|]. apply bool_decide_eq_true in Hs.
  apply (decided_unit_final withdrawn withdrawn 9%N d gear 1%N 4).
  - apply (step_transition _ _ submitted_keyed withdrawn_step).
  - apply rtc_refl.
  - exact Hd.
  - rewrite Hs. discriminate.
Defined.

(** A transaction that read the submitted unit loses to the withdrawal. *)
Lemma version_cas_sound_witness : exists d d',
  dossier submitted 9%N = Some d /\ dossier withdrawn 9%N = Some d' /\
  u_version (dos_unit d) <= u_version (dos_unit d').
Proof.
  destruct (found (P := fun _ => true) submitted 9%N) as (d & Hd & _); [vm_compute; reflexivity|].
  destruct (version_cas_sound submitted withdrawn 9%N d submitted_keyed
    (rtc_once _ _ withdrawn_step) Hd) as (d' & Hd' & Hv & _).
  exists d, d'. split; [exact Hd|]. split; [exact Hd'|exact Hv].
Defined.

(** The submitter of the unit may not approve it; reviewer 3 may, and the vote pends. *)
Lemma approve_effect_witness :
  approve gear 9%N 1%N 1 None 5 submitted = Err ApprovalError.SodViolation /\
  exists w', approve gear 9%N 3%N 1 None 5 submitted = Ok (ApproveOutcome.Pending 1 2, w').
Proof.
  set (ok d := (u_id (dos_unit d) =? 9)%N && bool_decide (u_state (dos_unit d) = Pending)
    && (u_generation (dos_unit d) =? 1)
    && bool_decide (item_id <$> dos_items d = [7%N])
    && bool_decide (snapshot_hash [price "10.00"] (u_common_effective_date (dos_unit d))
                    = u_snapshot_hash (dos_unit d))
    && (match evaluate_approve (dos_unit d) (dos_decisions d) 1%N (dos_items d) with
        | Err ApprovalError.SodViolation => true | _ => false end)
    && (match evaluate_approve (dos_unit d) (dos_decisions d) 3%N (dos_items d) with
        | Ok (NeedMore 1 2) => true | _ => false end)).
  destruct (found (P := ok) submitted 9%N) as (d & Hd & Hok); [vm_compute; reflexivity|].
  unfold ok in Hok. rewrite !andb_true_iff in Hok. destruct Hok as [[[[[[Hid Hs] Hg] Hi] Hh] H1] H3].
  apply N.eqb_eq in Hid. apply bool_decide_eq_true in Hs. apply Z.eqb_eq in Hg.
  apply bool_decide_eq_true in Hi. apply bool_decide_eq_true in Hh.
  assert (Hc : forall u w1, load_pending 9%N submitted = Ok (u, w1) ->
    exists w2, collect gear (item_id <$> dos_items d) w1 = Ok ([price "10.00"], w2)).
  { intros u w1 Hl. assert (Hw1 : snd w1 = [price "10.00"]).
    { transitivity (snd (after_tx (load_pending 9%N) submitted)).
      - unfold after_tx. rewrite Hl. reflexivity.
      - vm_compute. reflexivity. }
    exists w1. unfold gear, collect. rewrite Hw1, Hi. reflexivity. }
  assert (Hnd : NoDup (item_key <$> [price "10.00"])) by (apply NoDup_singleton).
  pose proof (fun actor => approve_effect gear submitted 9%N d [price "10.00"] Hid Hd Hs Hnd Hc
    (fun w => ex_intro _ w eq_refl) (fun w => ex_intro _ w eq_refl) actor None 5 eq_refl) as He.
  cbn zeta in He. rewrite Hg, bool_decide_true in He by exact Hh. split.
  - specialize (He 1%N). destruct (evaluate_approve _ _ 1%N _) as [|e]; [discriminate H1|].
    rewrite He. destruct e; try discriminate H1. reflexivity.
  - specialize (He 3%N).
    destruct (evaluate_approve _ _ 3%N _) as [[have need|]|e]; [|discriminate H3..].
    destruct He as (w' & _ & _ & _ & _ & Hrun & _). exists w'. rewrite Hrun. clear -H3.
    destruct have as [|[|?|]|?]; try discriminate H3.
    destruct need as [|[?|[?|?|]|]|?]; try discriminate H3. reflexivity.
Defined.
End witnesses.
